(* ===== verification/_CoqProject ===== *)
-Q . S2P
Prelude.v
GoStrings.v
GoPath.v
GoNet.v
LockManager.v
Filesystem.v
Network.v
Policy.v
Float64.v
Words.v
IndexKeys.v
OrderedKV.v
LabelIndex.v
QueryLexer.v
PromQL.v
GoTime.v
TsdbStore.v
MetricsAPI.v
Alerting.v
LogStore.v
LogQL.v
VirtioQueue.v
VirtioDevice.v
VirtioBlk.v
VirtioVsock.v
ApprovalGate.v
Executor.v
RpcChannel.v
ServiceProcess.v
Effects.v
Entities.v
VMBoot.v
Checkpoint.v
LayerExtract.v
Images.v
Supervisor.v
Agent.v
Store.v
VolumeManager.v
VolumeSync.v
Services.v
Replicated.v
Registry.v
Scheduler.v
SessionManager.v
Monitor.v
ServiceManager.v
GarbageCollector.v
Tasks.v
Backups.v
Databases.v
DatabaseRuns.v
ApiAuth.v
