(* ===== verification/Prelude.v ===== *)
(** * LOKA control plane: a verification development

    LOKA ([src/README.md]) runs commands, services and databases in microVMs: a control
    plane places sessions on workers, a worker keeps virtual machines, and a supervisor
    inside each machine runs commands under a policy that an operator can be asked to
    relax.  This library is a shallow embedding of the Go code in Rocq: a struct is a
    record, a string type with constants an inductive type, a function a function, a
    method a function of the state.  File names below are relative to [src/].

    ** How the code is represented

    - A map is a [gmap]; the order of a [range] over a map is an argument, and the theorems
      hold for every order.  A slice is a list, and a slice expression out of range is a
      panic ([Words.v]).  Machine integers are [Z] or [N] with their wrap-around written
      out where the code can reach it; [float64] is IEEE 754 binary64 of the Standard
      Library ([Float64.v]).
    - [(T, error)] is [result]; the managers of the control plane are written in the monad
      of [Effects.v], whose computations end with a value, an error, or a goroutine that
      stays blocked.  The clock, fresh identifiers and the room in channels are arguments.
    - Where the code is concurrent, a component is a step relation: a step is a critical
      section, a channel operation or a system call, a goroutine is a thread with a
      program counter, and which thread moves, when deadlines pass and what fails is free.
      Safety is proved for every reachable state, and progress by a chain of steps from
      every reachable state.  Operations that hold one mutex from end to end are single
      steps.
    - What is not in the repository is an interface with the documented behaviour as its
      laws, and an implementation shows that the laws hold: [LockTable] (the SQL table of
      locks, [LockManager.v]), [KV] (BadgerDB, [OrderedKV.v]), [FileOps] (the file behind a
      block device, [VirtioBlk.v]), [SqlTable] (a table of the SQL engine, [Store.v]) and
      [Backend] (a hypervisor, [Agent.v]).  [Repository], [SessionQueries] ([Store.v]) and
      [RepCore] ([Replicated.v]) are interfaces of the code itself: managers are proved
      against them, the SQLite repositories and the replicated store implement them.
    - Recursion that is not structural has fuel, and the theorems say that the fuel given
      is enough: the length of the text for the parsers and for [filepath.Match], the
      number of checkpoints for the ancestors and descendants of one, [Size + 1]
      descriptors for a virtqueue chain, the heads that are pending for the loop of a
      device, the number of steps or buckets of a range for a metrics query.  Where the
      code does not end (a step of zero) a lemma says that no fuel is enough.  The bounds
      of the code are kept: a hundred looks in a migration, four restarts of a service in
      five minutes, 256 commands in a channel.  Forty symbolic links are the limit of the
      kernel in path resolution ([LayerExtract.v]).

    ** The parts

    Common ground: [Prelude.v] (results, time, tactics, hints), [GoStrings.v], [GoPath.v],
    [GoNet.v], [GoTime.v], [Float64.v], [Words.v] (what is used of Go's library, with the
    lemmas that characterise it), [Effects.v], [Entities.v] ([internal/loka]: records,
    status tables, the graph of checkpoints).

    Inside the guest, [internal/supervisor] and [internal/loka]:
    - [Filesystem.v] ([filesystem.go], [mode.go]), [Network.v] ([network.go]), [Policy.v]
      ([policy.go], [supervisor/proxy.go]): rules, their evaluation and the gates.
    - [ApprovalGate.v] ([gate.go]), [Executor.v] ([exec.go]), [Supervisor.v] ([server.go]
      over both), [ServiceProcess.v] (the processes of services in [exec.go]).

    Between host and guest:
    - [VirtioQueue.v], [VirtioDevice.v], [VirtioBlk.v], [VirtioVsock.v]
      ([pkg/lokavm/virtio]), with guest memory that the driver writes too.
    - [RpcChannel.v] ([worker/vm/vsock.go] against [supervisor/server.go]).
    - [VMBoot.v]: what [worker/agent.go], [pkg/lokavm/ch_linux.go] and the init script of
      [cmd/loka-build/initramfs.go] make of the options of a launch.

    On the worker:
    - [Agent.v] ([worker/agent.go], [controlplane/localworker.go]).
    - [Checkpoint.v] ([worker/vm/overlay.go], [worker/checkpoint.go]) and [VolumeSync.v]
      ([worker/volsync], [worker/volrepl]).
    - [LayerExtract.v] and [Images.v] ([controlplane/image/manager.go]) over the file system
      of [Checkpoint.v].

    The control plane:
    - [LockManager.v] ([lock/manager.go]), [Store.v] and [Services.v] ([internal/store],
      [internal/loka]), [Registry.v] ([worker/registry.go]), [Scheduler.v], [SessionManager.v]
      ([session/manager.go], [session/migration.go]), [Monitor.v] ([worker/monitor.go],
      [worker/drainer.go]), [ServiceManager.v], [VolumeManager.v].
    - [Replicated.v] ([store/replicated], [ha/raft.go], [sqlite/tokens.go]).
    - [GarbageCollector.v] ([gc/gc.go]) over stores, registry and images; [Tasks.v]
      ([task/manager.go], [sqlite/tasks.go]) over the registry and the scheduler;
      [Backups.v] ([database/backup.go]) over a map of objects, and [Databases.v] with
      [DatabaseRuns.v] ([api/databases.go], [loka/database.go]) over services and backups.
    - [ApiAuth.v] ([api/middleware.go] under the router of [api/server.go]): keys, tokens and
      the limiter of failed attempts.
    - [IndexKeys.v], [OrderedKV.v], [LabelIndex.v], [TsdbStore.v], [MetricsAPI.v],
      [Alerting.v] ([controlplane/metrics]) and [LogStore.v], [LogQL.v]
      ([controlplane/logging]), with their parsers in [QueryLexer.v] and [PromQL.v].

    ** What the theorems show

    - Policies: the default policy confines writes; the proxy never lets through more than
      was approved; network rules are evaluated as written.
    - Gate and supervisor: whatever the schedule, a suspension has one decision and a
      process runs only a command of its request that was allowed or approved; every
      request is answered.
    - Devices: rings refine queues across the wrap-around of their indices, chains end on
      any memory, the block device serves every request once and in order, a socket
      connection is a stream of bytes.
    - Guest and image: once no pull is under way an image that is ready has exactly the
      content of its layers, and the guest booted from it sees that content, and its mounts,
      if the BusyBox it gets runs [seq] and [switch_root], which are not linked, by itself.
    - Worker: every session has its machine, machines with open connections have different
      identifiers, commands of a session run in turn, stopping completes.  A checkpoint
      restored, again and again, is the tree that was saved.  A volume with one uploader is
      mirrored but for the paths in doubt since an event was lost or the store failed, and
      reconciling and synchronising settles these.
    - Control plane: locks exclude, the scheduler picks an eligible best worker, the life
      cycle follows its tables, a health pass detaches the sessions its store lists for a
      dead worker, migration, scaling, volumes after the death of a worker, replicas of the
      store agree until a purge, a sweep deletes exactly what is old and gives a cleanup up
      when it fails for the fourth time, tasks run where and as they were asked for.
    - Databases: reported backups survive until their retention ends unless the catalog was
      replaced because it could not be read, a login is dropped only by the reaper and only
      after its grace period, an upgrade rolls back but for what an earlier one left.
    - API: a request passes only with its key, and guesses are bounded by the requests an
      address has in flight.
    - Metrics and logs: keys round-trip, queries return exactly what was written, parsers
      accept exactly the printed language, alerts are sound.

    Lemmas named in the text of a part as examples show where the code departs from what
    it means to do.

    ** What is left out

    - Programs around the core: command lines, the decoding of HTTP and gRPC requests and
      the JSON of answers, recipes and configuration files, terminal views, generated
      code, and build tools.  They hold no state of their own.
    - What is only system calls or other programs: namespaces and seccomp, terminals, NFS
      mounts, Apple's virtualization framework, clients of clouds and
      object stores.  Object stores are maps from keys to bytes.
    - Metrics, logs and the text of errors, unless a caller reads them.  The fields of
      [AlertRule] that are only shown are left out.
    - The consensus library: a node is handed prefixes of one log.
    - [Stop] of the volume agents, which ends their goroutines; a run without further
      steps covers it.
    - The repositories in [Store.v] have no foreign keys; [Replicated.v] has them. *)

From stdpp Require Export base gmap strings list fin_maps fin_map_dom.
From stdpp Require Import options.
From Stdlib Require Export ZArith Lia Sorted.

Declare Scope loka_scope.
Delimit Scope loka_scope with loka.
#[export] Set Default Goal Selector "!".

(** ** Results of fallible operations *)

(** A Go function returning [(T, error)]. *)
Inductive result (E A : Type) : Type :=
  | Ok (a : A)
  | Err (e : E).
Arguments Ok {E A} a.
Arguments Err {E A} e.

#[global] Instance result_ret {E} : MRet (result E) := fun A a => Ok a.
#[global] Instance result_bind {E} : MBind (result E) :=
  fun A B f r => match r with Ok a => f a | Err e => Err e end.
#[global] Instance result_fmap {E} : FMap (result E) :=
  fun A B f r => match r with Ok a => Ok (f a) | Err e => Err e end.

#[global] Instance result_eq_dec {E A} `{EqDecision E, EqDecision A} :
  EqDecision (result E A).
Proof. solve_decision. Defined.

Definition is_ok {E A} (r : result E A) : bool :=
  match r with Ok _ => true | Err _ => false end.

(** ** Time: nanoseconds since Go's zero [time.Time] *)

Definition Nanosecond : Z := 1.
Definition Second : Z := 1000000000.
Definition Minute : Z := 60 * Second.
Definition Hour : Z := 60 * Minute.

Lemma Second_pos : (0 < Second)%Z.
Proof. reflexivity. Qed.

(** [t.UTC().Format(time.RFC3339)] keeps whole seconds; for the years 0..9999
    the text order of the format is the order of these numbers. *)
Definition rfc3339 (t : Z) : Z := (t / Second)%Z.
(** [time.Parse(time.RFC3339, s)] of such a text. *)
Definition parse_rfc3339 (s : Z) : Z := (s * Second)%Z.

Lemma parse_rfc3339_le t : (parse_rfc3339 (rfc3339 t) <= t)%Z.
Proof.
  unfold parse_rfc3339, rfc3339. pose proof Second_pos.
  rewrite Z.mul_comm. by apply Z.mul_div_le.
Qed.

(** ** A metric increment, as the [recorder.Recorder] interface receives it *)

Record Metric := mkMetric {
  metric_name : string;
  metric_labels : list (string * string)
}.

(** ** Tactics *)

(** Destruct every [if]/[match] the goal or a hypothesis is stuck on. *)
Ltac case_step :=
  match goal with
  | |- context [if ?b then _ else _] => destruct b eqn:?
  | |- context [match ?x with _ => _ end] => destruct x eqn:?
  end.
Ltac case_hyp H :=
  match type of H with
  | context [if ?b then _ else _] => destruct b eqn:?
  | context [match ?x with _ => _ end] => destruct x eqn:?
  end.
Ltac cases := repeat case_step; simplify_eq/=.
Ltac cases_in H := repeat (case_hyp H; simplify_eq/=).

(** Turn boolean tests in hypotheses into propositions. *)
Ltac bool_props :=
  repeat match goal with
  | H : bool_decide _ = true |- _ => apply bool_decide_eq_true in H
  | H : bool_decide _ = false |- _ => apply bool_decide_eq_false in H
  | H : (_ && _)%bool = true |- _ => apply andb_true_iff in H; destruct H
  | H : (_ || _)%bool = false |- _ => apply orb_false_iff in H; destruct H
  | H : negb _ = true |- _ => apply negb_true_iff in H
  | H : negb _ = false |- _ => apply negb_false_iff in H
  | H : (_ =? _)%Z = true |- _ => apply Z.eqb_eq in H
  | H : (_ =? _)%Z = false |- _ => apply Z.eqb_neq in H
  | H : (_ <? _)%Z = true |- _ => apply Z.ltb_lt in H
  | H : (_ <? _)%Z = false |- _ => apply Z.ltb_ge in H
  | H : (_ <=? _)%Z = true |- _ => apply Z.leb_le in H
  | H : (_ <=? _)%Z = false |- _ => apply Z.leb_gt in H
  | H : (_ =? _)%nat = true |- _ => apply Nat.eqb_eq in H
  | H : (_ =? _)%nat = false |- _ => apply Nat.eqb_neq in H
  | H : (_ <? _)%nat = true |- _ => apply Nat.ltb_lt in H
  | H : (_ <? _)%nat = false |- _ => apply Nat.ltb_ge in H
  | H : (_ <=? _)%nat = true |- _ => apply Nat.leb_le in H
  | H : (_ <=? _)%nat = false |- _ => apply Nat.leb_gt in H
  end.

#[global] Arguments bool_decide : simpl never.

(** ** Lists *)

Lemma filter_nil_Forall {A} (P : A -> Prop) `{forall x, Decision (P x)} (l : list A) :
  filter P l = [] <-> Forall (fun x => ~ P x) l.
Proof.
  induction l as [|x l IH]; [done|]. rewrite filter_cons, Forall_cons, <-IH.
  case_decide; naive_solver.
Qed.

Lemma filter_all {A} (P : A -> Prop) `{forall x, Decision (P x)} (l : list A) :
  (forall x, x ∈ l -> P x) -> filter P l = l.
Proof.
  intros Hl. induction l as [|x l IH]; [done|]. rewrite filter_cons_True by (apply Hl; by left).
  f_equal. apply IH. intros y Hy. apply Hl. by right.
Qed.

Lemma NoDup_fmap_filter {A B} (f : A -> B) (P : A -> Prop)
    `{forall x, Decision (P x)} (l : list A) :
  NoDup (f <$> l) -> NoDup (f <$> filter P l).
Proof.
  induction l as [|x l IH]; [done|].
  rewrite fmap_cons, NoDup_cons, filter_cons. intros [Hx Hl].
  case_decide; [|auto]. rewrite fmap_cons, NoDup_cons. split; [|auto].
  rewrite list_elem_of_fmap. intros (y & Hy & [_ Hin]%list_elem_of_filter).
  apply Hx. rewrite Hy. apply list_elem_of_fmap. eauto.
Qed.

Lemma Forall_filter_weaken {A} (P Q : A -> Prop) `{forall x, Decision (Q x)} (l : list A) :
  Forall P l -> Forall P (filter Q l).
Proof.
  rewrite !Forall_forall. intros HP x [_ Hx]%list_elem_of_filter. by apply HP.
Qed.

Lemma map_Forall_filter_weaken {K A} `{Countable K} (P : K -> A -> Prop)
    (Q : K * A -> Prop) `{forall x, Decision (Q x)} (m : gmap K A) :
  map_Forall P m -> map_Forall P (filter Q m).
Proof. intros HP i x [? _]%map_lookup_filter_Some. by apply HP. Qed.

Lemma length_filter_le {A} (P : A -> Prop) `{forall x, Decision (P x)} (l : list A) :
  length (filter P l) <= length l.
Proof. apply length_filter. Qed.

Lemma list_filter_iff' {A} (P Q : A -> Prop) `{forall x, Decision (P x)}
    `{forall x, Decision (Q x)} (l : list A) :
  (forall x, x ∈ l -> P x <-> Q x) -> filter P l = filter Q l.
Proof.
  induction l as [|x l IH]; intros Heq; [done|]. rewrite !filter_cons.
  rewrite IH by (intros; apply Heq; by right).
  assert (P x <-> Q x) by (apply Heq; by left).
  repeat case_decide; naive_solver.
Qed.

Lemma StronglySorted_filter' {A} (R : relation A) (P : A -> Prop) `{forall x, Decision (P x)} l :
  StronglySorted R l -> StronglySorted R (filter P l).
Proof.
  induction 1 as [|x l Hl IH Hx]; [constructor|]. rewrite filter_cons. case_decide; [|done].
  constructor; [done|]. by apply Forall_filter_weaken.
Qed.

Lemma omap_ext' {A B} (f g : A -> option B) (l : list A) :
  (forall x, x ∈ l -> f x = g x) -> omap f l = omap g l.
Proof.
  induction l as [|x l IH]; intros Heq; [done|]. csimpl.
  rewrite (Heq x) by by left. rewrite IH; [done|]. intros; apply Heq; by right.
Qed.

(** ** Pointwise invariants of maps *)

Lemma map_Forall_delete_weaken {K A} `{Countable K} (P : K -> A -> Prop)
    (m : gmap K A) (i : K) :
  map_Forall P m -> map_Forall P (delete i m).
Proof. apply map_Forall_delete. Qed.

(** ** Counting the entries of a map *)

Definition count_where {A} (P : A -> bool) (m : gmap nat A) : nat :=
  size (filter (fun kv => P kv.2 = true) m).

Lemma count_empty {A} (P : A -> bool) : count_where P ∅ = 0%nat.
Proof. unfold count_where. by rewrite map_filter_empty, map_size_empty. Qed.

Lemma count_insert {A} (P : A -> bool) (m : gmap nat A) i x :
  (count_where P (<[i := x]> m) + (if from_option P false (m !! i) then 1 else 0) =
   count_where P m + (if P x then 1 else 0))%nat.
Proof.
  unfold count_where. set (Q := fun kv : nat * A => P kv.2 = true).
  assert (is_Some (filter Q m !! i) <-> from_option P false (m !! i) = true) as Hin.
  { split.
    - intros [y [Hy Hp]%map_lookup_filter_Some]. by rewrite Hy.
    - destruct (m !! i) as [y|] eqn:Hy; [|done]. intros Hp. exists y. by apply map_lookup_filter_Some. }
  assert (size (filter Q m) = size (delete i (filter Q m)) + (if from_option P false (m !! i) then 1 else 0))%nat as Hsz.
  { destruct (filter Q m !! i) as [y|] eqn:Hy.
    - rewrite (proj1 Hin) by by eexists. rewrite map_size_delete_Some by by eexists.
      assert (size (filter Q m) <> 0%nat); [|lia]. intros He. apply map_size_empty_iff in He. by rewrite He, lookup_empty in Hy.
    - destruct (from_option _ _ _); [destruct (proj2 Hin eq_refl); congruence|]. by rewrite delete_id, Nat.add_0_r. }
  destruct (P x) eqn:Hx.
  - rewrite map_filter_insert_True by done. rewrite <-insert_delete_eq, map_size_insert_None by by rewrite lookup_delete_eq. lia.
  - rewrite map_filter_insert_False by (unfold Q; simpl; congruence). rewrite map_filter_delete. lia.
Qed.

Create HintDb loka.
#[export] Hint Resolve map_Forall_delete_weaken map_Forall_insert_2 map_Forall_empty : loka.
#[export] Hint Resolve NoDup_fmap_filter : loka.
