(* ===== verification/GoStrings.v ===== *)
(** * What the program uses of Go's [strings], [strconv], [unicode/utf8]

    Strings are byte strings ([string] of [ascii]). The model follows the
    documented behaviour of the standard library; each function comes with the
    lemma that characterises it. *)

From stdpp Require Import options.
From Stdlib Require Import Ascii.
From S2P Require Import Prelude.

(** ** [strings] *)

Definition HasPrefix (s p : string) : bool := String.prefix p s.

Definition drop_str (n : nat) (s : string) : string := String.substring n (String.length s - n) s.
Definition take_str (n : nat) (s : string) : string := String.substring 0 n s.

(** [len(s) >= len(p) && s[len(s)-len(p):] == p] *)
Definition HasSuffix (s p : string) : bool :=
  (String.length p <=? String.length s)
  && String.eqb (drop_str (String.length s - String.length p) s) p.

Definition TrimSuffix (s p : string) : string :=
  if HasSuffix s p then take_str (String.length s - String.length p) s else s.
Definition TrimPrefix (s p : string) : string :=
  if HasPrefix s p then drop_str (String.length p) s else s.

Fixpoint Contains (s sub : string) : bool :=
  HasPrefix s sub || match s with String _ s' => Contains s' sub | EmptyString => false end.

(** [strings.Cut] at a one-byte separator; also [SplitN(s, sep, 2)]. *)
Fixpoint Cut (s : string) (sep : Ascii.ascii) : string * option string :=
  match s with
  | EmptyString => (EmptyString, None)
  | String c s' =>
      if decide (c = sep) then (EmptyString, Some s')
      else let '(a, b) := Cut s' sep in (String c a, b)
  end.

(** [strings.Split] at a one-byte separator: never empty. *)
Fixpoint Split (s : string) (sep : Ascii.ascii) : list string :=
  match s with
  | EmptyString => [EmptyString]
  | String c s' =>
      if decide (c = sep) then EmptyString :: Split s' sep
      else match Split s' sep with
           | x :: xs => String c x :: xs
           | [] => [String c EmptyString]
           end
  end.

Fixpoint Join (l : list string) (sep : string) : string :=
  match l with
  | [] => EmptyString
  | [x] => x
  | x :: xs => x +:+ sep +:+ Join xs sep
  end.

Fixpoint ReplaceByte (s : string) (c : Ascii.ascii) (r : string) : string :=
  match s with
  | EmptyString => EmptyString
  | String d s' => (if decide (d = c) then r else String d EmptyString) +:+ ReplaceByte s' c r
  end.

Definition byte_of (c : Ascii.ascii) : Z := Z.of_N (Ascii.N_of_ascii c).
Definition ascii_of (b : Z) : Ascii.ascii := Ascii.ascii_of_N (Z.to_N b).
Definition bytes_of (s : string) : list Z := byte_of <$> String.list_ascii_of_string s.
Definition string_of (bs : list Z) : string :=
  String.string_of_list_ascii (ascii_of <$> bs).

(** ASCII part of [strings.ToUpper]. Go maps other letters too; no use in the
    program distinguishes them, since it only looks the result up in a table of
    ASCII names, except the two runes that map into ASCII (U+0131 to "I" and
    U+017F to "S"), which are mapped here. *)
Definition upper_byte (c : Ascii.ascii) : Ascii.ascii :=
  if (97 <=? byte_of c)%Z && (byte_of c <=? 122)%Z then ascii_of (byte_of c - 32) else c.
Fixpoint ToUpper_bytes (l : list Ascii.ascii) : list Ascii.ascii :=
  match l with
  | [] => []
  | c :: l' =>
      match l' with
      | d :: l'' =>
          if (byte_of c =? 196)%Z && (byte_of d =? 177)%Z then "I"%char :: ToUpper_bytes l''
          else if (byte_of c =? 197)%Z && (byte_of d =? 191)%Z then "S"%char :: ToUpper_bytes l''
          else upper_byte c :: ToUpper_bytes l'
      | [] => [upper_byte c]
      end
  end.
Definition ToUpper (s : string) : string :=
  String.string_of_list_ascii (ToUpper_bytes (String.list_ascii_of_string s)).

(** *** [strings.TrimSpace] *)

(** The UTF-8 encodings of the characters [unicode.IsSpace] accepts. *)
Definition space_encodings : list (list Z) :=
  [[9]; [10]; [11]; [12]; [13]; [32]; [194; 133]; [194; 160]; [225; 154; 128];
   [226; 128; 128]; [226; 128; 129]; [226; 128; 130]; [226; 128; 131]; [226; 128; 132];
   [226; 128; 133]; [226; 128; 134]; [226; 128; 135]; [226; 128; 136]; [226; 128; 137];
   [226; 128; 138]; [226; 128; 168]; [226; 128; 169]; [226; 128; 175]; [226; 129; 159];
   [227; 128; 128]]%Z.

Fixpoint strip_prefix (p l : list Z) : option (list Z) :=
  match p, l with
  | [], _ => Some l
  | x :: p, y :: l => if (x =? y)%Z then strip_prefix p l else None
  | _ :: _, [] => None
  end.

Definition strip_one (encs : list (list Z)) (l : list Z) : option (list Z) :=
  head (omap (fun e => strip_prefix e l) encs).

Fixpoint trim_left (fuel : nat) (encs : list (list Z)) (l : list Z) : list Z :=
  match fuel with
  | 0 => l
  | S fuel => match strip_one encs l with Some l' => trim_left fuel encs l' | None => l end
  end.

(** Every step removes a byte, so the length is enough fuel. *)
Definition TrimSpace (s : string) : string :=
  let l := bytes_of s in
  let l := trim_left (length l) space_encodings l in
  let r := trim_left (length l) ((fun e => rev e) <$> space_encodings) (rev l) in
  string_of (rev r).

(** ** [strconv.Atoi]: optional sign, decimal digits, the range of [int64] *)

Definition digit_val (c : Ascii.ascii) : option Z :=
  let b := byte_of c in
  if (48 <=? b)%Z && (b <=? 57)%Z then Some (b - 48)%Z else None.

Fixpoint digits_val (acc : Z) (s : string) : option Z :=
  match s with
  | EmptyString => Some acc
  | String c s' => d ← digit_val c; digits_val (10 * acc + d) s'
  end.

Definition parse_digits (s : string) : option Z :=
  match s with EmptyString => None | _ => digits_val 0 s end.

Definition min_int64 : Z := (- 2 ^ 63)%Z.
Definition max_int64 : Z := (2 ^ 63 - 1)%Z.

Definition Atoi (s : string) : option Z :=
  let '(neg, body) :=
    match s with
    | String c s' => if decide (c = "-"%char) then (true, s')
                     else if decide (c = "+"%char) then (false, s') else (false, s)
    | EmptyString => (false, s)
    end in
  n ← parse_digits body;
  let v := if neg : bool then (- n)%Z else n in
  if (min_int64 <=? v)%Z && (v <=? max_int64)%Z then Some v else None.

(** ** [utf8.DecodeRune]: the rune and its length; invalid input gives U+FFFD, 1 *)

Definition RuneError : Z := 65533.

Definition in_range (lo hi b : Z) : bool := ((lo <=? b) && (b <=? hi))%Z.

Definition decode2 (b0 : Z) (l : list Z) : option (Z * nat) :=
  match l with
  | b1 :: _ => if in_range 128 191 b1
               then Some (((b0 - 192) * 64 + (b1 - 128))%Z, 2) else None
  | [] => None
  end.
Definition decode3 (lo hi b0 : Z) (l : list Z) : option (Z * nat) :=
  match l with
  | b1 :: b2 :: _ => if in_range lo hi b1 && in_range 128 191 b2
      then Some (((b0 - 224) * 4096 + (b1 - 128) * 64 + (b2 - 128))%Z, 3) else None
  | _ => None
  end.
Definition decode4 (lo hi b0 : Z) (l : list Z) : option (Z * nat) :=
  match l with
  | b1 :: b2 :: b3 :: _ => if in_range lo hi b1 && in_range 128 191 b2 && in_range 128 191 b3
      then Some (((b0 - 240) * 262144 + (b1 - 128) * 4096 + (b2 - 128) * 64 + (b3 - 128))%Z, 4)
      else None
  | _ => None
  end.

Definition DecodeRune (l : list Z) : Z * nat :=
  match l with
  | [] => (RuneError, 0)
  | b0 :: l' =>
      let r :=
        if (b0 <? 128)%Z then Some (b0, 1)
        else if in_range 194 223 b0 then decode2 b0 l'
        else if (b0 =? 224)%Z then decode3 160 191 b0 l'
        else if in_range 225 236 b0 || in_range 238 239 b0 then decode3 128 191 b0 l'
        else if (b0 =? 237)%Z then decode3 128 159 b0 l'
        else if (b0 =? 240)%Z then decode4 144 191 b0 l'
        else if in_range 241 243 b0 then decode4 128 191 b0 l'
        else if (b0 =? 244)%Z then decode4 128 143 b0 l'
        else None in
      match r with Some r => r | None => (RuneError, 1) end
  end.

(** ** Lemmas *)

Lemma str_app_cons c (a b : string) : String c a +:+ b = String c (a +:+ b).
Proof. done. Qed.
Lemma str_app_nil_l (a : string) : "" +:+ a = a.
Proof. done. Qed.
Ltac str_simpl := rewrite ?str_app_cons, ?str_app_nil_l.

Lemma str_app_assoc (a b c : string) : (a +:+ b) +:+ c = a +:+ b +:+ c.
Proof. induction a as [|x a IH]; [done|]. str_simpl. simpl. by rewrite IH. Qed.
Lemma str_app_nil_r (a : string) : a +:+ "" = a.
Proof. induction a as [|x a IH]; [done|]. str_simpl. simpl. by rewrite IH. Qed.
Lemma str_length_app (a b : string) :
  String.length (a +:+ b) = String.length a + String.length b.
Proof. induction a as [|x a IH]; [done|]. str_simpl. simpl. by rewrite IH. Qed.

Lemma str_snoc_inj (a b : string) c d :
  a +:+ String c EmptyString = b +:+ String d EmptyString -> a = b /\ c = d.
Proof.
  revert b. induction a as [|x a IH]; intros [|y b]; str_simpl; intros Heq.
  - by injection Heq as ->.
  - injection Heq as -> Heq. by destruct b.
  - injection Heq as -> Heq. by destruct a.
  - injection Heq as -> Heq. by apply IH in Heq as [-> ->].
Qed.

Lemma HasPrefix_spec s p : HasPrefix s p = true <-> exists t, s = p +:+ t.
Proof.
  unfold HasPrefix. revert s. induction p as [|c p IH]; intros s; [split; [intros _; by exists s|by destruct s]|].
  destruct s as [|d s]; simpl; [split; [done|intros (t & Ht); discriminate Ht]|].
  destruct (Ascii.ascii_dec c d) as [->|Hne].
  - rewrite IH. split; intros [t Ht]; exists t.
    + by rewrite str_app_cons, Ht.
    + rewrite str_app_cons in Ht. congruence.
  - split; [done|]. intros [t Ht]. rewrite str_app_cons in Ht. congruence.
Qed.

Lemma substring_0_all s : String.substring 0 (String.length s) s = s.
Proof. induction s as [|c s IH]; [done|]. simpl. by rewrite IH. Qed.

Lemma drop_str_app a b : drop_str (String.length a) (a +:+ b) = b.
Proof.
  unfold drop_str. rewrite str_length_app.
  replace (String.length a + String.length b - String.length a) with (String.length b) by lia.
  induction a as [|c a IH]; [apply substring_0_all|]. exact IH.
Qed.

Lemma take_str_app a b : take_str (String.length a) (a +:+ b) = a.
Proof. unfold take_str. induction a as [|c a IH]; str_simpl; simpl; [by destruct b|by rewrite IH]. Qed.

Lemma take_drop_str n s : n <= String.length s -> take_str n s +:+ drop_str n s = s.
Proof.
  unfold take_str, drop_str. revert n. induction s as [|c s IH]; intros [|n] Hn; simpl in *.
  - done.
  - lia.
  - by rewrite substring_0_all.
  - str_simpl. by rewrite IH by lia.
Qed.

Lemma HasSuffix_spec s p : HasSuffix s p = true <-> exists t, s = t +:+ p.
Proof.
  unfold HasSuffix. split.
  - intros [Hle Heq]%andb_true_iff. bool_props. apply String.eqb_eq in Heq.
    exists (take_str (String.length s - String.length p) s).
    rewrite <-Heq at 2. symmetry. apply take_drop_str. lia.
  - intros [t ->]. rewrite str_length_app.
    replace (String.length t + String.length p - String.length p) with (String.length t) by lia.
    rewrite drop_str_app. apply andb_true_iff. split; [apply Nat.leb_le; lia|].
    apply String.eqb_refl.
Qed.

Lemma TrimSuffix_app t p : TrimSuffix (t +:+ p) p = t.
Proof.
  unfold TrimSuffix. rewrite (proj2 (HasSuffix_spec _ _)) by eauto.
  rewrite str_length_app.
  replace (String.length t + String.length p - String.length p) with (String.length t) by lia.
  apply take_str_app.
Qed.

Lemma Split_not_nil s sep : Split s sep <> [].
Proof. destruct s; simpl; [done|]. case_decide; [done|]. by destruct (Split s sep). Qed.

(** No piece of a split contains the separator. *)
Fixpoint str_mem (c : Ascii.ascii) (s : string) : bool :=
  match s with
  | EmptyString => false
  | String d s => bool_decide (d = c) || str_mem c s
  end.

Lemma Split_pieces s sep : Forall (fun x => str_mem sep x = false) (Split s sep).
Proof.
  induction s as [|c s IH]; simpl; [by repeat constructor|].
  case_decide as Hc; [by constructor|].
  destruct (Split s sep) as [|x xs]; simpl.
  - repeat constructor. simpl. by rewrite bool_decide_eq_false_2.
  - apply Forall_cons in IH as [? ?]. constructor; [|done]. simpl.
    by rewrite bool_decide_eq_false_2.
Qed.

Lemma Split_nil_cons s sep : Split s sep = match s with
  | EmptyString => [EmptyString]
  | String c s' => if decide (c = sep) then EmptyString :: Split s' sep
      else match Split s' sep with
           | x :: xs => String c x :: xs | [] => [String c EmptyString] end end.
Proof. by destruct s. Qed.

Lemma Split_no_sep s sep : str_mem sep s = false -> Split s sep = [s].
Proof.
  induction s as [|c s IH]; [done|]. simpl. intros [Hc Hs]%orb_false_iff. bool_props.
  rewrite decide_False by done. by rewrite IH.
Qed.

Lemma Split_app s t sep :
  str_mem sep s = false -> Split (s +:+ String sep t) sep = s :: Split t sep.
Proof.
  induction s as [|c s IH]; intros Hs; str_simpl; simpl.
  - by rewrite decide_True.
  - simpl in Hs. apply orb_false_iff in Hs as [Hc Hs]. bool_props.
    rewrite decide_False by done. by rewrite IH.
Qed.

Lemma Split_Join l sep :
  l <> [] -> Forall (fun x => str_mem sep x = false) l ->
  Split (Join l (String sep EmptyString)) sep = l.
Proof.
  intros Hne Hall. induction l as [|x l IH]; [done|]. apply Forall_cons in Hall as [Hx Hl].
  destruct l as [|y l]; [by apply Split_no_sep|].
  change (Join (x :: y :: l) (String sep "")) with
    (x +:+ String sep (Join (y :: l) (String sep ""))).
  rewrite Split_app by done. f_equal. by apply IH.
Qed.

(** ** Strings and their bytes *)

Lemma ascii_byte_of c : ascii_of (byte_of c) = c.
Proof. unfold ascii_of, byte_of. rewrite N2Z.id. apply Ascii.ascii_N_embedding. Qed.

Lemma string_of_bytes_of s : string_of (bytes_of s) = s.
Proof.
  unfold string_of, bytes_of. rewrite <-list_fmap_compose.
  rewrite <-(String.string_of_list_ascii_of_string s) at 2. f_equal.
  rewrite <-(list_fmap_id (String.list_ascii_of_string s)) at 2.
  apply list_fmap_ext. intros i c _. apply ascii_byte_of.
Qed.

#[global] Instance bytes_of_inj : Inj (=) (=) bytes_of.
Proof. intros a b Hab. by rewrite <-(string_of_bytes_of a), Hab, string_of_bytes_of. Qed.

Lemma bytes_of_app a b : bytes_of (a +:+ b) = bytes_of a ++ bytes_of b.
Proof.
  unfold bytes_of. induction a as [|c a IH]; [done|]. rewrite str_app_cons. simpl.
  f_equal. exact IH.
Qed.

(** *** Texts without white space around them *)

Definition graphic (c : Ascii.ascii) : bool := in_range 33 126 (byte_of c).

Lemma trim_left_id fuel encs b l :
  Forall (fun e => match e with [] => False | x :: _ => x <> b end) encs ->
  trim_left fuel encs (b :: l) = b :: l.
Proof.
  intros Hencs. destruct fuel as [|fuel]; [done|]. cbn [trim_left].
  assert (strip_one encs (b :: l) = None) as ->; [|done]. unfold strip_one.
  induction Hencs as [|e encs He _ IH]; [done|]. csimpl. destruct e as [|x e]; [done|].
  simpl. destruct (Z.eqb_spec x b) as [->|]; [done|exact IH].
Qed.

Lemma TrimSpace_id c s a d :
  graphic c = true -> graphic d = true -> String c s = a +:+ String d EmptyString ->
  TrimSpace (String c s) = String c s.
Proof.
  unfold graphic, in_range. rewrite !andb_true_iff, !Z.leb_le. intros Hc Hd Heq. unfold TrimSpace.
  assert (bytes_of (String c s) = byte_of c :: bytes_of s) as -> by done.
  rewrite trim_left_id by (repeat constructor; cbn; lia).
  assert (byte_of c :: bytes_of s = bytes_of a ++ [byte_of d]) as Hb.
  { change (byte_of c :: bytes_of s) with (bytes_of (String c s)). by rewrite Heq, bytes_of_app. }
  rewrite Hb, rev_app_distr. cbn [rev app]. rewrite trim_left_id by (repeat constructor; cbn; lia).
  cbn [rev]. rewrite rev_involutive, <-Hb. apply (string_of_bytes_of (String c s)).
Qed.
