(* ===== verification/GoPath.v ===== *)
(** * What the program uses of Go's [path/filepath] on Unix

    [Clean], [Base], [Dir] on slash-separated components and [Match] as the
    library's scan of the pattern into chunks, over bytes and UTF-8 runes. *)

From stdpp Require Import options.
From Stdlib Require Import Ascii.
From S2P Require Import Prelude GoStrings.

Definition slash : Ascii.ascii := "/"%char.

(** ** [Clean] *)

(** One path component against the stack of kept ones (innermost first). *)
Definition clean_step (rooted : bool) (stack : list string) (comp : string) : list string :=
  if bool_decide (comp = "" \/ comp = ".") then stack
  else if bool_decide (comp = "..") then
    match stack with
    | [] => if rooted then [] else [".."]
    | top :: rest => if bool_decide (top = "..") then ".." :: stack else rest
    end
  else comp :: stack.

Definition clean_comps (rooted : bool) (s : string) : list string :=
  rev (foldl (clean_step rooted) [] (Split s slash)).

Definition Clean (s : string) : string :=
  if bool_decide (s = "") then "."
  else
    let rooted := HasPrefix s "/" in
    let body := Join (clean_comps rooted s) "/" in
    if rooted then "/" +:+ body
    else if bool_decide (body = "") then "." else body.

(** ** [Base] and [Dir] *)

Definition Base (s : string) : string :=
  if bool_decide (s = "") then "."
  else match last (filter (fun c => c <> "") (Split s slash)) with
       | Some c => c
       | None => "/"
       end.

(** The path up to and including its last slash. *)
Fixpoint upto_last_slash (s : string) : string :=
  match s with
  | EmptyString => EmptyString
  | String c s' =>
      let d := upto_last_slash s' in
      if bool_decide (d = "") then (if decide (c = slash) then "/" else "")
      else String c d
  end.

Definition Dir (s : string) : string := Clean (upto_last_slash s).

(** [filepath.Join]: empty elements are ignored. *)
Definition PathJoin (elems : list string) : string :=
  match filter (fun e => e <> "") elems with
  | [] => ""
  | es => Clean (Join es "/")
  end.

(** ** [Match]

    Every caller drops the error and uses the boolean, which is false for a
    malformed pattern; the model returns the boolean. *)

Definition bSlash : Z := 47.
Definition bStar : Z := 42.
Definition bQuest : Z := 63.
Definition bOpen : Z := 91.
Definition bClose : Z := 93.
Definition bCaret : Z := 94.
Definition bDash : Z := 45.
Definition bBack : Z := 92.

Fixpoint drop_stars (p : list Z) : bool * list Z :=
  match p with
  | b :: p' => if (b =? bStar)%Z then (true, (drop_stars p').2) else (false, p)
  | [] => (false, [])
  end.

(** The chunk up to the next unbracketed, unescaped star. *)
Fixpoint scan_to_star (inrange escaped : bool) (p : list Z) : list Z * list Z :=
  match p with
  | [] => ([], [])
  | b :: p' =>
      if escaped then
        let '(c, r) := scan_to_star inrange false p' in (b :: c, r)
      else if (b =? bStar)%Z && negb inrange then ([], p)
      else
        let inrange := if (b =? bOpen)%Z then true
                       else if (b =? bClose)%Z then false else inrange in
        let '(c, r) := scan_to_star inrange ((b =? bBack)%Z) p' in (b :: c, r)
  end.

(** [scanChunk]: whether a star leads, the chunk, and the rest of the pattern. *)
Definition scanChunk (p : list Z) : bool * list Z * list Z :=
  let '(star, p) := drop_stars p in
  let '(chunk, rest) := scan_to_star false false p in
  (star, chunk, rest).

(** [getEsc]: one possibly escaped rune of a character class; the rest is never
    empty. *)
Definition getEsc (chunk : list Z) : option (Z * list Z) :=
  chunk ← match chunk with
          | [] => None
          | b :: rest =>
              if (b =? bDash)%Z || (b =? bClose)%Z then None
              else if (b =? bBack)%Z then (match rest with [] => None | _ => Some rest end)
              else Some chunk
          end;
  let '(r, n) := DecodeRune chunk in
  if (r =? RuneError)%Z && (n =? 1) then None
  else match drop n chunk with
       | [] => None
       | rest => Some (r, rest)
       end.

(** The ranges of a character class: the rest after the closing bracket and
    whether [r] is in one of them. *)
Fixpoint class_ranges (fuel : nat) (r : Z) (first matched : bool) (chunk : list Z)
    : option (list Z * bool) :=
  match fuel with
  | 0 => None
  | S fuel =>
      match chunk with
      | b :: rest =>
          if (b =? bClose)%Z && negb first then Some (rest, matched)
          else
            '(lo, chunk) ← getEsc chunk;
            '(hi, chunk) ← (match chunk with
                            | b :: rest => if (b =? bDash)%Z then getEsc rest else Some (lo, chunk)
                            | [] => Some (lo, chunk)
                            end);
            class_ranges fuel r false (matched || in_range lo hi r) chunk
      | [] => None
      end
  end.

(** [matchChunk]: the rest of the name after the chunk, [None] when it does not
    match or is malformed. *)
Fixpoint matchChunk (fuel : nat) (chunk name : list Z) : option (list Z) :=
  match fuel with
  | 0 => None
  | S fuel =>
      match chunk with
      | [] => Some name
      | b :: chunk' =>
          match name with
          | [] => None
          | c :: name' =>
              if (b =? bOpen)%Z then
                let '(r, n) := DecodeRune name in
                let '(negated, chunk') :=
                  match chunk' with
                  | b :: rest => if (b =? bCaret)%Z then (true, rest) else (false, chunk')
                  | [] => (false, chunk')
                  end in
                '(rest, matched) ← class_ranges (S (length chunk')) r true false chunk';
                if bool_decide (matched = negated) then None
                else matchChunk fuel rest (drop n name)
              else if (b =? bQuest)%Z then
                if (c =? bSlash)%Z then None
                else matchChunk fuel chunk' (drop (DecodeRune name).2 name)
              else if (b =? bBack)%Z then
                match chunk' with
                | [] => None
                | b :: chunk' => if (b =? c)%Z then matchChunk fuel chunk' name' else None
                end
              else if (b =? c)%Z then matchChunk fuel chunk' name' else None
          end
      end
  end.

Definition match_chunk (chunk name : list Z) : option (list Z) :=
  matchChunk (S (length chunk)) chunk name.

(** The loop that lets a star skip bytes other than the separator. *)
Fixpoint star_loop (chunk : list Z) (lastChunk : bool) (name : list Z) : option (list Z) :=
  match name with
  | [] => None
  | c :: name' =>
      if (c =? bSlash)%Z then None
      else match match_chunk chunk name' with
           | Some t => if lastChunk && negb (length t =? 0)
                       then star_loop chunk lastChunk name' else Some t
           | None => star_loop chunk lastChunk name'
           end
  end.

Fixpoint match_loop (fuel : nat) (pattern name : list Z) : bool :=
  match fuel with
  | 0 => false
  | S fuel =>
      match pattern with
      | [] => length name =? 0
      | _ =>
          let '(star, chunk, rest) := scanChunk pattern in
          let lastChunk := length rest =? 0 in
          if star && (length chunk =? 0) then negb (existsb (Z.eqb bSlash) name)
          else
            let next :=
              match match_chunk chunk name with
              | Some t => if (length t =? 0) || negb lastChunk then Some t
                          else if star then star_loop chunk lastChunk name else None
              | None => if star then star_loop chunk lastChunk name else None
              end in
            match next with Some t => match_loop fuel rest t | None => false end
      end
  end.

(** Every iteration consumes a byte of the pattern at least. *)
Definition Match (pattern name : string) : bool :=
  let p := bytes_of pattern in
  match_loop (S (length p)) p (bytes_of name).

(** ** Checks against the library's own tests ([path/filepath/match_test.go]) *)

Definition match_tests : list (string * string * bool) :=
  [("abc", "abc", true); ("*", "abc", true); ("*c", "abc", true); ("a*", "a", true);
   ("a*", "abc", true); ("a*", "ab/c", false); ("a*/b", "abc/b", true);
   ("a*/b", "a/c/b", false); ("a*b*c*d*e*/f", "axbxcxdxe/f", true);
   ("a*b*c*d*e*/f", "axbxcxdxexxx/f", true); ("a*b*c*d*e*/f", "axbxcxdxe/xxx/f", false);
   ("a*b*c*d*e*/f", "axbxcxdxexxx/fff", false); ("a*b?c*x", "abxbbxdbxebxczzx", true);
   ("a*b?c*x", "abxbbxdbxebxczzy", false); ("ab[c]", "abc", true); ("ab[b-d]", "abc", true);
   ("ab[e-g]", "abc", false); ("ab[^c]", "abc", false); ("ab[^b-d]", "abc", false);
   ("ab[^e-g]", "abc", true); ("a\*b", "a*b", true); ("a\*b", "ab", false);
   ("a?b", "a☺b", true); ("a[^a]b", "a☺b", true); ("a???b", "a☺b", false);
   ("a[^a][^a][^a]b", "a☺b", false); ("[a-ζ]*", "α", true); ("*[a-ζ]", "A", false);
   ("a?b", "a/b", false); ("a*b", "a/b", false); ("[\]a]", "]", true); ("[\-]", "-", true);
   ("[x\-]", "x", true); ("[x\-]", "-", true); ("[x\-]", "z", false); ("[\-x]", "x", true);
   ("[\-x]", "-", true); ("[\-x]", "a", false); ("[]a]", "]", false); ("[-]", "-", false);
   ("[x-]", "x", false); ("[-x]", "x", false); ("\", "a", false); ("[a-b-c]", "a", false);
   ("[", "a", false); ("[^", "a", false); ("[^bc", "a", false); ("a[", "a", false);
   ("a[", "ab", false); ("*x", "xxx", true)].

Lemma Match_library_tests : forallb (fun '(p, n, r) => Bool.eqb (Match p n) r) match_tests = true.
Proof. by vm_compute. Qed.

Definition clean_tests : list (string * string) :=
  [("", "."); ("abc", "abc"); ("abc/def", "abc/def"); ("a/b/c", "a/b/c"); (".", ".");
   ("..", ".."); ("../..", "../.."); ("../../abc", "../../abc"); ("/abc", "/abc"); ("/", "/");
   ("abc/", "abc"); ("abc/def/", "abc/def"); ("a/b/c/", "a/b/c"); ("./", "."); ("../", "..");
   ("../../", "../.."); ("/abc/", "/abc"); ("abc//def//ghi", "abc/def/ghi"); ("abc//", "abc");
   ("abc/./def", "abc/def"); ("/./abc/def", "/abc/def"); ("abc/.", "abc");
   ("abc/def/ghi/../jkl", "abc/def/jkl"); ("abc/def/../ghi/../jkl", "abc/jkl");
   ("abc/def/..", "abc"); ("abc/def/../..", "."); ("/abc/def/../..", "/");
   ("abc/def/../../..", ".."); ("/abc/def/../../..", "/"); ("abc/def/../../../ghi/jkl/../../../mno", "../../mno");
   ("/../abc", "/abc"); ("a/../b:/../../c", "../c"); ("abc/./../def", "def");
   ("abc//./../def", "def"); ("abc/../../././../def", "../../def")].

Lemma Clean_library_tests : forallb (fun '(a, b) => String.eqb (Clean a) b) clean_tests = true.
Proof. by vm_compute. Qed.

Lemma Base_Dir_library_tests :
  Base "" = "." /\ Base "." = "." /\ Base "/." = "." /\ Base "/" = "/" /\ Base "////" = "/" /\
  Base "x/" = "x" /\ Base "abc/def" = "def" /\ Base "a/b/.x" = ".x" /\ Base "a/b/c." = "c." /\
  Dir "" = "." /\ Dir "." = "." /\ Dir "/" = "/" /\ Dir "/foo" = "/" /\ Dir "x/" = "x" /\
  Dir "abc/def" = "abc" /\ Dir "a/b/.x" = "a/b" /\ Dir "////a" = "/".
Proof. by vm_compute. Qed.

(** ** Cleaned absolute paths *)

Definition good_comp (c : string) : Prop :=
  c <> "" /\ c <> "." /\ c <> ".." /\ str_mem slash c = false.

Lemma clean_step_good st c :
  str_mem slash c = false -> Forall good_comp st -> Forall good_comp (clean_step true st c).
Proof.
  intros Hc Hst. unfold clean_step. case_bool_decide as H1; [done|].
  case_bool_decide as H2.
  - destruct st as [|top rest]; [done|]. apply Forall_cons in Hst as [(? & ? & ? & ?) ?].
    by rewrite bool_decide_eq_false_2.
  - constructor; [|done]. unfold good_comp. naive_solver.
Qed.

Lemma clean_comps_good s : Forall good_comp (clean_comps true s).
Proof.
  unfold clean_comps. apply Forall_rev.
  assert (Forall good_comp []) as Hst by constructor.
  revert Hst. generalize (@nil string). generalize (Split_pieces s slash).
  induction (Split s slash) as [|c cs IH]; intros Hp st Hst; [done|]. simpl.
  apply Forall_cons in Hp as [? ?]. apply IH; [done|]. by apply clean_step_good.
Qed.

Lemma clean_fold_good st cs :
  Forall good_comp cs -> foldl (clean_step true) st cs = rev cs ++ st.
Proof.
  revert st. induction cs as [|c cs IH]; intros st Hcs; [done|].
  apply Forall_cons in Hcs as [(H1 & H2 & H3 & _) Hcs]. simpl. rewrite IH by done.
  unfold clean_step. rewrite !bool_decide_eq_false_2 by naive_solver.
  by rewrite <-app_assoc.
Qed.

Lemma Clean_rooted s :
  HasPrefix s "/" = true -> Clean s = "/" +:+ Join (clean_comps true s) "/".
Proof.
  intros Hs. unfold Clean. rewrite bool_decide_eq_false_2; [by rewrite Hs|by intros ->].
Qed.

Lemma Clean_rooted_prefix s : HasPrefix s "/" = true -> HasPrefix (Clean s) "/" = true.
Proof. intros Hs. rewrite Clean_rooted by done. apply HasPrefix_spec. eauto. Qed.

(** The components of a cleaned absolute path. *)
Lemma Clean_rooted_Split s :
  HasPrefix s "/" = true ->
  Split (Clean s) slash = "" :: match clean_comps true s with [] => [""] | cs => cs end.
Proof.
  intros Hs. rewrite Clean_rooted by done.
  change ("/" +:+ Join (clean_comps true s) "/") with
    ("" +:+ String slash (Join (clean_comps true s) "/")).
  rewrite Split_app by done. f_equal.
  pose proof (clean_comps_good s) as Hg. destruct (clean_comps true s) as [|c cs] eqn:E; [done|].
  rewrite <-E. apply Split_Join; [by rewrite E|]. rewrite E.
  eapply Forall_impl; [exact Hg|]. by intros x (_ & _ & _ & ?).
Qed.

Lemma clean_comps_Clean s :
  HasPrefix s "/" = true -> clean_comps true (Clean s) = clean_comps true s.
Proof.
  intros Hs. unfold clean_comps at 1. rewrite Clean_rooted_Split by done.
  pose proof (clean_comps_good s) as Hg. destruct (clean_comps true s) as [|c cs]; [done|].
  simpl foldl. change (clean_step true [] "") with (@nil string).
  change (foldl (clean_step true) (clean_step true [] c) cs) with
    (foldl (clean_step true) [] (c :: cs)).
  rewrite clean_fold_good, app_nil_r by done. apply rev_involutive.
Qed.

Lemma Clean_idempotent s : HasPrefix s "/" = true -> Clean (Clean s) = Clean s.
Proof.
  intros Hs. rewrite (Clean_rooted (Clean s)) by by apply Clean_rooted_prefix.
  rewrite (Clean_rooted s) at 2 by done. by rewrite clean_comps_Clean.
Qed.

Lemma Split_app_sep s t sep : Split (s +:+ String sep t) sep = Split s sep ++ Split t sep.
Proof.
  induction s as [|c s IH].
  - change ("" +:+ String sep t) with (String sep t). rewrite !(Split_nil_cons _ sep). simpl.
    by rewrite decide_True.
  - change (String c s +:+ String sep t) with (String c (s +:+ String sep t)).
    rewrite (Split_nil_cons (String c _)), (Split_nil_cons (String c s)), IH.
    case_decide; [done|]. pose proof (Split_not_nil s sep). by destruct (Split s sep).
Qed.

Lemma Join_app a b sep :
  Join (a ++ b) sep = match a, b with [], _ => Join b sep | _, [] => Join a sep | _, _ => Join a sep +:+ sep +:+ Join b sep end.
Proof.
  induction a as [|x a IH]; [done|]. destruct b as [|y b]; [by rewrite app_nil_r|].
  destruct a as [|x' a]; [done|].
  change (Join ((x :: x' :: a) ++ y :: b) sep) with (x +:+ sep +:+ Join ((x' :: a) ++ y :: b) sep).
  rewrite IH. change (Join (x :: x' :: a) sep) with (x +:+ sep +:+ Join (x' :: a) sep).
  by rewrite !str_app_assoc.
Qed.

(** ** Joining to a rooted path *)

Lemma clean_comps_app a b :
  Forall good_comp b -> b <> [] ->
  clean_comps true (a +:+ "/" +:+ Join b "/") = clean_comps true a ++ b.
Proof.
  intros Hb Hne. unfold clean_comps. change ("/" +:+ Join b "/") with (String slash (Join b "/")).
  rewrite Split_app_sep, foldl_app. unfold slash at 1. rewrite Split_Join; [|done|].
  - rewrite clean_fold_good by done. by rewrite rev_app_distr, rev_involutive.
  - eapply Forall_impl; [exact Hb|]. by intros x (_ & _ & _ & ?).
Qed.

Lemma Join_nonempty b sep : Forall good_comp b -> b <> [] -> Join b sep <> "".
Proof.
  intros Hb Hne. destruct b as [|x b]; [done|]. apply Forall_cons in Hb as [(Hx & _) _].
  destruct x as [|c x]; [done|]. destruct b; done.
Qed.

Definition rooted (s : string) : Prop := HasPrefix s "/" = true.

Lemma rooted_app a b : rooted a -> rooted (a +:+ b).
Proof. unfold rooted. rewrite !HasPrefix_spec. intros [t ->]. exists (t +:+ b). by rewrite str_app_assoc. Qed.

Lemma PathJoin_rooted a b :
  rooted a -> Forall good_comp b -> b <> [] ->
  PathJoin [a; Join b "/"] = Clean (a +:+ "/" +:+ Join b "/").
Proof.
  intros Ha Hb Hne. unfold PathJoin.
  rewrite filter_cons_True by (by intros ->). rewrite filter_cons_True by (by apply Join_nonempty). done.
Qed.

Lemma comps_PathJoin a b :
  rooted a -> Forall good_comp b -> b <> [] ->
  clean_comps true (PathJoin [a; Join b "/"]) = clean_comps true a ++ b /\ rooted (PathJoin [a; Join b "/"]).
Proof.
  intros Ha Hb Hne. rewrite PathJoin_rooted by done. split.
  - rewrite clean_comps_Clean by by apply rooted_app. by apply clean_comps_app.
  - by apply Clean_rooted_prefix, rooted_app.
Qed.

(** A path joined to a directory passes the test of a prefix. *)
Lemma PathJoin_prefix a b :
  rooted a -> Forall good_comp b -> b <> [] -> HasPrefix (Clean (PathJoin [a; Join b "/"])) (Clean a) = true.
Proof.
  intros Ha Hb Hne. destruct (comps_PathJoin a b Ha Hb Hne) as [Hc Hr].
  rewrite !Clean_rooted, Hc by done. apply HasPrefix_spec. rewrite Join_app.
  destruct (clean_comps true a) as [|x l] eqn:E; [by eexists|]. destruct b as [|y b]; [done|].
  rewrite <-E. eexists. by rewrite str_app_assoc.
Qed.

(** ** Patterns without special characters match themselves only *)

Definition plain_byte (b : Z) : bool :=
  negb ((b =? bStar)%Z || (b =? bQuest)%Z || (b =? bOpen)%Z || (b =? bBack)%Z).

Lemma matchChunk_plain p name fuel :
  forallb plain_byte p = true -> length p < fuel -> matchChunk fuel p name = strip_prefix p name.
Proof.
  revert name fuel. induction p as [|b p IH]; intros name [|fuel] Hp Hf; simpl in *; try lia; [done|].
  apply andb_true_iff in Hp as [Hb Hp]. unfold plain_byte in Hb. bool_props.
  destruct name as [|c name]; [done|].
  rewrite !(proj2 (Z.eqb_neq _ _)) by done. rewrite IH by (done || lia). done.
Qed.

Lemma scan_to_star_plain p : forallb plain_byte p = true -> scan_to_star false false p = (p, []).
Proof.
  induction p as [|b p IH]; [done|]. simpl. intros [Hb Hp]%andb_true_iff.
  unfold plain_byte in Hb. bool_props.
  rewrite (proj2 (Z.eqb_neq b bStar)), (proj2 (Z.eqb_neq b bOpen)),
    (proj2 (Z.eqb_neq b bBack)) by done. simpl. destruct (b =? bClose)%Z; by rewrite IH.
Qed.

Lemma strip_prefix_Some p l t : strip_prefix p l = Some t <-> l = p ++ t.
Proof.
  revert l. induction p as [|x p IH]; intros l; simpl; [naive_solver|].
  destruct l as [|y l]; [done|]. destruct (Z.eqb_spec x y) as [->|]; [rewrite IH|]; naive_solver.
Qed.

Lemma match_loop_plain p name :
  forallb plain_byte p = true -> match_loop (S (length p)) p name = bool_decide (p = name).
Proof.
  intros Hp. destruct p as [|b p]; [by destruct name|].
  set (q := b :: p) in *. change (match_loop (S (length q)) q name) with
    (let '(star, chunk, rest) := scanChunk q in
      let lastChunk := length rest =? 0 in
      if star && (length chunk =? 0) then negb (existsb (Z.eqb bSlash) name)
      else let next := match match_chunk chunk name with
              | Some t => if (length t =? 0) || negb lastChunk then Some t
                          else if star then star_loop chunk lastChunk name else None
              | None => if star then star_loop chunk lastChunk name else None end in
            match next with Some t => match_loop (length q) rest t | None => false end).
  assert (scanChunk q = (false, q, [])) as ->.
  { unfold scanChunk. assert (drop_stars q = (false, q)) as ->.
    { simpl in *. apply andb_true_iff in Hp as [Hb _]. unfold plain_byte in Hb. bool_props.
      by rewrite (proj2 (Z.eqb_neq b bStar)). }
    by rewrite scan_to_star_plain. }
  simpl. unfold match_chunk. rewrite matchChunk_plain by (done || lia).
  destruct (strip_prefix q name) as [t|] eqn:Hs.
  - apply strip_prefix_Some in Hs as ->. destruct t as [|c t]; simpl.
    + by rewrite app_nil_r, bool_decide_eq_true_2.
    + rewrite bool_decide_eq_false_2; [done|]. intros Heq. apply (f_equal length) in Heq.
      simpl in Heq. rewrite length_app in Heq. simpl in Heq. lia.
  - rewrite bool_decide_eq_false_2; [done|]. intros <-.
    rewrite (proj2 (strip_prefix_Some q q [])) in Hs; [done|]. by rewrite app_nil_r.
Qed.

(** A pattern without special characters. *)
Definition plain (p : string) : bool := forallb plain_byte (bytes_of p).

Lemma Match_plain p name : plain p = true -> Match p name = bool_decide (p = name).
Proof.
  intros Hp. unfold Match. rewrite match_loop_plain by done.
  apply bool_decide_ext. split; [apply (inj bytes_of)|congruence].
Qed.

(** ** The fuel is enough: more of it never changes a result *)

#[local] Arguments DecodeRune : simpl never.
Lemma DecodeRune_pos b l : 0 < (DecodeRune (b :: l)).2.
Proof.
  unfold DecodeRune, decode2, decode3, decode4.
  repeat (case_match; simplify_eq/=; try lia).
Qed.

Lemma getEsc_shorter chunk r rest : getEsc chunk = Some (r, rest) -> length rest < length chunk.
Proof.
  unfold getEsc. destruct chunk as [|b l]; [done|].
  destruct ((b =? bDash)%Z || (b =? bClose)%Z); [done|].
  assert (forall c, c <> [] -> length c <= S (length l) ->
    (let '(r, n) := DecodeRune c in
     if (r =? RuneError)%Z && (n =? 1) then None
     else match drop n c with [] => None | rest => Some (r, rest) end) = Some (r, rest) ->
    length rest < S (length l)) as Hdec.
  { intros [|c0 c] ? Hlen; [done|]. pose proof (DecodeRune_pos c0 c) as Hn.
    destruct (DecodeRune (c0 :: c)) as [r' n]. simpl in Hn. case_match; [done|].
    pose proof (length_drop (c0 :: c) n) as Hd. destruct (drop n (c0 :: c)); [done|].
    intros; simplify_eq/=. lia. }
  destruct (b =? bBack)%Z; [destruct l as [|b' l]; [done|]|]; simpl; apply Hdec; simpl; (done || lia).
Qed.

Lemma class_ranges_fuel f f' r first m chunk :
  length chunk < f -> length chunk < f' ->
  class_ranges f r first m chunk = class_ranges f' r first m chunk /\
  (forall rest b, class_ranges f r first m chunk = Some (rest, b) -> length rest < length chunk).
Proof.
  revert f' first m chunk. induction f as [|f IH]; intros [|f'] first m chunk Hf Hf'; try lia.
  simpl. destruct chunk as [|b l]; [done|].
  destruct ((b =? bClose)%Z && negb first). { split; [done|]. intros; simplify_eq/=. lia. }
  destruct (getEsc (b :: l)) as [[lo c1]|] eqn:E1; [|done]. simpl.
  apply getEsc_shorter in E1. simpl in *.
  set (hi := match c1 with b :: rest => if (b =? bDash)%Z then getEsc rest else Some (lo, c1)
                         | [] => Some (lo, c1) end).
  destruct hi as [[h c2]|] eqn:E2; [|done]. simpl.
  assert (length c2 <= length c1).
  { subst hi. destruct c1 as [|b1 l1]; simplify_eq/=; [done|].
    destruct (b1 =? bDash)%Z; simplify_eq/=; [|done]. apply getEsc_shorter in E2. lia. }
  destruct (IH f' false (m || in_range lo h r) c2) as [IH1 IH2]; [lia|lia|].
  split; [done|]. intros rest b' Hr. apply IH2 in Hr. lia.
Qed.

#[local] Arguments class_ranges : simpl never.
Lemma matchChunk_fuel f f' chunk name :
  length chunk < f -> length chunk < f' -> matchChunk f chunk name = matchChunk f' chunk name.
Proof.
  revert f' chunk name. induction f as [|f IH]; intros [|f'] chunk name Hf Hf'; try lia.
  simpl. destruct chunk as [|b l]; [done|]. destruct name as [|c name]; [done|]. simpl in *.
  destruct (b =? bOpen)%Z.
  - destruct (DecodeRune _) as [r n].
    set (nc := match l with b :: rest => if (b =? bCaret)%Z then (true, rest) else (false, l)
                          | [] => (false, l) end).
    assert (length nc.2 <= length l) by (subst nc; repeat case_match; simpl; lia).
    destruct nc as [neg l']. simpl in *.
    destruct (class_ranges_fuel (S (length l')) (S (length l')) r true false l') as [_ Hlt]; [lia|lia|].
    destruct (class_ranges _ r _ _ l') as [[rest b']|]; simpl; [|done].
    specialize (Hlt _ _ eq_refl). case_match; [done|]. apply IH; lia.
  - repeat (case_match; try done; simplify_eq/=); apply IH; lia.
Qed.

Lemma scanChunk_shorter p star chunk rest :
  scanChunk p = (star, chunk, rest) -> p <> [] -> length rest < length p.
Proof.
  assert (forall i e p c r, scan_to_star i e p = (c, r) -> length c + length r = length p) as Hscan.
  { intros i e q. revert i e. induction q as [|b q IH]; intros i e c r; simpl; [naive_solver|].
    destruct e; [|destruct ((b =? bStar)%Z && negb i); [naive_solver|]];
      (case_match eqn:E; intros; simplify_eq/=; apply IH in E; lia). }
  assert (forall p, length (drop_stars p).2 <= length p /\
           ((drop_stars p).1 = true -> length (drop_stars p).2 < length p) /\
           ((drop_stars p).1 = false -> forall b l, (drop_stars p).2 = b :: l -> (b =? bStar)%Z = false))
    as Hstars.
  { induction p0 as [|b q IH]; simpl; [done|]. destruct (b =? bStar)%Z eqn:E; simpl.
    - split_and!; [lia|lia|done].
    - split_and!; [lia|done|]. intros _ ?? [= -> ->]. done. }
  unfold scanChunk. destruct (Hstars p) as (H1 & H2 & H3).
  destruct (drop_stars p) as [st q] eqn:Ed. simpl in *.
  destruct (scan_to_star false false q) as [c r] eqn:Es. intros ? Hne. simplify_eq.
  pose proof (Hscan _ _ _ _ _ Es). destruct star; [specialize (H2 eq_refl); lia|].
  assert (q = p) as -> by (destruct p; simplify_eq/=; case_match; by simplify_eq).
  destruct p as [|b p]; [done|]. specialize (H3 eq_refl _ _ eq_refl).
  simpl in Es. rewrite H3 in Es. simpl in Es. case_match; simplify_eq/=. lia.
Qed.

Lemma match_loop_fuel f f' p name :
  length p < f -> length p < f' -> match_loop f p name = match_loop f' p name.
Proof.
  revert f' p name. induction f as [|f IH]; intros [|f'] p name Hf Hf'; try lia.
  destruct p as [|b p]; [done|]. cbn [match_loop].
  destruct (scanChunk (b :: p)) as [[star chunk] rest] eqn:E.
  apply scanChunk_shorter in E; [|done]. case_match; [done|].
  simpl in *. case_match; [|done]. apply IH; lia.
Qed.

(** ** One star between plain pieces *)

Lemma strip_prefix_neq b p c l : (b =? c)%Z = false -> strip_prefix (b :: p) (c :: l) = None.
Proof. simpl. by intros ->. Qed.

Lemma strip_prefix_app p t : strip_prefix p (p ++ t) = Some t.
Proof. by apply strip_prefix_Some. Qed.

Lemma scan_to_star_plain_app p q :
  forallb plain_byte p = true -> scan_to_star false false (p ++ bStar :: q) = (p, bStar :: q).
Proof.
  induction p as [|b p IH]; [done|]. simpl. intros [Hb Hp]%andb_true_iff.
  unfold plain_byte in Hb. bool_props.
  rewrite (proj2 (Z.eqb_neq b bStar)), (proj2 (Z.eqb_neq b bOpen)),
    (proj2 (Z.eqb_neq b bBack)) by done. simpl. destruct (b =? bClose)%Z; by rewrite IH.
Qed.

Lemma star_loop_plain post x mid :
  forallb plain_byte (bSlash :: post) = true ->
  forallb (fun b => negb (b =? bSlash)%Z) (x :: mid) = true ->
  star_loop (bSlash :: post) true ((x :: mid) ++ bSlash :: post) = Some [].
Proof.
  intros Hp. revert x. induction mid as [|y mid IH]; intros x Hm; simpl in Hm;
    apply andb_true_iff in Hm as [Hx Hm]; apply negb_true_iff in Hx; cbn [app star_loop];
    rewrite Hx; unfold match_chunk;
    rewrite matchChunk_plain by (done || lia).
  - rewrite <-(app_nil_r (bSlash :: post)) at 2. by rewrite strip_prefix_app.
  - assert (y <> bSlash) as Hy by (simpl in Hm; bool_props; done).
    rewrite (strip_prefix_neq bSlash) by (apply Z.eqb_neq; congruence). by apply IH.
Qed.

Lemma match_loop_star pre post x mid f :
  pre <> [] -> forallb plain_byte pre = true -> forallb plain_byte (bSlash :: post) = true ->
  forallb (fun b => negb (b =? bSlash)%Z) (x :: mid) = true ->
  match_loop (S (S (S f))) (pre ++ bStar :: bSlash :: post)
    (pre ++ (x :: mid) ++ bSlash :: post) = true.
Proof.
  intros Hne Hpre Hpost Hmid. destruct pre as [|b pre]; [done|].
  cbn [app match_loop].
  assert (scanChunk (b :: pre ++ bStar :: bSlash :: post) =
          (false, b :: pre, bStar :: bSlash :: post)) as ->.
  { unfold scanChunk. cbn [drop_stars]. pose proof Hpre as Hb. simpl in Hb.
    apply andb_true_iff in Hb as [Hb _]. unfold plain_byte in Hb. bool_props.
    rewrite (proj2 (Z.eqb_neq b bStar)) by done.
    change (b :: pre ++ bStar :: bSlash :: post) with ((b :: pre) ++ bStar :: bSlash :: post).
    by rewrite scan_to_star_plain_app. }
  cbn [andb]. unfold match_chunk at 1. rewrite matchChunk_plain by (done || lia).
  assert (strip_prefix (b :: pre) (b :: pre ++ x :: mid ++ bSlash :: post) =
          Some (x :: mid ++ bSlash :: post)) as -> by (by apply strip_prefix_Some).
  cbn [length Nat.eqb negb app orb].
  assert (scanChunk (bStar :: bSlash :: post) = (true, bSlash :: post, [])) as ->.
  { unfold scanChunk. cbn. simpl in Hpost. by rewrite scan_to_star_plain by done. }
  cbn [andb length Nat.eqb negb].
  unfold match_chunk. rewrite matchChunk_plain by (done || lia).
  assert (x <> bSlash) as Hx by (simpl in Hmid; bool_props; done).
  rewrite (strip_prefix_neq bSlash) by (apply Z.eqb_neq; congruence).
  pose proof (star_loop_plain post x mid Hpost Hmid) as Hs. cbn [app] in Hs. rewrite Hs.
  done.
Qed.

Lemma bytes_no_slash s :
  str_mem slash s = false -> forallb (fun b => negb (b =? bSlash)%Z) (bytes_of s) = true.
Proof.
  induction s as [|c s IH]; [done|]. simpl. intros [Hc Hs]%orb_false_iff. bool_props.
  apply andb_true_iff. split; [|by apply IH]. apply negb_true_iff, Z.eqb_neq.
  intros Hb. apply Hc. rewrite <-(ascii_byte_of c), Hb. done.
Qed.

(** [pre*/post] matches every name with one non-empty component for the star. *)
Lemma Match_star_component pre mid post :
  pre <> "" -> plain pre = true -> plain ("/" +:+ post) = true ->
  mid <> "" -> str_mem slash mid = false ->
  Match (pre +:+ "*" +:+ "/" +:+ post) (pre +:+ mid +:+ "/" +:+ post) = true.
Proof.
  intros Hne Hpre Hpost Hm Hms. unfold Match. rewrite !bytes_of_app.
  pose proof (bytes_no_slash _ Hms) as Hb. unfold plain in *. rewrite bytes_of_app in Hpost.
  change (bytes_of "*") with [bStar]. change (bytes_of "/") with [bSlash] in *.
  destruct (bytes_of mid) as [|x xs] eqn:E.
  { destruct Hm. by apply (inj bytes_of). }
  assert (bytes_of pre <> []) as Hpn by (intros E'; apply Hne; by apply (inj bytes_of)).
  rewrite length_app. cbn [app length].
  replace (S (length (bytes_of pre) + S (S (length (bytes_of post))))) with
    (S (S (S (length (bytes_of pre) + length (bytes_of post))))) by lia.
  apply (match_loop_star (bytes_of pre) (bytes_of post) x xs); done.
Qed.
