(* ===== verification/GoNet.v ===== *)
(** * What the program uses of Go's [net]: [ParseIP], [ParseCIDR], [IPNet.Contains]

    Addresses are byte lists of length 4 or 16, as [net.IP] holds them. *)

From stdpp Require Import options.
From Stdlib Require Import Ascii.
From S2P Require Import Prelude GoStrings.

Inductive Addr :=
  | AddrV4 (b : list Z)
  | AddrV6 (b : list Z) (zone : string).

(** ** Parsing addresses ([net/netip]) *)

(** [parseIPv4Fields]: the finished octets (last first), the current value and its
    number of digits. *)
Fixpoint ipv4_fields (s : string) (fields : list Z) (val : Z) (digLen : nat) : option (list Z) :=
  match s with
  | EmptyString => if length fields =? 3 then Some (rev (val :: fields)) else None
  | String c s' =>
      match digit_val c with
      | Some d =>
          if (digLen =? 1) && (val =? 0)%Z then None (* leading zero *)
          else let val := (val * 10 + d)%Z in
               if (255 <? val)%Z then None else ipv4_fields s' fields val (S digLen)
      | None =>
          if decide (c = "."%char) then
            if (digLen =? 0) || bool_decide (s' = "") then None
            else if length fields =? 3 then None
            else ipv4_fields s' (val :: fields) 0 0
          else None
      end
  end.

Definition parseIPv4 (s : string) : option (list Z) := ipv4_fields s [] 0 0.

Definition hex_val (c : Ascii.ascii) : option Z :=
  let b := byte_of c in
  if in_range 48 57 b then Some (b - 48)%Z
  else if in_range 97 102 b then Some (b - 87)%Z
  else if in_range 65 70 b then Some (b - 55)%Z
  else None.

(** A run of at most four hex digits: its value, length and the rest. *)
Fixpoint hex_run (s : string) (off : nat) (acc : Z) : option (Z * nat * string) :=
  match s with
  | EmptyString => Some (acc, off, s)
  | String c s' =>
      match hex_val c with
      | None => Some (acc, off, s)
      | Some d => if 3 <? off then None else hex_run s' (S off) (acc * 16 + d)
      end
  end.

Definition is_dot_start (s : string) : bool :=
  match s with String c _ => bool_decide (c = "."%char) | _ => false end.

(** The groups of [parseIPv6]; every iteration adds two bytes or stops, so nine
    iterations always end it. *)
Fixpoint v6_groups (fuel : nat) (s : string) (ip : list Z) (ellipsis : option nat)
    : option (string * list Z * option nat) :=
  if 16 <=? length ip then Some (s, ip, ellipsis) else
  match fuel with
  | 0 => None
  | S fuel =>
      '(acc, off, rest) ← hex_run s 0 0;
      if off =? 0 then None
      else if is_dot_start rest then
        if bool_decide (ellipsis = None) && negb (length ip =? 12) then None
        else if 16 <? length ip + 4 then None
        else f ← parseIPv4 s; Some ("", ip ++ f, ellipsis)
      else
        let ip := ip ++ [acc / 256; acc mod 256]%Z in
        match rest with
        | EmptyString => Some ("", ip, ellipsis)
        | String c rest =>
            if bool_decide (c <> ":"%char) then None
            else match rest with
                 | EmptyString => None
                 | String c' rest' =>
                     if bool_decide (c' = ":"%char) then
                       match ellipsis with
                       | Some _ => None
                       | None => match rest' with
                                 | EmptyString => Some ("", ip, Some (length ip))
                                 | _ => v6_groups fuel rest' ip (Some (length ip))
                                 end
                       end
                     else v6_groups fuel rest ip ellipsis
                 end
        end
  end.

Definition parseIPv6 (s : string) : option Addr :=
  let '(s, z) := Cut s "%"%char in
  zone ← match z with Some "" => None | Some z => Some z | None => Some "" end;
  let '(ell, s) := if HasPrefix s "::" then (Some 0, drop_str 2 s) else (None, s) in
  if bool_decide (ell = Some 0 /\ s = "") then Some (AddrV6 (replicate 16 0%Z) zone)
  else
    '(rest, ip, ell) ← v6_groups 9 s [] ell;
    if bool_decide (rest <> "") then None
    else if length ip <? 16 then
      match ell with
      | None => None
      | Some e => Some (AddrV6 (take e ip ++ replicate (16 - length ip) 0%Z ++ drop e ip) zone)
      end
    else match ell with Some _ => None | None => Some (AddrV6 ip zone) end.

(** [netip.ParseAddr]: the first dot, colon or percent sign decides. *)
Fixpoint first_mark (s : string) : option Ascii.ascii :=
  match s with
  | EmptyString => None
  | String c s' =>
      if bool_decide (c = "." \/ c = ":" \/ c = "%")%char then Some c else first_mark s'
  end.

Definition ParseAddr (s : string) : option Addr :=
  match first_mark s with
  | Some "."%char => AddrV4 <$> parseIPv4 s
  | Some ":"%char => parseIPv6 s
  | _ => None
  end.

Definition v4InV6Prefix : list Z := [0; 0; 0; 0; 0; 0; 0; 0; 0; 0; 255; 255]%Z.

Definition As16 (a : Addr) : list Z :=
  match a with AddrV4 b => v4InV6Prefix ++ b | AddrV6 b _ => b end.
Definition addr_zone (a : Addr) : string := match a with AddrV4 _ => "" | AddrV6 _ z => z end.

Definition ParseIP (s : string) : option (list Z) :=
  a ← ParseAddr s;
  if bool_decide (addr_zone a = "") then Some (As16 a) else None.

(** [IP.To4] *)
Definition To4 (ip : list Z) : option (list Z) :=
  if length ip =? 4 then Some ip
  else if (length ip =? 16) && bool_decide (take 12 ip = v4InV6Prefix) then Some (drop 12 ip)
  else None.

(** ** Networks *)

Record IPNet := mkIPNet { net_IP : list Z; net_Mask : list Z }.

(** [CIDRMask(ones, bits)] *)
Fixpoint cidr_mask (nbytes : nat) (ones : Z) : list Z :=
  match nbytes with
  | 0 => []
  | S n => if (8 <=? ones)%Z then 255%Z :: cidr_mask n (ones - 8)
           else (255 - Z.shiftr 255 ones)%Z :: cidr_mask n 0
  end.

Definition mask_bytes (ip mask : list Z) : list Z := zip_with Z.land ip mask.

(** [IP.Mask] *)
Definition IP_Mask (ip mask : list Z) : list Z :=
  let ip := if (length mask =? 4) && (length ip =? 16) && bool_decide (take 12 ip = v4InV6Prefix)
            then drop 12 ip else ip in
  mask_bytes ip mask.

Definition ParseCIDR (s : string) : option IPNet :=
  let '(addr, m) := Cut s "/"%char in
  m ← m;
  a ← ParseAddr addr;
  if bool_decide (addr_zone a <> "") then None
  else
    let nbytes := match a with AddrV4 _ => 4 | AddrV6 _ _ => 16 end in
    n ← parse_digits m;
    if (Z.of_nat nbytes * 8 <? n)%Z then None
    else let mask := cidr_mask nbytes n in
         Some (mkIPNet (IP_Mask (As16 a) mask) mask).

(** [networkNumberAndMask] and [IPNet.Contains] *)
Definition network_number_and_mask (n : IPNet) : option (list Z * list Z) :=
  match To4 (net_IP n) with
  | Some ip =>
      if length (net_Mask n) =? 4 then Some (ip, net_Mask n)
      else if length (net_Mask n) =? 16 then Some (ip, drop 12 (net_Mask n))
      else None
  | None =>
      if (length (net_IP n) =? 16) && (length (net_Mask n) =? 16)
      then Some (net_IP n, net_Mask n) else None
  end.

Definition IPNet_Contains (n : IPNet) (ip : list Z) : bool :=
  match network_number_and_mask n with
  | None => false
  | Some (nn, m) =>
      let ip := default ip (To4 ip) in
      (length ip =? length nn) && bool_decide (mask_bytes nn m = mask_bytes ip m)
  end.

(** ** [net.SplitHostPort]; only the host is used *)
Fixpoint lastIndex (c : ascii) (s : string) : option nat :=
  match s with
  | "" => None
  | String d s => match lastIndex c s with
                  | Some i => Some (S i)
                  | None => if (d =? c)%char then Some 0 else None
                  end
  end.
Fixpoint firstIndex (c : ascii) (s : string) : option nat :=
  match s with
  | "" => None
  | String d s => if (d =? c)%char then Some 0 else S <$> firstIndex c s
  end.
Definition SplitHostPort (s : string) : option string :=
  i ← lastIndex ":" s;
  '(host, j, k) ← (if String.prefix "[" s then
      e ← firstIndex "]" s;
      if e + 1 =? i then Some (String.substring 1 (e - 1) s, 1, e + 1) else None
    else
      let host := take_str i s in
      if str_mem ":" host then None else Some (host, 0, 0));
  if str_mem "[" (drop_str j s) || str_mem "]" (drop_str k s) then None else Some host.

(** ** Checks *)

Lemma ParseIP_tests :
  ParseIP "127.0.1.2" = Some (v4InV6Prefix ++ [127; 0; 1; 2])%Z /\
  ParseIP "127.007.1.2" = None /\ ParseIP "127.0.0.256" = None /\ ParseIP "abc" = None /\
  ParseIP "123:" = None /\ ParseIP "::ffff:127.1.2.3" = Some (v4InV6Prefix ++ [127; 1; 2; 3])%Z /\
  ParseIP "::ffff:7f01:0203" = Some (v4InV6Prefix ++ [127; 1; 2; 3])%Z /\
  ParseIP "0:0:0:0:0000:ffff:127.1.2.3" = Some (v4InV6Prefix ++ [127; 1; 2; 3])%Z /\
  ParseIP "2001:4860:0:2001::68" = Some [32; 1; 72; 96; 0; 0; 32; 1; 0; 0; 0; 0; 0; 0; 0; 104]%Z /\
  ParseIP "fe80::1%lo0" = None /\ ParseIP "::" = Some (replicate 16 0%Z) /\ ParseIP "" = None /\
  ParseIP "a1:a2:a3:a4::b1:b2:b3:b4" = None /\ ParseIP "1.2.3.4.5" = None /\ ParseIP "1.2.3." = None.
Proof. by vm_compute. Qed.

Lemma ParseCIDR_tests :
  ParseCIDR "135.104.0.0/32" = Some (mkIPNet [135; 104; 0; 0] [255; 255; 255; 255])%Z /\
  ParseCIDR "10.1.2.3/8" = Some (mkIPNet [10; 0; 0; 0] [255; 0; 0; 0])%Z /\
  ParseCIDR "172.16.0.0/12" = Some (mkIPNet [172; 16; 0; 0] [255; 240; 0; 0])%Z /\
  ParseCIDR "192.168.1.1/255.255.255.0" = None /\ ParseCIDR "192.168.1.1/35" = None /\
  ParseCIDR "2001:db8::1/-1" = None /\ ParseCIDR "" = None /\ ParseCIDR "1.2.3.4" = None.
Proof. by vm_compute. Qed.
