(* ===== verification/LockManager.v ===== *)
(** * Distributed file locks ([src/internal/controlplane/lock/manager.go])

    The in-memory map of [Manager], its write-through copy in the [file_locks]
    table, and the operations [Acquire], [Release], [ReleaseAll], [IsLocked],
    [ListLocks], the reaper and the reload at start-up. The SQL engine is an
    interface ([LockTable]): the operations call it, and only the theorems on a
    restart use its laws. *)

From stdpp Require Import options.
From S2P Require Import Prelude.

(** ** Data *)

Record LockHolder := mkHolder {
  h_WorkerID : string;
  h_ExpiresAt : Z
}.

Record FileLock := mkLock {
  l_Volume : string;
  l_Path : string;
  l_Holders : list LockHolder;
  l_Exclusive : bool;
  l_AcquiredAt : Z;
  l_WorkerID : string;
  l_ExpiresAt : Z
}.

#[global] Instance LockHolder_eq_dec : EqDecision LockHolder.
Proof. solve_decision. Defined.
#[global] Instance FileLock_eq_dec : EqDecision FileLock.
Proof. solve_decision. Defined.

(** A row of [file_locks]; the time columns hold RFC 3339 texts (whole seconds). *)
Record LockRow := mkRow {
  r_volume : string;
  r_path : string;
  r_worker_id : string;
  r_exclusive : Z;
  r_acquired_at : Z;
  r_expires_at : Z
}.

(** The statements the manager sends to the database. *)
Inductive LockStmt :=
  | UpsertLock (key : string) (row : LockRow)
  | DeleteLock (key : string)
  | DeleteExpired (now : Z).

(** ** The SQL engine *)

(** What the manager calls: [ExecContext] (its error is dropped by every caller)
    and the [SELECT] of [loadFromDB]. *)
Class LockTable (DB : Type) := {
  db_exec : LockStmt -> DB -> DB;
  db_select : DB -> list (string * LockRow)
}.

(** [INSERT .. ON CONFLICT(lock_key) DO UPDATE SET ..]: on conflict the columns
    [volume] and [path] keep their old value. *)
Definition upsert_row (old : option LockRow) (row : LockRow) : LockRow :=
  match old with
  | None => row
  | Some o => mkRow (r_volume o) (r_path o) (r_worker_id row) (r_exclusive row)
                    (r_acquired_at row) (r_expires_at row)
  end.

(** What SQL says the statements do to the table, keyed by its primary key. *)
Definition stmt_rows (s : LockStmt) (t : gmap string LockRow) : gmap string LockRow :=
  match s with
  | UpsertLock key row => <[key := upsert_row (t !! key) row]> t
  | DeleteLock key => delete key t
  | DeleteExpired now => filter (fun kv => (now <= r_expires_at kv.2)%Z) t
  end.

(** The laws of a table whose statements succeed. *)
Class LockTableLaws (DB : Type) `{LockTable DB} := {
  db_rows : DB -> gmap string LockRow;
  db_rows_exec s d : db_rows (db_exec s d) = stmt_rows s (db_rows d);
  db_rows_select d : db_select d ≡ₚ map_to_list (db_rows d)
}.

#[global] Instance gmap_LockTable : LockTable (gmap string LockRow) := {
  db_exec := stmt_rows;
  db_select := map_to_list
}.
#[global] Instance gmap_LockTableLaws : LockTableLaws (gmap string LockRow).
Proof. by refine {| db_rows := id |}. Defined.

(** ** The manager *)

Record Manager (DB : Type) := mkManager {
  locks : gmap string FileLock;
  db : option DB;
  recorder : list Metric
}.
Arguments mkManager {DB}.
Arguments locks {DB}.
Arguments db {DB}.
Arguments recorder {DB}.

Inductive LockError :=
  | ErrExclusiveDenied (path volume : string) (holders : nat)
  | ErrSharedDenied (path volume worker : string)
  | ErrNotHeld (volume path worker : string).

#[global] Instance LockError_eq_dec : EqDecision LockError.
Proof. solve_decision. Defined.

Definition lockKey (volume path : string) : string := volume +:+ ":" +:+ path.

Definition purgeExpiredHolders (holders : list LockHolder) (now : Z) : list LockHolder :=
  filter (fun h => (now < h_ExpiresAt h)%Z) holders.

Definition maxExpiry (holders : list LockHolder) : Z :=
  foldl (fun mx h => if (mx <? h_ExpiresAt h)%Z then h_ExpiresAt h else mx) 0%Z holders.

(** [Acquire] clamps the requested time to live to (0, 10min], default 30s. *)
Definition clampTTL (ttl : Z) : Z :=
  let ttl := if (ttl <=? 0)%Z then (30 * Second)%Z else ttl in
  if (10 * Minute <? ttl)%Z then (10 * Minute)%Z else ttl.

(** The first holder with this worker ID gets a new expiry. *)
Fixpoint extendHolder (workerID : string) (expiresAt : Z) (hs : list LockHolder)
    : option (list LockHolder) :=
  match hs with
  | [] => None
  | h :: hs =>
      if decide (h_WorkerID h = workerID)
      then Some (mkHolder (h_WorkerID h) expiresAt :: hs)
      else (fun hs' => h :: hs') <$> extendHolder workerID expiresAt hs
  end.

Definition withHolders (hs : list LockHolder) (l : FileLock) : FileLock :=
  mkLock (l_Volume l) (l_Path l) hs (l_Exclusive l) (l_AcquiredAt l) (l_WorkerID l)
         (l_ExpiresAt l).

(** The holders a release leaves behind. *)
Definition dropHolder (workerID : string) (hs : list LockHolder) : list LockHolder :=
  filter (fun h => h_WorkerID h <> workerID) hs.
Definition holds (workerID : string) (hs : list LockHolder) : bool :=
  existsb (fun h => bool_decide (h_WorkerID h = workerID)) hs.

Section Ops.
Context {DB : Type} `{LockTable DB}.
Implicit Types (m : Manager DB) (now T ttl : Z) (key v p w : string) (order : list string)
  (l : FileLock) (o : option FileLock).

Definition lockRow (lock : FileLock) : LockRow :=
  mkRow (l_Volume lock) (l_Path lock) (l_WorkerID lock)
        (if l_Exclusive lock then 1 else 0)%Z
        (rfc3339 (l_AcquiredAt lock)) (rfc3339 (l_ExpiresAt lock)).

Definition upsertToDB (key : string) (lock : FileLock) m : Manager DB :=
  mkManager (locks m) (db_exec (UpsertLock key (lockRow lock)) <$> db m) (recorder m).

Definition deleteFromDB (key : string) m : Manager DB :=
  mkManager (locks m) (db_exec (DeleteLock key) <$> db m) (recorder m).

Definition setLock (key : string) (lock : FileLock) m : Manager DB :=
  mkManager (<[key := lock]> (locks m)) (db m) (recorder m).
Definition delLock (key : string) m : Manager DB :=
  mkManager (delete key (locks m)) (db m) (recorder m).
Definition inc (name : string) (labels : list (string * string)) m : Manager DB :=
  mkManager (locks m) (db m) (recorder m ++ [mkMetric name labels]).

(** Store a lock in the map and write it through. *)
Definition putLock key lock m := upsertToDB key lock (setLock key lock m).
(** Drop a lock from the map and the table. *)
Definition dropLock key m := deleteFromDB key (delLock key m).

(** The purge [Acquire], [IsLocked] and [ListLocks] start with: expired holders
    leave the lock, and a lock without holders leaves the manager. *)
Definition purgeKey (now : Z) (key : string) m : Manager DB * option FileLock :=
  match locks m !! key with
  | None => (m, None)
  | Some lock =>
      match purgeExpiredHolders (l_Holders lock) now with
      | [] => (dropLock key m, None)
      | hs => let lock := withHolders hs lock in (setLock key lock m, Some lock)
      end
  end.

Definition Acquire (now : Z) (volume path workerID : string) (exclusive : bool) (ttl : Z)
    m : Manager DB * result LockError unit :=
  let ttl := clampTTL ttl in
  let key := lockKey volume path in
  let expiresAt := (now + ttl)%Z in
  let '(m, existing) := purgeKey now key m in
  match existing with
  | Some existing =>
      let denied kind := [("volume", volume); ("path", path); ("type", kind)] in
      if exclusive then
        match l_Holders existing with
        | [h] =>
            if decide (h_WorkerID h = workerID) then
              let lock := mkLock (l_Volume existing) (l_Path existing)
                            [mkHolder (h_WorkerID h) expiresAt] true
                            (l_AcquiredAt existing) workerID expiresAt in
              (putLock key lock m, Ok tt)
            else (inc "lock_contention_total" (denied "exclusive_denied") m,
                  Err (ErrExclusiveDenied path volume 1))
        | hs => (inc "lock_contention_total" (denied "exclusive_denied") m,
                 Err (ErrExclusiveDenied path volume (length hs)))
        end
      else if l_Exclusive existing then
        match l_Holders existing with
        | h :: hs =>
            if decide (h_WorkerID h = workerID) then
              let lock := mkLock (l_Volume existing) (l_Path existing)
                            (mkHolder (h_WorkerID h) expiresAt :: hs) true
                            (l_AcquiredAt existing) (l_WorkerID existing) expiresAt in
              (putLock key lock m, Ok tt)
            else (inc "lock_contention_total" (denied "shared_denied") m,
                  Err (ErrSharedDenied path volume (l_WorkerID existing)))
        | [] => (* [existing.Holders[0]]: never empty after the purge *)
            (m, Err (ErrSharedDenied path volume (l_WorkerID existing)))
        end
      else
        let hs := match extendHolder workerID expiresAt (l_Holders existing) with
                  | Some hs => hs
                  | None => l_Holders existing ++ [mkHolder workerID expiresAt]
                  end in
        let lock := mkLock (l_Volume existing) (l_Path existing) hs false
                      (l_AcquiredAt existing) (l_WorkerID existing) (maxExpiry hs) in
        (putLock key lock m, Ok tt)
  | None =>
      let m := inc "lock_acquisitions_total"
                 [("volume", volume); ("path", path); ("worker_id", workerID)] m in
      let lock := mkLock volume path [mkHolder workerID expiresAt] exclusive now
                         workerID expiresAt in
      (putLock key lock m, Ok tt)
  end.

(** The removal [Release] and [ReleaseAll] share: [None] when the worker holds
    nothing on the key. *)
Definition releaseKey (workerID : string) (key : string) (lock : FileLock) m
    : option (Manager DB) :=
  if holds workerID (l_Holders lock) then
    Some (match dropHolder workerID (l_Holders lock) with
          | [] => dropLock key m
          | h :: hs =>
              let lock := mkLock (l_Volume lock) (l_Path lock) (h :: hs)
                            (l_Exclusive lock) (l_AcquiredAt lock) (h_WorkerID h)
                            (maxExpiry (h :: hs)) in
              putLock key lock m
          end)
  else None.

Definition Release (volume path workerID : string) m
    : Manager DB * result LockError unit :=
  let key := lockKey volume path in
  match locks m !! key with
  | None => (m, Ok tt)
  | Some lock =>
      match releaseKey workerID key lock m with
      | None => (m, Err (ErrNotHeld volume path workerID))
      | Some m => (m, Ok tt)
      end
  end.

(** One iteration of [ReleaseAll]'s [range m.locks]. *)
Definition releaseAllStep (workerID : string) (acc : Manager DB * nat) (key : string)
    : Manager DB * nat :=
  let '(m, count) := acc in
  match locks m !! key with
  | None => (m, count)
  | Some lock =>
      match releaseKey workerID key lock m with
      | None => (m, count)
      | Some m => (m, S count)
      end
  end.

(** [range] over a map visits its keys in an unspecified order: [order]. *)
Definition ReleaseAll (order : list string) (workerID : string) m : Manager DB * nat :=
  foldl (releaseAllStep workerID) (m, 0) order.

Definition IsLocked (now : Z) (volume path : string) m
    : Manager DB * option FileLock :=
  purgeKey now (lockKey volume path) m.

Definition listLocksStep (now : Z) (volume : string) (acc : Manager DB * list FileLock)
    (key : string) : Manager DB * list FileLock :=
  let '(m, res) := acc in
  let '(m, lock) := purgeKey now key m in
  match lock with
  | Some lock => (m, if decide (l_Volume lock = volume) then res ++ [lock] else res)
  | None => (m, res)
  end.

Definition ListLocks (order : list string) (now : Z) (volume : string) m
    : Manager DB * list FileLock :=
  foldl (listLocksStep now volume) (m, []) order.

(** The reaper's iteration: it drops an empty lock from the map only. *)
Definition reapKey (now : Z) (key : string) m : Manager DB :=
  match locks m !! key with
  | None => m
  | Some lock =>
      match purgeExpiredHolders (l_Holders lock) now with
      | [] => delLock key m
      | hs => setLock key (withHolders hs lock) m
      end
  end.

(** One tick of [reapExpired]: the table is swept after the map, at a clock
    reading [now2] of its own. *)
Definition reapExpired (order : list string) (now now2 : Z) m : Manager DB :=
  let m := foldl (fun m key => reapKey now key m) m order in
  mkManager (locks m) (db_exec (DeleteExpired (rfc3339 now2)) <$> db m) (recorder m).

(** [loadFromDB]: one lock with one holder per unexpired row. *)
Definition loadRow (now : Z) (lks : gmap string FileLock) (kr : string * LockRow)
    : gmap string FileLock :=
  let '(key, row) := kr in
  let acquired := parse_rfc3339 (r_acquired_at row) in
  let expires := parse_rfc3339 (r_expires_at row) in
  if (expires <? now)%Z then lks
  else <[key := mkLock (r_volume row) (r_path row) [mkHolder (r_worker_id row) expires]
                  (r_exclusive row =? 1)%Z acquired (r_worker_id row) expires]> lks.

Definition loadFromDB (now : Z) (d : DB) : gmap string FileLock :=
  foldl (loadRow now) ∅ (db_select d).

Definition NewManager (now : Z) (d : option DB) : Manager DB :=
  mkManager (match d with Some d => loadFromDB now d | None => ∅ end) d [].

End Ops.

(** ** Lemmas on holder lists *)

Section Holders.
Implicit Types (hs : list LockHolder).

Lemma clampTTL_bounds ttl : (0 < clampTTL ttl <= 10 * Minute)%Z.
Proof. unfold clampTTL, Minute, Second. cases; bool_props; lia. Qed.

Lemma extendHolder_workers w e hs hs' :
  extendHolder w e hs = Some hs' -> h_WorkerID <$> hs' = h_WorkerID <$> hs.
Proof.
  revert hs'. induction hs as [|h hs IH]; intros hs' Heq; simplify_eq/=.
  destruct (decide _); simplify_eq/=; [done|].
  apply fmap_Some in Heq as (hs0 & ? & ->). csimpl. f_equal. auto.
Qed.

Lemma extendHolder_None w e hs :
  extendHolder w e hs = None <-> w ∉ (h_WorkerID <$> hs).
Proof.
  induction hs as [|h hs IH]; csimpl; [split; [inversion 2|done]|].
  rewrite not_elem_of_cons. destruct (decide _) as [->|]; [naive_solver|].
  rewrite fmap_None, IH. naive_solver.
Qed.

Lemma extendHolder_Forall (P : LockHolder -> Prop) w e hs hs' :
  extendHolder w e hs = Some hs' -> Forall P hs -> P (mkHolder w e) -> Forall P hs'.
Proof.
  revert hs'. induction hs as [|h hs IH]; intros hs' Heq Hall HP; simplify_eq/=.
  apply Forall_cons in Hall as [? ?]. destruct (decide _); simplify_eq/=; [by constructor|].
  apply fmap_Some in Heq as (hs0 & ? & ->). constructor; auto.
Qed.

Lemma extendHolder_elem w e hs hs' :
  extendHolder w e hs = Some hs' -> mkHolder w e ∈ hs'.
Proof.
  revert hs'. induction hs as [|h hs IH]; intros hs' Heq; simplify_eq/=.
  destruct (decide _); simplify_eq/=; [by left|].
  apply fmap_Some in Heq as (hs0 & ? & ->). right. auto.
Qed.

Lemma extendHolder_keeps w e hs hs' h :
  extendHolder w e hs = Some hs' -> h ∈ hs -> h_WorkerID h <> w -> h ∈ hs'.
Proof.
  revert hs'. induction hs as [|h0 hs IH]; intros hs' Heq Hin Hw; simplify_eq/=.
  apply elem_of_cons in Hin. destruct (decide _) as [Hd|]; simplify_eq/=.
  - destruct Hin as [->|?]; [done|by right].
  - apply fmap_Some in Heq as (hs0 & ? & ->). destruct Hin as [->|?]; [by left|right; auto].
Qed.

Lemma maxExpiry_le hs B :
  (0 <= B)%Z -> Forall (fun h => h_ExpiresAt h <= B)%Z hs -> (maxExpiry hs <= B)%Z.
Proof.
  unfold maxExpiry. generalize 0%Z. induction hs as [|h hs IH]; intros z Hz Hall; [done|].
  apply Forall_cons in Hall as [? ?]. simpl. case_match; auto.
Qed.

Lemma holds_true w hs : holds w hs = true <-> w ∈ (h_WorkerID <$> hs).
Proof.
  unfold holds. rewrite existsb_exists, list_elem_of_fmap. split.
  - intros (h & Hin & Hw). bool_props. exists h. split; [done|]. by apply list_elem_of_In.
  - intros (h & -> & Hin). exists h. split; [by apply list_elem_of_In|].
    by apply bool_decide_eq_true.
Qed.

Lemma dropHolder_elem w h hs :
  h ∈ dropHolder w hs <-> h_WorkerID h <> w /\ h ∈ hs.
Proof. unfold dropHolder. by rewrite list_elem_of_filter. Qed.

Lemma purge_elem now h hs :
  h ∈ purgeExpiredHolders hs now <-> (now < h_ExpiresAt h)%Z /\ h ∈ hs.
Proof. unfold purgeExpiredHolders. by rewrite list_elem_of_filter. Qed.

End Holders.

(** ** The invariant of the manager *)

Section Invariant.
Context {DB : Type} `{LockTableLaws DB}.
Implicit Types (m : Manager DB) (now T ttl : Z) (key v p w : string) (order : list string)
  (l : FileLock) (o : option FileLock).

(** A lock sits under its own key, somebody holds it, no worker holds it twice,
    an exclusive lock has one holder, and no lease outlives the clock [T] by more
    than ten minutes. *)
Record lock_ok (T : Z) (key : string) (l : FileLock) : Prop := {
  ok_key : key = lockKey (l_Volume l) (l_Path l);
  ok_held : l_Holders l <> [];
  ok_nodup : NoDup (h_WorkerID <$> l_Holders l);
  ok_excl : l_Exclusive l = true -> length (l_Holders l) = 1;
  ok_exp : Forall (fun h => h_ExpiresAt h <= T + 10 * Minute)%Z (l_Holders l);
  ok_max : (l_ExpiresAt l <= T + 10 * Minute)%Z
}.

Record row_ok (T : Z) (key : string) (r : LockRow) : Prop := {
  ok_row_key : key = lockKey (r_volume r) (r_path r);
  ok_row_exp : (parse_rfc3339 (r_expires_at r) <= T + 10 * Minute)%Z
}.

Record Inv (T : Z) m : Prop := {
  inv_locks : map_Forall (lock_ok T) (locks m);
  inv_rows : from_option (fun d => map_Forall (row_ok T) (db_rows d)) True (db m)
}.

Lemma lock_ok_mono T T' key l : (T <= T')%Z -> lock_ok T key l -> lock_ok T' key l.
Proof.
  intros ? []. constructor; try done; [|lia].
  eapply Forall_impl; [done|]. simpl. lia.
Qed.

Lemma Inv_mono T T' m : (T <= T')%Z -> Inv T m -> Inv T' m.
Proof.
  intros ? [Hl Hr]. constructor.
  - eapply map_Forall_impl; [done|]. eauto using lock_ok_mono.
  - destruct (db m); simpl in *; [|done]. eapply map_Forall_impl; [done|].
    intros ?? []. constructor; [done|lia].
Qed.

Lemma Inv_setLock T key l m : lock_ok T key l -> Inv T m -> Inv T (setLock key l m).
Proof. intros Hl [Hm Hr]. constructor; [|exact Hr]. by apply map_Forall_insert_2. Qed.

Lemma Inv_delLock T key m : Inv T m -> Inv T (delLock key m).
Proof. intros [Hm Hr]. constructor; [|exact Hr]. by apply map_Forall_delete. Qed.

Lemma Inv_inc T name labels m : Inv T m -> Inv T (inc name labels m).
Proof. intros [Hm Hr]. by constructor. Qed.

Lemma lockRow_ok T key l : lock_ok T key l -> row_ok T key (lockRow l).
Proof.
  intros []. constructor; [done|]. simpl.
  etrans; [apply parse_rfc3339_le|done].
Qed.

Lemma Inv_upsert T key l m : lock_ok T key l -> Inv T m -> Inv T (upsertToDB key l m).
Proof.
  intros Hl [? Hr]. constructor; [done|]. simpl. destruct (db m) as [d|]; [|done].
  simpl in *. rewrite db_rows_exec. simpl. apply map_Forall_insert_2; [|done].
  pose proof (lockRow_ok _ _ _ Hl) as [Hk He].
  destruct (db_rows d !! key) as [o|] eqn:Ho; [|done]. simpl.
  constructor; [apply (Hr _ _ Ho)|done].
Qed.

Lemma Inv_deleteFromDB T key m : Inv T m -> Inv T (deleteFromDB key m).
Proof.
  intros [? Hr]. constructor; [done|]. simpl. destruct (db m) as [d|]; [|done].
  simpl in *. rewrite db_rows_exec. simpl. eauto with loka.
Qed.

Lemma Inv_putLock T key l m : lock_ok T key l -> Inv T m -> Inv T (putLock key l m).
Proof. intros. by apply Inv_upsert, Inv_setLock. Qed.

Lemma Inv_dropLock T key m : Inv T m -> Inv T (dropLock key m).
Proof. intros. by apply Inv_deleteFromDB, Inv_delLock. Qed.

Lemma purged_ok T now key l :
  lock_ok T key l -> purgeExpiredHolders (l_Holders l) now <> [] ->
  lock_ok T key (withHolders (purgeExpiredHolders (l_Holders l) now) l).
Proof.
  intros [? ? ? Hex ? ?] Hne. constructor; simpl; [done|done| | | |done].
  - by apply NoDup_fmap_filter.
  - intros Hx. specialize (Hex Hx).
    assert (length (purgeExpiredHolders (l_Holders l) now) <= 1).
    { rewrite <-Hex. apply length_filter. }
    destruct (purgeExpiredHolders _ _) as [|? [|??]]; simpl in *; [done|done|lia].
  - by apply Forall_filter_weaken.
Qed.

End Invariant.
#[export] Hint Resolve Inv_setLock Inv_delLock Inv_inc Inv_upsert Inv_deleteFromDB
  Inv_putLock Inv_dropLock : loka.

(** ** Every operation preserves the invariant *)

Section Preservation.
Context {DB : Type} `{LockTableLaws DB}.
Implicit Types (m : Manager DB) (now T ttl : Z) (key v p w : string) (order : list string)
  (l : FileLock) (o : option FileLock).

Lemma purgeKey_Inv T now key m m' o :
  purgeKey now key m = (m', o) -> Inv T m -> Inv T m' /\ from_option (lock_ok T key) True o.
Proof.
  unfold purgeKey. intros Heq HI. destruct (locks m !! key) as [l|] eqn:Hl; simplify_eq; [|done].
  assert (lock_ok T key l) as Hok by (by eapply inv_locks).
  pose proof (purged_ok T now key l Hok) as Hp.
  destruct (purgeExpiredHolders _ _); simplify_eq; simpl; auto with loka.
Qed.

Lemma singleton_lock_ok T now v p w e exp at_ :
  (exp <= T + 10 * Minute)%Z -> lock_ok T (lockKey v p) (mkLock v p [mkHolder w exp] e at_ w exp).
Proof.
  intros. constructor; simpl; try done; [|by repeat constructor].
  apply NoDup_singleton.
Qed.

Lemma shared_lock_ok T key l w exp :
  lock_ok T key l -> (0 <= T)%Z -> (exp <= T + 10 * Minute)%Z ->
  let hs := match extendHolder w exp (l_Holders l) with
            | Some hs => hs | None => l_Holders l ++ [mkHolder w exp] end in
  lock_ok T key (mkLock (l_Volume l) (l_Path l) hs false (l_AcquiredAt l)
                        (l_WorkerID l) (maxExpiry hs)).
Proof.
  intros [? Hne Hnd _ Hall ?] HT Hexp hs.
  assert (Forall (fun h => h_ExpiresAt h <= T + 10 * Minute)%Z hs) as Hhs.
  { subst hs. destruct (extendHolder _ _ _) eqn:He.
    - by eapply extendHolder_Forall.
    - apply Forall_app. split; [done|]. by repeat constructor. }
  constructor; simpl; try done.
  - subst hs. destruct (extendHolder _ _ _) eqn:He.
    + apply extendHolder_elem in He. by destruct l0; [inversion He|].
    + by destruct (l_Holders l).
  - subst hs. destruct (extendHolder _ _ _) eqn:He.
    + by erewrite extendHolder_workers.
    + apply extendHolder_None in He. rewrite fmap_app. apply NoDup_app.
      split_and!; [done| |apply NoDup_singleton]. set_solver.
  - apply maxExpiry_le; [|done]. unfold Minute, Second. lia.
Qed.

Lemma Acquire_Inv T now v p w e ttl m :
  (0 <= now <= T)%Z -> Inv T m -> Inv T (Acquire now v p w e ttl m).1.
Proof.
  intros [? ?] HI. unfold Acquire. destruct (clampTTL_bounds ttl).
  destruct (purgeKey _ _ _) as [m1 o] eqn:Hp.
  apply (purgeKey_Inv T) in Hp as [HI1 Ho]; [|done].
  destruct o as [l|]; simpl in Ho.
  2: { apply Inv_putLock, Inv_inc; [|done]. apply singleton_lock_ok; [done|lia]. }
  destruct e.
  - destruct (l_Holders l) as [|h [|??]] eqn:Hh; simpl; auto with loka.
    case_decide; simpl; auto with loka.
    apply Inv_putLock; [|done]. destruct Ho as [Hk ? ? ? ? ?]. rewrite Hk.
    constructor; simpl; try done; [apply NoDup_singleton| |lia].
    constructor; [simpl; lia|done].
  - destruct (l_Exclusive l) eqn:Hx.
    + destruct (l_Holders l) as [|h hs] eqn:Hh; simpl; [done|].
      case_decide; simpl; auto with loka.
      apply Inv_putLock; [|done]. destruct Ho as [Hk ? Hnd Hex Hall ?].
      rewrite Hh in *. specialize (Hex Hx). simpl in *.
      constructor; simpl; try done; [|lia].
      apply Forall_cons in Hall as [? ?]. constructor; [simpl; lia|done].
    + simpl. apply Inv_putLock; [|done]. apply shared_lock_ok; [done|lia|lia].
Qed.

Lemma releaseKey_Inv T w key l m m' :
  (0 <= T)%Z -> releaseKey w key l m = Some m' -> lock_ok T key l -> Inv T m -> Inv T m'.
Proof.
  intros HT Heq [Hk ? Hnd Hex Hall ?] HI. unfold releaseKey in Heq.
  destruct (holds _ _) eqn:Hh; simplify_eq.
  assert (Forall (fun h => h_ExpiresAt h <= T + 10 * Minute)%Z (dropHolder w (l_Holders l)))
    as Hall' by (by apply Forall_filter_weaken).
  assert (NoDup (h_WorkerID <$> dropHolder w (l_Holders l))) as Hnd'
    by (by apply NoDup_fmap_filter).
  assert (length (dropHolder w (l_Holders l)) <= length (l_Holders l)) as Hlen
    by apply length_filter.
  destruct (dropHolder w (l_Holders l)) as [|h hs]; auto with loka.
  apply Inv_putLock; [|done]. constructor; simpl; try done.
  - intros Hx. specialize (Hex Hx). simpl in *. lia.
  - apply (maxExpiry_le (h :: hs)); [|done]. unfold Minute, Second. lia.
Qed.

Lemma Release_Inv T v p w m : (0 <= T)%Z -> Inv T m -> Inv T (Release v p w m).1.
Proof.
  intros HT HI. unfold Release. destruct (locks m !! _) as [l|] eqn:Hl; [|done].
  destruct (releaseKey _ _ _ _) eqn:Hr; [|done]. simpl.
  eapply releaseKey_Inv; [done|done| |done]. by eapply inv_locks.
Qed.

Lemma ReleaseAll_Inv T order w m : (0 <= T)%Z -> Inv T m -> Inv T (ReleaseAll order w m).1.
Proof.
  intros HT. unfold ReleaseAll. generalize 0 as n. revert m.
  induction order as [|key order IH]; intros m n HI; [done|]. simpl.
  destruct (locks m !! key) as [l|] eqn:Hl; [|by apply IH].
  destruct (releaseKey _ _ _ _) eqn:Hr; apply IH; [|done].
  eapply releaseKey_Inv; [done|done| |done]. by eapply inv_locks.
Qed.

Lemma ListLocks_Inv T order now v m : Inv T m -> Inv T (ListLocks order now v m).1.
Proof.
  unfold ListLocks. generalize (@nil FileLock) as res. revert m.
  induction order as [|key order IH]; intros m res HI; [done|]. simpl.
  destruct (purgeKey now key m) as [m' o] eqn:Hp.
  apply (purgeKey_Inv T) in Hp as [? _]; [|done]. destruct o; by apply IH.
Qed.

Lemma reapExpired_Inv T order now now2 m : Inv T m -> Inv T (reapExpired order now now2 m).
Proof.
  intros HI. unfold reapExpired.
  assert (Inv T (foldl (fun m key => reapKey now key m) m order)) as [? Hr].
  { revert m HI. induction order as [|key order IH]; intros m HI; [done|]. simpl.
    apply IH. unfold reapKey. destruct (locks m !! key) as [l|] eqn:Hl; [|done].
    assert (lock_ok T key l) as Hok by (by eapply inv_locks).
    pose proof (purged_ok T now key l Hok). destruct (purgeExpiredHolders _ _); auto with loka. }
  constructor; [done|]. simpl. destruct (db _) as [d|]; [|done]. simpl in *.
  rewrite db_rows_exec. simpl. by apply map_Forall_filter_weaken.
Qed.

Lemma loadFromDB_ok T now (d : DB) :
  map_Forall (row_ok T) (db_rows d) -> map_Forall (lock_ok T) (loadFromDB now d).
Proof.
  intros Hrows. unfold loadFromDB.
  assert (forall kr, kr ∈ db_select d -> row_ok T kr.1 kr.2) as Hsel.
  { intros [k r] Hin. rewrite db_rows_select in Hin.
    apply elem_of_map_to_list in Hin. by apply Hrows. }
  assert (map_Forall (lock_ok T) (∅ : gmap string FileLock)) as Hm0 by apply map_Forall_empty.
  revert Hsel Hm0. generalize (∅ : gmap string FileLock).
  induction (db_select d) as [|[k r] sel IH]; intros lks Hsel Hlks; [done|]. simpl.
  apply IH; [intros; apply Hsel; by right|]. case_match; [done|].
  destruct (Hsel (k, r)) as [Hk ?]; [by left|]. simpl in *.
  apply map_Forall_insert_2; [|done]. rewrite Hk. by apply singleton_lock_ok.
Qed.

Lemma NewManager_Inv T now m : Inv T m -> Inv T (NewManager now (db m)).
Proof.
  intros [_ Hr]. unfold NewManager. destruct (db m) as [d|] eqn:Hd; constructor; simpl; try done.
  by apply loadFromDB_ok.
Qed.

End Preservation.

(** ** Traces of operations *)

Inductive LockOp :=
  | OpAcquire (volume path workerID : string) (exclusive : bool) (ttl : Z)
  | OpRelease (volume path workerID : string)
  | OpReleaseAll (order : list string) (workerID : string)
  | OpIsLocked (volume path : string)
  | OpListLocks (order : list string) (volume : string)
  | OpReap (order : list string) (now2 : Z)
  | OpRestart.

Section Trace.
Context {DB : Type} `{LockTable DB}.

(** Every operation runs under the manager's mutex, so a run of the control
    plane is a sequence of whole operations, each at its clock reading. *)
Definition exec_op (now : Z) (op : LockOp) (m : Manager DB) : Manager DB :=
  match op with
  | OpAcquire v p w e ttl => (Acquire now v p w e ttl m).1
  | OpRelease v p w => (Release v p w m).1
  | OpReleaseAll order w => (ReleaseAll order w m).1
  | OpIsLocked v p => (IsLocked now v p m).1
  | OpListLocks order v => (ListLocks order now v m).1
  | OpReap order now2 => reapExpired order now now2 m
  | OpRestart => NewManager now (db m)
  end.

Definition exec_trace (tr : list (Z * LockOp)) (m : Manager DB) : Manager DB :=
  foldl (fun m no => exec_op no.1 no.2 m) m tr.

(** The clock does not run backwards. *)
Fixpoint clock_from (t : Z) (tr : list (Z * LockOp)) : Prop :=
  match tr with
  | [] => True
  | (now, _) :: tr => (t <= now)%Z /\ clock_from now tr
  end.
Fixpoint last_clock (t : Z) (tr : list (Z * LockOp)) : Z :=
  match tr with
  | [] => t
  | (now, _) :: tr => last_clock now tr
  end.

End Trace.

(** An operation that is not [w]'s own on the lock [key], nor a restart. *)
Definition foreign (w key : string) (op : LockOp) : Prop :=
  match op with
  | OpAcquire v p w' _ _ => w' <> w \/ lockKey v p <> key
  | OpRelease v p w' => w' <> w \/ lockKey v p <> key
  | OpReleaseAll _ w' => w' <> w
  | OpRestart => False
  | _ => True
  end.

Section TraceInv.
Context {DB : Type} `{LockTableLaws DB}.
Implicit Types (m : Manager DB) (now T : Z).

Lemma exec_op_Inv T now op m : (0 <= T)%Z -> (T <= now)%Z -> Inv T m -> Inv now (exec_op now op m).
Proof.
  intros ? Hle HI%(Inv_mono T now); [|done]. destruct op; simpl.
  - by apply Acquire_Inv; [lia|].
  - by apply Release_Inv; [lia|].
  - by apply ReleaseAll_Inv; [lia|].
  - destruct (IsLocked _ _ _ m) as [m' o] eqn:Hp. by apply (purgeKey_Inv now) in Hp as [? _].
  - by apply ListLocks_Inv.
  - by apply reapExpired_Inv.
  - by eapply NewManager_Inv.
Qed.

Lemma exec_trace_Inv T tr m :
  (0 <= T)%Z -> clock_from T tr -> Inv T m -> Inv (last_clock T tr) (exec_trace tr m).
Proof.
  revert T m. induction tr as [|[now op] tr IH]; intros T m HT Hc HI; [done|].
  destruct Hc as [? Hc]. simpl. apply IH; [lia|done|]. by eapply exec_op_Inv.
Qed.

End TraceInv.

(** ** What the operations do to the locks of other keys and workers *)

Section Effects.
Context {DB : Type} `{LockTable DB}.
Implicit Types (m : Manager DB) (now T ttl : Z) (key v p w : string) (order : list string)
  (l : FileLock) (o : option FileLock).

(** The lock a purge leaves: what [IsLocked] reports. *)
Definition live_lock (now : Z) (l : FileLock) : option FileLock :=
  match purgeExpiredHolders (l_Holders l) now with
  | [] => None
  | hs => Some (withHolders hs l)
  end.

Lemma purgeKey_spec now key m :
  let r := purgeKey now key m in
  r.2 = (locks m !! key ≫= live_lock now) /\
  locks r.1 = partial_alter (fun o => o ≫= live_lock now) key (locks m).
Proof.
  unfold purgeKey, live_lock. destruct (locks m !! key) as [l|] eqn:Hl; simpl.
  - split; [by destruct (purgeExpiredHolders _ _)|]. apply map_eq. intros k.
    destruct (decide (key = k)) as [<-|].
    + rewrite lookup_partial_alter_eq, Hl. simpl.
      destruct (purgeExpiredHolders _ _); simpl; by simplify_map_eq.
    + rewrite lookup_partial_alter_ne by done.
      destruct (purgeExpiredHolders _ _); simpl; by simplify_map_eq.
  - split; [done|]. apply map_eq. intros k. destruct (decide (key = k)) as [<-|].
    + by rewrite lookup_partial_alter_eq, Hl.
    + by rewrite lookup_partial_alter_ne.
Qed.

Lemma purgeKey_lookup_ne now key key' m :
  key <> key' -> locks (purgeKey now key m).1 !! key' = locks m !! key'.
Proof. intros. rewrite (proj2 (purgeKey_spec now key m)). by apply lookup_partial_alter_ne. Qed.

Lemma purgeKey_lookup_eq now key m :
  locks (purgeKey now key m).1 !! key = (locks m !! key ≫= live_lock now).
Proof. rewrite (proj2 (purgeKey_spec now key m)). apply lookup_partial_alter_eq. Qed.

Lemma live_lock_Some now l l' :
  live_lock now l = Some l' ->
  l' = withHolders (purgeExpiredHolders (l_Holders l) now) l /\ l_Holders l' <> [].
Proof. unfold live_lock. destruct (purgeExpiredHolders _ _); intros; by simplify_eq. Qed.

Lemma Acquire_lookup_ne now v p w e ttl m key :
  lockKey v p <> key -> locks (Acquire now v p w e ttl m).1 !! key = locks m !! key.
Proof.
  intros Hne. pose proof (purgeKey_lookup_ne now _ _ m Hne) as Hp.
  unfold Acquire. destruct (purgeKey _ _ _) as [m1 o]. simpl in Hp.
  destruct o as [l|]; [|simpl; by rewrite lookup_insert_ne].
  destruct e; [destruct (l_Holders l) as [|h [|??]]|
    destruct (l_Exclusive l); [destruct (l_Holders l)|]];
    try case_decide; simpl; rewrite ?lookup_insert_ne; done.
Qed.

Lemma releaseKey_lookup_ne w key l m m' key' :
  releaseKey w key l m = Some m' -> key <> key' -> locks m' !! key' = locks m !! key'.
Proof.
  unfold releaseKey. intros Heq ?. destruct (holds _ _); simplify_eq.
  destruct (dropHolder _ _); simpl; [by rewrite lookup_delete_ne|by rewrite lookup_insert_ne].
Qed.

End Effects.

(** ** Exclusive leases *)

Section Lease.
Context {DB : Type} `{LockTable DB}.
Implicit Types (m : Manager DB) (now T ttl e : Z) (key v p w : string) (order : list string)
  (l : FileLock).

(** [w] alone holds [key], exclusively, until [e]. *)
Definition leased (w key : string) (e : Z) (m : Manager DB) : Prop :=
  exists l, locks m !! key = Some l /\ l_Exclusive l = true /\
            l_Holders l = [mkHolder w e].

Lemma leased_purge w key e now key' m :
  leased w key e m -> (now < e)%Z -> leased w key e (purgeKey now key' m).1.
Proof.
  intros (l & Hl & Hx & Hh) ?. destruct (decide (key' = key)) as [->|Hne].
  - unfold leased. rewrite purgeKey_lookup_eq, Hl. simpl. unfold live_lock, purgeExpiredHolders.
    rewrite Hh, filter_cons_True by done. simpl. eauto.
  - exists l. by rewrite purgeKey_lookup_ne.
Qed.

(** Every other worker's request for the key fails. *)
Lemma leased_denies w e now v p w' x ttl m :
  leased w (lockKey v p) e m -> (now < e)%Z -> w' <> w ->
  is_ok (Acquire now v p w' x ttl m).2 = false /\
  leased w (lockKey v p) e (Acquire now v p w' x ttl m).1.
Proof.
  intros Hls Hlt Hw. destruct (leased_purge _ _ _ now (lockKey v p) _ Hls Hlt) as (l & Hl & Hx & Hh).
  pose proof (proj1 (purgeKey_spec now (lockKey v p) m)) as Hp.
  rewrite <-purgeKey_lookup_eq, Hl in Hp. unfold Acquire.
  destruct (purgeKey _ _ _) as [m1 o]. simpl in *. subst o.
  rewrite Hh, Hx. destruct x; (case_decide; [simpl in *; congruence|]);
    (split; [done|]); exists l; split_and!; done.
Qed.

Lemma leased_release_other w key e w' l m m' :
  leased w key e m -> locks m !! key = Some l -> w' <> w ->
  releaseKey w' key l m = Some m' -> False.
Proof.
  intros (l' & Hl & _ & Hh) Hl' Hw. simplify_eq. unfold releaseKey, holds.
  rewrite Hh. simpl. by rewrite bool_decide_eq_false_2.
Qed.

Lemma leased_releaseAll w key e w' order m :
  leased w key e m -> w' <> w -> leased w key e (ReleaseAll order w' m).1.
Proof.
  unfold ReleaseAll. generalize 0 as n. revert m.
  induction order as [|k order IH]; intros m n Hls Hw; [done|]. simpl.
  destruct (locks m !! k) as [l|] eqn:Hl; [|by apply IH].
  destruct (releaseKey _ _ _ _) eqn:Hr; apply IH; try done.
  destruct (decide (k = key)) as [->|].
  - exfalso. by eapply leased_release_other.
  - destruct Hls as (l' & ? & ?). exists l'. by rewrite (releaseKey_lookup_ne _ _ _ _ _ _ Hr).
Qed.

Lemma leased_listLocks w key e now v order m :
  leased w key e m -> (now < e)%Z -> leased w key e (ListLocks order now v m).1.
Proof.
  unfold ListLocks. generalize (@nil FileLock) as res. revert m.
  induction order as [|k order IH]; intros m res Hls Hlt; [done|]. simpl.
  pose proof (leased_purge _ _ _ now k _ Hls Hlt). destruct (purgeKey now k m) as [m' o].
  destruct o; by apply IH.
Qed.

Lemma reapKey_locks now key m :
  locks (reapKey now key m) = locks (purgeKey now key m).1.
Proof.
  unfold reapKey, purgeKey. destruct (locks m !! key); [|done].
  by destruct (purgeExpiredHolders _ _).
Qed.

Lemma leased_reap w key e now now2 order m :
  leased w key e m -> (now < e)%Z -> leased w key e (reapExpired order now now2 m).
Proof.
  intros Hls Hlt. unfold leased, reapExpired. simpl.
  change (leased w key e (foldl (fun m key => reapKey now key m) m order)).
  revert m Hls. induction order as [|k order IH]; intros m Hls; [done|]. simpl.
  apply IH. unfold leased. rewrite reapKey_locks. by apply leased_purge.
Qed.

Lemma leased_step w key e now op m :
  leased w key e m -> (now < e)%Z -> foreign w key op -> leased w key e (exec_op now op m).
Proof.
  intros Hls Hlt Hf. destruct op; simpl in *.
  - destruct (decide (lockKey volume path = key)) as [<-|Hne].
    + destruct Hf as [Hf|?]; [|done]. by apply leased_denies.
    + destruct Hls as (l & ? & ?). exists l. by rewrite Acquire_lookup_ne.
  - unfold Release. destruct (locks m !! _) as [l|] eqn:Hl; [|done].
    destruct (releaseKey _ _ _ _) eqn:Hr; [|done]. simpl.
    destruct (decide (lockKey volume path = key)) as [<-|Hne].
    + destruct Hf as [Hf|?]; [|done]. exfalso. by eapply leased_release_other.
    + destruct Hls as (l' & ? & ?). exists l'. by rewrite (releaseKey_lookup_ne _ _ _ _ _ _ Hr).
  - by apply leased_releaseAll.
  - by apply leased_purge.
  - by apply leased_listLocks.
  - by apply leased_reap.
  - done.
Qed.

Lemma leased_trace w key e tr m :
  leased w key e m -> Forall (fun no => (no.1 < e)%Z /\ foreign w key no.2) tr ->
  leased w key e (exec_trace tr m).
Proof.
  revert m. induction tr as [|[now op] tr IH]; intros m Hls Hall; [done|].
  apply Forall_cons in Hall as [[? ?] ?]. simpl. apply IH; [|done]. by apply leased_step.
Qed.

Lemma Acquire_exclusive_leases now v p w ttl m :
  is_ok (Acquire now v p w true ttl m).2 = true ->
  leased w (lockKey v p) (now + clampTTL ttl) (Acquire now v p w true ttl m).1.
Proof.
  unfold Acquire. destruct (purgeKey _ _ _) as [m1 [l|]].
  - destruct (l_Holders l) as [|h [|??]]; simpl; try done.
    destruct (decide _) as [<-|]; [|done]. intros _. eexists. simpl.
    by rewrite lookup_insert_eq.
  - intros _. eexists. simpl. by rewrite lookup_insert_eq.
Qed.

End Lease.

(** ** Functional behaviour of [Acquire] *)

Section AcquireSpec.
Context {DB : Type} `{LockTable DB}.
Implicit Types (m : Manager DB) (now T ttl e : Z) (key v p w : string) (l : FileLock).

(** The unexpired holders of a key and whether its lock is exclusive. *)
Definition live_holders (now : Z) (key : string) (m : Manager DB) : list LockHolder :=
  match locks m !! key with
  | Some l => purgeExpiredHolders (l_Holders l) now
  | None => []
  end.
Definition is_exclusive (key : string) (m : Manager DB) : bool :=
  match locks m !! key with Some l => l_Exclusive l | None => false end.

(** The specification of a grant: nobody holds the file, or the worker is the
    only holder, or holders and request are all shared. *)
Definition may_acquire (now : Z) (key w : string) (exclusive : bool) (m : Manager DB) : bool :=
  match live_holders now key m with
  | [] => true
  | h :: hs =>
      if exclusive then bool_decide (h_WorkerID h = w) && (length hs =? 0)
      else negb (is_exclusive key m) || bool_decide (h_WorkerID h = w)
  end.

Lemma purgeKey_live now key m :
  match (purgeKey now key m).2 with
  | None => live_holders now key m = []
  | Some l => exists l0, locks m !! key = Some l0 /\
      l = withHolders (live_holders now key m) l0 /\ live_holders now key m <> []
  end.
Proof.
  rewrite (proj1 (purgeKey_spec now key m)). unfold live_holders.
  destruct (locks m !! key) as [l0|]; simpl; [|done].
  unfold live_lock. destruct (purgeExpiredHolders _ _) eqn:Hp; [done|].
  by exists l0.
Qed.

Lemma Acquire_decides now v p w x ttl m :
  is_ok (Acquire now v p w x ttl m).2 = may_acquire now (lockKey v p) w x m.
Proof.
  pose proof (purgeKey_live now (lockKey v p) m) as Hl.
  unfold Acquire, may_acquire, is_exclusive.
  destruct (purgeKey _ _ _) as [m1 [l|]]; simpl in *; [|by rewrite Hl].
  destruct Hl as (l0 & -> & -> & Hne). simpl.
  destruct (live_holders _ _ _) as [|h hs]; [done|].
  destruct x; [|destruct (l_Exclusive l0)]; simpl; [| |done].
  - destruct hs as [|??]; simpl; [|by rewrite andb_false_r].
    by case_decide; case_bool_decide.
  - by case_decide; case_bool_decide.
Qed.

(** What a grant leaves behind: the worker's lease, nobody else's lost. *)
Lemma Acquire_effect now v p w x ttl m :
  let key := lockKey v p in
  let m' := (Acquire now v p w x ttl m).1 in
  is_ok (Acquire now v p w x ttl m).2 = true ->
  exists l, locks m' !! key = Some l /\
    mkHolder w (now + clampTTL ttl) ∈ l_Holders l /\
    (forall h, h ∈ live_holders now key m -> h_WorkerID h <> w -> h ∈ l_Holders l) /\
    (x = true -> l_Exclusive l = true).
Proof.
  intros key m'. subst key m'. pose proof (purgeKey_live now (lockKey v p) m) as Hl.
  unfold Acquire. destruct (purgeKey _ _ _) as [m1 [l|]]; simpl in *.
  2: { intros _. rewrite Hl. eexists. rewrite lookup_insert_eq. split; [done|]. simpl.
       split_and!; [by left| |done]. intros h Hin. inversion Hin. }
  destruct Hl as (l0 & _ & -> & _). simpl.
  set (hs := live_holders now (lockKey v p) m). destruct x.
  - destruct hs as [|h [|??]]; simpl; try done. destruct (decide _) as [<-|]; [|done].
    intros _. eexists. simpl. rewrite lookup_insert_eq. split; [done|]. simpl.
    split_and!; [by left| |done]. intros h' Hin ?. apply list_elem_of_singleton in Hin. naive_solver.
  - destruct (l_Exclusive l0).
    + destruct hs as [|h hs']; simpl; [done|]. destruct (decide _) as [<-|]; [|done].
      intros _. eexists. simpl. rewrite lookup_insert_eq. split; [done|]. simpl.
      split_and!; [by left| |done]. intros h' [->|?]%elem_of_cons ?; [done|by right].
    + intros _. eexists. simpl. rewrite lookup_insert_eq. split; [done|]. simpl.
      destruct (extendHolder w _ hs) as [hs'|] eqn:He.
      * split_and!; [by eapply extendHolder_elem| |done].
        intros h Hin Hw. eapply extendHolder_keeps; eauto.
      * split_and!; [set_solver|set_solver|done].
Qed.

End AcquireSpec.

(** ** Releases and listings, for every iteration order *)

Section ReleaseSpec.
Context {DB : Type} `{LockTable DB}.
Implicit Types (m : Manager DB) (now : Z) (key v p w : string) (order : list string)
  (l : FileLock).

(** What a release by [w] leaves of a lock. *)
Definition released (w : string) (l : FileLock) : option FileLock :=
  if holds w (l_Holders l) then
    match dropHolder w (l_Holders l) with
    | [] => None
    | h :: hs => Some (mkLock (l_Volume l) (l_Path l) (h :: hs) (l_Exclusive l)
                         (l_AcquiredAt l) (h_WorkerID h) (maxExpiry (h :: hs)))
    end
  else Some l.

Lemma releaseKey_spec w key l m :
  locks m !! key = Some l ->
  match releaseKey w key l m with
  | None => holds w (l_Holders l) = false
  | Some m' => holds w (l_Holders l) = true /\
               locks m' = partial_alter (fun _ => released w l) key (locks m)
  end.
Proof.
  intros Hl. unfold releaseKey, released. destruct (holds _ _); [|done]. split; [done|].
  by destruct (dropHolder _ _).
Qed.

Lemma released_id w l : holds w (l_Holders l) = false -> released w l = Some l.
Proof. unfold released. by intros ->. Qed.

Lemma releaseAll_foldl w order m n :
  NoDup order ->
  let r := foldl (releaseAllStep w) (m, n) order in
  (forall k, locks r.1 !! k =
     if decide (k ∈ order) then locks m !! k ≫= released w else locks m !! k) /\
  r.2 = n + length (filter (fun k =>
     from_option (fun l => holds w (l_Holders l)) false (locks m !! k) = true) order).
Proof.
  revert m n. induction order as [|key order IH]; intros m n Hnd.
  { split; [|simpl; lia]. intros k. rewrite decide_False; [done|]. apply not_elem_of_nil. }
  apply NoDup_cons in Hnd as [Hni Hnd]. simpl.
  destruct (locks m !! key) as [l|] eqn:Hl.
  2: { destruct (IH m n Hnd) as [IH1 IH2]. split.
       - intros k. rewrite IH1. destruct (decide (k = key)) as [->|].
         + rewrite Hl. repeat case_decide; done.
         + repeat case_decide; set_solver.
       - rewrite IH2, filter_cons_False; [done|]. by rewrite Hl. }
  pose proof (releaseKey_spec w key l m Hl) as Hr.
  destruct (releaseKey w key l m) as [m'|].
  - destruct Hr as [Hh Hm']. destruct (IH m' (S n) Hnd) as [IH1 IH2].
    assert (forall k, k <> key -> locks m' !! k = locks m !! k) as Hne.
    { intros k ?. rewrite Hm'. by apply lookup_partial_alter_ne. }
    split.
    + intros k. rewrite IH1. destruct (decide (k = key)) as [->|].
      * rewrite decide_False by done. rewrite decide_True by by left.
        rewrite Hm', Hl. by rewrite lookup_partial_alter_eq.
      * rewrite (Hne k) by done. repeat case_decide; set_solver.
    + rewrite IH2, filter_cons_True by (by rewrite Hl). simpl. rewrite Nat.add_succ_r.
      f_equal. f_equal. f_equal. apply list_filter_iff'. intros k Hk.
      by rewrite Hne by (intros ->; done).
  - destruct (IH m n Hnd) as [IH1 IH2]. split.
    + intros k. rewrite IH1. destruct (decide (k = key)) as [->|].
      * rewrite Hl. simpl. rewrite (released_id _ _ Hr). by repeat case_decide.
      * repeat case_decide; set_solver.
    + rewrite IH2, filter_cons_False; [done|]. rewrite Hl. simpl. congruence.
Qed.

Lemma released_not_holds w l l' : released w l = Some l' -> holds w (l_Holders l') = false.
Proof.
  unfold released. destruct (holds _ _) eqn:Hh; [|intros; by simplify_eq].
  intros Heq. assert (l_Holders l' = dropHolder w (l_Holders l)) as ->
    by (destruct (dropHolder _ _); by simplify_eq).
  destruct (holds _ (dropHolder _ _)) eqn:Hd; [|done].
  apply holds_true, list_elem_of_fmap in Hd as (h & ? & [??]%dropHolder_elem). congruence.
Qed.

Lemma releaseAll_count w (t : gmap string FileLock) :
  length (filter (fun k => from_option (fun l => holds w (l_Holders l)) false (t !! k) = true)
            (map_to_list t).*1) =
  length (filter (fun kl => holds w (l_Holders kl.2) = true) (map_to_list t)).
Proof.
  assert (forall kl, kl ∈ map_to_list t -> t !! kl.1 = Some kl.2) as Hin.
  { intros [k l] Hk. by apply elem_of_map_to_list. }
  induction (map_to_list t) as [|[k l] kls IH]; [done|]. csimpl.
  assert (t !! k = Some l) as Hk by (apply (Hin (k, l)); by left).
  rewrite !filter_cons, Hk. simpl.
  case_decide; simpl; rewrite IH; try done; intros; apply Hin; by right.
Qed.

Lemma listLocks_foldl now v order m res :
  NoDup order ->
  (foldl (listLocksStep now v) (m, res) order).2 =
  res ++ filter (fun l => l_Volume l = v)
           (omap (fun k => locks m !! k ≫= live_lock now) order).
Proof.
  revert m res. induction order as [|key order IH]; intros m res Hnd; [by rewrite app_nil_r|].
  apply NoDup_cons in Hnd as [Hni Hnd]. simpl.
  destruct (purgeKey_spec now key m) as [Hp1 Hp2]. rewrite <-Hp1.
  destruct (purgeKey now key m) as [m' o]. simpl in *.
  assert (omap (fun k => locks m' !! k ≫= live_lock now) order =
          omap (fun k => locks m !! k ≫= live_lock now) order) as Hom.
  { apply omap_ext'. intros k Hk. rewrite Hp2, lookup_partial_alter_ne; [done|]. by intros ->. }
  destruct o as [l|]; rewrite IH, Hom by done; [|done].
  rewrite filter_cons. by case_decide; rewrite <-?app_assoc.
Qed.

End ReleaseSpec.

(** ** Properties *)

Section Properties.
Context {DB : Type} `{LockTableLaws DB}.
Implicit Types (m : Manager DB) (now T : Z).

(** C1 Mutual exclusion of exclusive locks over whole executions: once [Acquire]
    grants a worker an exclusive lock, then after any sequence of operations of
    other workers (acquires, releases, disconnects, listings, reaper ticks) and of
    operations on other files, every request by another worker for that file is
    refused until the granted time to live has passed, and the lease stands. *)
Theorem exclusive_lock_excludes m now v p w ttl tr now' w' x ttl' :
  is_ok (Acquire now v p w true ttl m).2 = true ->
  Forall (fun no => (no.1 < now + clampTTL ttl)%Z /\ foreign w (lockKey v p) no.2) tr ->
  (now' < now + clampTTL ttl)%Z -> w' <> w ->
  let m' := exec_trace tr (Acquire now v p w true ttl m).1 in
  leased w (lockKey v p) (now + clampTTL ttl) m' /\
  is_ok (Acquire now' v p w' x ttl' m').2 = false.
Proof.
  intros Hok Htr Hnow Hw m'.
  assert (leased w (lockKey v p) (now + clampTTL ttl) m') as Hls
    by (by apply leased_trace, Htr; apply Acquire_exclusive_leases).
  split; [done|]. by eapply leased_denies.
Qed.

(** [Acquire] on every branch: it succeeds exactly when nobody holds the file,
    or the requester is its only holder, or request and lock are both shared, with
    expired holders ignored. A granted request leaves the requester with a lease
    that ends after the clamped time to live, keeps every other live holder, and
    is exclusive when asked to be; other files' locks never change. *)
Theorem acquire_correct m now v p w x ttl :
  let r := Acquire now v p w x ttl m in
  is_ok r.2 = may_acquire now (lockKey v p) w x m /\
  (is_ok r.2 = true -> exists l, locks r.1 !! lockKey v p = Some l /\
     mkHolder w (now + clampTTL ttl) ∈ l_Holders l /\
     (forall h, h ∈ live_holders now (lockKey v p) m -> h_WorkerID h <> w ->
        h ∈ l_Holders l) /\
     (x = true -> l_Exclusive l = true)) /\
  (forall key, lockKey v p <> key -> locks r.1 !! key = locks m !! key).
Proof.
  split_and!; [apply Acquire_decides|apply Acquire_effect|].
  intros. by apply Acquire_lookup_ne.
Qed.

(** In every state reachable from one that satisfies the invariant (the empty
    manager in particular), restarts from the database included, each lock sits
    under its own key, has a holder, has no duplicate holder, has exactly one
    holder if exclusive, and no lease outlives the clock by more than 10 minutes. *)
Theorem lock_invariant T m tr key l :
  (0 <= T)%Z -> Inv T m -> clock_from T tr ->
  locks (exec_trace tr m) !! key = Some l ->
  key = lockKey (l_Volume l) (l_Path l) /\ l_Holders l <> [] /\
  NoDup (h_WorkerID <$> l_Holders l) /\
  (l_Exclusive l = true -> length (l_Holders l) = 1) /\
  Forall (fun h => h_ExpiresAt h <= last_clock T tr + 10 * Minute)%Z (l_Holders l).
Proof.
  intros HT HI Hc Hl.
  by destruct (inv_locks _ _ (exec_trace_Inv T tr m HT Hc HI) _ _ Hl).
Qed.

(** No lock stays held for ever: in every reachable state, a worker that asks
    for any file ten minutes after the last operation, in any mode, is granted it,
    whoever crashed holding it. *)
Theorem lock_never_stuck T m tr now v p w x ttl :
  (0 <= T)%Z -> Inv T m -> clock_from T tr ->
  (last_clock T tr + 10 * Minute <= now)%Z ->
  is_ok (Acquire now v p w x ttl (exec_trace tr m)).2 = true.
Proof.
  intros HT HI Hc Hnow. rewrite Acquire_decides. unfold may_acquire.
  replace (live_holders now (lockKey v p) (exec_trace tr m)) with (@nil LockHolder); [done|].
  unfold live_holders. destruct (locks _ !! _) as [l|] eqn:Hl; [|done].
  destruct (inv_locks _ _ (exec_trace_Inv T tr m HT Hc HI) _ _ Hl) as [_ _ _ _ Hexp _].
  symmetry. apply filter_nil_Forall. eapply Forall_impl; [exact Hexp|]. simpl. lia.
Qed.

(** [ReleaseAll] does not depend on the order Go visits the map: for every
    enumeration of the keys, each lock loses exactly the worker's holders, locks
    left without holders disappear, and the count is the number of locks on which
    the worker held something; afterwards it holds nothing. *)
Theorem releaseAll_any_order m order w :
  order ≡ₚ (map_to_list (locks m)).*1 ->
  let r := ReleaseAll order w m in
  locks r.1 = omap (released w) (locks m) /\
  r.2 = length (filter (fun kl => holds w (l_Holders kl.2) = true) (map_to_list (locks m))) /\
  (forall key l, locks r.1 !! key = Some l -> holds w (l_Holders l) = false).
Proof.
  intros Hperm r. pose proof (NoDup_fst_map_to_list (locks m)) as Hnd. rewrite <-Hperm in Hnd.
  destruct (releaseAll_foldl w order m 0 Hnd) as [Hl Hc].
  assert (locks r.1 = omap (released w) (locks m)) as Heq.
  { apply map_eq. intros k. unfold r, ReleaseAll. rewrite Hl, lookup_omap.
    case_decide as Hk; [by destruct (locks m !! k)|].
    rewrite Hperm in Hk. destruct (locks m !! k) as [l|] eqn:Hlk; [|done].
    destruct Hk. apply list_elem_of_fmap. exists (k, l). by rewrite elem_of_map_to_list. }
  split_and!; [done| |].
  - unfold r, ReleaseAll. rewrite Hc, Hperm. simpl. apply releaseAll_count.
  - intros key l. rewrite Heq, lookup_omap. intros Hk.
    destruct (locks m !! key) as [l0|]; [|done]. simpl in Hk. by eapply released_not_holds.
Qed.

(** [ListLocks] returns, for every visiting order of the map, exactly the locks
    of the volume that still have an unexpired holder, each with its unexpired
    holders only. *)
Theorem listLocks_correct m order now v l :
  order ≡ₚ (map_to_list (locks m)).*1 ->
  l ∈ (ListLocks order now v m).2 <->
  l_Volume l = v /\ exists key l0, locks m !! key = Some l0 /\
    l = withHolders (purgeExpiredHolders (l_Holders l0) now) l0 /\ l_Holders l <> [].
Proof.
  intros Hperm. pose proof (NoDup_fst_map_to_list (locks m)) as Hnd. rewrite <-Hperm in Hnd.
  unfold ListLocks. rewrite (listLocks_foldl now v order m [] Hnd). simpl.
  rewrite list_elem_of_filter, list_elem_of_omap. f_equiv. split.
  - intros (k & _ & Hk). destruct (locks m !! k) as [l0|] eqn:Hl0; [|done]. simpl in Hk.
    apply live_lock_Some in Hk as [-> ?]. eauto.
  - intros (k & l0 & Hl0 & -> & Hne). exists k. split.
    + rewrite Hperm. apply list_elem_of_fmap. exists (k, l0). by rewrite elem_of_map_to_list.
    + rewrite Hl0. simpl in *. unfold live_lock. by destruct (purgeExpiredHolders _ _).
Qed.

End Properties.

(** ** Witnesses and a restart that forgets a holder *)

Section Witnesses.
Let empty : Manager (gmap string LockRow) := NewManager 0 (Some ∅).

Lemma empty_Inv : Inv 0 empty.
Proof.
  constructor; [change (map_Forall (lock_ok 0) (∅ : gmap string FileLock))
               |change (map_Forall (row_ok 0) (∅ : gmap string LockRow))];
  apply map_Forall_empty.
Qed.

Lemma exclusive_lock_excludes_witness :
  is_ok (Acquire 5 "vol" "/f" "w1" true Second empty).2 = true /\
  is_ok (Acquire 7 "vol" "/f" "w2" false Second
    (exec_trace [(6%Z, OpReleaseAll ["vol:/f"] "w2"); (6%Z, OpReap ["vol:/f"] 6)]
       (Acquire 5 "vol" "/f" "w1" true Second empty).1)).2 = false.
Proof.
  split; [by vm_compute|].
  apply (exclusive_lock_excludes empty 5 "vol" "/f" "w1" Second
    [(6%Z, OpReleaseAll ["vol:/f"] "w2"); (6%Z, OpReap ["vol:/f"] 6)] 7 "w2" false Second);
    [by vm_compute| |by vm_compute|done].
  repeat constructor; done.
Defined.

Lemma lock_invariant_witness :
  exists l, locks (exec_trace [(3%Z, OpAcquire "vol" "/f" "w1" true 5)] empty) !! "vol:/f" = Some l
    /\ length (l_Holders l) = 1.
Proof.
  eexists. split; [by vm_compute|].
  apply (lock_invariant 0 empty [(3%Z, OpAcquire "vol" "/f" "w1" true 5)] "vol:/f");
    [done|apply empty_Inv|done|by vm_compute|done].
Defined.

Lemma lock_never_stuck_witness :
  is_ok (Acquire (3 + 10 * Minute) "vol" "/f" "w2" true Second
    (exec_trace [(3%Z, OpAcquire "vol" "/f" "w1" true 0); (3%Z, OpRestart)] empty)).2 = true.
Proof.
  apply (lock_never_stuck 0 empty [(3%Z, OpAcquire "vol" "/f" "w1" true 0); (3%Z, OpRestart)]);
    [done|apply empty_Inv|done|done].
Defined.

Lemma releaseAll_any_order_witness :
  (ReleaseAll ["vol:/f"] "w1" (Acquire 3 "vol" "/f" "w1" true 5 empty).1).2 = 1.
Proof.
  apply (releaseAll_any_order (Acquire 3 "vol" "/f" "w1" true 5 empty).1 ["vol:/f"] "w1").
  by vm_compute.
Defined.

Lemma listLocks_correct_witness :
  mkLock "vol" "/f" [mkHolder "w1" (3 + 5)] true 3 "w1" (3 + 5) ∈
  (ListLocks ["vol:/f"] 4 "vol" (Acquire 3 "vol" "/f" "w1" true 5 empty).1).2.
Proof.
  apply (listLocks_correct (Acquire 3 "vol" "/f" "w1" true 5 empty).1 ["vol:/f"] 4 "vol").
  { by vm_compute. }
  split; [done|]. exists "vol:/f". eexists. split; [by vm_compute|]. by split.
Defined.

(** The table keeps one worker per lock, so a restart forgets the other shared
    holders: here [w2] still has 29 seconds of its shared lease when [w1] is granted
    the file exclusively. Without the restart the same request is refused. *)
Lemma restart_forgets_shared_holders :
  let shared := exec_trace [(0%Z, OpAcquire "vol" "/f" "w1" false (30 * Second));
                            (0%Z, OpAcquire "vol" "/f" "w2" false (30 * Second))] empty in
  mkHolder "w2" (30 * Second) ∈ live_holders Second "vol:/f" shared /\
  is_ok (Acquire Second "vol" "/f" "w1" true 0 shared).2 = false /\
  is_ok (Acquire Second "vol" "/f" "w1" true 0 (exec_op Second OpRestart shared)).2 = true.
Proof. vm_compute. split_and!; [right; left|done|done]. Qed.

End Witnesses.
