(* ===== verification/Filesystem.v ===== *)
(** * Filesystem policy ([src/internal/loka/filesystem.go], modes of [mode.go])

    Ordered access rules over cleaned paths, the per-mode overrides, the default
    policy and the in-VM gate [FSGate]. *)

From stdpp Require Import options.
From Stdlib Require Import Ascii.
From S2P Require Import Prelude GoStrings GoPath.

(** ** Execution modes: Go strings, with three declared values *)

Abbreviation ExecMode := string (only parsing).
Definition ModeExplore : ExecMode := "explore".
Definition ModeExecute : ExecMode := "execute".
Definition ModeAsk : ExecMode := "ask".

Definition ValidModeTransitions : gmap string (list ExecMode) :=
  list_to_map [(ModeExplore, [ModeExecute; ModeAsk]); (ModeExecute, [ModeExplore; ModeAsk]);
               (ModeAsk, [ModeExplore; ModeExecute])].

Definition CanTransitionModeTo (current target : ExecMode) : bool :=
  if bool_decide (current = target) then true
  else match ValidModeTransitions !! current with
       | None => false
       | Some allowed => existsb (fun a => bool_decide (a = target)) allowed
       end.

(** ** Rules *)

Abbreviation FSAction := string (only parsing).
Definition FSAllow : FSAction := "allow".
Definition FSDeny : FSAction := "deny".

Abbreviation FSAccess := string (only parsing).
Definition FSRead : FSAccess := "read".
Definition FSWrite : FSAccess := "write".
Definition FSExecute : FSAccess := "execute".
Definition FSList : FSAccess := "list".
Definition FSDelete : FSAccess := "delete".
Definition FSCreate : FSAccess := "create".

Record FSRule := mkFSRule {
  fr_Action : FSAction;
  fr_Path : string;
  fr_Access : list FSAccess;
  fr_Description : string
}.

Record FilesystemPolicy := mkFSPolicy {
  fp_DefaultAction : FSAction;
  fp_Rules : list FSRule
}.

Definition DefaultFilesystemPolicy : FilesystemPolicy :=
  mkFSPolicy FSDeny [
    mkFSRule FSAllow "/workspace/**" [] "workspace full access";
    mkFSRule FSAllow "/tmp/**" [] "temp directory";
    mkFSRule FSAllow "/env/**" [FSRead; FSExecute; FSList] "package binaries";
    mkFSRule FSAllow "/usr/**" [FSRead; FSExecute; FSList] "system binaries";
    mkFSRule FSAllow "/lib/**" [FSRead; FSList] "system libraries";
    mkFSRule FSAllow "/etc/**" [FSRead; FSList] "system config";
    mkFSRule FSAllow "/dev/null" [] "null device";
    mkFSRule FSAllow "/dev/zero" [FSRead] "zero device";
    mkFSRule FSAllow "/dev/urandom" [FSRead] "random device";
    mkFSRule FSDeny "/dev/**" [] "block all other devices";
    mkFSRule FSDeny "/proc/*/mem" [] "block process memory access";
    mkFSRule FSDeny "/proc/kcore" [] "block kernel memory";
    mkFSRule FSDeny "/sys/**" [] "block sysfs";
    mkFSRule FSAllow "/proc/**" [FSRead; FSList] "proc read-only" ].

Definition ModeFilesystemOverrides : gmap string (list FSRule) :=
  list_to_map [
    (ModeExplore, [
       mkFSRule FSAllow "/workspace/**" [FSRead; FSList] "workspace read-only in explore";
       mkFSRule FSDeny "/workspace/**" [FSWrite; FSDelete; FSCreate] "no writes in explore" ]);
    (ModeExecute, []) ].

(** ** Matching *)

Definition matchPath (pattern path : string) : bool :=
  if bool_decide (pattern = "any" \/ pattern = "*") then true
  else if bool_decide (pattern = path) then true
  else if HasSuffix pattern "/" then
    HasPrefix path pattern || bool_decide (path = TrimSuffix pattern "/")
  else if HasSuffix pattern "/**" then
    let prefix := TrimSuffix pattern "/**" in
    bool_decide (path = prefix) || HasPrefix path (prefix +:+ "/")
  else if Match pattern path then true
  else if Contains pattern "*" && Match (Base pattern) (Base path) then
    HasPrefix (Dir path) (Dir pattern)
  else false.

(** [FSRule.Matches] *)
Definition FSRule_Matches (r : FSRule) (path : string) (access : FSAccess) : bool :=
  if (0 <? length (fr_Access r)) && negb (existsb (fun a => bool_decide (a = access)) (fr_Access r))
  then false
  else matchPath (fr_Path r) path.

(** The first rule of a list that matches. *)
Fixpoint firstRule (rules : list FSRule) (path : string) (access : FSAccess) : option FSRule :=
  match rules with
  | [] => None
  | r :: rules => if FSRule_Matches r path access then Some r else firstRule rules path access
  end.

(** [FilesystemPolicy.Evaluate] *)
Definition FS_Evaluate (p : FilesystemPolicy) (path : string) (access : FSAccess)
    : FSAction * option FSRule :=
  let path := Clean path in
  match firstRule (fp_Rules p) path access with
  | Some r => (fr_Action r, Some r)
  | None =>
      (if bool_decide (fp_DefaultAction p = "") then FSDeny else fp_DefaultAction p, None)
  end.

Definition EvaluateWithMode (p : FilesystemPolicy) (path : string) (access : FSAccess)
    (mode : ExecMode) : FSAction * option FSRule :=
  let path := Clean path in
  let over := rules ← ModeFilesystemOverrides !! mode; firstRule rules path access in
  match over with
  | Some r => (fr_Action r, Some r)
  | None => FS_Evaluate p path access
  end.

Definition denyReason (rule : option FSRule) (path op : string) : string :=
  match rule with
  | Some r => if bool_decide (fr_Description r <> "")
              then op +:+ " denied on " +:+ path +:+ ": " +:+ fr_Description r
              else op +:+ " denied on " +:+ path +:+ " by default policy"
  | None => op +:+ " denied on " +:+ path +:+ " by default policy"
  end.

(** The four convenience methods share this body. *)
Definition isAllowed (access : FSAccess) (p : FilesystemPolicy) (path : string)
    (mode : ExecMode) : bool * string :=
  let '(action, rule) := EvaluateWithMode p path access mode in
  if bool_decide (action = FSAllow) then (true, "")
  else (false, denyReason rule path access).

Definition IsReadAllowed := isAllowed FSRead.
Definition IsWriteAllowed := isAllowed FSWrite.
Definition IsExecAllowed := isAllowed FSExecute.
Definition IsDeleteAllowed := isAllowed FSDelete.

Record FSGate := mkFSGate { fg_Policy : FilesystemPolicy; fg_Mode : ExecMode }.

Inductive FSError := ErrFSDenied (access path reason : string).

(** [FSGate.Check] *)
Definition FSGate_Check (g : FSGate) (path : string) (access : FSAccess) : result FSError unit :=
  let '(action, rule) := EvaluateWithMode (fg_Policy g) path access (fg_Mode g) in
  if bool_decide (action = FSAllow) then Ok tt
  else Err (ErrFSDenied access path (denyReason rule path access)).

(** ** Lemmas *)

(** [dir] itself or below it, as a statement on path strings. *)
Definition under (dir path : string) : Prop :=
  path = dir \/ exists rest, path = dir +:+ "/" +:+ rest.

Lemma recursive_no_slash dir : HasSuffix (dir +:+ "/**") "/" = false.
Proof.
  destruct (HasSuffix _ _) eqn:E; [|done]. apply HasSuffix_spec in E as [t Ht].
  change "/**" with ("/*" +:+ "*") in Ht. rewrite <-str_app_assoc in Ht.
  apply str_snoc_inj in Ht as [_ Hc]. discriminate Hc.
Qed.

Lemma recursive_not_any dir : bool_decide (dir +:+ "/**" = "any" \/ dir +:+ "/**" = "*") = false.
Proof.
  apply bool_decide_eq_false_2. intros [H|H].
  - change "/**" with ("/*" +:+ "*") in H. rewrite <-str_app_assoc in H.
    change "any" with ("an" +:+ "y") in H. apply str_snoc_inj in H as [_ Hc]. discriminate Hc.
  - destruct dir as [|c [|d dir]]; discriminate H.
Qed.

(** A recursive pattern matches its directory and everything below, nothing else. *)
Lemma matchPath_recursive dir path : matchPath (dir +:+ "/**") path = true <-> under dir path.
Proof.
  unfold matchPath. rewrite recursive_not_any, recursive_no_slash.
  rewrite (proj2 (HasSuffix_spec _ "/**")) by eauto. rewrite TrimSuffix_app. unfold under.
  case_bool_decide as Hp.
  { split; [|done]. intros _. right. exists "**". by subst. }
  rewrite orb_true_iff, bool_decide_eq_true, HasPrefix_spec. f_equiv.
  split; intros [t ->]; exists t; by rewrite str_app_assoc.
Qed.

(** A pattern without special characters and trailing slash matches only itself. *)
Lemma matchPath_plain pattern path :
  plain pattern = true -> Contains pattern "*" = false -> HasSuffix pattern "/" = false ->
  HasSuffix pattern "/**" = false -> bool_decide (pattern = "any" \/ pattern = "*") = false ->
  matchPath pattern path = bool_decide (pattern = path).
Proof.
  intros Hp Hc Hs Hs2 Hany. unfold matchPath. rewrite Hany, Hs, Hs2, Hc. simpl.
  rewrite Match_plain by done. by repeat case_bool_decide.
Qed.

Lemma firstRule_Some rules path access r :
  firstRule rules path access = Some r -> r ∈ rules /\ FSRule_Matches r path access = true.
Proof.
  induction rules as [|r' rules IH]; simpl; [done|]. destruct (FSRule_Matches r' _ _) eqn:E.
  - intros [= <-]. split; [by left|done].
  - intros [? ?]%IH. split; [by right|done].
Qed.

Lemma FSRule_Matches_true r path access :
  FSRule_Matches r path access = true ->
  (fr_Access r = [] \/ access ∈ fr_Access r) /\ matchPath (fr_Path r) path = true.
Proof.
  unfold FSRule_Matches. destruct (fr_Access r) as [|a acc]; [by auto|]. simpl.
  case_bool_decide as Ha; simpl; [intros; split; [right; subst; by left|done]|].
  destruct (existsb _ acc) eqn:E; simpl; [|done]. intros. split; [|done]. right. right.
  apply existsb_exists in E as (x & Hin & Hx). bool_props. subst. by apply list_elem_of_In.
Qed.

(** An allowed access comes from an allowing rule of the mode or the policy, or
    from an allowing default. *)
Lemma EvaluateWithMode_allow p path access mode :
  HasPrefix path "/" = true ->
  (EvaluateWithMode p path access mode).1 = FSAllow ->
  (exists r, (r ∈ fp_Rules p \/ exists rs, ModeFilesystemOverrides !! mode = Some rs /\ r ∈ rs) /\
     fr_Action r = FSAllow /\ FSRule_Matches r (Clean path) access = true) \/
  fp_DefaultAction p = FSAllow.
Proof.
  intros Hp. unfold EvaluateWithMode, FS_Evaluate. rewrite Clean_idempotent by done.
  destruct (ModeFilesystemOverrides !! mode) as [rs|] eqn:Hm; simpl.
  - destruct (firstRule rs _ _) as [r|] eqn:Hr; simpl.
    + intros. apply firstRule_Some in Hr as [? ?]. left. exists r. eauto 10.
    + destruct (firstRule (fp_Rules p) _ _) as [r|] eqn:Hr2; simpl.
      * intros. apply firstRule_Some in Hr2 as [? ?]. left. exists r. eauto.
      * case_bool_decide; [done|auto].
  - destruct (firstRule (fp_Rules p) _ _) as [r|] eqn:Hr2; simpl.
    + intros. apply firstRule_Some in Hr2 as [? ?]. left. exists r. eauto.
    + case_bool_decide; [done|auto].
Qed.

(** The paths of the rules of a list that allow one of some accesses. *)
Definition allow_paths (accs : list FSAccess) (rules : list FSRule) : list string :=
  fr_Path <$> filter (fun r => fr_Action r = FSAllow /\
    (fr_Access r = [] \/ Exists (fun a => a ∈ accs) (fr_Access r))) rules.

Lemma allow_paths_elem accs rules r access :
  r ∈ rules -> fr_Action r = FSAllow -> access ∈ accs ->
  (fr_Access r = [] \/ access ∈ fr_Access r) -> fr_Path r ∈ allow_paths accs rules.
Proof.
  intros Hr Hact Hacc Ha. apply list_elem_of_fmap. exists r. split; [done|].
  apply list_elem_of_filter. split_and!; [done| |done].
  destruct Ha as [?|?]; [by left|right]. apply Exists_exists. eauto.
Qed.

Lemma mode_overrides_cases mode rs :
  ModeFilesystemOverrides !! mode = Some rs ->
  rs ∈ (map_to_list ModeFilesystemOverrides).*2.
Proof.
  intros Hrs. apply list_elem_of_fmap. exists (mode, rs). by rewrite elem_of_map_to_list.
Qed.

(** ** Properties *)

(** C2 The default policy confines writes: in every mode, for every absolute path
    (dot-dot components, doubled slashes and the like included), creating, writing
    or deleting is allowed only where the cleaned path is in [/workspace] or [/tmp]
    or is [/dev/null], and that path has no dot-dot component left. *)
Theorem default_policy_confines_writes path access mode :
  HasPrefix path "/" = true ->
  access ∈ [FSWrite; FSDelete; FSCreate] ->
  (EvaluateWithMode DefaultFilesystemPolicy path access mode).1 = FSAllow ->
  exists comps, Clean path = "/" +:+ Join comps "/" /\ Forall good_comp comps /\
    (under "/workspace" (Clean path) \/ under "/tmp" (Clean path) \/ Clean path = "/dev/null").
Proof.
  intros Hp Hacc Hev. exists (clean_comps true path).
  split_and!; [by apply Clean_rooted|apply clean_comps_good|].
  apply EvaluateWithMode_allow in Hev as [(r & Hr & Hact & Hm)|?]; [|done|done].
  apply FSRule_Matches_true in Hm as [Ha Hm].
  assert (fr_Path r ∈ ["/workspace/**"; "/tmp/**"; "/dev/null"]) as Hpath.
  { destruct Hr as [Hr|(rs & Hrs%mode_overrides_cases & Hr)].
    - by apply (allow_paths_elem _ _ _ access Hr Hact Hacc) in Ha.
    - apply (allow_paths_elem _ _ _ access Hr Hact Hacc) in Ha.
      assert (Forall (fun rs => Forall (fun p => p ∈ ["/workspace/**"; "/tmp/**"; "/dev/null"])
                (allow_paths [FSWrite; FSDelete; FSCreate] rs))
                (map_to_list ModeFilesystemOverrides).*2) as Hall
        by (refine (bool_decide_eq_true_1 _ _); by vm_compute).
      rewrite Forall_forall in Hall. specialize (Hall _ Hrs).
      rewrite Forall_forall in Hall. by apply Hall. }
  rewrite !elem_of_cons, elem_of_nil in Hpath.
  destruct Hpath as [Hx|[Hx|[Hx|[]]]]; rewrite Hx in Hm.
  - left. by apply (matchPath_recursive "/workspace").
  - right; left. by apply (matchPath_recursive "/tmp").
  - right; right. rewrite matchPath_plain in Hm by done. bool_props. done.
Qed.

(** The first rule that matches decides, whatever the ones before it are. *)
Lemma firstRule_split pre r post path access :
  Forall (fun r' => FSRule_Matches r' path access = false) pre ->
  FSRule_Matches r path access = true ->
  firstRule (pre ++ r :: post) path access = Some r.
Proof.
  intros Hpre Hr. induction pre as [|r' pre IH]; simpl; [by rewrite Hr|].
  apply Forall_cons in Hpre as [Hr' ?]. rewrite Hr'. by apply IH.
Qed.

Lemma FSRule_Matches_path r path access :
  matchPath (fr_Path r) path = false -> FSRule_Matches r path access = false.
Proof. intros Hm. unfold FSRule_Matches. by case_match. Qed.

Lemma matchPath_not_under dir path : ~ under dir path -> matchPath (dir +:+ "/**") path = false.
Proof. intros Hu. apply not_true_iff_false. by rewrite matchPath_recursive. Qed.

(** Paths that start with another directory name are not under [dir]. *)
Ltac not_under :=
  let H := fresh in
  intros [H|[? H]]; rewrite ?str_app_cons in H; discriminate H.

Lemma proc_mem_clean pid :
  good_comp pid -> Clean ("/proc/" +:+ pid +:+ "/mem") = "/proc/" +:+ pid +:+ "/mem".
Proof.
  intros (H1 & H2 & H3 & H4).
  set (s := "/proc/" +:+ pid +:+ "/mem").
  assert (Split s slash = [""; "proc"; pid; "mem"]) as Hs.
  { subst s. change ("/proc/" +:+ pid +:+ "/mem") with
      ("" +:+ String slash ("proc" +:+ String slash (pid +:+ String slash "mem"))).
    rewrite !Split_app by done. done. }
  rewrite Clean_rooted by done. unfold clean_comps. rewrite Hs.
  assert (foldl (clean_step true) [] [""; "proc"; pid; "mem"] = ["mem"; pid; "proc"]) as ->.
  { cbn [foldl]. change (clean_step true [] "") with (@nil string).
    change (clean_step true [] "proc") with ["proc"].
    assert (clean_step true ["proc"] pid = [pid; "proc"]) as ->; [|done].
    unfold clean_step. rewrite !bool_decide_eq_false_2 by naive_solver. done. }
  done.
Qed.

Lemma kcore_rule access :
  firstRule (fp_Rules DefaultFilesystemPolicy) "/proc/kcore" access =
  Some (mkFSRule FSDeny "/proc/kcore" [] "block kernel memory").
Proof.
  apply (firstRule_split (take 11 (fp_Rules DefaultFilesystemPolicy))
    _ (drop 12 (fp_Rules DefaultFilesystemPolicy))); [|done].
  repeat constructor; by apply FSRule_Matches_path.
Qed.

(** The rules before the [/proc] ones concern other top directories. *)
Lemma default_rules_before_proc path access :
  ~ under "/workspace" path -> ~ under "/tmp" path -> ~ under "/env" path ->
  ~ under "/usr" path -> ~ under "/lib" path -> ~ under "/etc" path -> ~ under "/dev" path ->
  Forall (fun r => FSRule_Matches r path access = false)
    (take 10 (fp_Rules DefaultFilesystemPolicy)).
Proof.
  intros. assert (forall x, path <> "/dev/" +:+ x) as Hdev.
  { intros x ->. destruct H5. right. by exists x. }
  repeat constructor; apply FSRule_Matches_path; cbn [fr_Path].
  - by apply (matchPath_not_under "/workspace").
  - by apply (matchPath_not_under "/tmp").
  - by apply (matchPath_not_under "/env").
  - by apply (matchPath_not_under "/usr").
  - by apply (matchPath_not_under "/lib").
  - by apply (matchPath_not_under "/etc").
  - rewrite matchPath_plain by done. apply bool_decide_eq_false_2. intros <-. by apply (Hdev "null").
  - rewrite matchPath_plain by done. apply bool_decide_eq_false_2. intros <-. by apply (Hdev "zero").
  - rewrite matchPath_plain by done. apply bool_decide_eq_false_2. intros <-.
    by apply (Hdev "urandom").
  - by apply (matchPath_not_under "/dev").
Qed.

Lemma override_not_workspace mode rs path access :
  ModeFilesystemOverrides !! mode = Some rs -> ~ under "/workspace" path ->
  firstRule rs path access = None.
Proof.
  intros Hrs%mode_overrides_cases Hnu.
  assert (Forall (fun rs => Forall (fun r => fr_Path r = "/workspace/**") rs)
            (map_to_list ModeFilesystemOverrides).*2) as Hall
    by (refine (bool_decide_eq_true_1 _ _); by vm_compute).
  rewrite Forall_forall in Hall. specialize (Hall _ Hrs). clear Hrs.
  induction Hall as [|r rs Hr _ IH]; [done|]. simpl.
  rewrite FSRule_Matches_path; [done|]. rewrite Hr. by apply (matchPath_not_under "/workspace").
Qed.

Lemma proc_mem_rule pid access :
  good_comp pid ->
  firstRule (fp_Rules DefaultFilesystemPolicy) ("/proc/" +:+ pid +:+ "/mem") access =
  Some (mkFSRule FSDeny "/proc/*/mem" [] "block process memory access").
Proof.
  intros (? & ? & ? & ?).
  apply (firstRule_split (take 10 (fp_Rules DefaultFilesystemPolicy))
    _ (drop 11 (fp_Rules DefaultFilesystemPolicy))).
  - apply default_rules_before_proc; not_under.
  - unfold FSRule_Matches. simpl. unfold matchPath.
    pose proof (Match_star_component "/proc/" pid "mem" ltac:(done) ltac:(done) ltac:(done)
      ltac:(done) ltac:(done)) as Hm.
    change ("/proc/" +:+ "*" +:+ "/" +:+ "mem") with "/proc/*/mem" in Hm.
    change ("/" +:+ "mem") with "/mem" in Hm. rewrite Hm.
    change (HasSuffix "/proc/*/mem" "/") with false.
    change (HasSuffix "/proc/*/mem" "/**") with false. by repeat case_match.
Qed.

(** In explore mode the workspace is read-only whatever the session policy says:
    writing, creating or deleting at any absolute path whose cleaned form lies in
    [/workspace] is denied, by the mode's own rule, for every policy. *)
Theorem explore_workspace_readonly p path access :
  HasPrefix path "/" = true -> under "/workspace" (Clean path) ->
  access ∈ [FSWrite; FSDelete; FSCreate] ->
  (EvaluateWithMode p path access ModeExplore).1 = FSDeny /\
  is_ok (FSGate_Check (mkFSGate p ModeExplore) path access) = false.
Proof.
  intros Hp Hu Hacc.
  assert ((EvaluateWithMode p path access ModeExplore).1 = FSDeny) as He.
  { unfold EvaluateWithMode.
    change (ModeFilesystemOverrides !! ModeExplore) with (Some [
       mkFSRule FSAllow "/workspace/**" [FSRead; FSList] "workspace read-only in explore";
       mkFSRule FSDeny "/workspace/**" [FSWrite; FSDelete; FSCreate] "no writes in explore" ]).
    apply (matchPath_recursive "/workspace") in Hu.
    change ("/workspace" +:+ "/**") with "/workspace/**" in Hu.
    rewrite !elem_of_cons, elem_of_nil in Hacc. cbn [mbind option_bind firstRule].
    unfold FSRule_Matches. cbn [fr_Path fr_Access].
    rewrite Hu. by destruct Hacc as [->|[->|[->|[]]]]. }
  split; [done|]. unfold FSGate_Check. simpl. destruct (EvaluateWithMode _ _ _ _); simpl in *.
  by subst.
Qed.

(** The default policy hides the kernel's memory files: in every mode and for
    every kind of access, the memory of any process ([/proc/<pid>/mem]) and
    [/proc/kcore] are denied, although a later rule makes [/proc] readable. *)
Theorem default_policy_blocks_sensitive path access mode :
  (exists pid, good_comp pid /\ path = "/proc/" +:+ pid +:+ "/mem") \/ path = "/proc/kcore" ->
  (EvaluateWithMode DefaultFilesystemPolicy path access mode).1 = FSDeny.
Proof.
  intros Hpath.
  assert (Clean path = path /\ ~ under "/workspace" path /\ exists r, fr_Action r = FSDeny /\
    firstRule (fp_Rules DefaultFilesystemPolicy) path access = Some r) as (Hcc & Hnu & r & Hact & Hf).
  { destruct Hpath as [(pid & Hpid & ->)| ->].
    - split_and!; [by apply proc_mem_clean|not_under|].
      exists (mkFSRule FSDeny "/proc/*/mem" [] "block process memory access"). split; [done|].
      by apply proc_mem_rule.
    - split_and!; [done|not_under|]. eexists. split; [|apply kcore_rule]. done. }
  unfold EvaluateWithMode. rewrite Hcc.
  assert ((ModeFilesystemOverrides !! mode ≫= fun rules => firstRule rules path access) = None) as ->.
  { destruct (ModeFilesystemOverrides !! mode) as [rs|] eqn:Hrs; [|done]. simpl.
    by apply (override_not_workspace mode). }
  unfold FS_Evaluate. by rewrite Hcc, Hf.
Qed.

(** ** Witnesses, and two gaps *)

Lemma default_policy_confines_writes_witness :
  (EvaluateWithMode DefaultFilesystemPolicy "/etc/../workspace//a.txt" FSWrite ModeExecute).1 = FSAllow /\
  exists comps, Clean "/etc/../workspace//a.txt" = "/" +:+ Join comps "/" /\ Forall good_comp comps /\
    (under "/workspace" (Clean "/etc/../workspace//a.txt") \/
     under "/tmp" (Clean "/etc/../workspace//a.txt") \/
     Clean "/etc/../workspace//a.txt" = "/dev/null").
Proof.
  split; [by vm_compute|].
  apply (default_policy_confines_writes "/etc/../workspace//a.txt" FSWrite ModeExecute);
    [done|left|by vm_compute].
Defined.

Lemma explore_workspace_readonly_witness :
  (EvaluateWithMode (mkFSPolicy FSAllow []) "/tmp/../workspace/x" FSDelete ModeExplore).1 = FSDeny.
Proof.
  apply (explore_workspace_readonly (mkFSPolicy FSAllow []) "/tmp/../workspace/x" FSDelete);
    [done|right; by exists "x"|right; left].
Defined.

Lemma default_policy_blocks_sensitive_witness :
  (EvaluateWithMode DefaultFilesystemPolicy "/proc/1/mem" FSRead ModeExecute).1 = FSDeny.
Proof.
  apply (default_policy_blocks_sensitive "/proc/1/mem" FSRead ModeExecute).
  left. exists "1". by split_and!.
Defined.

(** A glob rule is also tried on the base name, with a textual prefix test on the
    directories, so it reaches sibling directories and nested ones. *)
Lemma glob_rule_leaks_to_siblings :
  matchPath "/workspace/*.py" "/workspace-other/secret.py" = true /\
  matchPath "/workspace/*.py" "/workspace/deep/er/x.py" = true.
Proof. by vm_compute. Qed.

(** Explore mode is documented as read-only, but only [/workspace] is overridden:
    the default policy lets it write and delete in [/tmp]. *)
Lemma explore_writes_tmp :
  (EvaluateWithMode DefaultFilesystemPolicy "/tmp/x" FSWrite ModeExplore).1 = FSAllow.
Proof. by vm_compute. Qed.
