(* ===== verification/Network.v ===== *)
(** * Network policy ([src/internal/loka/network.go])

    Ordered connection rules, their evaluation, the per-mode default policies and
    the generated iptables commands. *)

From stdpp Require Import options.
From stdpp Require Import pretty.
From Stdlib Require Import Ascii.
From S2P Require Import Prelude GoStrings GoNet Filesystem.

Abbreviation NetworkAction := string (only parsing).
Definition NetworkAllow : NetworkAction := "allow".
Definition NetworkDeny : NetworkAction := "deny".

Record NetworkRule := mkNetRule {
  nr_Action : NetworkAction;
  nr_Target : string;
  nr_Ports : string;
  nr_Protocol : string;
  nr_Description : string
}.

Record NetworkRuleSet := mkRuleSet {
  rs_DefaultAction : NetworkAction;
  rs_Rules : list NetworkRule
}.

Record NetworkPolicy := mkNetPolicy {
  np_Outbound : NetworkRuleSet;
  np_Inbound : NetworkRuleSet
}.

Definition DefaultNetworkPolicy : NetworkPolicy :=
  mkNetPolicy (mkRuleSet NetworkDeny []) (mkRuleSet NetworkDeny []).
Definition AllowAllNetworkPolicy : NetworkPolicy :=
  mkNetPolicy (mkRuleSet NetworkAllow []) (mkRuleSet NetworkAllow []).

(** The rules of [ModeNetworkPolicies], one list per mode. *)
Definition exploreOutbound : list NetworkRule :=
  [mkNetRule NetworkAllow "any" "53" "udp" "DNS lookups"].
Definition executeOutbound : list NetworkRule :=
  [mkNetRule NetworkDeny "169.254.169.254" "" "" "Block cloud metadata";
   mkNetRule NetworkDeny "10.0.0.0/8" "" "" "Block private networks";
   mkNetRule NetworkDeny "172.16.0.0/12" "" "" "Block private networks";
   mkNetRule NetworkDeny "192.168.0.0/16" "" "" "Block private networks"].
Definition askOutbound : list NetworkRule :=
  [mkNetRule NetworkAllow "any" "53" "udp" "DNS lookups";
   mkNetRule NetworkAllow "any" "443" "tcp" "HTTPS"].

Definition ModeNetworkPolicies : gmap string NetworkPolicy :=
  list_to_map [
    (ModeExplore, mkNetPolicy (mkRuleSet NetworkDeny exploreOutbound) (mkRuleSet NetworkDeny []));
    (ModeExecute, mkNetPolicy (mkRuleSet NetworkAllow executeOutbound) (mkRuleSet NetworkDeny []));
    (ModeAsk, mkNetPolicy (mkRuleSet NetworkDeny askOutbound) (mkRuleSet NetworkDeny []))].

(** ** Matching *)

Definition matchesTarget (r : NetworkRule) (ip : string) : bool :=
  let target := nr_Target r in
  if bool_decide (target = "any" \/ target = "*" \/ target = "0.0.0.0/0" \/ target = "::/0") then true
  else if Contains target "/" then
    match ParseCIDR target, ParseIP ip with
    | Some cidr, Some parsedIP => IPNet_Contains cidr parsedIP
    | _, _ => false
    end
  else if bool_decide (ParseIP target <> None) then bool_decide (target = ip)
  else if HasPrefix target "*." then
    HasSuffix ip (drop_str 1 target) || bool_decide (ip = drop_str 2 target)
  else bool_decide (ip = target).

(** One element of the comma-separated port list. *)
Definition specMatches (port : Z) (spec : string) : bool :=
  let spec := TrimSpace spec in
  if Contains spec "-" then
    let '(a, b) := Cut spec "-"%char in
    match Atoi (TrimSpace a), Atoi (TrimSpace (default "" b)) with
    | Some lo, Some hi => (lo <=? port)%Z && (port <=? hi)%Z
    | _, _ => false
    end
  else match Atoi spec with Some p => (port =? p)%Z | None => false end.

Definition matchesPorts (r : NetworkRule) (port : Z) : bool :=
  if (port =? 0)%Z then true
  else if bool_decide (nr_Ports r = "" \/ nr_Ports r = "*") then true
  else existsb (specMatches port) (Split (nr_Ports r) ","%char).

(** [NetworkRule.Matches] *)
Definition NetRule_Matches (r : NetworkRule) (ip : string) (port : Z) (protocol : string) : bool :=
  if bool_decide (nr_Protocol r <> "" /\ protocol <> "" /\ nr_Protocol r <> protocol) then false
  else if negb (matchesTarget r ip) then false
  else if negb (matchesPorts r port) then false
  else true.

Definition firstNetRule (rules : list NetworkRule) (ip : string) (port : Z) (protocol : string)
    : option NetworkRule :=
  head (filter (fun r => NetRule_Matches r ip port protocol = true) rules).

(** [NetworkRuleSet.Evaluate] *)
Definition Net_Evaluate (rs : NetworkRuleSet) (ip : string) (port : Z) (protocol : string)
    : NetworkAction * option NetworkRule :=
  match firstNetRule (rs_Rules rs) ip port protocol with
  | Some r => (nr_Action r, Some r)
  | None =>
      (if bool_decide (rs_DefaultAction rs = "") then NetworkDeny else rs_DefaultAction rs, None)
  end.

Definition IsOutboundAllowed (np : NetworkPolicy) (ip : string) (port : Z) (protocol : string)
    : bool * string :=
  let '(action, rule) := Net_Evaluate (np_Outbound np) ip port protocol in
  if bool_decide (action = NetworkAllow) then (true, "")
  else (false, match rule with
        | None => "denied by default policy"
        | Some r => if bool_decide (nr_Description r = "")
                    then "denied: target=" +:+ nr_Target r +:+ " ports=" +:+ nr_Ports r
                    else "denied by rule: " +:+ nr_Description r
        end).

Definition IsInboundAllowed (np : NetworkPolicy) (ip : string) (port : Z) (protocol : string)
    : bool * string :=
  let '(action, rule) := Net_Evaluate (np_Inbound np) ip port protocol in
  if bool_decide (action = NetworkAllow) then (true, "")
  else (false, match rule with
        | None => "denied by default policy"
        | Some r => "denied by rule: " +:+ nr_Description r
        end).

(** ** iptables commands *)

Definition multiport (ports : string) : string :=
  if Contains ports "," || Contains ports "-"
  then " -m multiport --dports " +:+ ports
  else " --dport " +:+ ports.

(** [NetworkRule.toIptables]; the [iptChain] argument of the code is unused. *)
Definition toIptables (r : NetworkRule) (chain dirFlag iface : string) : list string :=
  let target := if bool_decide (nr_Action r = NetworkDeny) then "DROP" else "ACCEPT" in
  let base := "iptables -A " +:+ chain +:+ " " +:+ dirFlag +:+ " " +:+ iface in
  let base :=
    if bool_decide (nr_Target r <> "any" /\ nr_Target r <> "*")
       && (Contains (nr_Target r) "/" || bool_decide (ParseIP (nr_Target r) <> None))
    then base +:+ (if bool_decide (dirFlag = "-o") then " -d " else " -s ") +:+ nr_Target r
    else base in
  let base := if bool_decide (nr_Protocol r <> "") then base +:+ " -p " +:+ nr_Protocol r else base in
  if bool_decide (nr_Ports r <> "" /\ nr_Ports r <> "*") then
    if bool_decide (nr_Protocol r = "") then
      (fun proto => base +:+ " -p " +:+ proto +:+ multiport (nr_Ports r) +:+ " -j " +:+ target)
        <$> ["tcp"; "udp"]
    else [base +:+ multiport (nr_Ports r) +:+ " -j " +:+ target]
  else [base +:+ " -j " +:+ target].

Definition defaultDrop (rs : NetworkRuleSet) (chain dirFlag tap : string) : list string :=
  if bool_decide (rs_DefaultAction rs = NetworkDeny)
  then ["iptables -A " +:+ chain +:+ " " +:+ dirFlag +:+ " " +:+ tap +:+ " -j DROP"] else [].

Definition GenerateIptablesRules (np : NetworkPolicy) (tapInterface : string) : list string :=
  let chain := "LOKA_" +:+ ReplaceByte tapInterface "-"%char "_" in
  ["iptables -N " +:+ chain +:+ " 2>/dev/null || iptables -F " +:+ chain]
  ++ concat ((fun r => toIptables r chain "-o" tapInterface) <$> rs_Rules (np_Outbound np))
  ++ defaultDrop (np_Outbound np) chain "-o" tapInterface
  ++ concat ((fun r => toIptables r chain "-i" tapInterface) <$> rs_Rules (np_Inbound np))
  ++ defaultDrop (np_Inbound np) chain "-i" tapInterface
  ++ ["iptables -I FORWARD -o " +:+ tapInterface +:+ " -j " +:+ chain;
      "iptables -I FORWARD -i " +:+ tapInterface +:+ " -j " +:+ chain].

(** ** Lemmas on port lists *)

Lemma byte_of_inj a b : byte_of a = byte_of b -> a = b.
Proof.
  intros Hab. rewrite <-(Ascii.ascii_N_embedding a), <-(Ascii.ascii_N_embedding b).
  unfold byte_of in Hab. f_equal. lia.
Qed.

(** Decimal text of a number, and reading it back. *)
Lemma digits_val_pretty x s :
  digits_val 0 (pretty_N_go x s) = digits_val (Z.of_N x) s.
Proof.
  revert s. induction (N.lt_wf_0 x) as [x _ IH]. intros s.
  destruct (decide (0 < x)%N) as [Hx|Hx].
  - rewrite pretty_N_go_step by done. rewrite IH by (apply N.div_lt; lia). simpl.
    assert (digit_val (pretty_N_char (x `mod` 10)) = Some (Z.of_N (x `mod` 10))) as ->.
    { assert (x `mod` 10 < 10)%N as Hm by (apply N.mod_lt; lia).
      destruct (x `mod` 10)%N as [|p]; [done|]. by repeat (destruct p as [p|p|]; try done; try lia). }
    cbn [mbind option_bind]. f_equal. pose proof (N.div_mod x 10 ltac:(done)). lia.
  - assert (x = 0%N) as -> by lia. by rewrite pretty_N_go_0.
Qed.

(** Port texts consist of digits and dashes; nothing there is trimmed. *)
Definition port_byte (b : Z) : bool := in_range 45 57 b && negb (b =? 46)%Z && negb (b =? 47)%Z.
Definition port_text (s : string) : Prop := Forall (fun b => port_byte b = true) (bytes_of s).

Lemma port_text_app a b : port_text (a +:+ b) <-> port_text a /\ port_text b.
Proof. unfold port_text. rewrite bytes_of_app. apply Forall_app. Qed.

Lemma strip_one_port encs b l :
  Forall (fun e => match e with [] => False | x :: _ => port_byte x = false end) encs ->
  port_byte b = true -> strip_one encs (b :: l) = None.
Proof.
  intros Hencs Hb. unfold strip_one. induction Hencs as [|e encs He _ IH]; [done|]. csimpl.
  destruct e as [|x e]; [done|]. simpl. destruct (Z.eqb_spec x b) as [->|]; [congruence|exact IH].
Qed.

Lemma trim_left_port fuel encs l :
  Forall (fun e => match e with [] => False | x :: _ => port_byte x = false end) encs ->
  Forall (fun b => port_byte b = true) l -> l <> [] -> trim_left fuel encs l = l.
Proof.
  intros He Hl Hne. destruct l as [|b l]; [done|]. apply Forall_cons in Hl as [Hb _].
  destruct fuel; [done|]. cbn [trim_left]. by rewrite strip_one_port.
Qed.

Lemma TrimSpace_port s : port_text s -> s <> "" -> TrimSpace s = s.
Proof.
  intros Hs Hne. unfold TrimSpace.
  assert (bytes_of s <> []) as Hb by (intros E; apply Hne; by apply (inj bytes_of)).
  rewrite (trim_left_port _ space_encodings); [|by repeat constructor|done|done].
  rewrite trim_left_port; [|by repeat constructor|by apply Forall_rev|].
  - by rewrite rev_involutive, string_of_bytes_of.
  - destruct (bytes_of s); simpl; [done|]. by destruct (rev l).
Qed.

Definition digit_text (s : string) : Prop := Forall (fun b => in_range 48 57 b = true) (bytes_of s).

Lemma digit_text_port s : digit_text s -> port_text s.
Proof.
  intros Hs. eapply Forall_impl; [exact Hs|]. unfold port_byte, in_range. intros b Hb.
  cbv beta in Hb. bool_props. rewrite !andb_true_iff, !negb_true_iff, !Z.leb_le, !Z.eqb_neq. lia.
Qed.

Lemma digit_text_no c s : in_range 48 57 (byte_of c) = false -> digit_text s -> str_mem c s = false.
Proof.
  intros Hc. unfold digit_text. induction s as [|d s IH]; [done|]. simpl. intros [Hd Hs]%Forall_cons.
  rewrite IH by done. rewrite bool_decide_eq_false_2; [done|]. intros ->. congruence.
Qed.

Lemma pretty_digit_text (n : N) : digit_text (pretty n) /\ pretty n <> "".
Proof.
  unfold pretty, pretty_N. case_decide as Hn; [by repeat constructor|].
  assert (forall x s, digit_text s -> digit_text (pretty_N_go x s)) as Hgo.
  { intros x. induction (N.lt_wf_0 x) as [x _ IH]. intros s Hs.
    destruct (decide (0 < x)%N); [|assert (x = 0%N) as -> by lia; by rewrite pretty_N_go_0].
    rewrite pretty_N_go_step by done. apply IH; [apply N.div_lt; lia|].
    constructor; [|done]. unfold pretty_N_char. by repeat case_match. }
  split; [by apply Hgo; constructor|]. intros E.
  pose proof (digits_val_pretty n "") as Hv. rewrite E in Hv. simpl in Hv. simplify_eq. lia.
Qed.

Lemma Atoi_pretty (n : N) : (Z.of_N n <= max_int64)%Z -> Atoi (pretty n) = Some (Z.of_N n).
Proof.
  intros Hn. destruct (pretty_digit_text n) as [Hd Hne]. unfold Atoi.
  assert (parse_digits (pretty n) = Some (Z.of_N n)) as Hp.
  { unfold parse_digits. destruct (pretty n) as [|c s] eqn:E; [done|]. rewrite <-E.
    unfold pretty, pretty_N. case_decide; [by subst|]. by rewrite digits_val_pretty. }
  destruct (pretty n) as [|c s] eqn:E; [done|]. apply Forall_cons in Hd as [Hc _].
  rewrite !decide_False by (intros ->; discriminate Hc). rewrite Hp. cbn [mbind option_bind].
  unfold min_int64. rewrite !(proj2 (Z.leb_le _ _)) by lia. done.
Qed.

(** *** Port lists as text *)

Inductive PortSpec :=
  | PSingle (p : N)
  | PRange (lo hi : N).

Definition render_spec (s : PortSpec) : string :=
  match s with
  | PSingle p => pretty p
  | PRange lo hi => pretty lo +:+ "-" +:+ pretty hi
  end.
Definition render_specs (ss : list PortSpec) : string := Join (render_spec <$> ss) ",".

Definition spec_covers (port : Z) (s : PortSpec) : bool :=
  match s with
  | PSingle p => (port =? Z.of_N p)%Z
  | PRange lo hi => (Z.of_N lo <=? port)%Z && (port <=? Z.of_N hi)%Z
  end.
Definition spec_fits (s : PortSpec) : Prop :=
  match s with
  | PSingle p => (Z.of_N p <= max_int64)%Z
  | PRange lo hi => (Z.of_N lo <= max_int64)%Z /\ (Z.of_N hi <= max_int64)%Z
  end.

Lemma Contains_char_false c s : str_mem c s = false -> Contains s (String c "") = false.
Proof.
  induction s as [|d s IH]; [done|]. cbn [str_mem Contains HasPrefix]. intros [Hd Hs]%orb_false_iff.
  rewrite IH by done. bool_props. unfold HasPrefix. simpl. by destruct (ascii_dec c d) as [->|].
Qed.

Lemma Contains_char_app c a b : Contains (a +:+ String c b) (String c "") = true.
Proof.
  induction a as [|d a IH].
  - rewrite str_app_nil_l. cbn [Contains]. unfold HasPrefix. simpl.
    destruct (ascii_dec c c); [|done]. by destruct b.
  - rewrite str_app_cons. cbn [Contains]. by rewrite IH, orb_true_r.
Qed.

Lemma Cut_app a b c : str_mem c a = false -> Cut (a +:+ String c b) c = (a, Some b).
Proof.
  induction a as [|d a IH]; cbn [str_mem].
  - intros _. rewrite str_app_nil_l. cbn [Cut]. by rewrite decide_True.
  - intros [Hd Ha]%orb_false_iff. bool_props. rewrite str_app_cons. cbn [Cut].
    rewrite decide_False by done. by rewrite IH.
Qed.

Lemma specMatches_render port s : spec_fits s -> specMatches port (render_spec s) = spec_covers port s.
Proof.
  destruct s as [p|lo hi]; cbn [render_spec spec_fits spec_covers]; intros Hf; unfold specMatches.
  - destruct (pretty_digit_text p) as [Hd Hne].
    rewrite TrimSpace_port by auto using digit_text_port.
    rewrite Contains_char_false by (by apply digit_text_no). by rewrite Atoi_pretty.
  - destruct Hf as [Hlo Hhi].
    destruct (pretty_digit_text lo) as [Hd1 Hne1]. destruct (pretty_digit_text hi) as [Hd2 Hne2].
    change ("-" +:+ pretty hi) with (String "-" (pretty hi)).
    rewrite TrimSpace_port.
    + rewrite Contains_char_app, Cut_app by (by apply digit_text_no). simpl.
      rewrite !TrimSpace_port by auto using digit_text_port.
      by rewrite !Atoi_pretty by done.
    + apply port_text_app. split; [by apply digit_text_port|].
      constructor; [done|]. by apply digit_text_port.
    + intros E. by destruct (pretty lo).
Qed.

Lemma render_spec_no_comma s : str_mem "," (render_spec s) = false.
Proof.
  assert (forall a b c, str_mem c (a +:+ b) = str_mem c a || str_mem c b) as Happ.
  { intros a b c. induction a as [|d a IH]; [done|]. rewrite str_app_cons. simpl.
    by rewrite IH, orb_assoc. }
  destruct s as [p|lo hi]; cbn [render_spec].
  - apply digit_text_no; [done|apply pretty_digit_text].
  - rewrite !Happ, (digit_text_no "," (pretty lo)), (digit_text_no "," (pretty hi));
      (done || apply pretty_digit_text).
Qed.

(** ** Properties *)

(** Port lists mean what they say: for every list of single ports and ranges,
    written out in decimal with commas and dashes, a rule with that text matches a
    port exactly when one of the entries covers it (port 0, "no port given", always
    matches). *)
Theorem matchesPorts_render ss port r :
  ss <> [] -> Forall spec_fits ss -> nr_Ports r = render_specs ss -> port <> 0%Z ->
  matchesPorts r port = existsb (spec_covers port) ss.
Proof.
  intros Hne Hfit Hr Hport. unfold matchesPorts. rewrite (proj2 (Z.eqb_neq port 0)) by done.
  assert (Split (nr_Ports r) "," = render_spec <$> ss) as Hs.
  { rewrite Hr. apply Split_Join; [by destruct ss|].
    apply Forall_fmap, Forall_true. intros s. apply render_spec_no_comma. }
  rewrite bool_decide_eq_false_2.
  - rewrite Hs. clear Hs Hr Hne. induction Hfit as [|s ss Hf _ IH]; [done|]. csimpl.
    by rewrite specMatches_render, IH.
  - intros [E|E]; rewrite E in Hs; destruct ss as [|s [|??]]; try done; injection Hs as Hs;
      destruct s as [p|lo hi]; cbn [render_spec] in Hs.
    + by destruct (pretty_digit_text p).
    + by destruct (pretty lo).
    + destruct (pretty_digit_text p) as [Hd _]. rewrite <-Hs in Hd. by apply Forall_cons in Hd as [? _].
    + destruct (pretty_digit_text lo) as [Hd Hne2]. destruct (pretty lo) as [|c x]; [done|].
      rewrite str_app_cons in Hs.
      injection Hs as <- Hs. apply Forall_cons in Hd as [Hd _]. discriminate Hd.
Qed.

(** An IPv4 address (plain or mapped into IPv6) in the private ranges of RFC 1918. *)
Definition private_v4 (b : list Z) : Prop :=
  exists a x y z, To4 b = Some [a; x; y; z] /\
    (a = 10 \/ (a = 172 /\ 16 <= x <= 31) \/ (a = 192 /\ x = 168))%Z.

Lemma firstNetRule_deny rules ip port protocol :
  Forall (fun r => nr_Action r = NetworkDeny) rules ->
  (exists r, r ∈ rules /\ NetRule_Matches r ip port protocol = true) ->
  exists r, firstNetRule rules ip port protocol = Some r /\ nr_Action r = NetworkDeny.
Proof.
  unfold firstNetRule. induction 1 as [|r rules Hr _ IH].
  - intros (r & Hin & _). by apply elem_of_nil in Hin.
  - intros (r' & Hin & Hm). rewrite filter_cons. case_decide as Hd; [eauto|]. apply IH.
    apply elem_of_cons in Hin as [->|]; [done|eauto].
Qed.

Lemma cidr_rule_matches c m ip b port protocol d :
  ParseCIDR c = Some m -> Contains c "/" = true ->
  bool_decide (c = "any" \/ c = "*" \/ c = "0.0.0.0/0" \/ c = "::/0") = false ->
  ParseIP ip = Some b -> IPNet_Contains m b = true ->
  NetRule_Matches (mkNetRule NetworkDeny c "" "" d) ip port protocol = true.
Proof.
  intros Hc Hs Hany Hip Hin. unfold NetRule_Matches, matchesTarget, matchesPorts. simpl.
  rewrite Hany, Hs, Hc, Hip, Hin. simpl. by destruct (port =? 0)%Z.
Qed.

Lemma private_rule_matches ip b port protocol :
  ParseIP ip = Some b -> private_v4 b ->
  exists r, r ∈ tail executeOutbound /\ NetRule_Matches r ip port protocol = true.
Proof.
  intros Hip (a & x & y & z & H4 & [->|[[-> Hx]|[-> ->]]]).
  - eexists. split; [by left|].
    eapply cidr_rule_matches; [vm_compute; reflexivity..|exact Hip|].
    unfold IPNet_Contains. rewrite H4. simpl. by rewrite !Z.land_0_r.
  - eexists. split; [right; by left|].
    eapply cidr_rule_matches; [vm_compute; reflexivity..|exact Hip|].
    unfold IPNet_Contains. rewrite H4. simpl. rewrite !Z.land_0_r.
    assert (Z.land x 240 = 16)%Z as ->; [|done].
    assert (x ∈ seqZ 16 16) as Hin by (apply elem_of_seqZ; lia).
    assert (Forall (fun x => Z.land x 240 = 16%Z) (seqZ 16 16)) as Hall
      by (refine (bool_decide_eq_true_1 _ _); by vm_compute).
    rewrite Forall_forall in Hall. by apply Hall.
  - eexists. split; [right; right; by left|].
    eapply cidr_rule_matches; [vm_compute; reflexivity..|exact Hip|].
    unfold IPNet_Contains. rewrite H4. simpl. by rewrite !Z.land_0_r.
Qed.

(** Execute mode keeps the session off the host's private networks: for every
    spelling of an address that Go parses to an IPv4 address in 10/8, 172.16/12 or
    192.168/16 (IPv4-mapped IPv6 spellings included), every port and every protocol,
    the default outbound policy answers deny. *)
Theorem execute_blocks_private_networks ip b port protocol :
  ParseIP ip = Some b -> private_v4 b ->
  exists np, ModeNetworkPolicies !! ModeExecute = Some np /\
    (Net_Evaluate (np_Outbound np) ip port protocol).1 = NetworkDeny /\
    (IsOutboundAllowed np ip port protocol).1 = false.
Proof.
  intros Hip Hpriv.
  exists (mkNetPolicy (mkRuleSet NetworkAllow executeOutbound) (mkRuleSet NetworkDeny [])).
  split; [reflexivity|].
  assert (exists r, firstNetRule executeOutbound ip port protocol = Some r /\
            nr_Action r = NetworkDeny) as (r & Hr & Hact).
  { destruct (private_rule_matches ip b port protocol Hip Hpriv) as (r & Hin & Hm).
    apply firstNetRule_deny; [repeat constructor|]. exists r. split; [by right|done]. }
  unfold IsOutboundAllowed, Net_Evaluate. cbn [np_Outbound rs_Rules]. by rewrite Hr, Hact.
Qed.

(** ** Witnesses and gaps *)

Lemma matchesPorts_render_witness :
  matchesPorts (mkNetRule NetworkAllow "any" "80,8000-9000" "tcp" "") 8443 = true.
Proof.
  apply (matchesPorts_render [PSingle 80; PRange 8000 9000] 8443
    (mkNetRule NetworkAllow "any" "80,8000-9000" "tcp" ""));
    [done|repeat constructor; done|by vm_compute|done].
Defined.

Lemma execute_blocks_private_networks_witness :
  exists np, ModeNetworkPolicies !! ModeExecute = Some np /\
    (Net_Evaluate (np_Outbound np) "::ffff:192.168.7.9" 22 "tcp").1 = NetworkDeny /\
    (IsOutboundAllowed np "::ffff:192.168.7.9" 22 "tcp").1 = false.
Proof.
  apply (execute_blocks_private_networks "::ffff:192.168.7.9"
    (v4InV6Prefix ++ [192; 168; 7; 9])%Z 22 "tcp"); [by vm_compute|].
  exists 192%Z, 168%Z, 7%Z, 9%Z. split; [by vm_compute|]. right; right. done.
Defined.

(** The metadata rule compares address texts, so the IPv4-mapped spelling of
    169.254.169.254 passes execute mode's outbound policy. *)
Lemma metadata_block_bypassed :
  ParseIP "::ffff:169.254.169.254" = ParseIP "169.254.169.254" /\
  ((fun np => ((IsOutboundAllowed np "::ffff:169.254.169.254" 80 "tcp").1,
               (IsOutboundAllowed np "169.254.169.254" 80 "tcp").1))
     <$> ModeNetworkPolicies !! ModeExecute) = Some (true, false).
Proof. by vm_compute. Qed.

(** An empty default action denies in [Evaluate] but emits no DROP command. *)
Lemma empty_default_not_dropped :
  (Net_Evaluate (mkRuleSet "" []) "1.2.3.4" 80 "tcp").1 = NetworkDeny /\
  defaultDrop (mkRuleSet "" []) "LOKA_tap0" "-o" "tap0" = [].
Proof. by vm_compute. Qed.

(** A rule for one domain becomes a command for every destination. *)
Lemma domain_rule_unrestricted :
  toIptables (mkNetRule NetworkAllow "example.com" "" "" "") "LOKA_tap0" "-o" "tap0" =
  toIptables (mkNetRule NetworkAllow "any" "" "" "") "LOKA_tap0" "-o" "tap0".
Proof. by vm_compute. Qed.
