(* ===== verification/Policy.v ===== *)
(** * Execution policy and command proxy

    [ExecPolicy] with its validation ([src/internal/loka/policy.go]), which the
    control plane runs, and the in-VM [CommandProxy]
    ([src/internal/supervisor/proxy.go]) with its one-shot approvals, white list,
    audit log and process environment. *)

From stdpp Require Import options.
From Stdlib Require Import Ascii.
From S2P Require Import Prelude GoStrings GoPath Filesystem Network.

(** ** Data *)

Record Command := mkCommand {
  c_ID : string;
  c_Command : string;
  c_Args : list string;
  c_Workdir : string;
  c_Env : gmap string string;
  c_CPULimit : Z;
  c_MemLimit : Z
}.

Record ModeExecPolicy := mkModePolicy {
  mp_AllowedCommands : list string;
  mp_ReadOnly : bool;
  mp_RequireApproval : bool;
  mp_Blocked : bool
}.

Record ExecPolicy := mkExecPolicy {
  ep_AllowedCommands : list string;
  ep_BlockedCommands : list string;
  ep_ModeRestrictions : gmap string ModeExecPolicy;
  ep_MaxParallel : Z;
  ep_MaxDurationSeconds : Z;
  ep_NetworkPolicy : option NetworkPolicy;
  ep_FilesystemPolicy : option FilesystemPolicy
}.

Definition DefaultExecPolicy : ExecPolicy :=
  mkExecPolicy [] []
    (list_to_map [(ModeExplore, mkModePolicy [] true false false);
                  (ModeExecute, mkModePolicy [] false false false);
                  (ModeAsk, mkModePolicy [] false true false)])
    0 0 None None.

(** ** Control-plane validation *)

Definition extractBinary (command : string) : string := Base command.

Definition matchesAny (binary : string) (patterns : list string) : bool :=
  existsb (fun pattern => bool_decide (pattern = binary) || Match pattern binary) patterns.

Inductive PolicyError :=
  | ErrModeBlocked (mode : string)
  | ErrCommandBlocked (binary : string)
  | ErrNotAllowedInMode (binary mode : string)
  | ErrNotInAllowedList (binary : string).

Definition ValidateCommand (p : ExecPolicy) (cmd : Command) (mode : ExecMode)
    : result PolicyError unit :=
  let binary := extractBinary (c_Command cmd) in
  let mp := ep_ModeRestrictions p !! mode in
  if from_option mp_Blocked false mp then Err (ErrModeBlocked mode)
  else if matchesAny binary (ep_BlockedCommands p) then Err (ErrCommandBlocked binary)
  else if (0 <? length (from_option mp_AllowedCommands [] mp))
          && negb (matchesAny binary (from_option mp_AllowedCommands [] mp))
  then Err (ErrNotAllowedInMode binary mode)
  else if (0 <? length (ep_AllowedCommands p)) && negb (matchesAny binary (ep_AllowedCommands p))
  then Err (ErrNotInAllowedList binary)
  else Ok tt.

Definition EffectiveFilesystemPolicy (p : ExecPolicy) : FilesystemPolicy :=
  default DefaultFilesystemPolicy (ep_FilesystemPolicy p).

Definition EffectiveNetworkPolicy (p : ExecPolicy) (mode : ExecMode) : NetworkPolicy :=
  match ep_NetworkPolicy p with
  | Some np => np
  | None => default DefaultNetworkPolicy (ModeNetworkPolicies !! mode)
  end.

Definition RequiresApproval (p : ExecPolicy) (mode : ExecMode) : bool :=
  from_option mp_RequireApproval false (ep_ModeRestrictions p !! mode).

(** ** The command proxy *)

Inductive Verdict := VerdictAllowed | VerdictBlocked | VerdictNeedsApproval.
#[global] Instance Verdict_eq_dec : EqDecision Verdict.
Proof. solve_decision. Defined.

(** The reason texts of the verdicts, and the one [ExecuteParallel] gives the gate. *)
Inductive Reason :=
  | NoReason
  | Blacklisted (binary : string)
  | OneShotAsk
  | ModeApproval (binary mode : string)
  | BlockedMode (mode : string)
  | OneShot
  | NotWhitelisted (binary : string)
  | BatchApproval (command : string).

Record ValidationResult := mkValidation {
  vr_Verdict : Verdict;
  vr_Reason : Reason;
  vr_Command : Command
}.

Record AuditEntry := mkAudit {
  ae_Timestamp : Z;
  ae_Command : string;
  ae_Args : list string;
  ae_Verdict : Verdict;
  ae_Reason : Reason
}.

Record CommandProxy := mkProxy {
  px_policy : ExecPolicy;
  px_mode : ExecMode;
  px_auditLog : list AuditEntry;
  px_approvedOneShot : gset string
}.

Definition NewCommandProxy (policy : ExecPolicy) (mode : ExecMode) : CommandProxy :=
  mkProxy policy mode [] ∅.

Definition ApproveOnce (execID : string) (p : CommandProxy) : CommandProxy :=
  mkProxy (px_policy p) (px_mode p) (px_auditLog p) ({[execID]} ∪ px_approvedOneShot p).

Definition withAllowed (allowed : list string) (p : ExecPolicy) : ExecPolicy :=
  mkExecPolicy allowed (ep_BlockedCommands p) (ep_ModeRestrictions p) (ep_MaxParallel p)
    (ep_MaxDurationSeconds p) (ep_NetworkPolicy p) (ep_FilesystemPolicy p).

Definition AddToWhitelist (command : string) (p : CommandProxy) : CommandProxy :=
  mkProxy (withAllowed (ep_AllowedCommands (px_policy p) ++ [command]) (px_policy p))
    (px_mode p) (px_auditLog p) (px_approvedOneShot p).

Definition SetMode (mode : ExecMode) (p : CommandProxy) : CommandProxy :=
  mkProxy (px_policy p) mode (px_auditLog p) (px_approvedOneShot p).
Definition SetPolicy (policy : ExecPolicy) (p : CommandProxy) : CommandProxy :=
  mkProxy policy (px_mode p) (px_auditLog p) (px_approvedOneShot p).

Definition matchesBinary := matchesAny.

Definition isWhitelisted (p : CommandProxy) (binary : string) : bool :=
  matchesBinary binary (ep_AllowedCommands (px_policy p))
  || match ep_ModeRestrictions (px_policy p) !! px_mode p with
     | Some mp => matchesBinary binary (mp_AllowedCommands mp)
     | None => false
     end.

(** [verdict]: log the decision and return it. *)
Definition verdict (now : Z) (cmd : Command) (v : Verdict) (reason : Reason) (p : CommandProxy)
    : CommandProxy * ValidationResult :=
  (mkProxy (px_policy p) (px_mode p)
     (px_auditLog p ++ [mkAudit now (c_Command cmd) (c_Args cmd) v reason])
     (px_approvedOneShot p),
   mkValidation v reason cmd).

Definition dropApproval (id : string) (p : CommandProxy) : CommandProxy :=
  mkProxy (px_policy p) (px_mode p) (px_auditLog p) (px_approvedOneShot p ∖ {[id]}).

(** [cmd.ID != "" && p.approvedOneShot[cmd.ID]] *)
Definition oneShotApproved (cmd : Command) (p : CommandProxy) : bool :=
  bool_decide (c_ID cmd <> "" /\ c_ID cmd ∈ px_approvedOneShot p).

Definition Validate (now : Z) (cmd : Command) (p : CommandProxy)
    : CommandProxy * ValidationResult :=
  let binary := Base (c_Command cmd) in
  if matchesBinary binary (ep_BlockedCommands (px_policy p))
  then verdict now cmd VerdictBlocked (Blacklisted binary) p
  else
    let mp := ep_ModeRestrictions (px_policy p) !! px_mode p in
    if from_option mp_RequireApproval false mp then
      if oneShotApproved cmd p
      then verdict now cmd VerdictAllowed OneShotAsk (dropApproval (c_ID cmd) p)
      else verdict now cmd VerdictNeedsApproval (ModeApproval binary (px_mode p)) p
    else if from_option mp_Blocked false mp
    then verdict now cmd VerdictBlocked (BlockedMode (px_mode p)) p
    else if oneShotApproved cmd p
    then verdict now cmd VerdictAllowed OneShot (dropApproval (c_ID cmd) p)
    else if isWhitelisted p binary then verdict now cmd VerdictAllowed NoReason p
    else if 0 <? length (ep_AllowedCommands (px_policy p))
    then verdict now cmd VerdictNeedsApproval (NotWhitelisted binary) p
    else verdict now cmd VerdictAllowed NoReason p.

(** ** Process environment *)

Definition RestrictedPATH (p : CommandProxy) : string :=
  if 0 <? length (ep_AllowedCommands (px_policy p)) then "/env/bin"
  else "/env/bin:/usr/local/bin:/usr/bin:/bin".

Definition blockedEnvVars : gset string :=
  list_to_set ["PATH"; "HOME"; "LD_PRELOAD"; "LD_LIBRARY_PATH"; "PYTHONPATH"; "PYTHONSTARTUP";
    "PYTHONHOME"; "NODE_PATH"; "NODE_OPTIONS"; "RUBYLIB"; "RUBYOPT"; "PERL5LIB"; "PERL5OPT";
    "SHELL"; "BASH_ENV"; "ENV"].

Definition isBlockedEnvVar (key : string) : bool := bool_decide (ToUpper key ∈ blockedEnvVars).

(** [order]: the entries of [cmd.Env] in the order the [range] visits them. *)
Definition ProcessEnv (order : list (string * string)) (p : CommandProxy) : list string :=
  ["PATH=" +:+ RestrictedPATH p; "HOME=/workspace"; "PYTHONDONTWRITEBYTECODE=1";
   "PYTHONNOUSERSITE=1"; "NODE_OPTIONS=--max-old-space-size=512"]
  ++ omap (fun kv => if isBlockedEnvVar kv.1 then None
                     else Some (kv.1 +:+ "=" +:+ kv.2)) order.

(** ** Sequences of proxy operations *)

Inductive ProxyOp :=
  | PApproveOnce (execID : string)
  | PAddToWhitelist (command : string)
  | PSetMode (mode : ExecMode)
  | PSetPolicy (policy : ExecPolicy)
  | PValidate (now : Z) (cmd : Command).

Definition proxy_step (op : ProxyOp) (p : CommandProxy) : CommandProxy * option ValidationResult :=
  match op with
  | PApproveOnce id => (ApproveOnce id p, None)
  | PAddToWhitelist c => (AddToWhitelist c p, None)
  | PSetMode m => (SetMode m p, None)
  | PSetPolicy q => (SetPolicy q p, None)
  | PValidate now cmd => let '(p, r) := Validate now cmd p in (p, Some r)
  end.

Fixpoint proxy_run (ops : list ProxyOp) (p : CommandProxy)
    : CommandProxy * list (CommandProxy * ValidationResult) :=
  match ops with
  | [] => (p, [])
  | op :: ops =>
      let '(p', r) := proxy_step op p in
      let '(p'', rs) := proxy_run ops p' in
      (p'', match r with Some r => (p, r) :: rs | None => rs end)
  end.

(** ** Lemmas *)

Definition is_oneshot (r : Reason) : bool :=
  match r with OneShotAsk | OneShot => true | _ => false end.

(** The one-shot grants for a command ID among the results of a run. *)
Definition oneshot_grants (id : string) (rs : list (CommandProxy * ValidationResult)) : nat :=
  length (filter (fun pr => c_ID (vr_Command pr.2) = id /\ is_oneshot (vr_Reason pr.2) = true) rs).

Definition is_approve (id : string) (op : ProxyOp) : bool :=
  match op with PApproveOnce id' => bool_decide (id' = id) | _ => false end.
Definition approvals (id : string) (ops : list ProxyOp) : nat :=
  length (filter (fun op => is_approve id op = true) ops).

Definition pending (id : string) (p : CommandProxy) : nat :=
  if bool_decide (id ∈ px_approvedOneShot p) then 1 else 0.

Lemma pending_le id p : pending id p <= 1.
Proof. unfold pending. case_match; lia. Qed.

(** One case per branch of [Validate]. *)
Ltac validate_cases :=
  unfold Validate; cbv zeta;
  repeat match goal with |- context [if ?b then _ else _] => destruct b eqn:? end.

(** What a validation does to the approvals: a one-shot verdict uses one up, any
    other verdict leaves them alone. *)
Lemma Validate_approvals now cmd p :
  let '(p', r) := Validate now cmd p in
  vr_Command r = cmd /\
  if is_oneshot (vr_Reason r)
  then vr_Verdict r = VerdictAllowed /\ c_ID cmd ∈ px_approvedOneShot p /\
       px_approvedOneShot p' = px_approvedOneShot p ∖ {[c_ID cmd]}
  else px_approvedOneShot p' = px_approvedOneShot p.
Proof.
  unfold Validate.
  destruct (matchesBinary _ _); [done|]. cbv zeta.
  assert (oneShotApproved cmd p = true -> c_ID cmd ∈ px_approvedOneShot p) as Hone.
  { unfold oneShotApproved. intros [_ ?]%bool_decide_eq_true. done. }
  destruct (from_option mp_RequireApproval _ _); [destruct (oneShotApproved cmd p); simpl; split_and?; auto|].
  destruct (from_option mp_Blocked _ _); [done|].
  destruct (oneShotApproved cmd p); [simpl; split_and?; auto|].
  destruct (isWhitelisted _ _); [done|]. by destruct (0 <? _).
Qed.

Lemma Validate_pending now cmd p id :
  let '(p', r) := Validate now cmd p in
  (if bool_decide (c_ID cmd = id /\ is_oneshot (vr_Reason r) = true) then 1 else 0) + pending id p'
    <= pending id p.
Proof.
  pose proof (Validate_approvals now cmd p) as Ha. destruct (Validate now cmd p) as [p' r].
  destruct Ha as [Hc Ha]. destruct (is_oneshot (vr_Reason r)) eqn:Hr.
  - destruct Ha as (_ & Hin & Heq). unfold pending. rewrite Heq.
    case_bool_decide as H1; destruct (decide (id = c_ID cmd)) as [->|Hne].
    + rewrite (bool_decide_eq_true_2 (c_ID cmd ∈ px_approvedOneShot p)) by done.
      rewrite bool_decide_eq_false_2 by set_solver. lia.
    + naive_solver.
    + naive_solver.
    + rewrite (bool_decide_ext _ (id ∈ px_approvedOneShot p)); [lia|set_solver].
  - rewrite bool_decide_eq_false_2 by naive_solver. unfold pending. rewrite Ha. lia.
Qed.

Lemma proxy_run_oneshot ops p id :
  let '(p', rs) := proxy_run ops p in
  oneshot_grants id rs + pending id p' <= pending id p + approvals id ops.
Proof.
  revert p. induction ops as [|op ops IH]; intros p; [simpl; unfold approvals, oneshot_grants; simpl; lia|].
  cbn [proxy_run]. destruct op as [id'|c|md|q|now cmd]; cbn [proxy_step].
  - specialize (IH (ApproveOnce id' p)). destruct (proxy_run ops _) as [p'' rs].
    unfold approvals in *. rewrite filter_cons. case_decide as Hid; cbn [is_approve] in Hid.
    + apply bool_decide_eq_true in Hid. subst. cbn [length]. pose proof (pending_le id (ApproveOnce id p)). lia.
    + apply not_true_is_false, bool_decide_eq_false in Hid.
      assert (pending id (ApproveOnce id' p) = pending id p) as <-; [|done].
      unfold pending. simpl. by rewrite (bool_decide_ext _ (id ∈ px_approvedOneShot p)) by set_solver.
  - specialize (IH (AddToWhitelist c p)). by destruct (proxy_run ops _) as [p'' rs].
  - specialize (IH (SetMode md p)). by destruct (proxy_run ops _) as [p'' rs].
  - specialize (IH (SetPolicy q p)). by destruct (proxy_run ops _) as [p'' rs].
  - pose proof (Validate_pending now cmd p id) as Hv.
    pose proof (Validate_approvals now cmd p) as Ha.
    destruct (Validate now cmd p) as [p' r]. specialize (IH p').
    destruct (proxy_run ops p') as [p'' rs]. destruct Ha as [Hc _].
    unfold oneshot_grants in *. rewrite filter_cons. cbn [snd].
    unfold approvals in *. rewrite filter_cons_False by done.
    rewrite Hc. case_bool_decide as Hb; case_decide; try tauto; cbn [length]; lia.
Qed.

(** Every result of a run is the validation of a command in the state before it. *)
Lemma proxy_run_results ops p p0 r :
  (p0, r) ∈ (proxy_run ops p).2 -> exists now, (Validate now (vr_Command r) p0).2 = r.
Proof.
  revert p. induction ops as [|op ops IH]; intros p; cbn [proxy_run]; [by intros []%elem_of_nil|].
  destruct (proxy_step op p) as [p' o] eqn:Hs. specialize (IH p').
  destruct (proxy_run ops p') as [p'' rs]. cbn [snd] in *.
  destruct o as [r'|]; [|done]. intros [Heq|?]%elem_of_cons; [|auto]. injection Heq as -> ->.
  destruct op; simplify_eq/=. pose proof (Validate_approvals now cmd p) as Ha.
  destruct (Validate now cmd p) as [q r''] eqn:Hv. simplify_eq. destruct Ha as [-> _].
  exists now. by rewrite Hv.
Qed.

Lemma Validate_audit now cmd p :
  let '(p', r) := Validate now cmd p in
  px_auditLog p' = px_auditLog p ++
    [mkAudit now (c_Command cmd) (c_Args cmd) (vr_Verdict r) (vr_Reason r)].
Proof. by validate_cases. Qed.

Lemma proxy_run_audit ops p :
  let '(p', rs) := proxy_run ops p in
  (fun e => (ae_Command e, ae_Args e, ae_Verdict e, ae_Reason e)) <$> px_auditLog p' =
  ((fun e => (ae_Command e, ae_Args e, ae_Verdict e, ae_Reason e)) <$> px_auditLog p) ++
  ((fun pr : CommandProxy * ValidationResult =>
     (c_Command (vr_Command pr.2), c_Args (vr_Command pr.2), vr_Verdict pr.2, vr_Reason pr.2)) <$> rs).
Proof.
  revert p. induction ops as [|op ops IH]; intros p; cbn [proxy_run]; [by rewrite app_nil_r|].
  destruct op as [id'|c|md|q|now cmd]; cbn [proxy_step].
  1: specialize (IH (ApproveOnce id' p)).
  2: specialize (IH (AddToWhitelist c p)).
  3: specialize (IH (SetMode md p)).
  4: specialize (IH (SetPolicy q p)).
  1-4: by destruct (proxy_run ops _) as [p'' rs].
  pose proof (Validate_audit now cmd p) as Hv. pose proof (Validate_approvals now cmd p) as Ha.
  destruct (Validate now cmd p) as [p' r]. specialize (IH p').
  destruct (proxy_run ops p') as [p'' rs]. destruct Ha as [Hc _].
  rewrite IH, Hv, fmap_app, <-app_assoc. simpl. by rewrite Hc.
Qed.

(** ** Properties *)

(** C3 The proxy's gate over whole executions: from a fresh proxy, through any
    sequence of approvals, white-listings, mode and policy changes and validations,
    - a command whose binary the policy of the moment blacklists is blocked;
    - in a mode that requires approval a command is allowed only by a one-shot
      approval of its ID;
    - for every command ID, the one-shot grants are no more than the one-shot
      approvals given: an approval is spent by the first command it lets through. *)
Theorem proxy_gate ops policy mode :
  let rs := (proxy_run ops (NewCommandProxy policy mode)).2 in
  (forall p r, (p, r) ∈ rs ->
     matchesBinary (Base (c_Command (vr_Command r))) (ep_BlockedCommands (px_policy p)) = true ->
     vr_Verdict r = VerdictBlocked) /\
  (forall p r, (p, r) ∈ rs -> RequiresApproval (px_policy p) (px_mode p) = true ->
     vr_Verdict r = VerdictAllowed ->
     vr_Reason r = OneShotAsk /\ c_ID (vr_Command r) ∈ px_approvedOneShot p) /\
  (forall id, oneshot_grants id rs <= approvals id ops).
Proof.
  intros rs. split_and!.
  - intros p r Hin Hb. apply proxy_run_results in Hin as [now <-].
    unfold Validate. by rewrite Hb.
  - intros p r Hin Hra Hv. pose proof (proxy_run_results _ _ _ _ Hin) as [now Hr].
    unfold Validate in Hr. unfold RequiresApproval in Hra. cbv zeta in Hr. rewrite Hra in Hr.
    pose proof (f_equal vr_Verdict Hr) as Hr1. pose proof (f_equal vr_Reason Hr) as Hr2. clear Hr.
    rewrite Hv in Hr1. destruct (matchesBinary _ _); [done|].
    destruct (oneShotApproved _ _) eqn:Ho; [|done].
    unfold oneShotApproved in Ho. by apply bool_decide_eq_true in Ho as [_ Ho].
  - intros id. pose proof (proxy_run_oneshot ops (NewCommandProxy policy mode) id) as Ho.
    subst rs. destruct (proxy_run ops _) as [p' rs]. simpl in *.
    assert (pending id (NewCommandProxy policy mode) = 0) as Hz by done. lia.
Qed.

(** The audit log is complete and in order: after any sequence of operations it
    holds exactly one entry per validated command, with that command's text,
    arguments, verdict and reason, in the order they were validated. *)
Theorem audit_log_complete ops policy mode :
  let '(p', rs) := proxy_run ops (NewCommandProxy policy mode) in
  (fun e => (ae_Command e, ae_Args e, ae_Verdict e, ae_Reason e)) <$> px_auditLog p' =
  (fun pr : CommandProxy * ValidationResult =>
     (c_Command (vr_Command pr.2), c_Args (vr_Command pr.2), vr_Verdict pr.2, vr_Reason pr.2)) <$> rs.
Proof.
  pose proof (proxy_run_audit ops (NewCommandProxy policy mode)) as Ha.
  destruct (proxy_run ops _) as [p' rs]. rewrite Ha. done.
Qed.

(** The control plane's check and the in-VM gate agree in one direction: a
    command that [ValidateCommand] accepts, in a mode that needs no approval, is
    never refused or held by the proxy running the same policy and mode. And
    [ValidateCommand] accepts exactly the commands that no block list, mode block or
    non-empty allow list excludes. *)
Theorem control_plane_ok_proxy_allows p mode now cmd px :
  px_policy px = p -> px_mode px = mode -> RequiresApproval p mode = false ->
  is_ok (ValidateCommand p cmd mode) = true ->
  vr_Verdict (Validate now cmd px).2 = VerdictAllowed /\
  matchesAny (Base (c_Command cmd)) (ep_BlockedCommands p) = false /\
  (ep_AllowedCommands p <> [] -> matchesAny (Base (c_Command cmd)) (ep_AllowedCommands p) = true).
Proof.
  intros Hp Hm Hra Hok. unfold ValidateCommand, extractBinary in Hok.
  unfold Validate, isWhitelisted, matchesBinary. unfold RequiresApproval in Hra.
  rewrite Hp, Hm, Hra in *.
  destruct (from_option mp_Blocked _ _) eqn:Hb; [done|].
  destruct (matchesAny _ (ep_BlockedCommands p)) eqn:Hbl; [done|].
  destruct (_ && negb _) eqn:Hma; [done|]. clear Hma.
  destruct (ep_AllowedCommands p) as [|a al] eqn:Hal.
  - split_and!; [|done|done]. destruct (oneShotApproved _ _); [done|]. by destruct (_ || _).
  - destruct (matchesAny (Base (c_Command cmd)) (a :: al)) eqn:Hin; [|by vm_compute in Hok].
    split_and!; [|done|done]. by destruct (oneShotApproved _ _).
Qed.

(** ** Witnesses and gaps *)

Definition plainCommand (id bin : string) : Command := mkCommand id bin [] "" ∅ 0 0.

Lemma control_plane_ok_proxy_allows_witness :
  vr_Verdict (Validate 0 (plainCommand "c1" "/usr/bin/python3")
    (NewCommandProxy (withAllowed ["python*"] DefaultExecPolicy) ModeExecute)).2 = VerdictAllowed.
Proof.
  apply (control_plane_ok_proxy_allows (withAllowed ["python*"] DefaultExecPolicy) ModeExecute 0
    (plainCommand "c1" "/usr/bin/python3")
    (NewCommandProxy (withAllowed ["python*"] DefaultExecPolicy) ModeExecute));
    [done|done|by vm_compute|by vm_compute].
Defined.

(** A mode's own allow list restricts [ValidateCommand] but not the proxy. *)
Lemma mode_allow_list_not_enforced :
  let p := mkExecPolicy [] [] {[ModeExecute := mkModePolicy ["git"] false false false]} 0 0 None None in
  is_ok (ValidateCommand p (plainCommand "c" "curl") ModeExecute) = false /\
  vr_Verdict (Validate 0 (plainCommand "c" "curl") (NewCommandProxy p ModeExecute)).2 = VerdictAllowed.
Proof. by vm_compute. Qed.

(** A blocked mode that also asks for approval lets an approved command run. *)
Lemma blocked_mode_overridden :
  let p := mkExecPolicy [] [] {[ModeAsk := mkModePolicy [] false true true]} 0 0 None None in
  is_ok (ValidateCommand p (plainCommand "c" "ls") ModeAsk) = false /\
  vr_Verdict (Validate 0 (plainCommand "c" "ls") (ApproveOnce "c" (NewCommandProxy p ModeAsk))).2
    = VerdictAllowed.
Proof. by vm_compute. Qed.

(** An environment key may contain "=": the check sees an unknown name, the process
    gets a second [PATH] definition. *)
Lemma env_key_with_equals :
  last (ProcessEnv [("PATH=/workspace/evil", "")] (NewCommandProxy DefaultExecPolicy ModeExecute))
    = Some "PATH=/workspace/evil=".
Proof. by vm_compute. Qed.
