(* ===== verification/Float64.v ===== *)
(** * Go's [float64]

    IEEE 754 binary64 through the Standard Library's [SpecFloat] (sign, integer
    mantissa, exponent), with the conversions the program uses: the bit pattern of
    [math.Float64bits], integers, and plain decimal text. There is one NaN; payloads
    are not modelled. *)

From stdpp Require Import options.
From Stdlib Require Import SpecFloat.
From S2P Require Import Prelude.
Open Scope Z_scope.

Abbreviation float64 := spec_float.

Definition prec : Z := 53.
Definition emax : Z := 1024.

Definition fadd : float64 -> float64 -> float64 := SFadd prec emax.
Definition fsub : float64 -> float64 -> float64 := SFsub prec emax.
Definition fmul : float64 -> float64 -> float64 := SFmul prec emax.
Definition fdiv : float64 -> float64 -> float64 := SFdiv prec emax.
Definition fltb : float64 -> float64 -> bool := SFltb.
Definition fleb : float64 -> float64 -> bool := SFleb.
Definition feqb : float64 -> float64 -> bool := SFeqb.
Definition fzero : float64 := S754_zero false.
Definition fnan : float64 := S754_nan.

(** [float64(n)] *)
Definition of_int (n : Z) : float64 := binary_normalize prec emax n 0 false.

(** The integer [int64(f)] truncates to, for a finite [f]. *)
Definition to_int (f : float64) : option Z :=
  match f with
  | S754_zero _ => Some 0
  | S754_finite s m e =>
      let v := if e <? 0 then Z.pos m / 2 ^ (- e) else Z.pos m * 2 ^ e in
      Some (if s then - v else v)
  | _ => None
  end.

(** The decimal [m / 10^k], correctly rounded, as [strconv.ParseFloat] gives it. *)
Definition of_decimal (m : Z) (k : nat) : float64 :=
  match m with
  | Zpos p => fdiv (S754_finite false p 0) (S754_finite false (Z.to_pos (10 ^ Z.of_nat k)) 0)
  | _ => fzero
  end.

Definition is_nan (f : float64) : bool := match f with S754_nan => true | _ => false end.

(** ** Bit patterns *)

Definition sign_bit (s : bool) : Z := if s then 2 ^ 63 else 0.

(** [math.Float64bits] *)
Definition Float64bits (f : float64) : Z :=
  match f with
  | S754_zero s => sign_bit s
  | S754_infinity s => sign_bit s + 2047 * 2 ^ 52
  | S754_nan => 2047 * 2 ^ 52 + 2 ^ 51 + 1
  | S754_finite s m e =>
      sign_bit s + (if Z.pos m <? 2 ^ 52 then Z.pos m else (e + 1075) * 2 ^ 52 + (Z.pos m - 2 ^ 52))
  end.

(** [math.Float64frombits] *)
Definition Float64frombits (b : Z) : float64 :=
  let s := 2 ^ 63 <=? b in
  let b := if s then b - 2 ^ 63 else b in
  let ex := b / 2 ^ 52 in
  let fr := b mod 2 ^ 52 in
  if ex =? 0 then match fr with Zpos p => S754_finite s p (-1074) | _ => S754_zero s end
  else if ex =? 2047 then if fr =? 0 then S754_infinity s else S754_nan
  else match 2 ^ 52 + fr with Zpos p => S754_finite s p (ex - 1075) | _ => S754_nan end.

(** A value of the type: mantissa and exponent in canonical form. *)
Definition is_float (f : float64) : Prop := valid_binary prec emax f = true.

Lemma digits2_pos_spec m : 2 ^ (Z.pos (digits2_pos m) - 1) <= Z.pos m < 2 ^ Z.pos (digits2_pos m).
Proof.
  induction m as [m IH|m IH|]; cbn [digits2_pos]; [| |done].
  all: rewrite Pos2Z.inj_succ; replace (Z.succ (Z.pos (digits2_pos m)) - 1) with (Z.pos (digits2_pos m)) by lia.
  all: rewrite (Z.pow_succ_r 2 (Z.pos _)) by lia.
  all: replace (2 ^ Z.pos (digits2_pos m)) with (2 * 2 ^ (Z.pos (digits2_pos m) - 1)) in *
    by (rewrite <-Z.pow_succ_r by lia; f_equal; lia); lia.
Qed.

(** The canonical finite numbers: subnormal with the least exponent, or 53 bits. *)
Lemma finite_cases s m e :
  is_float (S754_finite s m e) ->
  (Z.pos m < 2 ^ 52 /\ e = -1074) \/ (2 ^ 52 <= Z.pos m < 2 ^ 53 /\ -1074 <= e <= 971).
Proof.
  unfold is_float, valid_binary, bounded, canonical_mantissa, fexp, SpecFloat.emin.
  rewrite andb_true_iff, Z.leb_le. intros [Hc He]. apply Zeq_bool_eq in Hc. unfold prec, emax in *.
  pose proof (digits2_pos_spec m) as [H1 H2]. set (d := Z.pos (digits2_pos m)) in *.
  assert (1 <= d) by (unfold d; lia).
  destruct (Z.le_gt_cases d 52) as [Hd|Hd].
  - left. split; [|lia]. eapply Z.lt_le_trans; [exact H2|]. apply Z.pow_le_mono_r; lia.
  - right. assert (d = 53) as E by lia. rewrite E in *. simpl in H1, H2. lia.
Qed.

Lemma Float64_roundtrip f : is_float f -> Float64frombits (Float64bits f) = f.
Proof.
  intros Hf. destruct f as [s|s| |s m e]; [by destruct s|by destruct s|done|].
  pose proof (finite_cases s m e Hf) as Hc. unfold Float64bits, Float64frombits. cbv zeta.
  set (v := if Z.pos m <? 2 ^ 52 then Z.pos m else (e + 1075) * 2 ^ 52 + (Z.pos m - 2 ^ 52)).
  assert (0 <= v < 2047 * 2 ^ 52) as Hv by (unfold v; destruct (Z.ltb_spec (Z.pos m) (2 ^ 52)); lia).
  assert ((2 ^ 63 <=? sign_bit s + v) = s) as -> by (destruct s; unfold sign_bit; lia).
  assert ((if s then sign_bit s + v - 2 ^ 63 else sign_bit s + v) = v) as -> by (destruct s; unfold sign_bit; lia).
  unfold v. destruct (Z.ltb_spec (Z.pos m) (2 ^ 52)).
  - rewrite Z.div_small, Z.mod_small by lia. simpl. f_equal. lia.
  - replace ((e + 1075) * 2 ^ 52 + (Z.pos m - 2 ^ 52)) with (Z.pos m - 2 ^ 52 + (e + 1075) * 2 ^ 52) by lia.
    rewrite Z.div_add, Z_mod_plus_full, Z.div_small, Z.mod_small by lia.
    rewrite Z.add_0_l. destruct (Z.eqb_spec (e + 1075) 0); [lia|]. destruct (Z.eqb_spec (e + 1075) 2047); [lia|].
    replace (2 ^ 52 + (Z.pos m - 2 ^ 52)) with (Z.pos m) by lia. f_equal. lia.
Qed.

Lemma Float64bits_range f : is_float f -> 0 <= Float64bits f < 2 ^ 64.
Proof.
  intros Hf. destruct f as [s|s| |s m e]; [destruct s; simpl; lia|destruct s; simpl; lia|done|].
  pose proof (finite_cases s m e Hf). unfold Float64bits, sign_bit.
  destruct s, (Z.ltb_spec (Z.pos m) (2 ^ 52)); lia.
Qed.

(** Concrete values against their bit patterns. *)
Example Float64bits_table :
  Float64bits (of_int 1) = 4607182418800017408 /\
  Float64bits (of_decimal 1 1) = 4591870180066957722 /\
  Float64bits (of_decimal 25 1) = 4612811918334230528 /\
  Float64bits (of_decimal 1 2) = 4576918229304087675 /\
  to_int (fmul (of_decimal 15 1) (of_int Minute)) = Some 90000000000.
Proof. by vm_compute. Qed.
