(* ===== verification/Words.v ===== *)
(** * Machine words, byte lists and Go slices

    Words are integers with their wrap-around written out, bytes are integers below
    256, and a slice expression out of range is a run-time panic. Little-endian words
    are those of the virtio rings, big-endian words those of the index keys, whose
    byte order is their numeric order. *)

From stdpp Require Import options.
From S2P Require Import Prelude GoStrings.
Open Scope Z_scope.

(** ** Machine words and little-endian bytes *)

Definition u16 (x : Z) : Z := x mod 2 ^ 16.
Definition u32 (x : Z) : Z := x mod 2 ^ 32.
Definition u64 (x : Z) : Z := x mod 2 ^ 64.
(** [int64(x)] of a 64-bit word. *)
Definition s64 (x : Z) : Z := (x + 2 ^ 63) mod 2 ^ 64 - 2 ^ 63.

Fixpoint le_val (bs : list Z) : Z :=
  match bs with [] => 0 | b :: bs => b + 256 * le_val bs end.
Fixpoint le_bytes (n : nat) (v : Z) : list Z :=
  match n with O => [] | S n => v mod 256 :: le_bytes n (v / 256) end.

(** [len(l)] *)
Abbreviation zlen l := (Z.of_nat (length l)).

Definition is_byte (b : Z) : Prop := 0 <= b < 256.

(** A run-time panic, or the fuel of a loop used up (no run of the model does). *)
Inductive Panic := PanicBounds | PanicDivide | OutOfFuel.
#[global] Instance Panic_eq_dec : EqDecision Panic.
Proof. solve_decision. Defined.
Abbreviation go := (result Panic).

(** [m[lo:hi]] *)
Definition slice (m : list Z) (lo hi : Z) : go (list Z) :=
  if (lo <=? hi) && (hi <=? zlen m) then Ok (take (Z.to_nat (hi - lo)) (drop (Z.to_nat lo) m))
  else Err PanicBounds.

(** Big-endian words, and the lexicographic order of byte strings. *)
Fixpoint be_bytes (n : nat) (v : Z) : list Z :=
  match n with O => [] | S n => v / 256 ^ Z.of_nat n mod 256 :: be_bytes n v end.
Fixpoint be_val (bs : list Z) : Z :=
  match bs with [] => 0 | b :: bs => b * 256 ^ zlen bs + be_val bs end.

Fixpoint lex_lt (a b : list Z) : bool :=
  match a, b with
  | _, [] => false
  | [], _ :: _ => true
  | x :: a, y :: b => (x <? y) || ((x =? y) && lex_lt a b)
  end.

(** ** Lemmas *)

Lemma length_le_bytes n v : length (le_bytes n v) = n.
Proof. revert v. induction n as [|n IH]; intros v; [done|]. cbn [le_bytes length]. by rewrite IH. Qed.

Lemma le_val_bytes n v : le_val (le_bytes n v) = v mod 256 ^ Z.of_nat n.
Proof.
  revert v. induction n as [|n IH]; intros v; [cbn; by rewrite Z.mod_1_r|].
  cbn [le_bytes le_val]. rewrite IH, Nat2Z.inj_succ, Z.pow_succ_r by lia.
  rewrite Z.rem_mul_r by lia. lia.
Qed.

Lemma le_bytes_byte n v : Forall is_byte (le_bytes n v).
Proof.
  revert v. induction n as [|n IH]; intros v; constructor; [|done].
  unfold is_byte. pose proof (Z.mod_pos_bound v 256). lia.
Qed.

(** Deciding the bytes of a concrete memory. *)
Lemma bytes_by_compute bs : forallb (fun b => (0 <=? b) && (b <? 256)) bs = true -> Forall is_byte bs.
Proof.
  rewrite forallb_forall. intros Hb. apply Forall_forall. intros b Hin%list_elem_of_In%Hb.
  bool_props. by unfold is_byte.
Qed.

Lemma le_val_bound bs : Forall is_byte bs -> 0 <= le_val bs < 256 ^ zlen bs.
Proof.
  induction 1 as [|b bs Hb _ IH]; [done|]. cbn [le_val length]. unfold is_byte in Hb.
  rewrite Nat2Z.inj_succ, Z.pow_succ_r by lia. lia.
Qed.

#[global] Arguments le_bytes : simpl never.
#[global] Arguments le_val : simpl never.

Lemma u16_range256 x : 0 <= u16 x < 256 ^ Z.of_nat 2.
Proof. by apply Z.mod_pos_bound. Qed.

Lemma u64_small x : 0 <= x < 2 ^ 64 -> u64 x = x.
Proof. intros. by apply Z.mod_small. Qed.

Lemma slice_ok m lo hi : lo <= hi <= zlen m ->
  slice m lo hi = Ok (take (Z.to_nat (hi - lo)) (drop (Z.to_nat lo) m)).
Proof. intros. unfold slice. by rewrite !(proj2 (Z.leb_le _ _)) by lia. Qed.


Lemma length_be_bytes n v : length (be_bytes n v) = n.
Proof. induction n as [|n IH]; [done|]. cbn [be_bytes length]. by rewrite IH. Qed.

Lemma be_bytes_byte n v : Forall is_byte (be_bytes n v).
Proof.
  induction n as [|n IH]; constructor; [|done]. unfold is_byte.
  pose proof (Z.mod_pos_bound (v / 256 ^ Z.of_nat n) 256). lia.
Qed.

Lemma be_val_bytes n v : be_val (be_bytes n v) = v mod 256 ^ Z.of_nat n.
Proof.
  induction n as [|n IH]; [cbn; by rewrite Z.mod_1_r|]. cbn [be_bytes be_val].
  rewrite length_be_bytes, IH, Nat2Z.inj_succ, Z.pow_succ_r, (Z.mul_comm 256) by lia.
  rewrite (Z.rem_mul_r v) by lia. lia.
Qed.

Lemma be_bytes_inj n a b :
  0 <= a < 256 ^ Z.of_nat n -> 0 <= b < 256 ^ Z.of_nat n -> be_bytes n a = be_bytes n b -> a = b.
Proof.
  intros Ha Hb Heq. apply (f_equal be_val) in Heq. rewrite !be_val_bytes in Heq.
  by rewrite !Z.mod_small in Heq.
Qed.

#[global] Arguments be_bytes : simpl never.
#[global] Arguments be_val : simpl never.

Lemma lex_lt_app p a b : lex_lt (p ++ a) (p ++ b) = lex_lt a b.
Proof. induction p as [|x p IH]; [done|]. cbn. by rewrite Z.ltb_irrefl, Z.eqb_refl. Qed.

Lemma lex_lt_irrefl a : lex_lt a a = false.
Proof. induction a as [|x a IH]; [done|]. cbn. by rewrite Z.ltb_irrefl, Z.eqb_refl. Qed.

Lemma lex_lt_trans a b c : lex_lt a b = true -> lex_lt b c = true -> lex_lt a c = true.
Proof.
  revert b c. induction a as [|x a IH]; intros [|y b] [|z c]; try done. cbn.
  rewrite !orb_true_iff, !andb_true_iff, !Z.ltb_lt, !Z.eqb_eq.
  intros [?|[-> ?]] [?|[-> ?]]; [left; lia..|]. right. split; [done|by eapply IH].
Qed.

Lemma lex_lt_total a b : lex_lt a b = true \/ a = b \/ lex_lt b a = true.
Proof.
  revert b. induction a as [|x a IH]; intros [|y b]; auto. cbn.
  rewrite !orb_true_iff, !andb_true_iff, !Z.ltb_lt, !Z.eqb_eq.
  destruct (Z.lt_trichotomy x y) as [?|[->|?]]; auto. destruct (IH b) as [?|[->|?]]; auto.
Qed.

Lemma be_val_bound bs : Forall is_byte bs -> 0 <= be_val bs < 256 ^ zlen bs.
Proof.
  induction 1 as [|b bs Hb _ IH]; [done|]. unfold be_val; fold be_val. cbn [length]. unfold is_byte in Hb.
  rewrite Nat2Z.inj_succ, Z.pow_succ_r by lia. nia.
Qed.

(** Byte strings of one length are ordered as the big-endian words they are. *)
Lemma lex_lt_val a b s t :
  Forall is_byte a -> Forall is_byte b -> length a = length b ->
  lex_lt (a ++ s) (b ++ t) = (be_val a <? be_val b) || ((be_val a =? be_val b) && lex_lt s t).
Proof.
  intros Ha. revert b. induction Ha as [|x a Hx Ha IH]; intros [|y b] Hb Hl; try done.
  apply Forall_cons in Hb as [Hy Hb]. injection Hl as Hl. cbn [app lex_lt]. rewrite IH by done.
  unfold be_val; fold be_val. rewrite <-Hl.
  pose proof (be_val_bound a Ha). pose proof (be_val_bound b Hb) as Hvb. rewrite <-Hl in Hvb.
  destruct (Z.ltb_spec x y), (Z.eqb_spec x y), (Z.ltb_spec (be_val a) (be_val b)),
    (Z.eqb_spec (be_val a) (be_val b)); cbn [orb andb];
  repeat match goal with |- context [?p <? ?q] => destruct (Z.ltb_spec p q) end;
  repeat match goal with |- context [?p =? ?q] => destruct (Z.eqb_spec p q) end;
  try done; exfalso; nia.
Qed.

Lemma lex_lt_be n a b s t :
  0 <= a < 256 ^ Z.of_nat n -> 0 <= b < 256 ^ Z.of_nat n ->
  lex_lt (be_bytes n a ++ s) (be_bytes n b ++ t) = (a <? b) || ((a =? b) && lex_lt s t).
Proof.
  intros Ha Hb. rewrite lex_lt_val by (rewrite ?length_be_bytes; auto using be_bytes_byte).
  by rewrite !be_val_bytes, !Z.mod_small.
Qed.
