(* ===== verification/IndexKeys.v ===== *)
(** * Keys of the metrics and log indexes

    [src/internal/controlplane/metrics/tsdb/key.go] and
    [src/internal/controlplane/logging/store/key.go] lay the two stores out in one
    ordered key space, with the same codecs under different prefix bytes. The codecs
    are defined once over the prefix byte; [Tsdb] and [Logs] are the two files. *)

From stdpp Require Import options.
From S2P Require Import Prelude GoStrings Words.
Open Scope Z_scope.

(** ** Codecs *)

(** [key[0] == p] *)
Definition first_byte (p : Z) (key : list Z) : bool := bool_decide (head key = Some p).

(** [binary.BigEndian.UintN(key[lo : lo+n/8])] *)
Definition be_at (n : nat) (key : list Z) (lo : Z) : go Z :=
  be_val <$> slice key lo (lo + Z.of_nat n).

(** [p][id:8][timestamp:8] *)
Definition encodeIDTime (p id ts : Z) : list Z := p :: be_bytes 8 id ++ be_bytes 8 (u64 ts).

Definition decodeIDTime (p : Z) (key : list Z) : go (option (Z * Z)) :=
  if negb (zlen key =? 17) || negb (first_byte p key) then Ok None
  else
    id ← be_at 8 key 1;
    ts ← be_at 8 key 9;
    Ok (Some (id, s64 ts)).

(** [p][id:8] *)
Definition encodeID (p id : Z) : list Z := p :: be_bytes 8 id.

Definition decodeID (p : Z) (key : list Z) : go (option Z) :=
  if negb (zlen key =? 9) || negb (first_byte p key) then Ok None
  else id ← be_at 8 key 1; Ok (Some id).

(** [len:2][s] *)
Definition encodeText (s : string) : list Z := be_bytes 2 (u16 (zlen (bytes_of s))) ++ bytes_of s.

(** [p][name_len:2][name][value_len:2][value][id:8] and its prefixes *)
Definition labelPrefix (p : Z) (name : string) : list Z := p :: encodeText name.
Definition labelValuePrefix (p : Z) (name value : string) : list Z :=
  p :: encodeText name ++ encodeText value.
Definition encodeInverted (p : Z) (name value : string) (id : Z) : list Z :=
  p :: encodeText name ++ encodeText value ++ be_bytes 8 id.

Definition decodeInverted (p : Z) (key : list Z) : go (option (string * string * Z)) :=
  if (zlen key <? 1 + 2 + 0 + 2 + 0 + 8) || negb (first_byte p key) then Ok None
  else
    nameLen ← be_at 2 key 1;
    let off := 3 in
    if zlen key <? off + nameLen then Ok None
    else
      name ← slice key off (off + nameLen);
      let off := off + nameLen in
      if zlen key <? off + 2 then Ok None
      else
        valueLen ← be_at 2 key off;
        let off := off + 2 in
        if zlen key <? off + valueLen + 8 then Ok None
        else
          value ← slice key off (off + valueLen);
          let off := off + valueLen in
          id ← be_at 8 key off;
          Ok (Some (string_of name, string_of value, id)).

(** [p][name] *)
Definition encodeName (p : Z) (name : string) : list Z := p :: bytes_of name.

Definition decodeName (p : Z) (key : list Z) : option string :=
  if (zlen key <? 2) || negb (first_byte p key) then None else Some (string_of (tail key)).

(** ** The two key spaces *)

Module Tsdb.
Definition prefixDataPoint : Z := 1.
Definition prefixSeries : Z := 2.
Definition prefixInverted : Z := 3.
Definition prefixMetricName : Z := 4.

Definition EncodeDataPointKey (seriesID timestampMs : Z) : list Z :=
  encodeIDTime prefixDataPoint seriesID timestampMs.
Definition DecodeDataPointKey (key : list Z) : go (option (Z * Z)) := decodeIDTime prefixDataPoint key.
Definition DataPointKeyPrefix (seriesID : Z) : list Z := encodeID prefixDataPoint seriesID.
Definition DataPointKeyRangeStart (seriesID startMs : Z) : list Z := EncodeDataPointKey seriesID startMs.
Definition EncodeSeriesKey (seriesID : Z) : list Z := encodeID prefixSeries seriesID.
Definition DecodeSeriesKey (key : list Z) : go (option Z) := decodeID prefixSeries key.
Definition EncodeInvertedKey (labelName labelValue : string) (seriesID : Z) : list Z :=
  encodeInverted prefixInverted labelName labelValue seriesID.
Definition DecodeInvertedKey (key : list Z) : go (option (string * string * Z)) :=
  decodeInverted prefixInverted key.
Definition InvertedKeyPrefixLabel (labelName : string) : list Z := labelPrefix prefixInverted labelName.
Definition InvertedKeyPrefixLabelValue (labelName labelValue : string) : list Z :=
  labelValuePrefix prefixInverted labelName labelValue.
Definition EncodeMetricNameKey (name : string) : list Z := encodeName prefixMetricName name.
Definition DecodeMetricNameKey (key : list Z) : option string := decodeName prefixMetricName key.
Definition MetricNameKeyPrefix : list Z := [prefixMetricName].
End Tsdb.

Module Logs.
Definition prefixLogEntry : Z := 16.
Definition prefixStream : Z := 17.
Definition prefixInverted : Z := 18.
Definition prefixLabelName : Z := 19.

Definition EncodeLogEntryKey (streamID timestampNs : Z) : list Z :=
  encodeIDTime prefixLogEntry streamID timestampNs.
Definition DecodeLogEntryKey (key : list Z) : go (option (Z * Z)) := decodeIDTime prefixLogEntry key.
Definition LogEntryKeyPrefix (streamID : Z) : list Z := encodeID prefixLogEntry streamID.
Definition LogEntryKeyRangeStart (streamID startNs : Z) : list Z := EncodeLogEntryKey streamID startNs.
Definition EncodeStreamKey (streamID : Z) : list Z := encodeID prefixStream streamID.
Definition DecodeStreamKey (key : list Z) : go (option Z) := decodeID prefixStream key.
Definition EncodeInvertedKey (labelName labelValue : string) (streamID : Z) : list Z :=
  encodeInverted prefixInverted labelName labelValue streamID.
Definition DecodeInvertedKey (key : list Z) : go (option (string * string * Z)) :=
  decodeInverted prefixInverted key.
Definition InvertedKeyPrefixLabel (labelName : string) : list Z := labelPrefix prefixInverted labelName.
Definition InvertedKeyPrefixLabelValue (labelName labelValue : string) : list Z :=
  labelValuePrefix prefixInverted labelName labelValue.
Definition EncodeLabelNameKey (name : string) : list Z := encodeName prefixLabelName name.
Definition DecodeLabelNameKey (key : list Z) : option string := decodeName prefixLabelName key.
Definition LabelNameKeyPrefix : list Z := [prefixLabelName].
Definition InvertedKeyPrefixAll : list Z := [prefixInverted].
End Logs.

(** ** Lemmas *)

Definition is_u64 (x : Z) : Prop := 0 <= x < 2 ^ 64.
Definition is_s64 (x : Z) : Prop := - 2 ^ 63 <= x < 2 ^ 63.
(** Labels short enough for their 16-bit length field. *)
Definition short (s : string) : Prop := zlen (bytes_of s) < 2 ^ 16.

Lemma s64_u64 x : is_s64 x -> s64 (u64 x) = x.
Proof.
  unfold is_s64, s64, u64. intros Hx. rewrite Zplus_mod_idemp_l. rewrite Z.mod_small; lia.
Qed.

Lemma u64_range x : is_u64 (u64 x).
Proof. by apply Z.mod_pos_bound. Qed.

Lemma slice_app (a b c : list Z) :
  slice (a ++ b ++ c) (zlen a) (zlen a + zlen b) = Ok b.
Proof.
  rewrite slice_ok by (rewrite !length_app; lia). f_equal.
  rewrite Nat2Z.id, drop_app_length. replace (Z.to_nat _) with (length b) by lia. by rewrite take_app_length.
Qed.

Lemma be_at_app (a c : list Z) n v :
  be_at n (a ++ be_bytes n v ++ c) (zlen a) = Ok (v mod 256 ^ Z.of_nat n).
Proof.
  unfold be_at. pose proof (slice_app a (be_bytes n v) c) as Hs.
  rewrite length_be_bytes in Hs. rewrite Hs. cbn. by rewrite be_val_bytes.
Qed.

Lemma decode_encodeIDTime p id ts :
  is_u64 id -> is_s64 ts -> decodeIDTime p (encodeIDTime p id ts) = Ok (Some (id, ts)).
Proof.
  intros Hid Hts. unfold decodeIDTime. unfold encodeIDTime at 1 2.
  assert (first_byte p (p :: be_bytes 8 id ++ be_bytes 8 (u64 ts)) = true) as -> by by apply bool_decide_eq_true.
  cbn [length]. rewrite length_app, !length_be_bytes. cbn [negb orb].
  replace (negb (Z.of_nat (S (8 + 8)) =? 17)) with false by done. cbn [orb].
  pose proof (be_at_app [p] (be_bytes 8 (u64 ts)) 8 id) as H1.
  pose proof (be_at_app (p :: be_bytes 8 id) [] 8 (u64 ts)) as H2.
  rewrite app_nil_r in H2. cbn [length] in H2. rewrite length_be_bytes in H2.
  cbn [app length] in H1, H2. unfold encodeIDTime.
  change (Z.of_nat 1) with 1 in H1. change (Z.of_nat 9) with 9 in H2. rewrite H1. cbn [mbind result_bind].
  rewrite H2. cbn [mbind result_bind]. change (256 ^ Z.of_nat 8) with (2 ^ 64).
  rewrite !Z.mod_small by (done || apply u64_range). by rewrite s64_u64.
Qed.

Lemma decode_encodeID p id : is_u64 id -> decodeID p (encodeID p id) = Ok (Some id).
Proof.
  intros Hid. unfold decodeID.
  assert (first_byte p (encodeID p id) = true) as -> by by apply bool_decide_eq_true.
  replace (zlen (encodeID p id)) with 9 by (unfold encodeID; cbn [length]; by rewrite length_be_bytes).
  pose proof (be_at_app [p] [] 8 id) as H1. rewrite app_nil_r in H1. cbn [app length] in H1.
  unfold encodeID. change (Z.of_nat 1) with 1 in H1. cbn [Z.eqb negb orb Pos.eqb]. rewrite H1.
  cbn [mbind result_bind]. by rewrite Z.mod_small.
Qed.

Lemma decode_encodeName p s : s <> "" -> decodeName p (encodeName p s) = Some s.
Proof.
  intros Hs. unfold decodeName, encodeName.
  assert (first_byte p (p :: bytes_of s) = true) as -> by by apply bool_decide_eq_true.
  rewrite (proj2 (Z.ltb_ge _ _)).
  - cbn [orb negb tail]. by rewrite string_of_bytes_of.
  - destruct s; [done|]. cbn. lia.
Qed.

Lemma length_encodeText s : zlen (encodeText s) = 2 + zlen (bytes_of s).
Proof. unfold encodeText. rewrite length_app, length_be_bytes. lia. Qed.

(** Reading a length-prefixed text in the middle of a key. *)
Lemma text_at (a c : list Z) s :
  short s ->
  be_at 2 (a ++ encodeText s ++ c) (zlen a) = Ok (zlen (bytes_of s)) /\
  slice (a ++ encodeText s ++ c) (zlen a + 2) (zlen a + 2 + zlen (bytes_of s)) = Ok (bytes_of s).
Proof.
  unfold short. intros Hs. unfold encodeText. split.
  - rewrite <-app_assoc, be_at_app. f_equal. change (256 ^ Z.of_nat 2) with (2 ^ 16).
    unfold u16. rewrite Z.mod_mod by done. apply Z.mod_small. lia.
  - pose proof (slice_app (a ++ be_bytes 2 (u16 (zlen (bytes_of s)))) (bytes_of s) c) as H1.
    rewrite length_app, length_be_bytes, <-!app_assoc in H1. rewrite <-!app_assoc.
    replace (Z.of_nat (length a + 2)) with (zlen a + 2) in H1 by lia. done.
Qed.

Lemma decode_encodeInverted p name value id :
  short name -> short value -> is_u64 id ->
  decodeInverted p (encodeInverted p name value id) = Ok (Some (name, value, id)).
Proof.
  intros Hn Hv Hid. unfold decodeInverted. set (key := encodeInverted p name value id).
  assert (zlen key = 13 + zlen (bytes_of name) + zlen (bytes_of value)) as Hlen.
  { unfold key, encodeInverted. cbn [length]. rewrite !length_app, length_be_bytes.
    pose proof (length_encodeText name). pose proof (length_encodeText value). lia. }
  assert (first_byte p key = true) as -> by by apply bool_decide_eq_true.
  destruct (text_at [p] (encodeText value ++ be_bytes 8 id) name Hn) as [H1 H2].
  destruct (text_at (p :: encodeText name) (be_bytes 8 id) value Hv) as [H3 H4].
  pose proof (be_at_app (p :: encodeText name ++ encodeText value) [] 8 id) as H5.
  rewrite app_nil_r in H5.
  change ([p] ++ encodeText name ++ encodeText value ++ be_bytes 8 id) with key in H1, H2. cbn [app] in H3, H4, H5.
  change (p :: encodeText name ++ encodeText value ++ be_bytes 8 id) with key in H3, H4.
  rewrite <-app_assoc in H5. change (p :: encodeText name ++ encodeText value ++ be_bytes 8 id) with key in H5.
  replace (zlen (p :: encodeText name)) with (3 + zlen (bytes_of name)) in H3, H4
    by (cbn [length]; pose proof (length_encodeText name); lia).
  replace (zlen (p :: encodeText name ++ encodeText value))
    with (3 + zlen (bytes_of name) + 2 + zlen (bytes_of value)) in H5
    by (cbn [length]; rewrite length_app; pose proof (length_encodeText name);
        pose proof (length_encodeText value); lia).
  change (zlen [p]) with 1 in H1, H2. change (1 + 2) with 3 in H2. rewrite Hlen.
  rewrite (proj2 (Z.ltb_ge _ _)) by lia. cbn [negb orb]. rewrite H1. cbn [mbind result_bind].
  rewrite (proj2 (Z.ltb_ge _ _)) by lia. rewrite H2. cbn [mbind result_bind].
  rewrite (proj2 (Z.ltb_ge _ _)) by lia. rewrite H3. cbn [mbind result_bind].
  rewrite (proj2 (Z.ltb_ge _ _)) by lia. rewrite H4. cbn [mbind result_bind]. rewrite H5.
  cbn [mbind result_bind]. rewrite !string_of_bytes_of, Z.mod_small by done. done.
Qed.

(** No byte string makes a decoder panic. *)
Lemma be_at_ok n key lo : 0 <= lo -> lo + Z.of_nat n <= zlen key -> exists v, be_at n key lo = Ok v.
Proof. intros. unfold be_at. rewrite slice_ok by lia. by eexists. Qed.

Lemma be_at_nonneg n key lo v : Forall is_byte key -> be_at n key lo = Ok v -> 0 <= v.
Proof.
  unfold be_at, slice. intros Hk. destruct (_ && _); [|done]. intros [= <-].
  apply be_val_bound. by apply Forall_take, Forall_drop.
Qed.

Lemma decodeInverted_no_panic p key : Forall is_byte key -> is_ok (decodeInverted p key) = true.
Proof.
  intros Hk. unfold decodeInverted. destruct (Z.ltb_spec (zlen key) (1 + 2 + 0 + 2 + 0 + 8)); [done|].
  destruct (negb _); [done|]. cbn [orb].
  destruct (be_at_ok 2 key 1) as [nl Hnl]; [lia..|]. rewrite Hnl. cbn [mbind result_bind].
  apply be_at_nonneg in Hnl; [|done]. destruct (Z.ltb_spec (zlen key) (3 + nl)); [done|].
  rewrite slice_ok by lia. cbn [mbind result_bind].
  destruct (Z.ltb_spec (zlen key) (3 + nl + 2)); [done|].
  destruct (be_at_ok 2 key (3 + nl)) as [vl Hvl]; [lia..|]. rewrite Hvl. cbn [mbind result_bind].
  apply be_at_nonneg in Hvl; [|done]. destruct (Z.ltb_spec (zlen key) (3 + nl + 2 + vl + 8)); [done|].
  rewrite slice_ok by lia. cbn [mbind result_bind].
  destruct (be_at_ok 8 key (3 + nl + 2 + vl)) as [id Hid]; [lia..|]. by rewrite Hid.
Qed.

(** ** Prefixes and order *)

(** [bytes.HasPrefix(key, prefix)] *)
Definition key_has_prefix (prefix key : list Z) : bool := bool_decide (prefix `prefix_of` key).

Lemma key_has_prefix_app prefix s : key_has_prefix prefix (prefix ++ s) = true.
Proof. apply bool_decide_eq_true. by apply prefix_app_r. Qed.

Lemma prefix_app_same_length (a b s t : list Z) :
  length a = length b -> a ++ s `prefix_of` b ++ t -> a = b /\ s `prefix_of` t.
Proof.
  intros Hl [k Hk]. rewrite <-app_assoc in Hk. apply app_inj_1 in Hk as [-> ->]; [|done].
  split; [done|]. by exists k.
Qed.

(** A length-prefixed text is a prefix of another only if they are the same text. *)
Lemma encodeText_prefix s s' a b :
  short s -> short s' -> encodeText s ++ a `prefix_of` encodeText s' ++ b -> s = s' /\ a `prefix_of` b.
Proof.
  unfold short, encodeText. intros Hs Hs'. rewrite <-!app_assoc.
  intros [Hl Hp]%prefix_app_same_length; [|by rewrite !length_be_bytes].
  apply be_bytes_inj in Hl; [|apply u16_range256..].
  unfold u16 in Hl. rewrite !Z.mod_small in Hl by lia.
  apply prefix_app_same_length in Hp as [Hb Hp]; [|lia]. split; [|done]. by apply (inj bytes_of).
Qed.

Lemma labelPrefix_spec p name name' value id :
  short name -> short name' ->
  key_has_prefix (labelPrefix p name) (encodeInverted p name' value id) = true <-> name = name'.
Proof.
  intros Hn Hn'. unfold key_has_prefix, labelPrefix, encodeInverted. rewrite bool_decide_eq_true. split.
  - intros Hp%prefix_cons_inv_2. rewrite <-(app_nil_r (encodeText name)) in Hp.
    by apply encodeText_prefix in Hp as [? _].
  - intros ->. apply prefix_cons. by apply prefix_app_r.
Qed.

Lemma labelValuePrefix_spec p name name' value value' id :
  short name -> short name' -> short value -> short value' ->
  key_has_prefix (labelValuePrefix p name value) (encodeInverted p name' value' id) = true
  <-> name = name' /\ value = value'.
Proof.
  intros Hn Hn' Hv Hv'. unfold key_has_prefix, labelValuePrefix, encodeInverted.
  rewrite bool_decide_eq_true. split.
  - intros Hp%prefix_cons_inv_2. apply encodeText_prefix in Hp as [-> Hp]; [|done..].
    rewrite <-(app_nil_r (encodeText value)) in Hp. by apply encodeText_prefix in Hp as [-> _].
  - intros [-> ->]. apply prefix_cons, prefix_app. by apply prefix_app_r.
Qed.

Lemma encodeID_prefix_spec p id id' ts :
  is_u64 id -> is_u64 id' -> key_has_prefix (encodeID p id) (encodeIDTime p id' ts) = true <-> id = id'.
Proof.
  intros Hi Hi'. unfold key_has_prefix, encodeID, encodeIDTime. rewrite bool_decide_eq_true. split.
  - intros Hp%prefix_cons_inv_2. rewrite <-(app_nil_r (be_bytes 8 id)) in Hp.
    apply prefix_app_same_length in Hp as [Hp _]; [|by rewrite !length_be_bytes].
    by apply be_bytes_inj in Hp.
  - intros ->. apply prefix_cons. by apply prefix_app_r.
Qed.

(** Keys of one series are ordered by time from the epoch on. *)
Lemma encodeIDTime_lt p id t t' :
  0 <= t < 2 ^ 63 -> 0 <= t' < 2 ^ 63 -> lex_lt (encodeIDTime p id t) (encodeIDTime p id t') = (t <? t').
Proof.
  intros Ht Ht'. unfold encodeIDTime. cbn [lex_lt]. rewrite Z.ltb_irrefl, Z.eqb_refl. cbn [orb andb].
  rewrite lex_lt_app. unfold u64. rewrite !Z.mod_small by lia.
  pose proof (lex_lt_be 8 t t' [] []) as Hl. rewrite !app_nil_r in Hl.
  change (256 ^ Z.of_nat 8) with (2 ^ 64) in Hl. rewrite Hl by lia. cbn [lex_lt]. by rewrite andb_false_r, orb_false_r.
Qed.

(** A text of 65536 bytes wraps its length field to zero: its key is read back with
    the empty name. *)
Lemma long_label_wraps p name value id n v i :
  u16 (zlen (bytes_of name)) = 0 ->
  decodeInverted p (encodeInverted p name value id) = Ok (Some (n, v, i)) -> n = "".
Proof.
  intros Hz Hd. unfold decodeInverted in Hd.
  match type of Hd with (if ?b then _ else _) = _ => destruct b; [done|] end.
  assert (be_at 2 (encodeInverted p name value id) 1 = Ok 0) as E.
  { pose proof (be_at_app [p] (bytes_of name ++ encodeText value ++ be_bytes 8 id) 2 (u16 (zlen (bytes_of name)))) as H1.
    unfold encodeInverted. unfold encodeText at 1. rewrite <-app_assoc. cbn [app length] in H1.
    change (Z.of_nat 1) with 1 in H1. rewrite H1, Hz. done. }
  rewrite E in Hd. cbn [mbind result_bind] in Hd.
  assert (slice (encodeInverted p name value id) 3 (3 + 0) = Ok []) as E2.
  { rewrite slice_ok; [done|]. unfold encodeInverted. cbn [length]. rewrite !length_app. pose proof (length_encodeText name). lia. }
  rewrite E2 in Hd. cbn [mbind result_bind] in Hd.
  repeat match type of Hd with
  | context [@mbind _ _ _ _ _ ?r] => destruct r; [|done]; cbn [mbind result_bind] in Hd
  | (if ?b then _ else _) = _ => destruct b; [done|]
  end.
  by injection Hd as <- _ _.
Qed.

(** ** Properties *)

(** C7 Index keys read back as they were written, in both stores. For 64-bit ids and
    timestamps (negative ones included) and labels below 64 KiB every decoder returns
    what the encoder was given; the scan prefix of a label is a prefix of the key of
    that label only, and no byte string makes the inverted-key decoder panic. *)
Theorem index_keys_roundtrip id ts name name' value s key :
  is_u64 id -> is_s64 ts -> short name -> short name' -> short value -> s <> "" -> Forall is_byte key ->
  Tsdb.DecodeDataPointKey (Tsdb.EncodeDataPointKey id ts) = Ok (Some (id, ts)) /\
  Tsdb.DecodeSeriesKey (Tsdb.EncodeSeriesKey id) = Ok (Some id) /\
  Tsdb.DecodeInvertedKey (Tsdb.EncodeInvertedKey name value id) = Ok (Some (name, value, id)) /\
  Tsdb.DecodeMetricNameKey (Tsdb.EncodeMetricNameKey s) = Some s /\
  Logs.DecodeLogEntryKey (Logs.EncodeLogEntryKey id ts) = Ok (Some (id, ts)) /\
  Logs.DecodeStreamKey (Logs.EncodeStreamKey id) = Ok (Some id) /\
  Logs.DecodeInvertedKey (Logs.EncodeInvertedKey name value id) = Ok (Some (name, value, id)) /\
  Logs.DecodeLabelNameKey (Logs.EncodeLabelNameKey s) = Some s /\
  (key_has_prefix (Tsdb.InvertedKeyPrefixLabel name) (Tsdb.EncodeInvertedKey name' value id) = true <-> name = name') /\
  (key_has_prefix (Logs.InvertedKeyPrefixLabel name) (Logs.EncodeInvertedKey name' value id) = true <-> name = name') /\
  is_ok (Tsdb.DecodeInvertedKey key) = true /\ is_ok (Logs.DecodeInvertedKey key) = true.
Proof.
  intros Hid Hts Hn Hn' Hv Hs Hk.
  split_and!; first [by apply decode_encodeIDTime|by apply decode_encodeID|by apply decode_encodeInverted
    |by apply decode_encodeName|by apply labelPrefix_spec|by apply decodeInverted_no_panic].
Qed.

Lemma index_keys_roundtrip_witness :
  Tsdb.DecodeInvertedKey (Tsdb.EncodeInvertedKey "host" "a" 7) = Ok (Some ("host", "a", 7))%string.
Proof.
  apply (index_keys_roundtrip 7 (-5) "host" "job" "a" "cpu" [1; 2]); try done; by repeat constructor.
Defined.
