(* ===== verification/OrderedKV.v ===== *)
(** * The ordered key-value store under the indexes

    Both stores keep everything in BadgerDB, which is not part of the repository. It
    appears as an interface: a map from byte-string keys to values with a time to
    live, whose iterators visit the live entries in the byte order of their keys.
    The laws are its documented behaviour; a sorted list implements them. *)

From stdpp Require Import options.
From Stdlib Require Import Sorting.Sorted.
From S2P Require Import Prelude Words.
Open Scope Z_scope.

(** [kv_set now key value ttl] is an entry of a write batch; keys longer than 65000
    bytes are refused. *)
Class KV (V D : Type) := {
  kv_empty : D;
  kv_set : Z -> list Z -> V -> Z -> D -> option D;
  kv_get : Z -> list Z -> D -> option V;
  kv_entries : Z -> D -> list (list Z * V)
}.

Definition key_lt (a b : list Z) : Prop := lex_lt a b = true.

Class KVLaws (V D : Type) `{KV V D} := {
  kv_get_empty t k : kv_get t k kv_empty = None;
  kv_set_size now k v ttl d d' : kv_set now k v ttl d = Some d' -> zlen k <= 65000;
  kv_get_same now t k v ttl d d' :
    kv_set now k v ttl d = Some d' -> t + Second <= now + ttl -> kv_get t k d' = Some v;
  kv_get_other now t k k' v ttl d d' :
    kv_set now k v ttl d = Some d' -> k' <> k -> kv_get t k' d' = kv_get t k' d;
  kv_entries_get t d k v : (k, v) ∈ kv_entries t d <-> kv_get t k d = Some v;
  kv_entries_sorted t d : StronglySorted (fun a b => key_lt a.1 b.1) (kv_entries t d)
}.

(** ** Iterators *)

(** An iterator with [opts.Prefix = prefix] after [Seek(seek)]. *)
Definition iter {V} (prefix seek : list Z) (es : list (list Z * V)) : list (list Z * V) :=
  filter (fun e => prefix `prefix_of` e.1 /\ lex_lt e.1 seek = false) es.

(** A reverse iterator: from the largest key not above [seek] downwards. *)
Definition iter_rev {V} (prefix seek : list Z) (es : list (list Z * V)) : list (list Z * V) :=
  filter (fun e => prefix `prefix_of` e.1 /\ lex_lt seek e.1 = false) (reverse es).

(** ** A sorted list of entries implements the interface *)

Section sorted_list.
Context {V : Type}.

(** Key, value and expiry in whole seconds. *)
Definition Entries : Type := list (list Z * (V * Z)).

Fixpoint insert_entry (k : list Z) (x : V * Z) (d : Entries) : Entries :=
  match d with
  | [] => [(k, x)]
  | (k', x') :: d' =>
      if lex_lt k k' then (k, x) :: d
      else if bool_decide (k = k') then (k, x) :: d'
      else (k', x') :: insert_entry k x d'
  end.

Definition live (t : Z) (x : V * Z) : bool := t / Second <? x.2.

(** Whatever is inserted, the invariant is that keys increase strictly; it is part
    of the type so that the laws need no side condition. *)
Definition sortedE (d : Entries) : Prop := StronglySorted (fun a b => key_lt a.1 b.1) d.

Lemma insert_entry_Forall k x d k0 :
  key_lt k0 k -> Forall (fun e => key_lt k0 e.1) d -> Forall (fun e => key_lt k0 e.1) (insert_entry k x d).
Proof.
  intros Hk. induction 1 as [|[k' x'] d Hd Hf IH]; cbn [insert_entry]; [by repeat constructor|].
  destruct (lex_lt k k'); [by repeat constructor|]. case_bool_decide; by constructor.
Qed.

Lemma insert_entry_sorted k x d : sortedE d -> sortedE (insert_entry k x d).
Proof.
  unfold sortedE. induction 1 as [|[k' x'] d Hs IH Hf]; cbn [insert_entry]; [by repeat constructor|].
  destruct (lex_lt k k') eqn:Hlt.
  - constructor; [by constructor|]. constructor; [done|].
    eapply Forall_impl; [exact Hf|]. intros e. simpl. by apply lex_lt_trans.
  - case_bool_decide as Heq; [subst; by constructor|]. constructor; [done|].
    apply insert_entry_Forall; [|done]. destruct (lex_lt_total k k') as [?|[?|?]]; [congruence|done|done].
Qed.

Lemma insert_entry_elem k x d e :
  sortedE d -> e ∈ insert_entry k x d <-> e = (k, x) \/ (e ∈ d /\ e.1 <> k).
Proof.
  unfold sortedE. induction 1 as [|[k' x'] d Hs IH Hf]; cbn [insert_entry].
  - rewrite list_elem_of_singleton. split; [by left|]. by intros [?|[?%elem_of_nil _]].
  - rewrite Forall_forall in Hf.
    assert (forall e, e ∈ d -> e.1 <> k') as Hne.
    { intros e0 He0 E. specialize (Hf e0 He0). simpl in Hf. unfold key_lt in Hf.
      by rewrite E, lex_lt_irrefl in Hf. }
    destruct (lex_lt k k') eqn:Hlt; [|case_bool_decide as Heq].
    + rewrite elem_of_cons. split; [|naive_solver]. intros [->|Hin]; [by left|]. right. split; [done|].
      intros E. apply elem_of_cons in Hin as [->|Hin]; simpl in *.
      * by rewrite E, lex_lt_irrefl in Hlt.
      * specialize (Hf e Hin). simpl in Hf. unfold key_lt in Hf. rewrite E in Hf.
        pose proof (lex_lt_trans _ _ _ Hlt Hf) as Hc. by rewrite lex_lt_irrefl in Hc.
    + subst k'. rewrite !elem_of_cons. split.
      * intros [->|Hin]; [by left|]. right. split; [by right|by apply Hne].
      * intros [->|[[->|Hin] Hk]]; [by left|done|by right].
    + rewrite !elem_of_cons, IH. split; [|naive_solver]. intros [->|[->|[Hin Hk]]]; [|by left|by right; auto].
      right. split; [by left|]. simpl. congruence.
Qed.
End sorted_list.
Arguments Entries : clear implicits.

(** The sorted lists. *)
Record SortedDB (V : Type) := mkDB { db_list : Entries V; db_sorted : sortedE db_list }.
Arguments mkDB {V} _ _.
Arguments db_list {V} _.
Arguments db_sorted {V} _.

Definition db_entries {V} (t : Z) (d : SortedDB V) : list (list Z * V) :=
  (fun e => (e.1, e.2.1)) <$> filter (fun e => live t e.2 = true) (db_list d).

Definition db_get {V} (t : Z) (k : list Z) (d : SortedDB V) : option V :=
  snd <$> head (filter (fun e => e.1 = k) (db_entries t d)).

Definition db_set {V} (now : Z) (k : list Z) (v : V) (ttl : Z) (d : SortedDB V) : option (SortedDB V) :=
  if 65000 <? zlen k then None
  else Some (mkDB (insert_entry k (v, (now + ttl) / Second) (db_list d))
               (insert_entry_sorted _ _ _ (db_sorted d))).

#[global] Instance sorted_kv {V} : KV V (SortedDB V) := {
  kv_empty := mkDB [] (SSorted_nil _);
  kv_set := db_set;
  kv_get := db_get;
  kv_entries := db_entries
}.

Lemma StronglySorted_filter {A} (R : A -> A -> Prop) (P : A -> Prop) `{forall x, Decision (P x)} l :
  StronglySorted R l -> StronglySorted R (filter P l).
Proof.
  induction 1 as [|x l Hs IH Hf]; [constructor|]. rewrite filter_cons. case_decide; [|done].
  constructor; [done|]. by apply Forall_filter_weaken.
Qed.

Lemma StronglySorted_fmap {A B} (R : A -> A -> Prop) (S : B -> B -> Prop) (f : A -> B) l :
  (forall x y, R x y -> S (f x) (f y)) -> StronglySorted R l -> StronglySorted S (f <$> l).
Proof.
  intros HRS. induction 1 as [|x l Hs IH Hf]; [constructor|]. csimpl. constructor; [done|].
  apply Forall_fmap. eapply Forall_impl; [exact Hf|]. intros y. apply HRS.
Qed.

Lemma db_entries_sorted {V} t (d : SortedDB V) :
  StronglySorted (fun a b => key_lt a.1 b.1) (db_entries t d).
Proof.
  eapply StronglySorted_fmap; [|apply StronglySorted_filter, db_sorted]. done.
Qed.

Lemma sorted_unique {V} (l : list (list Z * V)) a b :
  StronglySorted (fun a b => key_lt a.1 b.1) l -> a ∈ l -> b ∈ l -> a.1 = b.1 -> a = b.
Proof.
  induction 1 as [|x l Hs IH Hf]; [by intros ?%elem_of_nil|]. rewrite Forall_forall in Hf.
  assert (forall y, y ∈ l -> y.1 <> x.1) as Hne.
  { intros y Hy E. specialize (Hf y Hy). unfold key_lt in Hf. by rewrite E, lex_lt_irrefl in Hf. }
  rewrite !elem_of_cons. intros [->|Ha] [->|Hb] E; [done| | |auto].
  - by destruct (Hne b Hb).
  - by destruct (Hne a Ha).
Qed.

Lemma db_get_entries {V} t k v (d : SortedDB V) : db_get t k d = Some v <-> (k, v) ∈ db_entries t d.
Proof.
  unfold db_get. split.
  - destruct (filter _ _) as [|[k' v'] l] eqn:Hf; [done|]. simpl. intros [= ->].
    assert ((k', v) ∈ filter (fun e : list Z * V => e.1 = k) (db_entries t d)) as Hin by (rewrite Hf; by left).
    apply list_elem_of_filter in Hin as [Hk Hin]. simpl in Hk. by subst.
  - intros Hin. destruct (filter _ _) as [|[k' v'] l] eqn:Hf.
    + apply filter_nil_Forall in Hf. rewrite Forall_forall in Hf. by specialize (Hf _ Hin).
    + simpl. assert ((k', v') ∈ filter (fun e : list Z * V => e.1 = k) (db_entries t d)) as Hin' by (rewrite Hf; by left).
      apply list_elem_of_filter in Hin' as [Hk Hin']. simpl in Hk. subst.
      pose proof (sorted_unique _ _ _ (db_entries_sorted t d) Hin Hin' eq_refl). congruence.
Qed.

Lemma db_set_entries {V} now t k v ttl (d d' : SortedDB V) k0 v0 :
  db_set now k v ttl d = Some d' ->
  (k0, v0) ∈ db_entries t d' <->
  (k0 = k /\ v0 = v /\ live t (v, (now + ttl) / Second) = true) \/ (k0 <> k /\ (k0, v0) ∈ db_entries t d).
Proof.
  unfold db_set. destruct (65000 <? zlen k); [done|]. intros [= <-]. unfold db_entries. simpl.
  setoid_rewrite list_elem_of_fmap. setoid_rewrite list_elem_of_filter.
  setoid_rewrite (insert_entry_elem k _ _ _ (db_sorted d)). split.
  - intros ([k1 x1] & [= -> ->] & Hl & [[= -> ->]|[Hin Hk]]); [by left|right]. simpl in Hk.
    split; [done|]. by exists (k1, x1).
  - intros [(-> & -> & Hl)|(Hk & ([k1 x1] & [= -> ->] & Hl & Hin))].
    + eexists (k, (v, _)). split_and!; [done|done|by left].
    + exists (k1, x1). split_and!; [done|done|by right].
Qed.

#[global] Instance sorted_kv_laws {V} : KVLaws V (SortedDB V).
Proof.
  split; cbn [kv_empty kv_set kv_get kv_entries sorted_kv].
  - done.
  - intros now k v ttl d d'. unfold db_set. destruct (Z.ltb_spec 65000 (zlen k)); [done|lia].
  - intros now t k v ttl d d' Hs Ht. apply db_get_entries, (db_set_entries _ _ _ _ _ _ _ _ _ Hs).
    left. split_and!; [done..|]. unfold live. simpl. apply Z.ltb_lt.
    assert (t / Second + 1 <= (now + ttl) / Second); [|lia].
    rewrite <-Z.div_add by done. apply Z.div_le_mono; [done|]. lia.
  - intros now t k k' v ttl d d' Hs Hk. apply option_eq. intros v0.
    rewrite !db_get_entries, (db_set_entries _ _ _ _ _ _ _ _ _ Hs). naive_solver.
  - intros t d k v. symmetry. apply db_get_entries.
  - intros t d. apply db_entries_sorted.
Qed.

(** ** Write batches *)

Section batch.
Context {V D : Type} `{KVLaws V D}.
#[local] Set Default Proof Using "Type*".

(** [SetEntry] of each entry (key, value, time to live) in turn, stopping at an
    error. *)
Fixpoint setEntries (now : Z) (es : list (list Z * V * Z)) (d : D) : option D :=
  match es with
  | [] => Some d
  | (k, v, ttl) :: es => d ← kv_set now k v ttl d; setEntries now es d
  end.

(** The value of the last entry of a key. *)
Definition last_entry (k : list Z) (es : list (list Z * V * Z)) : option V :=
  (fun e => e.1.2) <$> last (filter (fun e => e.1.1 = k) es).

Lemma last_entry_app k es es' :
  last_entry k (es ++ es') = match last_entry k es' with Some v => Some v | None => last_entry k es end.
Proof. unfold last_entry. rewrite filter_app, last_app. by destruct (last (filter _ es')). Qed.

Lemma last_entry_elem k es v :
  last_entry k es = Some v -> exists ttl, (k, v, ttl) ∈ es.
Proof.
  unfold last_entry. rewrite fmap_Some. intros ([[k0 v0] ttl] & Hl & ->).
  apply last_Some_elem_of, list_elem_of_filter in Hl as [<- Hin]. by exists ttl.
Qed.

Lemma last_entry_is_Some es e : e ∈ es -> is_Some (last_entry e.1.1 es).
Proof.
  intros Hin. unfold last_entry. apply fmap_is_Some.
  destruct (last (filter _ _)) eqn:Hl; [by eexists|].
  apply last_None, filter_nil_Forall in Hl. rewrite Forall_forall in Hl. by destruct (Hl _ Hin).
Qed.

Lemma setEntries_get now t es d d' k :
  setEntries now es d = Some d' -> Forall (fun e => t + Second <= now + e.2) es ->
  kv_get t k d' = match last_entry k es with Some v => Some v | None => kv_get t k d end.
Proof.
  intros Hs Hl. revert d Hs. induction Hl as [|[[k0 v0] ttl] es He _ IH]; intros d Hs; cbn [setEntries] in Hs.
  - by injection Hs as ->.
  - destruct (kv_set now k0 v0 ttl d) as [d1|] eqn:Hset; [|done]. simpl in Hs.
    rewrite (IH d1 Hs). change ((k0, v0, ttl) :: es) with ([(k0, v0, ttl)] ++ es). rewrite last_entry_app.
    destruct (last_entry k es) as [v|]; [done|]. unfold last_entry. rewrite filter_cons. simpl.
    case_decide as Hk; simpl.
    + subst. by eapply kv_get_same.
    + eapply kv_get_other; [done|congruence].
Qed.

Lemma setEntries_size now es d d' :
  setEntries now es d = Some d' -> Forall (fun e => zlen e.1.1 <= 65000) es.
Proof.
  revert d. induction es as [|[[k v] ttl] es IH]; intros d Hs; [constructor|]. cbn [setEntries] in Hs.
  destruct (kv_set now k v ttl d) as [d1|] eqn:Hset; [|done]. simpl in Hs.
  constructor; [by eapply kv_set_size|by eapply IH].
Qed.

(** A history of batches, each written at its time by a [write] that puts the
    entries of a batch, which live at least [retention]. *)
Context {A : Type} (write : Z -> A -> D -> option D) (retention : Z).
Context (entries : A -> list (list Z * V * Z)).

Fixpoint writeBatches (hist : list (Z * A)) (d : D) : option D :=
  match hist with
  | [] => Some d
  | (now, a) :: hist => d ← write now a d; writeBatches hist d
  end.

(** At time [t] no batch has expired. *)
Definition batches_live (t : Z) (hist : list (Z * A)) : Prop :=
  Forall (fun h => t + Second <= h.1 + retention) hist.

Definition batch_entries (hist : list (Z * A)) : list (list Z * V * Z) := concat (entries <$> hist.*2).

Lemma writeBatches_get t hist d d' k :
  (forall now a d, write now a d = setEntries now (entries a) d) ->
  (forall a, Forall (fun e => retention <= e.2) (entries a)) ->
  writeBatches hist d = Some d' -> batches_live t hist ->
  kv_get t k d' = match last_entry k (batch_entries hist) with Some v => Some v | None => kv_get t k d end.
Proof.
  intros Hwr Httl Hw Hl. revert d Hw. induction Hl as [|[now a] hist Hn _ IH]; intros d Hw; cbn [writeBatches] in Hw.
  - by injection Hw as ->.
  - rewrite Hwr in Hw. destruct (setEntries now (entries a) d) as [d1|] eqn:Hd1; [|done]. simpl in Hw.
    rewrite (IH d1 Hw). unfold batch_entries. csimpl. fold (batch_entries hist).
    rewrite last_entry_app. destruct (last_entry k (batch_entries hist)) as [v|]; [done|].
    eapply setEntries_get; [exact Hd1|]. eapply Forall_impl; [apply Httl|]. simpl in *. lia.
Qed.

Lemma writeBatches_size hist d d' :
  (forall now a d, write now a d = setEntries now (entries a) d) ->
  writeBatches hist d = Some d' -> Forall (fun e => zlen e.1.1 <= 65000) (batch_entries hist).
Proof.
  intros Hwr. revert d. induction hist as [|[now a] hist IH]; intros d Hw; [constructor|]. cbn [writeBatches] in Hw.
  rewrite Hwr in Hw. destruct (setEntries now (entries a) d) as [d1|] eqn:Hd1; [|done]. simpl in Hw.
  unfold batch_entries. csimpl. fold (batch_entries hist). apply Forall_app.
  split; [by eapply setEntries_size|by eapply IH].
Qed.
End batch.
