(* ===== verification/LabelIndex.v ===== *)
(** * The inverted label index of the two stores

    [matchLabel] and the intersection of its results are the same code in
    [tsdb/store.go] ([FindSeries]) and [logging/store/store.go] ([FindStreams]), over
    the prefix byte of the index. The main lemmas say what a scan of the index finds
    in terms of the (name, value, id) triples that were put there. *)

From stdpp Require Import options.
From S2P Require Import Prelude GoStrings Words IndexKeys OrderedKV.
Open Scope Z_scope.

Inductive MatchType := MatchEqual | MatchNotEqual | MatchRegexp | MatchNotRegexp.

Record LabelMatcher := mkMatcher {
  lm_Name : string;
  lm_Value : string;
  lm_Type : MatchType
}.

Inductive RegexpError := ErrRegexp (pattern : string).

Section index.
Context {V D : Type} `{KV V D}.
(** The prefix byte of the index, and [regexp.Compile] with [MatchString] of the
    standard library, anchored by [compileRegexp]. *)
Context (p : Z) (regexpCompile : string -> option (string -> bool)).

Definition compileRegexp (pattern : string) : option (string -> bool) :=
  regexpCompile ("^(?:" +:+ pattern +:+ ")$").

(** [DecodeInvertedKey] of an iterator's key; it panics on no key, see
    [decodeInverted_no_panic]. *)
Definition decoded (key : list Z) : option (string * string * Z) :=
  match decodeInverted p key with Ok o => o | Err _ => None end.

(** The loop of [matchLabel]: the ids of the scanned entries that pass. *)
Definition collectIDs (prefix : list Z) (keep : string -> string -> bool) (es : list (list Z * V))
    : gset Z :=
  foldl (fun matched e =>
    match decoded e.1 with
    | Some (name, value, id) => if keep name value then {[id]} ∪ matched else matched
    | None => matched
    end) ∅ (iter prefix prefix es).

Definition matchLabel (now : Z) (d : D) (m : LabelMatcher) : result RegexpError (gset Z) :=
  let es := kv_entries now d in
  let named (test : string -> bool) (name value : string) :=
    bool_decide (name = lm_Name m) && test value in
  match lm_Type m with
  | MatchEqual =>
      Ok (collectIDs (labelValuePrefix p (lm_Name m) (lm_Value m)) (fun _ _ => true) es)
  | MatchNotEqual =>
      Ok (collectIDs (labelPrefix p (lm_Name m))
            (named (fun value => negb (bool_decide (value = lm_Value m)))) es)
  | MatchRegexp =>
      match compileRegexp (lm_Value m) with
      | None => Err (ErrRegexp (lm_Value m))
      | Some re => Ok (collectIDs (labelPrefix p (lm_Name m)) (named re) es)
      end
  | MatchNotRegexp =>
      match compileRegexp (lm_Value m) with
      | None => Err (ErrRegexp (lm_Value m))
      | Some re => Ok (collectIDs (labelPrefix p (lm_Name m)) (named (fun value => negb (re value))) es)
      end
  end.

Fixpoint matchLabels (now : Z) (d : D) (ms : list LabelMatcher) : result RegexpError (list (gset Z)) :=
  match ms with
  | [] => Ok []
  | m :: ms => matched ← matchLabel now d m; sets ← matchLabels now d ms; Ok (matched :: sets)
  end.

(** [FindSeries] and [FindStreams]: the intersection; the order of the returned ids
    is that of a map iteration. *)
Definition findIDs (now : Z) (d : D) (ms : list LabelMatcher) : result RegexpError (gset Z) :=
  sets ← matchLabels now d ms;
  match sets with
  | [] => Ok ∅
  | result :: rest => Ok (foldl (fun result set => result ∩ set) result rest)
  end.

Definition collectValues (name : string) (es : list (list Z * V)) : gset string :=
  foldl (fun seen e =>
    match decoded e.1 with
    | Some (n, value, _) => if bool_decide (n = name) then {[value]} ∪ seen else seen
    | None => seen
    end) ∅ (iter (labelPrefix p name) (labelPrefix p name) es).

Definition ListLabelValues (now : Z) (d : D) (labelName : string) : gset string :=
  collectValues labelName (kv_entries now d).

Definition ListLabelNames (now : Z) (d : D) : gset string :=
  foldl (fun seen e => match decoded e.1 with Some (n, _, _) => {[n]} ∪ seen | None => seen end) ∅
    (iter [p] [p] (kv_entries now d)).

(** ** What the index holds *)

(** The test a matcher makes of a label. *)
Definition label_test (m : LabelMatcher) (value : string) : bool :=
  match lm_Type m with
  | MatchEqual => bool_decide (value = lm_Value m)
  | MatchNotEqual => negb (bool_decide (value = lm_Value m))
  | MatchRegexp => match compileRegexp (lm_Value m) with Some re => re value | None => false end
  | MatchNotRegexp => match compileRegexp (lm_Value m) with Some re => negb (re value) | None => false end
  end.

(** The database's inverted entries are the keys of a set of triples. *)
Definition index_is (now : Z) (d : D) (triples : string -> string -> Z -> Prop) : Prop :=
  (forall k v, (k, v) ∈ kv_entries now d -> [p] `prefix_of` k ->
     exists n w id, triples n w id /\ k = encodeInverted p n w id) /\
  (forall n w id, triples n w id ->
     short n /\ short w /\ is_u64 id /\ exists v, (encodeInverted p n w id, v) ∈ kv_entries now d).

Lemma lex_lt_prefix a k : a `prefix_of` k -> lex_lt k a = false.
Proof using Type.
  intros [t ->]. rewrite <-(app_nil_r a) at 2. rewrite lex_lt_app. by destruct t.
Qed.

Lemma elem_of_iter_prefix (prefix : list Z) (es : list (list Z * V)) e :
  e ∈ iter prefix prefix es <-> e ∈ es /\ prefix `prefix_of` e.1.
Proof using Type.
  unfold iter. rewrite list_elem_of_filter. split; [naive_solver|].
  intros [He Hp]. split; [|done]. split; [done|]. by apply lex_lt_prefix.
Qed.

(** Folds that collect into a set. *)
Lemma elem_of_foldl_set {A} (f : A -> option Z) (l : list A) (x : Z) (X : gset Z) :
  x ∈ foldl (fun matched e => match f e with Some id => {[id]} ∪ matched | None => matched end) X l
  <-> x ∈ X \/ exists e, e ∈ l /\ f e = Some x.
Proof using Type.
  revert X. induction l as [|e l IH]; intros X; cbn [foldl].
  - split; [by left|]. intros [?|(e & ?%elem_of_nil & _)]; done.
  - rewrite IH. setoid_rewrite elem_of_cons. destruct (f e) as [id|] eqn:Hf; set_solver.
Qed.

Lemma collectIDs_spec prefix keep es x :
  x ∈ collectIDs prefix keep es <->
  exists e n w, e ∈ es /\ prefix `prefix_of` e.1 /\ decoded e.1 = Some (n, w, x) /\ keep n w = true.
Proof using Type.
  unfold collectIDs.
  assert (forall l (X : gset Z), foldl (fun (matched : gset Z) (e : list Z * V) =>
      match decoded e.1 with
      | Some (name, value, id) => if keep name value then {[id]} ∪ matched else matched
      | None => matched
      end) X l =
    foldl (fun (matched : gset Z) e => match (match decoded (e : list Z * V).1 with
      | Some (n, w, id) => if keep n w then Some id else None | None => None end)
      with Some id => {[id]} ∪ matched | None => matched end) X l) as E.
  { intros l. induction l as [|e l IH]; intros X; [done|]. cbn [foldl]. rewrite IH. f_equal.
    destruct (decoded e.1) as [[[n w] id]|]; [|done]. by destruct (keep n w). }
  rewrite E, elem_of_foldl_set. split.
  - intros [?%elem_of_empty|(e & [He Hp]%elem_of_iter_prefix & Hd)]; [done|].
    destruct (decoded e.1) as [[[n w] id]|] eqn:Hdec; [|done]. destruct (keep n w) eqn:Hk; [|done].
    simplify_eq. by exists e, n, w.
  - intros (e & n & w & He & Hp & Hd & Hk). right. exists e. rewrite elem_of_iter_prefix, Hd, Hk. done.
Qed.

Lemma decoded_encode n w id :
  short n -> short w -> is_u64 id -> decoded (encodeInverted p n w id) = Some (n, w, id).
Proof using Type. intros. unfold decoded. by rewrite decode_encodeInverted. Qed.

(** What a scan for a label or for a label and a value collects. *)
Lemma collect_label now d triples name keep x :
  index_is now d triples -> short name ->
  x ∈ collectIDs (labelPrefix p name) (fun n w => bool_decide (n = name) && keep w) (kv_entries now d)
  <-> exists w, triples name w x /\ keep w = true.
Proof using Type.
  intros [Hi1 Hi2] Hname. rewrite collectIDs_spec. split.
  - intros ([k v] & n & w & He & Hp & Hd & Hk). bool_props. subst n. simpl in Hp, Hd.
    assert ([p] `prefix_of` k) as Hpk by (etrans; [|exact Hp]; by exists (encodeText name)).
    destruct (Hi1 k v He Hpk) as (n & w' & id & Ht & ->).
    destruct (Hi2 _ _ _ Ht) as (? & ? & ? & _). rewrite decoded_encode in Hd by done. simplify_eq. eauto.
  - intros (w & Ht & Hk). destruct (Hi2 _ _ _ Ht) as (? & ? & ? & v & He).
    exists (encodeInverted p name w x, v), name, w. split_and!; [done| |by apply decoded_encode|].
    + apply (bool_decide_eq_true (labelPrefix p name `prefix_of` _)). by apply labelPrefix_spec.
    + by rewrite bool_decide_eq_true_2, Hk.
Qed.

Lemma collect_label_value now d triples name value x :
  index_is now d triples -> short name -> short value ->
  x ∈ collectIDs (labelValuePrefix p name value) (fun _ _ => true) (kv_entries now d)
  <-> triples name value x.
Proof using Type.
  intros [Hi1 Hi2] Hname Hvalue. rewrite collectIDs_spec. split.
  - intros ([k v] & n & w & He & Hp & Hd & _). simpl in Hp, Hd.
    assert ([p] `prefix_of` k) as Hpk by (etrans; [|exact Hp]; by exists (encodeText name ++ encodeText value)).
    destruct (Hi1 k v He Hpk) as (n' & w' & id & Ht & ->).
    destruct (Hi2 _ _ _ Ht) as (? & ? & ? & _). rewrite decoded_encode in Hd by done. simplify_eq.
    apply (bool_decide_eq_true (_ `prefix_of` _)) in Hp. apply labelValuePrefix_spec in Hp as [-> ->]; done.
  - intros Ht. destruct (Hi2 _ _ _ Ht) as (? & ? & ? & v & He).
    exists (encodeInverted p name value x, v), name, value. split_and!; [done| |by apply decoded_encode|done].
    apply (bool_decide_eq_true (_ `prefix_of` _)). by apply labelValuePrefix_spec.
Qed.

(** A matcher whose pattern compiles. *)
Definition matcher_ok (m : LabelMatcher) : Prop :=
  short (lm_Name m) /\ short (lm_Value m) /\
  match lm_Type m with
  | MatchRegexp | MatchNotRegexp => compileRegexp (lm_Value m) <> None
  | _ => True
  end.

Lemma matchLabel_spec now d triples m :
  index_is now d triples -> matcher_ok m ->
  exists ids, matchLabel now d m = Ok ids /\
    forall x, x ∈ ids <-> exists w, triples (lm_Name m) w x /\ label_test m w = true.
Proof using Type.
  intros Hi (Hn & Hv & Hre). unfold matchLabel, label_test.
  destruct (lm_Type m); cbv zeta.
  - eexists. split; [done|]. intros x. rewrite (collect_label_value _ _ triples) by done. split.
    + intros Ht. exists (lm_Value m). by rewrite bool_decide_eq_true_2.
    + intros (w & Ht & Hw). bool_props. by subst.
  - eexists. split; [done|]. intros x. by rewrite (collect_label _ _ triples) by done.
  - destruct (compileRegexp _) as [re|]; [|done]. eexists. split; [done|]. intros x.
    by rewrite (collect_label _ _ triples) by done.
  - destruct (compileRegexp _) as [re|]; [|done]. eexists. split; [done|]. intros x.
    by rewrite (collect_label _ _ triples (lm_Name m) (fun w => negb (re w))) by done.
Qed.

Lemma elem_of_foldl_inter (sets : list (gset Z)) X x :
  x ∈ foldl (fun result set => result ∩ set) X sets <-> x ∈ X /\ Forall (fun s => x ∈ s) sets.
Proof using Type.
  revert X. induction sets as [|s sets IH]; intros X; cbn [foldl]; [rewrite Forall_nil; tauto|].
  rewrite IH, elem_of_intersection, Forall_cons. tauto.
Qed.

Lemma matchLabels_spec now d triples ms :
  index_is now d triples -> Forall matcher_ok ms ->
  exists sets, matchLabels now d ms = Ok sets /\ length sets = length ms /\
    forall x, Forall (fun s => x ∈ s) sets <->
      Forall (fun m => exists w, triples (lm_Name m) w x /\ label_test m w = true) ms.
Proof using Type.
  intros Hi. induction 1 as [|m ms Hm _ IH]; cbn [matchLabels].
  - exists []. split_and!; [done|done|]. intros x. by rewrite !Forall_nil.
  - destruct (matchLabel_spec now d triples m Hi Hm) as (ids & -> & Hids).
    destruct IH as (sets & -> & Hl & Hsets). exists (ids :: sets). split_and!; [done|simpl; by rewrite Hl|].
    intros x. by rewrite !Forall_cons, Hids, Hsets.
Qed.

(** The ids found for a list of matchers are those that carry, for every matcher, a
    label of its name that passes its test. *)
Lemma findIDs_spec now d triples ms :
  index_is now d triples -> Forall matcher_ok ms -> ms <> [] ->
  exists ids, findIDs now d ms = Ok ids /\
    forall x, x ∈ ids <-> Forall (fun m => exists w, triples (lm_Name m) w x /\ label_test m w = true) ms.
Proof using Type.
  intros Hi Hms Hne. destruct (matchLabels_spec now d triples ms Hi Hms) as (sets & Hs & Hl & Hsets).
  unfold findIDs. rewrite Hs. cbn [mbind result_bind].
  destruct sets as [|s sets]; [by destruct ms|]. eexists. split; [done|].
  intros x. rewrite elem_of_foldl_inter, <-Hsets. by rewrite Forall_cons.
Qed.
End index.
