(* ===== verification/QueryLexer.v ===== *)
(** * The common part of the two query parsers

    [tsdb/parser.go] (metrics) and [logging/logql/parser.go] (logs) have the same helpers
    and the same label matchers, word for word. A parser's state is the input that is
    left: the position of the code is the length of the input less that. Every parser
    comes with what it does on printed text and what it guarantees on any text. *)

From stdpp Require Import options.
From Stdlib Require Import Ascii.
From S2P Require Import Prelude GoStrings LabelIndex.
Open Scope nat_scope.

Definition dquote : ascii := ascii_of 34.
Definition backslash : ascii := ascii_of 92.

(** The errors, with what was left of the input. *)
Inductive ParseError :=
  | EmptyQuery
  | ExpectedChar (ch : ascii) (rest : string)
  | ExpectedIdentifier (rest : string)
  | ExpectedLabel (rest : string)
  | ExpectedOperator (rest : string)
  | ExpectedQuoted (rest : string)
  | UnterminatedString
  | TrailingInput (rest : string)
  | UnknownFunction (name : string)
  | ExpectedMetric (inside : string)
  | UnterminatedRange
  | InvalidRange (raw : string)
  | ExpectedNumber (rest : string)
  | InvalidNumber (text : string)
  | ParserStuck.

Abbreviation parse A := (result ParseError (A * string)).

(** ** Characters *)

(** [unicode.IsSpace] of a byte taken as a character. *)
Definition isSpace (c : ascii) : bool :=
  in_range 9 13 (byte_of c) || (byte_of c =? 32)%Z || (byte_of c =? 133)%Z || (byte_of c =? 160)%Z.
Definition isLetter (c : ascii) : bool :=
  in_range 97 122 (byte_of c) || in_range 65 90 (byte_of c) || (byte_of c =? 95)%Z.
Definition isDigit (c : ascii) : bool := in_range 48 57 (byte_of c).
Definition isIdentChar (c : ascii) : bool :=
  in_range 97 122 (byte_of c) || in_range 65 90 (byte_of c) || in_range 48 57 (byte_of c)
  || (byte_of c =? 95)%Z.

(** The characters in front that pass, and the rest. *)
Fixpoint span (P : ascii -> bool) (s : string) : string * string :=
  match s with
  | EmptyString => (EmptyString, EmptyString)
  | String c s' =>
      if P c then let '(a, b) := span P s' in (String c a, b) else (EmptyString, s)
  end.

Definition skipWhitespace (s : string) : string := (span isSpace s).2.

(** The next byte, 0 at the end. *)
Definition peek (s : string) : ascii :=
  match s with String c _ => c | EmptyString => ascii_of 0 end.

Definition expect (ch : ascii) (s : string) : result ParseError string :=
  match s with
  | String c s' => if decide (c = ch) then Ok s' else Err (ExpectedChar ch s)
  | EmptyString => Err (ExpectedChar ch s)
  end.

Definition readIdentifier (s : string) : string * string :=
  match s with
  | String c _ => if isLetter c then span isIdentChar s else (EmptyString, s)
  | EmptyString => (EmptyString, s)
  end.

(** ** Label matchers *)

Definition parseMatchType (s : string) : parse MatchType :=
  let one c s1 := if decide (c = "="%char) then Ok (MatchEqual, s1) else Err (ExpectedOperator s) in
  match s with
  | EmptyString => Err (ExpectedOperator s)
  | String c EmptyString => one c EmptyString
  | String c (String d s2 as s1) =>
      if decide (c = "!"%char /\ d = "="%char) then Ok (MatchNotEqual, s2)
      else if decide (c = "="%char /\ d = "~"%char) then Ok (MatchRegexp, s2)
      else if decide (c = "!"%char /\ d = "~"%char) then Ok (MatchNotRegexp, s2)
      else one c s1
  end.

(** What the escape of a character stands for. *)
Definition unescape (next : ascii) : string :=
  if decide (next = dquote \/ next = backslash) then String next EmptyString
  else if decide (next = "n"%char) then String (ascii_of 10) EmptyString
  else if decide (next = "t"%char) then String (ascii_of 9) EmptyString
  else String backslash (String next EmptyString).

(** The text up to the closing quote. *)
Fixpoint quotedText (s : string) : parse string :=
  match s with
  | EmptyString => Err UnterminatedString
  | String ch s1 =>
      if decide (ch = backslash) then
        match s1 with
        | String next s2 => '(v, rest) ← quotedText s2; Ok (unescape next +:+ v, rest)
        | EmptyString => Err UnterminatedString
        end
      else if decide (ch = dquote) then Ok (EmptyString, s1)
      else '(v, rest) ← quotedText s1; Ok (String ch v, rest)
  end.

Definition parseQuotedString (s : string) : parse string :=
  match expect dquote s with
  | Ok s => quotedText s
  | Err _ => Err (ExpectedQuoted s)
  end.

Definition parseLabelMatcher (s : string) : parse LabelMatcher :=
  let '(name, s) := readIdentifier s in
  if decide (name = EmptyString) then Err (ExpectedLabel s)
  else
    '(mt, s) ← parseMatchType (skipWhitespace s);
    '(val, s) ← parseQuotedString (skipWhitespace s);
    Ok (mkMatcher name val mt, s).

(** A separated list: the loops of [parseLabelMatchers] and [parseLabelList] up to the
    closing character. *)
Fixpoint listLoop {A} (item : string -> parse A) (close : ascii) (fuel : nat) (acc : list A) (s : string)
    : parse (list A) :=
  match fuel with
  | O => Err ParserStuck
  | S fuel =>
      let s := skipWhitespace s in
      if decide (peek s = close) then Ok (acc, drop_str 1 s)
      else
        s ← (if decide (acc = []) then Ok s else s ← expect ","%char s; Ok (skipWhitespace s));
        '(m, s) ← item s;
        listLoop item close fuel (acc ++ [m]) s
  end.

Definition parseLabelMatchers (s : string) : parse (list LabelMatcher) :=
  s ← expect "{"%char s;
  listLoop parseLabelMatcher "}"%char (S (String.length s)) [] s.

(** ** Texts *)

Fixpoint str_all (P : ascii -> bool) (s : string) : bool :=
  match s with String c s => P c && str_all P s | EmptyString => true end.
Definition starts (P : ascii -> bool) (s : string) : bool :=
  match s with String c _ => P c | EmptyString => false end.

Definition is_ident (s : string) : bool := starts isLetter s && str_all isIdentChar s.

Definition opText (t : MatchType) : string :=
  match t with
  | MatchEqual => "=" | MatchNotEqual => "!=" | MatchRegexp => "=~" | MatchNotRegexp => "!~"
  end.

Fixpoint escape (s : string) : string :=
  match s with
  | EmptyString => EmptyString
  | String c s =>
      if decide (c = dquote \/ c = backslash) then String backslash (String c (escape s))
      else String c (escape s)
  end.
Definition quoteText (v : string) : string := String dquote (escape v +:+ String dquote EmptyString).

(** Matchers as they are written, with the white space [w] wherever some may stand. *)
Definition matcherText (w : string) (m : LabelMatcher) : string :=
  lm_Name m +:+ w +:+ opText (lm_Type m) +:+ w +:+ quoteText (lm_Value m).

(** The items of a list after the first. *)
Fixpoint tailText {A} (w : string) (it : A -> string) (l : list A) : string :=
  match l with [] => "" | m :: l => w +:+ "," +:+ w +:+ it m +:+ tailText w it l end.
Definition itemsText {A} (w : string) (it : A -> string) (l : list A) : string :=
  match l with [] => "" | m :: l => w +:+ it m +:+ tailText w it l end.
Definition matchersText (w : string) (ms : list LabelMatcher) : string :=
  "{" +:+ itemsText w (matcherText w) ms +:+ w +:+ "}".

Definition matcher_named (m : LabelMatcher) : Prop := is_ident (lm_Name m) = true.

(** What a parser guarantees on any text: the value satisfies [Q], at most [n] bytes are
    left, and the loops have come to their end. *)
Definition ensures {A} (Q : A -> Prop) (n : nat) (r : parse A) : Prop :=
  match r with
  | Ok (a, s) => Q a /\ String.length s <= n
  | Err e => e <> ParserStuck
  end.

Lemma ensures_bind {A B} (Q : A -> Prop) (R : B -> Prop) n n' (r : parse A) (f : A * string -> parse B) :
  ensures Q n r -> (forall a s, Q a -> String.length s <= n -> ensures R n' (f (a, s))) ->
  ensures R n' (r ≫= f).
Proof. destruct r as [[a s]|e]; simpl; [|done]. intros [HQ Hs] Hf. by apply Hf. Qed.

Lemma ensures_weaken {A} (Q R : A -> Prop) n n' (r : parse A) :
  ensures Q n r -> (forall a, Q a -> R a) -> n <= n' -> ensures R n' r.
Proof. destruct r as [[a s]|e]; simpl; [|done]. intros [? ?] HQR Hn. split; [auto|lia]. Qed.

(** ** Lemmas on the characters *)

Lemma str_all_app P a b : str_all P (a +:+ b) = str_all P a && str_all P b.
Proof. induction a as [|c a IH]; str_simpl; simpl; [done|]. by rewrite IH, andb_assoc. Qed.

Lemma starts_app P a b : a <> "" -> starts P (a +:+ b) = starts P a.
Proof. by destruct a. Qed.

Lemma span_app P a s : str_all P a = true -> starts P s = false -> span P (a +:+ s) = (a, s).
Proof.
  intros Ha Hs. induction a as [|c a IH]; str_simpl; simpl in *.
  - destruct s as [|d s]; [done|]. simpl in *. by rewrite Hs.
  - apply andb_true_iff in Ha as [-> Ha]. by rewrite IH.
Qed.

Lemma span_spec P s : s = (span P s).1 +:+ (span P s).2 /\ str_all P (span P s).1 = true.
Proof.
  induction s as [|c s [IH1 IH2]]; simpl; [done|]. destruct (P c) eqn:Hc; [|done].
  destruct (span P s) as [a b]. simpl in *. rewrite Hc, IH2. str_simpl. by rewrite <-IH1.
Qed.

Lemma span_length P s : String.length (span P s).2 <= String.length s.
Proof. destruct (span_spec P s) as [Hs _]. rewrite Hs at 2. rewrite str_length_app. lia. Qed.

Lemma skip_length s : String.length (skipWhitespace s) <= String.length s.
Proof. apply span_length. Qed.

Lemma skip_id s : starts isSpace s = false -> skipWhitespace s = s.
Proof. intros Hs. unfold skipWhitespace. by destruct s as [|c s]; simpl in *; [|rewrite Hs]. Qed.

Lemma skip_spaces w s : str_all isSpace w = true -> skipWhitespace (w +:+ s) = skipWhitespace s.
Proof.
  intros Hw. induction w as [|c w IH]; [done|]. simpl in Hw. apply andb_true_iff in Hw as [Hc Hw].
  specialize (IH Hw). str_simpl. unfold skipWhitespace in *. simpl. rewrite Hc.
  by destruct (span isSpace (w +:+ s)).
Qed.

Lemma skip_starts s : starts isSpace (skipWhitespace s) = false.
Proof.
  unfold skipWhitespace. induction s as [|c s IH]; [done|]. simpl. destruct (isSpace c) eqn:Hc; [|done].
  by destruct (span isSpace s).
Qed.

Lemma skip_skip s : skipWhitespace (skipWhitespace s) = skipWhitespace s.
Proof. apply skip_id, skip_starts. Qed.

(** Bytes are compared through their numbers. *)
Lemma letter_ident c : isLetter c = true -> isIdentChar c = true.
Proof. unfold isLetter, isIdentChar. rewrite !orb_true_iff. tauto. Qed.
Lemma ident_not_space c : isIdentChar c = true -> isSpace c = false.
Proof.
  unfold isIdentChar, isSpace, in_range. rewrite !orb_true_iff, !andb_true_iff, !orb_false_iff, !andb_false_iff.
  rewrite !Z.leb_le, !Z.leb_gt, !Z.eqb_eq, !Z.eqb_neq. lia.
Qed.
Lemma space_not_ident c : isSpace c = true -> isIdentChar c = false.
Proof. intros Hc. destruct (isIdentChar c) eqn:E; [|done]. apply ident_not_space in E. congruence. Qed.

(** A text that follows white space, or stands for itself. *)
Lemma starts_spaces (P : ascii -> bool) w s :
  str_all isSpace w = true -> (forall c, isSpace c = true -> P c = false) -> starts P s = false ->
  starts P (w +:+ s) = false.
Proof.
  intros Hw HP Hs. destruct w as [|c w]; [done|]. simpl in *. apply andb_true_iff in Hw as [? _]. by apply HP.
Qed.

(** ** Identifiers, operators and strings *)

Lemma readIdentifier_app n s :
  is_ident n = true -> starts isIdentChar s = false -> readIdentifier (n +:+ s) = (n, s).
Proof.
  intros [Hn Hall]%andb_true_iff Hs. destruct n as [|c n]; [done|]. simpl in Hn. str_simpl.
  unfold readIdentifier. rewrite Hn. change (String c (n +:+ s)) with (String c n +:+ s). by apply span_app.
Qed.

Lemma readIdentifier_spec s n s' :
  readIdentifier s = (n, s') -> n <> "" ->
  is_ident n = true /\ s = n +:+ s' /\ String.length s' < String.length s.
Proof.
  unfold readIdentifier. destruct s as [|c s]; [naive_solver|].
  destruct (isLetter c) eqn:Hc; [|naive_solver]. intros Hspan Hne.
  destruct (span_spec isIdentChar (String c s)) as [Hs Hall]. rewrite Hspan in Hs, Hall. simpl in Hs, Hall.
  destruct n as [|d n]; [done|]. rewrite str_app_cons in Hs. injection Hs as <- Hs.
  split_and!; [unfold is_ident; simpl; by rewrite Hc|by rewrite Hs|].
  rewrite Hs. simpl. rewrite str_length_app. lia.
Qed.

Lemma readIdentifier_length s : String.length (readIdentifier s).2 <= String.length s.
Proof.
  unfold readIdentifier. destruct s as [|c s]; [done|]. destruct (isLetter c); [apply span_length|done].
Qed.

Lemma parseMatchType_app t s :
  starts (fun c => bool_decide (c = "~"%char)) s = false -> parseMatchType (opText t +:+ s) = Ok (t, s).
Proof.
  intros Hs. destruct t; try done. destruct s as [|c s]; [done|]. simpl in Hs. bool_props.
  change (opText MatchEqual +:+ String c s) with (String "=" (String c s)). unfold parseMatchType.
  rewrite decide_False by naive_solver. rewrite decide_False by naive_solver.
  rewrite decide_False by naive_solver. by rewrite decide_True.
Qed.

Lemma parseMatchType_ensures s : ensures (fun _ => True) (String.length s) (parseMatchType s).
Proof.
  destruct s as [|c [|d s]]; simpl; [done| |]; repeat case_decide; simpl; try done; split; try done; lia.
Qed.

Lemma quotedText_app v s : quotedText (escape v +:+ String dquote s) = Ok (v, s).
Proof.
  induction v as [|c v IH]; simpl.
  - reflexivity.
  - case_decide as Hc; rewrite !str_app_cons; cbn [quotedText].
    + rewrite decide_True by done. rewrite IH. unfold unescape. by rewrite decide_True.
    + rewrite !decide_False by tauto. by rewrite IH.
Qed.

Lemma parseQuotedString_app v s : parseQuotedString (quoteText v +:+ s) = Ok (v, s).
Proof.
  unfold parseQuotedString, quoteText. rewrite str_app_cons, str_app_assoc. cbn [expect].
  rewrite decide_True by done. apply quotedText_app.
Qed.

Lemma quotedText_ensures s : ensures (fun _ => True) (String.length s) (quotedText s).
Proof.
  induction s as [s IH] using (induction_ltof1 _ String.length). unfold ltof in IH.
  destruct s as [|ch s]; simpl; [done|]. case_decide.
  - destruct s as [|next s]; [done|]. eapply ensures_bind; [apply IH; simpl; lia|].
    intros v rest _ Hr. simpl in *. split; [done|]. lia.
  - case_decide; [simpl; split; [done|lia]|].
    eapply ensures_bind; [apply IH; simpl; lia|]. intros v rest _ Hr. simpl in *. split; [done|lia].
Qed.

Lemma parseQuotedString_ensures s : ensures (fun _ => True) (String.length s) (parseQuotedString s).
Proof.
  unfold parseQuotedString. destruct s as [|c s]; simpl; [done|]. case_decide; [|done].
  eapply ensures_weaken; [apply quotedText_ensures|done|lia].
Qed.

(** ** Lists *)

Lemma peek_starts (c : ascii) s : starts (fun d => bool_decide (d = c)) s = false -> c <> ascii_of 0 -> peek s <> c.
Proof. destruct s as [|d s]; simpl; [congruence|]. intros Hd. by bool_props. Qed.

Lemma drop_one c s : drop_str 1 (String c s) = s.
Proof. exact (drop_str_app (String c "") s). Qed.

Section lists.
Context {A : Type} (item : string -> parse A) (it : A -> string) (w : string) (close : ascii).
Hypothesis Hw : str_all isSpace w = true.
Hypothesis Hclose : isSpace close = false /\ isIdentChar close = false /\ close <> ","%char /\ close <> ascii_of 0.

(** What may follow an item. *)
Lemma tail_follow l s : starts isIdentChar (tailText w it l +:+ w +:+ String close s) = false.
Proof using Hw Hclose.
  destruct Hclose as (_ & Hi & _). destruct l as [|m l]; cbn [tailText].
  - rewrite str_app_nil_l. apply starts_spaces; [done|apply space_not_ident|exact Hi].
  - rewrite !str_app_assoc. apply starts_spaces; [done|apply space_not_ident|done].
Qed.

(** The text of an item begins an identifier and is read back. *)
Definition item_ok (m : A) : Prop :=
  starts isLetter (it m) = true /\
  forall s, starts isIdentChar s = false -> item (it m +:+ s) = Ok (m, s).

Lemma item_start m s :
  item_ok m -> skipWhitespace (it m +:+ s) = it m +:+ s /\ peek (it m +:+ s) <> close.
Proof using Hclose.
  intros [Hm _]. destruct (it m) as [|c t]; [done|]. simpl in Hm. apply letter_ident in Hm. split.
  - apply skip_id. by apply ident_not_space.
  - simpl. intros ->. destruct Hclose as (_ & ? & _). congruence.
Qed.

Lemma listLoop_close fuel acc s :
  0 < fuel -> listLoop item close fuel acc (w +:+ String close s) = Ok (acc, s).
Proof using Hw Hclose.
  intros Hf. destruct fuel as [|fuel]; [lia|]. cbn [listLoop].
  destruct Hclose as (Hs & _). rewrite skip_spaces, skip_id by done. cbn [peek]. rewrite decide_True by done.
  by rewrite drop_one.
Qed.

Lemma listLoop_tail l fuel acc s :
  length l < fuel -> acc <> [] -> Forall item_ok l ->
  listLoop item close fuel acc (tailText w it l +:+ w +:+ String close s) = Ok (acc ++ l, s).
Proof using Hw Hclose.
  revert fuel acc. induction l as [|m l IH]; intros fuel acc Hf Hacc Hl.
  - rewrite app_nil_r. apply listLoop_close. simpl in Hf. lia.
  - apply Forall_cons in Hl as [Hm Hl]. destruct fuel as [|fuel]; [simpl in Hf; lia|]. cbn [listLoop tailText].
    rewrite !str_app_assoc, skip_spaces by done. rewrite !str_app_cons, !str_app_nil_l.
    rewrite (skip_id (String _ _)) by done. cbn [peek].
    rewrite decide_False by (destruct Hclose as (_ & _ & ? & _); congruence).
    rewrite decide_False by done. cbn [expect]. rewrite decide_True by done. simpl.
    destruct (item_start m (tailText w it l +:+ w +:+ String close s) Hm) as [Hskip _].
    rewrite skip_spaces, Hskip by done. rewrite (proj2 Hm) by apply tail_follow. simpl.
    rewrite IH; [|simpl in Hf; lia|by destruct acc|done]. by rewrite <-app_assoc.
Qed.

Lemma listLoop_items l fuel s :
  length l < fuel -> Forall item_ok l ->
  listLoop item close fuel [] (itemsText w it l +:+ w +:+ String close s) = Ok (l, s).
Proof using Hw Hclose.
  intros Hf Hl. destruct l as [|m l]; [by apply listLoop_close|].
  apply Forall_cons in Hl as [Hm Hl]. destruct fuel as [|fuel]; [simpl in Hf; lia|]. cbn [listLoop itemsText].
  destruct (item_start m (tailText w it l +:+ w +:+ String close s) Hm) as [Hskip Hpeek].
  rewrite !str_app_assoc, skip_spaces, Hskip by done. rewrite decide_False by done.
  rewrite decide_True by done. simpl. rewrite (proj2 Hm) by apply tail_follow. simpl.
  rewrite listLoop_tail; [done|simpl in Hf; lia|done|done].
Qed.

Lemma tail_length l : length l <= String.length (tailText w it l).
Proof using Type.
  induction l as [|m l IH]; cbn [tailText length]; [lia|]. rewrite !str_length_app.
  change (String.length ",") with 1. lia.
Qed.
Lemma items_length l s : length l < S (String.length (itemsText w it l +:+ w +:+ String close s)).
Proof using Type.
  rewrite !str_length_app. destruct l as [|m l]; cbn [itemsText length]; [simpl; lia|].
  rewrite !str_length_app. pose proof (tail_length l). simpl. lia.
Qed.
End lists.

Lemma listLoop_ensures {A} (item : string -> parse A) close (Q : A -> Prop) :
  (forall s, ensures Q (String.length s - 1) (item s) /\ (forall m s', item s = Ok (m, s') -> s <> "")) ->
  forall fuel acc s, String.length s < fuel -> Forall Q acc ->
  ensures (Forall Q) (String.length s) (listLoop item close fuel acc s).
Proof.
  intros Hitem. induction fuel as [|fuel IH]; intros acc s Hf Hacc; [lia|]. cbn [listLoop].
  pose proof (skip_length s) as Hsk. set (s1 := skipWhitespace s) in *. case_decide.
  - simpl. split; [done|]. destruct s1 as [|c s1]; simpl in *; [lia|].
    rewrite drop_one. lia.
  - assert (forall s2, String.length s2 <= String.length s ->
      ensures (Forall Q) (String.length s) ('(m, s) ← item s2; listLoop item close fuel (acc ++ [m]) s)) as Hnext.
    { intros s2 Hs2. destruct (Hitem s2) as [He Hne]. destruct (item s2) as [[m s3]|e]; [|done].
      simpl in *. destruct He as [Hm Hs3]. pose proof (Hne m s3 eq_refl). destruct s2 as [|c s2]; [done|].
      simpl in *. eapply ensures_weaken; [apply IH; [lia|]|done|lia].
      apply Forall_app. split; [done|]. by constructor. }
    case_decide; [by apply Hnext|]. destruct s1 as [|c s1]; simpl; [done|]. case_decide; simpl; [|done].
    apply Hnext. pose proof (skip_length s1). simpl in *. lia.
Qed.

(** ** Matchers *)

Lemma parseLabelMatcher_app w m :
  str_all isSpace w = true -> matcher_named m -> item_ok parseLabelMatcher (matcherText w) m.
Proof.
  intros Hw Hm. split.
  - unfold matcherText. unfold matcher_named, is_ident in Hm. apply andb_true_iff in Hm as [Hm _].
    rewrite starts_app; [done|]. by destruct (lm_Name m).
  - intros s _. destruct m as [name val mt]. unfold matcherText, parseLabelMatcher, matcher_named in *. simpl in *.
    rewrite !str_app_assoc. rewrite readIdentifier_app; [|done|].
    2:{ apply starts_spaces; [done|apply space_not_ident|by destruct mt]. }
    rewrite decide_False by (by intros ->). rewrite skip_spaces by done.
    rewrite (skip_id (opText mt +:+ _)) by (by destruct mt).
    rewrite parseMatchType_app. 2:{ apply starts_spaces; [done| |done].
      intros c Hc. apply bool_decide_eq_false_2. by intros ->. }
    simpl. rewrite skip_spaces by done. rewrite (skip_id (quoteText val +:+ s)) by done.
    by rewrite parseQuotedString_app.
Qed.

Lemma parseLabelMatcher_ensures s :
  ensures matcher_named (String.length s - 1) (parseLabelMatcher s) /\
  (forall m s', parseLabelMatcher s = Ok (m, s') -> s <> "").
Proof.
  unfold parseLabelMatcher. destruct (readIdentifier s) as [n s1] eqn:Hr. case_decide as Hn; [done|].
  destruct (readIdentifier_spec _ _ _ Hr Hn) as (Hid & -> & Hlen). split; [|by destruct n].
  pose proof (skip_length s1). eapply ensures_bind; [apply parseMatchType_ensures|]. intros mt s2 _ Hs2. simpl.
  pose proof (skip_length s2). eapply ensures_bind; [apply parseQuotedString_ensures|]. intros v s3 _ Hs3. simpl.
  split; [done|lia].
Qed.

Lemma parseLabelMatchers_app w ms s :
  str_all isSpace w = true -> Forall matcher_named ms ->
  parseLabelMatchers (matchersText w ms +:+ s) = Ok (ms, s).
Proof.
  intros Hw Hms. unfold matchersText, parseLabelMatchers. rewrite !str_app_assoc, !str_app_cons, !str_app_nil_l.
  cbn [expect]. rewrite decide_True by done. cbn [mbind result_bind]. apply listLoop_items; [done|done| |].
  - apply items_length.
  - eapply Forall_impl; [exact Hms|]. intros m. by apply parseLabelMatcher_app.
Qed.

Lemma parseLabelMatchers_ensures s : ensures (Forall matcher_named) (String.length s) (parseLabelMatchers s).
Proof.
  unfold parseLabelMatchers. destruct s as [|c s]; cbn [expect]; [done|]. case_decide; [|done].
  cbn [mbind result_bind String.length].
  eapply ensures_weaken; [apply (listLoop_ensures _ _ matcher_named)|done|]; [apply parseLabelMatcher_ensures|lia|done|lia].
Qed.
