(* ===== verification/PromQL.v ===== *)
(** * The metrics query language

    [ParseExpr] of [src/internal/controlplane/metrics/tsdb/parser.go] with every parser it
    calls. A query is described by its written form ([Query]); printing a query and
    parsing the text gives what the query denotes, and every text that is accepted is
    such a query, up to white space. *)

From stdpp Require Import options.
From Stdlib Require Import Ascii SpecFloat.
From S2P Require Import Prelude GoStrings Words Float64 LabelIndex QueryLexer.
Open Scope nat_scope.

(** ** Expressions *)

Record Selector := mkSelector { sel_Name : string; sel_Matchers : list LabelMatcher }.

Record FunctionCall := mkCall {
  fn_Name : string;
  fn_Selector : Selector;
  fn_Range : Z;
  fn_Args : list float64
}.

Record AggregationExpr := mkAggregation {
  ag_Op : string;
  ag_Selector : Selector;
  ag_By : list string
}.

Inductive Expr :=
  | ExprSelector (s : Selector)
  | ExprFunction (f : FunctionCall)
  | ExprAggregation (a : AggregationExpr).

Definition rangeFunctions : list string :=
  ["rate"; "delta"; "increase"; "avg_over_time"; "max_over_time"; "min_over_time"].
Definition aggregationOps : list string := ["sum"; "avg"; "count"].

(** ** Numbers *)

(** Digits with at most one dot: the digits as an integer and how many follow the dot;
    [None] without any digit. *)
Fixpoint decimalText (m : Z) (k : nat) (dot any : bool) (s : string) : option (Z * nat) :=
  match s with
  | EmptyString => if any then Some (m, k) else None
  | String c s =>
      if isDigit c then decimalText (10 * m + (byte_of c - 48))%Z (if dot then S k else k) dot true s
      else if decide (c = "."%char) then if dot then None else decimalText m k true any s
      else None
  end.

(** [strconv.ParseFloat] of a sign, digits and dots: an error for anything else and for
    values beyond the largest float. *)
Definition ParseFloat (text : string) : option float64 :=
  let '(neg, body) :=
    match text with
    | String c s => if decide (c = "-"%char) then (true, s) else if decide (c = "+"%char) then (false, s) else (false, text)
    | EmptyString => (false, text)
    end in
  '(m, k) ← decimalText 0 0 false false body;
  match of_decimal m k with
  | S754_infinity _ | S754_nan => None
  | f => Some (if neg : bool then SFopp f else f)
  end.

(** The loop of [parseFloat]. *)
Fixpoint numberChars (hasDot : bool) (s : string) : string * string :=
  match s with
  | EmptyString => (EmptyString, EmptyString)
  | String c s' =>
      if isDigit c then let '(a, b) := numberChars hasDot s' in (String c a, b)
      else if decide (c = "."%char) then
        if hasDot then (EmptyString, s)
        else let '(a, b) := numberChars true s' in (String c a, b)
      else (EmptyString, s)
  end.
Definition scanNumber (s : string) : string * string :=
  match s with
  | String c s' =>
      if decide (c = "-"%char \/ c = "+"%char) then let '(a, b) := numberChars false s' in (String c a, b)
      else numberChars false s
  | EmptyString => (EmptyString, EmptyString)
  end.

Definition parseFloat (s : string) : parse float64 :=
  let '(text, rest) := scanNumber s in
  if decide (text = EmptyString) then Err (ExpectedNumber s)
  else match ParseFloat text with Some f => Ok (f, rest) | None => Err (InvalidNumber text) end.

(** ** Durations *)

Inductive DurationError := EmptyDuration | BadDuration | BadDurationNumber (num : string) | UnknownUnit (c : ascii).

Section durations.
(** The conversion to an integer of a float beyond 64 bits is the machine's. *)
Context (beyond : float64 -> Z).

Definition to_int64 (f : float64) : Z :=
  match to_int f with
  | Some v => if (min_int64 <=? v)%Z && (v <=? max_int64)%Z then v else beyond f
  | None => beyond f
  end.

(** One number with its unit, in nanoseconds. *)
Definition unitDuration (val : float64) (unit : ascii) : option Z :=
  let hour := of_int Hour in
  if decide (unit = "s"%char) then Some (to_int64 (fmul val (of_int Second)))
  else if decide (unit = "m"%char) then Some (to_int64 (fmul val (of_int Minute)))
  else if decide (unit = "h"%char) then Some (to_int64 (fmul val hour))
  else if decide (unit = "d"%char) then Some (to_int64 (fmul (fmul val (of_int 24)) hour))
  else if decide (unit = "w"%char) then Some (to_int64 (fmul (fmul (fmul val (of_int 7)) (of_int 24)) hour))
  else if decide (unit = "y"%char) then Some (to_int64 (fmul (fmul (fmul val (of_int 365)) (of_int 24)) hour))
  else None.

Definition numeric (c : ascii) : bool := isDigit c || bool_decide (c = "."%char).

Fixpoint durationLoop (fuel : nat) (total : Z) (s : string) : option (result DurationError Z) :=
  match fuel with
  | O => None
  | S fuel =>
      if decide (s = EmptyString) then Some (Ok total)
      else
        let '(numStr, rest) := span numeric s in
        match rest with
        | EmptyString => Some (Err BadDuration)
        | String unit rest =>
            if decide (numStr = EmptyString) then Some (Err BadDuration)
            else match ParseFloat numStr with
                 | None => Some (Err (BadDurationNumber numStr))
                 | Some val =>
                     match unitDuration val unit with
                     | None => Some (Err (UnknownUnit unit))
                     | Some d => durationLoop fuel (s64 (total + d)) rest
                     end
                 end
        end
  end.

Definition parseDuration (s : string) : option (result DurationError Z) :=
  let s := TrimSpace s in
  if decide (s = EmptyString) then Some (Err EmptyDuration)
  else durationLoop (S (String.length s)) 0 s.

(** ** Parsers *)

Definition parseSelector (name : string) (s : string) : parse Selector :=
  let s := skipWhitespace s in
  if decide (peek s = "{"%char) then
    '(ms, s) ← parseLabelMatchers s; Ok (mkSelector name ms, s)
  else Ok (mkSelector name [], s).

(** A metric with its matchers, inside the call of [name]. *)
Definition parseMetric (name : string) (s : string) : parse Selector :=
  let '(metric, s) := readIdentifier s in
  if decide (metric = EmptyString) then Err (ExpectedMetric name) else parseSelector metric s.

Definition parseRangeBracket (s : string) : parse Z :=
  s ← expect "["%char s;
  let '(raw, s) := span (fun c => negb (bool_decide (c = "]"%char))) s in
  if decide (s = EmptyString) then Err UnterminatedRange
  else match parseDuration raw with
       | Some (Ok d) => Ok (d, drop_str 1 s)
       | Some (Err _) => Err (InvalidRange raw)
       | None => Err ParserStuck
       end.

Definition parseRangeFunction (name : string) (s : string) : parse Expr :=
  s ← expect "("%char s;
  '(sel, s) ← parseMetric name (skipWhitespace s);
  '(dur, s) ← parseRangeBracket (skipWhitespace s);
  s ← expect ")"%char (skipWhitespace s);
  Ok (ExprFunction (mkCall name sel dur []), s).

Definition parseLabel (s : string) : parse string :=
  let '(name, s) := readIdentifier s in
  if decide (name = EmptyString) then Err (ExpectedLabel s) else Ok (name, s).
Definition parseLabelList (s : string) : parse (list string) :=
  s ← expect "("%char s;
  listLoop parseLabel ")"%char (S (String.length s)) [] s.

(** The optional [by (..)]. *)
Definition parseBy (s : string) : parse (list string) :=
  if HasPrefix s "by" && negb (starts isIdentChar (drop_str 2 s))
  then parseLabelList (skipWhitespace (drop_str 2 s))
  else Ok ([], s).

Definition parseAggregation (op : string) (s : string) : parse Expr :=
  s ← expect "("%char s;
  '(sel, s) ← parseMetric op (skipWhitespace s);
  s ← expect ")"%char (skipWhitespace s);
  '(by_, s) ← parseBy (skipWhitespace s);
  Ok (ExprAggregation (mkAggregation op sel by_), s).

Definition parseHistogramQuantile (s : string) : parse Expr :=
  s ← expect "("%char s;
  '(q, s) ← parseFloat (skipWhitespace s);
  s ← expect ","%char (skipWhitespace s);
  '(sel, s) ← parseMetric "histogram_quantile" (skipWhitespace s);
  s ← expect ")"%char (skipWhitespace s);
  Ok (ExprFunction (mkCall "histogram_quantile" sel 0 [q]), s).

Definition parseExpr (s : string) : parse Expr :=
  let s := skipWhitespace s in
  if decide (s = EmptyString) then Err EmptyQuery
  else
    let '(ident, s) := readIdentifier s in
    if decide (ident = EmptyString) then Err (ExpectedIdentifier s)
    else
      let s := skipWhitespace s in
      if decide (peek s = "("%char) then
        if decide (ident = "histogram_quantile") then parseHistogramQuantile s
        else if decide (ident ∈ rangeFunctions) then parseRangeFunction ident s
        else if decide (ident ∈ aggregationOps) then parseAggregation ident s
        else Err (UnknownFunction ident)
      else '(sel, s) ← parseSelector ident s; Ok (ExprSelector sel, s).

Definition ParseExpr (input : string) : result ParseError Expr :=
  '(e, s) ← parseExpr (TrimSpace input);
  let s := skipWhitespace s in
  if decide (s = EmptyString) then Ok e else Err (TrailingInput s).
End durations.

(** ** Written queries *)

Inductive Query :=
  | QSelector (sel : Selector)
  | QRange (name : string) (sel : Selector) (range : string)
  | QQuantile (quantile : string) (sel : Selector)
  | QAggregation (op : string) (sel : Selector) (by_ : list string).

Definition selectorText (w : string) (sel : Selector) : string :=
  sel_Name sel +:+ (if decide (sel_Matchers sel = []) then "" else w +:+ matchersText w (sel_Matchers sel)).

Definition byText (w : string) (by_ : list string) : string :=
  if decide (by_ = []) then "" else w +:+ "by" +:+ w +:+ "(" +:+ itemsText w id by_ +:+ w +:+ ")".

Definition queryText (w : string) (q : Query) : string :=
  match q with
  | QSelector sel => selectorText w sel
  | QRange name sel range =>
      name +:+ w +:+ "(" +:+ w +:+ selectorText w sel +:+ w +:+ "[" +:+ range +:+ "]" +:+ w +:+ ")"
  | QQuantile quantile sel =>
      "histogram_quantile" +:+ w +:+ "(" +:+ w +:+ quantile +:+ w +:+ "," +:+ w +:+ selectorText w sel +:+ w +:+ ")"
  | QAggregation op sel by_ =>
      op +:+ w +:+ "(" +:+ w +:+ selectorText w sel +:+ w +:+ ")" +:+ byText w by_
  end.

Definition selector_ok (sel : Selector) : Prop :=
  is_ident (sel_Name sel) = true /\ Forall matcher_named (sel_Matchers sel).

(** Names are identifiers, functions are known, and numbers are numbers. *)
Definition query_ok (q : Query) : Prop :=
  match q with
  | QSelector sel => selector_ok sel
  | QRange name sel range =>
      name ∈ rangeFunctions /\ selector_ok sel /\ str_all (fun c => negb (bool_decide (c = "]"%char))) range = true
  | QQuantile quantile sel =>
      selector_ok sel /\ scanNumber quantile = (quantile, "") /\ is_Some (ParseFloat quantile)
  | QAggregation op sel by_ =>
      op ∈ aggregationOps /\ selector_ok sel /\ Forall (fun l => is_ident l = true) by_
  end.

Section meaning.
Context (beyond : float64 -> Z).

(** What a query denotes; only its range can be wrong. *)
Definition denote (q : Query) : result ParseError Expr :=
  match q with
  | QSelector sel => Ok (ExprSelector sel)
  | QRange name sel range =>
      match parseDuration beyond range with
      | Some (Ok d) => Ok (ExprFunction (mkCall name sel d []))
      | _ => Err (InvalidRange range)
      end
  | QQuantile quantile sel =>
      Ok (ExprFunction (mkCall "histogram_quantile" sel 0 [default fnan (ParseFloat quantile)]))
  | QAggregation op sel by_ => Ok (ExprAggregation (mkAggregation op sel by_))
  end.
End meaning.

(** ** Durations end *)

Lemma durationLoop_total beyond fuel total s :
  String.length s < fuel -> is_Some (durationLoop beyond fuel total s).
Proof.
  revert total s. induction fuel as [|fuel IH]; intros total s Hf; [lia|]. cbn [durationLoop].
  case_decide; [by eexists|]. destruct (span_spec numeric s) as [Hs _]. pose proof (f_equal String.length Hs) as Hl.
  rewrite str_length_app in Hl. destruct (span numeric s) as [num [|u rest]]; simpl in Hl; [by eexists|].
  case_decide; [by eexists|]. destruct (ParseFloat num); [|by eexists]. destruct (unitDuration _ _ _); [|by eexists].
  apply IH. lia.
Qed.

Lemma parseDuration_total beyond s : is_Some (parseDuration beyond s).
Proof. unfold parseDuration. case_decide; [by eexists|]. apply durationLoop_total. lia. Qed.

(** ** Parsers on printed text *)

Section printed.
#[local] Set Default Proof Using "Type*".
Context (beyond : float64 -> Z) (w : string).
Hypothesis Hw : str_all isSpace w = true.

(** What follows a selector: white space, then a character that does not continue it. *)
Definition ends_selector (s : string) : Prop :=
  starts isIdentChar s = false /\ peek (skipWhitespace s) <> "{"%char.

Lemma ends_selector_char c s :
  isIdentChar c = false -> isSpace c = false -> c <> "{"%char -> ends_selector (w +:+ String c s).
Proof.
  intros Hc Hsp Hb. split.
  - apply starts_spaces; [done|apply space_not_ident|done].
  - rewrite skip_spaces, skip_id by done. done.
Qed.

Lemma parseSelector_app sel s :
  Forall matcher_named (sel_Matchers sel) -> ends_selector s ->
  exists s', parseSelector (sel_Name sel)
    ((if decide (sel_Matchers sel = []) then "" else w +:+ matchersText w (sel_Matchers sel)) +:+ s) = Ok (sel, s') /\
    skipWhitespace s' = skipWhitespace s.
Proof.
  intros Hms [Hs1 Hs2]. destruct sel as [name ms]. unfold parseSelector. simpl in *. destruct (decide (ms = [])) as [Hm|Hm].
  - subst ms. exists (skipWhitespace s). rewrite str_app_nil_l, decide_False by done. split; [done|].
    apply skip_skip.
  - exists s. rewrite str_app_assoc, skip_spaces by done.
    rewrite (skip_id (matchersText w ms +:+ s)) by done. rewrite decide_True by done.
    by rewrite parseLabelMatchers_app.
Qed.

Lemma selectorText_cut sel s : exists t, selectorText w sel +:+ s = sel_Name sel +:+ t /\
  t = (if decide (sel_Matchers sel = []) then "" else w +:+ matchersText w (sel_Matchers sel)) +:+ s.
Proof. eexists. split; [|reflexivity]. unfold selectorText. by rewrite str_app_assoc. Qed.

Lemma selector_follow sel s :
  ends_selector s ->
  starts isIdentChar ((if decide (sel_Matchers sel = []) then "" else w +:+ matchersText w (sel_Matchers sel)) +:+ s) = false.
Proof.
  intros [Hs _]. case_decide; [done|]. rewrite str_app_assoc.
  apply starts_spaces; [done|apply space_not_ident|done].
Qed.

Lemma parseMetric_app name sel s :
  selector_ok sel -> ends_selector s ->
  exists s', parseMetric name (skipWhitespace (w +:+ selectorText w sel +:+ s)) = Ok (sel, s') /\
    skipWhitespace s' = skipWhitespace s.
Proof.
  intros [Hn Hms] Hs. destruct (selectorText_cut sel s) as (t & -> & Ht).
  rewrite skip_spaces by done. unfold parseMetric.
  assert (starts isSpace (sel_Name sel +:+ t) = false) as Hsp.
  { apply andb_true_iff in Hn as [Hn _]. destruct (sel_Name sel) as [|c n]; [done|].
    simpl in *. by apply ident_not_space, letter_ident. }
  rewrite skip_id by done. rewrite readIdentifier_app; [|done|rewrite Ht; by apply selector_follow].
  rewrite decide_False by (intros E; by rewrite E in Hn). rewrite Ht. by apply parseSelector_app.
Qed.

Lemma parseRangeBracket_app range s :
  str_all (fun c => negb (bool_decide (c = "]"%char))) range = true ->
  parseRangeBracket beyond ("[" +:+ range +:+ "]" +:+ s) =
  match parseDuration beyond range with Some (Ok d) => Ok (d, s) | _ => Err (InvalidRange range) end.
Proof.
  intros Hr. unfold parseRangeBracket. rewrite !str_app_cons, !str_app_nil_l. cbn [expect].
  rewrite decide_True by done. cbn [mbind result_bind].
  rewrite span_app by done. rewrite decide_False by done. rewrite drop_one.
  destruct (parseDuration_total beyond range) as [[d|e] ->]; done.
Qed.

Lemma numberChars_app text s dot :
  numberChars dot text = (text, "") -> starts numeric s = false -> numberChars dot (text +:+ s) = (text, s).
Proof.
  intros Ht Hs. revert dot Ht. induction text as [|c text IH]; intros dot Ht.
  - rewrite str_app_nil_l. destruct s as [|d s]; [done|]. simpl in *. unfold numeric in Hs.
    apply orb_false_iff in Hs as [-> Hs]. bool_props. by rewrite decide_False.
  - rewrite str_app_cons. cbn [numberChars] in *. destruct (isDigit c).
    + destruct (numberChars dot text) as [a b] eqn:E. simplify_eq. by rewrite (IH _ E).
    + case_decide; [|done]. destruct dot; [done|]. destruct (numberChars true text) as [a b] eqn:E. simplify_eq.
      by rewrite (IH _ E).
Qed.

Lemma scanNumber_app text s :
  scanNumber text = (text, "") -> text <> "" -> starts numeric s = false -> scanNumber (text +:+ s) = (text, s).
Proof.
  intros Ht Hne Hs. destruct text as [|c text]; [done|]. rewrite str_app_cons. cbn [scanNumber] in *. case_decide.
  - destruct (numberChars false text) as [a b] eqn:E. simplify_eq. by rewrite (numberChars_app _ _ _ E).
  - rewrite <-str_app_cons. by apply numberChars_app.
Qed.

Lemma numeric_not_space c : isSpace c = true -> numeric c = false.
Proof.
  unfold isSpace, numeric, isDigit, in_range. intros Hc. apply orb_false_iff. split.
  - rewrite !orb_true_iff, andb_true_iff, !Z.leb_le, !Z.eqb_eq in Hc. rewrite andb_false_iff, !Z.leb_gt. lia.
  - apply bool_decide_eq_false_2. by intros ->.
Qed.

Lemma scanNumber_start text c t :
  scanNumber text = (text, "") -> text = String c t -> isSpace c = false.
Proof.
  intros Ht ->. destruct (isSpace c) eqn:Hc; [|done]. pose proof (numeric_not_space c Hc) as Hn.
  cbn [scanNumber numberChars] in Ht. unfold numeric in Hn. apply orb_false_iff in Hn as [Hn1 Hn2]. bool_props.
  rewrite Hn1 in Ht. rewrite decide_False in Ht by (by intros [->| ->]). by rewrite decide_False in Ht.
Qed.

Lemma parseFloat_app text q s :
  scanNumber text = (text, "") -> ParseFloat text = Some q ->
  parseFloat (skipWhitespace (w +:+ text +:+ w +:+ "," +:+ s)) = Ok (q, w +:+ "," +:+ s).
Proof.
  intros Ht Hq. assert (text <> "") as Hne by (by intros ->). rewrite skip_spaces by done.
  assert (skipWhitespace (text +:+ w +:+ "," +:+ s) = text +:+ w +:+ "," +:+ s) as ->.
  { apply skip_id. destruct text as [|c t] eqn:E; [done|]. simpl. by eapply scanNumber_start. }
  unfold parseFloat. rewrite scanNumber_app; [|done|done|].
  - rewrite decide_False by done. by rewrite Hq.
  - apply starts_spaces; [done|apply numeric_not_space|done].
Qed.

Lemma parseLabel_ok l : is_ident l = true -> item_ok parseLabel id l.
Proof.
  intros Hl. split; [by apply andb_true_iff in Hl as [? _]|]. intros s Hs. unfold parseLabel, id.
  rewrite readIdentifier_app by done. rewrite decide_False; [done|]. by intros ->.
Qed.

Lemma parseBy_app by_ :
  Forall (fun l => is_ident l = true) by_ -> parseBy (skipWhitespace (byText w by_)) = Ok (by_, "").
Proof.
  intros Hby. unfold byText. case_decide as Hn; [by subst|]. rewrite skip_spaces, skip_id by done.
  set (t := itemsText w id by_ +:+ w +:+ ")"). unfold parseBy.
  assert (HasPrefix ("by" +:+ w +:+ "(" +:+ t) "by" = true) as -> by (apply HasPrefix_spec; by eexists).
  assert (drop_str 2 ("by" +:+ w +:+ "(" +:+ t) = w +:+ "(" +:+ t) as -> by apply (drop_str_app "by").
  rewrite starts_spaces; [|done|apply space_not_ident|done]. cbn [negb andb].
  rewrite skip_spaces, skip_id by done. unfold parseLabelList. rewrite str_app_cons. cbn [expect].
  rewrite decide_True by done. cbn [mbind result_bind]. rewrite str_app_nil_l. unfold t.
  apply listLoop_items; [done|done| |].
  - apply items_length.
  - eapply Forall_impl; [exact Hby|]. exact parseLabel_ok.
Qed.

(** The identifier in front decides, with what follows it. *)
Lemma parseExpr_head n s :
  is_ident n = true -> starts isIdentChar s = false ->
  parseExpr beyond (n +:+ s) =
  (let s := skipWhitespace s in
   if decide (peek s = "("%char) then
     if decide (n = "histogram_quantile") then parseHistogramQuantile s
     else if decide (n ∈ rangeFunctions) then parseRangeFunction beyond n s
     else if decide (n ∈ aggregationOps) then parseAggregation n s
     else Err (UnknownFunction n)
   else '(sel, s) ← parseSelector n s; Ok (ExprSelector sel, s)).
Proof.
  intros Hn Hs. unfold parseExpr.
  assert (skipWhitespace (n +:+ s) = n +:+ s) as ->.
  { apply skip_id. apply andb_true_iff in Hn as [Hn _]. destruct n as [|c n]; [done|]. simpl in *.
    by apply ident_not_space, letter_ident. }
  assert (n <> "") as Hne by (by intros ->). rewrite decide_False by (by destruct n).
  rewrite readIdentifier_app by done. by rewrite decide_False.
Qed.

Lemma call_follow s : starts isIdentChar (w +:+ "(" +:+ s) = false.
Proof. apply starts_spaces; [done|apply space_not_ident|done]. Qed.

Lemma skip_char c s : isSpace c = false -> skipWhitespace (w +:+ String c s) = String c s.
Proof. intros Hc. by rewrite skip_spaces, skip_id. Qed.

Lemma parseRangeFunction_app name sel range :
  selector_ok sel -> str_all (fun c => negb (bool_decide (c = "]"%char))) range = true ->
  parseRangeFunction beyond name ("(" +:+ w +:+ selectorText w sel +:+ w +:+ "[" +:+ range +:+ "]" +:+ w +:+ ")") =
  (e ← denote beyond (QRange name sel range); Ok (e, "")).
Proof.
  intros Hsel Hr. unfold parseRangeFunction. rewrite str_app_cons. cbn [expect]. rewrite decide_True by done.
  cbn [mbind result_bind]. rewrite str_app_nil_l.
  destruct (parseMetric_app name sel (w +:+ "[" +:+ range +:+ "]" +:+ w +:+ ")")) as (s' & -> & Hs'); [done| |].
  { by apply ends_selector_char. }
  cbn [mbind result_bind]. rewrite Hs', str_app_cons, str_app_nil_l, skip_char by done.
  change (String "[" (range +:+ ?x)) with ("[" +:+ range +:+ x). rewrite parseRangeBracket_app by done.
  unfold denote. destruct (parseDuration_total beyond range) as [[d|e] ->]; [|done].
  cbn [mbind result_bind]. by rewrite skip_char.
Qed.

Lemma parseHistogramQuantile_app quantile sel :
  query_ok (QQuantile quantile sel) ->
  parseHistogramQuantile ("(" +:+ w +:+ quantile +:+ w +:+ "," +:+ w +:+ selectorText w sel +:+ w +:+ ")") =
  (e ← denote beyond (QQuantile quantile sel); Ok (e, "")).
Proof.
  intros (Hsel & Hscan & [q Hq]). unfold parseHistogramQuantile. rewrite str_app_cons. cbn [expect].
  rewrite decide_True by done. cbn [mbind result_bind]. rewrite str_app_nil_l.
  rewrite (parseFloat_app _ q) by done. cbn [mbind result_bind]. rewrite str_app_cons, str_app_nil_l, skip_char by done.
  cbn [expect]. rewrite decide_True by done. cbn [mbind result_bind].
  destruct (parseMetric_app "histogram_quantile" sel (w +:+ ")")) as (s' & -> & Hs'); [done|by apply ends_selector_char|].
  cbn [mbind result_bind]. rewrite Hs', skip_char by done. simpl. by rewrite Hq.
Qed.

Lemma parseAggregation_app op sel by_ :
  selector_ok sel -> Forall (fun l => is_ident l = true) by_ ->
  parseAggregation op ("(" +:+ w +:+ selectorText w sel +:+ w +:+ ")" +:+ byText w by_) =
  (e ← denote beyond (QAggregation op sel by_); Ok (e, "")).
Proof.
  intros Hsel Hby. unfold parseAggregation. rewrite str_app_cons. cbn [expect]. rewrite decide_True by done.
  cbn [mbind result_bind]. rewrite str_app_nil_l.
  destruct (parseMetric_app op sel (w +:+ ")" +:+ byText w by_)) as (s' & -> & Hs'); [done|by apply ends_selector_char|].
  cbn [mbind result_bind]. rewrite Hs', str_app_cons, str_app_nil_l, skip_char by done. cbn [expect].
  rewrite decide_True by done. cbn [mbind result_bind]. by rewrite parseBy_app.
Qed.
End printed.

(** ** What every accepted text is *)

(** A text that begins with a letter and ends in a visible character. *)
Definition framed (s : string) : Prop :=
  starts isLetter s = true /\ exists a d, s = a +:+ String d "" /\ graphic d = true.

Lemma ident_graphic c : isIdentChar c = true -> graphic c = true.
Proof.
  unfold isIdentChar, graphic, in_range. rewrite !orb_true_iff, !andb_true_iff, !Z.leb_le, Z.eqb_eq. lia.
Qed.

Lemma str_last (P : ascii -> bool) c s : str_all P (String c s) = true -> exists a d, String c s = a +:+ String d "" /\ P d = true.
Proof.
  revert c. induction s as [|d s IH]; intros c Hall; simpl in Hall; apply andb_true_iff in Hall as [Hc Hs].
  - exists "", c. done.
  - destruct (IH d) as (a & e & Heq & He); [done|]. exists (String c a), e. by rewrite Heq.
Qed.

Lemma framed_ident n : is_ident n = true -> framed n.
Proof.
  intros [Hn Hall]%andb_true_iff. split; [done|]. destruct n as [|c n]; [done|].
  destruct (str_last _ _ _ Hall) as (a & d & Heq & Hd). exists a, d. split; [done|]. by apply ident_graphic.
Qed.

Lemma framed_app n s a d : is_ident n = true -> s = a +:+ String d "" -> graphic d = true -> framed (n +:+ s).
Proof.
  intros [Hn _]%andb_true_iff -> Hd. split; [by rewrite starts_app by (by intros ->)|].
  exists (n +:+ a), d. by rewrite str_app_assoc.
Qed.

Lemma framed_trim s : framed s -> TrimSpace s = s.
Proof.
  intros [Hs (a & d & Heq & Hd)]. destruct s as [|c s]; [done|]. eapply TrimSpace_id; [|done|done].
  by apply ident_graphic, letter_ident.
Qed.

Definition function_name (n : string) : Prop :=
  n = "histogram_quantile" \/ n ∈ rangeFunctions \/ n ∈ aggregationOps.
Lemma function_ident n : function_name n -> is_ident n = true.
Proof.
  unfold function_name, rangeFunctions, aggregationOps. rewrite !list_elem_of_In. simpl. intros Hn.
  by destruct_or? Hn; subst.
Qed.

Lemma range_name n : n ∈ rangeFunctions -> n <> "histogram_quantile".
Proof. intros Hn ->. revert Hn. by apply (bool_decide_eq_false _). Qed.
Lemma aggregation_name op : op ∈ aggregationOps -> op <> "histogram_quantile" /\ op ∉ rangeFunctions.
Proof.
  unfold aggregationOps. rewrite list_elem_of_In. simpl. intros Hop.
  destruct_or? Hop; subst; try done; split; try done; by apply (bool_decide_eq_false _).
Qed.

Lemma framed_query w q : query_ok q -> framed (queryText w q).
Proof.
  assert (forall n s d, is_ident n = true -> graphic d = true -> framed ((n +:+ s) +:+ String d "")) as Hfr.
  { intros n s d Hn Hd. rewrite str_app_assoc. by eapply framed_app. }
  destruct q as [[n ms]|n sel r|text sel|op sel by_]; simpl; intros Hq.
  - destruct Hq as [Hn _]. unfold selectorText. simpl in *. case_decide; [rewrite str_app_nil_r; by apply framed_ident|].
    unfold matchersText. rewrite <-!(str_app_assoc _ _ "}"). by apply Hfr.
  - destruct Hq as (Hn & _). rewrite <-!(str_app_assoc _ _ ")"). apply Hfr; [|done]. apply function_ident. by right; left.
  - rewrite <-!(str_app_assoc _ _ ")"). apply Hfr; [|done]. apply function_ident. by left.
  - destruct Hq as (Hn & _). assert (is_ident op = true) by (apply function_ident; by right; right).
    unfold byText. case_decide.
    + rewrite str_app_nil_r, <-!(str_app_assoc _ _ ")"). by apply Hfr.
    + rewrite <-!(str_app_assoc _ _ ")"). by apply Hfr.
Qed.

(** The text of a query parses to what it denotes. *)
Lemma parse_queryText beyond w q :
  str_all isSpace w = true -> query_ok q -> ParseExpr beyond (queryText w q) = denote beyond q.
Proof.
  intros Hw Hq. unfold ParseExpr. rewrite framed_trim by (by apply framed_query).
  destruct q as [sel|n sel r|text sel|op sel by_]; simpl in Hq.
  - destruct Hq as [Hn Hms]. destruct (selectorText_cut w Hw sel "") as (t & Heq & Ht). rewrite str_app_nil_r in Heq.
    cbn [queryText]. rewrite Heq. rewrite parseExpr_head; [|done|rewrite Ht; by apply selector_follow].
    destruct (parseSelector_app w Hw sel "" Hms) as (s' & Hp & Hs'); [done|]. rewrite <-Ht in Hp.
    assert (peek (skipWhitespace t) <> "("%char) as Hpk.
    { rewrite Ht. case_decide; [done|]. by rewrite str_app_nil_r, skip_spaces, skip_id. }
    cbv zeta. rewrite decide_False by done.
    assert (parseSelector (sel_Name sel) (skipWhitespace t) = parseSelector (sel_Name sel) t) as ->
      by (unfold parseSelector; by rewrite skip_skip).
    rewrite Hp. cbn [mbind result_bind]. by rewrite Hs'.
  - destruct Hq as (Hn & Hsel & Hr). pose proof (function_ident n (or_intror (or_introl Hn))) as Hid. cbn [queryText].
    rewrite parseExpr_head by (done || by apply call_follow). cbv zeta.
    rewrite skip_spaces, skip_id by done. rewrite decide_True by done.
    rewrite decide_False by (by apply range_name). rewrite decide_True by done.
    rewrite parseRangeFunction_app by done. by destruct (denote _ _).
  - cbn [queryText]. rewrite parseExpr_head by (done || by apply call_follow). cbv zeta.
    rewrite skip_spaces, skip_id by done. rewrite decide_True by done. rewrite decide_True by done.
    by rewrite (parseHistogramQuantile_app beyond).
  - destruct Hq as (Hn & Hsel & Hby). pose proof (function_ident op (or_intror (or_intror Hn))) as Hid. cbn [queryText].
    rewrite parseExpr_head by (done || by apply call_follow). cbv zeta.
    rewrite skip_spaces, skip_id by done. rewrite decide_True by done.
    destruct (aggregation_name op Hn). rewrite !decide_False by done.
    rewrite decide_True by done. by rewrite (parseAggregation_app beyond).
Qed.


(** ** Parsers on any text *)

Section any.
#[local] Set Default Proof Using "Type".
Context (beyond : float64 -> Z).

(** A value some written query denotes. *)
Definition expr_ok (e : Expr) : Prop := exists q, query_ok q /\ denote beyond q = Ok e.

Lemma expect_ensures {A} (Q : A -> Prop) n ch s (f : string -> parse A) :
  (forall s', String.length s' <= String.length s -> ensures Q n (f s')) -> ensures Q n (s' ← expect ch s; f s').
Proof.
  intros Hf. destruct s as [|c s]; simpl; [done|]. case_decide; [|done]. apply Hf. simpl. lia.
Qed.

Lemma parseSelector_ensures name s :
  is_ident name = true -> ensures selector_ok (String.length s) (parseSelector name s).
Proof.
  intros Hn. unfold parseSelector. pose proof (skip_length s). case_decide; [|by simpl; split; [split|lia]].
  eapply ensures_bind; [apply parseLabelMatchers_ensures|]. intros ms s' Hms Hs'. simpl. split; [by split|lia].
Qed.

Lemma parseMetric_ensures name s : ensures selector_ok (String.length s) (parseMetric name s).
Proof.
  unfold parseMetric. destruct (readIdentifier s) as [n s1] eqn:Hr. case_decide as Hn; [done|].
  destruct (readIdentifier_spec _ _ _ Hr Hn) as (Hid & _ & Hlen).
  eapply ensures_weaken; [by apply parseSelector_ensures|done|lia].
Qed.

Lemma parseRangeBracket_ensures s :
  ensures (fun d => exists range, str_all (fun c => negb (bool_decide (c = "]"%char))) range = true /\
             parseDuration beyond range = Some (Ok d)) (String.length s) (parseRangeBracket beyond s).
Proof.
  unfold parseRangeBracket. apply expect_ensures. intros s1 Hs1.
  destruct (span_spec (fun c => negb (bool_decide (c = "]"%char))) s1) as [Hs Hall].
  destruct (span _ s1) as [raw s2]. simpl in Hs, Hall. case_decide; [done|].
  destruct (parseDuration_total beyond raw) as [[d|e] Hd]; rewrite Hd; [|done]. simpl. split; [by exists raw|].
  destruct s2 as [|c s2]; [done|]. rewrite drop_one. pose proof (f_equal String.length Hs) as Hl.
  rewrite str_length_app in Hl. simpl in Hl. lia.
Qed.

Lemma numberChars_spec dot s :
  numberChars dot (numberChars dot s).1 = ((numberChars dot s).1, "") /\
  String.length (numberChars dot s).2 <= String.length s.
Proof.
  revert dot. induction s as [|c s IH]; intros dot; [done|]. simpl. destruct (isDigit c) eqn:Hc.
  - destruct (IH dot) as [IH1 IH2]. destruct (numberChars dot s) as [a b]. simpl in *. rewrite Hc, IH1. split; [done|lia].
  - case_decide as Hd; [|done]. destruct dot; [done|]. destruct (IH true) as [IH1 IH2].
    destruct (numberChars true s) as [a b]. simpl in *. rewrite Hc, IH1. case_decide; [|done]. split; [done|lia].
Qed.

Lemma scanNumber_spec s :
  scanNumber (scanNumber s).1 = ((scanNumber s).1, "") /\ String.length (scanNumber s).2 <= String.length s.
Proof.
  destruct s as [|c s]; [done|]. cbn [scanNumber]. destruct (decide (c = "-"%char \/ c = "+"%char)) as [Hc|Hc].
  - destruct (numberChars_spec false s) as [H1 H2]. destruct (numberChars false s) as [a b]. simpl in *.
    case_decide; [|done]. rewrite H1. split; [done|lia].
  - destruct (numberChars_spec false (String c s)) as [H1 H2].
    destruct (numberChars false (String c s)) as [a b] eqn:E. cbn [fst snd] in *. split; [|done].
    destruct a as [|d a]; [done|]. cbn [scanNumber]. rewrite decide_False; [done|].
    assert (d = c) as ->; [|done]. cbn [numberChars] in E. destruct (isDigit c).
    + by destruct (numberChars false s); simplify_eq.
    + case_decide; [|done]. by destruct (numberChars true s); simplify_eq.
Qed.

Lemma parseFloat_ensures s :
  ensures (fun q => exists text, scanNumber text = (text, "") /\ ParseFloat text = Some q) (String.length s) (parseFloat s).
Proof.
  unfold parseFloat. destruct (scanNumber_spec s) as [Hs Hl]. destruct (scanNumber s) as [text rest]. simpl in *.
  case_decide; [done|]. destruct (ParseFloat text) eqn:Hp; [|done]. simpl. split; [by exists text|done].
Qed.

Lemma parseLabelList_ensures s :
  ensures (Forall (fun l => is_ident l = true)) (String.length s) (parseLabelList s).
Proof.
  unfold parseLabelList. apply expect_ensures. intros s1 Hs1.
  eapply ensures_weaken; [apply (listLoop_ensures _ _ (fun l => is_ident l = true))|done|]; [|lia|done|lia].
  intros s2. unfold parseLabel. destruct (readIdentifier s2) as [n s3] eqn:Hr. case_decide as Hn; [done|].
  destruct (readIdentifier_spec _ _ _ Hr Hn) as (Hid & -> & Hlen). split; [|by destruct n].
  simpl. split; [done|lia].
Qed.

Lemma parseBy_ensures s : ensures (Forall (fun l => is_ident l = true)) (String.length s) (parseBy s).
Proof.
  unfold parseBy. destruct (HasPrefix s "by" && _) eqn:Hb; [|by simpl].
  apply andb_true_iff in Hb as [[t ->]%HasPrefix_spec _]. change (drop_str 2 ("by" +:+ t)) with (drop_str (String.length "by") ("by" +:+ t)).
  rewrite drop_str_app. eapply ensures_weaken; [apply parseLabelList_ensures|done|].
  pose proof (skip_length t). rewrite str_length_app. lia.
Qed.

Lemma parseExpr_ensures s : ensures expr_ok (String.length s) (parseExpr beyond s).
Proof.
  unfold parseExpr. pose proof (skip_length s) as Hsk. case_decide; [done|].
  destruct (readIdentifier (skipWhitespace s)) as [n s1] eqn:Hr. case_decide as Hn; [done|].
  destruct (readIdentifier_spec _ _ _ Hr Hn) as (Hid & _ & Hlen). pose proof (skip_length s1) as Hsk1.
  set (s2 := skipWhitespace s1) in *. assert (String.length s2 <= String.length s) as Hs2 by lia. clear Hsk Hsk1 Hlen Hr.
  pose proof skip_length as Hskip. case_decide.
  - repeat case_decide; try done.
    + eapply ensures_weaken; [|done|exact Hs2]. apply expect_ensures. intros t1 Ht1.
      eapply ensures_bind; [apply parseFloat_ensures|]. intros q t2 (text & Htext & Hq) Ht2.
      apply expect_ensures. intros t3 Ht3. eapply ensures_bind; [apply parseMetric_ensures|]. intros sel t4 Hsel Ht4.
      apply expect_ensures. intros t5 Ht5. simpl. split.
      * exists (QQuantile text sel). simpl. rewrite Hq. by split_and!.
      * pose proof (Hskip t1). pose proof (Hskip t2). pose proof (Hskip t3). pose proof (Hskip t4). lia.
    + eapply ensures_weaken; [|done|exact Hs2]. apply expect_ensures. intros t1 Ht1.
      eapply ensures_bind; [apply parseMetric_ensures|]. intros sel t2 Hsel Ht2.
      eapply ensures_bind; [apply parseRangeBracket_ensures|]. intros d t3 (range & Hr & Hd) Ht3.
      apply expect_ensures. intros t4 Ht4. simpl. split.
      * exists (QRange n sel range). simpl. rewrite Hd. by split_and!.
      * pose proof (Hskip t1). pose proof (Hskip t2). pose proof (Hskip t3). lia.
    + eapply ensures_weaken; [|done|exact Hs2]. apply expect_ensures. intros t1 Ht1.
      eapply ensures_bind; [apply parseMetric_ensures|]. intros sel t2 Hsel Ht2.
      apply expect_ensures. intros t3 Ht3. eapply ensures_bind; [apply parseBy_ensures|]. intros l t4 Hl Ht4. simpl. split.
      * exists (QAggregation n sel l). by split_and!.
      * pose proof (Hskip t1). pose proof (Hskip t2). pose proof (Hskip t3). lia.
  - eapply ensures_bind; [by apply parseSelector_ensures|]. intros sel t Hsel Ht. simpl. split; [|lia].
    by exists (QSelector sel).
Qed.
End any.

(** On every text the parser comes to an end, and what it accepts is the value of a
    query with known functions, identifiers as names and numbers as numbers. *)
Lemma ParseExpr_typed beyond input :
  match ParseExpr beyond input with
  | Ok e => expr_ok beyond e
  | Err e => e <> ParserStuck
  end.
Proof.
  pose proof (parseExpr_ensures beyond (TrimSpace input)) as He.
  destruct (ParseExpr beyond input) as [e|err] eqn:Hp; unfold ParseExpr in Hp;
    destruct (parseExpr beyond (TrimSpace input)) as [[e' s]|err']; simpl in *; try case_decide; simplify_eq; try done.
  exact (proj1 He).
Qed.

(** C20 The parser and its language. The text of a query, with any white space between
    its tokens and any characters in the quoted values, parses to what the query denotes,
    whose only error is a range that is not a duration. Conversely, on every text the
    parser comes to an end, and what it accepts is the value of a query: known
    functions, identifiers as names and numbers as numbers, so that the text of that
    query parses to the same expression. *)
Theorem ParseExpr_correct beyond :
  (forall w q, str_all isSpace w = true -> query_ok q -> ParseExpr beyond (queryText w q) = denote beyond q) /\
  forall input,
    match ParseExpr beyond input with
    | Ok e => exists q, query_ok q /\ denote beyond q = Ok e /\ ParseExpr beyond (queryText "" q) = Ok e
    | Err e => e <> ParserStuck
    end.
Proof.
  split; [apply parse_queryText|]. intros input. pose proof (ParseExpr_typed beyond input) as Ht.
  destruct (ParseExpr beyond input) as [e|e]; [|done]. destruct Ht as (q & Hq & Hd).
  exists q. split_and!; [done|done|]. by rewrite parse_queryText.
Qed.


(** ** Examples *)

Definition errorRate : Query :=
  QRange "rate" (mkSelector "http_requests" [mkMatcher "path" "a b" MatchEqual; mkMatcher "code" "5.." MatchRegexp]) "1h30m".
Definition no_overflow (f : float64) : Z := 0.

Lemma ParseExpr_correct_witness :
  queryText " " errorRate = "rate ( http_requests { path = " +:+ quoteText "a b" +:+ " , code =~ " +:+ quoteText "5.."
    +:+ " } [1h30m] )" /\
  ParseExpr no_overflow (queryText " " errorRate) =
    Ok (ExprFunction (mkCall "rate" (mkSelector "http_requests"
      [mkMatcher "path" "a b" MatchEqual; mkMatcher "code" "5.." MatchRegexp]) (90 * Minute) [])).
Proof.
  split; [vm_compute; reflexivity|].
  assert (query_ok errorRate) as Hq.
  { split; [apply (bool_decide_unpack _); vm_compute; exact I|]. split; [split; [reflexivity|repeat constructor]|reflexivity]. }
  rewrite (proj1 (ParseExpr_correct no_overflow) " " errorRate eq_refl Hq). vm_compute. reflexivity.
Defined.

(** What users of PromQL may miss: calls of calls, [by] in front, a comma at the end, a
    colon in a name. *)
Lemma refused_queries :
  is_ok (ParseExpr no_overflow "sum(rate(x[5m]))") = false /\ is_ok (ParseExpr no_overflow "sum by (job) (x)") = false /\ is_ok (ParseExpr no_overflow ("x{a=" +:+ quoteText "b" +:+ ",}")) = false /\ is_ok (ParseExpr no_overflow "job:x") = false.
Proof. by vm_compute. Qed.
