(* ===== verification/GoTime.v ===== *)
(** * Go's [time.ParseDuration]

    The durations of configuration texts, as the standard library documents and
    implements them: an optional sign, then numbers with an optional fraction, each
    with a unit. *)

From stdpp Require Import options.
From Stdlib Require Import Ascii SpecFloat.
From S2P Require Import Prelude GoStrings Words Float64 QueryLexer PromQL.
Open Scope Z_scope.

(** The digits in front as an integer; [None] beyond 64 bits. *)
Fixpoint leadingInt (x : Z) (s : string) : option (Z * string) :=
  match s with
  | String c s' =>
      if isDigit c then
        if 2 ^ 63 / 10 <? x then None
        else let y := 10 * x + (byte_of c - 48) in
             if 2 ^ 63 <? y then None else leadingInt y s'
      else Some (x, s)
  | EmptyString => Some (x, EmptyString)
  end.

(** The digits of a fraction and the scale they count in; digits beyond 63 bits are
    dropped. *)
Fixpoint leadingFraction (x : Z) (scale : float64) (overflow : bool) (s : string) : Z * float64 * string :=
  match s with
  | String c s' =>
      if isDigit c then
        let y := 10 * x + (byte_of c - 48) in
        if overflow || ((2 ^ 63 - 1) / 10 <? x) || (2 ^ 63 <? y) then leadingFraction x scale true s'
        else leadingFraction y (fmul scale (of_int 10)) false s'
      else (x, scale, s)
  | EmptyString => (x, scale, EmptyString)
  end.

(** Both spellings of the micro sign. *)
Definition unitMap (u : string) : option Z :=
  if decide (u = "ns") then Some 1
  else if decide (u = "us" \/ u = string_of [194; 181; 115] \/ u = string_of [206; 188; 115]) then Some 1000
  else if decide (u = "ms") then Some 1000000
  else if decide (u = "s") then Some Second
  else if decide (u = "m") then Some Minute
  else if decide (u = "h") then Some Hour
  else None.

(** [uint64] of a float that is not negative and small enough here. *)
Definition truncated (f : float64) : Z := default 0 (to_int f).

(** One number with its unit. *)
Definition durationPart (s : string) : option (Z * string) :=
  if negb (starts numeric s) then None
  else
    '(v, s1) ← leadingInt 0 s;
    let pre := negb (String.length s1 =? String.length s)%nat in
    let '(f, scale, s2, post) :=
      match s1 with
      | String c s' =>
          if decide (c = "."%char) then
            let '(f, scale, s2) := leadingFraction 0 (of_int 1) false s' in
            (f, scale, s2, negb (String.length s2 =? String.length s')%nat)
          else (0, of_int 1, s1, false)
      | EmptyString => (0, of_int 1, s1, false)
      end in
    if negb pre && negb post then None
    else
      let '(u, s3) := span (fun c => negb (numeric c)) s2 in
      unit ← unitMap u;
      if 2 ^ 63 / unit <? v then None
      else
        let v := v * unit + (if 0 <? f then truncated (fmul (of_int f) (fdiv (of_int unit) scale)) else 0) in
        if 2 ^ 63 <? v then None else Some (v, s3).

Fixpoint durationParts (fuel : nat) (d : Z) (s : string) : option Z :=
  match fuel with
  | O => None
  | S fuel =>
      if decide (s = EmptyString) then Some d
      else '(v, s) ← durationPart s;
           if 2 ^ 63 <? d + v then None else durationParts fuel (d + v) s
  end.

(** Every part takes a character, so the length is enough fuel. *)
Definition ParseDuration (s : string) : option Z :=
  let '(neg, s) :=
    match s with
    | String c s' => if decide (c = "-"%char) then (true, s') else if decide (c = "+"%char) then (false, s') else (false, s)
    | EmptyString => (false, s)
    end in
  if decide (s = "0") then Some 0
  else if decide (s = EmptyString) then None
  else
    d ← durationParts (S (String.length s)) 0 s;
    if neg : bool then Some (- d) else if 2 ^ 63 - 1 <? d then None else Some d.

Lemma leadingInt_length x s v s' : leadingInt x s = Some (v, s') -> (String.length s' <= String.length s)%nat.
Proof.
  revert x. induction s as [|c s IH]; intros x; cbn [leadingInt]; [by intros [= _ <-]|].
  destruct (isDigit c); [|by intros [= _ <-]]. destruct (_ <? x); [done|]. destruct (_ <? _); [done|].
  intros Hs%IH. simpl. lia.
Qed.

Lemma leadingFraction_length x scale o s :
  (String.length (leadingFraction x scale o s).2 <= String.length s)%nat.
Proof.
  revert x scale o. induction s as [|c s IH]; intros x scale o; cbn [leadingFraction]; [done|].
  destruct (isDigit c); [|done]. destruct (_ || _); (etrans; [apply IH|simpl; lia]).
Qed.

Lemma durationPart_length s v s' : durationPart s = Some (v, s') -> (String.length s' < String.length s)%nat.
Proof.
  unfold durationPart. destruct (negb (starts numeric s)); [done|]. destruct (leadingInt 0 s) as [[n s1]|] eqn:Hi; [|done].
  apply leadingInt_length in Hi. cbn [mbind option_bind].
  set (r := match s1 with String _ _ => _ | EmptyString => _ end).
  assert (exists f scale s2 post, r = (f, scale, s2, post) /\ (String.length s2 <= String.length s1)%nat) as (f & scale & s2 & post & -> & Hs2).
  { unfold r. destruct s1 as [|c s1']; [by eexists _, _, _, _|]. case_decide; [|by eexists _, _, _, _].
    pose proof (leadingFraction_length 0 (of_int 1) false s1') as Hl. destruct (leadingFraction _ _ _ s1') as [[f sc] s2].
    eexists _, _, _, _. split; [reflexivity|]. simpl in *. lia. }
  destruct (negb _ && negb post); [done|]. destruct (span_spec (fun c => negb (numeric c)) s2) as [Hs _].
  destruct (span _ s2) as [u s3]. cbn [fst snd] in Hs. destruct (unitMap u) as [unit|] eqn:Hu; [|done]. cbn [mbind option_bind].
  destruct (_ <? n); [done|]. destruct (_ <? _); [done|]. intros [= _ <-].
  assert (u <> "") as Hne by (by intros ->). pose proof (f_equal String.length Hs) as Hl. rewrite str_length_app in Hl.
  destruct u as [|c u]; [done|]. simpl in Hl. lia.
Qed.

Example ParseDuration_table :
  ParseDuration "1h30m" = Some (90 * Minute) /\ ParseDuration "1.5s" = Some 1500000000 /\
  ParseDuration "-5m" = Some (- (5 * Minute)) /\ ParseDuration "0" = Some 0 /\
  ParseDuration "1d" = None /\ ParseDuration "5" = None /\ ParseDuration "300ms" = Some 300000000.
Proof. by vm_compute. Qed.
