(* ===== verification/TsdbStore.v ===== *)
(** * The metrics store

    [src/internal/metrics/types.go] (labels and series ids) and
    [src/internal/controlplane/metrics/tsdb/store.go] over the ordered key-value
    interface. The theorems relate what the queries return to the history of data
    points written. *)

From stdpp Require Import options.
From Stdlib Require Import Ascii Sorting.Sorted.
From S2P Require Import Prelude GoStrings Words Float64 IndexKeys OrderedKV LabelIndex.
Open Scope Z_scope.

(** ** Labels and series *)

Inductive MetricType := Gauge | Counter | Histogram.
#[global] Instance MetricType_eq_dec : EqDecision MetricType.
Proof. solve_decision. Defined.

Definition MetricType_byte (t : MetricType) : Z :=
  match t with Gauge => 0 | Counter => 1 | Histogram => 2 end.

Record Label := mkLabel { l_Name : string; l_Value : string }.

(** [Labels.Sort]: an insertion sort by name. Label names of a series are distinct,
    so every sort by name gives the same list. *)
Fixpoint insertLabel (x : Label) (ls : list Label) : list Label :=
  match ls with
  | [] => [x]
  | y :: ls => if String.leb (l_Name x) (l_Name y) then x :: y :: ls else y :: insertLabel x ls
  end.
Definition sortLabels (ls : list Label) : list Label := foldr insertLabel [] ls.

(** [Labels.Canonical] *)
Definition Canonical (ls : list Label) : string :=
  Join ((fun l => l_Name l +:+ "=" +:+ l_Value l) <$> sortLabels ls) ",".

(** [hash/fnv.New64a] *)
Definition fnv_offset : Z := 14695981039346656037.
Definition fnv_prime : Z := 1099511628211.
Definition fnv64a (bs : list Z) : Z := foldl (fun h b => u64 (Z.lxor h b * fnv_prime)) fnv_offset bs.

Definition Labels_Get (ls : list Label) (name : string) : string :=
  from_option l_Value "" (head (filter (fun l => l_Name l = name) ls)).

Definition Labels_Map (ls : list Label) : gmap string string :=
  foldl (fun m l => <[l_Name l := l_Value l]> m) ∅ ls.

Record DataPoint := mkPoint {
  dp_Name : string;
  dp_Type : MetricType;
  dp_Labels : list Label;
  dp_Timestamp : Z;
  dp_Value : float64
}.

Definition SeriesID (dp : DataPoint) : Z :=
  fnv64a (bytes_of (dp_Name dp) ++ [0] ++ bytes_of (Canonical (dp_Labels dp))).

Definition SeriesKey (dp : DataPoint) : string :=
  let c := Canonical (dp_Labels dp) in
  if bool_decide (c = "") then dp_Name dp else dp_Name dp +:+ "{" +:+ c +:+ "}".

Record SeriesInfo := mkInfo {
  si_Name : string;
  si_Type : MetricType;
  si_Labels : gmap string string
}.

(** ** The store *)

(** Values of the database: bytes, nothing, or the JSON of a [SeriesInfo], which is
    kept as the record it encodes. *)
Inductive Value := VBytes (bs : list Z) | VNil | VInfo (info : SeriesInfo).

Definition EncodeFloat64 (v : float64) : list Z := be_bytes 8 (Float64bits v).
Definition DecodeFloat64 (bs : list Z) : float64 := Float64frombits (be_val bs).

Record QueryRequest := mkQuery {
  qr_SeriesIDs : list Z;
  qr_Start : Z;
  qr_End : Z;
  qr_Step : Z
}.

Record TimeValue := mkTV { tv_TimestampMs : Z; tv_Value : float64 }.
Record QueryResult := mkQR { res_SeriesID : Z; res_Points : list TimeValue }.

(** [time.Time.UnixMilli] of a time in nanoseconds since the epoch, and
    [time.Duration.Milliseconds]. *)
Definition UnixMilli (t : Z) : Z := t / 1000000.
Definition Milliseconds (d : Z) : Z := Z.quot d 1000000.

(** *** Aggregation over steps *)

(** Sum and number of the points of one bucket. *)
Definition bucket (points : list TimeValue) (bucketStart bucketEnd : Z) : float64 * Z :=
  foldl (fun '(sum, count) p =>
    if (bucketStart <=? tv_TimestampMs p) && (tv_TimestampMs p <? bucketEnd)
    then (fadd sum (tv_Value p), count + 1) else (sum, count)) (fzero, 0) points.

(** The loop over buckets; [None] when the fuel is used up. *)
Fixpoint downsampleLoop (fuel : nat) (points : list TimeValue) (bucketStart endMs stepMs : Z)
    : option (list TimeValue) :=
  match fuel with
  | O => None
  | S fuel =>
      if bucketStart <=? endMs then
        let bucketEnd := s64 (bucketStart + stepMs) in
        let '(sum, count) := bucket points bucketStart bucketEnd in
        rest ← downsampleLoop fuel points (s64 (bucketStart + stepMs)) endMs stepMs;
        Some (if 0 <? count then mkTV bucketStart (fdiv sum (of_int count)) :: rest else rest)
      else Some []
  end.

Definition downsample (fuel : nat) (points : list TimeValue) (startMs endMs step : Z)
    : option (list TimeValue) :=
  match points with
  | [] => Some []
  | _ => downsampleLoop fuel points startMs endMs (Milliseconds step)
  end.

Section store.
Context {D : Type} `{KV Value D}.

(** The entries a data point puts into the write batch, with their time to live. *)
Definition pointEntries (retention : Z) (dp : DataPoint) : list (list Z * Value * Z) :=
  let labels := sortLabels (dp_Labels dp) in
  let seriesID := SeriesID (mkPoint (dp_Name dp) (dp_Type dp) labels (dp_Timestamp dp) (dp_Value dp)) in
  [(Tsdb.EncodeDataPointKey seriesID (dp_Timestamp dp), VBytes (EncodeFloat64 (dp_Value dp)), retention);
   (Tsdb.EncodeSeriesKey seriesID, VInfo (mkInfo (dp_Name dp) (dp_Type dp) (Labels_Map labels)), retention);
   (Tsdb.EncodeInvertedKey "__name__" (dp_Name dp) seriesID, VNil, retention)]
  ++ ((fun l => (Tsdb.EncodeInvertedKey (l_Name l) (l_Value l) seriesID, VNil, retention)) <$> labels)
  ++ [(Tsdb.EncodeMetricNameKey (dp_Name dp), VBytes [MetricType_byte (dp_Type dp)], retention + Hour)].

(** [Write] of a batch of points; [None] is the error return. *)
Definition Write (retention now : Z) (points : list DataPoint) (d : D) : option D :=
  setEntries now (concat (pointEntries retention <$> points)) d.

(** [DecodeDataPointKey] of an iterator's key; it panics on no key. *)
Definition decodedPoint (key : list Z) : option (Z * Z) :=
  match Tsdb.DecodeDataPointKey key with Ok o => o | Err _ => None end.

(** The scan of one series: stop at the first key that is no data point or is past
    the end. *)
Fixpoint collectPoints (endMs : Z) (es : list (list Z * Value)) : list TimeValue :=
  match es with
  | [] => []
  | (k, v) :: es =>
      match decodedPoint k with
      | None => []
      | Some (_, ts) =>
          if endMs <? ts then []
          else match v with
               | VBytes bs =>
                   if zlen bs =? 8 then mkTV ts (DecodeFloat64 bs) :: collectPoints endMs es
                   else collectPoints endMs es
               | _ => collectPoints endMs es
               end
      end
  end.

Definition querySeries (now : Z) (d : D) (startMs endMs sid : Z) : QueryResult :=
  mkQR sid (collectPoints endMs
    (iter (Tsdb.DataPointKeyPrefix sid) (Tsdb.DataPointKeyRangeStart sid startMs) (kv_entries now d))).

Definition queryRaw (now : Z) (d : D) (req : QueryRequest) : list QueryResult :=
  filter (fun qr => 0 < zlen (res_Points qr))
    (querySeries now d (UnixMilli (qr_Start req)) (UnixMilli (qr_End req)) <$> qr_SeriesIDs req).

Definition Query (fuel : nat) (now : Z) (d : D) (req : QueryRequest) : option (list QueryResult) :=
  let results := queryRaw now d req in
  if 0 <? qr_Step req then
    mapM (fun qr =>
      points ← downsample fuel (res_Points qr) (UnixMilli (qr_Start req)) (UnixMilli (qr_End req)) (qr_Step req);
      Some (mkQR (res_SeriesID qr) points)) results
  else Some results.

Definition ListMetrics (now : Z) (d : D) : list string :=
  omap (fun e => Tsdb.DecodeMetricNameKey e.1)
    (iter Tsdb.MetricNameKeyPrefix Tsdb.MetricNameKeyPrefix (kv_entries now d)).

Definition GetSeriesInfo (now : Z) (d : D) (seriesID : Z) : option SeriesInfo :=
  match kv_get now (Tsdb.EncodeSeriesKey seriesID) d with Some (VInfo info) => Some info | _ => None end.

Definition FindSeries (regexpCompile : string -> option (string -> bool)) (now : Z) (d : D)
    (matchers : list LabelMatcher) : result RegexpError (gset Z) :=
  findIDs Tsdb.prefixInverted regexpCompile now d matchers.
End store.

(** ** Sorting labels *)

Definition label_le (a b : Label) : Prop := String.leb (l_Name a) (l_Name b) = true.

Lemma insertLabel_sorted x ls : Sorted label_le ls -> Sorted label_le (insertLabel x ls).
Proof.
  induction 1 as [|y ls Hs IH Hd]; cbn [insertLabel]; [by repeat constructor|].
  destruct (String.leb (l_Name x) (l_Name y)) eqn:Hxy; [by repeat constructor|].
  assert (label_le y x) as Hyx.
  { unfold label_le. destruct (String.leb_total (l_Name x) (l_Name y)); congruence. }
  constructor; [done|]. destruct ls as [|z ls]; [by constructor|]. cbn [insertLabel].
  destruct (String.leb (l_Name x) (l_Name z)); constructor; [done|by inversion Hd].
Qed.

Lemma sortLabels_sorted ls : Sorted label_le (sortLabels ls).
Proof. induction ls as [|x ls IH]; [constructor|]. by apply insertLabel_sorted. Qed.

Lemma sortLabels_id ls : Sorted label_le ls -> sortLabels ls = ls.
Proof.
  induction 1 as [|x ls Hs IH Hd]; [done|]. unfold sortLabels. cbn [foldr]. fold (sortLabels ls). rewrite IH.
  destruct Hd as [|y ls Hxy]; [done|]. cbn [insertLabel]. by rewrite Hxy.
Qed.

Lemma sortLabels_idemp ls : sortLabels (sortLabels ls) = sortLabels ls.
Proof. apply sortLabels_id, sortLabels_sorted. Qed.

Lemma insertLabel_perm x ls : insertLabel x ls ≡ₚ x :: ls.
Proof.
  induction ls as [|y ls IH]; [done|]. cbn [insertLabel]. destruct (String.leb _ _); [done|].
  rewrite IH. apply Permutation_swap.
Qed.

Lemma sortLabels_perm ls : sortLabels ls ≡ₚ ls.
Proof.
  induction ls as [|x ls IH]; [done|]. unfold sortLabels. cbn [foldr]. fold (sortLabels ls).
  by rewrite insertLabel_perm, IH.
Qed.

(** Sorting the labels in place does not change the series. *)
Lemma SeriesID_sorted n t ls ts v : SeriesID (mkPoint n t (sortLabels ls) ts v) = SeriesID (mkPoint n t ls ts v).
Proof. unfold SeriesID, Canonical. simpl. by rewrite sortLabels_idemp. Qed.

Lemma fnv64a_u64 bs : is_u64 (fnv64a bs).
Proof.
  unfold fnv64a. assert (is_u64 fnv_offset) as H0 by done. revert H0. generalize fnv_offset.
  induction bs as [|b bs IH]; intros h Hh; [done|]. cbn [foldl]. apply IH. apply u64_range.
Qed.

Lemma SeriesID_u64 dp : is_u64 (SeriesID dp).
Proof. apply fnv64a_u64. Qed.

(** ** What a history of writes leaves in the database *)

Definition points_of (hist : list (Z * list DataPoint)) : list DataPoint := concat hist.*2.

Definition entries_of (retention : Z) (points : list DataPoint) : list (list Z * Value * Z) :=
  concat (pointEntries retention <$> points).

Lemma entries_of_app retention a b : entries_of retention (a ++ b) = entries_of retention a ++ entries_of retention b.
Proof. unfold entries_of. by rewrite fmap_app, concat_app. Qed.

Lemma pointEntries_ttl retention dp : Forall (fun e => retention <= e.2) (pointEntries retention dp).
Proof.
  unfold pointEntries. cbv zeta. rewrite !Forall_app, !Forall_cons, !Forall_nil, Forall_fmap.
  split_and!; simpl; try lia; [|unfold Hour, Minute, Second; lia]. apply Forall_true. simpl. lia.
Qed.

Lemma entries_of_ttl retention points : Forall (fun e => retention <= e.2) (entries_of retention points).
Proof. unfold entries_of. apply Forall_concat, Forall_fmap, Forall_true. apply pointEntries_ttl. Qed.

Lemma batch_entries_points retention hist :
  batch_entries (entries_of retention) hist = entries_of retention (points_of hist).
Proof.
  induction hist as [|[now points] hist IH]; [done|]. unfold batch_entries, points_of in *. csimpl.
  by rewrite entries_of_app, IH.
Qed.

(** ** Data points by key *)

Definition matches_point (sid ts : Z) (dp : DataPoint) : Prop :=
  SeriesID dp = sid /\ dp_Timestamp dp = ts.
#[global] Instance matches_point_dec sid ts dp : Decision (matches_point sid ts dp).
Proof. unfold matches_point. apply _. Defined.

(** The value of the last point written for a series and a time. *)
Definition last_value (points : list DataPoint) (sid ts : Z) : option float64 :=
  dp_Value <$> last (filter (matches_point sid ts) points).

Lemma encodeIDTime_inj p id id' ts ts' :
  is_u64 id -> is_u64 id' -> is_s64 ts -> is_s64 ts' ->
  encodeIDTime p id ts = encodeIDTime p id' ts' -> id = id' /\ ts = ts'.
Proof.
  intros H1 H2 H3 H4 E. pose proof (decode_encodeIDTime p id ts H1 H3) as Ha.
  rewrite E, decode_encodeIDTime in Ha by done. by simplify_eq.
Qed.

Lemma pointEntries_shape retention dp e :
  e ∈ pointEntries retention dp ->
  (e = (Tsdb.EncodeDataPointKey (SeriesID dp) (dp_Timestamp dp), VBytes (EncodeFloat64 (dp_Value dp)), retention))
  \/ (e.1.1 = Tsdb.EncodeSeriesKey (SeriesID dp))
  \/ (exists l, l ∈ mkLabel "__name__" (dp_Name dp) :: dp_Labels dp /\
        e = (Tsdb.EncodeInvertedKey (l_Name l) (l_Value l) (SeriesID dp), VNil, retention))
  \/ (e.1.1 = Tsdb.EncodeMetricNameKey (dp_Name dp)).
Proof.
  unfold pointEntries. cbv zeta. rewrite SeriesID_sorted. destruct dp as [n t ls ts v]. cbn [dp_Name dp_Type dp_Labels dp_Timestamp dp_Value].
  rewrite !elem_of_app, !elem_of_cons, list_elem_of_fmap, !elem_of_nil.
  intros [[->|[->|[->|[]]]]|[(l & -> & Hl)|[->|[]]]]; [by left|by right; left| | |by do 3 right].
  - right; right; left. exists (mkLabel "__name__" n). split; [by left|done].
  - right; right; left. exists l. split; [|done]. right. by rewrite <-sortLabels_perm.
Qed.

Lemma pointEntries_elem retention dp :
  (Tsdb.EncodeDataPointKey (SeriesID dp) (dp_Timestamp dp), VBytes (EncodeFloat64 (dp_Value dp)), retention)
    ∈ pointEntries retention dp /\
  (forall l, l ∈ mkLabel "__name__" (dp_Name dp) :: dp_Labels dp ->
     (Tsdb.EncodeInvertedKey (l_Name l) (l_Value l) (SeriesID dp), VNil, retention) ∈ pointEntries retention dp).
Proof.
  unfold pointEntries. cbv zeta. rewrite SeriesID_sorted. destruct dp as [n t ls ts v]. cbn [dp_Name dp_Type dp_Labels dp_Timestamp dp_Value].
  split; [by left|]. intros l [->|Hl]%elem_of_cons; [by do 2 right; left|].
  rewrite !elem_of_app. right; left. apply list_elem_of_fmap. exists l. split; [done|]. by rewrite sortLabels_perm.
Qed.

Section data_keys.
Context (retention : Z).
#[local] Set Default Proof Using "Type".

Lemma data_entries dp sid ts :
  is_u64 sid -> is_s64 ts -> is_s64 (dp_Timestamp dp) ->
  last_entry (Tsdb.EncodeDataPointKey sid ts) (pointEntries retention dp) =
    if decide (matches_point sid ts dp) then Some (VBytes (EncodeFloat64 (dp_Value dp))) else None.
Proof.
  intros Hs Ht Hd. unfold last_entry.
  destruct (last (filter (fun e => e.1.1 = Tsdb.EncodeDataPointKey sid ts) (pointEntries retention dp)))
    as [e|] eqn:Hl.
  - apply last_Some_elem_of, list_elem_of_filter in Hl as [He Hin].
    apply pointEntries_shape in Hin as [->|[Hk|[(l & _ & ->)|Hk]]]; try (rewrite Hk in He; discriminate He); [|discriminate He].
    simpl in He |- *. apply encodeIDTime_inj in He as [? ?]; [|apply SeriesID_u64|done..].
    rewrite decide_True by by split. done.
  - apply last_None, filter_nil_Forall in Hl. rewrite decide_False; [done|]. intros [<- <-].
    rewrite Forall_forall in Hl. by destruct (Hl _ (proj1 (pointEntries_elem retention dp))).
Qed.

Lemma last_entry_points points sid ts :
  is_u64 sid -> is_s64 ts -> Forall (fun dp => is_s64 (dp_Timestamp dp)) points ->
  last_entry (Tsdb.EncodeDataPointKey sid ts) (entries_of retention points) =
    (fun v => VBytes (EncodeFloat64 v)) <$> last_value points sid ts.
Proof.
  intros Hs Ht. induction points as [|dp points IH] using rev_ind; [done|].
  rewrite Forall_app, Forall_singleton. intros [Hp Hd]. rewrite entries_of_app, last_entry_app.
  assert (entries_of retention [dp] = pointEntries retention dp) as ->
    by (unfold entries_of; cbn; by rewrite app_nil_r).
  rewrite data_entries by done. unfold last_value. rewrite filter_app, filter_cons, last_app.
  case_decide; [done|]. by rewrite IH.
Qed.

(** The record of a series: that of the last point written for it. *)
Definition series_info (points : list DataPoint) (sid : Z) : option SeriesInfo :=
  (fun dp => mkInfo (dp_Name dp) (dp_Type dp) (Labels_Map (sortLabels (dp_Labels dp)))) <$>
  last (filter (fun dp => SeriesID dp = sid) points).

Lemma series_entries dp sid :
  is_u64 sid ->
  last_entry (Tsdb.EncodeSeriesKey sid) (pointEntries retention dp) = VInfo <$> series_info [dp] sid.
Proof.
  intros Hs. unfold last_entry, pointEntries, series_info. cbv zeta.
  rewrite SeriesID_sorted. destruct dp as [n t ls ts v]. cbn [dp_Name dp_Type dp_Labels dp_Timestamp dp_Value].
  set (sid' := SeriesID _). rewrite !filter_app, !last_app.
  assert (filter (fun e : list Z * Value * Z => e.1.1 = Tsdb.EncodeSeriesKey sid)
    ((fun l => (Tsdb.EncodeInvertedKey (l_Name l) (l_Value l) sid', VNil, retention)) <$> sortLabels ls) = []) as ->.
  { apply filter_nil_Forall, Forall_fmap, Forall_true. intros l He. discriminate He. }
  rewrite !filter_cons. rewrite (decide_False (P := (_, _).1.1 = _)) by discriminate. cbn [filter list_filter last].
  rewrite (decide_False (P := (_, _).1.1 = _)) by discriminate. unfold sid'.
  destruct (decide (SeriesID (mkPoint n t ls ts v) = sid)) as [<-|Hne].
  - rewrite decide_True by done. rewrite decide_False by discriminate. done.
  - rewrite decide_False. { rewrite decide_False by discriminate. done. }
    cbn [fst]. intros E. apply Hne. pose proof (decode_encodeID Tsdb.prefixSeries sid Hs) as Hd.
    unfold Tsdb.EncodeSeriesKey in E. rewrite <-E, decode_encodeID in Hd by apply SeriesID_u64. by simplify_eq.
Qed.

Lemma series_info_snoc points dp sid :
  series_info (points ++ [dp]) sid = match series_info [dp] sid with Some i => Some i | None => series_info points sid end.
Proof. unfold series_info. rewrite filter_app, last_app. rewrite filter_cons. by case_decide. Qed.

Lemma last_info_points points sid :
  is_u64 sid -> last_entry (Tsdb.EncodeSeriesKey sid) (entries_of retention points) = VInfo <$> series_info points sid.
Proof.
  intros Hs. induction points as [|dp points IH] using rev_ind; [done|].
  rewrite entries_of_app, last_entry_app, series_info_snoc.
  assert (entries_of retention [dp] = pointEntries retention dp) as ->
    by (unfold entries_of; cbn; by rewrite app_nil_r).
  rewrite series_entries, IH by done. by destruct (series_info [dp] sid).
Qed.

Lemma entries_of_elem points e :
  e ∈ entries_of retention points <-> exists dp, dp ∈ points /\ e ∈ pointEntries retention dp.
Proof.
  unfold entries_of. rewrite list_elem_of_In, in_concat. setoid_rewrite <-list_elem_of_In.
  setoid_rewrite list_elem_of_fmap. naive_solver.
Qed.

End data_keys.

(** ** Scanning the points of a series *)

Lemma decodedPoint_encode sid ts :
  is_u64 sid -> is_s64 ts -> decodedPoint (Tsdb.EncodeDataPointKey sid ts) = Some (sid, ts).
Proof. intros. unfold decodedPoint, Tsdb.DecodeDataPointKey. by rewrite decode_encodeIDTime. Qed.

Lemma DecodeFloat64_encode f : is_float f -> DecodeFloat64 (EncodeFloat64 f) = f.
Proof.
  intros Hf. unfold DecodeFloat64, EncodeFloat64. rewrite be_val_bytes, Z.mod_small.
  - by apply Float64_roundtrip.
  - by apply Float64bits_range.
Qed.

Lemma data_entry_inj sid ts ts' f f' :
  is_u64 sid -> is_s64 ts -> is_s64 ts' -> is_float f -> is_float f' ->
  (Tsdb.EncodeDataPointKey sid ts, VBytes (EncodeFloat64 f))
    = (Tsdb.EncodeDataPointKey sid ts', VBytes (EncodeFloat64 f')) -> ts = ts' /\ f = f'.
Proof.
  intros Hs Ht Ht' Hf Hf' E. split.
  - apply (f_equal fst) in E. by apply encodeIDTime_inj in E as [_ ?].
  - apply (f_equal (fun e => match e.2 with VBytes bs => DecodeFloat64 bs | _ => fnan end)) in E.
    cbn [snd] in E. by rewrite !DecodeFloat64_encode in E.
Qed.

(** An entry that is a data point of the series, from the epoch on. *)
Definition series_entry (sid : Z) (e : list Z * Value) : Prop :=
  exists ts f, e = (Tsdb.EncodeDataPointKey sid ts, VBytes (EncodeFloat64 f)) /\ 0 <= ts < 2 ^ 63 /\ is_float f.

Definition tv_lt (a b : TimeValue) : Prop := tv_TimestampMs a < tv_TimestampMs b.

Lemma collectPoints_spec sid endMs es :
  is_u64 sid -> StronglySorted (fun a b => key_lt a.1 b.1) es -> Forall (series_entry sid) es ->
  StronglySorted tv_lt (collectPoints endMs es) /\
  (forall ts f, 0 <= ts < 2 ^ 63 -> is_float f ->
     mkTV ts f ∈ collectPoints endMs es <->
     ts <= endMs /\ (Tsdb.EncodeDataPointKey sid ts, VBytes (EncodeFloat64 f)) ∈ es) /\
  Forall (fun p => 0 <= tv_TimestampMs p < 2 ^ 63 /\ is_float (tv_Value p)) (collectPoints endMs es).
Proof.
  intros Hs. induction 1 as [|e es Hsort IH Hf]; intros He.
  - split_and!; [constructor| |constructor]. intros ts f _ _. rewrite !elem_of_nil. tauto.
  - apply Forall_cons in He as [(t0 & f0 & -> & Ht0 & Hf0) He]. destruct (IH He) as (IH1 & IH2 & IH3).
    assert (forall ts f, 0 <= ts < 2 ^ 63 ->
      (Tsdb.EncodeDataPointKey sid ts, VBytes (EncodeFloat64 f)) ∈ es -> t0 < ts) as Hlt.
    { intros ts f Hts Hin. rewrite Forall_forall in Hf. specialize (Hf _ Hin).
      assert (lex_lt (encodeIDTime Tsdb.prefixDataPoint sid t0) (encodeIDTime Tsdb.prefixDataPoint sid ts) = true)
        as Hk by exact Hf.
      rewrite encodeIDTime_lt in Hk by lia. by apply Z.ltb_lt in Hk. }
    cbn [collectPoints]. rewrite decodedPoint_encode by (done || unfold is_s64; lia).
    replace (zlen (EncodeFloat64 f0) =? 8) with true by (unfold EncodeFloat64; by rewrite length_be_bytes).
    destruct (Z.ltb_spec endMs t0) as [Hlt0|Hge].
    + split_and!; [constructor| |constructor]. intros ts f Hts Hff. split; [by intros ?%elem_of_nil|].
      intros [Hle Hin]. apply elem_of_cons in Hin as [E|Hin].
      * apply data_entry_inj in E as [-> _]; [lia|done|unfold is_s64; lia|unfold is_s64; lia|done..].
      * specialize (Hlt ts f Hts Hin). lia.
    + rewrite DecodeFloat64_encode by done. split_and!.
      * constructor; [done|]. rewrite Forall_forall. intros [ts f] Hin.
        rewrite Forall_forall in IH3. destruct (IH3 _ Hin) as [Hts Hff]. simpl in Hts, Hff.
        apply IH2 in Hin as [_ Hin]; [|done..]. unfold tv_lt. simpl. by eapply Hlt.
      * intros ts f Hts Hff. rewrite !elem_of_cons, IH2 by done. split.
        -- intros [[= -> ->]|[? ?]]; [split; [lia|by left]|split; [done|by right]].
        -- intros [Hle [E|Hin]]; [left|by right].
           by apply data_entry_inj in E as [-> ->]; [|done|unfold is_s64; lia|unfold is_s64; lia|done..].
      * by constructor.
Qed.

(** A written history: its entries as they are found at a time when none expired. *)
Section written.
Context {D : Type} `{KVLaws Value D} (retention : Z).
Context (hist : list (Z * list DataPoint)) (d : D) (t : Z).
Context (Hw : writeBatches (Write retention) hist kv_empty = Some d) (Hl : batches_live retention t hist).
#[local] Set Default Proof Using "All".

Lemma written_get k : kv_get t k d = last_entry k (entries_of retention (points_of hist)).
Proof.
  rewrite (writeBatches_get (Write retention) retention (entries_of retention) t hist _ _ k (fun _ _ _ => eq_refl)
    (entries_of_ttl retention) Hw Hl), kv_get_empty, batch_entries_points.
  by destruct (last_entry _ _).
Qed.

Lemma written_info sid : is_u64 sid -> GetSeriesInfo t d sid = series_info (points_of hist) sid.
Proof. intros Hs. unfold GetSeriesInfo. rewrite written_get, last_info_points by done. by destruct (series_info _ _). Qed.

Lemma written_entry k v :
  (k, v) ∈ kv_entries t d -> exists dp e, dp ∈ points_of hist /\ e ∈ pointEntries retention dp /\ e.1 = (k, v).
Proof. rewrite kv_entries_get, written_get. intros [ttl Hin]%last_entry_elem.
  apply entries_of_elem in Hin as (dp & Hdp & Hin). by exists dp, (k, v, ttl). Qed.

(** The label index holds the labels of the points, the metric name as [__name__]. *)
Definition point_triples (n w : string) (id : Z) : Prop :=
  exists dp l, dp ∈ points_of hist /\ SeriesID dp = id /\
    l ∈ mkLabel "__name__" (dp_Name dp) :: dp_Labels dp /\ n = l_Name l /\ w = l_Value l.

Lemma written_index : index_is Tsdb.prefixInverted t d point_triples.
Proof.
  split.
  - intros k v Hin Hp. apply written_entry in Hin as (dp & [[k' v'] ttl] & Hdp & He & [= -> ->]).
    apply pointEntries_shape in He as [E|[E|[(l & Hin & E)|E]]]; simpl in E.
    + injection E as -> _. by apply prefix_cons_inv_1 in Hp.
    + subst. by apply prefix_cons_inv_1 in Hp.
    + injection E as -> -> _. exists (l_Name l), (l_Value l), (SeriesID dp). split; [|done]. by exists dp, l.
    + subst. by apply prefix_cons_inv_1 in Hp.
  - intros n w id (dp & l & Hdp & <- & Hin & -> & ->).
    pose proof (proj2 (pointEntries_elem retention dp) l Hin) as He.
    assert (forall e, e ∈ pointEntries retention dp -> e ∈ entries_of retention (points_of hist)) as Hsub.
    { intros e ?. apply entries_of_elem. eauto. }
    apply Hsub in He. pose proof (writeBatches_size (Write retention) (entries_of retention) hist _ _ (fun _ _ _ => eq_refl) Hw) as Hsz.
    rewrite batch_entries_points in Hsz.
    rewrite Forall_forall in Hsz. specialize (Hsz _ He). cbn [fst] in Hsz.
    assert (zlen (bytes_of (l_Name l)) + zlen (bytes_of (l_Value l)) <= 65000).
    { unfold Tsdb.EncodeInvertedKey, encodeInverted in Hsz. cbn [length] in Hsz. rewrite !length_app in Hsz.
      pose proof (length_encodeText (l_Name l)). pose proof (length_encodeText (l_Value l)). lia. }
    split_and!; [unfold short; lia|unfold short; lia|apply SeriesID_u64|].
    destruct (last_entry_is_Some _ _ He) as [v Hv]. exists v.
    apply kv_entries_get. by rewrite written_get.
Qed.
End written.

(** ** Buckets *)

(** The number of bucket starts from [startMs] to [endMs]. *)
Definition bucket_count (startMs endMs stepMs : Z) : Z :=
  if endMs <? startMs then 0 else (endMs - startMs) / stepMs + 1.

(** The point a bucket yields: its start and the mean of its points, if it has any. *)
Definition bucket_point (points : list TimeValue) (stepMs b : Z) : option TimeValue :=
  let '(sum, count) := bucket points b (b + stepMs) in
  if 0 <? count then Some (mkTV b (fdiv sum (of_int count))) else None.

Lemma s64_small x : is_s64 x -> s64 x = x.
Proof. unfold is_s64, s64. intros. rewrite Z.mod_small; lia. Qed.

Lemma bucket_count_step b endMs stepMs :
  0 < stepMs -> b <= endMs -> bucket_count b endMs stepMs = 1 + bucket_count (b + stepMs) endMs stepMs.
Proof.
  intros Hs Hb. unfold bucket_count. rewrite (proj2 (Z.ltb_ge endMs b)) by lia.
  destruct (Z.ltb_spec endMs (b + stepMs)).
  - rewrite Z.div_small by lia. done.
  - replace (endMs - b) with (endMs - (b + stepMs) + 1 * stepMs) by lia. rewrite Z.div_add by lia.
    by rewrite Z.add_comm.
Qed.

Lemma bucket_count_nonneg b endMs stepMs : 0 < stepMs -> 0 <= bucket_count b endMs stepMs.
Proof.
  intros. unfold bucket_count. destruct (Z.ltb_spec endMs b); [done|].
  pose proof (Z.div_pos (endMs - b) stepMs). lia.
Qed.

Lemma downsampleLoop_spec fuel points b endMs stepMs :
  0 < stepMs -> - 2 ^ 63 <= b -> endMs + stepMs < 2 ^ 63 ->
  bucket_count b endMs stepMs < Z.of_nat fuel ->
  downsampleLoop fuel points b endMs stepMs =
    Some (omap (bucket_point points stepMs) ((fun i => b + i * stepMs) <$> seqZ 0 (bucket_count b endMs stepMs))).
Proof.
  intros Hs. revert b. induction fuel as [|fuel IH]; intros b Hb He Hf.
  { pose proof (bucket_count_nonneg b endMs stepMs Hs). lia. }
  cbn [downsampleLoop]. destruct (Z.leb_spec b endMs) as [Hle|Hgt].
  - rewrite s64_small by (unfold is_s64; lia). rewrite bucket_count_step in Hf |- * by done.
    pose proof (bucket_count_nonneg (b + stepMs) endMs stepMs Hs) as Hn.
    rewrite IH by lia. destruct (bucket points b (b + stepMs)) as [sum count] eqn:Hbk.
    cbn [mbind option_bind]. f_equal. rewrite (seqZ_cons 0 (1 + _)) by lia. csimpl.
    rewrite Z.add_0_r.
    assert (bucket_point points stepMs b = if 0 <? count then Some (mkTV b (fdiv sum (of_int count))) else None)
      as -> by (unfold bucket_point; by rewrite Hbk).
    assert ((fun i => b + stepMs + i * stepMs) <$> seqZ 0 (bucket_count (b + stepMs) endMs stepMs) =
            (fun i => b + i * stepMs) <$> seqZ (Z.succ 0) (Z.pred (1 + bucket_count (b + stepMs) endMs stepMs))) as ->.
    { change (Z.succ 0) with (1 + 0). rewrite <-(fmap_add_seqZ 1 0), <-list_fmap_compose.
      replace (Z.pred _) with (bucket_count (b + stepMs) endMs stepMs) by lia.
      apply list_fmap_ext. intros _ i _. simpl. lia. }
    by destruct (0 <? count).
  - unfold bucket_count. by rewrite (proj2 (Z.ltb_lt endMs b)) by lia.
Qed.

(** The points of one series in a range. *)
Lemma querySeries_spec {D} `{KVLaws Value D} retention hist (d : D) t sid startMs endMs :
  writeBatches (Write retention) hist kv_empty = Some d -> batches_live retention t hist ->
  Forall (fun dp => 0 <= dp_Timestamp dp < 2 ^ 63 /\ is_float (dp_Value dp)) (points_of hist) ->
  is_u64 sid -> 0 <= startMs < 2 ^ 63 ->
  let pts := res_Points (querySeries t d startMs endMs sid) in
  StronglySorted tv_lt pts /\
  forall ts v, mkTV ts v ∈ pts <->
    startMs <= ts <= endMs /\ last_value (points_of hist) sid ts = Some v.
Proof.
  intros Hw Hl Hpts Hsid Hstart pts. unfold pts, querySeries. cbn [res_Points].
  set (es := iter _ _ _). rewrite Forall_forall in Hpts.
  assert (Forall (series_entry sid) es) as Hes.
  { apply Forall_forall. intros [k v] Hin. unfold es, iter in Hin. apply list_elem_of_filter in Hin as [[Hp _] Hin].
    eapply written_entry in Hin as (dp & [[k' v'] ttl] & Hdp & He & [= -> ->]); [|done|done]. simpl in Hp.
    destruct (Hpts _ Hdp) as [Hts Hf].
    apply pointEntries_shape in He as [E|[E|[(l & _ & E)|E]]]; simpl in E; [|subst| |subst]; [|by apply prefix_cons_inv_1 in Hp| |by apply prefix_cons_inv_1 in Hp].
    2: { injection E as -> _ _. by apply prefix_cons_inv_1 in Hp. }
    injection E as -> -> _. exists (dp_Timestamp dp), (dp_Value dp). split_and!; [|lia|lia|done]. f_equal.
    apply (bool_decide_eq_true (_ `prefix_of` _)), encodeID_prefix_spec in Hp; [by subst|done|apply SeriesID_u64]. }
  destruct (collectPoints_spec sid endMs es Hsid) as (H1 & H2 & H3); [|done|].
  { apply StronglySorted_filter. apply kv_entries_sorted. }
  split; [done|]. intros ts v. rewrite Forall_forall in H3.
  assert (forall ts v, last_value (points_of hist) sid ts = Some v -> 0 <= ts < 2 ^ 63 /\ is_float v) as Hrange.
  { intros ts' v' Hv. unfold last_value in Hv. apply fmap_Some in Hv as (dp & Hdp & ->).
    apply last_Some_elem_of, list_elem_of_filter in Hdp as [[_ <-] Hdp]. by apply Hpts. }
  assert (forall ts v, 0 <= ts < 2 ^ 63 -> is_float v ->
    (Tsdb.EncodeDataPointKey sid ts, VBytes (EncodeFloat64 v)) ∈ kv_entries t d <->
    last_value (points_of hist) sid ts = Some v) as Hlast.
  { intros ts' v' Hts' Hv'. rewrite kv_entries_get, (written_get retention hist d t Hw Hl).
    rewrite last_entry_points; [|done|unfold is_s64; lia|].
    - split; [|by intros ->]. rewrite fmap_Some. intros (v0 & Hv0 & E). rewrite Hv0. f_equal.
      destruct (Hrange _ _ Hv0) as [_ Hf0].
      apply (f_equal (fun x => match x with VBytes bs => DecodeFloat64 bs | _ => fnan end)) in E.
      cbv beta iota in E. by rewrite !DecodeFloat64_encode in E.
    - apply Forall_forall. intros dp Hdp. destruct (Hpts _ Hdp). unfold is_s64. lia. }
  assert (forall ts v, 0 <= ts < 2 ^ 63 ->
    (Tsdb.EncodeDataPointKey sid ts, VBytes (EncodeFloat64 v)) ∈ es <->
    startMs <= ts /\ (Tsdb.EncodeDataPointKey sid ts, VBytes (EncodeFloat64 v)) ∈ kv_entries t d) as Hines.
  { intros ts' v' Hts'. unfold es, iter. rewrite list_elem_of_filter. cbn [fst].
    unfold Tsdb.DataPointKeyRangeStart, Tsdb.EncodeDataPointKey.
    rewrite encodeIDTime_lt by done. rewrite Z.ltb_ge. split; [tauto|]. intros [? ?]. split_and!; [|done|done].
    apply (bool_decide_eq_true (_ `prefix_of` _)). by apply encodeID_prefix_spec. }
  split.
  - intros Hin. destruct (H3 _ Hin) as [Hts Hv]. simpl in Hts, Hv.
    apply H2 in Hin as [Hle Hin]; [|done..]. apply Hines in Hin as [Hge Hin]; [|done].
    split; [lia|]. by apply Hlast.
  - intros [Hr Hv]. destruct (Hrange _ _ Hv) as [Hts Hf]. apply H2; [done..|]. split; [lia|].
    apply Hines; [done|]. split; [lia|]. by apply Hlast.
Qed.

(** ** Properties *)

(** [FindSeries] is exact. After any history of successful writes, while nothing
    has expired, it returns the ids of exactly those series that carry, for every
    matcher, a label of that name (the metric name counts as [__name__]) whose value
    passes the matcher's test; the length-prefixed index keys never let one label be
    taken for another. *)
Theorem FindSeries_correct {D} `{KVLaws Value D} regexpCompile retention hist (d : D) t ms :
  writeBatches (Write retention) hist kv_empty = Some d -> batches_live retention t hist ->
  ms <> [] -> Forall (matcher_ok regexpCompile) ms ->
  exists ids, FindSeries regexpCompile t d ms = Ok ids /\
    forall sid, sid ∈ ids <->
      Forall (fun m => exists dp l, dp ∈ points_of hist /\ SeriesID dp = sid /\
        l ∈ mkLabel "__name__" (dp_Name dp) :: dp_Labels dp /\ l_Name l = lm_Name m /\
        label_test regexpCompile m (l_Value l) = true) ms.
Proof.
  intros Hw Hl Hne Hms.
  destruct (findIDs_spec Tsdb.prefixInverted regexpCompile t d (point_triples hist) ms) as (ids & Hids & Hspec);
    [by eapply written_index|done|done|].
  exists ids. split; [done|]. intros sid. rewrite Hspec, !Forall_forall.
  split; intros Hall m Hm; specialize (Hall m Hm).
  - destruct Hall as (w & (dp & l & Hdp & Hsid & Hin & Hn & ->) & Ht). by exists dp, l.
  - destruct Hall as (dp & l & Hdp & Hsid & Hin & Hn & Ht). exists (l_Value l).
    split; [|done]. by exists dp, l.
Qed.

(** C8 A raw query is exact. After any history of successful writes of points from the
    epoch on, while nothing has expired, a query without a step returns for each
    requested series exactly the last value written at each timestamp in the inclusive
    range, in order of time, bit for bit. *)
Theorem Query_exact {D} `{KVLaws Value D} fuel retention hist (d : D) t req :
  writeBatches (Write retention) hist kv_empty = Some d -> batches_live retention t hist ->
  Forall (fun dp => 0 <= dp_Timestamp dp < 2 ^ 63 /\ is_float (dp_Value dp)) (points_of hist) ->
  0 <= UnixMilli (qr_Start req) < 2 ^ 63 -> qr_Step req <= 0 -> Forall is_u64 (qr_SeriesIDs req) ->
  exists rs, Query fuel t d req = Some rs /\
    Forall (fun r => StronglySorted tv_lt (res_Points r)) rs /\
    forall sid ts v, sid ∈ qr_SeriesIDs req ->
      (exists r, r ∈ rs /\ res_SeriesID r = sid /\ mkTV ts v ∈ res_Points r) <->
      UnixMilli (qr_Start req) <= ts <= UnixMilli (qr_End req) /\
      last_value (points_of hist) sid ts = Some v.
Proof.
  intros Hw Hl Hpts Hstart Hstep Hids. exists (queryRaw t d req). split.
  { unfold Query. by rewrite (proj2 (Z.ltb_ge 0 _)) by lia. }
  rewrite Forall_forall in Hids. unfold queryRaw. split.
  - apply Forall_filter_weaken, Forall_fmap, Forall_forall. intros sid Hsid. simpl.
    by destruct (querySeries_spec retention hist d t sid (UnixMilli (qr_Start req)) (UnixMilli (qr_End req)) Hw Hl Hpts
      (Hids sid Hsid) Hstart).
  - intros sid ts v Hsid. pose proof (Hids sid Hsid) as Hu.
    destruct (querySeries_spec retention hist d t sid (UnixMilli (qr_Start req)) (UnixMilli (qr_End req)) Hw Hl Hpts Hu Hstart)
      as [_ Hspec]. rewrite <-Hspec. split.
    + intros (r & Hr & <- & Hin). apply list_elem_of_filter in Hr as [_ Hr].
      apply list_elem_of_fmap in Hr as (sid' & -> & _). done.
    + intros Hin. eexists. split; [|split; [|exact Hin]]; [|done]. apply list_elem_of_filter. split.
      * destruct (res_Points _); [by apply elem_of_nil in Hin|]. simpl. lia.
      * apply list_elem_of_fmap. eauto.
Qed.

(** Aggregation into steps terminates and counts every point once. For a step of at
    least a millisecond and a range inside the clock, the loop makes one pass per
    bucket and returns the mean of each bucket that has points, in order; the buckets
    [start + i * step] cover every point of the range exactly once. *)
Theorem downsample_correct fuel points startMs endMs step :
  0 < Milliseconds step -> - 2 ^ 63 <= startMs -> endMs + Milliseconds step < 2 ^ 63 ->
  bucket_count startMs endMs (Milliseconds step) < Z.of_nat fuel ->
  downsample fuel points startMs endMs step =
    Some (omap (bucket_point points (Milliseconds step))
      ((fun i => startMs + i * Milliseconds step) <$> seqZ 0 (bucket_count startMs endMs (Milliseconds step)))) /\
  Forall (fun p => startMs <= tv_TimestampMs p <= endMs ->
    exists! i, 0 <= i < bucket_count startMs endMs (Milliseconds step) /\
      startMs + i * Milliseconds step <= tv_TimestampMs p < startMs + i * Milliseconds step + Milliseconds step) points.
Proof.
  intros Hs Hb He Hf. set (w := Milliseconds step) in *. split.
  - pose proof (downsampleLoop_spec fuel points startMs endMs w Hs Hb He Hf) as Hd.
    unfold downsample. fold w. destruct points as [|p points]; [|exact Hd]. f_equal. symmetry.
    induction (seqZ _ _) as [|i l IH]; [done|]. csimpl. by rewrite IH.
  - apply Forall_true. intros p Hp. unfold bucket_count. rewrite (proj2 (Z.ltb_ge _ _)) by lia.
    set (ts := tv_TimestampMs p) in *. exists ((ts - startMs) / w).
    pose proof (Z.div_mod (ts - startMs) w) as Hdm. pose proof (Z.mod_pos_bound (ts - startMs) w) as Hm.
    split.
    + assert (0 <= (ts - startMs) / w) by (apply Z.div_pos; lia).
      assert ((ts - startMs) / w <= (endMs - startMs) / w) by (apply Z.div_le_mono; lia). nia.
    + intros i (Hi & Hi2). symmetry. apply (Z.div_unique _ _ _ (ts - startMs - w * i)); [left|]; lia.
Qed.

(** ** Witnesses and gaps *)

Definition cpuPoint (host : string) (ts : Z) (v : Z) : DataPoint :=
  mkPoint "cpu" Gauge [mkLabel "host" host] ts (of_int v).

(** Two batches: three points of host a, one of them overwritten, and one of host b. *)
Definition demoHist : list (Z * list DataPoint) :=
  [(0, [cpuPoint "a" 1000 1; cpuPoint "a" 3000 3; cpuPoint "b" 1000 7]); (5, [cpuPoint "a" 2000 2; cpuPoint "a" 1000 9])].
Definition demoRetention : Z := 48 * Hour.

Definition demoDB : SortedDB Value :=
  default kv_empty (writeBatches (D := SortedDB Value) (Write demoRetention) demoHist kv_empty).
Lemma demoDB_written : writeBatches (Write demoRetention) demoHist kv_empty = Some demoDB.
Proof. by vm_compute. Qed.

(** No regular expression compiles in the witness. *)
Definition noRegexp (pattern : string) : option (string -> bool) := None.

Lemma FindSeries_correct_witness :
  exists ids, FindSeries noRegexp Second demoDB [mkMatcher "__name__" "cpu" MatchEqual; mkMatcher "host" "b" MatchNotEqual]
    = Ok ids /\ SeriesID (cpuPoint "a" 0 0) ∈ ids.
Proof.
  destruct (FindSeries_correct noRegexp demoRetention demoHist demoDB Second
    [mkMatcher "__name__" "cpu" MatchEqual; mkMatcher "host" "b" MatchNotEqual]) as (ids & Hids & Hspec).
  - exact demoDB_written.
  - by repeat constructor; vm_compute.
  - done.
  - by repeat constructor; vm_compute.
  - exists ids. split; [done|]. apply Hspec. repeat constructor; exists (cpuPoint "a" 1000 1).
    + exists (mkLabel "__name__" "cpu"). split_and!; [by left|by vm_compute|by left|done|by vm_compute].
    + exists (mkLabel "host" "a"). split_and!; [by left|by vm_compute|by right; left|done|by vm_compute].
Defined.

Definition demoQuery (step : Z) : QueryRequest :=
  mkQuery [SeriesID (cpuPoint "a" 0 0)] 0 (2500 * 1000000) step.

Lemma Query_exact_witness :
  Query 0 Second demoDB (demoQuery 0) =
    Some [mkQR (SeriesID (cpuPoint "a" 0 0)) [mkTV 1000 (of_int 9); mkTV 2000 (of_int 2)]] /\
  exists r, r ∈ default [] (Query 0 Second demoDB (demoQuery 0)) /\ mkTV 1000 (of_int 9) ∈ res_Points r.
Proof.
  split; [by vm_compute|].
  destruct (Query_exact 0 demoRetention demoHist demoDB Second (demoQuery 0)) as (rs & -> & _ & Hspec).
  - exact demoDB_written.
  - by repeat constructor; vm_compute.
  - by repeat constructor; vm_compute.
  - by vm_compute.
  - by vm_compute.
  - by repeat constructor; vm_compute.
  - destruct (proj2 (Hspec (SeriesID (cpuPoint "a" 0 0)) 1000 (of_int 9) ltac:(by left))) as (r & Hr & _ & Hin).
    + by vm_compute.
    + by exists r.
Defined.

Lemma downsample_correct_witness :
  downsample 5 [mkTV 100 (of_int 1); mkTV 900 (of_int 3); mkTV 2100 (of_int 8)] 0 2500 Second =
    Some [mkTV 0 (of_int 2); mkTV 2000 (of_int 8)].
Proof.
  destruct (downsample_correct 5 [mkTV 100 (of_int 1); mkTV 900 (of_int 3); mkTV 2100 (of_int 8)] 0 2500 Second)
    as [-> _]; [by vm_compute..|].
  by vm_compute.
Defined.

(** A step below a millisecond is zero milliseconds: the loop never ends. *)
Lemma downsample_small_step_diverges fuel p points startMs endMs :
  is_s64 startMs -> startMs <= endMs -> downsample fuel (p :: points) startMs endMs 999999 = None.
Proof.
  intros Hs Hle. unfold downsample. change (Milliseconds 999999) with 0.
  induction fuel as [|fuel IH]; [done|]. cbn [downsampleLoop]. rewrite (proj2 (Z.leb_le _ _)) by lia.
  rewrite Z.add_0_r, s64_small by done. destruct (bucket _ _ _). by rewrite IH.
Qed.

(** A range that starts before the epoch seeks past every point. *)
Lemma negative_start_finds_nothing :
  Query 0 Second demoDB (mkQuery [SeriesID (cpuPoint "a" 0 0)] (-1) (2500 * 1000000) 0) = Some [].
Proof. by vm_compute. Qed.

(** Label values are not escaped in the canonical text: two label sets, one series. *)
Lemma canonical_collision :
  SeriesID (mkPoint "m" Gauge [mkLabel "a" "1,b=2"] 0 fzero) =
  SeriesID (mkPoint "m" Gauge [mkLabel "a" "1"; mkLabel "b" "2"] 0 fzero).
Proof. by vm_compute. Qed.
