(* ===== verification/MetricsAPI.v ===== *)
(** * Evaluating metric queries

    The range functions of [src/internal/controlplane/metrics/tsdb/functions.go] and the
    evaluation of parsed queries in [src/internal/controlplane/metrics/api.go], over the
    metrics store of [TsdbStore.v] and the parser of [PromQL.v]. A value is answered as
    the shortest text that is read back as the same float; the model keeps the float. *)

From stdpp Require Import options.
From Stdlib Require Import Ascii SpecFloat Sorting.Sorted.
From S2P Require Import Prelude GoStrings Words Float64 IndexKeys OrderedKV LabelIndex QueryLexer PromQL TsdbStore.
Open Scope Z_scope.

(** ** Range functions *)

Definition is_inf (f : float64) : bool := match f with S754_infinity _ => true | _ => false end.

(** [time.Duration.Seconds] *)
Definition Seconds (d : Z) : float64 :=
  fadd (of_int (Z.quot d Second)) (fdiv (of_int (Z.rem d Second)) (of_int Second)).

(** The increase between neighbours; a drop counts as a restart from zero. *)
Fixpoint totalIncrease (total : float64) (prev : float64) (points : list TimeValue) : float64 :=
  match points with
  | [] => total
  | p :: points =>
      let diff := fsub (tv_Value p) prev in
      totalIncrease (fadd total (if fleb fzero diff then diff else tv_Value p)) (tv_Value p) points
  end.

Definition ApplyRate (points : list TimeValue) (rangeDuration : Z) : list TimeValue :=
  match points with
  | p :: (_ :: _ as rest) =>
      let durationSec := Seconds rangeDuration in
      if feqb durationSec fzero then []
      else [mkTV (tv_TimestampMs (List.last points p)) (fdiv (totalIncrease fzero (tv_Value p) rest) durationSec)]
  | _ => []
  end.

Definition ApplyDelta (points : list TimeValue) : list TimeValue :=
  match points with
  | p :: _ :: _ =>
      let q := List.last points p in [mkTV (tv_TimestampMs q) (fsub (tv_Value q) (tv_Value p))]
  | _ => []
  end.

Definition ApplyIncrease (points : list TimeValue) (rangeDuration : Z) : list TimeValue :=
  match ApplyRate points rangeDuration with
  | [] => []
  | r :: _ => [mkTV (tv_TimestampMs r) (fmul (tv_Value r) (Seconds rangeDuration))]
  end.

Definition sumValues (values : list float64) : float64 := foldl fadd fzero values.

Definition ApplyAvgOverTime (points : list TimeValue) : float64 :=
  match points with
  | [] => fnan
  | _ => fdiv (sumValues (tv_Value <$> points)) (of_int (zlen points))
  end.
Definition ApplyMaxOverTime (points : list TimeValue) : float64 :=
  match points with
  | [] => fnan
  | p :: points => foldl (fun m q => if fltb m (tv_Value q) then tv_Value q else m) (tv_Value p) points
  end.
Definition ApplyMinOverTime (points : list TimeValue) : float64 :=
  match points with
  | [] => fnan
  | p :: points => foldl (fun m q => if fltb (tv_Value q) m then tv_Value q else m) (tv_Value p) points
  end.

(** *** Histograms *)

Record Bucket := mkBucket { bk_upperBound : float64; bk_count : float64 }.

(** [sort.Slice] by upper bound; the bounds of a map are distinct. *)
Fixpoint insertBucket (b : Bucket) (l : list Bucket) : list Bucket :=
  match l with
  | [] => [b]
  | c :: l => if fltb (bk_upperBound b) (bk_upperBound c) then b :: c :: l else c :: insertBucket b l
  end.
Definition sortBuckets (l : list Bucket) : list Bucket := foldr insertBucket [] l.

Fixpoint quantileLoop (rank prevCount prevBound : float64) (bs : list Bucket) : option float64 :=
  match bs with
  | [] => None
  | b :: bs =>
      if fleb rank (bk_count b) then
        let bucketCount := fsub (bk_count b) prevCount in
        if feqb bucketCount fzero then Some (bk_upperBound b)
        else
          let fraction := fdiv (fsub rank prevCount) bucketCount in
          Some (fadd prevBound (fmul fraction (fsub (bk_upperBound b) prevBound)))
      else quantileLoop rank (bk_count b) (bk_upperBound b) bs
  end.

Definition HistogramQuantile (q : float64) (buckets : list Bucket) : float64 :=
  match buckets with
  | [] => fnan
  | b0 :: _ =>
      if is_nan q || fltb q fzero || fltb (of_int 1) q then fnan
      else
        let sorted := sortBuckets buckets in
        let top := List.last sorted b0 in
        if feqb (bk_count top) fzero then fnan
        else default (bk_upperBound top) (quantileLoop (fmul q (bk_count top)) fzero fzero sorted)
  end.

(** *** Aggregation *)

Definition aggregateOp (op : string) (values : list float64) : option float64 :=
  if decide (op = "sum") then Some (sumValues values)
  else if decide (op = "avg") then Some (fdiv (sumValues values) (of_int (zlen values)))
  else if decide (op = "count") then Some (of_int (zlen values))
  else None.

Definition AggregateBy (op : string) (seriesGroups : gmap string (list float64)) : gmap string float64 :=
  omap (fun values => if decide (values = []) then None else aggregateOp op values) seriesGroups.

Definition applyFunction (name : string) (points : list TimeValue) (rangeDur : Z) : list TimeValue :=
  let over f :=
    if is_nan (f points) then []
    else match points with
         | [] => []
         | p :: _ => [mkTV (tv_TimestampMs (List.last points p)) (f points)]
         end in
  if decide (name = "rate") then ApplyRate points rangeDur
  else if decide (name = "delta") then ApplyDelta points
  else if decide (name = "increase") then ApplyIncrease points rangeDur
  else if decide (name = "avg_over_time") then over ApplyAvgOverTime
  else if decide (name = "max_over_time") then over ApplyMaxOverTime
  else if decide (name = "min_over_time") then over ApplyMinOverTime
  else [].

(** ** Matchers and labels *)

Definition buildMatchers (sel : Selector) : list LabelMatcher :=
  (if decide (sel_Name sel = "") then [] else [mkMatcher "__name__" (sel_Name sel) MatchEqual]) ++ sel_Matchers sel.

(** The labels of the series win over the name. *)
Definition buildMetricLabels (name : string) (labels : gmap string string) : gmap string string :=
  labels ∪ {["__name__" := name]}.

Definition buildGroupKey (metric : gmap string string) (by_ : list string) : string :=
  Join ((fun l => l +:+ "=" +:+ default "" (metric !! l)) <$> by_) ",".

(** The labels of a group. *)
Definition groupLabels (metric : gmap string string) (by_ : list string) : gmap string string :=
  list_to_map (omap (fun l => (fun v => (l, v)) <$> metric !! l) by_).

Definition selectorFromExpr (e : Expr) : Selector :=
  match e with
  | ExprSelector s => s
  | ExprFunction f => fn_Selector f
  | ExprAggregation a => ag_Selector a
  end.

Record VectorResult := mkVector { vr_Metric : gmap string string; vr_Value : TimeValue }.
Record MatrixResult := mkMatrix { mr_Metric : gmap string string; mr_Values : list TimeValue }.

Definition defaultRange : Z := 5 * Minute.
Definition rangeOf (fn : FunctionCall) : Z := if fn_Range fn =? 0 then defaultRange else fn_Range fn.

(** ** Evaluation *)

Inductive EvalError :=
  | EvalParse (e : ParseError)
  | EvalFind (e : RegexpError)
  | EvalStuck.

(** A group of an aggregation: its labels, its values and its latest time. *)
Record Group := mkGroup { gr_labels : gmap string string; gr_values : list float64; gr_ts : Z }.

(** The times of a range query; [None] when the fuel is used up. *)
Fixpoint stepTimes (fuel : nat) (t endT step : Z) : option (list Z) :=
  match fuel with
  | O => None
  | S fuel =>
      if endT <? t then Some []
      else rest ← stepTimes fuel (t + step) endT step; Some (t :: rest)
  end.

(** The last point at or before a time. *)
Definition latestAt (tMs : Z) (points : list TimeValue) : option float64 :=
  tv_Value <$> last (filter (fun p => tv_TimestampMs p <= tMs) points).

Section evaluate.
Context {D : Type} `{KV Value D}.
(** Regular expressions, the order in which the store returns a set of series, the
    order in which a map of series is visited, and the machine's conversion of
    floats beyond 64 bits. *)
Context (regexpCompile : string -> option (string -> bool)) (order : gset Z -> list Z)
  (visit : forall A, gmap Z A -> list A) (beyond : float64 -> Z).

Definition findSeries (now : Z) (d : D) (sel : Selector) : result EvalError (list Z) :=
  match FindSeries regexpCompile now d (buildMatchers sel) with
  | Ok ids => Ok (order ids)
  | Err e => Err (EvalFind e)
  end.

Definition storeQuery (fuel : nat) (now : Z) (d : D) (req : QueryRequest) : result EvalError (list QueryResult) :=
  match Query fuel now d req with Some rs => Ok rs | None => Err EvalStuck end.

(** A series with the labels it is answered under. *)
Definition metricOf (now : Z) (d : D) (sid : Z) : option (gmap string string) :=
  (fun info => buildMetricLabels (si_Name info) (si_Labels info)) <$> GetSeriesInfo now d sid.

(** The latest point of the last five minutes. *)
Definition evalSelectorInstant (now : Z) (d : D) (sel : Selector) (evalTime : Z)
    : result EvalError (list VectorResult) :=
  seriesIDs ← findSeries now d sel;
  qr ← storeQuery 0 now d (mkQuery seriesIDs (evalTime - 5 * Minute) evalTime 0);
  Ok (omap (M := list) (fun r => p ← last (res_Points r); metric ← metricOf now d (res_SeriesID r); Some (mkVector metric p)) qr).

Definition evalFunctionInstant (now : Z) (d : D) (fn : FunctionCall) (evalTime : Z)
    : result EvalError (list VectorResult) :=
  seriesIDs ← findSeries now d (fn_Selector fn);
  let rangeDur := rangeOf fn in
  qr ← storeQuery 0 now d (mkQuery seriesIDs (evalTime - rangeDur) evalTime 0);
  Ok (omap (M := list) (fun r =>
    if decide (res_Points r = []) then None
    else
      metric ← metricOf now d (res_SeriesID r);
      p ← last (applyFunction (fn_Name fn) (res_Points r) rangeDur);
      Some (mkVector metric p)) qr).

Definition addToGroup (by_ : list string) (groups : gmap string Group) (vr : VectorResult) : gmap string Group :=
  let key := buildGroupKey (vr_Metric vr) by_ in
  let g := default (mkGroup (groupLabels (vr_Metric vr) by_) [] 0) (groups !! key) in
  <[key := mkGroup (gr_labels g) (gr_values g ++ [tv_Value (vr_Value vr)])
             (Z.max (gr_ts g) (tv_TimestampMs (vr_Value vr)))]> groups.

(** The groups come out in no particular order. *)
Definition evalAggregationInstant (now : Z) (d : D) (agg : AggregationExpr) (evalTime : Z)
    : result EvalError (list VectorResult) :=
  inner ← evalSelectorInstant now d (ag_Selector agg) evalTime;
  let groups := foldl (addToGroup (ag_By agg)) ∅ inner in
  let aggregated := AggregateBy (ag_Op agg) (gr_values <$> groups) in
  Ok (omap (M := list) (fun kv => g ← groups !! kv.1; Some (mkVector (gr_labels g) (mkTV (gr_ts g) kv.2))) (map_to_list aggregated)).

Definition evaluateInstant (now : Z) (d : D) (e : Expr) (evalTime : Z) : result EvalError (list VectorResult) :=
  match e with
  | ExprSelector sel => evalSelectorInstant now d sel evalTime
  | ExprFunction fn => evalFunctionInstant now d fn evalTime
  | ExprAggregation agg => evalAggregationInstant now d agg evalTime
  end.

Definition handleInstantQuery (now : Z) (d : D) (query : string) (evalTime : Z)
    : result EvalError (list VectorResult) :=
  match ParseExpr beyond query with
  | Err e => Err (EvalParse e)
  | Ok e => evaluateInstant now d e evalTime
  end.

Definition evalSelectorRange (fuel : nat) (now : Z) (d : D) (sel : Selector) (start endT step : Z)
    : result EvalError (list MatrixResult) :=
  seriesIDs ← findSeries now d sel;
  qr ← storeQuery fuel now d (mkQuery seriesIDs start endT step);
  Ok (omap (M := list) (fun r =>
    if decide (res_Points r = []) then None
    else metric ← metricOf now d (res_SeriesID r); Some (mkMatrix metric (res_Points r))) qr).

(** The value of a function over the window that ends at a time. *)
Definition windowValue (fn : FunctionCall) (points : list TimeValue) (t : Z) : option TimeValue :=
  let window := filter (fun p => UnixMilli (t - rangeOf fn) <= tv_TimestampMs p <= UnixMilli t) points in
  p ← last (applyFunction (fn_Name fn) window (rangeOf fn));
  Some (mkTV (UnixMilli t) (tv_Value p)).

Definition evalFunctionRange (fuel : nat) (now : Z) (d : D) (fn : FunctionCall) (start endT step : Z)
    : result EvalError (list MatrixResult) :=
  seriesIDs ← findSeries now d (fn_Selector fn);
  qr ← storeQuery 0 now d (mkQuery seriesIDs (start - rangeOf fn) endT 0);
  (fix series (qr : list QueryResult) : result EvalError (list MatrixResult) :=
     match qr with
     | [] => Ok []
     | r :: qr =>
         if decide (res_Points r = []) then series qr
         else match metricOf now d (res_SeriesID r) with
              | None => series qr
              | Some metric =>
                  match stepTimes fuel start endT step with
                  | None => Err EvalStuck
                  | Some times =>
                      let values := omap (M := list) (windowValue fn (res_Points r)) times in
                      rest ← series qr;
                      Ok (if decide (values = []) then rest else mkMatrix metric values :: rest)
                  end
              end
     end) qr.

Record SeriesData := mkSeriesData { sd_info : gmap string string; sd_points : list TimeValue }.

(** The groups of one step: labels of the first series and the values. *)
Definition addAtStep (by_ : list string) (tMs : Z) (groups : gmap string Group) (sd : SeriesData) : gmap string Group :=
  match latestAt tMs (sd_points sd) with
  | None => groups
  | Some v => addToGroup by_ groups (mkVector (sd_info sd) (mkTV tMs v))
  end.

Definition aggregateStep (agg : AggregationExpr) (seriesMap : gmap Z SeriesData)
    (results : gmap string MatrixResult) (t : Z) : gmap string MatrixResult :=
  let tMs := UnixMilli t in
  let groups := foldl (addAtStep (ag_By agg) tMs) ∅ (visit _ seriesMap) in
  let aggregated := AggregateBy (ag_Op agg) (gr_values <$> groups) in
  map_fold (fun key val results =>
    let gts := default (mkMatrix (from_option gr_labels ∅ (groups !! key)) []) (results !! key) in
    <[key := mkMatrix (mr_Metric gts) (mr_Values gts ++ [mkTV tMs val])]> results) results aggregated.

Definition evalAggregationRange (fuel : nat) (now : Z) (d : D) (agg : AggregationExpr) (start endT step : Z)
    : result EvalError (list MatrixResult) :=
  seriesIDs ← findSeries now d (ag_Selector agg);
  qr ← storeQuery fuel now d (mkQuery seriesIDs start endT step);
  let seriesMap := list_to_map (reverse (omap (M := list) (fun r =>
    if decide (res_Points r = []) then None
    else metric ← metricOf now d (res_SeriesID r); Some (res_SeriesID r, mkSeriesData metric (res_Points r))) qr)) in
  match stepTimes fuel start endT step with
  | None => Err EvalStuck
  | Some times => Ok (map_to_list (foldl (aggregateStep agg seriesMap) ∅ times)).*2
  end.

Definition evaluateRange (fuel : nat) (now : Z) (d : D) (e : Expr) (start endT step : Z)
    : result EvalError (list MatrixResult) :=
  match e with
  | ExprSelector sel => evalSelectorRange fuel now d sel start endT step
  | ExprFunction fn => evalFunctionRange fuel now d fn start endT step
  | ExprAggregation agg => evalAggregationRange fuel now d agg start endT step
  end.

(** [handleSeries]: the labels of the series the expressions select. *)
Definition seriesOf (now : Z) (d : D) (e : Expr) : result EvalError (list (Z * gmap string string)) :=
  ids ← findSeries now d (selectorFromExpr e);
  Ok (omap (M := list) (fun sid => (fun m => (sid, m)) <$> metricOf now d sid) ids).
Fixpoint handleSeries (now : Z) (d : D) (exprs : list string) (seen : gmap Z (gmap string string))
    : result EvalError (gmap Z (gmap string string)) :=
  match exprs with
  | [] => Ok seen
  | m :: exprs =>
      match ParseExpr beyond m with
      | Err e => Err (EvalParse e)
      | Ok e => found ← seriesOf now d e; handleSeries now d exprs (seen ∪ list_to_map found)
      end
  end.
End evaluate.

(** ** Lemmas *)

(** The last element of a sorted list is the newest. *)
Lemma last_newest l p :
  StronglySorted tv_lt l -> last l = Some p -> p ∈ l /\ Forall (fun q => q = p \/ tv_TimestampMs q < tv_TimestampMs p) l.
Proof.
  intros Hs Hp. split; [by apply last_Some_elem_of|]. apply last_Some in Hp as [l' ->].
  apply Forall_app. split; [|by constructor; [left|]].
  induction l' as [|q l' IH]; [constructor|]. apply StronglySorted_inv in Hs as [Hs Hq].
  constructor; [|by apply IH]. right. rewrite Forall_app, Forall_singleton in Hq. by destruct Hq.
Qed.

(** The newest value written for a series in a range of milliseconds. *)
Definition newest (points : list DataPoint) (sid lo hi : Z) (p : TimeValue) : Prop :=
  lo <= tv_TimestampMs p <= hi /\ last_value points sid (tv_TimestampMs p) = Some (tv_Value p) /\
  forall ts, tv_TimestampMs p < ts <= hi -> last_value points sid ts = None.

(** The series of the history that carry a label for every matcher. *)
Definition series_matches (regexpCompile : string -> option (string -> bool)) (points : list DataPoint) (sid : Z)
    (m : LabelMatcher) : Prop :=
  exists dp l, dp ∈ points /\ SeriesID dp = sid /\ l ∈ mkLabel "__name__" (dp_Name dp) :: dp_Labels dp /\
    l_Name l = lm_Name m /\ label_test regexpCompile m (l_Value l) = true.

(** Enough turns for a loop from [t] to [endT]. *)
Definition enough_steps (fuel : nat) (t endT step : Z) : Prop := (endT - t) / step + 1 < Z.of_nat fuel.

Lemma stepTimes_spec fuel t endT step :
  0 < step -> t <= endT + step -> enough_steps fuel t endT step ->
  stepTimes fuel t endT step = Some ((fun i => t + i * step) <$> seqZ 0 ((endT - t) / step + 1)).
Proof.
  intros Hs. unfold enough_steps. revert t. induction fuel as [|fuel IH]; intros t Ht Hf.
  - assert (-1 <= (endT - t) / step) by (apply Z.div_le_lower_bound; lia). lia.
  - cbn [stepTimes]. destruct (Z.ltb_spec endT t) as [Hlt|Hle].
    + assert ((endT - t) / step = -1) as ->; [|done]. symmetry. apply (Z.div_unique _ _ _ (endT - t + step)); lia.
    + assert ((endT - (t + step)) / step = (endT - t) / step - 1) as Hd.
      { replace (endT - (t + step)) with (endT - t + -1 * step) by lia. rewrite Z.div_add by lia. lia. }
      rewrite IH by lia. cbn [mbind option_bind]. f_equal. rewrite Hd.
      assert (0 <= (endT - t) / step) by (apply Z.div_pos; lia).
      rewrite (seqZ_cons 0 ((endT - t) / step + 1)) by lia. csimpl. f_equal; [lia|].
      replace ((endT - t) / step - 1 + 1) with (Z.pred ((endT - t) / step + 1)) by lia.
      change (Z.succ 0) with (1 + 0). rewrite <-(fmap_add_seqZ 1 0), <-list_fmap_compose.
      apply list_fmap_ext. intros _ i _. simpl. lia.
Qed.

(** A step that does not move on: the loop never ends. *)
Lemma stepTimes_stuck fuel t endT step : step <= 0 -> t <= endT -> stepTimes fuel t endT step = None.
Proof.
  intros Hs. revert t. induction fuel as [|fuel IH]; intros t Ht; [done|]. cbn [stepTimes].
  destruct (Z.ltb_spec endT t); [lia|]. by rewrite IH by lia.
Qed.

Section queried.
Context {D : Type} `{KVLaws Value D} (retention : Z) (hist : list (Z * list DataPoint)) (d : D) (t : Z).
Context (regexpCompile : string -> option (string -> bool)) (order : gset Z -> list Z).
Hypothesis Horder : forall X : gset Z, order X ≡ₚ elements X.
Hypothesis Hw : writeBatches (Write retention) hist kv_empty = Some d.
Hypothesis Hl : batches_live retention t hist.
Hypothesis Hpts : Forall (fun dp => 0 <= dp_Timestamp dp < 2 ^ 63 /\ is_float (dp_Value dp)) (points_of hist).
#[local] Set Default Proof Using "All".

Lemma findSeries_spec sel :
  Forall (matcher_ok regexpCompile) (buildMatchers sel) -> buildMatchers sel <> [] ->
  exists ids, findSeries regexpCompile order t d sel = Ok ids /\ Forall is_u64 ids /\
    forall sid, sid ∈ ids <-> Forall (series_matches regexpCompile (points_of hist) sid) (buildMatchers sel).
Proof.
  intros Hms Hne.
  destruct (findIDs_spec Tsdb.prefixInverted regexpCompile t d (point_triples hist) (buildMatchers sel)) as (ids & Hids & Hspec);
    [by eapply written_index|done|done|].
  exists (order ids). unfold findSeries, FindSeries. rewrite Hids. split; [done|].
  assert (forall sid, sid ∈ order ids <-> Forall (series_matches regexpCompile (points_of hist) sid) (buildMatchers sel)) as Hm.
  { intros sid. rewrite Horder, elem_of_elements, Hspec. apply Forall_iff. intros m. unfold point_triples, series_matches.
    split; [intros (w & (dp & l & ? & ? & ? & ? & ->) & ?); by exists dp, l|].
    intros (dp & l & ? & ? & ? & ? & ?). exists (l_Value l). split; [|done]. by exists dp, l. }
  split; [|exact Hm]. apply Forall_forall. intros sid Hsid. apply Hm in Hsid. destruct (buildMatchers sel) as [|m ms]; [done|].
  apply Forall_cons in Hsid as [(dp & l & _ & <- & _) _]. apply SeriesID_u64.
Qed.

(** The points of a raw query, series by series. *)
Lemma storeQuery_spec ids start endT :
  0 <= UnixMilli start < 2 ^ 63 -> Forall is_u64 ids ->
  exists rs, storeQuery 0 t d (mkQuery ids start endT 0) = Ok rs /\
    (forall r, r ∈ rs -> res_SeriesID r ∈ ids /\ StronglySorted tv_lt (res_Points r) /\
       forall ts v, mkTV ts v ∈ res_Points r <->
         UnixMilli start <= ts <= UnixMilli endT /\ last_value (points_of hist) (res_SeriesID r) ts = Some v) /\
    (forall sid ts v, sid ∈ ids -> UnixMilli start <= ts <= UnixMilli endT ->
       last_value (points_of hist) sid ts = Some v -> exists r, r ∈ rs /\ res_SeriesID r = sid).
Proof.
  intros Hstart Hids. unfold storeQuery, Query. cbn [qr_Step]. change (0 <? 0) with false. cbv iota.
  eexists. split; [reflexivity|]. rewrite Forall_forall in Hids. split.
  - intros r Hr. unfold queryRaw in Hr. cbn [qr_Start qr_End qr_SeriesIDs] in Hr.
    apply list_elem_of_filter in Hr as [_ Hr]. apply list_elem_of_fmap in Hr as (sid & -> & Hsid).
    split; [done|]. cbn [res_SeriesID querySeries].
    exact (querySeries_spec retention hist d t sid _ (UnixMilli endT) Hw Hl Hpts (Hids sid Hsid) Hstart).
  - intros sid ts v Hsid Hts Hv. exists (querySeries t d (UnixMilli start) (UnixMilli endT) sid). split; [|done].
    unfold queryRaw. cbn [qr_Start qr_End qr_SeriesIDs]. apply list_elem_of_filter.
    split; [|apply list_elem_of_fmap; by exists sid].
    destruct (querySeries_spec retention hist d t sid (UnixMilli start) (UnixMilli endT) Hw Hl Hpts (Hids sid Hsid) Hstart)
      as [_ Hspec]. assert (mkTV ts v ∈ res_Points (querySeries t d (UnixMilli start) (UnixMilli endT) sid)) as Hin
      by (by apply Hspec). destruct (res_Points _); [by apply elem_of_nil in Hin|]. simpl. lia.
Qed.

(** The newest point of what a query returns. *)
Lemma last_of_query start endT r p :
  StronglySorted tv_lt (res_Points r) ->
  (forall ts v, mkTV ts v ∈ res_Points r <->
     UnixMilli start <= ts <= UnixMilli endT /\ last_value (points_of hist) (res_SeriesID r) ts = Some v) ->
  last (res_Points r) = Some p <-> newest (points_of hist) (res_SeriesID r) (UnixMilli start) (UnixMilli endT) p.
Proof.
  intros Hs Hin. split.
  - intros Hp. destruct (last_newest _ _ Hs Hp) as [Hpin Hall]. destruct p as [ts v]. apply Hin in Hpin as [Hr Hv].
    split_and!; [simpl; lia|simpl; lia|done|]. intros ts' Hts'. simpl in Hts'.
    destruct (last_value _ _ ts') as [v'|] eqn:Hv'; [|done].
    assert (mkTV ts' v' ∈ res_Points r) as Hin' by (apply Hin; split; [lia|done]).
    rewrite Forall_forall in Hall. destruct (Hall _ Hin') as [E|E]; simpl in E; [simplify_eq; lia|lia].
  - intros (Hr & Hv & Hno). destruct p as [ts v]. simpl in *.
    assert (mkTV ts v ∈ res_Points r) as Hpin by (by apply Hin).
    destruct (last (res_Points r)) as [q|] eqn:Hq.
    2:{ apply last_None in Hq. rewrite Hq in Hpin. by apply elem_of_nil in Hpin. }
    destruct (last_newest _ _ Hs Hq) as [Hqin Hall]. rewrite Forall_forall in Hall.
    destruct (Hall _ Hpin) as [->|Hlt]; [done|]. destruct q as [ts' v']. apply Hin in Hqin as [Hr' Hv'].
    simpl in Hlt. rewrite Hno in Hv'; [done|lia].
Qed.
End queried.

(** ** Properties *)

(** The labels a series is answered under: the name and the labels of the last point written
    for it. *)
Definition series_metric (points : list DataPoint) (sid : Z) : option (gmap string string) :=
  (fun info => buildMetricLabels (si_Name info) (si_Labels info)) <$> series_info points sid.

Lemma newest_has_metric points sid lo hi p :
  newest points sid lo hi p -> is_Some (series_metric points sid).
Proof.
  intros (_ & Hv & _). unfold series_metric, series_info. rewrite !fmap_is_Some. unfold last_value in Hv.
  apply fmap_Some in Hv as (dp & Hdp & _). apply last_Some_elem_of, list_elem_of_filter in Hdp as [[Hid _] Hin].
  destruct (last (filter (fun dp => SeriesID dp = sid) points)) as [x|] eqn:Hl; [done|].
  apply last_None, filter_nil_Forall in Hl. rewrite Forall_forall in Hl. by destruct (Hl dp Hin).
Qed.

Lemma metricOf_written {D} `{KVLaws Value D} retention hist (d : D) t :
  writeBatches (Write retention) hist kv_empty = Some d -> batches_live retention t hist ->
  forall sid, is_u64 sid -> metricOf t d sid = series_metric (points_of hist) sid.
Proof. intros Hw Hl sid Hs. unfold metricOf. by rewrite (written_info retention hist d t Hw Hl sid Hs). Qed.

(** C21 An instant query end to end, from its text to the samples. After any history of
    successful writes, while nothing has expired, a selector, however it is spaced, is
    answered with exactly one sample for every series that carries for each matcher a
    label that passes it and has a value in the last five minutes: the newest one, bit
    for bit, under the name and the labels of the last point written for the series. A
    series with such a value always has them, so no series is left out. *)
Theorem instant_query_exact {D} `{KVLaws Value D} retention hist (d : D) t regexpCompile order beyond w sel evalTime :
  (forall X : gset Z, order X ≡ₚ elements X) ->
  writeBatches (Write retention) hist kv_empty = Some d -> batches_live retention t hist ->
  Forall (fun dp => 0 <= dp_Timestamp dp < 2 ^ 63 /\ is_float (dp_Value dp)) (points_of hist) ->
  str_all isSpace w = true -> selector_ok sel -> Forall (matcher_ok regexpCompile) (buildMatchers sel) ->
  0 <= UnixMilli (evalTime - 5 * Minute) < 2 ^ 63 ->
  exists rs, handleInstantQuery regexpCompile order beyond t d (queryText w (QSelector sel)) evalTime = Ok rs /\
    forall vr, vr ∈ rs <->
      exists sid, Forall (series_matches regexpCompile (points_of hist) sid) (buildMatchers sel) /\
        newest (points_of hist) sid (UnixMilli (evalTime - 5 * Minute)) (UnixMilli evalTime) (vr_Value vr) /\
        series_metric (points_of hist) sid = Some (vr_Metric vr).
Proof.
  intros Ho Hw Hl Hpts Hsp Hsel Hms Hstart. unfold handleInstantQuery.
  rewrite parse_queryText by done. cbn [denote evaluateInstant]. unfold evalSelectorInstant.
  assert (buildMatchers sel <> []) as Hne.
  { unfold buildMatchers. rewrite decide_False; [done|]. intros E. destruct Hsel as [Hn _]. by rewrite E in Hn. }
  destruct (findSeries_spec retention hist d t regexpCompile order Ho Hw Hl Hpts sel Hms Hne) as (ids & -> & Hu & Hids).
  cbn [mbind result_bind].
  destruct (storeQuery_spec retention hist d t regexpCompile order Ho Hw Hl Hpts ids (evalTime - 5 * Minute) evalTime Hstart Hu)
    as (rs & -> & Hrs & Hall). cbn [mbind result_bind]. eexists. split; [reflexivity|].
  intros [metric p]. rewrite list_elem_of_omap. cbn [vr_Metric vr_Value]. split.
  - intros (r & Hr & Hvr). destruct (Hrs r Hr) as (Hid & Hsort & Hin).
    destruct (last (res_Points r)) as [p'|] eqn:Hp; [|done]. cbn [mbind option_bind] in Hvr.
    destruct (metricOf t d (res_SeriesID r)) as [m'|] eqn:Hm; [|done]. cbn [mbind option_bind] in Hvr.
    injection Hvr as -> ->. exists (res_SeriesID r). split_and!; [by apply Hids| |].
    + by apply (last_of_query retention hist d t regexpCompile order Ho Hw Hl Hpts _ _ _ _ Hsort Hin).
    + rewrite <-Hm. symmetry. apply (metricOf_written retention hist); [done..|]. by eapply Forall_forall.
  - intros (sid & Hm & Hnew & Hmetric). apply Hids in Hm.
    rewrite <-(metricOf_written retention hist d t Hw Hl sid) in Hmetric by by eapply Forall_forall.
    destruct p as [ts v]. pose proof Hnew as (Hts & Hv & _).
    destruct (Hall sid ts v Hm Hts Hv) as (r & Hr & <-). destruct (Hrs r Hr) as (_ & Hsort & Hin).
    exists r. split; [done|].
    apply (last_of_query retention hist d t regexpCompile order Ho Hw Hl Hpts _ _ _ _ Hsort Hin) in Hnew.
    by rewrite Hnew, Hmetric.
Qed.

(** A range query of a function comes to an end when its step is positive, and then
    answers, for every selected series that has labels, the function of the window of
    values before each time of the range: the times are exactly the start and its
    successors by the step up to the end. With a step of zero or less it never ends
    ([stepTimes_stuck]). *)
Theorem function_range_exact {D} `{KVLaws Value D} retention hist (d : D) t regexpCompile order fuel fn start endT step :
  (forall X : gset Z, order X ≡ₚ elements X) ->
  writeBatches (Write retention) hist kv_empty = Some d -> batches_live retention t hist ->
  Forall (fun dp => 0 <= dp_Timestamp dp < 2 ^ 63 /\ is_float (dp_Value dp)) (points_of hist) ->
  selector_ok (fn_Selector fn) -> Forall (matcher_ok regexpCompile) (buildMatchers (fn_Selector fn)) ->
  0 <= UnixMilli (start - rangeOf fn) < 2 ^ 63 -> 0 < step -> start <= endT + step -> enough_steps fuel start endT step ->
  exists rs, evalFunctionRange regexpCompile order fuel t d fn start endT step = Ok rs /\
    forall mr, mr ∈ rs ->
      exists sid pts, Forall (series_matches regexpCompile (points_of hist) sid) (buildMatchers (fn_Selector fn)) /\
        metricOf t d sid = Some (mr_Metric mr) /\ StronglySorted tv_lt pts /\
        (forall ts v, mkTV ts v ∈ pts <-> UnixMilli (start - rangeOf fn) <= ts <= UnixMilli endT /\
           last_value (points_of hist) sid ts = Some v) /\
        mr_Values mr = omap (windowValue fn pts) ((fun i => start + i * step) <$> seqZ 0 ((endT - start) / step + 1)).
Proof.
  intros Ho Hw Hl Hpts Hsel Hms Hstart Hstep Hend Hfuel. unfold evalFunctionRange.
  assert (buildMatchers (fn_Selector fn) <> []) as Hne.
  { unfold buildMatchers. rewrite decide_False; [done|]. intros E. destruct Hsel as [Hn _]. by rewrite E in Hn. }
  destruct (findSeries_spec retention hist d t regexpCompile order Ho Hw Hl Hpts _ Hms Hne) as (ids & -> & Hu & Hids).
  cbn [mbind result_bind].
  destruct (storeQuery_spec retention hist d t regexpCompile order Ho Hw Hl Hpts ids (start - rangeOf fn) endT Hstart Hu)
    as (qr & -> & Hrs & _). cbn [mbind result_bind].
  rewrite (stepTimes_spec fuel start endT step Hstep Hend Hfuel). clear Hfuel.
  induction qr as [|r qr IH]; [by exists []; split; [|intros mr ?%elem_of_nil]|].
  destruct IH as (rest & Hrest & Hmr); [intros r' Hr'; apply Hrs; by right|].
  case_decide; [by exists rest|]. destruct (metricOf t d (res_SeriesID r)) as [metric|] eqn:Hm; [|by exists rest].
  rewrite Hrest. cbn [mbind result_bind]. case_decide; [by exists rest|].
  eexists. split; [reflexivity|]. intros mr [->|Hin]%elem_of_cons; [|by apply Hmr].
  destruct (Hrs r) as (Hid & Hsort & Hin); [by left|]. exists (res_SeriesID r), (res_Points r).
  split_and!; [by apply Hids|done|done|done|done].
Qed.

(** ** Examples *)

Definition cpuSelector : Selector := mkSelector "cpu" [mkMatcher "host" "b" MatchNotEqual].

Lemma instant_query_exact_witness :
  exists rs, handleInstantQuery noRegexp elements no_overflow Second demoDB (queryText " " (QSelector cpuSelector))
      (5 * Minute) = Ok rs /\ exists vr, vr ∈ rs /\ vr_Value vr = mkTV 3000 (of_int 3).
Proof.
  destruct (instant_query_exact demoRetention demoHist demoDB Second noRegexp elements no_overflow " " cpuSelector (5 * Minute))
    as (rs & Hrs & Hvr).
  - intros X. reflexivity.
  - exact demoDB_written.
  - by repeat constructor; vm_compute.
  - by repeat constructor; vm_compute.
  - reflexivity.
  - split; [reflexivity|repeat constructor].
  - repeat constructor.
  - split; [done|reflexivity].
  - exists rs. split; [exact Hrs|].
    destruct (series_metric (points_of demoHist) (SeriesID (cpuPoint "a" 0 0))) as [metric|] eqn:Hm; [|vm_compute in Hm; discriminate Hm].
    exists (mkVector metric (mkTV 3000 (of_int 3))). split; [|reflexivity].
    apply Hvr. exists (SeriesID (cpuPoint "a" 0 0)). split; [|split; [|exact Hm]].
    + repeat constructor; exists (cpuPoint "a" 1000 1).
      * exists (mkLabel "__name__" "cpu"). split_and!; [by left|by vm_compute|by left|done|by vm_compute].
      * exists (mkLabel "host" "a"). split_and!; [by left|by vm_compute|by right; left|done|by vm_compute].
    + split; [split; vm_compute; discriminate|]. split; [vm_compute; reflexivity|]. cbn [tv_TimestampMs]. intros ts Hts.
      unfold last_value.
      assert (filter (matches_point (SeriesID (cpuPoint "a" 0 0)) ts) (points_of demoHist) = []) as ->; [|reflexivity].
      apply filter_nil_Forall.
      change (points_of demoHist) with [cpuPoint "a" 1000 1; cpuPoint "a" 3000 3; cpuPoint "b" 1000 7;
                                        cpuPoint "a" 2000 2; cpuPoint "a" 1000 9].
      cbn [vr_Value tv_TimestampMs] in Hts. repeat (apply Forall_cons_2; [intros [_ E]; cbn in E; lia|]). constructor.
Defined.

Definition rateCall : FunctionCall := mkCall "delta" cpuSelector (2 * Second) [].

Lemma function_range_exact_witness :
  exists rs, evalFunctionRange noRegexp elements 10 Second demoDB rateCall (2 * Second) (4 * Second) Second = Ok rs /\
    (tv_TimestampMs <$> (rs ≫= mr_Values) = [2000; 3000; 4000]) /\
    forall mr, mr ∈ rs -> exists sid, metricOf Second demoDB sid = Some (mr_Metric mr).
Proof.
  destruct (function_range_exact demoRetention demoHist demoDB Second noRegexp elements 10 rateCall (2 * Second) (4 * Second) Second)
    as (rs & Hrs & Hmr).
  - intros X. reflexivity.
  - exact demoDB_written.
  - by repeat constructor; vm_compute.
  - by repeat constructor; vm_compute.
  - split; [reflexivity|repeat constructor].
  - repeat constructor.
  - split; [done|reflexivity].
  - reflexivity.
  - done.
  - reflexivity.
  - exists rs. split; [exact Hrs|]. split.
    + assert ((fun rs => tv_TimestampMs <$> (rs ≫= mr_Values)) <$>
        evalFunctionRange noRegexp elements 10 Second demoDB rateCall (2 * Second) (4 * Second) Second = Ok [2000; 3000; 4000])
        as Hc by (vm_compute; reflexivity).
      rewrite Hrs in Hc. cbn in Hc. injection Hc as Hc. exact Hc.
    + intros mr Hin. destruct (Hmr mr Hin) as (sid & pts & _ & Hm & _). exists sid. exact Hm.
Defined.

(** A histogram quantile is parsed and then answered with nothing. *)
Lemma quantile_is_empty points rangeDur : applyFunction "histogram_quantile" points rangeDur = [].
Proof. done. Qed.

(** Groups are told apart by a text that label values can imitate: two series of
    different groups are added up. *)
Lemma groups_collide :
  let a : gmap string string := {["x" := "1"; "y" := "2,y=3"]} in
  let b : gmap string string := {["x" := "1,y=2"; "y" := "3"]} in
  buildGroupKey a ["x"; "y"] = buildGroupKey b ["x"; "y"] /\ groupLabels a ["x"; "y"] <> groupLabels b ["x"; "y"].
Proof. by vm_compute. Qed.
