(* ===== verification/Alerting.v ===== *)
(** * Alerting

    [src/internal/controlplane/metrics/alerting]: the value of a rule's query over the
    metrics store, the manager's state machine (pending, firing, resolved, dismissed) and
    the store of rules and alerts in memory. A dismissal is two steps, as in the code: the
    store first, the manager's own map when it gets its lock. Webhooks are recorded in
    the order they are handed to a goroutine. *)

From stdpp Require Import options pretty.
From Stdlib Require Import Ascii SpecFloat.
From S2P Require Import Prelude GoStrings Words Float64 IndexKeys OrderedKV LabelIndex QueryLexer PromQL GoTime.
From S2P Require Import TsdbStore MetricsAPI.
Open Scope Z_scope.

Inductive AlertStatus := AlertFiring | AlertResolved | AlertDismissed.
#[global] Instance AlertStatus_eq_dec : EqDecision AlertStatus.
Proof. solve_decision. Defined.

Record AlertRule := mkRule {
  ru_ID : string;
  ru_Name : string;
  ru_Query : string;
  ru_Condition : string;
  ru_Threshold : float64;
  ru_For : string;
  ru_Severity : string;
  ru_Labels : gmap string string;
  ru_Annotations : gmap string string;
  ru_Webhooks : list string;
  ru_Enabled : bool
}.

Record Alert := mkAlert {
  al_ID : string;
  al_RuleID : string;
  al_RuleName : string;
  al_Status : AlertStatus;
  al_Severity : string;
  al_Labels : gmap string string;
  al_Annotations : gmap string string;
  al_Value : float64;
  al_FiredAt : Z;
  al_ResolvedAt : option Z;
  al_DismissedAt : option Z;
  al_DismissedBy : string
}.

Definition resolvedAlert (now : Z) (a : Alert) : Alert :=
  mkAlert (al_ID a) (al_RuleID a) (al_RuleName a) AlertResolved (al_Severity a) (al_Labels a) (al_Annotations a)
    (al_Value a) (al_FiredAt a) (Some now) (al_DismissedAt a) (al_DismissedBy a).
Definition dismissedAlert (now : Z) (by_ : string) (a : Alert) : Alert :=
  mkAlert (al_ID a) (al_RuleID a) (al_RuleName a) AlertDismissed (al_Severity a) (al_Labels a) (al_Annotations a)
    (al_Value a) (al_FiredAt a) (al_ResolvedAt a) (Some now) by_.

(** ** Values of queries *)

Inductive RuleError :=
  | RuleQuery (e : EvalError)
  | RuleUnsupported (name : string)
  | RuleFor (text : string).

Definition checkCondition (value : float64) (op : string) (threshold : float64) : bool :=
  if is_nan value then false
  else if decide (op = ">") then fltb threshold value
  else if decide (op = "<") then fltb value threshold
  else if decide (op = ">=") then fleb threshold value
  else if decide (op = "<=") then fleb value threshold
  else if decide (op = "==") then feqb value threshold
  else if decide (op = "!=") then negb (feqb value threshold)
  else false.

(** [parseDuration] of the package. *)
Definition forDuration (s : string) : result RuleError Z :=
  if decide (s = "" \/ s = "0") then Ok 0
  else match ParseDuration s with Some d => Ok d | None => Err (RuleFor s) end.

(** The mean of the values added up one after the other. *)
Definition meanOf (values : list float64) : float64 :=
  match values with [] => fnan | _ => fdiv (sumValues values) (of_int (zlen values)) end.
Definition latestValues (results : list QueryResult) : list float64 :=
  omap (fun r => tv_Value <$> last (res_Points r)) results.
Definition latestAvg (results : list QueryResult) : float64 := meanOf (latestValues results).

(** The value of one series, if it has one. *)
Definition functionValue (name : string) (points : list TimeValue) (rangeDur : Z) : result RuleError (option float64) :=
  let first pts := tv_Value <$> head pts in
  if decide (name = "rate") then Ok (first (ApplyRate points rangeDur))
  else if decide (name = "delta") then Ok (first (ApplyDelta points))
  else if decide (name = "increase") then Ok (first (ApplyIncrease points rangeDur))
  else if decide (name = "avg_over_time") then Ok (Some (ApplyAvgOverTime points))
  else if decide (name = "max_over_time") then Ok (Some (ApplyMaxOverTime points))
  else if decide (name = "min_over_time") then Ok (Some (ApplyMinOverTime points))
  else Err (RuleUnsupported name).

Fixpoint functionValues (name : string) (rangeDur : Z) (results : list QueryResult) : result RuleError (list float64) :=
  match results with
  | [] => Ok []
  | r :: results =>
      if decide (res_Points r = []) then functionValues name rangeDur results
      else
        o ← functionValue name (res_Points r) rangeDur;
        vs ← functionValues name rangeDur results;
        Ok (match o with Some v => v :: vs | None => vs end)
  end.

Section query.
Context {D : Type} `{KV Value D}.
Context (regexpCompile : string -> option (string -> bool)) (order : gset Z -> list Z) (beyond : float64 -> Z).

(** The matchers always start with the name. *)
Definition ruleMatchers (sel : Selector) : list LabelMatcher :=
  mkMatcher "__name__" (sel_Name sel) MatchEqual :: sel_Matchers sel.

(** The series and their points over a range before [now]; [None] without series. *)
Definition ruleQuery (now : Z) (d : D) (sel : Selector) (rangeDur : Z) : result RuleError (option (list QueryResult)) :=
  match FindSeries regexpCompile now d (ruleMatchers sel) with
  | Err e => Err (RuleQuery (EvalFind e))
  | Ok ids =>
      if decide (order ids = []) then Ok None
      else match Query 0 now d (mkQuery (order ids) (now - rangeDur) now 0) with
           | Some rs => Ok (Some rs)
           | None => Err (RuleQuery EvalStuck)
           end
  end.

Definition queryValue (now : Z) (d : D) (query : string) : result RuleError float64 :=
  match ParseExpr beyond query with
  | Err e => Err (RuleQuery (EvalParse e))
  | Ok (ExprSelector sel) =>
      o ← ruleQuery now d sel (5 * Minute);
      Ok (from_option latestAvg fnan o)
  | Ok (ExprFunction fn) =>
      o ← ruleQuery now d (fn_Selector fn) (rangeOf fn);
      match o with
      | None => Ok fnan
      | Some rs => vs ← functionValues (fn_Name fn) (rangeOf fn) rs; Ok (meanOf vs)
      end
  | Ok (ExprAggregation agg) =>
      o ← ruleQuery now d (ag_Selector agg) (5 * Minute);
      match o with
      | None => Ok fnan
      | Some rs =>
          let values := latestValues rs in
          if decide (values = []) then Ok fnan
          else match aggregateOp (ag_Op agg) values with
               | Some v => Ok v
               | None => Err (RuleUnsupported (ag_Op agg))
               end
      end
  end.
End query.

(** ** The manager and its store *)

Record AlertManager := mkAM {
  am_rules : gmap string AlertRule;
  am_alerts : gmap string Alert;
  am_pending : gmap string Z;
  am_firing : gmap string Alert;
  am_webhooks : list (list string * AlertStatus * Alert);
  am_next : nat
}.
Definition NewAlertManager : AlertManager := mkAM ∅ ∅ ∅ ∅ [] 0.

Definition set_rules x m := mkAM x (am_alerts m) (am_pending m) (am_firing m) (am_webhooks m) (am_next m).
Definition set_alerts x m := mkAM (am_rules m) x (am_pending m) (am_firing m) (am_webhooks m) (am_next m).
Definition set_pending x m := mkAM (am_rules m) (am_alerts m) x (am_firing m) (am_webhooks m) (am_next m).
Definition set_firing x m := mkAM (am_rules m) (am_alerts m) (am_pending m) x (am_webhooks m) (am_next m).
Definition send urls st a m := mkAM (am_rules m) (am_alerts m) (am_pending m) (am_firing m) (am_webhooks m ++ [(urls, st, a)]) (am_next m).

Section manager.
(** The identifiers the manager draws, one after the other. *)
Context (uuid : nat -> string).

Definition fire (rule : AlertRule) (value : float64) (now : Z) (m : AlertManager) : AlertManager :=
  let alert := mkAlert (uuid (am_next m)) (ru_ID rule) (ru_Name rule) AlertFiring (ru_Severity rule) (ru_Labels rule)
                 (ru_Annotations rule) value now None None "" in
  let m := mkAM (am_rules m) (<[al_ID alert := alert]> (am_alerts m)) (am_pending m)
             (<[ru_ID rule := alert]> (am_firing m)) (am_webhooks m) (S (am_next m)) in
  send (ru_Webhooks rule) AlertFiring alert m.

Definition resolve (rule : AlertRule) (alert : Alert) (now : Z) (m : AlertManager) : AlertManager :=
  let alert := resolvedAlert now alert in
  send (ru_Webhooks rule) AlertResolved alert
    (set_firing (delete (ru_ID rule) (am_firing m)) (set_alerts (<[al_ID alert := alert]> (am_alerts m)) m)).

(** [evaluateRule], given what the query was worth. *)
Definition evaluateRule (rule : AlertRule) (answer : result RuleError float64) (now : Z) (m : AlertManager)
    : AlertManager * result RuleError unit :=
  match answer with
  | Err e => (m, Err e)
  | Ok value =>
      match forDuration (ru_For rule) with
      | Err e => (m, Err e)
      | Ok for_ =>
          if checkCondition value (ru_Condition rule) (ru_Threshold rule) then
            let since := default now (am_pending m !! ru_ID rule) in
            let m := set_pending (<[ru_ID rule := since]> (am_pending m)) m in
            if (for_ <=? now - since) && negb (bool_decide (is_Some (am_firing m !! ru_ID rule)))
            then (fire rule value now m, Ok tt) else (m, Ok tt)
          else
            let m := set_pending (delete (ru_ID rule) (am_pending m)) m in
            match am_firing m !! ru_ID rule with
            | Some alert => (resolve rule alert now m, Ok tt)
            | None => (m, Ok tt)
            end
      end
  end.

(** One rule of a tick; disabled rules are passed over. *)
Definition tickRule (rule : AlertRule) (answer : result RuleError float64) (now : Z) (m : AlertManager) : AlertManager :=
  if ru_Enabled rule then (evaluateRule rule answer now m).1 else m.

(** [evaluate]: the rules of the store, each with the answer to its query at the time it
    is looked at. *)
Definition evaluate (rules : list AlertRule) (look : AlertRule -> result RuleError float64 * Z) (m : AlertManager)
    : AlertManager :=
  foldl (fun m rule => tickRule rule (look rule).1 (look rule).2 m) m rules.

(** The two halves of [DismissAlert]. *)
Definition storeDismiss (id by_ : string) (now : Z) (m : AlertManager) : option AlertManager :=
  a ← am_alerts m !! id; Some (set_alerts (<[id := dismissedAlert now by_ a]> (am_alerts m)) m).
Definition managerDismiss (id : string) (m : AlertManager) : AlertManager :=
  match filter (fun kv => al_ID kv.2 = id) (map_to_list (am_firing m)) with
  | [] => m
  | (ruleID, _) :: _ => set_firing (delete ruleID (am_firing m)) (set_pending (delete ruleID (am_pending m)) m)
  end.

(** Rules of the API: creation and replacement under an identifier, and removal. *)
Definition putRule (rule : AlertRule) (m : AlertManager) : AlertManager := set_rules (<[ru_ID rule := rule]> (am_rules m)) m.
Definition deleteRule (id : string) (m : AlertManager) : AlertManager := set_rules (delete id (am_rules m)) m.
End manager.

(** ** Runs *)

(** A look at a rule that counted: its query and its duration were fine. *)
Record Look := mkLook { lk_rule : AlertRule; lk_now : Z; lk_met : bool }.

(** The manager, the dismissals between their two halves, and the looks so far. *)
Record System := mkSystem { sy_manager : AlertManager; sy_dismissing : gset string; sy_looks : list Look }.

(** What a look records. *)
Definition looked (rule : AlertRule) (answer : result RuleError float64) (now : Z) : list Look :=
  if ru_Enabled rule then
    match answer, forDuration (ru_For rule) with
    | Ok value, Ok _ => [mkLook rule now (checkCondition value (ru_Condition rule) (ru_Threshold rule))]
    | _, _ => []
    end
  else [].

(** Everything that happens to the manager: looks at rules, in any version and with any
    answer and time, dismissals and changes of rules. *)
Inductive astep (uuid : nat -> string) : System -> System -> Prop :=
  | as_look m ds h rule answer now :
      astep uuid (mkSystem m ds h) (mkSystem (tickRule uuid rule answer now m) ds (h ++ looked rule answer now))
  | as_store_dismiss m m' ds h id by_ now :
      storeDismiss id by_ now m = Some m' -> astep uuid (mkSystem m ds h) (mkSystem m' ({[id]} ∪ ds) h)
  | as_manager_dismiss m ds h id :
      id ∈ ds -> astep uuid (mkSystem m ds h) (mkSystem (managerDismiss id m) (ds ∖ {[id]}) h)
  | as_put_rule m ds h rule : astep uuid (mkSystem m ds h) (mkSystem (putRule rule m) ds h)
  | as_delete_rule m ds h id : astep uuid (mkSystem m ds h) (mkSystem (deleteRule id m) ds h).

Definition newSystem : System := mkSystem NewAlertManager ∅ [].

Definition look_of (r : string) (t : Z) (k : Look) : Prop := ru_ID (lk_rule k) = r /\ lk_now k = t.

(** Consecutive looks from one at [s] on, at all of which the rule's condition held. *)
Definition holds_since (r : string) (s : Z) (h : list Look) : Prop :=
  (exists k, head h = Some k /\ look_of r s k) /\
  forall k, k ∈ h -> ru_ID (lk_rule k) = r -> lk_met k = true.

(** The condition held from [s] to [t]. *)
Definition sustained (r : string) (s t : Z) (h : list Look) : Prop :=
  exists h1 h2 h3 k, h = h1 ++ h2 ++ h3 /\ holds_since r s h2 /\ last h2 = Some k /\ look_of r t k.

(** An alert was due: the condition had held for the rule's duration. *)
Definition due (a : Alert) (h : list Look) : Prop :=
  exists rule for_ s, ru_ID rule = al_RuleID a /\ forDuration (ru_For rule) = Ok for_ /\
    for_ <= al_FiredAt a - s /\ sustained (al_RuleID a) s (al_FiredAt a) h.

Record alerting_ok (uuid : nat -> string) (sy : System) : Prop := {
  ao_id id a : am_alerts (sy_manager sy) !! id = Some a -> al_ID a = id /\ exists k, (k < am_next (sy_manager sy))%nat /\ id = uuid k;
  ao_firing id a : am_alerts (sy_manager sy) !! id = Some a -> al_Status a = AlertFiring ->
    am_firing (sy_manager sy) !! al_RuleID a = Some a;
  ao_known r a : am_firing (sy_manager sy) !! r = Some a ->
    al_RuleID a = r /\ al_Status a = AlertFiring /\
    exists b, am_alerts (sy_manager sy) !! al_ID a = Some b /\ al_RuleID b = r /\ (b = a \/ al_Status b = AlertDismissed);
  ao_dismissing id : id ∈ sy_dismissing sy -> exists a, am_alerts (sy_manager sy) !! id = Some a /\ al_Status a <> AlertFiring;
  ao_pending r s : am_pending (sy_manager sy) !! r = Some s ->
    exists h1 h2, sy_looks sy = h1 ++ h2 /\ holds_since r s h2;
  ao_due id a : am_alerts (sy_manager sy) !! id = Some a \/ am_firing (sy_manager sy) !! id = Some a -> due a (sy_looks sy)
}.

Lemma sustained_app r s t h l : sustained r s t h -> sustained r s t (h ++ l).
Proof.
  intros (h1 & h2 & h3 & k & -> & Hh & Hk). exists h1, h2, (h3 ++ l), k. split; [by rewrite <-!app_assoc|done].
Qed.
Lemma due_app a h l : due a h -> due a (h ++ l).
Proof. intros (rule & for_ & s & ? & ? & ? & Hs). exists rule, for_, s. split_and!; [done..|]. by apply sustained_app. Qed.

(** A look at which the rule is met, or at another rule, goes on with a run. *)
Lemma holds_since_snoc r s h k :
  holds_since r s h -> (ru_ID (lk_rule k) = r -> lk_met k = true) -> holds_since r s (h ++ [k]).
Proof.
  intros [(k0 & Hk0 & Hl) Hall] Hk. split.
  - exists k0. split; [|done]. by destruct h.
  - intros k' [Hin|Hin%list_elem_of_singleton]%elem_of_app; [by apply Hall|by subst].
Qed.

Lemma pending_app h h' (p : gmap string Z) :
  (forall r s, p !! r = Some s -> exists h1 h2, h = h1 ++ h2 /\ holds_since r s h2) ->
  forall r s k, p !! r = Some s -> (ru_ID (lk_rule k) = r -> lk_met k = true) -> h' = h ++ [k] ->
  exists h1 h2, h' = h1 ++ h2 /\ holds_since r s h2.
Proof.
  intros Hp r s k Hr Hk ->. destruct (Hp r s Hr) as (h1 & h2 & -> & Hh). exists h1, (h2 ++ [k]).
  split; [by rewrite app_assoc|]. by apply holds_since_snoc.
Qed.

Section preserved.
Context (uuid : nat -> string) `{!Inj (=) (=) uuid}.
#[local] Set Default Proof Using "Type*".

Lemma fresh_alert m ds h : alerting_ok uuid (mkSystem m ds h) -> am_alerts m !! uuid (am_next m) = None.
Proof.
  intros Hok. destruct (am_alerts m !! uuid (am_next m)) as [a|] eqn:Ha; [|done].
  destruct (ao_id _ _ Hok _ _ Ha) as (_ & k & Hk & E). apply (inj uuid) in E. simpl in Hk. lia.
Qed.

(** The condition was met: the run goes on or starts. *)
Lemma met_ok m ds h rule now since k :
  alerting_ok uuid (mkSystem m ds h) -> lk_rule k = rule -> lk_now k = now -> lk_met k = true ->
  since = default now (am_pending m !! ru_ID rule) ->
  alerting_ok uuid (mkSystem (set_pending (<[ru_ID rule := since]> (am_pending m)) m) ds (h ++ [k])).
Proof.
  intros [H1 H2 H3 H4 H5 H6] Hkr Hkn Hkm ->. split; simpl in *; try done.
  - intros r s [[<- <-]|[Hne Hr]]%lookup_insert_Some.
    + destruct (am_pending m !! ru_ID rule) as [s|] eqn:Hs; [by eapply pending_app|].
      exists h, [k]. split; [done|]. split; [exists k; split; [done|by split; [congruence|simpl; congruence]]|].
      intros k' ->%list_elem_of_singleton. done.
    + by eapply pending_app.
  - intros id a Ha. apply due_app. by eapply H6.
Qed.

Lemma fire_ok m ds h rule value now since k for_ :
  alerting_ok uuid (mkSystem m ds (h ++ [k])) -> am_pending m !! ru_ID rule = Some since ->
  am_firing m !! ru_ID rule = None -> look_of (ru_ID rule) now k -> lk_met k = true ->
  forDuration (ru_For rule) = Ok for_ -> for_ <= now - since ->
  alerting_ok uuid (mkSystem (fire uuid rule value now m) ds (h ++ [k])).
Proof.
  intros Hok Hp Hf Hk Hm Hfor Hle. pose proof (fresh_alert _ _ _ Hok) as Hfresh.
  destruct Hok as [H1 H2 H3 H4 H5 H6]. split; simpl in *; try done.
  - intros id a [[<- <-]|[_ Ha]]%lookup_insert_Some; [split; [done|]; exists (am_next m); split; [lia|done]|].
    destruct (H1 id a Ha) as (? & j & ? & ?). split; [done|]. exists j. split; [lia|done].
  - intros id a [[<- <-]|[_ Ha]]%lookup_insert_Some Hst; [by rewrite lookup_insert_eq|].
    rewrite lookup_insert_ne; [by eapply H2|]. intros E. pose proof (H2 id a Ha Hst). congruence.
  - intros r a [[<- <-]|[Hne Hr]]%lookup_insert_Some.
    + split; [done|]. split; [done|]. eexists. rewrite lookup_insert_eq. split_and!; [done|done|by left].
    + destruct (H3 r a Hr) as (? & ? & b & Hb & Hbr & Hor). split; [done|]. split; [done|]. exists b.
      rewrite lookup_insert_ne; [done|]. intros E. cbn in E. congruence.
  - intros id Hin. destruct (H4 id Hin) as (a & Ha & Hst). exists a. split; [|done].
    rewrite lookup_insert_ne; [done|]. intros E. cbn in E. congruence.
  - assert (forall a, al_RuleID a = ru_ID rule -> al_FiredAt a = now -> due a (h ++ [k])) as Hdue.
    2:{ intros id a [[[<- <-]|[_ Ha]]%lookup_insert_Some|[[<- <-]|[_ Ha]]%lookup_insert_Some];
        first [by apply Hdue|by eapply H6; eauto]. }
    intros a Har Hat. exists rule, for_, since. rewrite Har, Hat. split_and!; [done|done|done|].
    destruct (H5 _ _ Hp) as (h1 & h2 & Hh & Hs). exists h1, h2, [], k. rewrite app_nil_r. split_and!; [done|done| |done].
    destruct Hs as [(k0 & Hk0 & _) _]. destruct h2 as [|k1 h2 _] using rev_ind; [done|].
    rewrite app_assoc in Hh. apply app_inj_tail in Hh as [_ <-]. apply last_snoc.
Qed.

(** The condition was not met: the run ends, and so does the alert. *)
Lemma unmet_ok m ds h rule k :
  alerting_ok uuid (mkSystem m ds h) -> lk_rule k = rule ->
  alerting_ok uuid (mkSystem (set_pending (delete (ru_ID rule) (am_pending m)) m) ds (h ++ [k])).
Proof.
  intros [H1 H2 H3 H4 H5 H6] Hkr. split; simpl in *; try done.
  - intros r s [Hne Hr]%lookup_delete_Some. eapply pending_app; [done|done| |done]. congruence.
  - intros id a Ha. apply due_app. by eapply H6.
Qed.

Lemma resolve_ok m ds h rule alert now :
  alerting_ok uuid (mkSystem m ds h) -> am_firing m !! ru_ID rule = Some alert ->
  alerting_ok uuid (mkSystem (resolve rule alert now m) ds h).
Proof.
  intros [H1 H2 H3 H4 H5 H6] Hf. simpl in *. destruct (H3 _ _ Hf) as (Hr & Hst & b & Hb & Hbr & Hor).
  destruct (H1 _ _ Hb) as (Hid & j & Hj & Huuid). split; simpl; try done.
  - intros id a [[<- <-]|[_ Ha]]%lookup_insert_Some; [|by eapply H1]. split; [done|]. by exists j.
  - intros id a [[<- <-]|[Hne Ha]]%lookup_insert_Some Hs; [done|].
    rewrite lookup_delete_ne; [by eapply H2|]. intros E. pose proof (H2 id a Ha Hs) as Ha'.
    rewrite <-E, Hf in Ha'. simplify_eq. by destruct (H1 id a Ha).
  - intros r a [Hne Hfr]%lookup_delete_Some. destruct (H3 r a Hfr) as (? & ? & c & Hc & Hcr & Hcor).
    split; [done|]. split; [done|]. exists c. rewrite lookup_insert_ne; [done|]. intros E. cbn in E. congruence.
  - intros id Hin. destruct (H4 id Hin) as (a & Ha & Hs). destruct (decide (id = al_ID alert)) as [->|Hne].
    + eexists. rewrite lookup_insert_eq. done.
    + exists a. by rewrite lookup_insert_ne.
  - intros id a [[[<- <-]|[_ Ha]]%lookup_insert_Some|[_ Ha]%lookup_delete_Some]; [|by eapply H6; eauto..].
    exact (H6 _ alert (or_intror Hf)).
Qed.

Lemma store_dismiss_ok m m' ds h id by_ now :
  alerting_ok uuid (mkSystem m ds h) -> storeDismiss id by_ now m = Some m' ->
  alerting_ok uuid (mkSystem m' ({[id]} ∪ ds) h).
Proof.
  intros [H1 H2 H3 H4 H5 H6]. unfold storeDismiss. simpl in *.
  destruct (am_alerts m !! id) as [b|] eqn:Hb; [|done]. intros [= <-]. destruct (H1 _ _ Hb) as (Hid & j & Hj & Huuid).
  split; simpl; try done.
  - intros id' a [[<- <-]|[_ Ha]]%lookup_insert_Some; [|by eapply H1]. split; [done|]. by exists j.
  - intros id' a [[<- <-]|[Hne Ha]]%lookup_insert_Some Hs; [done|]. by eapply H2.
  - intros r a Hr. destruct (H3 r a Hr) as (? & ? & c & Hc & Hcr & Hcor). split; [done|]. split; [done|].
    destruct (decide (id = al_ID a)) as [->|Hne].
    + exists (dismissedAlert now by_ b). rewrite lookup_insert_eq. split_and!; [done|simpl; congruence|by right].
    + exists c. by rewrite lookup_insert_ne.
  - intros id' [->%elem_of_singleton|Hin]%elem_of_union.
    + eexists. by rewrite lookup_insert_eq.
    + destruct (H4 id' Hin) as (a & Ha & Hs). destruct (decide (id = id')) as [->|Hne].
      * eexists. by rewrite lookup_insert_eq.
      * exists a. by rewrite lookup_insert_ne.
  - intros id' a [[[<- <-]|[_ Ha]]%lookup_insert_Some|Ha]; [|by eapply H6; eauto..].
    exact (H6 _ b (or_introl Hb)).
Qed.

Lemma manager_dismiss_ok m ds h id :
  alerting_ok uuid (mkSystem m ds h) -> id ∈ ds -> alerting_ok uuid (mkSystem (managerDismiss id m) (ds ∖ {[id]}) h).
Proof.
  intros Hok Hin. destruct Hok as [H1 H2 H3 H4 H5 H6]. simpl in *. unfold managerDismiss.
  assert (forall id', id' ∈ ds ∖ {[id]} -> id' ∈ ds) as Hsub by set_solver.
  destruct (filter _ _) as [|[r a] l] eqn:Hf; [by split; simpl; eauto|].
  assert ((r, a) ∈ filter (fun kv => al_ID kv.2 = id) (map_to_list (am_firing m))) as Hra by (rewrite Hf; by left).
  apply list_elem_of_filter in Hra as [Hid Hra]. simpl in Hid. apply elem_of_map_to_list in Hra.
  destruct (H3 r a Hra) as (Har & Hst & c & Hc & Hcr & _). destruct (H4 id Hin) as (b & Hb & Hbs).
  split; simpl; eauto.
  - intros id' a' Ha' Hs'. rewrite lookup_delete_ne; [by eapply H2|]. intros E.
    pose proof (H2 id' a' Ha' Hs') as Hf'. rewrite <-E, Hra in Hf'. injection Hf' as ->. destruct (H1 id' a' Ha') as [Hid' _]. congruence.
  - intros r' a' [Hne Hr']%lookup_delete_Some. by apply H3.
  - intros r' s [Hne Hr']%lookup_delete_Some. by apply H5.
  - intros id' a' [Ha'|[_ Ha']%lookup_delete_Some]; eapply H6; eauto.
Qed.

Lemma look_ok m ds h rule answer now :
  alerting_ok uuid (mkSystem m ds h) ->
  alerting_ok uuid (mkSystem (tickRule uuid rule answer now m) ds (h ++ looked rule answer now)).
Proof.
  intros Hok. unfold tickRule, looked, evaluateRule. destruct (ru_Enabled rule); [|by rewrite app_nil_r].
  destruct answer as [value|e]; [|by rewrite app_nil_r].
  destruct (forDuration (ru_For rule)) as [for_|e] eqn:Hfor; [|by rewrite app_nil_r].
  set (k := mkLook rule now (checkCondition value (ru_Condition rule) (ru_Threshold rule))).
  destruct (checkCondition _ _ _) eqn:Hmet.
  - set (since := default now (am_pending m !! ru_ID rule)).
    pose proof (met_ok m ds h rule now since k Hok eq_refl eq_refl eq_refl eq_refl) as Hm.
    destruct (_ && _) eqn:Hfire; [|exact Hm]. apply andb_true_iff in Hfire as [Hle Hf]. bool_props.
    apply (fire_ok _ _ _ _ _ _ since k for_ Hm); [simpl; by rewrite lookup_insert_eq| |done|done|done|done].
    by apply eq_None_not_Some.
  - pose proof (unmet_ok m ds h rule k Hok eq_refl) as Hm.
    destruct (am_firing _ !! ru_ID rule) as [alert|] eqn:Hf; [|exact Hm]. by apply resolve_ok.
Qed.

Lemma astep_ok sy sy' : astep uuid sy sy' -> alerting_ok uuid sy -> alerting_ok uuid sy'.
Proof.
  intros Hstep Hok. destruct Hstep.
  - by apply look_ok.
  - by eapply store_dismiss_ok.
  - by apply manager_dismiss_ok.
  - by destruct Hok.
  - by destruct Hok.
Qed.

Lemma newSystem_ok : alerting_ok uuid newSystem.
Proof. split; simpl; [done|done|done|set_solver|done|]. by intros id a [?|?]. Qed.

Lemma reachable_ok sy : rtc (astep uuid) newSystem sy -> alerting_ok uuid sy.
Proof.
  revert sy. refine (rtc_ind_r _ _ _ _); [apply newSystem_ok|]. intros sy sy' _ Hstep. by apply astep_ok.
Qed.
End preserved.

(** ** What a look does *)

(** A condition that does not hold leaves no alert of the rule firing, in the store
    either; one that has held long enough leaves one. *)
Lemma look_effect uuid m ds h rule value now for_ :
  alerting_ok uuid (mkSystem m ds h) -> ru_Enabled rule = true -> forDuration (ru_For rule) = Ok for_ ->
  let m' := tickRule uuid rule (Ok value) now m in
  (checkCondition value (ru_Condition rule) (ru_Threshold rule) = false ->
     am_firing m' !! ru_ID rule = None /\
     forall id a, am_alerts m' !! id = Some a -> al_RuleID a = ru_ID rule -> al_Status a <> AlertFiring) /\
  (checkCondition value (ru_Condition rule) (ru_Threshold rule) = true ->
     for_ <= now - default now (am_pending m !! ru_ID rule) -> is_Some (am_firing m' !! ru_ID rule)).
Proof.
  intros Hok Hen Hfor. unfold tickRule, evaluateRule. rewrite Hen, Hfor. split.
  - intros ->. assert (forall id a, am_alerts m !! id = Some a -> al_RuleID a = ru_ID rule -> al_Status a = AlertFiring ->
      am_firing m !! ru_ID rule = Some a) as Hfir by (intros id a Ha <- Hs; exact (ao_firing _ _ Hok id a Ha Hs)).
    destruct (am_firing _ !! ru_ID rule) as [alert|] eqn:Hf; simpl in *.
    + rewrite lookup_delete_eq. split; [done|]. intros id a [[<- <-]|[Hne Ha]]%lookup_insert_Some Hr Hs; [done|].
      pose proof (Hfir id a Ha Hr Hs) as [= ->]. by destruct (ao_id _ _ Hok id a Ha).
    + split; [done|]. intros id a Ha Hr Hs. by pose proof (Hfir id a Ha Hr Hs).
  - intros -> Hle. apply Z.leb_le in Hle. rewrite Hle. simpl.
    destruct (am_firing m !! ru_ID rule) as [a|] eqn:Hf; simpl; [by rewrite Hf; eexists|]. rewrite lookup_insert_eq. by eexists.
Qed.

(** C?: alerts are neither duplicated nor premature. Whatever looks at rules (of any
    version, with any answers, at any times), dismissals and rule changes happened, at
    most one alert of a rule has the status firing; an alert is recorded only when the
    rule's condition held at every look over at least the rule's duration; and the next
    look that counts resolves the rule's alert when the condition does not hold, or has
    one firing when it has held for the duration. *)
Theorem alerting_sound uuid `{!Inj (=) (=) uuid} sy :
  rtc (astep uuid) newSystem sy ->
  (forall id1 id2 a1 a2, am_alerts (sy_manager sy) !! id1 = Some a1 -> am_alerts (sy_manager sy) !! id2 = Some a2 ->
     al_Status a1 = AlertFiring -> al_Status a2 = AlertFiring -> al_RuleID a1 = al_RuleID a2 -> a1 = a2) /\
  (forall id a, am_alerts (sy_manager sy) !! id = Some a -> due a (sy_looks sy)) /\
  (forall rule value now for_, ru_Enabled rule = true -> forDuration (ru_For rule) = Ok for_ ->
     let m' := tickRule uuid rule (Ok value) now (sy_manager sy) in
     (checkCondition value (ru_Condition rule) (ru_Threshold rule) = false ->
        forall id a, am_alerts m' !! id = Some a -> al_RuleID a = ru_ID rule -> al_Status a <> AlertFiring) /\
     (checkCondition value (ru_Condition rule) (ru_Threshold rule) = true ->
        for_ <= now - default now (am_pending (sy_manager sy) !! ru_ID rule) -> is_Some (am_firing m' !! ru_ID rule))).
Proof.
  intros Hrun. pose proof (reachable_ok uuid sy Hrun) as Hok. split_and!.
  - intros id1 id2 a1 a2 H1 H2 Hs1 Hs2 Hr. pose proof (ao_firing _ _ Hok _ _ H1 Hs1) as E1.
    pose proof (ao_firing _ _ Hok _ _ H2 Hs2) as E2. rewrite Hr in E1. congruence.
  - intros id a Ha. eapply ao_due; eauto.
  - intros rule value now for_ Hen Hfor. destruct sy as [m ds h].
    destruct (look_effect uuid m ds h rule value now for_ Hok Hen Hfor) as [H1 H2]. split; [intros Hc|done].
    by apply (H1 Hc).
Qed.

(** A rule that asks for a load above 1 for a minute. *)
Definition busyRule : AlertRule := mkRule "r" "busy" "load" ">" (of_int 1) "1m" "warning" ∅ ∅ ["http://hook"] true.
Definition busyRun : System :=
  let m := tickRule pretty busyRule (Ok (of_int 2)) 0 NewAlertManager in
  mkSystem (tickRule pretty busyRule (Ok (of_int 3)) (60 * Second) m) ∅
    ([mkLook busyRule 0 true] ++ [mkLook busyRule (60 * Second) true]).

Lemma busyRun_reachable : rtc (astep pretty) newSystem busyRun.
Proof.
  eapply rtc_l; [apply (as_look pretty _ _ _ busyRule (Ok (of_int 2)) 0)|].
  apply rtc_once. exact (as_look pretty _ _ _ busyRule (Ok (of_int 3)) (60 * Second)).
Qed.

Lemma alerting_sound_witness :
  exists a, am_alerts (sy_manager busyRun) !! "0" = Some a /\ al_Status a = AlertFiring /\ due a (sy_looks busyRun) /\
    (forall id b, am_alerts (tickRule pretty busyRule (Ok fzero) (75 * Second) (sy_manager busyRun)) !! id = Some b ->
       al_RuleID b = "r" -> al_Status b <> AlertFiring).
Proof.
  eexists. split; [vm_compute; reflexivity|]. split; [vm_compute; reflexivity|].
  destruct (alerting_sound pretty busyRun busyRun_reachable) as (_ & Hdue & Hlook). split.
  - apply (Hdue "0"). vm_compute. reflexivity.
  - apply (Hlook busyRule fzero (75 * Second) (60 * Second)); vm_compute; reflexivity.
Defined.

(** ** What the manager leaves open *)

(** A dismissal between whose halves the condition ends is overwritten: the alert the
    user dismissed is recorded as resolved, with no trace of who dismissed it. *)
Lemma dismissal_lost :
  exists m a, storeDismiss "0" "alice" (61 * Second) (sy_manager busyRun) = Some m /\
    am_alerts (managerDismiss "0" (tickRule pretty busyRule (Ok fzero) (75 * Second) m)) !! "0" = Some a /\
    al_Status a = AlertResolved /\ al_DismissedBy a = "".
Proof. eexists _, _. split; [vm_compute; reflexivity|]. split; [vm_compute; reflexivity|]. split; reflexivity. Qed.

Definition disabledRule : AlertRule := mkRule "r" "busy" "load" ">" (of_int 1) "1m" "warning" ∅ ∅ ["http://hook"] false.

(** A rule that is disabled keeps its firing alert, whatever its query answers, and the
    start of its pending period: enabled again, it fires at once. *)
Lemma disabled_keeps_state :
  (forall answer now, tickRule pretty disabledRule answer now (sy_manager busyRun) = sy_manager busyRun) /\
  let m := tickRule pretty busyRule (Ok (of_int 2)) 0 NewAlertManager in
  let m := tickRule pretty disabledRule (Ok fzero) (30 * Second) m in
  is_Some (am_firing (tickRule pretty busyRule (Ok (of_int 2)) (60 * Second) m) !! "r").
Proof. split; [done|]. vm_compute. by eexists. Qed.

(** So does a query that fails: the period goes on as if the condition had held. *)
Lemma failure_keeps_pending e :
  let m := tickRule pretty busyRule (Ok (of_int 2)) 0 NewAlertManager in
  let m := tickRule pretty busyRule (Err e) (30 * Second) m in
  is_Some (am_firing (tickRule pretty busyRule (Ok (of_int 2)) (60 * Second) m) !! "r").
Proof. vm_compute. by eexists. Qed.

(** Series that stop reporting resolve the alert: no points are a NaN, which meets no
    condition, not even a difference. *)
Lemma silence_resolves op threshold : checkCondition (latestAvg []) op threshold = false.
Proof. done. Qed.

(** The fall back to days that the comment of [parseDuration] announces is an error. *)
Lemma days_unsupported : forDuration "1d" = Err (RuleFor "1d").
Proof. vm_compute. reflexivity. Qed.
