(* ===== verification/LogStore.v ===== *)
(** * The log store

    [src/internal/controlplane/logging/logging.go] (entries and stream ids) and
    [src/internal/controlplane/logging/store/store.go] over the ordered key-value
    interface, with its parser of simple selectors. *)

From stdpp Require Import options.
From Stdlib Require Import Ascii Sorting.Sorted.
From S2P Require Import Prelude GoStrings Words IndexKeys OrderedKV LabelIndex TsdbStore.
Open Scope Z_scope.

(** ** Entries and streams *)

Record LogEntry := mkEntry {
  le_Timestamp : Z;
  le_Level : string;
  le_Message : string;
  le_Labels : gmap string string;
  le_Fields : gmap string string
}.

(** [sort.Strings] *)
Fixpoint insertString (x : string) (l : list string) : list string :=
  match l with
  | [] => [x]
  | y :: l => if String.leb x y then x :: y :: l else y :: insertString x l
  end.
Definition sortStrings (l : list string) : list string := foldr insertString [] l.

(** [LogEntry.StreamID]: the FNV-1a hash of "k1=v1,k2=v2,..." *)
Definition StreamID (e : LogEntry) : Z :=
  let keys := sortStrings (map_to_list (le_Labels e)).*1 in
  fnv64a (bytes_of (Join ((fun k => k +:+ "=" +:+ default "" (le_Labels e !! k)) <$> keys) ",")).

(** Values of the database: a compressed entry or the JSON of a label map, kept as
    what they encode, or nothing. *)
Inductive LogValue := VEntry (e : LogEntry) | VLabels (labels : gmap string string) | VNone.

Record Stream := mkStream { st_Labels : gmap string string; st_Entries : list LogEntry }.
Record QueryStats := mkStats { EntriesScanned : Z }.

Inductive LogError := ErrDecompress (key : list Z).

(** The directions of a query. *)
Definition forward : string := "forward".
Definition backward : string := "backward".

Section store.
Context {D : Type} `{KV LogValue D}.

(** The entries of the write batch for one log entry. The label loops range over a
    map; their entries have distinct keys, so the order does not matter. *)
Definition entryEntries (retention : Z) (e : LogEntry) : list (list Z * LogValue * Z) :=
  let streamID := StreamID e in
  [(Logs.EncodeLogEntryKey streamID (le_Timestamp e), VEntry e, retention);
   (Logs.EncodeStreamKey streamID, VLabels (le_Labels e), retention)]
  ++ ((fun kv => (Logs.EncodeInvertedKey kv.1 kv.2 streamID, VNone, retention)) <$> map_to_list (le_Labels e))
  ++ ((fun kv => (Logs.EncodeLabelNameKey kv.1, VNone, retention + Hour)) <$> map_to_list (le_Labels e)).

Definition batchEntries (retention : Z) (entries : list LogEntry) : list (list Z * LogValue * Z) :=
  concat (entryEntries retention <$> entries).

Definition LogWrite (retention now : Z) (entries : list LogEntry) (d : D) : option D :=
  setEntries now (batchEntries retention entries) d.

(** [DecodeLogEntryKey] of an iterator's key; it panics on no key. *)
Definition decodedEntry (key : list Z) : option (Z * Z) :=
  match Logs.DecodeLogEntryKey key with Ok o => o | Err _ => None end.

(** The loop state: the streams, how many entries were collected and scanned. *)
Record Scan := mkScan { sc_streams : gmap Z Stream; sc_total : Z; sc_scanned : Z }.

Definition getStreamLabels (now : Z) (d : D) (sid : Z) : option (gmap string string) :=
  match kv_get now (Logs.EncodeStreamKey sid) d with Some (VLabels labels) => Some labels | _ => None end.

Definition addEntry (now : Z) (d : D) (sid : Z) (e : LogEntry) (sc : Scan) : Scan :=
  let st := default (mkStream (default ∅ (getStreamLabels now d sid)) []) (sc_streams sc !! sid) in
  mkScan (<[sid := mkStream (st_Labels st) (st_Entries st ++ [e])]> (sc_streams sc)) (sc_total sc + 1)
    (sc_scanned sc).

(** The scan of one stream. *)
Fixpoint scanStream (now : Z) (d : D) (limit startNs endNs sid : Z) (direction : string)
    (lineFilter : option (string -> bool)) (es : list (list Z * LogValue)) (sc : Scan)
    : result LogError Scan :=
  match es with
  | [] => Ok sc
  | (k, v) :: es =>
      if limit <=? sc_total sc then Ok sc
      else
        match decodedEntry k with
        | None => scanStream now d limit startNs endNs sid direction lineFilter es sc
        | Some (_, tsNs) =>
            if (if bool_decide (direction = backward) then tsNs <? startNs else endNs <? tsNs) then Ok sc
            else
              let sc := mkScan (sc_streams sc) (sc_total sc) (sc_scanned sc + 1) in
              match v with
              | VEntry e =>
                  let sc :=
                    match lineFilter with
                    | Some f => if f (le_Message e) then addEntry now d sid e sc else sc
                    | None => addEntry now d sid e sc
                    end in
                  scanStream now d limit startNs endNs sid direction lineFilter es sc
              | _ => Err (ErrDecompress k)
              end
        end
  end.

(** The iterator of a stream: downwards from the end of the range, or upwards from
    its start. *)
Definition streamIter (now : Z) (d : D) (startNs endNs sid : Z) (direction : string)
    : list (list Z * LogValue) :=
  if bool_decide (direction = backward)
  then iter_rev (Logs.LogEntryKeyPrefix sid) (Logs.EncodeLogEntryKey sid endNs) (kv_entries now d)
  else iter (Logs.LogEntryKeyPrefix sid) (Logs.LogEntryKeyRangeStart sid startNs) (kv_entries now d).

Fixpoint scanStreams (now : Z) (d : D) (limit startNs endNs : Z) (direction : string)
    (lineFilter : option (string -> bool)) (sids : list Z) (sc : Scan) : result LogError Scan :=
  match sids with
  | [] => Ok sc
  | sid :: sids =>
      if limit <=? sc_total sc then Ok sc
      else
        sc ← scanStream now d limit startNs endNs sid direction lineFilter
               (streamIter now d startNs endNs sid direction) sc;
        scanStreams now d limit startNs endNs direction lineFilter sids sc
  end.

(** Times are nanoseconds since the epoch. The returned streams are the values of the
    map, in no particular order. *)
Definition QueryWithMatchers (now : Z) (d : D) (streamIDs : list Z) (startNs endNs limit : Z)
    (direction : string) (lineFilter : option (string -> bool)) : result LogError Scan :=
  let limit := if limit <=? 0 then 100 else limit in
  let direction := if bool_decide (direction = "") then backward else direction in
  scanStreams now d limit startNs endNs direction lineFilter streamIDs (mkScan ∅ 0 0).

Definition FindStreams (regexpCompile : string -> option (string -> bool)) (now : Z) (d : D)
    (matchers : list LabelMatcher) : result RegexpError (gset Z) :=
  findIDs Logs.prefixInverted regexpCompile now d matchers.

Definition ListLabels (now : Z) (d : D) : list string :=
  omap (fun e => Logs.DecodeLabelNameKey e.1)
    (iter Logs.LabelNameKeyPrefix Logs.LabelNameKeyPrefix (kv_entries now d)).
End store.

(** ** Tail subscribers *)

(** A subscriber's channel has room for 256 entries; a full one drops. *)
Definition offer (entries : list LogEntry) (ch : list LogEntry) : list LogEntry :=
  foldl (fun ch e => if (length ch <? 256)%nat then ch ++ [e] else ch) ch entries.

Definition fanOut (entries : list LogEntry) (subs : gmap Z (list LogEntry)) : gmap Z (list LogEntry) :=
  offer entries <$> subs.

(** ** Simple selectors: {key="value", ...} *)

Definition is_blank (c : ascii) : bool := bool_decide (c = " "%char) || bool_decide (byte_of c = 9).

Fixpoint trimStart (s : string) : string :=
  match s with
  | String c s' => if is_blank c then trimStart s' else s
  | EmptyString => ""
  end.
Fixpoint string_rev (s acc : string) : string :=
  match s with String c s => string_rev s (String c acc) | EmptyString => acc end.
Definition trimSpace (s : string) : string :=
  string_rev (trimStart (string_rev (trimStart s) "")) "".

Definition quote : ascii := Ascii.ascii_of_nat 34.

Fixpoint splitMatchersLoop (s current : string) (inQuote : bool) : list string :=
  match s with
  | EmptyString => if bool_decide (current = "") then [] else [current]
  | String ch s =>
      if bool_decide (ch = quote) then splitMatchersLoop s (current +:+ String ch "") (negb inQuote)
      else if bool_decide (ch = ","%char) && negb inQuote then current :: splitMatchersLoop s "" inQuote
      else splitMatchersLoop s (current +:+ String ch "") inQuote
  end.
Definition splitMatchers (s : string) : list string := splitMatchersLoop s "" false.

(** [findOperator(s[i:], op)] with the byte before position [i]. *)
Fixpoint findOperatorFrom (i : nat) (prev : option ascii) (s op : string) : option nat :=
  match s with
  | EmptyString => None
  | String c s' =>
      if HasPrefix s op
         && negb (bool_decide (op = "=")
                  && (bool_decide (prev = Some "!"%char) || bool_decide (prev = Some "="%char)
                      || HasPrefix s' "~"))
      then Some i
      else findOperatorFrom (S i) (Some c) s' op
  end.
Definition findOperator (s op : string) : option nat := findOperatorFrom 0 None s op.

Definition operators : list (string * MatchType) :=
  [("!~", MatchNotRegexp); ("=~", MatchRegexp); ("!=", MatchNotEqual); ("=", MatchEqual)].

(** [value[1 : len(value)-1]] of a quoted value *)
Definition unquote (value : string) : string :=
  let q := String quote "" in
  if (2 <=? String.length value)%nat && HasPrefix value q && HasSuffix value q
  then String.substring 1 (String.length value - 2) value else value.

Definition parseMatcher (s : string) : option LabelMatcher :=
  let s := trimSpace s in
  (fix try (ops : list (string * MatchType)) : option LabelMatcher :=
     match ops with
     | [] => None
     | (sep, typ) :: ops =>
         match findOperator s sep with
         | Some idx =>
             Some (mkMatcher (trimSpace (take_str idx s))
                     (unquote (trimSpace (drop_str (idx + String.length sep) s))) typ)
         | None => try ops
         end
     end) operators.

Definition parseSimpleQuery (query : string) : list LabelMatcher :=
  if bool_decide (query = "") then []
  else
    let q := if (2 <=? String.length query)%nat && HasPrefix query "{" && HasSuffix query "}"
             then String.substring 1 (String.length query - 2) query else query in
    if bool_decide (q = "") then [] else omap parseMatcher (splitMatchers q).

Section query.
Context {D : Type} `{KV LogValue D}.

Inductive QueryError := QRegexp (e : RegexpError) | QLog (e : LogError).

(** [Query]; [order] is the iteration order of the set of stream ids. *)
Definition LogQuery (regexpCompile : string -> option (string -> bool)) (order : gset Z -> list Z)
    (now : Z) (d : D) (query : string) (startNs endNs limit : Z) (direction : string)
    : result QueryError Scan :=
  match FindStreams regexpCompile now d (parseSimpleQuery query) with
  | Err e => Err (QRegexp e)
  | Ok ids =>
      match QueryWithMatchers now d (order ids) startNs endNs limit direction None with
      | Ok sc => Ok sc
      | Err e => Err (QLog e)
      end
  end.
End query.

Example parseSimpleQuery_1 : parseSimpleQuery (string_of [123;97;61;34;120;44;121;34;44;32;98;33;126;34;122;34;125]) =
  [mkMatcher "a" "x,y" MatchEqual; mkMatcher "b" "z" MatchNotRegexp].
Proof. by vm_compute. Qed.

(** ** Lemmas on ordered scans *)

Fixpoint take_while {A} (P : A -> bool) (l : list A) : list A :=
  match l with
  | [] => []
  | x :: l => if P x then x :: take_while P l else []
  end.

(** On a list sorted so that the test stays false once it fails, stopping at the
    first failure loses nothing. *)
Lemma elem_of_take_while {A} (R : A -> A -> Prop) (P : A -> bool) l x :
  StronglySorted R l -> (forall a b, R a b -> P b = true -> P a = true) ->
  x ∈ take_while P l <-> x ∈ l /\ P x = true.
Proof.
  intros Hs HP. induction Hs as [|a l Hs IH Hf]; cbn [take_while].
  - rewrite !elem_of_nil. tauto.
  - destruct (P a) eqn:Ha; rewrite !elem_of_cons.
    + rewrite IH. split; [|tauto]. intros [->|[? ?]]; auto.
    + rewrite elem_of_nil. split; [done|]. intros [[->|Hin] Hx]; [congruence|].
      rewrite Forall_forall in Hf. by rewrite (HP _ _ (Hf _ Hin) Hx) in Ha.
Qed.

Lemma StronglySorted_take_while {A} (R : A -> A -> Prop) (P : A -> bool) l :
  StronglySorted R l -> StronglySorted R (take_while P l).
Proof.
  induction 1 as [|a l Hs IH Hf]; cbn [take_while]; [constructor|]. destruct (P a); constructor; [done|].
  rewrite Forall_forall in Hf |- *. intros x Hx. apply Hf. clear -Hx.
  induction l as [|b l IH]; [done|]. cbn [take_while] in Hx. destruct (P b); [|by apply elem_of_nil in Hx].
  apply elem_of_cons in Hx as [->|Hx]; [by left|right; auto].
Qed.

Lemma StronglySorted_reverse {A} (R : A -> A -> Prop) l :
  StronglySorted R l -> StronglySorted (flip R) (reverse l).
Proof.
  induction 1 as [|a l Hs IH Hf]; [constructor|]. rewrite reverse_cons.
  assert (Forall (fun x => flip R x a) (reverse l)) as Hr.
  { apply Forall_forall. intros x Hx. rewrite elem_of_reverse in Hx. rewrite Forall_forall in Hf. by apply Hf. }
  revert IH Hr. generalize (reverse l). clear. intros l Hs Hr.
  induction Hs as [|b l Hs IH Hf]; [by repeat constructor|]. apply Forall_cons in Hr as [Hb Hr].
  constructor; [by apply IH|]. apply Forall_app. split; [done|]. by repeat constructor.
Qed.

(** ** What a history of log batches leaves *)

Definition matches_log (sid ts : Z) (e : LogEntry) : Prop := StreamID e = sid /\ le_Timestamp e = ts.
#[global] Instance matches_log_dec sid ts e : Decision (matches_log sid ts e).
Proof. unfold matches_log. apply _. Defined.

(** The last entry written for a stream and a time. *)
Definition last_log (entries : list LogEntry) (sid ts : Z) : option LogEntry :=
  last (filter (matches_log sid ts) entries).

Definition logs_of (hist : list (Z * list LogEntry)) : list LogEntry := concat hist.*2.

Lemma StreamID_u64 e : is_u64 (StreamID e).
Proof. apply fnv64a_u64. Qed.

Lemma entryEntries_shape retention e x :
  x ∈ entryEntries retention e ->
  x = (Logs.EncodeLogEntryKey (StreamID e) (le_Timestamp e), VEntry e, retention) \/
  x.1.1 = Logs.EncodeStreamKey (StreamID e) \/
  (exists k v, x.1.1 = Logs.EncodeInvertedKey k v (StreamID e)) \/ (exists k, x.1.1 = Logs.EncodeLabelNameKey k).
Proof.
  unfold entryEntries. cbv zeta. rewrite !elem_of_app, !elem_of_cons, !list_elem_of_fmap, elem_of_nil.
  intros [[->|[->|[]]]|[([k v] & -> & _)|([k v] & -> & _)]]; [by left|by right; left|right; right; left; by eexists _, _|].
  do 3 right. by eexists.
Qed.

Lemma entryEntries_ttl retention e : Forall (fun x => retention <= x.2) (entryEntries retention e).
Proof.
  unfold entryEntries. cbv zeta. rewrite !Forall_app, !Forall_cons, Forall_nil, !Forall_fmap.
  assert (0 <= Hour) by (unfold Hour, Minute, Second; lia).
  split_and!; simpl; try lia; apply Forall_true; simpl; lia.
Qed.

Lemma batchEntries_ttl retention es : Forall (fun x => retention <= x.2) (batchEntries retention es).
Proof. unfold batchEntries. apply Forall_concat, Forall_fmap, Forall_true. apply entryEntries_ttl. Qed.

Lemma batchEntries_app retention a b :
  batchEntries retention (a ++ b) = batchEntries retention a ++ batchEntries retention b.
Proof. unfold batchEntries. by rewrite fmap_app, concat_app. Qed.

Lemma batch_entries_logs retention hist :
  batch_entries (batchEntries retention) hist = batchEntries retention (logs_of hist).
Proof.
  induction hist as [|[now es] hist IH]; [done|]. unfold batch_entries, logs_of in *. csimpl.
  by rewrite batchEntries_app, IH.
Qed.

Lemma entry_last retention e sid ts :
  is_u64 sid -> is_s64 ts -> is_s64 (le_Timestamp e) ->
  last_entry (Logs.EncodeLogEntryKey sid ts) (entryEntries retention e) =
    if decide (matches_log sid ts e) then Some (VEntry e) else None.
Proof.
  intros Hs Ht Hd. destruct (last_entry _ _) as [v|] eqn:Hl.
  - apply last_entry_elem in Hl as [ttl Hin]. apply entryEntries_shape in Hin as [E|[E|[(k & w & E)|(k & E)]]].
    2-4: simpl in E; discriminate E.
    assert (sid = StreamID e /\ ts = le_Timestamp e) as [-> ->].
    { apply (f_equal (fun x => x.1.1)) in E. cbn [fst] in E. apply encodeIDTime_inj in E; [done|done|apply StreamID_u64|done..]. }
    rewrite decide_True by done. by simplify_eq.
  - rewrite decide_False; [done|]. intros [<- <-].
    assert ((Logs.EncodeLogEntryKey (StreamID e) (le_Timestamp e), VEntry e, retention) ∈ entryEntries retention e)
      as Hin by (unfold entryEntries; by left).
    apply last_entry_is_Some in Hin. cbn [fst] in Hin. rewrite Hl in Hin. by destruct Hin.
Qed.

Lemma batch_last retention es sid ts :
  is_u64 sid -> is_s64 ts -> Forall (fun e => is_s64 (le_Timestamp e)) es ->
  last_entry (Logs.EncodeLogEntryKey sid ts) (batchEntries retention es) = VEntry <$> last_log es sid ts.
Proof.
  intros Hs Ht. induction es as [|e es IH] using rev_ind; [done|]. rewrite Forall_app, Forall_singleton.
  intros [Hes He]. rewrite batchEntries_app, last_entry_app.
  assert (batchEntries retention [e] = entryEntries retention e) as -> by (unfold batchEntries; cbn; by rewrite app_nil_r).
  rewrite entry_last by done. unfold last_log. rewrite filter_app, filter_cons, last_app.
  case_decide; [done|]. by rewrite IH.
Qed.

(** ** Scanning a stream *)

Lemma decodedEntry_encode sid ts :
  is_u64 sid -> is_s64 ts -> decodedEntry (Logs.EncodeLogEntryKey sid ts) = Some (sid, ts).
Proof. intros. unfold decodedEntry, Logs.DecodeLogEntryKey, Logs.EncodeLogEntryKey. by rewrite decode_encodeIDTime. Qed.

Definition kvs (sid : Z) (xs : list LogEntry) : list (list Z * LogValue) :=
  (fun x => (Logs.EncodeLogEntryKey sid (le_Timestamp x), VEntry x)) <$> xs.

Definition keeps (lineFilter : option (string -> bool)) (x : LogEntry) : bool :=
  match lineFilter with Some f => f (le_Message x) | None => true end.

Definition within (direction : string) (startNs endNs : Z) (x : LogEntry) : bool :=
  if bool_decide (direction = backward) then startNs <=? le_Timestamp x else le_Timestamp x <=? endNs.

(** The entries collected for a stream. *)
Definition collected (sc : Scan) (sid : Z) : list LogEntry :=
  from_option st_Entries [] (sc_streams sc !! sid).

(** What a scan adds to one stream. *)
Definition extends (sid : Z) (got : list LogEntry) (sc sc' : Scan) : Prop :=
  collected sc' sid = collected sc sid ++ got /\
  (forall sid', sid' <> sid -> collected sc' sid' = collected sc sid') /\
  sc_total sc' = sc_total sc + zlen got.

Lemma addEntry_extends {D} `{KV LogValue D} now (d : D) sid x sc :
  extends sid [x] sc (addEntry now d sid x sc).
Proof.
  unfold extends, addEntry, collected. cbn [sc_streams sc_total]. split_and!; [|intros sid' Hne|simpl; lia].
  - rewrite lookup_insert_eq. simpl. by destruct (sc_streams sc !! sid).
  - by rewrite lookup_insert_ne by done.
Qed.

Lemma extends_cons sid x got sc sc1 sc2 :
  extends sid [x] sc sc1 -> extends sid got sc1 sc2 -> extends sid (x :: got) sc sc2.
Proof.
  intros (H1 & H2 & H3) (H4 & H5 & H6). split_and!.
  - by rewrite H4, H1, <-app_assoc.
  - intros sid' Hne. by rewrite H5, H2.
  - rewrite H6, H3. simpl. lia.
Qed.

Lemma scanStream_spec {D} `{KV LogValue D} now (d : D) limit startNs endNs sid direction lineFilter xs sc :
  is_u64 sid -> Forall (fun x => is_s64 (le_Timestamp x)) xs ->
  exists sc', scanStream now d limit startNs endNs sid direction lineFilter (kvs sid xs) sc = Ok sc' /\
    extends sid (take (Z.to_nat (limit - sc_total sc))
      (filter (fun x => keeps lineFilter x = true) (take_while (within direction startNs endNs) xs))) sc sc'.
Proof.
  intros Hsid. revert sc. induction xs as [|x xs IH]; intros sc Hxs.
  { exists sc. cbn. rewrite take_nil. split; [done|]. split_and!; [by rewrite app_nil_r|done|simpl; lia]. }
  apply Forall_cons in Hxs as [Hx Hxs].
  assert (forall sc, extends sid [] sc sc) as Hrefl.
  { intros sc'. split_and!; [by rewrite app_nil_r|done|simpl; lia]. }
  change (kvs sid (x :: xs)) with ((Logs.EncodeLogEntryKey sid (le_Timestamp x), VEntry x) :: kvs sid xs).
  cbn [scanStream]. destruct (Z.leb_spec limit (sc_total sc)) as [Hl|Hl].
  { exists sc. split; [done|]. replace (Z.to_nat _) with O by lia. rewrite take_0. apply Hrefl. }
  rewrite decodedEntry_encode by done.
  assert ((if bool_decide (direction = backward) then le_Timestamp x <? startNs else endNs <? le_Timestamp x)
    = negb (within direction startNs endNs x)) as ->.
  { unfold within. destruct (bool_decide _); by rewrite Z.leb_antisym, negb_involutive. }
  cbn [take_while]. destruct (within direction startNs endNs x) eqn:Hin; cbn [negb].
  2: { exists sc. split; [done|]. rewrite filter_nil, take_nil. apply Hrefl. }
  cbv zeta. set (sc1 := mkScan (sc_streams sc) (sc_total sc) (sc_scanned sc + 1)).
  rewrite filter_cons. destruct (keeps lineFilter x) eqn:Hk; unfold keeps in Hk.
  - rewrite decide_True by done.
    assert ((match lineFilter with Some f => if f (le_Message x) then addEntry now d sid x sc1 else sc1
      | None => addEntry now d sid x sc1 end) = addEntry now d sid x sc1) as ->
      by (destruct lineFilter; [by rewrite Hk|done]).
    destruct (IH (addEntry now d sid x sc1) Hxs) as (sc' & -> & Hext). exists sc'. split; [done|].
    replace (Z.to_nat (limit - sc_total sc)) with (S (Z.to_nat (limit - sc_total (addEntry now d sid x sc1))))
      by (simpl; lia).
    cbn [take]. eapply extends_cons; [|exact Hext]. apply (addEntry_extends now d sid x sc1).
  - rewrite decide_False by done.
    assert ((match lineFilter with Some f => if f (le_Message x) then addEntry now d sid x sc1 else sc1
      | None => addEntry now d sid x sc1 end) = sc1) as -> by (destruct lineFilter; [by rewrite Hk|done]).
    destruct (IH sc1 Hxs) as (sc' & -> & Hext). by exists sc'.
Qed.

Lemma kvs_of sid es :
  Forall (fun e : list Z * LogValue => exists x, e = (Logs.EncodeLogEntryKey sid (le_Timestamp x), VEntry x)
    /\ 0 <= le_Timestamp x < 2 ^ 63) es ->
  exists xs, es = kvs sid xs /\ Forall (fun x => 0 <= le_Timestamp x < 2 ^ 63) xs.
Proof.
  induction 1 as [|e es (x & -> & Hx) _ (xs & -> & Hxs)]; [by exists []|]. exists (x :: xs).
  split; [done|by constructor].
Qed.

Lemma elem_of_kvs sid xs x :
  (forall y, y ∈ xs -> is_s64 (le_Timestamp y)) -> is_u64 sid ->
  x ∈ xs <-> (Logs.EncodeLogEntryKey sid (le_Timestamp x), VEntry x) ∈ kvs sid xs.
Proof.
  intros _ _. unfold kvs. rewrite list_elem_of_fmap. split; [eauto|]. intros (y & E & Hy).
  assert (x = y) as -> by congruence. done.
Qed.

(** The order of a scan: ascending or descending in time. *)
Definition log_order (direction : string) (a b : LogEntry) : Prop :=
  if bool_decide (direction = backward) then le_Timestamp b < le_Timestamp a else le_Timestamp a < le_Timestamp b.

Section streams.
Context {D : Type} `{KV LogValue D}.
Context (now : Z) (d : D) (limit startNs endNs : Z) (direction : string)
  (lineFilter : option (string -> bool)) (xs : Z -> list LogEntry).
#[local] Set Default Proof Using "All".

(** The entries of a stream the query asks for, in the order of the scan. *)
Definition wanted (sid : Z) : list LogEntry :=
  filter (fun x => keeps lineFilter x = true) (take_while (within direction startNs endNs) (xs sid)).

Lemma scanStreams_spec sids sc :
  Forall (fun sid => streamIter now d startNs endNs sid direction = kvs sid (xs sid) /\
    is_u64 sid /\ Forall (fun x => is_s64 (le_Timestamp x)) (xs sid) /\ collected sc sid = []) sids ->
  NoDup sids -> sc_total sc <= limit ->
  exists sc', scanStreams now d limit startNs endNs direction lineFilter sids sc = Ok sc' /\
    (forall sid, sid ∉ sids -> collected sc' sid = collected sc sid) /\
    sc_total sc' <= limit /\
    sc_total sc' = sc_total sc + Z.of_nat (sum_list_with (fun sid => length (collected sc' sid)) sids) /\
    forall sid, sid ∈ sids -> collected sc' sid `prefix_of` wanted sid /\
      (collected sc' sid = wanted sid \/ sc_total sc' = limit).
Proof.
  intros Hsids Hnd. revert sc Hsids. induction Hnd as [|sid sids Hni Hnd IH]; intros sc Hsids Hl; cbn [scanStreams].
  { exists sc. split_and!; [done|done|done|simpl; lia|]. by intros sid ?%elem_of_nil. }
  apply Forall_cons in Hsids as [(Hit & Hu & Hx & Hc) Hsids].
  assert (exists sc1, (if limit <=? sc_total sc then Ok sc
      else sc ← scanStream now d limit startNs endNs sid direction lineFilter
                  (streamIter now d startNs endNs sid direction) sc;
           scanStreams now d limit startNs endNs direction lineFilter sids sc)
      = scanStreams now d limit startNs endNs direction lineFilter sids sc1 /\
      extends sid (take (Z.to_nat (limit - sc_total sc)) (wanted sid)) sc sc1) as (sc1 & -> & Hext).
  { destruct (Z.leb_spec limit (sc_total sc)) as [Hge|Hlt].
    - exists sc. split.
      + destruct sids as [|sid' sids']; [done|]. cbn [scanStreams]. by rewrite (proj2 (Z.leb_le _ _)).
      + replace (Z.to_nat _) with O by lia. rewrite take_0. split_and!; [by rewrite app_nil_r|done|simpl; lia].
    - rewrite Hit. destruct (scanStream_spec now d limit startNs endNs sid direction lineFilter (xs sid) sc Hu Hx)
        as (sc1 & -> & Hext). by exists sc1. }
  destruct Hext as (He1 & He2 & He3). rewrite length_take in He3.
  destruct (IH sc1) as (sc2 & Hrun & Hout & Hle & Hsum & Hin).
  { apply Forall_forall. intros s Hs. rewrite Forall_forall in Hsids. destruct (Hsids s Hs) as (? & ? & ? & ?).
    split_and!; [done..|]. rewrite He2; [done|]. by intros ->. }
  { lia. }
  assert (collected sc2 sid = take (Z.to_nat (limit - sc_total sc)) (wanted sid)) as Hgot.
  { by rewrite Hout, He1, Hc. }
  exists sc2. split_and!; [done| |done| |].
  - intros s Hs. apply not_elem_of_cons in Hs as [Hne Hs]. by rewrite Hout, He2.
  - cbn [sum_list_with]. rewrite Hgot, length_take. lia.
  - intros s [->|Hs]%elem_of_cons; [|by apply Hin]. rewrite Hgot. split; [apply prefix_take|].
    destruct (decide (length (wanted sid) <= Z.to_nat (limit - sc_total sc))%nat); [left; by apply take_ge|right; lia].
Qed.
End streams.

Lemma StronglySorted_fmap_inv {A B} (R : A -> A -> Prop) (S : B -> B -> Prop) (P : A -> Prop) (f : A -> B) l :
  (forall x y, P x -> P y -> S (f x) (f y) -> R x y) -> Forall P l ->
  StronglySorted S (f <$> l) -> StronglySorted R l.
Proof.
  intros HR. induction 1 as [|x l Hx Hl IH]; intros Hs; [constructor|]. csimpl in Hs.
  apply StronglySorted_inv in Hs as [Hs Hf]. constructor; [by apply IH|].
  rewrite Forall_fmap in Hf. rewrite !Forall_forall in *. intros y Hy. apply HR; [done|by apply Hl|by apply Hf].
Qed.

Section logs_written.
Context {D : Type} `{KVLaws LogValue D} (retention : Z) (hist : list (Z * list LogEntry)) (d : D) (t : Z).
Context (Hw : writeBatches (LogWrite retention) hist kv_empty = Some d) (Hl : batches_live retention t hist).
Context (Hts : Forall (fun e => 0 <= le_Timestamp e < 2 ^ 63) (logs_of hist)).
#[local] Set Default Proof Using "All".

Lemma logs_get k v :
  (k, v) ∈ kv_entries t d <-> last_entry k (batchEntries retention (logs_of hist)) = Some v.
Proof.
  rewrite kv_entries_get, (writeBatches_get (LogWrite retention) retention (batchEntries retention) t hist _ _ k
    (fun _ _ _ => eq_refl) (batchEntries_ttl retention) Hw Hl), kv_get_empty, batch_entries_logs.
  by destruct (last_entry _ _).
Qed.

Lemma log_entry_spec sid x :
  is_u64 sid -> 0 <= le_Timestamp x < 2 ^ 63 ->
  (Logs.EncodeLogEntryKey sid (le_Timestamp x), VEntry x) ∈ kv_entries t d <->
  last_log (logs_of hist) sid (le_Timestamp x) = Some x.
Proof.
  intros Hsid Hx. rewrite logs_get, batch_last; [|done|unfold is_s64; lia|].
  - destruct (last_log _ _ _); simpl; split; congruence.
  - eapply Forall_impl; [exact Hts|]. unfold is_s64. simpl. lia.
Qed.

(** Every entry under a stream's prefix is one of its log entries. *)
Lemma stream_entry_shape sid e :
  is_u64 sid -> e ∈ kv_entries t d -> Logs.LogEntryKeyPrefix sid `prefix_of` e.1 ->
  exists x, e = (Logs.EncodeLogEntryKey sid (le_Timestamp x), VEntry x) /\ 0 <= le_Timestamp x < 2 ^ 63.
Proof.
  intros Hsid Hin Hp. destruct e as [k v]. simpl in Hp. apply logs_get in Hin.
  apply last_entry_elem in Hin as [ttl Hin].
  unfold batchEntries in Hin. apply list_elem_of_In, in_concat in Hin as (l & Hl1 & Hin).
  apply list_elem_of_In, list_elem_of_fmap in Hl1 as (x & -> & Hx). apply list_elem_of_In in Hin.
  rewrite Forall_forall in Hts. specialize (Hts x Hx).
  apply entryEntries_shape in Hin as [E|[E|[(a & b & E)|(a & E)]]]; simpl in E.
  2-4: subst k; by apply prefix_cons_inv_1 in Hp.
  injection E as -> -> _. exists x. split; [|done]. f_equal.
  apply (bool_decide_eq_true (_ `prefix_of` _)), encodeID_prefix_spec in Hp; [by subst|done|apply StreamID_u64].
Qed.

(** The iterator of a stream, as the list of its entries. *)
Lemma streamIter_spec startNs endNs sid direction :
  is_u64 sid -> 0 <= startNs < 2 ^ 63 -> 0 <= endNs < 2 ^ 63 ->
  exists xs, streamIter t d startNs endNs sid direction = kvs sid xs /\
    Forall (fun x => 0 <= le_Timestamp x < 2 ^ 63) xs /\ StronglySorted (log_order direction) xs /\
    forall x, x ∈ xs <->
      (if bool_decide (direction = backward) then le_Timestamp x <= endNs else startNs <= le_Timestamp x) /\
      0 <= le_Timestamp x < 2 ^ 63 /\ last_log (logs_of hist) sid (le_Timestamp x) = Some x.
Proof.
  intros Hsid Hstart Hend.
  destruct (kvs_of sid (streamIter t d startNs endNs sid direction)) as (xs & Hxs & Hr).
  { apply Forall_forall. intros e He. unfold streamIter, iter, iter_rev in He.
    destruct (bool_decide _); apply list_elem_of_filter in He as [[Hp _] He]; rewrite ?elem_of_reverse in He;
      by apply stream_entry_shape. }
  exists xs. split_and!; [done|done| |].
  - apply (StronglySorted_fmap_inv (log_order direction)
      (if bool_decide (direction = backward) then flip (fun a b => key_lt a.1 b.1) else fun a b => key_lt a.1 b.1)
      (fun x => 0 <= le_Timestamp x < 2 ^ 63)
      (fun x => (Logs.EncodeLogEntryKey sid (le_Timestamp x), VEntry x))); [|done|].
    + intros x y Hx Hy. unfold log_order. destruct (bool_decide _); unfold flip, key_lt, Logs.EncodeLogEntryKey; cbn [fst];
        rewrite encodeIDTime_lt by done; apply Z.ltb_lt.
    + fold (kvs sid xs). rewrite <-Hxs. unfold streamIter. destruct (bool_decide _).
      * apply StronglySorted_filter, StronglySorted_reverse, kv_entries_sorted.
      * apply StronglySorted_filter, kv_entries_sorted.
  - intros x. rewrite Forall_forall in Hr.
    assert (0 <= le_Timestamp x < 2 ^ 63 -> x ∈ xs <->
      (if bool_decide (direction = backward) then le_Timestamp x <= endNs else startNs <= le_Timestamp x) /\
      last_log (logs_of hist) sid (le_Timestamp x) = Some x) as Hmain.
    { intros Hx. rewrite <-log_entry_spec by done.
      rewrite (elem_of_kvs sid xs); [|intros y Hy; destruct (Hr y Hy); unfold is_s64; lia|done].
      rewrite <-Hxs. unfold streamIter, iter, iter_rev.
      assert (Logs.LogEntryKeyPrefix sid `prefix_of` Logs.EncodeLogEntryKey sid (le_Timestamp x)) as Hp.
      { apply (bool_decide_eq_true (_ `prefix_of` _)). by apply encodeID_prefix_spec. }
      destruct (bool_decide _); rewrite list_elem_of_filter; cbn [fst]; rewrite ?elem_of_reverse;
        unfold Logs.LogEntryKeyRangeStart, Logs.EncodeLogEntryKey in *; rewrite encodeIDTime_lt by done;
        rewrite Z.ltb_ge; tauto. }
    split.
    + intros Hin. destruct (Hr x Hin). apply Hmain in Hin; [|done]. tauto.
    + intros (H1 & H2 & H3). by apply Hmain.
Qed.

(** The label index holds the labels of the streams. *)
Definition log_triples (n w : string) (id : Z) : Prop :=
  exists e, e ∈ logs_of hist /\ StreamID e = id /\ le_Labels e !! n = Some w.

Lemma logs_index : index_is Logs.prefixInverted t d log_triples.
Proof.
  assert (forall x, x ∈ batchEntries retention (logs_of hist) <->
    exists e, e ∈ logs_of hist /\ x ∈ entryEntries retention e) as Hel.
  { intros x. unfold batchEntries. rewrite list_elem_of_In, in_concat. setoid_rewrite <-list_elem_of_In.
    setoid_rewrite list_elem_of_fmap. naive_solver. }
  split.
  - intros k v Hin Hp. apply logs_get, last_entry_elem in Hin as [ttl Hin].
    apply Hel in Hin as (e & He & Hin). unfold entryEntries in Hin. cbv zeta in Hin.
    rewrite !elem_of_app, !elem_of_cons, !list_elem_of_fmap, elem_of_nil in Hin.
    destruct Hin as [[E|[E|[]]]|[([n w] & E & Hnw)|([n w] & E & Hnw)]].
    + injection E as -> _ _. by apply prefix_cons_inv_1 in Hp.
    + injection E as -> _ _. by apply prefix_cons_inv_1 in Hp.
    + injection E as -> _ _. exists n, w, (StreamID e). split; [|done]. exists e. by apply elem_of_map_to_list in Hnw.
    + injection E as -> _ _. by apply prefix_cons_inv_1 in Hp.
  - intros n w id (e & He & <- & Hnw).
    assert ((Logs.EncodeInvertedKey n w (StreamID e), VNone, retention) ∈ batchEntries retention (logs_of hist)) as Hin.
    { apply Hel. exists e. split; [done|]. unfold entryEntries. cbv zeta. rewrite !elem_of_app. right; left.
      apply list_elem_of_fmap. exists (n, w). split; [done|]. by apply elem_of_map_to_list. }
    pose proof (writeBatches_size (LogWrite retention) (batchEntries retention) hist _ _ (fun _ _ _ => eq_refl) Hw) as Hsz.
    rewrite batch_entries_logs, Forall_forall in Hsz. specialize (Hsz _ Hin). cbn [fst] in Hsz.
    assert (zlen (bytes_of n) + zlen (bytes_of w) <= 65000).
    { unfold Logs.EncodeInvertedKey, encodeInverted in Hsz. cbn [length] in Hsz. rewrite !length_app in Hsz.
      pose proof (length_encodeText n). pose proof (length_encodeText w). lia. }
    split_and!; [unfold short; lia|unfold short; lia|apply StreamID_u64|].
    destruct (last_entry_is_Some _ _ Hin) as [v Hv]. exists v. by apply logs_get.
Qed.
End logs_written.

(** The log entries among the values of a scan. *)
Definition entries_in (es : list (list Z * LogValue)) : list LogEntry :=
  omap (fun e => match e.2 with VEntry x => Some x | _ => None end) es.

Lemma entries_in_kvs sid xs : entries_in (kvs sid xs) = xs.
Proof. unfold entries_in, kvs. induction xs as [|x xs IH]; [done|]. csimpl. by rewrite IH. Qed.

(** ** Properties *)

(** A log query is exact, up to its limit. After any history of successful writes of
    entries from the epoch on, while nothing has expired, a query over distinct streams
    returns, stream by stream, the entries of the inclusive range that pass the line
    filter (the last one written for each stream and nanosecond), newest first when the
    direction is backward and oldest first when it is forward. It never returns more
    than [limit] entries; what it returns of a stream is an initial piece of that list,
    and it is the whole list for every stream unless the limit was reached. *)
Theorem QueryWithMatchers_exact {D} `{KVLaws LogValue D} retention hist (d : D) t sids startNs endNs limit
    direction lineFilter :
  writeBatches (LogWrite retention) hist kv_empty = Some d -> batches_live retention t hist ->
  Forall (fun e => 0 <= le_Timestamp e < 2 ^ 63) (logs_of hist) ->
  Forall is_u64 sids -> NoDup sids -> 0 <= startNs < 2 ^ 63 -> 0 <= endNs < 2 ^ 63 ->
  0 < limit -> direction <> "" ->
  exists (m : Z -> list LogEntry) sc,
    QueryWithMatchers t d sids startNs endNs limit direction lineFilter = Ok sc /\
    (forall sid, sid ∈ sids ->
       StronglySorted (log_order direction) (m sid) /\
       forall x, x ∈ m sid <-> startNs <= le_Timestamp x <= endNs /\ keeps lineFilter x = true /\
                               last_log (logs_of hist) sid (le_Timestamp x) = Some x) /\
    sc_total sc = Z.of_nat (sum_list_with (fun sid => length (collected sc sid)) sids) /\
    sc_total sc <= limit /\
    (forall sid, sid ∉ sids -> collected sc sid = []) /\
    forall sid, sid ∈ sids -> collected sc sid `prefix_of` m sid /\ (collected sc sid = m sid \/ sc_total sc = limit).
Proof.
  intros Hw Hl Hts Hsids Hnd Hstart Hend Hlimit Hdir. rewrite Forall_forall in Hsids.
  set (xs := fun sid => entries_in (streamIter t d startNs endNs sid direction)).
  assert (forall sid, sid ∈ sids ->
    streamIter t d startNs endNs sid direction = kvs sid (xs sid) /\
    Forall (fun x => 0 <= le_Timestamp x < 2 ^ 63) (xs sid) /\ StronglySorted (log_order direction) (xs sid) /\
    forall x, x ∈ xs sid <->
      (if bool_decide (direction = backward) then le_Timestamp x <= endNs else startNs <= le_Timestamp x) /\
      0 <= le_Timestamp x < 2 ^ 63 /\ last_log (logs_of hist) sid (le_Timestamp x) = Some x) as Hxs.
  { intros sid Hsid. destruct (streamIter_spec retention hist d t Hw Hl Hts startNs endNs sid direction)
      as (l & Hit & Hrest); [by apply Hsids|done|done|]. unfold xs. rewrite Hit, entries_in_kvs. done. }
  destruct (scanStreams_spec t d limit startNs endNs direction lineFilter xs sids (mkScan ∅ 0 0))
    as (sc & Hrun & Hout & Hle & Hsum & Hin); [|done|simpl; lia|].
  { apply Forall_forall. intros sid Hsid. destruct (Hxs sid Hsid) as (Hit & Hr & _ & _).
    split_and!; [done|by apply Hsids| |done]. eapply Forall_impl; [exact Hr|]. unfold is_s64. simpl. lia. }
  exists (wanted startNs endNs direction lineFilter xs), sc. split_and!; [| |done|done|done|done].
  - unfold QueryWithMatchers. rewrite (proj2 (Z.leb_gt _ _)) by done. by rewrite bool_decide_eq_false_2 by done.
  - intros sid Hsid. destruct (Hxs sid Hsid) as (_ & Hr & Hsort & Hspec). unfold wanted. split.
    + by apply StronglySorted_filter, StronglySorted_take_while.
    + intros x. rewrite list_elem_of_filter, (elem_of_take_while (log_order direction)) by
        (done || (intros a b; unfold log_order, within; destruct (bool_decide _); rewrite !Z.leb_le; lia)).
      rewrite Hspec. unfold within. rewrite Forall_forall in Hr.
      assert (last_log (logs_of hist) sid (le_Timestamp x) = Some x -> 0 <= le_Timestamp x < 2 ^ 63) as Hrange.
      { intros Hx. rewrite Forall_forall in Hts. apply Hts. unfold last_log in Hx.
        by apply last_Some_elem_of, list_elem_of_filter in Hx as [_ ?]. }
      destruct (bool_decide _); rewrite Z.leb_le; naive_solver lia.
Qed.

(** ** Witness and gaps *)

Definition demoLog (src : string) (ts : Z) (msg : string) : LogEntry :=
  mkEntry ts "info" msg {["source" := src]} ∅.

Definition demoLogs : list (Z * list LogEntry) :=
  [(0, [demoLog "cp" 10 "start"; demoLog "cp" 20 "ready"; demoLog "worker" 15 "join"; demoLog "cp" 30 "stop"])].

Definition demoLogDB : SortedDB LogValue :=
  default kv_empty (writeBatches (D := SortedDB LogValue) (LogWrite (72 * Hour)) demoLogs kv_empty).
Lemma demoLogDB_written : writeBatches (LogWrite (72 * Hour)) demoLogs kv_empty = Some demoLogDB.
Proof. by vm_compute. Qed.

Definition cpStream : Z := StreamID (demoLog "cp" 0 "").
Definition workerStream : Z := StreamID (demoLog "worker" 0 "").

Lemma QueryWithMatchers_exact_witness :
  (exists sc, QueryWithMatchers Second demoLogDB [cpStream; workerStream] 10 25 5 backward None = Ok sc /\
    sc_total sc <= 5) /\
  (fun sc => le_Message <$> collected sc cpStream) <$>
    QueryWithMatchers Second demoLogDB [cpStream; workerStream] 10 25 5 backward None = Ok ["ready"; "start"]%string.
Proof.
  split; [|by vm_compute].
  destruct (QueryWithMatchers_exact (72 * Hour) demoLogs demoLogDB Second [cpStream; workerStream] 10 25 5 backward None)
    as (m & sc & Hrun & _ & _ & Hle & _).
  - exact demoLogDB_written.
  - by repeat constructor; vm_compute.
  - by repeat constructor; vm_compute.
  - by repeat constructor; vm_compute.
  - apply NoDup_cons. split; [|apply NoDup_singleton]. intros E%list_elem_of_singleton. by vm_compute in E.
  - done.
  - done.
  - done.
  - done.
  - exists sc. exact (conj Hrun Hle).
Defined.

(** Two lines of one stream in the same nanosecond share a key: one is lost. *)
Lemma same_time_overwrites :
  let hist := [(0, [demoLog "cp" 10 "one"; demoLog "cp" 10 "two"])] in
  let d := default kv_empty (writeBatches (D := SortedDB LogValue) (LogWrite Hour) hist kv_empty) in
  (fun sc => le_Message <$> collected sc cpStream) <$>
    QueryWithMatchers Second d [cpStream] 0 25 5 forward None = Ok ["two"]%string.
Proof. by vm_compute. Qed.

(** The limit goes to the first stream scanned: the newest line overall is not
    returned. *)
Lemma limit_favours_first_stream :
  (fun sc => le_Message <$> (collected sc workerStream ++ collected sc cpStream)) <$>
    QueryWithMatchers Second demoLogDB [workerStream; cpStream] 0 100 1 backward None = Ok ["join"]%string.
Proof. by vm_compute. Qed.

(** An operator inside a quoted value is taken for the matcher's. *)
Lemma operator_in_value :
  parseSimpleQuery (string_of [123;97;61;34;120;33;126;121;34;125]) =
    [mkMatcher (string_of [97;61;34;120]) (string_of [121;34]) MatchNotRegexp].
Proof. by vm_compute. Qed.
