(* ===== verification/LogQL.v ===== *)
(** * The log query language and the log API

    [Parse] and [CompileFilters] of [src/internal/controlplane/logging/logql] and
    [executeQuery] of [src/internal/controlplane/logging/api/api.go], which composes them
    with the log store: the property is about a written query and the history of writes. *)

From stdpp Require Import options.
From Stdlib Require Import Ascii Sorting.Sorted.
From S2P Require Import Prelude GoStrings Words IndexKeys OrderedKV LabelIndex QueryLexer TsdbStore LogStore.
Open Scope nat_scope.

Inductive LineFilterType := FilterContains | FilterNotContains | FilterRegex | FilterNotRegex.
Record LineFilter := mkFilter { lf_Type : LineFilterType; lf_Pattern : string }.
Record LogQL := mkLogQL { lq_Matchers : list LabelMatcher; lq_Filters : list LineFilter }.

(** ** The parser *)

Definition tryLineFilterOp (s : string) : option (LineFilterType * string) :=
  match s with
  | String c (String d s) =>
      if decide (c = "|"%char /\ d = "="%char) then Some (FilterContains, s)
      else if decide (c = "|"%char /\ d = "~"%char) then Some (FilterRegex, s)
      else if decide (c = "!"%char /\ d = "="%char) then Some (FilterNotContains, s)
      else if decide (c = "!"%char /\ d = "~"%char) then Some (FilterNotRegex, s)
      else None
  | _ => None
  end.

Fixpoint pipelineLoop (fuel : nat) (filters : list LineFilter) (s : string) : parse (list LineFilter) :=
  match fuel with
  | O => Err ParserStuck
  | S fuel =>
      let s := skipWhitespace s in
      match tryLineFilterOp s with
      | None => Ok (filters, s)
      | Some (ft, s) =>
          '(pattern, s) ← parseQuotedString (skipWhitespace s);
          pipelineLoop fuel (filters ++ [mkFilter ft pattern]) s
      end
  end.
Definition parsePipeline (s : string) : parse (list LineFilter) := pipelineLoop (S (String.length s)) [] s.

Definition parseQuery (s : string) : parse LogQL :=
  let s := skipWhitespace s in
  if decide (s = EmptyString) then Err EmptyQuery
  else
    '(matchers, s) ← parseLabelMatchers s;
    '(filters, s) ← parsePipeline s;
    Ok (mkLogQL matchers filters, s).

Definition Parse (input : string) : result ParseError LogQL :=
  '(q, s) ← parseQuery (TrimSpace input);
  let s := skipWhitespace s in
  if decide (s = EmptyString) then Ok q else Err (TrailingInput s).

(** ** Line filters and queries *)

Inductive APIError :=
  | InvalidQuery (e : ParseError)
  | FindFailed (e : RegexpError)
  | InvalidFilter (pattern : string)
  | QueryFailed (e : LogError).

Section api.
(** [regexp.Compile] with [MatchString]. *)
Context (regexpCompile : string -> option (string -> bool)).

Definition compileFilter (f : LineFilter) : result APIError (string -> bool) :=
  let pattern := lf_Pattern f in
  match lf_Type f with
  | FilterContains => Ok (fun line => Contains line pattern)
  | FilterNotContains => Ok (fun line => negb (Contains line pattern))
  | FilterRegex =>
      match regexpCompile pattern with Some re => Ok re | None => Err (InvalidFilter pattern) end
  | FilterNotRegex =>
      match regexpCompile pattern with
      | Some re => Ok (fun line => negb (re line))
      | None => Err (InvalidFilter pattern)
      end
  end.

Fixpoint compileAll (filters : list LineFilter) : result APIError (list (string -> bool)) :=
  match filters with
  | [] => Ok []
  | f :: filters => pred ← compileFilter f; preds ← compileAll filters; Ok (pred :: preds)
  end.

(** Every predicate has to pass. *)
Definition CompileFilters (filters : list LineFilter) : result APIError (string -> bool) :=
  preds ← compileAll filters; Ok (fun line => forallb (fun pred => pred line) preds).

Context {D : Type} `{KV LogValue D}.

(** [executeQuery]; [order] is the order in which the store returns the set of stream
    ids. *)
Definition executeQuery (order : gset Z -> list Z) (now : Z) (d : D) (query : string)
    (startNs endNs limit : Z) (direction : string) : result APIError Scan :=
  match Parse query with
  | Err e => Err (InvalidQuery e)
  | Ok parsed =>
      match FindStreams regexpCompile now d (lq_Matchers parsed) with
      | Err e => Err (FindFailed e)
      | Ok ids =>
          if decide (order ids = []) then Ok (mkScan ∅ 0 0)
          else
            lineFilter ← CompileFilters (lq_Filters parsed);
            match QueryWithMatchers now d (order ids) startNs endNs limit direction (Some lineFilter) with
            | Ok sc => Ok sc
            | Err e => Err (QueryFailed e)
            end
      end
  end.
End api.

(** ** Written queries *)

Definition filterOp (t : LineFilterType) : string :=
  match t with
  | FilterContains => "|=" | FilterNotContains => "!=" | FilterRegex => "|~" | FilterNotRegex => "!~"
  end.
Fixpoint filtersText (w : string) (fs : list LineFilter) : string :=
  match fs with
  | [] => ""
  | f :: fs => w +:+ filterOp (lf_Type f) +:+ w +:+ quoteText (lf_Pattern f) +:+ filtersText w fs
  end.
Definition logQLText (w : string) (q : LogQL) : string :=
  matchersText w (lq_Matchers q) +:+ filtersText w (lq_Filters q).

(** What a filter asks of a line. *)
Definition filter_test (regexpCompile : string -> option (string -> bool)) (f : LineFilter) (line : string) : bool :=
  match lf_Type f with
  | FilterContains => Contains line (lf_Pattern f)
  | FilterNotContains => negb (Contains line (lf_Pattern f))
  | FilterRegex => match regexpCompile (lf_Pattern f) with Some re => re line | None => false end
  | FilterNotRegex => match regexpCompile (lf_Pattern f) with Some re => negb (re line) | None => false end
  end.
Definition filter_ok (regexpCompile : string -> option (string -> bool)) (f : LineFilter) : Prop :=
  match lf_Type f with
  | FilterRegex | FilterNotRegex => regexpCompile (lf_Pattern f) <> None
  | _ => True
  end.

(** ** Parsing printed queries *)

Lemma tryLineFilterOp_app t s : tryLineFilterOp (filterOp t +:+ s) = Some (t, s).
Proof. by destruct t. Qed.

Lemma pipelineLoop_app w fs fuel acc :
  str_all isSpace w = true -> length fs < fuel ->
  pipelineLoop fuel acc (filtersText w fs) = Ok (acc ++ fs, "").
Proof.
  intros Hw. revert fuel acc. induction fs as [|f fs IH]; intros fuel acc Hf; (destruct fuel as [|fuel]; [simpl in Hf; lia|]).
  - simpl. by rewrite app_nil_r.
  - cbn [pipelineLoop filtersText]. rewrite skip_spaces by done.
    rewrite (skip_id (filterOp _ +:+ _)) by (by destruct (lf_Type f)).
    rewrite tryLineFilterOp_app, skip_spaces by done. rewrite (skip_id (quoteText _ +:+ _)) by done.
    rewrite parseQuotedString_app. cbn [mbind result_bind]. rewrite IH by (simpl in Hf; lia).
    rewrite <-app_assoc. by destruct f.
Qed.

Lemma filters_length w fs : length fs <= String.length (filtersText w fs).
Proof.
  induction fs as [|f fs IH]; cbn [filtersText length]; [lia|]. rewrite !str_length_app.
  destruct (lf_Type f); cbn [filterOp String.length]; lia.
Qed.

(** The text ends in a visible character. *)
Lemma filters_last w fs a c :
  graphic c = true -> exists b d, a +:+ String c "" +:+ filtersText w fs = b +:+ String d "" /\ graphic d = true.
Proof.
  revert a c. induction fs as [|f fs IH]; intros a c Hc; cbn [filtersText].
  - exists a, c. by rewrite str_app_nil_r.
  - unfold quoteText. destruct (IH (a +:+ String c "" +:+ w +:+ filterOp (lf_Type f) +:+ w +:+ String dquote "" +:+ escape (lf_Pattern f))
      dquote) as (b & d & Heq & Hd); [done|]. exists b, d. split; [|done]. rewrite <-Heq.
    by rewrite !str_app_assoc, !str_app_cons, !str_app_assoc.
Qed.

Lemma Parse_text w q :
  str_all isSpace w = true -> Forall matcher_named (lq_Matchers q) -> Parse (logQLText w q) = Ok q.
Proof.
  intros Hw Hms. unfold Parse.
  assert (exists s, logQLText w q = String "{" s) as [s Hs] by (eexists; reflexivity).
  assert (TrimSpace (logQLText w q) = logQLText w q) as ->.
  { destruct (filters_last w (lq_Filters q) ("{" +:+ itemsText w (matcherText w) (lq_Matchers q) +:+ w) "}"%char)
      as (b & d & Heq & Hd); [done|]. rewrite Hs. eapply TrimSpace_id; [done|exact Hd|].
    rewrite <-Hs, <-Heq. unfold logQLText, matchersText. by rewrite !str_app_assoc. }
  unfold parseQuery. rewrite (skip_id (logQLText w q)) by (by rewrite Hs).
  rewrite decide_False by (by rewrite Hs). unfold logQLText. rewrite parseLabelMatchers_app by done.
  cbn [mbind result_bind]. unfold parsePipeline. rewrite pipelineLoop_app; [|done|].
  - simpl. by destruct q.
  - pose proof (filters_length w (lq_Filters q)). lia.
Qed.

(** On any text the parser comes to its end, and label names are identifiers. *)
Lemma pipelineLoop_ensures fuel acc s :
  String.length s < fuel -> ensures (fun _ => True) (String.length s) (pipelineLoop fuel acc s).
Proof.
  revert acc s. induction fuel as [|fuel IH]; intros acc s Hf; [lia|]. cbn [pipelineLoop].
  pose proof (skip_length s) as Hsk. destruct (tryLineFilterOp _) as [[ft s1]|] eqn:Ht; [|by simpl].
  assert (String.length s1 + 2 <= String.length (skipWhitespace s)) as Hs1.
  { unfold tryLineFilterOp in Ht. destruct (skipWhitespace s) as [|c [|e s2]]; [done..|].
    repeat (case_decide; [simplify_eq/=; lia|]). done. }
  pose proof (skip_length s1). eapply ensures_bind; [apply parseQuotedString_ensures|]. intros p s2 _ Hs2.
  eapply ensures_weaken; [apply IH; lia|done|lia].
Qed.

Lemma Parse_typed input :
  match Parse input with
  | Ok q => Forall matcher_named (lq_Matchers q)
  | Err e => e <> ParserStuck
  end.
Proof.
  assert (ensures (fun q => Forall matcher_named (lq_Matchers q)) (String.length (TrimSpace input)) (parseQuery (TrimSpace input))) as He.
  { unfold parseQuery. pose proof (skip_length (TrimSpace input)). case_decide; [done|].
    eapply ensures_bind; [apply parseLabelMatchers_ensures|]. intros ms s Hms Hs.
    eapply ensures_bind; [apply pipelineLoop_ensures; lia|]. intros fs s' _ Hs'. simpl. split; [done|lia]. }
  unfold Parse. destruct (parseQuery (TrimSpace input)) as [[q s]|e]; simpl in *; [|done]. case_decide; [apply He|done].
Qed.

Open Scope Z_scope.

Lemma compileAll_spec regexpCompile fs :
  Forall (filter_ok regexpCompile) fs ->
  exists preds, compileAll regexpCompile fs = Ok preds /\
    forall line, forallb (fun pred => pred line) preds = true <->
      Forall (fun f => filter_test regexpCompile f line = true) fs.
Proof.
  induction 1 as [|f fs Hf _ (preds & Hp & IH)].
  - exists []. split; [done|]. intros line. by rewrite Forall_nil.
  - assert (exists pred, compileFilter regexpCompile f = Ok pred /\ forall line, pred line = filter_test regexpCompile f line)
      as (pred & Hpred & Hline).
    { unfold compileFilter, filter_test, filter_ok in *. destruct (lf_Type f); [by eexists|by eexists| |];
        (destruct (regexpCompile _); [by eexists|by destruct Hf]). }
    exists (pred :: preds). cbn [compileAll]. rewrite Hpred. cbn [mbind result_bind]. rewrite Hp. split; [done|].
    intros line. cbn [forallb]. by rewrite andb_true_iff, IH, Hline, Forall_cons.
Qed.

(** What a matcher asks of a stream of the history. *)
Definition stream_matches (regexpCompile : string -> option (string -> bool)) (logs : list LogEntry) (sid : Z)
    (m : LabelMatcher) : Prop :=
  exists e v, e ∈ logs /\ StreamID e = sid /\ le_Labels e !! lm_Name m = Some v /\
    label_test regexpCompile m v = true.

(** C22 A log query end to end, from its text to the entries. After any history of
    successful writes, while nothing has expired, the text of a query, however it is
    spaced, selects exactly the streams that carry for every matcher a label that passes
    it, and the answer has nothing of any other stream. Of each of them it has, in the
    direction asked for, the entries of the time range whose line passes every filter of
    the pipeline, all of them unless the limit is reached, and never more than the limit.
    Of the entries a stream got with the same nanosecond only the last one written is
    stored ([last_log], [same_time_overwrites]); the filters see that one alone. *)
Theorem executeQuery_exact {D} `{KVLaws LogValue D} regexpCompile order retention hist (d : D) t w q startNs endNs
    limit direction :
  (forall X : gset Z, order X ≡ₚ elements X) ->
  writeBatches (LogWrite retention) hist kv_empty = Some d -> batches_live retention t hist ->
  Forall (fun e => 0 <= le_Timestamp e < 2 ^ 63) (logs_of hist) ->
  str_all isSpace w = true -> lq_Matchers q <> [] -> Forall matcher_named (lq_Matchers q) ->
  Forall (matcher_ok regexpCompile) (lq_Matchers q) -> Forall (filter_ok regexpCompile) (lq_Filters q) ->
  0 <= startNs < 2 ^ 63 -> 0 <= endNs < 2 ^ 63 -> 0 < limit -> direction <> "" ->
  exists (ids : gset Z) (m : Z -> list LogEntry) sc,
    executeQuery regexpCompile order t d (logQLText w q) startNs endNs limit direction = Ok sc /\
    (forall sid, sid ∈ ids <-> Forall (stream_matches regexpCompile (logs_of hist) sid) (lq_Matchers q)) /\
    (forall sid, sid ∈ ids ->
       StronglySorted (log_order direction) (m sid) /\
       (forall x, x ∈ m sid <-> startNs <= le_Timestamp x <= endNs /\
          Forall (fun f => filter_test regexpCompile f (le_Message x) = true) (lq_Filters q) /\
          last_log (logs_of hist) sid (le_Timestamp x) = Some x) /\
       collected sc sid `prefix_of` m sid /\ (collected sc sid = m sid \/ sc_total sc = limit)) /\
    (forall sid, sid ∉ ids -> collected sc sid = []) /\
    sc_total sc <= limit.
Proof.
  intros Horder Hw Hl Hts Hsp Hne Hnamed Hms Hfs Hstart Hend Hlimit Hdir.
  destruct (findIDs_spec Logs.prefixInverted regexpCompile t d (log_triples hist) (lq_Matchers q)) as (ids & Hids & Hspec);
    [by eapply logs_index|done|done|].
  destruct (compileAll_spec _ _ Hfs) as (preds & Hpreds & Htest).
  assert (forall sid, sid ∈ ids <-> Forall (stream_matches regexpCompile (logs_of hist) sid) (lq_Matchers q)) as Hmatch.
  { intros sid. rewrite Hspec. apply Forall_iff. intros mt. unfold log_triples, stream_matches. naive_solver. }
  assert (forall sid, sid ∈ order ids <-> sid ∈ ids) as Hin by (intros sid; by rewrite Horder, elem_of_elements).
  unfold executeQuery. rewrite Parse_text by done. unfold FindStreams. rewrite Hids. case_decide as Hnil.
  { exists ids, (fun _ => []), (mkScan ∅ 0 0). split_and!; [done|done| |done|simpl; lia].
    intros sid Hsid%Hin. rewrite Hnil in Hsid. by apply elem_of_nil in Hsid. }
  unfold CompileFilters. rewrite Hpreds. cbn [mbind result_bind].
  destruct (QueryWithMatchers_exact retention hist d t (order ids) startNs endNs limit direction
    (Some (fun line => forallb (fun pred => pred line) preds))) as (m & sc & Hrun & Hm & _ & Hle & Hout & Hpre); try done.
  { apply Forall_forall. intros sid Hsid%Hin%Hmatch. destruct (lq_Matchers q) as [|mt ms]; [done|].
    apply Forall_cons in Hsid as [(e & v & _ & <- & _) _]. apply StreamID_u64. }
  { rewrite Horder. apply NoDup_elements. }
  exists ids, m, sc. rewrite Hrun. split_and!; [done|done| | |done].
  2: { intros sid Hsid. apply Hout. by rewrite Hin. }
  intros sid Hsid%Hin. destruct (Hm sid Hsid) as [Hsort Helem]. destruct (Hpre sid Hsid). split_and!; try done.
  intros x. rewrite Helem. unfold keeps. rewrite Htest. tauto.
Qed.

(** ** Example *)

Definition demoLogQL : LogQL :=
  mkLogQL [mkMatcher "source" "cp" MatchEqual] [mkFilter FilterNotContains "top"; mkFilter FilterContains "a"].

Lemma executeQuery_exact_witness :
  logQLText " " demoLogQL = "{ source = " +:+ quoteText "cp" +:+ " } != " +:+ quoteText "top" +:+ " |= " +:+ quoteText "a" /\
  (exists sc, executeQuery noRegexp elements Second demoLogDB (logQLText " " demoLogQL) 0 100 5 backward = Ok sc /\
     sc_total sc <= 5 /\ le_Message <$> collected sc cpStream = ["ready"; "start"]%string).
Proof.
  split; [vm_compute; reflexivity|].
  destruct (executeQuery_exact noRegexp elements (72 * Hour) demoLogs demoLogDB Second " " demoLogQL 0 100 5 backward)
    as (ids & m & sc & Hrun & _ & _ & _ & Hle).
  - intros X. reflexivity.
  - exact demoLogDB_written.
  - by repeat constructor; vm_compute.
  - by repeat constructor; vm_compute.
  - reflexivity.
  - discriminate.
  - repeat constructor.
  - repeat constructor.
  - repeat constructor.
  - split; [done|reflexivity].
  - split; [done|reflexivity].
  - reflexivity.
  - discriminate.
  - exists sc. split; [exact Hrun|]. split; [exact Hle|].
    assert ((fun sc => le_Message <$> collected sc cpStream) <$>
      executeQuery noRegexp elements Second demoLogDB (logQLText " " demoLogQL) 0 100 5 backward
      = Ok ["ready"; "start"]%string) as Hc by (vm_compute; reflexivity).
    rewrite Hrun in Hc. cbn in Hc. injection Hc as Hc. exact Hc.
Defined.
