(* ===== verification/VirtioQueue.v ===== *)
(** * Split virtqueues ([src/pkg/lokavm/virtio/queue.go])

    Guest memory is a list of bytes, shared by the driver in the guest and the
    device in the VMM; addresses are 64-bit and indices 16-bit words with their
    wrap-around written out, and a slice expression out of range panics. The
    theorems show that the available ring refines a queue the driver appends to and
    the device takes from, that the used ring refines the list of completions the
    driver reads, and that reading a descriptor chain always ends. *)

From stdpp Require Import options.
From S2P Require Import Prelude Words.
Open Scope Z_scope.

(** ** Guest memory *)

(** [copy(m[a:], bs)] once [a] is in range *)
Definition copy_at (m : list Z) (a : Z) (bs : list Z) : list Z := list_inserts (Z.to_nat a) bs m.

(** [binary.LittleEndian.UintN(m[a : a+n/8])] *)
Definition load (n : nat) (m : list Z) (a : Z) : go Z := le_val <$> slice m a (u64 (a + Z.of_nat n)).

(** [binary.LittleEndian.PutUintN(m[a:], v)] *)
Definition store (n : nat) (m : list Z) (a v : Z) : go (list Z) :=
  b ← slice m a (zlen m);
  if Z.of_nat n <=? zlen b then Ok (copy_at m a (le_bytes n v)) else Err PanicBounds.

(** ** The queue *)

Definition VirtqDescFNext : Z := 1.
Definition VirtqDescFWrite : Z := 2.
Definition VirtqDescFIndirect : Z := 4.

Record VirtqDesc := mkDesc {
  d_Addr : Z;
  d_Len : Z;
  d_Flags : Z;
  d_Next : Z
}.

Record Queue := mkQueue {
  q_Size : Z;
  q_DescTableAddr : Z;
  q_AvailAddr : Z;
  q_UsedAddr : Z;
  q_mem : list Z;
  q_lastAvailIdx : Z
}.

Definition NewQueue (size descAddr availAddr usedAddr : Z) (mem : list Z) : Queue :=
  mkQueue size descAddr availAddr usedAddr mem 0.

Definition set_mem (m : list Z) (q : Queue) : Queue :=
  mkQueue (q_Size q) (q_DescTableAddr q) (q_AvailAddr q) (q_UsedAddr q) m (q_lastAvailIdx q).
Definition set_last (i : Z) (q : Queue) : Queue :=
  mkQueue (q_Size q) (q_DescTableAddr q) (q_AvailAddr q) (q_UsedAddr q) (q_mem q) i.

Definition readAvailIdx (q : Queue) : go Z := load 2 (q_mem q) (u64 (q_AvailAddr q + 2)).
Definition readAvailRing (ringIdx : Z) (q : Queue) : go Z :=
  load 2 (q_mem q) (u64 (q_AvailAddr q + 4 + ringIdx * 2)).
Definition readUsedIdx (q : Queue) : go Z := load 2 (q_mem q) (u64 (q_UsedAddr q + 2)).
Definition writeUsedIdx (idx : Z) (q : Queue) : go Queue :=
  m ← store 2 (q_mem q) (u64 (q_UsedAddr q + 2)) idx; Ok (set_mem m q).

(** [a % b] on machine words *)
Definition rem (a b : Z) : go Z := if b =? 0 then Err PanicDivide else Ok (a mod b).

Definition HasAvailable (q : Queue) : go bool :=
  availIdx ← readAvailIdx q; Ok (negb (availIdx =? q_lastAvailIdx q)).

Definition NextAvail (q : Queue) : go (Queue * option Z) :=
  availIdx ← readAvailIdx q;
  if availIdx =? q_lastAvailIdx q then Ok (q, None)
  else
    ringOffset ← rem (q_lastAvailIdx q) (q_Size q);
    idx ← readAvailRing ringOffset q;
    Ok (set_last (u16 (q_lastAvailIdx q + 1)) q, Some idx).

Definition ReadDesc (index : Z) (q : Queue) : go VirtqDesc :=
  let offset := u64 (q_DescTableAddr q + index * 16) in
  addr ← load 8 (q_mem q) offset;
  len ← load 4 (q_mem q) (u64 (offset + 8));
  flags ← load 2 (q_mem q) (u64 (offset + 12));
  next ← load 2 (q_mem q) (u64 (offset + 14));
  Ok (mkDesc addr len flags next).

(** [desc.Flags & flag != 0] *)
Definition has_flag (flag : Z) (d : VirtqDesc) : bool := negb (Z.land (d_Flags d) flag =? 0).

Fixpoint readChainLoop (fuel : nat) (idx : Z) (chain : list VirtqDesc) (q : Queue)
    : go (list VirtqDesc) :=
  match fuel with
  | O => Err OutOfFuel
  | S fuel =>
      desc ← ReadDesc idx q;
      let chain := chain ++ [desc] in
      if negb (has_flag VirtqDescFNext desc) then Ok chain
      else if q_Size q <? zlen chain then Ok chain
      else readChainLoop fuel (d_Next desc) chain q
  end.

Definition ReadChain (head : Z) (q : Queue) : go (list VirtqDesc) :=
  readChainLoop (S (S (Z.to_nat (q_Size q)))) head [] q.

(** [nil], for an address out of range, is the empty list. *)
Definition ReadBuffer (gpa len : Z) (q : Queue) : go (list Z) :=
  if zlen (q_mem q) <? u64 (gpa + len) then Ok []
  else slice (q_mem q) gpa (u64 (gpa + len)).

Definition WriteBuffer (gpa : Z) (data : list Z) (q : Queue) : go Queue :=
  if zlen (q_mem q) <? u64 (gpa + zlen data) then Ok q
  else _ ← slice (q_mem q) gpa (zlen (q_mem q)); Ok (set_mem (copy_at (q_mem q) gpa data) q).

Definition PutUsed (headIdx written : Z) (q : Queue) : go Queue :=
  usedIdx ← readUsedIdx q;
  ringOffset ← rem usedIdx (q_Size q);
  let entryAddr := u64 (q_UsedAddr q + 4 + ringOffset * 8) in
  m ← store 4 (q_mem q) entryAddr headIdx;
  m ← store 4 m (u64 (entryAddr + 4)) written;
  writeUsedIdx (u16 (usedIdx + 1)) (set_mem m q).

Definition DescTableSize (queueSize : Z) : Z := queueSize * 16.
Definition AvailRingSize (queueSize : Z) : Z := 2 + 2 + queueSize * 2 + 2.
Definition UsedRingSize (queueSize : Z) : Z := 2 + 2 + queueSize * 8 + 2.
Definition Align (addr alignment : Z) : Z :=
  Z.ldiff (u64 (addr + alignment - 1)) (u64 (alignment - 1)).

(** ** The driver's side

    What the guest's driver does with the rings, as the virtio specification and
    [queue_test.go] have it: publish a chain head, and read the completions since an
    index it remembers. *)

Definition rd (n : nat) (m : list Z) (a : Z) : Z := le_val (take n (drop (Z.to_nat a) m)).

Definition avail_idx (q : Queue) : Z := rd 2 (q_mem q) (q_AvailAddr q + 2).
Definition avail_ring (i : Z) (q : Queue) : Z := rd 2 (q_mem q) (q_AvailAddr q + 4 + i * 2).
Definition used_idx (q : Queue) : Z := rd 2 (q_mem q) (q_UsedAddr q + 2).
Definition used_elem (i : Z) (q : Queue) : Z * Z :=
  (rd 4 (q_mem q) (q_UsedAddr q + 4 + i * 8), rd 4 (q_mem q) (q_UsedAddr q + 4 + i * 8 + 4)).

Definition guest_post (head : Z) (q : Queue) : Queue :=
  let slot := avail_idx q mod q_Size q in
  let m := copy_at (q_mem q) (q_AvailAddr q + 4 + slot * 2) (le_bytes 2 head) in
  set_mem (copy_at m (q_AvailAddr q + 2) (le_bytes 2 (u16 (avail_idx q + 1)))) q.

(** The heads published and not yet taken. *)
Definition pending (q : Queue) : list Z :=
  (fun i => avail_ring ((q_lastAvailIdx q + i) mod q_Size q) q)
    <$> seqZ 0 (u16 (avail_idx q - q_lastAvailIdx q)).

(** The completions since the used index [seen]. *)
Definition completions (seen : Z) (q : Queue) : list (Z * Z) :=
  (fun i => used_elem ((seen + i) mod q_Size q) q) <$> seqZ 0 (u16 (used_idx q - seen)).

(** What driver and device do to the rings: the driver posts a head, the device
    takes one or completes one. *)
Inductive RingOp := Post (head : Z) | Take | Complete (head written : Z).

Fixpoint ring_run (ops : list RingOp) (q : Queue) : go (Queue * list Z) :=
  match ops with
  | [] => Ok (q, [])
  | Post h :: ops => ring_run ops (guest_post h q)
  | Take :: ops =>
      '(q, o) ← NextAvail q;
      '(q, hs) ← ring_run ops q;
      Ok (q, option_list o ++ hs)
  | Complete h w :: ops => q ← PutUsed h w q; ring_run ops q
  end.

(** The same on two lists, the heads posted and the completions not yet collected;
    neither list may outgrow the ring. *)
Fixpoint spec_run (size : Z) (ops : list RingOp) (p : list Z) (c : list (Z * Z))
    : option (list Z * list (Z * Z) * list Z) :=
  match ops with
  | [] => Some (p, c, [])
  | Post h :: ops =>
      if (zlen p <? size) && (0 <=? h) && (h <? 2 ^ 16) then spec_run size ops (p ++ [h]) c else None
  | Take :: ops =>
      '(p', c', hs) ← spec_run size ops (tail p) c;
      Some (p', c', option_list (head p) ++ hs)
  | Complete h w :: ops =>
      if (zlen c <? size) && (0 <=? h) && (h <? 2 ^ 16) && (0 <=? w) && (w <? 2 ^ 32)
      then spec_run size ops p (c ++ [(h, w)]) else None
  end.

(** A queue as the transport sets it up: a power-of-two size, rings inside the
    guest's memory and apart from each other. *)
Record queue_ok (q : Queue) : Prop := {
  ok_size : 0 < q_Size q <= 2 ^ 15;
  ok_pow2 : (q_Size q | 2 ^ 16);
  ok_last : 0 <= q_lastAvailIdx q < 2 ^ 16;
  ok_mem : zlen (q_mem q) <= 2 ^ 62;
  ok_bytes : Forall is_byte (q_mem q);
  ok_avail : 0 <= q_AvailAddr q /\ q_AvailAddr q + AvailRingSize (q_Size q) <= zlen (q_mem q);
  ok_used : 0 <= q_UsedAddr q /\ q_UsedAddr q + UsedRingSize (q_Size q) <= zlen (q_mem q);
  ok_apart : q_AvailAddr q + AvailRingSize (q_Size q) <= q_UsedAddr q
             \/ q_UsedAddr q + UsedRingSize (q_Size q) <= q_AvailAddr q
}.

(** ** Words in memory *)

Lemma length_copy_at m a bs : length (copy_at m a bs) = length m.
Proof. apply length_inserts. Qed.

Lemma copy_at_byte m a bs : Forall is_byte m -> Forall is_byte bs -> Forall is_byte (copy_at m a bs).
Proof.
  intros Hm Hbs. unfold copy_at. generalize (Z.to_nat a). revert m Hm.
  induction Hbs as [|b bs Hb _ IH]; intros m Hm i; [done|]. simpl. apply Forall_insert; [|done]. by apply IH.
Qed.

(** A block of [n] bytes at [a] lies inside the memory. *)
Definition inside (n : nat) (m : list Z) (a : Z) : Prop := 0 <= a /\ a + Z.of_nat n <= zlen m.

Lemma rd_bound n m a : Forall is_byte m -> inside n m a -> 0 <= rd n m a < 256 ^ Z.of_nat n.
Proof.
  intros Hm [Ha Hi]. unfold rd.
  assert (length (take n (drop (Z.to_nat a) m)) = n) as Hl.
  { rewrite length_take, length_drop. lia. }
  rewrite <-Hl at 3. apply le_val_bound. by apply Forall_take, Forall_drop.
Qed.

Lemma rd_copy_same n m a v :
  inside n m a -> rd n (copy_at m a (le_bytes n v)) a = v mod 256 ^ Z.of_nat n.
Proof.
  intros [Ha Hi]. unfold rd, copy_at. rewrite <-le_val_bytes. f_equal.
  apply list_eq. intros i. destruct (decide (i < n)%nat) as [Hlt|Hge].
  - rewrite lookup_take_lt by done. rewrite lookup_drop.
    rewrite list_lookup_inserts; [|rewrite length_le_bytes; lia|lia]. f_equal. lia.
  - rewrite !lookup_ge_None_2; [done|by rewrite length_le_bytes; lia|].
    rewrite length_take. lia.
Qed.

(** A write to [a', a'+len) leaves a read of [a, a+n) alone when they are apart. *)
Lemma rd_copy_other n m a a' bs :
  0 <= a -> 0 <= a' -> a + Z.of_nat n <= a' \/ a' + zlen bs <= a -> rd n (copy_at m a' bs) a = rd n m a.
Proof.
  intros Ha Ha' Hd. unfold rd, copy_at. f_equal.
  apply list_eq. intros i. destruct (decide (i < n)%nat) as [Hlt|Hge].
  - rewrite !lookup_take_lt by done. rewrite !lookup_drop. destruct Hd.
    + apply list_lookup_inserts_lt. lia.
    + apply list_lookup_inserts_ge. lia.
  - rewrite !lookup_ge_None_2; [done|rewrite length_take; lia..].
Qed.

Lemma load_ok n m a : zlen m <= 2 ^ 62 -> inside n m a -> load n m a = Ok (rd n m a).
Proof.
  intros Hm [Ha Hi]. unfold load, rd. rewrite u64_small by lia.
  rewrite slice_ok by lia. cbn. do 2 f_equal. f_equal. lia.
Qed.

Lemma store_ok n m a v : inside n m a -> store n m a v = Ok (copy_at m a (le_bytes n v)).
Proof.
  intros [Ha Hi]. unfold store. rewrite slice_ok by lia. cbn.
  rewrite (proj2 (Z.leb_le _ _)); [done|]. rewrite length_take, length_drop. lia.
Qed.

(** ** The ring accesses of a well-formed queue *)

Section ok.
#[local] Set Default Proof Using "All".
Context (q : Queue) (Hq : queue_ok q).

(** Ring slots are in range; [ring_arith] brings the layout into scope. *)
Ltac ring_arith :=
  destruct Hq as [? _ ? ? _ ? ? ?]; unfold inside, AvailRingSize, UsedRingSize in *.

Lemma slot_bound i : 0 <= i mod q_Size q < q_Size q.
Proof. apply Z.mod_pos_bound. ring_arith. lia. Qed.

Lemma avail_idx_inside : inside 2 (q_mem q) (q_AvailAddr q + 2).
Proof. ring_arith. lia. Qed.
Lemma avail_ring_inside i : inside 2 (q_mem q) (q_AvailAddr q + 4 + i mod q_Size q * 2).
Proof. pose proof (slot_bound i). ring_arith. lia. Qed.
Lemma used_idx_inside : inside 2 (q_mem q) (q_UsedAddr q + 2).
Proof. ring_arith. lia. Qed.
Lemma used_elem_inside i : inside 8 (q_mem q) (q_UsedAddr q + 4 + i mod q_Size q * 8).
Proof. pose proof (slot_bound i). ring_arith. lia. Qed.

Lemma avail_idx_bound : 0 <= avail_idx q < 2 ^ 16.
Proof. apply (rd_bound 2); [apply Hq|apply avail_idx_inside]. Qed.
Lemma used_idx_bound : 0 <= used_idx q < 2 ^ 16.
Proof. apply (rd_bound 2); [apply Hq|apply used_idx_inside]. Qed.
Lemma avail_ring_bound i : 0 <= avail_ring (i mod q_Size q) q < 2 ^ 16.
Proof. apply (rd_bound 2); [apply Hq|apply avail_ring_inside]. Qed.

Lemma readAvailIdx_ok : readAvailIdx q = Ok (avail_idx q).
Proof.
  unfold readAvailIdx. rewrite u64_small by (ring_arith; lia).
  apply load_ok; [apply Hq|apply avail_idx_inside].
Qed.
Lemma readUsedIdx_ok : readUsedIdx q = Ok (used_idx q).
Proof.
  unfold readUsedIdx. rewrite u64_small by (ring_arith; lia).
  apply load_ok; [apply Hq|apply used_idx_inside].
Qed.
Lemma readAvailRing_ok i :
  readAvailRing (i mod q_Size q) q = Ok (avail_ring (i mod q_Size q) q).
Proof.
  unfold readAvailRing. pose proof (slot_bound i).
  rewrite u64_small by (ring_arith; lia). apply load_ok; [apply Hq|apply avail_ring_inside].
Qed.
Lemma rem_ok i : rem i (q_Size q) = Ok (i mod q_Size q).
Proof. unfold rem. rewrite (proj2 (Z.eqb_neq _ _)); [done|]. ring_arith. lia. Qed.

(** 16-bit indices that differ by a multiple of 2^16 use the same slot. *)
Lemma slot_u16 i : u16 i mod q_Size q = i mod q_Size q.
Proof. apply Z.mod_mod_divide. apply Hq. Qed.

Lemma slot_neq i j : 0 < j - i < q_Size q -> i mod q_Size q <> j mod q_Size q.
Proof.
  intros Hij Heq. assert (q_Size q | j - i) as [k Hk].
  { apply Z.mod_divide; [lia|]. rewrite Zminus_mod, Heq, Z.sub_diag. apply Z.mod_0_l. lia. }
  assert (0 < k < 1) by nia. lia.
Qed.
End ok.

Lemma queue_ok_mem q m :
  queue_ok q -> length m = length (q_mem q) -> Forall is_byte m -> queue_ok (set_mem m q).
Proof. intros [] Hl Hb. split; simpl; rewrite ?Hl; done. Qed.

Lemma queue_ok_last q i : queue_ok q -> 0 <= i < 2 ^ 16 -> queue_ok (set_last i q).
Proof. by intros [] ?. Qed.

(** ** The available ring as a queue *)

(** Counting from one index to the other; the difference of 16-bit words. *)
Lemma u16_diff_succ a b : 0 < u16 (a - b) -> u16 (a - u16 (b + 1)) = u16 (a - b) - 1.
Proof.
  unfold u16. intros H. pose proof (Z.mod_pos_bound (a - b) (2 ^ 16)).
  rewrite Zminus_mod_idemp_r. replace (a - (b + 1)) with (a - b - 1) by lia.
  rewrite <-Zminus_mod_idemp_l. apply Z.mod_small. lia.
Qed.

Lemma u16_diff_incr a b : u16 (a - b) < 2 ^ 16 - 1 -> u16 (u16 (a + 1) - b) = u16 (a - b) + 1.
Proof.
  unfold u16. intros H. pose proof (Z.mod_pos_bound (a - b) (2 ^ 16)).
  rewrite Zminus_mod_idemp_l. replace (a + 1 - b) with (a - b + 1) by lia.
  rewrite <-Zplus_mod_idemp_l. apply Z.mod_small. lia.
Qed.

Lemma u16_diff_zero a b : 0 <= a < 2 ^ 16 -> 0 <= b < 2 ^ 16 -> u16 (a - b) = 0 <-> a = b.
Proof.
  unfold u16. intros Ha Hb. split; [|intros ->; by rewrite Z.sub_diag].
  intros [k Hk]%Z.mod_divide; lia.
Qed.

Lemma u16_range x : 0 <= u16 x < 2 ^ 16.
Proof. by apply Z.mod_pos_bound. Qed.

(** [NextAvail] takes the first published head. *)
Lemma NextAvail_spec q :
  queue_ok q ->
  match pending q with
  | [] => NextAvail q = Ok (q, None)
  | h :: hs => exists q', NextAvail q = Ok (q', Some h) /\ queue_ok q' /\ pending q' = hs /\
                 q' = set_last (u16 (q_lastAvailIdx q + 1)) q
  end.
Proof.
  intros Hq. pose proof (avail_idx_bound q Hq) as Ha. pose proof (ok_last q Hq) as Hl.
  pose proof (u16_range (avail_idx q - q_lastAvailIdx q)) as Hr.
  unfold NextAvail. rewrite readAvailIdx_ok by done. cbn [mbind result_bind].
  destruct (Z.eqb_spec (avail_idx q) (q_lastAvailIdx q)) as [Heq|Hne].
  - unfold pending. by rewrite (proj2 (u16_diff_zero _ _ Ha Hl) Heq).
  - assert (0 < u16 (avail_idx q - q_lastAvailIdx q)) as Hpos.
    { destruct (decide (u16 (avail_idx q - q_lastAvailIdx q) = 0)) as [E|]; [|lia].
      by apply (u16_diff_zero _ _ Ha Hl) in E. }
    unfold pending at 1. rewrite seqZ_cons by done. csimpl. rewrite Z.add_0_r.
    rewrite rem_ok by done. cbn [mbind result_bind]. rewrite readAvailRing_ok by done.
    eexists. split_and!; [done| |..|done].
    + apply queue_ok_last; [done|apply u16_range].
    + unfold pending. change (avail_idx (set_last _ q)) with (avail_idx q). simpl q_lastAvailIdx.
      rewrite u16_diff_succ by done. rewrite <-(fmap_add_seqZ 1 0).
      rewrite <-list_fmap_compose. apply list_fmap_ext. intros _ i _. simpl.
      change (avail_ring ?s (set_last _ q)) with (avail_ring s q). f_equal.
      pose proof (ok_size q Hq). rewrite <-Zplus_mod_idemp_l, (slot_u16 q Hq), Zplus_mod_idemp_l.
      f_equal. lia.
Qed.

Lemma seqZ_snoc_fmap {A} (f g : Z -> A) c x :
  0 <= c -> (forall i, 0 <= i < c -> f i = g i) -> f c = x ->
  f <$> seqZ 0 (c + 1) = (g <$> seqZ 0 c) ++ [x].
Proof.
  intros Hc Hfg Hx. rewrite seqZ_app, fmap_app by lia. f_equal.
  - apply Forall_fmap_ext_1. apply Forall_seqZ. intros i Hi. apply Hfg. lia.
  - rewrite Z.add_0_l, seqZ_cons, seqZ_nil by lia. by subst x.
Qed.

Lemma length_pending q : zlen (pending q) = u16 (avail_idx q - q_lastAvailIdx q).
Proof.
  unfold pending. rewrite length_fmap, length_seqZ.
  pose proof (u16_range (avail_idx q - q_lastAvailIdx q)). lia.
Qed.

(** Posting a head appends it, as long as the ring is not full. *)
Lemma guest_post_spec q h :
  queue_ok q -> 0 <= h < 2 ^ 16 -> zlen (pending q) < q_Size q ->
  queue_ok (guest_post h q) /\ pending (guest_post h q) = pending q ++ [h] /\
  (forall seen, completions seen (guest_post h q) = completions seen q).
Proof.
  intros Hq Hh Hlen. rewrite length_pending in Hlen.
  pose proof (slot_bound q Hq) as Hs. pose proof (avail_ring_inside q Hq) as Hi.
  pose proof (ok_size q Hq) as Hsz. pose proof (ok_avail q Hq) as Hav.
  pose proof (ok_used q Hq) as Hus. pose proof (ok_apart q Hq) as Hap.
  unfold AvailRingSize, UsedRingSize in *.
  assert (queue_ok (guest_post h q)) as Hq'.
  { apply queue_ok_mem; [done|by rewrite !length_copy_at|].
    repeat apply copy_at_byte; [apply Hq|apply le_bytes_byte..]. }
  assert (avail_idx (guest_post h q) = u16 (avail_idx q + 1)) as Hidx.
  { unfold avail_idx at 1. simpl. rewrite rd_copy_same; [by apply Z.mod_mod|].
    destruct (avail_idx_inside q Hq). split; [done|]. by rewrite length_copy_at. }
  assert (forall s, avail_ring (s mod q_Size q) (guest_post h q) =
    if decide (s mod q_Size q = avail_idx q mod q_Size q) then h
    else avail_ring (s mod q_Size q) q) as Hring.
  { intros s. pose proof (Hs s). pose proof (Hs (avail_idx q)). unfold avail_ring. simpl.
    rewrite rd_copy_other by (rewrite ?length_le_bytes; lia). case_decide as Hd.
    - rewrite Hd. rewrite rd_copy_same by apply Hi. by apply Z.mod_small.
    - apply rd_copy_other; rewrite ?length_le_bytes; lia. }
  split_and!; [done| |].
  - pose proof (u16_range (avail_idx q - q_lastAvailIdx q)) as Hr. set (c := u16 _) in *.
    unfold pending. rewrite Hidx. cbn [guest_post set_mem q_lastAvailIdx q_Size].
    rewrite u16_diff_incr by (fold c; lia). fold c.
    assert (avail_idx q mod q_Size q = (q_lastAvailIdx q + c) mod q_Size q) as Hsl.
    { unfold c, u16. rewrite <-(slot_u16 q Hq (_ + _)). unfold u16.
      rewrite Zplus_mod_idemp_r. replace (_ + _) with (avail_idx q) by lia.
      by rewrite <-(slot_u16 q Hq). }
    apply seqZ_snoc_fmap; [lia| |].
    + intros i Hic. rewrite Hring, Hsl. rewrite decide_False; [done|].
      apply (slot_neq q Hq). lia.
    + rewrite Hring, Hsl. by rewrite decide_True.
  - intros seen. unfold completions, used_idx, used_elem. cbn [guest_post set_mem q_mem q_UsedAddr q_Size].
    pose proof (Hs (avail_idx q)).
    rewrite !(rd_copy_other 2) by (rewrite ?length_le_bytes; lia).
    apply list_fmap_ext. intros _ i _. pose proof (Hs (seen + i)).
    by rewrite !(rd_copy_other 4) by (rewrite ?length_le_bytes; lia).
Qed.

(** ** The used ring as the list of completions *)

(** What [PutUsed] does to the memory of a well-formed queue. *)
Lemma PutUsed_mem q h w :
  queue_ok q ->
  let a := q_UsedAddr q + 4 + used_idx q mod q_Size q * 8 in
  PutUsed h w q =
    Ok (set_mem (copy_at (copy_at (copy_at (q_mem q) a (le_bytes 4 h)) (a + 4) (le_bytes 4 w))
                  (q_UsedAddr q + 2) (le_bytes 2 (u16 (used_idx q + 1)))) q).
Proof.
  intros Hq a. pose proof (used_elem_inside q Hq (used_idx q)) as [Hi1 Hi2]. fold a in Hi1, Hi2.
  pose proof (used_idx_inside q Hq) as [Hu1 Hu2]. pose proof (ok_mem q Hq).
  unfold PutUsed. rewrite readUsedIdx_ok by done. cbn [mbind result_bind].
  rewrite rem_ok by done. cbn [mbind result_bind]. fold a. rewrite (u64_small a) by lia.
  rewrite store_ok by (split; lia). cbn [mbind result_bind]. rewrite (u64_small (a + 4)) by lia.
  rewrite store_ok by (unfold inside; rewrite length_copy_at; lia). cbn [mbind result_bind].
  unfold writeUsedIdx. cbn [set_mem q_mem q_UsedAddr]. rewrite u64_small by lia.
  rewrite store_ok by (unfold inside; rewrite !length_copy_at; lia). done.
Qed.

(** Two queues whose available rings read the same have the same pending heads. *)
Lemma pending_frame q m :
  queue_ok q ->
  (forall n a, 0 <= a -> q_AvailAddr q <= a ->
     a + Z.of_nat n <= q_AvailAddr q + AvailRingSize (q_Size q) -> rd n m a = rd n (q_mem q) a) ->
  pending (set_mem m q) = pending q.
Proof.
  intros Hq Hm. pose proof (ok_avail q Hq) as [Ha _]. unfold AvailRingSize in Hm.
  pose proof (ok_size q Hq). unfold pending, avail_idx, avail_ring. cbn [set_mem q_mem q_AvailAddr q_Size q_lastAvailIdx].
  rewrite Hm by lia. apply list_fmap_ext. intros _ i _. pose proof (slot_bound q Hq (q_lastAvailIdx q + i)).
  by rewrite Hm by lia.
Qed.

Lemma PutUsed_spec q h w :
  queue_ok q -> 0 <= h < 2 ^ 16 -> 0 <= w < 2 ^ 32 ->
  exists q', PutUsed h w q = Ok q' /\ queue_ok q' /\ pending q' = pending q /\
    (forall seen, zlen (completions seen q) < q_Size q ->
       completions seen q' = completions seen q ++ [(h, w)]) /\
    q' = set_mem (q_mem q') q /\ length (q_mem q') = length (q_mem q) /\
    (forall n a, 0 <= a ->
       a + Z.of_nat n <= q_UsedAddr q \/ q_UsedAddr q + UsedRingSize (q_Size q) <= a ->
       rd n (q_mem q') a = rd n (q_mem q) a).
Proof.
  intros Hq Hh Hw. rewrite PutUsed_mem by done.
  pose proof (slot_bound q Hq) as Hs. pose proof (used_elem_inside q Hq) as Hi.
  pose proof (ok_size q Hq) as Hsz. pose proof (ok_avail q Hq) as Hav.
  pose proof (ok_used q Hq) as Hus. pose proof (ok_apart q Hq) as Hap.
  set (a := q_UsedAddr q + 4 + _). set (m := copy_at _ (q_UsedAddr q + 2) _).
  assert (length m = length (q_mem q)) as Hlm by (unfold m; by rewrite !length_copy_at).
  pose proof (Hs (used_idx q)) as Hsu. unfold UsedRingSize in *.
  assert (forall n b, 0 <= b -> b + Z.of_nat n <= q_UsedAddr q \/ q_UsedAddr q + (2 + 2 + q_Size q * 8 + 2) <= b ->
    rd n m b = rd n (q_mem q) b) as Hframe.
  { intros n b Hb Hd. unfold m. rewrite !rd_copy_other; rewrite ?length_le_bytes; lia. }
  assert (used_idx (set_mem m q) = u16 (used_idx q + 1)) as Hidx.
  { unfold used_idx at 1, m. cbn [set_mem q_mem q_UsedAddr].
    rewrite rd_copy_same; [by apply Z.mod_mod|]. split; [lia|]. rewrite !length_copy_at. lia. }
  assert (forall s, used_elem (s mod q_Size q) (set_mem m q) =
    if decide (s mod q_Size q = used_idx q mod q_Size q) then (h, w)
    else used_elem (s mod q_Size q) q) as Helem.
  { intros s. pose proof (Hs s). unfold used_elem, m. cbn [set_mem q_mem q_UsedAddr].
    rewrite !(rd_copy_other 4 _ _ (q_UsedAddr q + 2)) by (rewrite ?length_le_bytes; lia).
    case_decide as Hd; unfold a.
    - rewrite Hd, rd_copy_other, !rd_copy_same; rewrite ?length_le_bytes; unfold inside;
        rewrite ?length_copy_at; [|lia..].
      change (256 ^ Z.of_nat 4) with (2 ^ 32). by rewrite !Z.mod_small by lia.
    - rewrite !rd_copy_other; [done|rewrite ?length_le_bytes; lia..]. }
  eexists. split; [done|]. split_and!; [| | |done|done|].
  - apply queue_ok_mem; [done|done|]. unfold m.
    repeat apply copy_at_byte; [apply Hq|apply le_bytes_byte..].
  - apply pending_frame; [done|]. intros n b Hb1 Hb2 Hb3. apply Hframe; lia.
  - intros seen Hlen. unfold completions in Hlen. rewrite length_fmap, length_seqZ in Hlen.
    pose proof (u16_range (used_idx q - seen)) as Hr. unfold completions. rewrite Hidx.
    rewrite u16_diff_incr by lia. set (c := u16 (used_idx q - seen)) in *. cbn [set_mem q_Size].
    assert (used_idx q mod q_Size q = (seen + c) mod q_Size q) as Hsl.
    { unfold c, u16. rewrite <-(slot_u16 q Hq (_ + _)). unfold u16.
      rewrite Zplus_mod_idemp_r. replace (seen + _) with (used_idx q) by lia.
      by rewrite <-(slot_u16 q Hq). }
    apply seqZ_snoc_fmap; [lia| |].
    + intros i Hic. rewrite Helem, Hsl. rewrite decide_False; [done|]. apply (slot_neq q Hq). lia.
    + rewrite Helem, Hsl. by rewrite decide_True.
  - exact Hframe.
Qed.

(** ** Descriptor chains *)

(** The chain of descriptors that starts at an index, as the [Next] fields link it. *)
Inductive linked (q : Queue) : Z -> list VirtqDesc -> Prop :=
  | linked_last idx d :
      ReadDesc idx q = Ok d -> has_flag VirtqDescFNext d = false -> linked q idx [d]
  | linked_next idx d ds :
      ReadDesc idx q = Ok d -> has_flag VirtqDescFNext d = true ->
      linked q (d_Next d) ds -> linked q idx (d :: ds).

Lemma load_no_fuel n m a : load n m a <> Err OutOfFuel.
Proof. unfold load, slice. by destruct (_ && _). Qed.

Lemma ReadDesc_no_fuel idx q : ReadDesc idx q <> Err OutOfFuel.
Proof.
  unfold ReadDesc. cbv zeta.
  repeat match goal with
  | |- context [load ?n ?m ?a] =>
      pose proof (load_no_fuel n m a); destruct (load n m a); cbn [mbind result_bind]; [|congruence]
  end. done.
Qed.

Lemma readChainLoop_total fuel idx chain q :
  zlen chain <= q_Size q -> q_Size q + 2 <= Z.of_nat fuel + zlen chain ->
  readChainLoop fuel idx chain q <> Err OutOfFuel /\
  forall c, readChainLoop fuel idx chain q = Ok c ->
    exists ds, c = chain ++ ds /\ ds <> [] /\ zlen c <= q_Size q + 1 /\
      (linked q idx ds \/ zlen c = q_Size q + 1).
Proof.
  revert idx chain. induction fuel as [|fuel IH]; intros idx chain Hc Hf; [lia|].
  cbn [readChainLoop]. pose proof (ReadDesc_no_fuel idx q).
  destruct (ReadDesc idx q) as [d|e] eqn:Hd; cbn [mbind result_bind]; [|split; congruence].
  assert (zlen (chain ++ [d]) = zlen chain + 1) as Hl by (rewrite length_app; simpl; lia).
  destruct (has_flag VirtqDescFNext d) eqn:Hn; cbn [negb].
  - destruct (Z.ltb_spec (q_Size q) (zlen (chain ++ [d]))).
    + split; [done|]. intros c [= <-]. exists [d]. split_and!; [done|done|lia|right; lia].
    + destruct (IH (d_Next d) (chain ++ [d])) as [IH1 IH2]; [lia..|]. split; [done|].
      intros c Hok. destruct (IH2 c Hok) as (ds & -> & Hds & Hle & Hor).
      exists (d :: ds). rewrite <-app_assoc. split_and!; [done|done|by rewrite <-app_assoc in Hle|].
      rewrite <-app_assoc in Hor. destruct Hor; [left|by right]. by eapply linked_next.
  - split; [done|]. intros c [= <-]. exists [d]. split_and!; [done|done|lia|left; by apply linked_last].
Qed.

Lemma readChainLoop_linked q idx ds :
  linked q idx ds -> forall fuel chain,
  zlen chain <= q_Size q -> q_Size q + 2 <= Z.of_nat fuel + zlen chain ->
  readChainLoop fuel idx chain q =
    Ok (chain ++ take (Z.to_nat (q_Size q + 1 - zlen chain)) ds).
Proof.
  induction 1 as [idx d Hd Hn|idx d ds Hd Hn _ IH]; intros [|fuel] chain Hc Hf; try lia.
  all: cbn [readChainLoop]; rewrite Hd; cbn [mbind result_bind]; rewrite Hn; cbn [negb].
  - by rewrite take_ge by (simpl; lia).
  - assert (zlen (chain ++ [d]) = zlen chain + 1) as Hl by (rewrite length_app; simpl; lia).
    destruct (Z.ltb_spec (q_Size q) (zlen (chain ++ [d]))).
    + by replace (Z.to_nat _) with 1%nat by lia.
    + rewrite IH by lia. rewrite <-app_assoc, Hl.
      replace (Z.to_nat (q_Size q + 1 - zlen chain)) with (S (Z.to_nat (q_Size q - zlen chain))) by lia.
      cbn. do 4 f_equal. lia.
Qed.

(** ** Properties *)

(** C4 The rings refine two queues. Whatever the interleaving of the driver posting
    heads and the device taking and completing them, as long as neither side
    overruns the ring, nothing panics, [NextAvail] hands out the heads in the order
    they were posted and reports empty exactly when none is left, and the driver
    reads the completions in the order [PutUsed] made them; the 16-bit ring indices
    may wrap at any point. *)
Theorem ring_refines ops q seen p c hs :
  queue_ok q ->
  spec_run (q_Size q) ops (pending q) (completions seen q) = Some (p, c, hs) ->
  exists q', ring_run ops q = Ok (q', hs) /\ queue_ok q' /\ pending q' = p /\ completions seen q' = c.
Proof.
  revert q p c hs. induction ops as [|[h| |h w] ops IH]; intros q p c hs Hq; cbn [spec_run ring_run].
  - intros [= <- <- <-]. by exists q.
  - intros Hs. case_hyp Hs; [|done]. bool_props.
    destruct (guest_post_spec q h Hq) as (Hq' & Hp & Hc); [lia..|].
    apply IH; [done|]. by rewrite Hp, Hc.
  - pose proof (NextAvail_spec q Hq) as Hn. destruct (pending q) as [|h t] eqn:Hp; csimpl.
    + rewrite Hn. cbn [mbind result_bind]. intros Hs.
      destruct (spec_run _ ops [] _) as [[[p1 c1] hs1]|] eqn:Hr; [|done]. simpl in Hs. simplify_eq.
      rewrite <-Hp in Hr. destruct (IH q _ _ _ Hq Hr) as (q' & Hrun & Hok).
      exists q'. by rewrite Hrun.
    + destruct Hn as (q1 & Hn & Hq1 & Hp1 & Heq). rewrite Hn. cbn [mbind result_bind]. intros Hs.
      destruct (spec_run _ ops t _) as [[[p1 c1] hs1]|] eqn:Hr; [|done]. simpl in Hs. simplify_eq.
      destruct (IH _ p c hs1 Hq1 Hr) as (q' & Hrun & Hok). exists q'. by rewrite Hrun.
  - intros Hs. case_hyp Hs; [|done]. bool_props.
    destruct (PutUsed_spec q h w Hq) as (q1 & Hput & Hq1 & Hp1 & Hc1 & Heq & _); [lia..|].
    rewrite Hput. cbn [mbind result_bind]. apply IH; [done|].
    rewrite Hp1, Hc1 by done. by rewrite Heq.
Qed.

(** C5 Reading a descriptor chain terminates on every memory, loops in the table
    included: the chain has between 1 and [Size + 1] descriptors, it is the linked
    chain unless it was cut at [Size + 1], and a chain that ends is read in full up
    to that length. *)
Theorem ReadChain_correct q head :
  0 <= q_Size q ->
  ReadChain head q <> Err OutOfFuel /\
  (forall c, ReadChain head q = Ok c ->
     0 < zlen c <= q_Size q + 1 /\ (linked q head c \/ zlen c = q_Size q + 1)) /\
  (forall ds, linked q head ds -> ReadChain head q = Ok (take (Z.to_nat (q_Size q + 1)) ds)).
Proof.
  intros Hs. unfold ReadChain.
  destruct (readChainLoop_total (S (S (Z.to_nat (q_Size q)))) head [] q) as [H1 H2]; [simpl; lia..|].
  split_and!; [done| |].
  - intros c Hc. destruct (H2 c Hc) as (ds & -> & Hne & Hle & Hor). simpl in *.
    destruct ds; [done|]. split; [simpl in *; lia|done].
  - intros ds Hl. rewrite (readChainLoop_linked _ _ _ Hl) by (simpl; lia). simpl. do 3 f_equal. lia.
Qed.

(** ** Witnesses and gaps *)

(** A ring of two entries whose 16-bit indices are about to wrap. *)
Definition wrapQueue : Queue :=
  mkQueue 2 0 32 48
    (replicate 34 0 ++ [255; 255] ++ replicate 14 0 ++ [255; 255] ++ replicate 28 0) 65535.

Lemma wrapQueue_ok : queue_ok wrapQueue.
Proof.
  split; vm_compute; try done; try (split; congruence); [by exists 32768| |by left].
  by apply bytes_by_compute.
Qed.

Lemma ring_refines_witness :
  exists q', ring_run [Post 7; Post 9; Take; Post 11; Take; Complete 7 100; Take; Take; Complete 9 1]
    wrapQueue = Ok (q', [7; 9; 11]) /\ queue_ok q' /\ pending q' = [] /\
    completions 65535 q' = [(7, 100); (9, 1)].
Proof.
  apply (ring_refines _ wrapQueue 65535); [exact wrapQueue_ok|by vm_compute].
Defined.

(** A table whose descriptor 0 names itself as its successor. *)
Lemma ReadChain_correct_witness :
  let q := mkQueue 2 0 32 48 (replicate 12 0 ++ [1; 0] ++ replicate 66 0) 0 in
  ReadChain 0 q = Ok (replicate 3 (mkDesc 0 0 1 0)) /\ ReadChain 0 q <> Err OutOfFuel.
Proof.
  intros q. split; [by vm_compute|]. apply (ReadChain_correct q 0). vm_compute. congruence.
Defined.

(** The bounds test of [ReadBuffer] adds in 64 bits: an address close to 2^64, which
    the guest chooses, passes it and the slice expression panics. *)
Lemma ReadBuffer_guest_panic :
  ReadBuffer (2 ^ 64 - 8) 16 (mkQueue 2 0 32 48 (replicate 80 0) 0) = Err PanicBounds.
Proof. by vm_compute. Qed.

(** A descriptor index is not compared with the queue size: an index past the table
    reads beyond it, and past the end of memory it panics. *)
Lemma ReadDesc_index_unchecked :
  ReadDesc 1000 (mkQueue 2 0 32 48 (replicate 80 0) 0) = Err PanicBounds.
Proof. by vm_compute. Qed.
