(* ===== verification/VirtioDevice.v ===== *)
(** * What virtio devices share

    The buffers of a chain lie apart from the rings and the descriptor table; a device
    that only writes into them leaves both as the driver wrote them. [ring_round] is
    one turn of the loop of every device: a head is taken, its chain is read, the
    request is served and completed. *)

From stdpp Require Import options.
From S2P Require Import Prelude Words VirtioQueue.
Open Scope Z_scope.

(** ** Buffers apart from the rings *)

(** The regions of a queue the driver and the device share for the protocol: the
    descriptor table, the available ring and the used ring. *)
Definition regions (q : Queue) : list (Z * Z) :=
  [(q_DescTableAddr q, q_DescTableAddr q + DescTableSize (q_Size q));
   (q_AvailAddr q, q_AvailAddr q + AvailRingSize (q_Size q));
   (q_UsedAddr q, q_UsedAddr q + UsedRingSize (q_Size q))].

Definition apart (q : Queue) (lo hi : Z) : Prop :=
  Forall (fun r => hi <= r.1 \/ r.2 <= lo) (regions q).

(** A buffer inside the memory and apart from the regions, with room for the nine
    bytes of the device ID. *)
Definition buffer_ok (q : Queue) (d : VirtqDesc) : Prop :=
  0 <= d_Addr d /\ 0 <= d_Len d /\ d_Addr d + Z.max 9 (d_Len d) <= zlen (q_mem q) /\
  apart q (d_Addr d) (d_Addr d + Z.max 9 (d_Len d)).

(** [q'] differs from [q] only in memory outside the regions. *)
Record same_rings (q q' : Queue) : Prop := {
  sr_shape : q' = set_mem (q_mem q') q;
  sr_length : length (q_mem q') = length (q_mem q);
  sr_bytes : Forall is_byte (q_mem q) -> Forall is_byte (q_mem q');
  sr_read n a : 0 <= a -> Exists (fun r => r.1 <= a /\ a + Z.of_nat n <= r.2) (regions q) ->
    rd n (q_mem q') a = rd n (q_mem q) a
}.

#[global] Instance same_rings_preorder : PreOrder same_rings.
Proof.
  split.
  - intros [] . by split.
  - intros q1 q2 q3 [S1 L1 B1 R1] [S2 L2 B2 R2].
    assert (regions q2 = regions q1) as Hr by by rewrite S1.
    split; [rewrite S2, S1 at 1; done|congruence|auto|].
    intros n a Ha Hx. rewrite R2, R1; [done|done|done|done|]. by rewrite Hr.
Qed.

Lemma same_rings_buffer q q' d : same_rings q q' -> buffer_ok q d -> buffer_ok q' d.
Proof.
  intros [S L _ _]. unfold buffer_ok, apart. rewrite L. by replace (regions q') with (regions q) by by rewrite S.
Qed.

Lemma WriteBuffer_same_rings q a bs :
  zlen (q_mem q) <= 2 ^ 62 -> 0 <= a -> a + zlen bs <= zlen (q_mem q) ->
  apart q a (a + zlen bs) -> Forall is_byte bs ->
  WriteBuffer a bs q = Ok (set_mem (copy_at (q_mem q) a bs) q) /\
  same_rings q (set_mem (copy_at (q_mem q) a bs) q).
Proof.
  intros Hm Ha Hl Hap Hbs. split.
  - unfold WriteBuffer. rewrite u64_small by lia. rewrite (proj2 (Z.ltb_ge _ _)) by lia.
    by rewrite slice_ok by lia.
  - split; simpl; [done|apply length_copy_at|intros; by apply copy_at_byte|].
    intros n b Hb Hx. apply rd_copy_other; [done..|].
    unfold apart in Hap. rewrite Exists_exists in Hx. destruct Hx as (r & Hr & Hx1 & Hx2).
    rewrite Forall_forall in Hap. destruct (Hap r Hr); lia.
Qed.

(** ** Requests leave the rings alone *)

Lemma ReadBuffer_ok q a len :
  zlen (q_mem q) <= 2 ^ 62 -> 0 <= a -> 0 <= len -> a + len <= zlen (q_mem q) ->
  ReadBuffer a len q = Ok (take (Z.to_nat len) (drop (Z.to_nat a) (q_mem q))).
Proof.
  intros. unfold ReadBuffer. rewrite u64_small by lia. rewrite (proj2 (Z.ltb_ge _ _)) by lia.
  rewrite slice_ok by lia. do 2 f_equal. lia.
Qed.

Lemma u32_range x : 0 <= u32 x < 2 ^ 32.
Proof. by apply Z.mod_pos_bound. Qed.

(** A write of at most [max 9 Len] bytes into a buffer of the chain. *)
Lemma WriteBuffer_desc q d bs :
  zlen (q_mem q) <= 2 ^ 62 -> buffer_ok q d -> zlen bs <= Z.max 9 (d_Len d) -> Forall is_byte bs ->
  exists q', WriteBuffer (d_Addr d) bs q = Ok q' /\ same_rings q q'.
Proof.
  intros Hm (Ha & Hl & Hin & Hap) Hbs Hb. eexists.
  apply WriteBuffer_same_rings; [done|done|lia| |done].
  eapply Forall_impl; [exact Hap|]. simpl. lia.
Qed.

(** ** The descriptor table stays as the driver wrote it *)

(** A descriptor table inside the memory and apart from the used ring, which the
    device writes. *)
Definition table_ok (q : Queue) : Prop :=
  0 <= q_DescTableAddr q /\ q_DescTableAddr q + DescTableSize (q_Size q) <= zlen (q_mem q) /\
  (q_DescTableAddr q + DescTableSize (q_Size q) <= q_UsedAddr q \/
   q_UsedAddr q + UsedRingSize (q_Size q) <= q_DescTableAddr q).

(** A chain of descriptors inside the table, no longer than it. *)
Definition chain_ok (q : Queue) (h : Z) (c : list VirtqDesc) : Prop :=
  linked q h c /\ zlen c <= q_Size q + 1 /\ 0 <= h < q_Size q /\
  Forall (fun d => has_flag VirtqDescFNext d = true -> 0 <= d_Next d < q_Size q) c.

(** Every pending request is a chain the driver may post. *)
Definition driver_ok (q : Queue) (h : Z) : Prop :=
  exists c, chain_ok q h c /\ Forall (buffer_ok q) c.

Record table_same (q q' : Queue) : Prop := {
  ts_size : q_Size q' = q_Size q;
  ts_desc : q_DescTableAddr q' = q_DescTableAddr q;
  ts_avail : q_AvailAddr q' = q_AvailAddr q;
  ts_used : q_UsedAddr q' = q_UsedAddr q;
  ts_length : length (q_mem q') = length (q_mem q);
  ts_read n a : q_DescTableAddr q <= a ->
    a + Z.of_nat n <= q_DescTableAddr q + DescTableSize (q_Size q) ->
    rd n (q_mem q') a = rd n (q_mem q) a
}.

Lemma ReadDesc_ok q idx :
  zlen (q_mem q) <= 2 ^ 62 -> table_ok q -> 0 <= idx < q_Size q ->
  let a := q_DescTableAddr q + idx * 16 in
  ReadDesc idx q = Ok (mkDesc (rd 8 (q_mem q) a) (rd 4 (q_mem q) (a + 8)) (rd 2 (q_mem q) (a + 12))
                         (rd 2 (q_mem q) (a + 14))).
Proof.
  intros Hm (Ht & Hin & _) Hi a. unfold DescTableSize in Hin. unfold ReadDesc. fold a.
  assert (0 <= a /\ a + 16 <= zlen (q_mem q)) as [? ?] by (unfold a; lia).
  rewrite !(u64_small a) by lia. rewrite !u64_small by lia.
  by rewrite !load_ok by (unfold inside; lia).
Qed.

Section table_same.
#[local] Set Default Proof Using "All".
Context (q q' : Queue) (Hm : zlen (q_mem q) <= 2 ^ 62) (Ht : table_ok q) (Hs : table_same q q').

Lemma table_ok_same : table_ok q'.
Proof. destruct Hs as [S D _ U L _]. unfold table_ok. by rewrite S, D, U, L. Qed.

Lemma ReadDesc_same idx : 0 <= idx < q_Size q -> ReadDesc idx q' = ReadDesc idx q.
Proof.
  intros Hi. pose proof table_ok_same as Ht'. destruct Hs as [S D _ U L R].
  rewrite !ReadDesc_ok; [|done..|by rewrite L|done|by rewrite S]. rewrite D.
  pose proof Ht as (? & _). unfold DescTableSize in *. by rewrite !R by lia.
Qed.

Lemma linked_same h c :
  linked q h c -> 0 <= h < q_Size q ->
  Forall (fun d => has_flag VirtqDescFNext d = true -> 0 <= d_Next d < q_Size q) c -> linked q' h c.
Proof.
  induction 1 as [idx d Hd Hn|idx d ds Hd Hn _ IH]; intros Hi [Hn1 Hc]%Forall_cons.
  - apply linked_last; [|done]. by rewrite ReadDesc_same.
  - eapply linked_next; [by rewrite ReadDesc_same|done|]. by apply IH; [apply Hn1|].
Qed.

Lemma driver_ok_same h : driver_ok q h -> driver_ok q' h.
Proof.
  intros (c & (Hl & Hlen & Hh & Hn) & Hb). exists c.
  split; [unfold chain_ok; rewrite (ts_size _ _ Hs); split_and!; [by apply linked_same|done|lia|lia|done]|].
  eapply Forall_impl; [exact Hb|]. intros d. unfold buffer_ok, apart, regions.
  destruct Hs as [S D A U L _]. by rewrite S, D, A, U, L.
Qed.
End table_same.

Lemma same_rings_table q q' : table_ok q -> same_rings q q' -> table_same q q'.
Proof.
  intros (Ha & _) [S L _ R]. split; [by rewrite S..|done|]. intros n a Ha1 Ha2.
  apply R; [lia|]. apply Exists_cons_hd. done.
Qed.

(** What a whole request changes, seen from the rings. *)
Lemma same_rings_views q q' :
  queue_ok q -> same_rings q q' ->
  queue_ok q' /\ pending q' = pending q /\ (forall seen, completions seen q' = completions seen q).
Proof.
  intros Hq [S L B R]. rewrite S. pose proof (ok_used q Hq) as [Hu _]. pose proof (ok_size q Hq).
  split_and!.
  - apply queue_ok_mem; [done|done|]. apply B, Hq.
  - apply pending_frame; [done|]. intros n a Ha Ha1 Ha2. apply R; [done|].
    apply Exists_cons_tl, Exists_cons_hd. done.
  - intros seen. unfold completions, used_idx, used_elem. cbn [set_mem q_mem q_UsedAddr q_Size].
    assert (forall n a, q_UsedAddr q <= a -> a + Z.of_nat n <= q_UsedAddr q + UsedRingSize (q_Size q) ->
      rd n (q_mem q') a = rd n (q_mem q) a) as Hr.
    { intros n a Ha1 Ha2. apply R; [lia|]. do 2 apply Exists_cons_tl. by apply Exists_cons_hd. }
    unfold UsedRingSize in Hr. rewrite Hr by lia. apply list_fmap_ext. intros _ i _.
    pose proof (slot_bound q Hq (seen + i)). by rewrite !Hr by lia.
Qed.

#[global] Instance table_same_trans : Transitive table_same.
Proof.
  intros q1 q2 q3 [S D A U L R] [S' D' A' U' L' R']. split; try congruence.
  intros n a Ha1 Ha2. rewrite R'; [by apply R|by rewrite D|by rewrite D, S].
Qed.

Lemma PutUsed_table q q' :
  table_ok q -> q' = set_mem (q_mem q') q -> length (q_mem q') = length (q_mem q) ->
  (forall n a, 0 <= a ->
     a + Z.of_nat n <= q_UsedAddr q \/ q_UsedAddr q + UsedRingSize (q_Size q) <= a ->
     rd n (q_mem q') a = rd n (q_mem q) a) -> table_same q q'.
Proof.
  intros (Ha & _ & Hap) Hs Hl Hr. split; [by rewrite Hs..|done|].
  intros n a Ha1 Ha2. apply Hr; [lia|]. unfold DescTableSize in *. lia.
Qed.

(** ** One turn of a device's loop *)

Lemma ring_round q h hs :
  queue_ok q -> table_ok q -> Forall (driver_ok q) (h :: hs) -> pending q = h :: hs ->
  exists q1 c, NextAvail q = Ok (q1, Some h) /\ ReadChain h q1 = Ok c /\
    q1 = set_last (u16 (q_lastAvailIdx q + 1)) q /\ queue_ok q1 /\ Forall (buffer_ok q1) c /\
    forall q2 w, same_rings q1 q2 -> 0 <= w < 2 ^ 32 ->
      exists q3, PutUsed h w q2 = Ok q3 /\ queue_ok q3 /\ table_ok q3 /\
        Forall (driver_ok q3) hs /\ pending q3 = hs /\ table_same q q3 /\
        q3 = set_mem (q_mem q3) q1 /\
        (forall seen, zlen (completions seen q) < q_Size q ->
           completions seen q3 = completions seen q ++ [(h, w)]) /\
        (forall n a, 0 <= a ->
           a + Z.of_nat n <= q_UsedAddr q \/ q_UsedAddr q + UsedRingSize (q_Size q) <= a ->
           rd n (q_mem q3) a = rd n (q_mem q2) a).
Proof.
  intros Hq Ht Hdrv Hp. pose proof (NextAvail_spec q Hq) as Hn. rewrite Hp in Hn.
  destruct Hn as (q1 & Hn & Hq1 & Hp1 & Heq).
  assert (table_same q q1) as Hts1 by by rewrite Heq.
  assert (forall seen, completions seen q1 = completions seen q) as Hcs by by rewrite Heq.
  assert (q_Size q1 = q_Size q /\ q_UsedAddr q1 = q_UsedAddr q) as [Hsz Hua] by by rewrite Heq.
  pose proof (ok_mem q Hq) as Hm. pose proof (table_ok_same q q1 Hm Ht Hts1) as Ht1.
  apply Forall_cons in Hdrv as [(c & Hch & Hbuf)%(driver_ok_same q q1 Hm Ht Hts1) Hhs].
  destruct Hch as (Hlk & Hlc & Hh & _). exists q1, c. split_and!; [done| |done|done|done|].
  { unfold ReadChain. rewrite (readChainLoop_linked _ _ _ Hlk) by (simpl; lia).
    by rewrite take_ge by (simpl; lia). }
  intros q2 w Hs2 Hw. destruct (same_rings_views q1 q2 Hq1 Hs2) as (Hq2 & Hp2 & Hc2).
  assert (table_same q1 q2) as Hts2 by by apply same_rings_table.
  pose proof (ts_size _ _ Hts2) as Hsz2. pose proof (ok_size q Hq).
  destruct (PutUsed_spec q2 h w Hq2) as (q3 & Hput & Hq3 & Hp3 & Hc3 & Hsh3 & Hl3 & Hr3); [lia|done|].
  pose proof (table_ok_same q1 q2 (ok_mem q1 Hq1) Ht1 Hts2) as Ht2.
  assert (table_same q2 q3) as Hts3 by by apply PutUsed_table.
  assert (table_same q q3) as Hts by (etrans; [exact Hts1|]; by etrans).
  exists q3. split_and!; [done|done| | | |done| | |].
  - by apply (table_ok_same q q3).
  - eapply Forall_impl; [exact Hhs|]. intros. by eapply (driver_ok_same q q3).
  - by rewrite Hp3, Hp2.
  - rewrite Hsh3. cbn [set_mem q_mem]. by rewrite (sr_shape _ _ Hs2).
  - intros seen Hlen. rewrite Hc3, Hc2, Hcs by (rewrite Hc2, Hcs; lia). done.
  - intros n a Ha Hd. apply Hr3; [done|]. by rewrite Hsz2, Hsz, (ts_used _ _ Hts2), Hua.
Qed.

(** A descriptor as the table holds it. *)
Definition descBytes (d : VirtqDesc) : list Z :=
  le_bytes 8 (d_Addr d) ++ le_bytes 4 (d_Len d) ++ le_bytes 2 (d_Flags d) ++ le_bytes 2 (d_Next d).
