(* ===== verification/VirtioBlk.v ===== *)
(** * The virtio block device ([src/pkg/lokavm/virtio/blk.go])

    The device takes request chains from its queue, moves bytes between guest memory
    and the backing file, writes a status byte and completes the request. The backing
    file is the operating system's, an interface with the laws of [ReadAt] and
    [WriteAt]. *)

From stdpp Require Import options.
From S2P Require Import Prelude Words VirtioQueue VirtioDevice.
Open Scope Z_scope.

(** ** The backing file *)

(** [os.File]: [ReadAt] gives the bytes read and whether there was an error,
    [WriteAt] the file, the number of bytes written and whether there was an error. *)
Class FileOps (F : Type) := {
  fReadAt : F -> Z -> Z -> list Z * bool;
  fWriteAt : F -> list Z -> Z -> F * Z * bool;
  fSync : F -> F * bool
}.

(** What the standard library documents of them. *)
Class FileLaws (F : Type) `{FileOps F} := {
  (** at most the bytes asked for, and all of them when there is no error *)
  read_len f len off : 0 <= len -> zlen (fReadAt f len off).1 <= len;
  read_full f len off : 0 <= len -> (fReadAt f len off).2 = false -> zlen (fReadAt f len off).1 = len;
  read_bytes f len off : Forall is_byte (fReadAt f len off).1;
  (** a write without an error wrote all the bytes, and they are what is read back *)
  write_full f f' bs off n : fWriteAt f bs off = (f', n, false) -> n = zlen bs;
  write_read f f' bs off n :
    Forall is_byte bs -> fWriteAt f bs off = (f', n, false) -> fReadAt f' (zlen bs) off = (bs, false);
  (** flushing does not change the contents *)
  sync_read f len off : fReadAt (fSync f).1 len off = fReadAt f len off
}.

(** ** The device *)

Definition blkTypeIn : Z := 0.
Definition blkTypeOut : Z := 1.
Definition blkTypeFlush : Z := 4.
Definition blkTypeGetID : Z := 8.
Definition blkStatusOK : Z := 0.
Definition blkStatusIOErr : Z := 1.
Definition blkStatusUnsup : Z := 2.

Record Block (F : Type) := mkBlock {
  b_file : F;
  b_readOnly : bool;
  b_size : Z
}.
Arguments mkBlock {F} _ _ _.
Arguments b_file {F} _.
Arguments b_readOnly {F} _.
Arguments b_size {F} _.

Definition Features {F} (b : Block F) : Z :=
  let features := if b_readOnly b then Z.shiftl 1 5 else 0 in
  Z.lor (Z.lor features (Z.shiftl 1 6)) (Z.shiftl 1 9).

(** [id]: the bytes of "loka-blk" and a zero byte. *)
Definition blkID : list Z := [108; 111; 107; 97; 45; 98; 108; 107; 0].

Definition ConfigSpace {F} (b : Block F) : list Z :=
  let config := replicate 64 0 in
  let config := copy_at config 0 (le_bytes 8 (b_size b / 512)) in
  copy_at config 20 (le_bytes 4 512).

Section device.
Context {F : Type} `{FileOps F}.

Definition set_file (f : F) (b : Block F) : Block F := mkBlock f (b_readOnly b) (b_size b).

(** The loop of a read request over its data descriptors. *)
Fixpoint readLoop (descs : list VirtqDesc) (f : F) (offset total : Z) (q : Queue)
    : go (Queue * Z * Z) :=
  match descs with
  | [] => Ok (q, blkStatusOK, total)
  | desc :: descs =>
      if negb (has_flag VirtqDescFWrite desc) then readLoop descs f offset total q
      else
        let '(buf, err) := fReadAt f (d_Len desc) offset in
        if err && (zlen buf =? 0) then Ok (q, blkStatusIOErr, total)
        else
          q ← WriteBuffer (d_Addr desc) buf q;
          readLoop descs f (s64 (offset + zlen buf)) (u32 (total + zlen buf)) q
  end.

(** The loop of a write request. *)
Fixpoint writeLoop (descs : list VirtqDesc) (f : F) (offset : Z) (q : Queue) : go (F * Z) :=
  match descs with
  | [] => Ok (f, blkStatusOK)
  | desc :: descs =>
      if has_flag VirtqDescFWrite desc then writeLoop descs f offset q
      else
        data ← ReadBuffer (d_Addr desc) (d_Len desc) q;
        let '(f, n, err) := fWriteAt f data offset in
        if (err : bool) then Ok (f, blkStatusIOErr)
        else writeLoop descs f (s64 (offset + n)) q
  end.

(** [chain[1 : len(chain)-1]] *)
Definition middle (chain : list VirtqDesc) : list VirtqDesc :=
  take (length chain - 2)%nat (drop 1 chain).

Definition getID (chain : list VirtqDesc) (q : Queue) : go (Queue * Z) :=
  match chain !! 1%nat with
  | Some desc =>
      if has_flag VirtqDescFWrite desc
      then q ← WriteBuffer (d_Addr desc) blkID q; Ok (q, zlen blkID)
      else Ok (q, 0)
  | None => Ok (q, 0)
  end.

(** The request by type: the device, the memory, the status and the bytes written. *)
Definition serve (reqType offset : Z) (chain : list VirtqDesc) (b : Block F) (q : Queue)
    : go (Block F * Queue * Z * Z) :=
  if reqType =? blkTypeIn then
    '(q, status, total) ← readLoop (middle chain) (b_file b) offset 0 q;
    Ok (b, q, status, total)
  else if reqType =? blkTypeOut then
    if b_readOnly b then Ok (b, q, blkStatusIOErr, 0)
    else
      '(f, status) ← writeLoop (middle chain) (b_file b) offset q;
      Ok (set_file f b, q, status, 0)
  else if reqType =? blkTypeFlush then
    let '(f, err) := fSync (b_file b) in
    Ok (set_file f b, q, if (err : bool) then blkStatusIOErr else blkStatusOK, 0)
  else if reqType =? blkTypeGetID then
    '(q, total) ← getID chain q;
    Ok (b, q, blkStatusOK, total)
  else Ok (b, q, blkStatusUnsup, 0).

Definition processRequest (chain : list VirtqDesc) (b : Block F) (q : Queue)
    : go (Block F * Queue * Z) :=
  match chain, last chain with
  | first :: _ :: _, Some statusDesc =>
      hdr ← ReadBuffer (d_Addr first) (d_Len first) q;
      if zlen hdr <? 16 then Ok (b, q, 0)
      else
        let reqType := le_val (take 4 hdr) in
        let sector := le_val (take 8 (drop 8 hdr)) in
        let offset := s64 (sector * 512) in
        '(b, q, status, total) ← serve reqType offset chain b q;
        q ← WriteBuffer (d_Addr statusDesc) [status] q;
        Ok (b, q, u32 (total + 1))
  | _, _ => Ok (b, q, 0)
  end.

Fixpoint handleRequests (fuel : nat) (b : Block F) (q : Queue) : go (Block F * Queue) :=
  match fuel with
  | O => Err OutOfFuel
  | S fuel =>
      '(q, o) ← NextAvail q;
      match o with
      | None => Ok (b, q)
      | Some head =>
          chain ← ReadChain head q;
          '(b, q, written) ← processRequest chain b q;
          q ← PutUsed head written q;
          handleRequests fuel b q
      end
  end.

Definition HandleQueue (fuel : nat) (queueIdx : Z) (b : Block F) (q : Queue) : go (Block F * Queue) :=
  if negb (queueIdx =? 0) then Ok (b, q) else handleRequests fuel b q.
End device.

(** A file held in memory, of at most [mf_limit] bytes: an implementation of the
    interface. *)
Record MemFile := mkMemFile { mf_data : list Z; mf_limit : Z }.

#[global] Instance memfile_ops : FileOps MemFile := {
  fReadAt f len off :=
    if off <? 0 then ([], true)
    else let bs := take (Z.to_nat len) (drop (Z.to_nat off) ((fun b => b mod 256) <$> mf_data f)) in
      (bs, zlen bs <? len);
  fWriteAt f bs off :=
    if (off <? 0) || (mf_limit f <? off + zlen bs)
    then (f, 0, true)
    else
      let data := mf_data f ++ replicate (Z.to_nat (off + zlen bs) - length (mf_data f))%nat 0 in
      (mkMemFile (copy_at data off bs) (mf_limit f), zlen bs, false);
  fSync f := (f, false)
}.

(** ** The in-memory file satisfies the laws *)

Lemma Forall_byte_mod l : Forall is_byte ((fun b => b mod 256) <$> l).
Proof. apply Forall_fmap, Forall_true. intros b. unfold is_byte. simpl. pose proof (Z.mod_pos_bound b 256). lia. Qed.

Lemma fmap_byte_mod l : Forall is_byte l -> (fun b => b mod 256) <$> l = l.
Proof. induction 1 as [|b l Hb _ IH]; csimpl; [done|]. rewrite IH. by rewrite Z.mod_small. Qed.

Lemma take_drop_inserts {A} (l k : list A) i :
  (i + length k <= length l)%nat -> take (length k) (drop i (list_inserts i k l)) = k.
Proof.
  intros Hl. apply list_eq. intros j. destruct (decide (j < length k)%nat).
  - rewrite lookup_take_lt, lookup_drop by done. rewrite list_lookup_inserts by lia. f_equal. lia.
  - rewrite !lookup_ge_None_2; [done|lia|rewrite length_take; lia].
Qed.

Lemma list_inserts_fmap {A B} (f : A -> B) i k l :
  f <$> list_inserts i k l = list_inserts i (f <$> k) (f <$> l).
Proof.
  revert i. induction k as [|x k IH]; intros i; csimpl; [done|].
  by rewrite list_fmap_insert, IH.
Qed.

#[global] Instance memfile_laws : FileLaws MemFile.
Proof.
  split; cbn [fReadAt fWriteAt memfile_ops].
  - intros f len off Hl. destruct (off <? 0); simpl; [lia|]. rewrite length_take. lia.
  - intros f len off Hl. destruct (off <? 0); simpl; [done|].
    intros Hge%Z.ltb_ge. revert Hge. rewrite !length_take. lia.
  - intros f len off. destruct (off <? 0); [constructor|]. apply Forall_take, Forall_drop, Forall_byte_mod.
  - intros f f' bs off n. by destruct (_ || _); intros [=].
  - intros f f' bs off n Hb. destruct (_ || _) eqn:Hc; [done|]. bool_props. intros [= <- <-].
    rewrite (proj2 (Z.ltb_ge _ _)) by done. simpl. rewrite Nat2Z.id. unfold copy_at.
    rewrite list_inserts_fmap, fmap_byte_mod by done. rewrite take_drop_inserts.
    + by rewrite Z.ltb_irrefl.
    + rewrite length_fmap, length_app, length_replicate. lia.
  - done.
Qed.

Lemma middle_Forall (P : VirtqDesc -> Prop) chain : Forall P chain -> Forall P (middle chain).
Proof. intros. by apply Forall_take, Forall_drop. Qed.

Section device_lemmas.
Context {F : Type} `{FileLaws F}.
#[local] Set Default Proof Using "Type*".

Lemma readLoop_frame ds f off total q :
  zlen (q_mem q) <= 2 ^ 62 -> Forall (buffer_ok q) ds -> 0 <= total < 2 ^ 32 ->
  exists q' status total', readLoop ds f off total q = Ok (q', status, total') /\
    same_rings q q' /\ is_byte status /\ 0 <= total' < 2 ^ 32.
Proof.
  intros Hm Hds. revert q Hm Hds off total.
  induction ds as [|d ds IH]; intros q Hm Hds off total Ht; cbn [readLoop]; [by exists q, 0, total|].
  apply Forall_cons in Hds as [Hd Hds]. case_match; [by apply IH|].
  pose proof Hd as (_ & Hl & _). pose proof (read_len f (d_Len d) off Hl) as Hn.
  pose proof (read_bytes f (d_Len d) off) as Hb.
  destruct (fReadAt f (d_Len d) off) as [buf err]. simpl in Hn, Hb.
  case_match; [by exists q, 1, total|].
  destruct (WriteBuffer_desc q d buf Hm Hd) as (q1 & -> & Hs); [lia|done|].
  cbn [mbind result_bind]. destruct (IH q1) with (off := s64 (off + zlen buf)) (total := u32 (total + zlen buf))
    as (q2 & st & tot & -> & Hs2 & Hok).
  - by rewrite (sr_length _ _ Hs).
  - eapply Forall_impl; [exact Hds|]. intros. by eapply same_rings_buffer.
  - apply u32_range.
  - exists q2, st, tot. split; [done|]. split; [by etrans|done].
Qed.

Lemma writeLoop_ok ds f off q :
  zlen (q_mem q) <= 2 ^ 62 -> Forall (buffer_ok q) ds ->
  exists f' status, writeLoop ds f off q = Ok (f', status) /\ is_byte status.
Proof.
  intros Hm Hds. revert f off. induction Hds as [|d ds Hd _ IH]; intros f off; cbn [writeLoop]; [by exists f, 0|].
  case_match; [apply IH|]. destruct Hd as (Ha & Hl & Hin & _).
  rewrite ReadBuffer_ok by lia. cbn [mbind result_bind].
  destruct (fWriteAt f _ off) as [[f1 n] [|]]; [by exists f1, 1|apply IH].
Qed.

Lemma getID_frame chain q :
  zlen (q_mem q) <= 2 ^ 62 -> Forall (buffer_ok q) chain ->
  exists q' total, getID chain q = Ok (q', total) /\ same_rings q q' /\ 0 <= total < 2 ^ 32.
Proof.
  intros Hm Hc. unfold getID. destruct (chain !! 1%nat) as [d|] eqn:Hd; [|by exists q, 0].
  case_match; [|by exists q, 0]. rewrite Forall_lookup in Hc. pose proof (Hc _ _ Hd) as Hb.
  destruct (WriteBuffer_desc q d blkID Hm Hb) as (q1 & -> & Hs).
  - change (zlen blkID) with 9. lia.
  - by repeat constructor.
  - exists q1, 9. by split_and!.
Qed.

Lemma serve_frame t off chain (b : Block F) q :
  zlen (q_mem q) <= 2 ^ 62 -> Forall (buffer_ok q) chain ->
  exists b' q' status total, serve t off chain b q = Ok (b', q', status, total) /\
    same_rings q q' /\ is_byte status /\ 0 <= total < 2 ^ 32 /\ b_readOnly b' = b_readOnly b /\
    (b_readOnly b = true -> forall len o, fReadAt (b_file b') len o = fReadAt (b_file b) len o).
Proof.
  intros Hm Hc. unfold serve. pose proof (middle_Forall _ _ Hc) as Hmid.
  assert (is_byte 0 /\ is_byte 1 /\ is_byte 2) as (? & ? & ?) by done.
  destruct (t =? blkTypeIn).
  { destruct (readLoop_frame (middle chain) (b_file b) off 0 q) as (q' & st & tot & -> & ? & ? & ?); [done..|].
    by exists b, q', st, tot. }
  destruct (t =? blkTypeOut).
  { destruct (b_readOnly b) eqn:Hro; [by exists b, q, 1, 0|].
    destruct (writeLoop_ok (middle chain) (b_file b) off q) as (f' & st & -> & ?); [done..|].
    by exists (set_file f' b), q, st, 0. }
  destruct (t =? blkTypeFlush).
  { pose proof (sync_read (b_file b)). destruct (fSync (b_file b)) as [f' err].
    exists (set_file f' b), q. by destruct err; do 2 eexists. }
  destruct (t =? blkTypeGetID); [|by exists b, q, 2, 0].
  destruct (getID_frame chain q) as (q' & tot & -> & ? & ?); [done..|]. by exists b, q', 0, tot.
Qed.

Lemma processRequest_frame chain (b : Block F) q :
  zlen (q_mem q) <= 2 ^ 62 -> Forall (buffer_ok q) chain ->
  exists b' q' w, processRequest chain b q = Ok (b', q', w) /\
    same_rings q q' /\ 0 <= w < 2 ^ 32 /\ b_readOnly b' = b_readOnly b /\
    (b_readOnly b = true -> forall len o, fReadAt (b_file b') len o = fReadAt (b_file b) len o).
Proof.
  intros Hm Hc. unfold processRequest.
  destruct chain as [|d0 [|d1 ds]]; [by exists b, q, 0..|].
  destruct (last (d0 :: d1 :: ds)) as [d|] eqn:Hl; [|by exists b, q, 0].
  assert (buffer_ok q d) as Hd.
  { rewrite Forall_forall in Hc. by apply Hc, last_Some_elem_of. }
  pose proof Hc as [(Ha & Hl0 & Hin & _) _]%Forall_cons.
  rewrite ReadBuffer_ok by lia. cbn [mbind result_bind]. case_match; [by exists b, q, 0|].
  destruct (serve_frame (le_val (take 4 (take (Z.to_nat (d_Len d0)) (drop (Z.to_nat (d_Addr d0)) (q_mem q)))))
    (s64 (le_val (take 8 (drop 8 (take (Z.to_nat (d_Len d0)) (drop (Z.to_nat (d_Addr d0)) (q_mem q))))) * 512))
    (d0 :: d1 :: ds) b q) as (b1 & q1 & st & tot & -> & Hs & Hst & Ht & Hro & Hfile); [done..|].
  cbn [mbind result_bind].
  destruct (WriteBuffer_desc q1 d [st]) as (q2 & -> & Hs2).
  - by rewrite (sr_length _ _ Hs).
  - by eapply same_rings_buffer.
  - simpl. lia.
  - by constructor.
  - exists b1, q2, (u32 (tot + 1)). split; [done|]. split; [by etrans|]. split; [apply u32_range|done].
Qed.
End device_lemmas.

(** ** A single request in detail *)

(** The request header at a descriptor: its type and its sector. *)
Definition header (q : Queue) (d : VirtqDesc) (reqType sector : Z) : Prop :=
  0 <= d_Addr d /\ 16 <= d_Len d /\ d_Addr d + d_Len d <= zlen (q_mem q) /\
  rd 4 (q_mem q) (d_Addr d) = reqType /\ rd 8 (q_mem q) (d_Addr d + 8) = sector.

(** The bytes of a descriptor's buffer. *)
Definition buffer (q : Queue) (d : VirtqDesc) : list Z :=
  take (Z.to_nat (d_Len d)) (drop (Z.to_nat (d_Addr d)) (q_mem q)).

Definition in_memory (q : Queue) (d : VirtqDesc) : Prop :=
  0 <= d_Addr d /\ 0 < d_Len d < 2 ^ 32 /\ d_Addr d + d_Len d <= zlen (q_mem q).

Lemma take_take_drop {A} (l : list A) n m i :
  (n <= m)%nat -> take n (take m (drop i l)) = take n (drop i l).
Proof. intros. by rewrite take_take, Nat.min_l by done. Qed.

Lemma take_drop_take_drop {A} (l : list A) n k m i :
  (k + n <= m)%nat -> take n (drop k (take m (drop i l))) = take n (drop (i + k) l).
Proof.
  intros. rewrite <-(drop_drop l). apply list_eq. intros j. destruct (decide (j < n)%nat).
  - rewrite !lookup_take_lt, !lookup_drop by done. rewrite lookup_take_lt by lia. by rewrite lookup_drop.
  - by rewrite !lookup_take_ge by lia.
Qed.

Section requests.
Context {F : Type} `{FileLaws F}.
#[local] Set Default Proof Using "Type*".

Lemma processRequest_header h d s (b : Block F) q t sector :
  zlen (q_mem q) <= 2 ^ 62 -> header q h t sector ->
  processRequest [h; d; s] b q =
    ('(b, q, status, total) ← serve t (s64 (sector * 512)) [h; d; s] b q;
     q ← WriteBuffer (d_Addr s) [status] q;
     Ok (b, q, u32 (total + 1))).
Proof.
  intros Hm (Ha & Hl & Hin & Ht & Hs). unfold processRequest. cbn [last].
  rewrite ReadBuffer_ok by lia. cbn [mbind result_bind].
  rewrite (proj2 (Z.ltb_ge _ _)) by (rewrite length_take, length_drop; lia).
  rewrite take_take_drop, take_drop_take_drop by lia.
  unfold rd in Ht, Hs. replace (Z.to_nat (d_Addr h + 8)) with (Z.to_nat (d_Addr h) + 8)%nat in Hs by lia.
  by rewrite Ht, Hs.
Qed.

Lemma WriteBuffer_in q a bs :
  zlen (q_mem q) <= 2 ^ 62 -> 0 <= a -> a + zlen bs <= zlen (q_mem q) ->
  WriteBuffer a bs q = Ok (set_mem (copy_at (q_mem q) a bs) q).
Proof.
  intros. unfold WriteBuffer. rewrite u64_small by lia. rewrite (proj2 (Z.ltb_ge _ _)) by lia.
  by rewrite slice_ok by lia.
Qed.

(** A write request with one data descriptor. *)
Lemma write_request h d s (b : Block F) q sector :
  zlen (q_mem q) <= 2 ^ 62 -> header q h blkTypeOut sector -> in_memory q d -> in_memory q s ->
  has_flag VirtqDescFWrite d = false -> b_readOnly b = false ->
  let '(f, n, err) := fWriteAt (b_file b) (buffer q d) (s64 (sector * 512)) in
  let status := if (err : bool) then blkStatusIOErr else blkStatusOK in
  processRequest [h; d; s] b q =
    Ok (set_file f b, set_mem (copy_at (q_mem q) (d_Addr s) [status]) q, 1).
Proof.
  intros Hm Hh (Ha & Hl & Hin) (Hsa & Hsl & Hsin) Hw Hro.
  rewrite (processRequest_header _ _ _ _ _ _ _ Hm Hh). unfold serve. cbn [Z.eqb blkTypeIn blkTypeOut Pos.eqb].
  rewrite Hro. change (middle [h; d; s]) with [d]. cbn [writeLoop]. rewrite Hw.
  rewrite ReadBuffer_ok by lia. cbn [mbind result_bind]. unfold buffer.
  destruct (fWriteAt _ _ _) as [[f n] err]. destruct err; cbn [mbind result_bind].
  all: by rewrite WriteBuffer_in by (simpl; lia).
Qed.

(** On a read-only device the request fails. *)
Lemma write_request_ro h d s (b : Block F) q sector :
  zlen (q_mem q) <= 2 ^ 62 -> header q h blkTypeOut sector -> in_memory q s -> b_readOnly b = true ->
  processRequest [h; d; s] b q =
    Ok (b, set_mem (copy_at (q_mem q) (d_Addr s) [blkStatusIOErr]) q, 1).
Proof.
  intros Hm Hh (Hsa & Hsl & Hsin) Hro. rewrite (processRequest_header _ _ _ _ _ _ _ Hm Hh).
  unfold serve. cbn [Z.eqb blkTypeIn blkTypeOut Pos.eqb]. rewrite Hro. cbn [mbind result_bind].
  by rewrite WriteBuffer_in by (simpl; lia).
Qed.

(** A read request with one data descriptor. *)
Lemma read_request h d s (b : Block F) q sector bs :
  zlen (q_mem q) <= 2 ^ 62 -> header q h blkTypeIn sector -> in_memory q d -> in_memory q s ->
  has_flag VirtqDescFWrite d = true ->
  fReadAt (b_file b) (d_Len d) (s64 (sector * 512)) = (bs, false) ->
  processRequest [h; d; s] b q =
    Ok (b, set_mem (copy_at (copy_at (q_mem q) (d_Addr d) bs) (d_Addr s) [blkStatusOK]) q,
        u32 (d_Len d + 1)).
Proof.
  intros Hm Hh (Ha & Hl & Hin) (Hsa & Hsl & Hsin) Hw Hr.
  rewrite (processRequest_header _ _ _ _ _ _ _ Hm Hh). unfold serve. cbn [Z.eqb blkTypeIn].
  change (middle [h; d; s]) with [d]. cbn [readLoop]. rewrite Hw. cbn [negb].
  assert (zlen bs = d_Len d) as Hlen.
  { pose proof (read_full (b_file b) (d_Len d) (s64 (sector * 512))) as Hf. rewrite Hr in Hf. apply Hf; [lia|done]. }
  rewrite Hr. cbn [andb]. rewrite WriteBuffer_in by lia. cbn [mbind result_bind].
  rewrite WriteBuffer_in by (cbn [set_mem q_mem]; rewrite ?length_copy_at; simpl; lia).
  cbn [set_mem q_mem mbind result_bind]. rewrite Hlen, Z.add_0_l.
  unfold u32 at 2. by rewrite (Z.mod_small (d_Len d)) by lia.
Qed.
End requests.

(** The status byte after it was written. *)
Lemma rd_status m a st : inside 1 m a -> is_byte st -> rd 1 (copy_at m a [st]) a = st.
Proof.
  intros Hi Hst. assert ([st] = le_bytes 1 st) as -> by (unfold le_bytes; by rewrite Z.mod_small).
  rewrite rd_copy_same by done. by apply Z.mod_small.
Qed.

(** A buffer after it was filled, and after a byte elsewhere was written. *)
Lemma buffer_copy q d bs :
  0 <= d_Addr d -> d_Addr d + zlen bs <= zlen (q_mem q) -> zlen bs = d_Len d ->
  buffer (set_mem (copy_at (q_mem q) (d_Addr d) bs) q) d = bs.
Proof.
  intros Ha Hin Hl. unfold buffer, copy_at. simpl.
  replace (Z.to_nat (d_Len d)) with (length bs) by lia. apply take_drop_inserts. lia.
Qed.

Lemma buffer_copy_other q d a bs :
  0 <= d_Addr d -> 0 <= a -> 0 <= d_Len d -> a + zlen bs <= d_Addr d \/ d_Addr d + d_Len d <= a ->
  buffer (set_mem (copy_at (q_mem q) a bs) q) d = buffer q d.
Proof.
  intros Hd Ha Hl Hap. unfold buffer, copy_at. simpl. apply list_eq. intros j.
  destruct (decide (j < Z.to_nat (d_Len d))%nat).
  - rewrite !lookup_take_lt, !lookup_drop by done. destruct Hap.
    + apply list_lookup_inserts_ge. lia.
    + apply list_lookup_inserts_lt. lia.
  - by rewrite !lookup_take_ge by lia.
Qed.

(** ** One round of the request loop *)

Section round.
Context {F : Type} `{FileLaws F}.
#[local] Set Default Proof Using "Type*".

Lemma serve_one (b : Block F) q h hs seen :
  queue_ok q -> table_ok q -> Forall (driver_ok q) (h :: hs) -> pending q = h :: hs ->
  zlen (completions seen q) < q_Size q ->
  exists b' q' w, (forall fuel, handleRequests (S fuel) b q = handleRequests fuel b' q') /\
    queue_ok q' /\ table_ok q' /\ Forall (driver_ok q') hs /\ pending q' = hs /\
    completions seen q' = completions seen q ++ [(h, w)] /\ q_Size q' = q_Size q /\
    b_readOnly b' = b_readOnly b /\
    (b_readOnly b = true -> forall len o, fReadAt (b_file b') len o = fReadAt (b_file b) len o).
Proof.
  intros Hq Ht Hdrv Hp Hlen.
  destruct (ring_round q h hs Hq Ht Hdrv Hp) as (q1 & c & Hn & Hc & Heq & Hq1 & Hbuf & Hput).
  destruct (processRequest_frame c b q1) as (b2 & q2 & w & Hpr & Hs2 & Hw & Hro & Hfile); [apply Hq1|done|].
  destruct (Hput q2 w Hs2 Hw) as (q3 & Hput3 & Hq3 & Ht3 & Hd3 & Hp3 & Hts & _ & Hc3 & _).
  exists b2, q3, w. split_and!; try done.
  - intros fuel. cbn [handleRequests]. rewrite Hn. cbn [mbind result_bind]. rewrite Hc.
    cbn [mbind result_bind]. rewrite Hpr. cbn [mbind result_bind]. by rewrite Hput3.
  - by apply Hc3.
  - by rewrite (ts_size _ _ Hts).
Qed.
End round.

(** ** Properties *)

(** C6 The device serves every posted request exactly once and in order, and stops:
    from a queue the driver set up properly, with posted chains inside the table and
    buffers apart from the rings, [handleRequests] returns, nothing is left pending,
    the completions the driver then reads are those it had plus one per request in
    the order of posting, and a read-only device leaves the contents of its file as
    they were. *)
Theorem handleRequests_drains {F} `{FileLaws F} fuel (b : Block F) q seen :
  queue_ok q -> table_ok q -> Forall (driver_ok q) (pending q) ->
  zlen (completions seen q) + zlen (pending q) <= q_Size q -> (length (pending q) < fuel)%nat ->
  exists b' q', handleRequests fuel b q = Ok (b', q') /\ pending q' = [] /\
    (completions seen q').*1 = (completions seen q).*1 ++ pending q /\
    (b_readOnly b = true -> forall len off, fReadAt (b_file b') len off = fReadAt (b_file b) len off).
Proof.
  revert b q. induction fuel as [|fuel IH]; intros b q Hq Ht Hdrv Hlen Hfuel; [lia|].
  pose proof (NextAvail_spec q Hq) as Hn. destruct (pending q) as [|h hs] eqn:Hp.
  - cbn [handleRequests]. rewrite Hn. exists b, q. by rewrite app_nil_r.
  - simpl in Hlen, Hfuel.
    destruct (serve_one b q h hs seen) as (b2 & q2 & w & Hrun & Hq2 & Ht2 & Hd2 & Hp2 & Hc2 & Hsz & Hro & Hfile);
      [done..|lia|].
    destruct (IH b2 q2) as (b3 & q3 & Hrun3 & Hp3 & Hc3 & Hfile3); [done|done|by rewrite Hp2| |rewrite Hp2; lia|].
    { rewrite Hc2, Hp2, length_app, Hsz. simpl. lia. }
    exists b3, q3. rewrite Hrun. split_and!; [done|done| |].
    + rewrite Hc3, Hc2, Hp2, fmap_app, <-app_assoc. done.
    + intros Hr len off. rewrite Hfile3 by congruence. by apply Hfile.
Qed.

(** What is written to a sector is what a read of it returns. If a write request
    for a sector completes with status OK then, whatever the guest does to its memory
    in between, a read request for that sector and length puts exactly the bytes
    written into the read buffer, sets the status byte to OK and reports the length
    plus one byte. *)
Theorem blk_write_then_read {F} `{FileLaws F} (b b1 : Block F) q q1 q2 hw dw sw hr dr sr sector w :
  zlen (q_mem q) <= 2 ^ 62 -> zlen (q_mem q2) <= 2 ^ 62 -> Forall is_byte (q_mem q) ->
  header q hw blkTypeOut sector -> in_memory q dw -> in_memory q sw ->
  header q2 hr blkTypeIn sector -> in_memory q2 dr -> in_memory q2 sr ->
  has_flag VirtqDescFWrite dw = false -> has_flag VirtqDescFWrite dr = true -> d_Len dr = d_Len dw ->
  d_Addr sr < d_Addr dr \/ d_Addr dr + d_Len dr <= d_Addr sr ->
  processRequest [hw; dw; sw] b q = Ok (b1, q1, w) -> rd 1 (q_mem q1) (d_Addr sw) = blkStatusOK ->
  exists q3, processRequest [hr; dr; sr] b1 q2 = Ok (b1, q3, u32 (d_Len dr + 1)) /\
    buffer q3 dr = buffer q dw /\ rd 1 (q_mem q3) (d_Addr sr) = blkStatusOK.
Proof.
  intros Hm Hm2 Hby Hhw Hdw Hsw Hhr Hdr Hsr Hfw Hfr Hlen Hap Hpw Hst.
  destruct (b_readOnly b) eqn:Hro.
  { rewrite (write_request_ro hw dw sw b q sector) in Hpw by done. simplify_eq. cbn [set_mem q_mem] in Hst.
    destruct Hsw as (? & ? & ?). rewrite rd_status in Hst by first [done|split; simpl; lia]. done. }
  pose proof (write_request hw dw sw b q sector Hm Hhw Hdw Hsw Hfw Hro) as Hwr.
  destruct (fWriteAt _ _ _) as [[f n] err] eqn:Hf. rewrite Hpw in Hwr. destruct Hsw as (? & ? & ?).
  injection Hwr as -> -> ->. cbn [set_mem q_mem] in Hst.
  destruct err; [by rewrite rd_status in Hst by first [done|split; simpl; lia]|].
  assert (zlen (buffer q dw) = d_Len dw) as Hlb.
  { destruct Hdw as (? & ? & ?). unfold buffer. rewrite length_take, length_drop. lia. }
  apply write_read in Hf; [|by apply Forall_take, Forall_drop]. rewrite Hlb, <-Hlen in Hf.
  destruct (Hdr) as (? & ? & ?), (Hsr) as (? & ? & ?). eexists.
  split; [by apply (read_request _ _ _ _ _ sector)|]. split.
  - etrans; [|apply (buffer_copy q2 dr); lia].
    apply (buffer_copy_other (set_mem (copy_at (q_mem q2) (d_Addr dr) (buffer q dw)) q2)); simpl; lia.
  - cbn [set_mem q_mem]. apply rd_status; [|done]. split; [lia|]. rewrite length_copy_at. simpl. lia.
Qed.

(** ** Witnesses and gaps *)

(** Guest memory of 512 bytes: a table of four descriptors at 0, the available ring
    at 64, the used ring at 80, and buffers from 128 on. *)
Definition reqHeader (t sector : Z) : list Z := le_bytes 4 t ++ le_bytes 4 0 ++ le_bytes 8 sector.

Definition wHdr : VirtqDesc := mkDesc 128 16 1 1.
Definition wData : VirtqDesc := mkDesc 160 4 1 2.
Definition wStatus : VirtqDesc := mkDesc 240 16 2 0.
Definition rData : VirtqDesc := mkDesc 200 4 3 2.

Definition requestMem (t : Z) (data : VirtqDesc) : list Z :=
  descBytes wHdr ++ descBytes data ++ descBytes wStatus ++ replicate 16 0 ++
  [0; 0; 1; 0; 0; 0] ++ replicate 58 0 ++ reqHeader t 1 ++ replicate 16 0 ++ [10; 20; 30; 40] ++ replicate 348 0.
Definition requestQueue (t : Z) (data : VirtqDesc) : Queue := NewQueue 4 0 64 80 (requestMem t data).

Definition disk : Block MemFile := mkBlock (mkMemFile (replicate 1024 0) 1048576) false 1024.

Lemma requestQueue_ok t data :
  forallb (fun b => (0 <=? b) && (b <? 256)) (requestMem t data) = true -> queue_ok (requestQueue t data).
Proof.
  intros Hb%bytes_by_compute.
  assert (length (requestMem t data) = 512%nat) as Hl.
  { unfold requestMem, descBytes, reqHeader. by rewrite !length_app, !length_le_bytes, !length_replicate. }
  split; cbn [requestQueue NewQueue q_Size q_lastAvailIdx q_mem q_AvailAddr q_UsedAddr]; rewrite ?Hl;
    unfold AvailRingSize, UsedRingSize; [lia|by exists 16384|lia|lia|done|lia|lia|lia].
Qed.

Lemma handleRequests_drains_witness :
  exists b' q', handleRequests 2 disk (requestQueue 1 wData) = Ok (b', q') /\ pending q' = [] /\
    (completions 0 q').*1 = [0].
Proof.
  destruct (handleRequests_drains 2 disk (requestQueue 1 wData) 0) as (b' & q' & Hr & Hp & Hc & _).
  - by apply requestQueue_ok; vm_compute.
  - split_and!; [done|by vm_compute|by left].
  - vm_compute (pending _). constructor; [|constructor]. exists [wHdr; wData; wStatus]. split.
    + split_and!; [|done|done|done|repeat constructor; done].
      eapply linked_next; [by vm_compute|done|]. eapply linked_next; [by vm_compute|done|].
      eapply linked_last; [by vm_compute|done].
    + rewrite !Forall_cons, Forall_nil. unfold buffer_ok, apart, regions.
      change (zlen (q_mem (requestQueue 1 wData))) with 512. rewrite !Forall_cons, !Forall_nil.
      unfold DescTableSize, AvailRingSize, UsedRingSize, wHdr, wData, wStatus. simpl. lia.
  - by vm_compute.
  - vm_compute. lia.
  - exists b', q'. split_and!; [done|done|]. rewrite Hc. by vm_compute.
Defined.

(** The device and the queue after the write request. *)
Definition written : Block MemFile * Queue :=
  match processRequest [wHdr; wData; wStatus] disk (requestQueue 1 wData) with
  | Ok (b, q, _) => (b, q)
  | Err _ => (disk, requestQueue 1 wData)
  end.

Lemma blk_write_then_read_witness :
  exists q3, processRequest [wHdr; rData; wStatus] written.1 (requestQueue 0 rData)
      = Ok (written.1, q3, 5) /\ buffer q3 rData = [10; 20; 30; 40].
Proof.
  destruct (blk_write_then_read disk written.1 (requestQueue 1 wData) written.2 (requestQueue 0 rData)
    wHdr wData wStatus wHdr rData wStatus 1 1) as (q3 & Hr & Hb & _).
  1-2: by vm_compute.
  1: by apply bytes_by_compute; vm_compute.
  1-6: by repeat split; vm_compute.
  1-3: by vm_compute.
  1: right; by vm_compute.
  1-2: by vm_compute.
  exists q3. split; [exact Hr|]. by rewrite Hb.
Defined.

(** A [GetID] request writes the nine bytes of the ID whatever the length of the
    guest's buffer: here into the eight bytes after a one-byte buffer. *)
Lemma getID_ignores_length :
  let q := requestQueue 8 (mkDesc 200 1 3 2) in
  let q' := match processRequest [wHdr; mkDesc 200 1 3 2; wStatus] disk q with
            | Ok (_, q', _) => q' | Err _ => q end in
  take 9 (drop 200 (q_mem q')) = blkID /\ take 9 (drop 200 (q_mem q)) = replicate 9 0.
Proof. by vm_compute. Qed.

(** A write whose buffer lies outside the memory writes nothing and reports OK. *)
Lemma write_outside_reports_ok :
  let q := requestQueue 1 (mkDesc 4096 4 1 2) in
  exists b' q', processRequest [wHdr; mkDesc 4096 4 1 2; wStatus] disk q = Ok (b', q', 1) /\
    b_file b' = b_file disk /\ rd 1 (q_mem q') 240 = blkStatusOK.
Proof. do 2 eexists. by vm_compute. Qed.

(** The sector is not compared with the capacity of the device: a write past the end
    grows the backing file, and sector 2^55 is sector 0. *)
Lemma sector_unchecked :
  let q s := set_mem (copy_at (q_mem (requestQueue 1 wData)) 128 (reqHeader 1 s)) (requestQueue 1 wData) in
  match processRequest [wHdr; wData; wStatus] disk (q 100), processRequest [wHdr; wData; wStatus] disk (q (2 ^ 55)) with
  | Ok (b1, _, _), Ok (b2, _, _) =>
      zlen (mf_data (b_file b1)) = 51204 /\ take 4 (mf_data (b_file b2)) = [10; 20; 30; 40]
  | _, _ => False
  end.
Proof. by vm_compute. Qed.
