(* ===== verification/VirtioVsock.v ===== *)
(** * The virtio socket device ([src/pkg/lokavm/virtio/vsock.go])

    Connections between host programs and the guest. The guest's memory is shared by
    the receive queue, which carries packets to the guest, and the transmit queue.
    Connections are objects: a [net.Conn] keeps its object after the table of the
    device has forgotten it or holds another one under the same ports. Deadlines are
    times, 0 when unset; condition variables are left to the step relation at the
    end. *)

From stdpp Require Import options.
From S2P Require Import Prelude Words VirtioQueue VirtioDevice.
Open Scope Z_scope.

Definition vsockHdrSize : Z := 44.
Definition vsockOpRequest : Z := 1.
Definition vsockOpResponse : Z := 2.
Definition vsockOpRW : Z := 3.
Definition vsockOpShutdown : Z := 4.
Definition vsockOpRst : Z := 5.
Definition vsockTypeStream : Z := 1.
Definition hostCID : Z := 2.

Record vsockConn := mkVsockConn {
  vc_srcCID : Z;
  vc_dstCID : Z;
  vc_srcPort : Z;
  vc_dstPort : Z;
  vc_readBuf : list Z;
  vc_closed : bool;
  vc_readDeadline : Z;
  vc_writeDeadline : Z
}.

Definition conn_key (c : vsockConn) : Z * Z := (vc_srcPort c, vc_dstPort c).
Definition set_readBuf (b : list Z) (c : vsockConn) : vsockConn :=
  mkVsockConn (vc_srcCID c) (vc_dstCID c) (vc_srcPort c) (vc_dstPort c) b (vc_closed c)
    (vc_readDeadline c) (vc_writeDeadline c).
Definition set_closed (c : vsockConn) : vsockConn :=
  mkVsockConn (vc_srcCID c) (vc_dstCID c) (vc_srcPort c) (vc_dstPort c) (vc_readBuf c) true
    (vc_readDeadline c) (vc_writeDeadline c).
Definition set_deadlines (r w : Z) (c : vsockConn) : vsockConn :=
  mkVsockConn (vc_srcCID c) (vc_dstCID c) (vc_srcPort c) (vc_dstPort c) (vc_readBuf c) (vc_closed c) r w.

(** The device: its table of connections, the objects, the guest's memory, the receive
    queue once the driver has kicked it, and the interrupts injected. *)
Record Vsock := mkVsock {
  v_guestCID : Z;
  v_conns : gmap (Z * Z) nat;
  v_heap : gmap nat vsockConn;
  v_next : nat;
  v_mem : list Z;
  v_rxQueue : option Queue;
  v_notified : nat
}.

Definition NewVsock (guestCID : Z) (mem : list Z) : Vsock := mkVsock guestCID ∅ ∅ 0 mem None 0.

Definition with_conns (k : gmap (Z * Z) nat) (v : Vsock) : Vsock :=
  mkVsock (v_guestCID v) k (v_heap v) (v_next v) (v_mem v) (v_rxQueue v) (v_notified v).
Definition with_conn (id : nat) (f : vsockConn -> vsockConn) (v : Vsock) : Vsock :=
  mkVsock (v_guestCID v) (v_conns v) (alter f id (v_heap v)) (v_next v) (v_mem v) (v_rxQueue v)
    (v_notified v).
Definition with_memory (m : list Z) (v : Vsock) : Vsock :=
  mkVsock (v_guestCID v) (v_conns v) (v_heap v) (v_next v) m (v_rxQueue v) (v_notified v).
Definition with_rx (q : Queue) (v : Vsock) : Vsock :=
  mkVsock (v_guestCID v) (v_conns v) (v_heap v) (v_next v) (v_mem v) (Some q) (v_notified v).
Definition notified (v : Vsock) : Vsock :=
  mkVsock (v_guestCID v) (v_conns v) (v_heap v) (v_next v) (v_mem v) (v_rxQueue v) (S (v_notified v)).

Definition ConfigSpace (v : Vsock) : list Z := le_bytes 8 (v_guestCID v).

Definition Reset (v : Vsock) : Vsock :=
  mkVsock (v_guestCID v) ∅
    (map_imap (fun id c => Some (if bool_decide (map_Exists (fun _ i => i = id) (v_conns v))
                                 then set_closed c else c)) (v_heap v))
    (v_next v) (v_mem v) (v_rxQueue v) (v_notified v).

(** ** Packets *)

(** The header: both addresses, both ports, the length, the type and the operation;
    flags and credit are zero. *)
Definition vsockHdr (op len : Z) (c : vsockConn) : list Z :=
  le_bytes 8 (vc_srcCID c) ++ le_bytes 8 (vc_dstCID c) ++ le_bytes 4 (vc_srcPort c)
  ++ le_bytes 4 (vc_dstPort c) ++ le_bytes 4 len ++ le_bytes 2 vsockTypeStream ++ le_bytes 2 op
  ++ replicate 12 0.

(** The fields [processGuestPacket] reads. *)
Definition field (n : nat) (off : nat) (packet : list Z) : Z := le_val (take n (drop off packet)).
Definition pkt_srcPort : list Z -> Z := field 4 16.
Definition pkt_dstPort : list Z -> Z := field 4 20.
Definition pkt_dataLen : list Z -> Z := field 4 24.
Definition pkt_op : list Z -> Z := field 2 30.

(** The packet is cut into the writable descriptors. *)
Fixpoint sendLoop (descs : list VirtqDesc) (rest : list Z) (written : Z) (q : Queue) : go (Queue * Z) :=
  match descs with
  | [] => Ok (q, written)
  | desc :: descs =>
      if negb (has_flag VirtqDescFWrite desc) then sendLoop descs rest written q
      else if zlen rest <=? 0 then Ok (q, written)
      else
        let toWrite := if d_Len desc <? zlen rest then d_Len desc else zlen rest in
        q ← WriteBuffer (d_Addr desc) (take (Z.to_nat toWrite) rest) q;
        sendLoop descs (drop (Z.to_nat toWrite) rest) (u32 (written + toWrite)) q
  end.

(** The receive queue has no lock in the code; a packet is put there in one go here. *)
Definition sendToGuest (op : Z) (c : vsockConn) (data : list Z) (v : Vsock) : go Vsock :=
  match v_rxQueue v with
  | None => Ok v
  | Some rx =>
      '(q, o) ← NextAvail (set_mem (v_mem v) rx);
      match o with
      | None => Ok v
      | Some head =>
          chain ← ReadChain head q;
          '(q, written) ← sendLoop chain (vsockHdr op (u32 (zlen data)) c ++ data) 0 q;
          q ← PutUsed head written q;
          Ok (notified (with_rx q (with_memory (q_mem q) v)))
      end
  end.

(** The refusal of a connection the guest asks for. *)
Definition sendRst (srcPort dstPort : Z) (v : Vsock) : go Vsock :=
  sendToGuest vsockOpRst (mkVsockConn hostCID (v_guestCID v) dstPort srcPort [] false 0 0) [] v.

(** A packet of at least the size of the header. [vsockHdrSize + dataLen] is computed
    in 32 bits. *)
Definition processGuestPacket (packet : list Z) (v : Vsock) : go Vsock :=
  let key := (pkt_dstPort packet, pkt_srcPort packet) in
  let dataLen := pkt_dataLen packet in
  let op := pkt_op packet in
  if op =? vsockOpResponse then Ok v
  else if op =? vsockOpRW then
    match v_conns v !! key with
    | Some id =>
        if (0 <? dataLen) && (u32 (vsockHdrSize + dataLen) <=? zlen packet) then
          data ← slice packet vsockHdrSize (u32 (vsockHdrSize + dataLen));
          Ok (with_conn id (fun c => set_readBuf (vc_readBuf c ++ data) c) v)
        else Ok v
    | None => Ok v
    end
  else if op =? vsockOpRequest then sendRst (pkt_srcPort packet) (pkt_dstPort packet) v
  else if (op =? vsockOpShutdown) || (op =? vsockOpRst) then
    match v_conns v !! key with
    | Some id => Ok (with_conns (delete key (v_conns v)) (with_conn id set_closed v))
    | None => Ok v
    end
  else Ok v.

(** ** Queues *)

(** The readable buffers of a chain, one after the other. *)
Fixpoint gather (descs : list VirtqDesc) (q : Queue) : go (list Z) :=
  match descs with
  | [] => Ok []
  | desc :: descs =>
      if has_flag VirtqDescFWrite desc then gather descs q
      else data ← ReadBuffer (d_Addr desc) (d_Len desc) q; rest ← gather descs q; Ok (data ++ rest)
  end.

Fixpoint handleTX (fuel : nat) (q : Queue) (v : Vsock) : go (Queue * Vsock) :=
  match fuel with
  | O => Err OutOfFuel
  | S fuel =>
      '(q, o) ← NextAvail (set_mem (v_mem v) q);
      match o with
      | None => Ok (q, v)
      | Some head =>
          chain ← ReadChain head q;
          packet ← gather chain q;
          v ← (if vsockHdrSize <=? zlen packet then processGuestPacket packet v else Ok v);
          q ← PutUsed head 0 (set_mem (v_mem v) q);
          handleTX fuel q (with_memory (q_mem q) v)
      end
  end.

Definition HandleQueue (fuel : nat) (queueIdx : Z) (q : Queue) (v : Vsock) : go (Queue * Vsock) :=
  if queueIdx =? 0 then Ok (q, with_rx q v)
  else if queueIdx =? 1 then handleTX fuel q v
  else Ok (q, v).

(** ** The host's side *)

(** The source port is the destination port: a second connection to a port replaces
    the first in the table. *)
Definition Connect (port : Z) (v : Vsock) : go (nat * Vsock) :=
  let c := mkVsockConn hostCID (v_guestCID v) port port [] false 0 0 in
  let id := v_next v in
  let v := mkVsock (v_guestCID v) (<[(port, port) := id]> (v_conns v)) (<[id := c]> (v_heap v)) (S id)
             (v_mem v) (v_rxQueue v) (v_notified v) in
  v ← sendToGuest vsockOpRequest c [] v;
  Ok (id, v).

Inductive ReadOut := RData (bs : list Z) | REOF | RDeadline | RWait.

(** One look of [Read] at the connection; after [RWait] it waits to be woken. *)
Definition connRead (id n : nat) (now : Z) (v : Vsock) : Vsock * ReadOut :=
  match v_heap v !! id with
  | None => (v, REOF)
  | Some c =>
      if bool_decide (vc_readBuf c = []) then
        if vc_closed c then (v, REOF)
        else if negb (vc_readDeadline c =? 0) && (vc_readDeadline c <? now) then (v, RDeadline)
        else (v, RWait)
      else (with_conn id (set_readBuf (drop n (vc_readBuf c))) v, RData (take n (vc_readBuf c)))
  end.

(** The number of bytes reported as written, [None] on a closed connection. *)
Definition connWrite (id : nat) (b : list Z) (v : Vsock) : go (Vsock * option Z) :=
  match v_heap v !! id with
  | None => Ok (v, None)
  | Some c =>
      if vc_closed c then Ok (v, None)
      else v ← sendToGuest vsockOpRW c b v; Ok (v, Some (zlen b))
  end.

Definition connClose (id : nat) (v : Vsock) : go Vsock :=
  match v_heap v !! id with
  | None => Ok v
  | Some c =>
      v ← sendToGuest vsockOpShutdown c [] v;
      let v := with_conn id set_closed v in
      Ok (with_conns (delete (conn_key c) (v_conns v)) v)
  end.

Definition SetDeadline (id : nat) (t : Z) : Vsock -> Vsock := with_conn id (set_deadlines t t).
Definition SetReadDeadline (id : nat) (t : Z) : Vsock -> Vsock :=
  with_conn id (fun c => set_deadlines t (vc_writeDeadline c) c).
Definition SetWriteDeadline (id : nat) (t : Z) : Vsock -> Vsock :=
  with_conn id (fun c => set_deadlines (vc_readDeadline c) t c).

(** ** Streams

    What happens to the device: a packet of the guest, a call of the host, a change
    of the guest's memory by the driver. *)
Inductive VsockEvent :=
  | GuestPacket (packet : list Z)
  | GuestWrites (mem : list Z)
  | HostConnect (port : Z)
  | HostRead (id n : nat) (now : Z)
  | HostWrite (id : nat) (b : list Z)
  | HostClose (id : nat)
  | HostDeadlines (id : nat) (r w : Z)
  | DeviceReset.

(** One event, with the bytes a read returns. *)
Definition vstep (e : VsockEvent) (v : Vsock) : go (Vsock * option (nat * list Z)) :=
  match e with
  | GuestPacket p => v ← (if vsockHdrSize <=? zlen p then processGuestPacket p v else Ok v); Ok (v, None)
  | GuestWrites m => Ok (with_memory m v, None)
  | HostConnect port => '(_, v) ← Connect port v; Ok (v, None)
  | HostRead id n now =>
      let '(v, o) := connRead id n now v in
      Ok (v, match o with RData bs => Some (id, bs) | _ => None end)
  | HostWrite id b => '(v, _) ← connWrite id b v; Ok (v, None)
  | HostClose id => v ← connClose id v; Ok (v, None)
  | HostDeadlines id r w => Ok (with_conn id (set_deadlines r w) v, None)
  | DeviceReset => Ok (Reset v, None)
  end.

Fixpoint vrun (es : list VsockEvent) (v : Vsock) : go (Vsock * list (nat * list Z)) :=
  match es with
  | [] => Ok (v, [])
  | e :: es => '(v, o) ← vstep e v; '(v, os) ← vrun es v; Ok (v, option_list o ++ os)
  end.

(** The bytes read from one connection. *)
Definition bytes_read (id : nat) (os : list (nat * list Z)) : list Z :=
  concat ((fun o => if bool_decide (o.1 = id) then o.2 else []) <$> os).

(** What a packet carries for the connection under [key]. *)
Definition payload (key : Z * Z) (p : list Z) : list Z :=
  if (vsockHdrSize <=? zlen p) && (pkt_op p =? vsockOpRW)
     && bool_decide ((pkt_dstPort p, pkt_srcPort p) = key)
     && (0 <? pkt_dataLen p) && (vsockHdrSize + pkt_dataLen p <=? zlen p)
  then take (Z.to_nat (pkt_dataLen p)) (drop (Z.to_nat vsockHdrSize) p) else [].

(** The payloads for an object while the device's table holds it. *)
Definition delivered1 (key : Z * Z) (id : nat) (e : VsockEvent) (v : Vsock) : list Z :=
  match e with
  | GuestPacket p => if bool_decide (v_conns v !! key = Some id) then payload key p else []
  | _ => []
  end.
Fixpoint delivered (key : Z * Z) (id : nat) (es : list VsockEvent) (v : Vsock) : list Z :=
  match es with
  | [] => []
  | e :: es => delivered1 key id e v
      ++ match vstep e v with Ok (v', _) => delivered key id es v' | Err _ => [] end
  end.

(** The table refers to objects under their ports. *)
Record vsock_ok (v : Vsock) : Prop := {
  vok_conns key id : v_conns v !! key = Some id -> exists c, v_heap v !! id = Some c /\ conn_key c = key;
  vok_next id : is_Some (v_heap v !! id) -> (id < v_next v)%nat
}.

(** A receive queue as the driver sets it up. *)
Definition rx_ok (v : Vsock) : Prop :=
  match v_rxQueue v with
  | None => True
  | Some rx => let q := set_mem (v_mem v) rx in
      queue_ok q /\ table_ok q /\ Forall (driver_ok q) (pending q)
  end.

(** Bytes are bytes, lengths do not overflow with the header, and the driver leaves a
    receive queue it set up properly. *)
Definition event_ok (e : VsockEvent) (v : Vsock) : Prop :=
  match e with
  | GuestPacket p => Forall is_byte p /\ pkt_dataLen p < 2 ^ 32 - vsockHdrSize
  | GuestWrites m => rx_ok (with_memory m v)
  | HostWrite _ b => Forall is_byte b
  | _ => True
  end.
Fixpoint honest (es : list VsockEvent) (v : Vsock) : Prop :=
  match es with
  | [] => True
  | e :: es => event_ok e v /\ forall v' o, vstep e v = Ok (v', o) -> honest es v'
  end.

(** ** Sending *)

Lemma vsockHdr_byte op len c : Forall is_byte (vsockHdr op len c).
Proof.
  unfold vsockHdr. rewrite !Forall_app. split_and!; try apply le_bytes_byte.
  apply Forall_replicate. unfold is_byte. lia.
Qed.

Lemma sendLoop_frame ds rest w q :
  zlen (q_mem q) <= 2 ^ 62 -> Forall (buffer_ok q) ds -> Forall is_byte rest -> 0 <= w < 2 ^ 32 ->
  exists q' w', sendLoop ds rest w q = Ok (q', w') /\ same_rings q q' /\ 0 <= w' < 2 ^ 32.
Proof.
  intros Hm Hds. revert q Hm Hds rest w.
  induction ds as [|d ds IH]; intros q Hm Hds rest w Hb Hw; cbn [sendLoop]; [by exists q, w|].
  apply Forall_cons in Hds as [Hd Hds]. case_match; [by apply IH|].
  case_match; [by exists q, w|]. set (n := if d_Len d <? _ then _ else _).
  pose proof Hd as (_ & Hl & _).
  assert (0 <= n <= d_Len d /\ n <= zlen rest) as [Hn Hnr].
  { unfold n. case_match; bool_props; lia. }
  destruct (WriteBuffer_desc q d (take (Z.to_nat n) rest) Hm Hd) as (q1 & -> & Hs);
    [rewrite length_take; lia|by apply Forall_take|].
  cbn [mbind result_bind]. destruct (IH q1) with (rest := drop (Z.to_nat n) rest) (w := u32 (w + n))
    as (q2 & w2 & -> & Hs2 & Hok).
  - by rewrite (sr_length _ _ Hs).
  - eapply Forall_impl; [exact Hds|]. intros. by eapply same_rings_buffer.
  - by apply Forall_drop.
  - apply u32_range.
  - exists q2, w2. split; [done|]. split; [by etrans|done].
Qed.

(** What a send leaves alone. *)
Definition same_sockets (v v' : Vsock) : Prop :=
  v_conns v' = v_conns v /\ v_heap v' = v_heap v /\ v_next v' = v_next v.

Lemma sendToGuest_ok op c data v :
  rx_ok v -> Forall is_byte data ->
  exists v', sendToGuest op c data v = Ok v' /\ rx_ok v' /\ same_sockets v v'.
Proof.
  unfold rx_ok, sendToGuest. destruct (v_rxQueue v) as [rx|] eqn:Hrx; [|intros _ _; exists v; rewrite Hrx; by split_and!].
  set (q := set_mem (v_mem v) rx). intros (Hq & Ht & Hd) Hb.
  pose proof (NextAvail_spec q Hq) as Hn. destruct (pending q) as [|h hs] eqn:Hp.
  { rewrite Hn. cbn [mbind result_bind]. exists v. rewrite Hrx. fold q. by rewrite Hp. }
  destruct (ring_round q h hs Hq Ht Hd Hp) as (q1 & chain & Hn1 & Hc & Hq1e & Hq1 & Hbuf & Hput).
  rewrite Hn1. cbn [mbind result_bind]. rewrite Hc. cbn [mbind result_bind].
  destruct (sendLoop_frame chain (vsockHdr op (u32 (zlen data)) c ++ data) 0 q1) as (q2 & w & -> & Hs & Hw);
    [apply Hq1|done|by apply Forall_app_2; [apply vsockHdr_byte|]|lia|].
  cbn [mbind result_bind]. destruct (Hput q2 w Hs Hw) as (q3 & -> & Hq3 & Ht3 & Hd3 & Hp3 & _).
  cbn [mbind result_bind]. eexists. split; [done|]. split; [|done]. simpl.
  replace (set_mem (q_mem q3) q3) with q3 by by destruct q3. by rewrite Hp3.
Qed.

(** ** One event *)

Lemma vsock_ok_same v v' : same_sockets v v' -> vsock_ok v -> vsock_ok v'.
Proof. intros (Hc & Hh & Hn) [H1 H2]. split; [rewrite Hc, Hh|rewrite Hh, Hn]; done. Qed.

Lemma vsock_ok_conn id f v :
  (forall c, conn_key (f c) = conn_key c) -> vsock_ok v -> vsock_ok (with_conn id f v).
Proof.
  intros Hf [H1 H2]. split; simpl.
  - intros key i Hi. destruct (H1 key i Hi) as (c & Hc & Hk). destruct (decide (i = id)) as [->|Hne].
    + exists (f c). rewrite lookup_alter_eq, Hc. by rewrite Hf.
    + exists c. by rewrite lookup_alter_ne.
  - intros i Hi. apply H2. destruct (decide (i = id)) as [->|Hne].
    + rewrite lookup_alter_eq in Hi. by apply fmap_is_Some in Hi.
    + by rewrite lookup_alter_ne in Hi.
Qed.

Lemma vsock_ok_delete k v : vsock_ok v -> vsock_ok (with_conns (delete k (v_conns v)) v).
Proof. intros [H1 H2]. split; [|done]. simpl. intros key i [_ Hi]%lookup_delete_Some. by apply H1. Qed.

(** The object of every connection after an event: the same ports, and what was read
    together with what is still buffered is what was buffered and has arrived. *)
Definition stream_step (e : VsockEvent) (v v' : Vsock) (o : option (nat * list Z)) : Prop :=
  forall id c, v_heap v !! id = Some c -> exists c', v_heap v' !! id = Some c' /\ conn_key c' = conn_key c /\
    bytes_read id (option_list o) ++ vc_readBuf c' = vc_readBuf c ++ delivered1 (conn_key c) id e v.

Lemma stream_same e v v' :
  v_heap v' = v_heap v -> (forall key id, delivered1 key id e v = []) -> stream_step e v v' None.
Proof. intros Hh Hd id c Hc. exists c. rewrite Hh, Hd, app_nil_r. done. Qed.

Lemma stream_conn e v id f :
  (forall c, conn_key (f c) = conn_key c /\ vc_readBuf (f c) = vc_readBuf c) ->
  (forall key id, delivered1 key id e v = []) -> stream_step e v (with_conn id f v) None.
Proof.
  intros Hf Hd i c Hc. simpl. rewrite Hd, app_nil_r. destruct (decide (i = id)) as [->|Hne].
  - exists (f c). rewrite lookup_alter_eq, Hc. by destruct (Hf c) as [-> ->].
  - exists c. by rewrite lookup_alter_ne.
Qed.

Lemma field_bound n off p : Forall is_byte p -> 0 <= field n off p < 256 ^ Z.of_nat n.
Proof.
  intros Hp. unfold field. assert (Forall is_byte (take n (drop off p))) as Hb by by apply Forall_take, Forall_drop.
  pose proof (le_val_bound _ Hb) as [H1 H2]. split; [done|]. eapply Z.lt_le_trans; [exact H2|].
  apply Z.pow_le_mono_r; [lia|]. rewrite length_take. lia.
Qed.

Lemma delivered_other key id p v :
  (pkt_op p =? vsockOpRW) = false \/ (vsockHdrSize <=? zlen p) = false \/
  (0 <? pkt_dataLen p) = false \/ (vsockHdrSize + pkt_dataLen p <=? zlen p) = false \/
  v_conns v !! (pkt_dstPort p, pkt_srcPort p) <> Some id ->
  delivered1 key id (GuestPacket p) v = [].
Proof.
  simpl. intros H. case_bool_decide as Hk; [|done]. unfold payload.
  destruct (bool_decide _) eqn:Hkey; [apply bool_decide_eq_true in Hkey; subst key|by rewrite !andb_false_r].
  destruct H as [->|[->|[->|[->|Hne]]]]; rewrite ?andb_false_l, ?andb_false_r; done.
Qed.

Lemma rw_step p v :
  vsock_ok v -> rx_ok v -> event_ok (GuestPacket p) v -> vsockHdrSize <= zlen p -> pkt_op p = vsockOpRW ->
  exists v', processGuestPacket p v = Ok v' /\ vsock_ok v' /\ rx_ok v' /\
    stream_step (GuestPacket p) v v' None.
Proof.
  intros Hv Hrx [Hb Hlen] Hp Hop. unfold processGuestPacket. rewrite Hop. simpl.
  pose proof (field_bound 4 24 p Hb) as Hl. fold (pkt_dataLen p) in Hl. change (field 4 24 p) with (pkt_dataLen p) in Hl.
  assert (u32 (vsockHdrSize + pkt_dataLen p) = vsockHdrSize + pkt_dataLen p) as Hu.
  { unfold u32. apply Z.mod_small. unfold vsockHdrSize in *. lia. }
  rewrite Hu. destruct (v_conns v !! _) as [id|] eqn:Hid.
  2:{ exists v. split_and!; [done..|]. apply stream_same; [done|]. intros. apply delivered_other. naive_solver. }
  destruct (vok_conns v Hv _ _ Hid) as (c & Hc & Hck).
  destruct ((0 <? pkt_dataLen p) && _) eqn:Hcond.
  2:{ exists v. split_and!; [done..|]. apply stream_same; [done|]. intros. apply delivered_other.
      apply andb_false_iff in Hcond as [?|?]; tauto. }
  apply andb_true_iff in Hcond as [Hpos Hfit]. rewrite slice_ok by (bool_props; lia). cbn [mbind result_bind].
  set (data := take _ _). eexists. split; [done|]. split; [by apply vsock_ok_conn|]. split; [done|].
  assert (payload (pkt_dstPort p, pkt_srcPort p) p = data) as Hpay.
  { unfold payload. rewrite Hop, Hpos, Hfit, (proj2 (Z.leb_le _ _) Hp), bool_decide_eq_true_2 by done. simpl.
    unfold data. do 2 f_equal. lia. }
  intros j d Hd. simpl. destruct (decide (j = id)) as [->|Hne].
  - rewrite lookup_alter_eq, Hd. assert (d = c) as -> by congruence. eexists. split; [done|]. split; [done|].
    rewrite Hck, bool_decide_eq_true_2 by done. by rewrite Hpay.
  - exists d. rewrite lookup_alter_ne by done. split_and!; [done..|].
    pose proof (delivered_other (conn_key d) j p v) as Ho. simpl in Ho. rewrite Ho, app_nil_r; [done|].
    do 4 right. congruence.
Qed.

Lemma packet_step p v :
  vsock_ok v -> rx_ok v -> event_ok (GuestPacket p) v ->
  exists v', vstep (GuestPacket p) v = Ok (v', None) /\ vsock_ok v' /\ rx_ok v' /\
    stream_step (GuestPacket p) v v' None.
Proof.
  intros Hv Hrx He. cbn [vstep]. destruct (vsockHdrSize <=? zlen p) eqn:Hp.
  2:{ exists v. split_and!; [done..|]. apply stream_same; [done|]. intros. apply delivered_other. tauto. }
  assert (exists v', processGuestPacket p v = Ok v' /\ vsock_ok v' /\ rx_ok v' /\
    stream_step (GuestPacket p) v v' None) as (v' & -> & Hok); [|by exists v'].
  destruct (Z.eqb_spec (pkt_op p) vsockOpRW) as [Hop|Hop]; [apply rw_step; [done..|by apply Z.leb_le|done]|].
  assert (forall key id, delivered1 key id (GuestPacket p) v = []) as Hnone.
  { intros. apply delivered_other. left. by apply Z.eqb_neq. }
  unfold processGuestPacket. rewrite (proj2 (Z.eqb_neq _ _) Hop).
  destruct (pkt_op p =? vsockOpResponse); [exists v; split_and!; [done..|by apply stream_same]|].
  destruct (pkt_op p =? vsockOpRequest).
  { destruct (sendToGuest_ok vsockOpRst (mkVsockConn hostCID (v_guestCID v) (pkt_dstPort p) (pkt_srcPort p) [] false 0 0)
      [] v Hrx) as (v' & Hs & Hrx' & Hsame); [done|].
    exists v'. split_and!; [done|by eapply vsock_ok_same|done|]. apply stream_same; [apply Hsame|done]. }
  destruct (_ || _); [|exists v; split_and!; [done..|by apply stream_same]].
  destruct (v_conns v !! _) as [id|]; [|exists v; split_and!; [done..|by apply stream_same]].
  eexists. split; [done|]. split; [|split; [done|by apply stream_conn]].
  change (with_conns (delete (pkt_dstPort p, pkt_srcPort p) (v_conns v)) (with_conn id set_closed v))
    with (with_conns (delete (pkt_dstPort p, pkt_srcPort p) (v_conns (with_conn id set_closed v))) (with_conn id set_closed v)).
  by apply vsock_ok_delete, vsock_ok_conn.
Qed.

Lemma stream_same_sockets e v v1 v2 o :
  same_sockets v1 v2 -> stream_step e v v1 o -> stream_step e v v2 o.
Proof. intros (_ & Hh & _) Hs id c Hc. rewrite Hh. by apply Hs. Qed.

Lemma connect_step port v :
  vsock_ok v -> rx_ok v ->
  exists v', vstep (HostConnect port) v = Ok (v', None) /\ vsock_ok v' /\ rx_ok v' /\
    stream_step (HostConnect port) v v' None.
Proof.
  intros [H1 H2] Hrx. cbn [vstep]. unfold Connect.
  set (c := mkVsockConn _ _ _ _ _ _ _ _). set (v1 := mkVsock _ _ _ _ _ _ _).
  assert (v_heap v !! v_next v = None) as Hfresh.
  { destruct (v_heap v !! v_next v) eqn:Hx; [|done]. specialize (H2 (v_next v)). rewrite Hx in H2.
    exfalso. apply (Nat.lt_irrefl (v_next v)), H2. by eexists. }
  assert (vsock_ok v1) as Hv1.
  { split; simpl.
    - intros key id [[<- <-]|[Hne Hk]]%lookup_insert_Some; [exists c; by rewrite lookup_insert_eq|].
      destruct (H1 key id Hk) as (d & Hd & Hdk). exists d. rewrite lookup_insert_ne; [done|congruence].
    - intros id [d [[<- _]|[_ Hd]]%lookup_insert_Some]; [lia|]. specialize (H2 id ltac:(by eexists)). lia. }
  destruct (sendToGuest_ok vsockOpRequest c [] v1 Hrx) as (v2 & -> & Hrx2 & Hsame); [done|].
  cbn [mbind result_bind]. exists v2. split_and!; [done|by eapply vsock_ok_same|done|].
  eapply stream_same_sockets; [exact Hsame|]. intros id d Hd. exists d. simpl.
  rewrite lookup_insert_ne by congruence. by rewrite app_nil_r.
Qed.

Lemma read_step id n now v :
  vsock_ok v -> rx_ok v ->
  exists v' o, vstep (HostRead id n now) v = Ok (v', o) /\ vsock_ok v' /\ rx_ok v' /\
    stream_step (HostRead id n now) v v' o.
Proof.
  intros Hv Hrx. cbn [vstep]. unfold connRead. destruct (v_heap v !! id) as [c|] eqn:Hc.
  2:{ exists v, None. split_and!; [done..|by apply stream_same]. }
  case_bool_decide as Hbuf.
  { destruct (vc_closed c); [|destruct (_ && _)]; (exists v, None; split_and!; [done..|by apply stream_same]). }
  eexists _, _. split; [done|]. split; [by apply vsock_ok_conn|]. split; [done|].
  intros j d Hd. simpl. unfold bytes_read. simpl. destruct (decide (id = j)) as [->|Hne].
  - rewrite lookup_alter_eq, Hd. eexists. split; [done|]. split; [done|].
    rewrite bool_decide_eq_true_2 by done. assert (d = c) as -> by congruence.
    rewrite !app_nil_r. simpl. apply take_drop.
  - exists d. rewrite lookup_alter_ne by done. rewrite bool_decide_eq_false_2 by done. simpl.
    by rewrite !app_nil_r.
Qed.

Lemma write_step id b v :
  vsock_ok v -> rx_ok v -> Forall is_byte b ->
  exists v', vstep (HostWrite id b) v = Ok (v', None) /\ vsock_ok v' /\ rx_ok v' /\
    stream_step (HostWrite id b) v v' None.
Proof.
  intros Hv Hrx Hb. cbn [vstep]. unfold connWrite.
  assert (exists v', Ok (E := Panic) (v, @None (nat * list Z)) = Ok (v', None) /\ vsock_ok v' /\ rx_ok v' /\
    stream_step (HostWrite id b) v v' None) as Hsame.
  { exists v. split_and!; [done..|by apply stream_same]. }
  destruct (v_heap v !! id) as [c|]; [|exact Hsame]. destruct (vc_closed c); [exact Hsame|].
  destruct (sendToGuest_ok vsockOpRW c b v Hrx Hb) as (v2 & -> & Hrx2 & Hs).
  exists v2. split_and!; [done|by eapply vsock_ok_same|done|]. apply stream_same; [apply Hs|done].
Qed.

Lemma close_step id v :
  vsock_ok v -> rx_ok v ->
  exists v', vstep (HostClose id) v = Ok (v', None) /\ vsock_ok v' /\ rx_ok v' /\
    stream_step (HostClose id) v v' None.
Proof.
  intros Hv Hrx. cbn [vstep]. unfold connClose. destruct (v_heap v !! id) as [c|].
  2:{ exists v. split_and!; [done..|by apply stream_same]. }
  destruct (sendToGuest_ok vsockOpShutdown c [] v Hrx) as (v2 & -> & Hrx2 & Hs); [done|].
  eexists. split; [done|]. split; [by apply vsock_ok_delete, vsock_ok_conn, (vsock_ok_same v)|]. split; [done|].
  assert (stream_step (HostClose id) v2 (with_conn id set_closed v2) None) as Hst by by apply stream_conn.
  intros j d Hd. destruct Hs as (_ & Hh & _). apply Hst. by rewrite Hh.
Qed.

Lemma reset_step v :
  vsock_ok v -> rx_ok v ->
  exists v', vstep DeviceReset v = Ok (v', None) /\ vsock_ok v' /\ rx_ok v' /\
    stream_step DeviceReset v v' None.
Proof.
  intros [H1 H2] Hrx. exists (Reset v). split; [done|]. split; [|split; [done|]].
  - split; simpl; [done|]. intros id [d Hd]. apply H2. rewrite map_lookup_imap in Hd.
    apply bind_Some in Hd as (c & Hc & _). by eexists.
  - intros id c Hc. simpl. rewrite map_lookup_imap, Hc. simpl. eexists. split; [done|].
    rewrite app_nil_r. by case_bool_decide.
Qed.

Lemma vstep_ok e v :
  vsock_ok v -> rx_ok v -> event_ok e v ->
  exists v' o, vstep e v = Ok (v', o) /\ vsock_ok v' /\ rx_ok v' /\ stream_step e v v' o.
Proof.
  intros Hv Hrx He. destruct e as [p|m|port|id n now|id b|id|id r w|].
  - destruct (packet_step p v Hv Hrx He) as (v' & H). by exists v', None.
  - exists (with_memory m v), None. split; [done|]. split; [by apply (vsock_ok_same v)|]. split; [done|].
    by apply stream_same.
  - destruct (connect_step port v Hv Hrx) as (v' & H). by exists v', None.
  - by apply read_step.
  - destruct (write_step id b v Hv Hrx He) as (v' & H). by exists v', None.
  - destruct (close_step id v Hv Hrx) as (v' & H). by exists v', None.
  - exists (with_conn id (set_deadlines r w) v), None. split; [done|]. split; [by apply vsock_ok_conn|].
    split; [done|]. by apply stream_conn.
  - destruct (reset_step v Hv Hrx) as (v' & H). by exists v', None.
Qed.

Lemma bytes_read_app id o os : bytes_read id (o ++ os) = bytes_read id o ++ bytes_read id os.
Proof. unfold bytes_read. by rewrite fmap_app, concat_app. Qed.

(** C18 Sockets are byte streams. Whatever packets the guest sends, in any interleaving
    with the calls of the host, resets, and changes of the guest's memory: as long as
    no length overflows together with the header and the driver leaves a proper
    receive queue, the device does not panic, and for every connection the bytes read
    so far followed by those still buffered are exactly the payloads that arrived
    while the connection was in the table, in order: nothing is lost, duplicated or
    delivered to another connection. *)
Theorem vsock_streams es v :
  vsock_ok v -> rx_ok v -> honest es v ->
  exists v' os, vrun es v = Ok (v', os) /\ vsock_ok v' /\ rx_ok v' /\
    forall id c, v_heap v !! id = Some c ->
      exists c', v_heap v' !! id = Some c' /\ conn_key c' = conn_key c /\
        bytes_read id os ++ vc_readBuf c' = vc_readBuf c ++ delivered (conn_key c) id es v.
Proof.
  revert v. induction es as [|e es IH]; intros v Hv Hrx Hh; cbn [vrun delivered].
  { exists v, []. split_and!; [done..|]. intros id c Hc. exists c. by rewrite app_nil_r. }
  destruct Hh as [He Hh]. destruct (vstep_ok e v Hv Hrx He) as (v1 & o & Hs & Hv1 & Hrx1 & Hst).
  rewrite Hs. cbn [mbind result_bind]. destruct (IH v1 Hv1 Hrx1 (Hh v1 o Hs)) as (v2 & os & -> & Hv2 & Hrx2 & Hall).
  cbn [mbind result_bind]. eexists _, _. split_and!; [done..|]. intros id c Hc.
  destruct (Hst id c Hc) as (c1 & Hc1 & Hk1 & Hb1). destruct (Hall id c1 Hc1) as (c2 & Hc2 & Hk2 & Hb2).
  exists c2. split_and!; [done|congruence|].
  rewrite bytes_read_app, <-app_assoc, Hb2, Hk1, !app_assoc. by rewrite Hb1.
Qed.

(** ** The two ends agree on the format *)

Lemma field_app n off a b :
  length a = off -> (n <= length b)%nat -> field n off (a ++ b) = le_val (take n b).
Proof. intros <- Hn. unfold field. by rewrite drop_app_length. Qed.

(** A packet with the header of a connection, its ports exchanged, carries its data. *)
Lemma packet_roundtrip c data :
  0 <= vc_srcPort c < 2 ^ 32 -> 0 <= vc_dstPort c < 2 ^ 32 -> 0 < zlen data < 2 ^ 32 ->
  payload (vc_dstPort c, vc_srcPort c) (vsockHdr vsockOpRW (zlen data) c ++ data) = data.
Proof.
  intros Hs Hd Hl.
  assert (forall n x, 0 <= x < 256 ^ Z.of_nat n -> le_val (le_bytes n x) = x) as Hle.
  { intros n x Hx. rewrite le_val_bytes. by apply Z.mod_small. }
  assert (forall n x rest, 0 <= x < 256 ^ Z.of_nat n -> le_val (take n (le_bytes n x ++ rest)) = x) as Htake.
  { intros n x rest Hx. rewrite take_app_length' by (by rewrite length_le_bytes). by apply Hle. }
  set (p := vsockHdr vsockOpRW (zlen data) c ++ data).
  assert (length (vsockHdr vsockOpRW (zlen data) c) = 44%nat) as Hlen.
  { unfold vsockHdr. by rewrite !length_app, !length_le_bytes, length_replicate. }
  assert (forall n off pre x rest, p = pre ++ le_bytes n x ++ rest -> length pre = off ->
    0 <= x < 256 ^ Z.of_nat n -> field n off p = x) as Hf.
  { intros n off pre x rest -> Hpre Hx. rewrite field_app; [by apply Htake|done|].
    rewrite length_app, length_le_bytes. lia. }
  assert (pkt_srcPort p = vc_srcPort c) as H1.
  { eapply (Hf 4%nat 16%nat (le_bytes 8 _ ++ le_bytes 8 _)); [|by rewrite length_app, !length_le_bytes|done].
    unfold p, vsockHdr. by rewrite <-!app_assoc. }
  assert (pkt_dstPort p = vc_dstPort c) as H2.
  { eapply (Hf 4%nat 20%nat (le_bytes 8 _ ++ le_bytes 8 _ ++ le_bytes 4 _));
      [|by rewrite !length_app, !length_le_bytes|done]. unfold p, vsockHdr. by rewrite <-!app_assoc. }
  assert (pkt_dataLen p = zlen data) as H3.
  { eapply (Hf 4%nat 24%nat (le_bytes 8 _ ++ le_bytes 8 _ ++ le_bytes 4 _ ++ le_bytes 4 _));
      [|by rewrite !length_app, !length_le_bytes|lia]. unfold p, vsockHdr. by rewrite <-!app_assoc. }
  assert (pkt_op p = vsockOpRW) as H4.
  { eapply (Hf 2%nat 30%nat (le_bytes 8 _ ++ le_bytes 8 _ ++ le_bytes 4 _ ++ le_bytes 4 _ ++ le_bytes 4 _ ++ le_bytes 2 _));
      [|by rewrite !length_app, !length_le_bytes|done]. unfold p, vsockHdr. by rewrite <-!app_assoc. }
  unfold payload. rewrite H1, H2, H3, H4. unfold p. rewrite length_app, Hlen.
  rewrite !(proj2 (Z.leb_le _ _)), (proj2 (Z.ltb_lt _ _)), bool_decide_eq_true_2 by (done || unfold vsockHdrSize; lia).
  cbn [andb Z.eqb]. rewrite drop_app_length' by done. by rewrite take_ge by lia.
Qed.

(** ** Gaps *)

(** A length that overflows together with the header passes the check and makes the
    slice expression panic: a guest can stop the process that runs its machine. *)
Lemma guest_panics_host p id v :
  vsockHdrSize <= zlen p -> pkt_op p = vsockOpRW -> 2 ^ 32 - vsockHdrSize <= pkt_dataLen p < 2 ^ 32 ->
  v_conns v !! (pkt_dstPort p, pkt_srcPort p) = Some id -> processGuestPacket p v = Err PanicBounds.
Proof.
  intros Hl Hop Hd Hid. unfold processGuestPacket. rewrite Hop, Hid. simpl. unfold vsockHdrSize in *.
  assert (u32 (44 + pkt_dataLen p) = 44 + pkt_dataLen p - 2 ^ 32) as ->.
  { unfold u32. rewrite <-(Z_mod_plus_full _ (-1)). apply Z.mod_small. lia. }
  rewrite (proj2 (Z.ltb_lt _ _)), (proj2 (Z.leb_le _ _)) by lia. simpl. unfold slice.
  by rewrite (proj2 (Z.leb_gt _ _)) by lia.
Qed.

Definition example_conn (id : nat) : vsockConn := mkVsockConn hostCID 3 52 52 [] false 0 0.
Definition guest_data (data : list Z) : list Z :=
  vsockHdr vsockOpRW (zlen data) (mkVsockConn 3 hostCID 52 52 [] false 0 0) ++ data.

(** A second connection to a port takes over the first one's packets, and closing the
    first one then cuts the second one off. *)
Lemma second_connection_hijacks :
  let v := NewVsock 3 [] in
  match vrun [HostConnect 52; HostConnect 52; GuestPacket (guest_data [1]); HostClose 0; GuestPacket (guest_data [2])] v with
  | Ok (v', _) => (vc_readBuf <$> v_heap v' !! 0%nat) = Some [] /\ (vc_readBuf <$> v_heap v' !! 1%nat) = Some [1] /\
                  vc_closed <$> v_heap v' !! 1%nat = Some false
  | Err _ => False
  end.
Proof. vm_compute. done. Qed.

(** Without a buffer of the guest a write is dropped and reported as complete. *)
Lemma write_dropped :
  match vrun [HostConnect 52] (NewVsock 3 []) with
  | Ok (v, _) => connWrite 0 [1; 2; 3] v = Ok (v, Some 3)
  | Err _ => False
  end.
Proof. vm_compute. done. Qed.

(** *** A wake-up that is lost

    [Read] holds [readMu] from its look at the connection until [Wait] has put it on
    the list of the condition variable. The packet that closes the connection sets
    [closed] and broadcasts without that mutex. *)
Inductive ReaderPc := Looking | Deciding | Waiting | Returned.
Inductive CloserPc := Open | Closed | Broadcasted.

Inductive wake_step : ReaderPc * CloserPc -> ReaderPc * CloserPc -> Prop :=
  | ws_look_open : wake_step (Looking, Open) (Deciding, Open)
  | ws_look_closed c : c <> Open -> wake_step (Looking, c) (Returned, c)
  | ws_wait c : wake_step (Deciding, c) (Waiting, c)
  | ws_close r : wake_step (r, Open) (r, Closed)
  | ws_broadcast r :
      wake_step (r, Closed) (match r with Waiting => Looking | _ => r end, Broadcasted).

Lemma close_can_be_missed :
  rtc wake_step (Looking, Open) (Waiting, Broadcasted) /\ forall s, ~ wake_step (Waiting, Broadcasted) s.
Proof.
  split; [|by inversion 1].
  eapply rtc_l; [apply ws_look_open|]. eapply rtc_l; [apply ws_close|].
  eapply rtc_l; [apply (ws_broadcast Deciding)|]. eapply rtc_l; [apply ws_wait|]. done.
Qed.

(** ** Witness: a connection with a receive buffer of the guest *)

Definition rxDesc : VirtqDesc := mkDesc 128 128 2 0.
Definition sockMem : list Z :=
  descBytes rxDesc ++ replicate 48 0 ++ [0; 0; 1; 0; 0; 0] ++ replicate 442 0.
Definition sockQueue : Queue := NewQueue 4 0 64 80 sockMem.
Definition example_sock : Vsock := with_rx sockQueue (NewVsock 3 sockMem).

Lemma example_rx_ok : rx_ok example_sock.
Proof.
  unfold rx_ok. simpl. change (set_mem sockMem sockQueue) with sockQueue. split; [|split].
  - assert (Forall is_byte sockMem) as Hb by (apply bytes_by_compute; by vm_compute).
    split; [done|by exists 16384|done|done|exact Hb|done|done|by left].
  - split_and!; [done|by vm_compute|by left].
  - vm_compute (pending _). constructor; [|constructor]. exists [rxDesc]. split.
    + split_and!; [|done|done|done|repeat constructor; done]. eapply linked_last; [by vm_compute|done].
    + rewrite !Forall_cons, Forall_nil. unfold buffer_ok, apart, regions.
      change (zlen (q_mem sockQueue)) with 512. rewrite !Forall_cons, !Forall_nil.
      unfold DescTableSize, AvailRingSize, UsedRingSize, rxDesc. simpl. lia.
Qed.

Definition example_events : list VsockEvent :=
  [HostConnect 52; GuestPacket (guest_data [7; 8; 9])].

(** The connection of the example after its first packet. *)
Lemma vsock_streams_witness :
  match vstep (HostConnect 52) example_sock with
  | Ok (v1, _) =>
      exists v2 os c, vrun [GuestPacket (guest_data [7; 8; 9]); HostRead 0 2 0] v1 = Ok (v2, os) /\
        v_heap v2 !! 0%nat = Some c /\ bytes_read 0 os ++ vc_readBuf c = [7; 8; 9]
  | Err _ => False
  end.
Proof.
  destruct (vstep_ok (HostConnect 52) example_sock) as (v1 & o & Hs & Hv1 & Hrx1 & _);
    [split; [done|by intros id [? ?]]|exact example_rx_ok|done|].
  rewrite Hs.
  assert (v_heap v1 !! 0%nat = Some (example_conn 0) /\ v_conns v1 !! (52, 52) = Some 0%nat) as [Hc Hk].
  { assert (match vstep (HostConnect 52) example_sock with
            | Ok (v1, _) => v_heap v1 !! 0%nat = Some (example_conn 0) /\ v_conns v1 !! (52, 52) = Some 0%nat
            | Err _ => False end) as H by (vm_compute; split; reflexivity). rewrite Hs in H. exact H. }
  destruct (vsock_streams [GuestPacket (guest_data [7; 8; 9]); HostRead 0 2 0] v1) as (v2 & os & Hr & _ & _ & Hst);
    [done|done| |].
  { split; [|intros v2 o2 _; split; [done|by intros]]. split; [apply bytes_by_compute; by vm_compute|by vm_compute]. }
  destruct (Hst 0%nat _ Hc) as (c & Hc2 & _ & Hb). exists v2, os, c. split_and!; [done|done|].
  rewrite Hb. cbn [delivered delivered1]. rewrite bool_decide_eq_true_2 by exact Hk.
  assert (payload (conn_key (example_conn 0)) (guest_data [7; 8; 9]) = [7; 8; 9]) as -> by by vm_compute.
  by repeat case_match.
Defined.
