(* ===== verification/ApprovalGate.v ===== *)
(** * Approval gate and executor admission

    The gate that parks commands until an operator decides
    ([src/internal/supervisor/gate.go]) as a step machine over a shared store,
    and the part of the executor that runs commands through the proxy and the
    gate ([Execute], [ExecuteParallel] of [src/internal/supervisor/exec.go]).

    A suspension is the index of its [PendingApproval] in the store: the map
    [pending], the goroutine of [Suspend] and a goroutine of [Approve] or [Deny]
    that has taken the entry all point at it. Every critical section under
    [g.mu], every channel operation and every branch of the [select] is a step;
    the scheduler chooses their order. *)

From stdpp Require Import options.
From S2P Require Import Prelude GoStrings GoPath Policy.

(** ** Channels of capacity one *)

Record ApprovalDecision := mkDecision {
  ad_Approved : bool;
  ad_AddToWhitelist : bool;
  ad_Reason : string
}.
#[global] Instance ApprovalDecision_eq_dec : EqDecision ApprovalDecision.
Proof. solve_decision. Defined.

(** The zero value a receive from a closed channel yields. *)
Definition zeroDecision : ApprovalDecision := mkDecision false false "".

Record Chan := mkChan { ch_buf : option ApprovalDecision; ch_closed : bool }.

(** What executing one step of a goroutine does. *)
Inductive outcome (A : Type) :=
  | Next (a : A)
  | Blocked
  | Panics.
Arguments Next {A} a.
Arguments Blocked {A}.
Arguments Panics {A}.

Definition chan_send (d : ApprovalDecision) (c : Chan) : outcome Chan :=
  if ch_closed c then Panics
  else match ch_buf c with None => Next (mkChan (Some d) false) | Some _ => Blocked end.

Definition chan_recv (c : Chan) : outcome (ApprovalDecision * Chan) :=
  match ch_buf c with
  | Some d => Next (d, mkChan None (ch_closed c))
  | None => if ch_closed c then Next (zeroDecision, c) else Blocked
  end.

Definition chan_close (c : Chan) : outcome Chan :=
  if ch_closed c then Panics else Next (mkChan (ch_buf c) true).

(** ** The gate *)

Inductive ApprovalStatus := StWaiting | StApproved | StDenied | StTimeout.

Record PendingApproval := mkPA {
  pa_ID : string;
  pa_SessionID : string;
  pa_Command : Command;
  pa_Reason : Reason;
  pa_Status : ApprovalStatus;
  pa_Created : Z;
  pa_resultCh : Chan
}.

Record ApprovalGate := mkGate {
  g_pending : gmap string nat;
  g_timeout : Z
}.

Definition maxApprovalTimeout : Z := 10 * Minute.

Definition NewApprovalGate (timeout : Z) : ApprovalGate :=
  mkGate ∅ (if (timeout =? 0)%Z then 5 * Minute else timeout).

(** What [Suspend] returns. *)
Inductive SuspendResult :=
  | RApproved (d : ApprovalDecision)
  | RDenied (d : ApprovalDecision) (reason : string)
  | RTimedOut (after : Z)
  | RCancelled.

(** The branch of the [select] that was taken. *)
Inductive Wake :=
  | WDecision (d : ApprovalDecision)
  | WTimeout
  | WCancel.

(** Where the goroutine of a [Suspend] stands: after the registration and before
    the [select]; in the [select] with its timer; past it; back at the caller. *)
Inductive Phase :=
  | Notifying
  | Selecting (timer : Z)
  | Woken (w : Wake)
  | Returned (r : SuspendResult).

(** The gate, the store of pending approvals with the goroutine of each, the
    goroutines of [Approve] and [Deny] about to send, and the clock. *)
Record World := mkWorld {
  w_gate : ApprovalGate;
  w_heap : list (PendingApproval * Phase);
  w_senders : list (nat * ApprovalDecision);
  w_now : Z
}.

Definition set_pending (m : gmap string nat) (w : World) : World :=
  mkWorld (mkGate m (g_timeout (w_gate w))) (w_heap w) (w_senders w) (w_now w).
Definition set_heap (h : list (PendingApproval * Phase)) (w : World) : World :=
  mkWorld (w_gate w) h (w_senders w) (w_now w).
Definition set_senders (s : list (nat * ApprovalDecision)) (w : World) : World :=
  mkWorld (w_gate w) (w_heap w) s (w_now w).

Definition with_status (s : ApprovalStatus) (pa : PendingApproval) : PendingApproval :=
  mkPA (pa_ID pa) (pa_SessionID pa) (pa_Command pa) (pa_Reason pa) s (pa_Created pa)
    (pa_resultCh pa).
Definition with_chan (c : Chan) (pa : PendingApproval) : PendingApproval :=
  mkPA (pa_ID pa) (pa_SessionID pa) (pa_Command pa) (pa_Reason pa) (pa_Status pa)
    (pa_Created pa) c.

(** The entry of [Suspend]: a fresh approval replaces whatever the map held. *)
Definition suspendRegister (sessionID : string) (cmd : Command) (reason : Reason) (w : World)
    : World :=
  let pa := mkPA (c_ID cmd) sessionID cmd reason StWaiting (w_now w) (mkChan None false) in
  set_pending (<[c_ID cmd := length (w_heap w)]> (g_pending (w_gate w)))
    (set_heap (w_heap w ++ [(pa, Notifying)]) w).

Definition clampTimeout (timeout : Z) : Z :=
  if (maxApprovalTimeout <? timeout)%Z || (timeout <=? 0)%Z then maxApprovalTimeout else timeout.

(** Entering the [select] starts the timer of [time.After]. *)
Definition suspendSelect (p : nat) (w : World) : outcome World :=
  match w_heap w !! p with
  | Some (pa, Notifying) =>
      Next (set_heap (<[p := (pa, Selecting (w_now w + clampTimeout (g_timeout (w_gate w))))]>
                        (w_heap w)) w)
  | _ => Blocked
  end.

(** The three branches. *)
Definition wakeDecision (p : nat) (w : World) : outcome World :=
  match w_heap w !! p with
  | Some (pa, Selecting _) =>
      match chan_recv (pa_resultCh pa) with
      | Next (d, c) =>
          Next (set_heap (<[p := (with_chan c pa, Woken (WDecision d))]> (w_heap w)) w)
      | Blocked => Blocked
      | Panics => Panics
      end
  | _ => Blocked
  end.

Definition wakeTimeout (p : nat) (w : World) : outcome World :=
  match w_heap w !! p with
  | Some (pa, Selecting timer) =>
      if (timer <=? w_now w)%Z
      then Next (set_heap (<[p := (pa, Woken WTimeout)]> (w_heap w)) w)
      else Blocked
  | _ => Blocked
  end.

Definition wakeCancel (p : nat) (w : World) : outcome World :=
  match w_heap w !! p with
  | Some (pa, Selecting _) =>
      Next (set_heap (<[p := (pa, Woken WCancel)]> (w_heap w)) w)
  | _ => Blocked
  end.

(** The body of the branch: the status, the cleanup of the map under the
    command's ID, and the value returned. *)
Definition finishStatus (k : Wake) (pa : PendingApproval) : PendingApproval :=
  match k with
  | WDecision d => with_status (if ad_Approved d then StApproved else StDenied) pa
  | WTimeout => with_status StTimeout pa
  | WCancel => pa
  end.

Definition finishResult (timeout : Z) (k : Wake) : SuspendResult :=
  match k with
  | WDecision d =>
      if ad_Approved d then RApproved d
      else RDenied d (if String.eqb (ad_Reason d) "" then "denied by operator" else ad_Reason d)
  | WTimeout => RTimedOut (clampTimeout timeout)
  | WCancel => RCancelled
  end.

Definition suspendFinish (p : nat) (w : World) : outcome World :=
  match w_heap w !! p with
  | Some (pa, Woken k) =>
      Next (set_pending (delete (c_ID (pa_Command pa)) (g_pending (w_gate w)))
              (set_heap (<[p := (finishStatus k pa,
                                 Returned (finishResult (g_timeout (w_gate w)) k))]>
                           (w_heap w)) w))
  | _ => Blocked
  end.

(** The critical section of [Approve] and [Deny]: [None] is the error "no pending
    approval", otherwise the goroutine goes on to the send. *)
Definition takeEntry (cmdID : string) (d : ApprovalDecision) (w : World) : World * option nat :=
  match g_pending (w_gate w) !! cmdID with
  | None => (w, None)
  | Some p =>
      (set_senders (w_senders w ++ [(p, d)])
         (set_pending (delete cmdID (g_pending (w_gate w))) w), Some p)
  end.

Definition Approve (cmdID : string) (addToWhitelist : bool) : World -> World * option nat :=
  takeEntry cmdID (mkDecision true addToWhitelist "").
Definition Deny (cmdID reason : string) : World -> World * option nat :=
  takeEntry cmdID (mkDecision false false reason).

(** The send of the [i]-th such goroutine. *)
Definition sendDecision (i : nat) (w : World) : outcome World :=
  match w_senders w !! i with
  | Some (p, d) =>
      match w_heap w !! p with
      | Some (pa, ph) =>
          match chan_send d (pa_resultCh pa) with
          | Next c =>
              Next (set_senders (delete i (w_senders w))
                      (set_heap (<[p := (with_chan c pa, ph)]> (w_heap w)) w))
          | Blocked => Blocked
          | Panics => Panics
          end
      | None => Blocked
      end
  | None => Blocked
  end.

(** One iteration of [Cleanup]. *)
Definition cleanupEntry (ow : outcome World) (e : string * nat) : outcome World :=
  match ow with
  | Next w =>
      match w_heap w !! e.2 with
      | Some (pa, ph) =>
          if (maxApprovalTimeout <? w_now w - pa_Created pa)%Z then
            match chan_close (pa_resultCh pa) with
            | Next c =>
                Next (set_heap (<[e.2 := (with_chan c pa, ph)]> (w_heap w))
                        (set_pending (delete e.1 (g_pending (w_gate w))) w))
            | Blocked => Blocked
            | Panics => Panics
            end
          else Next w
      | None => Next w
      end
  | _ => ow
  end.

(** [order]: the entries of the map in the order the [range] visits them. *)
Definition Cleanup (order : list (string * nat)) (w : World) : outcome World :=
  foldl cleanupEntry (Next w) order.

Definition ListPending (order : list (string * nat)) (w : World) : list PendingApproval :=
  omap (fun e => fst <$> w_heap w !! e.2) order.

Definition PendingCount (w : World) : nat := size (g_pending (w_gate w)).

(** ** The machine *)

Inductive Event :=
  | ESuspend (sessionID : string) (cmd : Command) (reason : Reason)
  | ESelect (p : nat)
  | EDecision (p : nat)
  | ETimeout (p : nat)
  | ECancel (p : nat)
  | EFinish (p : nat)
  | EApprove (cmdID : string) (addToWhitelist : bool)
  | EDeny (cmdID reason : string)
  | ESend (i : nat)
  | ECleanup (order : list (string * nat))
  | ETick (d : Z).

Definition no_reply (o : outcome World) : outcome (World * option nat) :=
  match o with Next w => Next (w, None) | Blocked => Blocked | Panics => Panics end.

(** One step, with the suspension an [Approve] or [Deny] has accepted. *)
Definition gate_step (e : Event) (w : World) : outcome (World * option nat) :=
  match e with
  | ESuspend sid cmd reason => no_reply (Next (suspendRegister sid cmd reason w))
  | ESelect p => no_reply (suspendSelect p w)
  | EDecision p => no_reply (wakeDecision p w)
  | ETimeout p => no_reply (wakeTimeout p w)
  | ECancel p => no_reply (wakeCancel p w)
  | EFinish p => no_reply (suspendFinish p w)
  | EApprove id wl => Next (Approve id wl w)
  | EDeny id reason => Next (Deny id reason w)
  | ESend i => no_reply (sendDecision i w)
  | ECleanup order => no_reply (Cleanup order w)
  | ETick d => no_reply (Next (mkWorld (w_gate w) (w_heap w) (w_senders w) (w_now w + d)))
  end.

(** A [range] visits every entry once, and time does not go back. *)
Definition fair (e : Event) (w : World) : Prop :=
  match e with
  | ECleanup order => order ≡ₚ map_to_list (g_pending (w_gate w))
  | ETick d => (0 <= d)%Z
  | _ => True
  end.

(** What happened so far: the events with the replies. *)
Abbreviation History := (list (Event * option nat)).

Definition initial (timeout now : Z) : World := mkWorld (NewApprovalGate timeout) [] [] now.

Inductive reach (timeout start : Z) : History -> World -> Prop :=
  | reach_init : reach timeout start [] (initial timeout start)
  | reach_step h w e w' r :
      reach timeout start h w -> fair e w -> gate_step e w = Next (w', r) ->
      reach timeout start (h ++ [(e, r)]) w'.

Definition decision_of (e : Event) : option ApprovalDecision :=
  match e with
  | EApprove _ wl => Some (mkDecision true wl "")
  | EDeny _ reason => Some (mkDecision false false reason)
  | _ => None
  end.

(** The decisions accepted so far: the calls of [Approve] and [Deny] that found
    an entry, with the suspension they found. *)
Definition accepted (h : History) : list (nat * ApprovalDecision) :=
  omap (fun er => d ← decision_of er.1; p ← er.2; Some (p, d)) h.

(** The decisions of a list that are for the suspension [p]. *)
Definition dec_of (p : nat) (l : list (nat * ApprovalDecision)) : list ApprovalDecision :=
  snd <$> filter (fun x => x.1 = p) l.

(** The decision a suspension has read from its channel. *)
Definition decided (ph : Phase) : option ApprovalDecision :=
  match ph with
  | Woken (WDecision d) | Returned (RApproved d) | Returned (RDenied d _) => Some d
  | _ => None
  end.

(** Still blocked, or about to block, in [Suspend]. *)
Definition waiting (ph : Phase) : bool :=
  match ph with Notifying | Selecting _ => true | _ => false end.

(** ** The life of a suspension

    In the map or not, decisions accepted, decisions about to be sent, channel,
    decision read. *)

Inductive Life : bool -> list ApprovalDecision -> list ApprovalDecision -> Chan ->
    option ApprovalDecision -> Prop :=
  | LOpen b : Life b [] [] (mkChan None false) None
  | LClosed od : od = None \/ od = Some zeroDecision -> Life false [] [] (mkChan None true) od
  | LSending d : Life false [d] [d] (mkChan None false) None
  | LSent d : Life false [d] [] (mkChan (Some d) false) None
  | LRead d : Life false [d] [] (mkChan None false) (Some d).

Lemma Life_unmap b A S c od : Life b A S c od -> Life false A S c od.
Proof. destruct 1; by constructor. Qed.

Definition phase_ok (timeout now : Z) (ph : Phase) : Prop :=
  match ph with
  | Selecting timer => (timer <= now + clampTimeout timeout)%Z
  | Returned (RApproved d) => ad_Approved d = true
  | Returned (RDenied d _) => ad_Approved d = false
  | Returned (RTimedOut after) => after = clampTimeout timeout
  | _ => True
  end.

Record Winv (timeout : Z) (acc : list (nat * ApprovalDecision)) (w : World) : Prop := {
  winv_timeout : g_timeout (w_gate w) = timeout;
  winv_pending id p :
    g_pending (w_gate w) !! id = Some p ->
    exists pa ph, w_heap w !! p = Some (pa, ph) /\ pa_ID pa = id;
  winv_heap p pa ph :
    w_heap w !! p = Some (pa, ph) ->
    pa_ID pa = c_ID (pa_Command pa) /\
    Life (bool_decide (g_pending (w_gate w) !! pa_ID pa = Some p))
      (dec_of p acc) (dec_of p (w_senders w)) (pa_resultCh pa) (decided ph) /\
    phase_ok timeout (w_now w) ph;
  winv_fresh p :
    length (w_heap w) <= p -> dec_of p acc = [] /\ dec_of p (w_senders w) = []
}.

#[global] Instance dec_of_proper p : Proper ((≡ₚ) ==> (≡ₚ)) (dec_of p).
Proof. intros l1 l2 Hl. unfold dec_of. by rewrite Hl. Qed.

Lemma dec_of_app p l1 l2 : dec_of p (l1 ++ l2) = dec_of p l1 ++ dec_of p l2.
Proof. unfold dec_of. by rewrite filter_app, fmap_app. Qed.

Lemma dec_of_single p q d : dec_of p [(q, d)] = if decide (q = p) then [d] else [].
Proof. unfold dec_of. rewrite filter_cons. simpl. by case_decide. Qed.

Lemma dec_of_cons p q d l :
  dec_of p ((q, d) :: l) = (if decide (q = p) then [d] else []) ++ dec_of p l.
Proof. unfold dec_of. rewrite filter_cons. simpl. by case_decide. Qed.

Lemma dec_of_elem p d l : d ∈ dec_of p l <-> (p, d) ∈ l.
Proof.
  unfold dec_of. rewrite list_elem_of_fmap. split.
  - intros ([q d'] & -> & [Hq Hin]%list_elem_of_filter). simpl in *. by subst.
  - intros Hin. exists (p, d). split; [done|]. by apply list_elem_of_filter.
Qed.

(** Replacing one suspension, with fewer entries in the map. *)
Lemma Winv_update timeout acc acc' w w' p pa ph pa' ph' :
  Winv timeout acc w -> w_heap w !! p = Some (pa, ph) ->
  w_gate w' = mkGate (g_pending (w_gate w')) (g_timeout (w_gate w)) -> w_now w' = w_now w ->
  g_pending (w_gate w') ⊆ g_pending (w_gate w) ->
  w_heap w' = <[p := (pa', ph')]> (w_heap w) ->
  pa_ID pa' = pa_ID pa -> pa_Command pa' = pa_Command pa ->
  (forall q, q <> p -> dec_of q acc' = dec_of q acc /\
                       dec_of q (w_senders w') = dec_of q (w_senders w)) ->
  phase_ok timeout (w_now w) ph' ->
  Life (bool_decide (g_pending (w_gate w') !! pa_ID pa = Some p))
    (dec_of p acc') (dec_of p (w_senders w')) (pa_resultCh pa') (decided ph') ->
  Winv timeout acc' w'.
Proof.
  intros HW Hp Ht Hnow Hsub Hheap Hid Hcmd Hother Hph Hlife.
  assert (p < length (w_heap w)) as Hlt by (by eapply lookup_lt_Some).
  constructor.
  - rewrite Ht. apply HW.
  - intros id q Hq. rewrite Hheap. eapply lookup_weaken in Hq; [|done].
    apply HW in Hq as (pb & pc & Hb & Hi). destruct (decide (q = p)) as [->|Hne].
    + rewrite list_lookup_insert_eq by done. exists pa', ph'. split; [done|congruence].
    + rewrite list_lookup_insert_ne by done. eauto.
  - intros q pb pc. rewrite Hheap, Hnow. destruct (decide (q = p)) as [->|Hne].
    + rewrite list_lookup_insert_eq by done. intros [= <- <-].
      destruct (winv_heap _ _ _ HW p pa ph Hp) as (H1 & _).
      split_and!; [congruence|by rewrite Hid|done].
    + rewrite list_lookup_insert_ne by done. intros Hq.
      destruct (winv_heap _ _ _ HW q pb pc Hq) as (H1 & H2 & H3).
      destruct (Hother q Hne) as [-> ->]. split_and!; [done| |done].
      destruct (decide (g_pending (w_gate w') !! pa_ID pb = Some q)) as [Hin|Hin].
      * rewrite bool_decide_eq_true_2 by done.
        rewrite bool_decide_eq_true_2 in H2 by (by eapply lookup_weaken). done.
      * rewrite bool_decide_eq_false_2 by done. by eapply Life_unmap.
  - intros q Hq. rewrite Hheap, length_insert in Hq.
    destruct (Hother q ltac:(lia)) as [-> ->]. by apply HW.
Qed.

#[local] Arguments clampTimeout : simpl never.

Ltac winv_update HW Hp :=
  eapply (Winv_update _ _ _ _ _ _ _ _ _ _ HW Hp); simpl;
    [first [done | by destruct (w_gate _)]|done|try done|done|try done|try done|try done|try done|].

Section steps.
Context {timeout : Z} {acc : list (nat * ApprovalDecision)}.
Implicit Types (w : World) (pa : PendingApproval).

Lemma Winv_register sid cmd reason w :
  Winv timeout acc w -> Winv timeout acc (suspendRegister sid cmd reason w).
Proof.
  intros HW. assert (forall p, g_pending (w_gate w) !! p <> Some (length (w_heap w))) as Hfresh.
  { intros id Hid. apply HW in Hid as (? & ? & Hh & _). apply lookup_lt_Some in Hh. lia. }
  constructor; simpl.
  - apply HW.
  - intros id p. rewrite lookup_insert_Some. intros [[<- <-]|[Hne Hp]].
  + rewrite list_lookup_middle by done. by repeat eexists.
  + apply HW in Hp as (pb & ph & Hh & Hid). exists pb, ph. split; [|done].
    by apply lookup_app_l_Some.
  - intros p pa ph [Hh|[Hlen Hh]]%lookup_app_Some.
  + destruct (winv_heap _ _ _ HW p pa ph Hh) as (H1 & H2 & H3). split_and!; [done| |done].
    destruct (decide (c_ID cmd = pa_ID pa)) as [Heq|Hne].
    * rewrite Heq, lookup_insert_eq, bool_decide_eq_false_2; [by eapply Life_unmap|].
      intros [= <-]. apply lookup_lt_Some in Hh. lia.
    * by rewrite lookup_insert_ne by done.
  + apply list_lookup_singleton_Some in Hh as [Hz [= <- <-]]. simpl.
    destruct (winv_fresh _ _ _ HW p Hlen) as [-> ->]. split_and!; [done|constructor|done].
  - intros p. rewrite length_app. simpl. intros Hlen. apply HW. lia.
Qed.

Lemma Winv_select p w w' :
  Winv timeout acc w -> suspendSelect p w = Next w' -> Winv timeout acc w'.
Proof.
  intros HW. unfold suspendSelect. destruct (w_heap w !! p) as [[pa ph]|] eqn:Hp; [|done].
  destruct (winv_heap _ _ _ HW p pa ph Hp) as (_ & Hlife & _).
  destruct ph; [|done..]. intros [= <-]. winv_update HW Hp; [|done].
  rewrite (winv_timeout _ _ _ HW). simpl. lia.
Qed.

Lemma Winv_decision p w w' :
  Winv timeout acc w -> wakeDecision p w = Next w' -> Winv timeout acc w'.
Proof.
  intros HW. unfold wakeDecision. destruct (w_heap w !! p) as [[pa ph]|] eqn:Hp; [|done].
  destruct (winv_heap _ _ _ HW p pa ph Hp) as (_ & Hlife & _).
  destruct ph as [|timer| |]; [done| |done..]. simpl in Hlife.
  destruct (chan_recv (pa_resultCh pa)) as [[d c]| |] eqn:Hr; [|done..].
  intros [= <-]. winv_update HW Hp. unfold chan_recv in Hr.
  destruct Hlife; simplify_eq/=; constructor. by right.
Qed.

Lemma Winv_timeout p w w' :
  Winv timeout acc w -> wakeTimeout p w = Next w' -> Winv timeout acc w'.
Proof.
  intros HW. unfold wakeTimeout. destruct (w_heap w !! p) as [[pa ph]|] eqn:Hp; [|done].
  destruct (winv_heap _ _ _ HW p pa ph Hp) as (_ & Hlife & _).
  destruct ph as [|timer| |]; [done| |done..].
  destruct (_ <=? _)%Z; [|done]. intros [= <-]. winv_update HW Hp. done.
Qed.

Lemma Winv_cancel p w w' :
  Winv timeout acc w -> wakeCancel p w = Next w' -> Winv timeout acc w'.
Proof.
  intros HW. unfold wakeCancel. destruct (w_heap w !! p) as [[pa ph]|] eqn:Hp; [|done].
  destruct (winv_heap _ _ _ HW p pa ph Hp) as (_ & Hlife & _).
  destruct ph as [|timer| |]; [done| |done..].
  intros [= <-]. winv_update HW Hp. done.
Qed.

Lemma finishResult_ok k :
  phase_ok timeout 0 (Returned (finishResult timeout k)) /\
  decided (Returned (finishResult timeout k)) = decided (Woken k).
Proof. destruct k as [d| |]; simpl; [|done..]. by destruct (ad_Approved d) eqn:?. Qed.

Lemma Winv_finish p w w' :
  Winv timeout acc w -> suspendFinish p w = Next w' -> Winv timeout acc w'.
Proof.
  intros HW. unfold suspendFinish. destruct (w_heap w !! p) as [[pa ph]|] eqn:Hp; [|done].
  destruct (winv_heap _ _ _ HW p pa ph Hp) as (Hid & Hlife & _).
  destruct ph as [| |k|]; [done..| |done]. intros [= <-].
  destruct (finishResult_ok k) as [Hok Hdec].
  rewrite <-(winv_timeout _ _ _ HW) in Hdec. winv_update HW Hp.
  - apply delete_subseteq.
  - by destruct k.
  - by destruct k.
  - by rewrite (winv_timeout _ _ _ HW).
  - rewrite <-Hid, lookup_delete_eq, bool_decide_eq_false_2 by done.
  replace (pa_resultCh (finishStatus k pa)) with (pa_resultCh pa) by (by destruct k).
  rewrite Hdec. by eapply Life_unmap.
Qed.

Lemma Winv_take id d w :
  Winv timeout acc w ->
  let '(w', r) := takeEntry id d w in
  Winv timeout (acc ++ match r with Some p => [(p, d)] | None => [] end) w'.
Proof.
  intros HW. unfold takeEntry. destruct (g_pending (w_gate w) !! id) as [p|] eqn:Hid.
  2: by rewrite app_nil_r.
  destruct (winv_pending _ _ _ HW id p Hid) as (pa & ph & Hp & Hpid).
  destruct (winv_heap _ _ _ HW p pa ph Hp) as (Hcid & Hlife & Hok).
  eapply (Winv_update _ _ _ _ _ _ _ _ pa ph HW Hp); simpl; [done|done| | |done|done| |done|].
  - apply delete_subseteq.
  - by rewrite list_insert_id.
  - intros q Hq. rewrite !dec_of_app, !dec_of_single, decide_False, !app_nil_r by done. done.
  - rewrite !dec_of_app, !dec_of_single, decide_True by done.
  rewrite Hpid, lookup_delete_eq, bool_decide_eq_false_2 by done.
  rewrite bool_decide_eq_true_2 in Hlife by congruence.
  revert Hlife. remember true as b eqn:Hb. destruct 1; try done. constructor.
Qed.

Lemma delete_dec_of i p d l q :
  l !! i = Some (p, d) ->
  dec_of q l ≡ₚ (if decide (p = q) then [d] else []) ++ dec_of q (delete i l).
Proof.
  intros Hi. etrans; [by apply dec_of_proper, (delete_Permutation l i (p, d))|].
  unfold dec_of. rewrite filter_cons. simpl. by case_decide.
Qed.

Lemma delete_dec_of_ne i p d l q :
  l !! i = Some (p, d) -> q <> p -> dec_of q (delete i l) = dec_of q l.
Proof.
  revert i. induction l as [|[p' d'] l IH]; intros [|i] Hi Hne; [done..| |].
  - simplify_eq/=. rewrite dec_of_cons. by rewrite decide_False.
  - change (delete (S i) ((p', d') :: l)) with ((p', d') :: delete i l).
  by rewrite !dec_of_cons, (IH i).
Qed.

Lemma Winv_send i w w' :
  Winv timeout acc w -> sendDecision i w = Next w' -> Winv timeout acc w'.
Proof.
  intros HW. unfold sendDecision. destruct (w_senders w !! i) as [[p d]|] eqn:Hi; [|done].
  destruct (w_heap w !! p) as [[pa ph]|] eqn:Hp; [|done].
  destruct (winv_heap _ _ _ HW p pa ph Hp) as (_ & Hlife & Hok).
  pose proof (delete_dec_of i p d _ p Hi) as Hperm. rewrite decide_True in Hperm by done.
  destruct (chan_send d (pa_resultCh pa)) as [c| |] eqn:Hs; [|done..].
  intros [= <-]. winv_update HW Hp.
  - intros q Hq. split; [done|]. by eapply delete_dec_of_ne.
  - unfold chan_send in Hs. revert Hperm. remember (dec_of p (w_senders w)) as S eqn:HS.
  destruct Hlife; intros Hperm; simplify_eq/=;
    try (apply Permutation_nil in Hperm; simplify_eq/=).
  apply Permutation_length_1_inv in Hperm. simplify_eq/=.
  replace (dec_of p (delete i (w_senders w))) with (@nil ApprovalDecision) by done.
  constructor.
Qed.

(** [Cleanup] never closes a channel twice. *)
Lemma Cleanup_ok order w :
  Winv timeout acc w -> NoDup order.*1 ->
  (forall id p, (id, p) ∈ order -> g_pending (w_gate w) !! id = Some p) ->
  exists w', Cleanup order w = Next w' /\ Winv timeout acc w'.
Proof.
  revert w. induction order as [|[id p] order IH]; intros w HW Hnd Hin; [by exists w|].
  apply NoDup_cons in Hnd as [Hid Hnd].
  assert (g_pending (w_gate w) !! id = Some p) as Hpend by (apply Hin; left).
  destruct (winv_pending _ _ _ HW id p Hpend) as (pa & ph & Hp & Hpid).
  destruct (winv_heap _ _ _ HW p pa ph Hp) as (_ & Hlife & Hok).
  unfold Cleanup. simpl. rewrite Hp. destruct (_ <? _)%Z.
  2: { apply IH; [done..|]. intros id' p' Hin'. apply Hin. by right. }
  rewrite bool_decide_eq_true_2 in Hlife by congruence.
  remember true as b eqn:Hb. destruct (pa_resultCh pa) as [buf cl].
  inversion Hlife; subst; simplify_eq; try done.
  apply IH; [|done|].
  - winv_update HW Hp; [apply delete_subseteq|].
    rewrite lookup_delete_eq, bool_decide_eq_false_2 by done.
    repeat match goal with H : [] = dec_of _ _ |- _ => rewrite <-H
                         | H : None = decided _ |- _ => rewrite <-H end.
    constructor. by left.
  - simpl. intros id' p' Hin'. rewrite lookup_delete_ne; [apply Hin; by right|].
    intros Heq. apply Hid. apply list_elem_of_fmap. by exists (id', p').
Qed.
End steps.

(** ** Every reachable world *)

Lemma accepted_snoc h e r :
  accepted (h ++ [(e, r)]) =
  accepted h ++ match decision_of e, r with Some d, Some p => [(p, d)] | _, _ => [] end.
Proof.
  unfold accepted. rewrite omap_app. f_equal. simpl.
  by destruct (decision_of e) as [d|], r as [p|].
Qed.

Lemma reach_Winv timeout start h w :
  reach timeout start h w -> Winv (g_timeout (NewApprovalGate timeout)) (accepted h) w.
Proof.
  induction 1 as [|h w e w' r Hreach IH Hfair Hstep].
  - constructor; simpl; [done|set_solver|done|done].
  - assert (forall o, no_reply o = Next (w', r) -> o = Next w' /\ r = None) as Hno
      by (intros []; naive_solver).
    rewrite accepted_snoc.
    destruct e; cbn [gate_step decision_of] in *;
      try (apply Hno in Hstep as [Hstep ->]; rewrite app_nil_r).
    + injection Hstep as <-. by apply Winv_register.
    + by eapply Winv_select.
    + by eapply Winv_decision.
    + by eapply Winv_timeout.
    + by eapply Winv_cancel.
    + by eapply Winv_finish.
    + pose proof (Winv_take cmdID (mkDecision true addToWhitelist "") w IH) as Ht.
      unfold Approve in Hstep. destruct (takeEntry _ _ _). by simplify_eq.
    + pose proof (Winv_take cmdID (mkDecision false false reason) w IH) as Ht.
      unfold Deny in Hstep. destruct (takeEntry _ _ _). by simplify_eq.
    + by eapply Winv_send.
    + destruct (Cleanup_ok order w IH) as (w2 & Hw2 & HW2); [..|congruence].
      * simpl in Hfair. rewrite Hfair. apply NoDup_fst_map_to_list.
      * intros id p. simpl in Hfair. rewrite Hfair. apply elem_of_map_to_list.
    + injection Hstep as <-. simpl in Hfair. destruct IH as [H1 H2 H3 H4].
      constructor; simpl; [done..| |done].
      intros p pa ph Hp. destruct (H3 p pa ph Hp) as (? & ? & Hok).
      split_and!; [done..|]. destruct ph; simpl in *; try done. lia.
Qed.

(** A suspension keeps its command and its ID, and once returned its result. *)
Definition extends (w w' : World) : Prop :=
  forall p pa ph, w_heap w !! p = Some (pa, ph) ->
  exists pa' ph', w_heap w' !! p = Some (pa', ph') /\
    pa_Command pa' = pa_Command pa /\ pa_ID pa' = pa_ID pa /\ (forall r, ph = Returned r -> ph' = ph).

#[global] Instance extends_preorder : PreOrder extends.
Proof.
  split; [by repeat eexists|]. intros w1 w2 w3 H12 H23 p pa ph Hp.
  destruct (H12 p pa ph Hp) as (pa2 & ph2 & Hp2 & Hc & Hi & Hr).
  destruct (H23 p pa2 ph2 Hp2) as (pa3 & ph3 & Hp3 & Hc' & Hi' & Hr').
  exists pa3, ph3. split_and!; [congruence..|]. intros r ->. rewrite (Hr r) in * by done. by eapply Hr'.
Qed.

Lemma extends_update w w' p pa ph pa' ph' :
  w_heap w !! p = Some (pa, ph) -> w_heap w' = <[p := (pa', ph')]> (w_heap w) ->
  pa_Command pa' = pa_Command pa -> pa_ID pa' = pa_ID pa -> (forall r, ph = Returned r -> ph' = ph) -> extends w w'.
Proof.
  intros Hp Hh Hc Hi Hr q qa qh Hq. rewrite Hh. destruct (decide (q = p)) as [->|Hne].
  - rewrite list_lookup_insert_eq by (by eapply lookup_lt_Some). simplify_eq.
    by repeat eexists.
  - rewrite list_lookup_insert_ne by done. by repeat eexists.
Qed.

Lemma extends_heap w w' l : w_heap w' = w_heap w ++ l -> extends w w'.
Proof.
  intros Hh p pa ph Hp. rewrite Hh. exists pa, ph. by rewrite (lookup_app_l_Some _ _ _ _ Hp).
Qed.

Lemma extends_cleanup order w w' : Cleanup order w = Next w' -> extends w w'.
Proof.
  revert w. induction order as [|[id p] order IH]; intros w; [by intros [= ->]|].
  assert (forall o, (forall v, o <> Next v) -> foldl cleanupEntry o order <> Next w') as Hstuck.
  { clear. intros o. revert o. induction order as [|e l IHl]; intros o Ho; simpl; [apply Ho|].
    destruct o; [by destruct (Ho a)|by apply IHl..]. }
  unfold Cleanup in *. simpl. destruct (w_heap w !! p) as [[pa ph]|] eqn:Hp; [|apply IH].
  destruct (_ <? _)%Z; [|apply IH].
  destruct (chan_close (pa_resultCh pa)) as [c| |]; [|by intros []%Hstuck..].
  intros Hf. etrans; [|by apply (IH _ Hf)]. by eapply extends_update.
Qed.

(** A step of a goroutine that holds one suspension. *)
Ltac one_suspension H :=
  repeat match type of H with
  | match ?x with _ => _ end = _ => destruct x eqn:?; try discriminate H
  | (if ?x then _ else _) = _ => destruct x eqn:?; try discriminate H
  end; injection H as <-; eapply extends_update; [eassumption|done|..].

Lemma extends_step e w w' r : gate_step e w = Next (w', r) -> extends w w'.
Proof.
  assert (forall o, no_reply o = Next (w', r) -> o = Next w') as Hno
    by (intros []; naive_solver).
  destruct e; cbn [gate_step]; intros H; try apply Hno in H.
  - injection H as <-. by eapply extends_heap.
  - unfold suspendSelect in H. by one_suspension H.
  - unfold wakeDecision in H. by one_suspension H.
  - unfold wakeTimeout in H. by one_suspension H.
  - unfold wakeCancel in H. by one_suspension H.
  - unfold suspendFinish in H. one_suspension H; by destruct w0.
  - unfold Approve, takeEntry in H. apply (extends_heap _ _ []). rewrite app_nil_r.
    destruct (_ !! _); by simplify_eq/=.
  - unfold Deny, takeEntry in H. apply (extends_heap _ _ []). rewrite app_nil_r.
    destruct (_ !! _); by simplify_eq/=.
  - unfold sendDecision in H. by one_suspension H.
  - by eapply extends_cleanup.
  - injection H as <-. apply (extends_heap _ _ []). by rewrite app_nil_r.
Qed.

(** The call that was accepted named the suspension's command. *)
Lemma accepted_target timeout start h w e p :
  reach timeout start h w -> (e, Some p) ∈ h ->
  exists pa ph, w_heap w !! p = Some (pa, ph) /\
    match e with EApprove id _ | EDeny id _ => c_ID (pa_Command pa) = id | _ => False end.
Proof.
  induction 1 as [|h w e' w' r Hreach IH Hfair Hstep]; [by intros ?%not_elem_of_nil|].
  pose proof (extends_step _ _ _ _ Hstep) as Hext.
  rewrite elem_of_app. intros [Hin|Heq%list_elem_of_singleton].
  - destruct (IH Hin) as (pa & ph & Hp & Hid).
    destruct (Hext p pa ph Hp) as (pa' & ph' & Hp' & Hc & _). exists pa', ph'. by rewrite Hc.
  - injection Heq as <- <-. pose proof (reach_Winv _ _ _ _ Hreach) as HW.
    assert (forall id d, takeEntry id d w = (w', Some p) ->
      exists pa ph, w_heap w' !! p = Some (pa, ph) /\ c_ID (pa_Command pa) = id) as Htake.
    { intros id d. unfold takeEntry. destruct (_ !! id) as [q|] eqn:Hq; [|done].
      intros [= <- <-]. destruct (winv_pending _ _ _ HW id q Hq) as (pa & ph & Hp & Hid).
      exists pa, ph. split; [done|]. destruct (winv_heap _ _ _ HW q pa ph Hp) as (H1 & _).
      congruence. }
    assert (forall o, no_reply o <> Next (w', Some p)) as Hno by (by intros []).
    destruct e; cbn [gate_step] in Hstep; try (by apply Hno in Hstep).
    + injection Hstep as Ht. by apply Htake in Ht.
    + injection Hstep as Ht. by apply Htake in Ht.
Qed.

Lemma Life_accepted b A S c od : Life b A S c od -> length A <= 1.
Proof. destruct 1; simpl; lia. Qed.

Lemma dec_of_NoDup l : (forall p, length (dec_of p l) <= 1) -> NoDup l.*1.
Proof.
  induction l as [|[p d] l IH]; intros Hl; simpl; [constructor|].
  apply NoDup_cons. split.
  - intros ([q d'] & -> & Hin)%list_elem_of_fmap. simpl in *.
    specialize (Hl q). rewrite dec_of_cons, decide_True, length_app in Hl by done.
    apply dec_of_elem in Hin. destruct (dec_of q l); [by apply not_elem_of_nil in Hin|].
    simpl in Hl. lia.
  - apply IH. intros q. specialize (Hl q). rewrite dec_of_cons, length_app in Hl. lia.
Qed.

Lemma Winv_accepted_once timeout acc w : Winv timeout acc w -> NoDup acc.*1.
Proof.
  intros HW. apply dec_of_NoDup. intros p.
  destruct (w_heap w !! p) as [[pa ph]|] eqn:Hp.
  - destruct (winv_heap _ _ _ HW p pa ph Hp) as (_ & Hl & _). by eapply Life_accepted.
  - apply lookup_ge_None in Hp. destruct (winv_fresh _ _ _ HW p Hp) as [-> _]. simpl. lia.
Qed.

Lemma send_enabled timeout acc w i p d :
  Winv timeout acc w -> w_senders w !! i = Some (p, d) ->
  exists w', sendDecision i w = Next w'.
Proof.
  intros HW Hi. unfold sendDecision. rewrite Hi.
  assert (d ∈ dec_of p (w_senders w)) as Hd
    by (apply dec_of_elem; by eapply list_elem_of_lookup_2).
  destruct (w_heap w !! p) as [[pa ph]|] eqn:Hp.
  2: { apply lookup_ge_None in Hp. destruct (winv_fresh _ _ _ HW p Hp) as [_ Hs].
       rewrite Hs in Hd. by apply not_elem_of_nil in Hd. }
  destruct (winv_heap _ _ _ HW p pa ph Hp) as (_ & Hl & _).
  revert Hd. destruct Hl; intros Hd; try (by apply not_elem_of_nil in Hd).
  by eexists.
Qed.

Lemma no_panic timeout start h w e :
  reach timeout start h w -> fair e w -> gate_step e w <> Panics.
Proof.
  intros Hreach Hfair. pose proof (reach_Winv _ _ _ _ Hreach) as HW.
  assert (forall o, o <> Panics -> no_reply o <> Panics) as Hno by (by intros []).
  destruct e; cbn [gate_step]; try (by intros ?).
  - apply Hno. unfold suspendSelect. by repeat case_match.
  - apply Hno. unfold wakeDecision, chan_recv. repeat case_match; congruence.
  - apply Hno. unfold wakeTimeout. by repeat case_match.
  - apply Hno. unfold wakeCancel. by repeat case_match.
  - apply Hno. unfold suspendFinish. by repeat case_match.
  - apply Hno. destruct (w_senders w !! i) as [[p d]|] eqn:Hi.
    + destruct (send_enabled _ _ _ _ _ _ HW Hi) as [w' ->]. done.
    + unfold sendDecision. by rewrite Hi.
  - apply Hno. simpl in Hfair. destruct (Cleanup_ok order w HW) as (w' & -> & _); [..|done].
    + rewrite Hfair. apply NoDup_fst_map_to_list.
    + intros id p. rewrite Hfair. apply elem_of_map_to_list.
Qed.

(** The decision a suspension has read is an accepted one, or the zero value of
    a channel that [Cleanup] closed. *)
Lemma decided_accepted timeout start h w p pa ph d :
  reach timeout start h w -> w_heap w !! p = Some (pa, ph) -> decided ph = Some d ->
  (p, d) ∈ accepted h \/ d = zeroDecision.
Proof.
  intros Hreach Hp Hd. pose proof (reach_Winv _ _ _ _ Hreach) as HW.
  destruct (winv_heap _ _ _ HW p pa ph Hp) as (_ & Hl & _). rewrite Hd in Hl.
  rewrite <-dec_of_elem. remember (Some d) as od eqn:Hod.
  destruct Hl as [|od [|]| | |]; simplify_eq; [by right|]. left. by left.
Qed.

(** C9 In every interleaving of suspensions, approvals, denials, cleanups and
    timeouts: no step panics (no send on a closed channel, no channel closed
    twice) and the send of an accepted decision never blocks; at most one
    decision is accepted for a suspension, and it names the command; and
    [Suspend] returns success only with the decision of an accepted [Approve],
    a denial only with a refusing decision, accepted or left by a closed channel. *)
Theorem gate_decides_once timeout start h w :
  reach timeout start h w ->
  (forall e, fair e w -> gate_step e w <> Panics) /\
  (forall i p d, w_senders w !! i = Some (p, d) -> exists w', sendDecision i w = Next w') /\
  NoDup (accepted h).*1 /\
  (forall e p, (e, Some p) ∈ h -> exists pa ph, w_heap w !! p = Some (pa, ph) /\
     match e with EApprove id _ | EDeny id _ => c_ID (pa_Command pa) = id | _ => False end) /\
  (forall p pa d, w_heap w !! p = Some (pa, Returned (RApproved d)) ->
     (p, d) ∈ accepted h /\ ad_Approved d = true) /\
  (forall p pa d reason, w_heap w !! p = Some (pa, Returned (RDenied d reason)) ->
     ((p, d) ∈ accepted h \/ d = zeroDecision) /\ ad_Approved d = false).
Proof.
  intros Hreach. pose proof (reach_Winv _ _ _ _ Hreach) as HW. split_and!.
  - intros e. by eapply no_panic.
  - intros i p d. by eapply send_enabled.
  - by eapply Winv_accepted_once.
  - intros e p. by eapply accepted_target.
  - intros p pa d Hp. destruct (winv_heap _ _ _ HW p _ _ Hp) as (_ & _ & Hok). simpl in Hok.
    split; [|done]. by destruct (decided_accepted _ _ _ _ _ _ _ d Hreach Hp) as [| ->].
  - intros p pa d reason Hp. destruct (winv_heap _ _ _ HW p _ _ Hp) as (_ & _ & Hok).
    split; [|done]. by eapply decided_accepted.
Qed.

(** ** Waiting commands stay approvable *)

(** No two suspensions share a command ID. *)
Definition distinct (w : World) : Prop :=
  forall p q pa pb ph ph', w_heap w !! p = Some (pa, ph) -> w_heap w !! q = Some (pb, ph') ->
  pa_ID pa = pa_ID pb -> p = q.

(** Blocked in [Suspend], no decision accepted and not cleaned up. *)
Definition undecided (acc : list (nat * ApprovalDecision)) (p : nat) (pa : PendingApproval)
    (ph : Phase) : Prop :=
  waiting ph = true /\ ch_closed (pa_resultCh pa) = false /\ dec_of p acc = [].

Definition Open (acc : list (nat * ApprovalDecision)) (w : World) : Prop :=
  forall p pa ph, w_heap w !! p = Some (pa, ph) -> undecided acc p pa ph ->
  g_pending (w_gate w) !! pa_ID pa = Some p.

Lemma distinct_extends w w' : extends w w' -> distinct w' -> distinct w.
Proof.
  intros Hext Hd p q pa pb ph ph' Hp Hq Hid.
  destruct (Hext _ _ _ Hp) as (pa2 & ph2 & Hp2 & _ & Hi2 & _).
  destruct (Hext _ _ _ Hq) as (pb2 & ph3 & Hq2 & _ & Hi3 & _).
  apply (Hd p q pa2 pb2 ph2 ph3 Hp2 Hq2). congruence.
Qed.

Lemma Open_update acc acc' w w' p pa ph pa' ph' :
  Open acc w -> distinct w -> w_heap w !! p = Some (pa, ph) ->
  w_heap w' = <[p := (pa', ph')]> (w_heap w) -> pa_ID pa' = pa_ID pa ->
  (undecided acc' p pa' ph' ->
   undecided acc p pa ph /\
   g_pending (w_gate w') !! pa_ID pa = g_pending (w_gate w) !! pa_ID pa) ->
  (forall id, id <> pa_ID pa -> g_pending (w_gate w') !! id = g_pending (w_gate w) !! id) ->
  (forall q, q <> p -> dec_of q acc' = dec_of q acc) ->
  Open acc' w'.
Proof.
  intros HO Hd Hp Hh Hid Hund Hpend Hacc q qa qh. rewrite Hh.
  destruct (decide (q = p)) as [->|Hne].
  - rewrite list_lookup_insert_eq by (by eapply lookup_lt_Some). intros [= <- <-] Hu.
    apply Hund in Hu as [Hu Heq]. rewrite Hid, Heq. by eapply HO.
  - rewrite list_lookup_insert_ne by done. intros Hq Hu. rewrite Hpend.
    + eapply HO; [done|]. unfold undecided in *. by rewrite <-Hacc.
    + intros Heq. apply Hne. by eapply (Hd q p).
Qed.

Lemma Open_register acc sid cmd reason w :
  Open acc w -> distinct (suspendRegister sid cmd reason w) ->
  Open acc (suspendRegister sid cmd reason w).
Proof.
  intros HO Hd p pa ph Hp Hu.
  destruct (decide (p = length (w_heap w))) as [->|Hne]; simpl in Hp.
  - rewrite list_lookup_middle in Hp by done. injection Hp as <- <-. simpl.
    by rewrite lookup_insert_eq.
  - assert (w_heap w !! p = Some (pa, ph)) as Hold.
    { apply lookup_app_Some in Hp as [|[Hlen Hp]]; [done|].
      apply list_lookup_singleton_Some in Hp as [? _]. lia. }
    simpl. rewrite lookup_insert_ne; [by eapply HO|].
    intros Heq. apply Hne.
    eapply (Hd p (length (w_heap w)) pa _ ph _); simpl;
      [done|by rewrite list_lookup_middle|done].
Qed.

Lemma Open_take acc id d w :
  Open acc w ->
  let '(w', r) := takeEntry id d w in
  Open (acc ++ match r with Some p => [(p, d)] | None => [] end) w'.
Proof.
  intros HO. unfold takeEntry. destruct (g_pending (w_gate w) !! id) as [p|] eqn:Hid.
  2: by rewrite app_nil_r.
  intros q qa qh Hq (Hw & Hc & Ha). simpl in *.
  rewrite dec_of_app, dec_of_single in Ha. apply app_eq_nil in Ha as [Ha Hp].
  destruct (decide (p = q)) as [|Hne]; [done|].
  assert (g_pending (w_gate w) !! pa_ID qa = Some q) as Hpend by (by eapply HO).
  rewrite lookup_delete_ne; [done|]. intros ->. congruence.
Qed.

Lemma Open_cleanup acc order w w' :
  Open acc w -> distinct w' ->
  (forall id p, (id, p) ∈ order -> exists pa ph, w_heap w !! p = Some (pa, ph) /\ pa_ID pa = id) ->
  Cleanup order w = Next w' -> Open acc w'.
Proof.
  revert w. induction order as [|[id p] order IH]; intros w HO Hd Hin; [by intros [= ->]|].
  intros Hc. pose proof (extends_cleanup _ _ _ Hc) as Hext. revert Hc.
  destruct (Hin id p ltac:(left)) as (pa & ph & Hp & Hid).
  assert (forall id p, (id, p) ∈ order ->
    exists pa ph, w_heap w !! p = Some (pa, ph) /\ pa_ID pa = id) as Hin'.
  { intros ???. apply Hin. by right. }
  unfold Cleanup. simpl. rewrite Hp. destruct (_ <? _)%Z; [|by apply IH].
  assert (forall o, (forall v, o <> Next v) -> foldl cleanupEntry o order <> Next w') as Hstuck.
  { clear. intros o. revert o. induction order as [|e l IHl]; intros o Ho; simpl; [apply Ho|].
    destruct o; [by destruct (Ho a)|by apply IHl..]. }
  unfold chan_close. destruct (ch_closed (pa_resultCh pa)) eqn:Hcl; [by intros []%Hstuck|].
  apply IH; [|done|].
  - eapply (Open_update acc acc w); [done|by eapply distinct_extends|done..| | |done]; simpl.
    + by intros (_ & ? & _).
    + intros id' Hne. rewrite lookup_delete_ne by congruence. done.
  - simpl. intros id' q Hq. destruct (Hin' id' q Hq) as (qa & qh & Hq1 & Hq2).
    destruct (decide (q = p)) as [->|Hne].
    + rewrite list_lookup_insert_eq by (by eapply lookup_lt_Some). simplify_eq.
      by repeat eexists.
    + rewrite list_lookup_insert_ne by done. eauto.
Qed.

Ltac open_update HO Hd Hp :=
  eapply (Open_update _ _ _ _ _ _ _ _ _ HO Hd Hp); simpl; [done|try done|try done|try done|done].

Lemma Open_send acc i w w' :
  Open acc w -> distinct w -> Winv (g_timeout (w_gate w)) acc w ->
  sendDecision i w = Next w' -> Open acc w'.
Proof.
  intros HO Hd HW. unfold sendDecision. destruct (w_senders w !! i) as [[p d]|] eqn:Hi; [|done].
  destruct (w_heap w !! p) as [[pa ph]|] eqn:Hp; [|done].
  destruct (chan_send d (pa_resultCh pa)) as [c| |] eqn:Hs; [|done..]. intros [= <-].
  open_update HO Hd Hp. intros (Hw & Hc & Ha). split; [|done]. split_and!; [done| |done].
  unfold chan_send in Hs. by destruct (ch_closed (pa_resultCh pa)).
Qed.

Lemma reach_Open timeout start h w :
  reach timeout start h w -> distinct w -> Open (accepted h) w.
Proof.
  induction 1 as [|h w e w' r Hreach IH Hfair Hstep]; intros Hd; [by intros ???|].
  pose proof (distinct_extends _ _ (extends_step _ _ _ _ Hstep) Hd) as Hd0.
  specialize (IH Hd0). pose proof (reach_Winv _ _ _ _ Hreach) as HW.
  assert (forall o, no_reply o = Next (w', r) -> o = Next w' /\ r = None) as Hno
    by (intros []; naive_solver).
  rewrite accepted_snoc.
  destruct e; cbn [gate_step decision_of] in *;
    try (apply Hno in Hstep as [Hstep ->]; rewrite app_nil_r).
  - injection Hstep as <-. by apply Open_register.
  - unfold suspendSelect in Hstep. destruct (w_heap w !! p) as [[pa []]|] eqn:Hp; simplify_eq.
    open_update IH Hd0 Hp.
  - unfold wakeDecision in Hstep. destruct (w_heap w !! p) as [[pa []]|] eqn:Hp; simplify_eq.
    destruct (chan_recv _) as [[]| |]; simplify_eq. open_update IH Hd0 Hp. by intros [].
  - unfold wakeTimeout in Hstep. destruct (w_heap w !! p) as [[pa []]|] eqn:Hp; simplify_eq.
    destruct (_ <=? _)%Z; simplify_eq. open_update IH Hd0 Hp. by intros [].
  - unfold wakeCancel in Hstep. destruct (w_heap w !! p) as [[pa []]|] eqn:Hp; simplify_eq.
    open_update IH Hd0 Hp. by intros [].
  - unfold suspendFinish in Hstep. destruct (w_heap w !! p) as [[pa []]|] eqn:Hp; simplify_eq.
    destruct (winv_heap _ _ _ HW p _ _ Hp) as (Hid & _ & _).
    open_update IH Hd0 Hp; [by destruct w0|by intros []|].
    intros id Hne. rewrite lookup_delete_ne by congruence. done.
  - pose proof (Open_take _ cmdID (mkDecision true addToWhitelist "") w IH) as Ht.
    unfold Approve in Hstep. destruct (takeEntry _ _ _). by simplify_eq.
  - pose proof (Open_take _ cmdID (mkDecision false false reason) w IH) as Ht.
    unfold Deny in Hstep. destruct (takeEntry _ _ _). by simplify_eq.
  - eapply Open_send; [done..| |done]. by rewrite (winv_timeout _ _ _ HW).
  - eapply Open_cleanup; [done..| |done]. simpl in Hfair. intros id p.
    rewrite Hfair, elem_of_map_to_list. by apply HW.
  - injection Hstep as <-. done.
Qed.

(** ** Progress *)

(** A schedule. *)
Fixpoint gate_run (es : list Event) (w : World) : outcome World :=
  match es with
  | [] => Next w
  | e :: es =>
      match gate_step e w with
      | Next (w, _) => gate_run es w
      | Blocked => Blocked
      | Panics => Panics
      end
  end.

(** What the goroutine of a suspension does when nobody decides. *)
Definition own_steps (p : nat) (ph : Phase) : list Event :=
  match ph with
  | Notifying => [ESelect p; ETick maxApprovalTimeout; ETimeout p; EFinish p]
  | Selecting _ => [ETick maxApprovalTimeout; ETimeout p; EFinish p]
  | Woken _ => [EFinish p]
  | Returned _ => []
  end.

Lemma clampTimeout_bounds t : (0 < clampTimeout t <= maxApprovalTimeout)%Z.
Proof.
  unfold clampTimeout. destruct (_ <? t)%Z eqn:?, (t <=? 0)%Z eqn:?; simpl; bool_props;
    (split; [|lia]); unfold maxApprovalTimeout, Minute, Second; lia.
Qed.

Lemma heap_insert_eq {A} (p : nat) (x y : A) (l : list A) : l !! p = Some y -> <[p := x]> l !! p = Some x.
Proof. intros Hp. apply list_lookup_insert_eq. by eapply lookup_lt_Some. Qed.

Lemma gate_run_cons e es w w1 r :
  gate_step e w = Next (w1, r) -> gate_run (e :: es) w = gate_run es w1.
Proof. intros H. simpl. by rewrite H. Qed.

Lemma select_run p es w pa :
  w_heap w !! p = Some (pa, Notifying) ->
  exists w1, gate_run (ESelect p :: es) w = gate_run es w1 /\ w_now w1 = w_now w /\
    w_heap w1 !! p = Some (pa, Selecting (w_now w + clampTimeout (g_timeout (w_gate w)))).
Proof.
  intros Hp. eexists. split; [|split].
  - apply (gate_run_cons _ _ _ _ None). cbn [gate_step]. unfold suspendSelect. by rewrite Hp.
  - done.
  - by apply (heap_insert_eq _ _ _ _ Hp).
Qed.

Lemma finish_run p w pa k :
  w_heap w !! p = Some (pa, Woken k) ->
  exists w' pa', gate_run [EFinish p] w = Next w' /\
    w_heap w' !! p = Some (pa', Returned (finishResult (g_timeout (w_gate w)) k)).
Proof.
  intros Hp. do 2 eexists. split.
  - simpl. unfold suspendFinish. by rewrite Hp.
  - by apply (heap_insert_eq _ _ _ _ Hp).
Qed.

Lemma timeout_run p w pa timer :
  w_heap w !! p = Some (pa, Selecting timer) -> (timer <= w_now w + maxApprovalTimeout)%Z ->
  exists w' pa' r, gate_run [ETick maxApprovalTimeout; ETimeout p; EFinish p] w = Next w' /\
    w_heap w' !! p = Some (pa', Returned r).
Proof.
  intros Hp Ht. erewrite gate_run_cons by done. erewrite (gate_run_cons (ETimeout p) _ _ _ None).
  2: { cbn [gate_step]. unfold wakeTimeout. cbn [w_heap w_now].
       rewrite Hp, (proj2 (Z.leb_le _ _) Ht). done. }
  match goal with |- context [gate_run [EFinish p] ?v] =>
    destruct (finish_run p v pa WTimeout) as (w' & pa' & Hrun & Hh) end; [|eauto].
  by apply (heap_insert_eq _ _ _ _ Hp).
Qed.

Lemma decision_run p w pa timer d :
  w_heap w !! p = Some (pa, Selecting timer) -> ch_buf (pa_resultCh pa) = Some d ->
  exists w' pa', gate_run [EDecision p; EFinish p] w = Next w' /\
    w_heap w' !! p = Some (pa', Returned (finishResult (g_timeout (w_gate w)) (WDecision d))).
Proof.
  intros Hp Hc. erewrite (gate_run_cons (EDecision p) _ _ _ None).
  2: { cbn [gate_step]. unfold wakeDecision, chan_recv. by rewrite Hp, Hc. }
  match goal with |- context [gate_run [EFinish p] ?v] =>
    apply (finish_run p v (with_chan (mkChan None (ch_closed (pa_resultCh pa))) pa)
             (WDecision d)) end.
  by apply (heap_insert_eq _ _ _ _ Hp).
Qed.

(** A decision taken for [p] and sent ends up in its channel. *)
Lemma approve_run id d p es w pa ph e :
  g_pending (w_gate w) !! id = Some p -> w_heap w !! p = Some (pa, ph) ->
  pa_resultCh pa = mkChan None false -> gate_step e w = Next (takeEntry id d w) ->
  exists w1, gate_run (e :: ESend (length (w_senders w)) :: es) w = gate_run es w1 /\
    w_heap w1 !! p = Some (with_chan (mkChan (Some d) false) pa, ph).
Proof.
  intros Hid Hp Hc He. unfold takeEntry in He. rewrite Hid in He. eexists. split.
  - rewrite (gate_run_cons _ _ _ _ _ He). apply (gate_run_cons _ _ _ _ None).
    cbn [gate_step]. unfold sendDecision. cbn [w_senders w_heap set_senders set_pending].
    rewrite list_lookup_middle by done. by rewrite Hp, Hc.
  - by apply (heap_insert_eq _ _ _ _ Hp).
Qed.

(** A command never stays at the gate for good: whatever has happened, the
    timer of a blocked [Suspend] is at most ten minutes away, and with no
    decision from anybody its own steps, with ten minutes passing, bring it back
    to its caller. *)
Theorem suspend_returns timeout start h w p pa ph :
  reach timeout start h w -> w_heap w !! p = Some (pa, ph) ->
  (forall timer, ph = Selecting timer -> (timer <= w_now w + maxApprovalTimeout)%Z) /\
  exists w' pa' r, gate_run (own_steps p ph) w = Next w' /\
    w_heap w' !! p = Some (pa', Returned r).
Proof.
  intros Hreach Hp. pose proof (reach_Winv _ _ _ _ Hreach) as HW.
  destruct (winv_heap _ _ _ HW p _ _ Hp) as (_ & _ & Hok).
  pose proof (clampTimeout_bounds (g_timeout (NewApprovalGate timeout))) as Hb. split.
  - intros timer ->. unfold phase_ok in Hok. lia.
  - destruct ph as [|timer|k|r]; cbn [own_steps].
    + destruct (select_run p [ETick maxApprovalTimeout; ETimeout p; EFinish p] w pa Hp)
        as (w1 & -> & Hnow & Hp1).
      eapply timeout_run; [done|]. rewrite Hnow, (winv_timeout _ _ _ HW). lia.
    + unfold phase_ok in Hok. eapply timeout_run; [done|lia].
    + destruct (finish_run _ _ _ _ Hp) as (w' & pa' & ? & ?). eauto.
    + by exists w, pa, r.
Qed.

(** As long as no two suspensions share a command ID, an operator can approve
    every waiting command: if it is blocked in [Suspend], was not decided and
    not cleaned up, then [Approve] with its ID is accepted, the decision is
    delivered, and [Suspend] can return it. *)
Theorem waiting_can_be_approved timeout start h w p pa ph wl :
  reach timeout start h w -> distinct w -> w_heap w !! p = Some (pa, ph) ->
  undecided (accepted h) p pa ph ->
  exists w' pa',
    gate_run ([EApprove (c_ID (pa_Command pa)) wl; ESend (length (w_senders w))] ++
              match ph with Notifying => [ESelect p] | _ => [] end ++
              [EDecision p; EFinish p]) w = Next w' /\
    w_heap w' !! p = Some (pa', Returned (RApproved (mkDecision true wl ""))).
Proof.
  intros Hreach Hd Hp Hund. pose proof (reach_Winv _ _ _ _ Hreach) as HW.
  pose proof (reach_Open _ _ _ _ Hreach Hd p pa ph Hp Hund) as Hpend.
  destruct Hund as (Hwait & Hcl & Hacc).
  destruct (winv_heap _ _ _ HW p pa ph Hp) as (Hid & Hlife & _). rewrite Hacc in Hlife.
  assert (pa_resultCh pa = mkChan None false) as Hch.
  { remember [] as A. revert Hcl. destruct Hlife; simplify_eq/=; done. }
  cbn [app]. destruct (approve_run (c_ID (pa_Command pa)) (mkDecision true wl "") p
    (match ph with Notifying => [ESelect p] | _ => [] end ++ [EDecision p; EFinish p]) w pa ph
    (EApprove (c_ID (pa_Command pa)) wl)) as (w1 & -> & Hp1); [congruence|done..|].
  destruct ph as [|timer| |]; try done; cbn [app].
  - destruct (select_run p [EDecision p; EFinish p] _ _ Hp1) as (w2 & -> & _ & Hp2).
    by apply (decision_run _ _ _ _ (mkDecision true wl "") Hp2).
  - by apply (decision_run _ _ _ _ (mkDecision true wl "") Hp1).
Qed.

(** ** Examples *)

Definition ls : Command := mkCommand "c1" "ls" [] "" ∅ 0 0.
Definition rm : Command := mkCommand "c1" "rm" [] "" ∅ 0 0.

(** A schedule from the initial world, with the history. *)
Fixpoint gate_trace (es : list Event) (h : History) (w : World) : option (History * World) :=
  match es with
  | [] => Some (h, w)
  | e :: es =>
      match gate_step e w with
      | Next (w, r) => gate_trace es (h ++ [(e, r)]) w
      | _ => None
      end
  end.

Lemma gate_trace_reach timeout start es h w h' w' :
  Forall (fun e => match e with ECleanup _ => False | ETick d => (0 <= d)%Z | _ => True end) es ->
  reach timeout start h w -> gate_trace es h w = Some (h', w') -> reach timeout start h' w'.
Proof.
  intros Hes. revert h w. induction Hes as [|e es He Hes IH]; intros h w Hr; simpl.
  - by intros [= <- <-].
  - destruct (gate_step e w) as [[w1 r]| |] eqn:Hs; [|done..]. apply IH.
    econstructor; [done| |done]. by destruct e.
Qed.

Definition approved_run : list Event :=
  [ESuspend "s" ls NoReason; ESelect 0; EApprove "c1" true; ESend 0; EDecision 0; EFinish 0].
Definition waiting_run : list Event := [ESuspend "s" ls NoReason; ESelect 0].

Definition trace_of (es : list Event) : History * World :=
  default ([], initial 0 0) (gate_trace es [] (initial 0 0)).

Lemma trace_of_reach es :
  Forall (fun e => match e with ECleanup _ => False | ETick d => (0 <= d)%Z | _ => True end) es ->
  reach 0 0 (trace_of es).1 (trace_of es).2.
Proof.
  intros Hes. unfold trace_of. destruct (gate_trace _ _ _) as [[h w]|] eqn:Ht.
  - by eapply gate_trace_reach; [done|constructor|].
  - constructor.
Qed.

Lemma gate_decides_once_witness :
  exists pa d, w_heap (trace_of approved_run).2 !! 0 = Some (pa, Returned (RApproved d)) /\
    (0, d) ∈ accepted (trace_of approved_run).1.
Proof.
  assert (reach 0 0 (trace_of approved_run).1 (trace_of approved_run).2) as Hr
    by (apply trace_of_reach; repeat constructor).
  eexists _, _. split; [vm_compute; reflexivity|].
  refine (proj1 (proj1 (proj2 (proj2 (proj2 (proj2 (gate_decides_once 0 0 _ _ Hr))))) 0 _ _ _)).
  vm_compute; reflexivity.
Defined.

Lemma suspend_returns_witness :
  exists w' pa' r, gate_run (own_steps 0 (Selecting (5 * Minute))) (trace_of waiting_run).2 = Next w' /\
    w_heap w' !! 0 = Some (pa', Returned r).
Proof.
  assert (reach 0 0 (trace_of waiting_run).1 (trace_of waiting_run).2) as Hr
    by (apply trace_of_reach; repeat constructor).
  refine (proj2 (suspend_returns 0 0 _ _ 0 _ _ Hr _)). vm_compute; reflexivity.
Defined.

Lemma waiting_can_be_approved_witness :
  exists w' pa', gate_run [EApprove "c1" false; ESend 0; EDecision 0; EFinish 0]
                   (trace_of waiting_run).2 = Next w' /\
    w_heap w' !! 0 = Some (pa', Returned (RApproved (mkDecision true false ""))).
Proof.
  assert (reach 0 0 (trace_of waiting_run).1 (trace_of waiting_run).2) as Hr
    by (apply trace_of_reach; repeat constructor).
  refine (waiting_can_be_approved 0 0 _ _ 0
    (mkPA "c1" "s" ls NoReason StWaiting 0 (mkChan None false)) (Selecting (5 * Minute)) false
    Hr _ _ _).
  - intros [|p] [|q] pa pb ph ph' Hp Hq Hid; [reflexivity|vm_compute in Hq; discriminate Hq|
      vm_compute in Hp; discriminate Hp|vm_compute in Hp; discriminate Hp].
  - vm_compute; reflexivity.
  - split; [reflexivity|split; reflexivity].
Defined.

(** Two waiting commands with one ID: the second replaces the first in the map,
    and when the first times out it removes the second's entry, so the second
    can no longer be approved although it is still waiting. *)
Definition shared_id_run : list Event :=
  [ESuspend "s" ls NoReason; ESelect 0; ETick (4 * Minute); ESuspend "s" rm NoReason; ESelect 1;
   ETick Minute; ETimeout 0; EFinish 0].

Lemma shared_id_orphans :
  let w := (trace_of shared_id_run).2 in
  (exists pa timer, w_heap w !! 1 = Some (pa, Selecting timer) /\ pa_ID pa = "c1") /\
  (Approve "c1" false w).2 = None.
Proof. vm_compute. split; [|done]. by repeat eexists. Qed.

(** [Approve] reports success although [Suspend] returns a timeout: the decision
    sits in the channel when the [select] takes the timer. *)
Definition race_run : list Event :=
  [ESuspend "s" ls NoReason; ESelect 0; ETick (5 * Minute); EApprove "c1" false; ESend 0;
   ETimeout 0; EFinish 0].

Lemma approve_lost :
  let '(h, w) := trace_of race_run in
  length (accepted h) = 1 /\
  exists pa after, w_heap w !! 0 = Some (pa, Returned (RTimedOut after)).
Proof. vm_compute. split; [done|]. by repeat eexists. Qed.
