(* ===== verification/Executor.v ===== *)
(** * The executor ([src/internal/supervisor/exec.go])

    How commands get to a process: [Execute] and [ExecuteParallel] over the
    command proxy and the approval gate, and the resolution of the binary in
    [startProcess]. A gate is used through what [Suspend] returned; the theorems
    take those results from any reachable world of [ApprovalGate]. The kernel
    ([os.Stat], [exec]) is an argument. *)

From stdpp Require Import options.
From Stdlib Require Import Ascii.
From S2P Require Import Prelude GoStrings GoPath Filesystem Policy ApprovalGate.

(** ** Admission of one command *)

(** Where a command stands: it is started, refused, or parked at the gate. *)
Inductive Admission :=
  | Start (cmd : Command)
  | Refuse (reason : Reason + SuspendResult)
  | Park (reason : Reason).

(** [Execute] up to the gate. *)
Definition Execute (now : Z) (cmd : Command) (px : CommandProxy) : CommandProxy * Admission :=
  let '(px, v) := Validate now cmd px in
  match vr_Verdict v with
  | VerdictBlocked => (px, Refuse (inl (vr_Reason v)))
  | VerdictNeedsApproval => (px, Park (vr_Reason v))
  | VerdictAllowed => (px, Start cmd)
  end.

(** [Execute] after [Suspend] has returned. *)
Definition ExecuteResume (cmd : Command) (r : SuspendResult) (px : CommandProxy)
    : CommandProxy * Admission :=
  match r with
  | RApproved d =>
      (if ad_AddToWhitelist d then AddToWhitelist (Base (c_Command cmd)) px else px, Start cmd)
  | _ => (px, Refuse (inr r))
  end.

(** ** A batch *)

Inductive BatchError :=
  | BatchBlocked (cmd : Command) (reason : Reason)
  | BatchRefused (cmd : Command) (r : SuspendResult).

(** Phase 1: validate in order, stop at the first blocked command, collect those
    that need approval. *)
Fixpoint validateAll (now : Z) (commands : list Command) (px : CommandProxy)
    : CommandProxy * result BatchError (list Command) :=
  match commands with
  | [] => (px, Ok [])
  | cmd :: rest =>
      let '(px, v) := Validate now cmd px in
      match vr_Verdict v with
      | VerdictBlocked => (px, Err (BatchBlocked cmd (vr_Reason v)))
      | VerdictNeedsApproval =>
          let '(px, r) := validateAll now rest px in (px, cons cmd <$> r)
      | VerdictAllowed => validateAll now rest px
      end
  end.

(** Phase 2: the results of the gate in the order they arrive. *)
Fixpoint collectResults (results : list (Command * SuspendResult)) (px : CommandProxy)
    : CommandProxy * result BatchError unit :=
  match results with
  | [] => (px, Ok tt)
  | (cmd, RApproved d) :: rest =>
      collectResults rest
        (if ad_AddToWhitelist d then AddToWhitelist (Base (c_Command cmd)) px else px)
  | (cmd, r) :: _ => (px, Err (BatchRefused cmd r))
  end.

(** The commands that are started. [results] is what the gate returns for the
    commands that need approval. *)
Definition ExecuteParallel (now : Z) (commands : list Command)
    (results : list (Command * SuspendResult)) (px : CommandProxy)
    : CommandProxy * result BatchError (list Command) :=
  let '(px, r) := validateAll now commands px in
  match r with
  | Err e => (px, Err e)
  | Ok needsApproval =>
      let '(px, r) := collectResults results px in
      (px, match r with Ok _ => Ok commands | Err e => Err e end)
  end.

(** ** The binary of a process *)

(** [filepath.Join] of two elements and [filepath.SplitList]. *)
Definition JoinPath (a b : string) : string :=
  if String.eqb a "" then (if String.eqb b "" then "" else Clean b)
  else Clean (a +:+ "/" +:+ b).
Definition SplitList (path : string) : list string :=
  if String.eqb path "" then [] else Split path ":"%char.

(** The search of the first [PATH=] entry; [stat] says which files exist. *)
Definition searchDirs (stat : string -> bool) (cmdPath : string) (dirs : list string) : string :=
  match List.find (fun dir => stat (JoinPath dir cmdPath)) dirs with
  | Some dir => JoinPath dir cmdPath
  | None => cmdPath
  end.

Definition isPathEntry (e : string) : bool :=
  (5 <? String.length e) && String.eqb (take_str 5 e) "PATH=".

Definition resolveBinary (stat : string -> bool) (env : list string) (command : string) : string :=
  if HasPrefix command "/" then command
  else match List.find isPathEntry env with
       | Some e => searchDirs stat command (SplitList (drop_str 5 e))
       | None => command
       end.

(** ** Lemmas *)

(** Validation leaves the policy and the mode alone. *)
Lemma Validate_policy now cmd px :
  px_policy (Validate now cmd px).1 = px_policy px /\ px_mode (Validate now cmd px).1 = px_mode px.
Proof. validate_cases; done. Qed.

Lemma Validate_blacklist now cmd px :
  matchesBinary (Base (c_Command cmd)) (ep_BlockedCommands (px_policy px)) = true ->
  vr_Verdict (Validate now cmd px).2 = VerdictBlocked.
Proof. unfold Validate. by intros ->. Qed.

Lemma Validate_command now cmd px : vr_Command (Validate now cmd px).2 = cmd.
Proof. pose proof (Validate_approvals now cmd px) as H. by destruct (Validate _ _ _); destruct H. Qed.

(** The proxy let the command through, under the policy and mode of [px]. *)
Definition proxy_allows (now : Z) (cmd : Command) (px : CommandProxy) : Prop :=
  exists px', px_policy px' = px_policy px /\ px_mode px' = px_mode px /\
    vr_Verdict (Validate now cmd px').2 = VerdictAllowed.

Lemma proxy_allows_ext now cmd px px' :
  px_policy px' = px_policy px -> px_mode px' = px_mode px ->
  proxy_allows now cmd px' -> proxy_allows now cmd px.
Proof. intros Hp Hm (q & ? & ? & ?). exists q. split_and!; congruence. Qed.

Lemma validateAll_ok now commands px px' needs :
  validateAll now commands px = (px', Ok needs) ->
  Forall (fun cmd =>
    matchesBinary (Base (c_Command cmd)) (ep_BlockedCommands (px_policy px)) = false /\
    (cmd ∈ needs \/ proxy_allows now cmd px)) commands.
Proof.
  revert px px' needs. induction commands as [|cmd rest IH]; intros px px' needs; [constructor|].
  simpl. pose proof (Validate_policy now cmd px) as [Hp Hm].
  pose proof (Validate_blacklist now cmd px) as Hblack.
  destruct (Validate now cmd px) as [px1 v] eqn:Hv. cbn [fst snd] in *.
  assert (matchesBinary (Base (c_Command cmd)) (ep_BlockedCommands (px_policy px)) = false \/
          vr_Verdict v = VerdictBlocked) as Hb by (destruct (matchesBinary _ _); auto).
  assert (forall needs' : list Command, (forall c, c ∈ needs' -> c ∈ needs) ->
    Forall (fun c => matchesBinary (Base (c_Command c)) (ep_BlockedCommands (px_policy px1)) = false /\
                     (c ∈ needs' \/ proxy_allows now c px1)) rest ->
    Forall (fun c => matchesBinary (Base (c_Command c)) (ep_BlockedCommands (px_policy px)) = false /\
                     (c ∈ needs \/ proxy_allows now c px)) rest) as Hrest.
  { intros needs' Hsub Hall. eapply Forall_impl; [exact Hall|]. intros c [H1 H2].
    rewrite Hp in H1. split; [done|].
    destruct H2; [by left; auto|right; by eapply proxy_allows_ext]. }
  destruct (vr_Verdict v) eqn:Hvv; [|done|].
  - intros Hr. destruct Hb as [Hb|]; [|done]. constructor; [|by eapply Hrest; [|by eapply IH]].
    split; [done|]. right. exists px. by rewrite Hv.
  - destruct (validateAll now rest px1) as [px2 r] eqn:Hr. destruct r as [l|e]; [|done].
    intros [= <- <-]. destruct Hb as [Hb|]; [|done].
    constructor; [split; [done|left; left]|].
    eapply Hrest; [|by eapply IH]. intros c Hc. by right.
Qed.

Lemma collectResults_ok results px px' :
  collectResults results px = (px', Ok tt) ->
  Forall (fun cr => exists d, cr.2 = RApproved d) results.
Proof.
  revert px. induction results as [|[cmd r] rest IH]; intros px; [constructor|].
  simpl. destruct r; [|done..]. intros Hc. constructor; [by eexists|by eapply IH].
Qed.

(** The results come from the gate: each is what some suspension of that command
    returned. *)
Definition from_gate (w : World) (results : list (Command * SuspendResult)) : Prop :=
  Forall (fun cr => exists p pa, w_heap w !! p = Some (pa, Returned cr.2) /\
                                 pa_Command pa = cr.1) results.

(** An operator accepted the command. *)
Definition operator_approved (h : History) (w : World) (cmd : Command) : Prop :=
  exists p pa ph d, w_heap w !! p = Some (pa, ph) /\ pa_Command pa = cmd /\
    (p, d) ∈ accepted h /\ ad_Approved d = true.

Lemma from_gate_approved timeout start h w results :
  reach timeout start h w -> from_gate w results ->
  Forall (fun cr => exists d, cr.2 = RApproved d) results ->
  Forall (fun cr => operator_approved h w cr.1) results.
Proof.
  intros Hreach Hfrom Happ. unfold from_gate in Hfrom. rewrite Forall_forall in *.
  intros cr Hin. destruct (Hfrom cr Hin) as (p & pa & Hp & Hc).
  destruct (Happ cr Hin) as (d & Hd). rewrite Hd in Hp.
  pose proof (reach_Winv _ _ _ _ Hreach) as HW.
  destruct (winv_heap _ _ _ HW p _ _ Hp) as (_ & _ & Hok). simpl in Hok.
  destruct (decided_accepted _ _ _ _ _ _ _ d Hreach Hp) as [|Hz]; [done|..].
  - by exists p, pa, (Returned (RApproved d)), d.
  - by subst d.
Qed.

(** A batch starts only as a whole, and only with consent: when
    [ExecuteParallel] starts processes they are exactly the commands of the
    batch, none of them is black-listed, and each was allowed by the proxy or
    approved by an operator at the gate. *)
Theorem batch_needs_consent timeout start h w now commands results px px' started needs px1 :
  reach timeout start h w -> from_gate w results ->
  validateAll now commands px = (px1, Ok needs) -> results.*1 ≡ₚ needs ->
  ExecuteParallel now commands results px = (px', Ok started) ->
  started = commands /\
  Forall (fun cmd =>
    matchesBinary (Base (c_Command cmd)) (ep_BlockedCommands (px_policy px)) = false /\
    (proxy_allows now cmd px \/ operator_approved h w cmd)) commands.
Proof.
  intros Hreach Hfrom Hval Hperm. unfold ExecuteParallel. rewrite Hval.
  destruct (collectResults results px1) as [px2 r] eqn:Hc. destruct r as [[]|]; [|done].
  intros [= <- <-]. split; [done|].
  pose proof (from_gate_approved _ _ _ _ _ Hreach Hfrom (collectResults_ok _ _ _ Hc)) as Happ.
  eapply Forall_impl; [by eapply validateAll_ok|]. intros cmd [Hb Hor]. split; [done|].
  destruct Hor as [Hin|Hall]; [right|by left]. rewrite <-Hperm in Hin.
  apply list_elem_of_fmap in Hin as (cr & -> & Hin). rewrite Forall_forall in Happ. by apply Happ.
Qed.

(** ** Restricted resolution *)

(** The directories of [RestrictedPATH]. *)
Definition restrictedDirs (px : CommandProxy) : list string :=
  if 0 <? length (ep_AllowedCommands (px_policy px)) then ["/env/bin"]
  else ["/env/bin"; "/usr/local/bin"; "/usr/bin"; "/bin"].

Lemma JoinPath_plain dir c :
  dir ∈ ["/env/bin"; "/usr/local/bin"; "/usr/bin"; "/bin"] -> good_comp c ->
  JoinPath dir c = dir +:+ "/" +:+ c.
Proof.
  intros Hdir (H1 & H2 & H3 & Hs).
  assert (forall st, clean_step true st c = c :: st) as Hstep.
  { intros st. unfold clean_step. rewrite !bool_decide_eq_false_2 by naive_solver. done. }
  rewrite !elem_of_cons in Hdir. unfold JoinPath.
  destruct Hdir as [->|[->|[->|[->|?%not_elem_of_nil]]]]; [..|done]; simpl;
    (rewrite Clean_rooted by done); unfold clean_comps; simpl;
    rewrite (Split_no_sep c) by done; simpl; rewrite Hstep; done.
Qed.

Lemma path_dirs px : SplitList (RestrictedPATH px) = restrictedDirs px.
Proof. unfold RestrictedPATH, restrictedDirs. by destruct (0 <? _). Qed.

Lemma find_path_entry order px :
  List.find isPathEntry (ProcessEnv order px) = Some ("PATH=" +:+ RestrictedPATH px).
Proof. unfold ProcessEnv, RestrictedPATH. by destruct (0 <? _). Qed.

Lemma restrictedDirs_known px dir :
  dir ∈ restrictedDirs px -> dir ∈ ["/env/bin"; "/usr/local/bin"; "/usr/bin"; "/bin"].
Proof.
  unfold restrictedDirs. destruct (0 <? _); [|done]. intros ->%list_elem_of_singleton. left.
Qed.

(** Whatever environment a command asks for, a plain command name runs the
    first existing file of that name in the proxy's own directories (only
    [/env/bin] once there is a white list); if there is none the name itself is
    handed to the kernel. *)
Theorem plain_name_resolution stat order px c :
  good_comp c ->
  (exists i dir, restrictedDirs px !! i = Some dir /\ stat (dir +:+ "/" +:+ c) = true /\
     (forall j dir', j < i -> restrictedDirs px !! j = Some dir' ->
        stat (dir' +:+ "/" +:+ c) = false) /\
     resolveBinary stat (ProcessEnv order px) c = dir +:+ "/" +:+ c) \/
  (Forall (fun dir => stat (dir +:+ "/" +:+ c) = false) (restrictedDirs px) /\
   resolveBinary stat (ProcessEnv order px) c = c).
Proof.
  intros Hc. unfold resolveBinary.
  assert (HasPrefix c "/" = false) as ->.
  { apply not_true_iff_false. intros [t ->]%HasPrefix_spec. by destruct Hc as (_ & _ & _ & ?). }
  rewrite find_path_entry. change 5 with (String.length "PATH="). rewrite drop_str_app, path_dirs.
  unfold searchDirs. pose proof (fun d H => JoinPath_plain d c (restrictedDirs_known px d H) Hc) as Hj.
  revert Hj. generalize (restrictedDirs px) as dirs.
  induction dirs as [|dir dirs IH]; intros Hj; simpl; [by right|].
  rewrite Hj by left. destruct (stat (dir +:+ "/" +:+ c)) eqn:Hs.
  - left. exists 0, dir. rewrite Hj by left. split_and!; [done..| |done]. intros; lia.
  - destruct IH as [(i & d & Hd & Hst & Hpre & Heq)|(Hall & Heq)].
    + intros d Hd. apply Hj. by right.
    + left. exists (S i), d. split_and!; [done..| |done]. intros [|j] d' Hlt; simpl; [congruence|].
      apply Hpre. lia.
    + right. by split; [constructor|].
Qed.

(** ** Examples *)

Definition proxy0 : CommandProxy :=
  NewCommandProxy (withAllowed ["ls"] DefaultExecPolicy) ModeExecute.
Definition rm2 : Command := mkCommand "c2" "rm" [] "" ∅ 0 0.

Definition rm2_run : list Event :=
  [ESuspend "s" rm2 NoReason; ESelect 0; EApprove "c2" false; ESend 0; EDecision 0; EFinish 0].

Lemma batch_needs_consent_witness :
  exists px' started,
    ExecuteParallel 0 [ls; rm2] [(rm2, RApproved (mkDecision true false ""))] proxy0 = (px', Ok started) /\
    started = [ls; rm2].
Proof.
  assert (reach 0 0 (trace_of rm2_run).1 (trace_of rm2_run).2) as Hr
    by (apply trace_of_reach; repeat constructor).
  eexists _, _. split; [vm_compute; reflexivity|].
  refine (proj1 (batch_needs_consent 0 0 _ _ 0 [ls; rm2]
    [(rm2, RApproved (mkDecision true false ""))] proxy0
    (ExecuteParallel 0 [ls; rm2] [(rm2, RApproved (mkDecision true false ""))] proxy0).1
    [ls; rm2] [rm2] (validateAll 0 [ls; rm2] proxy0).1 Hr _ _ _ _)).
  - constructor; [|constructor]. eexists 0, _. split; vm_compute; reflexivity.
  - vm_compute; reflexivity.
  - reflexivity.
  - vm_compute; reflexivity.
Defined.

Lemma plain_name_resolution_witness :
  good_comp "ls" /\
  resolveBinary (fun f => String.eqb f "/usr/bin/ls") (ProcessEnv [("PATHS", "x")]
    (NewCommandProxy DefaultExecPolicy ModeExecute)) "ls" = "/usr/bin/ls".
Proof.
  assert (good_comp "ls") as Hg by (split_and!; [discriminate..|reflexivity]).
  split; [exact Hg|].
  destruct (plain_name_resolution (fun f => String.eqb f "/usr/bin/ls") [("PATHS", "x")]
              (NewCommandProxy DefaultExecPolicy ModeExecute) "ls" Hg)
    as [(i & dir & Hi & Hs & _ & Heq)|(Hall & _)].
  - rewrite Heq. by apply String.eqb_eq in Hs.
  - exfalso. apply Forall_lookup_1 with (i := 2) (x := "/usr/bin") in Hall;
      [vm_compute in Hall; discriminate Hall|reflexivity].
Defined.

(** The white list holds base names while the executor runs the path it is given:
    any file called [ls] passes. *)
Lemma whitelist_ignores_directory :
  let cmd := mkCommand "c" "/workspace/evil/ls" [] "" ∅ 0 0 in
  vr_Verdict (Validate 0 cmd proxy0).2 = VerdictAllowed /\
  resolveBinary (fun _ => true) (ProcessEnv [] proxy0) (c_Command cmd) = "/workspace/evil/ls".
Proof. by vm_compute. Qed.

(** A relative path leaves the restricted directories as well. *)
Lemma relative_path_escapes :
  let cmd := mkCommand "c" "../../workspace/ls" [] "" ∅ 0 0 in
  vr_Verdict (Validate 0 cmd proxy0).2 = VerdictAllowed /\
  resolveBinary (fun _ => true) (ProcessEnv [] proxy0) (c_Command cmd) = "/workspace/ls".
Proof. by vm_compute. Qed.

(** A batch that is refused because of a later command has used up the one-shot
    approvals of the earlier ones. *)
Lemma refused_batch_uses_approval :
  let bad := mkCommand "c3" "shutdown" [] "" ∅ 0 0 in
  let policy := mkExecPolicy [] ["shutdown"] ∅ 0 0 None None in
  let px := ApproveOnce "c2" (NewCommandProxy policy ModeExecute) in
  let '(px', r) := ExecuteParallel 0 [rm2; bad] [] px in
  is_ok r = false /\ pending "c2" px = 1 /\ pending "c2" px' = 0.
Proof. by vm_compute. Qed.
