(* ===== verification/RpcChannel.v ===== *)
(** * The RPC channel between the worker and the supervisor

    The transport of [src/internal/worker/vm/vsock.go] ([call], [getConn], [closeConn])
    against [handleConnection] of [src/internal/supervisor/server.go], as a machine
    whose steps are the critical sections and system calls of both sides. The handler of
    a request and the size of its text are arguments: a handler answers when the state of
    the supervisor lets it. Connections are numbered in the order in which they are
    dialed, calls in the order in which they are made. *)

From stdpp Require Import options.
From S2P Require Import Prelude.
Open Scope Z_scope.

(** What [call] returns instead of a response. *)
Inductive CallError := DialFailed | WriteFailed | ReadFailed.

(** The bytes [handleConnection] asks for. *)
Definition requestBuffer : Z := 8192.

(** The goroutine of a connection: before its read, in the handler, past the response,
    and gone. *)
Inductive Serving {Req : Type} := SReading | SHandling (i : nat) (req : Req) | SReplied | SClosed.
Arguments Serving : clear implicits.

(** A connection: the requests written and not read yet and the responses written and
    not read yet, both with the call they belong to, the server's end, and whether the
    client has closed its end. *)
Record Conn {Req Resp : Type} := mkConn {
  cn_in : list (nat * Req);
  cn_out : list (nat * Resp);
  cn_srv : Serving Req;
  cn_closed : bool
}.
Arguments Conn : clear implicits.
Arguments mkConn {Req Resp}.

(** Where a call stands: before [getConn] (the second time after a failed write), before
    the write, before the read, back at the caller. The response comes with the call
    whose request it answers, which the caller cannot see. *)
Inductive CallPhase {Resp : Type} :=
  | PGetConn (again : bool)
  | PWrite (again : bool) (k : nat)
  | PRead (k : nat)
  | PDone (r : result CallError (nat * Resp)).
Arguments CallPhase : clear implicits.

(** Client, connections and supervisor; [rs_log] holds the calls whose requests reached
    a handler, with their connection. *)
Record RpcState {Req Resp S : Type} := mkRpc {
  rs_calls : list (Req * CallPhase Resp);
  rs_pool : option nat;
  rs_conns : list (Conn Req Resp);
  rs_server : S;
  rs_log : list (nat * nat)
}.
Arguments RpcState : clear implicits.
Arguments mkRpc {Req Resp S}.

Section rpc.
Context {Req Resp S : Type}.
(** The bytes of a request, without the new line the encoder adds; the answer to a text
    that is no request; the handlers. *)
Context (size : Req -> Z) (invalid : Resp) (handle : Req -> S -> option (S * Resp)).
Abbreviation RS := (RpcState Req Resp S).
Abbreviation C := (Conn Req Resp).

Definition set_phase (i : nat) (ph : CallPhase Resp) (w : RS) : RS :=
  mkRpc (alter (fun c => (c.1, ph)) i (rs_calls w)) (rs_pool w) (rs_conns w) (rs_server w) (rs_log w).
Definition set_conn (k : nat) (c : C) (w : RS) : RS :=
  mkRpc (rs_calls w) (rs_pool w) (<[k := c]> (rs_conns w)) (rs_server w) (rs_log w).

(** [closeConn]: whatever connection is in the pool. *)
Definition closeConn (w : RS) : RS :=
  match rs_pool w with
  | Some k =>
      mkRpc (rs_calls w) None
        (alter (fun c => mkConn (cn_in c) (cn_out c) (cn_srv c) true) k (rs_conns w)) (rs_server w) (rs_log w)
  | None => w
  end.

Definition dialed : C := mkConn [] [] SReading false.

(** [getConn]: the pooled connection, or a new one if dialing works. *)
Definition getConn (i : nat) (again dial : bool) (w : RS) : RS :=
  match rs_pool w with
  | Some k => set_phase i (PWrite again k) w
  | None =>
      if dial then
        let k := length (rs_conns w) in
        set_phase i (PWrite again k)
          (mkRpc (rs_calls w) (Some k) (rs_conns w ++ [dialed]) (rs_server w) (rs_log w))
      else set_phase i (PDone (Err DialFailed)) w
  end.

(** The write fails on a closed connection, and on one the peer has closed if that is
    known ([noticed]); otherwise the bytes are taken, though a peer that is gone will
    never read them. The first failure is retried on another connection. *)
Definition writeRequest (i : nat) (noticed : bool) (w : RS) : option RS :=
  '(req, ph) ← rs_calls w !! i;
  match ph with
  | PWrite again k =>
      c ← rs_conns w !! k;
      let fails := cn_closed c || (match cn_srv c with SClosed => noticed | _ => false end) in
      if fails then
        Some (set_phase i (if again then PDone (Err WriteFailed) else PGetConn true) (closeConn w))
      else Some (set_phase i (PRead k) (set_conn k (mkConn (cn_in c ++ [(i, req)]) (cn_out c) (cn_srv c) false) w))
  | _ => None
  end.

(** The response: the first one the connection has, whoever it is for. *)
Definition readResponse (i : nat) (w : RS) : option RS :=
  '(_, ph) ← rs_calls w !! i;
  match ph with
  | PRead k =>
      c ← rs_conns w !! k;
      match cn_closed c, cn_out c with
      | false, r :: out => Some (set_phase i (PDone (Ok r)) (set_conn k (mkConn (cn_in c) out (cn_srv c) false) w))
      | _, _ => None
      end
  | _ => None
  end.

(** The read fails: the connection is closed on one side, or its deadline has passed. *)
Definition readFails (i : nat) (deadline : bool) (w : RS) : option RS :=
  '(_, ph) ← rs_calls w !! i;
  match ph with
  | PRead k =>
      c ← rs_conns w !! k;
      let gone := match cn_srv c, cn_out c with SClosed, [] => true | _, _ => false end in
      if cn_closed c || gone || deadline then Some (set_phase i (PDone (Err ReadFailed)) (closeConn w)) else None
  | _ => None
  end.

(** The bytes waiting on a connection. *)
Definition waitingBytes (c : C) : Z := foldr (fun ir n => size ir.2 + 1 + n) 0 (cn_in c).

(** [handleConnection]: one read of at most the buffer. The text is a request when the
    read ends with the first request, its new line read or not. *)
Definition serveRead (k : nat) (n : Z) (w : RS) : option RS :=
  c ← rs_conns w !! k;
  match cn_srv c, cn_in c with
  | SReading, (i, req) :: rest =>
      if decide (1 <= n <= Z.min requestBuffer (waitingBytes c)) then
        if decide (size req <= n <= size req + 1) then
          Some (mkRpc (rs_calls w) (rs_pool w) (<[k := mkConn rest (cn_out c) (SHandling i req) (cn_closed c)]> (rs_conns w))
                  (rs_server w) (rs_log w ++ [(i, k)]))
        else Some (set_conn k (mkConn rest (cn_out c ++ [(i, invalid)]) SReplied (cn_closed c)) w)
      else None
  | SReading, [] => if cn_closed c then Some (set_conn k (mkConn [] (cn_out c) SClosed true) w) else None
  | _, _ => None
  end.

(** The handler answers. One that panics, or that passes the deadline of the
    connection, thirty minutes for a service or a command and five for the rest, closes it
    without a response; that is not a step here. *)
Definition serveReply (k : nat) (w : RS) : option RS :=
  c ← rs_conns w !! k;
  match cn_srv c with
  | SHandling i req =>
      '(s, r) ← handle req (rs_server w);
      Some (mkRpc (rs_calls w) (rs_pool w)
              (<[k := mkConn (cn_in c) (cn_out c ++ [(i, r)]) SReplied (cn_closed c)]> (rs_conns w)) s (rs_log w))
  | _ => None
  end.

(** The deferred [conn.Close]. *)
Definition serveClose (k : nat) (w : RS) : option RS :=
  c ← rs_conns w !! k;
  match cn_srv c with
  | SReplied => Some (set_conn k (mkConn (cn_in c) (cn_out c) SClosed (cn_closed c)) w)
  | _ => None
  end.

Inductive RpcEvent :=
  | ECall (req : Req)
  | EGetConn (i : nat) (dial : bool)
  | EWrite (i : nat) (noticed : bool)
  | ERead (i : nat)
  | EReadFails (i : nat) (deadline : bool)
  | EServeRead (k : nat) (n : Z)
  | EServeReply (k : nat)
  | EServeClose (k : nat)
  | EServer (s : S).

Definition rpc_step (e : RpcEvent) (w : RS) : option RS :=
  match e with
  | ECall req =>
      Some (mkRpc (rs_calls w ++ [(req, PGetConn false)]) (rs_pool w) (rs_conns w) (rs_server w) (rs_log w))
  | EGetConn i dial =>
      '(_, ph) ← rs_calls w !! i;
      match ph with PGetConn again => Some (getConn i again dial w) | _ => None end
  | EWrite i noticed => writeRequest i noticed w
  | ERead i => readResponse i w
  | EReadFails i deadline => readFails i deadline w
  | EServeRead k n => serveRead k n w
  | EServeReply k => serveReply k w
  | EServeClose k => serveClose k w
  | EServer s => Some (mkRpc (rs_calls w) (rs_pool w) (rs_conns w) s (rs_log w))
  end.

Fixpoint rpc_run (es : list RpcEvent) (w : RS) : option RS :=
  match es with
  | [] => Some w
  | e :: es => w ← rpc_step e w; rpc_run es w
  end.

Definition rpcStart (s : S) : RS := mkRpc [] None [] s [].
End rpc.

(** ** Any schedule: a connection serves one request, a request is served once *)

Section schedules.
Context {Req Resp S : Type} (size : Req -> Z).
Abbreviation RS := (RpcState Req Resp S).
Abbreviation C := (Conn Req Resp).

Definition inputs (w : RS) : list (list (nat * Req)) := cn_in <$> rs_conns w.

(** The calls whose requests are on their way or were served. *)
Definition on_the_way (w : RS) : list nat := (concat (inputs w)).*1 ++ (rs_log w).*1.

Definition written (ph : CallPhase Resp) : Prop :=
  match ph with PRead _ | PDone _ => True | _ => False end.

Record sched_ok (w : RS) : Prop := {
  so_once : NoDup (on_the_way w);
  so_written i : i ∈ on_the_way w -> exists req ph, rs_calls w !! i = Some (req, ph) /\ written ph;
  so_req i req : (i, req) ∈ concat (inputs w) -> exists ph, rs_calls w !! i = Some (req, ph);
  so_conns : NoDup (rs_log w).*2;
  so_served k : k ∈ (rs_log w).*2 -> exists c, rs_conns w !! k = Some c /\ cn_srv c <> SReading;
  so_fits i req ph : rs_calls w !! i = Some (req, ph) -> i ∈ (rs_log w).*1 -> size req <= requestBuffer
}.

Lemma concat_push {A} (L : list (list A)) k l x : L !! k = Some l -> concat (<[k := l ++ [x]]> L) ≡ₚ x :: concat L.
Proof.
  revert k. induction L as [|l0 L IH]; intros [|k] Hk; simplify_eq/=.
  - rewrite <-app_assoc. by rewrite Permutation_middle.
  - rewrite (IH _ Hk). by rewrite Permutation_middle.
Qed.

Lemma concat_pop {A} (L : list (list A)) k l x : L !! k = Some (x :: l) -> concat L ≡ₚ x :: concat (<[k := l]> L).
Proof.
  revert k. induction L as [|l0 L IH]; intros [|k] Hk; simplify_eq/=; [done|].
  rewrite (IH _ Hk). by rewrite Permutation_middle.
Qed.

(** Calls and connections only go forward. *)
Definition forward (w w' : RS) : Prop :=
  (forall i req ph, rs_calls w !! i = Some (req, ph) ->
     exists ph', rs_calls w' !! i = Some (req, ph') /\ (written ph -> written ph')) /\
  (forall i req' ph', rs_calls w' !! i = Some (req', ph') -> i < length (rs_calls w) ->
     exists ph, rs_calls w !! i = Some (req', ph))%nat /\
  (forall k c, rs_conns w !! k = Some c -> cn_srv c <> SReading ->
     exists c', rs_conns w' !! k = Some c' /\ cn_srv c' <> SReading).

(** A step that writes and reads no request. *)
Lemma quiet_ok w w' :
  sched_ok w -> forward w w' -> concat (inputs w') ≡ₚ concat (inputs w) -> rs_log w' = rs_log w -> sched_ok w'.
Proof.
  intros [H1 H2 H3 H4 H5 H6] (Hc & Hb & Hs) Hin Hl.
  assert (on_the_way w' ≡ₚ on_the_way w) as Hway by (unfold on_the_way; by rewrite Hin, Hl).
  split.
  - by rewrite Hway.
  - intros i. rewrite Hway. intros (req & ph & Hi & Hph)%H2. destruct (Hc _ _ _ Hi) as (ph' & ? & ?). eauto.
  - intros i req. rewrite Hin. intros [ph Hi]%H3. destruct (Hc _ _ _ Hi) as (ph' & ? & _). eauto.
  - by rewrite Hl.
  - intros k. rewrite Hl. intros (c & Hk & Hsv)%H5. eauto.
  - intros i req ph Hi. rewrite Hl. intros Hlog. destruct (H2 i) as (req0 & ph0 & Hi0 & _).
    { unfold on_the_way. rewrite elem_of_app. by right. }
    destruct (Hb i req ph Hi) as (ph1 & Hi1); [by eapply lookup_lt_Some|]. eauto.
Qed.

Lemma forward_refl w : forward w w.
Proof. split_and!; eauto. Qed.

Lemma forward_trans w1 w2 w3 : forward w1 w2 -> forward w2 w3 -> (length (rs_calls w1) <= length (rs_calls w2))%nat -> forward w1 w3.
Proof.
  intros (H1 & H2 & H3) (H1' & H2' & H3') Hl. split_and!.
  - intros i req ph (ph' & Hi & ?)%H1. destruct (H1' _ _ _ Hi) as (ph'' & ? & ?). eauto.
  - intros i req ph Hi Hlt. destruct (H2' _ _ _ Hi) as [ph' Hi']; [lia|]. eauto.
  - intros k c Hk Hs. destruct (H3 k c Hk Hs) as (c' & Hk' & Hs'). eauto.
Qed.

Lemma set_phase_forward i ph w :
  (forall req ph0, rs_calls w !! i = Some (req, ph0) -> written ph0 -> written ph) -> forward w (set_phase i ph w).
Proof.
  intros Hph. split_and!; simpl; [| |by eauto].
  - intros j req ph0 Hj. destruct (decide (j = i)) as [->|Hne].
    + exists ph. rewrite list_lookup_alter_eq, Hj. split; [done|eauto].
    + exists ph0. by rewrite list_lookup_alter_ne.
  - intros j req ph0 Hj _. destruct (decide (j = i)) as [->|Hne].
    + rewrite list_lookup_alter_eq in Hj. destruct (rs_calls w !! i) as [[req1 ph1]|]; simplify_eq/=. eauto.
    + rewrite list_lookup_alter_ne in Hj by done. eauto.
Qed.

Lemma closeConn_forward w : forward w (closeConn w).
Proof.
  unfold closeConn. destruct (rs_pool w) as [k|]; [|apply forward_refl]. split_and!; simpl; [by eauto..|].
  intros j c Hj Hs. destruct (decide (j = k)) as [->|Hne].
  - rewrite list_lookup_alter_eq, Hj. simpl. eauto.
  - rewrite list_lookup_alter_ne by done. eauto.
Qed.

Lemma set_conn_forward k c c0 w :
  rs_conns w !! k = Some c0 -> (cn_srv c0 <> SReading -> cn_srv c <> SReading) -> forward w (set_conn k c w).
Proof.
  intros Hk Hs. split_and!; simpl; [by eauto..|]. intros j c1 Hj Hs1. destruct (decide (j = k)) as [->|Hne].
  - exists c. rewrite list_lookup_insert_eq by (by eapply lookup_lt_Some). simplify_eq. auto.
  - exists c1. by rewrite list_lookup_insert_ne.
Qed.

Lemma closeConn_inputs (w : RS) : inputs (closeConn w) = inputs w.
Proof.
  unfold closeConn, inputs. destruct (rs_pool w) as [k|]; [|done]. simpl. apply list_eq. intros j.
  rewrite !list_lookup_fmap. destruct (decide (j = k)) as [->|Hne].
  - rewrite list_lookup_alter_eq. by destruct (rs_conns w !! k).
  - by rewrite list_lookup_alter_ne.
Qed.

Lemma set_conn_inputs k c w : inputs (set_conn k c w) = <[k := cn_in c]> (inputs w).
Proof. unfold inputs. simpl. by rewrite list_fmap_insert. Qed.

Lemma set_conn_inputs_id k c c0 w : rs_conns w !! k = Some c0 -> cn_in c = cn_in c0 -> inputs (set_conn k c w) = inputs w.
Proof.
  intros Hk Hc. rewrite set_conn_inputs. apply list_insert_id. unfold inputs. by rewrite list_lookup_fmap, Hk, Hc.
Qed.

Lemma closeConn_log (w : RS) : rs_log (closeConn w) = rs_log w.
Proof. unfold closeConn. by destruct (rs_pool w). Qed.
Lemma closeConn_calls (w : RS) : rs_calls (closeConn w) = rs_calls w.
Proof. unfold closeConn. by destruct (rs_pool w). Qed.

(** The steps that are quiet. *)
Lemma close_phase_ok i ph w :
  sched_ok w -> (forall req ph0, rs_calls w !! i = Some (req, ph0) -> written ph0 -> written ph) ->
  sched_ok (set_phase i ph (closeConn w)).
Proof.
  intros Hok Hph. apply (quiet_ok w); [done| | |].
  - eapply forward_trans; [apply closeConn_forward|apply set_phase_forward; by rewrite closeConn_calls|].
    by rewrite closeConn_calls.
  - change (inputs (set_phase i ph (closeConn w))) with (inputs (closeConn w)). by rewrite closeConn_inputs.
  - simpl. apply closeConn_log.
Qed.

Lemma conn_phase_ok i ph k c c0 w :
  sched_ok w -> rs_conns w !! k = Some c0 -> cn_in c = cn_in c0 -> (cn_srv c0 <> SReading -> cn_srv c <> SReading) ->
  written ph -> sched_ok (set_phase i ph (set_conn k c w)).
Proof.
  intros Hok Hk Hc Hs Hph. apply (quiet_ok w); [done| | |done].
  - eapply forward_trans; [by eapply set_conn_forward|by apply set_phase_forward|done].
  - change (inputs (set_phase i ph (set_conn k c w))) with (inputs (set_conn k c w)).
    by rewrite (set_conn_inputs_id _ _ _ _ Hk Hc).
Qed.

Lemma server_ok w s : sched_ok w -> sched_ok (mkRpc (rs_calls w) (rs_pool w) (rs_conns w) s (rs_log w)).
Proof. intros Hok. apply (quiet_ok w); [done|split_and!; simpl; eauto|done..]. Qed.

Lemma conn_ok k c c0 w :
  sched_ok w -> rs_conns w !! k = Some c0 -> cn_in c = cn_in c0 -> (cn_srv c0 <> SReading -> cn_srv c <> SReading) ->
  sched_ok (set_conn k c w).
Proof.
  intros Hok Hk Hc Hs. apply (quiet_ok w); [done|by eapply set_conn_forward| |done].
  by rewrite (set_conn_inputs_id _ _ _ _ Hk Hc).
Qed.

Lemma call_ok req w :
  sched_ok w -> sched_ok (mkRpc (rs_calls w ++ [(req, PGetConn false)]) (rs_pool w) (rs_conns w) (rs_server w) (rs_log w)).
Proof.
  intros Hok. apply (quiet_ok w); [done| |done..]. split_and!; simpl; [| |by eauto].
  - intros i req0 ph Hi. exists ph. by rewrite lookup_app_l by (by eapply lookup_lt_Some).
  - intros i req0 ph Hi Hlt. rewrite lookup_app_l in Hi by done. eauto.
Qed.

Lemma getConn_ok i again0 again dial w req :
  sched_ok w -> rs_calls w !! i = Some (req, PGetConn again0) -> sched_ok (getConn i again dial w).
Proof.
  intros Hok Hi. unfold getConn.
  assert (forall ph req0 ph0, rs_calls w !! i = Some (req0, ph0) -> written ph0 -> written ph) as Hph
    by (intros ph req0 ph0 Hi0; simplify_eq; done).
  destruct (rs_pool w) as [k|].
  { apply (quiet_ok w); [done|apply set_phase_forward, Hph|done..]. }
  destruct dial; [|apply (quiet_ok w); [done|apply set_phase_forward, Hph|done..]].
  apply (quiet_ok w); [done| | |done].
  - eapply forward_trans; [|apply set_phase_forward, Hph|done]. split_and!; simpl; [by eauto..|].
    intros k c Hk Hs. exists c. by rewrite lookup_app_l by (by eapply lookup_lt_Some).
  - unfold inputs. simpl. by rewrite fmap_app, concat_app, app_nil_r.
Qed.

(** The steps that move a request. *)
Lemma write_ok i req k c again w :
  sched_ok w -> rs_calls w !! i = Some (req, PWrite again k) -> rs_conns w !! k = Some c -> cn_closed c = false ->
  sched_ok (set_phase i (PRead k) (set_conn k (mkConn (cn_in c ++ [(i, req)]) (cn_out c) (cn_srv c) false) w)).
Proof.
  intros Hok Hi Hk Hcl. destruct Hok as [H1 H2 H3 H4 H5 H6].
  set (w' := set_phase _ _ _).
  assert (concat (inputs w') ≡ₚ (i, req) :: concat (inputs w)) as Hin.
  { change (inputs w') with (inputs (set_conn k (mkConn (cn_in c ++ [(i, req)]) (cn_out c) (cn_srv c) false) w)).
    rewrite set_conn_inputs. apply concat_push. unfold inputs. by rewrite list_lookup_fmap, Hk. }
  assert (i ∉ on_the_way w) as Hnew by (intros (req0 & ph0 & Hi0 & Hph0)%H2; by simplify_eq).
  assert (forward w w') as (Hc & Hb & Hs).
  { unfold w'. eapply forward_trans; [|apply set_phase_forward; simpl; auto|done]. by eapply set_conn_forward. }
  assert (exists ph, rs_calls w' !! i = Some (req, ph) /\ written ph) as Hwi.
  { exists (PRead k). simpl. by rewrite list_lookup_alter_eq, Hi. }
  split.
  - unfold on_the_way. rewrite Hin. simpl. by constructor.
  - intros j. unfold on_the_way. rewrite Hin. simpl. rewrite elem_of_cons. intros [->|(req0 & ph0 & Hj & Hph)%H2]; [by exists req|].
    destruct (Hc _ _ _ Hj) as (ph' & ? & ?). eauto.
  - intros j req0. rewrite Hin, elem_of_cons. intros [[= -> ->]|[ph Hj]%H3].
    + destruct Hwi as (ph & ? & _). eauto.
    + destruct (Hc _ _ _ Hj) as (ph' & ? & _). eauto.
  - done.
  - intros j (c0 & Hj & Hsv)%H5. eauto.
  - intros j req0 ph Hj Hlog. destruct (Hb j req0 ph Hj) as (ph1 & Hj1); [|eauto].
    destruct (H2 j) as (? & ? & ? & _); [|by eapply lookup_lt_Some]. unfold on_the_way. rewrite elem_of_app. by right.
Qed.

Lemma take_ok k i req rest c c' log w :
  sched_ok w -> rs_conns w !! k = Some c -> cn_in c = (i, req) :: rest -> cn_srv c = SReading ->
  cn_in c' = rest -> cn_srv c' <> SReading -> (log = [] \/ log = [(i, k)] /\ size req <= requestBuffer) ->
  sched_ok (mkRpc (rs_calls w) (rs_pool w) (<[k := c']> (rs_conns w)) (rs_server w) (rs_log w ++ log)).
Proof.
  intros [H1 H2 H3 H4 H5 H6] Hk Hc Hr Hc' Hs' Hlog. set (w' := mkRpc _ _ _ _ _).
  assert (concat (inputs w) ≡ₚ (i, req) :: concat (inputs w')) as Hin.
  { assert (inputs w' = <[k := rest]> (inputs w)) as ->.
    { unfold inputs. simpl. by rewrite list_fmap_insert, Hc'. }
    apply concat_pop. unfold inputs. by rewrite list_lookup_fmap, Hk, <-Hc. }
  assert (on_the_way w ≡ₚ i :: (concat (inputs w')).*1 ++ (rs_log w).*1) as Hway by (unfold on_the_way; by rewrite Hin).
  assert (on_the_way w' ⊆ on_the_way w /\ NoDup (on_the_way w')) as [Hsub Hnd].
  { unfold on_the_way at 1 3. simpl. rewrite fmap_app. rewrite Hway in H1 |- *. destruct Hlog as [->|[-> _]]; simpl.
    - rewrite app_nil_r. apply NoDup_cons in H1 as [_ H1]. split; [set_solver|done].
    - rewrite app_assoc, (Permutation_app_comm _ [i]). by split; [|]. }
  assert (k ∉ (rs_log w).*2) as Hfresh by (intros (c0 & Hk0 & Hs0)%H5; simplify_eq).
  assert (forall j c0, rs_conns w !! j = Some c0 -> cn_srv c0 <> SReading ->
    exists c1, rs_conns w' !! j = Some c1 /\ cn_srv c1 <> SReading) as Hsrv.
  { intros j c0 Hj Hsv. exists c0. simpl. rewrite list_lookup_insert_ne; [done|]. intros ->. by simplify_eq. }
  split.
  - done.
  - intros j Hj. apply H2. by apply Hsub.
  - intros j req0 Hj. apply H3. rewrite Hin. by right.
  - simpl. rewrite fmap_app. destruct Hlog as [->|[-> _]]; simpl; [by rewrite app_nil_r|].
    rewrite (Permutation_app_comm _ [k]). by constructor.
  - simpl. intros j. rewrite fmap_app, elem_of_app. intros [(c0 & Hj & Hsv)%H5|Hj]; [eauto|].
    destruct Hlog as [->|[-> _]]; [by apply not_elem_of_nil in Hj|]. apply list_elem_of_singleton in Hj as ->.
    exists c'. by rewrite list_lookup_insert_eq by (by eapply lookup_lt_Some).
  - simpl. intros j req0 ph Hj. rewrite fmap_app, elem_of_app. intros [Hl|Hl]; [eauto|].
    destruct Hlog as [->|[-> Hfit]]; [by apply not_elem_of_nil in Hl|]. apply list_elem_of_singleton in Hl as ->.
    destruct (H3 i req) as [ph0 Hi0]; [rewrite Hin; by left|]. simpl in Hj. rewrite Hj in Hi0. by injection Hi0 as -> ->.
Qed.

Context (invalid : Resp) (handle : Req -> S -> option (S * Resp)).
Abbreviation step := (rpc_step size invalid handle).
Abbreviation run := (rpc_run size invalid handle).

Lemma step_ok e w w' : step e w = Some w' -> sched_ok w -> sched_ok w'.
Proof.
  intros He Hok. destruct e as [req|i dial|i noticed|i|i deadline|k n|k|k|s]; simpl in He.
  - injection He as <-. by apply call_ok.
  - destruct (rs_calls w !! i) as [[req ph]|] eqn:Hi; [|done]. destruct ph; simplify_eq/=. by eapply getConn_ok.
  - unfold writeRequest in He. destruct (rs_calls w !! i) as [[req ph]|] eqn:Hi; [|done]. destruct ph as [|again k| |]; try done.
    simpl in He. destruct (rs_conns w !! k) as [c|] eqn:Hk; [|done]. simpl in He.
    destruct (cn_closed c || _) eqn:Hf; injection He as <-.
    + apply close_phase_ok; [done|]. intros. by simplify_eq.
    + bool_props. by eapply write_ok.
  - unfold readResponse in He. destruct (rs_calls w !! i) as [[req ph]|] eqn:Hi; [|done]. destruct ph as [| |k|]; try done.
    simpl in He. destruct (rs_conns w !! k) as [c|] eqn:Hk; [|done]. simpl in He.
    destruct (cn_closed c), (cn_out c) as [|r out]; simplify_eq. by eapply conn_phase_ok.
  - unfold readFails in He. destruct (rs_calls w !! i) as [[req ph]|] eqn:Hi; [|done]. destruct ph as [| |k|]; try done.
    simpl in He. destruct (rs_conns w !! k) as [c|] eqn:Hk; [|done]. simpl in He.
    destruct (_ || deadline); simplify_eq. by apply close_phase_ok.
  - unfold serveRead in He. destruct (rs_conns w !! k) as [c|] eqn:Hk; [|done]. simpl in He.
    destruct (cn_srv c) eqn:Hs; try done. destruct (cn_in c) as [|[i req] rest] eqn:Hin.
    + destruct (cn_closed c); simplify_eq. by eapply conn_ok.
    + destruct (decide _) as [Hn|]; [|done]. destruct (decide _) as [Hfit|_]; simplify_eq.
      * eapply take_ok; [done..|]. right. split; [done|]. lia.
      * pose proof (take_ok k i req rest c (mkConn rest (cn_out c ++ [(i, invalid)]) SReplied (cn_closed c)) [] w) as Ht.
        rewrite app_nil_r in Ht. apply Ht; auto.
  - unfold serveReply in He. destruct (rs_conns w !! k) as [c|] eqn:Hk; [|done]. simpl in He.
    destruct (cn_srv c) as [|i req| |] eqn:Hs; try done. destruct (handle req (rs_server w)) as [[s r]|]; simplify_eq/=.
    apply (server_ok (set_conn k (mkConn (cn_in c) (cn_out c ++ [(i, r)]) SReplied (cn_closed c)) w)). by eapply conn_ok.
  - unfold serveClose in He. destruct (rs_conns w !! k) as [c|] eqn:Hk; [|done]. simpl in He.
    destruct (cn_srv c) eqn:Hs; simplify_eq. by eapply conn_ok.
  - injection He as <-. by apply server_ok.
Qed.

Lemma run_ok es w w' : run es w = Some w' -> sched_ok w -> sched_ok w'.
Proof.
  revert w. induction es as [|e es IH]; intros w; cbn [rpc_run]; [by intros [= ->]|].
  destruct (step e w) as [w1|] eqn:He; [|done]. intros Hrun Hok. eapply IH; [done|]. by eapply step_ok.
Qed.

Lemma start_ok s : sched_ok (rpcStart s).
Proof. by split; simpl; [constructor|intros i []%elem_of_nil|intros i r []%elem_of_nil|constructor|intros k []%elem_of_nil|]. Qed.
End schedules.

(** ** Calls one after another *)

Section turns.
Context {Req Resp S : Type} (invalid : Resp).
Abbreviation RS := (RpcState Req Resp S).
Abbreviation C := (Conn Req Resp).

Definition is_done (ph : CallPhase Resp) : bool := match ph with PDone _ => true | _ => false end.
Definition all_done (w : RS) : Prop := forall i req ph, rs_calls w !! i = Some (req, ph) -> is_done ph = true.

(** What a connection holds for the call [n - 1]. *)
Definition mine (n : nat) (c : C) : Prop :=
  (cn_srv c = SReading -> forall j req, (j, req) ∈ cn_in c -> Datatypes.S j = n) /\
  (forall j req, cn_srv c = SHandling j req -> Datatypes.S j = n) /\
  (forall jr, jr ∈ cn_out c -> Datatypes.S jr.1 = n).
Definition idle (c : C) : Prop := cn_out c = [] /\ (cn_srv c = SReplied \/ cn_srv c = SClosed).

(** At most one response, after the request was handled or found to be no request. *)
Definition answers (log : list (nat * nat)) (c : C) : Prop :=
  match cn_srv c with
  | SReading => cn_out c = []
  | SHandling j _ => j ∈ log.*1 /\ cn_out c = []
  | _ => cn_out c = [] \/ exists jr, cn_out c = [jr] /\ (jr.1 ∈ log.*1 \/ jr.2 = invalid)
  end.

Definition uses (ph : CallPhase Resp) (k : nat) : Prop :=
  match ph with PWrite _ k' | PRead k' => k' = k | _ => False end.

Record turn_ok (w : RS) : Prop := {
  tn_last i req ph : rs_calls w !! i = Some (req, ph) -> is_done ph = false -> Datatypes.S i = length (rs_calls w);
  tn_ok i req j r : rs_calls w !! i = Some (req, PDone (Ok (j, r))) -> j = i /\ (i ∈ (rs_log w).*1 \/ r = invalid);
  tn_conn k c : rs_conns w !! k = Some c -> answers (rs_log w) c;
  tn_pool k : rs_pool w = Some k -> exists c, rs_conns w !! k = Some c /\ cn_closed c = false /\
    mine (length (rs_calls w)) c /\ (all_done w -> idle c);
  tn_uses i req ph k : rs_calls w !! i = Some (req, ph) -> uses ph k -> rs_pool w = Some k
}.

Lemma answers_log log log' c : (forall j, j ∈ log.*1 -> j ∈ log'.*1) -> answers log c -> answers log' c.
Proof.
  intros Hl. unfold answers. destruct (cn_srv c); [done| | |].
  - intros [? ?]. auto.
  - naive_solver.
  - naive_solver.
Qed.

(** The phase of the current call changes. *)
Lemma phase_lookup i ph (w : RS) j req ph' :
  rs_calls (set_phase i ph w) !! j = Some (req, ph') ->
  (j = i /\ ph' = ph /\ exists ph0, rs_calls w !! i = Some (req, ph0)) \/ (j <> i /\ rs_calls w !! j = Some (req, ph')).
Proof.
  simpl. destruct (decide (j = i)) as [->|Hne].
  - rewrite list_lookup_alter_eq. destruct (rs_calls w !! i) as [[req0 ph0]|]; intros [= <- <-]. left. eauto.
  - rewrite list_lookup_alter_ne by done. auto.
Qed.

(** A call gives up its connection: the pool is emptied. *)
Lemma give_up_turn i req ph0 ph (w : RS) :
  turn_ok w -> rs_calls w !! i = Some (req, ph0) -> is_done ph0 = false ->
  (forall k, ~ uses ph k) -> (forall jr, ph <> PDone (Ok jr)) -> turn_ok (set_phase i ph (closeConn w)).
Proof.
  intros [H1 H2 H3 H4 H5] Hi Hd Hu Hok. pose proof (H1 _ _ _ Hi Hd) as Hlast.
  assert (rs_pool (closeConn w) = None) as Hp by (unfold closeConn; by destruct (rs_pool w) eqn:E).
  split.
  - intros j req0 ph1 Hj Hd1. simpl. rewrite length_alter, closeConn_calls.
    apply phase_lookup in Hj as [(-> & -> & _)|[_ Hj]]; [done|]. rewrite closeConn_calls in Hj. eauto.
  - intros j req0 j' r Hj. simpl. rewrite closeConn_log. apply phase_lookup in Hj as [(_ & E & _)|[_ Hj]].
    + by destruct (Hok (j', r)).
    + rewrite closeConn_calls in Hj. eauto.
  - intros k c Hk. simpl in *. rewrite closeConn_log. unfold closeConn in Hk. destruct (rs_pool w) as [k0|]; [|eauto].
    simpl in Hk. destruct (decide (k = k0)) as [->|Hne].
    + rewrite list_lookup_alter_eq in Hk. destruct (rs_conns w !! k0) as [c0|] eqn:Hk0; simplify_eq/=. exact (H3 k0 _ Hk0).
    + rewrite list_lookup_alter_ne in Hk by done. eauto.
  - intros k Hk. simpl in Hk. by rewrite Hp in Hk.
  - intros j req0 ph1 k Hj Hu1. apply phase_lookup in Hj as [(-> & -> & _)|[Hne Hj]]; [by destruct (Hu k)|].
    rewrite closeConn_calls in Hj. destruct ph1; try done; pose proof (H1 _ _ _ Hj eq_refl); lia.
Qed.

(** The pooled connection of the current call changes, its owner's phase perhaps too. *)
Lemma pooled_turn i req ph0 ph k c c' (w : RS) :
  turn_ok w -> rs_calls w !! i = Some (req, ph0) -> is_done ph0 = false -> rs_pool w = Some k ->
  rs_conns w !! k = Some c -> cn_closed c' = false -> answers (rs_log w) c' ->
  (mine (length (rs_calls w)) c -> mine (length (rs_calls w)) c') ->
  (forall k', uses ph k' -> k' = k) ->
  (forall j r, ph = PDone (Ok (j, r)) -> j = i /\ (i ∈ (rs_log w).*1 \/ r = invalid)) ->
  (is_done ph = true -> idle c') -> turn_ok (set_phase i ph (set_conn k c' w)).
Proof.
  intros [H1 H2 H3 H4 H5] Hi Hd Hp Hk Hcl Hans Hmine Hu Hok Hidle. pose proof (H1 _ _ _ Hi Hd) as Hlast.
  assert (k < length (rs_conns w))%nat as Hlt by (by eapply lookup_lt_Some). split.
  - intros j req0 ph1 Hj Hd1. simpl. rewrite length_alter. apply phase_lookup in Hj as [(-> & -> & _)|[_ Hj]]; [done|]. eauto.
  - intros j req0 j' r Hj. apply phase_lookup in Hj as [(-> & E & _)|[_ Hj]]; [by apply Hok|]. by eapply H2.
  - intros j c1 Hj. simpl in Hj. destruct (decide (j = k)) as [->|Hne].
    + rewrite list_lookup_insert_eq in Hj by done. by simplify_eq.
    + rewrite list_lookup_insert_ne in Hj by done. by eapply H3.
  - intros k0 Hk0. simpl in Hk0. rewrite Hp in Hk0. injection Hk0 as <-. exists c'. simpl. rewrite list_lookup_insert_eq, length_alter by done.
    destruct (H4 k Hp) as (c0 & Hk0 & _ & Hm & _). rewrite Hk in Hk0. injection Hk0 as <-. split_and!; [done|done|by apply Hmine|].
    intros Hall. apply Hidle. apply (Hall i req). simpl. by rewrite list_lookup_alter_eq, Hi.
  - intros j req0 ph1 k' Hj Hu1. simpl. apply phase_lookup in Hj as [(-> & -> & _)|[Hne Hj]].
    + rewrite (Hu _ Hu1). done.
    + by eapply H5.
Qed.

(** The server's end of a connection moves. *)
Lemma server_turn k c c' s log (w : RS) :
  turn_ok w -> rs_conns w !! k = Some c -> (forall j, j ∈ (rs_log w).*1 -> j ∈ log.*1) ->
  cn_closed c' = cn_closed c -> answers log c' ->
  (mine (length (rs_calls w)) c -> mine (length (rs_calls w)) c') -> (idle c -> idle c') ->
  turn_ok (mkRpc (rs_calls w) (rs_pool w) (<[k := c']> (rs_conns w)) s log).
Proof.
  intros [H1 H2 H3 H4 H5] Hk Hlog Hcl Hans Hmine Hidle.
  assert (k < length (rs_conns w))%nat as Hlt by (by eapply lookup_lt_Some). split; simpl.
  - done.
  - intros i req j r Hi. destruct (H2 _ _ _ _ Hi) as [? [?|?]]; auto.
  - intros j c1 Hj. destruct (decide (j = k)) as [->|Hne].
    + rewrite list_lookup_insert_eq in Hj by done. by simplify_eq.
    + rewrite list_lookup_insert_ne in Hj by done. eapply answers_log; [done|by eapply H3].
  - intros k0 Hk0. destruct (H4 k0 Hk0) as (c0 & Hc0 & Hcl0 & Hm & Hid). destruct (decide (k0 = k)) as [->|Hne].
    + rewrite Hk in Hc0. injection Hc0 as <-. exists c'. rewrite list_lookup_insert_eq by done. rewrite Hcl. split_and!; auto.
    + exists c0. rewrite list_lookup_insert_ne by done. done.
  - done.
Qed.
Context (size : Req -> Z) (handle : Req -> S -> option (S * Resp)).
Abbreviation step := (rpc_step size invalid handle).
Abbreviation run := (rpc_run size invalid handle).

(** A schedule in which a call is made when the one before it has returned. *)
Fixpoint in_turn (es : list (RpcEvent (Req := Req) (S := S))) (w : RS) : Prop :=
  match es with
  | [] => True
  | e :: es =>
      match e with ECall _ => all_done w | _ => True end /\
      forall w', step e w = Some w' -> in_turn es w'
  end.

Lemma call_turn req (w : RS) :
  turn_ok w -> all_done w ->
  turn_ok (mkRpc (rs_calls w ++ [(req, PGetConn false)]) (rs_pool w) (rs_conns w) (rs_server w) (rs_log w)).
Proof.
  intros [H1 H2 H3 H4 H5] Hall.
  assert (forall i req0 ph, (rs_calls w ++ [(req, PGetConn false)]) !! i = Some (req0, ph) ->
    rs_calls w !! i = Some (req0, ph) \/ i = length (rs_calls w) /\ ph = PGetConn false) as Hold.
  { intros i req0 ph [Hi|[Hl Hi]]%lookup_app_Some; [by left|]. right. apply list_lookup_singleton_Some in Hi as [? ?].
    simplify_eq. split; [lia|done]. }
  split; simpl.
  - intros i req0 ph [Hi|[-> ->]]%Hold Hd; rewrite length_app; simpl; [|lia]. by rewrite (Hall _ _ _ Hi) in Hd.
  - intros i req0 j r [Hi|[_ ?]]%Hold; [|done]. eauto.
  - done.
  - intros k Hk. destruct (H4 k Hk) as (c & Hc & Hcl & _ & Hid). destruct (Hid Hall) as [Ho Hs].
    exists c. split_and!; [done|done| |].
    + split_and!; [destruct Hs as [-> | ->]; done|destruct Hs as [-> | ->]; done|]. rewrite Ho. by intros jr []%elem_of_nil.
    + intros Hall'. by specialize (Hall' (length (rs_calls w)) req (PGetConn false) (list_lookup_middle _ _ _ _ eq_refl)).
  - intros i req0 ph k [Hi|[_ ->]]%Hold Hu; [|done]. by eapply H5.
Qed.

Lemma getConn_turn i req again0 again dial (w : RS) :
  turn_ok w -> rs_calls w !! i = Some (req, PGetConn again0) -> turn_ok (getConn i again dial w).
Proof.
  intros Hok Hi. pose proof Hok as [H1 H2 H3 H4 H5]. pose proof (H1 _ _ _ Hi eq_refl) as Hlast.
  unfold getConn. destruct (rs_pool w) as [k|] eqn:Hp.
  { destruct (H4 k eq_refl) as (c & Hk & Hcl & _).
    assert (set_conn k c w = w) as Hw by (destruct w; unfold set_conn; simpl in *; by rewrite list_insert_id).
    rewrite <-Hw. eapply pooled_turn; [done|done|done|done|done|done|by eapply H3|done|by intros k' ->|done|done]. }
  assert (forall j req0 ph, rs_calls w !! j = Some (req0, ph) -> j <> i -> is_done ph = true) as Hdone.
  { intros j req0 ph Hj Hne. destruct (is_done ph) eqn:Hd; [done|]. pose proof (H1 _ _ _ Hj Hd). lia. }
  destruct dial.
  - split; simpl; rewrite ?length_alter.
    + intros j req0 ph Hj Hd. apply phase_lookup in Hj as [(-> & _ & _)|[Hne Hj]]; [done|]. simpl in Hj. eauto.
    + intros j req0 j' r Hj. apply phase_lookup in Hj as [(_ & E & _)|[_ Hj]]; [done|]. simpl in Hj. eauto.
    + intros k c [Hk|[_ Hk]]%lookup_app_Some; [eauto|]. by apply list_lookup_singleton_Some in Hk as [_ <-].
    + intros k [= <-]. exists dialed. rewrite list_lookup_middle by done. split_and!; [done|done| |].
      * split_and!; [by intros _ j req0 []%elem_of_nil|done|by intros jr []%elem_of_nil].
      * intros Hall. specialize (Hall i req (PWrite again (length (rs_conns w)))). simpl in Hall.
        rewrite list_lookup_alter_eq, Hi in Hall. by specialize (Hall eq_refl).
    + intros j req0 ph k Hj Hu. apply phase_lookup in Hj as [(-> & -> & _)|[Hne Hj]]; [by rewrite Hu|]. simpl in Hj.
      pose proof (Hdone _ _ _ Hj Hne). by destruct ph.
  - assert (closeConn w = w) as Hw by (unfold closeConn; by rewrite Hp). rewrite <-Hw at 1.
    by eapply give_up_turn; [done|done| |intros k []|].
Qed.

Lemma turn_step e w w' :
  step e w = Some w' -> match e with ECall _ => all_done w | _ => True end -> turn_ok w -> turn_ok w'.
Proof.
  intros He Hturn Hok. pose proof Hok as [H1 H2 H3 H4 H5].
  destruct e as [req|i dial|i noticed|i|i deadline|k n|k|k|s]; simpl in He.
  - injection He as <-. by apply call_turn.
  - destruct (rs_calls w !! i) as [[req ph]|] eqn:Hi; [|done]. destruct ph; simplify_eq/=. by eapply getConn_turn.
  - unfold writeRequest in He. destruct (rs_calls w !! i) as [[req ph]|] eqn:Hi; [|done]. destruct ph as [|again k| |]; try done.
    simpl in He. destruct (rs_conns w !! k) as [c|] eqn:Hk; [|done]. simpl in He.
    destruct (cn_closed c || _) eqn:Hf; injection He as <-.
    { eapply give_up_turn; [done|done|done| |].
      - destruct again; intros k' [].
      - by destruct again. }
    pose proof (H5 _ _ _ k Hi eq_refl) as Hp. pose proof (H1 _ _ _ Hi eq_refl) as Hlast.
    eapply pooled_turn; [done|done|done|done|done|done|exact (H3 _ _ Hk)| |by intros k' ->|done|done].
    intros (Hm1 & Hm2 & Hm3). split_and!; [|done|done]. simpl. intros Hs j req0 [Hj|Hj]%elem_of_app; [by eapply Hm1|].
    apply list_elem_of_singleton in Hj. by simplify_eq.
  - unfold readResponse in He. destruct (rs_calls w !! i) as [[req ph]|] eqn:Hi; [|done]. destruct ph as [| |k|]; try done.
    simpl in He. destruct (rs_conns w !! k) as [c|] eqn:Hk; [|done]. simpl in He.
    destruct (cn_closed c) eqn:Hcl; [done|]. destruct (cn_out c) as [|r out] eqn:Ho; [done|]. injection He as <-.
    pose proof (H5 _ _ _ k Hi eq_refl) as Hp. pose proof (H1 _ _ _ Hi eq_refl) as Hlast. pose proof (H3 _ _ Hk) as Hans.
    destruct (H4 k Hp) as (c0 & Hk0 & _ & (Hm1 & Hm2 & Hm3) & _). rewrite Hk in Hk0. injection Hk0 as <-.
    assert (out = [] /\ (r.1 ∈ (rs_log w).*1 \/ r.2 = invalid) /\ (cn_srv c = SReplied \/ cn_srv c = SClosed)) as (-> & Hr & Hs).
    { unfold answers in Hans. rewrite Ho in Hans. destruct (cn_srv c); [done|by destruct Hans| |];
        destruct Hans as [?|(jr & ? & ?)]; simplify_eq; auto. }
    assert (r.1 = i) as Hri by (specialize (Hm3 r); rewrite Ho in Hm3; specialize (Hm3 (list_elem_of_here _ _)); lia).
    eapply pooled_turn; [done|done|done|done|done|done| | |done| |].
    + unfold answers. simpl. destruct Hs as [-> | ->]; by left.
    + intros _. split_and!; simpl; [destruct Hs as [-> | ->]; done|destruct Hs as [-> | ->]; done|by intros jr []%elem_of_nil].
    + intros j r0 [= ->]. simpl in *. subst j. done.
    + intros _. by split.
  - unfold readFails in He. destruct (rs_calls w !! i) as [[req ph]|] eqn:Hi; [|done]. destruct ph as [| |k|]; try done.
    simpl in He. destruct (rs_conns w !! k) as [c|] eqn:Hk; [|done]. simpl in He.
    destruct (_ || deadline); simplify_eq. by eapply give_up_turn; [done|done| |intros k' []|].
  - unfold serveRead in He. destruct (rs_conns w !! k) as [c|] eqn:Hk; [|done]. simpl in He. pose proof (H3 _ _ Hk) as Hans.
    unfold answers in Hans. destruct (cn_srv c) eqn:Hs; try done. destruct (cn_in c) as [|[i req] rest] eqn:Hin.
    + destruct (cn_closed c) eqn:Hcl; simplify_eq. eapply server_turn; [done|done|done|done|by left| |].
      * intros (Hm1 & Hm2 & Hm3). split_and!; [done|done|exact Hm3].
      * intros [? [?|?]]; congruence.
    + assert (forall n0, mine n0 c -> Datatypes.S i = n0) as Hi.
      { intros n0 (Hm1 & _). apply (Hm1 Hs i req). rewrite Hin. by left. }
      destruct (decide _) as [Hn|]; [|done]. destruct (decide _) as [Hfit|_]; injection He as <-.
      * eapply server_turn; [done|done| |done| | |].
        -- intros j Hj. rewrite fmap_app, elem_of_app. by left.
        -- unfold answers. simpl. rewrite fmap_app, elem_of_app. split; [by right; left|done].
        -- intros Hm. pose proof (Hi _ Hm). destruct Hm as (Hm1 & Hm2 & Hm3). split_and!; [done| |exact Hm3].
           intros j req0 [= <- <-]. done.
        -- intros [? [?|?]]; congruence.
      * eapply server_turn; [done|done|done|done| | |].
        -- right. simpl. rewrite Hans. exists (i, invalid). auto.
        -- intros Hm. pose proof (Hi _ Hm). destruct Hm as (Hm1 & Hm2 & Hm3). split_and!; [done|done|]. simpl. rewrite Hans.
           by intros jr ->%list_elem_of_singleton.
        -- intros [? [?|?]]; congruence.
  - unfold serveReply in He. destruct (rs_conns w !! k) as [c|] eqn:Hk; [|done]. simpl in He. pose proof (H3 _ _ Hk) as Hans.
    unfold answers in Hans. destruct (cn_srv c) as [|i req| |] eqn:Hs; try done.
    destruct (handle req (rs_server w)) as [[s r]|]; simplify_eq/=. destruct Hans as [Hlog Ho].
    eapply server_turn; [done|done|done|done| | |].
    + right. simpl. rewrite Ho. exists (i, r). auto.
    + intros (Hm1 & Hm2 & Hm3). split_and!; [done|done|]. simpl. rewrite Ho. intros jr ->%list_elem_of_singleton. by eapply Hm2.
    + intros [? [?|?]]; congruence.
  - unfold serveClose in He. destruct (rs_conns w !! k) as [c|] eqn:Hk; [|done]. simpl in He. pose proof (H3 _ _ Hk) as Hans.
    unfold answers in Hans. destruct (cn_srv c) eqn:Hs; simplify_eq. eapply server_turn; [done|done|done|done|done| |].
    + intros (Hm1 & Hm2 & Hm3). by split_and!.
    + intros [? _]. split; [done|by right].
  - injection He as <-. by split.
Qed.

Lemma turn_run es w w' : run es w = Some w' -> in_turn es w -> turn_ok w -> turn_ok w'.
Proof.
  revert w. induction es as [|e es IH]; intros w; cbn [rpc_run in_turn]; [by intros [= ->]|].
  destruct (step e w) as [w1|] eqn:He; [|done]. intros Hrun [Hturn Hrest] Hok. eapply IH; [done|by apply Hrest|].
  by eapply turn_step.
Qed.

Lemma start_turn s : turn_ok (rpcStart s).
Proof. by split. Qed.
End turns.

(** ** The next call can be answered *)

Section progress.
Context {Req Resp S : Type} (size : Req -> Z) (invalid : Resp) (handle : Req -> S -> option (S * Resp)).
Abbreviation RS := (RpcState Req Resp S).
Abbreviation step := (rpc_step size invalid handle).
Abbreviation run := (rpc_run size invalid handle).
Abbreviation turns := (in_turn invalid size handle).

Definition no_call (e : RpcEvent (Req := Req) (S := S)) : Prop := match e with ECall _ => False | _ => True end.

Lemma run_app es1 es2 w : run (es1 ++ es2) w = run es1 w ≫= run es2.
Proof. revert w. induction es1 as [|e es1 IH]; intros w; simpl; [done|]. destruct (step e w); simpl; [apply IH|done]. Qed.

Lemma run_step e es w w1 : step e w = Some w1 -> run (e :: es) w = run es w1.
Proof. intros He. cbn [rpc_run]. by rewrite He. Qed.

Lemma in_turn_no_call es w : Forall no_call es -> turns es w.
Proof. intros Hes. revert w. induction Hes as [|e es He _ IH]; intros w; simpl; [done|]. split; [by destruct e|auto]. Qed.

Lemma in_turn_call req es w : all_done w -> Forall no_call es -> turns (ECall req :: es) w.
Proof. intros Hall Hes. simpl. split; [done|]. intros w' _. by apply in_turn_no_call. Qed.

Lemma in_turn_app es1 es2 w w' : Forall no_call es1 -> run es1 w = Some w' -> turns es2 w' -> turns (es1 ++ es2) w.
Proof.
  intros Hes Hrun Ht. revert w Hrun. induction Hes as [|e es1 He _ IH]; intros w Hrun; simpl in *.
  - by injection Hrun as ->.
  - split; [by destruct e|]. intros w1 Hw1. apply IH. by rewrite Hw1 in Hrun.
Qed.

(** With an empty pool a call gets a connection of its own. *)
Lemma fresh_run i req again (w : RS) s r :
  rs_calls w !! i = Some (req, PGetConn again) -> rs_pool w = None -> 1 <= size req <= requestBuffer ->
  handle req (rs_server w) = Some (s, r) ->
  let k := length (rs_conns w) in
  exists w', run [EGetConn i true; EWrite i true; EServeRead k (size req); EServeReply k; ERead i] w = Some w' /\
    rs_calls w' !! i = Some (req, PDone (Ok (i, r))) /\ rs_server w' = s.
Proof.
  intros Hi Hp Hsz Hh k.
  set (w1 := set_phase i (PWrite again k) (mkRpc (rs_calls w) (Some k) (rs_conns w ++ [dialed]) (rs_server w) (rs_log w))).
  assert (rs_calls w1 !! i = Some (req, PWrite again k)) as Hi1 by (simpl; by rewrite list_lookup_alter_eq, Hi).
  assert (rs_conns w1 !! k = Some dialed) as Hk1 by (simpl; by rewrite list_lookup_middle).
  rewrite (run_step _ _ w w1) by (simpl; rewrite Hi; simpl; unfold getConn; by rewrite Hp).
  set (w2 := set_phase i (PRead k) (set_conn k (mkConn [(i, req)] [] SReading false) w1)).
  assert (rs_calls w2 !! i = Some (req, PRead k)) as Hi2.
  { unfold w2. cbn [set_phase set_conn rs_calls]. by rewrite list_lookup_alter_eq, Hi1. }
  assert (rs_conns w2 !! k = Some (mkConn [(i, req)] [] SReading false)) as Hk2.
  { unfold w2. cbn [set_phase set_conn rs_conns]. rewrite list_lookup_insert_eq; [done|by eapply lookup_lt_Some]. }
  rewrite (run_step _ _ w1 w2).
  2:{ cbn [rpc_step]. unfold writeRequest. rewrite Hi1. cbn [mbind option_bind]. by rewrite Hk1. }
  set (w3 := mkRpc (rs_calls w2) (rs_pool w2) (<[k := mkConn [] [] (SHandling i req) false]> (rs_conns w2)) (rs_server w2)
    (rs_log w2 ++ [(i, k)])).
  assert (rs_conns w3 !! k = Some (mkConn [] [] (SHandling i req) false)) as Hk3.
  { unfold w3. cbn [rs_conns]. rewrite list_lookup_insert_eq; [done|by eapply lookup_lt_Some]. }
  rewrite (run_step _ _ w2 w3).
  2:{ cbn [rpc_step]. unfold serveRead. rewrite Hk2. cbn [mbind option_bind cn_srv cn_in].
      rewrite decide_True by (unfold waitingBytes; simpl; lia). by rewrite decide_True by lia. }
  set (w4 := mkRpc (rs_calls w3) (rs_pool w3) (<[k := mkConn [] [(i, r)] SReplied false]> (rs_conns w3)) s (rs_log w3)).
  assert (rs_conns w4 !! k = Some (mkConn [] [(i, r)] SReplied false)) as Hk4.
  { unfold w4. cbn [rs_conns]. rewrite list_lookup_insert_eq; [done|by eapply lookup_lt_Some]. }
  rewrite (run_step _ _ w3 w4).
  2:{ cbn [rpc_step]. unfold serveReply. rewrite Hk3. cbn [mbind option_bind cn_srv].
      change (rs_server w3) with (rs_server w). by rewrite Hh. }
  eexists. split.
  - erewrite run_step; [reflexivity|]. cbn [rpc_step]. unfold readResponse. change (rs_calls w4) with (rs_calls w2). rewrite Hi2.
    cbn [mbind option_bind]. rewrite Hk4. reflexivity.
  - split; [|done]. cbn [set_phase set_conn rs_calls]. change (rs_calls w4) with (rs_calls w2). by rewrite list_lookup_alter_eq, Hi2.
Qed.

Lemma next_call (w : RS) req s r :
  turn_ok invalid w -> all_done w -> 1 <= size req <= requestBuffer -> handle req (rs_server w) = Some (s, r) ->
  exists es w', turns es w /\ run es w = Some w' /\
    rs_calls w' !! length (rs_calls w) = Some (req, PDone (Ok (length (rs_calls w), r))) /\ rs_server w' = s.
Proof.
  intros Hok Hall Hsz Hh. set (i := length (rs_calls w)).
  set (called := fun v : RS => mkRpc (rs_calls v ++ [(req, PGetConn false)]) (rs_pool v) (rs_conns v) (rs_server v) (rs_log v)).
  assert (rs_calls (called w) !! i = Some (req, PGetConn false)) as Hi by (simpl; by rewrite list_lookup_middle).
  destruct (rs_pool w) as [k|] eqn:Hp.
  2:{ destruct (fresh_run i req false (called w) s r Hi Hp Hsz Hh) as (w' & Hrun & Hres).
      exists (ECall req :: [EGetConn i true; EWrite i true; EServeRead (length (rs_conns w)) (size req);
        EServeReply (length (rs_conns w)); ERead i]), w'. split; [apply in_turn_call; [done|by repeat constructor]|].
      split; [exact Hrun|exact Hres]. }
  destruct (tn_pool _ _ Hok k Hp) as (c & Hk & Hcl & _ & Hidle). destruct (Hidle Hall) as [Ho Hs].
  (* the server's end is closed first, and the write notices it *)
  set (gone := set_conn k (mkConn (cn_in c) (cn_out c) SClosed (cn_closed c)) w).
  assert (exists es, Forall no_call es /\ run es w = Some gone) as (es0 & Hes0 & Hrun0).
  { destruct Hs as [Hs|Hs].
    - exists [EServeClose k]. split; [by repeat constructor|]. simpl. unfold serveClose. rewrite Hk. simpl. by rewrite Hs.
    - exists []. split; [constructor|]. simpl. f_equal. unfold gone, set_conn. destruct w. simpl in *. f_equal.
      rewrite list_insert_id; [done|]. rewrite Hk. f_equal. destruct c. simpl in *. congruence. }
  set (w1 := set_phase i (PGetConn true) (closeConn (set_phase i (PWrite false k) (called gone)))).
  assert (rs_conns (called gone) !! k = Some (mkConn (cn_in c) (cn_out c) SClosed (cn_closed c))) as Hkg.
  { simpl. rewrite list_lookup_insert_eq; [done|by eapply lookup_lt_Some]. }
  assert (run [ECall req; EGetConn i true; EWrite i true] gone = Some w1) as Hrun1.
  { rewrite (run_step _ _ gone (called gone)) by done.
    rewrite (run_step _ _ (called gone) (set_phase i (PWrite false k) (called gone))).
    2:{ cbn [rpc_step]. change (rs_calls (called gone)) with (rs_calls (called w)). rewrite Hi. cbn [mbind option_bind].
        unfold getConn. change (rs_pool (called gone)) with (rs_pool w). by rewrite Hp. }
    erewrite run_step; [reflexivity|]. cbn [rpc_step]. unfold writeRequest. cbn [set_phase rs_calls rs_conns].
    change (rs_calls (called gone)) with (rs_calls (called w)). rewrite list_lookup_alter_eq, Hi.
    cbn [fmap option_fmap option_map fst mbind option_bind]. rewrite Hkg. cbn [mbind option_bind cn_closed cn_srv].
    by rewrite orb_true_r. }
  assert (rs_calls w1 !! i = Some (req, PGetConn true)) as Hi1.
  { unfold w1. simpl. rewrite list_lookup_alter_eq, closeConn_calls. simpl. by rewrite list_lookup_alter_eq, list_lookup_middle. }
  assert (rs_pool w1 = None /\ rs_server w1 = rs_server w) as [Hp1 Hsv1].
  { unfold w1, closeConn. simpl. by rewrite Hp. }
  destruct (fresh_run i req true w1 s r Hi1 Hp1 Hsz) as (w' & Hrun & Hres); [by rewrite Hsv1|].
  set (k1 := length (rs_conns w1)) in Hrun.
  exists ((es0 ++ [ECall req; EGetConn i true; EWrite i true]) ++
    [EGetConn i true; EWrite i true; EServeRead k1 (size req); EServeReply k1; ERead i]), w'. split; [|split; [|exact Hres]].
  - rewrite <-app_assoc. cbn [app]. eapply in_turn_app; [done|exact Hrun0|]. apply in_turn_call; [exact Hall|by repeat constructor].
  - rewrite run_app, run_app, Hrun0. cbn [mbind option_bind]. by rewrite Hrun1.
Qed.
End progress.

(** C?: calls that are made one after another are answered with their own responses.
    Under every schedule a connection serves at most one request, a request is served at
    most once, and a request whose text is longer than the read buffer is never served.
    When each call is made after the one before has returned, whatever writes are lost,
    reads fail and deadlines pass, a call that returns a response returns the one to its
    own request, and the request was served, unless the response says that its text was no
    request; and the next call can always be answered when its text fits the buffer and its
    handler answers. *)
Theorem rpc_in_turn {Req Resp S} (size : Req -> Z) (invalid : Resp) (handle : Req -> S -> option (S * Resp)) es s w :
  rpc_run size invalid handle es (rpcStart s) = Some w ->
  (NoDup (rs_log w).*1 /\ NoDup (rs_log w).*2 /\
   forall i req ph, rs_calls w !! i = Some (req, ph) -> i ∈ (rs_log w).*1 -> size req <= requestBuffer) /\
  (in_turn invalid size handle es (rpcStart s) ->
   (forall i req j r, rs_calls w !! i = Some (req, PDone (Ok (j, r))) -> j = i /\ (i ∈ (rs_log w).*1 \/ r = invalid)) /\
   (forall req s' r, all_done w -> 1 <= size req <= requestBuffer -> handle req (rs_server w) = Some (s', r) ->
      exists es' w', in_turn invalid size handle es' w /\ rpc_run size invalid handle es' w = Some w' /\
        rs_calls w' !! length (rs_calls w) = Some (req, PDone (Ok (length (rs_calls w), r))) /\ rs_server w' = s')).
Proof.
  intros Hrun. pose proof (run_ok size invalid handle _ _ _ Hrun (start_ok size s)) as Hok. split.
  - split_and!; [|exact (so_conns _ _ Hok)|exact (so_fits _ _ Hok)].
    pose proof (so_once _ _ Hok) as Hnd. unfold on_the_way in Hnd. by apply NoDup_app in Hnd as (_ & _ & ?).
  - intros Hturn. pose proof (turn_run invalid size handle _ _ _ Hrun Hturn (start_turn invalid s)) as Ht. split.
    + apply (tn_ok _ _ Ht).
    + intros req s' r Hall Hsz Hh. by eapply next_call.
Qed.

(** ** An example: a ping, and an exec that waits for an approval *)

Inductive DemoReq := DPing | DExec | DApprove.
Definition demo_size (r : DemoReq) : Z := 40.
Definition demo_handle (r : DemoReq) (approved : bool) : option (bool * string) :=
  match r with
  | DPing => Some (approved, "pong")
  | DExec => if approved then Some (approved, "done") else None
  | DApprove => Some (true, "ok")
  end.
Abbreviation demo_run := (rpc_run demo_size "invalid" demo_handle).

Definition pinged : list (RpcEvent (Req := DemoReq) (S := bool)) :=
  [ECall DPing; EGetConn 0 true; EWrite 0 true; EServeRead 0 41; EServeReply 0; ERead 0].

Lemma rpc_in_turn_witness :
  exists w, demo_run pinged (rpcStart false) = Some w /\ rs_calls w !! 0%nat = Some (DPing, PDone (Ok (0%nat, "pong"))) /\
    exists es' w', demo_run es' w = Some w' /\ rs_calls w' !! 1%nat = Some (DPing, PDone (Ok (1%nat, "pong"))).
Proof.
  eexists. split; [vm_compute; reflexivity|]. split; [vm_compute; reflexivity|].
  refine (match proj2 (proj2 (rpc_in_turn demo_size "invalid" demo_handle pinged false _ _) _) DPing false "pong" _ _ _ with
          | ex_intro _ es' (ex_intro _ w' (conj _ (conj H1 (conj H2 _)))) => ex_intro _ es' (ex_intro _ w' (conj H1 H2))
          end).
  - vm_compute. reflexivity.
  - apply in_turn_call; [by intros [|i] req ph|by repeat constructor].
  - intros [|i] req ph; intros H; vm_compute in H; [injection H as _ <-; reflexivity|discriminate H].
  - vm_compute. split; discriminate.
  - vm_compute. reflexivity.
Defined.

(** ** What the channel leaves open *)

(** A response is not matched with its request. A call made while another waits on the
    pooled connection is handed the response of the other, and its own request is never
    served; the other call fails. *)
Lemma response_mixed_up :
  exists w, demo_run
    [ECall DExec; EGetConn 0 true; EWrite 0 true; EServeRead 0 40;
     ECall DApprove; EGetConn 1 true; EWrite 1 true;
     EServer true; EServeReply 0; ERead 1; EServeClose 0; EReadFails 0 false] (rpcStart false) = Some w /\
    rs_calls w = [(DExec, PDone (Err ReadFailed)); (DApprove, PDone (Ok (0%nat, "done")))] /\ rs_log w = [(0%nat, 0%nat)].
Proof. eexists. split; [vm_compute; reflexivity|]. split; reflexivity. Qed.

(** The server closes a connection after its one request, but the client keeps it. A call
    that writes before the close is seen is lost, though both sides are well. *)
Lemma next_call_lost :
  exists w, demo_run (pinged ++ [ECall DPing; EGetConn 1 true; EWrite 1 true; EServeClose 0; EReadFails 1 false]) (rpcStart false) = Some w /\
    rs_calls w !! 1%nat = Some (DPing, PDone (Err ReadFailed)) /\ rs_server w = false.
Proof. eexists. split; [vm_compute; reflexivity|]. split; reflexivity. Qed.

(** While a call waits for a handler on the pooled connection nothing else is served, by
    whatever calls and steps, until that handler answers or a deadline passes. An exec
    that waits at the approval gate can therefore not be approved through the same
    client. *)
Record starving {Req Resp S} (i k : nat) (w : RpcState Req Resp S) : Prop := {
  st_pool : rs_pool w = Some k;
  st_conn : exists c req, rs_conns w !! k = Some c /\ cn_srv c = SHandling i req /\ cn_closed c = false /\ cn_out c = [];
  st_calls j req ph k' : rs_calls w !! j = Some (req, ph) -> uses ph k' -> k' = k;
  st_others j c : rs_conns w !! j = Some c -> j <> k -> cn_srv c <> SReading
}.

Definition not_answered {Req S} (k : nat) (e : RpcEvent (Req := Req) (S := S)) : Prop :=
  match e with EReadFails _ deadline => deadline = false | EServeReply k' => k' <> k | _ => True end.

Section starve.
Context {Req Resp S : Type} (size : Req -> Z) (invalid : Resp) (handle : Req -> S -> option (S * Resp)) (i k : nat).

Lemma starving_phase j ph (w : RpcState Req Resp S) :
  (forall k', uses ph k' -> k' = k) -> starving i k w -> starving i k (set_phase j ph w).
Proof.
  intros Hu [H1 H2 H3 H4]. split; [done|done| |done].
  intros j' req ph' k' [(-> & -> & _)|[_ Hj]]%phase_lookup Hk'; [by apply Hu|by eapply H3].
Qed.

Lemma starving_conn j c c' (w : RpcState Req Resp S) (s : S) log :
  rs_conns w !! j = Some c -> (j = k -> cn_srv c' = cn_srv c /\ cn_closed c' = cn_closed c /\ cn_out c' = cn_out c) ->
  (j <> k -> cn_srv c' <> SReading) -> starving i k w ->
  starving i k (mkRpc (rs_calls w) (rs_pool w) (<[j := c']> (rs_conns w)) s log).
Proof.
  intros Hj Hsame Hr [H1 (c0 & req & Hk & Hs & Hcl & Ho) H3 H4]. split; simpl; [done| |done|].
  - destruct (decide (j = k)) as [->|Hne].
    + rewrite Hk in Hj. injection Hj as <-. destruct (Hsame eq_refl) as (E1 & E2 & E3). exists c', req.
      rewrite list_lookup_insert_eq by (by eapply lookup_lt_Some). split_and!; congruence.
    + exists c0, req. by rewrite list_lookup_insert_ne.
  - intros j' c1 Hj' Hne. destruct (decide (j = j')) as [<-|Hne'].
    + rewrite list_lookup_insert_eq in Hj' by (by eapply lookup_lt_Some). injection Hj' as <-. auto.
    + rewrite list_lookup_insert_ne in Hj' by done. eauto.
Qed.

Lemma starving_step e w w' :
  rpc_step size invalid handle e w = Some w' -> not_answered k e -> starving i k w -> starving i k w' /\ rs_log w' = rs_log w.
Proof.
  intros He Hn Hst. pose proof Hst as [H1 (c0 & req0 & Hk0 & Hs0 & Hcl0 & Ho0) H3 H4].
  destruct e as [req|j dial|j noticed|j|j deadline|k' n|k'|k'|s]; simpl in He, Hn.
  - injection He as <-. split; [|done]. split; simpl; [done|by exists c0, req0| |done].
    intros j req1 ph k' [Hj|[_ Hj]]%lookup_app_Some Hu; [by eapply H3|]. apply list_lookup_singleton_Some in Hj as [_ ?]. by simplify_eq.
  - destruct (rs_calls w !! j) as [[req ph]|] eqn:Hj; [|done]. destruct ph; simplify_eq/=. unfold getConn. rewrite H1.
    split; [|done]. apply starving_phase; [by intros k' ->|done].
  - unfold writeRequest in He. destruct (rs_calls w !! j) as [[req ph]|] eqn:Hj; [|done]. destruct ph as [|again k'| |]; try done.
    simpl in He. pose proof (H3 _ _ _ k' Hj eq_refl) as ->. rewrite Hk0 in He. simpl in He. rewrite Hcl0, Hs0 in He.
    injection He as <-. split; [|done]. apply starving_phase; [by intros k' ->|]. eapply starving_conn; [done|by rewrite Hs0, Hcl0|done|done].
  - unfold readResponse in He. destruct (rs_calls w !! j) as [[req ph]|] eqn:Hj; [|done]. destruct ph as [| |k'|]; try done.
    simpl in He. pose proof (H3 _ _ _ k' Hj eq_refl) as ->. rewrite Hk0 in He. simpl in He. by rewrite Hcl0, Ho0 in He.
  - unfold readFails in He. destruct (rs_calls w !! j) as [[req ph]|] eqn:Hj; [|done]. destruct ph as [| |k'|]; try done.
    simpl in He. pose proof (H3 _ _ _ k' Hj eq_refl) as ->. rewrite Hk0 in He. subst deadline. cbn in He. rewrite Hcl0, Hs0 in He. by simpl in He.
  - unfold serveRead in He. destruct (rs_conns w !! k') as [c|] eqn:Hk; [|done]. simpl in He.
    destruct (cn_srv c) eqn:Hs; try done. destruct (decide (k' = k)) as [->|Hne]; [simplify_eq; congruence|]. by destruct (H4 _ _ Hk Hne).
  - unfold serveReply in He. destruct (rs_conns w !! k') as [c|] eqn:Hk; [|done]. simpl in He.
    destruct (cn_srv c) as [|j req| |] eqn:Hs; try done. destruct (handle _ _) as [[s r]|]; simplify_eq/=. split; [|done].
    by eapply starving_conn.
  - unfold serveClose in He. destruct (rs_conns w !! k') as [c|] eqn:Hk; [|done]. simpl in He.
    destruct (cn_srv c) eqn:Hs; simplify_eq. split; [|done]. eapply starving_conn; [done| |done|done].
    intros ->. simplify_eq. congruence.
  - injection He as <-. split; [|done]. by split; [|exists c0, req0|..].
Qed.

Lemma exec_starves es w w' :
  rpc_run size invalid handle es w = Some w' -> Forall (not_answered k) es -> starving i k w -> rs_log w' = rs_log w.
Proof.
  intros Hrun Hes. revert w Hrun. induction Hes as [|e es He _ IH]; intros w; cbn [rpc_run]; [by intros [= ->]|].
  destruct (rpc_step _ _ _ e w) as [w1|] eqn:Hw1; [|done]. intros Hrun Hst. destruct (starving_step _ _ _ Hw1 He Hst) as [Hst1 <-].
  by apply IH.
Qed.
End starve.

(** The exec of the example is such a call, and the approval of it is not served. *)
Lemma approval_starves :
  exists w, demo_run [ECall DExec; EGetConn 0 true; EWrite 0 true; EServeRead 0 40] (rpcStart false) = Some w /\ starving 0 0 w.
Proof.
  eexists. split; [vm_compute; reflexivity|]. split; simpl; [done| | |].
  - eexists _, _. split_and!; reflexivity.
  - intros [|j] req ph k' [= <- <-] Hu. by rewrite Hu.
  - by intros [|j] c.
Qed.
