(* ===== verification/ServiceProcess.v ===== *)
(** * Service processes ([src/internal/supervisor/exec.go])

    The log ring buffer, the shell command line and environment of a service, and
    the loop that restarts it. Running a process, its exit codes and the clock are
    inputs of the loop. *)

From stdpp Require Import options.
From Stdlib Require Import Ascii Sorted.
From S2P Require Import Prelude GoStrings GoPath Words Policy Executor.
Open Scope nat_scope.

(** ** The ring buffer *)

Record RingBuffer := mkRing {
  rb_lines : list string;
  rb_cap : nat;
  rb_pos : nat;
  rb_full : bool;
  rb_partial : string
}.

Definition NewRingBuffer (cap : nat) : RingBuffer := mkRing (replicate cap "") cap 0 false "".

(** [rb.lines[rb.pos] = line; rb.pos = (rb.pos + 1) % rb.cap; ..] *)
Definition WriteLine (line : string) (rb : RingBuffer) : go RingBuffer :=
  if rb_pos rb <? length (rb_lines rb) then
    if rb_cap rb =? 0 then Err PanicDivide
    else
      let pos := (rb_pos rb + 1) mod rb_cap rb in
      Ok (mkRing (<[rb_pos rb := line]> (rb_lines rb)) (rb_cap rb) pos
            (rb_full rb || (pos =? 0)) (rb_partial rb))
  else Err PanicBounds.

Definition set_partial (s : string) (rb : RingBuffer) : RingBuffer :=
  mkRing (rb_lines rb) (rb_cap rb) (rb_pos rb) (rb_full rb) s.

Definition newline : ascii := "010"%char.

(** The loop of [Write]; the data gets shorter by at least the newline. *)
Fixpoint splitLoop (fuel : nat) (data : string) (rb : RingBuffer) : go RingBuffer :=
  match fuel with
  | O => Err OutOfFuel
  | S fuel =>
      match Cut data newline with
      | (_, None) => Ok (set_partial data rb)
      | (line, Some data) => rb ← WriteLine line rb; splitLoop fuel data rb
      end
  end.

Definition Write (p : string) (rb : RingBuffer) : go RingBuffer :=
  let data := rb_partial rb +:+ p in
  splitLoop (S (String.length data)) data (set_partial "" rb).

(** [rb.lines[i]] *)
Definition lineAt (rb : RingBuffer) (i : nat) : go string :=
  match rb_lines rb !! i with Some l => Ok l | None => Err PanicBounds end.

Definition Lines (n : Z) (rb : RingBuffer) : go (list string) :=
  let total := if rb_full rb then rb_cap rb else rb_pos rb in
  let n := if ((n <=? 0) || (Z.of_nat total <? n))%Z then total else Z.to_nat n in
  if n =? 0 then Ok []
  else
    let start := if rb_pos rb <? n then rb_pos rb + rb_cap rb - n else rb_pos rb - n in
    mapM (fun i => lineAt rb ((start + i) mod rb_cap rb)) (seq 0 n).

Definition Flush (rb : RingBuffer) : go RingBuffer :=
  if 0 <? String.length (rb_partial rb)
  then rb ← WriteLine (rb_partial rb) rb; Ok (set_partial "" rb)
  else Ok rb.

(** ** What the buffer promises: the last lines of the log *)

(** The log so far: its complete lines and the text after the last newline. *)
Definition lastn {A} (n : nat) (l : list A) : list A := drop (length l - n) l.

Definition shown (cap : nat) (n : Z) (log : list string) : list string :=
  let total := min cap (length log) in
  lastn (if ((n <=? 0) || (Z.of_nat total <? n))%Z then total else Z.to_nat n) log.

(** The ring holds the last [cap] lines of [log]. *)
Record ring_log (cap : nat) (log : list string) (rb : RingBuffer) : Prop := {
  ring_cap : rb_cap rb = cap;
  ring_len : length (rb_lines rb) = cap;
  ring_pos : rb_pos rb = length log mod cap;
  ring_full : rb_full rb = (cap <=? length log);
  ring_lines k : length log - cap <= k < length log -> rb_lines rb !! (k mod cap) = log !! k
}.

Lemma ring_log_New cap : 0 < cap -> ring_log cap [] (NewRingBuffer cap).
Proof.
  intros Hc. constructor; simpl; [done|by rewrite length_replicate| | |lia].
  - rewrite Nat.Div0.mod_0_l. done.
  - symmetry. apply Nat.leb_gt. lia.
Qed.

Lemma ring_log_partial cap log rb s : ring_log cap log rb -> ring_log cap log (set_partial s rb).
Proof. by intros [H1 H2 H3 H4 H5]; constructor. Qed.

Lemma mod_window a b c : 0 < c -> a < b -> b < a + c -> a mod c <> b mod c.
Proof.
  intros Hc Hab Hba Heq. pose proof (Nat.div_mod_eq a c). pose proof (Nat.div_mod_eq b c).
  assert (c * (b / c) = c * (a / c) + (b - a)) as Hd by lia.
  assert (b / c <= a / c \/ a / c + 1 <= b / c) as [Hle|Hle] by lia; nia.
Qed.

Lemma WriteLine_log cap log rb line :
  0 < cap -> ring_log cap log rb ->
  exists rb', WriteLine line rb = Ok rb' /\ rb_partial rb' = rb_partial rb /\
    ring_log cap (log ++ [line]) rb'.
Proof.
  intros Hc [H1 H2 H3 H4 H5]. unfold WriteLine.
  assert (length log mod cap < cap) as Hlt by (apply Nat.mod_upper_bound; lia).
  rewrite (proj2 (Nat.ltb_lt _ _)) by lia. rewrite (proj2 (Nat.eqb_neq (rb_cap rb) 0)) by lia.
  eexists. split_and!; [done..|].
  assert ((rb_pos rb + 1) mod rb_cap rb = length (log ++ [line]) mod cap) as Hpos.
  { rewrite H1, H3, length_app. simpl. by rewrite Nat.Div0.add_mod_idemp_l. }
  constructor; simpl; [done|by rewrite length_insert|done| |].
  - rewrite Hpos, H4, length_app. simpl.
    destruct (Nat.leb_spec cap (length log)) as [Hle|Hgt]; simpl.
    + symmetry. apply Nat.leb_le. lia.
    + destruct (decide (length log + 1 = cap)) as [Heq|Hne].
      * rewrite Heq, Nat.Div0.mod_same. symmetry. apply Nat.leb_le. lia.
      * rewrite Nat.mod_small by lia. rewrite (proj2 (Nat.eqb_neq _ 0)) by lia.
        symmetry. apply Nat.leb_gt. lia.
  - intros k Hk. rewrite length_app in Hk. simpl in Hk. rewrite H3.
    destruct (decide (k = length log)) as [->|Hne].
    + rewrite list_lookup_insert_eq by lia. by rewrite list_lookup_middle.
    + rewrite list_lookup_insert_ne by (apply not_eq_sym, mod_window; lia).
      rewrite lookup_app_l by lia. apply H5. lia.
Qed.

Lemma mapM_seq {A} (f : nat -> go A) (l : list A) off :
  (forall i x, l !! i = Some x -> f (off + i) = Ok x) -> mapM f (seq off (length l)) = Ok l.
Proof.
  revert off. induction l as [|x l IH]; intros off Hf; [done|].
  change (mapM f (seq off (length (x :: l)))) with
    (y ← f off; k ← mapM f (seq (S off) (length l)); mret (y :: k)).
  pose proof (Hf 0 x eq_refl) as H0. rewrite Nat.add_0_r in H0. rewrite H0.
  change ((k ← mapM f (seq (S off) (length l)); mret (x :: k)) = Ok (x :: l)).
  rewrite (IH (S off)); [done|]. intros i y Hy. replace (S off + i) with (off + S i) by lia. by apply Hf.
Qed.

Lemma window_index L cap n i :
  0 < cap -> n <= cap -> n <= L ->
  ((if L mod cap <? n then L mod cap + cap - n else L mod cap - n) + i) mod cap =
  (L - n + i) mod cap.
Proof.
  intros Hc Hn HL. pose proof (Nat.div_mod_eq L cap) as HD.
  assert (L mod cap < cap) by (apply Nat.mod_upper_bound; lia).
  destruct (Nat.ltb_spec (L mod cap) n).
  - assert (1 <= L / cap) by (destruct (L / cap); lia).
    replace (L - n + i) with (L mod cap + cap - n + i + (L / cap - 1) * cap) by nia.
    by rewrite Nat.Div0.mod_add.
  - replace (L - n + i) with (L mod cap - n + i + (L / cap) * cap) by lia.
    by rewrite Nat.Div0.mod_add.
Qed.

Lemma length_lastn {A} n (l : list A) : n <= length l -> length (lastn n l) = n.
Proof. unfold lastn. rewrite length_drop. lia. Qed.

Lemma Lines_log cap log rb n :
  0 < cap -> ring_log cap log rb -> Lines n rb = Ok (shown cap n log).
Proof.
  intros Hc [H1 H2 H3 H4 H5]. unfold Lines, shown.
  replace (if rb_full rb then rb_cap rb else rb_pos rb) with (min cap (length log)).
  2: { rewrite H4, H3, H1. destruct (Nat.leb_spec cap (length log)); [lia|].
       rewrite Nat.mod_small; lia. }
  set (total := min cap (length log)).
  set (m := if ((n <=? 0) || (Z.of_nat total <? n))%Z then total else Z.to_nat n).
  assert (m <= total) as Hm.
  { unfold m. destruct ((n <=? 0)%Z || _) eqn:Hb; [done|]. bool_props. lia. }
  destruct (Nat.eqb_spec m 0) as [->|Hm0].
  { unfold lastn. rewrite Nat.sub_0_r, drop_all. done. }
  replace (seq 0 m) with (seq 0 (length (lastn m log))) by (rewrite length_lastn; [done|lia]).
  apply mapM_seq. intros i x Hx.
  assert (i < m) as Hi.
  { apply lookup_lt_Some in Hx. rewrite length_lastn in Hx; lia. }
  rewrite H3, H1, Nat.add_0_l, window_index by lia.
  unfold lineAt. rewrite H5 by lia. unfold lastn in Hx. rewrite lookup_drop in Hx. by rewrite Hx.
Qed.

(** The pieces of a text: complete lines, and what follows the last newline. *)
Definition complete_lines (text : string) : list string := removelast (Split text newline).
Definition open_line (text : string) : string := List.last (Split text newline) "".

Lemma Cut_Split s sep :
  match Cut s sep with
  | (a, None) => a = s /\ Split s sep = [s]
  | (a, Some b) => Split s sep = a :: Split b sep /\ String.length b < String.length s
  end.
Proof.
  induction s as [|c s IH]; [done|]. simpl. destruct (decide (c = sep)); [simpl; split; [done|lia]|].
  destruct (Cut s sep) as [a [b|]]; destruct IH as [H1 H2].
  - rewrite H1. split; [done|lia].
  - rewrite H2. by rewrite H1.
Qed.

Lemma splitLoop_log cap log fuel data rb :
  0 < cap -> ring_log cap log rb -> String.length data < fuel ->
  exists rb', splitLoop fuel data rb = Ok rb' /\ rb_partial rb' = open_line data /\
    ring_log cap (log ++ complete_lines data) rb'.
Proof.
  revert log data rb. induction fuel as [|fuel IH]; intros log data rb Hc Hr Hf; [lia|].
  cbn [splitLoop]. pose proof (Cut_Split data newline) as Hcut. unfold open_line, complete_lines.
  destruct (Cut data newline) as [a [b|]]; destruct Hcut as [H1 H2].
  - destruct (WriteLine_log cap log rb a Hc Hr) as (rb1 & Hw & _ & Hr1). rewrite Hw, H1.
    cbn [mbind result_bind].
    destruct (IH _ b rb1 Hc Hr1) as (rb2 & Hrun & Hp & Hr2); [lia|].
    exists rb2. split; [done|]. pose proof (Split_not_nil b newline) as Hne.
    unfold open_line, complete_lines in *. rewrite <-app_assoc in Hr2.
    destruct (Split b newline) as [|x xs]; [done|]. done.
  - rewrite H2. simpl. eexists. split; [done|]. rewrite app_nil_r. split; [done|].
    by apply ring_log_partial.
Qed.

(** Lines split before and after a text is appended to a partial one. *)
Lemma Split_app_gen s t sep :
  Split (s +:+ t) sep =
  removelast (Split s sep) ++ Split (List.last (Split s sep) "" +:+ t) sep.
Proof.
  induction s as [|c s IH]; [done|]. rewrite str_app_cons. cbn [Split].
  pose proof (Split_not_nil s sep) as Hne. destruct (decide (c = sep)) as [|Hc].
  - rewrite IH. destruct (Split s sep) as [|x xs]; [done|]. done.
  - rewrite IH. destruct (Split s sep) as [|x [|y xs]]; [done| |done].
    cbn [removelast List.last app]. rewrite str_app_cons. cbn [Split]. by rewrite decide_False.
Qed.

Lemma pieces_app s t :
  complete_lines (s +:+ t) = complete_lines s ++ complete_lines (open_line s +:+ t) /\
  open_line (s +:+ t) = open_line (open_line s +:+ t).
Proof.
  unfold complete_lines, open_line. rewrite (Split_app_gen s t newline).
  pose proof (Split_not_nil (List.last (Split s newline) "" +:+ t) newline) as Hne.
  split; [by apply removelast_app|].
  destruct (exists_last Hne) as (l & x & ->). by rewrite app_assoc, !last_last.
Qed.

(** ** A run of the buffer *)

Fixpoint writes (chunks : list string) (rb : RingBuffer) : go RingBuffer :=
  match chunks with
  | [] => Ok rb
  | p :: chunks => rb ← Write p rb; writes chunks rb
  end.

Definition ring_text (cap : nat) (text : string) (rb : RingBuffer) : Prop :=
  ring_log cap (complete_lines text) rb /\ rb_partial rb = open_line text.

Lemma Write_text cap text p rb :
  0 < cap -> ring_text cap text rb ->
  exists rb', Write p rb = Ok rb' /\ ring_text cap (text +:+ p) rb'.
Proof.
  intros Hc [Hr Hp]. unfold Write. rewrite Hp.
  destruct (splitLoop_log cap (complete_lines text) (S (String.length (open_line text +:+ p)))
              (open_line text +:+ p) (set_partial "" rb)) as (rb' & Hw & Hp' & Hr');
    [done|by apply ring_log_partial|lia|].
  exists rb'. split; [done|]. destruct (pieces_app text p) as [H1 H2].
  split; [by rewrite H1|congruence].
Qed.

Lemma writes_text cap text chunks rb :
  0 < cap -> ring_text cap text rb ->
  exists rb', writes chunks rb = Ok rb' /\ ring_text cap (text +:+ foldr String.append "" chunks) rb'.
Proof.
  intros Hc. revert text rb. induction chunks as [|p chunks IH]; intros text rb Hr.
  - exists rb. simpl. by rewrite str_app_nil_r.
  - destruct (Write_text cap text p rb Hc Hr) as (rb1 & Hw & Hr1). cbn [writes]. rewrite Hw.
    cbn [mbind result_bind]. destruct (IH _ _ Hr1) as (rb2 & Hrun & Hr2).
    exists rb2. split; [done|]. cbn [foldr]. by rewrite str_app_assoc in Hr2.
Qed.

(** However its output is cut into writes, a ring of positive capacity never
    panics and shows the last lines of the text written: [Lines n] returns the
    last [n] complete lines (all that are kept when [n] is not positive or too
    large), and after [Flush] an unfinished last line counts as well. *)
Theorem ring_shows_last_lines cap chunks n :
  0 < cap ->
  exists rb, writes chunks (NewRingBuffer cap) = Ok rb /\
    Lines n rb = Ok (shown cap n (complete_lines (foldr String.append "" chunks))) /\
    exists rb', Flush rb = Ok rb' /\
      Lines n rb' = Ok (shown cap n (complete_lines (foldr String.append "" chunks) ++
                                     filter (fun l => l <> "") [open_line (foldr String.append "" chunks)])).
Proof.
  intros Hc.
  destruct (writes_text cap "" chunks (NewRingBuffer cap) Hc) as (rb & Hw & Hr & Hp).
  { split; [by apply ring_log_New|done]. }
  rewrite str_app_nil_l in Hr, Hp. exists rb. split_and!; [done|by apply Lines_log|].
  unfold Flush. rewrite filter_cons, filter_nil, Hp.
  destruct (open_line _) as [|c s]; simpl.
  - eexists. split; [done|]. rewrite app_nil_r. by apply Lines_log.
  - destruct (WriteLine_log cap _ rb (String c s) Hc Hr) as (rb1 & Hw1 & _ & Hr1). rewrite Hw1.
    cbn [mbind result_bind]. eexists. split; [done|]. by apply Lines_log, ring_log_partial.
Qed.

Lemma ring_shows_last_lines_witness :
  0 < 2 /\ exists rb, writes ["a"; String newline "b"; String newline ("c" +:+ String newline "d")]
                        (NewRingBuffer 2) = Ok rb /\ Lines 0 rb = Ok ["b"; "c"].
Proof.
  split; [lia|].
  destruct (ring_shows_last_lines 2 ["a"; String newline "b"; String newline ("c" +:+ String newline "d")]
              0 ltac:(lia)) as (rb & Hw & Hl & _).
  exists rb. exact (conj Hw Hl).
Defined.

(** ** The shell command line *)

Definition quote : ascii := "'"%char.

(** [" '" + strings.ReplaceAll(a, "'", "'\\''") + "'"] *)
Definition quoteArg (a : string) : string :=
  " '" +:+ ReplaceByte a quote "'\''" +:+ "'".

Definition fullCmd (cmdPath : string) (args : list string) : string :=
  foldl (fun cmd a => cmd +:+ quoteArg a) cmdPath args.

(** What is handed to [exec]: a shell is run directly, anything else through
    [/bin/sh -c]. *)
Definition serviceCommand (cmdPath : string) (args : list string) : list string :=
  if bool_decide (cmdPath ∈ ["sh"; "/bin/sh"; "bash"; "/bin/bash"]) then cmdPath :: args
  else ["/bin/sh"; "-c"; fullCmd cmdPath args].

Definition servicePATH : string := "/env/bin:/usr/local/bin:/usr/bin:/usr/sbin:/bin:/sbin".

(** The path lookup of [startOnce]. *)
Definition servicePath (stat : string -> bool) (command : string) : string :=
  if HasPrefix command "/" then command else searchDirs stat command (SplitList servicePATH).

(** [order]: the entries of [sp.env] in the order the [range] visits them. *)
Definition serviceEnv (order : list (string * string)) : list string :=
  [String.append "PATH=" servicePATH; "HOME=/workspace"] ++
  omap (fun kv =>
    if bool_decide (ToUpper kv.1 ∈ ["LD_PRELOAD"; "LD_LIBRARY_PATH"]) then None
    else Some (kv.1 +:+ "=" +:+ kv.2)) order.

(** *** The words of a POSIX shell

    Token recognition for the characters the command line uses: blanks separate,
    text between single quotes is literal, a backslash outside quotes makes the
    next character literal. Any other character with a meaning to the shell
    gives [None]. *)
Definition sh_plain (c : ascii) : bool :=
  let b := byte_of c in
  (in_range 48 57 b || in_range 65 90 b || in_range 97 122 b
   || bool_decide (c ∈ ["/"; "."; "_"; "-"; "+"; ","; ":"; "@"; "%"]%char))%Z.

Inductive sh_mode := Between | InWord (w : string) | InQuote (w : string).

Definition sh_word (m : sh_mode) : string :=
  match m with Between => "" | InWord w | InQuote w => w end.
Definition snoc (w : string) (c : ascii) : string := w +:+ String c "".

Fixpoint sh_words (m : sh_mode) (s : string) : option (list string) :=
  match s with
  | EmptyString =>
      match m with Between => Some [] | InWord w => Some [w] | InQuote _ => None end
  | String c s =>
      match m with
      | InQuote w => if decide (c = quote) then sh_words (InWord w) s
                     else sh_words (InQuote (snoc w c)) s
      | _ =>
          if decide (c = quote) then sh_words (InQuote (sh_word m)) s
          else if decide (c = " "%char) then
            match m with InWord w => cons w <$> sh_words Between s | _ => sh_words Between s end
          else if decide (c = "\"%char) then
            match s with
            | String d s => if decide (d = newline) then None
                            else sh_words (InWord (snoc (sh_word m) d)) s
            | EmptyString => None
            end
          else if sh_plain c then sh_words (InWord (snoc (sh_word m) c)) s
          else None
      end
  end.

Fixpoint all_plain (s : string) : bool :=
  match s with EmptyString => true | String c s => sh_plain c && all_plain s end.

Lemma snoc_app w c s : snoc w c +:+ s = w +:+ String c s.
Proof. unfold snoc. by rewrite str_app_assoc. Qed.

Lemma sh_words_quoted a w rest :
  sh_words (InQuote w) (ReplaceByte a quote "'\''" +:+ "'" +:+ rest) =
  sh_words (InWord (w +:+ a)) rest.
Proof.
  revert w. induction a as [|c a IH]; intros w; cbn [ReplaceByte].
  - by rewrite str_app_nil_l, str_app_nil_r.
  - destruct (decide (c = quote)) as [->|Hc].
    + rewrite str_app_assoc.
      change (sh_words (InQuote w) ("'\''" +:+ ReplaceByte a quote "'\''" +:+ "'" +:+ rest)) with
        (sh_words (InQuote (snoc w quote)) (ReplaceByte a quote "'\''" +:+ "'" +:+ rest)).
      by rewrite IH, snoc_app.
    + rewrite str_app_assoc, str_app_cons, str_app_nil_l. cbn [sh_words].
      rewrite decide_False by done. by rewrite IH, snoc_app.
Qed.

Lemma sh_plain_ordinary c : sh_plain c = true -> c <> quote /\ c <> " "%char /\ c <> "\"%char.
Proof. intros Hc. split_and!; intros ->; by vm_compute in Hc. Qed.

Lemma sh_words_plain_step m c s :
  sh_plain c = true -> (forall w, m <> InQuote w) ->
  sh_words m (String c s) = sh_words (InWord (snoc (sh_word m) c)) s.
Proof.
  intros Hc Hm. destruct (sh_plain_ordinary c Hc) as (H1 & H2 & H3).
  destruct m; [..|by destruct (Hm w)]; cbn [sh_words]; rewrite !decide_False by done; by rewrite Hc.
Qed.

Lemma sh_words_plain w s rest :
  all_plain s = true -> sh_words (InWord w) (s +:+ rest) = sh_words (InWord (w +:+ s)) rest.
Proof.
  revert w. induction s as [|c s IH]; intros w Hs; [by rewrite str_app_nil_l, str_app_nil_r|].
  apply andb_true_iff in Hs as [Hc Hs].
  rewrite str_app_cons, sh_words_plain_step by done. by rewrite IH, <-snoc_app.
Qed.

Lemma sh_words_args w args :
  sh_words (InWord w) (foldr (fun a s => quoteArg a +:+ s) "" args) = Some (w :: args).
Proof.
  revert w. induction args as [|a args IH]; intros w; [done|]. cbn [foldr].
  set (tail := foldr _ _ _) in *. unfold quoteArg.
  replace ((" '" +:+ ReplaceByte a quote "'\''" +:+ "'") +:+ tail)
    with (String " " (String quote (ReplaceByte a quote "'\''" +:+ "'" +:+ tail))).
  2: { by rewrite !str_app_assoc. }
  change (sh_words (InWord w) (String " " (String quote (ReplaceByte a quote "'\''" +:+ "'" +:+ tail))))
    with (cons w <$> sh_words (InQuote "") (ReplaceByte a quote "'\''" +:+ "'" +:+ tail)).
  by rewrite sh_words_quoted, str_app_nil_l, IH.
Qed.

Lemma fullCmd_foldr cmdPath args :
  fullCmd cmdPath args = cmdPath +:+ foldr (fun a s => quoteArg a +:+ s) "" args.
Proof.
  unfold fullCmd. revert cmdPath. induction args as [|a args IH]; intros cmdPath; cbn [foldl foldr].
  - by rewrite str_app_nil_r.
  - by rewrite IH, str_app_assoc.
Qed.

(** Quoting survives the shell: the command line built for [/bin/sh -c] splits
    into the program and exactly its arguments, whatever bytes the arguments
    contain, as long as the path of the program is made of ordinary characters. *)
Theorem shell_line_roundtrip cmdPath args :
  cmdPath <> "" -> all_plain cmdPath = true ->
  sh_words Between (fullCmd cmdPath args) = Some (cmdPath :: args).
Proof.
  intros Hne Hp. rewrite fullCmd_foldr. destruct cmdPath as [|c s]; [done|].
  cbn [all_plain] in Hp. apply andb_true_iff in Hp as [Hc Hs].
  rewrite str_app_cons, sh_words_plain_step by done.
  rewrite sh_words_plain by done. apply sh_words_args.
Qed.

Lemma shell_line_roundtrip_witness :
  sh_words Between (fullCmd "/usr/bin/env" ["it's"; "$HOME; rm -rf /"; ""]) =
  Some ["/usr/bin/env"; "it's"; "$HOME; rm -rf /"; ""].
Proof. apply (shell_line_roundtrip "/usr/bin/env"); [discriminate|reflexivity]. Defined.

(** The program itself is not quoted: a blank in its path makes two words. *)
Lemma path_not_quoted :
  sh_words Between (fullCmd "/opt/my app/run" ["x"]) = Some ["/opt/my"; "app/run"; "x"].
Proof. by vm_compute. Qed.

(** ** The restart loop *)

Definition maxBackoff : Z := 30 * Second.
Definition maxRestarts : nat := 5.
Definition maxRestartWindow : Z := 5 * Minute.

(** The variables of [restartLoop], with the counter of [sp]. *)
Record Loop := mkLoop {
  lp_backoff : Z;
  lp_recent : list Z;
  lp_restarts : Z
}.

Definition startLoop (restarts : Z) : Loop := mkLoop Second [] restarts.

(** One turn of the loop, as the process exits: its exit code, whether the
    context is done when the loop looks, the clock then, whether the context is
    done during the backoff, and whether the process starts again. *)
Record Turn := mkTurn {
  tn_exitCode : Z;
  tn_done : bool;
  tn_now : Z;
  tn_cancelled : bool;
  tn_starts : bool
}.

Inductive LoopStep :=
  | Ended (st : Loop)
  | Restarted (delay : Z) (st : Loop).

Definition shouldRestart (policy : string) (exitCode : Z) : bool :=
  if String.eqb policy "always" then true
  else if String.eqb policy "on-failure" then negb (exitCode =? 0)%Z
  else false.

Definition prune (now : Z) (failures : list Z) : list Z :=
  filter (fun t => (now - maxRestartWindow < t)%Z) failures.

Definition restartTurn (policy : string) (e : Turn) (st : Loop) : LoopStep :=
  if tn_done e then Ended st
  else if negb (shouldRestart policy (tn_exitCode e)) then Ended st
  else
    let recent := prune (tn_now e) (lp_recent st ++ [tn_now e]) in
    let st := mkLoop (lp_backoff st) recent (lp_restarts st) in
    if maxRestarts <=? length recent then Ended st
    else if tn_cancelled e then Ended st
    else
      let st' := mkLoop (lp_backoff st) recent (lp_restarts st + 1) in
      if negb (tn_starts e) then Ended st'
      else Restarted (lp_backoff st)
             (mkLoop (Z.min (lp_backoff st * 2) maxBackoff) recent (lp_restarts st')).

(** The loop over the exits of the process: the time of each restart decision
    with the delay before it. *)
Fixpoint restartLoop (policy : string) (turns : list Turn) (st : Loop) : list (Z * Z) :=
  match turns with
  | [] => []
  | e :: turns =>
      match restartTurn policy e st with
      | Ended _ => []
      | Restarted delay st => (tn_now e, delay) :: restartLoop policy turns st
      end
  end.

Lemma prune_app now l1 l2 : prune now (l1 ++ l2) = prune now l1 ++ prune now l2.
Proof. apply filter_app. Qed.

Lemma prune_prune t now l : (now <= t)%Z -> prune t (prune now l) = prune t l.
Proof.
  intros Ht. unfold prune. rewrite list_filter_filter_l; [done|]. intros x ?. lia.
Qed.

Lemma restartTurn_restarted policy e st delay st' :
  restartTurn policy e st = Restarted delay st' ->
  tn_done e = false /\ shouldRestart policy (tn_exitCode e) = true /\
  length (prune (tn_now e) (lp_recent st ++ [tn_now e])) < maxRestarts /\
  delay = lp_backoff st /\
  lp_recent st' = prune (tn_now e) (lp_recent st ++ [tn_now e]) /\
  lp_backoff st' = Z.min (lp_backoff st * 2) maxBackoff.
Proof.
  unfold restartTurn. destruct (tn_done e); [done|]. destruct (shouldRestart _ _); [|done].
  cbn [negb]. cbv zeta. destruct (Nat.leb_spec maxRestarts (length (prune (tn_now e) (lp_recent st ++ [tn_now e]))));
    [done|]. destruct (tn_cancelled e); [done|]. destruct (negb _); [done|].
  by intros [= <- <-].
Qed.

Definition in_window (a t : Z) : Prop := (a < t <= a + maxRestartWindow)%Z.
#[global] Instance in_window_dec a t : Decision (in_window a t).
Proof. unfold in_window. apply _. Defined.

Lemma window_prune a now l :
  in_window a now -> length (filter (in_window a) l) <= length (prune now l).
Proof.
  intros [H1 H2]. unfold prune. induction l as [|t l IH]; [done|]. rewrite !filter_cons.
  unfold in_window in *. repeat case_decide; simpl; lia.
Qed.

(** The restarts so far are [hist]; the loop remembers those of the last window. *)
Lemma restartLoop_window policy turns st hist low a :
  StronglySorted Z.le (low :: (tn_now <$> turns)) ->
  (forall t, (low <= t)%Z -> prune t (lp_recent st) = prune t hist) ->
  length (filter (in_window a) hist) < maxRestarts ->
  length (filter (in_window a) (hist ++ (restartLoop policy turns st).*1)) < maxRestarts.
Proof.
  revert st hist low. induction turns as [|e turns IH]; intros st hist low Hs Hrec Hlt; simpl.
  { by rewrite app_nil_r. }
  destruct (restartTurn policy e st) as [|delay st'] eqn:Hturn; [by rewrite app_nil_r|].
  apply restartTurn_restarted in Hturn as (_ & _ & Hlen & _ & Hrec' & _).
  apply StronglySorted_inv in Hs as [Hs Hlow]. rewrite fmap_cons in Hs, Hlow.
  apply Forall_cons in Hlow as [Hlow _].
  assert (forall t, (tn_now e <= t)%Z -> prune t (lp_recent st') = prune t (hist ++ [tn_now e])) as Hnew.
  { intros t Ht. rewrite Hrec', prune_prune by done. rewrite !prune_app, Hrec by lia. done. }
  cbn [fmap list_fmap fst]. rewrite cons_middle, app_assoc. eapply IH; [done|done|].
  destruct (decide (in_window a (tn_now e))) as [Hin|Hout].
  - eapply Nat.le_lt_trans; [by apply (window_prune a (tn_now e))|].
    by rewrite prune_app, <-Hrec, <-prune_app by lia.
  - rewrite filter_app, filter_cons, decide_False, filter_nil, app_nil_r by done. done.
Qed.

Lemma restartLoop_delays policy turns st k i r :
  lp_backoff st = Z.min (Second * 2 ^ Z.of_nat k) maxBackoff ->
  restartLoop policy turns st !! i = Some r ->
  r.2 = Z.min (Second * 2 ^ Z.of_nat (k + i)) maxBackoff.
Proof.
  revert st k i. induction turns as [|e turns IH]; intros st k i Hb; simpl; [done|].
  destruct (restartTurn policy e st) as [|delay st'] eqn:Hturn; [done|].
  apply restartTurn_restarted in Hturn as (_ & _ & _ & -> & _ & Hb').
  destruct i as [|i]; simpl.
  - intros [= <-]. by rewrite Nat.add_0_r.
  - intros Hi. replace (k + S i) with (S k + i) by lia. eapply IH; [|done].
    rewrite Hb', Hb, Nat2Z.inj_succ, Z.pow_succ_r by lia. unfold maxBackoff, Second.
    pose proof (Z.pow_nonneg 2 (Z.of_nat k) ltac:(lia)). lia.
Qed.

Lemma restartLoop_turns policy turns st i r :
  restartLoop policy turns st !! i = Some r ->
  exists e, turns !! i = Some e /\ tn_now e = r.1 /\ tn_done e = false /\
    shouldRestart policy (tn_exitCode e) = true.
Proof.
  revert st i. induction turns as [|e turns IH]; intros st i; simpl; [done|].
  destruct (restartTurn policy e st) as [|delay st'] eqn:Hturn; [done|].
  apply restartTurn_restarted in Hturn as (? & ? & _). destruct i as [|i]; simpl.
  - intros [= <-]. by exists e.
  - apply IH.
Qed.

(** C10 A crashing service cannot spin: whatever it does, at most four restarts
    fall into any five minutes, the delay before the [i]-th restart is [2^i]
    seconds but at most thirty, and every restart answers an exit of the service
    that the policy covers ("always", or "on-failure" with a code other than
    zero) while its context is alive. *)
Theorem restarts_bounded policy turns restarts :
  StronglySorted Z.le (tn_now <$> turns) ->
  let rs := restartLoop policy turns (startLoop restarts) in
  (forall a, length (filter (in_window a) rs.*1) < maxRestarts) /\
  (forall i r, rs !! i = Some r ->
     r.2 = Z.min (Second * 2 ^ Z.of_nat i) maxBackoff /\
     exists e, turns !! i = Some e /\ tn_now e = r.1 /\ tn_done e = false /\
       (policy = "always" \/ policy = "on-failure" /\ tn_exitCode e <> 0%Z)).
Proof.
  intros Hs rs. split.
  - intros a. destruct turns as [|e turns]; [simpl; unfold maxRestarts; lia|].
    refine (restartLoop_window policy (e :: turns) (startLoop restarts) [] (tn_now e) a _ _ _).
    + constructor; [done|]. rewrite fmap_cons in *. apply StronglySorted_inv in Hs as [_ Hs].
      by constructor.
    + done.
    + simpl. unfold maxRestarts. lia.
  - intros i r Hi. split; [by apply (restartLoop_delays policy turns (startLoop restarts) 0)|].
    destruct (restartLoop_turns _ _ _ _ _ Hi) as (e & He & Hnow & Hd & Hr).
    exists e. split_and!; [done..|]. unfold shouldRestart in Hr.
    destruct (String.eqb_spec policy "always") as [|]; [by left|].
    destruct (String.eqb_spec policy "on-failure") as [|]; [|done]. right. split; [done|].
    by apply negb_true_iff, Z.eqb_neq in Hr.
Qed.

Definition crashes : list Turn :=
  (fun t => mkTurn 1 false (t * Second) false true) <$> [1; 3; 6; 11; 20; 37]%Z.

Lemma restarts_bounded_witness :
  (restartLoop "on-failure" crashes (startLoop 0)).*2 = (Z.mul Second <$> [1; 2; 4; 8]%Z) /\
  length (filter (in_window 0) (restartLoop "on-failure" crashes (startLoop 0)).*1) < maxRestarts.
Proof.
  split; [reflexivity|]. refine (proj1 (restarts_bounded "on-failure" crashes 0 _) 0%Z).
  apply Sorted_StronglySorted; [intros x y z; lia|].
  unfold crashes. repeat constructor; done.
Defined.

(** [Stop] sends SIGTERM and waits for the loop to end, with the context still
    alive: the exit by the signal (code -1) counts as a failure, and the loop
    starts the service again. *)
Lemma stopped_service_restarts now st :
  lp_recent st = [] ->
  exists st', restartTurn "on-failure" (mkTurn (-1) false now false true) st =
              Restarted (lp_backoff st) st'.
Proof.
  intros Hr. unfold restartTurn. rewrite Hr. cbn [tn_done tn_exitCode tn_now app].
  assert (length (prune now [now]) <= 1) as Hl by apply (length_filter _ [now]).
  change (shouldRestart "on-failure" (-1)) with true. cbn [negb].
  rewrite (proj2 (Nat.leb_gt maxRestarts _)) by (unfold maxRestarts; simpl in *; lia).
  by eexists.
Qed.
