(* ===== verification/Effects.v ===== *)
(** * Stateful operations that can fail

    The monad of the managers: a state is threaded through, and an operation ends
    with a result, an error, or a goroutine that stays blocked. *)

From stdpp Require Import options.
From S2P Require Import Prelude.

Inductive Res (E A : Type) := Ret (a : A) | Fail (e : E) | Stuck.
Arguments Ret {E A} a.
Arguments Fail {E A} e.
Arguments Stuck {E A}.

Definition StateM (S E A : Type) : Type := S -> S * Res E A.

Section state_monad.
Context {S E : Type}.

#[global] Instance StateM_ret : MRet (StateM S E) := fun A a s => (s, Ret a).
#[global] Instance StateM_bind : MBind (StateM S E) := fun A B f m s =>
  match m s with
  | (s, Ret a) => f a s
  | (s, Fail e) => (s, Fail e)
  | (s, Stuck) => (s, Stuck)
  end.

Definition fail {A} (e : E) : StateM S E A := fun s => (s, Fail e).
Definition modify (f : S -> S) : StateM S E unit := fun s => (f s, Ret tt).
Definition gets {A} (f : S -> A) : StateM S E A := fun s => (s, Ret (f s)).

(** A call whose error is looked at, and one whose error is only logged or dropped. *)
Definition attempt {A} (m : StateM S E A) : StateM S E (result E A) := fun s =>
  match m s with
  | (s, Ret a) => (s, Ret (Ok a))
  | (s, Fail e) => (s, Ret (Err e))
  | (s, Stuck) => (s, Stuck)
  end.
Definition ignore {A} (m : StateM S E A) : StateM S E unit := r ← attempt m; mret tt.

(** [for _, a := range l { .. }] *)
Fixpoint for_each {A} (f : A -> StateM S E unit) (l : list A) : StateM S E unit :=
  match l with
  | [] => mret tt
  | a :: l => _ ← f a; for_each f l
  end.

Lemma bind_Ret {A B} (m : StateM S E A) (f : A -> StateM S E B) s s1 a :
  m s = (s1, Ret a) -> (m ≫= f) s = f a s1.
Proof. intros H. unfold mbind, StateM_bind. by rewrite H. Qed.

Lemma bind_Fail {A B} (m : StateM S E A) (f : A -> StateM S E B) s s1 e :
  m s = (s1, Fail e) -> (m ≫= f) s = (s1, Fail e).
Proof. intros H. unfold mbind, StateM_bind. by rewrite H. Qed.

Lemma bind_Stuck {A B} (m : StateM S E A) (f : A -> StateM S E B) s s1 :
  m s = (s1, Stuck) -> (m ≫= f) s = (s1, Stuck).
Proof. intros H. unfold mbind, StateM_bind. by rewrite H. Qed.

Lemma attempt_Ret {A} (m : StateM S E A) s s1 a :
  m s = (s1, Ret a) -> attempt m s = (s1, Ret (Ok a)).
Proof. intros H. unfold attempt. by rewrite H. Qed.

Lemma attempt_Fail {A} (m : StateM S E A) s s1 e :
  m s = (s1, Fail e) -> attempt m s = (s1, Ret (Err e)).
Proof. intros H. unfold attempt. by rewrite H. Qed.

Lemma ignore_Ret {A} (m : StateM S E A) s s1 a :
  m s = (s1, Ret a) -> ignore m s = (s1, Ret tt).
Proof. intros H. unfold ignore. by rewrite (bind_Ret _ _ _ _ _ (attempt_Ret _ _ _ _ H)). Qed.

Lemma ignore_Fail {A} (m : StateM S E A) s s1 e :
  m s = (s1, Fail e) -> ignore m s = (s1, Ret tt).
Proof. intros H. unfold ignore. by rewrite (bind_Ret _ _ _ _ _ (attempt_Fail _ _ _ _ H)). Qed.

(** A loop keeps what each of its turns keeps. *)
Lemma for_each_inv {A} (f : A -> StateM S E unit) (l : list A) (I : S -> Prop) s :
  I s -> (forall a s, a ∈ l -> I s -> exists s', f a s = (s', Ret tt) /\ I s') ->
  exists s', for_each f l s = (s', Ret tt) /\ I s'.
Proof.
  revert s. induction l as [|a l IH]; intros s Hs Hf; [by exists s|].
  destruct (Hf a s) as (s1 & H1 & Hs1); [by left|done|]. cbn [for_each].
  rewrite (bind_Ret _ _ _ _ _ H1). apply IH; [done|]. intros b t Hb. apply Hf. by right.
Qed.

(** A loop over the rows of a table in which each turn replaces its own row. *)
Lemma for_each_rows {A} (f : A -> StateM S E unit) (key : A -> string) (rows : S -> gmap string A)
    (R : A -> A -> Prop) (l : list A) s :
  NoDup (key <$> l) -> (forall a, a ∈ l -> rows s !! key a = Some a) ->
  (forall a s, a ∈ l -> rows s !! key a = Some a ->
   exists s' a', f a s = (s', Ret tt) /\ rows s' = <[key a := a']> (rows s) /\ R a a') ->
  exists s', for_each f l s = (s', Ret tt) /\
  (forall k, k ∉ (key <$> l) -> rows s' !! k = rows s !! k) /\
  (forall a, a ∈ l -> exists a', rows s' !! key a = Some a' /\ R a a').
Proof.
  revert s. induction l as [|a l IH]; intros s Hnd Hl Hf.
  { exists s. split_and!; [done..|]. by intros a []%not_elem_of_nil. }
  apply NoDup_cons in Hnd as [Hnot Hnd]. cbn [for_each].
  destruct (Hf a s) as (s1 & a1 & H1 & Hr1 & HR); [by left|apply Hl; by left|].
  rewrite (bind_Ret _ _ _ _ _ H1).
  assert (forall k, k <> key a -> rows s1 !! k = rows s !! k) as Hk1.
  { intros k Hk. by rewrite Hr1, lookup_insert_ne. }
  destruct (IH s1 Hnd) as (s2 & H2 & Hk2 & Hl2).
  { intros b Hb. rewrite Hk1; [apply Hl; by right|]. intros Heq. apply Hnot. rewrite <-Heq.
    by apply list_elem_of_fmap_2. }
  { intros b t Hb. apply Hf. by right. }
  exists s2. split_and!; [done| |].
  - intros k. rewrite fmap_cons, not_elem_of_cons. intros [Hk Hkl]. rewrite Hk2 by done. by apply Hk1.
  - intros b [->|Hb]%elem_of_cons; [|by apply Hl2]. exists a1. split; [|done].
  rewrite Hk2 by done. by rewrite Hr1, lookup_insert_eq.
Qed.
End state_monad.
