(* ===== verification/Entities.v ===== *)
(** * The data model ([src/internal/loka])

    Sessions, services, executions, checkpoints and workers with their status
    values, transition tables and the checkpoint graph. *)

From stdpp Require Import options.
From S2P Require Import Prelude GoStrings Float64 Words Filesystem Network Policy.
Open Scope nat_scope.

(** ** Sessions ([session.go]) *)

Inductive SessionStatus :=
  | SessionStatusCreating | SessionStatusProvisioning | SessionStatusRunning
  | SessionStatusIdle | SessionStatusPaused | SessionStatusTerminating
  | SessionStatusTerminated | SessionStatusError.
#[global] Instance SessionStatus_eq_dec : EqDecision SessionStatus.
Proof. solve_decision. Defined.

(** [ValidSessionTransitions]: no entry for a terminated session. *)
Definition ValidSessionTransitions (s : SessionStatus) : option (list SessionStatus) :=
  match s with
  | SessionStatusCreating => Some [SessionStatusProvisioning; SessionStatusRunning; SessionStatusError]
  | SessionStatusProvisioning => Some [SessionStatusRunning; SessionStatusError]
  | SessionStatusRunning =>
      Some [SessionStatusIdle; SessionStatusPaused; SessionStatusTerminating; SessionStatusError]
  | SessionStatusIdle => Some [SessionStatusRunning; SessionStatusTerminating; SessionStatusError]
  | SessionStatusPaused => Some [SessionStatusRunning; SessionStatusTerminating; SessionStatusError]
  | SessionStatusTerminating => Some [SessionStatusTerminated; SessionStatusError]
  | SessionStatusError => Some [SessionStatusTerminating; SessionStatusTerminated]
  | SessionStatusTerminated => None
  end.

(** Volume mounts ([volume.go]). *)
Record Volume := mkVolume {
  v_Path : string;
  v_Type : string;
  v_Provider : string;
  v_Name : string;
  v_Bucket : string;
  v_Prefix : string;
  v_Region : string;
  v_Credentials : string;
  v_Access : string;
  v_HostPath : string;
  v_GitRepo : string;
  v_GitRef : string
}.

Definition IsReadOnly (v : Volume) : bool := String.eqb (v_Access v) "readonly".

Definition EffectiveMode (v : Volume) : string :=
  if bool_decide (v_Provider v ∈ ["github"; "git"; "store"; "local"; "volume"]) then "virtiofs"
  else if negb (String.eqb (v_HostPath v) "")
          || bool_decide (v_Type v ∈ ["block"; "object"; "network"; "store"]) then "virtiofs"
  else if IsReadOnly v then "block"
  else "fuse".

Definition EffectiveType (v : Volume) : string :=
  if negb (String.eqb (v_Type v) "") then v_Type v
  else if bool_decide (v_Provider v ∈ ["volume"; "local"; "store"]) then "block"
  else if bool_decide (v_Provider v ∈ ["s3"; "gcs"; "azure"]) then "object"
  else if bool_decide (v_Provider v ∈ ["github"; "git"]) then "network"
  else if negb (String.eqb (v_HostPath v) "") then "block"
  else if negb (String.eqb (v_Bucket v) "") then "object"
  else "block".

Record PortMapping := mkPort { pm_LocalPort : Z; pm_RemotePort : Z; pm_Protocol : string }.

Record Session := mkSession {
  s_ID : string;
  s_Name : string;
  s_Status : SessionStatus;
  s_Mode : ExecMode;
  s_WorkerID : string;
  s_ImageRef : string;
  s_ImageID : string;
  s_SnapshotID : string;
  s_VCPUs : Z;
  s_MemoryMB : Z;
  s_Labels : gmap string string;
  s_Mounts : list Volume;
  s_Ports : list PortMapping;
  s_ExecPolicy : ExecPolicy;
  s_IdleTimeout : Z;
  s_Ready : bool;
  s_StatusMessage : string;
  s_LastActivity : Z;
  s_CreatedAt : Z;
  s_UpdatedAt : Z
}.

Definition canTransition (s target : SessionStatus) : bool :=
  match ValidSessionTransitions s with
  | Some allowed => existsb (fun a => bool_decide (a = target)) allowed
  | None => false
  end.
Definition CanTransitionTo (s : Session) (target : SessionStatus) : bool :=
  canTransition (s_Status s) target.

(** ** Services ([service.go]) *)

Inductive ServiceStatus :=
  | ServiceStatusDeploying | ServiceStatusRunning | ServiceStatusIdle
  | ServiceStatusWaking | ServiceStatusStopped | ServiceStatusError.
#[global] Instance ServiceStatus_eq_dec : EqDecision ServiceStatus.
Proof. solve_decision. Defined.

Definition ValidServiceTransitions (s : ServiceStatus) : list ServiceStatus :=
  match s with
  | ServiceStatusDeploying => [ServiceStatusRunning; ServiceStatusStopped; ServiceStatusError]
  | ServiceStatusRunning => [ServiceStatusIdle; ServiceStatusStopped; ServiceStatusError]
  | ServiceStatusIdle => [ServiceStatusWaking; ServiceStatusStopped; ServiceStatusError]
  | ServiceStatusWaking => [ServiceStatusRunning; ServiceStatusError]
  | ServiceStatusStopped => [ServiceStatusDeploying; ServiceStatusError]
  | ServiceStatusError => [ServiceStatusDeploying; ServiceStatusStopped]
  end.

Definition ServiceCanTransitionTo (s target : ServiceStatus) : bool :=
  existsb (fun a => bool_decide (a = target)) (ValidServiceTransitions s).

(** ** Executions ([exec.go]) *)

Inductive ExecStatus :=
  | ExecStatusPending | ExecStatusPendingApproval | ExecStatusRunning | ExecStatusSuccess
  | ExecStatusFailed | ExecStatusCanceled | ExecStatusRejected
  | ExecStatusPurged.
#[global] Instance ExecStatus_eq_dec : EqDecision ExecStatus.
Proof. solve_decision. Defined.

Record CommandResult := mkResult {
  cr_CommandID : string;
  cr_ExitCode : Z;
  cr_Stdout : string;
  cr_Stderr : string;
  cr_StartedAt : Z;
  cr_EndedAt : Z
}.

Record Execution := mkExecution {
  e_ID : string;
  e_SessionID : string;
  e_Status : ExecStatus;
  e_Parallel : bool;
  e_Commands : list Command;
  e_Results : list CommandResult;
  e_CreatedAt : Z;
  e_UpdatedAt : Z
}.

Definition IsTerminal (e : Execution) : bool :=
  match e_Status e with
  | ExecStatusSuccess | ExecStatusFailed | ExecStatusCanceled | ExecStatusRejected => true
  | _ => false
  end.

(** ** Workers ([worker.go]) *)

Inductive WorkerStatus :=
  | WorkerStatusRegistering | WorkerStatusReady | WorkerStatusBusy
  | WorkerStatusDraining | WorkerStatusSuspect | WorkerStatusDead.
#[global] Instance WorkerStatus_eq_dec : EqDecision WorkerStatus.
Proof. solve_decision. Defined.

Record ResourceCapacity := mkCapacity { rc_CPUCores : Z; rc_MemoryMB : Z; rc_DiskMB : Z }.

Record Worker := mkWorker {
  w_ID : string;
  w_Hostname : string;
  w_IPAddress : string;
  w_PrivateIP : string;
  w_Provider : string;
  w_Region : string;
  w_Zone : string;
  w_Status : WorkerStatus;
  w_Labels : gmap string string;
  w_Capacity : ResourceCapacity;
  w_AgentVersion : string;
  w_KVMAvailable : bool;
  w_CreatedAt : Z;
  w_UpdatedAt : Z;
  w_LastSeen : Z
}.

Record ResourceUsage := mkUsage {
  ru_CPUPercent : float64;
  ru_MemoryUsedMB : Z;
  ru_DiskUsedMB : Z
}.

Record Heartbeat := mkHeartbeat {
  hb_WorkerID : string;
  hb_Timestamp : Z;
  hb_Status : WorkerStatus;
  hb_Usage : ResourceUsage;
  hb_SessionCount : Z;
  hb_SessionIDs : list string
}.

(** ** Checkpoints ([checkpoint.go]) *)

Inductive CheckpointType := CheckpointLight | CheckpointFull.
Inductive CheckpointStatus :=
  CheckpointStatusCreating | CheckpointStatusReady | CheckpointStatusFailed.
#[global] Instance CheckpointStatus_eq_dec : EqDecision CheckpointStatus.
Proof. solve_decision. Defined.

Record Checkpoint := mkCheckpoint {
  cp_ID : string;
  cp_SessionID : string;
  cp_ParentID : string;
  cp_Type : CheckpointType;
  cp_Status : CheckpointStatus;
  cp_Label : string;
  cp_OverlayPath : string;
  cp_VMStatePath : string;
  cp_MetadataPath : string;
  cp_CreatedAt : Z
}.

Record CheckpointDAG := mkDAG {
  d_SessionID : string;
  d_Root : string;
  d_Current : string;
  d_Checkpoints : gmap string Checkpoint
}.

Definition NewCheckpointDAG (sessionID : string) : CheckpointDAG := mkDAG sessionID "" "" ∅.

Definition Add (d : CheckpointDAG) (cp : Checkpoint) : CheckpointDAG :=
  mkDAG (d_SessionID d) (if String.eqb (cp_ParentID cp) "" then cp_ID cp else d_Root d)
    (d_Current d) (<[cp_ID cp := cp]> (d_Checkpoints d)).

(** In the order in which the [range] visits the map. *)
Definition Children (order : list Checkpoint) (id : string) : list Checkpoint :=
  filter (fun cp => cp_ParentID cp = id) order.

Fixpoint PathTo_loop (fuel : nat) (d : CheckpointDAG) (current : string) (path : list Checkpoint)
    : go (list Checkpoint) :=
  match fuel with
  | O => Err OutOfFuel
  | S fuel =>
      if String.eqb current "" then Ok path
      else match d_Checkpoints d !! current with
           | None => Ok path
           | Some cp => PathTo_loop fuel d (cp_ParentID cp) (cp :: path)
           end
  end.

Definition PathTo (fuel : nat) (d : CheckpointDAG) (id : string) : go (list Checkpoint) :=
  PathTo_loop fuel d id [].

(** ** The graph of a session

    Checkpoints are recorded one after another with fresh identifiers, so a parent
    is never recorded after its child. *)
Definition recorded (sessionID : string) (cps : list Checkpoint) : CheckpointDAG :=
  foldl Add (NewCheckpointDAG sessionID) cps.

Fixpoint parents_first (cps : list Checkpoint) : Prop :=
  match cps with
  | [] => True
  | cp :: rest => cp_ID cp ∉ cp_ID <$> rest /\ cp_ParentID cp <> cp_ID cp /\
                  cp_ParentID cp ∉ cp_ID <$> rest /\ parents_first rest
  end.

(** A chain of parent links from a root (or an orphan) of the graph down to [id]. *)
Definition chain_to (d : CheckpointDAG) (id : string) (path : list Checkpoint) : Prop :=
  (exists cp, last path = Some cp /\ cp_ID cp = id) /\
  Forall (fun cp => d_Checkpoints d !! cp_ID cp = Some cp) path /\
  (forall i a b, path !! i = Some a -> path !! S i = Some b -> cp_ParentID b = cp_ID a) /\
  (forall cp, head path = Some cp ->
     cp_ParentID cp = "" \/ d_Checkpoints d !! cp_ParentID cp = None).

Lemma recorded_foldl d cps id :
  d_Checkpoints (foldl Add d cps) !! id =
  match d_Checkpoints (foldl Add (NewCheckpointDAG "") cps) !! id with
  | Some cp => Some cp
  | None => d_Checkpoints d !! id
  end.
Proof.
  revert d. induction cps as [|cp cps IH] using rev_ind; intros d; [done|].
  rewrite !foldl_snoc. simpl. destruct (decide (cp_ID cp = id)) as [->|Hne].
  - by rewrite !lookup_insert_eq.
  - by rewrite !lookup_insert_ne by done.
Qed.

Lemma recorded_lookup sid cps id cp :
  d_Checkpoints (recorded sid cps) !! id = Some cp -> cp ∈ cps /\ cp_ID cp = id.
Proof.
  unfold recorded. induction cps as [|c cps IH] using rev_ind; [by simpl; rewrite lookup_empty|].
  rewrite foldl_snoc. simpl. rewrite elem_of_app, list_elem_of_singleton.
  intros [[<- ->]|[_ Hin]]%lookup_insert_Some; [auto|]. apply IH in Hin as [? ?]. auto.
Qed.

(** Position in the recording order strictly decreases towards the parent. *)
Lemma parents_before cps i cp :
  parents_first cps -> cps !! i = Some cp ->
  forall j cp', cps !! j = Some cp' -> cp_ID cp' = cp_ParentID cp -> j < i.
Proof.
  revert i. induction cps as [|c cps IH]; intros i; [done|]. intros (Hid & Hself & Hpar & Hrest).
  destruct i as [|i]; simpl.
  - intros [= ->] [|j] cp' Hj Heq; simplify_eq/=.
    destruct Hpar. rewrite <-Heq. apply list_elem_of_fmap. exists cp'.
    split; [done|]. by eapply list_elem_of_lookup_2.
  - intros Hi [|j] cp' Hj Heq; simpl in Hj; [lia|].
    assert (j < i) by (by eapply IH). lia.
Qed.

Lemma parents_first_NoDup cps : parents_first cps -> NoDup (cp_ID <$> cps).
Proof.
  induction cps as [|c cps IH]; [constructor|]. intros (Hid & _ & _ & Hrest).
  rewrite fmap_cons. constructor; auto.
Qed.

Lemma PathTo_loop_chain sid cps fuel i cp suffix :
  parents_first cps -> cps !! i = Some cp -> i < fuel ->
  (forall b, head suffix = Some b -> cp_ParentID b = cp_ID cp) -> cp_ID cp <> "" ->
  d_Checkpoints (recorded sid cps) !! cp_ID cp = Some cp ->
  exists pre, PathTo_loop (S fuel) (recorded sid cps) (cp_ID cp) suffix = Ok (pre ++ cp :: suffix) /\
    chain_to (recorded sid cps) (cp_ID cp) (pre ++ [cp]).
Proof.
  intros Hpf. revert i cp suffix fuel.
  induction i as [i IH] using lt_wf_ind. intros cp suffix fuel Hi Hf Hsuf Hne Hlook.
  cbn [PathTo_loop]. rewrite (proj2 (String.eqb_neq _ _) Hne), Hlook.
  assert (chain_to (recorded sid cps) (cp_ID cp) [cp] \/
    exists q, cp_ParentID cp <> "" /\ d_Checkpoints (recorded sid cps) !! cp_ParentID cp = Some q)
    as [Hend|(q & Hpne & Hq)].
  { destruct (d_Checkpoints (recorded sid cps) !! cp_ParentID cp) as [q|] eqn:Hq.
    - destruct (decide (cp_ParentID cp = "")); [left|right; eauto].
      split_and!; [by exists cp|by constructor|by intros [|] ? ?|]. intros ? [= <-]. by left.
    - left. split_and!; [by exists cp|by constructor|by intros [|] ? ?|]. intros ? [= <-]. by right. }
  - exists []. split; [|done]. destruct Hend as (_ & _ & _ & Hhd).
    destruct fuel as [|fuel]; [lia|]. cbn [PathTo_loop app].
    destruct (Hhd cp eq_refl) as [->| ->]; [done|]. by destruct (String.eqb _ _).
  - destruct (recorded_lookup _ _ _ _ Hq) as [Hin Hqid].
    apply list_elem_of_lookup in Hin as [j Hj].
    assert (j < i) as Hji by (by eapply parents_before).
    destruct fuel as [|fuel]; [lia|]. rewrite <-Hqid in Hq, Hpne |- *.
    destruct (IH j Hji q (cp :: suffix) fuel Hj) as (pre & Hrun & Hchain); [lia| |done|done|].
    { by intros b [= <-]. }
    exists (pre ++ [q]). rewrite Hrun. split; [by rewrite <-app_assoc|].
    destruct Hchain as (_ & Hall & Hlink & Hhd). split_and!.
    + exists cp. by rewrite last_snoc.
    + apply Forall_app. split; [done|by constructor].
    + intros k a b Ha Hb. destruct (decide (S k < length (pre ++ [q]))) as [Hlt|Hge].
      * rewrite lookup_app_l in Ha, Hb by lia. by eapply Hlink.
      * assert (k = length pre) as ->.
        { apply lookup_lt_Some in Hb. rewrite !length_app in *. simpl in *. lia. }
        rewrite lookup_app_l in Ha by (rewrite length_app; simpl; lia).
        rewrite list_lookup_middle in Ha by done.
        rewrite lookup_app_r in Hb by (rewrite length_app; simpl; lia).
        replace (S (length pre) - length (pre ++ [q])) with 0 in Hb by (rewrite length_app; simpl; lia).
        by simplify_eq/=.
    + intros c Hc. apply Hhd. by destruct pre.
Qed.

(** More fuel does not change a result. *)
Lemma PathTo_loop_mono d fuel fuel' current path r :
  PathTo_loop fuel d current path = Ok r -> fuel <= fuel' ->
  PathTo_loop fuel d current path = PathTo_loop fuel' d current path.
Proof.
  revert fuel' current path. induction fuel as [|fuel IH]; intros fuel' current path; [done|].
  intros Hrun Hle. destruct fuel' as [|fuel']; [lia|]. cbn [PathTo_loop] in *.
  destruct (String.eqb current ""); [done|].
  destruct (d_Checkpoints d !! current); [|done]. apply IH; [done|lia].
Qed.

(** [PathTo] terminates on every graph recorded checkpoint by checkpoint, with
    as many turns as there are checkpoints (one more to stop), and returns the
    chain of parents that leads from a root (or from a checkpoint whose parent is
    not in the graph) down to the checkpoint asked for. *)
Theorem PathTo_correct sid cps id cp :
  parents_first cps -> "" ∉ cp_ID <$> cps ->
  d_Checkpoints (recorded sid cps) !! id = Some cp ->
  exists path, chain_to (recorded sid cps) id path /\
    forall fuel, length cps < fuel -> PathTo fuel (recorded sid cps) id = Ok path.
Proof.
  intros Hpf Hne Hid. destruct (recorded_lookup _ _ _ _ Hid) as [Hin Heq].
  apply list_elem_of_lookup in Hin as [i Hi]. pose proof (lookup_lt_Some _ _ _ Hi) as Hlt.
  assert (cp_ID cp <> "") as Hcp.
  { intros He. apply Hne. rewrite <-He. apply list_elem_of_fmap. exists cp.
    split; [done|]. by eapply list_elem_of_lookup_2. }
  rewrite <-Heq in Hid |- *.
  destruct (PathTo_loop_chain sid cps (length cps) i cp [] Hpf Hi Hlt) as (pre & Hrun & Hchain);
    [done|done|done|].
  exists (pre ++ [cp]). split; [done|]. intros fuel Hf. unfold PathTo.
  rewrite <-Hrun. symmetry. eapply PathTo_loop_mono; [done|lia].
Qed.

Definition cp_of (id parent : string) : Checkpoint :=
  mkCheckpoint id "s" parent CheckpointLight CheckpointStatusReady "" "" "" "" 0.

Lemma PathTo_correct_witness :
  exists path, chain_to (recorded "s" [cp_of "a" ""; cp_of "b" "a"; cp_of "c" "b"]) "c" path /\
    PathTo 4 (recorded "s" [cp_of "a" ""; cp_of "b" "a"; cp_of "c" "b"]) "c" = Ok path.
Proof.
  destruct (PathTo_correct "s" [cp_of "a" ""; cp_of "b" "a"; cp_of "c" "b"] "c" (cp_of "c" "b"))
    as (path & Hc & Hrun).
  - repeat split; cbn; try (intros ?; discriminate); rewrite ?not_elem_of_cons;
      (repeat split; [discriminate..|apply not_elem_of_nil]) || apply not_elem_of_nil.
  - cbn. rewrite !not_elem_of_cons. repeat split; [discriminate..|apply not_elem_of_nil].
  - vm_compute. reflexivity.
  - exists path. split; [exact Hc|]. apply Hrun. simpl. lia.
Defined.

(** A checkpoint that is its own parent, or any cycle, sends [PathTo] round for ever. *)
Lemma PathTo_cycle fuel :
  PathTo fuel (recorded "s" [cp_of "a" "b"; cp_of "b" "a"]) "a" = Err OutOfFuel.
Proof.
  unfold PathTo.
  assert (forall path,
    PathTo_loop fuel (recorded "s" [cp_of "a" "b"; cp_of "b" "a"]) "a" path = Err OutOfFuel /\
    PathTo_loop fuel (recorded "s" [cp_of "a" "b"; cp_of "b" "a"]) "b" path = Err OutOfFuel) as H.
  { induction fuel as [|fuel IH]; [done|]. intros path. split; apply IH. }
  apply H.
Qed.

(** No transition leaves [terminated]. *)
Lemma terminated_is_final target : canTransition SessionStatusTerminated target = false.
Proof. done. Qed.
