(* ===== verification/VMBoot.v ===== *)
(** * From a launch request to what the guest has mounted

    [src/internal/worker/agent.go] turns the options of a session or service
    into a VM configuration (shared directories, drives, kernel command line);
    the Cloud Hypervisor back end ([src/pkg/lokavm/ch_linux.go]) turns that
    into devices; the init script of the initramfs
    ([src/cmd/loka-build/initramfs.go]) reads the command line and mounts.
    The image manager's [Pull] provides the layers.  The theorem composes the
    four: the guest's root is the image, bottom layer first, and each volume
    is mounted where it was asked for. *)

From stdpp Require Import options pretty.
From Stdlib Require Import Ascii.
From S2P Require Import Prelude GoStrings GoPath Float64 Words Filesystem Network Policy Entities.
Open Scope nat_scope.

(** [fmt.Sprintf] of a small count. *)
Definition itoa (n : nat) : string := pretty (N.of_nat n).

(** ** VM configuration ([lokavm.VMConfig], [SharedDir], [Drive])

    The fields the agent never sets (CPU shares, [Layers], [UpperDir],
    [Network]) are left out. *)
Record SharedDir := mkSharedDir {
  sd_Tag : string;
  sd_HostPath : string;
  sd_GuestPath : string;
  sd_ReadOnly : bool
}.
Record Drive := mkDrive { dr_ID : string; dr_Path : string; dr_ReadOnly : bool }.
Record VMConfig := mkVMConfig {
  vc_ID : string;
  vc_VCPUsMin : Z;
  vc_VCPUsMax : Z;
  vc_MemoryMinMB : Z;
  vc_MemoryMaxMB : Z;
  vc_Vsock : bool;
  vc_Drives : list Drive;
  vc_SharedDirs : list SharedDir;
  vc_BootArgs : string
}.

(** ** What the image manager hands over ([Pull], steps 2 and 3) *)

Definition layerDir (dataDir hex : string) : string := PathJoin [dataDir; "layers"; hex].
Definition lokaLayerDir (dataDir : string) : string := PathJoin [dataDir; "layers"; "loka-overlay"].

(** The layer directories, bottom to top. *)
Definition layerDirs (dataDir : string) (digests : list string) : list string :=
  lokaLayerDir dataDir :: (layerDir dataDir <$> digests).
Definition RootfsPath (dataDir : string) (digests : list string) : string :=
  Join (layerDirs dataDir digests) ":".

(** ** The agent *)

Inductive MountError :=
  | ErrGitRepoRequired (provider : string)
  | ErrGitCheckout (repo ref err : string)
  | ErrVolumeName
  | ErrVolumeDir (dir : string).
Inductive ConfigError :=
  | ErrNoHypervisor
  | ErrResolveMount (i : nat) (provider : string) (e : MountError).

Record LaunchOpts := mkLaunchOpts {
  lo_VCPU : Z;
  lo_MemoryMB : Z;
  lo_RootfsPath : string;
  lo_Mounts : list Volume
}.

Section Agent.
(** The worker's data directory and working directory; [os.Stat] of a path
    ([Some true] for a directory); whether [os.MkdirAll] of a path succeeds;
    the git cache's [Checkout], whose commit has at least the 12 characters
    the log line cuts off ([Checkout] returns 40-digit hashes only). *)
Context (dataDir cwd : string).
Context (stat : string -> option bool) (mkdirAll : string -> bool).
Context (checkout : string -> string -> string -> result string string).

Definition Abs (path : string) : string :=
  if HasPrefix path "/" then Clean path else PathJoin [cwd; path].

Definition set_host (v : Volume) (host access : string) : Volume :=
  mkVolume (v_Path v) (v_Type v) (v_Provider v) (v_Name v) (v_Bucket v) (v_Prefix v)
    (v_Region v) (v_Credentials v) access host (v_GitRepo v) (v_GitRef v).

Definition resolveGitMount (mount : Volume) : result MountError Volume :=
  if negb (bool_decide (v_Provider mount = "github")) && negb (bool_decide (v_Provider mount = "git"))
  then Ok mount
  else if bool_decide (v_GitRepo mount = "") then Err (ErrGitRepoRequired (v_Provider mount))
  else
    let ref := if bool_decide (v_GitRef mount = "") then "HEAD" else v_GitRef mount in
    match checkout (v_GitRepo mount) ref (v_Credentials mount) with
    | Err e => Err (ErrGitCheckout (v_GitRepo mount) ref e)
    | Ok path =>
        Ok (set_host mount path
              (if bool_decide (v_Access mount = "") then "readonly" else v_Access mount))
    end.

Definition volumeDir (mount : Volume) : string :=
  Abs (if bool_decide (v_Provider mount = "bundle")
       then PathJoin [dataDir; ".."; "bundles"; v_Name mount]
       else PathJoin [dataDir; ".."; "volumes"; v_Name mount]).

(** The background synchronisation that is started here is not part of the
    configuration. *)
Definition resolveVolumeMount (mount : Volume) : result MountError Volume :=
  if negb (bool_decide (v_Provider mount = "store")) && negb (bool_decide (v_Provider mount = "volume"))
     && negb (bool_decide (v_Provider mount = "bundle"))
  then Ok mount
  else if bool_decide (v_Name mount = "") then Err ErrVolumeName
  else if negb (mkdirAll (volumeDir mount)) then Err (ErrVolumeDir (volumeDir mount))
  else Ok (set_host mount (volumeDir mount) (v_Access mount)).

(** The loop over [opts.Mounts]: the first error ends it. *)
Fixpoint resolveMounts (resolve : Volume -> result MountError Volume) (i : nat)
    (mounts : list Volume) : result ConfigError (list Volume) :=
  match mounts with
  | [] => Ok []
  | v :: mounts =>
      match resolve v with
      | Err e => Err (ErrResolveMount i (v_Provider v) e)
      | Ok v' => vs ← resolveMounts resolve (S i) mounts; Ok (v' :: vs)
      end
  end.

Definition resolveSessionMount (v : Volume) : result MountError Volume :=
  v ← resolveGitMount v; resolveVolumeMount v.

Definition layerShares (layers : list string) : list SharedDir :=
  imap (fun i path => mkSharedDir ("layer-" +:+ itoa i) path "/" true) layers.

(** The three kinds of root file system and none. *)
Definition rootfsConfig (rootfs : string) : string * list Drive * list SharedDir :=
  if Contains rootfs ":" then
    let layers := Split rootfs ":"%char in
    ("console=hvc0 loka.nlayers=" +:+ itoa (length layers), [], layerShares layers)
  else if bool_decide (stat rootfs = Some true) then
    ("console=hvc0 rootfstype=virtiofs root=rootfs rw init=/usr/local/bin/loka-supervisor", [],
     [mkSharedDir "rootfs" rootfs "/" false])
  else if negb (bool_decide (rootfs = "")) then
    ("console=hvc0 root=/dev/vda rw init=/usr/local/bin/loka-supervisor",
     [mkDrive "rootfs" rootfs false], [])
  else ("console=hvc0", [], []).

(** The loop that adds a shared directory and a kernel argument per mount with
    a host directory. *)
Fixpoint addMounts (i : nat) (mounts : list Volume) (boot : string) (dirs : list SharedDir)
    : string * list SharedDir :=
  match mounts with
  | [] => (boot, dirs)
  | v :: mounts =>
      if bool_decide (v_HostPath v = "") then addMounts (S i) mounts boot dirs
      else
        let tag := "mount-" +:+ itoa i in
        addMounts (S i) mounts (boot +:+ " loka.virtiofs=" +:+ tag +:+ ":" +:+ v_Path v)
          (dirs ++ [mkSharedDir tag (v_HostPath v) (v_Path v) (IsReadOnly v)])
  end.

Definition vmConfigOf (id : string) (opts : LaunchOpts) (rootfs : string) (mounts : list Volume)
    : VMConfig :=
  let vcpu := if (lo_VCPU opts =? 0)%Z then 1%Z else lo_VCPU opts in
  let mem := if (lo_MemoryMB opts =? 0)%Z then 512%Z else lo_MemoryMB opts in
  let '(boot, drives, dirs) := rootfsConfig rootfs in
  let '(boot, dirs) := addMounts 0 mounts boot dirs in
  mkVMConfig id vcpu vcpu (Z.quot mem 4) mem true drives dirs boot.

(** [LaunchSession] up to [CreateVM], and [LaunchService] likewise: the
    latter has no default root file system and resolves no git mounts. *)
Definition sessionVMConfig (hypervisor : bool) (sessionID : string) (opts : LaunchOpts)
    : result ConfigError VMConfig :=
  if negb hypervisor then Err ErrNoHypervisor
  else
    let default := PathJoin [dataDir; "rootfs"; "rootfs.ext4"] in
    let rootfs :=
      if bool_decide (lo_RootfsPath opts = "")
      then match stat default with Some _ => default | None => "" end
      else lo_RootfsPath opts in
    mounts ← resolveMounts resolveSessionMount 0 (lo_Mounts opts);
    Ok (vmConfigOf sessionID opts rootfs mounts).

Definition serviceVMConfig (hypervisor : bool) (serviceID : string) (opts : LaunchOpts)
    : result ConfigError VMConfig :=
  if negb hypervisor then Err ErrNoHypervisor
  else
    mounts ← resolveMounts resolveVolumeMount 0 (lo_Mounts opts);
    Ok (vmConfigOf serviceID opts (lo_RootfsPath opts) mounts).
End Agent.

(** ** Cloud Hypervisor *)

Record HypervisorConfig := mkHypervisorConfig { hc_KernelPath : string; hc_InitrdPath : string }.

Definition itoaZ (z : Z) : string :=
  if (z <? 0)%Z then "-" +:+ pretty (Z.to_N (- z)) else pretty (Z.to_N z).

Definition virtiofsdSocket (vmDir : string) (sd : SharedDir) : string :=
  PathJoin [vmDir; sd_Tag sd +:+ ".virtiofs.sock"].

(** The arguments [StartVM] runs cloud-hypervisor with; the agent's
    configurations have no network. *)
Definition chArgs (h : HypervisorConfig) (vmDir : string) (virtiofsd : bool) (cfg : VMConfig)
    : list string :=
  ["--api-socket"; PathJoin [vmDir; "ch.sock"]; "--kernel"; hc_KernelPath h;
   "--cmdline"; vc_BootArgs cfg;
   "--cpus"; "boot=" +:+ itoaZ (vc_VCPUsMin cfg) +:+ ",max=" +:+ itoaZ (vc_VCPUsMax cfg);
   "--memory"; "size=" +:+ itoaZ (vc_MemoryMaxMB cfg) +:+ "M";
   "--console"; "off"; "--serial"; "tty"]
  ++ (if bool_decide (hc_InitrdPath h = "") then [] else ["--initramfs"; hc_InitrdPath h])
  ++ concat ((fun d => ["--disk"; "path=" +:+ dr_Path d +:+ ",readonly="
                                 +:+ (if dr_ReadOnly d then "on" else "off")]) <$> vc_Drives cfg)
  ++ (if virtiofsd
      then concat ((fun sd => ["--fs"; "tag=" +:+ sd_Tag sd +:+ ",socket=" +:+ virtiofsdSocket vmDir sd
                                       +:+ ",num_queues=1,queue_size=512"]) <$> vc_SharedDirs cfg)
      else [])
  ++ (if vc_Vsock cfg then ["--vsock"; "cid=3,socket=" +:+ PathJoin [vmDir; "vsock.sock"]] else []).

(** The arguments of the virtiofsd of one directory. *)
Definition virtiofsdArgs (vmDir : string) (sd : SharedDir) : list string :=
  ["--socket-path=" +:+ virtiofsdSocket vmDir sd; "-o"; "source=" +:+ sd_HostPath sd;
   "-o"; "cache=auto"].

(** What the guest gets for them: the command line and a virtiofs device per
    directory, with the directory its virtiofsd serves. *)
Record Machine := mkMachine {
  mc_cmdline : string;
  mc_fs : list (string * string)
}.
Definition chMachine (virtiofsd : bool) (cfg : VMConfig) : Machine :=
  mkMachine (vc_BootArgs cfg)
    (if virtiofsd then (fun sd => (sd_Tag sd, sd_HostPath sd)) <$> vc_SharedDirs cfg else []).

(** ** The guest's init script ([initScript]) *)

(** Where a mount gets its files from. *)
Inductive Source :=
  | SrcKernel (fstype : string)
  | SrcVirtiofs (tag : string)
  | SrcOverlay (lowers : list string) (upper work : string).
#[global] Instance Source_eq_dec : EqDecision Source.
Proof. solve_decision. Defined.

(** The mounts so far, oldest first: a later one at the same place hides an
    earlier one. *)
Definition Guest := list (string * Source).

(** How the script ends: with a program started as process 1 in a root, or
    with the script dying, which stops the machine. *)
Inductive Outcome :=
  | Started (root program : string)
  | Dead.
#[global] Instance Outcome_eq_dec : EqDecision Outcome.
Proof. solve_decision. Defined.

(** Field splitting of an unquoted expansion.  Field names that are patterns
    are expanded too; no file of the initramfs has a name that starts with
    [loka.], so the words the script looks for do not come from there. *)
Definition ifs_blank (c : Ascii.ascii) : bool :=
  bool_decide (c = " "%char \/ c = "009"%char \/ c = "010"%char).
Fixpoint blanks_to_spaces (s : string) : string :=
  match s with
  | EmptyString => EmptyString
  | String c s => String (if ifs_blank c then " "%char else c) (blanks_to_spaces s)
  end.
Definition fields (s : string) : list string :=
  filter (fun w => w <> "") (Split (blanks_to_spaces s) " "%char).

(** [/proc/cmdline]: the command line and a newline.  (The kernel cuts it at
    its own limit; the model does not.) *)
Definition proc_cmdline (m : Machine) : string := mc_cmdline m +:+ String "010"%char EmptyString.

Definition has_tag (m : Machine) (tag : string) : bool :=
  bool_decide (tag ∈ (mc_fs m).*1).

(** [mkdir -p "$path"; mount -t virtiofs "$tag" "$path"] *)
Definition mount_virtiofs (m : Machine) (tag path : string) (g : Guest) : Guest :=
  if bool_decide (path = "") || negb (has_tag m tag) then g else g ++ [(path, SrcVirtiofs tag)].

(** [tag="${tp%%:*}"] and [path="${tp#*:}"]. *)
Definition split_tag (tp : string) : string * string :=
  match Cut tp ":"%char with
  | (tag, Some path) => (tag, path)
  | (_, None) => (tp, tp)
  end.

(** The two patterns of the [case]. *)
Definition volume_param (word : string) : option (string * string) :=
  if HasPrefix word "loka.virtiofs=" then Some (split_tag (TrimPrefix word "loka.virtiofs=")) else None.
Definition nlayers_param (word : string) : option string :=
  if HasPrefix word "loka.nlayers=" then Some (TrimPrefix word "loka.nlayers=") else None.

(** [$(seq 0 $((nlayers - 1)))]: nothing for a count below one. A text that is
    not a number counts as zero, as an unset shell variable would. *)
Definition seq0 (nlayers : string) : list nat :=
  seq 0 (Z.to_nat (default 0%Z (Atoi nlayers))).

(** The loop over the layers: mounts each and puts it in front of [lower]. *)
Fixpoint mount_layers (m : Machine) (todo : list nat) (lower : list string) (g : Guest)
    : list string * Guest :=
  match todo with
  | [] => (lower, g)
  | i :: todo =>
      let dir := "/layers/" +:+ itoa i in
      mount_layers m todo (dir :: lower) (mount_virtiofs m ("layer-" +:+ itoa i) dir g)
  end.

(** [mount -t virtiofs upper /upper || mount -t tmpfs tmpfs /upper] *)
Definition mount_upper (m : Machine) (g : Guest) : Guest :=
  g ++ [("/upper", if has_tag m "upper" then SrcVirtiofs "upper" else SrcKernel "tmpfs")].

Definition kernel_mounts (root : string) : Guest :=
  [(root +:+ "/proc", SrcKernel "proc"); (root +:+ "/sys", SrcKernel "sysfs");
   (root +:+ "/dev", SrcKernel "devtmpfs"); (root +:+ "/dev/pts", SrcKernel "devpts");
   (root +:+ "/dev/shm", SrcKernel "tmpfs"); (root +:+ "/tmp", SrcKernel "tmpfs")].

(** The loop over the command line inside the merged root. *)
Definition mount_volumes (m : Machine) (root : string) (words : list string) (g : Guest) : Guest :=
  foldl (fun g w => match volume_param w with
                    | Some (tag, path) => mount_virtiofs m tag (root +:+ path) g
                    | None => g
                    end) g words.

(** The [loka.nlayers] case: it always ends the script. [have] tells which
    commands the initramfs has. [switch_root] dies when the new root is not a
    mount point. A missing [exec] target ends the shell. *)
Definition boot_layered (m : Machine) (have : string -> bool) (words : list string)
    (nlayers : string) (g : Guest) : Guest * Outcome :=
  let '(lower, g) := mount_layers m (if have "seq" then seq0 nlayers else []) [] g in
  let g := mount_upper m g in
  let merged := negb (bool_decide (lower = [])) in
  let g := if merged then g ++ [("/merged", SrcOverlay lower "/upper/data" "/upper/work")] else g in
  let g := g ++ kernel_mounts "/merged" ++ [("/merged/run", SrcKernel "tmpfs")] in
  let g := mount_volumes m "/merged" words g in
  (g, if have "switch_root" && merged then Started "/merged" "/usr/local/bin/loka-supervisor" else Dead).

Fixpoint boot_params (m : Machine) (have : string -> bool) (words todo : list string) (g : Guest)
    : Guest * option Outcome :=
  match todo with
  | [] => (g, None)
  | w :: todo =>
      match volume_param w with
      | Some (tag, path) => boot_params m have words todo (mount_virtiofs m tag path g)
      | None =>
          match nlayers_param w with
          | Some n => let '(g, o) := boot_layered m have words n g in (g, Some o)
          | None => boot_params m have words todo g
          end
      end
  end.

(** The end of the script: the first executable [loka.exec] program, then the
    supervisor of the initramfs, then a shell. *)
Definition exec_param (word : string) : option string :=
  if HasPrefix word "loka.exec=" then Some (TrimPrefix word "loka.exec=") else None.
Definition boot_tail (executable : string -> bool) (words : list string) : Outcome :=
  match filter (fun p => executable p = true) (omap (M := list) exec_param words) with
  | p :: _ => Started "/" p
  | [] =>
      if executable "/usr/local/bin/loka-supervisor"
      then Started "/" "/usr/local/bin/loka-supervisor"
      else Started "/" "/bin/sh"
  end.

(** The commands [buildInitramfs] links to BusyBox. *)
Definition initramfs_commands : list string :=
  ["sh"; "ash"; "cat"; "ls"; "mkdir"; "mount"; "umount"; "ln"; "cp"; "mv"; "rm"; "echo"; "sleep";
   "mknod"; "grep"; "sed"; "awk"; "ip"; "ifconfig"; "route"; "hostname"].
(** The commands of the script: those that are linked, and those the shell of the BusyBox
    binary, which is downloaded, runs by itself ([standalone]; a BusyBox built with
    [FEATURE_SH_STANDALONE] has all its applets there). *)
Definition have_command (standalone : string -> bool) (c : string) : bool :=
  bool_decide (c ∈ initramfs_commands) || standalone c.

Definition init (m : Machine) (standalone executable : string -> bool) : Guest * Outcome :=
  let have := have_command standalone in
  let words := fields (proc_cmdline m) in
  match boot_params m have words words (kernel_mounts "") with
  | (g, Some o) => (g, o)
  | (g, None) => (g, boot_tail executable words)
  end.

(** *** Reading the mounts *)

Definition mounted_at (g : Guest) (path : string) : option Source :=
  snd <$> last (filter (fun e => e.1 = path) g).

Definition host_dir (m : Machine) (tag : string) : option string :=
  snd <$> head (filter (fun e => e.1 = tag) (mc_fs m)).

(** The host directory mounted at a place. *)
Definition dir_at (m : Machine) (g : Guest) (path : string) : option string :=
  match mounted_at g path with
  | Some (SrcVirtiofs tag) => host_dir m tag
  | _ => None
  end.

Section View.
(** What a host directory has at a path. *)
Context {A : Type} (content : string -> string -> option A).

(** An overlay with an empty upper directory shows the entry of the first
    lower directory that has one; a directory nothing is mounted on is empty. *)
Definition root_view (m : Machine) (g : Guest) (root path : string) : option A :=
  match mounted_at g root with
  | Some (SrcOverlay lowers _ _) =>
      head (omap (M := list) (fun d => h ← dir_at m g d; content h path) lowers)
  | _ => None
  end.

(** An image: each layer hides what the layers below it have. *)
Definition image_view (layers : list string) (path : string) : option A :=
  foldl (fun below dir => match content dir path with Some e => Some e | None => below end)
    None layers.
End View.

(** The volumes below a root, in the order they were mounted. *)
Definition volumes_at (m : Machine) (g : Guest) (root : string) : list (string * string) :=
  omap (M := list) (fun '(path, src) =>
    match src with
    | SrcVirtiofs tag => if HasPrefix path root then (fun h => (path, h)) <$> host_dir m tag else None
    | _ => None
    end) g.

(** What the mounts ask for. *)
Definition asked_volumes (root : string) (mounts : list Volume) : list (string * string) :=
  (fun v => (root +:+ v_Path v, v_HostPath v)) <$> filter (fun v => v_HostPath v <> "") mounts.

(** ** Lemmas on words *)

Definition blank_free (s : string) : Prop := Forall (fun c => ifs_blank c = false) (String.list_ascii_of_string s).
#[global] Instance blank_free_dec s : Decision (blank_free s) := _.

Lemma list_ascii_app a b :
  String.list_ascii_of_string (a +:+ b)
  = String.list_ascii_of_string a ++ String.list_ascii_of_string b.
Proof. induction a as [|c a IH]; str_simpl; [done|]. simpl. by rewrite IH. Qed.

Lemma blank_free_app a b : blank_free (a +:+ b) <-> blank_free a /\ blank_free b.
Proof. unfold blank_free. rewrite list_ascii_app. apply Forall_app. Qed.

Lemma blanks_to_spaces_app a b :
  blanks_to_spaces (a +:+ b) = blanks_to_spaces a +:+ blanks_to_spaces b.
Proof. induction a as [|c a IH]; str_simpl; [done|]. simpl. str_simpl. by rewrite IH. Qed.

Lemma blanks_to_spaces_free s : blank_free s -> blanks_to_spaces s = s.
Proof.
  induction s as [|c s IH]; [done|]. intros [Hc Hs]%Forall_cons. simpl. by rewrite Hc, IH.
Qed.

Lemma blank_free_no_space s : blank_free s -> str_mem " "%char s = false.
Proof.
  induction s as [|c s IH]; [done|]. intros [Hc Hs]%Forall_cons. simpl. rewrite IH by done.
  rewrite orb_false_r. apply bool_decide_eq_false_2. intros ->. done.
Qed.

Lemma Split_snoc_general a b sep :
  Split (a +:+ String sep b) sep = Split a sep ++ Split b sep.
Proof.
  induction a as [|c a IH]; str_simpl; simpl; [by rewrite decide_True|].
  rewrite IH. case_decide; [done|].
  pose proof (Split_not_nil a sep). by destruct (Split a sep).
Qed.

(** A blank ends a field. *)
Lemma fields_blank a c b :
  ifs_blank c = true -> fields (a +:+ String c b) = fields a ++ fields b.
Proof.
  intros Hc. unfold fields. rewrite blanks_to_spaces_app. simpl. rewrite Hc.
  by rewrite Split_snoc_general, filter_app.
Qed.

Lemma fields_word w : blank_free w -> w <> "" -> fields w = [w].
Proof.
  intros Hw Hne. unfold fields.
  rewrite blanks_to_spaces_free, Split_no_sep by eauto using blank_free_no_space.
  by rewrite filter_cons_True.
Qed.

(** ** Lemmas on numbers and tags *)

#[global] Instance itoa_inj : Inj (=) (=) itoa.
Proof. intros i j Hij. apply (inj pretty) in Hij. lia. Qed.

Lemma itoa_digits n : digit_text (itoa n).
Proof. apply pretty_digit_text. Qed.

Lemma itoa_blank_free n : blank_free (itoa n).
Proof.
  pose proof (itoa_digits n) as Hd. unfold digit_text, blank_free, bytes_of in *.
  rewrite Forall_fmap in Hd. eapply Forall_impl; [exact Hd|]. intros c Hc. simpl in Hc.
  apply bool_decide_eq_false_2. intros [-> | [-> | ->]]; discriminate Hc.
Qed.

Lemma itoa_no_colon n : str_mem ":"%char (itoa n) = false.
Proof. by apply digit_text_no; [|apply itoa_digits]. Qed.

Lemma str_mem_app c a b : str_mem c (a +:+ b) = str_mem c a || str_mem c b.
Proof. induction a as [|d a IH]; str_simpl; [done|]. simpl. by rewrite IH, orb_assoc. Qed.

Lemma str_app_inj_l (a b c : string) : a +:+ b = a +:+ c -> b = c.
Proof. induction a as [|d a IH]; str_simpl; [done|]. intros Heq. apply IH. congruence. Qed.

Lemma HasPrefix_app p s : HasPrefix (p +:+ s) p = true.
Proof. apply HasPrefix_spec. by exists s. Qed.

Lemma TrimPrefix_app p s : TrimPrefix (p +:+ s) p = s.
Proof. unfold TrimPrefix. by rewrite HasPrefix_app, drop_str_app. Qed.

(** ** The words of the command line *)

(** The kernel argument and the shared directory of each mount. *)
Definition mount_word (i : nat) (v : Volume) : string :=
  "loka.virtiofs=" +:+ ("mount-" +:+ itoa i) +:+ ":" +:+ v_Path v.
Fixpoint mount_words (i : nat) (mounts : list Volume) : list string :=
  match mounts with
  | [] => []
  | v :: mounts =>
      (if bool_decide (v_HostPath v = "") then [] else [mount_word i v]) ++ mount_words (S i) mounts
  end.
Fixpoint mount_shares (i : nat) (mounts : list Volume) : list SharedDir :=
  match mounts with
  | [] => []
  | v :: mounts =>
      (if bool_decide (v_HostPath v = "") then []
       else [mkSharedDir ("mount-" +:+ itoa i) (v_HostPath v) (v_Path v) (IsReadOnly v)])
      ++ mount_shares (S i) mounts
  end.

Lemma addMounts_shares i mounts boot dirs :
  (addMounts i mounts boot dirs).2 = dirs ++ mount_shares i mounts.
Proof.
  revert i boot dirs. induction mounts as [|v mounts IH]; intros i boot dirs; simpl.
  - by rewrite app_nil_r.
  - case_bool_decide; rewrite IH; [done|]. by rewrite <-app_assoc.
Qed.

Definition word_safe (v : Volume) : Prop := v_HostPath v <> "" -> blank_free (v_Path v).

Lemma addMounts_fields i mounts boot dirs :
  Forall word_safe mounts ->
  fields (addMounts i mounts boot dirs).1 = fields boot ++ mount_words i mounts.
Proof.
  intros Hsafe. revert i boot dirs. induction Hsafe as [|v mounts Hv _ IH]; intros i boot dirs; simpl.
  - by rewrite app_nil_r.
  - case_bool_decide as Hh; rewrite IH; [done|].
    change (" loka.virtiofs=" +:+ ?x) with (String " " ("loka.virtiofs=" +:+ x)).
    rewrite fields_blank by done. rewrite <-app_assoc. f_equal.
    change (fields (mount_word i v) ++ mount_words (S i) mounts
            = [mount_word i v] ++ mount_words (S i) mounts). f_equal.
    apply fields_word; [|done]. unfold mount_word. rewrite !blank_free_app.
    split_and!; try by repeat constructor.
    + apply itoa_blank_free.
    + by apply Hv.
Qed.

Lemma volume_param_mount i v :
  volume_param (mount_word i v) = Some ("mount-" +:+ itoa i, v_Path v).
Proof.
  unfold volume_param, mount_word. rewrite HasPrefix_app, TrimPrefix_app. unfold split_tag.
  change (":" +:+ v_Path v) with (String ":" (v_Path v)).
  rewrite Cut_app; [done|]. rewrite str_mem_app, itoa_no_colon. done.
Qed.

(** ** Lemmas on mounts *)

Lemma mounted_at_unique g path src :
  (path, src) ∈ g -> (forall src', (path, src') ∈ g -> src' = src) -> mounted_at g path = Some src.
Proof.
  intros Hin Huniq. unfold mounted_at.
  destruct (last (filter (fun e => e.1 = path) g)) as [[p s]|] eqn:Hl.
  - apply last_Some_elem_of, list_elem_of_filter in Hl as [Hp Hl]. simpl in *. subst p.
    by rewrite (Huniq _ Hl).
  - apply last_None in Hl. exfalso. apply (not_elem_of_nil (path, src)). rewrite <-Hl.
    by apply list_elem_of_filter.
Qed.

Lemma host_dir_unique m tag h :
  (tag, h) ∈ mc_fs m -> (forall h', (tag, h') ∈ mc_fs m -> h' = h) -> host_dir m tag = Some h.
Proof.
  intros Hin Huniq. unfold host_dir.
  destruct (filter (fun e => e.1 = tag) (mc_fs m)) as [|[t h'] l] eqn:Hf.
  - exfalso. apply (not_elem_of_nil (tag, h)). rewrite <-Hf. by apply list_elem_of_filter.
  - assert ((t, h') ∈ filter (fun e => e.1 = tag) (mc_fs m)) as Hel by (rewrite Hf; left).
    apply list_elem_of_filter in Hel as [Ht Hel]. simpl in *. subst t. by rewrite (Huniq _ Hel).
Qed.

Lemma has_tag_elem m tag h : (tag, h) ∈ mc_fs m -> has_tag m tag = true.
Proof.
  intros Hin. apply bool_decide_eq_true_2. apply list_elem_of_fmap. by exists (tag, h).
Qed.

Lemma mount_virtiofs_ok m tag h path g :
  (tag, h) ∈ mc_fs m -> path <> "" ->
  mount_virtiofs m tag path g = g ++ [(path, SrcVirtiofs tag)].
Proof.
  intros Hin Hne. unfold mount_virtiofs.
  by rewrite bool_decide_eq_false_2, (has_tag_elem _ _ _ Hin).
Qed.

Definition layer_mount (i : nat) : string * Source :=
  ("/layers/" +:+ itoa i, SrcVirtiofs ("layer-" +:+ itoa i)).

Lemma mount_layers_ok m todo lower g :
  (forall i, i ∈ todo -> exists h, ("layer-" +:+ itoa i, h) ∈ mc_fs m) ->
  mount_layers m todo lower g
  = (rev ((fun i => "/layers/" +:+ itoa i) <$> todo) ++ lower, g ++ (layer_mount <$> todo)).
Proof.
  revert lower g. induction todo as [|i todo IH]; intros lower g Hall; simpl.
  - by rewrite app_nil_r.
  - destruct (Hall i ltac:(left)) as [h Hh]. rewrite (mount_virtiofs_ok _ _ _ _ _ Hh) by done.
    rewrite IH by (intros j Hj; apply Hall; by right). by rewrite <-!app_assoc.
Qed.

Fixpoint volume_mounts (root : string) (i : nat) (mounts : list Volume) : Guest :=
  match mounts with
  | [] => []
  | v :: mounts =>
      (if bool_decide (v_HostPath v = "") then []
       else [(root +:+ v_Path v, SrcVirtiofs ("mount-" +:+ itoa i))])
      ++ volume_mounts root (S i) mounts
  end.

Definition share_entry (sd : SharedDir) : string * string := (sd_Tag sd, sd_HostPath sd).

Lemma mount_volumes_ok m root i mounts g :
  root <> "" -> (share_entry <$> mount_shares i mounts) ⊆ mc_fs m ->
  mount_volumes m root (mount_words i mounts) g = g ++ volume_mounts root i mounts.
Proof.
  intros Hroot. revert i g. induction mounts as [|v mounts IH]; intros i g Hsub; simpl.
  - by rewrite app_nil_r.
  - simpl in Hsub. case_bool_decide; simpl in *; [by apply IH|].
    change (mount_volumes m root (mount_words (S i) mounts)
      (match volume_param (mount_word i v) with
       | Some (tag, path) => mount_virtiofs m tag (root +:+ path) g | None => g end)
      = g ++ (root +:+ v_Path v, SrcVirtiofs ("mount-" +:+ itoa i)) :: volume_mounts root (S i) mounts).
    rewrite volume_param_mount, (mount_virtiofs_ok _ _ (v_HostPath v)).
    + rewrite IH; [by rewrite <-app_assoc|]. intros e He. apply Hsub. by right.
    + apply Hsub. left.
    + by destruct root.
Qed.

Lemma mount_shares_elem i mounts tag h :
  (tag, h) ∈ share_entry <$> mount_shares i mounts ->
  exists j v, mounts !! j = Some v /\ tag = "mount-" +:+ itoa (i + j) /\ h = v_HostPath v /\ h <> "".
Proof.
  revert i. induction mounts as [|v mounts IH]; intros i; simpl; [by intros ?%elem_of_nil|].
  rewrite fmap_app, elem_of_app. intros [Hin|Hin].
  - case_bool_decide; [by apply elem_of_nil in Hin|]. apply list_elem_of_singleton in Hin.
    injection Hin as -> ->. exists 0, v. rewrite Nat.add_0_r. done.
  - apply IH in Hin as (j & w & Hj & -> & -> & Hne). exists (S j), w.
    rewrite Nat.add_succ_r. done.
Qed.

Lemma layerShares_elem layers tag h :
  (tag, h) ∈ share_entry <$> layerShares layers <->
  exists i, layers !! i = Some h /\ tag = "layer-" +:+ itoa i.
Proof.
  rewrite list_elem_of_fmap. unfold layerShares. split.
  - intros (sd & Heq & (i & x & -> & Hi)%elem_of_lookup_imap). injection Heq as -> ->. by exists i.
  - intros (i & Hi & ->). exists (mkSharedDir ("layer-" +:+ itoa i) h "/" true). split; [done|].
    apply elem_of_lookup_imap. by exists i, h.
Qed.

Lemma head_omap_rev {A} (content : string -> string -> option A) layers path :
  head (omap (M := list) (fun dir => content dir path) (rev layers)) = image_view content layers path.
Proof.
  unfold image_view. induction layers as [|d layers IH] using rev_ind; [done|].
  rewrite rev_app_distr, foldl_app. simpl. destruct (content d path); [done|]. exact IH.
Qed.

Lemma omap_Forall2 {A B C} (f : A -> option C) (g : B -> option C) l k :
  Forall2 (fun a b => f a = g b) l k -> omap (M := list) f l = omap (M := list) g k.
Proof. induction 1 as [|a b l k Hab _ IH]; [done|]. csimpl. by rewrite Hab, IH. Qed.

Lemma kernel_mounts_elem root p s :
  (p, s) ∈ kernel_mounts root -> exists t, p = root +:+ t /\ t <> "" /\ HasPrefix t "/layers/" = false.
Proof.
  unfold kernel_mounts. rewrite !elem_of_cons, elem_of_nil. intros Hin.
  destruct_or?; simplify_eq; by eexists.
Qed.

Lemma volume_mounts_elem root mounts i p s :
  (p, s) ∈ volume_mounts root i mounts -> exists v, v ∈ mounts /\ v_HostPath v <> "" /\ p = root +:+ v_Path v.
Proof.
  revert i. induction mounts as [|v ms IH]; intros i; simpl; [by intros ?%elem_of_nil|].
  rewrite elem_of_app. intros [Hin|Hin].
  - case_bool_decide; [by apply elem_of_nil in Hin|]. apply list_elem_of_singleton in Hin. simplify_eq.
    exists v. split; [left|done].
  - apply IH in Hin as (w & Hw & ?). exists w. split; [by right|done].
Qed.
(** ** The machine of a layered configuration *)

Section Layered.
Context (layers : list string) (mounts : list Volume) (boot : string).
Context (have : string -> bool).

Definition layered_machine : Machine :=
  chMachine true
    (mkVMConfig "" 0 0 0 0 true []
       (layerShares layers ++ mount_shares 0 mounts) boot).

Lemma layered_fs : mc_fs layered_machine
  = (share_entry <$> layerShares layers) ++ (share_entry <$> mount_shares 0 mounts).
Proof. unfold layered_machine, chMachine, share_entry. simpl. by rewrite fmap_app. Qed.

Lemma layered_tag tag h :
  (tag, h) ∈ mc_fs layered_machine ->
  (exists i, layers !! i = Some h /\ tag = "layer-" +:+ itoa i)
  \/ (exists j v, mounts !! j = Some v /\ tag = "mount-" +:+ itoa j /\ h = v_HostPath v /\ h <> "").
Proof.
  rewrite layered_fs, elem_of_app, layerShares_elem.
  intros [Hin | Hin%mount_shares_elem]; [by left|by right].
Qed.

Lemma layered_layer i h :
  layers !! i = Some h -> ("layer-" +:+ itoa i, h) ∈ mc_fs layered_machine.
Proof. intros Hi. rewrite layered_fs, elem_of_app, layerShares_elem. left. by exists i. Qed.

Lemma host_dir_layer i : host_dir layered_machine ("layer-" +:+ itoa i) = layers !! i \/ layers !! i = None.
Proof.
  destruct (layers !! i) as [h|] eqn:Hi; [left|by right]. apply host_dir_unique; [by apply layered_layer|].
  intros h' [(j & Hj & Heq)|(j & v & _ & Heq & _)]%layered_tag; [|discriminate Heq].
  apply (str_app_inj_l "layer-"), (inj itoa) in Heq as <-. congruence.
Qed.

Lemma host_dir_mount i v :
  mounts !! i = Some v -> v_HostPath v <> "" ->
  ("mount-" +:+ itoa i, v_HostPath v) ∈ mc_fs layered_machine ->
  host_dir layered_machine ("mount-" +:+ itoa i) = Some (v_HostPath v).
Proof.
  intros Hv Hne Hin. apply host_dir_unique; [done|].
  intros h' [(j & _ & Heq)|(j & w & Hj & Heq & -> & _)]%layered_tag; [discriminate Heq|].
  apply (str_app_inj_l "mount-"), (inj itoa) in Heq as <-. by simplify_eq.
Qed.

Lemma layered_no_upper : has_tag layered_machine "upper" = false.
Proof.
  apply bool_decide_eq_false_2. intros ((t & h) & Ht & Hin)%list_elem_of_fmap. simpl in Ht. subst t.
  apply layered_tag in Hin as [(i & _ & Heq)|(j & v & _ & Heq & _)]; discriminate Heq.
Qed.

(** The mounts the script leaves behind. *)
Definition final_mounts (n : nat) : Guest :=
  ((((kernel_mounts "" ++ (layer_mount <$> seq 0 n)) ++ [("/upper", SrcKernel "tmpfs")])
   ++ [("/merged", SrcOverlay (rev ((fun i => "/layers/" +:+ itoa i) <$> seq 0 n)) "/upper/data" "/upper/work")])
  ++ kernel_mounts "/merged" ++ [("/merged/run", SrcKernel "tmpfs")])
  ++ volume_mounts "/merged" 0 mounts.

Lemma boot_layered_ok words0 n :
  n = length layers -> 0 < n -> (Z.of_nat n <= max_int64)%Z ->
  have "seq" = true -> have "switch_root" = true ->
  mount_volumes layered_machine "/merged" (words0 ++ mount_words 0 mounts)
    = mount_volumes layered_machine "/merged" (mount_words 0 mounts) ->
  boot_layered layered_machine have (words0 ++ mount_words 0 mounts) (itoa n) (kernel_mounts "")
  = (final_mounts n, Started "/merged" "/usr/local/bin/loka-supervisor").
Proof.
  intros Hn Hpos Hmax Hseq Hsw Hwords. unfold boot_layered. rewrite Hseq, Hsw.
  assert (seq0 (itoa n) = seq 0 n) as ->.
  { unfold seq0, itoa. rewrite Atoi_pretty by (rewrite nat_N_Z; done). simpl. by rewrite nat_N_Z, Nat2Z.id. }
  rewrite mount_layers_ok.
  2: { intros i [_ Hi]%elem_of_seq. destruct (lookup_lt_is_Some_2 layers i) as [h Hh]; [lia|].
       exists h. by apply layered_layer. }
  rewrite app_nil_r. rewrite bool_decide_eq_false_2.
  2: { intros Heq. apply (f_equal length) in Heq. rewrite length_rev, length_fmap, length_seq in Heq.
       simpl in Heq. lia. }
  simpl negb. cbn iota. rewrite Hwords, mount_volumes_ok; [|done|].
  - unfold mount_upper. rewrite layered_no_upper. unfold final_mounts. by rewrite andb_true_r.
  - rewrite layered_fs. intros e He. apply elem_of_app. by right.
Qed.

Lemma layer_mounted n i :
  i < n -> mounted_at (final_mounts n) ("/layers/" +:+ itoa i) = Some (SrcVirtiofs ("layer-" +:+ itoa i)).
Proof.
  intros Hi. apply mounted_at_unique.
  - unfold final_mounts. rewrite !elem_of_app. do 4 left. right. apply list_elem_of_fmap.
    exists i. split; [done|]. apply elem_of_seq. lia.
  - intros src'. unfold final_mounts. rewrite !elem_of_app, !list_elem_of_singleton.
    intros [[[[[Hin|Hin]|Hin]|Hin]|[Hin|Hin]]|Hin]; try discriminate Hin.
    + apply kernel_mounts_elem in Hin as (t & Heq & _ & Ht). rewrite str_app_nil_l in Heq.
      by rewrite <-Heq, HasPrefix_app in Ht.
    + apply list_elem_of_fmap in Hin as (j & Heq & _). injection Heq as Heq ->.
      by apply (inj itoa) in Heq as ->.
    + apply kernel_mounts_elem in Hin as (t & Heq & _). discriminate Heq.
    + apply volume_mounts_elem in Hin as (v & _ & _ & Heq). discriminate Heq.
Qed.

Lemma merged_mounted n :
  Forall (fun v => v_HostPath v <> "" -> v_Path v <> "") mounts ->
  mounted_at (final_mounts n) "/merged"
  = Some (SrcOverlay (rev ((fun i => "/layers/" +:+ itoa i) <$> seq 0 n)) "/upper/data" "/upper/work").
Proof.
  intros Hpaths. apply mounted_at_unique.
  - unfold final_mounts. rewrite !elem_of_app. do 2 left. right. by apply list_elem_of_singleton.
  - intros src'. unfold final_mounts. rewrite !elem_of_app, !list_elem_of_singleton.
    intros [[[[[Hin|Hin]|Hin]|Hin]|[Hin|Hin]]|Hin]; try discriminate Hin.
    + unfold kernel_mounts in Hin. rewrite !elem_of_cons, elem_of_nil in Hin. by destruct_or?.
    + apply list_elem_of_fmap in Hin as (j & Heq & _). discriminate Heq.
    + by injection Hin.
    + apply kernel_mounts_elem in Hin as (t & Heq & Hne & _). exfalso. apply Hne.
      apply (str_app_inj_l "/merged"). by rewrite str_app_nil_r.
    + apply volume_mounts_elem in Hin as (v & Hv & Hh & Heq). exfalso.
      rewrite Forall_forall in Hpaths. apply (Hpaths v Hv Hh).
      apply (str_app_inj_l "/merged"). by rewrite str_app_nil_r.
Qed.

Lemma layered_root_view {A} (content : string -> string -> option A) path :
  Forall (fun v => v_HostPath v <> "" -> v_Path v <> "") mounts ->
  root_view content layered_machine (final_mounts (length layers)) "/merged" path
  = image_view content layers path.
Proof.
  intros Hpaths. unfold root_view. rewrite merged_mounted by done. rewrite <-head_omap_rev. f_equal.
  apply omap_Forall2. rewrite !List.rev_alt. apply Forall2_reverse, Forall2_same_length_lookup.
  split; [by rewrite length_fmap, length_seq|]. intros i d h.
  rewrite list_lookup_fmap_Some. intros (j & -> & [-> Hj]%lookup_seq) Hh.
  unfold dir_at. rewrite layer_mounted by done. cbn [mbind option_bind].
  destruct (host_dir_layer (0 + i)) as [Hd|Hnone]; [|simpl in *; congruence].
  simpl in Hd |- *. by rewrite Hd, Hh.
Qed.

Lemma volumes_at_app m g g' root :
  volumes_at m (g ++ g') root = volumes_at m g root ++ volumes_at m g' root.
Proof. apply omap_app. Qed.

Lemma volumes_at_volume_mounts i ms :
  (forall j v, ms !! j = Some v -> mounts !! (i + j) = Some v) ->
  (share_entry <$> mount_shares i ms) ⊆ mc_fs layered_machine ->
  volumes_at layered_machine (volume_mounts "/merged" i ms) "/merged" = asked_volumes "/merged" ms.
Proof.
  revert i. induction ms as [|v ms IH]; intros i Hms Hsub; [done|]. simpl in Hsub |- *.
  assert (volumes_at layered_machine (volume_mounts "/merged" (S i) ms) "/merged"
          = asked_volumes "/merged" ms) as Hrest.
  { apply IH.
    - intros j w Hj. rewrite <-(Hms (S j) w Hj). f_equal. lia.
    - intros e He. apply Hsub. rewrite fmap_app. apply elem_of_app. by right. }
  unfold asked_volumes in *. case_bool_decide as Hh.
  - rewrite filter_cons_False by (intros Hne; by apply Hne). exact Hrest.
  - rewrite filter_cons_True by done. rewrite volumes_at_app, Hrest. simpl.
    assert (mounts !! i = Some v) as Hi by (rewrite <-(Hms 0 v eq_refl); f_equal; lia).
    unfold volumes_at. cbn [omap list_omap]. rewrite HasPrefix_app, (host_dir_mount i v); try done.
    apply Hsub. left.
Qed.

Lemma layered_volumes n :
  volumes_at layered_machine (final_mounts n) "/merged" = asked_volumes "/merged" mounts.
Proof.
  unfold final_mounts. rewrite !volumes_at_app.
  assert (volumes_at layered_machine (layer_mount <$> seq 0 n) "/merged" = []) as ->.
  { unfold volumes_at. induction (seq 0 n) as [|i l IH]; [done|]. exact IH. }
  rewrite volumes_at_volume_mounts; [done| |].
  - intros j v Hj. done.
  - rewrite layered_fs. intros e He. apply elem_of_app. by right.
Qed.
End Layered.

Lemma rootfsConfig_layered stat layers :
  2 <= length layers -> Forall (fun d => str_mem ":"%char d = false) layers ->
  rootfsConfig stat (Join layers ":")
  = ("console=hvc0 loka.nlayers=" +:+ itoa (length layers), [], layerShares layers).
Proof.
  intros Hlen Hcolon. unfold rootfsConfig.
  assert (Contains (Join layers ":") ":" = true) as ->.
  { destruct layers as [|x [|y layers]]; simpl in Hlen; [lia|lia|].
    change (Join (x :: y :: layers) ":") with (x +:+ String ":"%char (Join (y :: layers) ":")).
    apply Contains_char_app. }
  rewrite Split_Join; [done| |done]. intros ->. simpl in Hlen. lia.
Qed.

Lemma vmConfigOf_layered stat id opts layers mounts :
  2 <= length layers -> Forall (fun d => str_mem ":"%char d = false) layers ->
  chMachine true (vmConfigOf stat id opts (Join layers ":") mounts)
  = layered_machine layers mounts
      (addMounts 0 mounts ("console=hvc0 loka.nlayers=" +:+ itoa (length layers)) (layerShares layers)).1.
Proof.
  intros Hlen Hcolon. unfold vmConfigOf. rewrite rootfsConfig_layered by done.
  pose proof (addMounts_shares 0 mounts ("console=hvc0 loka.nlayers=" +:+ itoa (length layers))
                (layerShares layers)) as Hdirs.
  destruct (addMounts _ _ _ _) as [boot dirs]. simpl in Hdirs. by subst dirs.
Qed.

(** The script of a layered configuration is the case of the layers. *)
Lemma init_layered_boot layers mounts standalone executable :
  Forall word_safe mounts ->
  let n := length layers in
  let boot := (addMounts 0 mounts ("console=hvc0 loka.nlayers=" +:+ itoa n) (layerShares layers)).1 in
  init (layered_machine layers mounts boot) standalone executable
  = boot_layered (layered_machine layers mounts boot) (have_command standalone)
      (["console=hvc0"; "loka.nlayers=" +:+ itoa n] ++ mount_words 0 mounts) (itoa n) (kernel_mounts "").
Proof.
  intros Hsafe n boot.
  assert (fields (proc_cmdline (layered_machine layers mounts boot))
          = ["console=hvc0"; "loka.nlayers=" +:+ itoa n] ++ mount_words 0 mounts) as Hwords.
  { unfold proc_cmdline. change (mc_cmdline _) with boot. rewrite fields_blank by done.
    unfold boot. rewrite addMounts_fields by done.
    change ("console=hvc0 loka.nlayers=" +:+ itoa n)
      with ("console=hvc0" +:+ String " "%char ("loka.nlayers=" +:+ itoa n)).
    rewrite fields_blank, (fields_word "console=hvc0"), (fields_word ("loka.nlayers=" +:+ _));
      try done.
    - by rewrite app_nil_r.
    - apply blank_free_app. split; [by repeat constructor|apply itoa_blank_free].
    - by repeat constructor. }
  unfold init. rewrite Hwords. set (have := have_command standalone).
  change (boot_params ?m have ?ws (["console=hvc0"; ?w] ++ ?rest) ?g)
    with (match nlayers_param w with
          | Some c => let '(g', o) := boot_layered m have ws c g in (g', Some o)
          | None => boot_params m have ws rest g
          end).
  unfold nlayers_param. rewrite HasPrefix_app, TrimPrefix_app.
  by destruct (boot_layered _ _ _ _ _).
Qed.

Lemma init_layered layers mounts standalone executable :
  0 < length layers -> (Z.of_nat (length layers) <= max_int64)%Z -> Forall word_safe mounts ->
  let n := length layers in
  let boot := (addMounts 0 mounts ("console=hvc0 loka.nlayers=" +:+ itoa n) (layerShares layers)).1 in
  if standalone "seq" && standalone "switch_root"
  then init (layered_machine layers mounts boot) standalone executable
       = (final_mounts mounts n, Started "/merged" "/usr/local/bin/loka-supervisor")
  else (init (layered_machine layers mounts boot) standalone executable).2 = Dead.
Proof.
  intros Hpos Hmax Hsafe n boot. unfold boot. rewrite init_layered_boot by done.
  assert (have_command standalone "seq" = standalone "seq") as Hseq by done.
  assert (have_command standalone "switch_root" = standalone "switch_root") as Hsw by done.
  destruct (standalone "seq" && standalone "switch_root") eqn:Hb.
  - apply andb_true_iff in Hb as [Hb1 Hb2]. rewrite boot_layered_ok; [done|done..|congruence|congruence|done].
  - unfold boot_layered. rewrite Hseq, Hsw. destruct (standalone "switch_root"); [|by destruct (mount_layers _ _ _ _)].
    by destruct (standalone "seq").
Qed.

Lemma resolveMounts_paths resolve i mounts mounts' :
  (forall v v', resolve v = Ok v' -> v_Path v' = v_Path v) ->
  resolveMounts resolve i mounts = Ok mounts' -> v_Path <$> mounts' = v_Path <$> mounts.
Proof.
  intros Hresolve. revert i mounts'. induction mounts as [|v mounts IH]; intros i mounts'; simpl.
  - by intros [= <-].
  - destruct (resolve v) as [v'|e] eqn:Hv; [|done].
    destruct (resolveMounts resolve (S i) mounts) as [vs|e] eqn:Hvs; [|done].
    intros [= <-]. csimpl. by rewrite (Hresolve _ _ Hv), (IH _ _ Hvs).
Qed.

Lemma resolveVolumeMount_path dataDir cwd mk v v' :
  resolveVolumeMount dataDir cwd mk v = Ok v' -> v_Path v' = v_Path v.
Proof. unfold resolveVolumeMount. intros H. by cases_in H. Qed.

Lemma resolveSessionMount_path dataDir cwd mk co v v' :
  resolveSessionMount dataDir cwd mk co v = Ok v' -> v_Path v' = v_Path v.
Proof.
  unfold resolveSessionMount. destruct (resolveGitMount co v) as [w|e] eqn:Hg; [|done].
  intros ->%resolveVolumeMount_path. unfold resolveGitMount in Hg. by cases_in Hg.
Qed.

Lemma paths_safe (P : string -> Prop) (mounts mounts' : list Volume) :
  v_Path <$> mounts' = v_Path <$> mounts -> Forall (fun v => P (v_Path v)) mounts ->
  Forall (fun v => P (v_Path v)) mounts'.
Proof.
  intros Heq Hall. apply (Forall_fmap v_Path P). rewrite Heq. by apply Forall_fmap.
Qed.

(** C27 What becomes of a session or service launched from a pulled image depends on the
    BusyBox of the initramfs, which links neither [seq] nor [switch_root]. For a
    configuration built by [LaunchSession] or [LaunchService] from the root file
    system [Pull] recorded, with mount paths that are not empty and hold no white
    space and layer directories without a colon: if the shell runs those two
    commands by itself, the init script starts the supervisor in a root that
    shows, at every path, the entry of the topmost image layer that has one (the
    image's own layering, over the supervisor's layer), and below that root the
    host directory of every resolved mount is mounted at the mount's path, in the
    order asked and nothing else; if it lacks one of them, the script dies, and
    the machine with it. *)
Theorem guest_sees_image
    (imageDir dataDir cwd id : string) (stat : string -> option bool) (mkdirAll : string -> bool)
    (checkout : string -> string -> string -> result string string)
    (resolve : Volume -> result MountError Volume) (opts : LaunchOpts) (digests : list string)
    (cfg : VMConfig) (standalone executable : string -> bool) :
  lo_RootfsPath opts = RootfsPath imageDir digests -> digests <> [] ->
  (Z.of_nat (length digests) < max_int64)%Z ->
  Forall (fun d => str_mem ":"%char d = false) (layerDirs imageDir digests) ->
  Forall (fun v => blank_free (v_Path v) /\ v_Path v <> "") (lo_Mounts opts) ->
  (resolve = resolveSessionMount dataDir cwd mkdirAll checkout
   /\ sessionVMConfig dataDir cwd stat mkdirAll checkout true id opts = Ok cfg)
  \/ (resolve = resolveVolumeMount dataDir cwd mkdirAll
      /\ serviceVMConfig dataDir cwd stat mkdirAll true id opts = Ok cfg) ->
  let m := chMachine true cfg in
  let '(g, outcome) := init m standalone executable in
  if standalone "seq" && standalone "switch_root" then
  outcome = Started "/merged" "/usr/local/bin/loka-supervisor" /\
  (forall (A : Type) (content : string -> string -> option A) path,
     root_view content m g "/merged" path = image_view content (layerDirs imageDir digests) path) /\
  exists mounts, resolveMounts resolve 0 (lo_Mounts opts) = Ok mounts /\
    volumes_at m g "/merged" = asked_volumes "/merged" mounts /\
    v_Path <$> mounts = v_Path <$> lo_Mounts opts
  else outcome = Dead.
Proof.
  intros Hroot Hne Hmax Hcolon Hpaths Hcfg.
  assert (2 <= length (layerDirs imageDir digests)) as Hlen.
  { unfold layerDirs. simpl. rewrite length_fmap. destruct digests; [done|simpl; lia]. }
  assert (exists mounts, resolveMounts resolve 0 (lo_Mounts opts) = Ok mounts /\
            v_Path <$> mounts = v_Path <$> lo_Mounts opts /\
            cfg = vmConfigOf stat id opts (Join (layerDirs imageDir digests) ":") mounts)
    as (mounts & Hms & Hsame & ->).
  { assert (bool_decide (lo_RootfsPath opts = "") = false) as Hr.
    { apply bool_decide_eq_false_2. rewrite Hroot. unfold RootfsPath, layerDirs.
      destruct digests; [done|]. intros Heq%(f_equal String.length).
      simpl in Heq. rewrite !str_length_app in Heq. simpl in Heq. lia. }
    destruct Hcfg as [[-> Hcfg]|[-> Hcfg]]; unfold sessionVMConfig, serviceVMConfig in Hcfg;
      simpl in Hcfg; try rewrite Hr in Hcfg;
      destruct (resolveMounts _ _ _) as [mounts|e] eqn:Hms; simpl in Hcfg; try done;
      injection Hcfg as <-; exists mounts; rewrite Hroot; split_and!; try done;
      eapply resolveMounts_paths; try exact Hms;
      eauto using resolveSessionMount_path, resolveVolumeMount_path. }
  cbv zeta. rewrite vmConfigOf_layered by done.
  assert (Forall (fun v => blank_free (v_Path v) /\ v_Path v <> "") mounts) as Hms'
    by (eapply (paths_safe (fun p => blank_free p /\ p <> "")); [exact Hsame|done]).
  assert (Forall word_safe mounts) as Hsafe by (eapply Forall_impl; [exact Hms'|]; intros v [Hv _] _; exact Hv).
  pose proof (init_layered (layerDirs imageDir digests) mounts standalone executable) as Hinit.
  cbv zeta in Hinit. specialize (Hinit ltac:(lia)).
  specialize (Hinit ltac:(unfold layerDirs; simpl; rewrite length_fmap; lia) Hsafe).
  destruct (standalone "seq" && standalone "switch_root"); [rewrite Hinit|by destruct (init _ _ _)].
  - split_and!; [done| |].
    + intros A content path. apply layered_root_view.
      eapply Forall_impl; [exact Hms'|]. naive_solver.
    + exists mounts. split_and!; [done|apply layered_volumes|done].
Qed.

(** ** A launch, and what the code does beyond the theorem's hypotheses *)

Definition mount_of (path provider name host access : string) : Volume :=
  mkVolume path "" provider name "" "" "" "" access host "" "".
Definition workspace_mount : Volume := mount_of "/workspace" "volume" "session-web" "" "readwrite".
Definition data_mount (path : string) : Volume := mount_of path "local" "" "/srv/data" "readonly".

Definition run_session (rootfs : string) (mounts : list Volume) : result ConfigError VMConfig :=
  sessionVMConfig "/var/loka/worker" "/" (fun _ => None) (fun _ => true) (fun _ _ _ => Err "offline")
    true "s1" (mkLaunchOpts 0 0 rootfs mounts).
Definition pulled : string := RootfsPath "/var/loka" ["aa"; "bb"].

Lemma guest_sees_image_witness :
  exists cfg, run_session pulled [workspace_mount; data_mount "/data"] = Ok cfg /\
  let m := chMachine true cfg in
  let '(g, outcome) := init m (fun _ => true) (fun _ => false) in
  outcome = Started "/merged" "/usr/local/bin/loka-supervisor" /\
  (forall (A : Type) (content : string -> string -> option A) path,
     root_view content m g "/merged" path
     = image_view content (layerDirs "/var/loka" ["aa"; "bb"]) path) /\
  exists mounts,
    resolveMounts (resolveSessionMount "/var/loka/worker" "/" (fun _ => true) (fun _ _ _ => Err "offline"))
      0 [workspace_mount; data_mount "/data"] = Ok mounts /\
    volumes_at m g "/merged" = asked_volumes "/merged" mounts /\
    v_Path <$> mounts = v_Path <$> [workspace_mount; data_mount "/data"].
Proof.
  eexists. split; [vm_compute; reflexivity|].
  apply (guest_sees_image "/var/loka" "/var/loka/worker" "/" "s1" (fun _ => None) (fun _ => true)
           (fun _ _ _ => Err "offline")
           (resolveSessionMount "/var/loka/worker" "/" (fun _ => true) (fun _ _ _ => Err "offline"))
           (mkLaunchOpts 0 0 pulled [workspace_mount; data_mount "/data"]) ["aa"; "bb"]
           _ (fun _ => true) (fun _ => false)).
  - vm_compute. reflexivity.
  - discriminate.
  - vm_compute. reflexivity.
  - repeat constructor.
  - repeat (constructor; [split; [repeat constructor|discriminate]|]). constructor.
  - left. split; [reflexivity|vm_compute; reflexivity].
Defined.

Definition boot_of (r : result ConfigError VMConfig) (standalone : string -> bool) : option (Machine * Guest * Outcome) :=
  match r with
  | Ok cfg => let m := chMachine true cfg in let '(g, o) := init m standalone (fun _ => false) in Some (m, g, o)
  | Err _ => None
  end.
Definition volumes_of (b : option (Machine * Guest * Outcome)) : list (string * string) :=
  match b with Some (m, g, _) => volumes_at m g "/merged" | None => [] end.

Example session_volumes :
  volumes_of (boot_of (run_session pulled [workspace_mount; data_mount "/data"]) (fun _ => true))
  = [("/merged/workspace", "/var/loka/volumes/session-web"); ("/merged/data", "/srv/data")].
Proof. vm_compute. reflexivity. Qed.

(** A mount path with a space is cut at the space. *)
Lemma spaced_path_cut :
  volumes_of (boot_of (run_session pulled [data_mount "/my data"]) (fun _ => true))
  = [("/merged/my", "/srv/data")].
Proof. vm_compute. reflexivity. Qed.

(** A mount with an empty path covers the image. *)
Lemma empty_path_hides_image :
  match boot_of (run_session pulled [data_mount ""]) (fun _ => true) with
  | Some (m, g, Started root _) =>
      root = "/merged" /\ forall content : string -> string -> option nat,
        forall path, root_view content m g root path = None
  | _ => False
  end.
Proof. vm_compute. split; reflexivity. Qed.

(** Without a layered root file system the script mounts no root: whatever the
    directory or disk image is, the supervisor of the initramfs runs in the
    initramfs. *)
Lemma unlayered_boots_initramfs stat id opts rootfs standalone executable :
  Contains rootfs ":" = false ->
  let m := chMachine true (vmConfigOf stat id opts rootfs []) in
  init m standalone executable
  = (kernel_mounts "",
     Started "/" (if executable "/usr/local/bin/loka-supervisor"
                  then "/usr/local/bin/loka-supervisor" else "/bin/sh")).
Proof.
  intros Hroot m. subst m. unfold vmConfigOf, rootfsConfig. rewrite Hroot.
  repeat case_match; simplify_eq/=; unfold init, boot_tail; vm_compute;
    by destruct (executable _).
Qed.

(** With the linked commands alone the script finds no layer and dies instead of switching
    to the image. *)
Lemma linked_commands_insufficient :
  match boot_of (run_session pulled [workspace_mount]) (fun _ => false) with
  | Some (m, g, o) => o = Dead /\ dir_at m g "/layers/0" = None
  | None => False
  end.
Proof. vm_compute. split; reflexivity. Qed.

(** Neither virtiofsd nor cloud-hypervisor is told that a directory is read-only. *)
Lemma read_only_not_passed h vmDir tag host guest cfg :
  let with_dir ro := mkVMConfig (vc_ID cfg) (vc_VCPUsMin cfg) (vc_VCPUsMax cfg) (vc_MemoryMinMB cfg)
    (vc_MemoryMaxMB cfg) (vc_Vsock cfg) (vc_Drives cfg) [mkSharedDir tag host guest ro] (vc_BootArgs cfg) in
  virtiofsdArgs vmDir (mkSharedDir tag host guest true)
  = virtiofsdArgs vmDir (mkSharedDir tag host guest false) /\
  chArgs h vmDir true (with_dir true) = chArgs h vmDir true (with_dir false).
Proof. done. Qed.

(** A service's git mount is dropped without an error; a session's is not. *)
Lemma service_git_mount_dropped :
  let git := mkVolume "/src" "" "github" "" "" "" "" "" "" "" "o/r" "" in
  let checkout := fun _ _ _ => Ok "/cache/o/r/1" in
  let opts := mkLaunchOpts 0 0 pulled [git] in
  volumes_of (boot_of (serviceVMConfig "/w" "/" (fun _ => None) (fun _ => true) true "v1" opts) (fun _ => true))
  = [] /\
  volumes_of (boot_of (sessionVMConfig "/w" "/" (fun _ => None) (fun _ => true) checkout true "v1" opts)
                (fun _ => true))
  = [("/merged/src", "/cache/o/r/1")].
Proof. vm_compute. split; reflexivity. Qed.

(** A volume's name can lead out of the volumes directory. *)
Lemma volume_name_escapes :
  volumes_of (boot_of (run_session pulled [mount_of "/x" "volume" "../../../etc" "" ""]) (fun _ => true))
  = [("/merged/x", "/etc")].
Proof. vm_compute. reflexivity. Qed.
