(* ===== verification/Checkpoint.v ===== *)
(** * Checkpoints of a session's workspace

    [src/internal/worker/vm/overlay.go] (layers as directories, tar archives,
    differences between directories) and [src/internal/worker/checkpoint.go]
    ([Create] and [Restore] through the object store).

    The host's file system is a finite map from absolute paths, as lists of
    components, to nodes: directories, regular files and symbolic links.  Sockets,
    fifos and devices are left out; [tarDir] fails on a workspace that has a socket.
    The process is taken to have the permissions it needs.  Paths are not followed through symbolic links: an operation whose
    path meets one fails. *)

From stdpp Require Import options sorting.
From Stdlib Require Import Ascii.
From S2P Require Import Prelude GoStrings GoPath Network VMBoot.
Open Scope nat_scope.

(** ** Lexicographic orders *)

(** [cmp] orders its type. *)
Class Ordered {A} (cmp : A -> A -> comparison) : Prop := {
  cmp_eq a b : cmp a b = Eq <-> a = b;
  cmp_sym a b : cmp b a = CompOpp (cmp a b);
  cmp_trans a b c : cmp a b = Lt -> cmp b c = Lt -> cmp a c = Lt
}.

Fixpoint lex {A} (cmp : A -> A -> comparison) (l k : list A) : comparison :=
  match l, k with
  | [], [] => Eq
  | [], _ :: _ => Lt
  | _ :: _, [] => Gt
  | a :: l, b :: k => match cmp a b with Eq => lex cmp l k | c => c end
  end.

#[global] Instance lex_ordered {A} (cmp : A -> A -> comparison) `{!Ordered cmp} : Ordered (lex cmp).
Proof.
  split.
  - intros a. induction a as [|x a IH]; intros [|y b]; simpl; try done.
    destruct (cmp x y) eqn:Hc.
    + apply cmp_eq in Hc as ->. rewrite IH. split; congruence.
    + split; [done|]. intros [= -> ->]. by rewrite (proj2 (cmp_eq y y)) in Hc.
    + split; [done|]. intros [= -> ->]. by rewrite (proj2 (cmp_eq y y)) in Hc.
  - intros a. induction a as [|x a IH]; intros [|y b]; simpl; try done.
    rewrite (cmp_sym x y). destruct (cmp x y); simpl; auto.
  - intros a. induction a as [|x a IH]; intros [|y b] [|z c]; simpl; try done.
    destruct (cmp x y) eqn:Hxy; [apply cmp_eq in Hxy as ->| |done].
    + destruct (cmp y z); eauto.
    + intros _. destruct (cmp y z) eqn:Hyz; [apply cmp_eq in Hyz as ->; by rewrite Hxy| |done].
      by rewrite (cmp_trans _ _ _ Hxy Hyz).
Qed.

#[global] Instance Zcompare_ordered : Ordered Z.compare.
Proof.
  split.
  - apply Z.compare_eq_iff.
  - intros a b. apply Z.compare_antisym.
  - intros a b c. rewrite !Z.compare_lt_iff. lia.
Qed.

(** Go compares strings byte by byte. *)
Definition str_cmp (a b : string) : comparison := lex Z.compare (bytes_of a) (bytes_of b).
#[global] Instance str_ordered : Ordered str_cmp.
Proof.
  split; unfold str_cmp.
  - intros a b. rewrite cmp_eq. split; [apply (inj bytes_of)|by intros ->].
  - intros a b. apply cmp_sym.
  - intros a b c. apply cmp_trans.
Qed.

(** Sorting by a key. *)
Definition key_le {A K} (cmp : K -> K -> comparison) (key : A -> K) (a b : A) : Prop :=
  cmp (key a) (key b) <> Gt.
#[global] Instance key_le_dec {A K} (cmp : K -> K -> comparison) (key : A -> K) :
  RelDecision (key_le cmp key).
Proof. intros a b. unfold key_le. apply _. Defined.
#[global] Instance key_le_total {A K} (cmp : K -> K -> comparison) `{!Ordered cmp} (key : A -> K) :
  Total (key_le cmp key).
Proof.
  intros a b. unfold key_le. rewrite (cmp_sym (key a) (key b)).
  destruct (cmp (key a) (key b)); simpl; auto.
Qed.
#[global] Instance key_le_trans {A K} (cmp : K -> K -> comparison) `{!Ordered cmp} (key : A -> K) :
  Transitive (key_le cmp key).
Proof.
  intros a b c. unfold key_le. intros H1 H2 H3.
  destruct (cmp (key a) (key b)) eqn:Hab; [apply cmp_eq in Hab; congruence| |done].
  destruct (cmp (key b) (key c)) eqn:Hbc; [apply cmp_eq in Hbc; congruence| |done].
  by rewrite (cmp_trans _ _ _ Hab Hbc) in H3.
Qed.

(** ** The file system *)

(** Directories, files and links; what else a file system has, sockets, pipes and
    devices, is left out (of the programs here only [tarDir] meets them, and fails on a
    socket). *)
Notation Path := (list string).
Inductive Inode :=
  | NDir (mode : Z)
  | NFile (mode : Z) (data : string)
  | NLink (target : string).
#[global] Instance Inode_eq_dec : EqDecision Inode.
Proof. solve_decision. Defined.
Notation FS := (gmap Path Inode).

Definition is_dir (n : Inode) : bool := match n with NDir _ => true | _ => false end.
Definition dir_here (fs : FS) (p : Path) : Prop := p = [] \/ exists m, fs !! p = Some (NDir m).
#[global] Instance dir_here_dec fs p : Decision (dir_here fs p).
Proof.
  destruct (decide (p = [])) as [->|Hne]; [left; by left|].
  destruct (fs !! p) as [[m|m d|t]|] eqn:Hp; [left; right; by exists m|..];
    right; unfold dir_here; rewrite Hp; naive_solver.
Defined.

Definition comps (path : string) : Path := clean_comps true path.

Fixpoint strip (p q : Path) : option Path :=
  match p, q with
  | [], _ => Some q
  | a :: p, b :: q => if decide (a = b) then strip p q else None
  | _ :: _, [] => None
  end.

(** The entries at and below [src], moved to [dst]. *)
Definition reroot (src dst : Path) (fs : FS) : FS :=
  list_to_map (omap (M := list) (fun '(k, n) => (fun q => (dst ++ q, n)) <$> strip src k) (map_to_list fs)).
(** A directory's content, by relative path. *)
Definition below (p : Path) (fs : FS) : FS := delete [] (reroot p [] fs).

(** The archives [tarDir] writes, and the object store's bucket of them. *)
Inductive TarType := TypeDir | TypeReg | TypeSymlink.
Record TarEntry := mkTar { te_Name : string; te_Type : TarType; te_Mode : Z; te_Data : string }.
Notation Objects := (gmap string (list TarEntry)).

Section System.
(** The umask; the mode and content of the file the link at a path leads to
    ([None] when that cannot be read); whether [cp] can be run. *)
Context (umask : Z) (read_link : FS -> Path -> string -> option (Z * string)) (cp_works : bool).

Definition masked (mode : Z) : Z := Z.ldiff (Z.land mode 511) umask.

(** [os.MkdirAll] *)
Fixpoint mkdirs (mode : Z) (done_ todo : Path) (fs : FS) : option FS :=
  match todo with
  | [] => Some fs
  | c :: todo =>
      let p := done_ ++ [c] in
      match fs !! p with
      | Some (NDir _) => mkdirs mode p todo fs
      | Some _ => None
      | None => mkdirs mode p todo (<[p := NDir (masked mode)]> fs)
      end
  end.
Definition mkdirAll (p : Path) (mode : Z) (fs : FS) : option FS := mkdirs mode [] p fs.

(** [os.RemoveAll] *)
Definition removeAll (p : Path) (fs : FS) : FS := filter (fun e => strip p e.1 = None) fs.

(** Opening a file for writing, created with a mode or truncated, and writing it. *)
Definition write_file (p : Path) (mode : Z) (data : string) (fs : FS) : option FS :=
  match fs !! p with
  | Some (NFile m _) => Some (<[p := NFile m data]> fs)
  | Some _ => None
  | None => if decide (p <> [] /\ dir_here fs (removelast p))
            then Some (<[p := NFile (masked mode) data]> fs) else None
  end.

(** [filepath.Walk] below a directory: by name, a directory before its content. *)
Definition walk (p : Path) (fs : FS) : list (Path * Inode) :=
  merge_sort (key_le (lex str_cmp) fst) (map_to_list (below p fs)).

(** ** Copying ([cloneDir]) *)

Definition same_kind (fs : FS) (k : Path) (n : Inode) : bool :=
  match fs !! k with Some n' => eqb (is_dir n) (is_dir n') | None => true end.

(** [cp -a src/. dst]: merges into [dst], modes included; refuses to replace a
    directory by something else or something else by a directory. *)
Definition cpA (src dst : Path) (fs : FS) : option FS :=
  let moved := reroot src dst fs in
  if decide (dir_here fs src /\ dir_here fs dst /\
             map_Forall (fun k n => same_kind fs k n = true) moved)
  then Some (moved ∪ fs) else None.

(** [copyFile] *)
Definition copyFile (src dst : Path) (fs : FS) : option FS :=
  match fs !! src with
  | Some (NFile m d) => fs ← mkdirAll (removelast dst) 493 fs; write_file dst m d fs
  | Some (NLink t) =>
      '(m, d) ← read_link fs src t; fs ← mkdirAll (removelast dst) 493 fs; write_file dst m d fs
  | _ => None
  end.

Fixpoint copy_entries (src dst : Path) (l : list (Path * Inode)) (fs : FS) : option FS :=
  match l with
  | [] => Some fs
  | (q, n) :: l =>
      fs ← match n with
           | NDir m => mkdirAll (dst ++ q) m fs
           | _ => copyFile (src ++ q) (dst ++ q) fs
           end;
      copy_entries src dst l fs
  end.
(** [copyDir] *)
Definition copyDir (src dst : Path) (fs : FS) : option FS :=
  match fs !! src with
  | Some (NDir m) => fs' ← mkdirAll dst m fs; copy_entries src dst (walk src fs) fs'
  | _ => None
  end.

Definition cloneDir (src dst : Path) (fs : FS) : option FS :=
  fs ← mkdirAll (removelast dst) 493 fs;
  match (if cp_works then cpA src dst fs else None) with
  | Some fs => Some fs
  | None => copyDir src dst fs
  end.

(** ** Archives *)

(** The header and body of one entry: a link's header announces no data, and
    what it leads to is written after it. *)
Definition tar_entry (fs : FS) (dir : Path) (q : Path) (n : Inode) : option TarEntry :=
  match n with
  | NDir m => Some (mkTar (Join q "/") TypeDir m "")
  | NFile m d => Some (mkTar (Join q "/") TypeReg m d)
  | NLink t =>
      match read_link fs (dir ++ q) t with
      | Some (_, "") => Some (mkTar (Join q "/") TypeSymlink 511 "")
      | _ => None
      end
  end.

(** [tarDir] *)
Definition tarDir (dir : Path) (fs : FS) : option (list TarEntry) :=
  match fs !! dir with
  | None => None
  | Some _ => mapM (fun '(q, n) => tar_entry fs dir q n) (walk dir fs)
  end.

(** [untarDir]: directories and regular files, inside the target by the text
    of their path. *)
Definition untar_entry (dstDir : string) (e : TarEntry) (fs : FS) : option FS :=
  let target := PathJoin [dstDir; te_Name e] in
  if negb (HasPrefix (Clean target) (Clean dstDir)) then None
  else match te_Type e with
       | TypeDir => mkdirAll (comps target) (te_Mode e) fs
       | TypeReg => fs ← mkdirAll (removelast (comps target)) 493 fs;
                    write_file (comps target) 438 (te_Data e) fs
       | TypeSymlink => Some fs
       end.
Fixpoint untarDir (dstDir : string) (archive : list TarEntry) (fs : FS) : option FS :=
  match archive with
  | [] => Some fs
  | e :: archive => fs ← untar_entry dstDir e fs; untarDir dstDir archive fs
  end.

(** ** The overlay of a session *)

Context (dataDir : string).

Definition SessionDir (sessionID : string) : string := PathJoin [dataDir; "sessions"; sessionID].
Definition WorkspacePath (sessionID : string) : string := PathJoin [SessionDir sessionID; "workspace"].
Definition layerPath (sessionID layerName : string) : string :=
  PathJoin [SessionDir sessionID; "layers"; layerName].

(** [Init] *)
Definition overlayInit (sessionID : string) (fs : FS) : option FS :=
  fs ← mkdirAll (comps (PathJoin [SessionDir sessionID; "base"])) 493 fs;
  fs ← mkdirAll (comps (PathJoin [SessionDir sessionID; "layers"])) 493 fs;
  mkdirAll (comps (WorkspacePath sessionID)) 493 fs.

(** [CreateLayer] at a time, [RestoreLayer], [UntarLayer] *)
Definition CreateLayer (now : Z) (sessionID : string) (fs : FS) : option (string * FS) :=
  let layerName := "layer-" +:+ itoaZ now in
  let dir := comps (layerPath sessionID layerName) in
  fs ← mkdirAll dir 493 fs;
  fs ← cloneDir (comps (WorkspacePath sessionID)) dir fs;
  Some (layerName, fs).

Definition RestoreLayer (sessionID layerName : string) (fs : FS) : option FS :=
  let dir := comps (layerPath sessionID layerName) in
  let ws := comps (WorkspacePath sessionID) in
  match fs !! dir with
  | None => None
  | Some _ => fs ← mkdirAll ws 493 (removeAll ws fs); cloneDir dir ws fs
  end.

Definition UntarLayer (sessionID layerName : string) (archive : list TarEntry) (fs : FS) : option FS :=
  fs ← mkdirAll (comps (layerPath sessionID layerName)) 493 fs;
  untarDir (layerPath sessionID layerName) archive fs.

(** [Cleanup], [DeleteLayer], [ListLayers] *)
Definition overlayCleanup (sessionID : string) (fs : FS) : FS := removeAll (comps (SessionDir sessionID)) fs.
Definition DeleteLayer (sessionID layerName : string) (fs : FS) : FS :=
  removeAll (comps (layerPath sessionID layerName)) fs.
Definition ListLayers (sessionID : string) (fs : FS) : list string :=
  omap (M := list) (fun '(q, n) => match q, n with [name], NDir _ => Some name | _, _ => None end)
    (walk (comps (PathJoin [SessionDir sessionID; "layers"])) fs).

(** ** Checkpoints *)


Record CheckpointResult := mkCpResult {
  cr_LayerName : string;
  cr_OverlayKey : string;
  cr_Success : bool
}.

Definition overlayKey (sessionID checkpointID : string) : string :=
  "sessions/" +:+ sessionID +:+ "/checkpoints/" +:+ checkpointID +:+ "/overlay.tar.gz".

(** [Create]; the flag tells whether the temporary file and the upload work. *)
Definition cpCreate (ok : bool) (now : Z) (sessionID checkpointID : string) (fs : FS) (objs : Objects)
    : CheckpointResult * FS * Objects :=
  match CreateLayer now sessionID fs with
  | None => (mkCpResult "" "" false, fs, objs)
  | Some (layer, fs) =>
      match tarDir (comps (layerPath sessionID layer)) fs with
      | None => (mkCpResult layer "" false, fs, objs)
      | Some archive =>
          let key := overlayKey sessionID checkpointID in
          if ok then (mkCpResult layer key true, fs, <[key := archive]> objs)
          else (mkCpResult layer "" false, fs, objs)
      end
  end.

(** [Restore]: the outer [None] is a panic, the inner one an error. *)
Definition cpRestore (sessionID checkpointID key : string) (fs : FS) (objs : Objects) : option (option FS) :=
  match objs !! key with
  | None => Some None
  | Some archive =>
      if String.length checkpointID <? 8 then None
      else
        let layerName := "restore-" +:+ take_str 8 checkpointID in
        Some (fs ← UntarLayer sessionID layerName archive fs; RestoreLayer sessionID layerName fs)
  end.
End System.

(** ** Lemmas on paths *)

Lemma strip_app p q : strip p (p ++ q) = Some q.
Proof. induction p as [|a p IH]; [done|]. simpl. by rewrite decide_True. Qed.

Lemma strip_Some p k q : strip p k = Some q <-> k = p ++ q.
Proof.
  split; [|intros ->; apply strip_app]. revert k. induction p as [|a p IH]; intros k; simpl; [congruence|].
  destruct k as [|b k]; [done|]. case_decide as Hab; [|done]. subst b. intros Hs. by rewrite (IH k Hs).
Qed.

Lemma removelast_snoc {A} (l : list A) x : removelast (l ++ [x]) = l.
Proof. rewrite removelast_app by done. simpl. apply app_nil_r. Qed.

Lemma path_snoc (p : Path) : p <> [] -> exists a c, p = a ++ [c].
Proof. intros Hp. destruct (exists_last Hp) as (a & c & ->). by exists a, c. Qed.

Lemma removelast_below (p q : Path) : q <> [] -> removelast (p ++ q) = p ++ removelast q.
Proof. intros Hq. apply removelast_app. done. Qed.

(** A path comes before the paths below it. *)
Lemma parent_first (a : Path) c : lex str_cmp (a ++ [c]) a = Gt.
Proof.
  induction a as [|x a IH]; [done|]. simpl. by rewrite (proj2 (cmp_eq x x)).
Qed.

Lemma omap_keys (src dst : Path) (l : list (Path * Inode)) k :
  k ∈ (omap (M := list) (fun '(k, n) => (fun q => (dst ++ q, n)) <$> strip src k) l).*1 ->
  exists q, k = dst ++ q /\ src ++ q ∈ l.*1.
Proof.
  rewrite list_elem_of_fmap. intros ([k' n] & -> & Hin).
  apply list_elem_of_omap in Hin as ([k0 n0] & Hin & Hs).
  apply fmap_Some in Hs as (q & Hs & [= -> ->]). apply strip_Some in Hs as ->.
  exists q. split; [done|]. apply list_elem_of_fmap. by exists (src ++ q, n0).
Qed.

Lemma omap_keys_NoDup (src dst : Path) (l : list (Path * Inode)) :
  NoDup l.*1 -> NoDup (omap (M := list) (fun '(k, n) => (fun q => (dst ++ q, n)) <$> strip src k) l).*1.
Proof.
  induction l as [|[k n] l IH]; [done|]. csimpl. intros [Hk Hl]%NoDup_cons.
  destruct (strip src k) as [q|] eqn:Hs; simpl; [|by apply IH]. apply NoDup_cons. split; [|by apply IH].
  intros (q' & Heq & Hin)%omap_keys. apply (inj (dst ++.)) in Heq as <-.
  apply strip_Some in Hs as ->. done.
Qed.

Lemma lookup_reroot src dst fs k :
  reroot src dst fs !! k = q ← strip dst k; fs !! (src ++ q).
Proof.
  apply option_eq. intros n. unfold reroot.
  rewrite <-(elem_of_list_to_map (M := gmap Path)) by (apply omap_keys_NoDup, NoDup_fst_map_to_list).
  rewrite list_elem_of_omap. split.
  - intros ([k0 n0] & Hin & Hs). apply elem_of_map_to_list in Hin.
    apply fmap_Some in Hs as (q & Hs & [= -> ->]). apply strip_Some in Hs as ->. rewrite strip_app. done.
  - intros (q & Hs & Hq)%bind_Some. apply strip_Some in Hs as ->. exists (src ++ q, n).
    split; [by apply elem_of_map_to_list|]. by rewrite strip_app.
Qed.

Lemma lookup_below p fs q : q <> [] -> below p fs !! q = fs !! (p ++ q).
Proof. intros Hq. unfold below. rewrite lookup_delete_ne by done. by rewrite lookup_reroot. Qed.
Lemma below_root p fs : below p fs !! [] = None.
Proof. apply lookup_delete_eq. Qed.

Lemma below_ext p p' fs fs' :
  (forall q, q <> [] -> fs !! (p ++ q) = fs' !! (p' ++ q)) -> below p fs = below p' fs'.
Proof.
  intros Heq. apply map_eq. intros q. destruct (decide (q = [])) as [->|Hq]; [by rewrite !below_root|].
  rewrite !lookup_below by done. by apply Heq.
Qed.

(** ** A well-formed file system: every entry is in a directory *)

Definition fs_ok (fs : FS) : Prop :=
  forall a c n, fs !! (a ++ [c]) = Some n -> dir_here fs a.

Lemma dir_here_prefix fs p q : fs_ok fs -> dir_here fs (p ++ q) -> dir_here fs p.
Proof.
  intros Hok. induction q as [|c q IH] using rev_ind; [by rewrite app_nil_r|].
  intros [Hn|[m Hm]]; [by destruct p, q|]. apply IH. rewrite app_assoc in Hm. by eapply Hok.
Qed.

Lemma fs_ok_insert fs p n :
  fs_ok fs -> p <> [] -> fs !! p = None -> dir_here fs (removelast p) -> fs_ok (<[p := n]> fs).
Proof.
  intros Hok Hp Hnone Hpar a c n' Ha.
  assert (dir_here fs a) as Hd.
  { destruct (decide (a ++ [c] = p)) as [Heq|Hne]; [by rewrite <-Heq, removelast_snoc in Hpar|].
    rewrite lookup_insert_ne in Ha by done. by eapply Hok. }
  destruct Hd as [->|[m Hm]]; [by left|right]. exists m.
  rewrite lookup_insert_ne; [done|]. intros <-. congruence.
Qed.

(** Replacing the content of a node of the same kind. *)
Lemma fs_ok_below_none fs p : fs_ok fs -> ~ dir_here fs p -> forall q, q <> [] -> fs !! (p ++ q) = None.
Proof.
  intros Hok Hp q Hq. destruct (fs !! (p ++ q)) as [n|] eqn:Hn; [|done]. destruct Hp.
  destruct (path_snoc q Hq) as (a & c & ->). rewrite app_assoc in Hn. apply Hok in Hn.
  by eapply dir_here_prefix.
Qed.

Section Ops.
Context (umask : Z).

Lemma mkdirs_app m done_ a b fs :
  mkdirs umask m done_ (a ++ b) fs = fs' ← mkdirs umask m done_ a fs; mkdirs umask m (done_ ++ a) b fs'.
Proof.
  revert done_ fs. induction a as [|c a IH]; intros done_ fs; simpl; [by rewrite app_nil_r|].
  destruct (fs !! (done_ ++ [c])) as [[]|]; try done; rewrite IH; by rewrite <-app_assoc.
Qed.

Lemma mkdirAll_dir p m fs : fs_ok fs -> dir_here fs p -> mkdirAll umask p m fs = Some fs.
Proof.
  intros Hok. unfold mkdirAll. induction p as [|c p IH] using rev_ind; [done|]. intros Hd.
  rewrite mkdirs_app, IH by (by eapply dir_here_prefix). simpl.
  destruct Hd as [Hn|[m' Hm]]; [by destruct p|]. by rewrite Hm.
Qed.

Lemma mkdirAll_new p m fs :
  fs_ok fs -> p <> [] -> dir_here fs (removelast p) -> fs !! p = None ->
  mkdirAll umask p m fs = Some (<[p := NDir (masked umask m)]> fs).
Proof.
  intros Hok Hp Hpar Hnone. destruct (path_snoc p Hp) as (a & c & ->). rewrite removelast_snoc in Hpar.
  unfold mkdirAll. rewrite mkdirs_app. fold (mkdirAll umask a m fs). rewrite mkdirAll_dir by done.
  simpl. by rewrite Hnone.
Qed.

Lemma write_file_new p m d fs :
  p <> [] -> dir_here fs (removelast p) -> fs !! p = None ->
  write_file umask p m d fs = Some (<[p := NFile (masked umask m) d]> fs).
Proof. intros Hp Hpar Hnone. unfold write_file. rewrite Hnone. by rewrite decide_True. Qed.

Lemma lookup_removeAll p fs k : removeAll p fs !! k = match strip p k with Some _ => None | None => fs !! k end.
Proof.
  unfold removeAll. destruct (strip p k) as [q|] eqn:Hs.
  - apply map_lookup_filter_None. right. intros n _. simpl. congruence.
  - destruct (fs !! k) as [n|] eqn:Hk.
    + by apply map_lookup_filter_Some.
    + apply map_lookup_filter_None. by left.
Qed.

Lemma removeAll_ok p fs : p <> [] -> fs_ok fs -> fs_ok (removeAll p fs).
Proof.
  intros Hp Hok a c n. rewrite lookup_removeAll.
  destruct (strip p (a ++ [c])) as [q|] eqn:Hs; [done|]. intros Hn.
  destruct (Hok _ _ _ Hn) as [->|[m Hm]]; [by left|right]. exists m. rewrite lookup_removeAll.
  destruct (strip p a) as [q|] eqn:Hs'; [|done]. apply strip_Some in Hs' as ->.
  by rewrite <-app_assoc, strip_app in Hs.
Qed.

(** *** Filling an empty directory *)

(** The nodes of a list put below [base], each changed by [f]. *)
Definition install (f : Inode -> Inode) (base : Path) (l : list (Path * Inode)) (fs : FS) : FS :=
  foldl (fun fs e => <[base ++ e.1 := f e.2]> fs) fs l.

Lemma lookup_install f base l fs k :
  NoDup l.*1 ->
  install f base l fs !! k
  = match (q ← strip base k; (list_to_map l : FS) !! q) with Some n => Some (f n) | None => fs !! k end.
Proof.
  revert fs. induction l as [|[q n] l IH] using rev_ind; intros fs Hnd.
  - simpl. by destruct (strip base k).
  - rewrite fmap_app in Hnd. apply NoDup_app in Hnd as (Hl & Hdis & _).
    unfold install in *. rewrite foldl_app. simpl.
    destruct (decide (k = base ++ q)) as [->|Hne].
    + rewrite lookup_insert_eq, strip_app. simpl.
      rewrite list_to_map_app, lookup_union_r; [by simplify_map_eq|].
      apply not_elem_of_list_to_map_1. intros Hin. apply (Hdis q Hin). by left.
    + rewrite lookup_insert_ne by done. rewrite IH by done.
      destruct (strip base k) as [q'|] eqn:Hs; simpl; [|done]. apply strip_Some in Hs as ->.
      rewrite list_to_map_app. assert (q' <> q) as Hq by congruence.
      destruct ((list_to_map l : FS) !! q') as [n'|] eqn:Hl'.
      * by erewrite lookup_union_Some_l.
      * rewrite lookup_union_r by done. simpl. by rewrite lookup_insert_ne.
Qed.

Definition no_link (n : Inode) : Prop := match n with NLink _ => False | _ => True end.

(** Every entry of the list finds its directory and a free place. *)
Fixpoint installable (f : Inode -> Inode) (base : Path) (l : list (Path * Inode)) (fs : FS) : Prop :=
  match l with
  | [] => True
  | (q, n) :: l =>
      q <> [] /\ fs !! (base ++ q) = None /\ dir_here fs (removelast (base ++ q)) /\
      installable f base l (<[base ++ q := f n]> fs)
  end.

(** The entries of a list come after their directories. *)
Definition dirs_first (l : list (Path * Inode)) : Prop :=
  forall l1 q n l2, l = l1 ++ (q, n) :: l2 ->
  q <> [] /\ (removelast q = [] \/ exists m, (removelast q, NDir m) ∈ l1).

Definition keeps_kind (f : Inode -> Inode) : Prop := forall n, is_dir (f n) = is_dir n.

Lemma keeps_dir f m : keeps_kind f -> exists m', f (NDir m) = NDir m'.
Proof. intros Hf. specialize (Hf (NDir m)). destruct (f (NDir m)); naive_solver. Qed.

Lemma dir_here_install f base l fs p :
  keeps_kind f -> NoDup l.*1 ->
  dir_here fs p /\ strip base p = None \/ p = base ++ [] /\ dir_here fs p /\ [] ∉ l.*1
    \/ (exists q m, p = base ++ q /\ (q, NDir m) ∈ l) ->
  dir_here (install f base l fs) p.
Proof.
  intros Hf Hnd [[[->|[m Hm]] Hs]|[(-> & Hd & Hin)|(q & m & -> & Hin)]].
  - by left.
  - right. exists m. rewrite lookup_install by done. by rewrite Hs.
  - destruct Hd as [->|[m Hm]]; [by left|right]. exists m. rewrite lookup_install by done.
    rewrite strip_app. simpl. by rewrite not_elem_of_list_to_map_1.
  - right. destruct (keeps_dir f m Hf) as [m' Hm]. exists m'. rewrite lookup_install by done.
    rewrite strip_app. simpl. rewrite (elem_of_list_to_map_1 (M := gmap Path) l q (NDir m)) by done. by rewrite Hm.
Qed.

Lemma dirs_first_installable f base l fs :
  keeps_kind f -> dirs_first l -> NoDup l.*1 -> dir_here fs base ->
  (forall q, q <> [] -> fs !! (base ++ q) = None) ->
  installable f base l fs.
Proof.
  intros Hf Hpf Hnd Hd Hfree.
  assert (forall l2 l1, l = l1 ++ l2 -> installable f base l2 (install f base l1 fs)) as Hgen.
  { induction l2 as [|[q n] l2 IH]; intros l1 Hl; [done|]. simpl.
    destruct (Hpf _ _ _ _ Hl) as (Hq & Hpar).
    assert (NoDup l1.*1 /\ q ∉ l1.*1) as [Hnd1 Hq1].
    { subst l. rewrite fmap_app in Hnd. apply NoDup_app in Hnd as (? & Hdis & _). split; [done|].
      intros Hin. apply (Hdis q Hin). csimpl. by left. }
    split_and!; [done|..].
    - rewrite lookup_install, strip_app by done. simpl. rewrite not_elem_of_list_to_map_1 by done. by apply Hfree.
    - rewrite removelast_below by done. apply dir_here_install; [done..|].
      destruct Hpar as [->|[m Hm]]; [right; left|by right; right; exists (removelast q), m].
      split_and!; [done|by rewrite app_nil_r|]. intros Hin.
      apply list_elem_of_fmap in Hin as ([q' n'] & Heq & Hin). simpl in Heq. subst q'.
      apply list_elem_of_split in Hin as (la & lb & ->). rewrite <-app_assoc in Hl.
      by destruct (Hpf _ _ _ _ Hl).
    - specialize (IH (l1 ++ [(q, n)])). unfold install in IH. rewrite foldl_app in IH. simpl in IH.
      apply IH. by rewrite <-app_assoc. }
  by apply (Hgen l []).
Qed.

Lemma installable_ok f base l fs :
  installable f base l fs -> fs_ok fs -> fs_ok (install f base l fs).
Proof.
  revert fs. induction l as [|[q n] l IH]; intros fs; [done|]. simpl.
  intros (Hq & Hn & Hd & Hl) Hok. apply IH; [done|]. apply fs_ok_insert; [done| |done|done].
  by destruct base, q.
Qed.
End Ops.

(** ** What a walk lists *)

Lemma walk_perm p fs : walk p fs ≡ₚ map_to_list (below p fs).
Proof. apply merge_sort_Permutation. Qed.

Lemma walk_elem p fs q n : (q, n) ∈ walk p fs <-> below p fs !! q = Some n.
Proof. rewrite walk_perm. apply elem_of_map_to_list. Qed.

Lemma walk_NoDup p fs : NoDup (walk p fs).*1.
Proof. rewrite walk_perm. apply NoDup_fst_map_to_list. Qed.

Lemma walk_map p fs : (list_to_map (walk p fs) : FS) = below p fs.
Proof.
  rewrite <-(list_to_map_to_list (below p fs)). apply list_to_map_proper; [|apply walk_perm].
  apply walk_NoDup.
Qed.

Lemma walk_sorted p fs : StronglySorted (key_le (lex str_cmp) fst) (walk p fs).
Proof.
  apply Sorted_StronglySorted; [|apply Sorted_merge_sort; apply _].
  intros a b c. apply (key_le_trans (lex str_cmp) fst).
Qed.

Definition links_free (t : FS) : Prop := map_Forall (fun _ n => no_link n) t.

Lemma walk_dirs_first p fs : fs_ok fs -> dirs_first (walk p fs).
Proof.
  intros Hok l1 q n l2 Hw.
  assert (below p fs !! q = Some n) as Hq.
  { apply walk_elem. rewrite Hw. apply elem_of_app. right. by left. }
  assert (q <> []) as Hne by (intros ->; by rewrite below_root in Hq).
  split; [done|].
  destruct (path_snoc q Hne) as (a & c & ->). rewrite removelast_snoc.
  destruct (decide (a = [])) as [|Ha]; [by left|right].
  rewrite lookup_below, app_assoc in Hq by done. apply Hok in Hq as [Hn|[m Hm]]; [by destruct p, a|].
  exists m. assert ((a, NDir m) ∈ walk p fs) as Hin by (apply walk_elem; by rewrite lookup_below).
  rewrite Hw in Hin. apply elem_of_app in Hin as [|Hin]; [done|].
  apply elem_of_cons in Hin as [Heq|Hin].
  { assert (length a = length (a ++ [c])) as Hl by congruence. rewrite length_app in Hl. simpl in Hl. lia. }
  pose proof (walk_sorted p fs) as Hs. rewrite Hw in Hs.
  assert (StronglySorted (key_le (lex str_cmp) fst) ((a ++ [c], n) :: l2)) as Hs2.
  { clear -Hs. induction l1 as [|x l1 IH]; [done|]. apply IH. by apply StronglySorted_inv in Hs as [? _]. }
  apply StronglySorted_inv in Hs2 as [_ Hall]. rewrite Forall_forall in Hall.
  specialize (Hall _ Hin). by unfold key_le in Hall; simpl in Hall; rewrite parent_first in Hall.
Qed.

Lemma below_install f base p fs fs' :
  (forall q, q <> [] -> fs' !! (base ++ q) = None) ->
  below base (install f base (walk p fs) fs') = f <$> below p fs.
Proof.
  intros Hfree. apply map_eq. intros q. rewrite lookup_fmap.
  destruct (decide (q = [])) as [->|Hq]; [by rewrite !below_root|].
  rewrite lookup_below, lookup_install, strip_app by (done || apply walk_NoDup). simpl.
  rewrite walk_map. destruct (below p fs !! q); [done|]. by apply Hfree.
Qed.

Lemma install_frame f base p fs fs' k :
  strip base k = None -> install f base (walk p fs) fs' !! k = fs' !! k.
Proof. intros Hs. rewrite lookup_install by apply walk_NoDup. by rewrite Hs. Qed.

Lemma strip_refl p : strip p p = Some [].
Proof. rewrite <-(app_nil_r p) at 2. apply strip_app. Qed.

Lemma app_ne_self (p q : Path) : p = p ++ q -> q = [].
Proof. intros Heq. rewrite <-(app_nil_r p) in Heq at 1. by apply (inj (p ++.)) in Heq. Qed.

Lemma strip_longer p c : strip (p ++ [c]) p = None.
Proof. induction p as [|x p IH]; [done|]. simpl. by rewrite decide_True. Qed.

(** ** Unpacking and copying fill an empty directory *)

Section Fill.
Context (umask : Z) (read_link : FS -> Path -> string -> option (Z * string)).

(** What unpacking and [copyFile] make of a node: the modes the umask lets
    through, and for unpacked files those of [os.Create]. *)
Definition untarred (n : Inode) : Inode :=
  match n with
  | NDir m => NDir (masked umask m)
  | NFile _ d => NFile (masked umask 438) d
  | NLink t => NLink t
  end.
Definition copied (n : Inode) : Inode :=
  match n with
  | NDir m => NDir (masked umask m)
  | NFile m d => NFile (masked umask m) d
  | NLink t => NLink t
  end.

Lemma untarred_kind : keeps_kind untarred.
Proof. by intros []. Qed.
Lemma copied_kind : keeps_kind copied.
Proof. by intros []. Qed.

Definition archive_entry (e : Path * Inode) : TarEntry :=
  match e with
  | (q, NDir m) => mkTar (Join q "/") TypeDir m ""
  | (q, NFile m d) => mkTar (Join q "/") TypeReg m d
  | (q, NLink _) => mkTar (Join q "/") TypeSymlink 511 ""
  end.

Lemma tarDir_links_free (dir : Path) (fs : FS) :
  links_free (below dir fs) -> is_Some (fs !! dir) ->
  tarDir read_link dir fs = Some (archive_entry <$> walk dir fs).
Proof.
  intros Hlf [n Hn]. unfold tarDir. rewrite Hn. apply mapM_Some_2, Forall2_fmap_r, Forall_Forall2_diag.
  apply Forall_forall. intros [q n'] Hin. apply walk_elem, Hlf in Hin. by destruct n'.
Qed.

Lemma untar_list dst l fs :
  rooted dst -> Forall (fun e => Forall good_comp e.1 /\ no_link e.2) l ->
  installable untarred (comps dst) l fs -> fs_ok fs ->
  untarDir umask dst (archive_entry <$> l) fs = Some (install untarred (comps dst) l fs).
Proof.
  intros Hr. revert fs. induction l as [|[q n] l IH]; intros fs Hg Hi Hok; [done|].
  apply Forall_cons in Hg as [[Hq Hn] Hg]. destruct Hi as (Hne & Hnone & Hd & Hi).
  destruct (comps_PathJoin dst q Hr Hq Hne) as [Hc _]. pose proof (PathJoin_prefix dst q Hr Hq Hne) as Hp.
  assert (comps dst ++ q <> []) as Hne' by (by destruct (comps dst), q).
  assert (untar_entry umask dst (archive_entry (q, n)) fs = Some (<[comps dst ++ q := untarred n]> fs)) as Hu.
  { unfold comps in *. unfold untar_entry.
    destruct n as [m|m d|t]; [| |done]; cbn [archive_entry te_Name te_Type te_Mode te_Data]; rewrite Hp;
      cbn [negb]; unfold comps; rewrite Hc.
    - by apply mkdirAll_new.
    - rewrite mkdirAll_dir by done. simpl. by apply write_file_new. }
  rewrite fmap_cons. cbn [untarDir]. rewrite Hu. simpl. apply IH; [done..|]. by apply fs_ok_insert.
Qed.

(** Unpacking over what it unpacked before changes nothing. *)
Lemma untar_same dst l fs :
  rooted dst -> Forall (fun e => Forall good_comp e.1 /\ no_link e.2) l -> fs_ok fs -> dir_here fs (comps dst) ->
  Forall (fun e => e.1 <> [] /\ fs !! (comps dst ++ e.1) = Some (untarred e.2)) l ->
  untarDir umask dst (archive_entry <$> l) fs = Some fs.
Proof.
  intros Hr Hg Hok Hd. induction l as [|[q n] l IH]; intros Hl; [done|].
  apply Forall_cons in Hg as [[Hq Hn] Hg]. apply Forall_cons in Hl as [[Hne Hat] Hl]. simpl in Hq, Hn, Hne, Hat.
  destruct (comps_PathJoin dst q Hr Hq Hne) as [Hc _]. pose proof (PathJoin_prefix dst q Hr Hq Hne) as Hp.
  assert (untar_entry umask dst (archive_entry (q, n)) fs = Some fs) as Hu.
  { unfold comps in *. unfold untar_entry.
    destruct n as [m|m d|t]; [| |done]; cbn [archive_entry te_Name te_Type te_Mode te_Data]; rewrite Hp;
      cbn [negb]; unfold comps; rewrite Hc.
    - apply mkdirAll_dir; [done|]. right. eauto.
    - rewrite mkdirAll_dir; [|done|].
      + simpl. unfold write_file. rewrite Hat. simpl. by rewrite insert_id.
      + destruct (path_snoc q Hne) as (a & c & ->). rewrite app_assoc, removelast_snoc. eapply Hok.
        rewrite <-app_assoc. exact Hat. }
  rewrite fmap_cons. cbn [untarDir]. rewrite Hu. by apply IH.
Qed.

Lemma copy_list (src dst : Path) (fs0 : FS) (l : list (Path * Inode)) (fs : FS) :
  (forall q n, (q, n) ∈ l -> fs0 !! (src ++ q) = Some n /\ no_link n) ->
  (forall q, strip dst (src ++ q) = None) ->
  (forall k, strip dst k = None -> fs !! k = fs0 !! k) ->
  installable copied dst l fs -> fs_ok fs ->
  copy_entries umask read_link src dst l fs = Some (install copied dst l fs).
Proof.
  intros Hl Hdis. revert fs. induction l as [|[q n] l IH]; intros fs Hsame Hi Hok; [done|].
  destruct Hi as (Hne & Hnone & Hd & Hi). cbn [copy_entries].
  assert (dst ++ q <> []) as Hne' by (by destruct dst, q).
  assert (fs !! (src ++ q) = Some n /\ no_link n) as [Hsrc Hn] by (rewrite Hsame by done; apply Hl; by left).
  assert (match n with
          | NDir m => mkdirAll umask (dst ++ q) m fs
          | _ => copyFile umask read_link (src ++ q) (dst ++ q) fs
          end = Some (<[dst ++ q := copied n]> fs)) as ->.
  { destruct n as [m|m d|t]; [by apply mkdirAll_new| |done]. unfold copyFile. rewrite Hsrc.
    rewrite mkdirAll_dir by done. simpl. by apply write_file_new. }
  simpl. apply IH; [| |done|by apply fs_ok_insert].
  - intros q' n' Hin. apply Hl. by right.
  - intros k Hk. rewrite lookup_insert_ne; [by apply Hsame|]. intros <-. by rewrite strip_app in Hk.
Qed.
End Fill.

(** ** Copying into an empty directory *)

Section Clone.
Context (umask : Z) (read_link : FS -> Path -> string -> option (Z * string)) (cp_works : bool).

Definition cloned (n : Inode) : Inode := if cp_works then n else copied umask n.

Record clone_ready (src dst : Path) (fs : FS) : Prop := {
  ready_ok : fs_ok fs;
  ready_src : exists m, fs !! src = Some (NDir m);
  ready_dst : exists m, fs !! dst = Some (NDir m);
  ready_nonempty : src <> [] /\ dst <> [];
  ready_disjoint : (forall q, strip dst (src ++ q) = None) /\ (forall q, strip src (dst ++ q) = None);
  ready_links : links_free (below src fs);
  ready_empty : forall q, q <> [] -> fs !! (dst ++ q) = None
}.

Lemma cpA_ready src dst fs :
  clone_ready src dst fs ->
  cpA src dst fs = Some (reroot src dst fs ∪ fs) /\ fs_ok (reroot src dst fs ∪ fs).
Proof.
  intros [Hok [ms Hs] [md Hd] [Hsn Hdn] [Hdis _] _ Hempty].
  assert (forall k n, reroot src dst fs !! k = Some n ->
            k = dst /\ n = NDir ms \/ exists q, q <> [] /\ k = dst ++ q /\ fs !! (src ++ q) = Some n) as Hmoved.
  { intros k n. rewrite lookup_reroot. intros (q & Hk & Hq)%bind_Some. apply strip_Some in Hk as ->.
    destruct (decide (q = [])) as [->|Hne]; [left|right; by exists q]. rewrite app_nil_r in *. split; congruence. }
  split.
  - unfold cpA. rewrite decide_True; [done|]. split_and!; [right; eauto|right; eauto|].
    intros k n [[-> ->]|(q & Hne & -> & _)]%Hmoved; unfold same_kind; [by rewrite Hd|by rewrite Hempty].
  - intros a c n Hn.
    assert (forall p, dir_here fs p -> dir_here (reroot src dst fs ∪ fs) p) as Hkeep.
    { intros p [->|[m Hm]]; [by left|right]. destruct (reroot src dst fs !! p) as [n'|] eqn:Hp.
      - destruct (Hmoved _ _ Hp) as [[-> ->]|(q & Hne & -> & _)]; [|by rewrite Hempty in Hm].
        exists ms. by apply lookup_union_Some_l.
      - exists m. by rewrite lookup_union_r. }
    destruct (reroot src dst fs !! (a ++ [c])) as [n'|] eqn:Hp.
    + destruct (Hmoved _ _ Hp) as [[Heq _]|(q & Hne & Heq & Hq)].
      { apply Hkeep. rewrite <-Heq in Hd. by eapply Hok. }
      destruct (path_snoc q Hne) as (b & c' & ->). rewrite app_assoc in Heq, Hq.
      apply app_inj_tail in Heq as [-> <-]. apply Hok in Hq as [Hn'|[m Hm]]; [by destruct src, b|].
      right. exists m. apply lookup_union_Some_l. by rewrite lookup_reroot, strip_app.
    + rewrite lookup_union_r in Hn by done. apply Hkeep. by eapply Hok.
Qed.

Lemma lookup_cpA_below (src dst : Path) (fs : FS) q :
  (forall q, q <> [] -> fs !! (dst ++ q) = None) -> q <> [] ->
  (reroot src dst fs ∪ fs) !! (dst ++ q) = fs !! (src ++ q).
Proof.
  intros Hempty Hq. rewrite lookup_union, lookup_reroot, strip_app, Hempty by done. simpl.
  by destruct (fs !! (src ++ q)).
Qed.

Lemma cloneDir_correct src dst fs :
  clone_ready src dst fs ->
  exists fs', cloneDir umask read_link cp_works src dst fs = Some fs' /\ fs_ok fs' /\
    (exists m, fs' !! dst = Some (NDir m)) /\
    below dst fs' = cloned <$> below src fs /\ (forall k, strip dst k = None -> fs' !! k = fs !! k).
Proof.
  intros Hrd. pose proof Hrd as [Hok [ms Hs] [md Hd] [Hsn Hdn] [Hdis _] Hlf Hempty].
  unfold cloneDir, cloned. rewrite mkdirAll_dir; [|done|].
  2:{ destruct (path_snoc dst Hdn) as (a & c & ->). rewrite removelast_snoc. by eapply Hok. }
  simpl. destruct cp_works.
  - destruct (cpA_ready src dst fs Hrd) as [-> Hok']. eexists. split_and!; [done|done|..].
    + exists ms. apply lookup_union_Some_l. rewrite lookup_reroot, strip_refl. simpl. by rewrite app_nil_r.
    + apply map_eq. intros q. rewrite lookup_fmap.
      destruct (decide (q = [])) as [->|Hq]; [by rewrite !below_root|].
      rewrite !lookup_below, lookup_cpA_below by done. by destruct (fs !! (src ++ q)).
    + intros k Hk. rewrite lookup_union, lookup_reroot, Hk. simpl. by destruct (fs !! k).
  - unfold copyDir. rewrite Hs. rewrite mkdirAll_dir by (done || right; eauto). simpl.
    assert (installable (copied umask) dst (walk src fs) fs) as Hi.
    { apply dirs_first_installable;
        [apply copied_kind|by apply walk_dirs_first|apply walk_NoDup|right; eauto|done]. }
    rewrite (copy_list _ _ _ _ fs); [|..|done|done]; [|..|done]; [|..|done].
    + eexists. split_and!; [done|by apply installable_ok| |by apply below_install|].
      { exists md. rewrite lookup_install, strip_refl by apply walk_NoDup. simpl. by rewrite walk_map, below_root. }
      intros k Hk. by apply install_frame.
    + intros q n Hin. apply walk_elem in Hin. split; [|by eapply Hlf].
      destruct (decide (q = [])) as [->|Hq]; [by rewrite below_root in Hin|]. by rewrite lookup_below in Hin.
Qed.
End Clone.

(** ** The directories of a session *)

Lemma PathJoin_flat a b :
  rooted a -> Forall good_comp b -> b <> [] -> PathJoin (a :: b) = PathJoin [a; Join b "/"].
Proof.
  intros Ha Hb Hne. rewrite PathJoin_rooted by done. unfold PathJoin.
  rewrite filter_cons_True by (by intros ->).
  assert (filter (fun e => e <> "") b = b) as ->.
  { apply (filter_all (fun e => e <> "")). rewrite Forall_forall in Hb. by intros x (Hx & _)%Hb. }
  by destruct b.
Qed.

Lemma comps_PathJoin_flat a b :
  rooted a -> Forall good_comp b -> b <> [] ->
  comps (PathJoin (a :: b)) = comps a ++ b /\ rooted (PathJoin (a :: b)).
Proof. intros Ha Hb Hne. rewrite PathJoin_flat by done. by apply comps_PathJoin. Qed.

Lemma strip_both p a b : strip (p ++ a) (p ++ b) = strip a b.
Proof. induction p as [|x p IH]; [done|]. simpl. by rewrite decide_True. Qed.

Lemma good_prefixed a s :
  2 < String.length a -> str_mem slash a = false -> str_mem slash s = false -> good_comp (a +:+ s).
Proof.
  intros Hl Ha Hs. split_and!; [..|by rewrite str_mem_app, Ha].
  all: intros Heq; apply (f_equal String.length) in Heq; rewrite str_length_app in Heq; simpl in Heq; lia.
Qed.

Lemma take_str_mem c n s : str_mem c s = false -> str_mem c (take_str n s) = false.
Proof.
  unfold take_str. revert n. induction s as [|d s IH]; intros [|n]; try done. simpl.
  intros [Hd Hs]%orb_false_iff. rewrite Hd. by apply IH.
Qed.

Lemma itoaZ_no_slash z : str_mem slash (itoaZ z) = false.
Proof.
  unfold itoaZ. case_match; [rewrite str_app_cons; simpl|]; apply digit_text_no; try done; apply pretty_digit_text.
Qed.

Section Roundtrip.
Context (umask : Z) (read_link : FS -> Path -> string -> option (Z * string)) (cp_works : bool).
Context (dataDir : string) (Hdata : rooted dataDir) (sessionID : string) (Hsid : good_comp sessionID).

Definition sessionPath : Path := comps dataDir ++ ["sessions"; sessionID].
Definition wsPath : Path := comps (WorkspacePath dataDir sessionID).
Definition layersPath : Path := sessionPath ++ ["layers"].
Definition layerTree (name : string) : Path := comps (layerPath dataDir sessionID name).

Lemma SessionDir_comps : comps (SessionDir dataDir sessionID) = sessionPath /\ rooted (SessionDir dataDir sessionID).
Proof using Hdata Hsid.
  apply comps_PathJoin_flat; [done| |done]. repeat constructor; try done; apply Hsid.
Qed.

Lemma ws_comps : wsPath = sessionPath ++ ["workspace"].
Proof using Hdata Hsid.
  destruct SessionDir_comps as [Hs Hr]. unfold wsPath, WorkspacePath. rewrite <-Hs.
  apply comps_PathJoin_flat; [done| |done]. by repeat constructor.
Qed.

Lemma layer_comps name :
  good_comp name ->
  layerTree name = layersPath ++ [name] /\ rooted (layerPath dataDir sessionID name).
Proof using Hdata Hsid.
  intros Hn. destruct SessionDir_comps as [Hs Hr]. unfold layerTree, layersPath, layerPath. rewrite <-Hs, <-app_assoc.
  apply comps_PathJoin_flat; [done| |done]. repeat constructor; try done; apply Hn.
Qed.

(** A session's directories as [Init] makes them. *)
Record session_ready (fs : FS) : Prop := {
  sr_ok : fs_ok fs;
  sr_ws : exists m, fs !! wsPath = Some (NDir m);
  sr_layers : exists m, fs !! layersPath = Some (NDir m)
}.

Lemma new_layer_ready name fs :
  good_comp name -> session_ready fs -> fs !! layerTree name = None ->
  exists fs', mkdirAll umask (layerTree name) 493 fs = Some fs' /\ session_ready fs' /\
    fs' !! layerTree name = Some (NDir (masked umask 493)) /\
    (forall q, q <> [] -> fs' !! (layerTree name ++ q) = None) /\
    (forall k, strip (layerTree name) k = None -> fs' !! k = fs !! k).
Proof using Hdata Hsid.
  intros Hn [Hok Hws Hl] Hnone. destruct (layer_comps name Hn) as [Hc _].
  assert (layerTree name <> []) as Hne by (rewrite Hc; by destruct layersPath).
  assert (dir_here fs (removelast (layerTree name))) as Hpar by (rewrite Hc, removelast_snoc; by right).
  assert (forall k, strip (layerTree name) k = None -> (<[layerTree name := NDir (masked umask 493)]> fs) !! k = fs !! k) as Hfr.
  { intros k Hk. rewrite lookup_insert_ne; [done|]. intros <-.
    by rewrite strip_refl in Hk. }
  exists (<[layerTree name := NDir (masked umask 493)]> fs). split_and!; [by apply mkdirAll_new|..|done].
  - split; [by apply fs_ok_insert|..]; rewrite Hfr; try done.
    + rewrite ws_comps, Hc. unfold layersPath. rewrite <-app_assoc, strip_both. done.
    + rewrite Hc. by apply strip_longer.
  - apply lookup_insert_eq.
  - intros q Hq. rewrite lookup_insert_ne by (intros Heq; by apply app_ne_self in Heq).
    apply fs_ok_below_none; [done| |done]. intros [?|[m Hm]]; congruence.
Qed.

(** The workspace and a layer are side by side. *)
Lemma ws_layer_disjoint name q :
  good_comp name ->
  strip wsPath (layerTree name ++ q) = None /\ strip (layerTree name) (wsPath ++ q) = None /\
  strip wsPath layersPath = None /\ strip (layerTree name) layersPath = None.
Proof using Hdata Hsid.
  intros Hn. destruct (layer_comps name Hn) as [-> _]. rewrite ws_comps. unfold layersPath.
  rewrite <-!app_assoc, !strip_both. by split_and!.
Qed.

Definition tree_ok (t : FS) : Prop := map_Forall (fun q n => Forall good_comp q /\ no_link n) t.

Lemma tree_ok_links t : tree_ok t -> links_free t.
Proof. intros Ht q n Hq. by destruct (Ht q n Hq). Qed.

Lemma tree_ok_fmap f t : (forall n, no_link n -> no_link (f n)) -> tree_ok t -> tree_ok (f <$> t).
Proof.
  intros Hf Ht q n. rewrite lookup_fmap. intros (n0 & Hq & ->)%fmap_Some_1. destruct (Ht _ _ Hq). auto.
Qed.

Lemma walk_good p fs : tree_ok (below p fs) -> Forall (fun e => Forall good_comp e.1 /\ no_link e.2) (walk p fs).
Proof. intros Ht. apply Forall_forall. intros [q n] Hin. apply walk_elem in Hin. by destruct (Ht _ _ Hin). Qed.

Lemma layer_good now : good_comp ("layer-" +:+ itoaZ now).
Proof using. apply good_prefixed; [simpl; lia|done|apply itoaZ_no_slash]. Qed.

Lemma restore_good cid : str_mem slash cid = false -> good_comp ("restore-" +:+ take_str 8 cid).
Proof using. intros Hc. apply good_prefixed; [simpl; lia|done|by apply take_str_mem]. Qed.

(** [CreateLayer] copies the workspace. *)
Lemma CreateLayer_correct now fs :
  session_ready fs -> tree_ok (below wsPath fs) -> fs !! layerTree ("layer-" +:+ itoaZ now) = None ->
  exists fs', CreateLayer umask read_link cp_works dataDir now sessionID fs = Some ("layer-" +:+ itoaZ now, fs') /\
    session_ready fs' /\ (exists m, fs' !! layerTree ("layer-" +:+ itoaZ now) = Some (NDir m)) /\
    below (layerTree ("layer-" +:+ itoaZ now)) fs' = cloned umask cp_works <$> below wsPath fs /\
    (forall k, strip (layerTree ("layer-" +:+ itoaZ now)) k = None -> fs' !! k = fs !! k).
Proof using Hdata Hsid.
  intros Hr Ht Hnone. pose proof (layer_good now) as Hg.
  destruct (new_layer_ready _ _ Hg Hr Hnone) as (fs1 & Hm & Hr1 & Hd1 & He1 & Hf1).
  unfold CreateLayer. fold (layerTree ("layer-" +:+ itoaZ now)). fold wsPath. rewrite Hm. simpl.
  set (name := "layer-" +:+ itoaZ now) in *.
  pose proof (fun q => ws_layer_disjoint name q Hg) as Hdis.
  assert (below wsPath fs1 = below wsPath fs) as Hb.
  { apply below_ext. intros q _. apply Hf1. apply Hdis. }
  assert (clone_ready wsPath (layerTree name) fs1) as Hc.
  { destruct Hr1 as [Hok1 Hws1 Hl1]. split; [done|done|by eexists|..|done].
    - rewrite ws_comps. destruct (layer_comps name Hg) as [-> _]. split; [by destruct sessionPath|by destruct layersPath].
    - split; intros q; apply Hdis.
    - rewrite Hb. by apply tree_ok_links. }
  destruct (cloneDir_correct umask read_link cp_works _ _ _ Hc) as (fs2 & -> & Hok2 & Hd2 & Hb2 & Hf2).
  simpl. exists fs2. rewrite Hb in Hb2. split_and!; [done|..|done|done|].
  - destruct Hr1 as [_ Hws1 Hl1]. split; [done|..].
    + rewrite Hf2; [done|]. rewrite <-(app_nil_r wsPath). apply Hdis.
    + rewrite Hf2; [done|]. apply (Hdis []).
  - intros k Hk. rewrite Hf2, Hf1; done.
Qed.

(** [UntarLayer] of an archive fills the new layer. *)
Lemma UntarLayer_correct name p fs0 fs :
  good_comp name -> session_ready fs -> fs !! layerTree name = None ->
  fs_ok fs0 -> tree_ok (below p fs0) ->
  exists fs', UntarLayer umask dataDir sessionID name (archive_entry <$> walk p fs0) fs = Some fs' /\
    session_ready fs' /\ (exists m, fs' !! layerTree name = Some (NDir m)) /\
    below (layerTree name) fs' = untarred umask <$> below p fs0 /\
    (forall k, strip (layerTree name) k = None -> fs' !! k = fs !! k).
Proof using Hdata Hsid.
  intros Hg Hr Hnone Hok0 Ht. destruct (new_layer_ready _ _ Hg Hr Hnone) as (fs1 & Hm & Hr1 & Hd1 & He1 & Hf1).
  unfold UntarLayer. fold (layerTree name). rewrite Hm. simpl.
  pose proof (ws_layer_disjoint name [] Hg) as (_ & Hws & _ & Hls). rewrite app_nil_r in Hws.
  destruct Hr1 as [Hok1 Hws1 Hl1].
  assert (installable (untarred umask) (layerTree name) (walk p fs0) fs1) as Hi.
  { apply dirs_first_installable; [apply untarred_kind| |apply walk_NoDup|right; eauto|done].
    by apply walk_dirs_first. }
  exists (install (untarred umask) (layerTree name) (walk p fs0) fs1). split_and!.
  - apply untar_list; [by apply layer_comps|by apply walk_good|done|done].
  - split; [by eapply installable_ok|by rewrite install_frame|by rewrite install_frame].
  - exists (masked umask 493). rewrite lookup_install, strip_refl by apply walk_NoDup. simpl.
    by rewrite walk_map, below_root.
  - by apply below_install.
  - intros k Hk. rewrite install_frame by done. by apply Hf1.
Qed.

(** Into the layer it filled before it unpacks the same again. *)
Lemma UntarLayer_again name p fs0 fs :
  good_comp name -> session_ready fs -> (exists m, fs !! layerTree name = Some (NDir m)) ->
  tree_ok (below p fs0) -> below (layerTree name) fs = untarred umask <$> below p fs0 ->
  UntarLayer umask dataDir sessionID name (archive_entry <$> walk p fs0) fs = Some fs.
Proof using Hdata Hsid.
  intros Hg [Hok _ _] Hd Ht Hb. unfold UntarLayer. fold (layerTree name).
  rewrite mkdirAll_dir by (done || by right). simpl.
  apply untar_same; [by apply layer_comps|by apply walk_good|done|by right|].
  apply Forall_forall. intros [q n] Hin. apply walk_elem in Hin. simpl.
  assert (q <> []) as Hq by (intros ->; by rewrite below_root in Hin). split; [done|].
  fold (layerTree name). rewrite <-lookup_below, Hb, lookup_fmap, Hin by done. done.
Qed.

(** [RestoreLayer] replaces the workspace by a copy of the layer. *)
Lemma RestoreLayer_correct name fs :
  good_comp name -> session_ready fs -> (exists m, fs !! layerTree name = Some (NDir m)) ->
  links_free (below (layerTree name) fs) ->
  exists fs', RestoreLayer umask read_link cp_works dataDir sessionID name fs = Some fs' /\ session_ready fs' /\
    below wsPath fs' = cloned umask cp_works <$> below (layerTree name) fs /\
    (forall k, strip wsPath k = None -> fs' !! k = fs !! k).
Proof using Hdata Hsid.
  intros Hg [Hok _ [ml Hl]] [m Hm] Hlf. unfold RestoreLayer. fold (layerTree name). fold wsPath. rewrite Hm.
  pose proof (fun q => ws_layer_disjoint name q Hg) as Hdis.
  assert (wsPath <> []) as Hne by (rewrite ws_comps; by destruct sessionPath).
  assert (fs_ok (removeAll wsPath fs)) as Hok1 by by apply removeAll_ok.
  assert (forall q, removeAll wsPath fs !! (wsPath ++ q) = None) as Hgone.
  { intros q. by rewrite lookup_removeAll, strip_app. }
  assert (forall k, strip wsPath k = None -> removeAll wsPath fs !! k = fs !! k) as Hfr.
  { intros k Hk. by rewrite lookup_removeAll, Hk. }
  pose proof (Hgone []) as Hws1. rewrite app_nil_r in Hws1.
  assert (dir_here (removeAll wsPath fs) (removelast wsPath)) as Hpar.
  { assert (dir_here fs sessionPath) as Hd by by eapply Hok.
    rewrite ws_comps in *. rewrite removelast_snoc. destruct Hd as [->|[ms Hs]]; [by left|right].
    exists ms. by rewrite Hfr by apply strip_longer. }
  rewrite mkdirAll_new by done. simpl.
  set (fs2 := <[wsPath := NDir (masked umask 493)]> (removeAll wsPath fs)).
  assert (forall k, strip wsPath k = None -> fs2 !! k = fs !! k) as Hfr2.
  { intros k Hk. unfold fs2. rewrite lookup_insert_ne; [by apply Hfr|]. intros <-. by rewrite strip_refl in Hk. }
  assert (below (layerTree name) fs2 = below (layerTree name) fs) as Hb.
  { apply below_ext. intros q _. apply Hfr2, Hdis. }
  assert (layerTree name <> []) as Hnl by (destruct (layer_comps name Hg) as [-> _]; by destruct layersPath).
  assert (clone_ready (layerTree name) wsPath fs2) as Hc.
  { split; [by apply fs_ok_insert| | |done|split; intros q; apply Hdis|by rewrite Hb|].
    - exists m. rewrite <-(app_nil_r (layerTree name)), Hfr2 by apply Hdis. by rewrite app_nil_r.
    - eexists. apply lookup_insert_eq.
    - intros q Hq. unfold fs2. rewrite lookup_insert_ne; [apply Hgone|]. by intros ?%app_ne_self. }
  destruct (cloneDir_correct umask read_link cp_works _ _ _ Hc) as (fs3 & -> & Hok3 & Hd3 & Hb3 & Hf3).
  exists fs3. rewrite Hb in Hb3. split_and!; [done| |done|].
  - split; [done|done|]. exists ml. rewrite Hf3, Hfr2; [done|..]; apply (Hdis []).
  - intros k Hk. by rewrite Hf3, Hfr2.
Qed.

Lemma masked_masked m : masked umask (masked umask m) = masked umask m.
Proof using.
  unfold masked. apply Z.bits_inj'. intros i Hi. rewrite !Z.ldiff_spec, !Z.land_spec, !Z.ldiff_spec, !Z.land_spec.
  destruct (Z.testbit m i), (Z.testbit 511 i), (Z.testbit umask i); done.
Qed.

Lemma untarred_cloned n : cloned umask cp_works (untarred umask (cloned umask cp_works n)) = untarred umask n.
Proof using.
  unfold cloned. destruct cp_works; [done|]. by destruct n; simpl; rewrite ?masked_masked.
Qed.

Lemma cloned_link n : no_link n -> no_link (cloned umask cp_works n).
Proof using. unfold cloned. by destruct cp_works, n. Qed.

(** What a restore of the checkpoint of [fs] leaves in its layer. *)
Definition restored_layer (fs : FS) : FS := (fun n => untarred umask (cloned umask cp_works n)) <$> below wsPath fs.

(** C30 Checkpoints round-trip.  For an initialised session whose workspace has
    only directories and regular files, and an identifier of at least eight bytes
    without a slash (the control plane's are UUIDs; a shorter one panics,
    [short_id_panics]), [Create] leaves the workspace as it is and reports success
    exactly when the temporary file and the upload worked; if they did not,
    nothing is stored.  If they did, then as long as the object is stored and the
    session's directories are there, a restore makes the workspace the tree it
    was: every path, kind and content, with the modes unpacking gives them,
    whether the copies are made by [cp] or by [copyDir]; nothing outside the
    workspace and the restore layer changes.  The restore layer must be absent
    before, or as a restore of this checkpoint left it, so a checkpoint can be
    restored again and again; into a layer with other content, that of a
    checkpoint with the same eight first bytes say, the restore merges
    ([restore_merges_old_layer]). *)
Theorem checkpoint_roundtrip (ok : bool) (now : Z) (checkpointID : string) (fs : FS) (objs : Objects) :
  session_ready fs -> tree_ok (below wsPath fs) ->
  fs !! layerTree ("layer-" +:+ itoaZ now) = None ->
  8 <= String.length checkpointID -> str_mem slash checkpointID = false ->
  exists r fs1 objs1,
    cpCreate umask read_link cp_works dataDir ok now sessionID checkpointID fs objs = (r, fs1, objs1) /\
    cr_Success r = ok /\ below wsPath fs1 = below wsPath fs /\ session_ready fs1 /\
    let layer := layerTree ("restore-" +:+ take_str 8 checkpointID) in
    if ok then
      forall fs2 objs2,
        session_ready fs2 ->
        (fs2 !! layer = None \/ (exists m, fs2 !! layer = Some (NDir m)) /\ below layer fs2 = restored_layer fs) ->
        objs2 !! cr_OverlayKey r = objs1 !! cr_OverlayKey r ->
        exists fs3,
          cpRestore umask read_link cp_works dataDir sessionID checkpointID (cr_OverlayKey r) fs2 objs2
            = Some (Some fs3) /\
          below wsPath fs3 = untarred umask <$> below wsPath fs /\ session_ready fs3 /\
          ((exists m, fs3 !! layer = Some (NDir m)) /\ below layer fs3 = restored_layer fs) /\
          forall k, strip wsPath k = None -> strip layer k = None -> fs3 !! k = fs2 !! k
    else objs1 = objs.
Proof using Hdata Hsid.
  intros Hr Ht Hnone Hlen Hsl. destruct (CreateLayer_correct now fs Hr Ht Hnone) as (fs1 & Hc & Hr1 & [m Hm] & Hb & Hf).
  unfold cpCreate. rewrite Hc. fold (layerTree ("layer-" +:+ itoaZ now)). set (lname := "layer-" +:+ itoaZ now) in *.
  assert (tree_ok (below (layerTree lname) fs1)) as Ht1.
  { rewrite Hb. apply tree_ok_fmap; [|done]. apply cloned_link. }
  rewrite tarDir_links_free by (by eauto using tree_ok_links).
  assert (below wsPath fs1 = below wsPath fs) as Hws1.
  { apply below_ext. intros q _. apply Hf. by apply ws_layer_disjoint, layer_good. }
  destruct ok; [|by eexists _, _, _].
  eexists _, _, _. split; [done|]. split_and!; [done|done|done|].
  cbn [cr_OverlayKey]. intros fs2 objs2 Hr2 Hlayer Hobj. unfold cpRestore. rewrite Hobj, lookup_insert_eq. rewrite (proj2 (Nat.ltb_ge _ _)) by done.
  set (rname := "restore-" +:+ take_str 8 checkpointID) in *.
  assert (good_comp rname) as Hg by by apply restore_good.
  assert (restored_layer fs = untarred umask <$> below (layerTree lname) fs1) as Hrl.
  { unfold restored_layer. rewrite Hb, <-map_fmap_compose. done. }
  assert (exists fs3, UntarLayer umask dataDir sessionID rname (archive_entry <$> walk (layerTree lname) fs1) fs2 = Some fs3 /\
    session_ready fs3 /\ (exists m, fs3 !! layerTree rname = Some (NDir m)) /\
    below (layerTree rname) fs3 = untarred umask <$> below (layerTree lname) fs1 /\
    (forall k, strip (layerTree rname) k = None -> fs3 !! k = fs2 !! k)) as (fs3 & Hu & Hr3 & Hd3 & Hb3 & Hf3).
  { destruct Hlayer as [Hnone2|[Hd2 Hb2]].
    - by apply UntarLayer_correct; [..|apply Hr1|].
    - exists fs2. rewrite Hrl in Hb2. split_and!; [by apply UntarLayer_again|done..]. }
  rewrite Hu. simpl.
  destruct (RestoreLayer_correct rname fs3 Hg Hr3 Hd3) as (fs4 & -> & Hr4 & Hb4 & Hf4).
  { rewrite Hb3. apply tree_ok_links, tree_ok_fmap; [|done]. by intros []. }
  pose proof (fun q => ws_layer_disjoint rname q Hg) as Hdis.
  exists fs4. split_and!; [done| |done| | |].
  - rewrite Hb4, Hb3, Hb, <-!map_fmap_compose. apply map_fmap_ext. intros q n _. apply untarred_cloned.
  - destruct Hd3 as [m3 Hd3]. exists m3. rewrite Hf4; [done|]. rewrite <-(app_nil_r (layerTree rname)). apply Hdis.
  - rewrite Hrl, <-Hb3. apply below_ext. intros q _. apply Hf4, Hdis.
  - intros k Hk1 Hk2. by rewrite Hf4, Hf3.
Qed.
End Roundtrip.

(** ** Differences between directories *)

Section Diff.
(** The short hash of a content; what opening and reading a link gives, [None]
    when it cannot be opened; the size of a directory's own inode. *)
Context (hash : string -> string) (follow : FS -> Path -> string -> option string) (dir_size : Path -> Z).

(** What [hashFile] reads of a path that is no directory: a link is followed. *)
Definition content_read (fs : FS) (p : Path) (n : Inode) : option string :=
  match n with NDir _ => None | NFile _ d => Some d | NLink t => follow fs p t end.
Definition hashFile (fs : FS) (p : Path) (n : Inode) : string := from_option hash "" (content_read fs p n).

(** [os.FileMode]: the kind and the permission bits. *)
Definition FileMode : Type := TarType * Z.
#[global] Instance TarType_eq_dec : EqDecision TarType.
Proof. solve_decision. Defined.

Definition perm_letters (m : Z) : string :=
  String.concat "" ((fun '(i, c) => if Z.testbit m i then c else "-")
    <$> [(8%Z, "r"); (7%Z, "w"); (6%Z, "x"); (5%Z, "r"); (4%Z, "w"); (3%Z, "x"); (2%Z, "r"); (1%Z, "w"); (0%Z, "x")]).
Definition FileMode_String (m : FileMode) : string :=
  (match m.1 with TypeDir => "d" | TypeSymlink => "L" | TypeReg => "-" end) +:+ perm_letters m.2.

Record fileInfo := mkFileInfo {
  fi_Path : string; fi_Size : Z; fi_Hash : string; fi_Mode : FileMode; fi_IsDir : bool }.

Definition node_info (fs : FS) (dir q : Path) (n : Inode) : fileInfo :=
  match n with
  | NDir m => mkFileInfo (Join q "/") (dir_size (dir ++ q)) "" (TypeDir, m) true
  | NFile m d => mkFileInfo (Join q "/") (Z.of_nat (String.length d)) (hashFile fs (dir ++ q) n) (TypeReg, m) false
  | NLink t => mkFileInfo (Join q "/") (Z.of_nat (String.length t)) (hashFile fs (dir ++ q) n) (TypeSymlink, 511%Z) false
  end.

Definition listFiles (dir : Path) (fs : FS) : list fileInfo :=
  (fun '(q, n) => node_info fs dir q n) <$> walk dir fs.

Inductive DiffType := DiffAdded | DiffModified | DiffDeleted | DiffModeChanged.
#[global] Instance DiffType_eq_dec : EqDecision DiffType.
Proof. solve_decision. Defined.

Record DiffEntry := mkDiffEntry {
  de_Path : string; de_Type : DiffType; de_Size : Z; de_OldSize : Z; de_Hash : string;
  de_OldHash : string; de_Mode : string; de_OldMode : string; de_IsDir : bool }.

Record DiffSummary := mkSummary {
  ds_Added : nat; ds_Modified : nat; ds_Deleted : nat; ds_ModeChanged : nat; ds_TotalFiles : nat;
  ds_AddedBytes : Z; ds_DeletedBytes : Z; ds_Entries : list DiffEntry }.

Definition by_path (files : list fileInfo) : gmap string fileInfo :=
  foldl (fun m f => <[fi_Path f := f]> m) ∅ files.

(** The entry for a file of the second directory, given the first's. *)
Definition entry_in_B (fa : option fileInfo) (fb : fileInfo) : option DiffEntry :=
  match fa with
  | None => Some (mkDiffEntry (fi_Path fb) DiffAdded (fi_Size fb) 0 (fi_Hash fb) ""
                    (FileMode_String (fi_Mode fb)) "" (fi_IsDir fb))
  | Some fa =>
      let contentChanged := negb (fi_IsDir fb) && negb (bool_decide (fi_Hash fa = fi_Hash fb)) in
      let modeChanged := negb (bool_decide (fi_Mode fa = fi_Mode fb)) in
      if contentChanged
      then Some (mkDiffEntry (fi_Path fb) DiffModified (fi_Size fb) (fi_Size fa) (fi_Hash fb) (fi_Hash fa)
                   (FileMode_String (fi_Mode fb)) (FileMode_String (fi_Mode fa)) (fi_IsDir fb))
      else if modeChanged
      then Some (mkDiffEntry (fi_Path fb) DiffModeChanged (fi_Size fb) 0 "" ""
                   (FileMode_String (fi_Mode fb)) (FileMode_String (fi_Mode fa)) false)
      else None
  end.
Definition entry_deleted (fb : option fileInfo) (fa : fileInfo) : option DiffEntry :=
  match fb with
  | None => Some (mkDiffEntry (fi_Path fa) DiffDeleted 0 (fi_Size fa) "" (fi_Hash fa)
                    "" (FileMode_String (fi_Mode fa)) (fi_IsDir fa))
  | Some _ => None
  end.

Definition record_entry (s : DiffSummary) (e : option DiffEntry) : DiffSummary :=
  let '(mkSummary a m d c t ab db es) := s in
  match e with
  | None => s
  | Some e =>
      let es := es ++ [e] in
      match de_Type e with
      | DiffAdded => mkSummary (S a) m d c t (ab + de_Size e) db es
      | DiffModified => mkSummary a (S m) d c t ab db es
      | DiffDeleted => mkSummary a m (S d) c t ab (db + de_OldSize e) es
      | DiffModeChanged => mkSummary a m d (S c) t ab db es
      end
  end.

(** [DiffDirs]; the errors of the walks are dropped by [listFiles]. *)
Definition DiffDirs (dirA dirB : Path) (fs : FS) : DiffSummary :=
  let filesA := listFiles dirA fs in
  let filesB := listFiles dirB fs in
  let mapA := by_path filesA in
  let mapB := by_path filesB in
  let s := mkSummary 0 0 0 0 (length filesB) 0 0 [] in
  let s := foldl (fun s e => record_entry s (entry_in_B (mapA !! e.1) e.2)) s (map_to_list mapB) in
  let s := foldl (fun s e => record_entry s (entry_deleted (mapB !! e.1) e.2)) s (map_to_list mapA) in
  mkSummary (ds_Added s) (ds_Modified s) (ds_Deleted s) (ds_ModeChanged s) (ds_TotalFiles s)
    (ds_AddedBytes s) (ds_DeletedBytes s) (merge_sort (key_le str_cmp de_Path) (ds_Entries s)).
End Diff.
Definition FullDiff (hash : string -> string) (follow : FS -> Path -> string -> option string)
    (dir_size : Path -> Z) (dataDir sessionID layerA layerB : string) (fs : FS) : DiffSummary :=
  DiffDirs hash follow dir_size (comps (layerPath dataDir sessionID layerA))
    (comps (layerPath dataDir sessionID layerB)) fs.

(** ** The summary lists exactly the differences *)

Definition tally (t : DiffType) (es : list DiffEntry) : nat := length (filter (fun e => de_Type e = t) es).
Definition tally_bytes (t : DiffType) (size : DiffEntry -> Z) (es : list DiffEntry) : Z :=
  foldr Z.add 0%Z (size <$> filter (fun e => de_Type e = t) es).

Definition counted (s : DiffSummary) (es : list DiffEntry) : Prop :=
  ds_Added s = tally DiffAdded es /\ ds_Modified s = tally DiffModified es /\
  ds_Deleted s = tally DiffDeleted es /\ ds_ModeChanged s = tally DiffModeChanged es /\
  ds_AddedBytes s = tally_bytes DiffAdded de_Size es /\ ds_DeletedBytes s = tally_bytes DiffDeleted de_OldSize es.

Lemma tally_app t a b : tally t (a ++ b) = tally t a + tally t b.
Proof. unfold tally. by rewrite filter_app, length_app. Qed.
Lemma tally_bytes_app t f a b : tally_bytes t f (a ++ b) = (tally_bytes t f a + tally_bytes t f b)%Z.
Proof.
  unfold tally_bytes. rewrite filter_app, fmap_app. generalize (f <$> filter (fun e => de_Type e = t) a).
  induction l as [|x l IH]; simpl; lia.
Qed.
#[global] Instance tally_proper t : Proper ((≡ₚ) ==> (=)) (tally t).
Proof. intros a b Hab. unfold tally. by rewrite Hab. Qed.
Lemma tally_cons t e l : tally t (e :: l) = (if decide (de_Type e = t) then 1 else 0) + tally t l.
Proof. unfold tally. rewrite filter_cons. by case_decide. Qed.
Lemma tally_bytes_cons t f e l :
  tally_bytes t f (e :: l) = ((if decide (de_Type e = t) then f e else 0) + tally_bytes t f l)%Z.
Proof. unfold tally_bytes. rewrite filter_cons. by case_decide. Qed.
#[global] Instance tally_bytes_proper t f : Proper ((≡ₚ) ==> (=)) (tally_bytes t f).
Proof. intros a b. induction 1; rewrite ?tally_bytes_cons; try lia; congruence. Qed.

Lemma record_entry_counted s e :
  counted s (ds_Entries s) ->
  counted (record_entry s e) (ds_Entries (record_entry s e)) /\
  ds_Entries (record_entry s e) = ds_Entries s ++ option_list e /\
  ds_TotalFiles (record_entry s e) = ds_TotalFiles s.
Proof.
  destruct s as [a m d c t ab db es]. destruct e as [e|]; [|by rewrite app_nil_r].
  unfold counted. simpl. destruct (de_Type e) eqn:He; simpl; intros (-> & -> & -> & -> & -> & ->);
    rewrite !tally_app, !tally_bytes_app, !tally_cons, !tally_bytes_cons, He; simpl;
    unfold tally, tally_bytes; simpl; split_and!; (done || lia).
Qed.

Lemma record_fold_counted {A} (f : A -> option DiffEntry) (l : list A) s :
  counted s (ds_Entries s) ->
  let s' := foldl (fun s e => record_entry s (f e)) s l in
  counted s' (ds_Entries s') /\ ds_Entries s' = ds_Entries s ++ omap f l /\ ds_TotalFiles s' = ds_TotalFiles s.
Proof.
  revert s. induction l as [|x l IH]; intros s Hs; [by rewrite app_nil_r|]. simpl.
  destruct (record_entry_counted s (f x) Hs) as (Hc & He & Ht).
  destruct (IH _ Hc) as (Hc' & He' & Ht'). split_and!; [done| |by rewrite Ht'].
  rewrite He', He, <-app_assoc. f_equal. simpl. by destruct (f x).
Qed.

Lemma strictly_sorted {A K} (cmp : K -> K -> comparison) `{!Ordered cmp} (key : A -> K) (l : list A) :
  StronglySorted (key_le cmp key) l -> NoDup (key <$> l) -> StronglySorted (fun a b => cmp (key a) (key b) = Lt) l.
Proof.
  induction 1 as [|x l Hl IH Hx]; [constructor|]. csimpl. intros [Hk Hnd]%NoDup_cons.
  constructor; [by apply IH|]. rewrite Forall_forall in Hx. apply Forall_forall. intros y Hy. specialize (Hx y Hy).
  unfold key_le in Hx. destruct (cmp (key x) (key y)) eqn:Hc; [|done|done].
  apply cmp_eq in Hc. destruct Hk. rewrite Hc. by apply list_elem_of_fmap_2.
Qed.

(** *** The lists of files as maps *)

Section Exact.
Context (hash : string -> string) (follow : FS -> Path -> string -> option string) (dir_size : Path -> Z).

Lemma DiffDirs_entries (dirA dirB : Path) (fs : FS) :
  let mapA := by_path (listFiles hash follow dir_size dirA fs) in
  let mapB := by_path (listFiles hash follow dir_size dirB fs) in
  let s := DiffDirs hash follow dir_size dirA dirB fs in
  counted s (ds_Entries s) /\ ds_TotalFiles s = size (below dirB fs) /\
  ds_Entries s ≡ₚ omap (M := list) (fun e => entry_in_B (mapA !! e.1) e.2) (map_to_list mapB)
                 ++ omap (M := list) (fun e => entry_deleted (mapB !! e.1) e.2) (map_to_list mapA).
Proof.
  cbv zeta. unfold DiffDirs.
  set (mapA := by_path (listFiles _ _ _ dirA fs)). set (mapB := by_path (listFiles _ _ _ dirB fs)).
  match goal with |- context [foldl ?f ?s (map_to_list mapB)] =>
    destruct (record_fold_counted (fun e => entry_in_B (mapA !! e.1) e.2) (map_to_list mapB) s)
      as (Hc1 & He1 & Ht1); [by repeat split|]; set (s1 := foldl f s _) in * end.
  match goal with |- context [foldl ?f s1 ?l] =>
    destruct (record_fold_counted (fun e => entry_deleted (mapB !! e.1) e.2) (map_to_list mapA) s1 Hc1)
      as (Hc2 & He2 & Ht2); set (s2 := foldl f s1 _) in * end.
  cbn [ds_Added ds_Modified ds_Deleted ds_ModeChanged ds_TotalFiles ds_AddedBytes ds_DeletedBytes ds_Entries].
  pose proof (merge_sort_Permutation (key_le str_cmp de_Path) (ds_Entries s2)) as Hp.
  split_and!.
  - unfold counted in *. simpl. by rewrite !Hp.
  - rewrite Ht2, Ht1. simpl. unfold listFiles. rewrite length_fmap, walk_perm. apply length_map_to_list.
  - by rewrite Hp, He2, He1.
Qed.


Lemma Join_good_inj (p q : Path) :
  Forall good_comp p -> Forall good_comp q -> Join p "/" = Join q "/" -> p = q.
Proof.
  intros Hp Hq Heq. destruct p as [|x p], q as [|y q]; [done|..].
  - symmetry in Heq. by apply Join_nonempty in Heq.
  - by apply Join_nonempty in Heq.
  - apply (f_equal (fun s => Split s slash)) in Heq. unfold slash in Heq.
    rewrite !Split_Join in Heq; try done; eapply Forall_impl; try done; by intros z (_ & _ & _ & ?).
Qed.

Definition names_ok (t : FS) : Prop := map_Forall (fun q _ => Forall good_comp q) t.

Lemma foldl_by_path (l : list fileInfo) (m : gmap string fileInfo) (p : string) :
  foldl (fun m f => <[fi_Path f := f]> m) m l !! p
  = match by_path l !! p with Some f => Some f | None => m !! p end.
Proof.
  unfold by_path. induction l as [|f l IH] using rev_ind; [simpl; by rewrite lookup_empty|].
  rewrite !foldl_app. simpl. destruct (decide (fi_Path f = p)) as [->|Hne]; [by rewrite !lookup_insert_eq|].
  by rewrite !lookup_insert_ne.
Qed.

Lemma node_info_Path fs d q n : fi_Path (node_info hash follow dir_size fs d q n) = Join q "/".
Proof. by destruct n. Qed.

Lemma by_path_spec (d : Path) (fs : FS) p f :
  names_ok (below d fs) ->
  by_path (listFiles hash follow dir_size d fs) !! p = Some f <->
  exists q n, below d fs !! q = Some n /\ p = Join q "/" /\ f = node_info hash follow dir_size fs d q n.
Proof.
  intros Hn. setoid_rewrite <-walk_elem. pose proof (walk_NoDup d fs) as Hnd.
  assert (forall q n, (q, n) ∈ walk d fs -> Forall good_comp q) as Hg by (intros q n Hin; eapply Hn; by apply walk_elem).
  unfold listFiles. revert f Hnd Hg. clear Hn.
  induction (walk d fs) as [|[q n] l IH]; intros f Hnd Hg.
  { split; [done|]. intros (q & n & Hin & _). by apply elem_of_nil in Hin. }
  apply NoDup_cons in Hnd as [Hq Hnd]. unfold by_path. simpl. rewrite foldl_by_path, node_info_Path.
  assert (forall q n, (q, n) ∈ l -> Forall good_comp q) as Hg' by (intros q' n' Hin; apply (Hg q' n'); by right).
  pose proof (fun f => IH f Hnd Hg') as IH'. clear IH.
  destruct (by_path _ !! p) as [f'|] eqn:Hf.
  - split; [intros [= ->]; destruct (proj1 (IH' _) eq_refl) as (q' & n' & ? & ?); exists q', n'; split; [by right|done]|].
    intros (q' & n' & Hin & -> & ->). apply elem_of_cons in Hin as [[= -> ->]|Hin]; [|apply IH'; eauto].
    destruct (proj1 (IH' _) eq_refl) as (q2 & n2 & Hin2 & Heq & _).
    apply Join_good_inj in Heq as <-; [|by apply (Hg q n); left|by apply (Hg' q2 n2)].
    destruct Hq. apply list_elem_of_fmap. by exists (q, n2).
  - destruct (decide (Join q "/" = p)) as [<-|Hne].
    + rewrite lookup_insert_eq. split; [intros [= <-]; exists q, n; split; [by left|done]|].
      intros (q' & n' & Hin & Heq & ->). apply elem_of_cons in Hin as [[= -> ->]|Hin]; [done|].
      assert (None = Some (node_info hash follow dir_size fs d q' n')) as Hno by (apply IH'; eauto). done.
    + rewrite lookup_insert_ne, lookup_empty by done. split; [done|].
      intros (q' & n' & Hin & -> & ->). apply elem_of_cons in Hin as [[= -> ->]|Hin]; [done|].
      assert (None = Some (node_info hash follow dir_size fs d q' n')) as Hno by (apply IH'; eauto). done.
Qed.

Lemma by_path_lookup (d : Path) (fs : FS) q :
  names_ok (below d fs) -> Forall good_comp q ->
  by_path (listFiles hash follow dir_size d fs) !! (Join q "/")
  = node_info hash follow dir_size fs d q <$> below d fs !! q.
Proof.
  intros Hn Hq. apply option_eq. intros f. rewrite by_path_spec by done. split.
  - intros (q' & n & Hn' & Heq & ->). apply Join_good_inj in Heq as <-; [|done|by eapply Hn]. by rewrite Hn'.
  - intros (n & Hq' & ->)%fmap_Some. eauto.
Qed.

(** *** What a path's two nodes call for *)

Definition node_mode (n : Inode) : FileMode :=
  match n with NDir m => (TypeDir, m) | NFile m _ => (TypeReg, m) | NLink _ => (TypeSymlink, 511%Z) end.

(** The hashes tell what is read of the files of one tree from what is read at
    the same path of the other. *)
Definition hash_faithful (a b : Path) (fs : FS) : Prop :=
  forall q na nb, below a fs !! q = Some na -> below b fs !! q = Some nb ->
  hashFile hash follow fs (a ++ q) na = hashFile hash follow fs (b ++ q) nb ->
  content_read follow fs (a ++ q) na = content_read follow fs (b ++ q) nb.

(** The reference: how a path changed, by the contents and not their hashes. *)
Definition change (a b : Path) (fs : FS) (q : Path) : option DiffType :=
  match below a fs !! q, below b fs !! q with
  | None, None => None
  | None, Some _ => Some DiffAdded
  | Some _, None => Some DiffDeleted
  | Some na, Some nb =>
      if decide (is_dir nb = false /\ content_read follow fs (a ++ q) na <> content_read follow fs (b ++ q) nb)
      then Some DiffModified
      else if decide (node_mode na = node_mode nb) then None else Some DiffModeChanged
  end.

(** For trees of directories and files, no change is equality. *)
Lemma change_None (a b : Path) (fs : FS) q :
  (forall n, below a fs !! q = Some n -> no_link n) ->
  change a b fs q = None <-> below a fs !! q = below b fs !! q.
Proof.
  intros Ha. unfold change.
  destruct (below a fs !! q) as [na|], (below b fs !! q) as [nb|]; try done.
  specialize (Ha na eq_refl).
  destruct na as [m|m c|t], nb as [m'|m' c'|t']; try done; simpl.
  all: repeat case_decide; destruct_and?; split; intros Heq; simplify_eq; try done; try tauto.
  destruct (decide (c = c')) as [->|Hne]; [congruence|].
  match goal with H : ~ _ |- _ => destruct H; split; [done|congruence] end.
Qed.

Lemma node_info_Mode fs d q n : fi_Mode (node_info hash follow dir_size fs d q n) = node_mode n.
Proof. by destruct n. Qed.
Lemma node_info_IsDir fs d q n : fi_IsDir (node_info hash follow dir_size fs d q n) = is_dir n.
Proof. by destruct n. Qed.
Lemma node_info_Hash fs d q n :
  fi_Hash (node_info hash follow dir_size fs d q n) = hashFile hash follow fs (d ++ q) n.
Proof. by destruct n. Qed.

Lemma entry_in_B_change (a b : Path) (fs : FS) q nb :
  hash_faithful a b fs -> below b fs !! q = Some nb ->
  de_Type <$> entry_in_B (node_info hash follow dir_size fs a q <$> below a fs !! q)
                (node_info hash follow dir_size fs b q nb)
  = change a b fs q.
Proof.
  intros Hf Hnb. unfold change, entry_in_B. rewrite Hnb.
  destruct (below a fs !! q) as [na|] eqn:Hna; [|done]. simpl.
  rewrite !node_info_Mode, node_info_IsDir, !node_info_Hash. specialize (Hf q na nb Hna Hnb).
  destruct (is_dir nb); simpl.
  - by destruct (decide (node_mode na = node_mode nb)) as [->|Hne];
      [rewrite bool_decide_eq_true_2|rewrite bool_decide_eq_false_2].
  - destruct (decide (hashFile hash follow fs (a ++ q) na = hashFile hash follow fs (b ++ q) nb)) as [He|Hne].
    + rewrite (bool_decide_eq_true_2 (hashFile _ _ _ _ _ = _)) by done. simpl.
      rewrite decide_False by (intros [_ Hn]; by apply Hn, Hf).
      by destruct (decide (node_mode na = node_mode nb)) as [->|?];
        [rewrite bool_decide_eq_true_2|rewrite bool_decide_eq_false_2].
    + rewrite bool_decide_eq_false_2 by done. simpl. rewrite decide_True; [done|]. split; [done|].
      intros He. apply Hne. unfold hashFile. by rewrite He.
Qed.

Lemma entry_in_B_Path fa fb e : entry_in_B fa fb = Some e -> de_Path e = fi_Path fb.
Proof. unfold entry_in_B. intros He. repeat case_match; by simplify_eq. Qed.
Lemma entry_deleted_Some fb fa e :
  entry_deleted fb fa = Some e -> fb = None /\ de_Path e = fi_Path fa /\ de_Type e = DiffDeleted.
Proof. unfold entry_deleted. intros He. case_match; by simplify_eq. Qed.

(** Every entry says how its path changed, and every change has its entry. *)
Lemma diff_entries_spec (a b : Path) (fs : FS) t p :
  names_ok (below a fs) -> names_ok (below b fs) -> hash_faithful a b fs ->
  (exists e, e ∈ ds_Entries (DiffDirs hash follow dir_size a b fs) /\ de_Path e = p /\ de_Type e = t) <->
  exists q, Forall good_comp q /\ p = Join q "/" /\ change a b fs q = Some t.
Proof.
  intros Hna Hnb Hf. destruct (DiffDirs_entries a b fs) as (_ & _ & Hp). setoid_rewrite Hp. clear Hp.
  split.
  - intros (e & [Hin|Hin]%elem_of_app & <- & <-); apply list_elem_of_omap in Hin as ([p f] & Hin & He);
      apply elem_of_map_to_list in Hin; simpl in He; apply by_path_spec in Hin as (q & n & Hq & -> & ->); try done.
    + pose proof (Hnb _ _ Hq) as Hg. rewrite by_path_lookup in He by done. exists q.
      split_and!; [done|by rewrite (entry_in_B_Path _ _ _ He), node_info_Path|].
      rewrite <-(entry_in_B_change a b fs q n) by done. by rewrite He.
    + pose proof (Hna _ _ Hq) as Hg. rewrite by_path_lookup in He by done.
      apply entry_deleted_Some in He as (Hno & Hpath & ->). exists q. rewrite Hpath, node_info_Path.
      apply fmap_None in Hno. unfold change. by rewrite Hq, Hno.
  - intros (q & Hg & -> & Hc). destruct (below b fs !! q) as [n|] eqn:Hq.
    + rewrite <-(entry_in_B_change a b fs q n) in Hc by done. apply fmap_Some in Hc as (e & He & ->).
      exists e. split_and!; [|by rewrite (entry_in_B_Path _ _ _ He), node_info_Path|done].
      apply elem_of_app. left. apply list_elem_of_omap.
      exists (Join q "/", node_info hash follow dir_size fs b q n). simpl. rewrite by_path_lookup by done.
      split; [|done]. apply elem_of_map_to_list, by_path_spec; eauto.
    + unfold change in Hc. rewrite Hq in Hc. destruct (below a fs !! q) as [n|] eqn:Hqa; [|done].
      injection Hc as <-.
      destruct (entry_deleted None (node_info hash follow dir_size fs a q n)) as [e|] eqn:He; [|done].
      destruct (entry_deleted_Some _ _ _ He) as (_ & Hpath & Ht).
      exists e. split_and!; [|by rewrite Hpath, node_info_Path|done].
      apply elem_of_app. right. apply list_elem_of_omap.
      exists (Join q "/", node_info hash follow dir_size fs a q n). simpl. rewrite by_path_lookup, Hq by done.
      split; [|done]. apply elem_of_map_to_list, by_path_spec; eauto.
Qed.

Lemma omap_paths_sublist {A} (f : string * A -> option DiffEntry) (l : list (string * A)) :
  (forall p x e, (p, x) ∈ l -> f (p, x) = Some e -> de_Path e = p) ->
  sublist (de_Path <$> omap (M := list) f l) l.*1.
Proof using.
  induction l as [|[p x] l IH]; intros Hf; [done|]. csimpl.
  assert (sublist (de_Path <$> omap (M := list) f l) l.*1) as IH'.
  { apply IH. intros p' x' e Hin. apply Hf. by right. }
  destruct (f (p, x)) as [e|] eqn:He; csimpl; [|by constructor].
  rewrite (Hf p x e) by (done || by left). by constructor.
Qed.

Lemma diff_paths_NoDup (a b : Path) (fs : FS) :
  names_ok (below a fs) -> names_ok (below b fs) ->
  NoDup (de_Path <$> ds_Entries (DiffDirs hash follow dir_size a b fs)).
Proof.
  intros Ha Hb. destruct (DiffDirs_entries a b fs) as (_ & _ & ->). rewrite fmap_app. apply NoDup_app.
  assert (forall d p f, names_ok (below d fs) ->
            (p, f) ∈ map_to_list (by_path (listFiles hash follow dir_size d fs)) -> fi_Path f = p) as Hkey.
  { intros d p f Hn Hin. apply elem_of_map_to_list, by_path_spec in Hin as (q & n & _ & -> & ->); [|done].
    apply node_info_Path. }
  split_and!.
  - eapply sublist_NoDup; [apply (NoDup_fst_map_to_list (by_path (listFiles hash follow dir_size b fs)))|].
    apply omap_paths_sublist. intros p f e Hin He. rewrite (entry_in_B_Path _ _ _ He). by eapply Hkey.
  - intros p (e & -> & Hin)%list_elem_of_fmap (e' & Heq & Hin')%list_elem_of_fmap.
    apply list_elem_of_omap in Hin as ([p f] & Hin & He), Hin' as ([p' f'] & Hin' & He').
    apply entry_deleted_Some in He' as (Hno & Hpath & _). pose proof (Hkey _ _ _ Hb Hin) as Hk.
    apply Hkey in Hin' as Hk'; [|done]. apply entry_in_B_Path in He. simpl in *.
    apply elem_of_map_to_list in Hin. congruence.
  - eapply sublist_NoDup; [apply (NoDup_fst_map_to_list (by_path (listFiles hash follow dir_size a fs)))|].
    apply omap_paths_sublist. intros p f e Hin He. apply entry_deleted_Some in He as (_ & -> & _).
    by apply (Hkey a).
Qed.

End Exact.

(** ** A session's directories after [Init] *)

Lemma mkdirs_ok (umask m : Z) (p q : Path) (fs fs' : FS) :
  fs_ok fs -> dir_here fs p -> mkdirs umask m p q fs = Some fs' ->
  fs_ok fs' /\ dir_here fs' (p ++ q) /\ (forall k n, fs !! k = Some n -> fs' !! k = Some n).
Proof.
  revert p fs. induction q as [|c q IH]; intros p fs Hok Hd Hm; simpl in Hm.
  { simplify_eq. rewrite app_nil_r. done. }
  replace (p ++ c :: q) with ((p ++ [c]) ++ q) by (by rewrite <-app_assoc).
  destruct (fs !! (p ++ [c])) as [[m'|m' d|t]|] eqn:Hp; [|done|done|].
  - apply IH; [done|right; eauto|done].
  - destruct (IH _ _ (fs_ok_insert fs (p ++ [c]) (NDir (masked umask m)) Hok
      ltac:(by destruct p) Hp ltac:(by rewrite removelast_snoc)) ltac:(right; eexists; apply lookup_insert_eq) Hm)
      as (Hok' & Hd' & Hk). split_and!; [done|done|].
    intros k n Hn. apply Hk. rewrite lookup_insert_ne; [done|]. congruence.
Qed.

Lemma overlayInit_ready (umask : Z) (dataDir sessionID : string) (fs fs' : FS) :
  rooted dataDir -> good_comp sessionID -> fs_ok fs ->
  overlayInit umask dataDir sessionID fs = Some fs' -> session_ready dataDir sessionID fs'.
Proof.
  intros Hr Hs Hok. unfold overlayInit, mkdirAll. intros Hi.
  destruct (mkdirs umask 493 [] _ fs) as [fs1|] eqn:H1; simpl in Hi; [|done].
  destruct (mkdirs umask 493 [] _ fs1) as [fs2|] eqn:H2; simpl in Hi; [|done].
  apply mkdirs_ok in H1 as (Hok1 & _ & _); [|done|by left].
  apply mkdirs_ok in H2 as (Hok2 & Hd2 & _); [|done|by left].
  apply mkdirs_ok in Hi as (Hok3 & Hd3 & Hk); [|done|by left]. simpl in Hd2, Hd3.
  destruct (SessionDir_comps dataDir Hr sessionID Hs) as [Hc Hrs].
  assert (comps (PathJoin [SessionDir dataDir sessionID; "layers"]) = layersPath dataDir sessionID) as Hl.
  { unfold layersPath. rewrite <-Hc. apply (comps_PathJoin_flat _ ["layers"]); [done| |done]. by repeat constructor. }
  rewrite Hl in Hd2. split; [done|..].
  - unfold wsPath. destruct Hd3 as [Hnil|?]; [|done]. exfalso.
    pose proof (ws_comps dataDir Hr sessionID Hs) as Hw. unfold wsPath in Hw. rewrite Hw in Hnil.
    by destruct (sessionPath dataDir sessionID).
  - destruct Hd2 as [Hnil|[m Hm]]; [|eauto]. unfold layersPath in Hnil. by destruct (sessionPath dataDir sessionID).
Qed.

(** ** Witnesses *)

#[global] Instance good_comp_dec c : Decision (good_comp c).
Proof. unfold good_comp. apply _. Defined.
#[global] Instance no_link_dec n : Decision (no_link n).
Proof. destruct n; simpl; apply _. Defined.
#[global] Instance tree_ok_dec t : Decision (tree_ok t).
Proof. unfold tree_ok. apply _. Defined.

Lemma fs_ok_check (fs : FS) : map_Forall (fun k _ => dir_here fs (removelast k)) fs -> fs_ok fs.
Proof. intros Hf a c n Hn. apply Hf in Hn. by rewrite removelast_snoc in Hn. Qed.

Definition demo_no_link (_ : FS) (_ : Path) (_ : string) : option (Z * string) := Some (420%Z, "linked").
(** A session's directories, with two directories and two files. *)
Definition demo_fs : FS :=
  let w := ["data"; "sessions"; "s1"; "workspace"] in
  <[w ++ ["src"; "main.go"] := NFile 493 "package main"]>
  (<[w ++ ["src"] := NDir 448]>
  (<[w ++ ["README"] := NFile 420 "hello"]>
  (default ∅ (overlayInit 18 "/data" "s1" ∅)))).

Lemma demo_ready : session_ready "/data" "s1" demo_fs.
Proof.
  split; [apply fs_ok_check; apply (bool_decide_unpack _); by vm_compute|..]; eexists; by vm_compute.
Qed.

Lemma checkpoint_roundtrip_witness :
  exists r fs1 objs1, cpCreate 18 demo_no_link true "/data" true 7 "s1" "checkpoint-1" demo_fs ∅ = (r, fs1, objs1) /\
    cr_Success r = true.
Proof.
  destruct (checkpoint_roundtrip 18 demo_no_link true "/data" eq_refl "s1"
    ltac:(apply (bool_decide_unpack _); by vm_compute) true 7 "checkpoint-1" demo_fs ∅ demo_ready
    ltac:(apply (bool_decide_unpack _); by vm_compute) ltac:(by vm_compute) ltac:(simpl; lia) eq_refl)
    as (r & fs1 & objs1 & Hc & Hs & _).
  exists r, fs1, objs1. split; [exact Hc|exact Hs].
Defined.

(** What comes back: the files with the mode of a new file, the directory with
    its own. *)
Example demo_restored :
  (let '(r, fs1, objs1) := cpCreate 18 demo_no_link true "/data" true 7 "s1" "checkpoint-1" demo_fs ∅ in
   let fs2 := removeAll ["data"; "sessions"; "s1"; "workspace"; "src"] fs1 in
   match cpRestore 18 demo_no_link true "/data" "s1" "checkpoint-1" (cr_OverlayKey r) fs2 objs1 with
   | Some (Some fs3) => walk ["data"; "sessions"; "s1"; "workspace"] fs3
   | _ => []
   end)
  = [(["README"], NFile 420 "hello"); (["src"], NDir 448); (["src"; "main.go"], NFile 420 "package main")].
Proof. by vm_compute. Qed.

Definition demo_changed : FS :=
  let w := ["data"; "sessions"; "s1"; "workspace"] in
  <[["data"; "b"] := NDir 493]> (<[["data"; "b"; "README"] := NFile 420 "hello, world"]>
  (<[["data"; "b"; "src"] := NDir 493]> (<[["data"; "b"; "new"] := NFile 420 "x"]> demo_fs))).

(** Links lead to a directory: they can be opened and reading gives nothing. *)
Definition demo_follow (_ : FS) (_ : Path) (_ : string) : option string := Some "".
Definition demo_hash (d : string) : string := "h" +:+ d.
Lemma demo_hash_faithful (follow : FS -> Path -> string -> option string) (a b : Path) (fs : FS) :
  hash_faithful demo_hash follow a b fs.
Proof.
  intros q na nb _ _. unfold hashFile.
  destruct (content_read _ _ _ na), (content_read _ _ _ nb); simpl; unfold demo_hash; intros Heq; try done.
  injection Heq as He. f_equal. exact He.
Qed.
#[global] Instance names_ok_dec t : Decision (names_ok t).
Proof. unfold names_ok. apply _. Defined.


(** ** What the program does not do *)

(** A link that now leads to another directory has no entry. *)
Lemma retargeted_link_unseen :
  let fs := <[["a"; "l"] := NLink "one"]> (<[["b"; "l"] := NLink "two"]> ∅) in
  ds_Entries (DiffDirs demo_hash demo_follow (fun _ => 4096%Z) ["a"] ["b"] fs) = [].
Proof. by vm_compute. Qed.

(** A file that became a directory is reported as a change of the mode. *)
Lemma directory_over_file :
  let fs := <[["a"; "f"] := NFile 420 "content"]> (<[["b"; "f"] := NDir 493]> ∅) in
  ((fun e => (de_Path e, de_Type e)) <$> ds_Entries (DiffDirs demo_hash demo_follow (fun _ => 4096%Z) ["a"] ["b"] fs))
  = [("f", DiffModeChanged)].
Proof. by vm_compute. Qed.

(** A link in the workspace to something with content: no checkpoint. *)
Lemma link_fails_checkpoint :
  (cpCreate 18 demo_no_link true "/data" true 7 "s1" "checkpoint-1"
     (<[["data"; "sessions"; "s1"; "workspace"; "l"] := NLink "README"]> demo_fs) ∅).1.1
  = mkCpResult "layer-7" "" false.
Proof. by vm_compute. Qed.

(** An entry that leaves the layer for a sibling whose name it extends. *)
Lemma sibling_escape :
  (untarDir 18 "/data/sessions/s1/layers/restore-12345678"
     [mkTar "../restore-12345678-x/f" TypeReg 420 "out"] demo_fs)
    ≫= lookup ["data"; "sessions"; "s1"; "layers"; "restore-12345678-x"; "f"]
  = Some (NFile 420 "out").
Proof. by vm_compute. Qed.

(** Restoring a checkpoint with an id of less than eight bytes panics. *)
Lemma short_id_panics :
  (let '(r, fs1, objs1) := cpCreate 18 demo_no_link true "/data" true 7 "s1" "cp1" demo_fs ∅ in
   cpRestore 18 demo_no_link true "/data" "s1" "cp1" (cr_OverlayKey r) fs1 objs1) = None.
Proof. by vm_compute. Qed.

(** A second restore of the same id into a changed layer keeps what was there:
    here a file the archive does not have. *)
Lemma restore_merges_old_layer :
  (let '(r, fs1, objs1) := cpCreate 18 demo_no_link true "/data" true 7 "s1" "checkpoint-1" demo_fs ∅ in
   let fs2 := <[["data"; "sessions"; "s1"; "layers"; "restore-checkpoi"] := NDir 493]>
              (<[["data"; "sessions"; "s1"; "layers"; "restore-checkpoi"; "stale"] := NFile 420 "old"]> fs1) in
   match cpRestore 18 demo_no_link true "/data" "s1" "checkpoint-1" (cr_OverlayKey r) fs2 objs1 with
   | Some (Some fs3) => fs3 !! ["data"; "sessions"; "s1"; "workspace"; "stale"]
   | _ => None
   end) = Some (NFile 420 "old").
Proof. by vm_compute. Qed.
