(* ===== verification/LayerExtract.v ===== *)
(** * Unpacking the layers of an image

    [extractTarToDir] of [src/internal/controlplane/image/manager.go], over the host
    file system of [Checkpoint.v].  Here a path is resolved as the kernel does, through
    the symbolic links it meets, because the archive of a layer makes links itself. *)

From stdpp Require Import options.
From Stdlib Require Import Ascii.
From S2P Require Import Prelude GoStrings GoPath VMBoot Checkpoint.
Open Scope nat_scope.

(** ** Paths through symbolic links *)

(** The node a path leads to: from the directory [at_] through [todo], following at
    most [links] links (40 in Linux), the last component only if [follow].  A last
    component that does not exist is the place where it would be created. *)
Fixpoint namei (links : nat) (fs : FS) : Path -> Path -> bool -> option Path :=
  fix go (at_ todo : Path) (follow : bool) {struct todo} : option Path :=
    match todo with
    | [] => Some at_
    | c :: rest =>
        let last := match rest with [] => true | _ => false end in
        if (c =? "")%string || (c =? ".")%string then go at_ rest follow
        else if (c =? "..")%string then go (removelast at_) rest follow
        else
          match fs !! (at_ ++ [c]) with
          | Some (NDir _) => go (at_ ++ [c]) rest follow
          | Some (NLink t) =>
              if last && negb follow then Some (at_ ++ [c])
              else match links with
                   | O => None
                   | S links => namei links fs (if HasPrefix t "/" then [] else at_) (Split t slash ++ rest) follow
                   end
          | _ => if last then Some (at_ ++ [c]) else None
          end
    end.

Definition max_links : nat := 40.
Definition node_at (fs : FS) (p : Path) : option Inode :=
  match p with [] => Some (NDir 493) | _ => fs !! p end.
(** [os.Stat] and [os.Lstat] *)
Definition stat (fs : FS) (p : Path) : option Inode := r ← namei max_links fs [] p true; node_at fs r.
Definition lstat (fs : FS) (p : Path) : option Inode := r ← namei max_links fs [] p false; node_at fs r.

(** ** System calls.  An error leaves the file system as it is ([None]). *)

Section Calls.
Context (umask : Z).

(** Creates a node where nothing is: [os.Mkdir], [os.Symlink]. *)
Definition create_node (p : Path) (n : Inode) (fs : FS) : option FS :=
  r ← namei max_links fs [] p false;
  match node_at fs r with None => Some (<[r := n]> fs) | Some _ => None end.
Definition Mkdir (p : Path) (mode : Z) (fs : FS) : option FS := create_node p (NDir (masked umask mode)) fs.
Definition Symlink (target : string) (p : Path) (fs : FS) : option FS :=
  if (target =? "")%string then None else create_node p (NLink target) fs.

(** [os.MkdirAll], on the components in reverse; parents it made stay when it fails. *)
Fixpoint MkdirAll_rev (rp : list string) (mode : Z) (fs : FS) : bool * FS :=
  match stat fs (rev rp) with
  | Some (NDir _) => (true, fs)
  | Some _ => (false, fs)
  | None =>
      match rp with
      | [] => (true, fs)
      | _ :: rp' =>
          let '(ok, fs) := MkdirAll_rev rp' mode fs in
          if negb ok then (false, fs)
          else match Mkdir (rev rp) mode fs with
               | Some fs => (true, fs)
               | None => (match lstat fs (rev rp) with Some (NDir _) => true | _ => false end, fs)
               end
      end
  end.
Definition MkdirAll (p : Path) (mode : Z) (fs : FS) : FS := (MkdirAll_rev (rev p) mode fs).2.

(** [os.OpenFile] with [O_CREATE|O_WRONLY|O_TRUNC], the copy into it and [Close]. *)
Definition WriteFile (p : Path) (mode : Z) (data : string) (fs : FS) : option FS :=
  r ← namei max_links fs [] p true;
  match node_at fs r with
  | None => Some (<[r := NFile (masked umask mode) data]> fs)
  | Some (NFile m _) => Some (<[r := NFile m data]> fs)
  | Some _ => None
  end.

(** [os.Remove] *)
Definition Remove (p : Path) (fs : FS) : option FS :=
  r ← namei max_links fs [] p false;
  match node_at fs r with
  | None => None
  | Some (NDir _) =>
      if decide (r <> [] /\ below r fs = ∅) then Some (delete r fs) else None
  | Some _ => Some (delete r fs)
  end.

(** [os.RemoveAll] *)
Definition RemoveAll (p : Path) (fs : FS) : FS :=
  match namei max_links fs [] p false with Some r => removeAll r fs | None => fs end.

(** [os.Link].  The content of a linked file is not written again while a layer is
    unpacked, so the new name is a copy of the node. *)
Definition Link (old new : Path) (fs : FS) : option FS :=
  o ← namei max_links fs [] old false;
  match node_at fs o with
  | Some (NDir _) | None => None
  | Some n => create_node new n fs
  end.

(** What [os.Open] and [io.Copy] read; a directory opens and gives nothing. *)
Definition read_content (p : Path) (fs : FS) : option string :=
  match stat fs p with
  | Some (NFile _ d) => Some d
  | Some (NDir _) => Some ""
  | _ => None
  end.

(** ** [extractTarToDir] *)

Definition or_same (r : option FS) (fs : FS) : FS := from_option id fs r.

(** The entries of the archive; every other type of entry is skipped. *)
Inductive OciType := OciDir | OciReg | OciSymlink | OciLink | OciOther.
Record OciEntry := mkOci {
  oe_Name : string;
  oe_Type : OciType;
  oe_Mode : Z;
  oe_Linkname : string;
  oe_Data : string
}.

(** The directory part of a cleaned path. *)
Definition dir_of (target : string) : Path := removelast (comps target).

Definition whiteout_prefix : string := ".wh.".

Definition extract_entry (dir : string) (e : OciEntry) (st : FS * list (string * string))
    : FS * list (string * string) :=
  let '(fs, links) := st in
  let target := PathJoin [dir; oe_Name e] in
  let base := Base (oe_Name e) in
  if negb (HasPrefix (Clean target) (Clean dir)) then (fs, links)
  else if HasPrefix base whiteout_prefix then
    (RemoveAll (comps (PathJoin [Dir target; TrimPrefix base whiteout_prefix])) fs, links)
  else match oe_Type e with
       | OciDir => (MkdirAll (comps target) (Z.lor (oe_Mode e) 493) fs, links)
       | OciReg =>
           let fs := MkdirAll (dir_of target) 493 fs in
           (or_same (WriteFile (comps target) (oe_Mode e) (oe_Data e) fs) fs, links)
       | OciSymlink =>
           let fs := MkdirAll (dir_of target) 493 fs in
           let fs := or_same (Remove (comps target) fs) fs in
           (or_same (Symlink (oe_Linkname e) (comps target) fs) fs, links)
       | OciLink => (fs, links ++ [(PathJoin [dir; oe_Linkname e], target)])
       | OciOther => (fs, links)
       end.

(** A deferred hard link, with the copy made where linking fails. *)
Definition make_link (fs : FS) (link : string * string) : FS :=
  let '(oldname, newname) := link in
  let fs := MkdirAll (dir_of newname) 493 fs in
  let fs := or_same (Remove (comps newname) fs) fs in
  match Link (comps oldname) (comps newname) fs with
  | Some fs => fs
  | None =>
      match read_content (comps oldname) fs with
      | Some d => or_same (WriteFile (comps newname) 438 d fs) fs
      | None => fs
      end
  end.

(** The entries that can be read and whether the archive ends properly after them. *)
Record LayerTar := mkLayerTar { lt_entries : list OciEntry; lt_ends : bool }.

Definition extractTarToDir (tar : LayerTar) (dir : string) (fs : FS) : bool * FS :=
  let '(fs, links) := foldl (fun st e => extract_entry dir e st) (fs, []) (lt_entries tar) in
  if negb (lt_ends tar) then (false, fs) else (true, foldl make_link fs links).
End Calls.

(** ** Paths without links *)

Definition not_link (n : option Inode) : Prop := match n with Some (NLink _) => False | _ => True end.

Lemma namei_real k fs (a p : Path) follow :
  fs_ok fs -> Forall good_comp p -> p <> [] -> dir_here fs (removelast (a ++ p)) ->
  follow = false \/ not_link (fs !! (a ++ p)) ->
  namei k fs a p follow = Some (a ++ p).
Proof.
  intros Hok. revert a. induction p as [|c p IH]; intros a Hp Hne Hd Hf; [done|].
  apply Forall_cons in Hp as [(Hc1 & Hc2 & Hc3 & _) Hp].
  assert (namei k fs a (c :: p) follow
          = match fs !! (a ++ [c]) with
            | Some (NDir _) => namei k fs (a ++ [c]) p follow
            | Some (NLink t) =>
                if match p with [] => true | _ => false end && negb follow then Some (a ++ [c])
                else match k with
                     | O => None
                     | S k => namei k fs (if HasPrefix t "/" then [] else a) (Split t slash ++ p) follow
                     end
            | _ => if match p with [] => true | _ => false end then Some (a ++ [c]) else None
            end) as ->.
  { destruct k; simpl; apply String.eqb_neq in Hc1, Hc2, Hc3; by rewrite Hc1, Hc2, Hc3. }
  destruct (decide (p = [])) as [->|Hpne].
  - destruct (fs !! (a ++ [c])) as [[m|m d|t]|] eqn:Hn; [by destruct k|done| |done].
    destruct Hf as [->|Hf]; [done|]. done.
  - assert (dir_here fs (a ++ [c])) as [Hn|[m Hm]].
    { destruct (path_snoc p Hpne) as (b & x & ->).
      replace (a ++ c :: b ++ [x]) with ((a ++ [c] ++ b) ++ [x]) in Hd by (by rewrite <-!app_assoc).
      rewrite removelast_snoc in Hd. rewrite app_assoc in Hd. by eapply dir_here_prefix. }
    { by destruct a. }
    rewrite Hm. replace (a ++ c :: p) with ((a ++ [c]) ++ p) in * by (by rewrite <-app_assoc).
    by apply IH.
Qed.

Lemma node_at_lookup fs p : p <> [] -> node_at fs p = fs !! p.
Proof. by destruct p. Qed.

Lemma dir_here_stat fs p :
  fs_ok fs -> Forall good_comp p -> dir_here fs p -> exists m, stat fs p = Some (NDir m).
Proof.
  intros Hok Hp Hd. destruct (decide (p = [])) as [->|Hne]; [by exists 493%Z|].
  destruct Hd as [|[m Hm]]; [done|]. exists m. unfold stat.
  rewrite (namei_real _ _ [] p) by (first [done | simpl; by rewrite Hm | right; simpl; by rewrite Hm
    | destruct (path_snoc p Hne) as (a & c & ->); simpl; rewrite removelast_snoc; by eapply Hok]).
  simpl. by rewrite node_at_lookup.
Qed.

Section Fresh.
Context (umask : Z).

(** At a free place in a real directory every call does the plain thing. *)
Record free_place (fs : FS) (p : Path) : Prop := {
  fp_ok : fs_ok fs;
  fp_good : Forall good_comp p;
  fp_ne : p <> [];
  fp_dir : dir_here fs (removelast p);
  fp_free : fs !! p = None
}.

Lemma free_namei fs p k follow : free_place fs p -> namei k fs [] p follow = Some p.
Proof.
  intros [Hok Hg Hne Hd Hf]. apply (namei_real k fs [] p follow); [done..|]. right. simpl. by rewrite Hf.
Qed.

Lemma free_stat fs p : free_place fs p -> stat fs p = None /\ lstat fs p = None.
Proof.
  intros Hp. unfold stat, lstat. rewrite !(free_namei fs p) by done. simpl.
  rewrite node_at_lookup by apply Hp. by rewrite (fp_free _ _ Hp).
Qed.

Lemma create_node_free fs p n : free_place fs p -> create_node p n fs = Some (<[p := n]> fs).
Proof.
  intros Hp. unfold create_node. rewrite free_namei by done. simpl.
  rewrite node_at_lookup by apply Hp. by rewrite (fp_free _ _ Hp).
Qed.

Lemma WriteFile_free fs p m d :
  free_place fs p -> WriteFile umask p m d fs = Some (<[p := NFile (masked umask m) d]> fs).
Proof.
  intros Hp. unfold WriteFile. rewrite free_namei by done. simpl.
  rewrite node_at_lookup by apply Hp. by rewrite (fp_free _ _ Hp).
Qed.

Lemma Remove_free fs p : free_place fs p -> Remove p fs = None.
Proof.
  intros Hp. unfold Remove. rewrite free_namei by done. simpl.
  rewrite node_at_lookup by apply Hp. by rewrite (fp_free _ _ Hp).
Qed.

Lemma MkdirAll_rev_dir fs p m :
  fs_ok fs -> Forall good_comp p -> dir_here fs p -> MkdirAll_rev umask (rev p) m fs = (true, fs).
Proof.
  intros Hok Hp Hd. destruct (dir_here_stat fs p Hok Hp Hd) as [m' Hs].
  rewrite <-(rev_involutive p) in Hs. destruct (rev p) as [|c rp]; cbn [MkdirAll_rev]; by rewrite Hs.
Qed.

Lemma MkdirAll_dir fs p m :
  fs_ok fs -> Forall good_comp p -> dir_here fs p -> MkdirAll umask p m fs = fs.
Proof. intros Hok Hp Hd. unfold MkdirAll. by rewrite MkdirAll_rev_dir. Qed.

Lemma MkdirAll_free fs p m :
  free_place fs p -> MkdirAll umask p m fs = <[p := NDir (masked umask m)]> fs.
Proof.
  intros Hp. destruct (path_snoc p (fp_ne _ _ Hp)) as (a & c & Heq).
  assert (dir_here fs a) as Hd by (pose proof (fp_dir _ _ Hp) as Hd; by rewrite Heq, removelast_snoc in Hd).
  assert (Forall good_comp a) as Ha.
  { pose proof (fp_good _ _ Hp) as Hg. rewrite Heq in Hg. by apply Forall_app in Hg as [? _]. }
  unfold MkdirAll. rewrite Heq, rev_unit. cbn [MkdirAll_rev].
  replace (rev (c :: rev a)) with p by (simpl; by rewrite rev_involutive).
  destruct (free_stat fs p Hp) as [-> Hl]. rewrite MkdirAll_rev_dir by (done || apply Hp).
  cbn [negb]. unfold Mkdir. rewrite create_node_free by done. by rewrite <-Heq.
Qed.
End Fresh.

(** ** A layer is unpacked exactly *)

(** The content of a layer's archive: directories, files and links with their paths,
    and hard links to them. *)
Inductive LayerItem :=
  | Node (q : Path) (n : Inode)
  | Hard (q old : Path).
Definition item_path (i : LayerItem) : Path := match i with Node q _ | Hard q _ => q end.
Definition item_entry (i : LayerItem) : OciEntry :=
  match i with
  | Node q (NDir m) => mkOci (Join q "/") OciDir m "" ""
  | Node q (NFile m d) => mkOci (Join q "/") OciReg m "" d
  | Node q (NLink t) => mkOci (Join q "/") OciSymlink 511 t ""
  | Hard q old => mkOci (Join q "/") OciLink 420 (Join old "/") ""
  end.
Definition item_nodes (l : list LayerItem) : list (Path * Inode) :=
  omap (M := list) (fun i => match i with Node q n => Some (q, n) | _ => None end) l.
Definition item_hards (l : list LayerItem) : list (Path * Path) :=
  omap (M := list) (fun i => match i with Hard q old => Some (q, old) | _ => None end) l.
(** The hard links as copies of what they lead to. *)
Definition hard_nodes (l : list LayerItem) : list (Path * Inode) :=
  omap (M := list) (fun '(q, old) => (fun n => (q, n)) <$> (list_to_map (item_nodes l) : FS) !! old) (item_hards l).

(** A layer that is unpacked without surprises: every path once, plain names, no
    white-outs, directories before what is in them, and hard links to files or links
    of the same layer in its directories. *)
Record layer_ok (l : list LayerItem) : Prop := {
  lo_nodup : NoDup (item_path <$> l);
  lo_names : Forall (fun i => Forall good_comp (item_path i) /\ item_path i <> [] /\
    HasPrefix (default "" (last (item_path i))) whiteout_prefix = false) l;
  lo_links : Forall (fun i => match i with Node _ (NLink t) => t <> "" | _ => True end) l;
  lo_dirs : dirs_first (item_nodes l);
  lo_hards : Forall (fun '(q, old) =>
    (exists n, (old, n) ∈ item_nodes l /\ is_dir n = false) /\
    (removelast q = [] \/ exists m, (removelast q, NDir m) ∈ item_nodes l)) (item_hards l)
}.

Lemma Base_Join q : Forall good_comp q -> q <> [] -> Base (Join q "/") = default "" (last q).
Proof.
  intros Hq Hne. unfold Base. rewrite bool_decide_eq_false_2 by (by apply Join_nonempty).
  rewrite Split_Join; [|done|].
  - rewrite (filter_all (fun c => c <> "")).
    + destruct (path_snoc q Hne) as (a & c & ->). by rewrite last_snoc.
    + rewrite Forall_forall in Hq. by intros x (Hx & _)%Hq.
  - eapply Forall_impl; [exact Hq|]. by intros x (_ & _ & _ & ?).
Qed.

Section Exact.
Context (umask : Z) (dir : string) (Hdir : rooted dir).

(** The node that unpacking makes: directories always get [0755]. *)
Definition unpacked (n : Inode) : Inode :=
  match n with
  | NDir m => NDir (masked umask (Z.lor m 493))
  | NFile m d => NFile (masked umask m) d
  | NLink t => NLink t
  end.
Lemma unpacked_kind : keeps_kind unpacked.
Proof. by intros []. Qed.

Definition layer_tree (l : list LayerItem) : FS := unpacked <$> list_to_map (item_nodes l ++ hard_nodes l).

(** The paths an entry is about. *)
Lemma target_facts (q : Path) :
  Forall good_comp q -> q <> [] ->
  comps (PathJoin [dir; Join q "/"]) = comps dir ++ q /\
  HasPrefix (Clean (PathJoin [dir; Join q "/"])) (Clean dir) = true.
Proof using Hdir.
  intros Hq Hne. split; [by apply comps_PathJoin|by apply PathJoin_prefix].
Qed.

Lemma extract_node q n fs links :
  Forall good_comp q -> q <> [] -> HasPrefix (default "" (last q)) whiteout_prefix = false ->
  (match n with NLink t => t <> "" | _ => True end) ->
  free_place fs (comps dir ++ q) ->
  extract_entry umask dir (item_entry (Node q n)) (fs, links) = (<[comps dir ++ q := unpacked n]> fs, links).
Proof using Hdir.
  intros Hq Hne Hwh Ht Hp. destruct (target_facts q Hq Hne) as [Hc Hpre].
  assert (MkdirAll umask (removelast (comps dir ++ q)) 493 fs = fs) as Hm.
  { apply MkdirAll_dir; [apply Hp| |apply Hp]. destruct (path_snoc _ (fp_ne _ _ Hp)) as (a & c & Heq).
    pose proof (fp_good _ _ Hp) as Hg. rewrite Heq, removelast_snoc in *. by apply Forall_app in Hg as [? _]. }
  destruct n as [m|m d|t]; unfold extract_entry;
    cbn [item_entry oe_Name oe_Type oe_Mode oe_Linkname oe_Data];
    rewrite Hpre, Base_Join, Hwh by done; cbn [negb]; unfold dir_of; rewrite Hc.
  - by rewrite MkdirAll_free.
  - by rewrite Hm, WriteFile_free.
  - rewrite Hm, Remove_free by done. cbn [or_same from_option id]. unfold Symlink.
    destruct (String.eqb_spec t ""); [done|]. by rewrite create_node_free.
Qed.

Lemma extract_hard q old fs links :
  Forall good_comp q -> q <> [] -> HasPrefix (default "" (last q)) whiteout_prefix = false ->
  extract_entry umask dir (item_entry (Hard q old)) (fs, links)
  = (fs, links ++ [(PathJoin [dir; Join old "/"], PathJoin [dir; Join q "/"])]).
Proof using Hdir.
  intros Hq Hne Hwh. destruct (target_facts q Hq Hne) as [Hc Hpre]. unfold extract_entry.
  cbn [item_entry oe_Name oe_Type oe_Mode oe_Linkname oe_Data]. by rewrite Hpre, Base_Join, Hwh.
Qed.

Lemma extract_items l fs links :
  Forall (fun i => Forall good_comp (item_path i) /\ item_path i <> [] /\
    HasPrefix (default "" (last (item_path i))) whiteout_prefix = false) l ->
  Forall (fun i => match i with Node _ (NLink t) => t <> "" | _ => True end) l ->
  installable unpacked (comps dir) (item_nodes l) fs -> fs_ok fs ->
  foldl (fun st e => extract_entry umask dir e st) (fs, links) (item_entry <$> l)
  = (install unpacked (comps dir) (item_nodes l) fs,
     links ++ ((fun '(q, old) => (PathJoin [dir; Join old "/"], PathJoin [dir; Join q "/"])) <$> item_hards l)).
Proof using Hdir.
  revert fs links. induction l as [|i l IH]; intros fs links Hn Ht Hi Hok; [simpl; by rewrite app_nil_r|].
  apply Forall_cons in Hn as [(Hg & Hne & Hwh) Hn]. apply Forall_cons in Ht as [Ht0 Ht].
  rewrite fmap_cons. cbn [foldl]. destruct i as [q n|q old]; simpl in Hg, Hne, Hwh.
  - destruct Hi as (_ & Hfree & Hd & Hi).
    assert (free_place fs (comps dir ++ q)) as Hp.
    { constructor; [done| |by destruct (comps dir), q|done|done]. apply Forall_app.
      split; [apply clean_comps_good|done]. }
    rewrite extract_node by done. rewrite IH; [done..|]. apply fs_ok_insert; [done|apply Hp|done|done].
  - rewrite extract_hard by done. rewrite IH by done. simpl. by rewrite <-app_assoc.
Qed.

(** A hard link to a node that is there, at a free place. *)
Lemma make_link_exact q old n fs :
  Forall good_comp q -> q <> [] -> free_place fs (comps dir ++ q) ->
  Forall good_comp old -> old <> [] -> fs !! (comps dir ++ old) = Some n -> is_dir n = false ->
  make_link umask fs (PathJoin [dir; Join old "/"], PathJoin [dir; Join q "/"])
  = <[comps dir ++ q := n]> fs.
Proof using Hdir.
  intros Hq Hne Hp Ho Hone Hn Hk. unfold make_link, dir_of.
  destruct (target_facts q Hq Hne) as [-> _]. destruct (target_facts old Ho Hone) as [-> _].
  destruct (path_snoc _ (fp_ne _ _ Hp)) as (a & c & Heq).
  assert (MkdirAll umask (removelast (comps dir ++ q)) 493 fs = fs) as ->.
  { apply MkdirAll_dir; [apply Hp| |apply Hp]. pose proof (fp_good _ _ Hp) as Hg.
    rewrite Heq, removelast_snoc in *. by apply Forall_app in Hg as [? _]. }
  rewrite Remove_free by done. cbn [or_same from_option id]. unfold Link.
  assert (comps dir ++ old <> []) as Hne' by (by destruct (comps dir), old).
  rewrite (namei_real _ _ [] (comps dir ++ old)).
  - simpl. rewrite node_at_lookup, Hn, create_node_free by done. by destruct n.
  - apply Hp.
  - apply Forall_app. split; [apply clean_comps_good|done].
  - done.
  - simpl. destruct (path_snoc _ Hne') as (b & x & Hb). rewrite Hb, removelast_snoc. rewrite Hb in Hn.
    by eapply (fp_ok _ _ Hp).
  - by left.
Qed.

Lemma item_nodes_paths l x : x ∈ (item_nodes l).*1 -> x ∈ item_path <$> l.
Proof.
  intros ([q n] & -> & Hin)%list_elem_of_fmap. apply list_elem_of_omap in Hin as (i & Hi & Heq).
  destruct i; simplify_eq. apply list_elem_of_fmap. by exists (Node q n).
Qed.

Lemma item_hards_paths l x : x ∈ (item_hards l).*1 -> x ∈ item_path <$> l.
Proof.
  intros ([q o] & -> & Hin)%list_elem_of_fmap. apply list_elem_of_omap in Hin as (i & Hi & Heq).
  destruct i; simplify_eq. apply list_elem_of_fmap. by exists (Hard q o).
Qed.

Lemma item_paths_split l :
  NoDup (item_path <$> l) -> NoDup ((item_nodes l).*1 ++ (item_hards l).*1).
Proof.
  induction l as [|i l IH]; intros Hnd; [constructor|]. apply NoDup_cons in Hnd as [Hi Hnd].
  specialize (IH Hnd). assert (item_path i ∉ (item_nodes l).*1 ++ (item_hards l).*1) as Hni.
  { intros [Hin|Hin]%elem_of_app; apply Hi; [by apply item_nodes_paths|by apply item_hards_paths]. }
  destruct i as [q n|q o]; simpl in *; [by constructor|].
  apply NoDup_app in IH as (H1 & H2 & H3). apply not_elem_of_app in Hni as [Hn Hh]. apply NoDup_app.
  split_and!; [done| |by constructor]. intros x Hx [->|Hin]%elem_of_cons; [done|by eapply H2].
Qed.

(** The deferred links put copies in their places. *)
Lemma make_links hl fs (nodes : list (Path * Inode)) :
  fs_ok fs ->
  Forall (fun '(q, old) =>
    (Forall good_comp q /\ q <> []) /\ dir_here fs (removelast (comps dir ++ q)) /\
    fs !! (comps dir ++ q) = None /\
    exists n, ((list_to_map nodes : FS) !! old = Some n /\ is_dir n = false) /\
      (Forall good_comp old /\ old <> []) /\ fs !! (comps dir ++ old) = Some (unpacked n)) hl ->
  NoDup hl.*1 ->
  foldl (make_link umask) fs ((fun '(q, old) => (PathJoin [dir; Join old "/"], PathJoin [dir; Join q "/"])) <$> hl)
  = install unpacked (comps dir)
      (omap (M := list) (fun '(q, old) => (fun n => (q, n)) <$> (list_to_map nodes : FS) !! old) hl) fs
  /\ fs_ok (install unpacked (comps dir)
      (omap (M := list) (fun '(q, old) => (fun n => (q, n)) <$> (list_to_map nodes : FS) !! old) hl) fs).
Proof using Hdir.
  revert fs. induction hl as [|[q old] hl IH]; intros fs Hok Hall Hnd; [done|].
  apply Forall_cons in Hall as [((Hq & Hne) & Hd & Hfree & n & [Hn Hk] & [Ho Hone] & Hold) Hall].
  apply NoDup_cons in Hnd as [Hnq Hnd].
  assert (free_place fs (comps dir ++ q)) as Hp.
  { constructor; [done| |by destruct (comps dir), q|done|done]. apply Forall_app.
    split; [apply clean_comps_good|done]. }
  rewrite fmap_cons. cbn [foldl omap list_omap]. rewrite Hn. cbn [fmap option_fmap option_map].
  rewrite (make_link_exact q old (unpacked n)) by (done || by destruct n). cbn [install foldl fst snd].
  apply IH; [|clear IH|done].
  - apply fs_ok_insert; [done|apply Hp|done|done].
  - apply Forall_forall. intros [q' o'] Hin. rewrite Forall_forall in Hall. specialize (Hall _ Hin) as
      (Hq' & Hd' & Hf' & n' & Hn' & Ho' & Hl').
    assert (q' <> q) as Hqq. { intros ->. apply Hnq. apply list_elem_of_fmap. by exists (q, o'). }
    split_and!; [apply Hq'|apply Hq'| | |exists n'; split_and!; [apply Hn'|apply Hn'|apply Ho'|apply Ho'|]].
    + destruct Hd' as [?|[m Hm]]; [by left|right]. exists m. rewrite lookup_insert_ne; [done|].
      intros Heq. by rewrite Heq, Hm in Hfree.
    + rewrite lookup_insert_ne; [done|]. intros Heq. by apply (inj (comps dir ++.)) in Heq.
    + rewrite lookup_insert_ne; [done|]. intros Heq. by rewrite Heq, Hl' in Hfree.
Qed.

Lemma hard_nodes_paths l :
  layer_ok l -> (hard_nodes l).*1 = (item_hards l).*1.
Proof.
  intros Hl. unfold hard_nodes. pose proof (lo_hards _ Hl) as Hh.
  assert (NoDup (item_nodes l).*1) as Hnd by (pose proof (item_paths_split _ (lo_nodup _ Hl)) as H;
    by apply NoDup_app in H as [? _]).
  induction (item_hards l) as [|[q old] hl IH]; [done|].
  apply Forall_cons in Hh as [[(n & Hn & _) _] Hh]. cbn [omap list_omap].
  rewrite (elem_of_list_to_map_1 (M := gmap Path) _ old n) by done. simpl. f_equal. by apply IH.
Qed.

Lemma nodes_NoDup l : layer_ok l -> NoDup (item_nodes l ++ hard_nodes l).*1.
Proof. intros Hl. rewrite fmap_app, hard_nodes_paths by done. apply item_paths_split, Hl. Qed.

(** Unpacking a plain layer into an empty directory makes exactly its content there
    and touches nothing else. *)
Lemma unpack_layer l fs :
  layer_ok l -> fs_ok fs -> dir_here fs (comps dir) ->
  (forall q, q <> [] -> fs !! (comps dir ++ q) = None) ->
  exists fs', extractTarToDir umask (mkLayerTar (item_entry <$> l) true) dir fs = (true, fs') /\ fs_ok fs' /\
    below (comps dir) fs' = layer_tree l /\
    (forall k, (forall q, q <> [] -> k <> comps dir ++ q) -> fs' !! k = fs !! k).
Proof using Hdir.
  intros Hl Hok Hd Hfree. pose proof (nodes_NoDup l Hl) as Hnd.
  pose proof Hnd as Hnd'. rewrite fmap_app in Hnd'. apply NoDup_app in Hnd' as (Hn1 & Hdis & Hn2).
  assert (forall x, x ∈ item_path <$> l -> Forall good_comp x /\ x <> []) as Hgood.
  { intros x (i & -> & Hin)%list_elem_of_fmap. pose proof (lo_names _ Hl) as H. rewrite Forall_forall in H.
    by destruct (H _ Hin) as (? & ? & _). }
  pose proof (dirs_first_installable _ _ _ _ unpacked_kind (lo_dirs _ Hl) Hn1 Hd Hfree) as Hi.
  set (fs1 := install unpacked (comps dir) (item_nodes l) fs).
  assert (fs_ok fs1) as Hok1 by (by apply installable_ok).
  assert (forall q, fs1 !! (comps dir ++ q)
          = match (list_to_map (item_nodes l) : FS) !! q with Some n => Some (unpacked n) | None => fs !! (comps dir ++ q) end) as Hl1.
  { intros q. unfold fs1. rewrite lookup_install by done. by rewrite strip_app. }
  destruct (make_links (item_hards l) fs1 (item_nodes l)) as [Hmk Hok2]; [done| | |].
  - apply Forall_forall. intros [q old] Hin.
    assert (q ∈ (item_hards l).*1) as Hq by (apply list_elem_of_fmap; by exists (q, old)).
    pose proof (lo_hards _ Hl) as Hh. rewrite Forall_forall in Hh. destruct (Hh _ Hin) as [(n & Hn & Hk) Hpar].
    destruct (Hgood q (item_hards_paths _ _ Hq)) as [Hgq Hneq].
    assert (old ∈ (item_nodes l).*1) as Ho by (apply list_elem_of_fmap; by exists (old, n)).
    split_and!; [done|done| | |exists n; split_and!].
    + rewrite removelast_below by done. unfold fs1. apply dir_here_install; [apply unpacked_kind|done|].
      destruct Hpar as [->|[m Hm]]; [right; left|by right; right; exists (removelast q), m].
      split_and!; [done|by rewrite app_nil_r|]. intros Hnil. by destruct (Hgood [] (item_nodes_paths _ _ Hnil)).
    + rewrite Hl1, not_elem_of_list_to_map_1; [by apply Hfree|]. intros Hx. apply (Hdis q Hx).
      by rewrite hard_nodes_paths.
    + by apply elem_of_list_to_map_1.
    + done.
    + by apply Hgood, item_nodes_paths.
    + by apply Hgood, item_nodes_paths.
    + by rewrite Hl1, (elem_of_list_to_map_1 (M := gmap Path) _ old n).
  - by rewrite <-hard_nodes_paths.
  - assert (install unpacked (comps dir) (hard_nodes l) fs1
            = install unpacked (comps dir) (item_nodes l ++ hard_nodes l) fs) as Happ
      by (unfold fs1, install; by rewrite foldl_app).
    exists (install unpacked (comps dir) (item_nodes l ++ hard_nodes l) fs). split_and!.
    + unfold extractTarToDir. cbn [lt_entries lt_ends].
      rewrite extract_items by (done || apply Hl). cbn [negb]. rewrite app_nil_l. fold fs1.
      rewrite Hmk. unfold hard_nodes in Happ. by rewrite Happ.
    + by rewrite <-Happ.
    + apply map_eq. intros q. unfold layer_tree. rewrite lookup_fmap.
      destruct (decide (q = [])) as [->|Hq].
      { rewrite below_root, not_elem_of_list_to_map_1; [done|]. rewrite fmap_app, hard_nodes_paths by done.
        intros [H|H]%elem_of_app; [apply item_nodes_paths in H|apply item_hards_paths in H];
          by destruct (Hgood _ H). }
      rewrite lookup_below, lookup_install, strip_app by done. simpl.
      destruct (list_to_map (item_nodes l ++ hard_nodes l) !! q); [done|]. by apply Hfree.
    + intros k Hk. rewrite lookup_install by done. destruct (strip (comps dir) k) as [q|] eqn:Hs; [|done].
      apply strip_Some in Hs as ->. simpl. destruct (decide (q = [])) as [->|Hq]; [|by destruct (Hk q Hq)].
      rewrite not_elem_of_list_to_map_1; [done|]. rewrite fmap_app, hard_nodes_paths by done.
      intros [H|H]%elem_of_app; [apply item_nodes_paths in H|apply item_hards_paths in H];
        by destruct (Hgood _ H).
Qed.

(** *** Unpacked again *)

Lemma child_dir fs p n : fs_ok fs -> p <> [] -> fs !! p = Some n -> dir_here fs (removelast p).
Proof. intros Hok Hne Hn. destruct (path_snoc p Hne) as (a & c & ->). rewrite removelast_snoc. by eapply Hok. Qed.

Lemma namei_there fs p n k follow :
  fs_ok fs -> Forall good_comp p -> p <> [] -> fs !! p = Some n -> follow = false \/ not_link (Some n) ->
  namei k fs [] p follow = Some p.
Proof.
  intros Hok Hg Hne Hn Hf. apply (namei_real k fs [] p follow); [done..|by eapply child_dir|]. simpl. by rewrite Hn.
Qed.

Lemma below_path_good q : Forall good_comp q -> q <> [] -> Forall good_comp (comps dir ++ q) /\ comps dir ++ q <> [].
Proof.
  intros Hq Hne. split; [|by destruct (comps dir), q]. apply Forall_app. split; [apply clean_comps_good|done].
Qed.

Lemma parent_made fs p n m : fs_ok fs -> Forall good_comp p -> p <> [] -> fs !! p = Some n ->
  MkdirAll umask (removelast p) m fs = fs.
Proof.
  intros Hok Hg Hne Hn. apply MkdirAll_dir; [done| |by eapply child_dir].
  destruct (path_snoc p Hne) as (a & c & ->). rewrite removelast_snoc. by apply Forall_app in Hg as [? _].
Qed.

(** Removing what is no directory and making it again. *)
Lemma replaced_same fs p n :
  fs_ok fs -> Forall good_comp p -> p <> [] -> fs !! p = Some n -> is_dir n = false ->
  Remove p fs = Some (delete p fs) /\ create_node p n (delete p fs) = Some fs.
Proof.
  intros Hok Hg Hne Hn Hd. unfold Remove, create_node. rewrite (namei_there fs p n) by (done || by left).
  cbn [mbind option_bind]. rewrite node_at_lookup, Hn by done. split; [by destruct n|].
  assert (namei max_links (delete p fs) [] p false = Some p) as ->.
  { destruct (path_snoc p Hne) as (a & c & Hp). assert (forall x, x <> p -> delete p fs !! x = fs !! x) as Hx.
    { intros x Hx. by apply lookup_delete_ne. }
    apply (namei_real max_links (delete p fs) [] p false); [|done|done| |by left].
    - intros x y k Hk. apply lookup_delete_Some in Hk as [Hxy Hk].
      destruct (Hok _ _ _ Hk) as [->|[m Hm]]; [by left|right]. exists m. rewrite Hx; [done|]. intros ->.
      rewrite Hm in Hn. by injection Hn as <-.
    - rewrite app_nil_l. destruct (child_dir fs p n Hok Hne Hn) as [->|[m Hm]]; [by left|right]. exists m. rewrite Hx; [done|].
      rewrite Hp, removelast_snoc. intros Heq. apply (f_equal length) in Heq. rewrite length_app in Heq. simpl in Heq. lia. }
  simpl. rewrite node_at_lookup, lookup_delete_eq by done. by rewrite insert_delete_eq, insert_id.
Qed.

Lemma extract_node_again q n fs links :
  Forall good_comp q -> q <> [] -> HasPrefix (default "" (last q)) whiteout_prefix = false ->
  (match n with NLink t => t <> "" | _ => True end) ->
  fs_ok fs -> fs !! (comps dir ++ q) = Some (unpacked n) ->
  extract_entry umask dir (item_entry (Node q n)) (fs, links) = (fs, links).
Proof using Hdir.
  intros Hq Hne Hwh Ht Hok Hn. destruct (target_facts q Hq Hne) as [Hc Hpre].
  destruct (below_path_good q Hq Hne) as [Hg Hgn].
  pose proof (parent_made fs _ _ 493 Hok Hg Hgn Hn) as Hm.
  destruct n as [m|m d|t]; unfold extract_entry;
    cbn [item_entry oe_Name oe_Type oe_Mode oe_Linkname oe_Data];
    rewrite Hpre, Base_Join, Hwh by done; cbn [negb]; unfold dir_of; rewrite Hc.
  - rewrite MkdirAll_dir; [done|done|done|]. right. by eexists.
  - rewrite Hm. unfold WriteFile. rewrite (namei_there fs _ _ _ true Hok Hg Hgn Hn) by by right.
    simpl. rewrite node_at_lookup, Hn by done. simpl. by rewrite insert_id.
  - rewrite Hm. destruct (replaced_same fs _ _ Hok Hg Hgn Hn) as [-> Hcr]; [done|].
    cbn [or_same from_option id]. unfold Symlink. destruct (String.eqb_spec t ""); [done|].
    change (unpacked (NLink t)) with (NLink t) in Hcr. by rewrite Hcr.
Qed.

Lemma make_link_again q old n fs :
  Forall good_comp q -> q <> [] -> Forall good_comp old -> old <> [] -> q <> old -> fs_ok fs ->
  fs !! (comps dir ++ q) = Some n -> fs !! (comps dir ++ old) = Some n -> is_dir n = false ->
  make_link umask fs (PathJoin [dir; Join old "/"], PathJoin [dir; Join q "/"]) = fs.
Proof using Hdir.
  intros Hq Hne Ho Hone Hqo Hok Hn Hno Hd. unfold make_link, dir_of.
  destruct (target_facts q Hq Hne) as [-> _]. destruct (target_facts old Ho Hone) as [-> _].
  destruct (below_path_good q Hq Hne) as [Hg Hgn]. destruct (below_path_good old Ho Hone) as [Hgo Hgon].
  rewrite (parent_made fs _ _ 493 Hok Hg Hgn Hn).
  destruct (replaced_same fs _ _ Hok Hg Hgn Hn Hd) as [-> Hcr]. cbn [or_same from_option id]. unfold Link.
  set (fs1 := delete (comps dir ++ q) fs) in *.
  assert (fs1 !! (comps dir ++ old) = Some n) as Hno1.
  { unfold fs1. rewrite lookup_delete_ne; [done|]. by intros H%(inj (comps dir ++.)). }
  assert (fs_ok fs1) as Hok1.
  { intros x y k Hk. apply lookup_delete_Some in Hk as [Hxy Hk].
    destruct (Hok _ _ _ Hk) as [->|[m Hm]]; [by left|right]. exists m. unfold fs1. rewrite lookup_delete_ne; [done|].
    intros Heq. rewrite Heq, Hm in Hn. by injection Hn as <-. }
  rewrite (namei_there fs1 _ n max_links false Hok1 Hgo Hgon Hno1) by by left.
  simpl. rewrite node_at_lookup, Hno1 by done. rewrite Hcr. by destruct n.
Qed.

(** A layer that is there is not changed by unpacking it again. *)
Lemma unpack_again l fs :
  layer_ok l -> fs_ok fs -> below (comps dir) fs = layer_tree l ->
  extractTarToDir umask (mkLayerTar (item_entry <$> l) true) dir fs = (true, fs).
Proof using Hdir.
  intros Hl Hok Hb. pose proof (nodes_NoDup l Hl) as Hnd.
  assert (forall q n, q <> [] -> (q, n) ∈ item_nodes l ++ hard_nodes l -> fs !! (comps dir ++ q) = Some (unpacked n)) as Hthere.
  { intros q n Hq Hin. rewrite <-lookup_below, Hb by done. unfold layer_tree.
    by rewrite lookup_fmap, (elem_of_list_to_map_1 (M := gmap Path) _ q n). }
  assert (foldl (fun st e => extract_entry umask dir e st) (fs, []) (item_entry <$> l)
          = (fs, (fun '(q, old) => (PathJoin [dir; Join old "/"], PathJoin [dir; Join q "/"])) <$> item_hards l)) as He.
  { change (fs, (fun '(q, old) => (PathJoin [dir; Join old "/"], PathJoin [dir; Join q "/"])) <$> item_hards l) with
      (fs, [] ++ ((fun '(q, old) => (PathJoin [dir; Join old "/"], PathJoin [dir; Join q "/"])) <$> item_hards l)).
    assert (forall q n, Node q n ∈ l -> q <> [] -> fs !! (comps dir ++ q) = Some (unpacked n)) as Hnodes.
    { intros q n Hin Hq. apply Hthere; [done|]. apply elem_of_app. left. apply list_elem_of_omap. by exists (Node q n). }
    pose proof (lo_names _ Hl) as Hn. pose proof (lo_links _ Hl) as Ht. clear -Hnodes Hn Ht Hok Hdir.
    generalize (@nil (string * string)) as links.
    induction l as [|i l IH]; intros links; [simpl; by rewrite app_nil_r|].
    apply Forall_cons in Hn as [(Hg & Hne & Hwh) Hn]. apply Forall_cons in Ht as [Ht0 Ht].
    assert (forall q n, Node q n ∈ l -> q <> [] -> fs !! (comps dir ++ q) = Some (unpacked n)) as Hnodes'.
    { intros q n Hin. apply Hnodes. by right. }
    rewrite fmap_cons. cbn [foldl]. destruct i as [q n|q old]; simpl in Hg, Hne, Hwh.
    - rewrite extract_node_again; [by rewrite IH|done..|]. apply Hnodes; [by left|done].
    - rewrite extract_hard, IH by done. simpl. by rewrite <-app_assoc. }
  unfold extractTarToDir. cbn [lt_entries lt_ends]. rewrite He. cbn [negb]. f_equal.
  assert (forall q, q ∈ item_path <$> l -> Forall good_comp q /\ q <> []) as Hgood.
  { intros q (i & -> & Hin)%list_elem_of_fmap. pose proof (lo_names _ Hl) as H. rewrite Forall_forall in H.
    by destruct (H _ Hin) as (? & ? & _). }
  assert (forall q old, (q, old) ∈ item_hards l -> make_link umask fs (PathJoin [dir; Join old "/"], PathJoin [dir; Join q "/"]) = fs) as Hlink.
  { intros q old Hin. pose proof (lo_hards _ Hl) as Hh. rewrite Forall_forall in Hh.
    destruct (Hh _ Hin) as [(n & Hold & Hd) _].
    rewrite fmap_app in Hnd. pose proof Hnd as Hnd'. apply NoDup_app in Hnd' as (Hnd1 & Hdis & _).
    assert (old ∈ (item_nodes l).*1) as Ho1 by (apply list_elem_of_fmap; by exists (old, n)).
    assert (q ∈ (item_hards l).*1) as Hq1 by (apply list_elem_of_fmap; by exists (q, old)).
    destruct (Hgood q (item_hards_paths _ _ Hq1)) as [Hq Hne].
    destruct (Hgood old (item_nodes_paths _ _ Ho1)) as [Ho Hone].
    apply (make_link_again q old (unpacked n)); [done..| |done| | |by destruct n].
    - intros ->. apply (Hdis old Ho1). by rewrite hard_nodes_paths.
    - apply Hthere; [done|]. apply elem_of_app. right. unfold hard_nodes. apply list_elem_of_omap.
      exists (q, old). split; [done|]. by rewrite (elem_of_list_to_map_1 (M := gmap Path) _ old n).
    - apply Hthere; [done|]. apply elem_of_app. by left. }
  clear -Hlink. induction (item_hards l) as [|[q old] hl IH]; [done|]. rewrite fmap_cons. cbn [foldl].
  rewrite Hlink by by left. apply IH. intros q' o' Hin. apply Hlink. by right.
Qed.
End Exact.

(** ** Directories made on a path without links *)

(** Every directory of the path is one or is not there. *)
Definition plain_path (fs : FS) (p : Path) : Prop :=
  forall a b, p = a ++ b -> a <> [] -> fs !! a = None \/ exists m, fs !! a = Some (NDir m).

Lemma namei_plain k fs (a p : Path) follow :
  Forall good_comp p -> p <> [] ->
  (forall x y, p = x ++ y -> x <> [] -> fs !! (a ++ x) = None \/ exists m, fs !! (a ++ x) = Some (NDir m)) ->
  namei k fs a p follow = None \/ namei k fs a p follow = Some (a ++ p).
Proof.
  revert a. induction p as [|c p IH]; intros a Hp Hne Hpl; [done|].
  apply Forall_cons in Hp as [(Hc1 & Hc2 & Hc3 & _) Hp]. apply String.eqb_neq in Hc1, Hc2, Hc3.
  assert (forall n, (n = None \/ exists m, n = Some (NDir m)) -> fs !! (a ++ [c]) = n ->
          namei k fs a (c :: p) follow
          = match n with
            | Some (NDir _) => namei k fs (a ++ [c]) p follow
            | _ => if match p with [] => true | _ => false end then Some (a ++ [c]) else None
            end) as Heq.
  { intros n Hn Hl. destruct k; simpl; rewrite Hc1, Hc2, Hc3, Hl; by destruct Hn as [->|[m ->]]. }
  destruct (Hpl [c] p eq_refl) as [Hn|[m Hn]]; [done| |].
  - rewrite (Heq None (or_introl eq_refl) Hn). destruct p; [by right|by left].
  - rewrite (Heq (Some (NDir m)) (or_intror (ex_intro _ m eq_refl)) Hn).
    destruct (decide (p = [])) as [->|Hpne]; [right; by destruct k|].
    replace (a ++ c :: p) with ((a ++ [c]) ++ p) by (by rewrite <-app_assoc).
    apply IH; [done..|]. intros x y -> Hx. rewrite <-app_assoc. by apply (Hpl (c :: x) y).
Qed.

Lemma stat_missing fs p :
  Forall good_comp p -> p <> [] -> plain_path fs p -> fs !! p = None -> stat fs p = None.
Proof.
  intros Hp Hne Hpl Hn. unfold stat.
  destruct (namei_plain max_links fs [] p true) as [-> | ->]; [done..| |].
  - done.
  - simpl. by rewrite node_at_lookup.
Qed.

Lemma plain_prefix fs a b : plain_path fs (a ++ b) -> plain_path fs a.
Proof. intros Hpl x y -> Hx. apply (Hpl x (y ++ b)); [by rewrite <-app_assoc|done]. Qed.

(** What making directories may change. *)
Definition dirs_made (p : Path) (fs fs' : FS) : Prop :=
  forall k, fs' !! k = fs !! k \/
    (fs !! k = None /\ (exists m, fs' !! k = Some (NDir m)) /\ exists b, p = k ++ b).

Lemma MkdirAll_plain umask fs p m :
  fs_ok fs -> Forall good_comp p -> plain_path fs p ->
  exists fs', MkdirAll_rev umask (rev p) m fs = (true, fs') /\ fs_ok fs' /\ dir_here fs' p /\ dirs_made p fs fs'.
Proof.
  intros Hok. induction p as [|c a IH] using rev_ind; intros Hg Hpl.
  { exists fs. split_and!; [by apply (MkdirAll_rev_dir umask fs []); [| |left]|done|by left|by left]. }
  destruct (decide (dir_here fs (a ++ [c]))) as [Hd|Hnd].
  { exists fs. split_and!; [by apply MkdirAll_rev_dir|done|done|by left]. }
  assert (fs !! (a ++ [c]) = None) as Hn.
  { destruct (Hpl (a ++ [c]) []) as [Hn|Hn]; [by rewrite app_nil_r|by destruct a|done|]. destruct Hnd. by right. }
  pose proof Hg as Hg'. apply Forall_app in Hg' as [Hga _].
  destruct (IH Hga (plain_prefix _ _ _ Hpl)) as (fs1 & Hm & Hok1 & Hd1 & Hch).
  assert (fs1 !! (a ++ [c]) = None) as Hn1.
  { destruct (Hch (a ++ [c])) as [->|(_ & _ & b & Hb)]; [done|].
    apply (f_equal length) in Hb. rewrite !length_app in Hb. simpl in Hb. lia. }
  assert (free_place fs1 (a ++ [c])) as Hf.
  { constructor; [done|done|by destruct a|by rewrite removelast_snoc|done]. }
  exists (<[a ++ [c] := NDir (masked umask m)]> fs1). split_and!.
  - rewrite rev_unit. cbn [MkdirAll_rev]. replace (rev (c :: rev a)) with (a ++ [c]) by (simpl; by rewrite rev_involutive).
    rewrite (stat_missing fs (a ++ [c])) by (done || by destruct a). rewrite Hm. cbn [negb].
    unfold Mkdir. by rewrite create_node_free.
  - apply fs_ok_insert; [done|by destruct a|done|by rewrite removelast_snoc].
  - right. eexists. apply lookup_insert_eq.
  - intros k. destruct (decide (k = a ++ [c])) as [->|Hk].
    + right. split_and!; [done| |exists []; by rewrite app_nil_r]. eexists. apply lookup_insert_eq.
    + rewrite lookup_insert_ne by done. destruct (Hch k) as [->|(H1 & H2 & b & ->)]; [by left|right].
      split_and!; [done|done|]. exists (b ++ [c]). by rewrite app_assoc.
Qed.

Lemma dirs_made_plain p fs fs' q : dirs_made p fs fs' -> plain_path fs q -> plain_path fs' q.
Proof.
  intros Hch Hpl a b -> Ha. destruct (Hch a) as [->|(_ & Hd & _)]; [by apply (Hpl a b)|by right].
Qed.

(** Removing below a path without links. *)
Lemma RemoveAll_plain a c fs :
  fs_ok fs -> Forall good_comp (a ++ [c]) -> plain_path fs a ->
  RemoveAll (a ++ [c]) fs = removeAll (a ++ [c]) fs.
Proof.
  intros Hok Hg Hpl. unfold RemoveAll. assert (a ++ [c] <> []) as Hne by by destruct a.
  destruct (decide (dir_here fs a)) as [Hd|Hnd].
  { rewrite (namei_real _ _ [] (a ++ [c])); [done|done|done|done| |by left]. by rewrite app_nil_l, removelast_snoc. }
  assert (fs !! (a ++ [c]) = None) as Hn.
  { destruct (fs !! (a ++ [c])) as [n|] eqn:Hn; [|done]. by apply Hok in Hn. }
  destruct (namei_plain max_links fs [] (a ++ [c]) false) as [-> | ->]; [done|done| | |done].
  - intros x y Heq Hx. rewrite app_nil_l. destruct (decide (y = [])) as [->|Hy].
    { rewrite app_nil_r in Heq. subst x. by left. }
    destruct (path_snoc y Hy) as (y' & z & ->). rewrite app_assoc in Heq. apply app_inj_tail in Heq as [-> _].
    by apply (Hpl x y').
  - apply map_eq. intros k. rewrite lookup_removeAll. destruct (strip (a ++ [c]) k) as [q|] eqn:Hs; [|done].
    apply strip_Some in Hs as ->. destruct (decide (q = [])) as [->|Hq]; [by rewrite app_nil_r|].
    apply fs_ok_below_none; [done| |done]. intros [|[m Hm]]; [done|congruence].
Qed.

(** ** What unpacking does with other archives *)

Definition sample_host : FS :=
  list_to_map [(["d"], NDir 493); (["d"; "layers"], NDir 493); (["d"; "layers"; "l1"], NDir 493);
               (["d"; "layers"; "l0"], NDir 493); (["d"; "layers"; "l0"; "f"], NFile 420 "base");
               (["etc"], NDir 493); (["etc"; "passwd"], NFile 420 "root"); (["etc"; "shadow"], NFile 384 "hash")].
Definition unpack_l1 (es : list OciEntry) : FS := (extractTarToDir 18 (mkLayerTar es true) "/d/layers/l1" sample_host).2.

(** A white-out leaves no trace: the file of the layer below stays visible. *)
Lemma whiteout_lost : map_to_list (unpack_l1 [mkOci ".wh.f" OciReg 0 "" ""]) = map_to_list sample_host.
Proof. vm_compute. reflexivity. Qed.

(** A layer that makes a link and writes through it writes on the host, *)
Lemma symlink_escapes :
  unpack_l1 [mkOci "x" OciSymlink 511 "/etc" ""; mkOci "x/passwd" OciReg 420 "" "evil"] !! ["etc"; "passwd"]
  = Some (NFile 420 "evil").
Proof. vm_compute. reflexivity. Qed.

(** a hard link brings a file of the host into the layer, *)
Lemma hardlink_reads_host :
  unpack_l1 [mkOci "y" OciLink 420 "../../../etc/shadow" ""] !! ["d"; "layers"; "l1"; "y"]
  = Some (NFile 384 "hash").
Proof. vm_compute. reflexivity. Qed.

(** and one white-out removes the directory of all layers. *)
Lemma whiteout_removes_layers :
  unpack_l1 [mkOci ".wh..." OciReg 0 "" ""] !! ["d"; "layers"; "l0"; "f"] = None.
Proof. vm_compute. reflexivity. Qed.

(** The prefix test on texts lets an entry into a sibling directory. *)
Lemma prefix_lets_sibling :
  unpack_l1 [mkOci "../l10/f" OciReg 420 "" "x"] !! ["d"; "layers"; "l10"; "f"] = Some (NFile 420 "x").
Proof. vm_compute. reflexivity. Qed.

(** The set-user-id bit of a file is not kept. *)
Lemma setuid_lost :
  unpack_l1 [mkOci "su" OciReg 2541 "" "x"] !! ["d"; "layers"; "l1"; "su"] = Some (NFile 493 "x").
Proof. vm_compute. reflexivity. Qed.
