(* ===== verification/Images.v ===== *)
(** * The image manager

    [src/internal/controlplane/image/manager.go]: pulling images into directories shared
    between them by the digest of a layer, counting the references to layers, deleting,
    the sweep in the background, and the paths a session or service starts from.

    A pull is a thread that works without the manager's lock most of the time; its
    steps are the registry's answer, for each layer the look whether its directory
    exists, the making of the directory and the unpacking (which is one step), and the
    publication of the image.
    The registry ([crane]) is not part of the repository: its answers are arguments.
    Sizes of images and the log are left out; [createWarmSnapshot], [extractLayers],
    [buildLayerPack] and [createExt4FromDir] have no caller. *)

From stdpp Require Import options sorting.
From Stdlib Require Import Ascii.
From S2P Require Import Prelude GoStrings GoPath Network VMBoot Checkpoint LayerExtract.
Open Scope nat_scope.

(** ** Images ([src/internal/loka/image.go]) *)

Inductive ImageStatus :=
  | ImageStatusPulling | ImageStatusConverting | ImageStatusWarming | ImageStatusReady | ImageStatusFailed.
#[global] Instance ImageStatus_eq_dec : EqDecision ImageStatus.
Proof. solve_decision. Defined.

Record ImageLayer := mkImageLayer { il_Digest : string; il_Size : Z; il_ObjKey : string }.

Record Image := mkImage {
  i_ID : string;
  i_Reference : string;
  i_Digest : string;
  i_RootfsPath : string;
  i_Layers : list ImageLayer;
  i_LayerPackKey : string;
  i_SnapshotMem : string;
  i_SnapshotVMState : string;
  i_Status : ImageStatus;
  i_CreatedAt : Z
}.

Definition new_image (id reference : string) (now : Z) : Image :=
  mkImage id reference "" "" [] "" "" "" ImageStatusPulling now.
Definition set_status (st : ImageStatus) (i : Image) : Image :=
  mkImage (i_ID i) (i_Reference i) (i_Digest i) (i_RootfsPath i) (i_Layers i) (i_LayerPackKey i)
    (i_SnapshotMem i) (i_SnapshotVMState i) st (i_CreatedAt i).
Definition set_layers (digest : string) (layers : list ImageLayer) (i : Image) : Image :=
  mkImage (i_ID i) (i_Reference i) digest (i_RootfsPath i) layers (i_LayerPackKey i)
    (i_SnapshotMem i) (i_SnapshotVMState i) ImageStatusConverting (i_CreatedAt i).
Definition set_paths (pack rootfs : string) (i : Image) : Image :=
  mkImage (i_ID i) (i_Reference i) (i_Digest i) rootfs (i_Layers i) pack
    (i_SnapshotMem i) (i_SnapshotVMState i) ImageStatusReady (i_CreatedAt i).

(** What the registry answers for a reference: the image's digest, and the digests
    (SHA-256, in hexadecimal) and sizes of its layers. *)
Record RemoteImage := mkRemote { ri_Digest : option string; ri_Layers : list (string * Z) }.

Definition digest_of (hex : string) : string := "sha256:" +:+ hex.
(** The part after the first colon, or all of it. *)
Definition hex_of (digest : string) : string :=
  match Cut digest ":"%char with (_, Some hex) => hex | (all, None) => all end.

(** ** The loka overlay ([ensureLokaOverlay]) *)

Section Manager.
(** The umask, the data directory, the digest of a content, and the places where a
    supervisor binary is looked for. *)
Context (umask : Z) (dataDir : string) (sha256 : string -> string) (candidates : list string).

Definition layersBaseDir : string := PathJoin [dataDir; "layers"].
Definition layerDirOf (hex : string) : string := PathJoin [layersBaseDir; hex].
Definition lokaOverlayDir : string := PathJoin [dataDir; "layers"; "loka-overlay"].
Definition in_overlay (rest : list string) : string := PathJoin (lokaOverlayDir :: rest).
Definition supervisorDst : string := in_overlay ["usr"; "local"; "bin"; "loka-supervisor"].

Definition elf_magic : string := String (ascii_of_nat 127) "ELF".
Definition is_elf (fs : FS) (p : string) : bool :=
  match stat fs (comps p) with
  | Some (NFile _ d) => bool_decide (take_str 4 d = elf_magic)
  | _ => false
  end.

(** [findSupervisor]: the first candidate that is an ELF binary *)
Definition findSupervisor (fs : FS) : option string := List.find (is_elf fs) candidates.

Definition fileHash (fs : FS) (p : string) : string :=
  match stat fs (comps p) with Some (NFile _ d) => sha256 d | _ => "" end.

Definition needsCreate (fs : FS) : bool :=
  match stat fs (comps supervisorDst) with
  | None => true
  | Some _ =>
      if negb (is_elf fs supervisorDst) then true
      else match findSupervisor fs with
           | Some src =>
               let s := fileHash fs src in let d := fileHash fs supervisorDst in
               bool_decide (s <> "" /\ d <> "" /\ s <> d)
           | None => false
           end
  end.

(** [copyFile] and [os.Chmod] *)
Definition copyBinary (src dst : string) (fs : FS) : FS :=
  match stat fs (comps src) with
  | Some (NFile _ d) => or_same (WriteFile umask (comps dst) 493 d fs) fs
  | _ => fs
  end.
Definition Chmod (p : string) (mode : Z) (fs : FS) : FS :=
  or_same (r ← namei max_links fs [] (comps p) true;
           match node_at fs r with
           | Some (NFile _ d) => Some (<[r := NFile (Z.land mode 511) d]> fs)
           | Some (NDir _) => Some (<[r := NDir (Z.land mode 511)]> fs)
           | _ => None
           end) fs.

Definition bin_links : list string :=
  ["sh"; "ash"; "cat"; "ls"; "cp"; "mv"; "rm"; "mkdir"; "rmdir"; "echo"; "printf"; "test"; "true"; "false";
   "sleep"; "date"; "grep"; "sed"; "awk"; "sort"; "uniq"; "wc"; "head"; "tail"; "find"; "xargs"; "tr"; "cut";
   "tee"; "touch"; "chmod"; "chown"; "ln"; "readlink"; "basename"; "dirname"; "realpath"; "ps"; "kill"; "id";
   "whoami"; "hostname"; "uname"; "env"; "mount"; "umount"; "mknod"; "df"; "du"; "tar"; "gzip"; "gunzip";
   "wget"; "ping"; "ip"; "ifconfig"; "route"].
Definition sbin_links : list string := ["init"; "reboot"; "halt"; "ifconfig"; "route"; "ip"].
Definition usr_bin_links : list string := ["env"; "test"].

Definition make_symlinks (target : string) (dir : list string) (names : list string) (fs : FS) : FS :=
  foldl (fun fs cmd => or_same (Symlink target (comps (in_overlay (dir ++ [cmd]))) fs) fs) fs names.

Definition ensureLokaOverlay (fs : FS) : FS :=
  if negb (needsCreate fs) then fs
  else
    let fs := MkdirAll umask (comps lokaOverlayDir) 493 fs in
    let fs := MkdirAll umask (dir_of supervisorDst) 493 fs in
    let fs := match findSupervisor fs with
              | Some src => Chmod supervisorDst 493 (copyBinary src supervisorDst fs)
              | None => fs
              end in
    let fs := MkdirAll umask (comps (in_overlay ["bin"])) 493 fs in
    let fs := MkdirAll umask (comps (in_overlay ["sbin"])) 493 fs in
    let fs := MkdirAll umask (comps (in_overlay ["usr/bin"])) 493 fs in
    let fs := make_symlinks "busybox" ["bin"] bin_links fs in
    let fs := make_symlinks "../bin/busybox" ["sbin"] sbin_links fs in
    make_symlinks "../../bin/busybox" ["usr/bin"] usr_bin_links fs.

(** ** The manager and its pulls *)

(** What a pull has left to do.  The image is the object the pull works on; the
    manager's map holds the same object until the image is deleted. *)
Inductive PullPhase :=
  | PChecked
  | PWaiting (owner : nat)
  | PFetch (img : Image)
  | PLayers (img : Image) (done_ todo : list string)
  | PMake (img : Image) (done_ : list string) (hex : string) (todo : list string)
  | PUnpack (img : Image) (done_ : list string) (hex : string) (todo : list string)
  | PDone (result : option Image).
Record PullThread := mkPull { pt_Reference : string; pt_phase : PullPhase }.

Record ImageManager := mkIM {
  im_images : gmap string Image;
  im_layerRefs : gmap string Z;
  im_pullLocks : gmap string nat;
  im_fs : FS;
  im_bucket : gmap string string;
  im_pulls : gmap nat PullThread
}.

Definition with_images f (w : ImageManager) : ImageManager :=
  mkIM (f (im_images w)) (im_layerRefs w) (im_pullLocks w) (im_fs w) (im_bucket w) (im_pulls w).
Definition with_refs f (w : ImageManager) : ImageManager :=
  mkIM (im_images w) (f (im_layerRefs w)) (im_pullLocks w) (im_fs w) (im_bucket w) (im_pulls w).
Definition with_locks f (w : ImageManager) : ImageManager :=
  mkIM (im_images w) (im_layerRefs w) (f (im_pullLocks w)) (im_fs w) (im_bucket w) (im_pulls w).
Definition with_fs f (w : ImageManager) : ImageManager :=
  mkIM (im_images w) (im_layerRefs w) (im_pullLocks w) (f (im_fs w)) (im_bucket w) (im_pulls w).
Definition with_bucket f (w : ImageManager) : ImageManager :=
  mkIM (im_images w) (im_layerRefs w) (im_pullLocks w) (im_fs w) (f (im_bucket w)) (im_pulls w).
Definition with_pulls f (w : ImageManager) : ImageManager :=
  mkIM (im_images w) (im_layerRefs w) (im_pullLocks w) (im_fs w) (im_bucket w) (f (im_pulls w)).

(** [NewImageManager] *)
Definition NewImageManager (fs : FS) (bucket : gmap string string) : ImageManager :=
  mkIM ∅ ∅ ∅ (ensureLokaOverlay (MkdirAll umask (comps (PathJoin [dataDir; "images"])) 493 fs)) bucket ∅.

Definition ready_ref (w : ImageManager) (reference : string) (id : string) : bool :=
  match im_images w !! id with
  | Some i => bool_decide (i_Reference i = reference /\ i_Status i = ImageStatusReady)
  | None => false
  end.

(** Reads of the map; [order] is the order in which it is iterated. *)
Definition GetByRef (order : list string) (reference : string) (w : ImageManager) : option Image :=
  id ← List.find (ready_ref w reference) order; im_images w !! id.
Definition Get_image (id : string) (w : ImageManager) : option Image := im_images w !! id.

(** [Pull], first part: a ready image is the answer, otherwise the pull goes on. *)
Definition pull_begin (order : list string) (t : nat) (reference : string) (w : ImageManager) : ImageManager :=
  with_pulls <[t := mkPull reference
                      (match GetByRef order reference w with
                       | Some i => PDone (Some i)
                       | None => PChecked
                       end)]> w.

(** One pull per reference goes on, with a new image; the others wait for it. *)
Definition pull_lock (id : string) (now : Z) (t : nat) (reference : string) (w : ImageManager) : ImageManager :=
  match im_pullLocks w !! reference with
  | Some owner => with_pulls <[t := mkPull reference (PWaiting owner)]> w
  | None =>
      let img := new_image id reference now in
      with_locks <[reference := t]> (with_images <[id := img]>
        (with_pulls <[t := mkPull reference (PFetch img)]> w))
  end.

(** The pull writes to its image, which the map may hold no more. *)
Definition store_image (img : Image) : ImageManager -> ImageManager :=
  with_images (alter (fun _ => img) (i_ID img)).
(** The deferred end of a pull: the result for those who wait, the lock released. *)
Definition pull_end (t : nat) (reference : string) (img : Image) (ok : bool) (w : ImageManager) : ImageManager :=
  with_locks (delete reference)
    (with_pulls <[t := mkPull reference (PDone (if ok then Some img else None))]> (store_image img w)).

Definition pull_fetch (answer : option RemoteImage) (t : nat) (reference : string) (img : Image)
    (w : ImageManager) : ImageManager :=
  match answer with
  | None => pull_end t reference (set_status ImageStatusFailed img) false w
  | Some r =>
      let img := set_layers (default "" (ri_Digest r))
                   ((fun l => mkImageLayer (digest_of l.1) l.2 "") <$> ri_Layers r) img in
      with_pulls <[t := mkPull reference (PLayers img [] (fst <$> ri_Layers r))]> (store_image img w)
  end.

(** The next layer: a directory that exists is taken as the layer, *)
Definition pull_look (t : nat) (reference : string) (img : Image) (done_ todo : list string)
    (w : ImageManager) : ImageManager :=
  match todo with
  | [] => w
  | hex :: todo =>
      with_pulls <[t := mkPull reference
                          (match stat (im_fs w) (comps (layerDirOf hex)) with
                           | Some _ => PLayers img (done_ ++ [hex]) todo
                           | None => PMake img done_ hex todo
                           end)]> w
  end.
(** otherwise it is made, whether another pull made it meanwhile or not, *)
Definition pull_make (t : nat) (reference : string) (img : Image) (done_ : list string) (hex : string)
    (todo : list string) (w : ImageManager) : ImageManager :=
  with_pulls <[t := mkPull reference (PUnpack img done_ hex todo)]>
    (with_fs (MkdirAll umask (comps (layerDirOf hex)) 493) w).
(** and unpacked; [tar] is what the registry sends, if it does. *)
Definition pull_unpack (tar : option LayerTar) (t : nat) (reference : string) (img : Image)
    (done_ : list string) (hex : string) (todo : list string) (w : ImageManager) : ImageManager :=
  match tar with
  | None => pull_end t reference (set_status ImageStatusFailed img) false w
  | Some tar =>
      let '(ok, fs) := extractTarToDir umask tar (layerDirOf hex) (im_fs w) in
      let w := with_fs (fun _ => fs) w in
      if ok then with_pulls <[t := mkPull reference (PLayers img (done_ ++ [hex]) todo)]> w
      else pull_end t reference (set_status ImageStatusFailed img) false w
  end.

Definition add_refs (layers : list ImageLayer) (refs : gmap string Z) : gmap string Z :=
  foldl (fun refs l => <[il_Digest l := (default 0 (refs !! il_Digest l) + 1)%Z]> refs) refs layers.

(** The image is published and its layers are counted. *)
Definition pull_publish (t : nat) (reference : string) (img : Image) (done_ : list string)
    (w : ImageManager) : ImageManager :=
  let dirs := layerDirOf <$> done_ in
  let img := set_paths (Join dirs ":") (Join (lokaOverlayDir :: dirs) ":") img in
  pull_end t reference img true
    (with_refs (add_refs (i_Layers img)) (with_fs ensureLokaOverlay w)).

(** A waiting pull answers with the result of the one it waits for. *)
Definition pull_wake (t owner : nat) (reference : string) (w : ImageManager) : ImageManager :=
  match im_pulls w !! owner with
  | Some (mkPull _ (PDone r)) => with_pulls <[t := mkPull reference (PDone r)]> w
  | _ => w
  end.

(** ** Deleting *)

(** The references of an image's layers are given back; a layer without any is
    removed from disk. *)
Definition drop_layer (w : ImageManager) (l : ImageLayer) : ImageManager :=
  let n := (default 0 (im_layerRefs w !! il_Digest l) - 1)%Z in
  let w := with_refs <[il_Digest l := n]> w in
  if (n <=? 0)%Z then
    with_fs (RemoveAll (comps (layerDirOf (hex_of (il_Digest l))))) (with_refs (delete (il_Digest l)) w)
  else w.

Definition deleteImageLocked (id : string) (w : ImageManager) : ImageManager :=
  match im_images w !! id with
  | None => w
  | Some img => with_images (delete id) (foldl drop_layer w (i_Layers img))
  end.

Definition delete_object (key : string) (w : ImageManager) : ImageManager :=
  if (key =? "")%string then w else with_bucket (delete key) w.

(** [Delete]; the flag is [false] when there is no such image *)
Definition DeleteImage (id : string) (w : ImageManager) : bool * ImageManager :=
  match im_images w !! id with
  | None => (false, w)
  | Some img =>
      let w := deleteImageLocked id w in
      let w := delete_object (i_LayerPackKey img) w in
      let w := if bool_decide (i_RootfsPath img = i_LayerPackKey img) then w
               else delete_object (i_RootfsPath img) w in
      let w := delete_object (i_SnapshotMem img) w in
      let w := delete_object (i_SnapshotVMState img) w in
      (true, with_fs (RemoveAll (comps (PathJoin [dataDir; "cache"; "images"; id])))
               (with_fs (RemoveAll (comps (PathJoin [dataDir; "images"; id]))) w))
  end.

(** [Register] *)
Definition RegisterImage (img : Image) : ImageManager -> ImageManager := with_images <[i_ID img := img]>.

Definition maxImages : nat := 100.
Definition failedTTL : Z := 5 * Minute.

Definition image_created (w : ImageManager) (id : string) : Z :=
  from_option i_CreatedAt 0%Z (im_images w !! id).
Definition ready_id (w : ImageManager) (id : string) : bool :=
  match im_images w !! id with Some i => bool_decide (i_Status i = ImageStatusReady) | None => false end.

Definition older (w : ImageManager) (a b : string) : Prop := (image_created w a <= image_created w b)%Z.
#[global] Instance older_dec w a b : Decision (older w a b).
Proof. unfold older. apply _. Defined.

(** A pass of [imageCleanupLoop] *)
Definition image_sweep (now : Z) (order : list string) (w : ImageManager) : ImageManager :=
  let w := with_images (fun m =>
             filter (fun e => ~ (i_Status e.2 = ImageStatusFailed /\ (failedTTL < now - i_CreatedAt e.2)%Z)) m) w in
  let cands := merge_sort (older w) (filter (fun id => ready_id w id = true) order) in
  foldl (fun w id => deleteImageLocked id w) w (take (size (im_images w) - maxImages) cands).

(** ** Paths for a machine *)

(** [ResolveRootfsPath] *)
Definition ResolveRootfsPath (imageID : string) (w : ImageManager) : option string :=
  img ← im_images w !! imageID;
  let p := i_RootfsPath img in
  if (p =? "")%string then None
  else if Contains p ":" then
    match stat (im_fs w) (comps (fst (Cut p ":"%char))) with Some _ => Some p | None => None end
  else match stat (im_fs w) (comps p) with Some _ => Some p | None => None end.

Definition cacheDir (imageID : string) : string := PathJoin [dataDir; "cache"; "images"; imageID].

(** [ResolveLayerPackPath]: from the cache, or from the bucket into it *)
Definition ResolveLayerPackPath (imageID : string) (w : ImageManager) : option string * ImageManager :=
  match im_images w !! imageID with
  | None => (None, w)
  | Some img =>
      let localPath := PathJoin [cacheDir imageID; "layer-pack.ext4"] in
      match stat (im_fs w) (comps localPath) with
      | Some _ => (Some localPath, w)
      | None =>
          let key := if (i_LayerPackKey img =? "")%string then i_RootfsPath img else i_LayerPackKey img in
          match (if (key =? "")%string then None else im_bucket w !! key) with
          | None => (None, w)
          | Some data =>
              let w := with_fs (MkdirAll umask (dir_of localPath) 493) w in
              match WriteFile umask (comps localPath) 438 data (im_fs w) with
              | Some fs => (Some localPath, with_fs (fun _ => fs) w)
              | None => (None, w)
              end
          end
      end
  end.

(** [downloadGunzip]: the file, and whether the stream was complete; an incomplete file stays. *)
Definition downloadGunzip (gunzip : string -> option (string * bool)) (key localPath : string)
    (w : ImageManager) : bool * ImageManager :=
  match im_bucket w !! key with
  | None => (false, w)
  | Some data =>
      match gunzip data with
      | None => (false, w)
      | Some (d, complete) =>
          let w := with_fs (MkdirAll umask (dir_of localPath) 493) w in
          match WriteFile umask (comps localPath) 438 d (im_fs w) with
          | Some fs => (complete, with_fs (fun _ => fs) w)
          | None => (false, w)
          end
      end
  end.

(** [ResolveSnapshotPaths]: no paths for an image without a snapshot *)
Definition ResolveSnapshotPaths (gunzip : string -> option (string * bool)) (imageID : string)
    (w : ImageManager) : option (string * string) * ImageManager :=
  match im_images w !! imageID with
  | None => (None, w)
  | Some img =>
      if (i_SnapshotMem img =? "")%string || (i_SnapshotVMState img =? "")%string then (Some ("", ""), w)
      else
        let w := with_fs (MkdirAll umask (comps (cacheDir imageID)) 493) w in
        let memPath := PathJoin [cacheDir imageID; "snapshot_mem"] in
        let statePath := PathJoin [cacheDir imageID; "snapshot_vmstate"] in
        let fetch key path w :=
          match stat (im_fs w) (comps path) with
          | Some _ => (true, w)
          | None => downloadGunzip gunzip key path w
          end in
        let '(ok, w) := fetch (i_SnapshotMem img) memPath w in
        if negb ok then (None, w)
        else
          let '(ok, w) := fetch (i_SnapshotVMState img) statePath w in
          if ok then (Some (memPath, statePath), w) else (None, w)
  end.
End Manager.

(** ** The host directories *)

(** The components of a list are plain names. *)
Ltac goods := repeat first [apply Forall_nil_2 | apply Forall_cons_2]; done.

(** A SHA-256 digest in hexadecimal, as the registry library only accepts. *)
Definition hex_char (c : Ascii.ascii) : bool := in_range 48 57 (byte_of c) || in_range 97 102 (byte_of c).
Definition hex_digest (h : string) : bool :=
  (String.length h =? 64) && forallb hex_char (String.list_ascii_of_string h).

Lemma hex_no_slash h : forallb hex_char (String.list_ascii_of_string h) = true -> str_mem slash h = false.
Proof.
  induction h as [|c h IH]; [done|]. simpl. intros [Hc Hh]%andb_true_iff. rewrite IH by done.
  rewrite orb_false_r. apply not_true_is_false. intros H. apply bool_decide_eq_true in H. by subst c.
Qed.

Lemma hex_good h : hex_digest h = true -> good_comp h /\ h <> "loka-overlay".
Proof.
  unfold hex_digest. intros [Hl Hc]%andb_true_iff. apply Nat.eqb_eq in Hl.
  split; [|by intros ->]. split_and!; [by intros ->..|by apply hex_no_slash].
Qed.

Lemma hex_of_digest h : hex_of (digest_of h) = h.
Proof. reflexivity. Qed.

Section Host.
Context (umask : Z) (dataDir : string) (sha256 : string -> string) (candidates : list string).
Context (Hdata : rooted dataDir).

Definition layersPath' : Path := comps dataDir ++ ["layers"].
Notation L := layersPath'.
Notation OV := (L ++ ["loka-overlay"]).

Lemma lokaOverlayDir_comps : comps (lokaOverlayDir dataDir) = OV /\ rooted (lokaOverlayDir dataDir).
Proof using Hdata.
  unfold lokaOverlayDir, layersPath'.
  destruct (comps_PathJoin_flat dataDir ["layers"; "loka-overlay"]) as [-> Hr]; [done| |done|].
  - repeat constructor; done.
  - split; [by rewrite <-app_assoc|done].
Qed.

Lemma layerDirOf_comps h : good_comp h -> comps (layerDirOf dataDir h) = L ++ [h] /\ rooted (layerDirOf dataDir h).
Proof using Hdata.
  intros Hh. unfold layerDirOf, layersBaseDir, layersPath'.
  destruct (comps_PathJoin_flat dataDir ["layers"]) as [Hc Hr]; [done|repeat constructor; done|done|].
  destruct (comps_PathJoin_flat (PathJoin [dataDir; "layers"]) [h]) as [-> Hr'];
    [done|by constructor|done|]. by rewrite Hc.
Qed.

Lemma in_overlay_comps rest :
  Forall good_comp rest -> rest <> [] -> comps (in_overlay dataDir rest) = OV ++ rest.
Proof using Hdata.
  intros Hg Hne. destruct lokaOverlayDir_comps as [Hc Hr]. unfold in_overlay.
  destruct (comps_PathJoin_flat (lokaOverlayDir dataDir) rest) as [-> _]; [done..|]. by rewrite Hc.
Qed.

Lemma layers_good : Forall good_comp L.
Proof using Type. apply Forall_app. split; [apply clean_comps_good|by repeat constructor]. Qed.

Lemma overlay_ne q : OV ++ q <> [].
Proof using Type. unfold layersPath'. by destruct (comps dataDir). Qed.

(** The directories the manager makes are not reached through links, and the
    supervisor of the overlay is a file. *)
Definition overlay_dirs : list Path :=
  [["usr"; "local"; "bin"]; ["usr"; "bin"]; ["bin"]; ["sbin"]].
Definition supervisorPath : Path := OV ++ ["usr"; "local"; "bin"; "loka-supervisor"].

Record host_ok (fs : FS) : Prop := {
  ho_ok : fs_ok fs;
  ho_dirs : forall d, d ∈ overlay_dirs -> plain_path fs (OV ++ d);
  ho_sup : fs !! supervisorPath = None \/ exists m d, fs !! supervisorPath = Some (NFile m d);
  ho_images : plain_path fs (comps dataDir ++ ["images"]);
  ho_cache : plain_path fs (comps dataDir ++ ["cache"; "images"])
}.

Lemma host_layers fs : host_ok fs -> plain_path fs OV.
Proof using Type.
  intros Hh. apply (plain_prefix _ _ ["bin"]), (ho_dirs _ Hh). unfold overlay_dirs. clear. set_solver.
Qed.

(** A step of [ensureLokaOverlay]: the rest of the host stays. *)
Record overlay_step (fs fs' : FS) : Prop := {
  os_ok : host_ok fs';
  os_frame : forall k, fs' !! k = fs !! k \/ (exists q, k = OV ++ q) \/
    (fs !! k = None /\ (exists m, fs' !! k = Some (NDir m)) /\ exists b, L = k ++ b);
  os_dirs : forall k, dir_here fs k -> dir_here fs' k
}.

Lemma overlay_step_refl fs : host_ok fs -> overlay_step fs fs.
Proof using Type. intros Hh. constructor; [done|by left|done]. Qed.

Lemma overlay_step_trans fs1 fs2 fs3 : overlay_step fs1 fs2 -> overlay_step fs2 fs3 -> overlay_step fs1 fs3.
Proof using Type.
  intros [H1 F1 D1] [H2 F2 D2]. constructor; [done| |auto]. intros k.
  destruct (F2 k) as [->|[?|(Hn & Hd & Hp)]]; [apply F1|by right; left|].
  destruct (F1 k) as [Heq|[?|(Hn1 & [m Hm] & _)]]; [|by right; left|congruence].
  right; right. by rewrite <-Heq.
Qed.

Lemma dirs_made_dir p fs fs' k : dirs_made p fs fs' -> dir_here fs k -> dir_here fs' k.
Proof using Type.
  intros Hch [->|[m Hm]]; [by left|right]. destruct (Hch k) as [->|(Hn & _)]; [by exists m|congruence].
Qed.

Lemma dirs_made_host p fs fs' :
  host_ok fs -> fs_ok fs' -> dirs_made p fs fs' -> (forall b, p <> supervisorPath ++ b) -> host_ok fs'.
Proof using Type.
  intros Hh Hok Hch Hp. constructor; [done|..].
  - intros d Hd. eapply dirs_made_plain; [done|]. by apply Hh.
  - destruct (Hch supervisorPath) as [->|(_ & _ & b & Hb)]; [apply Hh|by destruct (Hp b)].
  - eapply dirs_made_plain; [done|]. apply Hh.
  - eapply dirs_made_plain; [done|]. apply Hh.
Qed.

Lemma overlay_prefix k b d : OV ++ d = k ++ b -> (exists q, k = OV ++ q) \/ exists b', L = k ++ b'.
Proof using Type.
  intros Heq. apply app_eq_inv in Heq as [(q & Hq & _)|(q & -> & _)]; [|by left; exists q].
  destruct (decide (q = [])) as [->|Hne]; [rewrite app_nil_r in Hq; left; exists []; by rewrite app_nil_r|].
  destruct (path_snoc q Hne) as (a & c & ->). rewrite app_assoc in Hq. apply app_inj_tail in Hq as [-> _].
  right. by exists a.
Qed.

Lemma overlay_mkdir fs d :
  host_ok fs -> d = [] \/ d ∈ overlay_dirs ->
  let fs' := MkdirAll umask (OV ++ d) 493 fs in overlay_step fs fs' /\ dir_here fs' (OV ++ d).
Proof using Type.
  intros Hh Hd. assert (plain_path fs (OV ++ d)) as Hpl.
  { destruct Hd as [->|Hd]; [rewrite app_nil_r; by apply host_layers|by apply Hh]. }
  assert (Forall good_comp d) as Hgd.
  { destruct Hd as [->|Hd]; [constructor|].
    assert (Forall (Forall good_comp) overlay_dirs) as Hall.
    { goods. }
    rewrite Forall_forall in Hall. by apply Hall. }
  destruct (MkdirAll_plain umask fs (OV ++ d) 493) as (fs' & Hm & Hok & Hdir & Hch).
  - apply Hh.
  - apply Forall_app. split; [|done]. apply Forall_app. split; [apply layers_good|by repeat constructor].
  - done.
  - unfold MkdirAll. rewrite Hm. cbn [snd]. split; [|done]. constructor.
    + eapply dirs_made_host; [done..|]. intros b Hb. unfold supervisorPath in Hb.
      rewrite <-!(app_assoc OV) in Hb. apply (inj (OV ++.)) in Hb.
      destruct Hd as [->|Hd]; [done|]. unfold overlay_dirs in Hd. clear -Hd Hb. set_solver.
    + intros k. destruct (Hch k) as [->|(H1 & H2 & b & Hb)]; [by left|right].
      destruct (overlay_prefix _ _ _ Hb); [by left|by right].
    + intros k. by eapply dirs_made_dir.
Qed.

Lemma images_layers_apart (rest b : list string) : comps dataDir ++ "images" :: b <> L ++ rest.
Proof using Type. unfold layersPath'. rewrite <-app_assoc. by intros H%(inj (comps dataDir ++.)). Qed.
Lemma cache_layers_apart (rest b : list string) : comps dataDir ++ "cache" :: b <> L ++ rest.
Proof using Type. unfold layersPath'. rewrite <-app_assoc. by intros H%(inj (comps dataDir ++.)). Qed.

(** A new node below the layers that is on none of the paths of [host_ok]. *)
Lemma insert_host fs p n :
  host_ok fs -> fs_ok (<[p := n]> fs) -> (exists rest, p = L ++ rest) ->
  (forall d b, d ∈ overlay_dirs -> OV ++ d <> p ++ b) ->
  p <> supervisorPath \/ (exists m d, n = NFile m d) -> host_ok (<[p := n]> fs).
Proof using Type.
  intros Hh Hok [rest ->] Hd Hs. constructor; [done|..].
  - intros d Hin a b Heq Ha. rewrite lookup_insert_ne; [by apply (ho_dirs _ Hh d Hin a b)|].
    intros <-. by apply (Hd d b).
  - destruct (decide (L ++ rest = supervisorPath)) as [Heq|Hne].
    + rewrite Heq, lookup_insert_eq. destruct Hs as [|(m & d & ->)]; [done|]. right. by exists m, d.
    + rewrite lookup_insert_ne by done. apply Hh.
  - intros a b Heq Ha. rewrite lookup_insert_ne; [by apply (ho_images _ Hh a b)|].
    intros <-. rewrite <-app_assoc in Heq. by apply (images_layers_apart (rest ++ b) []).
  - intros a b Heq Ha. rewrite lookup_insert_ne; [by apply (ho_cache _ Hh a b)|].
    intros <-. rewrite <-app_assoc in Heq. by apply (cache_layers_apart (rest ++ b) ["images"]).
Qed.

Lemma insert_overlay_step fs q n :
  host_ok fs -> host_ok (<[OV ++ q := n]> fs) -> ~ dir_here fs (OV ++ q) -> overlay_step fs (<[OV ++ q := n]> fs).
Proof using Type.
  intros Hh Hh' Hd. constructor; [done|..].
  - intros k. destruct (decide (k = OV ++ q)) as [->|Hne]; [by right; left; exists q|left].
    by rewrite lookup_insert_ne.
  - intros k [->|[m Hm]]; [by left|right]. exists m. rewrite lookup_insert_ne; [done|].
    intros <-. apply Hd. right. by exists m.
Qed.

Lemma overlay_file fs m d :
  host_ok fs -> dir_here fs (OV ++ ["usr"; "local"; "bin"]) -> overlay_step fs (<[supervisorPath := NFile m d]> fs).
Proof using Type.
  intros Hh Hd. assert (~ dir_here fs supervisorPath) as Hnd.
  { intros [Hn|[m' Hm]]; [by apply overlay_ne in Hn|].
    destruct (ho_sup _ Hh) as [Hn|(m1 & d1 & Hn)]; congruence. }
  apply insert_overlay_step; [done| |done]. apply insert_host; [done| |unfold supervisorPath; rewrite <-app_assoc; by eexists| |right; by exists m, d].
  - intros a c n Ha.
    assert (dir_here fs a) as Hda.
    { destruct (decide (a ++ [c] = supervisorPath)) as [Heq|Hne].
      - unfold supervisorPath in Heq.
        change ["usr"; "local"; "bin"; "loka-supervisor"] with (["usr"; "local"; "bin"] ++ ["loka-supervisor"]) in Heq.
        rewrite app_assoc in Heq. by apply app_inj_tail in Heq as [-> _].
      - rewrite lookup_insert_ne in Ha by done. by apply (ho_ok _ Hh) in Ha. }
    destruct Hda as [->|[m' Hm]]; [by left|right]. exists m'. rewrite lookup_insert_ne; [done|].
    intros <-. apply Hnd. right. by exists m'.
  - intros x b Hx Heq. unfold supervisorPath in Heq. rewrite <-!(app_assoc OV) in Heq.
    apply (inj (OV ++.)) in Heq. unfold overlay_dirs in Hx. clear -Hx Heq. set_solver.
Qed.

Definition link_dirs : list Path := [["bin"]; ["sbin"]; ["usr"; "bin"]].

Lemma overlay_good q : Forall good_comp q -> Forall good_comp (OV ++ q).
Proof using Type.
  intros Hq. apply Forall_app. split; [|done]. apply Forall_app. split; [apply layers_good|by repeat constructor].
Qed.

Lemma overlay_symlink t fs d cmd :
  host_ok fs -> d ∈ link_dirs -> good_comp cmd -> dir_here fs (OV ++ d) ->
  overlay_step fs (or_same (Symlink t (OV ++ d ++ [cmd]) fs) fs).
Proof using Type.
  intros Hh Hd Hc Hdir. unfold Symlink. destruct (t =? "")%string; [by apply overlay_step_refl|].
  unfold create_node.
  assert (Forall good_comp d) as Hgd.
  { assert (Forall (Forall good_comp) link_dirs) as Hall.
    { goods. }
    rewrite Forall_forall in Hall. by apply Hall. }
  rewrite (namei_real _ _ [] (OV ++ d ++ [cmd])).
  - simpl. rewrite node_at_lookup by apply overlay_ne.
    destruct (fs !! (OV ++ d ++ [cmd])) as [n|] eqn:Hn; [by apply overlay_step_refl|]. simpl.
    apply insert_overlay_step; [done| |].
    + apply insert_host; [done| | |..].
      * apply fs_ok_insert; [apply Hh|apply overlay_ne|done|].
        by rewrite app_assoc, removelast_snoc.
      * exists ("loka-overlay" :: d ++ [cmd]). by rewrite <-app_assoc.
      * intros x b Hx Heq. rewrite <-!(app_assoc OV) in Heq. apply (inj (OV ++.)) in Heq.
        unfold overlay_dirs in Hx. unfold link_dirs in Hd. clear -Hx Hd Heq. set_solver.
      * left. intros Heq. unfold supervisorPath in Heq. apply (inj (OV ++.)) in Heq.
        unfold link_dirs in Hd. clear -Hd Heq. set_solver.
    + intros [H|[m Hm]]; [by apply overlay_ne in H|congruence].
  - apply Hh.
  - apply overlay_good. apply Forall_app. split; [done|by constructor].
  - apply overlay_ne.
  - simpl. by rewrite app_assoc, removelast_snoc.
  - by left.
Qed.

Lemma sup_namei fs :
  host_ok fs -> dir_here fs (OV ++ ["usr"; "local"; "bin"]) ->
  namei max_links fs [] (comps (supervisorDst dataDir)) true = Some supervisorPath /\
  ((exists m d, node_at fs supervisorPath = Some (NFile m d)) \/ node_at fs supervisorPath = None).
Proof using Hdata.
  intros Hh Hd. unfold supervisorDst. rewrite in_overlay_comps by (done || by repeat constructor).
  fold supervisorPath. rewrite node_at_lookup by apply overlay_ne. split.
  - rewrite (namei_real _ _ [] supervisorPath); [done|apply Hh| | | |right].
    + apply overlay_good. by repeat constructor.
    + apply overlay_ne.
    + simpl. unfold supervisorPath.
      change ["usr"; "local"; "bin"; "loka-supervisor"] with (["usr"; "local"; "bin"] ++ ["loka-supervisor"]).
      by rewrite app_assoc, removelast_snoc.
    + simpl. destruct (ho_sup _ Hh) as [->|(m & d & ->)]; done.
  - destruct (ho_sup _ Hh) as [Hn|(m & d & Hn)]; [by right|left; by exists m, d].
Qed.

Lemma copyBinary_step src fs :
  host_ok fs -> dir_here fs (OV ++ ["usr"; "local"; "bin"]) ->
  overlay_step fs (copyBinary umask src (supervisorDst dataDir) fs).
Proof using Hdata.
  intros Hh Hd. unfold copyBinary. destruct (stat fs (comps src)) as [[m|m d|t]|]; try by apply overlay_step_refl.
  unfold WriteFile. destruct (sup_namei fs Hh Hd) as [-> Hn]. simpl.
  destruct Hn as [(m' & d' & ->)| ->]; simpl; by apply overlay_file.
Qed.

Lemma Chmod_step m fs :
  host_ok fs -> dir_here fs (OV ++ ["usr"; "local"; "bin"]) ->
  overlay_step fs (Chmod (supervisorDst dataDir) m fs).
Proof using Hdata.
  intros Hh Hd. unfold Chmod. destruct (sup_namei fs Hh Hd) as [-> Hn]. simpl.
  destruct Hn as [(m' & d' & ->)| ->]; simpl; [by apply overlay_file|by apply overlay_step_refl].
Qed.

Lemma make_symlinks_step t fs d dcomps names :
  host_ok fs -> dcomps ∈ link_dirs ->
  (forall cmd, good_comp cmd -> comps (in_overlay dataDir (d ++ [cmd])) = OV ++ dcomps ++ [cmd]) ->
  Forall good_comp names -> dir_here fs (OV ++ dcomps) ->
  overlay_step fs (make_symlinks dataDir t d names fs).
Proof using Type.
  intros Hh Hd Hc Hn. revert fs Hh. unfold make_symlinks.
  induction names as [|cmd names IH]; intros fs Hh Hdir; [by apply overlay_step_refl|].
  apply Forall_cons in Hn as [Hcmd Hn]. cbn [foldl]. rewrite Hc by done.
  pose proof (overlay_symlink t fs dcomps cmd Hh Hd Hcmd Hdir) as Hs.
  eapply overlay_step_trans; [exact Hs|]. apply IH; [done|apply Hs|by apply Hs].
Qed.

Lemma usr_bin_comps rest :
  Forall good_comp rest -> comps (in_overlay dataDir ("usr/bin" :: rest)) = OV ++ ["usr"; "bin"] ++ rest.
Proof using Hdata.
  intros Hr. transitivity (comps (in_overlay dataDir ("usr" :: "bin" :: rest))).
  - destruct lokaOverlayDir_comps as [_ Hroot]. unfold in_overlay, PathJoin.
    assert (forall x, x <> "" -> filter (fun e => e <> "") (lokaOverlayDir dataDir :: x :: rest)
            = lokaOverlayDir dataDir :: x :: rest) as Hf.
    { intros x Hx. apply (filter_all (fun e => e <> "")). intros y [->|[->|Hy]%elem_of_cons]%elem_of_cons;
        [by intros Heq; rewrite Heq in Hroot|done|].
      rewrite Forall_forall in Hr. by apply Hr in Hy as (? & _). }
    assert (filter (fun e => e <> "") (lokaOverlayDir dataDir :: "usr" :: "bin" :: rest)
            = lokaOverlayDir dataDir :: "usr" :: "bin" :: rest) as Hf2.
    { apply (filter_all (fun e => e <> "")).
      intros y [->|[->|[->|Hy]%elem_of_cons]%elem_of_cons]%elem_of_cons;
        [by intros Heq; rewrite Heq in Hroot|done|done|].
      rewrite Forall_forall in Hr. by apply Hr in Hy as (? & _). }
    rewrite Hf, Hf2 by done. by destruct rest.
  - apply in_overlay_comps; [by constructor; [|constructor]|done].
Qed.

Lemma names_good : Forall good_comp bin_links /\ Forall good_comp sbin_links /\ Forall good_comp usr_bin_links.
Proof using Type. split_and!; goods. Qed.

Lemma sup_dir fs n :
  host_ok fs -> stat fs (comps (supervisorDst dataDir)) = Some n -> dir_here fs (OV ++ ["usr"; "local"; "bin"]).
Proof using Hdata.
  intros Hh Hs. unfold supervisorDst in Hs. rewrite in_overlay_comps in Hs by (done || by repeat constructor).
  fold supervisorPath in Hs. destruct (ho_sup _ Hh) as [Hn|(m & d & Hn)].
  - rewrite stat_missing in Hs; [done| |apply overlay_ne| |done].
    + apply overlay_good. by repeat constructor.
    + intros a b Heq Ha. destruct (decide (b = [])) as [->|Hb]; [rewrite app_nil_r in Heq; subst a; by left|].
      destruct (path_snoc b Hb) as (b' & c & ->). unfold supervisorPath in Heq.
      change ["usr"; "local"; "bin"; "loka-supervisor"] with (["usr"; "local"; "bin"] ++ ["loka-supervisor"]) in Heq.
      rewrite (app_assoc OV), (app_assoc a) in Heq. apply app_inj_tail in Heq as [Heq _].
      apply (ho_dirs _ Hh ["usr"; "local"; "bin"]) with b'; [by left|done|done].
  - apply (ho_ok _ Hh _ "loka-supervisor" (NFile m d)). rewrite <-app_assoc. exact Hn.
Qed.

(** The overlay is made or repaired, and nothing else is touched. *)
Lemma ensureLokaOverlay_step fs :
  host_ok fs ->
  let fs' := ensureLokaOverlay umask dataDir sha256 candidates fs in overlay_step fs fs' /\ dir_here fs' OV.
Proof using Hdata.
  intros Hh fs'. subst fs'. unfold ensureLokaOverlay.
  destruct (needsCreate dataDir sha256 candidates fs) eqn:Hnc; cbn [negb].
  2:{ split; [by apply overlay_step_refl|]. unfold needsCreate in Hnc.
      destruct (stat fs (comps (supervisorDst dataDir))) as [n|] eqn:Hs; [|done].
      by eapply dir_here_prefix; [apply Hh|eapply sup_dir]. }
  assert (comps (lokaOverlayDir dataDir) = OV ++ []) as H0.
  { rewrite app_nil_r. apply lokaOverlayDir_comps. }
  assert (dir_of (supervisorDst dataDir) = OV ++ ["usr"; "local"; "bin"]) as H1.
  { unfold dir_of, supervisorDst. rewrite in_overlay_comps by (done || by repeat constructor).
    change ["usr"; "local"; "bin"; "loka-supervisor"] with (["usr"; "local"; "bin"] ++ ["loka-supervisor"]).
    by rewrite app_assoc, removelast_snoc. }
  rewrite H0, H1, usr_bin_comps, !in_overlay_comps by (done || by repeat constructor).
  destruct names_good as (Hn1 & Hn2 & Hn3).
  destruct (overlay_mkdir fs [] Hh (or_introl eq_refl)) as [S1 D1].
  set (fs1 := MkdirAll umask (OV ++ []) 493 fs) in *.
  destruct (overlay_mkdir fs1 ["usr"; "local"; "bin"]) as [S2 D2]; [apply S1|right; by left|].
  set (fs2 := MkdirAll umask (OV ++ ["usr"; "local"; "bin"]) 493 fs1) in *.
  set (fs3 := match findSupervisor candidates fs2 with
              | Some src => Chmod (supervisorDst dataDir) 493 (copyBinary umask src (supervisorDst dataDir) fs2)
              | None => fs2 end).
  assert (overlay_step fs2 fs3) as S3.
  { unfold fs3. destruct (findSupervisor candidates fs2) as [src|]; [|apply overlay_step_refl, S2].
    pose proof (copyBinary_step src fs2 (os_ok _ _ S2) D2) as Sc. eapply overlay_step_trans; [exact Sc|].
    apply Chmod_step; [apply Sc|by apply Sc]. }
  destruct (overlay_mkdir fs3 ["bin"]) as [S4 D4]; [apply S3|right; set_solver|].
  set (fs4 := MkdirAll umask (OV ++ ["bin"]) 493 fs3) in *.
  destruct (overlay_mkdir fs4 ["sbin"]) as [S5 D5]; [apply S4|right; set_solver|].
  set (fs5 := MkdirAll umask (OV ++ ["sbin"]) 493 fs4) in *.
  destruct (overlay_mkdir fs5 ["usr"; "bin"]) as [S6 D6]; [apply S5|right; set_solver|].
  set (fs6 := MkdirAll umask (OV ++ ["usr"; "bin"]) 493 fs5) in *.
  assert (overlay_step fs6 (make_symlinks dataDir "busybox" ["bin"] bin_links fs6)) as S7.
  { apply (make_symlinks_step _ _ ["bin"] ["bin"]); [apply S6|by left| |done|by apply S6, S5].
    intros cmd Hc. rewrite in_overlay_comps; [done|by goods|done]. }
  set (fs7 := make_symlinks dataDir "busybox" ["bin"] bin_links fs6) in *.
  assert (overlay_step fs7 (make_symlinks dataDir "../bin/busybox" ["sbin"] sbin_links fs7)) as S8.
  { apply (make_symlinks_step _ _ ["sbin"] ["sbin"]); [apply S7|by right; left| |done|by apply S7, S6].
    intros cmd Hc. rewrite in_overlay_comps; [done|by goods|done]. }
  set (fs8 := make_symlinks dataDir "../bin/busybox" ["sbin"] sbin_links fs7) in *.
  assert (overlay_step fs8 (make_symlinks dataDir "../../bin/busybox" ["usr/bin"] usr_bin_links fs8)) as S9.
  { apply (make_symlinks_step _ _ ["usr/bin"] ["usr"; "bin"]); [apply S8|by right; right; left| |done|by apply S8, S7].
    intros cmd Hc. apply (usr_bin_comps [cmd]). by constructor. }
  assert (overlay_step fs1 (make_symlinks dataDir "../../bin/busybox" ["usr/bin"] usr_bin_links fs8)) as S.
  { repeat (eapply overlay_step_trans; [eassumption|]). by apply overlay_step_refl, S9. }
  split; [by eapply overlay_step_trans|]. apply S. by rewrite app_nil_r in D1.
Qed.

(** *** Layers beside each other *)

(** Everything below the layers but one of them stays. *)
Definition other_layers (h : string) (fs fs' : FS) : Prop :=
  forall h' q, h' <> h -> fs' !! (L ++ h' :: q) = fs !! (L ++ h' :: q).

Lemma layers_longer h q b : L <> (L ++ h :: q) ++ b.
Proof using Type. rewrite <-app_assoc. intros H. by apply app_ne_self in H. Qed.

Lemma overlay_other fs fs' : overlay_step fs fs' -> other_layers "loka-overlay" fs fs'.
Proof using Type.
  intros Hs h' q Hne. destruct (os_frame _ _ Hs (L ++ h' :: q)) as [Heq|[[q' Heq]|(_ & _ & b & Hb)]]; [done| |].
  - rewrite <-app_assoc in Heq. apply (inj (L ++.)) in Heq. by simplify_eq/=.
  - by apply layers_longer in Hb.
Qed.

Lemma layer_path_good h : good_comp h -> Forall good_comp (L ++ [h]).
Proof using Type. intros Hh. apply Forall_app. split; [apply layers_good|by constructor]. Qed.

Lemma layer_path_plain fs h :
  host_ok fs -> fs !! (L ++ [h]) = None \/ (exists m, fs !! (L ++ [h]) = Some (NDir m)) -> plain_path fs (L ++ [h]).
Proof using Type.
  intros Hh Hn a b Heq Ha. destruct (decide (b = [])) as [->|Hb]; [rewrite app_nil_r in Heq; by subst a|].
  destruct (path_snoc b Hb) as (b' & c & ->). rewrite app_assoc in Heq. apply app_inj_tail in Heq as [Heq _].
  apply (plain_prefix _ _ ["loka-overlay"] (host_layers _ Hh) a b' Heq Ha).
Qed.

(** Nothing of [host_ok] lies in the directory of a layer. *)
Lemma layer_off h p q b : h <> "loka-overlay" -> p = OV ++ q -> p <> (L ++ [h]) ++ b.
Proof using Type.
  intros Hne -> Heq. rewrite <-!app_assoc in Heq. apply (inj (L ++.)) in Heq. by simplify_eq/=.
Qed.

(** Changes in a layer's directory keep the host in order. *)
Lemma layer_host h fs fs' :
  h <> "loka-overlay" -> host_ok fs -> fs_ok fs' ->
  (forall k, (forall q, k <> (L ++ [h]) ++ q) -> fs' !! k = fs !! k \/
    (fs !! k = None /\ exists m, fs' !! k = Some (NDir m)) /\ k <> supervisorPath) ->
  host_ok fs'.
Proof using Type.
  intros Hne Hh Hok Hf.
  assert (forall p, plain_path fs p -> (forall a b, p = a ++ b -> forall q, a <> (L ++ [h]) ++ q) -> plain_path fs' p) as Hpl.
  { intros p Hp Hoff a b Heq Ha. destruct (Hf a (Hoff a b Heq)) as [->|((_ & Hd) & _)]; [by apply (Hp a b)|by right]. }
  constructor; [done|..].
  - intros d Hd. apply Hpl; [by apply Hh|]. intros a b Heq q Hq.
    rewrite Hq, <-(app_assoc (L ++ [h])) in Heq. by apply (layer_off h (OV ++ d) d (q ++ b)).
  - destruct (Hf supervisorPath) as [->|(_ & Hn)]; [|apply Hh|done].
    intros q Hq. by apply (layer_off h supervisorPath ["usr"; "local"; "bin"; "loka-supervisor"] q).
  - apply Hpl; [apply Hh|]. intros a b Heq q Hq. rewrite Hq, <-!app_assoc in Heq.
    by apply (images_layers_apart ([h] ++ q ++ b) []).
  - apply Hpl; [apply Hh|]. intros a b Heq q Hq. rewrite Hq, <-!app_assoc in Heq.
    by apply (cache_layers_apart ([h] ++ q ++ b) ["images"]).
Qed.

Lemma remove_layer h fs :
  good_comp h -> h <> "loka-overlay" -> host_ok fs ->
  let fs' := RemoveAll (comps (layerDirOf dataDir h)) fs in
  host_ok fs' /\ fs' !! (L ++ [h]) = None /\ other_layers h fs fs'.
Proof using Hdata.
  intros Hg Hne Hh fs'. subst fs'. destruct (layerDirOf_comps h Hg) as [-> _].
  rewrite RemoveAll_plain; [|apply Hh|by apply layer_path_good|by apply (plain_prefix _ _ ["loka-overlay"]), host_layers].
  split_and!.
  - apply (layer_host h fs); [done|done|apply removeAll_ok; [by destruct L|apply Hh]|].
    intros k Hk. left. rewrite lookup_removeAll. destruct (strip (L ++ [h]) k) as [q|] eqn:Hs; [|done].
    apply strip_Some in Hs. by destruct (Hk q).
  - by rewrite lookup_removeAll, strip_refl.
  - intros h' q Hh'. rewrite lookup_removeAll, strip_both. simpl. by rewrite decide_False.
Qed.

Lemma remove_elsewhere a b fs :
  host_ok fs -> Forall good_comp (a ++ [b]) -> plain_path fs (comps dataDir ++ a) ->
  (exists x r, a = x :: r /\ x <> "layers") ->
  let fs' := RemoveAll (comps dataDir ++ a ++ [b]) fs in
  host_ok fs' /\ (forall rest, fs' !! (L ++ rest) = fs !! (L ++ rest)).
Proof using Type.
  intros Hh Hg Hpl (x & r & -> & Hx) fs'. subst fs'. rewrite app_assoc.
  rewrite RemoveAll_plain; [|apply Hh| |done].
  2:{ rewrite <-app_assoc. apply Forall_app. split; [apply clean_comps_good|done]. }
  assert (forall rest, removeAll ((comps dataDir ++ x :: r) ++ [b]) fs !! (L ++ rest) = fs !! (L ++ rest)) as Hl.
  { intros rest. rewrite lookup_removeAll. unfold layersPath'. rewrite <-!app_assoc, strip_both. simpl.
    by rewrite decide_False. }
  assert (forall p, plain_path fs p -> plain_path (removeAll ((comps dataDir ++ x :: r) ++ [b]) fs) p) as Hp.
  { intros p Hp k t Heq Hk. rewrite lookup_removeAll. destruct (strip _ k); [by left|by apply (Hp k t)]. }
  split; [|done]. constructor; [apply removeAll_ok; [by destruct (comps dataDir)|apply Hh]|..].
  - intros d Hd. by apply Hp, Hh.
  - unfold supervisorPath. rewrite <-app_assoc, Hl, app_assoc. apply Hh.
  - apply Hp, Hh.
  - apply Hp, Hh.
Qed.

(** The directory of a layer that is not there is made, *)
Lemma make_layer h fs :
  good_comp h -> h <> "loka-overlay" -> host_ok fs -> fs !! (L ++ [h]) = None ->
  let fs' := MkdirAll umask (comps (layerDirOf dataDir h)) 493 fs in
  host_ok fs' /\ (exists m, fs' !! (L ++ [h]) = Some (NDir m)) /\ below (L ++ [h]) fs' = ∅ /\
  other_layers h fs fs'.
Proof using Hdata.
  intros Hg Hne Hh Hn fs'. subst fs'. destruct (layerDirOf_comps h Hg) as [-> _].
  destruct (MkdirAll_plain umask fs (L ++ [h]) 493) as (fs1 & Hm & Hok1 & Hd1 & Hch);
    [apply Hh|by apply layer_path_good|apply layer_path_plain; [done|by left]|].
  assert (host_ok fs1) as Hh1.
  { eapply dirs_made_host; [done..|]. intros b Hb. unfold supervisorPath in Hb. rewrite <-!app_assoc in Hb.
    apply (inj (L ++.)) in Hb. by simplify_eq/=. }
  unfold MkdirAll. rewrite Hm. cbn [snd].
  assert (forall q, q <> [] -> fs1 !! ((L ++ [h]) ++ q) = None) as Hfree.
  { intros q Hq. destruct (Hch ((L ++ [h]) ++ q)) as [->|(_ & _ & b & Hb)].
    - apply fs_ok_below_none; [apply Hh| |done]. intros [H|[m H]]; [by destruct L|congruence].
    - rewrite <-app_assoc in Hb. apply app_ne_self in Hb. by destruct q. }
  split_and!; [done| | |].
  - destruct Hd1 as [H|H]; [by destruct L|done].
  - apply map_eq. intros q. rewrite lookup_empty. destruct (decide (q = [])) as [->|Hq]; [by rewrite below_root|].
    rewrite lookup_below by done. by apply Hfree.
  - intros h' q Hh'. destruct (Hch (L ++ h' :: q)) as [->|(_ & _ & b & Hb')]; [done|].
    rewrite <-app_assoc in Hb'. apply (inj (L ++.)) in Hb'. by simplify_eq/=.
Qed.

(** and the layer is unpacked into it completely; once more changes nothing. *)
Lemma extract_layer h items fs :
  good_comp h -> h <> "loka-overlay" -> host_ok fs -> (exists m, fs !! (L ++ [h]) = Some (NDir m)) ->
  below (L ++ [h]) fs = ∅ \/ below (L ++ [h]) fs = layer_tree umask items -> layer_ok items ->
  exists fs', extractTarToDir umask (mkLayerTar (item_entry <$> items) true) (layerDirOf dataDir h) fs = (true, fs') /\
    host_ok fs' /\ (exists m, fs' !! (L ++ [h]) = Some (NDir m)) /\
    below (L ++ [h]) fs' = layer_tree umask items /\ other_layers h fs fs'.
Proof using Hdata.
  intros Hg Hne Hh [m Hm] Hb0 Hit. destruct (layerDirOf_comps h Hg) as [Hc Hr].
  destruct Hb0 as [Hb0|Hb0].
  2:{ exists fs. split_and!; [|done|by exists m|done|by intros ? ?].
      apply unpack_again; [done..|apply Hh|by rewrite Hc]. }
  destruct (unpack_layer umask (layerDirOf dataDir h) Hr items fs) as (fs' & He & Hok' & Hb & Hf);
    [done|apply Hh|rewrite Hc; right; by exists m| |].
  { intros q Hq. rewrite Hc, <-lookup_below, Hb0 by done. apply lookup_empty. }
  rewrite Hc in Hb, Hf. exists fs'. split_and!; [done| | |done|].
  - apply (layer_host h fs); [done..|]. intros k Hk. left. apply Hf. intros q _. apply Hk.
  - exists m. rewrite Hf; [done|]. intros q Hq Heq. apply app_ne_self in Heq. done.
  - intros h' q Hh'. apply Hf. intros q' _ Heq. rewrite <-app_assoc in Heq. apply (inj (L ++.)) in Heq.
    by simplify_eq/=.
Qed.

Lemma other_below h h' fs fs' : other_layers h fs fs' -> h' <> h -> below (L ++ [h']) fs' = below (L ++ [h']) fs.
Proof using Type.
  intros Ho Hne. apply map_eq. intros q. destruct (decide (q = [])) as [->|Hq]; [by rewrite !below_root|].
  rewrite !lookup_below, <-!app_assoc by done. by apply Ho.
Qed.

Lemma other_dir h fs fs' : other_layers h fs fs' -> h <> "loka-overlay" -> dir_here fs OV -> dir_here fs' OV.
Proof using Type.
  intros Ho Hne [H|[m H]]; [by left|right]. exists m. by rewrite (Ho "loka-overlay" []).
Qed.
End Host.

(** ** References to layers *)

Definition is_ready (i : Image) : bool := bool_decide (i_Status i = ImageStatusReady).
(** How often an image counts for a digest. *)
Fixpoint occurs (d : string) (l : list ImageLayer) : nat :=
  match l with
  | [] => 0
  | x :: l => (if decide (il_Digest x = d) then 1 else 0) + occurs d l
  end.
Definition image_refs (d : string) (i : Image) : nat := if is_ready i then occurs d (i_Layers i) else 0.
Definition total_refs (d : string) (m : gmap string Image) : nat :=
  sum_list_with (fun e => image_refs d e.2) (map_to_list m).

(** Counts as the map of references keeps them. *)
Definition refs_exact (c : string -> nat) (refs : gmap string Z) : Prop :=
  forall d, refs !! d = if decide (c d = 0) then None else Some (Z.of_nat (c d)).

Lemma sum_list_with_perm {A} (f : A -> nat) (l k : list A) : l ≡ₚ k -> sum_list_with f l = sum_list_with f k.
Proof. induction 1; simpl; lia. Qed.

Lemma total_refs_insert d m id i :
  m !! id = None -> total_refs d (<[id := i]> m) = image_refs d i + total_refs d m.
Proof. intros Hn. unfold total_refs. by rewrite (sum_list_with_perm _ _ _ (map_to_list_insert m id i Hn)). Qed.

Lemma total_refs_delete d m id i :
  m !! id = Some i -> total_refs d m = image_refs d i + total_refs d (delete id m).
Proof.
  intros Hi. rewrite <-(insert_delete_id m id i Hi) at 1. apply total_refs_insert, lookup_delete_eq.
Qed.

Lemma total_refs_replace d m id i i' :
  m !! id = Some i -> total_refs d (<[id := i']> m) + image_refs d i = total_refs d m + image_refs d i'.
Proof.
  intros Hi. rewrite <-insert_delete_eq, total_refs_insert by apply lookup_delete_eq.
  rewrite (total_refs_delete d m id i Hi). lia.
Qed.

Lemma total_refs_pos d m : 0 < total_refs d m <-> exists id i, m !! id = Some i /\ 0 < image_refs d i.
Proof.
  induction m as [|id i m Hn IH] using map_ind.
  - unfold total_refs. rewrite map_to_list_empty. simpl. split; [lia|]. intros (id & i & Hi & _).
    by rewrite lookup_empty in Hi.
  - rewrite total_refs_insert by done. split.
    + intros H. destruct (decide (0 < image_refs d i)) as [Hp|Hz]; [exists id, i; by rewrite lookup_insert_eq|].
      destruct IH as [IH _]. destruct IH as (id' & i' & Hi & Hp); [lia|]. exists id', i'.
      rewrite lookup_insert_ne; [done|]. intros ->. congruence.
    + intros (id' & i' & Hi & Hp). destruct (decide (id = id')) as [->|Hne].
      * rewrite lookup_insert_eq in Hi. simplify_eq. lia.
      * rewrite lookup_insert_ne in Hi by done.
        assert (0 < total_refs d m) by (apply IH; by exists id', i'). lia.
Qed.

Lemma occurs_pos d l : 0 < occurs d l <-> d ∈ il_Digest <$> l.
Proof.
  induction l as [|x l IH]; simpl; [split; [lia|by intros ?%elem_of_nil]|].
  rewrite elem_of_cons, <-IH. case_decide; naive_solver lia.
Qed.

Lemma add_refs_exact c refs l :
  refs_exact c refs -> refs_exact (fun d => c d + occurs d l) (add_refs l refs).
Proof.
  revert c refs. induction l as [|x l IH]; intros c refs Hr.
  - intros d. simpl. rewrite Nat.add_0_r. apply Hr.
  - cbn [add_refs foldl]. specialize (IH (fun d => c d + (if decide (il_Digest x = d) then 1 else 0))
      (<[il_Digest x := (default 0 (refs !! il_Digest x) + 1)%Z]> refs)).
    intros d. unfold add_refs in IH. rewrite IH; [simpl; by rewrite Nat.add_assoc|].
    intros d'. destruct (decide (il_Digest x = d')) as [<-|Hne].
    + rewrite lookup_insert_eq, Hr. rewrite (decide_False (P := c (il_Digest x) + 1 = 0)) by lia. f_equal.
      case_decide as Hz; simpl; [rewrite Hz|]; lia.
    + rewrite lookup_insert_ne, Hr, Nat.add_0_r by done. done.
Qed.

(** ** The manager at work *)

Section World.
Context (umask : Z) (dataDir : string) (sha256 : string -> string) (candidates : list string).
Context (Hdata : rooted dataDir).
(** What the layer of a digest contains. *)
Context (content : string -> list LayerItem) (Hcontent : forall h, hex_digest h = true -> layer_ok (content h)).

Notation L := (layersPath' dataDir).
Notation OV := (L ++ ["loka-overlay"]).
Notation layer_path h := (L ++ [h]).

Definition in_flight (ph : PullPhase) : option Image :=
  match ph with
  | PFetch img | PLayers img _ _ | PMake img _ _ _ | PUnpack img _ _ _ => Some img
  | _ => None
  end.
Definition no_pull (w : ImageManager) : Prop :=
  map_Forall (fun _ p => in_flight (pt_phase p) = None) (im_pulls w).

(** The steps of the manager while every download of a layer succeeds, and images are
    deleted only between pulls.  Several pulls may be under way. *)
Inductive image_step : ImageManager -> ImageManager -> Prop :=
  | is_begin order t reference w :
      im_pulls w !! t = None ->
      image_step w (pull_begin order t reference w)
  | is_lock id now t reference w :
      im_pulls w !! t = Some (mkPull reference PChecked) -> im_images w !! id = None -> good_comp id ->
      image_step w (pull_lock id now t reference w)
  | is_fetch answer t reference img w :
      im_pulls w !! t = Some (mkPull reference (PFetch img)) ->
      (forall r, answer = Some r -> Forall (fun l => hex_digest l.1 = true) (ri_Layers r)) ->
      image_step w (pull_fetch answer t reference img w)
  | is_look t reference img done_ h todo w :
      im_pulls w !! t = Some (mkPull reference (PLayers img done_ (h :: todo))) ->
      image_step w (pull_look dataDir t reference img done_ (h :: todo) w)
  | is_make t reference img done_ h todo w :
      im_pulls w !! t = Some (mkPull reference (PMake img done_ h todo)) ->
      image_step w (pull_make umask dataDir t reference img done_ h todo w)
  | is_unpack t reference img done_ h todo w :
      im_pulls w !! t = Some (mkPull reference (PUnpack img done_ h todo)) ->
      image_step w (pull_unpack umask dataDir (Some (mkLayerTar (item_entry <$> content h) true))
                      t reference img done_ h todo w)
  | is_publish t reference img done_ w :
      im_pulls w !! t = Some (mkPull reference (PLayers img done_ [])) ->
      image_step w (pull_publish umask dataDir sha256 candidates t reference img done_ w)
  | is_wake t owner reference w :
      im_pulls w !! t = Some (mkPull reference (PWaiting owner)) ->
      image_step w (pull_wake t owner reference w)
  | is_delete id w : no_pull w -> image_step w (DeleteImage dataDir id w).2
  | is_sweep now order w : no_pull w -> image_step w (image_sweep dataDir now order w).

(** *** The invariant *)

(** The directory of a layer is there; a pull is about to unpack into it; it has the
    content of the layer, or nothing as long as a pull is about to unpack. *)
Definition present (fs : FS) (h : string) : Prop := exists m, fs !! layer_path h = Some (NDir m).
Definition unpacking (w : ImageManager) (h : string) : Prop :=
  exists t p img d td, im_pulls w !! t = Some p /\ pt_phase p = PUnpack img d h td.
Definition layer_state (w : ImageManager) (h : string) : Prop :=
  present (im_fs w) h /\
  (below (layer_path h) (im_fs w) = layer_tree umask (content h) \/
   below (layer_path h) (im_fs w) = ∅ /\ unpacking w h).

Definition image_dirs (img : Image) (hs : list string) : Prop :=
  Forall (fun h => hex_digest h = true) hs /\ il_Digest <$> i_Layers img = digest_of <$> hs.

Definition layers_ok (w : ImageManager) (img : Image) (done_ todo : list string) : Prop :=
  im_images w !! i_ID img = Some img /\ image_dirs img (done_ ++ todo) /\ is_ready img = false /\
  Forall (present (im_fs w)) done_.
Definition thread_ok (w : ImageManager) (ph : PullPhase) : Prop :=
  match ph with
  | PFetch img =>
      im_images w !! i_ID img = Some img /\ i_Layers img = [] /\ is_ready img = false
  | PLayers img done_ todo => layers_ok w img done_ todo
  | PMake img done_ h todo => layers_ok w img done_ (h :: todo)
  | PUnpack img done_ h todo => layers_ok w img done_ (h :: todo) /\ present (im_fs w) h
  | _ => True
  end.
(** The layers whose directories a pull relies on. *)
Definition claimed (ph : PullPhase) : list string :=
  match ph with
  | PLayers _ d _ | PMake _ d _ _ => d
  | PUnpack _ d h _ => d ++ [h]
  | _ => []
  end.

Definition image_ok (w : ImageManager) (id : string) (img : Image) : Prop :=
  i_ID img = id /\ good_comp id /\
  if is_ready img then
    exists hs, image_dirs img hs /\ Forall (present (im_fs w)) hs /\ dir_here (im_fs w) OV /\
      i_RootfsPath img = Join (lokaOverlayDir dataDir :: (layerDirOf dataDir <$> hs)) ":"
  else i_Layers img = [] \/ exists t p, im_pulls w !! t = Some p /\ in_flight (pt_phase p) = Some img.

Record image_inv (w : ImageManager) : Prop := {
  ii_host : host_ok dataDir (im_fs w);
  ii_layers : forall h, hex_digest h = true -> im_fs w !! layer_path h = None \/ layer_state w h;
  ii_refs : refs_exact (fun d => total_refs d (im_images w)) (im_layerRefs w);
  ii_images : map_Forall (image_ok w) (im_images w);
  ii_pulls : map_Forall (fun _ p => thread_ok w (pt_phase p)) (im_pulls w);
  ii_unique : forall t t' p p' img, im_pulls w !! t = Some p -> im_pulls w !! t' = Some p' ->
    in_flight (pt_phase p) = Some img -> in_flight (pt_phase p') = Some img -> t = t';
  ii_used : forall h, hex_digest h = true -> is_Some (im_fs w !! layer_path h) ->
    0 < total_refs (digest_of h) (im_images w) \/
    exists t p, im_pulls w !! t = Some p /\ h ∈ claimed (pt_phase p)
}.

Lemma digest_inj h h' : digest_of h = digest_of h' -> h = h'.
Proof using Type. intros Heq. by rewrite <-(hex_of_digest h), Heq. Qed.

Lemma present_same h fs fs' :
  (forall q, fs' !! (L ++ h :: q) = fs !! (L ++ h :: q)) -> present fs h -> present fs' h.
Proof using Type. intros F [m Hm]. exists m. by rewrite (F []). Qed.
Lemma present_other h h' fs fs' : other_layers dataDir h fs fs' -> h' <> h -> present fs h' -> present fs' h'.
Proof using Type. intros Ho Hne. apply present_same. intros q. by apply Ho. Qed.

Lemma below_same h fs fs' :
  (forall q, fs' !! (L ++ h :: q) = fs !! (L ++ h :: q)) -> below (layer_path h) fs' = below (layer_path h) fs.
Proof using Type.
  intros F. apply map_eq. intros q. destruct (decide (q = [])) as [->|Hq]; [by rewrite !below_root|].
  rewrite !lookup_below, <-!app_assoc by done. apply F.
Qed.

Lemma thread_image w ph img :
  thread_ok w ph -> in_flight ph = Some img -> im_images w !! i_ID img = Some img /\ is_ready img = false.
Proof using Type.
  intros H Hf. destruct ph as [| |i|i d td|i d h td|i d h td|]; try done; injection Hf as ->; simpl in H.
  - by destruct H as (? & _ & ?).
  - by destruct H as (? & _ & ? & _).
  - by destruct H as (? & _ & ? & _).
  - by destruct H as [(? & _ & ? & _) _].
Qed.

(** Where neither the layer nor the pulls that unpack it change. *)
Lemma layer_state_same h w w' :
  (forall q, im_fs w' !! (L ++ h :: q) = im_fs w !! (L ++ h :: q)) ->
  (unpacking w h -> unpacking w' h) -> layer_state w h -> layer_state w' h.
Proof using Type.
  intros F Hu [Hp Hb]. split; [by eapply present_same|]. rewrite (below_same _ _ _ F).
  destruct Hb as [Hb|[Hb ?]]; [by left|by right; auto].
Qed.
Lemma layers_keep w w' :
  (forall h, hex_digest h = true -> forall q, im_fs w' !! (L ++ h :: q) = im_fs w !! (L ++ h :: q)) ->
  (forall h, unpacking w h -> unpacking w' h) ->
  (forall h, hex_digest h = true -> im_fs w !! layer_path h = None \/ layer_state w h) ->
  forall h, hex_digest h = true -> im_fs w' !! layer_path h = None \/ layer_state w' h.
Proof using Type.
  intros F Hu Hl h Hx. destruct (Hl h Hx) as [Hn|Hs]; [left; by rewrite (F h Hx [])|right].
  apply (layer_state_same h w); [by apply F|apply Hu|done].
Qed.

(** A pull that goes on keeps those that unpack. *)
Lemma unpacking_insert w w' t p p' h :
  im_pulls w !! t = Some p -> im_pulls w' = <[t := p']> (im_pulls w) ->
  (forall img d td, pt_phase p <> PUnpack img d h td) -> unpacking w h -> unpacking w' h.
Proof using Type.
  intros Hp Hw Hno (t' & x & img & d & td & Hx & Hph). exists t', x, img, d, td. split; [|done].
  rewrite Hw, lookup_insert_ne; [done|]. intros <-. rewrite Hp in Hx. injection Hx as <-. by eapply Hno.
Qed.

Lemma drop_layers c l w :
  host_ok dataDir (im_fs w) -> refs_exact (fun d => c d + occurs d l) (im_layerRefs w) ->
  Forall (fun x => exists h, hex_digest h = true /\ il_Digest x = digest_of h) l ->
  let w' := foldl (drop_layer dataDir) w l in
  (im_images w' = im_images w /\ im_pullLocks w' = im_pullLocks w /\ im_pulls w' = im_pulls w) /\
  host_ok dataDir (im_fs w') /\ refs_exact c (im_layerRefs w') /\
  (forall h, hex_digest h = true \/ h = "loka-overlay" ->
    (forall q, im_fs w' !! (L ++ h :: q) = im_fs w !! (L ++ h :: q)) \/
    (im_fs w' !! layer_path h = None /\ c (digest_of h) = 0 /\ hex_digest h = true)) /\
  (forall h, hex_digest h = true -> 0 < occurs (digest_of h) l -> c (digest_of h) = 0 -> im_fs w' !! layer_path h = None).
Proof using Hdata.
  revert w. induction l as [|x l IH]; intros w Hh Hr Hl.
  { simpl. split_and!; [done..| |by left|intros; lia]. intros d. rewrite Hr. by rewrite Nat.add_0_r. }
  apply Forall_cons in Hl as [(h & Hx & Hd) Hl]. destruct (hex_good h Hx) as [Hg Hne]. cbn [foldl].
  assert (exists w1, drop_layer dataDir w x = w1 /\
    (im_images w1 = im_images w /\ im_pullLocks w1 = im_pullLocks w /\ im_pulls w1 = im_pulls w) /\
    host_ok dataDir (im_fs w1) /\ refs_exact (fun d => c d + occurs d l) (im_layerRefs w1) /\
    other_layers dataDir h (im_fs w) (im_fs w1) /\
    ((c (digest_of h) + occurs (digest_of h) l = 0 /\ im_fs w1 !! layer_path h = None) \/
     (c (digest_of h) + occurs (digest_of h) l <> 0 /\ im_fs w1 = im_fs w))) as (w1 & -> & (E1 & E2 & E3) & H1 & R1 & O1 & C1).
  { eexists. split; [reflexivity|].
    assert (default 0 (im_layerRefs w !! digest_of h) = Z.of_nat (c (digest_of h) + (1 + occurs (digest_of h) l)))%Z as Hn0.
    { rewrite Hr. cbn [occurs]. by rewrite Hd, (decide_True (P := digest_of h = digest_of h)), decide_False by (done || lia). }
    unfold drop_layer. rewrite Hd. cbv zeta. rewrite !Hn0.
    assert (forall d, digest_of h <> d -> (if decide (c d + occurs d (x :: l) = 0) then None else
      Some (Z.of_nat (c d + occurs d (x :: l)))) = if decide (c d + occurs d l = 0) then None else
      Some (Z.of_nat (c d + occurs d l))) as Hother.
    { intros d Hd'. cbn [occurs]. by rewrite Hd, (decide_False (P := digest_of h = d)). }
    destruct (Z.leb_spec (Z.of_nat (c (digest_of h) + (1 + occurs (digest_of h) l)) - 1) 0) as [Hz|Hz].
    - destruct (remove_layer dataDir Hdata h (im_fs w) Hg Hne Hh) as (Hh' & Hn & Ho).
      rewrite hex_of_digest. split_and!; [done..| |done|left; split; [lia|done]].
      intros d. simpl. destruct (decide (digest_of h = d)) as [<-|Hd'].
      + rewrite lookup_delete_eq. by rewrite decide_True by lia.
      + rewrite lookup_delete_ne, lookup_insert_ne, Hr by done. by apply Hother.
    - split_and!; [done..| |done|right; split; [lia|done]].
      intros d. simpl. destruct (decide (digest_of h = d)) as [<-|Hd'].
      + rewrite lookup_insert_eq. rewrite decide_False by lia. f_equal. lia.
      + rewrite lookup_insert_ne, Hr by done. by apply Hother. }
  destruct (IH w1 H1 R1 Hl) as ((E1' & E2' & E3') & H2 & R2 & F2 & N2). split_and!; [congruence..|done|done| |].
  - intros h' Hh'. destruct (F2 h' Hh') as [F|F]; [|by right].
    destruct (decide (h' = h)) as [->|Hhh]; [|left; intros q; rewrite F; by apply O1].
    destruct C1 as [[Hz Hn]|[_ Hfs]]; [right|left; intros q; by rewrite F, Hfs].
    split_and!; [rewrite F; exact Hn|lia|done].
  - intros h' Hh' Hocc Hz. cbn [occurs] in Hocc. rewrite Hd in Hocc.
    destruct (decide (0 < occurs (digest_of h') l)) as [Hpos|Hno]; [by apply N2|].
    destruct (decide (digest_of h = digest_of h')) as [Heq|]; [|lia]. apply digest_inj in Heq as <-.
    destruct C1 as [[_ Hn]|[Hz' _]]; [|lia]. destruct (F2 h (or_introl Hx)) as [F|(F & _)]; [|done].
    by rewrite F.
Qed.

(** *** Steps of pulls *)

Lemma image_ok_mono w w' id img :
  (forall h, hex_digest h = true -> present (im_fs w) h -> present (im_fs w') h) ->
  (dir_here (im_fs w) OV -> dir_here (im_fs w') OV) ->
  (forall t p, im_pulls w !! t = Some p -> in_flight (pt_phase p) = Some img ->
     exists t' p', im_pulls w' !! t' = Some p' /\ in_flight (pt_phase p') = Some img) ->
  image_ok w id img -> image_ok w' id img.
Proof using Type.
  intros Hl Hd Ht (Hid & Hg & H). split; [done|]. split; [done|]. destruct (is_ready img).
  - destruct H as (hs & [Hhs Hdig] & Hall & Hov & Hr). exists hs. split_and!; [done| |by apply Hd|done].
    rewrite Forall_forall in Hall, Hhs |- *. intros h Hh. apply Hl; auto.
  - destruct H as [H|(t & p & Hp & Hf)]; [by left|right]. by eapply Ht.
Qed.

(** A thread that works on no image changes its phase. *)
Lemma inv_idle_thread w t ph reference :
  image_inv w -> (forall p, im_pulls w !! t = Some p -> in_flight (pt_phase p) = None) -> in_flight ph = None ->
  image_inv (with_pulls <[t := mkPull reference ph]> w).
Proof using Type.
  intros Hi Hold Hph. assert (forall t' p, im_pulls w !! t' = Some p -> in_flight (pt_phase p) <> None ->
    <[t := mkPull reference ph]> (im_pulls w) !! t' = Some p) as Hkeep.
  { intros t' p Hp Hf. rewrite lookup_insert_ne; [done|]. intros <-. by apply Hf, Hold. }
  constructor; [apply Hi| |apply Hi| | | |].
  - apply (layers_keep w); [done| |apply Hi]. intros h (t' & p & img & d & td & Hp & E).
    exists t', p, img, d, td. split; [|done]. apply Hkeep; [done|by rewrite E].
  - intros id img Himg. apply (image_ok_mono w); [by intros|by intros| |by apply (ii_images _ Hi)].
    intros t' p Hp Hf. exists t', p. split; [apply Hkeep; [done|congruence]|done].
  - apply map_Forall_insert_2; [by destruct ph|]. apply Hi.
  - intros t1 t2 p1 p2 img H1 H2 F1 F2. simpl in H1, H2.
    destruct (decide (t = t1)) as [<-|]; [rewrite lookup_insert_eq in H1; by simplify_eq/=; congruence|].
    destruct (decide (t = t2)) as [<-|]; [rewrite lookup_insert_eq in H2; by simplify_eq/=; congruence|].
    rewrite lookup_insert_ne in H1, H2 by done. by eapply (ii_unique _ Hi).
  - intros h Hh Hs. destruct (ii_used _ Hi h Hh Hs) as [|(t' & p & Hp & Hin)]; [by left|right].
    exists t', p. split; [|done]. apply Hkeep; [done|]. intros Hno.
    destruct (pt_phase p); try done; by apply elem_of_nil in Hin.
Qed.

Lemma layers_ok_mono w id img' refs' locks' fs' bucket' pulls' img d td :
  (forall h, hex_digest h = true -> present (im_fs w) h -> present fs' h) -> i_ID img <> id ->
  layers_ok w img d td -> layers_ok (mkIM (<[id := img']> (im_images w)) refs' locks' fs' bucket' pulls') img d td.
Proof using Type.
  intros Hm Hne (H1 & [H2 H2'] & H3 & H4). split_and!; [by simpl; rewrite lookup_insert_ne|by split|done|].
  apply Forall_app in H2 as [H2 _]. rewrite Forall_forall in H2, H4 |- *. intros h Hin. apply Hm; auto.
Qed.

(** A thread goes on with its image. *)
Lemma inv_advance w t reference ph img img' ph' fs' refs' locks' :
  image_inv w -> im_pulls w !! t = Some (mkPull reference ph) -> in_flight ph = Some img -> i_ID img' = i_ID img ->
  let w' := mkIM (<[i_ID img := img']> (im_images w)) refs' locks' fs' (im_bucket w)
              (<[t := mkPull reference ph']> (im_pulls w)) in
  host_ok dataDir fs' ->
  (forall h, hex_digest h = true -> present (im_fs w) h -> present fs' h) ->
  (dir_here (im_fs w) OV -> dir_here fs' OV) ->
  (forall h, hex_digest h = true -> fs' !! layer_path h = None \/ layer_state w' h) ->
  refs_exact (fun d => total_refs d (im_images w')) refs' ->
  thread_ok w' ph' -> image_ok w' (i_ID img) img' -> (in_flight ph' = None \/ in_flight ph' = Some img') ->
  (forall h, hex_digest h = true -> is_Some (fs' !! layer_path h) ->
     (is_Some (im_fs w !! layer_path h) /\ h ∉ claimed ph) \/ h ∈ claimed ph' \/
     0 < total_refs (digest_of h) (im_images w')) ->
  is_ready img = false ->
  image_inv w'.
Proof using Type.
  intros Hi Ht Hf Hid w' Hh Hmono Hov Hlay Hrefs Hth Himg Hph Hused Hnr.
  assert (im_images w !! i_ID img = Some img) as Hcur.
  { by eapply thread_image, Hf; apply (ii_pulls _ Hi _ _ Ht). }
  assert (forall t' p, t' <> t -> im_pulls w !! t' = Some p -> thread_ok w (pt_phase p) ->
          (forall i, in_flight (pt_phase p) = Some i -> i_ID i <> i_ID img) -> thread_ok w' (pt_phase p)) as Hothers.
  { intros t' p Hne Hp H Hd. destruct (pt_phase p) as [| |i|i d td|i d h td|i d h td|]; try done; simpl in H |- *.
    - unfold w'. simpl. rewrite lookup_insert_ne; [done|]. intros Heq. by apply (Hd i).
    - eapply layers_ok_mono; [done|by apply Hd|done].
    - eapply layers_ok_mono; [done|by apply Hd|done].
    - destruct H as [H Hpr]. split; [by eapply layers_ok_mono; [|apply Hd|]|]. apply Hmono; [|done].
      destruct H as (_ & [Hhex _] & _). by apply Forall_app in Hhex as [_ [? _]%Forall_cons]. }
  assert (forall t' p, t' <> t -> im_pulls w !! t' = Some p -> im_pulls w' !! t' = Some p) as Hkeep.
  { intros t' p Hne Hp. simpl. by rewrite lookup_insert_ne. }
  assert (forall t' p img0, t' <> t -> im_pulls w !! t' = Some p -> in_flight (pt_phase p) = Some img0 ->
          i_ID img0 <> i_ID img) as Hdist.
  { intros t' p img0 Hne Hp Hf0 Heq. apply Hne. apply (ii_unique _ Hi t' t p (mkPull reference ph) img); [done|done| |done].
    destruct (thread_image _ _ _ (ii_pulls _ Hi _ _ Hp) Hf0). congruence. }
  constructor; [done|done|done|..].
  - intros id i Hl. simpl in Hl. destruct (decide (i_ID img = id)) as [<-|Hne].
    { rewrite lookup_insert_eq in Hl. by simplify_eq. }
    rewrite lookup_insert_ne in Hl by done. apply (image_ok_mono w); [done|done| |by apply (ii_images _ Hi)].
    intros t' p Hp Hf'. exists t', p. split; [|done]. apply Hkeep; [|done]. intros ->.
    destruct (ii_images _ Hi _ _ Hl) as [Hii _]. rewrite Ht in Hp. simplify_eq/=.
  - intros t' p Hp. simpl in Hp. destruct (decide (t = t')) as [<-|Hne].
    { rewrite lookup_insert_eq in Hp. by simplify_eq/=. }
    rewrite lookup_insert_ne in Hp by done. pose proof (ii_pulls _ Hi _ _ Hp) as H. cbv beta in H.
    apply (Hothers t'); [done|done|done|]. intros i. by apply Hdist with t'.
  - intros t1 t2 p1 p2 i H1 H2 F1 F2. simpl in H1, H2.
    destruct (decide (t = t1)) as [<-|N1]; destruct (decide (t = t2)) as [<-|N2]; [done|..].
    + rewrite lookup_insert_eq in H1. rewrite lookup_insert_ne in H2 by done. injection H1 as <-. simpl in F1.
      destruct Hph as [Hph|Hph]; rewrite Hph in F1; [done|]. injection F1 as <-.
      by destruct (Hdist _ _ _ (not_eq_sym N2) H2 F2).
    + rewrite lookup_insert_eq in H2. rewrite lookup_insert_ne in H1 by done. injection H2 as <-. simpl in F2.
      destruct Hph as [Hph|Hph]; rewrite Hph in F2; [done|]. injection F2 as <-.
      by destruct (Hdist _ _ _ (not_eq_sym N1) H1 F1).
    + rewrite lookup_insert_ne in H1, H2 by done. by eapply (ii_unique _ Hi).
  - intros h Hh' Hs. destruct (Hused h Hh' Hs) as [[Hs0 Hd]|[Hin|Hpos]]; [| |by left].
    2:{ right. exists t, (mkPull reference ph'). simpl. by rewrite lookup_insert_eq. }
    destruct (ii_used _ Hi h Hh' Hs0) as [Hpos|(t' & p & Hp & Hin)].
    + left. simpl. pose proof (total_refs_replace (digest_of h) _ _ _ img' Hcur) as Hrep.
      unfold image_refs at 1 in Hrep. rewrite Hnr in Hrep. lia.
    + right. exists t', p. split; [|done]. apply Hkeep; [|done]. intros ->.
      rewrite Ht in Hp. by simplify_eq/=.
Qed.

#[local] Ltac keep_layers :=
  match goal with Hi : image_inv ?w |- forall h, _ -> _ \/ layer_state ?x h => refine (layers_keep w x _ _ (ii_layers _ Hi)) end.
#[local] Ltac flat_world := cbn [im_images im_layerRefs im_pullLocks im_fs im_bucket im_pulls].

Lemma store_current w img img' :
  im_images w !! i_ID img = Some img -> i_ID img' = i_ID img ->
  alter (fun _ => img') (i_ID img') (im_images w) = <[i_ID img := img']> (im_images w).
Proof using Type.
  intros Hc ->. apply map_eq. intros k. destruct (decide (k = i_ID img)) as [->|Hne].
  - by rewrite lookup_alter_eq, Hc, lookup_insert_eq.
  - by rewrite lookup_alter_ne, lookup_insert_ne.
Qed.

Lemma inv_lock id now t reference w :
  image_inv w -> im_pulls w !! t = Some (mkPull reference PChecked) -> im_images w !! id = None -> good_comp id ->
  image_inv (pull_lock id now t reference w).
Proof using Type.
  intros Hi Ht Hid Hg. unfold pull_lock. destruct (im_pullLocks w !! reference).
  { apply inv_idle_thread; [done| |done]. intros p Hp. by simplify_eq. }
  set (img := new_image id reference now).
  assert (forall t' p, im_pulls w !! t' = Some p -> in_flight (pt_phase p) <> None ->
    <[t := mkPull reference (PFetch img)]> (im_pulls w) !! t' = Some p) as Hkeep.
  { intros t' p Hp Hf. rewrite lookup_insert_ne; [done|]. intros <-. by simplify_eq/=. }
  assert (forall t' p i, im_pulls w !! t' = Some p -> in_flight (pt_phase p) = Some i -> i_ID i <> id) as Hdist.
  { intros t' p i Hp Hf Heq. destruct (thread_image _ _ _ (ii_pulls _ Hi _ _ Hp) Hf). congruence. }
  constructor; simpl.
  - apply Hi.
  - refine (layers_keep w (with_locks _ (with_images _ (with_pulls _ w))) _ _ (ii_layers _ Hi)); [done|].
    intros h. by eapply (unpacking_insert w _ t).
  - intros d. rewrite total_refs_insert by done. apply (ii_refs _ Hi).
  - apply map_Forall_insert_2.
    + split_and!; [done|apply Hg..|]. right. exists t, (mkPull reference (PFetch img)). simpl. by rewrite lookup_insert_eq.
    + intros id' i Hl. apply (image_ok_mono w); [by intros|by intros| |by apply (ii_images _ Hi)].
      intros t' p Hp Hf. exists t', p. split; [apply Hkeep; [done|congruence]|done].
  - apply map_Forall_insert_2; [split_and!; [apply lookup_insert_eq|done|done]|].
    intros t' p Hp. pose proof (ii_pulls _ Hi _ _ Hp) as H. cbv beta in H.
    destruct (pt_phase p) as [| |i|i d td|i d h td|i d h td|] eqn:E; try done; simpl in H |- *;
      unfold layers_ok; simpl;
      (rewrite lookup_insert_ne; [done|]; intros Heq; apply (Hdist t' p i); [done|by rewrite E|done]).
  - intros t1 t2 p1 p2 i H1 H2 F1 F2.
    destruct (decide (t = t1)) as [<-|N1]; destruct (decide (t = t2)) as [<-|N2]; [done|..].
    + rewrite lookup_insert_eq in H1. rewrite lookup_insert_ne in H2 by done. injection H1 as <-. injection F1 as <-.
      by destruct (Hdist _ _ _ H2 F2).
    + rewrite lookup_insert_eq in H2. rewrite lookup_insert_ne in H1 by done. injection H2 as <-. injection F2 as <-.
      by destruct (Hdist _ _ _ H1 F1).
    + rewrite lookup_insert_ne in H1, H2 by done. by eapply (ii_unique _ Hi).
  - intros h Hh Hs. rewrite total_refs_insert by done.
    destruct (ii_used _ Hi h Hh Hs) as [Hp|(t' & p & Hp & Hin)]; [left; lia|right].
    exists t', p. split; [|done]. apply Hkeep; [done|]. intros Hno.
    destruct (pt_phase p); try done; by apply elem_of_nil in Hin.
Qed.

(** The image of a thread is replaced by one that counts for nothing. *)
Lemma refs_same w img img' :
  image_inv w -> im_images w !! i_ID img = Some img -> is_ready img = false -> is_ready img' = false ->
  refs_exact (fun d => total_refs d (<[i_ID img := img']> (im_images w))) (im_layerRefs w).
Proof using Type.
  intros Hi Hc H1 H2 d. pose proof (total_refs_replace d _ _ _ img' Hc) as H. unfold image_refs in H.
  rewrite H1, H2 in H. rewrite (ii_refs _ Hi). replace (total_refs d (<[i_ID img:=img']> (im_images w)))
    with (total_refs d (im_images w)) by lia. done.
Qed.

Lemma inv_fetch answer t reference img w :
  image_inv w -> im_pulls w !! t = Some (mkPull reference (PFetch img)) ->
  (forall r, answer = Some r -> Forall (fun l => hex_digest l.1 = true) (ri_Layers r)) ->
  image_inv (pull_fetch answer t reference img w).
Proof using Type.
  intros Hi Ht Hr. pose proof (ii_pulls _ Hi _ _ Ht) as H. simpl in H. destruct H as (Hc & Hl & Hn).
  destruct (ii_images _ Hi _ _ Hc) as (_ & Hg & _). unfold pull_fetch. destruct answer as [r|].
  - set (img' := set_layers _ _ _). unfold store_image, with_images, with_pulls. flat_world.
    rewrite (store_current w img img') by done.
    eapply (inv_advance w); [exact Hi|exact Ht|reflexivity|reflexivity|apply Hi|by intros|by intros| |..].
    + keep_layers; [done|]. intros h. by eapply (unpacking_insert w _ t).
    + by apply refs_same.
    + split_and!; [apply lookup_insert_eq| |done|by constructor]. split.
      * rewrite app_nil_l. apply Forall_fmap. by apply Hr.
      * simpl. rewrite <-!list_fmap_compose. by apply list_fmap_ext.
    + split_and!; [done|apply Hg..|]. right. eexists t, _. split; [apply lookup_insert_eq|done].
    + by right.
    + intros h Hh Hs. left. split; [done|]. apply not_elem_of_nil.
    + done.
  - unfold pull_end, store_image, with_images, with_pulls, with_locks. flat_world.
    rewrite (store_current w img (set_status ImageStatusFailed img)) by done.
    eapply (inv_advance w); [exact Hi|exact Ht|reflexivity|reflexivity|apply Hi|by intros|by intros| |..].
    + keep_layers; [done|]. intros h. by eapply (unpacking_insert w _ t).
    + by apply refs_same.
    + done.
    + split_and!; [done|apply Hg..|]. by left.
    + by left.
    + intros h Hh Hs. left. split; [done|]. apply not_elem_of_nil.
    + done.
Qed.

Lemma layer_stat fs h :
  host_ok dataDir fs -> hex_digest h = true -> (fs !! layer_path h = None \/ present fs h) ->
  stat fs (comps (layerDirOf dataDir h)) = fs !! layer_path h.
Proof using Hdata.
  intros Hh Hx Hl. destruct (hex_good h Hx) as [Hg Hne]. destruct (layerDirOf_comps dataDir Hdata h Hg) as [-> _].
  destruct Hl as [Hn|[m Hm]].
  - rewrite Hn. apply stat_missing; [by apply layer_path_good|by destruct L|apply layer_path_plain; [done|by left]|done].
  - rewrite Hm. assert (dir_here fs (layer_path h)) as Hd by (right; by exists m).
    destruct (dir_here_stat fs (layer_path h)) as [m' Hs]; [apply Hh|by apply layer_path_good|done|].
    rewrite Hs. unfold stat in Hs. rewrite (namei_real _ _ [] (layer_path h)) in Hs.
    + simpl in Hs. rewrite node_at_lookup in Hs by by destruct L. congruence.
    + apply Hh.
    + by apply layer_path_good.
    + by destruct L.
    + rewrite app_nil_l, removelast_snoc. by apply (ho_ok _ _ Hh _ h (NDir m)).
    + right. simpl. by rewrite Hm.
Qed.

(** A pull on its layers goes on; only its layer changes. *)
Lemma thread_layer w t reference img ph ph' done_ todo h fs' :
  image_inv w -> im_pulls w !! t = Some (mkPull reference ph) ->
  in_flight ph = Some img -> in_flight ph' = Some img -> claimed ph ⊆ claimed ph' ->
  (forall img0 d h' td, ph = PUnpack img0 d h' td -> h' = h) ->
  let w' := mkIM (im_images w) (im_layerRefs w) (im_pullLocks w) fs' (im_bucket w)
              (<[t := mkPull reference ph']> (im_pulls w)) in
  layers_ok w img done_ (h :: todo) ->
  host_ok dataDir fs' -> other_layers dataDir h (im_fs w) fs' ->
  (present (im_fs w) h -> present fs' h) ->
  fs' !! layer_path h = None \/ layer_state w' h ->
  (is_Some (fs' !! layer_path h) -> is_Some (im_fs w !! layer_path h) \/ h ∈ claimed ph') ->
  thread_ok w' ph' -> image_inv w'.
Proof using Type.
  intros Hi Ht Hf Hf' Hcl Hun w' Hlo Hh Ho Hpr Hst Hnew Hth.
  destruct Hlo as (Hc & [Hhex _] & Hn & _). destruct (ii_images _ Hi _ _ Hc) as (_ & Hg & _).
  assert (hex_digest h = true) as Hx by (by apply Forall_app in Hhex as [_ [? _]%Forall_cons]).
  destruct (hex_good h Hx) as [_ Hne].
  assert (w' = mkIM (<[i_ID img := img]> (im_images w)) (im_layerRefs w) (im_pullLocks w) fs' (im_bucket w)
            (<[t := mkPull reference ph']> (im_pulls w))) as Hw by (unfold w'; by rewrite (insert_id _ _ _ Hc)).
  rewrite Hw in *. clear w' Hw.
  eapply (inv_advance w); [exact Hi|exact Ht|exact Hf|reflexivity|done| | | | |done| | | |done].
  - intros h' _. destruct (decide (h' = h)) as [->|Hne']; [done|]. by apply present_other with h.
  - by apply other_dir with h.
  - intros h' Hx'. destruct (decide (h' = h)) as [->|Hne']; [done|].
    destruct (ii_layers _ Hi h' Hx') as [Hnone|Hs]; [left; by rewrite (Ho h' [])|right].
    apply (layer_state_same h' w); [intros q; by apply Ho| |done].
    apply (unpacking_insert w _ t (mkPull reference ph) (mkPull reference ph')); [done|done|].
    intros i d td E. by apply Hne', (Hun i d h' td).
  - simpl. rewrite (insert_id _ _ _ Hc). apply Hi.
  - split_and!; [done|apply Hg..|]. rewrite Hn. right. eexists t, _. split; [apply lookup_insert_eq|done].
  - by right.
  - intros h' Hx' Hs. destruct (decide (h' ∈ claimed ph')) as [Hin|Hin]; [by right; left|left].
    split; [|by intros Hin'; apply Hin, Hcl]. destruct (decide (h' = h)) as [->|Hne']; [by destruct (Hnew Hs)|].
    by rewrite <-(Ho h' []).
Qed.

Lemma layers_hex w img done_ h todo : layers_ok w img done_ (h :: todo) -> hex_digest h = true.
Proof using Type. intros (_ & [Hhex _] & _). by apply Forall_app in Hhex as [_ [? _]%Forall_cons]. Qed.

Lemma layers_snoc w img done_ h todo :
  layers_ok w img done_ (h :: todo) -> present (im_fs w) h -> layers_ok w img (done_ ++ [h]) todo.
Proof using Type.
  intros (H1 & [H2 H2'] & H3 & H4) Hp. split_and!; [done|split; by rewrite <-app_assoc|done|].
  apply Forall_app. split; [done|by constructor].
Qed.

Lemma layer_or_none w h : image_inv w -> hex_digest h = true -> im_fs w !! layer_path h = None \/ present (im_fs w) h.
Proof using Type. intros Hi Hx. destruct (ii_layers _ Hi h Hx) as [?|[? _]]; [by left|by right]. Qed.

(** What the pull's record says survives a change of its layer only. *)
Lemma layers_ok_fs w w' img done_ h todo :
  im_images w' = im_images w -> other_layers dataDir h (im_fs w) (im_fs w') ->
  (present (im_fs w) h -> present (im_fs w') h) ->
  layers_ok w img done_ (h :: todo) -> layers_ok w' img done_ (h :: todo).
Proof using Type.
  intros Him Ho Hp (H1 & H2 & H3 & H4). split_and!; [by rewrite Him|done|done|].
  eapply Forall_impl; [exact H4|]. intros h'. destruct (decide (h' = h)) as [->|Hne]; [done|]. by apply present_other with h.
Qed.

#[local] Ltac claims :=
  first [ intros ? ?; first [done | apply elem_of_app; by left]
        | intros; first [by left | right; apply elem_of_app; right; by left] ].

Lemma inv_look t reference img done_ h todo w :
  image_inv w -> im_pulls w !! t = Some (mkPull reference (PLayers img done_ (h :: todo))) ->
  image_inv (pull_look dataDir t reference img done_ (h :: todo) w).
Proof using Hdata.
  intros Hi Ht. pose proof (ii_pulls _ Hi _ _ Ht) as Hlo. simpl in Hlo. pose proof (layers_hex _ _ _ _ _ Hlo) as Hx.
  unfold pull_look. rewrite (layer_stat _ h (ii_host _ Hi) Hx (layer_or_none w h Hi Hx)).
  assert (forall ph', im_fs w !! layer_path h = None \/ layer_state (with_pulls <[t := mkPull reference ph']> w) h) as Hst.
  { intros ph'. destruct (ii_layers _ Hi h Hx) as [Hn|Hs]; [by left|right].
    apply (layer_state_same h w); [done| |done]. by eapply (unpacking_insert w _ t). }
  destruct (im_fs w !! layer_path h) as [n|] eqn:Hn.
  - assert (present (im_fs w) h) as Hp by (destruct (layer_or_none w h Hi Hx); [congruence|done]).
    eapply (thread_layer w t reference img (PLayers img done_ (h :: todo)) (PLayers img (done_ ++ [h]) todo) done_ todo h (im_fs w));
      [done|done|done|done|claims|done|done|apply Hi|by intros ? ?|done| |claims|].
    + rewrite Hn. apply Hst.
    + by apply layers_snoc.
  - eapply (thread_layer w t reference img (PLayers img done_ (h :: todo)) (PMake img done_ h todo) done_ todo h (im_fs w));
      [done|done|done|done|claims|done|done|apply Hi|by intros ? ?|done|by left|by left|done].
Qed.

Lemma inv_make t reference img done_ h todo w :
  image_inv w -> im_pulls w !! t = Some (mkPull reference (PMake img done_ h todo)) ->
  image_inv (pull_make umask dataDir t reference img done_ h todo w).
Proof using Hdata.
  intros Hi Ht. pose proof (ii_pulls _ Hi _ _ Ht) as Hlo. simpl in Hlo. pose proof (layers_hex _ _ _ _ _ Hlo) as Hx.
  destruct (hex_good h Hx) as [Hg Hne]. unfold pull_make.
  assert (exists fs', MkdirAll umask (comps (layerDirOf dataDir h)) 493 (im_fs w) = fs' /\ host_ok dataDir fs' /\
    other_layers dataDir h (im_fs w) fs' /\ present fs' h /\
    (below (layer_path h) fs' = layer_tree umask (content h) \/ below (layer_path h) fs' = ∅)) as (fs' & Hm & Hh & Ho & Hp & Hb).
  { destruct (ii_layers _ Hi h Hx) as [Hn|[Hp Hb]].
    - destruct (make_layer umask dataDir Hdata h (im_fs w) Hg Hne (ii_host _ Hi) Hn) as (Hh & Hp & Hb & Ho).
      eexists. split_and!; [reflexivity|done|done|done|by right].
    - exists (im_fs w). destruct (layerDirOf_comps dataDir Hdata h Hg) as [-> _]. split_and!; [|apply Hi|by intros ? ?|done|].
      + apply MkdirAll_dir; [apply Hi|by apply layer_path_good|by right].
      + destruct Hb as [Hb|[Hb _]]; [by left|by right]. }
  unfold with_pulls, with_fs. cbn [im_fs im_images im_layerRefs im_pullLocks im_bucket im_pulls]. rewrite Hm.
  assert (unpacking (mkIM (im_images w) (im_layerRefs w) (im_pullLocks w) fs' (im_bucket w)
            (<[t := mkPull reference (PUnpack img done_ h todo)]> (im_pulls w))) h) as Hu.
  { eexists t, _, img, done_, todo. split; [apply lookup_insert_eq|done]. }
  eapply (thread_layer w t reference img (PMake img done_ h todo) (PUnpack img done_ h todo) done_ todo h fs');
    [done|done|done|done|claims|done|done|done|done|done| |claims|].
  - right. split; [done|]. by destruct Hb; [left|right].
  - split; [|done]. apply (layers_ok_fs w); [done|done|done|done].
Qed.

Lemma inv_unpack t reference img done_ h todo w :
  image_inv w -> im_pulls w !! t = Some (mkPull reference (PUnpack img done_ h todo)) ->
  image_inv (pull_unpack umask dataDir (Some (mkLayerTar (item_entry <$> content h) true))
               t reference img done_ h todo w).
Proof using Hdata Hcontent.
  intros Hi Ht. pose proof (ii_pulls _ Hi _ _ Ht) as Hlo. simpl in Hlo. destruct Hlo as [Hlo Hp].
  pose proof (layers_hex _ _ _ _ _ Hlo) as Hx. destruct (hex_good h Hx) as [Hg Hne]. unfold pull_unpack.
  destruct (extract_layer umask dataDir Hdata h (content h) (im_fs w)) as (fs' & He & Hh' & Hp' & Hb' & Ho');
    [done|done|apply Hi|done| |by apply Hcontent|].
  { destruct (ii_layers _ Hi h Hx) as [Hn|[_ [Hb|[Hb _]]]]; [|by right|by left]. destruct Hp. congruence. }
  rewrite He. unfold with_pulls, with_fs. cbn [im_fs im_images im_layerRefs im_pullLocks im_bucket im_pulls].
  eapply (thread_layer w t reference img (PUnpack img done_ h todo) (PLayers img (done_ ++ [h]) todo) done_ todo h fs');
    [done|done|done|done|claims| |done|done|done|done| |claims|].
  - intros i d h' td E. by injection E.
  - right. split; [done|by left].
  - apply layers_snoc; [|done]. by apply (layers_ok_fs w).
Qed.

Lemma inv_publish t reference img done_ w :
  image_inv w -> im_pulls w !! t = Some (mkPull reference (PLayers img done_ [])) ->
  image_inv (pull_publish umask dataDir sha256 candidates t reference img done_ w).
Proof using Hdata.
  intros Hi Ht. pose proof (ii_pulls _ Hi _ _ Ht) as H. simpl in H. destruct H as (Hc & Hdirs & Hn & Hd).
  rewrite app_nil_r in Hdirs. destruct (ii_images _ Hi _ _ Hc) as (_ & Hg & _).
  destruct (ensureLokaOverlay_step umask dataDir sha256 candidates Hdata (im_fs w) (ii_host _ Hi)) as [Hs Hov].
  set (fs' := ensureLokaOverlay umask dataDir sha256 candidates (im_fs w)) in *.
  pose proof (overlay_other _ _ _ Hs) as Ho.
  assert (forall h, hex_digest h = true -> present (im_fs w) h -> present fs' h) as Hsame.
  { intros h Hx. destruct (hex_good h Hx) as [_ Hne]. by apply present_other with "loka-overlay". }
  unfold pull_publish, pull_end, store_image. set (img' := set_paths _ _ img).
  unfold with_images, with_pulls, with_locks, with_refs, with_fs. flat_world.
  rewrite (store_current w img img') by done. fold fs'.
  pose proof (fun d => total_refs_replace d _ _ _ img' Hc) as Hrep.
  assert (forall d, total_refs d (<[i_ID img := img']> (im_images w)) = total_refs d (im_images w) + occurs d (i_Layers img')) as Htot.
  { intros d. specialize (Hrep d). unfold image_refs in Hrep.
    assert (is_ready img' = true) as Hr by (by apply bool_decide_eq_true_2). rewrite Hn, Hr in Hrep. simpl in *. lia. }
  eapply (inv_advance w); [exact Hi|exact Ht|reflexivity|reflexivity|apply Hs|exact Hsame| | | | | | | |done].
  - done.
  - keep_layers; [|intros h; by eapply (unpacking_insert w _ t)].
    intros h Hx q. destruct (hex_good h Hx) as [_ Hne]. by apply Ho.
  - intros d. simpl. rewrite Htot. by apply (add_refs_exact (fun d => total_refs d (im_images w))), Hi.
  - done.
  - split_and!; [done|apply Hg..|]. exists done_. split_and!; [done| |done|done].
    destruct Hdirs as [Hhex _]. rewrite Forall_forall in Hhex, Hd |- *. intros h Hin. apply Hsame; auto.
  - by left.
  - intros h Hx Hsm. destruct (hex_good h Hx) as [_ Hne].
    destruct (decide (h ∈ done_)) as [Hin|Hnin]; [right; right|left].
    + simpl. rewrite Htot. assert (0 < occurs (digest_of h) (i_Layers img')); [|lia].
      apply occurs_pos. simpl. destruct Hdirs as [_ ->]. apply list_elem_of_fmap. by exists h.
    + split; [by rewrite <-(Ho h [])|done].
Qed.

(** *** Deleting *)

Lemma no_pull_layers w id img :
  image_inv w -> no_pull w -> im_images w !! id = Some img -> is_ready img = false -> i_Layers img = [].
Proof using Type.
  intros Hi Hno Himg Hr. destruct (ii_images _ Hi _ _ Himg) as (_ & _ & H). rewrite Hr in H.
  destruct H as [H|(t & p & Hp & Hf)]; [done|]. specialize (Hno _ _ Hp). cbv beta in Hno. congruence.
Qed.

Lemma ready_hex w id img :
  image_inv w -> no_pull w -> im_images w !! id = Some img ->
  Forall (fun x => exists h, hex_digest h = true /\ il_Digest x = digest_of h) (i_Layers img) /\
  forall d, image_refs d img = occurs d (i_Layers img).
Proof using Type.
  intros Hi Hno Himg. unfold image_refs. destruct (is_ready img) eqn:Hr.
  - destruct (ii_images _ Hi _ _ Himg) as (_ & _ & H). rewrite Hr in H. destruct H as (hs & [Hhex Hdig] & _).
    split; [|done]. apply Forall_forall. intros x Hx.
    assert (il_Digest x ∈ il_Digest <$> i_Layers img) as Hin by (apply list_elem_of_fmap; by exists x).
    rewrite Hdig in Hin. apply list_elem_of_fmap in Hin as (h & Hh & Hin). rewrite Forall_forall in Hhex.
    exists h. auto.
  - rewrite (no_pull_layers w id img) by done. done.
Qed.

(** What the rest of the world keeps of a ready image when the file system and the
    images change. *)
Lemma image_ok_keep w w' id img :
  image_inv w -> no_pull w -> image_ok w id img ->
  (is_ready img = true -> forall hs, image_dirs img hs ->
     (forall h, h ∈ hs -> present (im_fs w) h -> present (im_fs w') h)) ->
  (dir_here (im_fs w) OV -> dir_here (im_fs w') OV) -> image_ok w' id img.
Proof using Type.
  intros Hi Hno (Hid & Hg & H) Hl Hov. split; [done|]. split; [done|]. destruct (is_ready img).
  - destruct H as (hs & Hdirs & Hall & Hd & Hr). exists hs. split_and!; [done| |auto|done].
    rewrite Forall_forall in Hall |- *. intros h Hin. by apply (Hl eq_refl hs Hdirs); auto.
  - destruct H as [H|(t & p & Hp & Hf)]; [by left|]. specialize (Hno _ _ Hp). cbv beta in Hno. congruence.
Qed.

Lemma no_unpacking w w' h : no_pull w -> unpacking w h -> unpacking w' h.
Proof using Type.
  intros Hno (t & p & img & d & td & Hp & E). specialize (Hno _ _ Hp). cbv beta in Hno. by rewrite E in Hno.
Qed.

Lemma threads_idle w w' :
  im_pulls w' = im_pulls w -> no_pull w ->
  map_Forall (fun _ p => thread_ok w' (pt_phase p)) (im_pulls w') /\
  (forall t t' p p' img, im_pulls w' !! t = Some p -> im_pulls w' !! t' = Some p' ->
    in_flight (pt_phase p) = Some img -> in_flight (pt_phase p') = Some img -> t = t').
Proof using Type.
  intros -> Hno. split.
  - intros t p Hp. specialize (Hno _ _ Hp). cbv beta in *. by destruct (pt_phase p).
  - intros t t' p p' img Hp _ Hf. specialize (Hno _ _ Hp). cbv beta in Hno. congruence.
Qed.

Lemma used_images w h :
  image_inv w -> no_pull w -> hex_digest h = true -> is_Some (im_fs w !! layer_path h) ->
  0 < total_refs (digest_of h) (im_images w).
Proof using Type.
  intros Hi Hno Hx Hs. destruct (ii_used _ Hi h Hx Hs) as [?|(t & p & Hp & Hin)]; [done|].
  specialize (Hno _ _ Hp). cbv beta in Hno. destruct (pt_phase p); try done; by apply elem_of_nil in Hin.
Qed.

Lemma image_refs_dirs img hs h :
  is_ready img = true -> image_dirs img hs -> h ∈ hs -> 0 < image_refs (digest_of h) img.
Proof using Type.
  intros Hr [_ Hdig] Hin. unfold image_refs. rewrite Hr. apply occurs_pos. rewrite Hdig.
  apply list_elem_of_fmap. by exists h.
Qed.

Lemma inv_delete_locked id w :
  image_inv w -> no_pull w ->
  image_inv (deleteImageLocked dataDir id w) /\ no_pull (deleteImageLocked dataDir id w).
Proof using Hdata.
  intros Hi Hno. unfold deleteImageLocked. destruct (im_images w !! id) as [img|] eqn:Himg; [|done].
  destruct (ready_hex w id img Hi Hno Himg) as [Hhex Hocc].
  destruct (drop_layers (fun d => total_refs d (delete id (im_images w))) (i_Layers img) w)
    as ((E1 & E2 & E3) & Hh & Hr & Hf & Hz); [apply Hi| |done|].
  { intros d. rewrite (ii_refs _ Hi d), (total_refs_delete d _ _ _ Himg), Hocc. by rewrite Nat.add_comm. }
  set (w1 := foldl (drop_layer dataDir) w (i_Layers img)) in *.
  assert (no_pull (with_images (delete id) w1)) as Hno'.
  { intros t p Hp. apply (Hno t p). simpl in Hp. by rewrite <-E3. }
  split; [|done]. destruct (threads_idle w (with_images (delete id) w1)) as [Hth Hun]; [done|done|].
  assert (dir_here (im_fs w) OV -> dir_here (im_fs w1) OV) as Hov.
  { intros [H|[m H]]; [by left|right]. exists m. destruct (Hf "loka-overlay" (or_intror eq_refl)) as [F|(_ & _ & F)]; [|done].
    by rewrite (F []). }
  constructor; simpl; [done| | | |exact Hth|exact Hun|].
  - intros h Hx. destruct (Hf h (or_introl Hx)) as [F|(F & _)]; [|by left].
    destruct (ii_layers _ Hi h Hx) as [Hn|Hl]; [left; by rewrite (F [])|right].
    apply (layer_state_same h w); [done| |done]. by apply no_unpacking.
  - intros d. rewrite E1. apply Hr.
  - intros id' i Hl. rewrite E1 in Hl. apply lookup_delete_Some in Hl as [Hne Hl].
    apply (image_ok_keep w); [done|done|by apply (ii_images _ Hi)| |done].
    intros Hrd hs Hdirs h Hin Hlh.
    assert (hex_digest h = true) as Hx by (destruct Hdirs as [Hall _]; rewrite Forall_forall in Hall; auto).
    destruct (Hf h (or_introl Hx)) as [F|(_ & F & _)].
    + by eapply present_same.
    + exfalso. assert (0 < total_refs (digest_of h) (delete id (im_images w))); [|lia].
      apply total_refs_pos. exists id', i. rewrite lookup_delete_ne by done. split; [done|].
      by eapply image_refs_dirs.
  - intros h Hx Hs. left. rewrite E1. destruct (Hf h (or_introl Hx)) as [F|(F & _)].
    2:{ rewrite F in Hs. by destruct Hs. }
    pose proof (F []) as F0. change (L ++ h :: []) with (layer_path h) in F0. rewrite F0 in Hs.
    pose proof (used_images w h Hi Hno Hx Hs) as Hpos. rewrite (total_refs_delete _ _ _ _ Himg), Hocc in Hpos.
    destruct (decide (total_refs (digest_of h) (delete id (im_images w)) = 0)) as [H0|]; [|lia].
    assert (0 < occurs (digest_of h) (i_Layers img)) as Ho by lia. specialize (Hz h Hx Ho H0).
    rewrite F0 in Hz. rewrite Hz in Hs. by destruct Hs.
Qed.

(** A change of the host outside the layers, or of the bucket, changes nothing. *)
Lemma inv_outside w f :
  image_inv w -> no_pull w -> host_ok dataDir (f (im_fs w)) ->
  (forall rest, f (im_fs w) !! (L ++ rest) = im_fs w !! (L ++ rest)) ->
  image_inv (with_fs f w) /\ no_pull (with_fs f w).
Proof using Type.
  intros Hi Hno Hh Hf. split; [|done].
  assert (forall h, present (im_fs w) h -> present (f (im_fs w)) h) as Hl.
  { intros h. apply present_same. intros q. by rewrite Hf. }
  assert (dir_here (im_fs w) OV -> dir_here (f (im_fs w)) OV) as Hov.
  { intros [H|[m H]]; [by left|right]. exists m. by rewrite Hf. }
  destruct (threads_idle w (with_fs f w)) as [Hth Hun]; [done|done|].
  constructor; simpl; [done| |apply Hi| |exact Hth|exact Hun|].
  - refine (layers_keep w (with_fs f w) _ _ (ii_layers _ Hi)); [by intros; apply Hf|]. intros h. by apply no_unpacking.
  - intros id i Hi'. apply (image_ok_keep w); [done|done|by apply (ii_images _ Hi)| |done].
    intros _ hs _ h _. apply Hl.
  - intros h Hx. rewrite Hf. apply (ii_used _ Hi h Hx).
Qed.

Lemma inv_bucket w key : image_inv w -> no_pull w -> image_inv (delete_object key w) /\ no_pull (delete_object key w).
Proof using Type. intros Hi Hno. unfold delete_object. destruct (key =? "")%string; [done|]. split; [|done]. by destruct Hi. Qed.

Lemma inv_delete id w : image_inv w -> no_pull w -> image_inv (DeleteImage dataDir id w).2.
Proof using Hdata.
  intros Hi Hno. unfold DeleteImage. destruct (im_images w !! id) as [img|] eqn:Himg; [|done]. cbn [snd].
  destruct (ii_images _ Hi _ _ Himg) as (_ & Hg & _).
  destruct (inv_delete_locked id w Hi Hno) as [Hi1 Hno1].
  destruct (inv_bucket _ (i_LayerPackKey img) Hi1 Hno1) as [Hi2 Hno2].
  set (w2 := delete_object _ _) in *.
  assert (exists w3, (if bool_decide (i_RootfsPath img = i_LayerPackKey img) then w2
                      else delete_object (i_RootfsPath img) w2) = w3 /\ image_inv w3 /\ no_pull w3) as (w3 & -> & Hi3 & Hno3).
  { eexists. split; [reflexivity|]. case_bool_decide; [done|]. by apply inv_bucket. }
  destruct (inv_bucket _ (i_SnapshotMem img) Hi3 Hno3) as [Hi4 Hno4].
  destruct (inv_bucket _ (i_SnapshotVMState img) Hi4 Hno4) as [Hi5 Hno5].
  destruct (comps_PathJoin_flat dataDir ["images"; id]) as [Ei _]; [done|by repeat constructor; done || apply Hg|done|].
  destruct (comps_PathJoin_flat dataDir ["cache"; "images"; id]) as [Ec _]; [done|by repeat constructor; done || apply Hg|done|].
  rewrite Ei, Ec.
  match goal with |- image_inv (with_fs ?g (with_fs ?f ?w5)) => set (w5' := w5) in * end.
  destruct (remove_elsewhere dataDir ["images"] id (im_fs w5') (ii_host _ Hi5)) as [Hh1 Hf1];
    [by repeat constructor; done || apply Hg|apply Hi5|by eexists _, _|].
  destruct (inv_outside w5' (RemoveAll (comps dataDir ++ ["images"; id])) Hi5 Hno5 Hh1 Hf1) as [Hi6 Hno6].
  destruct (remove_elsewhere dataDir ["cache"; "images"] id
              (im_fs (with_fs (RemoveAll (comps dataDir ++ ["images"; id])) w5')) (ii_host _ Hi6)) as [Hh2 Hf2];
    [by repeat constructor; done || apply Hg|apply Hi6|by eexists _, _|].
  by apply inv_outside.
Qed.

Lemma inv_sweep now order w : image_inv w -> no_pull w -> image_inv (image_sweep dataDir now order w).
Proof using Hdata.
  intros Hi Hno. unfold image_sweep.
  set (P := fun e : string * Image => ~ (i_Status e.2 = ImageStatusFailed /\ (failedTTL < now - i_CreatedAt e.2)%Z)).
  assert (forall d (m : gmap string Image), total_refs d (filter P m) = total_refs d m) as Htot.
  { intros d m. induction m as [|id i m Hn IH] using map_ind; [done|].
    rewrite map_filter_insert, (delete_id _ _ Hn). rewrite (total_refs_insert d m) by done. case_decide as HP.
    - rewrite total_refs_insert; [by rewrite IH|]. apply map_lookup_filter_None. by left.
    - rewrite IH. replace (image_refs d i) with 0; [done|]. unfold image_refs.
      replace (is_ready i) with false; [done|]. symmetry. apply bool_decide_eq_false. intros Hst. apply HP. unfold P.
      simpl. rewrite Hst. by intros [? _]. }
  assert (image_inv (with_images (fun m => filter P m) w) /\ no_pull (with_images (fun m => filter P m) w)) as H.
  { split; [|done]. destruct (threads_idle w (with_images (fun m => filter P m) w)) as [Hth Hun]; [done|done|].
    constructor; simpl; [apply Hi|exact (ii_layers _ Hi)| | |exact Hth|exact Hun|].
    - intros d. rewrite Htot. apply Hi.
    - intros id i [Hl _]%map_lookup_filter_Some. apply (image_ok_keep w); [done|done|by apply (ii_images _ Hi)|by intros|done].
    - intros h. rewrite Htot. apply (ii_used _ Hi h). }
  set (w1 := with_images _ w) in *. clearbody w1. destruct H as [H1 H2]. clear -H1 H2 Hdata.
  generalize (take (size (im_images w1) - maxImages) (merge_sort (older w1) (filter (fun id => ready_id w1 id = true) order))).
  intros l. revert w1 H1 H2. induction l as [|id l IH]; intros w1 H1 H2; [done|]. cbn [foldl].
  destruct (inv_delete_locked id w1 H1 H2). by apply IH.
Qed.

Lemma image_step_inv w w' : image_step w w' -> image_inv w -> image_inv w'.
Proof using Hdata Hcontent.
  destruct 1; intros Hi.
  - apply inv_idle_thread; [done|intros p Hp; congruence|by destruct (GetByRef _ _ _)].
  - by apply inv_lock.
  - by apply inv_fetch.
  - by apply inv_look.
  - by apply inv_make.
  - by apply inv_unpack.
  - by apply inv_publish.
  - unfold pull_wake. destruct (im_pulls w !! owner) as [[r []]|]; try done.
    apply inv_idle_thread; [done| |done]. intros p Hp. by simplify_eq.
  - by apply inv_delete.
  - by apply inv_sweep.
Qed.

(** *** From the start *)

Record fresh_host (fs : FS) : Prop := {
  fh_host : host_ok dataDir fs;
  fh_layers : forall h, hex_digest h = true -> fs !! layer_path h = None
}.

Lemma inv_new fs bucket :
  fresh_host fs -> image_inv (NewImageManager umask dataDir sha256 candidates fs bucket).
Proof using Hdata.
  intros [Hh Hl]. unfold NewImageManager.
  destruct (comps_PathJoin_flat dataDir ["images"]) as [-> _]; [done|by repeat constructor|done|].
  destruct (MkdirAll_plain umask fs (comps dataDir ++ ["images"]) 493) as (fs1 & Hm & Hok & _ & Hch);
    [apply Hh|apply Forall_app; split; [apply clean_comps_good|by repeat constructor]|apply Hh|].
  unfold MkdirAll. rewrite Hm. cbn [snd].
  assert (forall rest b, comps dataDir ++ ["images"] <> (L ++ rest) ++ b) as Hoff.
  { intros rest b Heq. rewrite <-app_assoc in Heq. by apply (images_layers_apart dataDir (rest ++ b) []). }
  assert (host_ok dataDir fs1) as Hh1.
  { eapply dirs_made_host; [done..|]. intros b. unfold supervisorPath. rewrite <-(app_assoc L). apply Hoff. }
  destruct (ensureLokaOverlay_step umask dataDir sha256 candidates Hdata fs1 Hh1) as [Hs _].
  constructor; simpl; [apply Hs| | |by intros ? ?|by intros ? ?|by intros ? ? ? ? ? ?|].
  - intros h Hx. left. destruct (hex_good h Hx) as [_ Hne]. rewrite (overlay_other _ _ _ Hs h []) by done.
    destruct (Hch (layer_path h)) as [->|(_ & _ & b & Hb)]; [by apply Hl|by destruct (Hoff [h] b)].
  - intros d. by rewrite lookup_empty.
  - intros h Hx [n Hn]. destruct (hex_good h Hx) as [_ Hne]. rewrite (overlay_other _ _ _ Hs h []) in Hn by done.
    destruct (Hch (layer_path h)) as [Heq|(_ & _ & b & Hb)]; [|by destruct (Hoff [h] b)].
    rewrite Heq, Hl in Hn by done. done.
Qed.

Lemma resolve_ready w id img hs :
  str_mem ":"%char (lokaOverlayDir dataDir) = false -> host_ok dataDir (im_fs w) ->
  im_images w !! id = Some img -> dir_here (im_fs w) OV ->
  i_RootfsPath img = Join (lokaOverlayDir dataDir :: (layerDirOf dataDir <$> hs)) ":" ->
  ResolveRootfsPath id w = Some (i_RootfsPath img).
Proof using Hdata.
  intros Hcol Hh Himg Hov Hp. destruct (lokaOverlayDir_comps dataDir Hdata) as [Hc Hr].
  assert (exists m, stat (im_fs w) (comps (lokaOverlayDir dataDir)) = Some (NDir m)) as [m Hs].
  { rewrite Hc. apply dir_here_stat; [apply Hh| |done]. by apply (layer_path_good dataDir "loka-overlay"). }
  assert (lokaOverlayDir dataDir <> "") as Hne by (by intros Heq; rewrite Heq in Hr).
  unfold ResolveRootfsPath. rewrite Himg. simpl. rewrite Hp. destruct hs as [|h hs].
  - simpl. destruct (String.eqb_spec (lokaOverlayDir dataDir) ""); [done|].
    by rewrite (Contains_char_false ":"%char), Hs.
  - change (Join (lokaOverlayDir dataDir :: (layerDirOf dataDir <$> h :: hs)) ":")
      with (lokaOverlayDir dataDir +:+ String ":"%char (Join (layerDirOf dataDir <$> h :: hs) ":")).
    destruct (String.eqb_spec (lokaOverlayDir dataDir +:+ String ":"%char (Join (layerDirOf dataDir <$> h :: hs) ":")) "") as [He|_].
    { by destruct (lokaOverlayDir dataDir). }
    rewrite (Contains_char_app ":"%char), Cut_app by done. cbn [fst]. by rewrite Hs.
Qed.

End World.

(** ** A run, and what goes wrong otherwise *)

Definition sample_hex : string := "aaaaaaaaaaaaaaaaaaaaaaaaaaaaaaaaaaaaaaaaaaaaaaaaaaaaaaaaaaaaaaaa".
Definition sample_hex2 : string := "bbbbbbbbbbbbbbbbbbbbbbbbbbbbbbbbbbbbbbbbbbbbbbbbbbbbbbbbbbbbbbbb".
Definition sample_items : list LayerItem :=
  [Node ["etc"] (NDir 493); Node ["etc"; "os"] (NFile 420 "x"); Hard ["os"] ["etc"; "os"]].
Definition sample_new : ImageManager := NewImageManager 18 "/d" (fun s => s) [] ∅ ∅.
Definition sample_tar : LayerTar := mkLayerTar (item_entry <$> sample_items) true.
Definition broken_tar : LayerTar := mkLayerTar (item_entry <$> take 1 sample_items) false.

(** The next layer of a pull in one go. *)
Definition layer_begin (t : nat) (w : ImageManager) : ImageManager :=
  match im_pulls w !! t with
  | Some (mkPull r (PLayers img d todo)) => pull_look "/d" t r img d todo w
  | _ => w
  end.
Definition layer_make (t : nat) (w : ImageManager) : ImageManager :=
  match im_pulls w !! t with
  | Some (mkPull r (PMake img d h todo)) => pull_make 18 "/d" t r img d h todo w
  | _ => w
  end.
Definition layer_unpack (tar : option LayerTar) (t : nat) (w : ImageManager) : ImageManager :=
  match im_pulls w !! t with
  | Some (mkPull r (PUnpack img d h todo)) => pull_unpack 18 "/d" tar t r img d h todo w
  | _ => w
  end.
(** A pull of an image of some layers, alone, with the tars that are sent. *)
Fixpoint pull_layers (tars : list (option LayerTar)) (t : nat) (w : ImageManager) : ImageManager :=
  match tars with
  | [] => w
  | tar :: tars => pull_layers tars t (layer_unpack tar t (layer_make t (layer_begin t w)))
  end.
Definition pull_layers_of (t : nat) (reference id : string) (hexes : list string) (w : ImageManager) : ImageManager :=
  let w := pull_lock id 0 t reference (pull_begin [] t reference w) in
  match im_pulls w !! t with
  | Some (mkPull r (PFetch img)) => pull_fetch (Some (mkRemote None ((fun h => (h, 1%Z)) <$> hexes))) t r img w
  | _ => w
  end.
Definition pull_done (t : nat) (w : ImageManager) : ImageManager :=
  match im_pulls w !! t with
  | Some (mkPull r (PLayers img d [])) => pull_publish 18 "/d" (fun s => s) [] t r img d w
  | _ => w
  end.
Definition pull_all (t : nat) (reference id : string) (hexes : list string) (tars : list (option LayerTar))
    (w : ImageManager) : ImageManager :=
  pull_done t (pull_layers tars t (pull_layers_of t reference id hexes w)).

Definition image_state (id : string) (w : ImageManager) : option ImageStatus := i_Status <$> im_images w !! id.
Definition has_file (h : string) (p : Path) (w : ImageManager) : bool :=
  bool_decide (is_Some (im_fs w !! (["d"; "layers"; h] ++ p))).

(** A layer whose download broke off is taken as cached by the next pull: its image is
    ready without the file. *)
Lemma partial_layer_used :
  let w := pull_all 1 "b" "i2" [sample_hex] [Some sample_tar]
             (pull_all 0 "a" "i1" [sample_hex] [Some broken_tar] sample_new) in
  image_state "i1" w = Some ImageStatusFailed /\ image_state "i2" w = Some ImageStatusReady /\
  has_file sample_hex [] w = true /\ has_file sample_hex ["etc"; "os"] w = false.
Proof. vm_compute. by split_and!. Qed.

(** A pull that looks while another one has made the directory of a layer and not yet
    unpacked it takes it as cached: its image is ready without the file. *)
Lemma layer_taken_early :
  let w := layer_make 0 (layer_begin 0 (pull_layers_of 0 "a" "i1" [sample_hex] sample_new)) in
  let w := pull_done 1 (layer_begin 1 (pull_layers_of 1 "b" "i2" [sample_hex] w)) in
  image_state "i2" w = Some ImageStatusReady /\ has_file sample_hex [] w = true /\
  has_file sample_hex ["etc"; "os"] w = false /\
  has_file sample_hex ["etc"; "os"] (layer_unpack (Some sample_tar) 0 w) = true.
Proof. vm_compute. by split_and!. Qed.

(** Deleting an image whose pull failed gives back references it never had: a ready
    image loses its layer. *)
Lemma delete_failed_breaks_ready :
  let w := pull_all 1 "b" "i2" [sample_hex; sample_hex2] [Some sample_tar; None]
             (pull_all 0 "a" "i1" [sample_hex] [Some sample_tar] sample_new) in
  let w' := (DeleteImage "/d" "i2" w).2 in
  image_state "i2" w = Some ImageStatusFailed /\ has_file sample_hex ["etc"; "os"] w = true /\
  image_state "i1" w' = Some ImageStatusReady /\ has_file sample_hex [] w' = false.
Proof. vm_compute. by split_and!. Qed.

(** An image deleted while another pull relies on its cached layer: the pull's image is
    ready without the layer. *)
Lemma delete_during_pull :
  let w := pull_all 0 "a" "i1" [sample_hex] [Some sample_tar] sample_new in
  let w := pull_layers [Some sample_tar] 1 (pull_layers_of 1 "b" "i2" [sample_hex] w) in
  let w := pull_done 1 (DeleteImage "/d" "i1" w).2 in
  image_state "i2" w = Some ImageStatusReady /\ has_file sample_hex [] w = false.
Proof. vm_compute. by split_and!. Qed.

(** The key of the layer pack is a list of directories, under which the object store
    holds nothing: no layer pack is ever found. *)
Lemma layer_pack_missing :
  let w := pull_all 0 "a" "i1" [sample_hex] [Some sample_tar] sample_new in
  (i_LayerPackKey <$> im_images w !! "i1") = Some ("/d/layers/" +:+ sample_hex) /\
  (ResolveLayerPackPath 18 "/d" "i1" w).1 = None.
Proof. vm_compute. by split_and!. Qed.

Lemma sample_items_ok : layer_ok sample_items.
Proof.
  constructor.
  - apply (bool_decide_unpack _). vm_compute. exact I.
  - repeat constructor; done.
  - repeat constructor; done.
  - intros l1 q n l2 Heq. destruct l1 as [|a [|b [|c l1]]]; simplify_eq/=; [by split; [|left]|split; [done|right]].
    exists 493%Z. by left.
  - constructor; [|constructor]. split; [|by left]. exists (NFile 420 "x"). split; [|done]. by right; left.
Qed.

Lemma empty_host_fresh : fresh_host "/d" ∅.
Proof.
  constructor; [constructor|done].
  - intros a c n H. by rewrite lookup_empty in H.
  - intros d _ a b _ _. by left.
  - by left.
  - intros a b _ _. by left.
  - intros a b _ _. by left.
Qed.

Definition sample_step := image_step 18 "/d" (fun s => s) [] (fun _ => sample_items).
Definition sample_run : ImageManager := pull_all 0 "alpine" "img1" [sample_hex] [Some sample_tar] sample_new.

Lemma sample_run_steps : rtc sample_step sample_new sample_run.
Proof.
  assert (good_comp "img1") as Hg by done.
  assert (forall r, Some (mkRemote None [(sample_hex, 1%Z)]) = Some r ->
    Forall (fun l => hex_digest l.1 = true) (ri_Layers r)) as Hhex.
  { intros r Hr. injection Hr as <-. by repeat constructor. }
  set (w1 := pull_begin [] 0 "alpine" sample_new).
  set (w2 := pull_lock "img1" 0 0 "alpine" w1).
  set (i0 := new_image "img1" "alpine" 0).
  set (w3 := pull_fetch (Some (mkRemote None [(sample_hex, 1%Z)])) 0 "alpine" i0 w2).
  set (i1 := set_layers "" [mkImageLayer (digest_of sample_hex) 1 ""] i0).
  set (w3a := pull_look "/d" 0 "alpine" i1 [] [sample_hex] w3).
  set (w3b := pull_make 18 "/d" 0 "alpine" i1 [] sample_hex [] w3a).
  set (w4 := pull_unpack 18 "/d" (Some sample_tar) 0 "alpine" i1 [] sample_hex [] w3b).
  assert (im_pulls w1 !! 0 = Some (mkPull "alpine" PChecked)) as H1 by (vm_compute; reflexivity).
  assert (im_pulls w2 !! 0 = Some (mkPull "alpine" (PFetch i0))) as H2 by (vm_compute; reflexivity).
  assert (im_pulls w3 !! 0 = Some (mkPull "alpine" (PLayers i1 [] [sample_hex]))) as H3 by (vm_compute; reflexivity).
  assert (im_pulls w3a !! 0 = Some (mkPull "alpine" (PMake i1 [] sample_hex []))) as H3a by (vm_compute; reflexivity).
  assert (im_pulls w3b !! 0 = Some (mkPull "alpine" (PUnpack i1 [] sample_hex []))) as H3b by (vm_compute; reflexivity).
  assert (im_pulls w4 !! 0 = Some (mkPull "alpine" (PLayers i1 [sample_hex] []))) as H4 by (vm_compute; reflexivity).
  assert (sample_run = pull_publish 18 "/d" (fun s => s) [] 0 "alpine" i1 [sample_hex] w4) as ->.
  { unfold sample_run, pull_all, pull_layers_of. fold w1. fold w2. rewrite H2. change (fmap _ _) with [(sample_hex, 1%Z)].
    fold w3. cbn [pull_layers]. unfold layer_begin. rewrite H3. fold w3a. unfold layer_make. rewrite H3a. fold w3b.
    unfold layer_unpack. rewrite H3b. fold w4. unfold pull_done. by rewrite H4. }
  assert (im_pulls sample_new !! 0 = None) as H0 by (vm_compute; reflexivity).
  assert (im_images w1 !! "img1" = None) as H1' by (vm_compute; reflexivity).
  refine (rtc_l _ _ w1 _ (is_begin _ _ _ _ _ [] 0 "alpine" _ H0) _).
  refine (rtc_l _ _ w2 _ (is_lock _ _ _ _ _ "img1" 0 0 "alpine" w1 H1 H1' Hg) _).
  refine (rtc_l _ _ w3 _ (is_fetch _ _ _ _ _ (Some (mkRemote None [(sample_hex, 1%Z)])) 0 "alpine" i0 w2 H2 Hhex) _).
  refine (rtc_l _ _ w3a _ (is_look _ _ _ _ _ 0 "alpine" i1 [] sample_hex [] w3 H3) _).
  refine (rtc_l _ _ w3b _ (is_make _ _ _ _ _ 0 "alpine" i1 [] sample_hex [] w3a H3a) _).
  refine (rtc_l _ _ w4 _ (is_unpack _ _ _ _ _ 0 "alpine" i1 [] sample_hex [] w3b H3b) _).
  refine (rtc_l _ _ _ _ (is_publish _ _ _ _ _ 0 "alpine" i1 [sample_hex] w4 H4) _).
  apply rtc_refl.
Qed.

