(* ===== verification/Supervisor.v ===== *)
(** * The supervisor

    The execution requests of [src/internal/supervisor/server.go] ([handleRPC],
    [handleExec]) over the executor of [src/internal/supervisor/exec.go], as one machine:
    the command proxy, the approval gate with its goroutines ([ApprovalGate.gate_step]),
    the processes, and one goroutine per request. A step is a critical section, a channel
    operation or a system call of one goroutine; the scheduler, the operator, the clock
    and the kernel choose which. Parameters arrive decoded. *)

From stdpp Require Import options.
From S2P Require Import Prelude GoStrings GoPath Filesystem Policy ApprovalGate Executor Effects Entities.
Open Scope Z_scope.

(** ** Requests and answers *)

Record ExecRequest := mkExecReq { xr_Commands : list Command; xr_Parallel : bool }.

Record ExecResponse := mkExecResp {
  xp_Status : string;
  xp_Results : list CommandResult;
  xp_Error : string
}.

Inductive RPCRequest :=
  | RPing
  | RExec (params : ExecRequest)
  | RSetMode (mode : ExecMode)
  | RSetPolicy (policy : ExecPolicy)
  | RApprove (cmdID : string) (addToWhitelist : bool)
  | RDeny (cmdID reason : string)
  | RListPending
  | RCancel (cmdID : string)
  | RAuditLog
  | RUnknown (method : string).

Record PendingInfo := mkInfo { pi_ID : string; pi_Command : string; pi_Reason : Reason }.

Inductive RPCResponse :=
  | AnswerText (s : string)
  | AnswerPending (infos : list PendingInfo)
  | AnswerAudit (log : list AuditEntry)
  | AnswerError (message : string).

(** ** The state *)

(** A process and the request whose goroutine holds it; there is a result once [Done] is
    closed. *)
Record RunningProcess := mkRunning {
  rp_Job : nat;
  rp_Cmd : Command;
  rp_Path : string;
  rp_Env : list string;
  rp_StartedAt : Z;
  rp_Cancelled : bool;
  rp_Result : option CommandResult
}.

(** A goroutine of a batch that takes a command to the gate: the suspension once it is
    there, and whether its result was received. *)
Record Waiter := mkWaiter { wt_Cmd : Command; wt_Gate : option nat; wt_Taken : bool }.

(** Where the goroutine of a request stands. One command after the other: before
    [Validate], in [Suspend], before [startProcess], before [<-proc.Done]. A batch: in
    phase 1, before receiving from the gate, in phase 3, before the results. *)
Inductive JobPhase :=
  | JNext (todo : list Command)
  | JGate (cmd : Command) (p : nat) (todo : list Command)
  | JStart (cmd : Command) (todo : list Command)
  | JWait (k : nat) (todo : list Command)
  | JValidate (todo : list Command)
  | JCollect
  | JStartAll (todo : list Command) (procs : list nat)
  | JWaitAll (procs : list nat)
  | JDone (resp : ExecResponse).

Record Job := mkJob {
  jb_Req : ExecRequest;
  jb_Results : list CommandResult;
  jb_Waiters : list Waiter;
  jb_Phase : JobPhase
}.

Record Sup := mkSup {
  sv_proxy : CommandProxy;
  sv_gate : World;
  sv_procs : list RunningProcess;
  sv_processes : gmap string nat;
  sv_jobs : list Job;
  sv_stopped : bool
}.

Definition sessionID : string := "local".
Definition sv_now (w : Sup) : Z := w_now (sv_gate w).

(** [NewServer] at the time [now]. *)
Definition NewServer (policy : ExecPolicy) (mode : ExecMode) (now : Z) : Sup :=
  mkSup (NewCommandProxy policy mode) (initial (5 * Minute) now) [] ∅ [] false.

Definition with_proxy (px : CommandProxy) (w : Sup) : Sup :=
  mkSup px (sv_gate w) (sv_procs w) (sv_processes w) (sv_jobs w) (sv_stopped w).
Definition with_gate (g : World) (w : Sup) : Sup :=
  mkSup (sv_proxy w) g (sv_procs w) (sv_processes w) (sv_jobs w) (sv_stopped w).
Definition with_procs (ps : list RunningProcess) (m : gmap string nat) (w : Sup) : Sup :=
  mkSup (sv_proxy w) (sv_gate w) ps m (sv_jobs w) (sv_stopped w).
Definition with_job (i : nat) (jb : Job) (w : Sup) : Sup :=
  mkSup (sv_proxy w) (sv_gate w) (sv_procs w) (sv_processes w) (<[i := jb]> (sv_jobs w)) (sv_stopped w).

Definition set_phase (ph : JobPhase) (jb : Job) : Job :=
  mkJob (jb_Req jb) (jb_Results jb) (jb_Waiters jb) ph.
Definition add_result (r : CommandResult) (jb : Job) : Job :=
  mkJob (jb_Req jb) (jb_Results jb ++ [r]) (jb_Waiters jb) (jb_Phase jb).
Definition set_waiters (ws : list Waiter) (jb : Job) : Job :=
  mkJob (jb_Req jb) (jb_Results jb) ws (jb_Phase jb).
Definition set_result (r : CommandResult) (p : RunningProcess) : RunningProcess :=
  mkRunning (rp_Job p) (rp_Cmd p) (rp_Path p) (rp_Env p) (rp_StartedAt p) (rp_Cancelled p) (Some r).
Definition cancelled (p : RunningProcess) : RunningProcess :=
  mkRunning (rp_Job p) (rp_Cmd p) (rp_Path p) (rp_Env p) (rp_StartedAt p) true (rp_Result p).

Section supervisor.
(** The verb [%q], [Duration.String] and the text of [context.Canceled]. *)
Context (Quote : string -> string) (DurationString : Z -> string) (canceled : string).

(** ** Texts *)

Definition reasonText (r : Reason) : string :=
  match r with
  | NoReason => ""
  | Blacklisted binary => "binary " +:+ Quote binary +:+ " is blacklisted"
  | OneShotAsk => "one-shot approved (ask mode)"
  | ModeApproval binary mode => "binary " +:+ Quote binary +:+ " requires approval in " +:+ mode +:+ " mode"
  | BlockedMode mode => "execution blocked in " +:+ mode +:+ " mode"
  | OneShot => "one-shot approved"
  | NotWhitelisted binary => "binary " +:+ Quote binary +:+ " is not whitelisted"
  | BatchApproval command => "command " +:+ Quote command +:+ " is not whitelisted — requires approval"
  end.

Definition suspendText (cmd : Command) (r : SuspendResult) : string :=
  match r with
  | RApproved _ => ""
  | RDenied _ reason => "command " +:+ Quote (c_Command cmd) +:+ " denied: " +:+ reason
  | RTimedOut after => "command " +:+ Quote (c_Command cmd) +:+ " approval timed out after " +:+ DurationString after
  | RCancelled => canceled
  end.

Definition refusalText (cmd : Command) (r : Reason + SuspendResult) : string :=
  match r with
  | inl reason => "command proxy: " +:+ reasonText reason
  | inr r => suspendText cmd r
  end.

(** The result [Execute] makes for a command that is refused. *)
Definition refusal (now : Z) (cmd : Command) (r : Reason + SuspendResult) : CommandResult :=
  mkResult (c_ID cmd) (-1) ""
    (match r with
     | inl reason => "BLOCKED by command proxy: " +:+ reasonText reason
     | inr r => "DENIED/TIMEOUT: " +:+ suspendText cmd r
     end) now now.

Definition batchText (e : BatchError) : string :=
  match e with
  | BatchBlocked cmd reason => "command proxy blocked " +:+ Quote (c_Command cmd) +:+ ": " +:+ reasonText reason
  | BatchRefused cmd r => "command " +:+ Quote (c_Command cmd) +:+ ": " +:+ suspendText cmd r
  end.

(** ** One request *)

(** [handleExec]: several commands run as a batch when the request asks for it. *)
Definition isBatch (req : ExecRequest) : bool := xr_Parallel req && (1 <? length (xr_Commands req))%nat.

Definition handleExec (req : ExecRequest) : Job :=
  mkJob req [] [] (if isBatch req then JValidate (xr_Commands req) else JNext (xr_Commands req)).

(** Its status: failed when an exit code is not zero. *)
Definition exitStatus (results : list CommandResult) : string :=
  if existsb (fun r => negb (cr_ExitCode r =? 0)) results then "failed" else "success".

Definition answer (jb : Job) : ExecResponse := mkExecResp (exitStatus (jb_Results jb)) (jb_Results jb) "".
Definition failWith (results : list CommandResult) (err : string) : ExecResponse :=
  mkExecResp "failed" results err.

Definition refuse (now : Z) (cmd : Command) (r : Reason + SuspendResult) (jb : Job) : Job :=
  let jb := add_result (refusal now cmd r) jb in
  set_phase (JDone (failWith (jb_Results jb) (refusalText cmd r))) jb.

Definition suspend (cmd : Command) (reason : Reason) (w : Sup) : Sup * History :=
  (with_gate (suspendRegister sessionID cmd reason (sv_gate w)) w, [(ESuspend sessionID cmd reason, None)]).

(** One step of the goroutine of request [i], but for [startProcess] and what arrives from
    the gate in a batch. *)
Definition jobStep (i : nat) (w : Sup) : option (Sup * History) :=
  jb ← sv_jobs w !! i;
  match jb_Phase jb with
  | JNext [] => Some (with_job i (set_phase (JDone (answer jb)) jb) w, [])
  | JNext (cmd :: todo) =>
      let '(px, a) := Execute (sv_now w) cmd (sv_proxy w) in
      let w := with_proxy px w in
      match a with
      | Start cmd => Some (with_job i (set_phase (JStart cmd todo) jb) w, [])
      | Refuse r => Some (with_job i (refuse (sv_now w) cmd r jb) w, [])
      | Park reason =>
          let p := length (w_heap (sv_gate w)) in
          let '(w, h) := suspend cmd reason w in
          Some (with_job i (set_phase (JGate cmd p todo) jb) w, h)
      end
  | JGate cmd p todo =>
      '(_, ph) ← w_heap (sv_gate w) !! p;
      match ph with
      | Returned r =>
          let '(px, a) := ExecuteResume cmd r (sv_proxy w) in
          let w := with_proxy px w in
          match a with
          | Start cmd => Some (with_job i (set_phase (JStart cmd todo) jb) w, [])
          | Refuse r => Some (with_job i (refuse (sv_now w) cmd r jb) w, [])
          | Park _ => None
          end
      | _ => None
      end
  | JWait k todo =>
      p ← sv_procs w !! k;
      r ← rp_Result p;
      Some (with_job i (set_phase (JNext todo) (add_result r jb)) w, [])
  | JValidate [] =>
      Some (with_job i (set_phase (if decide (jb_Waiters jb = []) then JStartAll (xr_Commands (jb_Req jb)) []
                                   else JCollect) jb) w, [])
  | JValidate (cmd :: todo) =>
      let '(px, v) := Validate (sv_now w) cmd (sv_proxy w) in
      let w := with_proxy px w in
      let next ws := Some (with_job i (set_phase (JValidate todo) (set_waiters ws jb)) w, []) in
      match vr_Verdict v with
      | VerdictBlocked =>
          Some (with_job i (set_phase (JDone (failWith [] (batchText (BatchBlocked cmd (vr_Reason v))))) (set_waiters [] jb)) w, [])
      | VerdictNeedsApproval => next (jb_Waiters jb ++ [mkWaiter cmd None false])
      | VerdictAllowed => next (jb_Waiters jb)
      end
  | JStartAll [] ks => Some (with_job i (set_phase (JWaitAll ks) jb) w, [])
  | JWaitAll ks =>
      results ← mapM (fun k => p ← sv_procs w !! k; rp_Result p) ks;
      let jb := mkJob (jb_Req jb) results (jb_Waiters jb) (jb_Phase jb) in
      Some (with_job i (set_phase (JDone (answer jb)) jb) w, [])
  | _ => None
  end.

(** The [n]-th goroutine of phase 2 gets to the gate. *)
Definition registerStep (i n : nat) (w : Sup) : option (Sup * History) :=
  jb ← sv_jobs w !! i;
  wt ← jb_Waiters jb !! n;
  match jb_Phase jb, wt_Gate wt with
  | JValidate _, _ | _, Some _ => None
  | _, None =>
      let p := length (w_heap (sv_gate w)) in
      let '(w, h) := suspend (wt_Cmd wt) (BatchApproval (c_Command (wt_Cmd wt))) w in
      Some (with_job i (set_waiters (<[n := mkWaiter (wt_Cmd wt) (Some p) (wt_Taken wt)]> (jb_Waiters jb)) jb) w, h)
  end.

(** Its result is the next one the request receives. *)
Definition collectStep (i n : nat) (w : Sup) : option (Sup * History) :=
  jb ← sv_jobs w !! i;
  wt ← jb_Waiters jb !! n;
  match jb_Phase jb, wt_Gate wt, wt_Taken wt with
  | JCollect, Some p, false =>
      '(_, ph) ← w_heap (sv_gate w) !! p;
      match ph with
      | Returned r =>
          let '(px, res) := collectResults [(wt_Cmd wt, r)] (sv_proxy w) in
          match res with
          | Err e => Some (with_job i (set_phase (JDone (failWith [] (batchText e))) jb) (with_proxy px w), [])
          | Ok _ =>
              let ws := <[n := mkWaiter (wt_Cmd wt) (Some p) true]> (jb_Waiters jb) in
              let ph := if forallb wt_Taken ws then JStartAll (xr_Commands (jb_Req jb)) [] else JCollect in
              Some (with_job i (set_phase ph (set_waiters ws jb)) (with_proxy px w), [])
          end
      | _ => None
      end
  | _, _, _ => None
  end.

(** [startProcess]: [stat] says which files exist, [order] is the environment of the
    command in the order of its [range], [err] is what [Start] returns; it fails once the
    context of the server is cancelled. A process that does not start is finished. *)
Definition startProcess (i : nat) (stat : string -> bool) (order : list (string * string)) (err : option string)
    (cmd : Command) (w : Sup) : Sup :=
  let env := ProcessEnv order (sv_proxy w) in
  let path := resolveBinary stat env (c_Command cmd) in
  let proc := mkRunning i cmd path env (sv_now w) false in
  match err with
  | None =>
      with_procs (sv_procs w ++ [proc None]) (<[c_ID cmd := length (sv_procs w)]> (sv_processes w)) w
  | Some e =>
      let restrictedPATH := from_option (drop_str 5) "" (List.find isPathEntry env) in
      let text := "exec " +:+ Quote path +:+ " in " +:+ Quote (c_Workdir cmd) +:+ " (PATH=" +:+ restrictedPATH
                  +:+ "): " +:+ e in
      with_procs (sv_procs w ++ [proc (Some (mkResult (c_ID cmd) (-1) "" text (sv_now w) (sv_now w)))])
        (delete (c_ID cmd) (sv_processes w)) w
  end.

Definition startStep (i : nat) (stat : string -> bool) (order : list (string * string)) (err : option string)
    (w : Sup) : option (Sup * History) :=
  if sv_stopped w && bool_decide (err = None) then None else
  jb ← sv_jobs w !! i;
  let k := length (sv_procs w) in
  match jb_Phase jb with
  | JStart cmd todo =>
      Some (with_job i (set_phase (JWait k todo) jb) (startProcess i stat order err cmd w), [])
  | JStartAll (cmd :: todo) ks =>
      Some (with_job i (set_phase (JStartAll todo (ks ++ [k])) jb) (startProcess i stat order err cmd w), [])
  | _ => None
  end.

(** ** Processes *)

(** The goroutine of a process after [Wait]. *)
Definition exitStep (k : nat) (code : Z) (stdout stderr : string) (w : Sup) : option (Sup * History) :=
  p ← sv_procs w !! k;
  match rp_Result p with
  | Some _ => None
  | None =>
      let r := mkResult (c_ID (rp_Cmd p)) code stdout stderr (rp_StartedAt p) (sv_now w) in
      Some (with_procs (<[k := set_result r p]> (sv_procs w)) (delete (c_ID (rp_Cmd p)) (sv_processes w)) w, [])
  end.

(** [proc.Cancel]: the context of the process is cancelled, which kills it. *)
Definition cancelProcs (ks : list nat) (w : Sup) : Sup :=
  with_procs (foldr (alter cancelled) (sv_procs w) ks) (sv_processes w) w.
Definition Cancel (cmdID : string) (w : Sup) : Sup := cancelProcs (option_list (sv_processes w !! cmdID)) w.
Definition CancelAll (w : Sup) : Sup := cancelProcs (map_to_list (sv_processes w)).*2 w.

(** ** The other requests *)

(** [Approve] and [Deny] answer after their send, which is a step of the gate. [order]
    is the map of the gate in the order of its [range]. *)
Definition handleRPC (order : list (string * nat)) (req : RPCRequest) (w : Sup) : Sup * option RPCResponse * History :=
  let ok := Some (AnswerText "ok") in
  let decide_ cmdID (e : Event) (r : World * option nat) :=
    match r.2 with
    | Some _ => (with_gate r.1 w, ok, [(e, r.2)])
    | None => (w, Some (AnswerError ("no pending approval for command " +:+ cmdID)), [(e, None)])
    end in
  match req with
  | RPing => (w, Some (AnswerText "pong"), [])
  | RExec params => (mkSup (sv_proxy w) (sv_gate w) (sv_procs w) (sv_processes w) (sv_jobs w ++ [handleExec params]) (sv_stopped w), None, [])
  | RSetMode mode => (with_proxy (SetMode mode (sv_proxy w)) w, ok, [])
  | RSetPolicy policy => (with_proxy (SetPolicy policy (sv_proxy w)) w, ok, [])
  | RApprove id wl => decide_ id (EApprove id wl) (Approve id wl (sv_gate w))
  | RDeny id reason => decide_ id (EDeny id reason) (Deny id reason (sv_gate w))
  | RListPending =>
      (w, Some (AnswerPending ((fun pa => mkInfo (pa_ID pa) (c_Command (pa_Command pa)) (pa_Reason pa))
                                 <$> ListPending order (sv_gate w))), [])
  | RCancel id => (if String.eqb id "" then CancelAll w else Cancel id w, ok, [])
  | RAuditLog => (w, Some (AnswerAudit (px_auditLog (sv_proxy w))), [])
  | RUnknown method => (w, Some (AnswerError ("unknown method: " +:+ method)), [])
  end.

(** [Stop] cancels the context of the server, hence of every process. *)
Definition Stop (w : Sup) : Sup :=
  mkSup (sv_proxy w) (sv_gate w) (cancelled <$> sv_procs w) (sv_processes w) (sv_jobs w) true.

(** ** The machine *)

Inductive SupEvent :=
  | SRpc (order : list (string * nat)) (req : RPCRequest)
  | SJob (i : nat)
  | SRegister (i n : nat)
  | SCollect (i n : nat)
  | SStart (i : nat) (stat : string -> bool) (order : list (string * string)) (err : option string)
  | SExit (k : nat) (code : Z) (stdout stderr : string)
  | SGate (e : Event)
  | SStop.

(** The steps of the gate's own goroutines and the clock; contexts are cancelled by
    [Stop] only, and nothing calls [Cleanup]. *)
Definition gate_own (stopped : bool) (e : Event) : bool :=
  match e with
  | ESelect _ | EDecision _ | ETimeout _ | EFinish _ | ESend _ | ETick _ => true
  | ECancel _ => stopped
  | ESuspend _ _ _ | EApprove _ _ | EDeny _ _ | ECleanup _ => false
  end.

(** A step with the events of the gate it makes. *)
Definition sup_step (e : SupEvent) (w : Sup) : option (Sup * History) :=
  match e with
  | SRpc order req => let '(w, _, h) := handleRPC order req w in Some (w, h)
  | SJob i => jobStep i w
  | SRegister i n => registerStep i n w
  | SCollect i n => collectStep i n w
  | SStart i stat order err => startStep i stat order err w
  | SExit k code out err => exitStep k code out err w
  | SGate e =>
      if gate_own (sv_stopped w) e then
        match gate_step e (sv_gate w) with
        | Next (g, r) => Some (with_gate g w, [(e, r)])
        | _ => None
        end
      else None
  | SStop => Some (Stop w, [])
  end.

(** Time does not go back; a [range] visits every entry once. *)
Definition sup_fair (e : SupEvent) (w : Sup) : Prop :=
  match e with
  | SGate (ETick d) => 0 <= d
  | SRpc order RListPending => order ≡ₚ map_to_list (g_pending (w_gate (sv_gate w)))
  | SStart i _ order _ =>
      forall jb cmd todo ks, sv_jobs w !! i = Some jb ->
        jb_Phase jb = JStart cmd todo \/ jb_Phase jb = JStartAll (cmd :: todo) ks -> order ≡ₚ map_to_list (c_Env cmd)
  | _ => True
  end.

(** What happened: the steps with the states they were made in, and the history of the
    gate. *)
Inductive sup_reach (policy : ExecPolicy) (mode : ExecMode) (start : Z) : list (SupEvent * Sup) -> History -> Sup -> Prop :=
  | sup_init : sup_reach policy mode start [] [] (NewServer policy mode start)
  | sup_next tr h w e w' h' :
      sup_reach policy mode start tr h w -> sup_fair e w -> sup_step e w = Some (w', h') ->
      sup_reach policy mode start (tr ++ [(e, w)]) (h ++ h') w'.

Fixpoint sup_run (es : list SupEvent) (w : Sup) : option Sup :=
  match es with
  | [] => Some w
  | e :: es => '(w, _) ← sup_step e w; sup_run es w
  end.
End supervisor.

(** ** What the answers mean *)

(** The processes of a request, in the order in which they were started. *)
Definition procs_of (i : nat) (ps : list RunningProcess) : list nat :=
  filter (fun k => rp_Job <$> ps !! k = Some i) (seq 0 (length ps)).

(** These processes run these commands; these ended with these results. *)
Definition ran (ps : list RunningProcess) : list nat -> list Command -> Prop :=
  Forall2 (fun k cmd => exists p, ps !! k = Some p /\ rp_Cmd p = cmd).
Definition ended (ps : list RunningProcess) : list nat -> list CommandResult -> Prop :=
  Forall2 (fun k r => exists p, ps !! k = Some p /\ rp_Result p = Some r /\ cr_CommandID r = c_ID (rp_Cmd p)).

Abbreviation Trace := (list (SupEvent * Sup)).

(** The proxy was asked about the command by request [i], and this was its verdict. *)
Definition asked (i : nat) (cmd : Command) (v : Verdict) (w : Sup) : Prop :=
  (exists jb todo, sv_jobs w !! i = Some jb /\ (jb_Phase jb = JNext (cmd :: todo) \/ jb_Phase jb = JValidate (cmd :: todo))) /\
  vr_Verdict (Validate (sv_now w) cmd (sv_proxy w)).2 = v.
Definition validated (tr : Trace) (i : nat) (cmd : Command) (v : Verdict) : Prop :=
  exists w, (SJob i, w) ∈ tr /\ asked i cmd v w.

(** The suspension [p] is the one request [i] made for the command. *)
Definition suspended (tr : Trace) (i : nat) (cmd : Command) (p : nat) : Prop :=
  exists w, length (w_heap (sv_gate w)) = p /\
    ((SJob i, w) ∈ tr /\ asked i cmd VerdictNeedsApproval w \/
     exists n jb wt, (SRegister i n, w) ∈ tr /\ sv_jobs w !! i = Some jb /\ jb_Waiters jb !! n = Some wt /\ wt_Cmd wt = cmd).

Definition approved (tr : Trace) (h : History) (i : nat) (cmd : Command) : Prop :=
  exists p d, suspended tr i cmd p /\ (p, d) ∈ accepted h /\ ad_Approved d = true.

(** The proxy allowed the command to this request, or asked for an approval and the
    operator approved the suspension this request made for it. *)
Definition consent (tr : Trace) (h : History) (i : nat) (cmd : Command) : Prop :=
  validated tr i cmd VerdictAllowed \/ validated tr i cmd VerdictNeedsApproval /\ approved tr h i cmd.

(** Why a command was not started: the proxy refused it, or asked and the gate returned
    no approval. *)
Definition turned_down (tr : Trace) (w : Sup) (i : nat) (cmd : Command) : Prop :=
  validated tr i cmd VerdictBlocked \/
  exists p pa r, validated tr i cmd VerdictNeedsApproval /\ suspended tr i cmd p /\
    w_heap (sv_gate w) !! p = Some (pa, Returned r) /\ forall d, r <> RApproved d.

(** The answer of a request whose goroutine is done. *)
Record answer_ok (tr : Trace) (w : Sup) (i : nat) (req : ExecRequest) (resp : ExecResponse) : Prop := {
  ao_batch : isBatch req = true -> resp = failWith [] (xp_Error resp) /\ procs_of i (sv_procs w) = [] \/
    ran (sv_procs w) (procs_of i (sv_procs w)) (xr_Commands req) /\
    ended (sv_procs w) (procs_of i (sv_procs w)) (xp_Results resp) /\
    xp_Status resp = exitStatus (xp_Results resp) /\ xp_Error resp = "";
  ao_seq : isBatch req = false ->
    (ran (sv_procs w) (procs_of i (sv_procs w)) (xr_Commands req) /\
     ended (sv_procs w) (procs_of i (sv_procs w)) (xp_Results resp) /\
     xp_Status resp = exitStatus (xp_Results resp) /\ xp_Error resp = "") \/
    exists done cmd todo rs r, xr_Commands req = done ++ cmd :: todo /\
      ran (sv_procs w) (procs_of i (sv_procs w)) done /\ ended (sv_procs w) (procs_of i (sv_procs w)) rs /\
      turned_down tr w i cmd /\ cr_CommandID r = c_ID cmd /\ cr_ExitCode r = -1 /\
      resp = failWith (rs ++ [r]) (xp_Error resp)
}.

(** ** The invariant *)

Definition parked (w : Sup) (p : nat) : Prop := (p < length (w_heap (sv_gate w)))%nat.

(** What a goroutine of phase 2 stands for. *)
Record waiter_ok (tr : Trace) (h : History) (w : Sup) (i : nat) (wt : Waiter) : Prop := {
  wo_asked : validated tr i (wt_Cmd wt) VerdictNeedsApproval;
  wo_gate p : wt_Gate wt = Some p -> suspended tr i (wt_Cmd wt) p /\ parked w p;
  wo_taken : wt_Taken wt = true -> approved tr h i (wt_Cmd wt)
}.

Definition checked (tr : Trace) (i : nat) (ws : list Waiter) (cmd : Command) : Prop :=
  validated tr i cmd VerdictAllowed \/ cmd ∈ wt_Cmd <$> ws.

Definition job_phase_ok (tr : Trace) (h : History) (w : Sup) (i : nat) (jb : Job) : Prop :=
  let ps := sv_procs w in let ks := procs_of i ps in let cmds := xr_Commands (jb_Req jb) in
  let seq_at done := isBatch (jb_Req jb) = false /\ ran ps ks done in
  match jb_Phase jb with
  | JNext todo => exists done, cmds = done ++ todo /\ seq_at done /\ ended ps ks (jb_Results jb)
  | JGate cmd p todo =>
      exists done, cmds = done ++ cmd :: todo /\ seq_at done /\ ended ps ks (jb_Results jb) /\
        validated tr i cmd VerdictNeedsApproval /\ suspended tr i cmd p /\ parked w p
  | JStart cmd todo =>
      exists done, cmds = done ++ cmd :: todo /\ seq_at done /\ ended ps ks (jb_Results jb) /\ consent tr h i cmd
  | JWait k todo =>
      exists done ks', cmds = done ++ todo /\ seq_at done /\ ks = ks' ++ [k] /\ ended ps ks' (jb_Results jb)
  | JValidate todo =>
      exists done, cmds = done ++ todo /\ isBatch (jb_Req jb) = true /\ ks = [] /\
        Forall (checked tr i (jb_Waiters jb)) done /\ Forall (fun wt => wt_Taken wt = false) (jb_Waiters jb)
  | JCollect =>
      isBatch (jb_Req jb) = true /\ ks = [] /\ Forall (checked tr i (jb_Waiters jb)) cmds /\
        forallb wt_Taken (jb_Waiters jb) = false
  | JStartAll todo ks' =>
      exists done, cmds = done ++ todo /\ isBatch (jb_Req jb) = true /\ ks' = ks /\ ran ps ks done /\
        Forall (consent tr h i) cmds
  | JWaitAll ks' => isBatch (jb_Req jb) = true /\ ks' = ks /\ ran ps ks cmds
  | JDone resp => answer_ok tr w i (jb_Req jb) resp
  end.

Record job_ok (tr : Trace) (h : History) (w : Sup) (i : nat) (jb : Job) : Prop := {
  jo_waiters : Forall (waiter_ok tr h w i) (jb_Waiters jb);
  jo_phase : job_phase_ok tr h w i jb
}.

Record sup_ok (start : Z) (tr : Trace) (h : History) (w : Sup) : Prop := {
  so_gate : reach (5 * Minute) start h (sv_gate w);
  so_jobs i jb : sv_jobs w !! i = Some jb -> job_ok tr h w i jb;
  so_procs k p : sv_procs w !! k = Some p ->
    (exists jb, sv_jobs w !! rp_Job p = Some jb /\ rp_Cmd p ∈ xr_Commands (jb_Req jb)) /\
    consent tr h (rp_Job p) (rp_Cmd p) /\ forall r, rp_Result p = Some r -> cr_CommandID r = c_ID (rp_Cmd p)
}.

(** ** What only grows *)

Definition proc_le (p p' : RunningProcess) : Prop :=
  rp_Job p' = rp_Job p /\ rp_Cmd p' = rp_Cmd p /\ forall r, rp_Result p = Some r -> rp_Result p' = Some r.

Definition grows (ps ps' : list RunningProcess) : Prop :=
  forall k p, ps !! k = Some p -> exists p', ps' !! k = Some p' /\ proc_le p p'.

#[global] Instance grows_preorder : PreOrder grows.
Proof.
  split; [intros ps k p Hk; exists p; by repeat split|]. intros p1 p2 p3 H12 H23 k p Hk.
  destruct (H12 k p Hk) as (q & Hq & Hj & Hc & Hr). destruct (H23 k q Hq) as (q' & Hq' & Hj' & Hc' & Hr').
  exists q'. split; [done|]. split_and!; [congruence..|]. eauto.
Qed.

Lemma ran_grows ps ps' ks cmds : grows ps ps' -> ran ps ks cmds -> ran ps' ks cmds.
Proof.
  intros Hg Hr. eapply Forall2_impl; [exact Hr|]. intros k cmd (p & Hp & Hc). destruct (Hg k p Hp) as (p' & ? & _ & ? & _).
  exists p'. split; congruence.
Qed.

Lemma ended_grows ps ps' ks rs : grows ps ps' -> ended ps ks rs -> ended ps' ks rs.
Proof.
  intros Hg He. eapply Forall2_impl; [exact He|]. intros k r (p & Hp & Hr & Hc). destruct (Hg k p Hp) as (p' & ? & _ & ? & ?).
  exists p'. split_and!; [done|auto|congruence].
Qed.

(** Steps that start no process of request [i]. *)
Record later (i : nat) (tr tr' : Trace) (h h' : History) (w w' : Sup) : Prop := {
  lt_tr x : x ∈ tr -> x ∈ tr';
  lt_acc x : x ∈ accepted h -> x ∈ accepted h';
  lt_gate : extends (sv_gate w) (sv_gate w');
  lt_procs : grows (sv_procs w) (sv_procs w');
  lt_own : procs_of i (sv_procs w') = procs_of i (sv_procs w)
}.

Section later.
Context {i tr tr' h h'} {w w' : Sup} (Hl : later i tr tr' h h' w w').

Lemma validated_later cmd v : validated tr i cmd v -> validated tr' i cmd v.
Proof using Hl. intros (w0 & Hw & Ha). exists w0. split; [by apply Hl|done]. Qed.

Lemma suspended_later cmd p : suspended tr i cmd p -> suspended tr' i cmd p.
Proof using Hl.
  intros (w0 & Hp & [[Hw Ha]|(n & jb & wt & Hw & Ha)]); exists w0; (split; [done|]).
  - left. split; [by apply Hl|done].
  - right. exists n, jb, wt. split; [by apply Hl|done].
Qed.

Lemma approved_later cmd : approved tr h i cmd -> approved tr' h' i cmd.
Proof using Hl.
  intros (p & d & Hs & Ha & Hd). exists p, d. split_and!; [by apply suspended_later|by apply Hl|done].
Qed.

Lemma consent_later cmd : consent tr h i cmd -> consent tr' h' i cmd.
Proof using Hl.
  intros [Hv|[Hv Ha]]; [left; by apply validated_later|right]. split; [by apply validated_later|by apply approved_later].
Qed.

Lemma turned_down_later cmd : turned_down tr w i cmd -> turned_down tr' w' i cmd.
Proof using Hl.
  intros [Hv|(p & pa & r & Hv & Hs & Hp & Hr)]; [left; by apply validated_later|right].
  destruct (lt_gate _ _ _ _ _ _ _ Hl p pa _ Hp) as (pa' & ph' & Hp' & _ & _ & Hph).
  rewrite (Hph r) in Hp' by done. exists p, pa', r.
  split_and!; [by apply validated_later|by apply suspended_later|done|done].
Qed.

Lemma parked_later p : parked w p -> parked w' p.
Proof using Hl.
  intros [[pa ph] Hp]%lookup_lt_is_Some_2. destruct (lt_gate _ _ _ _ _ _ _ Hl p pa ph Hp) as (? & ? & Hp' & _).
  by eapply lookup_lt_Some.
Qed.

Lemma waiter_later wt : waiter_ok tr h w i wt -> waiter_ok tr' h' w' i wt.
Proof using Hl.
  intros [H1 H2 H3]. split; [by apply validated_later| |].
  - intros p Hp. split; [by apply suspended_later, H2|by apply parked_later, H2].
  - intros Ht. by apply approved_later, H3.
Qed.

Lemma checked_later ws cmds : Forall (checked tr i ws) cmds -> Forall (checked tr' i ws) cmds.
Proof using Hl. intros H. eapply Forall_impl; [exact H|]. intros cmd [Hv|Hin]; [left; by apply validated_later|by right]. Qed.

Lemma answer_later req resp : answer_ok tr w i req resp -> answer_ok tr' w' i req resp.
Proof using Hl.
  intros [Hb Hs]. split; rewrite (lt_own _ _ _ _ _ _ _ Hl).
  - intros [[? ?]|(Hr & He & ?)]%Hb; [by left|right].
    split_and!; [eapply ran_grows, Hr; apply Hl|eapply ended_grows, He; apply Hl|naive_solver..].
  - intros [(Hr & He & ?)|(done & cmd & todo & rs & r & Hc & Hr & He & Ht & ?)]%Hs; [left|right].
    + split_and!; [eapply ran_grows, Hr; apply Hl|eapply ended_grows, He; apply Hl|naive_solver..].
    + exists done, cmd, todo, rs, r. split_and!; [done|eapply ran_grows, Hr; apply Hl|eapply ended_grows, He; apply Hl| |naive_solver..].
      by apply turned_down_later.
Qed.

Lemma job_later jb : job_ok tr h w i jb -> job_ok tr' h' w' i jb.
Proof using Hl.
  intros [Hw Hp]. pose proof (fun cmds Hr => ran_grows _ _ (procs_of i (sv_procs w)) cmds (lt_procs _ _ _ _ _ _ _ Hl) Hr) as Hran.
  pose proof (fun ks rs Hr => ended_grows _ _ ks rs (lt_procs _ _ _ _ _ _ _ Hl) Hr) as Hend.
  split; [eapply Forall_impl; [exact Hw|by apply waiter_later]|].
  unfold job_phase_ok in *. rewrite (lt_own _ _ _ _ _ _ _ Hl). destruct (jb_Phase jb).
  - destruct Hp as (done & ? & [? ?] & ?). exists done. split_and!; auto.
  - destruct Hp as (done & ? & [? ?] & ? & ? & ? & ?). exists done.
    split_and!; auto using validated_later, suspended_later, parked_later.
  - destruct Hp as (done & ? & [? ?] & ? & ?). exists done. split_and!; auto using consent_later.
  - destruct Hp as (done & ks' & ? & [? ?] & ? & ?). exists done, ks'. split_and!; auto.
  - destruct Hp as (done & ? & ? & ? & ? & ?). exists done. split_and!; auto using checked_later.
  - destruct Hp as (? & ? & ? & ?). split_and!; auto using checked_later.
  - destruct Hp as (done & ? & ? & ? & ? & Hc). exists done. split_and!; auto.
    eapply Forall_impl; [exact Hc|by apply consent_later].
  - destruct Hp as (? & ? & ?). split_and!; auto.
  - by apply answer_later.
Qed.
End later.

Lemma accepted_app h h' : accepted (h ++ h') = accepted h ++ accepted h'.
Proof. unfold accepted. apply omap_app. Qed.

Lemma filter_ext_in {A} (P Q : A -> Prop) `{!forall x, Decision (P x), !forall x, Decision (Q x)} (l : list A) :
  (forall x, x ∈ l -> P x <-> Q x) -> filter P l = filter Q l.
Proof.
  induction l as [|x l IH]; intros Hext; [done|]. rewrite !filter_cons, IH by (intros; apply Hext; by right).
  pose proof (Hext x (list_elem_of_here _ _)). by repeat case_decide; try tauto.
Qed.

(** Processes that are updated in place. *)
Definition same_jobs (ps ps' : list RunningProcess) : Prop :=
  length ps' = length ps /\ forall k p p', ps !! k = Some p -> ps' !! k = Some p' -> rp_Job p' = rp_Job p.

Lemma procs_of_same i ps ps' : same_jobs ps ps' -> procs_of i ps' = procs_of i ps.
Proof.
  intros [Hl Hs]. unfold procs_of. rewrite Hl. apply filter_ext_in. intros k [_ Hk]%elem_of_seq.
  destruct (lookup_lt_is_Some_2 ps k) as [p Hp]; [lia|]. destruct (lookup_lt_is_Some_2 ps' k) as [p' Hp']; [lia|].
  rewrite Hp, Hp'. simpl. by rewrite (Hs k p p').
Qed.

Lemma procs_of_snoc i ps p :
  procs_of i (ps ++ [p]) = procs_of i ps ++ (if decide (rp_Job p = i) then [length ps] else []).
Proof.
  unfold procs_of. rewrite length_app, seq_app, filter_app. f_equal.
  - apply filter_ext_in. intros k [_ Hk]%elem_of_seq. rewrite lookup_app_l by lia. done.
  - simpl. rewrite filter_cons, list_lookup_middle by done. simpl. rewrite filter_nil.
    destruct (decide (rp_Job p = i)) as [->|Hne]; [by rewrite decide_True|]. rewrite decide_False by congruence. done.
Qed.

Definition update_le (p p' : RunningProcess) : Prop :=
  proc_le p p' /\ forall r, rp_Result p' = Some r -> rp_Result p = Some r \/ cr_CommandID r = c_ID (rp_Cmd p).
Definition updates (ps ps' : list RunningProcess) : Prop :=
  length ps' = length ps /\ forall k p, ps !! k = Some p -> exists p', ps' !! k = Some p' /\ update_le p p'.

#[global] Instance updates_preorder : PreOrder updates.
Proof.
  split; [intros ps; split; [done|]; intros k p Hk; exists p; repeat split; auto|].
  intros p1 p2 p3 [Hl12 H12] [Hl23 H23]. split; [congruence|]. intros k p Hk.
  destruct (H12 k p Hk) as (q & Hq & (Hj & Hc & Hr) & Hn). destruct (H23 k q Hq) as (q' & Hq' & (Hj' & Hc' & Hr') & Hn').
  exists q'. split; [done|]. split; [split_and!; [congruence..|auto]|]. intros r [?|Hid]%Hn'; [auto|right; congruence].
Qed.

Lemma updates_alter f k ps : (forall p, ps !! k = Some p -> update_le p (f p)) -> updates ps (alter f k ps).
Proof.
  intros Hf. split; [apply length_alter|]. intros j p Hj. destruct (decide (j = k)) as [->|Hne].
  - exists (f p). rewrite list_lookup_alter_eq, Hj. auto.
  - exists p. rewrite list_lookup_alter_ne by done. repeat split; auto.
Qed.

Lemma updates_insert k p p' ps : ps !! k = Some p -> update_le p p' -> updates ps (<[k := p']> ps).
Proof.
  intros Hk Hp. split; [apply length_insert|]. intros j q Hj. destruct (decide (j = k)) as [->|Hne].
  - exists p'. rewrite list_lookup_insert_eq by (by eapply lookup_lt_Some). by simplify_eq.
  - exists q. rewrite list_lookup_insert_ne by done. repeat split; auto.
Qed.

Lemma cancelled_le p : update_le p (cancelled p).
Proof. repeat split; auto. Qed.

Lemma grows_app ps new : grows ps (ps ++ new).
Proof. intros k p Hk. exists p. split; [by apply lookup_app_l_Some|by repeat split]. Qed.

(** The step [e] with the events [h'] of the gate. *)
Lemma step_later i (tr : Trace) (h : History) (w : Sup) e h' w' :
  extends (sv_gate w) (sv_gate w') -> grows (sv_procs w) (sv_procs w') ->
  procs_of i (sv_procs w') = procs_of i (sv_procs w) -> later i tr (tr ++ [(e, w)]) h (h ++ h') w w'.
Proof. intros He Hg Hp. split; [set_solver|intros x; rewrite accepted_app; set_solver|done..]. Qed.

(** The steps of the machine, one lemma per kind. *)
Section steps.
Context {start : Z} {tr : Trace} {h : History} {w : Sup} (Hok : sup_ok start tr h w).

Lemma procs_later e h' w' :
  extends (sv_gate w) (sv_gate w') ->
  (forall i jb, sv_jobs w !! i = Some jb -> exists jb', sv_jobs w' !! i = Some jb' /\ jb_Req jb' = jb_Req jb) ->
  grows (sv_procs w) (sv_procs w') ->
  forall k p p', sv_procs w !! k = Some p -> sv_procs w' !! k = Some p' ->
  (forall r, rp_Result p' = Some r -> rp_Result p = Some r \/ cr_CommandID r = c_ID (rp_Cmd p)) ->
  (exists jb, sv_jobs w' !! rp_Job p' = Some jb /\ rp_Cmd p' ∈ xr_Commands (jb_Req jb)) /\
  consent (tr ++ [(e, w)]) (h ++ h') (rp_Job p') (rp_Cmd p') /\ forall r, rp_Result p' = Some r -> cr_CommandID r = c_ID (rp_Cmd p').
Proof using Hok.
  intros He Hj Hg k p p' Hk Hk' Hr. destruct (Hg k p Hk) as (q & Hq & Hjob & Hcmd & _). simplify_eq.
  destruct (so_procs _ _ _ _ Hok k p Hk) as ((jb & Hjb & Hin) & Hc & Hres). destruct (Hj _ _ Hjb) as (jb' & Hjb' & Hreq).
  rewrite Hjob, Hcmd. split_and!; [exists jb'; by rewrite Hreq| |naive_solver].
  eapply (consent_later (w' := with_gate (sv_gate w') w)); [|exact Hc]. by apply step_later.
Qed.

(** No process changes, and every request stays or is in order again. *)
Lemma frame_ok e h' w' :
  (forall i jb, sv_jobs w' !! i = Some jb -> sv_jobs w !! i = Some jb \/
     ((forall j, later j tr (tr ++ [(e, w)]) h (h ++ h') w w') -> job_ok (tr ++ [(e, w)]) (h ++ h') w' i jb)) ->
  (forall i jb, sv_jobs w !! i = Some jb -> exists jb', sv_jobs w' !! i = Some jb' /\ jb_Req jb' = jb_Req jb) ->
  sv_procs w' = sv_procs w -> extends (sv_gate w) (sv_gate w') -> reach (5 * Minute) start (h ++ h') (sv_gate w') ->
  sup_ok start (tr ++ [(e, w)]) (h ++ h') w'.
Proof using Hok.
  intros Hnew Hold Hps Hext Hgate.
  assert (forall j, later j tr (tr ++ [(e, w)]) h (h ++ h') w w') as Hlater by (intros j; apply step_later; by rewrite ?Hps).
  split; [done| |].
  - intros j jbj [Hj|Hj]%Hnew; [|by apply Hj]. eapply job_later; [by apply Hlater|]. by apply Hok.
  - intros k p Hk. eapply (procs_later e h' w' Hext Hold); [by rewrite Hps|by rewrite <-Hps|exact Hk|by left].
Qed.

(** The goroutine of request [i] moves. *)
Lemma move_ok e h' i jb jb' w' :
  sv_jobs w !! i = Some jb -> sv_jobs w' = <[i := jb']> (sv_jobs w) -> jb_Req jb' = jb_Req jb ->
  sv_procs w' = sv_procs w -> extends (sv_gate w) (sv_gate w') -> reach (5 * Minute) start (h ++ h') (sv_gate w') ->
  (later i tr (tr ++ [(e, w)]) h (h ++ h') w w' -> job_ok (tr ++ [(e, w)]) (h ++ h') w' i jb') ->
  sup_ok start (tr ++ [(e, w)]) (h ++ h') w'.
Proof using Hok.
  intros Hi Hjobs Hreq Hps Hext Hgate Hjob. apply frame_ok; [| |done..]; rewrite Hjobs.
  - intros j jbj [(<- & <- & _)|[Hne Hj]]%list_lookup_insert_Some; [right; auto|by left].
  - intros j jbj Hj. destruct (decide (j = i)) as [->|Hne].
    + exists jb'. rewrite list_lookup_insert_eq by (by eapply lookup_lt_Some). by simplify_eq.
    + exists jbj. by rewrite list_lookup_insert_ne.
Qed.

(** Processes change in place. *)
Lemma update_ok e w' :
  sv_jobs w' = sv_jobs w -> sv_gate w' = sv_gate w -> updates (sv_procs w) (sv_procs w') ->
  sup_ok start (tr ++ [(e, w)]) (h ++ []) w'.
Proof using Hok.
  intros Hjobs Hg [Hlen Hps].
  assert (grows (sv_procs w) (sv_procs w')) as Hgrow by (intros k p (p' & ? & ? & _)%Hps; eauto).
  assert (extends (sv_gate w) (sv_gate w')) as Hext by (by rewrite Hg).
  split.
  - rewrite Hg, app_nil_r. apply Hok.
  - intros i jb. rewrite Hjobs. intros Hi. eapply job_later; [|by apply Hok]. apply step_later; [done..|].
    apply procs_of_same. split; [done|]. intros k p p' Hk Hk'. destruct (Hps k p Hk) as (q & Hq & (? & _) & _). congruence.
  - intros k p' Hk'. destruct (lookup_lt_is_Some_2 (sv_procs w) k) as [p Hk].
    { rewrite <-Hlen. by eapply lookup_lt_Some. }
    destruct (Hps k p Hk) as (q & Hq & _ & Hr). simplify_eq.
    eapply (procs_later e [] w' Hext); [|done|exact Hk|exact Hk'|exact Hr]. rewrite Hjobs. eauto.
Qed.

(** A process is started for request [i]. *)
Lemma sup_start_ok e i jb jb' p w' :
  sv_jobs w !! i = Some jb -> sv_jobs w' = <[i := jb']> (sv_jobs w) -> jb_Req jb' = jb_Req jb ->
  sv_gate w' = sv_gate w -> sv_procs w' = sv_procs w ++ [p] -> rp_Job p = i ->
  rp_Cmd p ∈ xr_Commands (jb_Req jb) -> consent tr h i (rp_Cmd p) ->
  (forall r, rp_Result p = Some r -> cr_CommandID r = c_ID (rp_Cmd p)) ->
  (later i tr (tr ++ [(e, w)]) h (h ++ []) w w -> grows (sv_procs w) (sv_procs w') ->
   procs_of i (sv_procs w') = procs_of i (sv_procs w) ++ [length (sv_procs w)] ->
   job_ok (tr ++ [(e, w)]) (h ++ []) w' i jb') ->
  sup_ok start (tr ++ [(e, w)]) (h ++ []) w'.
Proof using Hok.
  intros Hi Hjobs Hreq Hg Hps Hpi Hin Hc Hr Hjob.
  assert (extends (sv_gate w) (sv_gate w')) as Hext by (by rewrite Hg).
  assert (grows (sv_procs w) (sv_procs w')) as Hgrow by (rewrite Hps; apply grows_app).
  split.
  - rewrite Hg, app_nil_r. apply Hok.
  - intros j jbj. rewrite Hjobs. intros [(<- & <- & _)|[Hne Hj]]%list_lookup_insert_Some.
    + apply Hjob; [by apply step_later|done|]. by rewrite Hps, procs_of_snoc, decide_True.
    + eapply job_later; [|by apply Hok]. apply step_later; [done..|].
      rewrite Hps, procs_of_snoc, decide_False, app_nil_r by congruence. done.
  - assert (exists jb1, sv_jobs w' !! i = Some jb1 /\ jb_Req jb1 = jb_Req jb) as Hi'.
    { exists jb'. rewrite Hjobs, list_lookup_insert_eq by (by eapply lookup_lt_Some). done. }
    intros k p' Hk. pose proof Hk as Hk'. rewrite Hps in Hk. apply lookup_app_Some in Hk as [Hk|[_ Hk]].
    + eapply (procs_later e [] w' Hext); [|done|exact Hk|exact Hk'|by left]. intros j jbj Hj.
      destruct (decide (j = i)) as [->|Hne]; [by simplify_eq|]. exists jbj. by rewrite Hjobs, list_lookup_insert_ne.
    + apply list_lookup_singleton_Some in Hk as [_ <-]. subst i. destruct Hi' as (jb1 & Hi1 & Hr1).
      split_and!; [exists jb1; by rewrite Hr1| |done]. eapply (consent_later (w' := w)); [by apply step_later|exact Hc].
Qed.
(** The proxy or the gate moves on its own. *)
Lemma sup_quiet_ok e h' w' :
  sv_jobs w' = sv_jobs w -> sv_procs w' = sv_procs w -> extends (sv_gate w) (sv_gate w') ->
  reach (5 * Minute) start (h ++ h') (sv_gate w') -> sup_ok start (tr ++ [(e, w)]) (h ++ h') w'.
Proof using Hok.
  intros Hj Hp He Hr. apply frame_ok; [| |done..]; rewrite Hj; eauto.
Qed.

(** A request for commands arrives. *)
Lemma arrive_ok e params w' :
  sv_jobs w' = sv_jobs w ++ [handleExec params] -> sv_procs w' = sv_procs w -> sv_gate w' = sv_gate w ->
  sup_ok start (tr ++ [(e, w)]) (h ++ []) w'.
Proof using Hok.
  intros Hj Hp Hg. apply frame_ok; rewrite ?Hj, ?Hg, ?app_nil_r; [| |done|done|apply Hok].
  - intros i jb [Hi|[Hlen Hi]]%lookup_app_Some; [by left|right; intros _].
    apply list_lookup_singleton_Some in Hi as [Hi <-].
    assert (procs_of i (sv_procs w') = []) as Hnone.
    { unfold procs_of. apply filter_nil_Forall. rewrite Forall_forall. intros k _. rewrite Hp.
      destruct (sv_procs w !! k) as [p|] eqn:Hk; [|done]. simpl. intros [= Hpi].
      destruct (so_procs _ _ _ _ Hok k p Hk) as ((jb & Hjb%lookup_lt_Some & _) & _). lia. }
    unfold handleExec. split; [constructor|]. unfold job_phase_ok. simpl. rewrite Hnone.
    destruct (isBatch params) eqn:Hb; exists []; repeat split; try done; constructor.
  - intros i jb Hi. exists jb. split; [by apply lookup_app_l_Some|done].
Qed.
End steps.

Lemma returned_approved start tr h w p pa d :
  sup_ok start tr h w -> w_heap (sv_gate w) !! p = Some (pa, Returned (RApproved d)) ->
  (p, d) ∈ accepted h /\ ad_Approved d = true.
Proof.
  intros Hok Hp. pose proof (so_gate _ _ _ _ Hok) as Hreach. pose proof (reach_Winv _ _ _ _ Hreach) as HW.
  destruct (winv_heap _ _ _ HW p _ _ Hp) as (_ & _ & Ha). simpl in Ha. split; [|done].
  by destruct (decided_accepted _ _ _ _ _ _ _ d Hreach Hp) as [| ->].
Qed.

Lemma suspend_gate start h cmd reason w :
  reach (5 * Minute) start h (sv_gate w) ->
  extends (sv_gate w) (sv_gate (suspend cmd reason w).1) /\
  reach (5 * Minute) start (h ++ (suspend cmd reason w).2) (sv_gate (suspend cmd reason w).1).
Proof. intros Hr. split; [by eapply extends_heap|by eapply reach_step]. Qed.

Section job_steps.
Context (Quote : string -> string) (DurationString : Z -> string) (canceled : string).
Context {start : Z} {tr : Trace} {h : History} {w : Sup} (Hok : sup_ok start tr h w).

(** The answer when every command has run. *)
Lemma all_ran_ok tr' w' i jb cmds :
  xr_Commands (jb_Req jb) = cmds -> ran (sv_procs w') (procs_of i (sv_procs w')) cmds ->
  ended (sv_procs w') (procs_of i (sv_procs w')) (jb_Results jb) -> answer_ok tr' w' i (jb_Req jb) (answer jb).
Proof using Type. intros <- Hr He. split; intros _; [right|left]; by split_and!. Qed.

(** A refused command ends a request that runs one command after the other. *)
Lemma refuse_ok tr' h' w' i jb cmd todo done r :
  xr_Commands (jb_Req jb) = done ++ cmd :: todo -> isBatch (jb_Req jb) = false ->
  ran (sv_procs w') (procs_of i (sv_procs w')) done ->
  ended (sv_procs w') (procs_of i (sv_procs w')) (jb_Results jb) ->
  turned_down tr' w' i cmd -> Forall (waiter_ok tr' h' w' i) (jb_Waiters jb) ->
  job_ok tr' h' w' i (refuse Quote DurationString canceled (sv_now w) cmd r jb).
Proof using Type.
  intros Hc Hb Hr He Ht Hw. split; [done|]. unfold job_phase_ok. simpl. split; [congruence|]. intros _. right.
  exists done, cmd, todo, (jb_Results jb), (refusal Quote DurationString canceled (sv_now w) cmd r). by split_and!.
Qed.

Lemma last_in {A} (x : A) l : x ∈ l ++ [x].
Proof. apply elem_of_app. right. by left. Qed.

Lemma untaken (ws : list Waiter) : Forall (fun wt => wt_Taken wt = false) ws -> ws <> [] -> forallb wt_Taken ws = false.
Proof. intros [|wt ws' Hwt _] Hne; [done|]. simpl. by rewrite Hwt. Qed.

(** What the lemmas below start from: the gate, the request as it stays, and the verdicts
    of this step. *)
Lemma job_frame i jb :
  sv_jobs w !! i = Some jb ->
  reach (5 * Minute) start h (sv_gate w) /\ reach (5 * Minute) start (h ++ []) (sv_gate w) /\
  (forall hh ww, later i tr (tr ++ [(SJob i, w)]) h hh w ww -> job_ok (tr ++ [(SJob i, w)]) hh ww i jb) /\
  (forall cmd v, asked i cmd v w -> validated (tr ++ [(SJob i, w)]) i cmd v).
Proof using Hok.
  intros Hi. pose proof (so_gate _ _ _ _ Hok) as Hgate. split_and!; [done|by rewrite app_nil_r| |].
  - intros hh ww Hl. apply (job_later Hl). by apply Hok.
  - intros cmd v Ha. exists w. split; [apply last_in|done].
Qed.

(** One command of phase 1. *)
Lemma validate_ok i jb cmd todo w' h' :
  sv_jobs w !! i = Some jb -> jb_Phase jb = JValidate (cmd :: todo) ->
  jobStep Quote DurationString canceled i w = Some (w', h') -> sup_ok start (tr ++ [(SJob i, w)]) (h ++ h') w'.
Proof using Hok.
  intros Hi Hph. unfold jobStep. rewrite Hi. simpl. rewrite Hph.
  assert (asked i cmd (vr_Verdict (Validate (sv_now w) cmd (sv_proxy w)).2) w) as Hask by (split; eauto).
  destruct (job_frame i jb Hi) as (_ & Hgate & Hlater & Hval).
  destruct (Validate _ cmd _) as [px v]. simpl in Hask.
  destruct (vr_Verdict v); intros [= <- <-]; (eapply (move_ok Hok); [done..|]); intros [Hw Hp]%Hlater;
    unfold job_phase_ok in Hp; rewrite Hph in Hp; destruct Hp as (done & Hc & Hb & Hks & Hd & Hu).
  - split; [done|]. exists (done ++ [cmd]). split_and!; [by rewrite <-app_assoc|done|done| |done].
    apply Forall_app. split; [done|]. constructor; [|constructor]. left. by apply Hval.
  - split; [constructor|]. unfold job_phase_ok. simpl. split; [|congruence]. by left.
  - split.
    + apply Forall_app. split; [done|]. constructor; [|constructor]. split; [by apply Hval|done..].
    + exists (done ++ [cmd]). split_and!; [by rewrite <-app_assoc|done|done| |by apply Forall_app; repeat constructor].
      simpl. apply Forall_app. split.
      * eapply Forall_impl; [exact Hd|]. intros c [Hv|Hin]; [by left|right]. rewrite fmap_app. set_solver.
      * constructor; [|constructor]. right. rewrite fmap_app. set_solver.
Qed.

(** The next command of a sequence. *)
Lemma next_ok i jb cmd todo w' h' :
  sv_jobs w !! i = Some jb -> jb_Phase jb = JNext (cmd :: todo) ->
  jobStep Quote DurationString canceled i w = Some (w', h') -> sup_ok start (tr ++ [(SJob i, w)]) (h ++ h') w'.
Proof using Hok.
  intros Hi Hph. unfold jobStep. rewrite Hi. simpl. rewrite Hph.
  destruct (job_frame i jb Hi) as (Hgate & Hgate' & Hlater & Hval).
  assert (asked i cmd (vr_Verdict (Validate (sv_now w) cmd (sv_proxy w)).2) w) as Hask by (split; eauto).
  unfold Execute. destruct (Validate _ cmd _) as [px v]. simpl in Hask. destruct (vr_Verdict v).
  - intros [= <- <-]. eapply (move_ok Hok); [done..|]. intros [Hw Hp]%Hlater. split; [done|].
    unfold job_phase_ok in *. rewrite Hph in Hp. destruct Hp as (done & Hc & [Hs Hr] & He). exists done.
    split_and!; [done..|]. left. by apply Hval.
  - intros [= <- <-]. eapply (move_ok Hok); [done..|]. intros [Hw Hp]%Hlater.
    unfold job_phase_ok in Hp. rewrite Hph in Hp. destruct Hp as (done & Hc & [Hs Hr] & He).
    eapply refuse_ok; [exact Hc|done|exact Hr|exact He| |done]. left. by apply Hval.
  - destruct (suspend_gate start h cmd (vr_Reason v) w Hgate) as [Hext Hreach]. intros [= <- <-].
    eapply (move_ok Hok); [done..|]. intros [Hw Hp]%Hlater. split; [done|].
    unfold job_phase_ok in *. rewrite Hph in Hp. destruct Hp as (done & Hc & [Hs Hr] & He). exists done.
    split_and!; [done..|by apply Hval| |unfold parked; simpl; rewrite length_app; simpl; lia].
    exists w. split; [done|]. left. split; [apply last_in|done].
Qed.

(** Back from the gate. *)
Lemma resume_ok i jb cmd p todo w' h' :
  sv_jobs w !! i = Some jb -> jb_Phase jb = JGate cmd p todo ->
  jobStep Quote DurationString canceled i w = Some (w', h') -> sup_ok start (tr ++ [(SJob i, w)]) (h ++ h') w'.
Proof using Hok.
  intros Hi Hph. unfold jobStep. rewrite Hi. simpl. rewrite Hph.
  destruct (job_frame i jb Hi) as (Hgate & Hgate' & Hlater & _).
  destruct (w_heap (sv_gate w) !! p) as [[pa ph]|] eqn:Hp0; [|done]. simpl. destruct ph as [| | |r]; try done.
  assert (forall r0, (forall d, r0 <> RApproved d) -> r = r0 -> (w', h') =
    (with_job i (refuse Quote DurationString canceled (sv_now w) cmd (inr r0) jb) (with_proxy (sv_proxy w) w), []) ->
    sup_ok start (tr ++ [(SJob i, w)]) (h ++ h') w') as Hno.
  { intros r0 Hr0 -> [= -> ->]. eapply (move_ok Hok); [done..|]. intros [Hw Hp]%Hlater.
    unfold job_phase_ok in Hp. rewrite Hph in Hp. destruct Hp as (done & Hc & [Hs Hr] & He & Hv & Hsus & _).
    eapply refuse_ok; [exact Hc|done|exact Hr|exact He| |done]. right. by exists p, pa, r0. }
  destruct r; simpl; (intros [= <- <-]); [|by (eapply Hno; [|reflexivity|reflexivity])..].
  eapply (move_ok Hok); [done..|]. intros [Hw Hp]%Hlater. split; [done|].
  unfold job_phase_ok in *. rewrite Hph in Hp. destruct Hp as (done & Hc & [Hs Hr] & He & Hv & Hsus & _). exists done.
  split_and!; [done..|]. right. split; [done|]. destruct (returned_approved _ _ _ _ _ _ _ Hok Hp0) as [Hacc Hd].
  exists p, d. split_and!; [done| |done]. by rewrite app_nil_r.
Qed.

Lemma jobStep_ok i w' h' :
  jobStep Quote DurationString canceled i w = Some (w', h') -> sup_ok start (tr ++ [(SJob i, w)]) (h ++ h') w'.
Proof using Hok.
  intros Hstep. destruct (sv_jobs w !! i) as [jb|] eqn:Hi; [|unfold jobStep in Hstep; by rewrite Hi in Hstep].
  assert (forall cmd todo, jb_Phase jb = JValidate (cmd :: todo) -> sup_ok start (tr ++ [(SJob i, w)]) (h ++ h') w')
    as Hvalidate by (intros; by eapply validate_ok).
  assert (forall cmd todo, jb_Phase jb = JNext (cmd :: todo) -> sup_ok start (tr ++ [(SJob i, w)]) (h ++ h') w')
    as Hnext by (intros; by eapply next_ok).
  assert (forall cmd p todo, jb_Phase jb = JGate cmd p todo -> sup_ok start (tr ++ [(SJob i, w)]) (h ++ h') w')
    as Hgated by (intros; by eapply resume_ok).
  revert Hstep. unfold jobStep. rewrite Hi. simpl.
  destruct (job_frame i jb Hi) as (_ & Hgate & Hlater & _).
  destruct (jb_Phase jb) as [[|cmd todo]|cmd p todo| |k todo|[|cmd todo]| |[|]|ks|] eqn:Hph; try done.
  - intros [= <- <-]. eapply (move_ok Hok); [done..|]. intros [Hw Hp]%Hlater. split; [done|].
    unfold job_phase_ok in *. rewrite Hph in Hp. simpl. destruct Hp as (done & Hc & [_ Hr] & He).
    rewrite app_nil_r in Hc. by eapply all_ran_ok.
  - intros _. by eapply Hnext.
  - intros _. by eapply Hgated.
  - destruct (sv_procs w !! k) as [q|] eqn:Hk; [|done]. simpl. destruct (rp_Result q) as [r|] eqn:Hr; [|done]. simpl.
    intros [= <- <-]. eapply (move_ok Hok); [done..|]. intros [Hw Hp]%Hlater. split; [done|].
    unfold job_phase_ok in *. rewrite Hph in Hp. destruct Hp as (done & ks' & Hc & [Hs Hrn] & Hks & He). exists done.
    split_and!; [done..|]. simpl in *. rewrite Hks. apply Forall2_app; [done|]. constructor; [|constructor].
    exists q. split_and!; [done..|]. by eapply (so_procs _ _ _ _ Hok).
  - intros [= <- <-]. eapply (move_ok Hok); [done..|]. intros [Hw Hp]%Hlater. split; [done|].
    unfold job_phase_ok in *. rewrite Hph in Hp. destruct Hp as (done & Hc & Hs & Hks & Hd & Hu). rewrite app_nil_r in Hc. subst done.
    simpl. case_decide as Hws; simpl; [|split_and!; [done..|by apply untaken]]. exists []. split_and!; [done..|simpl in *; by rewrite Hks; constructor|].
    eapply Forall_impl; [exact Hd|]. intros cmd [Hv|Hin]; [by left|]. rewrite Hws in Hin. by apply not_elem_of_nil in Hin.
  - intros _. by eapply Hvalidate.
  - intros [= <- <-]. eapply (move_ok Hok); [done..|]. intros [Hw Hp]%Hlater. split; [done|].
    unfold job_phase_ok in *. rewrite Hph in Hp. destruct Hp as (done & Hc & Hs & Hks & Hr & _). rewrite app_nil_r in Hc.
    subst done. by split_and!.
  - destruct (mapM _ ks) as [results|] eqn:Hres; [|done]. simpl. intros [= <- <-].
    eapply (move_ok Hok); [done..|]. intros [Hw Hp]%Hlater. split; [done|].
    unfold job_phase_ok in *. rewrite Hph in Hp. destruct Hp as (Hb & Hks & Hr). apply (all_ran_ok _ _ i (mkJob (jb_Req jb) results (jb_Waiters jb) (JWaitAll ks)) _ eq_refl Hr).
    simpl in *. rewrite <-Hks. apply mapM_Some in Hres. eapply Forall2_impl; [exact Hres|]. intros k r (q & Hk & Hq)%bind_Some. exists q. split_and!; [done..|].
    by eapply (so_procs _ _ _ _ Hok).
Qed.

Lemma waiters_cmds (ws : list Waiter) n wt g b :
  ws !! n = Some wt -> wt_Cmd <$> <[n := mkWaiter (wt_Cmd wt) g b]> ws = wt_Cmd <$> ws.
Proof using Type. intros Hn. rewrite list_fmap_insert. apply list_insert_id. by rewrite list_lookup_fmap, Hn. Qed.

Lemma waiters_taken (ws : list Waiter) n wt g :
  ws !! n = Some wt -> forallb wt_Taken (<[n := mkWaiter (wt_Cmd wt) g (wt_Taken wt)]> ws) = forallb wt_Taken ws.
Proof using Type.
  revert n. induction ws as [|wt0 ws IH]; intros [|n] Hn; simplify_eq/=; [done|]. by rewrite IH.
Qed.

Lemma registerStep_ok i n w' h' :
  registerStep i n w = Some (w', h') -> sup_ok start (tr ++ [(SRegister i n, w)]) (h ++ h') w'.
Proof using Hok.
  unfold registerStep. destruct (sv_jobs w !! i) as [jb|] eqn:Hi; [|done]. simpl.
  destruct (jb_Waiters jb !! n) as [wt|] eqn:Hn; [|done]. simpl.
  destruct (suspend_gate start h (wt_Cmd wt) (BatchApproval (c_Command (wt_Cmd wt))) w (so_gate _ _ _ _ Hok)) as [Hext Hreach].
  assert ((forall todo, jb_Phase jb <> JValidate todo) ->
    sup_ok start (tr ++ [(SRegister i n, w)]) (h ++ [(ESuspend sessionID (wt_Cmd wt) (BatchApproval (c_Command (wt_Cmd wt))), None)])
      (with_job i (set_waiters (<[n := mkWaiter (wt_Cmd wt) (Some (length (w_heap (sv_gate w)))) (wt_Taken wt)]> (jb_Waiters jb)) jb)
         (suspend (wt_Cmd wt) (BatchApproval (c_Command (wt_Cmd wt))) w).1)) as Hstep.
  { intros Hph. eapply (move_ok Hok); [done..|]. intros Hl.
    destruct (job_later Hl jb (so_jobs _ _ _ _ Hok i jb Hi)) as [Hw Hp]. split.
    - apply Forall_insert; [done|]. rewrite Forall_lookup in Hw. destruct (Hw n wt Hn) as [H1 H2 H3]. split; [done| |done].
      intros p [= <-]. split; [|unfold parked; simpl; rewrite length_app; simpl; lia]. exists w. split; [done|]. right. exists n, jb, wt. split_and!; [apply last_in|done..].
    - unfold job_phase_ok, checked in *. cbn [set_waiters jb_Phase jb_Req jb_Waiters jb_Results]. rewrite (waiters_cmds _ _ _ _ _ Hn).
      destruct (jb_Phase jb); try done; [by edestruct Hph|]. destruct Hp as (? & ? & ? & Hall). split_and!; [done..|].
      by rewrite (waiters_taken _ _ _ _ Hn). }
  destruct (jb_Phase jb), (wt_Gate wt); try done; intros [= <- <-]; by apply Hstep.
Qed.

Lemma collectStep_ok i n w' h' :
  collectStep Quote DurationString canceled i n w = Some (w', h') -> sup_ok start (tr ++ [(SCollect i n, w)]) (h ++ h') w'.
Proof using Hok.
  unfold collectStep. destruct (sv_jobs w !! i) as [jb|] eqn:Hi; [|done]. simpl.
  destruct (jb_Waiters jb !! n) as [wt|] eqn:Hn; [|done]. simpl.
  destruct (jb_Phase jb) eqn:Hph; try done. destruct (wt_Gate wt) as [p|] eqn:Hg; [|done].
  destruct (wt_Taken wt) eqn:Htk; [done|]. destruct (w_heap (sv_gate w) !! p) as [[pa ph]|] eqn:Hp0; [|done]. simpl.
  destruct ph as [| | |r]; try done.
  assert (reach (5 * Minute) start (h ++ []) (sv_gate w)) as Hgate by (rewrite app_nil_r; apply Hok).
  pose proof (fun hh ww (Hl : later i tr (tr ++ [(SCollect i n, w)]) h hh w ww) => job_later Hl jb (so_jobs _ _ _ _ Hok i jb Hi)) as Hlater.
  assert (forall err, sup_ok start (tr ++ [(SCollect i n, w)]) (h ++ [])
    (with_job i (set_phase (JDone (failWith [] err)) jb) (with_proxy (sv_proxy w) w))) as Hno.
  { intros err. eapply (move_ok Hok); [done..|]. intros [Hw Hp]%Hlater. split; [done|].
    unfold job_phase_ok in *. rewrite Hph in Hp. destruct Hp as (Hb & Hks & Hd & _). split; [|simpl; congruence]. by left. }
  destruct r as [d| | |]; simpl; (intros [= <- <-]); [|apply Hno..].
  eapply (move_ok Hok); [done..|]. intros Hl. destruct (Hlater _ _ Hl) as [Hw Hp]. unfold job_phase_ok in Hp. rewrite Hph in Hp.
  destruct Hp as (Hb & Hks & Hd & _). set (ws := <[n := mkWaiter (wt_Cmd wt) (Some p) true]> (jb_Waiters jb)).
  match goal with |- job_ok _ _ ?ww _ _ =>
    assert (Forall (waiter_ok (tr ++ [(SCollect i n, w)]) (h ++ []) ww i) ws) as Hws end.
  { apply Forall_insert; [done|]. rewrite Forall_lookup in Hw. destruct (Hw n wt Hn) as [H1 H2 H3].
    split; simpl; [done|intros p' [= <-]; by apply H2|]. intros _. exists p, d. rewrite app_nil_r.
    destruct (returned_approved _ _ _ _ _ _ _ Hok Hp0). split_and!; [by apply H2|done..]. }
  split; [done|]. unfold job_phase_ok, checked in *. cbn [set_phase set_waiters jb_Phase jb_Req jb_Waiters jb_Results].
  destruct (forallb wt_Taken ws) eqn:Hall; [|by unfold ws in *; rewrite (waiters_cmds _ _ _ _ _ Hn)].
  exists []. split_and!; [done..|simpl in *; rewrite Hks; constructor|].
  eapply Forall_impl; [exact Hd|]. intros cmd [Hv|Hin]; [by left|right].
  assert (cmd ∈ wt_Cmd <$> ws) as (wt' & -> & Hin')%list_elem_of_fmap by (unfold ws; by rewrite (waiters_cmds _ _ _ _ _ Hn)).
  rewrite Forall_forall in Hws. destruct (Hws _ Hin') as [H1 _ H3]. split; [done|]. apply H3.
  apply Is_true_true, forallb_True in Hall. rewrite Forall_forall in Hall. by apply Is_true_true, Hall.
Qed.

Lemma startProcess_ok i stat order err cmd jb ph :
  let w' := with_job i (set_phase ph jb) (startProcess Quote i stat order err cmd w) in
  sv_jobs w !! i = Some jb -> cmd ∈ xr_Commands (jb_Req jb) -> consent tr h i cmd ->
  (later i tr (tr ++ [(SStart i stat order err, w)]) h (h ++ []) w w -> grows (sv_procs w) (sv_procs w') ->
   procs_of i (sv_procs w') = procs_of i (sv_procs w) ++ [length (sv_procs w)] ->
   ran (sv_procs w') [length (sv_procs w)] [cmd] ->
   job_phase_ok (tr ++ [(SStart i stat order err, w)]) (h ++ []) w' i (set_phase ph jb)) ->
  sup_ok start (tr ++ [(SStart i stat order err, w)]) (h ++ []) w'.
Proof using Hok.
  intros w' Hi Hin Hc Hph.
  assert (exists p, sv_procs w' = sv_procs w ++ [p] /\ rp_Job p = i /\ rp_Cmd p = cmd /\
    forall r, rp_Result p = Some r -> cr_CommandID r = c_ID cmd) as (p & Hps & Hpj & Hpc & Hpr).
  { unfold w', startProcess. destruct err; (eexists; split; [reflexivity|]; simpl; split_and!; [done..|by intros r [= <-]]). }
  assert (sv_jobs w' = <[i := set_phase ph jb]> (sv_jobs w) /\ sv_gate w' = sv_gate w) as [Hj Hg]
    by (unfold w', startProcess; by destruct err).
  eapply (sup_start_ok Hok _ i jb _ p); [done|exact Hj|done..|by rewrite Hpc|by rewrite Hpc|by rewrite Hpc|].
  intros Hl Hgrow Hof. split.
  - destruct (job_later Hl jb (so_jobs _ _ _ _ Hok i jb Hi)) as [Hw _]. eapply Forall_impl; [exact Hw|].
    intros wt [H1 H2 H3]. split; [done| |done]. unfold parked in *. by rewrite Hg.
  - apply Hph; [done..|]. constructor; [|constructor]. exists p. split; [|done]. rewrite Hps. by apply list_lookup_middle.
Qed.

Lemma startStep_ok i stat order err w' h' :
  startStep Quote i stat order err w = Some (w', h') -> sup_ok start (tr ++ [(SStart i stat order err, w)]) (h ++ h') w'.
Proof using Hok.
  unfold startStep. destruct (sv_stopped w && _); [done|]. destruct (sv_jobs w !! i) as [jb|] eqn:Hi; [|done]. simpl.
  destruct (so_jobs _ _ _ _ Hok i jb Hi) as [_ Hp]. unfold job_phase_ok in Hp.
  destruct (jb_Phase jb) as [| |cmd todo| | | |[|cmd todo] ks| |] eqn:Hph; try done; intros [= <- <-].
  - destruct Hp as (done & Hc & [Hb Hr] & He & Hcon). apply startProcess_ok; [done|rewrite Hc; apply elem_of_app; right; by left|done|].
    intros Hl Hgrow Hof Hnew. exists (done ++ [cmd]), (procs_of i (sv_procs w)). rewrite Hof.
    split_and!; [by rewrite <-app_assoc|done| |done|by eapply ended_grows].
    apply Forall2_app; [by eapply ran_grows|done].
  - destruct Hp as (done & Hc & Hb & Hks & Hr & Hcon).
    assert (cmd ∈ xr_Commands (jb_Req jb)) as Hin by (rewrite Hc; apply elem_of_app; right; by left).
    apply startProcess_ok; [done..|apply (proj1 (Forall_forall _ _) Hcon), Hin|].
    intros Hl Hgrow Hof Hnew. exists (done ++ [cmd]). cbn [jb_Req set_phase]. rewrite Hof.
    split_and!; [by rewrite <-app_assoc|done|by rewrite Hks|apply Forall2_app; [by eapply ran_grows|done]|].
    eapply Forall_impl; [exact Hcon|by apply (consent_later Hl)].
Qed.

(** ** Processes change in place *)

Lemma cancel_ok ks e : sup_ok start (tr ++ [(e, w)]) (h ++ []) (cancelProcs ks w).
Proof using Hok.
  apply (update_ok Hok); [done..|]. simpl. induction ks as [|k ks IH]; simpl; [done|].
  etrans; [exact IH|]. apply updates_alter. intros p _. apply cancelled_le.
Qed.

Lemma exitStep_ok k code out err w' h' :
  exitStep k code out err w = Some (w', h') -> sup_ok start (tr ++ [(SExit k code out err, w)]) (h ++ h') w'.
Proof using Hok.
  unfold exitStep. destruct (sv_procs w !! k) as [p|] eqn:Hk; [|done]. simpl.
  destruct (rp_Result p) eqn:Hr; [done|]. intros [= <- <-]. apply (update_ok Hok); [done..|]. simpl.
  eapply updates_insert; [exact Hk|]. split; [repeat split; simpl; congruence|]. simpl. intros r [= <-]. by right.
Qed.

Lemma stop_ok e : sup_ok start (tr ++ [(e, w)]) (h ++ []) (Stop w).
Proof using Hok.
  apply (update_ok Hok); [done..|]. split; [apply length_fmap|]. intros k p Hk. exists (cancelled p).
  simpl. rewrite list_lookup_fmap, Hk. split; [done|apply cancelled_le].
Qed.

(** ** The other steps *)

Lemma gate_step_ok e ev g r :
  gate_step ev (sv_gate w) = Next (g, r) -> fair ev (sv_gate w) -> sup_ok start (tr ++ [(e, w)]) (h ++ [(ev, r)]) (with_gate g w).
Proof using Hok.
  intros Hs Hf. apply (sup_quiet_ok Hok); [done..|by eapply extends_step|]. eapply reach_step; [apply Hok|done..].
Qed.

Lemma proxy_ok e px : sup_ok start (tr ++ [(e, w)]) (h ++ []) (with_proxy px w).
Proof using Hok. apply (sup_quiet_ok Hok); [done..|]. rewrite app_nil_r. apply Hok. Qed.

Lemma handleRPC_ok order req w' r h' :
  handleRPC order req w = (w', r, h') -> sup_ok start (tr ++ [(SRpc order req, w)]) (h ++ h') w'.
Proof using Hok.
  assert (sup_ok start (tr ++ [(SRpc order req, w)]) (h ++ []) w) as Hsame.
  { apply (sup_quiet_ok Hok); [done..|]. rewrite app_nil_r. apply Hok. }
  assert (forall ev id d, gate_step ev (sv_gate w) = Next (takeEntry id d (sv_gate w)) -> fair ev (sv_gate w) ->
    sup_ok start (tr ++ [(SRpc order req, w)]) (h ++ [(ev, (takeEntry id d (sv_gate w)).2)])
      (with_gate (takeEntry id d (sv_gate w)).1 w)) as Htake.
  { intros ev id d Hs Hf. apply gate_step_ok; [|done]. rewrite Hs. by destruct (takeEntry _ _ _). }
  assert (forall id d, (takeEntry id d (sv_gate w)).2 = None -> (takeEntry id d (sv_gate w)).1 = sv_gate w) as Hnone.
  { intros id d. unfold takeEntry. by destruct (_ !! _). }
  assert (with_gate (sv_gate w) w = w) as Hid by (by destruct w).
  destruct req; cbn [handleRPC]; try (intros [= <- <- <-]); try exact Hsame; try apply proxy_ok.
  - by eapply (arrive_ok Hok).
  - specialize (Htake (EApprove cmdID addToWhitelist) cmdID (mkDecision true addToWhitelist "") eq_refl I).
    specialize (Hnone cmdID (mkDecision true addToWhitelist "")).
    unfold Approve. destruct ((takeEntry _ _ _).2); intros [= <- <- <-]; [done|]. by rewrite Hnone, Hid in Htake.
  - specialize (Htake (EDeny cmdID reason) cmdID (mkDecision false false reason) eq_refl I).
    specialize (Hnone cmdID (mkDecision false false reason)).
    unfold Deny. destruct ((takeEntry _ _ _).2); intros [= <- <- <-]; [done|]. by rewrite Hnone, Hid in Htake.
  - destruct (String.eqb _ _); apply cancel_ok.
Qed.

Lemma sup_step_ok e w' h' :
  sup_fair e w -> sup_step Quote DurationString canceled e w = Some (w', h') -> sup_ok start (tr ++ [(e, w)]) (h ++ h') w'.
Proof using Hok.
  intros Hf. destruct e; cbn [sup_step].
  - destruct (handleRPC _ _ _) as [[w1 r] h1] eqn:Hrpc. intros [= <- <-]. by eapply handleRPC_ok.
  - apply jobStep_ok.
  - apply registerStep_ok.
  - apply collectStep_ok.
  - apply startStep_ok.
  - apply exitStep_ok.
  - destruct (gate_own _ e) eqn:Hown; [|done]. destruct (gate_step e _) as [[g r]| |] eqn:Hg; try done.
    intros [= <- <-]. apply gate_step_ok; [done|]. by destruct e.
  - intros [= <- <-]. apply stop_ok.
Qed.
End job_steps.

Lemma reach_ok Quote DurationString canceled policy mode start tr h w :
  sup_reach Quote DurationString canceled policy mode start tr h w -> sup_ok start tr h w.
Proof.
  induction 1 as [|tr h w e w' h' _ IH Hf Hs]; [|by eapply sup_step_ok].
  split; [apply reach_init|by intros i jb|by intros k p].
Qed.

(** ** Every request is answered *)

(** The steps that need no operator and no other request: the goroutines of request [i],
    the suspensions and the clock, and processes that end. *)
Definition own (i : nat) (e : SupEvent) : Prop :=
  match e with
  | SJob j | SRegister j _ | SCollect j _ | SStart j _ _ _ => j = i
  | SExit _ _ _ _ => True
  | SGate e => match e with ESelect _ | ETimeout _ | EFinish _ | ETick _ => True | _ => False end
  | SRpc _ _ | SStop => False
  end.

(** What is left to do for a request. *)
Definition rank (jb : Job) : nat :=
  match jb_Phase jb with
  | JDone _ => 0
  | JNext todo => 4 * length todo + 1
  | JWait _ todo => 4 * length todo + 2
  | JStart _ todo => 4 * length todo + 3
  | JGate _ _ todo => 4 * length todo + 4
  | JWaitAll _ => 1
  | JStartAll todo _ => length todo + 2
  | JCollect => length (xr_Commands (jb_Req jb)) + 3 + length (filter (fun wt => wt_Taken wt = false) (jb_Waiters jb))
  | JValidate todo =>
      length (xr_Commands (jb_Req jb)) + 4 + length (filter (fun wt => wt_Taken wt = false) (jb_Waiters jb)) + 2 * length todo
  end%nat.

Section progress.
Context (Quote : string -> string) (DurationString : Z -> string) (canceled : string).
Context (policy : ExecPolicy) (mode : ExecMode) (start : Z).
Abbreviation reachable tr h w := (sup_reach Quote DurationString canceled policy mode start tr h w).

Definition own_step (i : nat) (w w' : Sup) : Prop :=
  exists e h', own i e /\ sup_fair e w /\ sup_step Quote DurationString canceled e w = Some (w', h').

Lemma own_reachable i w w' tr h :
  rtc (own_step i) w w' -> reachable tr h w -> exists tr' h', reachable tr' h' w'.
Proof using Type.
  intros Hr. revert tr h. induction Hr as [w|w1 w2 w3 (e & h' & _ & Hf & Hs) _ IH]; intros tr h Hw; [eauto|].
  eapply IH, sup_next; eassumption.
Qed.

(** A schedule of the gate is one of the supervisor. *)
Lemma gate_own_run i es w g :
  Forall (fun e => own i (SGate e) /\ match e with ETick d => 0 <= d | _ => True end) es ->
  gate_run es (sv_gate w) = Next g -> rtc (own_step i) w (with_gate g w).
Proof using Type.
  intros Hes. revert w. induction Hes as [|e es [Ho Hd] _ IH]; intros w Hg; simpl in Hg.
  - injection Hg as <-. by destruct w.
  - destruct (gate_step e (sv_gate w)) as [[g1 r]| |] eqn:Hs; [|done..].
    eapply rtc_l; [|apply (IH (with_gate g1 w)); exact Hg]. exists (SGate e), [(e, r)]. split_and!; [done| |].
    + by destruct e.
    + cbn [sup_step]. rewrite Hs. by destruct e.
Qed.

(** A suspension returns. *)
Lemma parked_returns i tr h w p :
  reachable tr h w -> parked w p ->
  exists w' pa r, rtc (own_step i) w w' /\ w_heap (sv_gate w') !! p = Some (pa, Returned r) /\
    sv_jobs w' = sv_jobs w /\ sv_procs w' = sv_procs w.
Proof using Type.
  intros Hr [[pa ph] Hp]%lookup_lt_is_Some_2. pose proof (so_gate _ _ _ _ (reach_ok _ _ _ _ _ _ _ _ _ Hr)) as Hg.
  destruct (suspend_returns _ _ _ _ _ _ _ Hg Hp) as (_ & g & pa' & r & Hrun & Hp').
  exists (with_gate g w), pa', r. split_and!; [|done..]. eapply gate_own_run; [|exact Hrun].
  destruct ph; simpl; repeat constructor; done.
Qed.

Lemma own_start i w jb cmd todo ks :
  sv_jobs w !! i = Some jb -> jb_Phase jb = JStart cmd todo \/ jb_Phase jb = JStartAll (cmd :: todo) ks ->
  exists w', own_step i w w' /\ sv_jobs w' = <[i := set_phase (match jb_Phase jb with
    | JStart _ _ => JWait (length (sv_procs w)) todo | _ => JStartAll todo (ks ++ [length (sv_procs w)]) end) jb]> (sv_jobs w).
Proof using Type.
  intros Hi Hph. set (err := if sv_stopped w then Some "" else None). set (order := map_to_list (c_Env cmd)).
  exists (with_job i (set_phase (match jb_Phase jb with
    | JStart _ _ => JWait (length (sv_procs w)) todo | _ => JStartAll todo (ks ++ [length (sv_procs w)]) end) jb)
    (startProcess Quote i (fun _ => false) order err cmd w)). split.
  - exists (SStart i (fun _ => false) order err), []. split_and!; [done| |].
    + intros jb' cmd' todo' ks' Hi' Hph'. simplify_eq.
      assert (cmd' = cmd) as -> by (destruct Hph, Hph'; congruence). done.
    + cbn [sup_step]. unfold startStep. rewrite Hi. unfold err. destruct (sv_stopped w); simpl; by destruct Hph as [-> | ->].
  - unfold startProcess. by destruct err.
Qed.

Lemma own_job i w w' h' :
  jobStep Quote DurationString canceled i w = Some (w', h') -> own_step i w w'.
Proof using Type. intros Hs. by exists (SJob i), h'. Qed.

(** Processes end. *)
Lemma own_exit i k w :
  (k < length (sv_procs w))%nat ->
  exists w', rtc (own_step i) w w' /\ sv_jobs w' = sv_jobs w /\ grows (sv_procs w) (sv_procs w') /\
    exists p r, sv_procs w' !! k = Some p /\ rp_Result p = Some r.
Proof using Type.
  intros [p Hp]%lookup_lt_is_Some_2. destruct (rp_Result p) as [r|] eqn:Hres.
  { exists w. split_and!; [done..|]. eauto. }
  eexists. split_and!.
  - apply rtc_once. exists (SExit k 0 "" ""), []. split_and!; [done..|]. cbn [sup_step]. unfold exitStep. rewrite Hp. simpl.
    by rewrite Hres.
  - done.
  - simpl. intros j q Hj. destruct (decide (j = k)) as [->|Hne].
    + eexists. rewrite list_lookup_insert_eq by (by eapply lookup_lt_Some). split; [done|]. simplify_eq.
      repeat split. intros r. congruence.
    + exists q. rewrite list_lookup_insert_ne by done. by repeat split.
  - do 2 eexists. simpl. rewrite list_lookup_insert_eq by (by eapply lookup_lt_Some). by split.
Qed.

Lemma own_exits i ks w :
  Forall (fun k => k < length (sv_procs w))%nat ks ->
  exists w', rtc (own_step i) w w' /\ sv_jobs w' = sv_jobs w /\ grows (sv_procs w) (sv_procs w') /\
    Forall (fun k => exists p r, sv_procs w' !! k = Some p /\ rp_Result p = Some r) ks.
Proof using Type.
  revert w. induction ks as [|k ks IH]; intros w Hks; [by exists w|].
  apply Forall_cons in Hks as [Hk Hks]. destruct (own_exit i k w Hk) as (w1 & Hr1 & Hj1 & Hg1 & p1 & r1 & Hp1 & Hres1).
  destruct (IH w1) as (w2 & Hr2 & Hj2 & Hg2 & Hall).
  { eapply Forall_impl; [exact Hks|]. intros j [q Hq]%lookup_lt_is_Some_2. destruct (Hg1 j q Hq) as (q' & ? & _).
    by eapply lookup_lt_Some. }
  exists w2. split_and!; [by etrans|congruence|by etrans|]. constructor; [|done].
  destruct (Hg2 k p1 Hp1) as (p2 & Hp2 & _ & _ & Hr). eauto.
Qed.

Lemma procs_of_lt i ps : Forall (fun k => k < length ps)%nat (procs_of i ps).
Proof using Type.
  unfold procs_of. rewrite Forall_forall. intros k [_ [_ Hk]%elem_of_seq]%list_elem_of_filter. lia.
Qed.

(** A goroutine of phase 2 has its result. *)
Lemma waiter_returns i n jb wt w tr h :
  reachable tr h w -> sv_jobs w !! i = Some jb -> jb_Phase jb = JCollect -> jb_Waiters jb !! n = Some wt ->
  exists w' p pa r, rtc (own_step i) w w' /\
    sv_jobs w' = <[i := set_waiters (<[n := mkWaiter (wt_Cmd wt) (Some p) (wt_Taken wt)]> (jb_Waiters jb)) jb]> (sv_jobs w) /\
    w_heap (sv_gate w') !! p = Some (pa, Returned r).
Proof using Type.
  intros Hr Hi Hph Hn. destruct (so_jobs _ _ _ _ (reach_ok _ _ _ _ _ _ _ _ _ Hr) i jb Hi) as [Hw _].
  rewrite Forall_lookup in Hw. destruct (Hw n wt Hn) as [_ Hg _]. destruct (wt_Gate wt) as [p|] eqn:Hgate.
  - destruct (parked_returns i _ _ _ p Hr) as (w' & pa & r & Hrtc & Hp & Hj & _); [by apply Hg|].
    exists w', p, pa, r. split_and!; [done| |done]. rewrite Hj, (list_insert_id (jb_Waiters jb)) by (rewrite Hn, <-Hgate; by destruct wt).
    rewrite list_insert_id; [done|]. rewrite Hi. by destruct jb.
  - set (p := length (w_heap (sv_gate w))).
    assert (exists w1 h1, registerStep i n w = Some (w1, h1) /\ parked w1 p /\
      sv_jobs w1 = <[i := set_waiters (<[n := mkWaiter (wt_Cmd wt) (Some p) (wt_Taken wt)]> (jb_Waiters jb)) jb]> (sv_jobs w))
      as (w1 & h1 & Hs & Hpark & Hj1).
    { unfold registerStep. rewrite Hi. simpl. rewrite Hn. simpl. rewrite Hph, Hgate. do 2 eexists. split_and!; [reflexivity| |done].
      unfold parked. simpl. rewrite length_app. simpl. lia. }
    assert (own_step i w w1) as Hown by (by exists (SRegister i n), h1).
    destruct (own_reachable i w w1 tr h (rtc_once _ _ Hown) Hr) as (tr1 & h2 & Hr1).
    destruct (parked_returns i _ _ _ p Hr1 Hpark) as (w' & pa & r & Hrtc & Hp & Hj & _).
    exists w', p, pa, r. split_and!; [by eapply rtc_l|congruence|done].
Qed.

Lemma untaken_waiter (ws : list Waiter) : forallb wt_Taken ws = false -> exists n wt, ws !! n = Some wt /\ wt_Taken wt = false.
Proof using Type.
  induction ws as [|wt ws IH]; [done|]. simpl. destruct (wt_Taken wt) eqn:Ht; [|by exists 0%nat, wt].
  intros (n & wt' & ? & ?)%IH. by exists (S n), wt'.
Qed.

Lemma taken_less (ws : list Waiter) n wt g :
  ws !! n = Some wt -> wt_Taken wt = false ->
  (length (filter (fun wt => wt_Taken wt = false) (<[n := mkWaiter (wt_Cmd wt) g true]> ws)) <
   length (filter (fun wt => wt_Taken wt = false) ws))%nat.
Proof using Type.
  intros Hn Ht. revert n Hn. induction ws as [|wt0 ws IH]; intros [|n] Hn; simplify_eq/=; rewrite !filter_cons.
  - rewrite decide_False, decide_True by done. simpl. lia.
  - specialize (IH n Hn). case_decide; simpl; lia.
Qed.

Definition closer (i : nat) (jb : Job) (w : Sup) : Prop :=
  exists w' jb', rtc (own_step i) w w' /\ sv_jobs w' !! i = Some jb' /\ (rank jb' < rank jb)%nat.

(** One step more. *)
Lemma closer_job i jb w w0 :
  rtc (own_step i) w w0 -> sv_jobs w0 = sv_jobs w -> sv_jobs w !! i = Some jb ->
  (exists w1 h1 jb1, jobStep Quote DurationString canceled i w0 = Some (w1, h1) /\ sv_jobs w1 = <[i := jb1]> (sv_jobs w0) /\
    (rank jb1 < rank jb)%nat) -> closer i jb w.
Proof using Type.
  intros Hr Hj Hi (w1 & h1 & jb1 & Hs & Hj1 & Hlt). exists w1, jb1. split_and!; [|by rewrite Hj1, Hj, list_lookup_insert_eq by (by eapply lookup_lt_Some)|done].
  eapply rtc_r; [exact Hr|by eapply own_job].
Qed.

(** A batch receives from the gate. *)
Lemma closer_collect i jb n wt w tr h :
  reachable tr h w -> sv_jobs w !! i = Some jb -> jb_Phase jb = JCollect -> jb_Waiters jb !! n = Some wt ->
  wt_Taken wt = false -> closer i jb w.
Proof using Type.
  intros Hr Hi Hph Hn Ht. destruct (waiter_returns _ _ _ _ _ _ _ Hr Hi Hph Hn) as (w0 & p & pa & r & Hrtc & Hj & Hp).
  set (ws := <[n := mkWaiter (wt_Cmd wt) (Some p) (wt_Taken wt)]> (jb_Waiters jb)) in *.
  assert (sv_jobs w0 !! i = Some (set_waiters ws jb)) as Hi0.
  { rewrite Hj. apply list_lookup_insert_eq. by eapply lookup_lt_Some. }
  assert (ws !! n = Some (mkWaiter (wt_Cmd wt) (Some p) (wt_Taken wt))) as Hn0.
  { apply list_lookup_insert_eq. by eapply lookup_lt_Some. }
  assert (exists w1 h1 jb1, collectStep Quote DurationString canceled i n w0 = Some (w1, h1) /\
    sv_jobs w1 = <[i := jb1]> (sv_jobs w0) /\ (rank jb1 < rank jb)%nat) as (w1 & h1 & jb1 & Hs & Hj1 & Hlt).
  { unfold collectStep. rewrite Hi0. simpl. rewrite Hn0. simpl. rewrite Hph, Ht, Hp. simpl.
    pose proof (taken_less _ _ _ (Some p) Hn Ht) as Hless.
    destruct r; do 3 eexists; (split_and!; [reflexivity..|]); unfold rank; rewrite Hph; simpl; try lia.
    unfold ws. rewrite list_insert_insert_eq. destruct (forallb _ _); simpl; lia. }
  exists w1, jb1. split_and!; [|by rewrite Hj1, list_lookup_insert_eq by (by eapply lookup_lt_Some)|done].
  eapply rtc_r; [exact Hrtc|]. by exists (SCollect i n), h1.
Qed.

(** From any state in which a request is not answered its own steps bring it forward. *)
Lemma request_forward i jb w tr h :
  reachable tr h w -> sv_jobs w !! i = Some jb -> (rank jb <> 0)%nat -> closer i jb w.
Proof using Type.
  intros Hr Hi Hrank. pose proof (reach_ok _ _ _ _ _ _ _ _ _ Hr) as Hok.
  destruct (so_jobs _ _ _ _ Hok i jb Hi) as [Hw Hp]. unfold job_phase_ok in Hp.
  destruct (jb_Phase jb) as [[|cmd todo]|cmd p todo|cmd todo|k todo|[|cmd todo]| |[|cmd todo] ks|ks|resp] eqn:Hph.
  - eapply closer_job; [done..|]. unfold jobStep. rewrite Hi. simpl. rewrite Hph. do 3 eexists. split_and!; [reflexivity..|].
    unfold rank. rewrite Hph. simpl. lia.
  - eapply closer_job; [done..|]. unfold jobStep. rewrite Hi. simpl. rewrite Hph.
    destruct (Execute _ cmd _) as [px []]; do 3 eexists; (split_and!; [reflexivity..|]); unfold rank; rewrite Hph; simpl; lia.
  - destruct Hp as (done & _ & _ & _ & _ & _ & Hpark).
    destruct (parked_returns i _ _ _ p Hr Hpark) as (w0 & pa & r & Hrtc & Hp & Hj & _).
    eapply closer_job; [exact Hrtc|done..|]. unfold jobStep. rewrite (eq_trans (f_equal (.!! i) Hj) Hi). simpl. rewrite Hph, Hp. simpl.
    destruct r; do 3 eexists; (split_and!; [reflexivity..|]); unfold rank; rewrite Hph; simpl; lia.
  - destruct (own_start i w jb cmd todo [] Hi) as (w' & Hs & Hj); [by left|]. rewrite Hph in Hj.
    exists w', (set_phase (JWait (length (sv_procs w)) todo) jb). split_and!; [by apply rtc_once| |].
    + rewrite Hj. apply list_lookup_insert_eq. by eapply lookup_lt_Some.
    + unfold rank. rewrite Hph. simpl. lia.
  - destruct Hp as (done & ks' & _ & _ & Hks & _). pose proof (procs_of_lt i (sv_procs w)) as Hlt. rewrite Hks in Hlt.
    apply Forall_app in Hlt as [_ [Hlt _]%Forall_cons].
    destruct (own_exit i k w Hlt) as (w0 & Hrtc & Hj & _ & p & r & Hp & Hres).
    eapply closer_job; [exact Hrtc|done..|]. unfold jobStep. rewrite (eq_trans (f_equal (.!! i) Hj) Hi). simpl. rewrite Hph, Hp. simpl. rewrite Hres. simpl.
    do 3 eexists. split_and!; [reflexivity..|]. unfold rank. rewrite Hph. simpl. lia.
  - eapply closer_job; [done..|]. unfold jobStep. rewrite Hi. simpl. rewrite Hph. do 3 eexists. split_and!; [reflexivity..|].
    unfold rank. rewrite Hph. simpl. case_decide; simpl; lia.
  - eapply closer_job; [done..|]. unfold jobStep. rewrite Hi. simpl. rewrite Hph.
    destruct (Validate _ cmd _) as [px v]. destruct (vr_Verdict v); do 3 eexists; (split_and!; [reflexivity..|]);
      unfold rank; rewrite Hph; simpl; rewrite ?filter_app, ?length_app; simpl; lia.
  - destruct Hp as (_ & _ & _ & (n & wt & Hn & Ht)%untaken_waiter). by eapply closer_collect.
  - eapply closer_job; [done..|]. unfold jobStep. rewrite Hi. simpl. rewrite Hph. do 3 eexists. split_and!; [reflexivity..|].
    unfold rank. rewrite Hph. simpl. lia.
  - destruct (own_start i w jb cmd todo ks Hi) as (w' & Hs & Hj); [by right|]. rewrite Hph in Hj.
    exists w', (set_phase (JStartAll todo (ks ++ [length (sv_procs w)])) jb). split_and!; [by apply rtc_once| |].
    + rewrite Hj. apply list_lookup_insert_eq. by eapply lookup_lt_Some.
    + unfold rank. rewrite Hph. simpl. lia.
  - destruct Hp as (_ & Hks & _). destruct (own_exits i ks w) as (w0 & Hrtc & Hj & _ & Hall); [rewrite Hks; apply procs_of_lt|].
    assert (is_Some (mapM (fun k => p ← sv_procs w0 !! k; rp_Result p) ks)) as [results Hres].
    { apply mapM_is_Some_2. eapply Forall_impl; [exact Hall|]. intros k (p & r & Hk & Hr'). exists r. by rewrite Hk. }
    eapply closer_job; [exact Hrtc|done..|]. unfold jobStep. rewrite (eq_trans (f_equal (.!! i) Hj) Hi). simpl. rewrite Hph, Hres. simpl.
    do 3 eexists. split_and!; [reflexivity..|]. unfold rank. rewrite Hph. simpl. lia.
  - unfold rank in Hrank. by rewrite Hph in Hrank.
Qed.

Lemma answered_eventually i jb w tr h :
  reachable tr h w -> sv_jobs w !! i = Some jb ->
  exists w' jb' resp, rtc (own_step i) w w' /\ sv_jobs w' !! i = Some jb' /\ jb_Phase jb' = JDone resp.
Proof using Type.
  remember (rank jb) as n eqn:Hn. revert jb w tr h Hn. induction (lt_wf n) as [n _ IH]. intros jb w tr h -> Hr Hi.
  destruct (decide (rank jb = 0%nat)) as [Hz|Hz].
  - exists w, jb. unfold rank in Hz. destruct (jb_Phase jb) eqn:Hph; try (exfalso; lia). by eexists.
  - destruct (request_forward _ _ _ _ _ Hr Hi Hz) as (w1 & jb1 & Hr1 & Hi1 & Hlt).
    destruct (own_reachable _ _ _ _ _ Hr1 Hr) as (tr1 & h1 & Hreach).
    destruct (IH _ Hlt _ _ _ _ eq_refl Hreach Hi1) as (w2 & jb2 & resp & Hr2 & ? & ?).
    exists w2, jb2, resp. split_and!; [by etrans|done..].
Qed.
End progress.

(** ** Claims *)

Lemma ended_prefix ps ks k rs : ended ps (ks ++ [k]) rs -> exists rs', ended ps ks rs'.
Proof. intros (rs1 & rs2 & H1 & _ & _)%Forall2_app_inv_l. by exists rs1. Qed.

(** How far a request is: its processes are those of a prefix of its commands, and one
    that runs its commands one after the other has at most its last process running. *)
Lemma request_progress tr h w i jb :
  job_ok tr h w i jb ->
  exists done todo, xr_Commands (jb_Req jb) = done ++ todo /\ ran (sv_procs w) (procs_of i (sv_procs w)) done /\
    (isBatch (jb_Req jb) = false -> forall ks k, procs_of i (sv_procs w) = ks ++ [k] -> exists rs, ended (sv_procs w) ks rs).
Proof.
  intros [_ Hp]. unfold job_phase_ok in Hp.
  assert (forall rs ks k, ended (sv_procs w) (procs_of i (sv_procs w)) rs -> procs_of i (sv_procs w) = ks ++ [k] ->
    exists rs', ended (sv_procs w) ks rs') as Hpre by (intros rs ks k He Hk; rewrite Hk in He; by eapply ended_prefix).
  assert (forall cmds, procs_of i (sv_procs w) = [] -> isBatch (jb_Req jb) = true ->
    exists done todo, cmds = done ++ todo /\ ran (sv_procs w) (procs_of i (sv_procs w)) done /\
    (isBatch (jb_Req jb) = false -> forall ks k, procs_of i (sv_procs w) = ks ++ [k] -> exists rs, ended (sv_procs w) ks rs)) as Hnone.
  { intros cmds Hks Hb. exists [], cmds. rewrite Hks. split_and!; [done|constructor|congruence]. }
  destruct (jb_Phase jb) as [todo|cmd p todo|cmd todo|k todo|todo| |todo ks|ks|resp].
  - destruct Hp as (done & Hc & [_ Hr] & He). exists done, todo. eauto.
  - destruct Hp as (done & Hc & [_ Hr] & He & _). exists done, (cmd :: todo). eauto.
  - destruct Hp as (done & Hc & [_ Hr] & He & _). exists done, (cmd :: todo). eauto.
  - destruct Hp as (done & ks' & Hc & [_ Hr] & Hks & He). exists done, todo. split_and!; [done..|].
    intros _ ks0 k0. rewrite Hks. intros [<- _]%app_inj_tail. eauto.
  - destruct Hp as (done & _ & Hb & Hks & _). by apply Hnone.
  - destruct Hp as (Hb & Hks & _). by apply Hnone.
  - destruct Hp as (done & Hc & Hb & _ & Hr & _). exists done, todo. split_and!; [done..|congruence].
  - destruct Hp as (Hb & _ & Hr). exists (xr_Commands (jb_Req jb)), []. rewrite app_nil_r. split_and!; [done..|congruence].
  - destruct Hp as [Hbatch Hseq]. destruct (isBatch (jb_Req jb)) eqn:Hb.
    + destruct (Hbatch eq_refl) as [[_ Hks]|(Hr & _)]; [by apply Hnone|].
      exists (xr_Commands (jb_Req jb)), []. rewrite app_nil_r. split_and!; [done..|congruence].
    + destruct (Hseq eq_refl) as [(Hr & He & _)|(done & cmd & todo & rs & r & Hc & Hr & He & _)].
      * exists (xr_Commands (jb_Req jb)), []. rewrite app_nil_r. eauto.
      * exists done, (cmd :: todo). eauto.
Qed.

Lemma exitStatus_success rs : exitStatus rs = "success" <-> Forall (fun r => cr_ExitCode r = 0) rs.
Proof.
  unfold exitStatus. induction rs as [|r rs IH]; [by split|]. simpl. rewrite Forall_cons, <-IH.
  destruct (Z.eqb_spec (cr_ExitCode r) 0); simpl; [tauto|]. split; [done|]. by intros [? _].
Qed.

(** An answer says success exactly when every command ran and exited with zero. *)
Lemma answer_status tr w i req resp :
  answer_ok tr w i req resp ->
  (xp_Status resp = "success" <->
   ran (sv_procs w) (procs_of i (sv_procs w)) (xr_Commands req) /\
   ended (sv_procs w) (procs_of i (sv_procs w)) (xp_Results resp) /\ Forall (fun r => cr_ExitCode r = 0) (xp_Results resp)).
Proof.
  intros [Hbatch Hseq].
  assert (ran (sv_procs w) (procs_of i (sv_procs w)) (xr_Commands req) /\
    ended (sv_procs w) (procs_of i (sv_procs w)) (xp_Results resp) /\
    xp_Status resp = exitStatus (xp_Results resp) /\ xp_Error resp = "" ->
    (xp_Status resp = "success" <-> ran (sv_procs w) (procs_of i (sv_procs w)) (xr_Commands req) /\
     ended (sv_procs w) (procs_of i (sv_procs w)) (xp_Results resp) /\ Forall (fun r => cr_ExitCode r = 0) (xp_Results resp))) as Hall.
  { intros (Hr & He & Hs & _). rewrite Hs, exitStatus_success. tauto. }
  destruct (isBatch req) eqn:Hb.
  - destruct (Hbatch eq_refl) as [[Hresp Hks]|H]; [|by apply Hall]. rewrite Hresp. simpl. split; [done|].
    intros (Hr & _). rewrite Hks in Hr. apply Forall2_nil_inv_l in Hr. unfold isBatch in Hb. rewrite Hr in Hb.
    by rewrite andb_false_r in Hb.
  - destruct (Hseq eq_refl) as [H|(done & cmd & todo & rs & r & Hc & Hr & _ & _ & _ & _ & Hresp)]; [by apply Hall|].
    rewrite Hresp. simpl. split; [done|]. intros (Hr' & _).
    apply Forall2_length in Hr. apply Forall2_length in Hr'. rewrite Hc, length_app in Hr'. simpl in Hr'. lia.
Qed.

Lemma answer_two tr w i req resp :
  answer_ok tr w i req resp -> xp_Status resp = "success" \/ xp_Status resp = "failed".
Proof.
  assert (forall rs, exitStatus rs = "success" \/ exitStatus rs = "failed") as Hex
    by (intros rs; unfold exitStatus; destruct (existsb _ _); auto).
  intros [Hbatch Hseq]. destruct (isBatch req).
  - destruct (Hbatch eq_refl) as [[-> _]|(_ & _ & -> & _)]; [by right|apply Hex].
  - destruct (Hseq eq_refl) as [(_ & _ & -> & _)|(? & ? & ? & ? & ? & _ & _ & _ & _ & _ & _ & ->)]; [apply Hex|by right].
Qed.

(** C25 Execution requests, whatever other requests, approvals, policy and mode changes,
    cancellations, exits and shutdown do at the same time: every process was started for
    a command of the request it belongs to, and the proxy allowed that command to this
    request when asked, or asked for an approval and the operator approved the very
    suspension the request made for it. The processes of a request are those of a prefix
    of its commands, in order; one after the other, unless it is a batch. An answer is
    never "pending_approval"; a batch is answered with nothing started or with the results
    of all its commands; a sequence with the results of all its commands, or those of the
    commands before the first one that was turned down and that refusal with exit code
    -1; and it says success exactly when every command ran and exited with zero. *)
Theorem exec_correct Quote DurationString canceled policy mode start tr h w :
  sup_reach Quote DurationString canceled policy mode start tr h w ->
  (forall k p, sv_procs w !! k = Some p ->
     (exists jb, sv_jobs w !! rp_Job p = Some jb /\ rp_Cmd p ∈ xr_Commands (jb_Req jb)) /\ consent tr h (rp_Job p) (rp_Cmd p)) /\
  (forall i jb, sv_jobs w !! i = Some jb ->
     (exists done todo, xr_Commands (jb_Req jb) = done ++ todo /\ ran (sv_procs w) (procs_of i (sv_procs w)) done /\
        (isBatch (jb_Req jb) = false -> forall ks k, procs_of i (sv_procs w) = ks ++ [k] -> exists rs, ended (sv_procs w) ks rs)) /\
     forall resp, jb_Phase jb = JDone resp ->
       answer_ok tr w i (jb_Req jb) resp /\
       (xp_Status resp = "success" <-> ran (sv_procs w) (procs_of i (sv_procs w)) (xr_Commands (jb_Req jb)) /\
          ended (sv_procs w) (procs_of i (sv_procs w)) (xp_Results resp) /\
          Forall (fun r => cr_ExitCode r = 0) (xp_Results resp)) /\
       (xp_Status resp = "success" \/ xp_Status resp = "failed")).
Proof.
  intros Hok%reach_ok. split.
  - intros k p Hk. by destruct (so_procs _ _ _ _ Hok k p Hk) as (? & ? & _).
  - intros i jb Hi. pose proof (so_jobs _ _ _ _ Hok i jb Hi) as Hjob. split; [by eapply request_progress|].
    intros resp Hph. destruct Hjob as [_ Hp]. unfold job_phase_ok in Hp. rewrite Hph in Hp.
    split_and!; [done|by apply (answer_status tr)|]. by eapply answer_two.
Qed.

(** C26 Every execution request is answered: from every reachable state its own
    goroutines, the timers of the gate and the ends of its processes suffice to bring it
    to an answer, with no operator and no other request. *)
Theorem exec_answered Quote DurationString canceled policy mode start tr h w i jb :
  sup_reach Quote DurationString canceled policy mode start tr h w -> sv_jobs w !! i = Some jb ->
  exists w' jb' resp, rtc (own_step Quote DurationString canceled i) w w' /\
    sv_jobs w' !! i = Some jb' /\ jb_Phase jb' = JDone resp.
Proof. apply answered_eventually. Qed.

(** ** Runs *)

(** [sup_fair], decided. *)
Definition sup_fairb (e : SupEvent) (w : Sup) : bool :=
  match e with
  | SGate (ETick d) => 0 <=? d
  | SRpc order RListPending => bool_decide (order = map_to_list (g_pending (w_gate (sv_gate w))))
  | SStart i _ order _ =>
      match jb_Phase <$> sv_jobs w !! i with
      | Some (JStart cmd _) | Some (JStartAll (cmd :: _) _) => bool_decide (order = map_to_list (c_Env cmd))
      | _ => true
      end
  | _ => true
  end.

Lemma sup_fairb_fair e w : sup_fairb e w = true -> sup_fair e w.
Proof.
  destruct e as [order []| | | |i stat order err| |[]|]; simpl; try done.
  - by intros ->%bool_decide_eq_true.
  - intros Hf jb cmd todo ks Hi Hph. rewrite Hi in Hf. simpl in Hf.
    by destruct Hph as [Hph|Hph]; rewrite Hph in Hf; apply bool_decide_eq_true in Hf as ->.
  - intros ?%Z.leb_le. done.
Qed.

Section runs.
Context (Quote : string -> string) (DurationString : Z -> string) (canceled : string).

Fixpoint sup_trace (es : list SupEvent) (s : Trace * History * Sup) : option (Trace * History * Sup) :=
  match es with
  | [] => Some s
  | e :: es =>
      let '(tr, h, w) := s in
      '(w', h') ← sup_step Quote DurationString canceled e w;
      if sup_fairb e w then sup_trace es (tr ++ [(e, w)], h ++ h', w') else None
  end.

Lemma sup_trace_reach policy mode start es tr h w tr' h' w' :
  sup_reach Quote DurationString canceled policy mode start tr h w -> sup_trace es (tr, h, w) = Some (tr', h', w') ->
  sup_reach Quote DurationString canceled policy mode start tr' h' w'.
Proof using Type.
  revert tr h w. induction es as [|e es IH]; intros tr h w Hr; simpl; [by intros [= <- <- <-]|].
  destruct (sup_step _ _ _ e w) as [[w1 h1]|] eqn:Hs; [|done]. simpl.
  destruct (sup_fairb e w) eqn:Hf; [|done]. apply IH. eapply sup_next; [done| |done]. by apply sup_fairb_fair.
Qed.
End runs.

(** Every file is there, and the environment of the commands is empty. *)
Definition sstart (i : nat) (err : option string) : SupEvent := SStart i (fun _ => true) [] err.

Definition demo (policy : ExecPolicy) (es : list SupEvent) : Trace * History * Sup :=
  default ([], [], NewServer policy ModeExecute 0)
    (sup_trace (fun s => s) (fun _ => "5m0s") "context canceled" es ([], [], NewServer policy ModeExecute 0)).

Lemma demo_reach policy es :
  sup_reach (fun s => s) (fun _ => "5m0s") "context canceled" policy ModeExecute 0
    (demo policy es).1.1 (demo policy es).1.2 (demo policy es).2.
Proof.
  unfold demo. destruct (sup_trace _ _ _ _ _) as [[[tr h] w]|] eqn:Ht; [|apply sup_init].
  eapply sup_trace_reach; [apply sup_init|exact Ht].
Qed.

Definition lsOnly : ExecPolicy := withAllowed ["ls"] DefaultExecPolicy.
Definition exec_req (parallel : bool) (cmds : list Command) : SupEvent := SRpc [] (RExec (mkExecReq cmds parallel)).

(** A batch of [ls], which is on the white list, and [rm], which the operator approves. *)
Definition batch_run : list SupEvent :=
  [exec_req true [ls; rm2]; SJob 0; SJob 0; SJob 0; SRegister 0 0; SGate (ESelect 0);
   SRpc [] (RApprove "c2" false); SGate (ESend 0); SGate (EDecision 0); SGate (EFinish 0); SCollect 0 0;
   sstart 0 None; sstart 0 None; SJob 0; SExit 1 0 "" ""; SExit 0 0 "a" ""; SJob 0].

Lemma exec_correct_witness :
  exists jb resp, sv_jobs (demo lsOnly batch_run).2 !! 0%nat = Some jb /\ jb_Phase jb = JDone resp /\
    xp_Status resp = "success" /\
    ran (sv_procs (demo lsOnly batch_run).2) (procs_of 0 (sv_procs (demo lsOnly batch_run).2)) [ls; rm2].
Proof.
  do 2 eexists. split; [vm_compute; reflexivity|]. split; [vm_compute; reflexivity|].
  split; [vm_compute; reflexivity|].
  destruct (exec_correct (fun s => s) (fun _ => "5m0s") "context canceled" lsOnly ModeExecute 0
    (demo lsOnly batch_run).1.1 (demo lsOnly batch_run).1.2 (demo lsOnly batch_run).2 (demo_reach lsOnly batch_run)) as [_ H].
  destruct (proj2 (H 0%nat _ (ltac:(vm_compute; reflexivity))) _ eq_refl) as (_ & Hs & _).
  apply Hs. vm_compute. reflexivity.
Defined.

Definition waiting_run' : list SupEvent := [exec_req false [rm2; ls]; SJob 0].

Lemma exec_answered_witness :
  exists w' jb' resp, rtc (own_step (fun s => s) (fun _ => "5m0s") "context canceled" 0) (demo lsOnly waiting_run').2 w' /\
    sv_jobs w' !! 0%nat = Some jb' /\ jb_Phase jb' = JDone resp.
Proof.
  eapply (exec_answered (fun s => s) (fun _ => "5m0s") "context canceled" lsOnly ModeExecute 0 _ _ _ 0%nat).
  - exact (demo_reach lsOnly waiting_run').
  - vm_compute. reflexivity.
Defined.

(** ** What the code does beside its comments *)

(** A process that does not start is a result and not an error, so the branch of
    [ExecuteParallel] that cancels the batch is never taken: the other process runs on. *)
Lemma failed_start_goes_on :
  let w := (demo DefaultExecPolicy [exec_req true [ls; rm2]; SJob 0; SJob 0; SJob 0; sstart 0 (Some "no such file");
    sstart 0 None; SJob 0; SExit 1 0 "" ""; SJob 0]).2 in
  (exists jb resp, sv_jobs w !! 0%nat = Some jb /\ jb_Phase jb = JDone resp /\ xp_Error resp = "" /\ length (xp_Results resp) = 2%nat) /\
  rp_Cancelled <$> sv_procs w = [false; false].
Proof.
  split; [|vm_compute; reflexivity]. do 2 eexists. split; [vm_compute; reflexivity|].
  split; [vm_compute; reflexivity|]. split; reflexivity.
Qed.

(** A sequence asks for one approval at a time: the approval of a later command, sent with
    the one of the first, is an error. *)
Lemma later_approval_fails :
  let w := (demo lsOnly [exec_req false [rm; rm2]; SJob 0; SRpc [] (RApprove "c1" false)]).2 in
  (handleRPC [] (RApprove "c2" false) w).1.2 = Some (AnswerError "no pending approval for command c2").
Proof. vm_compute. reflexivity. Qed.

(** Cancelling a command that waits for approval says ok and does nothing. *)
Lemma cancel_misses_suspended :
  let w := (demo lsOnly waiting_run').2 in
  handleRPC [] (RCancel "c2") w = (w, Some (AnswerText "ok"), []) /\
  handleRPC [] (RCancel "") w = (w, Some (AnswerText "ok"), []).
Proof. split; vm_compute; reflexivity. Qed.

(** Cancelling the commands of a sequence kills the current one; the next one starts. *)
Lemma cancelled_goes_on :
  let w := (demo DefaultExecPolicy [exec_req false [ls; rm2]; SJob 0; sstart 0 None; SRpc [] (RCancel "");
    SExit 0 (-1) "" ""; SJob 0; SJob 0; sstart 0 None]).2 in
  (c_Command ∘ rp_Cmd) <$> sv_procs w = ["ls"; "rm"] /\ rp_Result <$> sv_procs w !! 1%nat = Some None.
Proof. split; vm_compute; reflexivity. Qed.

(** Commands of different requests may share an ID; when one ends the other can no longer
    be cancelled. *)
Lemma shared_id_not_cancelled :
  let w := (demo DefaultExecPolicy [exec_req false [ls]; exec_req false [ls]; SJob 0; SJob 1; sstart 0 None; sstart 1 None;
    SExit 0 0 "" ""]).2 in
  handleRPC [] (RCancel "c1") w = (w, Some (AnswerText "ok"), []) /\ rp_Result <$> sv_procs w !! 1%nat = Some None.
Proof. split; vm_compute; reflexivity. Qed.

(** A denied command ends its batch while the other one stays at the gate. *)
Lemma batch_leaves_waiters :
  let w := (demo lsOnly [exec_req true [rm; rm2]; SJob 0; SJob 0; SJob 0; SRegister 0 0; SRegister 0 1; SGate (ESelect 0);
    SRpc [] (RDeny "c1" "no"); SGate (ESend 0); SGate (EDecision 0); SGate (EFinish 0); SCollect 0 0]).2 in
  (exists jb resp, sv_jobs w !! 0%nat = Some jb /\ jb_Phase jb = JDone resp /\ xp_Status resp = "failed") /\
  (handleRPC [("c2", 1%nat)] RListPending w).1.2 =
    Some (AnswerPending [mkInfo "c2" "rm" (BatchApproval "rm")]).
Proof.
  split; [|vm_compute; reflexivity]. do 2 eexists. split; [vm_compute; reflexivity|].
  split; [vm_compute; reflexivity|]. reflexivity.
Qed.
