(* ===== verification/Agent.v ===== *)
(** * The worker agent and the embedded worker

    [src/internal/worker/agent.go] keeps the microVMs of a worker: the map of
    sessions (services included), the session objects with their connection
    to the supervisor and their lock, and the calls in progress.
    [src/internal/controlplane/localworker.go] feeds it the commands of the
    control plane, some in turn and some in goroutines of their own.

    The model is a step machine: a thread per call, a step per action between
    two points where the code waits (for a lock, the hypervisor, the
    supervisor or the object store).  The hypervisor is an interface,
    [Backend], that [src/pkg/lokavm/ch_linux.go] and
    [src/pkg/lokavm/kvm_linux.go] implement. *)

From stdpp Require Import options.
From S2P Require Import Prelude GoStrings GoPath Filesystem Network Policy Entities VMBoot Supervisor.
Open Scope nat_scope.

(** ** The hypervisor *)

Inductive VMState := VMStateCreated | VMStateStarting | VMStateRunning | VMStatePaused | VMStateStopped.
#[global] Instance VMState_eq_dec : EqDecision VMState.
Proof. solve_decision. Defined.

(** A machine: the state the back end reports, whether the worker has started the guest
    and not stopped it, whether its [cancel] channel is closed (KVM), and whether the guest
    has ended by itself. *)
Record VMEntry := mkVM {
  vm_config : VMConfig;
  vm_state : VMState;
  vm_live : bool;
  vm_cancelled : bool;
  vm_died : bool
}.

(** What differs between the back ends: the transitions of one machine. The
    flag is the outcome of the system calls; [None] is a panic. [guestDies] is what
    a back end records of a guest that ends by itself. *)
Class Backend := {
  startVM : bool -> VMEntry -> VMEntry * bool;
  stopVM : VMEntry -> option VMEntry;
  pauseVM : bool -> VMEntry -> VMEntry;
  resumeVM : bool -> VMEntry -> VMEntry;
  snapshotVM : bool -> VMEntry -> VMEntry * bool;
  guestDies : VMEntry -> VMEntry
}.

(** What the agent relies on. *)
Class BackendOk (B : Backend) : Prop := {
  start_live v v' : startVM true v = (v', true) -> vm_cancelled v = false -> vm_live v' = true;
  start_outcome ok v : (startVM ok v).2 = ok;
  start_cancelled ok v : vm_cancelled (startVM ok v).1 = vm_cancelled v;
  stop_dead v v' : stopVM v = Some v' -> vm_live v' = false;
  stop_first v : vm_cancelled v = false -> is_Some (stopVM v);
  resume_same ok v : vm_live (resumeVM ok v) = vm_live v /\ vm_cancelled (resumeVM ok v) = vm_cancelled v;
  snapshot_same ok v :
    vm_live (snapshotVM ok v).1 = vm_live v /\ vm_cancelled (snapshotVM ok v).1 = vm_cancelled v;
  dies_same v : vm_live (guestDies v) = vm_live v /\ vm_cancelled (guestDies v) = vm_cancelled v
}.

(** *** Cloud Hypervisor: a process per machine, killed at each stop; pausing
    goes through its API and leaves the recorded state alone.  Nothing waits for
    the process but a stop. *)
Module CH.
Definition StartVM (ok : bool) (v : VMEntry) : VMEntry * bool :=
  if ok then (mkVM (vm_config v) VMStateRunning true (vm_cancelled v) false, true) else (v, false).
Definition StopVM (v : VMEntry) : option VMEntry :=
  Some (mkVM (vm_config v) VMStateStopped false (vm_cancelled v) (vm_died v)).
Definition PauseVM (ok : bool) (v : VMEntry) : VMEntry := v.
Definition ResumeVM (ok : bool) (v : VMEntry) : VMEntry := v.
Definition CreateSnapshot (ok : bool) (v : VMEntry) : VMEntry * bool := (PauseVM ok v, ok).
Definition processEnds (v : VMEntry) : VMEntry :=
  mkVM (vm_config v) (vm_state v) (vm_live v) (vm_cancelled v) true.
#[global] Instance backend : Backend :=
  {| startVM := StartVM; stopVM := StopVM; pauseVM := PauseVM; resumeVM := ResumeVM;
     snapshotVM := CreateSnapshot; guestDies := processEnds |}.
#[global] Instance backend_ok : BackendOk backend.
Proof.
  split; try done.
  - intros v v' [= <-] _. done.
  - by intros [].
  - by intros [].
  - intros v v' [= <-]. done.
Qed.
End CH.

(** *** KVM: stopping closes a channel, which panics the second time; pausing
    and resuming set the recorded state whatever it was.  A guest that shuts down
    sets it to stopped ([runVCPU]). *)
Module KVM.
Definition with_state (s : VMState) (v : VMEntry) : VMEntry :=
  mkVM (vm_config v) s (vm_live v) (vm_cancelled v) (vm_died v).
Definition StartVM (ok : bool) (v : VMEntry) : VMEntry * bool :=
  if ok then (mkVM (vm_config v) VMStateRunning (negb (vm_cancelled v)) (vm_cancelled v) false, true)
  else (with_state VMStateStopped (with_state VMStateStarting v), false).
Definition StopVM (v : VMEntry) : option VMEntry :=
  if vm_cancelled v then None else Some (mkVM (vm_config v) VMStateStopped false true (vm_died v)).
Definition PauseVM (ok : bool) (v : VMEntry) : VMEntry := with_state VMStatePaused v.
Definition ResumeVM (ok : bool) (v : VMEntry) : VMEntry := with_state VMStateRunning v.
Definition CreateSnapshot (ok : bool) (v : VMEntry) : VMEntry * bool := (with_state VMStatePaused v, ok).
Definition runVCPU (v : VMEntry) : VMEntry :=
  mkVM (vm_config v) VMStateStopped (vm_live v) (vm_cancelled v) true.
#[global] Instance backend : Backend :=
  {| startVM := StartVM; stopVM := StopVM; pauseVM := PauseVM; resumeVM := ResumeVM;
     snapshotVM := CreateSnapshot; guestDies := runVCPU |}.
#[global] Instance backend_ok : BackendOk backend.
Proof.
  split; try done.
  - intros v v' [= <-] Hc. simpl. by rewrite Hc.
  - by intros [].
  - by intros [].
  - intros v v'. simpl. unfold StopVM. destruct (vm_cancelled v); [done|]. intros [= <-]. done.
  - intros v Hc. simpl. unfold StopVM. by rewrite Hc.
Qed.
End KVM.

(** ** Options, requests and threads *)

Record SessionOpts := mkSessionOpts {
  so_Mode : ExecMode;
  so_Policy : ExecPolicy;
  so_Launch : LaunchOpts
}.
(** The options of a service that the agent's own steps depend on; the
    command and its environment go to the supervisor as they are. *)
Record ServiceLaunchOpts := mkServiceLaunchOpts {
  vo_Launch : LaunchOpts;
  vo_Port : Z;
  vo_BundleKey : string;
  vo_IsAppSnapshotRestore : bool
}.

(** [SessionState]; the VM is found by the ID. The paths of the application
    snapshot are never assigned and stay empty. [opMu] is the thread that
    holds the lock. *)
Record SessionState := mkSess {
  ss_ID : string;
  ss_Mode : ExecMode;
  ss_Policy : ExecPolicy;
  ss_Vsock : bool;
  ss_LayerMap : gmap string string;
  ss_Forward : option Z;
  ss_opMu : option nat
}.

(** The calls that look a session up and use its connection without its lock. *)
Inductive Op :=
  | OpSetMode (mode : ExecMode)
  | OpApprove (cmdID : string) (addToWhitelist : bool)
  | OpDeny (cmdID reason : string)
  | OpAddToWhitelist (command : string)
  | OpCancelAll
  | OpStopService
  | OpServiceStatus
  | OpServiceLogs (lines : Z).

Inductive Task :=
  | TLaunchSession (id : string) (opts : SessionOpts)
  | TLaunchService (id : string) (opts : ServiceLaunchOpts)
  | TStop (id : string)
  | TExec (id : string) (req : ExecRequest)
  | TOp (id : string) (op : Op)
  | TReap
  | TCheckpoint (id checkpointID : string)
  | THealth (id : string) (port : Z)
  | TSnapshot (id : string).

(** Where a thread is. *)
Inductive ThreadPhase :=
  | Queued (task : Task)
  (** [LaunchSession], holding [a.mu] *)
  | SessLocked (id : string) (opts : SessionOpts)
  | SessCreated (id : string) (opts : SessionOpts)
  | SessStarted (id : string) (opts : SessionOpts) (pings : nat)
  (** [LaunchService] *)
  | SvcInit (id : string) (opts : ServiceLaunchOpts)
  | SvcCreated (id : string) (opts : ServiceLaunchOpts)
  | SvcStarted (id : string) (opts : ServiceLaunchOpts) (pings : nat)
  | SvcReady (id : string) (opts : ServiceLaunchOpts)
  | SvcRegister (id : string) (opts : ServiceLaunchOpts)
  | SvcForward (id : string) (opts : ServiceLaunchOpts)
  | SvcListen (id : string) (opts : ServiceLaunchOpts) (sess : nat) (port : Z)
  (** [StopSession] *)
  | StopClosing (id : string) (sess : nat)
  | StopMachine (id : string) (sess : nat)
  | StopDelete (id : string) (sess : nat)
  (** [ExecCommands] *)
  | ExecLock (sess : nat) (req : ExecRequest)
  | ExecRunning (sess : nat) (req : ExecRequest)
  (** the other calls *)
  | OpUse (sess : nat) (op : Op)
  | ReapApply (active : gset string)
  | CpRunning (sess : nat) (checkpointID : string)
  | CpRecord (sess : nat) (checkpointID layer : string)
  | HealthPoll (id : string) (sess : nat) (tries : nat)
  | HealthSnap (id : string)
  | HealthResume (id : string)
  | Done (ok : bool).

(** A thread, with the tasks that follow: the flag tells that a task needs the
    one before it to succeed. *)
Record Thread := mkThread { th_phase : ThreadPhase; th_then : list (bool * Task) }.

(** The commands of the control plane. *)
Inductive LocalCommand :=
  | CmdLaunchSession (id : string) (opts : SessionOpts)
  | CmdStopSession (id : string)
  | CmdExec (id : string) (req : ExecRequest)
  | CmdSetMode (id : string) (mode : ExecMode)
  | CmdCancelExec (id : string)
  | CmdApproveExec (id : string) (commandIDs : list string) (req : ExecRequest)
  | CmdAddToWhitelist (id command : string)
  | CmdApproveGate (id cmdID : string) (addToWhitelist : bool)
  | CmdDenyGate (id cmdID reason : string)
  | CmdCreateCheckpoint (id checkpointID : string)
  | CmdLaunchService (id : string) (opts : ServiceLaunchOpts)
  | CmdSnapshotService (id : string)
  | CmdStopService (id : string)
  | CmdServiceExec (id : string) (req : ExecRequest)
  | CmdServiceStatus (id : string)
  | CmdServiceLogs (id : string) (lines : Z)
  | CmdUnknown (type : string).

(** [handleCommand]: whether the loop waits for the call, and the tasks of its
    thread. *)
Definition handleCommand (cmd : LocalCommand) : bool * list (bool * Task) :=
  match cmd with
  | CmdLaunchSession id opts => (true, [(false, TLaunchSession id opts)])
  | CmdStopSession id => (true, [(false, TStop id)])
  | CmdExec id req => (false, [(false, TExec id req)])
  | CmdSetMode id mode => (true, [(false, TOp id (OpSetMode mode))])
  | CmdCancelExec id => (true, [(false, TOp id OpCancelAll)])
  | CmdApproveExec id cmds req =>
      (false, ((fun c => (true, TOp id (OpApprove c false))) <$> cmds) ++ [(true, TExec id req)])
  | CmdAddToWhitelist id command => (true, [(false, TOp id (OpAddToWhitelist command))])
  | CmdApproveGate id cmdID wl => (true, [(false, TOp id (OpApprove cmdID wl))])
  | CmdDenyGate id cmdID reason => (true, [(false, TOp id (OpDeny cmdID reason))])
  | CmdCreateCheckpoint id cp => (false, [(false, TCheckpoint id cp)])
  | CmdLaunchService id opts => (false, [(false, TLaunchService id opts)])
  | CmdSnapshotService id =>
      (false, [(false, TSnapshot id); (false, TOp id OpStopService); (false, TStop id)])
  | CmdStopService id => (true, [(false, TOp id OpStopService)])
  | CmdServiceExec id req => (true, [(false, TExec id req)])
  | CmdServiceStatus id => (true, [(false, TOp id OpServiceStatus)])
  | CmdServiceLogs id lines => (true, [(false, TOp id (OpServiceLogs lines))])
  | CmdUnknown _ => (true, [])
  end.

(** What reaches a supervisor. *)
Inductive Rpc :=
  | RpcPolicy (policy : ExecPolicy)
  | RpcMode (mode : ExecMode)
  | RpcExec (req : ExecRequest)
  | RpcServiceStart
  | RpcOp (op : Op).

(** ** The worker *)

Record AgentState := mkAgent {
  ag_mu : option nat;
  ag_sessions : gmap string nat;
  ag_heap : list SessionState;
  ag_vms : gmap string VMEntry;
  ag_overlays : gset string;
  ag_threads : list Thread;
  ag_rpcs : list (string * Rpc);
  ag_stopped : gset string;
  ag_crashed : bool;
  lw_queue : list LocalCommand;
  lw_loop : option nat
}.

Definition NewAgent : AgentState := mkAgent None ∅ [] ∅ ∅ [] [] ∅ false [] None.

(** The fields one at a time. *)
Definition set_mu m w := mkAgent m (ag_sessions w) (ag_heap w) (ag_vms w) (ag_overlays w) (ag_threads w) (ag_rpcs w) (ag_stopped w) (ag_crashed w) (lw_queue w) (lw_loop w).
Definition put_sessions x w := mkAgent (ag_mu w) x (ag_heap w) (ag_vms w) (ag_overlays w) (ag_threads w) (ag_rpcs w) (ag_stopped w) (ag_crashed w) (lw_queue w) (lw_loop w).
Definition put_heap x w := mkAgent (ag_mu w) (ag_sessions w) x (ag_vms w) (ag_overlays w) (ag_threads w) (ag_rpcs w) (ag_stopped w) (ag_crashed w) (lw_queue w) (lw_loop w).
Definition set_vms x w := mkAgent (ag_mu w) (ag_sessions w) (ag_heap w) x (ag_overlays w) (ag_threads w) (ag_rpcs w) (ag_stopped w) (ag_crashed w) (lw_queue w) (lw_loop w).
Definition set_overlays x w := mkAgent (ag_mu w) (ag_sessions w) (ag_heap w) (ag_vms w) x (ag_threads w) (ag_rpcs w) (ag_stopped w) (ag_crashed w) (lw_queue w) (lw_loop w).
Definition set_threads x w := mkAgent (ag_mu w) (ag_sessions w) (ag_heap w) (ag_vms w) (ag_overlays w) x (ag_rpcs w) (ag_stopped w) (ag_crashed w) (lw_queue w) (lw_loop w).
Definition say id r w := mkAgent (ag_mu w) (ag_sessions w) (ag_heap w) (ag_vms w) (ag_overlays w) (ag_threads w) (ag_rpcs w ++ [(id, r)]) (ag_stopped w) (ag_crashed w) (lw_queue w) (lw_loop w).
Definition set_stopped x w := mkAgent (ag_mu w) (ag_sessions w) (ag_heap w) (ag_vms w) (ag_overlays w) (ag_threads w) (ag_rpcs w) x (ag_crashed w) (lw_queue w) (lw_loop w).
Definition crash w := mkAgent (ag_mu w) (ag_sessions w) (ag_heap w) (ag_vms w) (ag_overlays w) (ag_threads w) (ag_rpcs w) (ag_stopped w) true (lw_queue w) (lw_loop w).
Definition set_loop q l w := mkAgent (ag_mu w) (ag_sessions w) (ag_heap w) (ag_vms w) (ag_overlays w) (ag_threads w) (ag_rpcs w) (ag_stopped w) (ag_crashed w) q l.

(** Threads: moving on, ending (the next task takes over), starting. *)
Definition goto (t : nat) (p : ThreadPhase) (w : AgentState) : AgentState :=
  set_threads (alter (fun th => mkThread p (th_then th)) t (ag_threads w)) w.
Definition next_phase (ok : bool) (rest : list (bool * Task)) : Thread :=
  match rest with
  | [] => mkThread (Done ok) []
  | (need, task) :: rest => if need && negb ok then mkThread (Done ok) [] else mkThread (Queued task) rest
  end.
Definition finish (t : nat) (ok : bool) (w : AgentState) : AgentState :=
  set_threads (alter (fun th => next_phase ok (th_then th)) t (ag_threads w)) w.
Definition spawn (tasks : list (bool * Task)) (w : AgentState) : AgentState :=
  set_threads (ag_threads w ++ [next_phase true tasks]) w.

(** Sessions: [a.sessions[id]], and changing the object. *)
Definition upd_sess (r : nat) (f : SessionState -> SessionState) (w : AgentState) : AgentState :=
  put_heap (alter f r (ag_heap w)) w.
Definition with_mode m s := mkSess (ss_ID s) m (ss_Policy s) (ss_Vsock s) (ss_LayerMap s) (ss_Forward s) (ss_opMu s).
Definition allow_more c s :=
  let p := ss_Policy s in
  mkSess (ss_ID s) (ss_Mode s)
    (mkExecPolicy (ep_AllowedCommands p ++ [c]) (ep_BlockedCommands p) (ep_ModeRestrictions p)
       (ep_MaxParallel p) (ep_MaxDurationSeconds p) (ep_NetworkPolicy p) (ep_FilesystemPolicy p))
    (ss_Vsock s) (ss_LayerMap s) (ss_Forward s) (ss_opMu s).
Definition close_vsock s := mkSess (ss_ID s) (ss_Mode s) (ss_Policy s) false (ss_LayerMap s) (ss_Forward s) (ss_opMu s).
Definition with_layer cp l s := mkSess (ss_ID s) (ss_Mode s) (ss_Policy s) (ss_Vsock s) (<[cp := l]> (ss_LayerMap s)) (ss_Forward s) (ss_opMu s).
Definition with_forward p s := mkSess (ss_ID s) (ss_Mode s) (ss_Policy s) (ss_Vsock s) (ss_LayerMap s) p (ss_opMu s).
Definition with_opMu o s := mkSess (ss_ID s) (ss_Mode s) (ss_Policy s) (ss_Vsock s) (ss_LayerMap s) (ss_Forward s) o.

(** Inserting a new session object. *)
Definition register (id : string) (mode : ExecMode) (policy : ExecPolicy) (w : AgentState) : AgentState :=
  put_sessions (<[id := length (ag_heap w)]> (ag_sessions w))
    (put_heap (ag_heap w ++ [mkSess id mode policy true ∅ None None]) w).

(** ** The steps *)

Section Steps.
Context `{B : Backend} (dataDir cwd : string).

(** What the world answers during a step: outcomes of calls, the file system
    and the git cache, the name of a layer, a free port. *)
Record Choice := mkChoice {
  ch_ok : bool;
  ch_ok2 : bool;
  ch_ok3 : bool;
  ch_stat : string -> option bool;
  ch_mkdir : string -> bool;
  ch_checkout : string -> string -> string -> result string string;
  ch_layer : string;
  ch_port : Z
}.

(** [CreateVM]: the same code in both back ends. *)
Definition createVM (id : string) (cfg : VMConfig) (ok : bool) (w : AgentState) : option AgentState :=
  match ag_vms w !! id with
  | Some _ => None
  | None => if ok then Some (set_vms (<[id := mkVM cfg VMStateCreated false false false]> (ag_vms w)) w) else None
  end.

(** [hypervisor.StopVM]: unknown machines are an error the callers ignore; a
    panic ends the process. *)
Definition stop_machine (id : string) (w : AgentState) : AgentState :=
  match ag_vms w !! id with
  | None => w
  | Some v =>
      match stopVM v with
      | Some v' => set_vms (<[id := v']> (ag_vms w)) w
      | None => crash w
      end
  end.

Definition cleanup (id : string) (w : AgentState) : AgentState := set_overlays (ag_overlays w ∖ {[id]}) w.

(** The connection of a session: a call on a connection that is gone panics. *)
Definition vsock_open (r : nat) (w : AgentState) : bool :=
  match ag_heap w !! r with Some s => ss_Vsock s | None => false end.

(** Before and after the RPC of a call. *)
Definition op_before (id : string) (r : nat) (op : Op) (w : AgentState) : AgentState :=
  match op with
  | OpAddToWhitelist c => upd_sess r (allow_more c) w
  | OpStopService => upd_sess r (with_forward None) w
  | _ => w
  end.
Definition op_after (r : nat) (op : Op) (w : AgentState) : AgentState :=
  match op with OpSetMode m => upd_sess r (with_mode m) w | _ => w end.

Definition fail_launch (t : nat) (id : string) (w : AgentState) : AgentState :=
  finish t false (set_mu None (cleanup id (stop_machine id w))).

(** The first step of each call. *)
Definition begin (c : Choice) (t : nat) (task : Task) (w : AgentState) : option AgentState :=
  match task with
  | TReap => Some (goto t (ReapApply (dom (ag_vms w))) w)
  | TSnapshot id =>
      match ag_mu w with
      | Some _ => None
      | None =>
          match ag_vms w !! id with
          | None => Some (finish t false w)
          | Some v => let '(v', ok) := snapshotVM (ch_ok c) v in
                      Some (finish t ok (set_vms (<[id := v']> (ag_vms w)) w))
          end
      end
  | TLaunchSession id opts =>
      match ag_mu w, ag_sessions w !! id with
      | Some _, _ => None
      | None, Some _ => Some (finish t false w)
      | None, None =>
          if ch_ok c
          then Some (goto t (SessLocked id opts)
                      (set_mu (Some t) (set_overlays ({[id]} ∪ ag_overlays w) w)))
          else Some (finish t false w)
      end
  | TLaunchService id opts =>
      match ag_mu w, ag_sessions w !! id with
      | Some _, _ => None
      | None, Some _ => Some (finish t false w)
      | None, None => Some (goto t (SvcInit id opts) w)
      end
  | TStop id =>
      match ag_mu w, ag_sessions w !! id with
      | Some _, _ => None
      | None, None => Some (finish t false w)
      | None, Some r => Some (goto t (StopClosing id r) (upd_sess r (with_forward None) w))
      end
  | TExec id req =>
      match ag_mu w, ag_sessions w !! id with
      | Some _, _ => None
      | None, None => Some (finish t false w)
      | None, Some r =>
          if vsock_open r w then Some (goto t (ExecLock r req) w) else Some (finish t false w)
      end
  | TOp id op =>
      match ag_mu w, ag_sessions w !! id with
      | Some _, _ => None
      | None, None => Some (finish t false w)
      | None, Some r => Some (goto t (OpUse r op) (op_before id r op w))
      end
  | TCheckpoint id cp =>
      match ag_mu w, ag_sessions w !! id with
      | Some _, _ => None
      | None, None => Some (finish t false w)
      | None, Some r => Some (goto t (CpRunning r cp) w)
      end
  | THealth id port =>
      match ag_mu w, ag_sessions w !! id with
      | Some _, _ => None
      | None, None => Some (finish t false w)
      | None, Some r => Some (goto t (HealthPoll id r 30) w)
      end
  end.

(** The end of [LaunchService]: a health check unless restored. *)
Definition launched (t : nat) (id : string) (opts : ServiceLaunchOpts) (w : AgentState) : AgentState :=
  let w := finish t true w in
  if vo_IsAppSnapshotRestore opts || negb (0 <? vo_Port opts)%Z then w
  else spawn [(false, THealth id (vo_Port opts))] w.

Definition launch_session_step (c : Choice) (t : nat) (p : ThreadPhase) (w : AgentState) : option AgentState :=
  match p with
  | SessLocked id opts =>
      match sessionVMConfig dataDir cwd (ch_stat c) (ch_mkdir c) (ch_checkout c) true id (so_Launch opts) with
      | Err _ => Some (finish t false (set_mu None w))
      | Ok cfg =>
          match createVM id cfg (ch_ok c) w with
          | None => Some (finish t false (set_mu None (cleanup id w)))
          | Some w => Some (goto t (SessCreated id opts) w)
          end
      end
  | SessCreated id opts =>
      match ag_vms w !! id with
      | None => None
      | Some v =>
          let '(v', ok) := startVM (ch_ok c) v in
          let w := set_vms (<[id := v']> (ag_vms w)) w in
          Some (if ok then goto t (SessStarted id opts 60) w else fail_launch t id w)
      end
  | SessStarted id opts 0 => Some (fail_launch t id w)
  | SessStarted id opts (S n) =>
      if ch_ok c then
        let w := if ch_ok2 c then say id (RpcPolicy (so_Policy opts)) w else w in
        let w := if ch_ok3 c then say id (RpcMode (so_Mode opts)) w else w in
        Some (finish t true (set_mu None (register id (so_Mode opts) (so_Policy opts) w)))
      else Some (goto t (SessStarted id opts n) w)
  | _ => None
  end.

Definition zero_policy : ExecPolicy := mkExecPolicy [] [] ∅ 0 0 None None.

Definition launch_service_step (c : Choice) (t : nat) (p : ThreadPhase) (w : AgentState) : option AgentState :=
  match p with
  | SvcInit id opts =>
      if negb (ch_ok c) then Some (finish t false w)
      else
        let w := set_overlays ({[id]} ∪ ag_overlays w) w in
        match serviceVMConfig dataDir cwd (ch_stat c) (ch_mkdir c) true id (vo_Launch opts) with
        | Err _ => Some (finish t false w)
        | Ok cfg =>
            match createVM id cfg (ch_ok2 c) w with
            | None => Some (finish t false w)
            | Some w => Some (goto t (SvcCreated id opts) w)
            end
        end
  | SvcCreated id opts =>
      match ag_vms w !! id with
      | None => None
      | Some v =>
          let '(v', ok) := startVM (ch_ok c) v in
          let w := set_vms (<[id := v']> (ag_vms w)) w in
          Some (if ok then goto t (SvcStarted id opts 50) w else finish t false w)
      end
  | SvcStarted id opts 0 => Some (goto t (SvcReady id opts) w)
  | SvcStarted id opts (S n) =>
      Some (goto t (if ch_ok c then SvcReady id opts else SvcStarted id opts n) w)
  | SvcReady id opts =>
      if vo_IsAppSnapshotRestore opts then Some (goto t (SvcRegister id opts) w)
      else
        let bundle := negb (existsb (fun v => String.eqb (v_Path v) "/workspace") (lo_Mounts (vo_Launch opts)))
                      && negb (String.eqb (vo_BundleKey opts) "") in
        if bundle && negb (ch_ok c) then Some (finish t false (stop_machine id w))
        else if ch_ok2 c then Some (goto t (SvcRegister id opts) (say id RpcServiceStart w))
        else Some (finish t false (stop_machine id w))
  | SvcRegister id opts =>
      match ag_mu w with
      | Some _ => None
      | None =>
          let w := register id "" zero_policy w in
          Some (if (0 <? vo_Port opts)%Z then goto t (SvcForward id opts) w else launched t id opts w)
      end
  | SvcForward id opts =>
      match ag_mu w with
      | Some _ => None
      | None =>
          match ag_sessions w !! id with
          | Some r => if ch_ok c then Some (goto t (SvcListen id opts r (ch_port c)) w)
                      else Some (launched t id opts w)
          | None => Some (launched t id opts w)
          end
      end
  | SvcListen id opts r port =>
      match ag_mu w with
      | Some _ => None
      | None => Some (launched t id opts (upd_sess r (with_forward (Some port)) w))
      end
  | _ => None
  end.

Definition stop_step (t : nat) (p : ThreadPhase) (w : AgentState) : option AgentState :=
  match p with
  | StopClosing id r =>
      match ag_heap w !! r with
      | Some s => match ss_opMu s with
                  | Some _ => None
                  | None => Some (goto t (StopMachine id r) (upd_sess r close_vsock w))
                  end
      | None => None
      end
  | StopMachine id r => Some (goto t (StopDelete id r) (stop_machine id w))
  | StopDelete id r =>
      match ag_mu w with
      | Some _ => None
      | None => Some (finish t true (set_stopped ({[id]} ∪ ag_stopped w)
                                       (put_sessions (delete id (ag_sessions w)) w)))
      end
  | _ => None
  end.

Definition exec_step (c : Choice) (t : nat) (p : ThreadPhase) (w : AgentState) : option AgentState :=
  match p with
  | ExecLock r req =>
      match ag_heap w !! r with
      | Some s => match ss_opMu s with
                  | Some _ => None
                  | None =>
                      if ss_Vsock s
                      then Some (goto t (ExecRunning r req)
                                   (say (ss_ID s) (RpcExec req) (upd_sess r (with_opMu (Some t)) w)))
                      else Some (finish t false w)
                  end
      | None => None
      end
  | ExecRunning r req => Some (finish t (ch_ok c) (upd_sess r (with_opMu None) w))
  | _ => None
  end.

(** [SetMode], [ApproveOnGate], [StopService] and the like: the call. *)
Definition op_step (c : Choice) (t r : nat) (op : Op) (w : AgentState) : option AgentState :=
  match ag_heap w !! r with
  | Some s =>
      if ss_Vsock s
      then let w := say (ss_ID s) (RpcOp op) w in
           Some (finish t (ch_ok c) (if ch_ok c then op_after r op w else w))
      else Some (crash w)
  | None => None
  end.

(** [sessionReaper], after the machines were listed. *)
Definition reap_step (t : nat) (active : gset string) (w : AgentState) : option AgentState :=
  match ag_mu w with
  | Some _ => None
  | None => Some (finish t true (put_sessions (filter (fun e => e.1 ∈ active) (ag_sessions w)) w))
  end.

(** [CreateCheckpoint]. *)
Definition checkpoint_step (c : Choice) (t : nat) (p : ThreadPhase) (w : AgentState) : option AgentState :=
  match p with
  | CpRunning r cp =>
      if ch_ok c then Some (goto t (CpRecord r cp (ch_layer c)) w) else Some (finish t false w)
  | CpRecord r cp layer =>
      match ag_mu w with
      | Some _ => None
      | None => Some (finish t true (upd_sess r (with_layer cp layer) w))
      end
  | _ => None
  end.

(** [waitHealthyAndSnapshot]. *)
Definition health_step (c : Choice) (t : nat) (p : ThreadPhase) (w : AgentState) : option AgentState :=
  match p with
  | HealthPoll id r 0 => Some (finish t false w)
  | HealthPoll id r (S n) =>
      if vsock_open r w
      then Some (goto t (if ch_ok c then HealthSnap id else HealthPoll id r n) w)
      else Some (crash w)
  | HealthSnap id =>
      match ag_vms w !! id with
      | None => Some (finish t false w)
      | Some v => let '(v', ok) := snapshotVM (ch_ok c) v in
                  let w := set_vms (<[id := v']> (ag_vms w)) w in
                  Some (if ok then goto t (HealthResume id) w else finish t false w)
      end
  | HealthResume id =>
      match ag_vms w !! id with
      | None => Some (finish t true w)
      | Some v => Some (finish t true (set_vms (<[id := resumeVM (ch_ok c) v]> (ag_vms w)) w))
      end
  | _ => None
  end.

(** One step of a thread: nothing when it waits or has ended, and nothing more
    once the process has crashed. *)
Definition thread_step (c : Choice) (t : nat) (w : AgentState) : option AgentState :=
  if ag_crashed w then None
  else
    th ← ag_threads w !! t;
    match th_phase th with
    | Queued task => begin c t task w
    | SessLocked _ _ | SessCreated _ _ | SessStarted _ _ _ => launch_session_step c t (th_phase th) w
    | SvcInit _ _ | SvcCreated _ _ | SvcStarted _ _ _ | SvcReady _ _ | SvcRegister _ _
    | SvcForward _ _ | SvcListen _ _ _ _ => launch_service_step c t (th_phase th) w
    | StopClosing _ _ | StopMachine _ _ | StopDelete _ _ => stop_step t (th_phase th) w
    | ExecLock _ _ | ExecRunning _ _ => exec_step c t (th_phase th) w
    | OpUse r op => op_step c t r op w
    | ReapApply active => reap_step t active w
    | CpRunning _ _ | CpRecord _ _ _ => checkpoint_step c t (th_phase th) w
    | HealthPoll _ _ _ | HealthSnap _ | HealthResume _ => health_step c t (th_phase th) w
    | Done _ => None
    end.

Definition is_done (w : AgentState) (t : nat) : bool :=
  match ag_threads w !! t with
  | Some (mkThread (Done _) _) => true
  | _ => false
  end.

(** The command loop takes the next command once the call it waits for is over. *)
Definition take_command (w : AgentState) : option AgentState :=
  if ag_crashed w then None
  else if match lw_loop w with Some t => negb (is_done w t) | None => false end then None
  else
    match lw_queue w with
    | [] => None
    | cmd :: queue =>
        let '(wait, tasks) := handleCommand cmd in
        Some (spawn tasks (set_loop queue (if wait then Some (length (ag_threads w)) else None) w))
    end.

Inductive wstep (w : AgentState) : AgentState -> Prop :=
  | ws_thread c t w' : thread_step c t w = Some w' -> wstep w w'
  | ws_send cmd : wstep w (set_loop (lw_queue w ++ [cmd]) (lw_loop w) w)
  | ws_take w' : take_command w = Some w' -> wstep w w'
  (** the reaper's ticker, and the control plane reading a service's logs *)
  | ws_reap : ag_crashed w = false -> wstep w (spawn [(false, TReap)] w)
  | ws_logs id lines : ag_crashed w = false -> wstep w (spawn [(false, TOp id (OpServiceLogs lines))] w)
  (** a guest ends by itself *)
  | ws_dies id v : ag_vms w !! id = Some v -> vm_live v = true ->
      wstep w (set_vms (<[id := guestDies v]> (ag_vms w)) w).

Definition reachable (w : AgentState) : Prop := rtc wstep NewAgent w.

(** [Heartbeat] *)
Definition heartbeat_status (w : AgentState) : WorkerStatus :=
  if bool_decide (ag_sessions w = ∅) then WorkerStatusReady else WorkerStatusBusy.
Definition heartbeat_sessions (w : AgentState) : gset string := dom (ag_sessions w).
End Steps.

(** ** The invariant

    It speaks of the phases of the threads and of the five fields that tie
    them together, so that a step is a sequence of changes to these. *)

(** A machine that [CreateVM] made and no session object stands for. *)
Definition owns (p : ThreadPhase) : option string :=
  match p with
  | SessCreated id _ | SessStarted id _ _ | SvcCreated id _ | SvcStarted id _ _ | SvcReady id _
  | SvcRegister id _ => Some id
  | _ => None
  end.
Definition holds_mu (p : ThreadPhase) : bool :=
  match p with SessLocked _ _ | SessCreated _ _ | SessStarted _ _ _ => true | _ => false end.

Definition fresh (heap : list SessionState) (id : string) : Prop :=
  forall r s, heap !! r = Some s -> ss_ID s <> id.
Definition created (vms : gmap string VMEntry) (id : string) : Prop :=
  exists v, vms !! id = Some v /\ vm_cancelled v = false.
Definition running (vms : gmap string VMEntry) (id : string) : Prop :=
  exists v, vms !! id = Some v /\ vm_live v = true.
Definition dead (vms : gmap string VMEntry) (id : string) : Prop :=
  exists v, vms !! id = Some v /\ vm_live v = false.
Definition session_at (heap : list SessionState) (r : nat) (P : SessionState -> Prop) : Prop :=
  exists s, heap !! r = Some s /\ P s.

(** What each phase of thread [t] relies on. *)
Definition phase_ok (mu : option nat) (heap : list SessionState) (vms : gmap string VMEntry)
    (t : nat) (p : ThreadPhase) : Prop :=
  match p with
  | SessLocked _ _ => mu = Some t
  | SessCreated id _ => mu = Some t /\ fresh heap id /\ created vms id
  | SessStarted id _ _ => mu = Some t /\ fresh heap id /\ running vms id
  | SvcCreated id _ => fresh heap id /\ created vms id
  | SvcStarted id _ _ | SvcReady id _ | SvcRegister id _ => fresh heap id /\ running vms id
  | StopClosing id r => session_at heap r (fun s => ss_ID s = id)
  | StopMachine id r => session_at heap r (fun s => ss_ID s = id /\ ss_Vsock s = false)
  | StopDelete id r => session_at heap r (fun s => ss_ID s = id /\ ss_Vsock s = false) /\ dead vms id
  | ExecRunning r _ => session_at heap r (fun s => ss_opMu s = Some t /\ ss_Vsock s = true)
  | SvcListen _ _ r _ | ExecLock r _ | OpUse r _ | CpRunning r _ | CpRecord r _ _ | HealthPoll _ r _ =>
      session_at heap r (fun _ => True)
  | _ => True
  end.

Record Inv (ph : list ThreadPhase) (mu : option nat) (sessions : gmap string nat)
    (heap : list SessionState) (vms : gmap string VMEntry) (stopped : gset string) : Prop := {
  inv_sess id r : sessions !! id = Some r -> session_at heap r (fun s => ss_ID s = id);
  inv_heap r s : heap !! r = Some s ->
    exists v, vms !! ss_ID s = Some v /\ (ss_Vsock s = true -> vm_live v = true);
  inv_uniq r1 r2 s1 s2 : heap !! r1 = Some s1 -> heap !! r2 = Some s2 -> ss_ID s1 = ss_ID s2 -> r1 = r2;
  inv_phase t p : ph !! t = Some p -> phase_ok mu heap vms t p;
  inv_owner t1 t2 p1 p2 id : ph !! t1 = Some p1 -> ph !! t2 = Some p2 ->
    owns p1 = Some id -> owns p2 = Some id -> t1 = t2;
  inv_opmu r s t : heap !! r = Some s -> ss_opMu s = Some t -> exists req, ph !! t = Some (ExecRunning r req);
  inv_mu t : mu = Some t -> exists p, ph !! t = Some p /\ holds_mu p = true;
  inv_stopped id : id ∈ stopped ->
    sessions !! id = None /\ dead vms id /\
    exists r, session_at heap r (fun s => ss_ID s = id /\ ss_Vsock s = false)
}.

Lemma Inv_init : Inv [] None ∅ [] ∅ ∅.
Proof. split; try done; intros; set_solver. Qed.

(** A phase that relies on nothing but the object it works on. *)
Definition light (p : ThreadPhase) : bool :=
  match owns p, p with
  | Some _, _ => false
  | _, (SessLocked _ _ | StopClosing _ _ | StopMachine _ _ | StopDelete _ _ | ExecRunning _ _) => false
  | _, _ => true
  end.

Lemma light_holds p : light p = true -> holds_mu p = false /\ owns p = None.
Proof. by destruct p. Qed.

Section Moves.
Context {ph : list ThreadPhase} {mu : option nat} {sessions : gmap string nat}
  {heap : list SessionState} {vms : gmap string VMEntry} {stopped : gset string}.
Context (I : Inv ph mu sessions heap vms stopped) (t : nat) (p0 : ThreadPhase) (Ht : ph !! t = Some p0).

(** Moving a thread without changing anything else. *)
Lemma Inv_move p :
  phase_ok mu heap vms t p -> (owns p = None \/ owns p = owns p0) ->
  (holds_mu p0 = true -> holds_mu p = true) ->
  (forall r req, p0 = ExecRunning r req -> exists req', p = ExecRunning r req') ->
  Inv (<[t := p]> ph) mu sessions heap vms stopped.
Proof using I Ht.
  intros Hp Howns Hmu Hexec. pose proof (lookup_lt_Some _ _ _ Ht) as Hlen. split; try apply I.
  - intros t' p' [(<- & <- & _)|[_ Hp']]%list_lookup_insert_Some; [done|by eapply inv_phase].
  - assert (forall t' p' id, <[t := p]> ph !! t' = Some p' -> owns p' = Some id ->
      exists p'', ph !! t' = Some p'' /\ owns p'' = Some id) as Hold.
    { intros t' p' id [(<- & <- & _)|[_ Hp']]%list_lookup_insert_Some Ho; [|by eauto].
      destruct Howns as [Hn|He]; [congruence|]. exists p0. by rewrite <-He. }
    intros t1 t2 p1 p2 id H1 H2 Ho1 Ho2.
    destruct (Hold _ _ _ H1 Ho1) as (q1 & ? & ?), (Hold _ _ _ H2 Ho2) as (q2 & ? & ?).
    by eapply (inv_owner _ _ _ _ _ _ I).
  - intros r s t' Hs Ho. destruct (inv_opmu _ _ _ _ _ _ I _ _ _ Hs Ho) as [req Hreq].
    destruct (decide (t' = t)) as [->|Hne].
    + rewrite list_lookup_insert_eq by done. rewrite Ht in Hreq.
      injection Hreq as Hreq. destruct (Hexec _ _ Hreq) as [req' ->]. by exists req'.
    + rewrite list_lookup_insert_ne by done. by exists req.
  - intros t' Hm. destruct (inv_mu _ _ _ _ _ _ I _ Hm) as (q & Hq & Hh).
    destruct (decide (t' = t)) as [->|Hne].
    + rewrite list_lookup_insert_eq by done. exists p. split; [done|]. apply Hmu. congruence.
    + rewrite list_lookup_insert_ne by done. by exists q.
Qed.

Lemma Inv_light p :
  light p = true -> phase_ok mu heap vms t p -> holds_mu p0 = false ->
  (forall r req, p0 <> ExecRunning r req) ->
  Inv (<[t := p]> ph) mu sessions heap vms stopped.
Proof using I Ht.
  intros Hl Hp Hmu Hexec. apply light_holds in Hl as [_ Ho].
  apply Inv_move; [done|by left|congruence|]. intros r req ->. by destruct (Hexec r req).
Qed.

(** Releasing [a.mu]. *)
Lemma Inv_unlock p :
  holds_mu p0 = true -> light p = true -> phase_ok None heap vms t p ->
  Inv (<[t := p]> ph) None sessions heap vms stopped.
Proof using I Ht.
  intros Hh Hl Hp. apply light_holds in Hl as [Hnm Hno]. pose proof (lookup_lt_Some _ _ _ Ht) as Hlen.
  assert (mu = Some t) as Hmu.
  { pose proof (inv_phase _ _ _ _ _ _ I _ _ Ht) as Hok. destruct p0; try done; by destruct Hok. }
  split; try apply I; try done.
  - intros t' p' [(<- & <- & _)|[Hne Hp']]%list_lookup_insert_Some; [done|].
    pose proof (inv_phase _ _ _ _ _ _ I _ _ Hp') as Hok. rewrite Hmu in Hok.
    destruct p'; simpl in *; try done; destruct_and?; congruence.
  - intros t1 t2 p1 p2 id [(<- & <- & _)|[_ H1]]%list_lookup_insert_Some; [congruence|].
    intros [(<- & <- & _)|[_ H2]]%list_lookup_insert_Some; [congruence|].
    by eapply (inv_owner _ _ _ _ _ _ I).
  - intros r s t' Hs Ho. destruct (inv_opmu _ _ _ _ _ _ I _ _ _ Hs Ho) as [req Hreq].
    destruct (decide (t' = t)) as [->|Hne].
    + exfalso. rewrite Ht in Hreq. injection Hreq as ->. done.
    + rewrite list_lookup_insert_ne by done. by exists req.
Qed.

(** Taking [a.mu]. *)
Lemma Inv_lock id opts :
  mu = None -> light p0 = true -> Inv (<[t := SessLocked id opts]> ph) (Some t) sessions heap vms stopped.
Proof using I Ht.
  intros Hmu Hl. pose proof (lookup_lt_Some _ _ _ Ht) as Hlen. subst mu. split; try apply I.
  - intros t' p' [(<- & <- & _)|[_ Hp']]%list_lookup_insert_Some; [done|].
    pose proof (inv_phase _ _ _ _ _ _ I _ _ Hp') as Hok.
    destruct p'; simpl in *; try done; destruct_and?; congruence.
  - intros t1 t2 p1 p2 i [(<- & <- & _)|[_ H1]]%list_lookup_insert_Some; [done|].
    intros [(<- & <- & _)|[_ H2]]%list_lookup_insert_Some; [done|].
    by eapply (inv_owner _ _ _ _ _ _ I).
  - intros r s t' Hs Ho. destruct (inv_opmu _ _ _ _ _ _ I _ _ _ Hs Ho) as [req Hreq].
    destruct (decide (t' = t)) as [->|Hne].
    + exfalso. rewrite Ht in Hreq. injection Hreq as ->. done.
    + rewrite list_lookup_insert_ne by done. by exists req.
  - intros t' [= <-]. exists (SessLocked id opts). by rewrite list_lookup_insert_eq.
Qed.
End Moves.

(** *** Changing a machine *)

(** What other threads keep when the session objects and machines change. *)
Definition sess_le (t : nat) (s s' : SessionState) : Prop :=
  ss_ID s' = ss_ID s /\ (ss_Vsock s = false -> ss_Vsock s' = false) /\
  (ss_opMu s = Some t -> ss_opMu s' = Some t /\ ss_Vsock s' = ss_Vsock s).
Definition vm_same (v v' : VMEntry) : Prop :=
  vm_live v' = vm_live v /\ vm_cancelled v' = vm_cancelled v.

Lemma phase_ok_change mu heap vms heap' vms' t p :
  (forall id, owns p = Some id -> fresh heap id ->
     fresh heap' id /\ forall v, vms !! id = Some v -> exists v', vms' !! id = Some v' /\ vm_same v v') ->
  (forall r s, heap !! r = Some s -> exists s', heap' !! r = Some s' /\ sess_le t s s' /\
     (dead vms (ss_ID s) -> dead vms' (ss_ID s))) ->
  phase_ok mu heap vms t p -> phase_ok mu heap' vms' t p.
Proof.
  intros Hown Hheap Hok.
  assert (forall r P Q, session_at heap r P -> (forall s s', P s -> sess_le t s s' -> Q s') ->
            session_at heap' r Q) as Hsess.
  { intros r P Q (s & Hs & HP) HQ. destruct (Hheap _ _ Hs) as (s' & Hs' & Hle & _). exists s'.
    split; [done|]. by eapply HQ. }
  assert (forall id, owns p = Some id -> fresh heap id -> created vms id -> fresh heap' id /\ created vms' id) as Hcr.
  { intros id Ho Hf (v & Hv & Hc). destruct (Hown id Ho Hf) as [Hf' Hvs].
    destruct (Hvs v Hv) as (v' & Hv' & _ & Hc'). split; [done|]. exists v'. by rewrite Hc'. }
  assert (forall id, owns p = Some id -> fresh heap id -> running vms id -> fresh heap' id /\ running vms' id) as Hrun.
  { intros id Ho Hf (v & Hv & Hc). destruct (Hown id Ho Hf) as [Hf' Hvs].
    destruct (Hvs v Hv) as (v' & Hv' & Hl' & _). split; [done|]. exists v'. by rewrite Hl'. }
  destruct p; simpl in *; try done;
    try (by destruct_and?; split_and!; try done; edestruct Hcr; eauto);
    try (by destruct_and?; split_and!; try done; edestruct Hrun; eauto);
    try (by eapply Hsess; [exact Hok|done]).
  - eapply Hsess; [exact Hok|]. intros s s' <- (-> & _). done.
  - eapply Hsess; [exact Hok|]. intros s s' [<- Hv] (-> & Hle & _). split; [done|by apply Hle].
  - destruct Hok as [(s & Hs & <- & Hv) Hd]. destruct (Hheap _ _ Hs) as (s' & Hs' & (Hid & Hle & _) & Hdead).
    split; [|by apply Hdead]. exists s'. split; [done|]. split; [done|by apply Hle].
  - eapply Hsess; [exact Hok|]. intros s s' [Ho Hv] (_ & _ & Hle). destruct (Hle Ho) as [-> ->]. done.
Qed.

Lemma sess_le_refl t s : sess_le t s s.
Proof. by repeat split. Qed.

Section Machines.
Context {ph : list ThreadPhase} {mu : option nat} {sessions : gmap string nat}
  {heap : list SessionState} {vms : gmap string VMEntry} {stopped : gset string}.
Context (I : Inv ph mu sessions heap vms stopped).

Lemma stopped_not_fresh id : id ∈ stopped -> ~ fresh heap id.
Proof using I.
  intros Hin Hf. destruct (inv_stopped _ _ _ _ _ _ I _ Hin) as (_ & _ & r & s & Hs & Hid & _).
  by apply (Hf r s Hs).
Qed.

(** A change that keeps whether a guest runs. *)
Lemma Inv_vm_same id v v' :
  vms !! id = Some v -> vm_same v v' -> Inv ph mu sessions heap (<[id := v']> vms) stopped.
Proof using I.
  intros Hv [Hlive Hcan].
  assert (forall i x, vms !! i = Some x -> exists x', <[id := v']> vms !! i = Some x' /\ vm_same x x') as Hall.
  { intros i x Hx. destruct (decide (i = id)) as [->|Hne].
    - rewrite lookup_insert_eq. exists v'. split; [done|]. by simplify_eq.
    - rewrite lookup_insert_ne by done. by exists x. }
  assert (forall i, dead vms i -> dead (<[id := v']> vms) i) as Hdead.
  { intros i (x & Hx & Hd). destruct (Hall _ _ Hx) as (x' & Hx' & Hl & _). exists x'. by rewrite Hl. }
  split; try apply I.
  - intros r s Hs. destruct (inv_heap _ _ _ _ _ _ I _ _ Hs) as (x & Hx & Hl).
    destruct (Hall _ _ Hx) as (x' & Hx' & Hl' & _). exists x'. split; [done|]. by rewrite Hl'.
  - intros t p Hp. eapply phase_ok_change; [| |by eapply (inv_phase _ _ _ _ _ _ I)].
    + intros i _ Hf. split; [done|]. apply Hall.
    + intros r s Hs. exists s. split_and!; [done|apply sess_le_refl|apply Hdead].
  - intros i Hi. destruct (inv_stopped _ _ _ _ _ _ I _ Hi) as (? & ? & ?). eauto.
Qed.

(** A change of a machine of which no session object is made yet. *)
Lemma other_ids id v' :
  fresh heap id ->
  (forall r s, heap !! r = Some s -> <[id := v']> vms !! ss_ID s = vms !! ss_ID s) /\
  (forall i, i ∈ stopped -> <[id := v']> vms !! i = vms !! i).
Proof using I.
  intros Hf. split.
  - intros r s Hs. apply lookup_insert_ne. intros Heq. by apply (Hf r s Hs).
  - intros i Hi. apply lookup_insert_ne. intros <-. by apply (stopped_not_fresh id Hi).
Qed.

Lemma Inv_vm_fresh id v' t p0 p :
  ph !! t = Some p0 -> fresh heap id ->
  (forall t' p', t' <> t -> ph !! t' = Some p' -> owns p' = Some id -> False) ->
  phase_ok mu heap (<[id := v']> vms) t p -> (owns p = None \/ owns p = Some id) ->
  (holds_mu p0 = true -> holds_mu p = true) -> (forall r req, p0 <> ExecRunning r req) ->
  Inv (<[t := p]> ph) mu sessions heap (<[id := v']> vms) stopped.
Proof using I.
  intros Ht Hf Hothers Hp Howns Hmu Hexec. pose proof (lookup_lt_Some _ _ _ Ht) as Hlen.
  destruct (other_ids id v' Hf) as [Hheap Hst].
  assert (forall i, (exists r, session_at heap r (fun s => ss_ID s = i)) ->
            dead vms i -> dead (<[id := v']> vms) i) as Hdead.
  { intros i (r & s & Hs & <-) (x & Hx & Hd). exists x. split; [|done]. by rewrite (Hheap r s Hs). }
  split; try apply I.
  - intros r s Hs. rewrite (Hheap _ _ Hs). by eapply (inv_heap _ _ _ _ _ _ I).
  - intros t' p' [(<- & <- & _)|[Hne Hp']]%list_lookup_insert_Some; [done|].
    eapply phase_ok_change; [| |by eapply (inv_phase _ _ _ _ _ _ I)].
    + intros i Ho Hfi. split; [done|]. intros x Hx. exists x. split; [|by split].
      rewrite lookup_insert_ne; [done|]. intros <-. by eapply (Hothers t' p').
    + intros r s Hs. exists s. split_and!; [done|apply sess_le_refl|]. apply Hdead. exists r, s. done.
  - intros t1 t2 p1 p2 i [(<- & <- & _)|[Hn1 H1]]%list_lookup_insert_Some;
      intros [(<- & <- & _)|[Hn2 H2]]%list_lookup_insert_Some; try done.
    + destruct Howns as [Hn|Hs]; [congruence|]. intros H1 Ho2. exfalso.
      eapply (Hothers t2 p2); [congruence|done|congruence].
    + destruct Howns as [Hn|Hs]; [congruence|]. intros Ho1 H2. exfalso.
      eapply (Hothers t1 p1); [congruence|done|congruence].
    + by eapply (inv_owner _ _ _ _ _ _ I).
  - intros r s t' Hs Ho. destruct (inv_opmu _ _ _ _ _ _ I _ _ _ Hs Ho) as [req Hreq].
    destruct (decide (t' = t)) as [->|Hne].
    + rewrite Ht in Hreq. injection Hreq as ->. by destruct (Hexec r req).
    + rewrite list_lookup_insert_ne by done. by exists req.
  - intros t' Hm. destruct (inv_mu _ _ _ _ _ _ I _ Hm) as (q & Hq & Hh).
    destruct (decide (t' = t)) as [->|Hne].
    + rewrite list_lookup_insert_eq by done. exists p. split; [done|]. apply Hmu. congruence.
    + rewrite list_lookup_insert_ne by done. by exists q.
  - intros i Hi. destruct (inv_stopped _ _ _ _ _ _ I _ Hi) as (? & Hd & Hr). split_and!; [done| |done].
    destruct Hd as (x & Hx & Hd). exists x. by rewrite Hst.
Qed.

(** [CreateVM]. *)
Lemma fresh_no_vm id : vms !! id = None -> fresh heap id.
Proof using I.
  intros Hv r s Hs <-. destruct (inv_heap _ _ _ _ _ _ I _ _ Hs) as (x & Hx & _). congruence.
Qed.

Lemma owner_vm t p id : ph !! t = Some p -> owns p = Some id -> is_Some (vms !! id).
Proof using I.
  intros Hp Ho. pose proof (inv_phase _ _ _ _ _ _ I _ _ Hp) as Hok.
  destruct p; simplify_eq/=; destruct_and?;
    match goal with H : created _ _ |- _ => destruct H as (? & ? & ?)
                  | H : running _ _ |- _ => destruct H as (? & ? & ?) end; by eexists.
Qed.

Lemma Inv_create id v' t p0 p :
  ph !! t = Some p0 -> vms !! id = None ->
  phase_ok mu heap (<[id := v']> vms) t p -> (owns p = None \/ owns p = Some id) ->
  (holds_mu p0 = true -> holds_mu p = true) -> (forall r req, p0 <> ExecRunning r req) ->
  Inv (<[t := p]> ph) mu sessions heap (<[id := v']> vms) stopped.
Proof using I.
  intros Ht Hv. apply (Inv_vm_fresh id v' t p0 p Ht); [by apply fresh_no_vm|].
  intros t' p' _ Hp' Ho. destruct (owner_vm _ _ _ Hp' Ho). congruence.
Qed.

(** A step of the thread that owns the machine. *)
Lemma Inv_vm_owner id v' t p0 p :
  ph !! t = Some p0 -> owns p0 = Some id -> fresh heap id ->
  phase_ok mu heap (<[id := v']> vms) t p -> (owns p = None \/ owns p = Some id) ->
  (holds_mu p0 = true -> holds_mu p = true) ->
  Inv (<[t := p]> ph) mu sessions heap (<[id := v']> vms) stopped.
Proof using I.
  intros Ht Ho Hf Hp Howns Hmu. apply (Inv_vm_fresh id v' t p0 p Ht); try done.
  - intros t' p' Hne Hp' Ho'. apply Hne. by eapply (inv_owner _ _ _ _ _ _ I).
  - intros r req ->. done.
Qed.

(** [StopVM] by [StopSession]: the connection is closed already. *)
Lemma Inv_stop_vm id r v v' t :
  ph !! t = Some (StopMachine id r) -> vms !! id = Some v -> vm_live v' = false ->
  Inv (<[t := StopDelete id r]> ph) mu sessions heap (<[id := v']> vms) stopped.
Proof using I.
  intros Ht Hv Hdead. pose proof (lookup_lt_Some _ _ _ Ht) as Hlen.
  pose proof (inv_phase _ _ _ _ _ _ I _ _ Ht) as (s0 & Hs0 & Hid0 & Hv0).
  assert (forall i, dead vms i -> dead (<[id := v']> vms) i) as Hd.
  { intros i (x & Hx & Hd). destruct (decide (i = id)) as [->|Hne].
    - exists v'. by rewrite lookup_insert_eq.
    - exists x. by rewrite lookup_insert_ne. }
  split; try apply I.
  - intros r' s Hs. destruct (inv_heap _ _ _ _ _ _ I _ _ Hs) as (x & Hx & Hl).
    destruct (decide (ss_ID s = id)) as [Heq|Hne].
    + rewrite Heq, lookup_insert_eq. exists v'. split; [done|]. intros Hvs.
      assert (r' = r) as -> by (eapply (inv_uniq _ _ _ _ _ _ I); [done|done|congruence]). congruence.
    + rewrite lookup_insert_ne by done. by exists x.
  - intros t' p' [(<- & <- & _)|[Hne Hp']]%list_lookup_insert_Some.
    + split; [by exists s0|]. exists v'. by rewrite lookup_insert_eq.
    + eapply phase_ok_change; [| |by eapply (inv_phase _ _ _ _ _ _ I)].
      * intros i Ho Hfi. split; [done|]. intros x Hx. exists x. split; [|by split].
        rewrite lookup_insert_ne; [done|]. intros <-. by apply (Hfi r s0).
      * intros r' s Hs. exists s. split_and!; [done|apply sess_le_refl|apply Hd].
  - intros t1 t2 p1 p2 i [(<- & <- & _)|[_ H1]]%list_lookup_insert_Some; [done|].
    intros [(<- & <- & _)|[_ H2]]%list_lookup_insert_Some; [done|].
    by eapply (inv_owner _ _ _ _ _ _ I).
  - intros r' s t' Hs Ho. destruct (inv_opmu _ _ _ _ _ _ I _ _ _ Hs Ho) as [req Hreq].
    destruct (decide (t' = t)) as [->|Hne]; [congruence|].
    rewrite list_lookup_insert_ne by done. by exists req.
  - intros t' Hm. destruct (inv_mu _ _ _ _ _ _ I _ Hm) as (q & Hq & Hh).
    destruct (decide (t' = t)) as [->|Hne]; [simplify_eq|].
    rewrite list_lookup_insert_ne by done. by exists q.
  - intros i Hi. destruct (inv_stopped _ _ _ _ _ _ I _ Hi) as (? & Hd' & Hr). split_and!; [done|by apply Hd|done].
Qed.
End Machines.

(** *** Changing a session object *)

Section Objects.
Context {ph : list ThreadPhase} {mu : option nat} {sessions : gmap string nat}
  {heap : list SessionState} {vms : gmap string VMEntry} {stopped : gset string}.
Context (I : Inv ph mu sessions heap vms stopped).

Lemma not_exec t p : ph !! t = Some p -> (forall r req, p <> ExecRunning r req) ->
  forall r s, heap !! r = Some s -> ss_opMu s <> Some t.
Proof using I.
  intros Hp Hexec r s Hs Ho. destruct (inv_opmu _ _ _ _ _ _ I _ _ _ Hs Ho) as [req Hreq].
  rewrite Hp in Hreq. injection Hreq as ->. by apply (Hexec r req).
Qed.

Lemma Inv_obj r f t p0 p :
  ph !! t = Some p0 -> owns p0 = None -> owns p = None -> (holds_mu p0 = true -> holds_mu p = true) ->
  (forall s, ss_ID (f s) = ss_ID s /\ (ss_Vsock (f s) = true -> ss_Vsock s = true)) ->
  (forall s t', heap !! r = Some s -> t' <> t -> ss_opMu s = Some t' ->
     ss_opMu (f s) = Some t' /\ ss_Vsock (f s) = ss_Vsock s) ->
  (forall r1 s1 t', alter f r heap !! r1 = Some s1 -> ss_opMu s1 = Some t' ->
     (t' = t /\ exists req, p = ExecRunning r1 req)
     \/ (t' <> t /\ exists s, heap !! r1 = Some s /\ ss_opMu s = Some t')) ->
  phase_ok mu (alter f r heap) vms t p ->
  Inv (<[t := p]> ph) mu sessions (alter f r heap) vms stopped.
Proof using I.
  intros Ht Ho0 Ho Hmu Hf Hlock Hop Hp. pose proof (lookup_lt_Some _ _ _ Ht) as Hlen.
  assert (forall r1 s1, alter f r heap !! r1 = Some s1 ->
            exists s, heap !! r1 = Some s /\ ss_ID s1 = ss_ID s /\ (ss_Vsock s1 = true -> ss_Vsock s = true)) as Hold.
  { intros r1 s1. destruct (decide (r1 = r)) as [->|Hne].
    - rewrite list_lookup_alter_eq. intros (s & Hs & ->)%fmap_Some. exists s. split; [done|apply Hf].
    - rewrite list_lookup_alter_ne by done. intros Hs. by exists s1. }
  assert (forall r1 s, heap !! r1 = Some s -> exists s1, alter f r heap !! r1 = Some s1 /\
            ss_ID s1 = ss_ID s /\ (ss_Vsock s = false -> ss_Vsock s1 = false)) as Hnew.
  { intros r1 s Hs. destruct (decide (r1 = r)) as [->|Hne].
    - exists (f s). rewrite list_lookup_alter_eq, Hs. destruct (Hf s) as [Hid Hv]. split_and!; [done|done|].
      intros Hc. destruct (ss_Vsock (f s)); [|done]. by rewrite Hv in Hc.
    - exists s. by rewrite list_lookup_alter_ne. }
  split.
  - intros id r1 Hin. destruct (inv_sess _ _ _ _ _ _ I _ _ Hin) as (s & Hs & <-).
    destruct (Hnew _ _ Hs) as (s1 & Hs1 & Hid & _). by exists s1.
  - intros r1 s1 Hs1. destruct (Hold _ _ Hs1) as (s & Hs & Hid & Hv).
    destruct (inv_heap _ _ _ _ _ _ I _ _ Hs) as (v & Hvm & Hl). exists v. rewrite Hid. auto.
  - intros r1 r2 s1 s2 H1 H2 Heq. destruct (Hold _ _ H1) as (x1 & Hx1 & Hi1 & _).
    destruct (Hold _ _ H2) as (x2 & Hx2 & Hi2 & _).
    eapply (inv_uniq _ _ _ _ _ _ I); [exact Hx1|exact Hx2|congruence].
  - intros t' p' [(<- & <- & _)|[Hne Hp']]%list_lookup_insert_Some; [done|].
    eapply phase_ok_change; [| |by eapply (inv_phase _ _ _ _ _ _ I)].
    + intros i _ Hfi. split.
      * intros r1 s1 Hs1. destruct (Hold _ _ Hs1) as (s & Hs & -> & _). by eapply Hfi.
      * intros v Hv. exists v. split; [done|by split].
    + intros r1 s Hs. destruct (Hnew _ _ Hs) as (s1 & Hs1 & Hid & Hv). exists s1.
      split_and!; [done| |done]. split_and!; [done|done|]. intros Hop1.
      destruct (decide (r1 = r)) as [->|Hner].
      * rewrite list_lookup_alter_eq, Hs in Hs1. injection Hs1 as <-.
        apply Hlock; [done| |done]. intros ->. done.
      * rewrite list_lookup_alter_ne in Hs1 by done. by simplify_eq.
  - intros t1 t2 p1 p2 id [(<- & <- & _)|[_ H1]]%list_lookup_insert_Some; [congruence|].
    intros [(<- & <- & _)|[_ H2]]%list_lookup_insert_Some; [congruence|].
    by eapply (inv_owner _ _ _ _ _ _ I).
  - intros r1 s1 t' Hs1 Ho1. destruct (Hop _ _ _ Hs1 Ho1) as [[-> [req ->]]|(Hne & s & Hs & Hos)].
    + exists req. by rewrite list_lookup_insert_eq.
    + destruct (inv_opmu _ _ _ _ _ _ I _ _ _ Hs Hos) as [req Hreq]. exists req.
      by rewrite list_lookup_insert_ne.
  - intros t' Hm. destruct (inv_mu _ _ _ _ _ _ I _ Hm) as (q & Hq & Hh).
    destruct (decide (t' = t)) as [->|Hne].
    + rewrite list_lookup_insert_eq by done. exists p. split; [done|]. apply Hmu. congruence.
    + rewrite list_lookup_insert_ne by done. by exists q.
  - intros id Hin. destruct (inv_stopped _ _ _ _ _ _ I _ Hin) as (? & ? & r1 & s & Hs & <- & Hv).
    split_and!; [done|done|]. destruct (Hnew _ _ Hs) as (s1 & Hs1 & Hid & Hv1). exists r1, s1. auto.
Qed.

(** A change of the fields other threads do not look at. *)
Lemma Inv_benign r f t p0 p :
  ph !! t = Some p0 -> owns p0 = None -> owns p = None -> holds_mu p0 = false ->
  (forall r req, p0 <> ExecRunning r req) ->
  (forall s, ss_ID (f s) = ss_ID s /\ ss_Vsock (f s) = ss_Vsock s /\ ss_opMu (f s) = ss_opMu s) ->
  phase_ok mu (alter f r heap) vms t p ->
  Inv (<[t := p]> ph) mu sessions (alter f r heap) vms stopped.
Proof using I.
  intros Ht Ho0 Ho Hmu Hexec Hf Hp. apply (Inv_obj r f t p0 p); try done; [congruence| | |].
  - intros s. destruct (Hf s) as (-> & -> & _). done.
  - intros s t' Hs _ Hos. destruct (Hf s) as (_ & -> & ->). done.
  - intros r1 s1 t' Hs1 Hos. right.
    assert (exists s, heap !! r1 = Some s /\ ss_opMu s = Some t') as (s & Hs & Hos').
    { destruct (decide (r1 = r)) as [->|Hne].
      - rewrite list_lookup_alter_eq in Hs1. apply fmap_Some in Hs1 as (s & Hs & ->). exists s.
        destruct (Hf s) as (_ & _ & Heq). by rewrite <-Heq.
      - rewrite list_lookup_alter_ne in Hs1 by done. by exists s1. }
    split; [|by exists s]. intros ->. by eapply (not_exec t p0).
Qed.

Lemma session_at_alter r f P r' :
  session_at heap r' (fun s => P s) -> (forall s, P s -> P (f s)) -> session_at (alter f r heap) r' P.
Proof using.
  intros (s & Hs & HP) Hf. destruct (decide (r' = r)) as [->|Hne].
  - exists (f s). rewrite list_lookup_alter_eq, Hs. auto.
  - exists s. by rewrite list_lookup_alter_ne.
Qed.

(** [StopSession] closing the connection under the session's lock. *)
Lemma Inv_close id r s t :
  ph !! t = Some (StopClosing id r) -> heap !! r = Some s -> ss_opMu s = None ->
  Inv (<[t := StopMachine id r]> ph) mu sessions (alter close_vsock r heap) vms stopped.
Proof using I.
  intros Ht Hs Ho. pose proof (inv_phase _ _ _ _ _ _ I _ _ Ht) as (s' & Hs' & Hid).
  rewrite Hs in Hs'. injection Hs' as <-.
  apply (Inv_obj r close_vsock t (StopClosing id r)); try done.
  - intros x t' Hx. simplify_eq. congruence.
  - intros r1 s1 t' Hs1 Hos. right.
    assert (exists x, heap !! r1 = Some x /\ ss_opMu x = Some t') as (x & Hx & Hox).
    { destruct (decide (r1 = r)) as [->|Hne].
      - rewrite list_lookup_alter_eq, Hs in Hs1. injection Hs1 as <-. simpl in Hos. congruence.
      - rewrite list_lookup_alter_ne in Hs1 by done. by exists s1. }
    split; [|by exists x]. intros ->. by eapply (not_exec t (StopClosing id r)).
  - exists (close_vsock s). by rewrite list_lookup_alter_eq, Hs.
Qed.

(** An exec takes the session's lock, and gives it back. *)
Lemma Inv_exec_lock r req s t :
  ph !! t = Some (ExecLock r req) -> heap !! r = Some s -> ss_opMu s = None -> ss_Vsock s = true ->
  Inv (<[t := ExecRunning r req]> ph) mu sessions (alter (with_opMu (Some t)) r heap) vms stopped.
Proof using I.
  intros Ht Hs Ho Hv. apply (Inv_obj r (with_opMu (Some t)) t (ExecLock r req)); try done.
  - intros x t' Hx. simplify_eq. congruence.
  - intros r1 s1 t' Hs1 Hos. destruct (decide (r1 = r)) as [->|Hne].
    + rewrite list_lookup_alter_eq, Hs in Hs1. injection Hs1 as <-. injection Hos as <-.
      left. split; [done|]. by exists req.
    + rewrite list_lookup_alter_ne in Hs1 by done. right. split; [|by exists s1].
      intros ->. by eapply (not_exec t (ExecLock r req)).
  - exists (with_opMu (Some t) s). by rewrite list_lookup_alter_eq, Hs.
Qed.

Lemma Inv_exec_unlock r req t p :
  ph !! t = Some (ExecRunning r req) -> light p = true ->
  phase_ok mu (alter (with_opMu None) r heap) vms t p ->
  Inv (<[t := p]> ph) mu sessions (alter (with_opMu None) r heap) vms stopped.
Proof using I.
  intros Ht Hl Hp. apply light_holds in Hl as [Hh Ho].
  pose proof (inv_phase _ _ _ _ _ _ I _ _ Ht) as (s & Hs & Hos & Hv).
  apply (Inv_obj r (with_opMu None) t (ExecRunning r req)); try done.
  - intros x t' Hx Hne. simplify_eq. congruence.
  - intros r1 s1 t' Hs1 Hos1. right. destruct (decide (r1 = r)) as [->|Hne].
    + rewrite list_lookup_alter_eq, Hs in Hs1. injection Hs1 as <-. discriminate Hos1.
    + rewrite list_lookup_alter_ne in Hs1 by done. split; [|by exists s1].
      intros ->. destruct (inv_opmu _ _ _ _ _ _ I _ _ _ Hs1 Hos1) as [req' Hreq]. congruence.
Qed.

(** A launched session or service gets its object. *)
Lemma Inv_register id mode policy t p0 p :
  ph !! t = Some p0 -> owns p0 = Some id -> fresh heap id -> running vms id ->
  owns p = None -> (holds_mu p0 = true -> holds_mu p = true) ->
  phase_ok mu (heap ++ [mkSess id mode policy true ∅ None None]) vms t p ->
  Inv (<[t := p]> ph) mu (<[id := length heap]> sessions)
    (heap ++ [mkSess id mode policy true ∅ None None]) vms stopped.
Proof using I.
  intros Ht Ho0 Hfresh Hrun Ho Hmu Hp. pose proof (lookup_lt_Some _ _ _ Ht) as Hlen.
  set (s0 := mkSess id mode policy true ∅ None None).
  assert (forall r s, (heap ++ [s0]) !! r = Some s -> heap !! r = Some s \/ (r = length heap /\ s = s0)) as Hold.
  { intros r s [Hs|[Hle Hs]]%lookup_app_Some; [by left|right].
    apply list_lookup_singleton_Some in Hs as [Hr <-]. split; [lia|done]. }
  assert ((heap ++ [s0]) !! length heap = Some s0) as Hlast by (by rewrite list_lookup_middle).
  split.
  - intros i r Hin. destruct (decide (i = id)) as [->|Hne].
    + rewrite lookup_insert_eq in Hin. injection Hin as <-. by exists s0.
    + rewrite lookup_insert_ne in Hin by done.
      destruct (inv_sess _ _ _ _ _ _ I _ _ Hin) as (s & Hs & Hid). exists s.
      by rewrite (lookup_app_l_Some _ _ _ _ Hs).
  - intros r s [Hs|[-> ->]]%Hold; [by eapply (inv_heap _ _ _ _ _ _ I)|].
    destruct Hrun as (v & Hv & Hl). by exists v.
  - intros r1 r2 s1 s2 [H1|[-> ->]]%Hold [H2|[-> ->]]%Hold Heq; try done.
    + by eapply (inv_uniq _ _ _ _ _ _ I).
    + by destruct (Hfresh _ _ H1).
    + by destruct (Hfresh _ _ H2).
  - intros t' p' [(<- & <- & _)|[Hne Hp']]%list_lookup_insert_Some; [done|].
    eapply phase_ok_change; [| |by eapply (inv_phase _ _ _ _ _ _ I)].
    + intros i Hoi Hfi. split.
      * intros r s [Hs|[-> ->]]%Hold; [by eapply Hfi|]. simpl. intros <-.
        apply Hne. by eapply (inv_owner _ _ _ _ _ _ I).
      * intros v Hv. exists v. split; [done|by split].
    + intros r s Hs. exists s. split_and!; [by apply lookup_app_l_Some|apply sess_le_refl|done].
  - intros t1 t2 p1 p2 i [(<- & <- & _)|[_ H1]]%list_lookup_insert_Some; [congruence|].
    intros [(<- & <- & _)|[_ H2]]%list_lookup_insert_Some; [congruence|].
    by eapply (inv_owner _ _ _ _ _ _ I).
  - intros r s t' [Hs|[-> ->]]%Hold Hos; [|done].
    destruct (inv_opmu _ _ _ _ _ _ I _ _ _ Hs Hos) as [req Hreq]. exists req.
    rewrite list_lookup_insert_ne; [done|]. intros <-. rewrite Ht in Hreq. by simplify_eq.
  - intros t' Hm. destruct (inv_mu _ _ _ _ _ _ I _ Hm) as (q & Hq & Hh).
    destruct (decide (t' = t)) as [->|Hne].
    + rewrite list_lookup_insert_eq by done. exists p. split; [done|]. apply Hmu. congruence.
    + rewrite list_lookup_insert_ne by done. by exists q.
  - intros i Hin. destruct (inv_stopped _ _ _ _ _ _ I _ Hin) as (Hn & Hd & r & s & Hs & Hid & Hv).
    split_and!; [|done|].
    + rewrite lookup_insert_ne; [done|]. intros <-. by apply (Hfresh r s).
    + exists r, s. by rewrite (lookup_app_l_Some _ _ _ _ Hs).
Qed.

(** The map of sessions loses entries: the end of [StopSession], and the
    reaper. *)
Lemma Inv_delete id r t p :
  ph !! t = Some (StopDelete id r) -> light p = true -> phase_ok mu heap vms t p ->
  Inv (<[t := p]> ph) mu (delete id sessions) heap vms ({[id]} ∪ stopped).
Proof using I.
  intros Ht Hl Hp. pose proof (inv_phase _ _ _ _ _ _ I _ _ Ht) as [Hat Hdead].
  assert (Inv (<[t := p]> ph) mu sessions heap vms stopped) as J by (by eapply Inv_light).
  split; try apply J.
  - intros i r' [_ Hin]%lookup_delete_Some. by eapply (inv_sess _ _ _ _ _ _ J).
  - intros i. rewrite elem_of_union, elem_of_singleton. intros [->|Hin].
    + split_and!; [apply lookup_delete_eq|done|by exists r].
    + destruct (inv_stopped _ _ _ _ _ _ I _ Hin) as (Hn & ? & ?). split_and!; [|done|done].
      by apply lookup_delete_None; right.
Qed.

Lemma Inv_filter (active : gset string) t p0 p :
  ph !! t = Some p0 -> light p0 = true -> light p = true -> phase_ok mu heap vms t p ->
  Inv (<[t := p]> ph) mu (filter (fun e => e.1 ∈ active) sessions : gmap string nat) heap vms stopped.
Proof using I.
  intros Ht Hl0 Hl Hp. apply light_holds in Hl0 as Hh0.
  assert (Inv (<[t := p]> ph) mu sessions heap vms stopped) as J.
  { eapply Inv_light; try done; [apply Hh0|]. intros r req ->. done. }
  split; try apply J.
  - intros i r [Hin _]%map_lookup_filter_Some. by eapply (inv_sess _ _ _ _ _ _ J).
  - intros i Hin. destruct (inv_stopped _ _ _ _ _ _ J _ Hin) as (Hn & ? & ?). split_and!; [|done|done].
    apply map_lookup_filter_None. by left.
Qed.

(** A new thread. *)
Lemma Inv_spawn p :
  light p = true -> phase_ok mu heap vms (length ph) p ->
  Inv (ph ++ [p]) mu sessions heap vms stopped.
Proof using I.
  intros Hl Hp. apply light_holds in Hl as [Hh Ho].
  assert (forall t q, (ph ++ [p]) !! t = Some q -> ph !! t = Some q \/ (t = length ph /\ q = p)) as Hold.
  { intros t q [Hq|[Hle Hq]]%lookup_app_Some; [by left|right].
    apply list_lookup_singleton_Some in Hq as [Hr <-]. split; [lia|done]. }
  split; try apply I.
  - intros t q [Hq|[-> ->]]%Hold; [by eapply (inv_phase _ _ _ _ _ _ I)|done].
  - intros t1 t2 p1 p2 id [H1|[-> ->]]%Hold; [|congruence].
    intros [H2|[-> ->]]%Hold; [by eapply (inv_owner _ _ _ _ _ _ I)|congruence].
  - intros r s t Hs Hos. destruct (inv_opmu _ _ _ _ _ _ I _ _ _ Hs Hos) as [req Hreq]. exists req.
    by apply lookup_app_l_Some.
  - intros t Hm. destruct (inv_mu _ _ _ _ _ _ I _ Hm) as (q & Hq & Hq'). exists q.
    split; [by apply lookup_app_l_Some|done].
Qed.
End Objects.

(** ** Every step keeps the invariant *)

Definition phases (w : AgentState) : list ThreadPhase := th_phase <$> ag_threads w.
Definition WInv (w : AgentState) : Prop :=
  Inv (phases w) (ag_mu w) (ag_sessions w) (ag_heap w) (ag_vms w) (ag_stopped w).
(** After a panic nothing more is claimed. *)
Definition safe (w : AgentState) : Prop := ag_crashed w = true \/ WInv w.

Definition idle (p : ThreadPhase) : bool := match p with Queued _ | Done _ => true | _ => false end.

Lemma idle_ok p mu heap vms t : idle p = true -> light p = true /\ phase_ok mu heap vms t p.
Proof. by destruct p. Qed.

Lemma next_phase_idle ok rest : idle (th_phase (next_phase ok rest)) = true.
Proof. destruct rest as [|[need task] rest]; [done|]. simpl. by destruct (need && negb ok). Qed.

Lemma phases_alter f t (l : list Thread) th q :
  l !! t = Some th -> th_phase (f th) = q -> th_phase <$> alter f t l = <[t := q]> (th_phase <$> l).
Proof.
  intros Ht <-. apply list_eq. intros i. rewrite list_lookup_fmap.
  pose proof (lookup_lt_Some _ _ _ Ht) as Hlen. destruct (decide (i = t)) as [->|Hne].
  - rewrite list_lookup_alter_eq, Ht. rewrite list_lookup_insert_eq; [done|]. by rewrite length_fmap.
  - by rewrite list_lookup_alter_ne, list_lookup_insert_ne, list_lookup_fmap.
Qed.

Section Preservation.
Context `{B : Backend} {BOk : BackendOk B} (dataDir cwd : string).
Context (w0 : AgentState) (t : nat) (th : Thread) (Ht : ag_threads w0 !! t = Some th).

(** A worker that shares its threads with [w0]. *)
Lemma safe_goto p w :
  ag_threads w = ag_threads w0 ->
  Inv (<[t := p]> (phases w0)) (ag_mu w) (ag_sessions w) (ag_heap w) (ag_vms w) (ag_stopped w) ->
  safe (goto t p w).
Proof using Ht.
  intros Hw HI. right. unfold WInv, phases, goto. simpl. rewrite Hw.
  erewrite phases_alter; [exact HI|exact Ht|done].
Qed.

Lemma safe_finish ok w :
  ag_threads w = ag_threads w0 ->
  (forall q, idle q = true ->
     Inv (<[t := q]> (phases w0)) (ag_mu w) (ag_sessions w) (ag_heap w) (ag_vms w) (ag_stopped w)) ->
  safe (finish t ok w).
Proof using Ht.
  intros Hw HI. right. unfold WInv, phases, finish. simpl. rewrite Hw.
  erewrite phases_alter; [apply HI, (next_phase_idle ok (th_then th))|exact Ht|done].
Qed.

Lemma safe_spawn tasks w : safe w -> safe (spawn tasks w).
Proof using.
  intros [Hc|HI]; [by left|right]. unfold WInv, phases, spawn. simpl.
  rewrite fmap_app. simpl. destruct (idle_ok (th_phase (next_phase true tasks)) (ag_mu w) (ag_heap w)
    (ag_vms w) (length (phases w)) (next_phase_idle _ _)) as [Hl Hp]. by apply Inv_spawn.
Qed.

Lemma safe_launched id opts w :
  ag_threads w = ag_threads w0 ->
  (forall q, idle q = true ->
     Inv (<[t := q]> (phases w0)) (ag_mu w) (ag_sessions w) (ag_heap w) (ag_vms w) (ag_stopped w)) ->
  safe (launched t id opts w).
Proof using Ht.
  intros Hw HI. unfold launched. case_match; [|apply safe_spawn]; by apply safe_finish.
Qed.

Context (I : WInv w0).
Lemma phase_here : phases w0 !! t = Some (th_phase th).
Proof using Ht. unfold phases. by rewrite list_lookup_fmap, Ht. Qed.

Lemma idle_from p0 : th_phase th = p0 -> light p0 = true -> forall q, idle q = true ->
  Inv (<[t := q]> (phases w0)) (ag_mu w0) (ag_sessions w0) (ag_heap w0) (ag_vms w0) (ag_stopped w0).
Proof using Ht I.
  intros Heq Hl q Hq. destruct (idle_ok q (ag_mu w0) (ag_heap w0) (ag_vms w0) t Hq) as [Hlq Hok].
  eapply Inv_light; try done; [apply phase_here| |].
  - rewrite Heq. by apply light_holds.
  - intros r req Hr. rewrite <-Heq in Hl. by rewrite Hr in Hl.
Qed.

Lemma begin_safe c task w :
  th_phase th = Queued task -> begin c t task w0 = Some w -> safe w.
Proof using BOk Ht I.
  intros Hq. pose proof phase_here as Hp'. rewrite Hq in Hp'.
  assert (forall ok, safe (finish t ok w0)) as Hfin
    by (intros ok; apply safe_finish; [done|]; by eapply idle_from).
  assert (forall p, light p = true -> phase_ok (ag_mu w0) (ag_heap w0) (ag_vms w0) t p ->
            safe (goto t p w0)) as Hgo.
  { intros p Hl Hok. apply safe_goto; [done|]. by eapply Inv_light. }
  assert (forall id r, ag_sessions w0 !! id = Some r -> session_at (ag_heap w0) r (fun s => ss_ID s = id)) as Hsess
    by (intros id r; apply (inv_sess _ _ _ _ _ _ I)).
  assert (forall (P : SessionState -> Prop) r, session_at (ag_heap w0) r P -> session_at (ag_heap w0) r (fun _ => True)) as Htrue
    by (intros P r (s & Hs & _); by exists s).
  destruct task as [id opts|id opts|id|id req|id op| |id cp|id port|id]; simpl; intros Hst;
    pose proof I as I'; unfold WInv in I';
    try (destruct (ag_mu w0) eqn:Hmu; [done|]);
    try (destruct (ag_sessions w0 !! id) as [r|] eqn:Hr; [|simplify_eq; apply Hfin]).
  - destruct (ag_sessions w0 !! id); [simplify_eq; apply Hfin|].
    destruct (ch_ok c); simplify_eq; [|apply Hfin]. apply safe_goto; [done|]. simpl.
    eapply Inv_lock; [exact I'|exact Hp'|done|done].
  - destruct (ag_sessions w0 !! id); simplify_eq; [apply Hfin|by apply Hgo].
  - injection Hst as <-. apply safe_goto; [done|]. simpl. rewrite ?Hmu.
    eapply Inv_benign; [exact I'|exact Hp'| | | | | |]; try done.
    apply session_at_alter; [by apply Hsess|done].
  - destruct (vsock_open r w0); simplify_eq; [|apply Hfin]. apply Hgo; [done|]. simpl. eauto.
  - injection Hst as <-. apply safe_goto; [by destruct op|].
    assert (forall f, (forall s, ss_ID (f s) = ss_ID s /\ ss_Vsock (f s) = ss_Vsock s /\ ss_opMu (f s) = ss_opMu s) ->
      Inv (<[t := OpUse r op]> (phases w0)) None (ag_sessions w0) (alter f r (ag_heap w0)) (ag_vms w0) (ag_stopped w0)) as Hben.
    { intros f Hf. eapply Inv_benign; [exact I'|exact Hp'| | | | |exact Hf|]; try done.
      apply session_at_alter; [by eauto|done]. }
    destruct op; simpl; rewrite ?Hmu; try (by apply Hben);
      (eapply Inv_light; [exact I'|exact Hp'|done| |done|done]; simpl; eauto).
  - injection Hst as <-. by apply Hgo.
  - injection Hst as <-. apply Hgo; [done|]. simpl. eauto.
  - injection Hst as <-. apply Hgo; [done|]. simpl. eauto.
  - destruct (ag_vms w0 !! id) as [v|] eqn:Hv; [|simplify_eq; apply Hfin].
    destruct (snapshotVM (ch_ok c) v) as [v' ok] eqn:Hs. injection Hst as <-.
    apply safe_finish; [done|]. intros q Hiq. simpl. rewrite Hmu.
    eapply Inv_vm_same; [|exact Hv|].
    + rewrite <-Hmu. by eapply idle_from.
    + pose proof (snapshot_same (ch_ok c) v) as Hsame. rewrite Hs in Hsame. exact Hsame.
Qed.

(** *** The launches *)

Lemma createVM_fields id cfg ok w w' :
  createVM id cfg ok w = Some w' ->
  ag_vms w !! id = None /\ w' = set_vms (<[id := mkVM cfg VMStateCreated false false false]> (ag_vms w)) w.
Proof using. unfold createVM. destruct (ag_vms w !! id), ok; try done. by intros [= <-]. Qed.

(** Stopping a machine: a panic, or an update. *)
Lemma stop_machine_cases id w v :
  ag_vms w !! id = Some v ->
  ag_crashed (stop_machine id w) = true
  \/ exists v', stopVM v = Some v' /\ vm_live v' = false /\
       stop_machine id w = set_vms (<[id := v']> (ag_vms w)) w.
Proof using BOk.
  intros Hv. unfold stop_machine. rewrite Hv. destruct (stopVM v) as [v'|] eqn:Hs; [right|by left].
  exists v'. split_and!; [done| |done]. by eapply stop_dead.
Qed.

Lemma owner_updates id v' p :
  owns (th_phase th) = Some id -> fresh (ag_heap w0) id -> holds_mu (th_phase th) = holds_mu p ->
  (owns p = None \/ owns p = Some id) ->
  phase_ok (ag_mu w0) (ag_heap w0) (<[id := v']> (ag_vms w0)) t p ->
  Inv (<[t := p]> (phases w0)) (ag_mu w0) (ag_sessions w0) (ag_heap w0) (<[id := v']> (ag_vms w0)) (ag_stopped w0).
Proof using Ht I.
  intros Ho Hf Hh Hop Hok. eapply Inv_vm_owner; [exact I|apply phase_here|exact Ho|exact Hf|exact Hok|exact Hop|].
  by rewrite Hh.
Qed.

Lemma idle_unlocked p0 : th_phase th = p0 -> holds_mu p0 = true -> forall q, idle q = true ->
  Inv (<[t := q]> (phases w0)) None (ag_sessions w0) (ag_heap w0) (ag_vms w0) (ag_stopped w0).
Proof using Ht I.
  intros Heq Hh q Hq. destruct (idle_ok q None (ag_heap w0) (ag_vms w0) t Hq) as [Hlq Hok].
  eapply Inv_unlock; [exact I|apply phase_here| | |]; by rewrite ?Heq.
Qed.

(** The failure of [LaunchSession] after [CreateVM]: one more change of the
    machine, then as above. *)
Lemma fail_launch_safe id v w1 :
  owns (th_phase th) = Some id -> holds_mu (th_phase th) = true -> fresh (ag_heap w0) id ->
  ag_threads w1 = ag_threads w0 -> ag_mu w1 = ag_mu w0 -> ag_sessions w1 = ag_sessions w0 ->
  ag_heap w1 = ag_heap w0 -> ag_stopped w1 = ag_stopped w0 ->
  ag_vms w1 = <[id := v]> (ag_vms w0) -> safe (fail_launch t id w1).
Proof using BOk Ht I.
  intros Ho Hh Hf Hth Hm Hs Hhp Hst Hv.
  assert (ag_vms w1 !! id = Some v) as Hv1 by (by rewrite Hv, lookup_insert_eq).
  destruct (stop_machine_cases id w1 v Hv1) as [Hc|(v' & _ & _ & Heq)].
  - left. unfold fail_launch, finish, cleanup. simpl. exact Hc.
  - unfold fail_launch. rewrite Heq. apply safe_finish; [by simpl|]. simpl. intros q Hq.
    rewrite Hs, Hhp, Hst, Hv, insert_insert_eq.
    destruct (idle_ok q None (ag_heap w0) (<[id := v']> (ag_vms w0)) t Hq) as [Hlq Hok].
    pose proof (owner_updates id v' (SessLocked id (mkSessionOpts "" zero_policy (mkLaunchOpts 0 0 "" []))) Ho Hf)
      as J. simpl in J. rewrite Hh in J. specialize (J eq_refl (or_introl eq_refl)).
    assert (ag_mu w0 = Some t) as Hmu.
    { pose proof (inv_phase _ _ _ _ _ _ I _ _ phase_here) as Hp. destruct (th_phase th); try done; simpl in Hp; tauto. }
    specialize (J Hmu). pose proof (lookup_lt_Some _ _ _ phase_here) as Hlen.
    pose proof (Inv_unlock J t _ (list_lookup_insert_eq _ _ _ Hlen) q eq_refl Hlq Hok) as K.
    by rewrite list_insert_insert_eq in K.
Qed.

Lemma started_from_created id ok v :
  created (ag_vms w0) id -> ag_vms w0 !! id = Some v -> (startVM ok v).2 = true ->
  vm_live (startVM ok v).1 = true.
Proof using BOk.
  intros (x & Hx & Hc) Hv Hok. rewrite Hv in Hx. injection Hx as <-.
  pose proof (start_outcome ok v) as Ho.
  destruct (startVM ok v) as [v' b] eqn:Hs. simpl in *. subst b ok. by eapply start_live.
Qed.

Lemma launch_session_safe c w :
  launch_session_step dataDir cwd c t (th_phase th) w0 = Some w -> safe w.
Proof using BOk Ht I.
  pose proof phase_here as Hp. pose proof (inv_phase _ _ _ _ _ _ I _ _ Hp) as Hok.
  destruct (th_phase th) as [| id opts | id opts | id opts n | | | | | | | | | | | | | | | | | | | |] eqn:Heq; try done.
  - simpl. intros Hst. destruct (sessionVMConfig _ _ _ _ _ _ _) as [cfg|e].
    + destruct (createVM id cfg (ch_ok c) w0) as [w1|] eqn:Hcr; simplify_eq.
      * apply createVM_fields in Hcr as [Hv ->]. apply safe_goto; [done|]. simpl.
        eapply Inv_create; [exact I|exact Hp|exact Hv| |by right|done|done].
        split_and!; [done|by eapply fresh_no_vm|]. eexists. by rewrite lookup_insert_eq.
      * apply safe_finish; [done|]. simpl. by eapply idle_unlocked.
    + simplify_eq. apply safe_finish; [done|]. simpl. by eapply idle_unlocked.
  - simpl in *. destruct Hok as (Hmu & Hf & Hcr). destruct (ag_vms w0 !! id) as [v|] eqn:Hv; [|done].
    pose proof (started_from_created id (ch_ok c) v Hcr Hv) as Hlive.
    destruct (startVM (ch_ok c) v) as [v' ok] eqn:Hs. intros [= <-]. destruct ok.
    + apply safe_goto; [done|]. simpl. apply owner_updates; rewrite ?Heq; try done; [by right|].
      split_and!; [done|done|]. exists v'. rewrite lookup_insert_eq. split; [done|by apply Hlive].
    + eapply (fail_launch_safe id v'); rewrite ?Heq; done.
  - destruct Hok as (Hmu & Hf & Hrun). destruct n as [|n]; simpl.
    + intros [= <-]. destruct Hrun as (v & Hv & _). eapply (fail_launch_safe id v); rewrite ?Heq; try done.
      by rewrite insert_id.
    + destruct (ch_ok c).
      * intros [= <-]. apply safe_finish; [by destruct (ch_ok2 c), (ch_ok3 c)|]. intros q Hq.
        destruct (idle_ok q None (ag_heap w0 ++ [mkSess id (so_Mode opts) (so_Policy opts) true ∅ None None])
                    (ag_vms w0) t Hq) as [Hlq Hokq].
        pose proof (lookup_lt_Some _ _ _ Hp) as Hlen.
        pose proof (Inv_register I id (so_Mode opts) (so_Policy opts) t _ (SessLocked id opts) Hp eq_refl Hf Hrun
                      eq_refl (fun _ => eq_refl) Hmu) as J.
        pose proof (Inv_unlock J t _ (list_lookup_insert_eq _ _ _ Hlen) q eq_refl Hlq Hokq) as K.
        rewrite list_insert_insert_eq in K. by destruct (ch_ok2 c), (ch_ok3 c).
      * intros [= <-]. apply safe_goto; [done|].
        eapply Inv_move; [exact I|exact Hp|done|by right|done|done].
Qed.

Lemma owner_leaves p :
  owns (th_phase th) <> None -> holds_mu (th_phase th) = false -> owns p = None ->
  phase_ok (ag_mu w0) (ag_heap w0) (ag_vms w0) t p ->
  Inv (<[t := p]> (phases w0)) (ag_mu w0) (ag_sessions w0) (ag_heap w0) (ag_vms w0) (ag_stopped w0).
Proof using Ht I.
  intros Ho Hh Hop Hok. eapply Inv_move; [exact I|apply phase_here|exact Hok|by left| |].
  - by rewrite Hh.
  - intros r req Hr. by rewrite Hr in Ho.
Qed.

(** [stopVM] after a failed service start. *)
Lemma stop_service_vm_safe id w1 ok :
  owns (th_phase th) = Some id -> holds_mu (th_phase th) = false -> fresh (ag_heap w0) id ->
  is_Some (ag_vms w0 !! id) -> w1 = w0 -> safe (finish t ok (stop_machine id w1)).
Proof using BOk Ht I.
  intros Ho Hh Hf [v Hv] ->. destruct (stop_machine_cases id w0 v Hv) as [Hc|(v' & _ & _ & ->)]; [by left|].
  apply safe_finish; [done|]. intros q Hq. simpl.
  destruct (idle_ok q (ag_mu w0) (ag_heap w0) (<[id := v']> (ag_vms w0)) t Hq) as [Hlq Hok].
  apply light_holds in Hlq as [? ?]. apply owner_updates; try done; [congruence|by left].
Qed.

Lemma launch_service_safe c w :
  launch_service_step dataDir cwd c t (th_phase th) w0 = Some w -> safe w.
Proof using BOk Ht I.
  pose proof phase_here as Hp. pose proof (inv_phase _ _ _ _ _ _ I _ _ Hp) as Hok.
  destruct (th_phase th) as [| | | | id opts | id opts | id opts n | id opts | id opts | id opts | id opts r port
    | | | | | | | | | | | | |] eqn:Heq; try done; intros Hst.
  - simpl in Hst. destruct (ch_ok c); simpl in Hst.
    + destruct (serviceVMConfig _ _ _ _ _ _ _) as [cfg|e].
      * destruct (createVM id cfg (ch_ok2 c) _) as [w1|] eqn:Hcr; simplify_eq.
        -- apply createVM_fields in Hcr as [Hv ->]. apply safe_goto; [done|]. simpl.
           eapply Inv_create; [exact I|exact Hp|exact Hv| |by right|done|done].
           split; [by eapply fresh_no_vm|]. eexists. by rewrite lookup_insert_eq.
        -- apply safe_finish; [done|]. by eapply idle_from.
      * simplify_eq. apply safe_finish; [done|]. by eapply idle_from.
    + simplify_eq. apply safe_finish; [done|]. by eapply idle_from.
  - simpl in *. destruct Hok as (Hf & Hcr). destruct (ag_vms w0 !! id) as [v|] eqn:Hv; [|done].
    pose proof (started_from_created id (ch_ok c) v Hcr Hv) as Hlive.
    destruct (startVM (ch_ok c) v) as [v' ok] eqn:Hs. simplify_eq. destruct ok.
    + apply safe_goto; [done|]. simpl. apply owner_updates; rewrite ?Heq; try done; [by right|].
      split; [done|]. exists v'. rewrite lookup_insert_eq. split; [done|by apply Hlive].
    + apply safe_finish; [done|]. intros q Hq. simpl.
      destruct (idle_ok q (ag_mu w0) (ag_heap w0) (<[id := v']> (ag_vms w0)) t Hq) as [Hlq Hokq].
      apply light_holds in Hlq as [? ?]. apply owner_updates; rewrite ?Heq; try done. by left.
  - destruct n as [|n]; simpl in Hst; simplify_eq; (apply safe_goto; [done|]).
    + eapply Inv_move; [exact I|exact Hp|exact Hok|by right|done|done].
    + destruct (ch_ok c); (eapply Inv_move; [exact I|exact Hp|exact Hok|by right|done|done]).
  - simpl in Hst. destruct Hok as (Hf & Hrun). pose proof Hrun as (v & Hv & _).
    assert (forall w1, ag_threads w1 = ag_threads w0 -> ag_mu w1 = ag_mu w0 -> ag_sessions w1 = ag_sessions w0 ->
              ag_heap w1 = ag_heap w0 -> ag_stopped w1 = ag_stopped w0 -> ag_vms w1 = ag_vms w0 ->
              safe (goto t (SvcRegister id opts) w1)) as Hgo.
    { intros w1 H1 H2 H3 H4 H5 H6. apply safe_goto; [done|]. rewrite H2, H3, H4, H5, H6.
      eapply Inv_move; [exact I|exact Hp|done|by right|done|done]. }
    assert (safe (finish t false (stop_machine id w0))) as Hstop
      by (apply (stop_service_vm_safe id); rewrite ?Heq; try done; by exists v).
    destruct (vo_IsAppSnapshotRestore opts); [simplify_eq; by apply Hgo|].
    destruct (_ && negb (ch_ok c)); [by simplify_eq|].
    destruct (ch_ok2 c); simplify_eq; [by apply Hgo|done].
  - simpl in Hst. destruct Hok as (Hf & Hrun). destruct (ag_mu w0) eqn:Hmu; [done|].
    assert (forall p, owns p = None ->
      phase_ok (ag_mu w0) (ag_heap w0 ++ [mkSess id "" zero_policy true ∅ None None]) (ag_vms w0) t p ->
      Inv (<[t := p]> (phases w0)) (ag_mu w0) (<[id := length (ag_heap w0)]> (ag_sessions w0))
        (ag_heap w0 ++ [mkSess id "" zero_policy true ∅ None None]) (ag_vms w0) (ag_stopped w0)) as Hreg.
    { intros p Hop Hokp. by eapply Inv_register. }
    injection Hst as <-. destruct (0 <? vo_Port opts)%Z.
    + apply safe_goto; [done|]. by apply Hreg.
    + apply safe_launched; [done|]. intros q Hq.
      destruct (idle_ok q (ag_mu w0) (ag_heap w0 ++ [mkSess id "" zero_policy true ∅ None None]) (ag_vms w0) t Hq)
        as [Hlq Hokq]. apply light_holds in Hlq as [? ?]. by apply Hreg.
  - simpl in Hst. destruct (ag_mu w0) eqn:Hmu; [done|].
    assert (safe (launched t id opts w0)) as Hl by (apply safe_launched; [done|]; by eapply idle_from).
    destruct (ag_sessions w0 !! id) as [r|] eqn:Hr; [|by simplify_eq].
    destruct (ch_ok c); simplify_eq; [|done]. apply safe_goto; [done|].
    eapply Inv_light; [exact I|exact Hp|done| |done|done].
    destruct (inv_sess _ _ _ _ _ _ I _ _ Hr) as (s & Hs & _). by exists s.
  - simpl in Hst. destruct (ag_mu w0) eqn:Hmu; [done|]. injection Hst as <-.
    apply safe_launched; [done|]. intros q Hq. simpl.
    destruct (idle_ok q (ag_mu w0) (alter (with_forward (Some port)) r (ag_heap w0)) (ag_vms w0) t Hq) as [Hlq Hokq].
    apply light_holds in Hlq as [? ?].
    eapply Inv_benign; [exact I|exact Hp|done|done|done|done|done|done].
Qed.

(** *** The other calls *)

Lemma stop_safe w : stop_step t (th_phase th) w0 = Some w -> safe w.
Proof using BOk Ht I.
  pose proof phase_here as Hp. pose proof (inv_phase _ _ _ _ _ _ I _ _ Hp) as Hok.
  destruct (th_phase th) as [| | | | | | | | | | | id r | id r | id r | | | | | | | | | |] eqn:Heq;
    try done; simpl; intros Hst.
  - destruct Hok as (s & Hs & Hid). rewrite Hs in Hst. destruct (ss_opMu s) eqn:Ho; [done|]. injection Hst as <-.
    apply safe_goto; [done|]. simpl. by eapply Inv_close.
  - injection Hst as <-. destruct Hok as (s & Hs & Hid & Hv).
    destruct (inv_heap _ _ _ _ _ _ I _ _ Hs) as (v & Hvm & _). rewrite Hid in Hvm.
    destruct (stop_machine_cases id w0 v Hvm) as [Hc|(v' & _ & Hd & ->)]; [by left|].
    apply safe_goto; [done|]. simpl. by eapply Inv_stop_vm.
  - destruct (ag_mu w0) eqn:Hmu; [done|]. injection Hst as <-. apply safe_finish; [done|].
    intros q Hq. simpl. destruct (idle_ok q (ag_mu w0) (ag_heap w0) (ag_vms w0) t Hq) as [Hlq Hokq].
    by eapply Inv_delete.
Qed.

Lemma exec_safe c w : exec_step c t (th_phase th) w0 = Some w -> safe w.
Proof using BOk Ht I.
  pose proof phase_here as Hp. pose proof (inv_phase _ _ _ _ _ _ I _ _ Hp) as Hok.
  destruct (th_phase th) as [| | | | | | | | | | | | | | r req | r req | | | | | | | |] eqn:Heq;
    try done; simpl; intros Hst.
  - destruct Hok as (s & Hs & _). rewrite Hs in Hst. destruct (ss_opMu s) eqn:Ho; [done|].
    destruct (ss_Vsock s) eqn:Hv; simplify_eq.
    + apply safe_goto; [done|]. simpl. by eapply Inv_exec_lock.
    + apply safe_finish; [done|]. by eapply idle_from.
  - injection Hst as <-. apply safe_finish; [done|]. intros q Hq. simpl.
    destruct (idle_ok q (ag_mu w0) (alter (with_opMu None) r (ag_heap w0)) (ag_vms w0) t Hq) as [Hlq Hokq].
    by eapply Inv_exec_unlock.
Qed.

Lemma benign_idle r f q :
  light (th_phase th) = true -> idle q = true ->
  (forall s, ss_ID (f s) = ss_ID s /\ ss_Vsock (f s) = ss_Vsock s /\ ss_opMu (f s) = ss_opMu s) ->
  Inv (<[t := q]> (phases w0)) (ag_mu w0) (ag_sessions w0) (alter f r (ag_heap w0)) (ag_vms w0) (ag_stopped w0).
Proof using Ht I.
  intros Hl Hq Hf. destruct (idle_ok q (ag_mu w0) (alter f r (ag_heap w0)) (ag_vms w0) t Hq) as [Hlq Hokq].
  apply light_holds in Hlq as [_ ?]. apply light_holds in Hl as Hl'. destruct Hl' as [? ?].
  eapply Inv_benign; [exact I|apply phase_here| | | | |exact Hf|]; try done.
  intros r' req Hr. by rewrite Hr in Hl.
Qed.

Lemma op_safe c r op w :
  th_phase th = OpUse r op -> op_step c t r op w0 = Some w -> safe w.
Proof using Ht I.
  intros Heq. unfold op_step. destruct (ag_heap w0 !! r) as [s|]; [|done].
  destruct (ss_Vsock s); [|intros [= <-]; by left]. intros [= <-].
  assert (light (th_phase th) = true) as Hl by (by rewrite Heq).
  destruct (ch_ok c), op; (apply safe_finish; [done|]; intros q Hq; simpl);
    try (by apply benign_idle); by eapply idle_from.
Qed.

Lemma reap_safe active w :
  th_phase th = ReapApply active -> reap_step t active w0 = Some w -> safe w.
Proof using Ht I.
  intros Heq. unfold reap_step. destruct (ag_mu w0) eqn:Hmu; [done|]. intros [= <-].
  apply safe_finish; [done|]. intros q Hq. simpl.
  destruct (idle_ok q (ag_mu w0) (ag_heap w0) (ag_vms w0) t Hq) as [Hlq Hokq].
  eapply Inv_filter; [exact I|apply phase_here| |done|done]. by rewrite Heq.
Qed.

Lemma checkpoint_safe c w : checkpoint_step c t (th_phase th) w0 = Some w -> safe w.
Proof using Ht I.
  pose proof phase_here as Hp. pose proof (inv_phase _ _ _ _ _ _ I _ _ Hp) as Hok.
  destruct (th_phase th) as [| | | | | | | | | | | | | | | | | | r cp | r cp layer | | | |] eqn:Heq;
    try done; simpl; intros Hst.
  - destruct (ch_ok c); simplify_eq.
    + apply safe_goto; [done|]. by eapply Inv_light.
    + apply safe_finish; [done|]. by eapply idle_from.
  - destruct (ag_mu w0) eqn:Hmu; [done|]. injection Hst as <-. apply safe_finish; [done|].
    intros q Hq. simpl. apply benign_idle; by rewrite ?Heq.
Qed.

Lemma health_safe c w : health_step c t (th_phase th) w0 = Some w -> safe w.
Proof using BOk Ht I.
  pose proof phase_here as Hp. pose proof (inv_phase _ _ _ _ _ _ I _ _ Hp) as Hok.
  destruct (th_phase th) as [| | | | | | | | | | | | | | | | | | | | id r n | id | id |] eqn:Heq;
    try done; simpl; intros Hst.
  - destruct n as [|n]; [simplify_eq; apply safe_finish; [done|]; by eapply idle_from|].
    destruct (vsock_open r w0); simplify_eq; [|by left]. apply safe_goto; [done|].
    destruct (ch_ok c); by eapply Inv_light.
  - destruct (ag_vms w0 !! id) as [v|] eqn:Hv.
    + pose proof (snapshot_same (ch_ok c) v) as Hsame. destruct (snapshotVM (ch_ok c) v) as [v' ok].
      injection Hst as <-. destruct ok; [apply safe_goto|apply safe_finish]; try done.
      * simpl. eapply Inv_vm_same; [|exact Hv|exact Hsame]. by eapply Inv_light.
      * intros q Hq. simpl. eapply Inv_vm_same; [|exact Hv|exact Hsame]. by eapply idle_from.
    + simplify_eq. apply safe_finish; [done|]. by eapply idle_from.
  - destruct (ag_vms w0 !! id) as [v|] eqn:Hv; simplify_eq; (apply safe_finish; [done|]); intros q Hq.
    + simpl. eapply Inv_vm_same; [|exact Hv|apply resume_same]. by eapply idle_from.
    + by eapply idle_from.
Qed.
End Preservation.

Section Reachability.
Context `{B : Backend} {BOk : BackendOk B} (dataDir cwd : string).

Lemma thread_step_safe c t w w' :
  safe w -> thread_step dataDir cwd c t w = Some w' -> safe w'.
Proof using BOk.
  unfold thread_step. intros Hw. destruct (ag_crashed w) eqn:Hc; [done|].
  destruct Hw as [Hw|I]; [congruence|].
  destruct (ag_threads w !! t) as [th|] eqn:Ht; [|done]. simpl.
  destruct (th_phase th) as [task| | | | | | | | | | | | | | | | | | | | | | |] eqn:Heq;
    rewrite <-?Heq; intros Hst; try done;
    eauto using begin_safe, launch_session_safe, launch_service_safe, stop_safe, exec_safe, op_safe, reap_safe,
      checkpoint_safe, health_safe.
Qed.

Lemma take_command_safe w w' : safe w -> take_command w = Some w' -> safe w'.
Proof.
  unfold take_command. intros Hw. destruct (ag_crashed w) eqn:Hc; [done|].
  destruct Hw as [Hw|I]; [congruence|].
  destruct (match lw_loop w with Some t => _ | None => _ end); [done|].
  destruct (lw_queue w) as [|cmd queue]; [done|].
  destruct (handleCommand cmd) as [wait tasks]. intros [= <-]. apply safe_spawn. by right.
Qed.

Lemma reachable_safe w : reachable dataDir cwd w -> safe w.
Proof using BOk.
  revert w. apply (rtc_ind_r safe NewAgent).
  - right. apply Inv_init.
  - intros w1 w2 _ Hstep Hw. destruct Hstep as [c t w' Hst|cmd|w' Hst|Hc|id lines Hc|id v Hv _].
    + by eapply thread_step_safe.
    + destruct Hw as [Hc|I]; [by left|by right].
    + by eapply take_command_safe.
    + by apply safe_spawn.
    + by apply safe_spawn.
    + destruct Hw as [Hc|I]; [by left|right]. unfold WInv, phases. simpl.
      eapply Inv_vm_same; [exact I|exact Hv|apply dies_same].
Qed.
End Reachability.

(** ** What a worker does *)

Section Claims.
Context `{B : Backend} {BOk : BackendOk B} (dataDir cwd : string).

(** The identifier of a session or service stays with the hypervisor, which refuses it from
    then on, when a service that was put to sleep is woken too ([wake_fails]). *)
Lemma identifier_kept (w : AgentState) r s cfg ok :
  reachable dataDir cwd w -> ag_crashed w = false -> ag_heap w !! r = Some s ->
  createVM (ss_ID s) cfg ok w = None.
Proof using BOk.
  intros Hr Hc Hs. destruct (reachable_safe dataDir cwd w Hr) as [Hcr|I]; [congruence|].
  destruct (inv_heap _ _ _ _ _ _ I _ _ Hs) as (v & Hv & _). unfold createVM. by rewrite Hv.
Qed.


(** *** Stopping gets done *)

Definition closed_choice (ok : bool) : Choice :=
  mkChoice ok ok ok (fun _ => None) (fun _ => false) (fun _ _ _ => Err "") "" 0.

(** Whoever holds [a.mu] can give it back in one step. *)
Lemma mu_released w t : WInv w -> ag_crashed w = false -> (forall v, is_Some (stopVM v)) ->
  ag_mu w = Some t ->
  exists c w', thread_step dataDir cwd c t w = Some w' /\ ag_crashed w' = false /\ ag_mu w' = None /\
    (forall t', t' <> t -> ag_threads w' !! t' = ag_threads w !! t') /\
    (forall id r, ag_sessions w !! id = Some r -> ag_sessions w' !! id = Some r).
Proof using BOk.
  intros I Hc Htotal Hmu. destruct (inv_mu _ _ _ _ _ _ I _ Hmu) as (p & Hp & Hh).
  unfold phases in Hp. rewrite list_lookup_fmap in Hp.
  destruct (ag_threads w !! t) as [th|] eqn:Ht; [|done]. injection Hp as Hp.
  assert (forall w1 ok, ag_threads w1 = ag_threads w ->
    forall t', t' <> t -> ag_threads (finish t ok w1) !! t' = ag_threads w !! t') as Hfin.
  { intros w1 ok Hw t' Hne. unfold finish. simpl. by rewrite Hw, list_lookup_alter_ne. }
  assert (forall id w1, stop_machine id w1 = w1 \/ exists vms, stop_machine id w1 = set_vms vms w1) as Hstop.
  { intros id w1. unfold stop_machine. destruct (ag_vms w1 !! id) as [v|]; [|by left].
    destruct (Htotal v) as [v' ->]. right. by eexists. }
  assert (forall id w1, ag_threads w1 = ag_threads w -> ag_crashed w1 = false -> ag_sessions w1 = ag_sessions w ->
    let w2 := fail_launch t id w1 in ag_crashed w2 = false /\ ag_mu w2 = None /\
      (forall t', t' <> t -> ag_threads w2 !! t' = ag_threads w !! t') /\
      (forall id r, ag_sessions w !! id = Some r -> ag_sessions w2 !! id = Some r)) as Hfail.
  { intros id w1 Hth Hcr Hse. simpl. unfold fail_launch.
    destruct (Hstop id w1) as [->|[vms ->]]; split_and!; try done; try (by apply Hfin); simpl; by rewrite Hse. }
  pose proof (inv_phase _ _ _ _ _ _ I t (th_phase th)) as Hok.
  unfold phases in Hok. rewrite list_lookup_fmap, Ht in Hok. specialize (Hok eq_refl). rewrite Hp in Hok.
  unfold thread_step. rewrite Hc, Ht. cbn [mbind option_bind]. rewrite Hp.
  destruct p as [|id opts|id opts|id opts n| | | | | | | | | | | | | | | | | | | |]; try done.
  - exists (closed_choice false). simpl.
    destruct (sessionVMConfig _ _ _ _ _ _ _) as [cfg|e].
    + assert (createVM id cfg false w = None) as -> by (unfold createVM; by destruct (ag_vms w !! id)).
      eexists. split; [done|]. split_and!; try done. by apply Hfin.
    + eexists. split; [done|]. split_and!; try done. by apply Hfin.
  - destruct Hok as (_ & _ & v & Hv & _). exists (closed_choice false). simpl. rewrite Hv.
    pose proof (start_outcome false v) as Ho. destruct (startVM false v) as [v' ok]. simpl in Ho. subst ok.
    eexists. split; [done|]. by apply Hfail.
  - destruct Hok as (_ & Hf & _). destruct n as [|n].
    + exists (closed_choice true). eexists. split; [done|]. by apply Hfail.
    + exists (closed_choice true). simpl. eexists. split; [done|]. split_and!; try done; [by apply Hfin|].
      intros i r Hi. simpl. rewrite lookup_insert_ne; [done|]. intros <-.
      destruct (inv_sess _ _ _ _ _ _ I _ _ Hi) as (s & Hs & Hid). by apply (Hf r s).
Qed.

Definition on_thread (w : AgentState) (t : nat) (p : ThreadPhase) : Prop :=
  exists rest, ag_threads w !! t = Some (mkThread p rest).
Definition stops (w : AgentState) (id : string) : Prop :=
  exists w', rtc (wstep dataDir cwd) w w' /\ ag_crashed w' = false /\ id ∈ ag_stopped w'.

Lemma stops_step w w' id : wstep dataDir cwd w w' -> stops w' id -> stops w id.
Proof. intros Hs (w2 & Hr & H2). exists w2. split; [by eapply rtc_l|done]. Qed.

Lemma step_thread c t w w' : thread_step dataDir cwd c t w = Some w' -> wstep dataDir cwd w w'.
Proof. apply ws_thread. Qed.

Lemma step_inv c t w w' :
  WInv w -> ag_crashed w' = false -> thread_step dataDir cwd c t w = Some w' -> WInv w'.
Proof using BOk.
  intros I Hc Hst. destruct (thread_step_safe dataDir cwd c t w w' (or_intror I) Hst); [congruence|done].
Qed.

Lemma phase_of w t p : WInv w -> on_thread w t p -> phase_ok (ag_mu w) (ag_heap w) (ag_vms w) t p.
Proof.
  intros I (rest & Ht). eapply (inv_phase _ _ _ _ _ _ I). unfold phases. by rewrite list_lookup_fmap, Ht.
Qed.

Lemma exec_holder w r s t' : WInv w -> ag_heap w !! r = Some s -> ss_opMu s = Some t' ->
  exists req, on_thread w t' (ExecRunning r req).
Proof.
  intros I Hs Ho. destruct (inv_opmu _ _ _ _ _ _ I _ _ _ Hs Ho) as [req Hreq].
  unfold phases in Hreq. rewrite list_lookup_fmap in Hreq. apply fmap_Some in Hreq as ([p rest] & Ht & Hp).
  simpl in Hp. subst p. exists req, rest. exact Ht.
Qed.

(** Waiting for [a.mu] comes to an end. *)
Lemma stops_after_mu w t p id : WInv w -> ag_crashed w = false -> (forall v, is_Some (stopVM v)) ->
  on_thread w t p -> holds_mu p = false ->
  (forall w', WInv w' -> ag_crashed w' = false -> on_thread w' t p -> ag_mu w' = None ->
     (forall i r, ag_sessions w !! i = Some r -> ag_sessions w' !! i = Some r) -> stops w' id) ->
  stops w id.
Proof using BOk.
  intros I Hc Htotal (rest & Ht) Hp Hgo. destruct (ag_mu w) as [t'|] eqn:Hmu.
  - destruct (mu_released w t' I Hc Htotal Hmu) as (c & w' & Hst & Hc' & Hmu' & Hth & Hse).
    eapply stops_step; [by eapply step_thread|]. apply Hgo; try done; [by eapply step_inv|].
    exists rest. rewrite Hth; [done|]. intros <-. destruct (inv_mu _ _ _ _ _ _ I _ Hmu) as (q & Hq & Hh).
    unfold phases in Hq. rewrite list_lookup_fmap, Ht in Hq. injection Hq as <-. simpl in Hh. congruence.
  - apply Hgo; try done. by exists rest.
Qed.

Lemma stops_delete w t id r : WInv w -> ag_crashed w = false -> (forall v, is_Some (stopVM v)) ->
  on_thread w t (StopDelete id r) -> stops w id.
Proof using BOk.
  intros I Hc Htotal Hth. eapply stops_after_mu; [done|done|done|exact Hth|done|].
  intros w' _ Hc' (rest & Ht) Hmu _. eapply stops_step.
  - apply (step_thread (closed_choice true) t). unfold thread_step. rewrite Hc', Ht. simpl. by rewrite Hmu.
  - eexists. split; [apply rtc_refl|]. split; [done|]. simpl. set_solver.
Qed.

Lemma stops_machine w t id r : WInv w -> ag_crashed w = false -> (forall v, is_Some (stopVM v)) ->
  on_thread w t (StopMachine id r) -> stops w id.
Proof using BOk.
  intros I Hc Htotal (rest & Ht).
  set (w' := goto t (StopDelete id r) (stop_machine id w)).
  assert (thread_step dataDir cwd (closed_choice true) t w = Some w') as Hst
    by (unfold thread_step; by rewrite Hc, Ht).
  assert (ag_crashed w' = false /\ ag_threads (stop_machine id w) = ag_threads w) as [Hc' Hth].
  { unfold w', stop_machine. simpl. destruct (ag_vms w !! id) as [v|]; [|done].
    by destruct (Htotal v) as [v' ->]. }
  eapply stops_step; [by eapply step_thread|]. eapply (stops_delete w' t); try done; [by eapply step_inv|].
  exists rest. unfold w', goto. simpl. by rewrite Hth, list_lookup_alter_eq, Ht.
Qed.

Lemma stops_closing w t id r : WInv w -> ag_crashed w = false -> (forall v, is_Some (stopVM v)) ->
  on_thread w t (StopClosing id r) -> stops w id.
Proof using BOk.
  intros I Hc Htotal Hth.
  assert (forall w', WInv w' -> ag_crashed w' = false -> on_thread w' t (StopClosing id r) ->
    (exists s, ag_heap w' !! r = Some s /\ ss_opMu s = None) -> stops w' id) as Hfree.
  { intros w' I' Hc' (rest & Ht) (s & Hs & Ho).
    set (w2 := goto t (StopMachine id r) (upd_sess r close_vsock w')).
    assert (thread_step dataDir cwd (closed_choice true) t w' = Some w2) as Hst
      by (unfold thread_step; rewrite Hc', Ht; simpl; by rewrite Hs, Ho).
    eapply stops_step; [by eapply step_thread|]. eapply (stops_machine w2 t); try done; [by eapply step_inv|].
    exists rest. unfold w2, goto. simpl. by rewrite list_lookup_alter_eq, Ht. }
  destruct (phase_of w t _ I Hth) as (s & Hs & Hid). destruct (ss_opMu s) as [t'|] eqn:Ho.
  - destruct (exec_holder w r s t' I Hs Ho) as (req & rest' & Ht').
    set (w' := finish t' true (upd_sess r (with_opMu None) w)).
    assert (thread_step dataDir cwd (closed_choice true) t' w = Some w') as Hst
      by (unfold thread_step; by rewrite Hc, Ht').
    eapply stops_step; [by eapply step_thread|]. apply Hfree; [by eapply step_inv|done| |].
    + destruct Hth as (rest & Ht). exists rest. unfold w', finish. simpl. rewrite list_lookup_alter_ne; [done|].
      intros ->. congruence.
    + exists (with_opMu None s). unfold w', upd_sess. simpl. by rewrite list_lookup_alter_eq, Hs.
  - apply Hfree; try done. by exists s.
Qed.

(** C29 A stop gets done: from every reachable state in which [StopSession]
    has found its session, the thread that holds the agent's lock, the command
    in progress on the session and the stop itself have steps that bring it to
    the end without the process dying, when the hypervisor's [StopVM] never
    panics, as with Cloud Hypervisor. *)
Theorem stop_completes (w : AgentState) (t : nat) (id : string) (p : ThreadPhase) :
  reachable dataDir cwd w -> ag_crashed w = false -> (forall v, is_Some (stopVM v)) ->
  on_thread w t p ->
  (p = Queued (TStop id) /\ is_Some (ag_sessions w !! id))
  \/ (exists r, p = StopClosing id r \/ p = StopMachine id r \/ p = StopDelete id r) ->
  exists w', rtc (wstep dataDir cwd) w w' /\ ag_crashed w' = false /\ id ∈ ag_stopped w'.
Proof using BOk.
  intros Hr Hc Htotal Hth Hp.
  destruct (reachable_safe dataDir cwd w Hr) as [Hcr|I]; [congruence|].
  destruct Hp as [[-> [r Hse]]|[r [->|[->| ->]]]].
  - eapply stops_after_mu; [done|done|done|exact Hth|done|].
    intros w1 I1 Hc1 (rest & Ht1) Hmu1 Hkeep.
    set (w2 := goto t (StopClosing id r) (upd_sess r (with_forward None) w1)).
    assert (thread_step dataDir cwd (closed_choice true) t w1 = Some w2) as Hst
      by (unfold thread_step; rewrite Hc1, Ht1; simpl; by rewrite Hmu1, (Hkeep _ _ Hse)).
    eapply stops_step; [by eapply step_thread|]. eapply (stops_closing w2 t); try done; [by eapply step_inv|].
    exists rest. unfold w2, goto. simpl. by rewrite list_lookup_alter_eq, Ht1.
  - by eapply stops_closing.
  - by eapply stops_machine.
  - by eapply stops_delete.
Qed.
End Claims.

(** ** Runs *)

Inductive Event :=
  | ESend (cmd : LocalCommand)
  | ETake
  | ERun (t : nat) (c : Choice)
  | EReap
  | ELogs (id : string).

Section Runs.
Context `{B : Backend} (dataDir cwd : string).

Definition do_event (e : Event) (w : AgentState) : option AgentState :=
  match e with
  | ESend cmd => Some (set_loop (lw_queue w ++ [cmd]) (lw_loop w) w)
  | ETake => take_command w
  | ERun t c => thread_step dataDir cwd c t w
  | EReap => if ag_crashed w then None else Some (spawn [(false, TReap)] w)
  | ELogs id => if ag_crashed w then None else Some (spawn [(false, TOp id (OpServiceLogs 100))] w)
  end.
Fixpoint play (es : list Event) (w : AgentState) : option AgentState :=
  match es with
  | [] => Some w
  | e :: es => w ← do_event e w; play es w
  end.

Lemma play_steps es w w' : play es w = Some w' -> rtc (wstep dataDir cwd) w w'.
Proof.
  revert w. induction es as [|e es IH]; intros w; simpl; [intros [= <-]; apply rtc_refl|].
  intros (w1 & He & Hp)%bind_Some. eapply rtc_l; [|by apply IH].
  destruct e as [cmd| |t c| |id]; simpl in He.
  - injection He as <-. apply ws_send.
  - by apply ws_take.
  - by eapply ws_thread.
  - destruct (ag_crashed w) eqn:Hc; [done|]. injection He as <-. by apply ws_reap.
  - destruct (ag_crashed w) eqn:Hc; [done|]. injection He as <-. by apply ws_logs.
Qed.
End Runs.

(** Everything succeeds; the first outcome differs; the second. *)
Definition fine : Choice :=
  mkChoice true true true (fun _ => None) (fun _ => true) (fun _ _ _ => Err "offline") "layer-1" 40000.
Definition refused : Choice :=
  mkChoice false true true (fun _ => None) (fun _ => true) (fun _ _ _ => Err "offline") "layer-1" 40000.
Definition second_refused : Choice :=
  mkChoice true false true (fun _ => None) (fun _ => true) (fun _ _ _ => Err "offline") "layer-1" 40000.

Definition web_session : SessionOpts := mkSessionOpts "execute" DefaultExecPolicy (mkLaunchOpts 1 256 pulled []).
Definition web_service : ServiceLaunchOpts := mkServiceLaunchOpts (mkLaunchOpts 1 256 pulled []) 8080 "" false.
Definition ls_req : ExecRequest := mkExecReq [mkCommand "c1" "ls" [] "" ∅ 0 0] false.

Definition ch_play : list Event -> option AgentState := fun es => @play CH.backend "/w" "/" es NewAgent.
Definition kvm_play : list Event -> option AgentState := fun es => @play KVM.backend "/w" "/" es NewAgent.
Definition the_worker (o : option AgentState) : AgentState := default NewAgent o.

Lemma ch_reachable es : is_Some (ch_play es) -> @reachable CH.backend "/w" "/" (the_worker (ch_play es)).
Proof. intros [w Hw]. rewrite Hw. by eapply play_steps. Qed.
Lemma kvm_reachable es : is_Some (kvm_play es) -> @reachable KVM.backend "/w" "/" (the_worker (kvm_play es)).
Proof. intros [w Hw]. rewrite Hw. by eapply play_steps. Qed.

(** A session is launched by thread 0, and a command runs in it (thread 1). *)
Definition launch_events : list Event :=
  [ESend (CmdLaunchSession "s1" web_session); ETake; ERun 0 fine; ERun 0 fine; ERun 0 fine; ERun 0 fine].
Definition exec_events : list Event :=
  launch_events ++ [ESend (CmdExec "s1" ls_req); ETake; ERun 1 fine; ERun 1 fine].
(** Then a stop finds the session (thread 2). *)
Definition stopping_events : list Event :=
  exec_events ++ [ESend (CmdStopSession "s1"); ETake; ERun 2 fine].
Definition stopped_events : list Event :=
  stopping_events ++ [ERun 1 fine; ERun 2 fine; ERun 2 fine; ERun 2 fine].


Lemma stop_completes_witness :
  exists w', rtc (@wstep CH.backend "/w" "/") (the_worker (ch_play stopping_events)) w' /\
    ag_crashed w' = false /\ "s1" ∈ ag_stopped w'.
Proof.
  apply (@stop_completes CH.backend CH.backend_ok "/w" "/" (the_worker (ch_play stopping_events)) 2 "s1"
           (StopClosing "s1" 0)).
  - apply ch_reachable. vm_compute. eexists. reflexivity.
  - vm_compute. reflexivity.
  - intros v. eexists. reflexivity.
  - exists []. vm_compute. reflexivity.
  - right. exists 0. left. reflexivity.
Defined.

(** ** What the interleavings allow *)

Definition repeat_run (n t : nat) : list Event := replicate n (ERun t fine).
(** A service launched by thread 0; its health check is thread 1. *)
Definition service_events : list Event :=
  [ESend (CmdLaunchService "v1" web_service); ETake] ++ repeat_run 8 0.
(** [snapshot_service] by thread 2, up to [StopSession] having found the session. *)
Definition snapshot_events : list Event :=
  service_events ++ [ESend (CmdSnapshotService "v1"); ETake] ++ repeat_run 4 2.

(** A session that is launched while the reaper waits for the lock is dropped
    from the map: its machine runs on, and it can neither be stopped nor
    launched again. *)
Lemma reaper_drops_live_session :
  let w := the_worker (ch_play ([ESend (CmdLaunchSession "s1" web_session); ETake; ERun 0 fine;
                                 EReap; ERun 1 fine] ++ repeat_run 3 0 ++ [ERun 1 fine])) in
  let w' := the_worker (ch_play ([ESend (CmdLaunchSession "s1" web_session); ETake; ERun 0 fine;
                                 EReap; ERun 1 fine] ++ repeat_run 3 0 ++ [ERun 1 fine;
                                 ESend (CmdStopSession "s1"); ETake; ERun 2 fine])) in
  ag_threads w !! 0 = Some (mkThread (Done true) []) /\ ag_sessions w !! "s1" = None /\
  (vm_live <$> ag_vms w !! "s1") = Some true /\ (ss_Vsock <$> ag_heap w !! 0) = Some true /\
  ag_threads w' !! 2 = Some (mkThread (Done false) []) /\ ag_crashed w' = false.
Proof. vm_compute. split_and!; reflexivity. Qed.

(** Stopping a service ends its process only: its machine runs on, and
    launching it again, as a redeployment does, fails. *)
Lemma stop_service_keeps_machine :
  let w := the_worker (ch_play (service_events ++ [ESend (CmdStopService "v1"); ETake] ++ repeat_run 2 2
             ++ [ESend (CmdLaunchService "v1" web_service); ETake; ERun 3 fine])) in
  ag_threads w !! 2 = Some (mkThread (Done true) []) /\ (vm_live <$> ag_vms w !! "v1") = Some true /\
  ag_threads w !! 3 = Some (mkThread (Done false) []).
Proof. vm_compute. split_and!; reflexivity. Qed.

(** A service that went idle cannot be woken on the same worker: the
    hypervisor still knows the machine. *)
Lemma wake_fails :
  let w := the_worker (ch_play (snapshot_events ++ repeat_run 3 2
             ++ [ESend (CmdLaunchService "v1" web_service); ETake; ERun 3 fine; ERun 3 fine])) in
  ag_threads w !! 2 = Some (mkThread (Done true) []) /\ "v1" ∈ ag_stopped w /\
  ag_threads w !! 3 = Some (mkThread (Done false) []) /\ ag_crashed w = false.
Proof. vm_compute. split_and!; tauto. Qed.

(** A stop command for a service that is being put to sleep panics. *)
Lemma stop_during_snapshot_crashes :
  ag_crashed (the_worker (ch_play (snapshot_events ++ [ESend (CmdStopService "v1"); ETake; ERun 3 fine;
                                                       ERun 2 fine; ERun 3 fine]))) = true.
Proof. vm_compute. reflexivity. Qed.

(** So does the health check of a service that goes to sleep before it was healthy. *)
Lemma health_check_crashes :
  ag_crashed (the_worker (ch_play (service_events ++ [ERun 1 fine; ERun 1 refused;
      ESend (CmdSnapshotService "v1"); ETake] ++ repeat_run 5 2 ++ [ERun 1 fine]))) = true.
Proof. vm_compute. reflexivity. Qed.

(** With KVM two stops of a session at once close a channel twice. *)
Lemma double_stop_panics :
  ag_crashed (the_worker (kvm_play (service_events
    ++ [ESend (CmdSnapshotService "v1"); ETake; ESend (CmdSnapshotService "v1"); ETake]
    ++ repeat_run 4 2 ++ repeat_run 4 3 ++ [ERun 2 fine; ERun 3 fine; ERun 2 fine; ERun 3 fine]))) = true.
Proof. vm_compute. reflexivity. Qed.

(** KVM reports a stopped machine as running when a snapshot of the health
    check ends after the stop. *)
Lemma resumed_after_stop :
  let w := the_worker (kvm_play (service_events ++ [ERun 1 fine; ERun 1 fine; ERun 1 fine;
             ESend (CmdSnapshotService "v1"); ETake] ++ repeat_run 7 2 ++ [ERun 1 fine])) in
  "v1" ∈ ag_stopped w /\
  (fun v => (vm_state v, vm_live v)) <$> ag_vms w !! "v1" = Some (VMStateRunning, false).
Proof. vm_compute. split; [tauto|reflexivity]. Qed.

(** A session counts as launched although its policy did not reach the supervisor. *)
Lemma policy_not_applied :
  let w := the_worker (ch_play ([ESend (CmdLaunchSession "s1" web_session); ETake] ++ repeat_run 3 0
                                ++ [ERun 0 second_refused])) in
  ag_threads w !! 0 = Some (mkThread (Done true) []) /\ is_Some (ag_sessions w !! "s1") /\
  ag_rpcs w = [("s1", RpcMode "execute")].
Proof. vm_compute. split_and!; [reflexivity|by eexists|reflexivity]. Qed.

(** A service whose machine does not start leaves the machine behind, and no
    later launch can succeed. *)
Lemma failed_start_leaves_machine :
  let w := the_worker (ch_play ([ESend (CmdLaunchService "v1" web_service); ETake; ERun 0 fine; ERun 0 fine;
             ERun 0 refused; ESend (CmdLaunchService "v1" web_service); ETake; ERun 1 fine; ERun 1 fine])) in
  ag_threads w !! 1 = Some (mkThread (Done false) []) /\ is_Some (ag_vms w !! "v1") /\ ag_sessions w = ∅.
Proof. vm_compute. split_and!; [reflexivity|by eexists|reflexivity]. Qed.

(** Nothing removes the overlay directory of a stopped session. *)
Lemma stop_keeps_overlay :
  let w := the_worker (ch_play stopped_events) in "s1" ∈ ag_stopped w /\ "s1" ∈ ag_overlays w.
Proof. vm_compute. tauto. Qed.

(** While [LaunchSession] waits for its machine to boot every other call waits
    too, the heartbeat included. *)
Lemma launch_blocks_calls `{B : Backend} c t t' task w :
  ag_mu w = Some t' -> task <> TReap -> begin c t task w = None.
Proof. intros Hmu Hne. destruct task; simpl; rewrite ?Hmu; try done. Qed.

(** A service restored from a snapshot is a machine booted from its image in
    which the service is never started. *)
Lemma restored_service_not_started :
  let restore := mkServiceLaunchOpts (mkLaunchOpts 1 256 pulled []) 8080 "b" true in
  let w := the_worker (ch_play ([ESend (CmdLaunchService "v1" restore); ETake] ++ repeat_run 8 0)) in
  ag_threads w = [mkThread (Done true) []] /\ is_Some (ag_sessions w !! "v1") /\ ag_rpcs w = [].
Proof. vm_compute. split_and!; [reflexivity|by eexists|reflexivity]. Qed.
