(* ===== verification/Store.v ===== *)
(** * The repositories ([src/internal/store])

    The interface the managers use ([store.go]) and its SQLite implementation
    ([sqlite/sessions.go], [executions.go], [checkpoints.go], [workers.go]). The
    SQL engine is an interface of its own, a table of rows with primary key and at
    most one unique index; a finite map implements it. JSON columns are read back
    as they were written. *)

From stdpp Require Import sorting options.
From S2P Require Import Prelude GoStrings Float64 Words Filesystem Network Policy Entities.
Open Scope nat_scope.

(** ** Repositories *)

Inductive StoreError := ErrNotFound | ErrConstraint.
#[global] Instance StoreError_eq_dec : EqDecision StoreError.
Proof. solve_decision. Defined.

(** The operations of [SessionRepository] and its siblings the managers share.
    [repo_Update] gets the clock reading for the column [updated_at]. *)
Class Repository (A T : Type) := {
  repo_Create : A -> T -> result StoreError T;
  repo_Get : string -> T -> result StoreError A;
  repo_Update : Z -> A -> T -> result StoreError T;
  repo_Delete : string -> T -> result StoreError T
}.

(** The key of an entity, its value in a unique index, the part of it every
    repository saves, and the part an update must leave as it is. *)
Class Entity (A : Type) := {
  ent_id : A -> string;
  ent_unique : A -> option string;
  ent_core : A -> A;
  ent_fixed : A -> string;
  ent_core_id a : ent_id (ent_core a) = ent_id a;
  ent_core_unique a : ent_unique (ent_core a) = ent_unique a;
  ent_core_fixed a : ent_fixed (ent_core a) = ent_fixed a
}.

(** Two rows that a unique index keeps apart. *)
Definition conflicts `{Entity A} (a b : A) : Prop :=
  ent_unique a = ent_unique b /\ ent_unique a <> None.
#[global] Instance conflicts_dec `{Entity A} (a b : A) : Decision (conflicts a b).
Proof. unfold conflicts. apply _. Defined.

(** What the managers rely on when the database works. *)
Class RepositoryLaws (A T : Type) `{Entity A, Repository A T} := {
  repo_rows : T -> gmap string A;
  repo_rows_id t k a : repo_rows t !! k = Some a -> ent_id a = k;
  repo_get k t :
    repo_Get k t = match repo_rows t !! k with Some a => Ok a | None => Err ErrNotFound end;
  repo_create_dup a t :
    is_Some (repo_rows t !! ent_id a) -> repo_Create a t = Err ErrConstraint;
  repo_create a t :
    repo_rows t !! ent_id a = None ->
    map_Forall (fun _ b => ~ conflicts a b) (repo_rows t) ->
    exists t' a', repo_Create a t = Ok t' /\ ent_core a' = ent_core a /\
      repo_rows t' = <[ent_id a := a']> (repo_rows t);
  repo_update now a old t :
    repo_rows t !! ent_id a = Some old ->
    ent_fixed a = ent_fixed old -> ent_unique a = ent_unique old ->
    exists t' a', repo_Update now a t = Ok t' /\ ent_core a' = ent_core a /\
      repo_rows t' = <[ent_id a := a']> (repo_rows t);
  repo_update_none now a t :
    repo_rows t !! ent_id a = None ->
    exists t', repo_Update now a t = Ok t' /\ repo_rows t' = repo_rows t;
  repo_delete k t :
    exists t', repo_Delete k t = Ok t' /\ repo_rows t' = delete k (repo_rows t)
}.

(** ** Entities *)

(** The columns of a session: mounts, ports, the idle timeout, readiness, the status
    message and the last activity have none. *)
Definition savedSession (s : Session) : Session :=
  mkSession (s_ID s) (s_Name s) (s_Status s) (s_Mode s) (s_WorkerID s) (s_ImageRef s)
    (s_ImageID s) (s_SnapshotID s) (s_VCPUs s) (s_MemoryMB s) (s_Labels s) [] [] (s_ExecPolicy s)
    0 false "" 0 (parse_rfc3339 (rfc3339 (s_CreatedAt s))) (parse_rfc3339 (rfc3339 (s_UpdatedAt s))).

Definition withTimes (created updated : Z) (s : Session) : Session :=
  mkSession (s_ID s) (s_Name s) (s_Status s) (s_Mode s) (s_WorkerID s) (s_ImageRef s)
    (s_ImageID s) (s_SnapshotID s) (s_VCPUs s) (s_MemoryMB s) (s_Labels s) (s_Mounts s) (s_Ports s)
    (s_ExecPolicy s) (s_IdleTimeout s) (s_Ready s) (s_StatusMessage s) (s_LastActivity s)
    created updated.

#[global] Program Instance Session_entity : Entity Session := {
    ent_id := s_ID;
    ent_unique s := if String.eqb (s_Name s) "" then None else Some (s_Name s);
    ent_core s := withTimes 0 0 (savedSession s);
    ent_fixed := s_Name
}.
  Solve Obligations with done.

Definition savedExecution (e : Execution) : Execution :=
  mkExecution (e_ID e) (e_SessionID e) (e_Status e) (e_Parallel e) (e_Commands e) (e_Results e)
    (parse_rfc3339 (rfc3339 (e_CreatedAt e))) (parse_rfc3339 (rfc3339 (e_UpdatedAt e))).

#[global] Program Instance Execution_entity : Entity Execution := {
    ent_id := e_ID;
    ent_unique _ := None;
    ent_core e := mkExecution (e_ID e) (e_SessionID e) (e_Status e) (e_Parallel e) (e_Commands e)
                    (e_Results e) 0 0;
    ent_fixed := e_SessionID
}.
  Solve Obligations with done.

Definition savedCheckpoint (c : Checkpoint) : Checkpoint :=
  mkCheckpoint (cp_ID c) (cp_SessionID c) (cp_ParentID c) (cp_Type c) (cp_Status c) (cp_Label c)
    (cp_OverlayPath c) (cp_VMStatePath c) (cp_MetadataPath c)
    (parse_rfc3339 (rfc3339 (cp_CreatedAt c))).

#[global] Program Instance Checkpoint_entity : Entity Checkpoint := {
    ent_id := cp_ID;
    ent_unique _ := None;
    ent_core c := mkCheckpoint (cp_ID c) (cp_SessionID c) (cp_ParentID c) (cp_Type c) (cp_Status c)
                    (cp_Label c) (cp_OverlayPath c) (cp_VMStatePath c) (cp_MetadataPath c) 0;
    ent_fixed _ := ""
}.
  Solve Obligations with done.

(** There is no column for the private address. *)
Definition savedWorker (w : Worker) : Worker :=
  mkWorker (w_ID w) (w_Hostname w) (w_IPAddress w) "" (w_Provider w) (w_Region w) (w_Zone w)
    (w_Status w) (w_Labels w) (w_Capacity w) (w_AgentVersion w) (w_KVMAvailable w)
    (parse_rfc3339 (rfc3339 (w_CreatedAt w))) (parse_rfc3339 (rfc3339 (w_UpdatedAt w)))
    (parse_rfc3339 (rfc3339 (w_LastSeen w))).

#[global] Program Instance Worker_entity : Entity Worker := {
    ent_id := w_ID;
    ent_unique _ := None;
    ent_core w := mkWorker (w_ID w) (w_Hostname w) (w_IPAddress w) "" (w_Provider w) (w_Region w)
                    (w_Zone w) (w_Status w) (w_Labels w) (w_Capacity w) (w_AgentVersion w)
                    (w_KVMAvailable w) 0 0 0;
    ent_fixed _ := ""
}.
  Solve Obligations with done.

(** ** The SQL engine *)

(** [INSERT], [UPDATE .. SET .. WHERE id = ?], [DELETE .. WHERE id = ?] and a full
    [SELECT] on one table, whose rows hold their key; the first two fail on a
    constraint. *)
Class SqlTable (A T : Type) := {
  sql_insert : A -> T -> option T;
  sql_update : string -> (A -> A) -> T -> option T;
  sql_delete : string -> T -> T;
  sql_select : T -> list A
}.

Class SqlTableLaws (A T : Type) `{Entity A, SqlTable A T} := {
  sql_rows : T -> gmap string A;
  sql_rows_id t k a : sql_rows t !! k = Some a -> ent_id a = k;
  sql_insert_spec a t :
    match sql_insert a t with
    | Some t' => sql_rows t !! ent_id a = None /\
                 map_Forall (fun _ b => ~ conflicts a b) (sql_rows t) /\
                 sql_rows t' = <[ent_id a := a]> (sql_rows t)
    | None => is_Some (sql_rows t !! ent_id a) \/
              ~ map_Forall (fun _ b => ~ conflicts a b) (sql_rows t)
    end;
  sql_update_spec k f t :
    (forall a, sql_rows t !! k = Some a ->
       ent_id (f a) = ent_id a /\ ent_unique (f a) = ent_unique a) ->
    exists t', sql_update k f t = Some t' /\
      sql_rows t' = match sql_rows t !! k with
                    | Some a => <[k := f a]> (sql_rows t)
                    | None => sql_rows t
                    end;
  sql_delete_spec k t : sql_rows (sql_delete k t) = delete k (sql_rows t);
  sql_select_spec t : sql_select t ≡ₚ (map_to_list (sql_rows t)).*2
}.

(** Finite maps are such tables; an entry under a key that is not its own is no row. *)
Section map_table.
Context {A : Type} `{Entity A}.

Definition keyed (kv : string * A) : Prop := ent_id kv.2 = kv.1.
#[global] Instance keyed_dec kv : Decision (keyed kv).
Proof. unfold keyed. apply _. Defined.
Definition map_rows (t : gmap string A) : gmap string A := filter keyed t.

#[global] Instance map_table : SqlTable A (gmap string A) := {
  sql_insert a t :=
  if decide (map_rows t !! ent_id a = None /\
    map_Forall (fun _ b => ~ conflicts a b) (map_rows t))
  then Some (<[ent_id a := a]> t) else None;
  sql_update k f t :=
  match map_rows t !! k with
  | None => Some t
  | Some a => if bool_decide (map_Forall (fun _ b => ~ conflicts (f a) b) (delete k (map_rows t)))
  || bool_decide (ent_unique (f a) = ent_unique a)
      then Some (<[k := f a]> t) else None
  end;
  sql_delete k t := delete k t;
  sql_select t := (map_to_list (map_rows t)).*2
}.

Lemma map_rows_id t k a : map_rows t !! k = Some a -> ent_id a = k.
Proof. unfold map_rows. by intros [_ Hk]%map_lookup_filter_Some. Qed.

Lemma map_rows_insert t k a : ent_id a = k -> map_rows (<[k := a]> t) = <[k := a]> (map_rows t).
Proof. intros Hk. by apply map_filter_insert_True. Qed.

#[global] Program Instance map_table_laws : SqlTableLaws A (gmap string A) := {
  sql_rows := map_rows;
  sql_rows_id := map_rows_id
}.
Next Obligation.
  intros a t. simpl. case_decide as Hd.
  - destruct Hd as [H1 H2]. split_and!; [done..|]. by apply map_rows_insert.
  - destruct (map_rows t !! ent_id a) as [b|] eqn:Hk; [left; by eexists|right]. naive_solver.
Qed.
Next Obligation.
  intros k f t Hu. simpl. destruct (map_rows t !! k) as [a|] eqn:Hk; [|by exists t].
  destruct (Hu a eq_refl) as [Hid Hun].
  rewrite (bool_decide_eq_true_2 (ent_unique (f a) = ent_unique a)), orb_true_r by done.
  eexists. split; [done|]. apply map_rows_insert. rewrite Hid. by eapply map_rows_id.
Qed.
Next Obligation. intros k t. simpl. apply map_filter_delete. Qed.
Next Obligation. done. Qed.
End map_table.

(** ** The SQLite repositories *)

(** What of an entity the [INSERT] writes, and the [SET] clause of the [UPDATE]
    against the old row. *)
Class Columns (A : Type) := {
  col_save : A -> A;
  col_assign : Z -> A -> A -> A
}.

Class ColumnsLaws (A : Type) `{Entity A, Columns A} := {
  col_save_core a : ent_core (col_save a) = ent_core a;
  col_assign_core now a old :
    ent_id a = ent_id old -> ent_fixed a = ent_fixed old ->
    ent_core (col_assign now a old) = ent_core a
}.

Section sql_get.
#[local] Set Default Proof Using "Type*".
Context {A T : Type} `{Entity A, SqlTable A T}.

(** [SELECT .. WHERE id = ?] *)
Definition sqliteGet (id : string) (t : T) : result StoreError A :=
  match List.find (fun a => String.eqb (ent_id a) id) (sql_select t) with
  | Some a => Ok a
  | None => Err ErrNotFound
  end.

Context `{!SqlTableLaws A T}.

Lemma sql_select_in t a : a ∈ sql_select t <-> sql_rows t !! ent_id a = Some a.
Proof.
  rewrite sql_select_spec, list_elem_of_fmap. split.
  - intros ([k b] & -> & Hb%elem_of_map_to_list). simpl. by rewrite (sql_rows_id t k b).
  - intros Ha. exists (ent_id a, a). split; [done|]. by apply elem_of_map_to_list.
Qed.

Lemma sql_select_NoDup t : NoDup (ent_id <$> sql_select t).
Proof.
  rewrite sql_select_spec, <-list_fmap_compose. erewrite list_fmap_ext.
  - apply (NoDup_fst_map_to_list (sql_rows t)).
  - intros i [k a] Hi%list_elem_of_lookup_2%elem_of_map_to_list. exact (sql_rows_id _ _ _ Hi).
Qed.

Lemma sqliteGet_rows id t :
  sqliteGet id t = match sql_rows t !! id with Some a => Ok a | None => Err ErrNotFound end.
Proof.
  unfold sqliteGet. destruct (List.find _ _) as [a|] eqn:Hf.
  - apply find_some in Hf as [Ha Heq]. apply list_elem_of_In, sql_select_in in Ha.
  apply String.eqb_eq in Heq as <-. by rewrite Ha.
  - destruct (sql_rows t !! id) as [b|] eqn:Hb; [|done].
  assert (ent_id b = id) as Hid by (by eapply sql_rows_id).
  eapply find_none in Hf; [|apply list_elem_of_In, sql_select_in; by rewrite Hid].
  simpl in Hf. by apply String.eqb_neq in Hf.
Qed.
End sql_get.

Section sqlite.
#[local] Set Default Proof Using "Type*".
Context {A T : Type} `{Entity A, Columns A, SqlTable A T}.

Definition sqliteCreate (a : A) (t : T) : result StoreError T :=
  match sql_insert (col_save a) t with Some t => Ok t | None => Err ErrConstraint end.

Definition sqliteUpdate (now : Z) (a : A) (t : T) : result StoreError T :=
  match sql_update (ent_id a) (col_assign now a) t with
  | Some t => Ok t
  | None => Err ErrConstraint
  end.

Definition sqliteDelete (id : string) (t : T) : result StoreError T := Ok (sql_delete id t).

#[global] Instance sqlite_repository : Repository A T := {
  repo_Create := sqliteCreate;
  repo_Get := sqliteGet;
  repo_Update := sqliteUpdate;
  repo_Delete := sqliteDelete
}.

Context `{!SqlTableLaws A T, !ColumnsLaws A}.

Lemma col_save_id a : ent_id (col_save a) = ent_id a.
Proof. by rewrite <-ent_core_id, col_save_core, ent_core_id. Qed.
Lemma col_save_unique a : ent_unique (col_save a) = ent_unique a.
Proof. by rewrite <-ent_core_unique, col_save_core, ent_core_unique. Qed.

#[global] Program Instance sqlite_repository_laws : RepositoryLaws A T := {
  repo_rows := sql_rows;
  repo_rows_id := sql_rows_id;
  repo_get := sqliteGet_rows
}.
Next Obligation.
  intros a t Hdup. simpl. unfold sqliteCreate. pose proof (sql_insert_spec (col_save a) t) as Hs.
  destruct (sql_insert _ _); [|done]. destruct Hs as [Hnone _]. rewrite col_save_id in Hnone.
  destruct Hdup as [? ?]. congruence.
Qed.
Next Obligation.
  intros a t Hnone Hu. simpl. unfold sqliteCreate. pose proof (sql_insert_spec (col_save a) t) as Hs.
  destruct (sql_insert _ _) as [t'|].
  - destruct Hs as (_ & _ & Hrows). rewrite col_save_id in Hrows. exists t', (col_save a).
  split_and!; [done|apply col_save_core|done].
  - rewrite col_save_id in Hs. destruct Hs as [[? ?]|[]]; [congruence|].
  intros k b Hb. specialize (Hu k b Hb). unfold conflicts in *. by rewrite col_save_unique.
Qed.
Next Obligation.
  intros now a old t Hold Hf Hu. simpl. unfold sqliteUpdate.
  assert (ent_id a = ent_id old) as Hid by (symmetry; by eapply sql_rows_id).
  assert (ent_core (col_assign now a old) = ent_core a) as Hc by (by apply col_assign_core).
  destruct (sql_update_spec (ent_id a) (col_assign now a) t) as (t' & -> & Hrows).
  { intros b Hb. simplify_eq. split.
  - by rewrite <-ent_core_id, Hc, ent_core_id.
  - by rewrite <-ent_core_unique, Hc, ent_core_unique. }
  rewrite Hold in Hrows. by exists t', (col_assign now a old).
Qed.
Next Obligation.
  intros now a t Hnone. simpl. unfold sqliteUpdate.
  destruct (sql_update_spec (ent_id a) (col_assign now a) t) as (t' & -> & Hrows);
  [intros b Hb; congruence|]. rewrite Hnone in Hrows. by exists t'.
Qed.
Next Obligation.
  intros k t. exists (sql_delete k t). split; [done|]. apply sql_delete_spec.
Qed.
End sqlite.

#[global] Instance Session_columns : Columns Session := {
  col_save := savedSession;
  col_assign now s old := withTimes (s_CreatedAt old) (parse_rfc3339 (rfc3339 now)) (savedSession s)
}.
#[global] Program Instance Session_columns_laws : ColumnsLaws Session.
  Solve Obligations with done.

#[global] Instance Execution_columns : Columns Execution := {
  col_save := savedExecution;
  col_assign now e old :=
    mkExecution (e_ID old) (e_SessionID old) (e_Status e) (e_Parallel e) (e_Commands e) (e_Results e)
      (e_CreatedAt old) (parse_rfc3339 (rfc3339 now))
}.
#[global] Program Instance Execution_columns_laws : ColumnsLaws Execution.
Next Obligation. done. Qed.
Next Obligation. intros now e old Hid Hf. simpl in *. by rewrite Hid, Hf. Qed.

#[global] Instance Checkpoint_columns : Columns Checkpoint := {
  col_save := savedCheckpoint;
  col_assign now c old :=
    mkCheckpoint (cp_ID old) (cp_SessionID c) (cp_ParentID c) (cp_Type c) (cp_Status c) (cp_Label c)
      (cp_OverlayPath c) (cp_VMStatePath c) (cp_MetadataPath c) (cp_CreatedAt old)
}.
#[global] Program Instance Checkpoint_columns_laws : ColumnsLaws Checkpoint.
Next Obligation. done. Qed.
Next Obligation. intros now c old Hid Hf. simpl in *. by rewrite Hid. Qed.

#[global] Instance Worker_columns : Columns Worker := {
  col_save := savedWorker;
  col_assign now w old :=
    mkWorker (w_ID old) (w_Hostname w) (w_IPAddress w) "" (w_Provider w) (w_Region w) (w_Zone w)
      (w_Status w) (w_Labels w) (w_Capacity w) (w_AgentVersion w) (w_KVMAvailable w)
      (w_CreatedAt old) (parse_rfc3339 (rfc3339 now)) (parse_rfc3339 (rfc3339 (w_LastSeen w)))
}.
#[global] Program Instance Worker_columns_laws : ColumnsLaws Worker.
Next Obligation. done. Qed.
Next Obligation. intros now w old Hid Hf. simpl in *. by rewrite Hid. Qed.

(** ** Queries *)

Definition sessionStatusText (s : SessionStatus) : string :=
  match s with
  | SessionStatusCreating => "creating"
  | SessionStatusProvisioning => "provisioning"
  | SessionStatusRunning => "running"
  | SessionStatusIdle => "idle"
  | SessionStatusPaused => "paused"
  | SessionStatusTerminating => "terminating"
  | SessionStatusTerminated => "terminated"
  | SessionStatusError => "error"
  end.

(** The optional columns of a filter are pointers; a status is its text. *)
Record SessionFilter := mkFilter {
  sf_Status : option string;
  sf_WorkerID : option string;
  sf_Name : option string;
  sf_Limit : Z;
  sf_Offset : Z
}.

(** [AND column = ?], when the filter asks for it. *)
Definition whereEq (want : option string) (value : string) : bool :=
  match want with Some x => String.eqb x value | None => true end.

Definition sessionWhere (f : SessionFilter) (s : Session) : bool :=
  whereEq (sf_Status f) (sessionStatusText (s_Status s))
  && whereEq (sf_WorkerID f) (s_WorkerID s) && whereEq (sf_Name f) (s_Name s).

(** [ORDER BY created_at DESC], ties in the order of the engine. *)
Definition newer (a b : Session) : Prop := (s_CreatedAt b <= s_CreatedAt a)%Z.
#[global] Instance newer_dec a b : Decision (newer a b).
Proof. unfold newer. apply _. Defined.

(** The session queries of the interface. *)
Class SessionQueries (T : Type) := {
  ses_List : SessionFilter -> T -> result StoreError (list Session);
  ses_ListByWorker : string -> T -> result StoreError (list Session)
}.

(** [ListByWorker] returns those sessions of the worker that the store finds: all of them
    in PostgreSQL, none in SQLite. *)
Class SessionQueriesLaws (T : Type) `{!Repository Session T, !RepositoryLaws Session T}
    {queries : SessionQueries T} := {
  ses_finds : Session -> bool;
  ses_ListByWorker_spec wid t :
    exists l, ses_ListByWorker wid t = Ok l /\
      l ≡ₚ filter (fun s => s_WorkerID s = wid /\ ses_finds s = true) (map_to_list (repo_rows t)).*2
}.

Section queries.
#[local] Set Default Proof Using "Type*".
Context {T : Type} `{SqlTable Session T}.

(** [LIMIT] and [OFFSET] are added when positive; [OFFSET] alone is a syntax error. *)
Definition sqlList (f : SessionFilter) (t : T) : result StoreError (list Session) :=
  let rows := merge_sort newer (filter (fun s => sessionWhere f s = true) (sql_select t)) in
  if (0 <? sf_Limit f)%Z then
    Ok (take (Z.to_nat (sf_Limit f))
          (if (0 <? sf_Offset f)%Z then drop (Z.to_nat (sf_Offset f)) rows else rows))
  else if (0 <? sf_Offset f)%Z then Err ErrConstraint
  else Ok rows.

(** [sqlite/sessions.go] asks for the sessions of the worker with an empty status,
    [postgres/sessions.go] for the sessions of the worker. *)
Definition sqliteListByWorker (workerID : string) : T -> result StoreError (list Session) :=
  sqlList (mkFilter (Some "") (Some workerID) None 0 0).
Definition postgresListByWorker (workerID : string) : T -> result StoreError (list Session) :=
  sqlList (mkFilter None (Some workerID) None 0 0).

Definition sqliteQueries : SessionQueries T :=
  {| ses_List := sqlList; ses_ListByWorker := sqliteListByWorker |}.
Definition postgresQueries : SessionQueries T :=
  {| ses_List := sqlList; ses_ListByWorker := postgresListByWorker |}.

Context `{!SqlTableLaws Session T}.

#[refine] Definition postgresQueries_laws : SessionQueriesLaws T (queries := postgresQueries) :=
  {| ses_finds _ := true |}.
Proof.
  intros wid t. eexists. split; [done|].
  rewrite merge_sort_Permutation, sql_select_spec. apply reflexive_eq, list_filter_iff.
  intros s. unfold sessionWhere, whereEq. simpl. rewrite andb_true_r, String.eqb_eq. naive_solver.
Defined.

(** No session has an empty status: the SQLite query never finds one. *)
Lemma sqliteListByWorker_empty wid t : sqliteListByWorker wid t = Ok [].
Proof.
  unfold sqliteListByWorker, sqlList. simpl. f_equal.
  assert (filter (fun s => sessionWhere (mkFilter (Some "") (Some wid) None 0 0) s = true)
            (sql_select t) = []) as ->; [|done].
  apply filter_nil_Forall, Forall_forall. intros s _. by destruct s as [? ? []].
Qed.

#[refine] Definition sqliteQueries_laws : SessionQueriesLaws T (queries := sqliteQueries) :=
  {| ses_finds _ := false |}.
Proof.
  intros wid t. exists []. split; [apply sqliteListByWorker_empty|]. apply reflexive_eq. symmetry.
  apply filter_nil_Forall, Forall_forall. by intros s _ [_ ?].
Defined.
End queries.
