(* ===== verification/VolumeManager.v ===== *)
(** * Named volumes ([src/internal/controlplane/volume/manager.go])

    The records of named volumes ([src/internal/loka/volume.go]), their SQLite
    repository ([src/internal/store/sqlite/volumes.go]), and the manager that places
    them on workers and repairs the placement when a worker dies. The object store
    enters only by being configured or not; extracting bundles is file transfer and
    left out. *)

From stdpp Require Import sorting options.
From S2P Require Import Prelude Effects GoStrings Entities Store.
Open Scope nat_scope.

(** ** Records *)

Definition VolumeTypeBlock : string := "block".
Definition VolumeTypeObject : string := "object".

Inductive VolumeStatus :=
  | VolumeStatusHealthy | VolumeStatusDegraded | VolumeStatusSyncing | VolumeStatusError.
#[global] Instance VolumeStatus_eq_dec : EqDecision VolumeStatus.
Proof. solve_decision. Defined.

Record VolumeRecord := mkVolumeRecord {
  vr_Name : string;
  vr_Type : string;
  vr_Status : VolumeStatus;
  vr_Provider : string;
  vr_SizeBytes : Z;
  vr_MaxSizeBytes : Z;
  vr_PrimaryWorkerID : string;
  vr_ReplicaWorkerIDs : list string;
  vr_DesiredReplicas : Z;
  vr_MountCount : Z;
  vr_Bucket : string;
  vr_Prefix : string;
  vr_Region : string;
  vr_Credentials : string;
  vr_CreatedAt : Z;
  vr_UpdatedAt : Z
}.

Definition IsDirectObject (v : VolumeRecord) : bool :=
  String.eqb (vr_Type v) VolumeTypeObject && negb (String.eqb (vr_Bucket v) "").
Definition IsLokaManaged (v : VolumeRecord) : bool :=
  String.eqb (vr_Type v) VolumeTypeBlock
  || String.eqb (vr_Type v) VolumeTypeObject && String.eqb (vr_Bucket v) "".

Definition vr_with (primary : string) (replicas : list string) (st : VolumeStatus) (updated : Z)
    (v : VolumeRecord) : VolumeRecord :=
  mkVolumeRecord (vr_Name v) (vr_Type v) st (vr_Provider v) (vr_SizeBytes v) (vr_MaxSizeBytes v)
    primary replicas (vr_DesiredReplicas v) (vr_MountCount v) (vr_Bucket v) (vr_Prefix v)
    (vr_Region v) (vr_Credentials v) (vr_CreatedAt v) updated.
Definition vr_with_counts (size count desired created updated : Z) (v : VolumeRecord) : VolumeRecord :=
  mkVolumeRecord (vr_Name v) (vr_Type v) (vr_Status v) (vr_Provider v) size (vr_MaxSizeBytes v)
    (vr_PrimaryWorkerID v) (vr_ReplicaWorkerIDs v) desired count (vr_Bucket v) (vr_Prefix v)
    (vr_Region v) (vr_Credentials v) created updated.

#[global] Program Instance VolumeRecord_entity : Entity VolumeRecord := {
    ent_id := vr_Name;
    ent_unique _ := None;
    ent_core v := v;
    ent_fixed _ := ""
}.
  Solve Obligations with done.

(** ** The repository *)

(** A time as it is read back. *)
Definition stored (t : Z) : Z := parse_rfc3339 (rfc3339 t).

Section repository.
#[local] Set Default Proof Using "Type*".
Context {T : Type} `{!SqlTable VolumeRecord T}.

Definition volCreate (v : VolumeRecord) (t : T) : result StoreError T :=
  let desired := if (vr_DesiredReplicas v =? 0)%Z then 2%Z else vr_DesiredReplicas v in
  match sql_insert (vr_with_counts (vr_SizeBytes v) (vr_MountCount v) desired (stored (vr_CreatedAt v))
        (stored (vr_UpdatedAt v)) v) t with
  | Some t => Ok t
  | None => Err ErrConstraint
  end.

Definition volGet (name : string) (t : T) : result StoreError VolumeRecord :=
  match List.find (fun v => String.eqb (vr_Name v) name) (sql_select t) with
  | Some v => Ok v
  | None => Err ErrNotFound
  end.

(** [UPDATE volumes SET .. WHERE name = ?] *)
Definition volSet (name : string) (f : VolumeRecord -> VolumeRecord) (t : T) : result StoreError T :=
  match sql_update name f t with Some t => Ok t | None => Err ErrConstraint end.

(** Every column but the name and the creation time. *)
Definition volUpdate (v : VolumeRecord) : T -> result StoreError T :=
  volSet (vr_Name v) (fun old =>
  mkVolumeRecord (vr_Name old) (vr_Type v) (vr_Status v) (vr_Provider v) (vr_SizeBytes v)
    (vr_MaxSizeBytes v) (vr_PrimaryWorkerID v) (vr_ReplicaWorkerIDs v) (vr_DesiredReplicas v)
    (vr_MountCount v) (vr_Bucket v) (vr_Prefix v) (vr_Region v) (vr_Credentials v)
    (vr_CreatedAt old) (stored (vr_UpdatedAt v))).

Definition volDelete (name : string) (t : T) : result StoreError T :=
  match volGet name t with Ok _ => Ok (sql_delete name t) | Err e => Err e end.

(** [ORDER BY name], by the bytes of the names. *)
Definition by_name (a b : VolumeRecord) : Prop := strings.String.le (vr_Name a) (vr_Name b).
#[global] Instance by_name_dec a b : Decision (by_name a b).
Proof. unfold by_name. apply _. Defined.

Definition volList (t : T) : list VolumeRecord := take 10000 (merge_sort by_name (sql_select t)).

(** The column of the replicas is matched as text against the quoted identifier; for
    the identifiers of workers, UUIDs, that is membership. *)
Definition placed_on (w : string) (v : VolumeRecord) : Prop :=
  vr_PrimaryWorkerID v = w \/ w ∈ vr_ReplicaWorkerIDs v.
#[global] Instance placed_on_dec w v : Decision (placed_on w v).
Proof. unfold placed_on. apply _. Defined.

Definition volListByWorker (w : string) (t : T) : list VolumeRecord :=
  merge_sort by_name (filter (placed_on w) (sql_select t)).

Definition volUpdatePlacement (now : Z) (name primary : string) (replicas : list string)
  : T -> result StoreError T :=
  volSet name (fun old => vr_with primary replicas (vr_Status old) (stored now) old).
Definition volUpdateStatus (now : Z) (name : string) (st : VolumeStatus) : T -> result StoreError T :=
  volSet name (fun old => vr_with (vr_PrimaryWorkerID old) (vr_ReplicaWorkerIDs old) st (stored now) old).
Definition volIncrementMountCount (now : Z) (name : string) : T -> result StoreError T :=
  volSet name (fun old => vr_with_counts (vr_SizeBytes old) (vr_MountCount old + 1)
  (vr_DesiredReplicas old) (vr_CreatedAt old) (stored now) old).
Definition volDecrementMountCount (now : Z) (name : string) : T -> result StoreError T :=
  volSet name (fun old => vr_with_counts (vr_SizeBytes old) (Z.max (vr_MountCount old - 1) 0)
  (vr_DesiredReplicas old) (vr_CreatedAt old) (stored now) old).
End repository.

(** ** The manager *)

Inductive VolumeError :=
  | EVStore (e : StoreError)
  | EVNameRequired
  | EVExists (name : string)
  | EVNotFound (name : string)
  | EVMounted (name : string) (n : Z)
  | EVNoRegistry.

Section manager.
#[local] Set Default Proof Using "Type*".
Context {T : Type} `{!SqlTable VolumeRecord T}.
#[local] Abbreviation VM := (StateM T VolumeError).

(** The clock, whether an object store is configured, and the healthy workers the
    registry lists, when there is one. *)
Record VolumeEnv := mkVolumeEnv {
  ve_now : Z;
  ve_objStore : bool;
  ve_healthy : option (list string)
}.
Context (env : VolumeEnv).
#[local] Abbreviation now := (ve_now env).

Definition vread {A} (f : T -> result StoreError A) : VM A := fun t =>
  match f t with Ok a => (t, Ret a) | Err e => (t, Fail (EVStore e)) end.
Definition vwrite (f : T -> result StoreError T) : VM unit := fun t =>
  match f t with Ok t' => (t', Ret tt) | Err e => (t, Fail (EVStore e)) end.

(** [Get], with the error of the callers. *)
Definition getVolume (name : string) : VM VolumeRecord := fun t =>
  match volGet name t with Ok v => (t, Ret v) | Err _ => (t, Fail (EVNotFound name)) end.

Definition newBlock (name : string) (maxSize mounts : Z) : VolumeRecord :=
  mkVolumeRecord name VolumeTypeBlock VolumeStatusDegraded "volume" 0 maxSize "" [] 2 mounts
  "" "" "" "" now now.

(** The name of a new volume. *)
Definition checkName (name : string) : VM unit := fun t =>
  if String.eqb name "" then (t, Fail EVNameRequired)
  else match volGet name t with Ok _ => (t, Fail (EVExists name)) | Err _ => (t, Ret tt) end.

Definition CreateBlock (name : string) (maxSize : Z) : VM VolumeRecord :=
  _ ← checkName name;
  let v := newBlock name maxSize 0 in
  _ ← vwrite (volCreate v);
  mret v.

(** Every case is S3. *)
Definition inferProvider (bucket region : string) : string := "s3".

Definition CreateObject (name bucket prefix region creds : string) (maxSize : Z) : VM VolumeRecord :=
  _ ← checkName name;
  if negb (String.eqb bucket "") then
  let v := mkVolumeRecord name VolumeTypeObject VolumeStatusHealthy (inferProvider bucket region) 0
             maxSize "" [] 0 0 bucket prefix region creds now now in
  _ ← vwrite (volCreate v); mret v
  else if ve_objStore env then
  let v := mkVolumeRecord name VolumeTypeObject VolumeStatusHealthy "volume" 0 maxSize "" [] 0 0
             "volumes" (name +:+ "/") "" "" now now in
  _ ← vwrite (volCreate v); mret v
  else CreateBlock name maxSize.

(** With the prefix whose objects are deleted from the object store, if any. *)
Definition Delete (name : string) : VM (option (string * string)) :=
  v ← getVolume name;
  if (0 <? vr_MountCount v)%Z then fail (EVMounted name (vr_MountCount v))
  else
  let cleanup :=
    if String.eqb (vr_Type v) VolumeTypeObject && negb (IsDirectObject v) && ve_objStore env
    then Some (vr_Bucket v, vr_Prefix v) else None in
  _ ← vwrite (volDelete name);
  mret cleanup.

Definition IncrementMountCount (name : string) : VM unit := fun t =>
  match volGet name t with
  | Err _ => vwrite (volCreate (newBlock name 0 1)) t
  | Ok _ => vwrite (volIncrementMountCount now name) t
  end.

Definition DecrementMountCount (name : string) : VM unit :=
  _ ← getVolume name;
  vwrite (volDecrementMountCount now name).

Definition AssignPrimary (name workerID : string) : VM unit :=
  v ← getVolume name;
  if negb (IsLokaManaged v) then mret tt
  else
  let st := match vr_ReplicaWorkerIDs v with
            | [] => VolumeStatusDegraded | _ => VolumeStatusHealthy end in
  vwrite (volUpdate (vr_with workerID (vr_ReplicaWorkerIDs v) st now v)).

(** The first healthy worker that does not hold the volume. *)
Definition pickReplica (healthy : list string) (v : VolumeRecord) : option string :=
  List.find (fun id => negb (bool_decide (placed_on id v))) healthy.

Definition AssignReplica (name : string) : VM unit :=
  v ← getVolume name;
  if negb (IsLokaManaged v) then mret tt
  else match ve_healthy env with
  | None => fail EVNoRegistry
  | Some healthy =>
      match pickReplica healthy v with
      | None => vwrite (volUpdateStatus now name VolumeStatusDegraded)
      | Some id =>
          vwrite (volUpdate (vr_with (vr_PrimaryWorkerID v) (vr_ReplicaWorkerIDs v ++ [id])
              VolumeStatusSyncing now v))
      end
  end.

(** One volume of the dead worker. *)
Definition failover (dead : string) (v : VolumeRecord) : VM unit :=
  let name := vr_Name v in
  if negb (IsLokaManaged v) then mret tt
  else if bool_decide (vr_PrimaryWorkerID v = dead) then
  match vr_ReplicaWorkerIDs v with
  | newPrimary :: remaining =>
      r ← attempt (vwrite (volUpdatePlacement now name newPrimary remaining));
      match r with
      | Err _ => mret tt
      | Ok _ =>
          _ ← ignore (vwrite (volUpdateStatus now name VolumeStatusDegraded));
          ignore (AssignReplica name)
      end
  | [] =>
      _ ← ignore (vwrite (volUpdatePlacement now name "" []));
      ignore (vwrite (volUpdateStatus now name VolumeStatusError))
  end
  else
  let remaining := filter (fun id => id <> dead) (vr_ReplicaWorkerIDs v) in
  _ ← ignore (vwrite (volUpdatePlacement now name (vr_PrimaryWorkerID v) remaining));
  _ ← ignore (vwrite (volUpdateStatus now name VolumeStatusDegraded));
  ignore (AssignReplica name).

Definition HandleWorkerDeath (dead : string) : VM unit :=
  vols ← gets (volListByWorker dead);
  for_each (failover dead) vols.

Definition ReconcileDegradedVolumes : VM unit :=
  vols ← gets volList;
  for_each (fun v =>
  if bool_decide (vr_Status v = VolumeStatusDegraded) && IsLokaManaged v
     && negb (String.eqb (vr_PrimaryWorkerID v) "")
     && (Z.of_nat (length (vr_ReplicaWorkerIDs v)) <? vr_DesiredReplicas v - 1)%Z
  then ignore (AssignReplica (vr_Name v)) else mret tt) vols.

Definition UpdateSizeReport (name : string) (sizeBytes : Z) : VM unit :=
  v ← vread (volGet name);
  vwrite (volUpdate (vr_with_counts sizeBytes (vr_MountCount v) (vr_DesiredReplicas v)
                     (vr_CreatedAt v) now v)).
End manager.

(** ** Failover *)

(** A sound placement: no worker holds two copies. *)
Definition well_placed (v : VolumeRecord) : Prop :=
  NoDup (vr_PrimaryWorkerID v :: vr_ReplicaWorkerIDs v).

#[global] Instance well_placed_dec v : Decision (well_placed v).
Proof. unfold well_placed. apply _. Defined.

(** The copies the failover keeps, the primary first: the replicas of a primary that died,
    or the primary and the other replicas.  In a sound placement these are the copies that
    survive ([survivors_sound]). *)
Definition survivors (dead : string) (v : VolumeRecord) : list string :=
  if bool_decide (vr_PrimaryWorkerID v = dead) then vr_ReplicaWorkerIDs v
  else vr_PrimaryWorkerID v :: filter (fun id => id <> dead) (vr_ReplicaWorkerIDs v).

Lemma survivors_sound dead v :
  well_placed v -> survivors dead v = filter (fun id => id <> dead) (vr_PrimaryWorkerID v :: vr_ReplicaWorkerIDs v).
Proof.
  intros [Hnot Hnd]%NoDup_cons. unfold survivors. case_bool_decide as Hp.
  - rewrite filter_cons_False by (intros Hc; by apply Hc). symmetry. apply filter_all. intros id Hid ->. by rewrite Hp in Hnot.
  - by rewrite filter_cons_True.
Qed.

(** Everything but the placement and the time of the change. *)
Definition identity (v : VolumeRecord) : VolumeRecord := vr_with "" [] VolumeStatusError 0 v.

(** What the death of worker [dead] leaves of the volume [v]: its first kept copy is the
    primary, and one healthy worker without a copy joins if there is
    one; without survivors the volume is in error. *)
Definition repaired (dead : string) (healthy : list string) (v v' : VolumeRecord) : Prop :=
  identity v' = identity v /\
  match survivors dead v with
  | [] => vr_PrimaryWorkerID v' = "" /\ vr_ReplicaWorkerIDs v' = [] /\ vr_Status v' = VolumeStatusError
  | p :: rest =>
      vr_PrimaryWorkerID v' = p /\
      ((exists id, id ∈ healthy /\ id ∉ p :: rest /\ vr_ReplicaWorkerIDs v' = rest ++ [id] /\
          vr_Status v' = VolumeStatusSyncing) \/
        (Forall (fun id => id ∈ p :: rest) healthy /\ vr_ReplicaWorkerIDs v' = rest /\
          vr_Status v' = VolumeStatusDegraded))
  end.

Section laws.
#[local] Set Default Proof Using "Type*".
Context {T : Type} `{!SqlTable VolumeRecord T, !SqlTableLaws VolumeRecord T}.
Context (env : VolumeEnv) (healthy : list string) (Hhealthy : ve_healthy env = Some healthy).
Implicit Types (t : T) (v : VolumeRecord).
#[local] Abbreviation rows := (sql_rows (A := VolumeRecord) (T := T)).

Lemma row_name t name v : rows t !! name = Some v -> vr_Name v = name.
Proof. exact (sql_rows_id t name v). Qed.

Lemma getVolume_spec t name v :
  rows t !! name = Some v -> getVolume name t = (t, Ret v).
Proof. intros Hv. unfold getVolume, volGet. pose proof (sqliteGet_rows name t) as Hg. unfold sqliteGet in Hg. simpl in Hg. by rewrite Hg, Hv. Qed.

Lemma volSet_spec t name f v :
  rows t !! name = Some v -> vr_Name (f v) = vr_Name v ->
  exists t', vwrite (volSet name f) t = (t', Ret tt) /\ rows t' = <[name := f v]> (rows t).
Proof.
  intros Hv Hf. destruct (sql_update_spec name f t) as (t' & Hu & Hr).
  { intros a Ha. simplify_eq. by split. }
  rewrite Hv in Hr. exists t'. unfold vwrite, volSet. by rewrite Hu.
Qed.

Lemma pickReplica_spec v :
  match pickReplica healthy v with
  | Some id => id ∈ healthy /\ ~ placed_on id v
  | None => Forall (fun id => placed_on id v) healthy
  end.
Proof.
  unfold pickReplica. destruct (List.find _ healthy) as [id|] eqn:Hf.
  - apply find_some in Hf as [Hin Hnot]. apply list_elem_of_In in Hin. by bool_props.
  - apply Forall_forall. intros id Hid. apply list_elem_of_In in Hid.
  pose proof (find_none _ _ Hf _ Hid) as Hn. cbv beta in Hn. by bool_props.
Qed.

(** The last step of a repair: the volume gets its primary and the surviving
    replicas, is degraded, and looks for a new replica. *)
Lemma AssignReplica_repairs dead v v1 t p rest :
  rows t !! vr_Name v = Some v1 -> IsLokaManaged v1 = true -> identity v1 = identity v ->
  survivors dead v = p :: rest -> vr_PrimaryWorkerID v1 = p -> vr_ReplicaWorkerIDs v1 = rest ->
  exists t' v', ignore (AssignReplica env (vr_Name v)) t = (t', Ret tt) /\
  rows t' = <[vr_Name v := v']> (rows t) /\ repaired dead healthy v v'.
Proof.
  intros Hrow Hm Hid Hs Hp Hr. unfold AssignReplica.
  pose proof (row_name _ _ _ Hrow) as Hname.
  pose proof (pickReplica_spec v1) as Hpick. unfold placed_on in Hpick.
  rewrite Hp, Hr in Hpick.
  destruct (pickReplica healthy v1) as [id|] eqn:Hpr.
  - edestruct (volSet_spec t (vr_Name v)) as (t' & Hset & Hrows); [exact Hrow| |].
  2: { exists t'. eexists. split; [|split; [exact Hrows|]].
  - eapply ignore_Ret. erewrite bind_Ret by (by apply getVolume_spec). rewrite Hm, Hhealthy, Hpr.
  unfold volUpdate. cbn [negb]. change (vr_Name (vr_with _ _ _ _ v1)) with (vr_Name v1). rewrite Hname.
  exact Hset.
  - split; [unfold identity, vr_with in *; simpl; by injection Hid|]. rewrite Hs. simpl.
  split; [done|]. left. exists id. destruct Hpick as [Hin Hnot]. rewrite Hr. split_and!; [done| |done..].
  rewrite elem_of_cons. naive_solver. }
  done.
  - edestruct (volSet_spec t (vr_Name v)) as (t' & Hset & Hrows); [exact Hrow| |].
  2: { exists t'. eexists. split; [|split; [exact Hrows|]].
  - eapply ignore_Ret. erewrite bind_Ret by (by apply getVolume_spec). rewrite Hm, Hhealthy, Hpr.
  cbn [negb]. exact Hset.
  - split; [unfold identity, vr_with in *; simpl; by injection Hid|]. rewrite Hs. simpl.
  split; [done|]. right. split_and!; [|done..].
  eapply Forall_impl; [exact Hpick|]. intros id. rewrite elem_of_cons. naive_solver. }
  done.
Qed.

(** Writing the surviving placement and the degraded status, before looking for a
    new replica. *)
Lemma place_then_repair dead v t p rest :
  rows t !! vr_Name v = Some v -> IsLokaManaged v = true -> survivors dead v = p :: rest ->
  exists t', (_ ← ignore (vwrite (volUpdatePlacement (ve_now env) (vr_Name v) p rest));
    _ ← ignore (vwrite (volUpdateStatus (ve_now env) (vr_Name v) VolumeStatusDegraded));
    ignore (AssignReplica env (vr_Name v))) t = (t', Ret tt) /\
  exists v', rows t' = <[vr_Name v := v']> (rows t) /\ repaired dead healthy v v'.
Proof.
  intros Hrow Hm Hs.
  destruct (volSet_spec t (vr_Name v) (fun old => vr_with p rest (vr_Status old) (stored (ve_now env)) old) v)
    as (t1 & H1 & Hr1); [done..|].
  rewrite (bind_Ret _ _ _ _ _ (ignore_Ret _ _ _ _ H1)).
  set (v1 := vr_with p rest (vr_Status v) (stored (ve_now env)) v) in *.
  destruct (volSet_spec t1 (vr_Name v) (fun old => vr_with (vr_PrimaryWorkerID old) (vr_ReplicaWorkerIDs old)
    VolumeStatusDegraded (stored (ve_now env)) old) v1) as (t2 & H2 & Hr2).
  { rewrite Hr1. apply lookup_insert_eq. } { done. }
  rewrite (bind_Ret _ _ _ _ _ (ignore_Ret _ _ _ _ H2)).
  destruct (AssignReplica_repairs dead v (vr_with (vr_PrimaryWorkerID v1) (vr_ReplicaWorkerIDs v1)
    VolumeStatusDegraded (stored (ve_now env)) v1) t2 p rest) as (t3 & v3 & H3 & Hr3 & Hrep).
  { rewrite Hr2. apply lookup_insert_eq. } { exact Hm. } { done. } { done. } { done. } { done. }
  exists t3. split; [exact H3|]. exists v3. split; [|done].
  by rewrite Hr3, Hr2, Hr1, !insert_insert_eq.
Qed.

Lemma failover_spec dead v t :
  rows t !! vr_Name v = Some v -> placed_on dead v ->
  exists t' v', failover env dead v t = (t', Ret tt) /\ rows t' = <[vr_Name v := v']> (rows t) /\
  if IsLokaManaged v then repaired dead healthy v v' else v' = v.
Proof.
  intros Hrow Hon. unfold failover. destruct (IsLokaManaged v) eqn:Hm; cbn [negb].
  2: { exists t, v. by rewrite insert_id. }
  case_bool_decide as Hp.
  - assert (survivors dead v = vr_ReplicaWorkerIDs v) as Hs by (unfold survivors; by rewrite bool_decide_eq_true_2).
  destruct (vr_ReplicaWorkerIDs v) as [|p rest] eqn:Hreps.
  + destruct (volSet_spec t (vr_Name v) (fun old => vr_with "" [] (vr_Status old) (stored (ve_now env)) old) v)
    as (t1 & H1 & Hr1); [done..|].
  rewrite (bind_Ret _ _ _ _ _ (ignore_Ret _ _ _ _ H1)).
  set (v1 := vr_with "" [] (vr_Status v) (stored (ve_now env)) v) in *.
  destruct (volSet_spec t1 (vr_Name v) (fun old => vr_with (vr_PrimaryWorkerID old) (vr_ReplicaWorkerIDs old)
    VolumeStatusError (stored (ve_now env)) old) v1) as (t2 & H2 & Hr2).
  { rewrite Hr1. apply lookup_insert_eq. } { done. }
  exists t2. eexists. split; [exact (ignore_Ret _ _ _ _ H2)|].
  split; [by rewrite Hr2, Hr1, insert_insert_eq|]. split; [done|]. by rewrite Hs.
  + destruct (place_then_repair dead v t p rest Hrow Hm Hs) as (t' & Hrun & v' & Hr & Hrep).
  exists t', v'. split_and!; [|done..]. rewrite <-Hrun.
  destruct (volSet_spec t (vr_Name v) (fun old => vr_with p rest (vr_Status old) (stored (ve_now env)) old) v)
    as (t1 & H1 & Hr1); [done..|].
  rewrite (bind_Ret _ _ _ _ _ (attempt_Ret _ _ _ _ H1)).
  by rewrite (bind_Ret _ _ _ _ _ (ignore_Ret _ _ _ _ H1)).
  - assert (survivors dead v = vr_PrimaryWorkerID v :: filter (fun id => id <> dead) (vr_ReplicaWorkerIDs v)) as Hs.
  { unfold survivors. by rewrite bool_decide_eq_false_2. }
  destruct (place_then_repair dead v t _ _ Hrow Hm Hs) as (t' & Hrun & v' & Hr & Hrep). by exists t', v'.
Qed.

Lemma repaired_sound dead v v' :
  well_placed v -> dead ∉ healthy -> dead <> "" -> repaired dead healthy v v' ->
  ~ placed_on dead v' /\ well_placed v'.
Proof.
  intros Hwp Hnot Hne [_ Hrep]. rewrite (survivors_sound _ _ Hwp) in Hrep.
  revert Hrep. set (surv := filter (fun id => id <> dead) _). intros Hrep.
  assert (dead ∉ surv) as Hd by (unfold surv; rewrite list_elem_of_filter; naive_solver).
  assert (NoDup surv) as Hnd by (by apply NoDup_filter).
  unfold placed_on, well_placed. destruct surv as [|p rest].
  - destruct Hrep as (-> & -> & _). split; [|repeat constructor; by intros []%not_elem_of_nil].
  intros [Heq|[]%not_elem_of_nil]. by symmetry in Heq.
  - destruct Hrep as (-> & [(id & Hin & Hfresh & -> & _)|(_ & -> & _)]).
  + rewrite elem_of_cons in Hd. rewrite elem_of_app, list_elem_of_singleton. split; [naive_solver|].
  rewrite app_comm_cons. apply NoDup_app. split_and!; [done| |apply NoDup_singleton].
  intros x Hx ->%list_elem_of_singleton. done.
  + rewrite elem_of_cons in Hd. split; [naive_solver|done].
Qed.

(** C17 When a worker dies, every volume Loka manages that had a copy on it is
    repaired, whatever its placement: a primary that died is replaced by the first
    replica, the rest of the replicas stay, and one healthy worker that has no copy
    joins as a replica if there is one; without replicas the volume ends in error. A
    primary that lives stays, and the dead worker leaves the replicas. Other volumes
    are untouched. If no worker held two copies of the volume, none does afterwards,
    and no copy is on the dead worker; [AssignPrimary] can break that condition, and a
    dead worker is then promoted ([replica_made_primary]). *)
Theorem HandleWorkerDeath_correct dead t :
  dead ∉ healthy -> dead <> "" ->
  exists t', HandleWorkerDeath env dead t = (t', Ret tt) /\
  forall name, match rows t !! name with
  | None => rows t' !! name = None
  | Some v =>
    if bool_decide (placed_on dead v) && IsLokaManaged v
    then exists v', rows t' !! name = Some v' /\ repaired dead healthy v v' /\
         (well_placed v -> ~ placed_on dead v' /\ well_placed v')
    else rows t' !! name = Some v
  end.
Proof.
  intros Hnot Hne. unfold HandleWorkerDeath. erewrite bind_Ret by done.
  set (l := volListByWorker dead t).
  assert (l ≡ₚ filter (placed_on dead) (sql_select t)) as Hperm by apply merge_sort_Permutation.
  assert (forall v, v ∈ l <-> placed_on dead v /\ rows t !! vr_Name v = Some v) as Hin.
  { intros v. rewrite Hperm, list_elem_of_filter. by rewrite (sql_select_in t v). }
  destruct (for_each_rows (failover env dead) vr_Name rows
    (fun v v' => if IsLokaManaged v then repaired dead healthy v v' else v' = v) l t)
    as (t' & Hrun & Hframe & Hl).
  { rewrite Hperm. apply NoDup_fmap_filter. exact (sql_select_NoDup t). }
  { intros v Hv. by apply Hin. }
  { intros v s Hv Hrow. apply Hin in Hv as [Hon Ht]. by apply failover_spec. }
  exists t'. split; [done|]. intros name. destruct (rows t !! name) as [v|] eqn:Hv.
  - pose proof (row_name _ _ _ Hv) as Hname. case_bool_decide as Hon; cbn [andb].
  + destruct (Hl v) as (v' & Hv' & HR); [by apply Hin; rewrite Hname|]. rewrite Hname in Hv'.
  destruct (IsLokaManaged v); [|by subst].
  exists v'. split_and!; [done..|]. intros Hwp. by eapply repaired_sound.
  + rewrite Hframe; [done|]. intros (w & Hw & [Hon' Hrow]%Hin)%list_elem_of_fmap.
  rewrite Hw in Hv. rewrite Hv in Hrow. by injection Hrow as ->.
  - rewrite Hframe; [done|]. intros (w & Hw & [_ Hrow]%Hin)%list_elem_of_fmap. congruence.
Qed.
End laws.

(** ** Examples *)

Definition volume_of (name primary : string) (replicas : list string) (st : VolumeStatus)
    : VolumeRecord :=
  mkVolumeRecord name VolumeTypeBlock st "volume" 0 0 primary replicas 2 0 "" "" "" "" 0 0.
Definition two_volumes : gmap string VolumeRecord :=
  <["data" := volume_of "data" "a" ["b"] VolumeStatusHealthy]>
    (<["solo" := volume_of "solo" "a" [] VolumeStatusDegraded]> ∅).
Definition volume_env : VolumeEnv := mkVolumeEnv 0 true (Some ["b"; "c"]).

(** Primary, replicas and status of a volume. *)
Definition placement (name : string) (t : gmap string VolumeRecord)
    : option (string * list string * VolumeStatus) :=
  (fun v => (vr_PrimaryWorkerID v, vr_ReplicaWorkerIDs v, vr_Status v)) <$> t !! name.

Lemma HandleWorkerDeath_correct_witness :
  let t' := (HandleWorkerDeath volume_env "a" two_volumes).1 in
  placement "data" t' = Some ("b", ["c"], VolumeStatusSyncing) /\
  placement "solo" t' = Some ("", [], VolumeStatusError) /\
  (HandleWorkerDeath volume_env "a" two_volumes).2 = Ret tt.
Proof.
  cbv zeta. split; [vm_compute; reflexivity|]. split; [vm_compute; reflexivity|].
  assert ("a" ∉ ["b"; "c"]) as Hn by (apply (bool_decide_unpack _); vm_compute; exact I).
  destruct (HandleWorkerDeath_correct volume_env ["b"; "c"] eq_refl "a" two_volumes Hn) as (t' & Hrun & _).
  - discriminate.
  - rewrite Hrun. reflexivity.
Defined.

(** A volume is assigned to the worker that holds its replica, as a redeployment there
    does. The worker is primary and replica at once, the volume counts as healthy with
    one copy, and when the worker dies it is promoted again. *)
Lemma replica_made_primary :
  let t1 := (AssignPrimary volume_env "data" "b" two_volumes).1 in
  let t2 := (HandleWorkerDeath (mkVolumeEnv 0 true (Some ["c"])) "b" t1).1 in
  placement "data" t1 = Some ("b", ["b"], VolumeStatusHealthy) /\
  placement "data" t2 = Some ("b", ["c"], VolumeStatusSyncing).
Proof. by vm_compute. Qed.

(** Every deployment adds a replica, however many are desired. *)
Lemma replicas_accumulate :
  let t1 := (AssignReplica volume_env "data" two_volumes).1 in
  let t2 := (AssignReplica (mkVolumeEnv 0 true (Some ["b"; "c"; "d"])) "data" t1).1 in
  placement "data" t2 = Some ("a", ["b"; "c"; "d"], VolumeStatusSyncing).
Proof. by vm_compute. Qed.

(** Deleting an object volume that Loka manages leaves its objects: it has the bucket
    "volumes", so it counts as the user's own. *)
Lemma managed_objects_not_deleted :
  let t1 := (CreateObject volume_env "obj" "" "" "" "" 0 (∅ : gmap string VolumeRecord)).1 in
  match (Delete volume_env "obj" t1).2 with Ret cleanup => cleanup = None | _ => False end.
Proof. by vm_compute. Qed.
