(* ===== verification/VolumeSync.v ===== *)
(** * Volume synchronisation and replication between workers

    [src/internal/worker/volsync/agent.go] (watching a volume's directory,
    uploading changes to the object store and to peers, downloading them on
    another worker) and [src/internal/worker/volrepl] ([replicator.go],
    [client.go], [http.go]: a primary that pushes to replicas, replicas that
    pull from their primary).

    A world is the object store and the workers.  A volume's directory is a
    map from relative paths, as [filepath.Walk] gives them, to files and
    directories; parents are made by need.  One step of a world is one
    handler, run without interleaving with others; what interleaves are the
    steps.  The environment, which may change between any two steps, says of
    each key whether the store answers for it, of each path whether the watcher
    learns of a change to it ([fsnotify] watches directories one by one, the
    loop adds a new one when it learns of it, and events are dropped under
    load), and of each address whether it is reached. *)

From stdpp Require Import options.
From Stdlib Require Import Ascii.
From S2P Require Import Prelude GoStrings GoPath.
Open Scope nat_scope.

(** ** Data *)

Record FileEntry := mkFileEntry { fe_Size : Z; fe_SHA256 : string; fe_MTime : Z }.
(** The version of a manifest is always 1. *)
Notation Manifest := (gmap string FileEntry).

(** What the bucket holds: files, and manifests as what their JSON decodes to. *)
Inductive Obj := OFile (data : string) | OManifest (m : Manifest).

Inductive Entry := EFile (mtime : Z) (data : string) | EDir.
#[export] Instance Entry_eq_dec : EqDecision Entry.
Proof. solve_decision. Defined.
Notation Tree := (gmap string Entry).

(** [volumeWatch]: its manifest, and the paths of events that wait for the timer. *)
Record volumeWatch := mkWatch { w_manifest : Manifest; w_pending : list string }.

Inductive Role := Primary | Replica.
Record replVolume := mkReplVolume { rv_role : Role; rv_peerAddrs : list string }.

(** The [Agent] and [Replicator] of a worker, and the volumes on its disk. *)
Record SyncWorker := mkWorker {
  k_hasStore : bool;
  k_vols : gmap string Tree;
  k_watches : gmap string volumeWatch;
  k_targets : gmap string (list string);
  k_repl : gmap string replVolume
}.

(** Workers by address; [wd_up]: the keys the store answers for; [wd_seen]: the
    paths whose changes the watchers learn of; [wd_net]: the addresses that can
    be reached. *)
Record SyncWorld := mkWorld {
  wd_store : gmap string Obj;
  wd_up : string -> bool;
  wd_seen : string -> bool;
  wd_net : list string;
  wd_now : Z;
  wd_workers : gmap string SyncWorker
}.

Definition objKey (vol rel : string) : string := vol +:+ "/" +:+ rel.
Definition manifestKey : string := ".lokavol/manifest.json".
Definition metadata (rel : string) : bool := HasPrefix rel ".lokavol".

(** ** Access *)

Definition set_store (f : gmap string Obj -> gmap string Obj) (w : SyncWorld) : SyncWorld :=
  let '(mkWorld s up seen net now ws) := w in mkWorld (f s) up seen net now ws.
Definition set_worker (a : string) (f : SyncWorker -> SyncWorker) (w : SyncWorld) : SyncWorld :=
  let '(mkWorld s up seen net now ws) := w in mkWorld s up seen net now (alter f a ws).
Definition on_vols (f : gmap string Tree -> gmap string Tree) (k : SyncWorker) : SyncWorker :=
  let '(mkWorker h vs wa ta re) := k in mkWorker h (f vs) wa ta re.
Definition on_watches (f : gmap string volumeWatch -> gmap string volumeWatch) (k : SyncWorker) : SyncWorker :=
  let '(mkWorker h vs wa ta re) := k in mkWorker h vs (f wa) ta re.
Definition on_targets (f : gmap string (list string) -> gmap string (list string)) (k : SyncWorker) : SyncWorker :=
  let '(mkWorker h vs wa ta re) := k in mkWorker h vs wa (f ta) re.
Definition on_repl (f : gmap string replVolume -> gmap string replVolume) (k : SyncWorker) : SyncWorker :=
  let '(mkWorker h vs wa ta re) := k in mkWorker h vs wa ta (f re).

Definition volume (w : SyncWorld) (a vol : string) : option Tree := wd_workers w !! a ≫= fun k => k_vols k !! vol.
Definition entry (w : SyncWorld) (a vol rel : string) : option Entry := volume w a vol ≫= lookup rel.
Definition watch (w : SyncWorld) (a vol : string) : option volumeWatch :=
  wd_workers w !! a ≫= fun k => k_watches k !! vol.
Definition hasStore (w : SyncWorld) (a : string) : bool :=
  match wd_workers w !! a with Some k => k_hasStore k | None => false end.
Definition targets (w : SyncWorld) (a vol : string) : list string :=
  default [] (wd_workers w !! a ≫= fun k => k_targets k !! vol).

Definition set_tree (a vol : string) (f : Tree -> Tree) : SyncWorld -> SyncWorld :=
  set_worker a (on_vols (alter f vol)).
(** [os.MkdirAll] of the volume's directory. *)
Definition ensure_volume (a vol : string) : SyncWorld -> SyncWorld :=
  set_worker a (on_vols (partial_alter (fun t => Some (default ∅ t)) vol)).
Definition set_manifest (a vol : string) (f : Manifest -> Manifest) : SyncWorld -> SyncWorld :=
  set_worker a (on_watches (alter (fun wt => mkWatch (f (w_manifest wt)) (w_pending wt)) vol)).
Definition set_waiting (a vol : string) (f : list string -> list string) : SyncWorld -> SyncWorld :=
  set_worker a (on_watches (alter (fun wt => mkWatch (w_manifest wt) (f (w_pending wt))) vol)).

(** An event of the file system, if it reaches [watchLoop] (if there is one). *)
Definition event (a vol rel : string) (w : SyncWorld) : SyncWorld :=
  if metadata rel || negb (wd_seen w rel) then w else set_waiting a vol (fun p => p ++ [rel]) w.

Section Sync.
Context (hash : string -> string).

Definition file_entry (mtime : Z) (data : string) : FileEntry :=
  mkFileEntry (Z.of_nat (String.length data)) (hash data) (rfc3339 mtime).

(** The files a walk of the directory reports, metadata left out. *)
Definition files (t : Tree) : list (string * (Z * string)) :=
  omap (M := list) (fun '(rel, e) => match e with
                       | EFile m d => if metadata rel then None else Some (rel, (m, d))
                       | EDir => None
                       end) (map_to_list t).

(** [buildLocalManifest] *)
Definition buildLocalManifest (t : Tree) : Manifest :=
  foldl (fun m '(rel, (mt, d)) => <[rel := file_entry mt d]> m) ∅ (files t).

(** [os.Create] and [os.Rename] of a complete file through its temporary name,
    on the worker's disk: [downloadFile], [DownloadFile] and [putFile]. *)
Definition tmpPath (rel : string) : string := rel +:+ ".tmp".
Definition is_EDir (e : option Entry) : bool := match e with Some EDir => true | _ => false end.
(** A rename onto a directory fails; only [putFile] then removes what it wrote. *)
Definition atomicWrite (cleans : bool) (a vol rel data : string) (w : SyncWorld) : SyncWorld :=
  if is_EDir (entry w a vol (tmpPath rel)) then w
  else if is_EDir (entry w a vol rel)
  then event a vol (tmpPath rel)
         (set_tree a vol (if cleans then delete (tmpPath rel) else <[tmpPath rel := EFile (wd_now w) data]>) w)
  else event a vol rel (event a vol (tmpPath rel)
         (set_tree a vol (fun t => <[rel := EFile (wd_now w) data]> (delete (tmpPath rel) t)) w)).

(** ** The peers' handlers ([http.go]) *)

Definition checkedPath (rel : string) : option string :=
  if bool_decide (rel = "") then None
  else let clean := Clean rel in if Contains clean ".." then None else Some clean.

(** [putFile], [deleteFile] *)
Definition putFile (addr vol rel data : string) (w : SyncWorld) : SyncWorld :=
  match checkedPath rel with
  | Some clean => atomicWrite true addr vol clean data (ensure_volume addr vol w)
  | None => w
  end.
(** [os.Remove]: a file or an empty directory. *)
Definition childless (t : Tree) (rel : string) : bool :=
  bool_decide (map_Forall (fun k _ => HasPrefix k (rel +:+ "/") = false) t).
Definition removeFile (a vol rel : string) (w : SyncWorld) : SyncWorld :=
  match volume w a vol with
  | Some t =>
      match t !! rel with
      | None => w
      | Some EDir => if childless t rel then event a vol rel (set_tree a vol (delete rel) w) else w
      | Some (EFile _ _) => event a vol rel (set_tree a vol (delete rel) w)
      end
  | None => w
  end.
Definition deleteFile (addr vol rel : string) (w : SyncWorld) : SyncWorld :=
  match checkedPath rel with
  | Some clean => removeFile addr vol clean w
  | None => w
  end.
(** [getManifest] and [getFile] *)
Definition getManifest (addr vol : string) (w : SyncWorld) : option Manifest :=
  buildLocalManifest <$> volume w addr vol.
Definition getFile (addr vol rel : string) (w : SyncWorld) : option string :=
  clean ← checkedPath rel;
  match entry w addr vol clean with Some (EFile _ d) => Some d | _ => None end.

Definition peerReachable (w : SyncWorld) (addr : string) : bool :=
  bool_decide (addr ∈ wd_net w) && bool_decide (is_Some (wd_workers w !! addr)).

(** ** Uploading and deleting ([volsync]) *)

Definition storeFails (w : SyncWorld) (a key : string) : bool := hasStore w a && negb (wd_up w key).

Definition push (vol rel data : string) (w : SyncWorld) (addr : string) : SyncWorld :=
  if peerReachable w addr then putFile addr vol rel data w else w.

(** [uploadFile]; the flag tells that it returned no error. *)
Definition uploadFile (a vol rel : string) (w : SyncWorld) : SyncWorld * bool :=
  match entry w a vol rel with
  | None => (w, false)
  | Some EDir => (w, true)
  | Some (EFile mt d) =>
      if storeFails w a (objKey vol rel) then (w, false)
      else
        let w := if hasStore w a then set_store (<[objKey vol rel := OFile d]>) w else w in
        let w := foldl (push vol rel d) w (targets w a vol) in
        (set_manifest a vol (<[rel := file_entry mt d]>) w, true)
  end.

(** [deleteRemoteFile] *)
Definition unpush (vol rel : string) (w : SyncWorld) (addr : string) : SyncWorld :=
  if peerReachable w addr then deleteFile addr vol rel w else w.
Definition deleteRemoteFile (a vol rel : string) (w : SyncWorld) : SyncWorld :=
  let w := if hasStore w a && wd_up w (objKey vol rel) then set_store (delete (objKey vol rel)) w else w in
  foldl (unpush vol rel) w (targets w a vol).

(** [saveManifest]; the peers build theirs from their files. *)
Definition saveManifest (a vol : string) (w : SyncWorld) : SyncWorld :=
  match watch w a vol with
  | Some wt =>
      if hasStore w a && wd_up w (objKey vol manifestKey)
      then set_store (<[objKey vol manifestKey := OManifest (w_manifest wt)]>) w else w
  | None => w
  end.

(** [fetchRemoteManifest]; [loadManifest] decodes into the watch's map. *)
Definition fetchRemoteManifest (vol : string) (w : SyncWorld) : option Manifest :=
  if wd_up w (objKey vol manifestKey)
  then match wd_store w !! objKey vol manifestKey with Some (OManifest m) => Some m | _ => None end
  else None.
Definition loadManifest (a vol : string) (w : SyncWorld) : SyncWorld :=
  if hasStore w a
  then match fetchRemoteManifest vol w with
       | Some m => set_manifest a vol (fun old => m ∪ old) w
       | None => w
       end
  else w.

(** ** The watch loop *)

(** One pending path when the timer fires. *)
Definition syncPath (a vol : string) (w : SyncWorld) (rel : string) : SyncWorld :=
  match entry w a vol rel with
  | None => set_manifest a vol (delete rel) (deleteRemoteFile a vol rel w)
  | Some _ => (uploadFile a vol rel w).1
  end.
Definition flush (a vol : string) (w : SyncWorld) : SyncWorld :=
  match watch w a vol with
  | Some wt =>
      match w_pending wt with
      | [] => w
      | queued_events =>
          let w := foldl (syncPath a vol) w (remove_dups queued_events) in
          saveManifest a vol (set_waiting a vol (fun _ => []) w)
      end
  | None => w
  end.

(** [reconcileVolume] *)
Definition unchanged (old : option FileEntry) (mt : Z) (d : string) : bool :=
  match old with
  | Some fe => bool_decide (fe_Size fe = Z.of_nat (String.length d) /\ fe_MTime fe = rfc3339 mt)
  | None => false
  end.
Definition reconcileFile (a vol : string) (w : SyncWorld) (f : string * (Z * string)) : SyncWorld :=
  let '(rel, (mt, d)) := f in
  if unchanged (watch w a vol ≫= fun wt => w_manifest wt !! rel) mt d then w
  else (uploadFile a vol rel w).1.
Definition reconcileVolume (a vol : string) (w : SyncWorld) : SyncWorld :=
  if hasStore w a then
    match watch w a vol, volume w a vol with
    | Some _, Some t =>
        let w := foldl (reconcileFile a vol) w (files t) in
        let current := (files t).*1 in
        match watch w a vol with
        | Some wt =>
            let gone := filter (fun rel => rel ∉ current) (map_to_list (w_manifest wt)).*1 in
            let w := foldl (fun w rel => set_manifest a vol (delete rel) (deleteRemoteFile a vol rel w)) w gone in
            if bool_decide (gone = []) then w else saveManifest a vol w
        | None => w
        end
    | _, _ => w
    end
  else w.

(** [WatchVolume], [UnwatchVolume] *)
Definition watchVolume (a vol : string) (w : SyncWorld) : SyncWorld :=
  match watch w a vol, volume w a vol with
  | None, Some _ => loadManifest a vol (set_worker a (on_watches (<[vol := mkWatch ∅ []]>)) w)
  | _, _ => w
  end.
Definition unwatchVolume (a vol : string) : SyncWorld -> SyncWorld := set_worker a (on_watches (delete vol)).

(** [SyncToRemote], [SyncFromRemote] *)
Definition syncToRemote (a vol : string) (w : SyncWorld) : SyncWorld :=
  match volume w a vol with
  | None => w
  | Some t => saveManifest a vol (foldl (fun w f => (uploadFile a vol f.1 w).1) w (files t))
  end.

Definition downloadFile (a vol : string) (w : SyncWorld) (rel : string) : SyncWorld :=
  if wd_up w (objKey vol rel)
  then match wd_store w !! objKey vol rel with
       | Some (OFile d) => atomicWrite false a vol rel d w
       | _ => w
       end
  else w.
Definition sameHash (local : Manifest) (rel : string) (fe : FileEntry) : bool :=
  match local !! rel with Some l => bool_decide (fe_SHA256 l = fe_SHA256 fe) | None => false end.
Definition syncFromRemote (a vol : string) (w : SyncWorld) : SyncWorld :=
  if hasStore w a then
    let w := ensure_volume a vol w in
    match fetchRemoteManifest vol w, volume w a vol with
    | Some remote, Some t =>
        let local := buildLocalManifest t in
        foldl (fun w '(rel, fe) => if sameHash local rel fe then w else downloadFile a vol w rel)
          w (map_to_list remote)
    | _, _ => w
    end
  else w.

(** ** The replicator *)

(** [ServePrimary], [ServeReplica], [StopVolume] *)
Definition servePrimary (a vol : string) (replicas : list string) (w : SyncWorld) : SyncWorld :=
  let w := set_worker a (on_targets (<[vol := replicas]>)) (ensure_volume a vol w) in
  set_worker a (on_repl (<[vol := mkReplVolume Primary replicas]>)) (watchVolume a vol w).
Definition serveReplica (a vol primary : string) (w : SyncWorld) : SyncWorld :=
  set_worker a (on_repl (<[vol := mkReplVolume Replica [primary]]>)) (ensure_volume a vol w).
Definition stopVolume (a vol : string) (w : SyncWorld) : SyncWorld :=
  match wd_workers w !! a ≫= fun k => k_repl k !! vol with
  | Some _ => set_worker a (on_repl (delete vol)) (unwatchVolume a vol (set_worker a (on_targets (delete vol)) w))
  | None => w
  end.

(** [pullFromPrimary] *)
Definition pullFile (a vol primary : string) (w : SyncWorld) (rel : string) : SyncWorld :=
  match getFile primary vol rel w with
  | Some d => atomicWrite false a vol rel d w
  | None => w
  end.
Definition pullFromPrimary (a vol primary : string) (w : SyncWorld) : SyncWorld :=
  if peerReachable w primary then
    match getManifest primary vol w, volume w a vol with
    | Some remote, Some t =>
        let local := buildLocalManifest t in
        let w := foldl (fun w '(rel, fe) => if sameHash local rel fe then w else pullFile a vol primary w rel)
                   w (map_to_list remote) in
        foldl (fun w rel => removeFile a vol rel w) w
          (filter (fun rel => remote !! rel = None) (map_to_list local).*1)
    | _, _ => w
    end
  else w.

(** ** What the guest does to a mounted volume *)

(** A directory is not opened for writing, and [mkdir] makes new names only. *)
Definition guestWrite (a vol rel data : string) (w : SyncWorld) : SyncWorld :=
  if is_EDir (entry w a vol rel) then w
  else event a vol rel (set_tree a vol (<[rel := EFile (wd_now w) data]>) w).
Definition guestMkdir (a vol rel : string) (w : SyncWorld) : SyncWorld :=
  match entry w a vol rel with
  | Some _ => w
  | None => event a vol rel (set_tree a vol (<[rel := EDir]>) w)
  end.
(** [unlink] and [rmdir]; a rename is a removal and a write. *)
Definition guestRemove (a vol rel : string) (w : SyncWorld) : SyncWorld := removeFile a vol rel w.

(** ** Steps *)

Inductive Call :=
  | GuestWrite (rel data : string) | GuestMkdir (rel : string) | GuestRemove (rel : string)
  | Flush | Reconcile | Watch | Unwatch | SyncTo | SyncFrom
  | ServePrimary (replicas : list string) | ServeReplica (primary : string) | StopVolume
  | Pull (primary : string).
#[export] Instance Call_eq_dec : EqDecision Call.
Proof. solve_decision. Defined.

Definition step (a vol : string) (c : Call) (w : SyncWorld) : SyncWorld :=
  match c with
  | GuestWrite rel d => guestWrite a vol rel d w
  | GuestMkdir rel => guestMkdir a vol rel w
  | GuestRemove rel => guestRemove a vol rel w
  | Flush => flush a vol w
  | Reconcile => reconcileVolume a vol w
  | Watch => watchVolume a vol w
  | Unwatch => unwatchVolume a vol w
  | SyncTo => syncToRemote a vol w
  | SyncFrom => syncFromRemote a vol w
  | ServePrimary replicas => servePrimary a vol replicas w
  | ServeReplica primary => serveReplica a vol primary w
  | StopVolume => stopVolume a vol w
  | Pull primary => pullFromPrimary a vol primary w
  end.
End Sync.

(** ** What a step leaves alone *)

Lemma workers_set_worker a f w b :
  wd_workers (set_worker a f w) !! b = if decide (a = b) then f <$> wd_workers w !! b else wd_workers w !! b.
Proof.
  destruct w. simpl. case_decide as Hab; [subst; by rewrite lookup_alter_eq|by rewrite lookup_alter_ne].
Qed.

(** The store and the switches of the environment. *)
Record same_env (w w' : SyncWorld) : Prop := {
  se_up : wd_up w' = wd_up w;
  se_seen : wd_seen w' = wd_seen w;
  se_net : wd_net w' = wd_net w;
  se_store : forall a, hasStore w' a = hasStore w a;
  se_here : forall a, is_Some (wd_workers w' !! a) <-> is_Some (wd_workers w !! a)
}.
(** SyncWorker [a]'s view of a volume: its directory, watch and targets. *)
Record same_local (a vol : string) (w w' : SyncWorld) : Prop := {
  sl_vol : volume w' a vol = volume w a vol;
  sl_watch : watch w' a vol = watch w a vol;
  sl_targets : targets w' a vol = targets w a vol
}.
Definition same_objs (vol : string) (w w' : SyncWorld) : Prop :=
  forall rel, wd_store w' !! objKey vol rel = wd_store w !! objKey vol rel.

#[global] Instance same_env_preorder : PreOrder same_env.
Proof.
  split; [by split|]. intros w1 w2 w3 [U V N S H] [U' V' N' S' H']. split; [congruence..| |].
  - intros a. by rewrite S', S.
  - intros a. by rewrite H', H.
Qed.
#[global] Instance same_local_preorder a vol : PreOrder (same_local a vol).
Proof. split; [by split|]. intros w1 w2 w3 [] []. split; congruence. Qed.
#[global] Instance same_objs_preorder vol : PreOrder (same_objs vol).
Proof. split; [by intros w rel|]. intros w1 w2 w3 H1 H2 rel. by rewrite H2, H1. Qed.

Lemma foldl_pres {A B} (R : A -> A -> Prop) `{!PreOrder R} (f : A -> B -> A) (l : list B) (a : A) :
  (forall a b, b ∈ l -> R a (f a b)) -> R a (foldl f a l).
Proof.
  revert a. induction l as [|b l IH]; intros a Hf; [done|]. simpl.
  etrans; [apply Hf; by left|]. apply IH. intros a' b' Hin. apply Hf. by right.
Qed.

(** A change of worker [b] about volume [v] only, which keeps its switch. *)
Definition about (v : string) (f : SyncWorker -> SyncWorker) : Prop :=
  forall k, k_hasStore (f k) = k_hasStore k /\
    forall vol, vol <> v -> k_vols (f k) !! vol = k_vols k !! vol /\
      k_watches (f k) !! vol = k_watches k !! vol /\ k_targets (f k) !! vol = k_targets k !! vol.

Lemma set_worker_env b v f w : about v f -> same_env w (set_worker b f w).
Proof.
  intros Hf. split; [by destruct w..| |]; intros a.
  - unfold hasStore. rewrite workers_set_worker. case_decide; [|done].
    destruct (wd_workers w !! a) as [k|]; [|done]. simpl. apply Hf.
  - rewrite workers_set_worker. case_decide; [|done]. by rewrite fmap_is_Some.
Qed.

Lemma set_worker_objs b f w vol : same_objs vol w (set_worker b f w).
Proof. by destruct w. Qed.

Lemma set_worker_local b v f w a vol : about v f -> a <> b \/ vol <> v -> same_local a vol w (set_worker b f w).
Proof.
  intros Hf Hne. split; unfold volume, watch, targets; rewrite workers_set_worker; (case_decide as Hb; [|done]);
    (destruct Hne as [|Hne]; [congruence|]); destruct (wd_workers w !! a) as [k|]; try done; simpl;
    by destruct (Hf k) as [_ Hk]; destruct (Hk vol Hne) as (H1 & H2 & H3); rewrite ?H1, ?H2, ?H3.
Qed.

Lemma about_vols v f : (forall m vol, vol <> v -> f m !! vol = m !! vol) -> about v (on_vols f).
Proof. intros Hf [h vs wa ta re]. split; [done|]. intros vol Hv. simpl. split_and!; [by apply Hf|done|done]. Qed.
Lemma about_watches v f : (forall m vol, vol <> v -> f m !! vol = m !! vol) -> about v (on_watches f).
Proof. intros Hf [h vs wa ta re]. split; [done|]. intros vol Hv. simpl. split_and!; [done|by apply Hf|done]. Qed.
Lemma about_targets v f : (forall m vol, vol <> v -> f m !! vol = m !! vol) -> about v (on_targets f).
Proof. intros Hf [h vs wa ta re]. split; [done|]. intros vol Hv. simpl. split_and!; [done|done|by apply Hf]. Qed.
Lemma about_repl v f : about v (on_repl f).
Proof. by intros [h vs wa ta re]. Qed.

(** [f] changes worker [b]'s view of [v] at most. *)
Record local_to (b v : string) (w w' : SyncWorld) : Prop := {
  lt_env : same_env w w';
  lt_objs : forall vol, same_objs vol w w';
  lt_local : forall a vol, a <> b \/ vol <> v -> same_local a vol w w'
}.
#[global] Instance local_to_preorder b v : PreOrder (local_to b v).
Proof.
  split; [by intros w; split|]. intros w1 w2 w3 [E1 O1 L1] [E2 O2 L2].
  split; [exact (transitivity E1 E2)|intros vol; exact (transitivity (O1 vol) (O2 vol))|].
  intros a vol Hne. exact (transitivity (L1 a vol Hne) (L2 a vol Hne)).
Qed.

Lemma set_worker_local_to b v f w : about v f -> local_to b v w (set_worker b f w).
Proof.
  intros Hf. split; [by eapply set_worker_env|intros vol; apply set_worker_objs|].
  intros a vol Hne. by apply set_worker_local with v.
Qed.

Lemma set_tree_local_to b v f w : local_to b v w (set_tree b v f w).
Proof. apply set_worker_local_to, about_vols. intros m vol Hv. by rewrite lookup_alter_ne. Qed.
Lemma ensure_volume_local_to b v w : local_to b v w (ensure_volume b v w).
Proof. apply set_worker_local_to, about_vols. intros m vol Hv. by rewrite lookup_partial_alter_ne. Qed.
Lemma set_manifest_local_to b v f w : local_to b v w (set_manifest b v f w).
Proof. apply set_worker_local_to, about_watches. intros m vol Hv. by rewrite lookup_alter_ne. Qed.
Lemma event_local_to b v rel w : local_to b v w (event b v rel w).
Proof.
  unfold event. destruct (_ || _); [done|].
  apply set_worker_local_to, about_watches. intros m vol Hv. by rewrite lookup_alter_ne.
Qed.
#[global] Hint Resolve set_tree_local_to ensure_volume_local_to set_manifest_local_to event_local_to : volsync.

Lemma atomicWrite_local_to cl b v rel d w : local_to b v w (atomicWrite cl b v rel d w).
Proof.
  unfold atomicWrite. case_match; [done|]. case_match.
  - etrans; [|apply event_local_to]. apply set_tree_local_to.
  - etrans; [|apply event_local_to]. etrans; [|apply event_local_to]. apply set_tree_local_to.
Qed.
Lemma removeFile_local_to b v rel w : local_to b v w (removeFile b v rel w).
Proof.
  unfold removeFile. repeat case_match; try done; (etrans; [|apply event_local_to]); apply set_tree_local_to.
Qed.
Lemma putFile_local_to b v rel d w : local_to b v w (putFile b v rel d w).
Proof.
  unfold putFile. case_match; [|done]. etrans; [apply ensure_volume_local_to|apply atomicWrite_local_to].
Qed.
Lemma deleteFile_local_to b v rel w : local_to b v w (deleteFile b v rel w).
Proof. unfold deleteFile. case_match; [apply removeFile_local_to|done]. Qed.

(** Pushing to peers leaves everyone else's view alone, and the store. *)
Record peers_only (v : string) (peers : list string) (w w' : SyncWorld) : Prop := {
  po_env : same_env w w';
  po_objs : forall vol, same_objs vol w w';
  po_local : forall a vol, a ∉ peers \/ vol <> v -> same_local a vol w w'
}.
Lemma peers_fold v (f : SyncWorld -> string -> SyncWorld) peers w :
  (forall w addr, local_to addr v w (f w addr)) -> peers_only v peers w (foldl f w peers).
Proof.
  intros Hf. split.
  - apply (foldl_pres same_env). intros w' addr _. apply Hf.
  - intros vol. apply (foldl_pres (same_objs vol)). intros w' addr _. apply Hf.
  - intros a vol Hne. apply (foldl_pres (same_local a vol)). intros w' addr Hin.
    apply Hf. destruct Hne as [Ha|]; [left; by intros ->|by right].
Qed.
Lemma push_local_to v rel d w addr : local_to addr v w (push v rel d w addr).
Proof. unfold push. case_match; [apply putFile_local_to|done]. Qed.
Lemma unpush_local_to v rel w addr : local_to addr v w (unpush v rel w addr).
Proof. unfold unpush. case_match; [apply deleteFile_local_to|done]. Qed.

Lemma objKey_inj vol vol' rel rel' :
  str_mem slash vol = false -> str_mem slash vol' = false ->
  objKey vol rel = objKey vol' rel' -> vol = vol' /\ rel = rel'.
Proof.
  unfold objKey. intros Hv Hv' Heq. change ("/" +:+ rel) with (String slash rel) in Heq.
  change ("/" +:+ rel') with (String slash rel') in Heq.
  assert (vol = vol') as <-.
  { apply (f_equal (fun s => head (Split s slash))) in Heq. rewrite !Split_app in Heq by done.
    simpl in Heq. congruence. }
  split; [done|]. clear Hv Hv'. induction vol as [|c vol IH]; [by injection Heq|].
  apply IH. by injection Heq.
Qed.

(** ** The files of a tree *)

Definition content (e : option Entry) : option string :=
  match e with Some (EFile _ d) => Some d | _ => None end.

Section Manifests.
Context (hash : string -> string).

Lemma files_elem t rel m d :
  (rel, (m, d)) ∈ files t <-> t !! rel = Some (EFile m d) /\ metadata rel = false.
Proof.
  unfold files. rewrite list_elem_of_omap. split.
  - intros ([k [m' d'|]] & Hin & Hs); [|done]. destruct (metadata k) eqn:Hk; [done|].
    simplify_eq. by rewrite elem_of_map_to_list in Hin.
  - intros [Hl Hm]. exists (rel, EFile m d). rewrite Hm. split; [by apply elem_of_map_to_list|done].
Qed.

Lemma files_fst t rel : rel ∈ (files t).*1 <-> is_Some (content (t !! rel)) /\ metadata rel = false.
Proof.
  rewrite list_elem_of_fmap. split.
  - intros ([r [m d]] & -> & Hin). apply files_elem in Hin as [Hl Hm]. simpl. rewrite Hl. eauto.
  - intros [[d Hd] Hm]. destruct (t !! rel) as [[m d'|]|] eqn:Ht; simplify_eq/=.
    exists (rel, (m, d)). split; [done|]. by apply files_elem.
Qed.

Lemma files_NoDup t : NoDup (files t).*1.
Proof.
  unfold files. pose proof (NoDup_fst_map_to_list t) as Hnd. revert Hnd.
  induction (map_to_list t) as [|[k e] l IH]; [done|]. csimpl. intros [Hk Hl]%NoDup_cons.
  assert (forall r, r ∈ (omap (M := list) (fun '(rel, e) => match e with
                       | EFile m d => if metadata rel then None else Some (rel, (m, d))
                       | EDir => None end) l).*1 -> r ∈ l.*1) as Hsub.
  { intros r (x & -> & Hin)%list_elem_of_fmap. apply list_elem_of_omap in Hin as ([k' e'] & Hin & Hs).
    destruct e' as [m d|]; [|done]. destruct (metadata k'); [done|]. simplify_eq.
    apply list_elem_of_fmap. by exists (k', EFile m d). }
  destruct e as [m d|]; [destruct (metadata k)|]; csimpl; [by apply IH| |by apply IH].
  apply NoDup_cons. split; [|by apply IH]. intros Hin. by apply Hk, Hsub.
Qed.

Lemma buildLocalManifest_lookup t rel :
  buildLocalManifest hash t !! rel
  = match t !! rel with
    | Some (EFile m d) => if metadata rel then None else Some (file_entry hash m d)
    | _ => None
    end.
Proof.
  unfold buildLocalManifest.
  assert (forall l (mf : Manifest), NoDup l.*1 ->
    foldl (fun m '(rel, (mt, d)) => <[rel := file_entry hash mt d]> m) mf l !! rel
    = match (list_to_map l : gmap string (Z * string)) !! rel with
      | Some (m, d) => Some (file_entry hash m d) | None => mf !! rel end) as Hf.
  { induction l as [|[k [m d]] l IH]; intros mf Hnd; [done|]. csimpl.
    apply NoDup_cons in Hnd as [Hk Hnd]. rewrite IH by done. destruct (decide (k = rel)) as [->|Hne].
    - rewrite !lookup_insert_eq. by rewrite not_elem_of_list_to_map_1.
    - by rewrite !lookup_insert_ne. }
  rewrite Hf by apply files_NoDup. rewrite lookup_empty.
  destruct ((list_to_map (files t) : gmap string (Z * string)) !! rel) as [[m d]|] eqn:Hl.
  - apply elem_of_list_to_map_2, files_elem in Hl as [-> ->]. done.
  - apply not_elem_of_list_to_map_2 in Hl. rewrite files_fst in Hl.
    destruct (t !! rel) as [[m d|]|]; try done. destruct (metadata rel); [done|]. destruct Hl. simpl. eauto.
Qed.

Lemma buildLocalManifest_sha t rel :
  metadata rel = false -> fe_SHA256 <$> buildLocalManifest hash t !! rel = hash <$> content (t !! rel).
Proof. intros Hm. rewrite buildLocalManifest_lookup, Hm. by destruct (t !! rel) as [[]|]. Qed.
End Manifests.

(** ** One worker uploads a volume *)

Section Mirror.
Context (hash : string -> string) (a vol : string) (Hvol : str_mem slash vol = false).

Definition at_key (w : SyncWorld) (rel : string) : option Obj := wd_store w !! objKey vol rel.
Definition here (w : SyncWorld) (rel : string) : option string := content (entry w a vol rel).
Definition local_sha (w : SyncWorld) (rel : string) : option string :=
  watch w a vol ≫= fun wt => fe_SHA256 <$> w_manifest wt !! rel.
Definition remote_manifest (w : SyncWorld) : Manifest :=
  match at_key w manifestKey with Some (OManifest m) => m | _ => ∅ end.
Definition remote_sha (w : SyncWorld) (rel : string) : option string := fe_SHA256 <$> remote_manifest w !! rel.
Definition queued_events (w : SyncWorld) : list string := default [] (w_pending <$> watch w a vol).

(** The object and the watch's entry of a path are those of its file. *)
Definition uploaded (w : SyncWorld) (rel : string) : Prop :=
  at_key w rel = OFile <$> here w rel /\ local_sha w rel = hash <$> here w rel.

(** A worker with a store that watches a volume, and is no peer of its own. *)
Record uploader (w : SyncWorld) : Prop := {
  up_store : hasStore w a = true;
  up_peers : a ∉ targets w a vol;
  up_vol : is_Some (volume w a vol);
  up_watch : is_Some (watch w a vol)
}.

(** What a step of the upload leaves alone: everything but path [rel]. *)
Record touches (rel : string) (w w' : SyncWorld) : Prop := {
  to_env : same_env w w';
  to_vol : volume w' a vol = volume w a vol;
  to_targets : targets w' a vol = targets w a vol;
  to_watch : is_Some (watch w a vol) -> is_Some (watch w' a vol);
  to_pending : queued_events w' = queued_events w;
  to_objs : forall rel', rel' <> rel -> at_key w' rel' = at_key w rel';
  to_sha : forall rel', rel' <> rel -> local_sha w' rel' = local_sha w rel'
}.

#[local] Instance touches_preorder rel : PreOrder (touches rel).
Proof.
  split; [by intros w; split|]. intros w1 w2 w3 [E V T W P O S] [E' V' T' W' P' O' S'].
  split; [exact (transitivity E E')|congruence|congruence|auto|congruence|..]; intros rel' Hne.
  - by rewrite O', O.
  - by rewrite S', S.
Qed.

Lemma same_touches rel w w' :
  same_env w w' -> same_objs vol w w' -> same_local a vol w w' -> touches rel w w'.
Proof.
  intros E O [V W T]. split; unfold queued_events, local_sha, at_key; rewrite ?W; done.
Qed.

Lemma touches_uploader rel w w' : touches rel w w' -> uploader w -> uploader w'.
Proof.
  intros [[_ _ _ S _] V T W _ _ _] [? ? ? ?]. split; rewrite ?S, ?T, ?V; auto.
Qed.
Lemma touches_here rel w w' : touches rel w w' -> forall r, here w' r = here w r.
Proof. intros [_ V _ _ _ _ _] r. unfold here, entry. by rewrite V. Qed.
Lemma touches_uploaded rel w w' r : touches rel w w' -> r <> rel -> uploaded w r -> uploaded w' r.
Proof.
  intros Ht Hne [Ho Hs]. split; [rewrite (to_objs _ _ _ Ht)|rewrite (to_sha _ _ _ Ht)]; try done;
    by rewrite (touches_here _ _ _ Ht).
Qed.

Lemma set_store_touches rel f w :
  (forall k, k <> objKey vol rel -> f (wd_store w) !! k = wd_store w !! k) -> touches rel w (set_store f w).
Proof using Hvol.
  intros Hf. destruct w as [s up seen net now ws]. split; try done. intros rel' Hne. apply Hf.
  intros Heq. apply objKey_inj in Heq as [_ ?]; done.
Qed.

Lemma set_manifest_touches rel f w :
  (forall m k, k <> rel -> f m !! k = m !! k) -> touches rel w (set_manifest a vol f w).
Proof using.
  intros Hf.
  assert (watch (set_manifest a vol f w) a vol
          = (fun wt => mkWatch (f (w_manifest wt)) (w_pending wt)) <$> watch w a vol) as Hw.
  { unfold set_manifest, watch. rewrite workers_set_worker, decide_True by done.
    destruct (wd_workers w !! a) as [[h vs wa ta re]|]; [|done]. simpl. by rewrite lookup_alter_eq. }
  split.
  - apply set_manifest_local_to.
  - unfold set_manifest, volume. rewrite workers_set_worker, decide_True by done.
    by destruct (wd_workers w !! a) as [[h vs wa ta re]|].
  - unfold set_manifest, targets. rewrite workers_set_worker, decide_True by done.
    by destruct (wd_workers w !! a) as [[h vs wa ta re]|].
  - rewrite Hw. intros [wt ->]. by eexists.
  - unfold queued_events. rewrite Hw. by destruct (watch w a vol).
  - intros rel' _. unfold at_key. by destruct w.
  - intros rel' Hne. unfold local_sha. rewrite Hw. destruct (watch w a vol) as [wt|]; [|done]. simpl. by rewrite Hf.
Qed.

Lemma watch_set_manifest f w :
  watch (set_manifest a vol f w) a vol = (fun wt => mkWatch (f (w_manifest wt)) (w_pending wt)) <$> watch w a vol.
Proof using.
  unfold set_manifest, watch. rewrite workers_set_worker, decide_True by done.
  destruct (wd_workers w !! a) as [[h vs wa ta re]|]; [|done]. simpl. by rewrite lookup_alter_eq.
Qed.

Lemma peers_touches rel peers w w' : peers_only vol peers w w' -> a ∉ peers -> touches rel w w'.
Proof. intros [E O L] Ha. apply same_touches; [done|done|]. apply L. by left. Qed.

(** The store answers for the object of a path. *)
Definition answers (w : SyncWorld) (rel : string) : Prop := wd_up w (objKey vol rel) = true.
#[local] Instance answers_dec w rel : Decision (answers w rel).
Proof using. unfold answers. apply _. Defined.

(** [uploadFile] of a file that is there. *)
Lemma uploadFile_fails w rel m d :
  uploader w -> entry w a vol rel = Some (EFile m d) -> ~ answers w rel -> (uploadFile hash a vol rel w).1 = w.
Proof using.
  intros [Hst _ _ _] He Hup%not_true_iff_false. unfold uploadFile, storeFails. by rewrite He, Hst, Hup.
Qed.
Lemma uploadFile_uploads w rel m d :
  uploader w -> answers w rel -> entry w a vol rel = Some (EFile m d) ->
  let w' := (uploadFile hash a vol rel w).1 in touches rel w w' /\ uploaded w' rel.
Proof using Hvol.
  intros [Hst Hp _ [wt Hwt]] Hup He. unfold answers in Hup. unfold uploadFile, storeFails.
  rewrite He, Hst, Hup. cbn [negb andb fst].
  set (w1 := set_store _ w). assert (touches rel w w1) as H1.
  { apply set_store_touches. intros k Hk. by rewrite lookup_insert_ne. }
  set (w2 := foldl _ w1 _). assert (touches rel w1 w2) as H2.
  { eapply peers_touches; [apply peers_fold; intros; apply push_local_to|]. by rewrite (to_targets _ _ _ H1). }
  assert (touches rel w (set_manifest a vol <[rel:=file_entry hash m d]> w2)) as H3.
  { etrans; [exact H1|]. etrans; [exact H2|]. apply set_manifest_touches. intros mf k Hk. by rewrite lookup_insert_ne. }
  split; [exact H3|]. assert (here (set_manifest a vol <[rel:=file_entry hash m d]> w2) rel = Some d) as Hh.
  { rewrite (touches_here _ _ _ H3). unfold here. by rewrite He. }
  split; rewrite Hh; simpl.
  - assert (at_key (set_manifest a vol <[rel:=file_entry hash m d]> w2) rel = at_key w2 rel) as -> by (by destruct w2).
    assert (at_key w2 rel = at_key w1 rel) as ->.
    { apply (peers_fold vol (push vol rel d)). intros; apply push_local_to. }
    unfold w1, at_key. destruct w. simpl. apply lookup_insert_eq.
  - unfold local_sha. rewrite watch_set_manifest.
    assert (is_Some (watch w2 a vol)) as [wt2 ->]
      by (apply (to_watch _ _ _ H2), (to_watch _ _ _ H1); by eexists).
    simpl. by rewrite lookup_insert_eq.
Qed.

(** [deleteRemoteFile] and the manifest's entry: the object goes too when the
    store answers. *)
Lemma delete_uploads w rel :
  uploader w ->
  let w' := set_manifest a vol (delete rel) (deleteRemoteFile a vol rel w) in
  touches rel w w' /\ local_sha w' rel = None /\
  at_key w' rel = (if wd_up w (objKey vol rel) then None else at_key w rel).
Proof using Hvol.
  intros [Hst Hp _ [wt Hwt]]. unfold deleteRemoteFile. rewrite Hst. cbn [andb].
  set (w1 := if wd_up w (objKey vol rel) then set_store _ w else w). assert (touches rel w w1) as H1.
  { unfold w1. case_match; [|done]. apply set_store_touches. intros k Hk. by rewrite lookup_delete_ne. }
  set (w2 := foldl _ w1 _). assert (touches rel w1 w2) as H2.
  { eapply peers_touches; [apply peers_fold; intros; apply unpush_local_to|]. by rewrite (to_targets _ _ _ H1). }
  assert (touches rel w (set_manifest a vol (delete rel) w2)) as H3.
  { etrans; [exact H1|]. etrans; [exact H2|]. apply set_manifest_touches. intros mf k Hk. by rewrite lookup_delete_ne. }
  split; [exact H3|]. split.
  - unfold local_sha. rewrite watch_set_manifest.
    assert (is_Some (watch w2 a vol)) as [wt2 ->]
      by (apply (to_watch _ _ _ H2), (to_watch _ _ _ H1); by eexists).
    simpl. by rewrite lookup_delete_eq.
  - assert (at_key (set_manifest a vol (delete rel) w2) rel = at_key w2 rel) as -> by (by destruct w2).
    assert (at_key w2 rel = at_key w1 rel) as ->.
    { apply (peers_fold vol (unpush vol rel)). intros; apply unpush_local_to. }
    unfold w1, at_key. destruct (wd_up w (objKey vol rel)); [|done]. destruct w. simpl. apply lookup_delete_eq.
Qed.

(** *** Rounds of uploads *)

(** Uploads keep what is uploaded, and the files and the saved manifest. *)
Record round (w w' : SyncWorld) : Prop := {
  ro_env : same_env w w';
  ro_vol : volume w' a vol = volume w a vol;
  ro_targets : targets w' a vol = targets w a vol;
  ro_watch : is_Some (watch w a vol) -> is_Some (watch w' a vol);
  ro_pending : queued_events w' = queued_events w;
  ro_uploaded : forall rel, metadata rel = false -> uploaded w rel -> uploaded w' rel;
  ro_meta : forall rel, metadata rel = true -> local_sha w' rel = local_sha w rel;
  ro_manifest : remote_manifest w' = remote_manifest w
}.
#[local] Instance round_preorder : PreOrder round.
Proof.
  split; [by intros w; split|]. intros w1 w2 w3 [E V T W P U M R] [E' V' T' W' P' U' M' R'].
  split; [exact (transitivity E E')|congruence|congruence|auto|congruence|auto| |congruence].
  intros rel Hm. by rewrite M', M.
Qed.

Lemma touches_round rel w w' :
  metadata rel = false -> touches rel w w' -> (uploaded w rel -> uploaded w' rel) -> round w w'.
Proof.
  intros Hm Ht Hu. pose proof Ht as [E V T W P O S].
  assert (forall r, metadata r = true -> r <> rel) as Hne by (intros r Hr ->; congruence).
  split; try done.
  - intros r _. destruct (decide (r = rel)) as [->|Hr]; [done|]. by apply touches_uploaded with rel.
  - intros r Hr. by apply S, Hne.
  - unfold remote_manifest. by rewrite O by by apply Hne.
Qed.

Lemma round_uploader w w' : round w w' -> uploader w -> uploader w'.
Proof. intros [[_ _ _ S _] V T W _ _ _ _] [? ? ? ?]. split; rewrite ?S, ?T, ?V; auto. Qed.
Lemma round_entry w w' rel : round w w' -> entry w' a vol rel = entry w a vol rel.
Proof. intros [_ V _ _ _ _ _ _]. unfold entry. by rewrite V. Qed.

Lemma round_answers w w' rel : round w w' -> answers w' rel <-> answers w rel.
Proof. intros [[U _ _ _ _] _ _ _ _ _ _ _]. unfold answers. by rewrite U. Qed.

(** A path is handled when the store answers for it and it is no directory. *)
Definition handles (w : SyncWorld) (rel : string) : Prop := answers w rel /\ entry w a vol rel <> Some EDir.
Lemma round_handles w w' rel : round w w' -> handles w rel -> handles w' rel.
Proof. intros Hr [H1 H2]. split; [by apply (round_answers _ _ _ Hr)|]. by rewrite (round_entry _ _ _ Hr). Qed.

Lemma uploadFile_round w rel :
  metadata rel = false -> uploader w -> is_Some (entry w a vol rel) ->
  let w' := (uploadFile hash a vol rel w).1 in round w w' /\ (handles w rel -> uploaded w' rel).
Proof using Hvol.
  intros Hm Hu [[m d|] He].
  - destruct (decide (answers w rel)) as [Ha|Ha].
    + destruct (uploadFile_uploads w rel m d Hu Ha He) as [Ht Hup]. split; [by apply touches_round with rel|done].
    + cbv zeta. rewrite (uploadFile_fails w rel m d) by done. split; [done|]. by intros [? _].
  - unfold uploadFile. rewrite He. split; [done|]. intros [_ Hd]. done.
Qed.

Lemma delete_round w rel :
  metadata rel = false -> uploader w -> here w rel = None ->
  let w' := set_manifest a vol (delete rel) (deleteRemoteFile a vol rel w) in
  round w w' /\ (answers w rel -> uploaded w' rel).
Proof using Hvol.
  intros Hm Hu Hh. destruct (delete_uploads w rel Hu) as (Ht & Hl & Hk). cbv zeta in *.
  set (w' := set_manifest _ _ _ _) in *.
  assert (here w' rel = None) as Hh' by by rewrite (touches_here _ _ _ Ht).
  split.
  - apply touches_round with rel; [done|done|]. intros [Ho _]. unfold uploaded. rewrite Hh', Hl, Hk, Ho, Hh.
    by destruct (wd_up w _).
  - intros Ha. unfold uploaded. rewrite Hh', Hl, Hk. by rewrite Ha.
Qed.

Lemma syncPath_round w rel :
  metadata rel = false -> uploader w ->
  round w (syncPath hash a vol w rel) /\ (handles w rel -> uploaded (syncPath hash a vol w rel) rel).
Proof using Hvol.
  intros Hm Hu. unfold syncPath. destruct (entry w a vol rel) as [e|] eqn:He.
  - apply uploadFile_round; eauto.
  - destruct (delete_round w rel) as [Hr Hd]; [done|done|unfold here; by rewrite He|].
    split; [done|]. intros [Ha _]. by apply Hd.
Qed.

(** A loop of uploads. *)
Lemma fold_round {B} (f : SyncWorld -> B -> SyncWorld) (l : list B) w :
  (forall w' x, x ∈ l -> round w w' -> round w' (f w' x)) -> round w (foldl f w l).
Proof using.
  assert (forall w', round w w' -> (forall w' x, x ∈ l -> round w w' -> round w' (f w' x)) ->
            round w (foldl f w' l)) as Hgen.
  { induction l as [|x l IH]; intros w' Hw' Hf; [done|]. simpl. apply IH.
    - etrans; [exact Hw'|]. apply Hf; [by left|done].
    - intros w2 y Hy. apply Hf. by right. }
  by apply Hgen.
Qed.
Lemma fold_uploaded {B} (f : SyncWorld -> B -> SyncWorld) (path : B -> string) (l : list B) w :
  (forall w' x, x ∈ l -> round w w' -> round w' (f w' x) /\ metadata (path x) = false /\
     (handles w' (path x) -> uploaded (f w' x) (path x))) ->
  forall x, x ∈ l -> handles w (path x) -> uploaded (foldl f w l) (path x).
Proof using.
  intros Hf x. induction l as [|y l IH] using rev_ind; [by intros ?%elem_of_nil|].
  rewrite foldl_app. simpl. intros Hx Hh.
  assert (round w (foldl f w l)) as Hr.
  { apply fold_round. intros w' z Hz Hw'. apply Hf; [|done]. apply elem_of_app. by left. }
  destruct (Hf (foldl f w l) y) as (Hr' & Hmy & Hup); [apply elem_of_app; right; by left|done|].
  apply elem_of_app in Hx as [Hx|Hx].
  - apply (ro_uploaded _ _ Hr').
    + apply (Hf w x); [apply elem_of_app; by left|done].
    + apply IH; [|done|done]. intros w' z Hz. apply Hf. apply elem_of_app. by left.
  - apply list_elem_of_singleton in Hx as ->. apply Hup. by apply (round_handles w).
Qed.

(** *** The invariant *)

(** A path is exact when it is the same here, in the store and in the saved
    manifest. *)
Definition exact (w : SyncWorld) (rel : string) : Prop :=
  uploaded w rel /\ remote_sha w rel = hash <$> here w rel.

(** Every path outside [D] is exact, or waits; directories are exact anyway. *)
Record mirrored (D : string -> Prop) (w : SyncWorld) : Prop := {
  mr_up : uploader w;
  mr_dirs : forall rel, metadata rel = false -> ~ D rel -> entry w a vol rel = Some EDir -> exact w rel;
  mr_meta : forall rel, metadata rel = true -> local_sha w rel = None /\ remote_sha w rel = None;
  mr_pending : Forall (fun rel => metadata rel = false) (queued_events w);
  mr_sync : forall rel, metadata rel = false -> ~ D rel -> rel ∉ queued_events w -> exact w rel
}.

(** What becomes doubtful in a call of [a] about the volume.  A path whose entry
    changed and whose event did not arrive; one that waited and was made a
    directory; one that was handled while the store did not answer for it or
    for the manifest.  A path is in doubt no more once it is handled, as a file
    or as a removal, and the store answers. *)
Definition doubt (c : Call) (w w' : SyncWorld) (D : string -> Prop) (rel : string) : Prop :=
  if bool_decide (c = Flush /\ rel ∈ queued_events w)
  then ~ answers w rel \/ ~ answers w manifestKey \/ D rel /\ entry w a vol rel = Some EDir
  else D rel \/ entry w' a vol rel <> entry w a vol rel /\
         (rel ∉ queued_events w' \/ entry w' a vol rel = Some EDir /\ rel ∈ queued_events w).

Lemma mirrored_weaken (D D' : string -> Prop) w : (forall rel, D rel -> D' rel) -> mirrored D w -> mirrored D' w.
Proof. intros HD [Hu Hd Hm Hp Hs]. split; [done|..|done|done|]; naive_solver. Qed.

Lemma round_exact w w' rel : metadata rel = false -> round w w' -> exact w rel -> exact w' rel.
Proof.
  intros Hm Hr [Hu Hs]. split; [by apply (ro_uploaded _ _ Hr)|].
  unfold remote_sha, here in *. by rewrite (ro_manifest _ _ Hr), (round_entry _ _ _ Hr).
Qed.

Lemma round_mirrored D w w' : round w w' -> mirrored D w -> mirrored D w'.
Proof.
  intros Hr [Hu Hd Hm Hp Hs]. pose proof Hr as [E V T W P U M R].
  split.
  - by eapply round_uploader.
  - intros rel Hmr HD. rewrite (round_entry _ _ _ Hr). intros He. apply round_exact with w; auto.
  - intros rel Hmr. rewrite M by done. unfold remote_sha. rewrite R. by apply Hm.
  - by rewrite P.
  - intros rel Hmr HD. rewrite P. intros Hnp. apply round_exact with w; auto.
Qed.

(** Saving the manifest: the paths that are uploaded are exact. *)
Lemma save_exact w :
  uploader w ->
  let w' := saveManifest a vol w in
  touches manifestKey w w' /\ (forall rel, local_sha w' rel = local_sha w rel) /\
  (answers w manifestKey -> (forall rel, remote_sha w' rel = local_sha w rel) /\
     exists m, at_key w' manifestKey = Some (OManifest m)).
Proof using Hvol.
  intros Hu. pose proof Hu as [Hst _ _ [wt Hwt]]. unfold saveManifest. rewrite Hwt, Hst. cbn [andb].
  unfold answers. destruct (wd_up w (objKey vol manifestKey)) eqn:Hup; [|by split_and!].
  split_and!.
  - apply set_store_touches. intros k Hk. by rewrite lookup_insert_ne.
  - intros rel. unfold local_sha. by destruct w.
  - intros _. split.
    { intros rel. unfold remote_sha, remote_manifest, local_sha, at_key. rewrite Hwt.
      destruct w. simpl. by rewrite lookup_insert_eq. }
    exists (w_manifest wt). unfold at_key. destruct w. simpl. by rewrite lookup_insert_eq.
Qed.

Lemma save_mirrored D w :
  uploader w -> answers w manifestKey -> (forall rel, metadata rel = true -> local_sha w rel = None) ->
  Forall (fun rel => metadata rel = false) (queued_events w) ->
  (forall rel, metadata rel = false -> ~ D rel -> entry w a vol rel = Some EDir \/ rel ∉ queued_events w ->
     uploaded w rel) ->
  mirrored D (saveManifest a vol w).
Proof using Hvol.
  intros Hu Ha Hm Hp Hs. destruct (save_exact w Hu) as (Ht & Hls & Hrs). set (w' := saveManifest a vol w) in *.
  destruct (Hrs Ha) as [Hrs' _].
  assert (forall rel, metadata rel = false -> uploaded w rel -> exact w' rel) as Hup'.
  { intros rel Hmr Hup. split; [apply touches_uploaded with manifestKey w; [done|by intros ->|done]|].
    rewrite Hrs', (touches_here _ _ _ Ht). apply Hup. }
  assert (forall rel, entry w' a vol rel = entry w a vol rel) as He by (intros rel; unfold entry; by rewrite (to_vol _ _ _ Ht)).
  split.
  - by eapply touches_uploader.
  - intros rel Hmr HD. rewrite He. intros Hed. apply Hup'; [done|]. apply Hs; [done..|by left].
  - intros rel Hmr. rewrite Hrs', Hls. by split; apply Hm.
  - by rewrite (to_pending _ _ _ Ht).
  - intros rel Hmr HD. rewrite (to_pending _ _ _ Ht). intros Hnp. apply Hup'; [done|]. apply Hs; [done..|by right].
Qed.

(** Saving at any time. *)
Lemma save_keeps_mirrored D w : mirrored D w -> mirrored D (saveManifest a vol w).
Proof using Hvol.
  intros Hm. pose proof Hm as [Hu Hd Hme Hp Hs]. destruct (decide (answers w manifestKey)) as [Ha|Ha].
  - apply save_mirrored; [done|done|intros rel Hr; by apply Hme|done|].
    intros rel Hmr HD [He|Hn]; [by apply Hd|by apply Hs].
  - unfold saveManifest. destruct (watch w a vol); [|done]. apply not_true_iff_false in Ha.
    by rewrite Ha, andb_false_r.
Qed.

(** *** The steps that upload *)

Lemma watch_set_waiting f w :
  watch (set_waiting a vol f w) a vol = (fun wt => mkWatch (w_manifest wt) (f (w_pending wt))) <$> watch w a vol.
Proof using.
  unfold set_waiting, watch. rewrite workers_set_worker, decide_True by done.
  destruct (wd_workers w !! a) as [[h vs wa ta re]|]; [|done]. simpl. by rewrite lookup_alter_eq.
Qed.

(** The queue of events alone changes. *)
Record requeued (w w' : SyncWorld) : Prop := {
  rq_env : same_env w w';
  rq_objs : same_objs vol w w';
  rq_vol : volume w' a vol = volume w a vol;
  rq_targets : targets w' a vol = targets w a vol;
  rq_manifest : w_manifest <$> watch w' a vol = w_manifest <$> watch w a vol
}.
Lemma set_waiting_requeued f w : requeued w (set_waiting a vol f w).
Proof using.
  split.
  - apply set_worker_env with vol, about_watches. intros m v Hv. by rewrite lookup_alter_ne.
  - apply set_worker_objs.
  - unfold set_waiting, volume. rewrite workers_set_worker, decide_True by done.
    by destruct (wd_workers w !! a) as [[h vs wa ta re]|].
  - unfold set_waiting, targets. rewrite workers_set_worker, decide_True by done.
    by destruct (wd_workers w !! a) as [[h vs wa ta re]|].
  - rewrite watch_set_waiting. by destruct (watch w a vol).
Qed.
Lemma requeued_sha w w' : requeued w w' -> forall rel, local_sha w' rel = local_sha w rel.
Proof using.
  intros [_ _ _ _ M] rel. unfold local_sha.
  destruct (watch w a vol), (watch w' a vol); simplify_eq/=; congruence.
Qed.
Lemma requeued_uploader w w' : requeued w w' -> uploader w -> uploader w'.
Proof using.
  intros [[_ _ _ S _] _ V T M] [? ? ? [wt Hw]]. split; rewrite ?S, ?T, ?V; auto.
  rewrite Hw in M. destruct (watch w' a vol); [by eexists|done].
Qed.
Lemma requeued_uploaded w w' rel : requeued w w' -> uploaded w rel -> uploaded w' rel.
Proof using.
  intros Hr [Ho Hs]. unfold uploaded. rewrite (requeued_sha _ _ Hr). destruct Hr as [_ O V _ _].
  unfold at_key, here, entry in *. rewrite O, V. done.
Qed.
Lemma requeued_entry w w' rel : requeued w w' -> entry w' a vol rel = entry w a vol rel.
Proof using. intros [_ _ V _ _]. unfold entry. by rewrite V. Qed.
Lemma saveManifest_keeps w :
  watch (saveManifest a vol w) a vol = watch w a vol /\ volume (saveManifest a vol w) a vol = volume w a vol.
Proof using. unfold saveManifest. repeat case_match; try done. by destruct w. Qed.

Lemma requeued_remote w w' : requeued w w' -> remote_manifest w' = remote_manifest w.
Proof using. intros Hr. unfold remote_manifest, at_key. by rewrite (rq_objs _ _ Hr). Qed.
Lemma requeued_exact w w' rel : requeued w w' -> exact w rel -> exact w' rel.
Proof using.
  intros Hr [Hu Hs]. split; [by eapply requeued_uploaded|]. unfold remote_sha, here in *.
  by rewrite (requeued_remote _ _ Hr), (requeued_entry _ _ _ Hr).
Qed.

(** The paths of a flush, one after another. *)
Lemma flush_round w l :
  uploader w -> Forall (fun rel => metadata rel = false) l ->
  round w (foldl (syncPath hash a vol) w (remove_dups l)) /\
  forall rel, rel ∈ l -> handles w rel -> uploaded (foldl (syncPath hash a vol) w (remove_dups l)) rel.
Proof using Hvol.
  intros Hu Hl. rewrite Forall_forall in Hl.
  assert (forall w' x, x ∈ remove_dups l -> round w w' ->
            round w' (syncPath hash a vol w' x) /\ (handles w' x -> uploaded (syncPath hash a vol w' x) x)) as Hs.
  { intros w' x Hx Hr. rewrite elem_of_remove_dups in Hx. apply syncPath_round; [exact (Hl x Hx)|by eapply round_uploader]. }
  split; [apply fold_round; intros w' x Hx Hr; exact (proj1 (Hs w' x Hx Hr))|].
  intros rel Hrel. apply (fold_uploaded (syncPath hash a vol) id); [|by apply elem_of_remove_dups].
  intros w' x Hx Hr. destruct (Hs w' x Hx Hr) as [H1 H2]. split; [exact H1|]. split; [|exact H2].
  apply Hl. by rewrite elem_of_remove_dups in Hx.
Qed.

Lemma flush_mirrored D w :
  mirrored D w ->
  let w' := flush hash a vol w in
  mirrored (doubt Flush w w' D) w' /\ queued_events w' = [] /\ volume w' a vol = volume w a vol /\ same_env w w'.
Proof using Hvol.
  intros Hmir. pose proof Hmir as [Hu Hd Hm Hp Hs]. pose proof (up_watch _ Hu) as [wt Hwt]. cbv zeta.
  assert (queued_events w = w_pending wt) as Hpw by (unfold queued_events; by rewrite Hwt).
  assert (forall w' rel, metadata rel = false -> ~ doubt Flush w w' D rel ->
            exact w rel \/ rel ∈ queued_events w /\ handles w rel /\ answers w manifestKey) as HD.
  { intros w' rel Hmr. unfold doubt. case_bool_decide as Hb.
    - destruct Hb as [_ Hin]. intros Hnd. destruct (decide (entry w a vol rel = Some EDir)) as [He|He].
      + left. apply Hd; [done| |done]. intros HDr. apply Hnd. by right; right.
      + right. split; [done|]. split_and!.
        * split; [|done]. destruct (decide (answers w rel)); [done|]. destruct Hnd. by left.
        * destruct (decide (answers w manifestKey)); [done|]. destruct Hnd. by right; left.
    - intros Hnd. left. apply Hs; [done| |]; [intros HDr; apply Hnd; by left|]. intros Hin. by apply Hb. }
  unfold flush. rewrite Hwt. destruct (w_pending wt) as [|p0 ps] eqn:Hpend.
  { split_and!; [|done|done|done]. eapply mirrored_weaken; [|done]. intros rel HDr. unfold doubt.
    rewrite bool_decide_false; [by left|]. rewrite Hpw. intros [_ ?%elem_of_nil]. done. }
  rewrite <-Hpend in *. clear p0 ps Hpend. set (w1 := foldl (syncPath hash a vol) w (remove_dups (w_pending wt))).
  destruct (flush_round w (w_pending wt) Hu) as [Hr1 Hup1]; [by rewrite <-Hpw|]. fold w1 in Hr1, Hup1.
  assert (requeued w1 (set_waiting a vol (fun _ => []) w1)) as Hq by apply set_waiting_requeued.
  set (w2 := set_waiting a vol (fun _ => []) w1) in *.
  assert (queued_events w2 = []) as Hp2.
  { unfold queued_events, w2. rewrite watch_set_waiting. by destruct (watch w1 a vol). }
  assert (uploader w2) as Hu2 by (eapply requeued_uploader; [done|]; by eapply round_uploader).
  assert (forall rel, answers w2 rel <-> answers w rel) as Han.
  { intros rel. rewrite <-(round_answers _ _ rel Hr1). unfold answers. by rewrite (se_up _ _ (rq_env _ _ Hq)). }
  assert (forall rel, metadata rel = true -> local_sha w2 rel = None) as Hm2.
  { intros rel Hmr. rewrite (requeued_sha _ _ Hq), (ro_meta _ _ Hr1) by done. by apply Hm. }
  split_and!.
  - set (D' := doubt Flush w _ D). destruct (decide (answers w2 manifestKey)) as [Ha|Ha].
    + apply save_mirrored; [done|done|done|by rewrite Hp2|]. intros rel Hmr HDr _.
      apply requeued_uploaded with w1; [done|].
      destruct (HD _ rel Hmr HDr) as [[Hex _]|(Hin & Hh & _)]; [by apply (ro_uploaded _ _ Hr1)|].
      apply Hup1; [by rewrite <-Hpw|done].
    + apply save_keeps_mirrored.
      assert (forall rel, metadata rel = false -> ~ D' rel -> exact w2 rel) as Hex.
      { intros rel Hmr HDr. destruct (HD _ rel Hmr HDr) as [Hex|(_ & _ & Ham)]; [|by destruct Ha; apply Han].
        apply requeued_exact with w1; [done|]. by apply round_exact with w. }
      split; [done|auto|..|by rewrite Hp2|auto].
      intros rel Hmr. rewrite Hm2 by done. split; [done|]. unfold remote_sha.
      rewrite (requeued_remote _ _ Hq), (ro_manifest _ _ Hr1). by apply Hm.
  - unfold queued_events. rewrite (proj1 (saveManifest_keeps _)). exact Hp2.
  - by rewrite (proj2 (saveManifest_keeps _)), (rq_vol _ _ Hq), (ro_vol _ _ Hr1).
  - exact (transitivity (ro_env _ _ Hr1) (transitivity (rq_env _ _ Hq) (to_env _ _ _ (proj1 (save_exact w2 Hu2))))).
Qed.

Lemma volume_files w t rel : volume w a vol = Some t -> rel ∈ (files t).*1 ->
  metadata rel = false /\ is_Some (entry w a vol rel).
Proof using.
  intros Ht Hin. apply files_fst in Hin as [[d Hd] Hm]. split; [done|]. unfold entry. rewrite Ht. simpl.
  destruct (t !! rel); [by eexists|done].
Qed.

(** The uploads of [SyncToRemote], before the manifest is saved. *)
Lemma syncTo_round w t :
  uploader w -> volume w a vol = Some t ->
  let w' := foldl (fun w f => (uploadFile hash a vol f.1 w).1) w (files t) in
  round w w' /\ forall rel, rel ∈ (files t).*1 -> answers w rel -> uploaded w' rel.
Proof using Hvol.
  intros Hu Ht. cbv zeta.
  assert (forall w' f, f ∈ files t -> round w w' -> metadata f.1 = false /\ is_Some (entry w' a vol f.1)) as Hf.
  { intros w' f Hf Hr. rewrite (round_entry _ _ _ Hr). apply (volume_files w t); [done|]. by apply list_elem_of_fmap_2. }
  assert (forall w' f, f ∈ files t -> round w w' ->
     let w2 := (uploadFile hash a vol f.1 w').1 in round w' w2 /\ (handles w' f.1 -> uploaded w2 f.1)) as Hs.
  { intros w' f Hin Hr. destruct (Hf w' f Hin Hr). apply uploadFile_round; [done|by eapply round_uploader|done]. }
  split; [apply fold_round; intros w' f Hin Hr; exact (proj1 (Hs w' f Hin Hr))|].
  intros rel Hrel Ha. apply list_elem_of_fmap in Hrel as (f & -> & Hin).
  apply (fold_uploaded (fun w f => (uploadFile hash a vol f.1 w).1) fst); [|done|].
  - intros w' x Hx Hr. destruct (Hs w' x Hx Hr) as [H1 H2]. split; [exact H1|]. split; [|exact H2].
    exact (proj1 (Hf w' x Hx Hr)).
  - split; [done|]. destruct f as [rel [m d]]. apply files_elem in Hin as [Hl _]. unfold entry. rewrite Ht. simpl. by rewrite Hl.
Qed.

Lemma syncToRemote_mirrored D w : mirrored D w -> mirrored D (syncToRemote hash a vol w).
Proof using Hvol.
  intros Hmir. destruct (up_vol _ (mr_up _ _ Hmir)) as [t Ht]. unfold syncToRemote. rewrite Ht.
  apply save_keeps_mirrored. eapply round_mirrored; [|done]. apply syncTo_round; [apply Hmir|done].
Qed.

(** The uploads and the deletions of a reconciliation. *)
Lemma reconcile_round w t :
  uploader w -> volume w a vol = Some t -> round w (foldl (reconcileFile hash a vol) w (files t)).
Proof using Hvol.
  intros Hu Ht. apply fold_round. intros w' [rel [m d]] Hin Hr. unfold reconcileFile. case_match; [done|].
  destruct (volume_files w t rel Ht) as [Hmf Hef]; [exact (list_elem_of_fmap_2 fst _ _ Hin)|].
  apply uploadFile_round; [done|by eapply round_uploader|by rewrite (round_entry _ _ _ Hr)].
Qed.

Definition forget (w : SyncWorld) (rel : string) : SyncWorld :=
  set_manifest a vol (delete rel) (deleteRemoteFile a vol rel w).

Lemma reconcile_mirrored D w : mirrored D w -> mirrored D (reconcileVolume hash a vol w).
Proof using Hvol.
  intros Hmir. pose proof Hmir as [Hu Hd Hm Hp Hs]. pose proof Hu as [Hst _ [t Ht] [wt Hwt]].
  unfold reconcileVolume. rewrite Hst, Hwt, Ht. set (w1 := foldl (reconcileFile hash a vol) w (files t)).
  pose proof (reconcile_round w t Hu Ht) as Hr1. fold w1 in Hr1.
  assert (mirrored D w1) as Hm1 by by eapply round_mirrored.
  destruct (up_watch _ (mr_up _ _ Hm1)) as [wt1 Hwt1]. rewrite Hwt1.
  set (gone := filter (fun rel => rel ∉ (files t).*1) (map_to_list (w_manifest wt1)).*1).
  assert (forall rel, rel ∈ gone -> metadata rel = false /\ here w1 rel = None) as Hgone.
  { intros rel [Hnf Hin]%list_elem_of_filter. apply list_elem_of_fmap in Hin as ([r fe] & -> & Hin).
    apply elem_of_map_to_list in Hin. simpl in *.
    assert (metadata r = false) as Hmr.
    { apply not_true_iff_false. intros Hmr. destruct (mr_meta _ _ Hm1 r Hmr) as [Hno _].
      unfold local_sha in Hno. rewrite Hwt1 in Hno. simpl in Hno. by rewrite Hin in Hno. }
    split; [done|]. unfold here. rewrite (round_entry _ _ _ Hr1). unfold entry. rewrite Ht. simpl.
    rewrite files_fst in Hnf. destruct (content (t !! r)); [|done]. destruct Hnf. eauto. }
  assert (mirrored D (foldl forget w1 gone)) as Hm2.
  { eapply round_mirrored; [|exact Hm1]. apply fold_round. intros w' rel Hin Hr. destruct (Hgone rel Hin) as [Hmr Hh].
    apply delete_round; [done|eapply round_uploader, mr_up; done|]. unfold here. by rewrite (round_entry _ _ _ Hr). }
  case_bool_decide; [done|]. by apply save_keeps_mirrored.
Qed.

(** *** Changes of the files, some with events *)

Record stirs (w w' : SyncWorld) : Prop := {
  mv_env : same_env w w';
  mv_objs : same_objs vol w w';
  mv_targets : targets w' a vol = targets w a vol;
  mv_vol : is_Some (volume w a vol) -> is_Some (volume w' a vol);
  mv_manifest : w_manifest <$> watch w' a vol = w_manifest <$> watch w a vol;
  mv_events : exists extra, queued_events w' = queued_events w ++ extra /\ Forall (fun rel => metadata rel = false) extra
}.
#[local] Instance stirs_preorder : PreOrder stirs.
Proof.
  split; [intros w; split; try done; exists []; by rewrite app_nil_r|].
  intros w1 w2 w3 [E O T V M (e1 & P1 & F1)] [E' O' T' V' M' (e2 & P2 & F2)].
  split; [exact (transitivity E E')|exact (transitivity O O')|congruence|auto|congruence|].
  exists (e1 ++ e2). split; [by rewrite P2, P1, app_assoc|by apply Forall_app].
Qed.
(** ... and no directory is made. *)
Definition moves (w w' : SyncWorld) : Prop :=
  stirs w w' /\ forall rel, entry w' a vol rel = Some EDir -> entry w a vol rel = Some EDir.
#[local] Instance moves_preorder : PreOrder moves.
Proof.
  split; [done|]. intros w1 w2 w3 [S D] [S' D']. split; [exact (transitivity S S')|auto].
Qed.

Lemma stirs_mirrored c D w w' :
  stirs w w' -> (forall rel, entry w' a vol rel = Some EDir -> here w rel = None) -> c <> Flush ->
  mirrored D w -> mirrored (doubt c w w' D) w'.
Proof.
  intros [[U _ _ S _] O T V M (extra & P & F)] Hdir Hc [Hu Hd Hm Hp Hs]. pose proof Hu as [Hst Hpe Hv Hw].
  assert (forall rel, local_sha w' rel = local_sha w rel) as Hls.
  { intros rel. unfold local_sha. destruct (watch w a vol), (watch w' a vol); simplify_eq/=; congruence. }
  assert (forall rel, at_key w' rel = at_key w rel) as Hk by (intros rel; apply O).
  assert (forall rel, remote_sha w' rel = remote_sha w rel) as Hrs.
  { intros rel. unfold remote_sha, remote_manifest. by rewrite Hk. }
  assert (forall rel, here w' rel = here w rel -> exact w rel -> exact w' rel) as Hex.
  { intros rel Hh [[H1 H2] H3]. unfold exact, uploaded. by rewrite Hk, Hls, Hrs, Hh. }
  assert (forall rel, ~ doubt c w w' D rel ->
    ~ D rel /\ (entry w' a vol rel = entry w a vol rel \/ rel ∈ queued_events w' /\
      ~ (entry w' a vol rel = Some EDir /\ rel ∈ queued_events w))) as HD.
  { intros rel. unfold doubt. rewrite bool_decide_false by naive_solver. intros Hnd. split; [naive_solver|].
    destruct (decide (entry w' a vol rel = entry w a vol rel)); [by left|right].
    split; [|naive_solver]. destruct (decide (rel ∈ queued_events w')); [done|naive_solver]. }
  split.
  - split; rewrite ?S, ?T; auto. destruct Hw as [wt Hw]. rewrite Hw in M.
    destruct (watch w' a vol); [by eexists|done].
  - intros rel Hmr HDr He. destruct (HD rel HDr) as [HDr' [Heq|[_ Hno]]].
    + apply Hex; [unfold here; by rewrite Heq|]. apply Hd; [done|done|congruence].
    + apply Hex; [rewrite Hdir by done; unfold here; by rewrite He|]. apply Hs; [done|done|]. intros Hin. by apply Hno.
  - intros rel Hmr. rewrite Hls, Hrs. by apply Hm.
  - rewrite P. by apply Forall_app.
  - intros rel Hmr HDr Hnp. destruct (HD rel HDr) as [HDr' [Heq|[Hin _]]]; [|done].
    apply Hex; [unfold here; by rewrite Heq|]. apply Hs; [done|done|]. rewrite P in Hnp.
    by apply not_elem_of_app in Hnp as [? _].
Qed.

Lemma moves_mirrored c D w w' : moves w w' -> c <> Flush -> mirrored D w -> mirrored (doubt c w w' D) w'.
Proof. intros [Hs Hd]. apply stirs_mirrored; [done|]. intros rel He. unfold here. by rewrite (Hd rel He). Qed.

Lemma entry_set_tree f w rel :
  entry (set_tree a vol f w) a vol rel = volume w a vol ≫= fun t => f t !! rel.
Proof using.
  unfold entry, volume, set_tree. rewrite workers_set_worker, decide_True by done.
  destruct (wd_workers w !! a) as [[h vs wa ta re]|]; [|done]. simpl. rewrite lookup_alter_eq.
  by destruct (vs !! vol).
Qed.
Lemma volume_set_tree f w : volume (set_tree a vol f w) a vol = f <$> volume w a vol.
Proof using.
  unfold volume, set_tree. rewrite workers_set_worker, decide_True by done.
  destruct (wd_workers w !! a) as [[h vs wa ta re]|]; [|done]. simpl. by rewrite lookup_alter_eq.
Qed.
Lemma watch_set_tree f w : watch (set_tree a vol f w) a vol = watch w a vol /\ targets (set_tree a vol f w) a vol = targets w a vol.
Proof using.
  unfold watch, targets, set_tree. rewrite workers_set_worker, decide_True by done.
  by destruct (wd_workers w !! a) as [[h vs wa ta re]|].
Qed.

Lemma event_requeued rel w : requeued w (event a vol rel w).
Proof using. unfold event. destruct (_ || _); [by split|]. apply set_waiting_requeued. Qed.
(** Changing some paths and telling the watcher about some of them. *)
Lemma tree_stirs (f : Tree -> Tree) (rels : list string) w :
  stirs w (foldl (fun w rel => event a vol rel w) (set_tree a vol f w) rels) /\
  forall rel, entry (foldl (fun w rel => event a vol rel w) (set_tree a vol f w) rels) a vol rel
    = volume w a vol ≫= fun t => f t !! rel.
Proof using.
  set (w0 := set_tree a vol f w). pose proof (watch_set_tree f w) as [HW HT].
  assert (stirs w w0) as H0.
  { pose proof (set_tree_local_to a vol f w) as [E O _]. fold w0 in HW, HT.
    split; [exact E|exact (O vol)|exact HT| |by rewrite HW|exists []; unfold queued_events; by rewrite HW, app_nil_r].
    unfold w0. rewrite volume_set_tree. by intros [t ->]. }
  assert (forall w1 rel, stirs w1 (event a vol rel w1)) as Hev.
  { intros w1 rel. destruct (event_requeued rel w1) as [E O V T M].
    split; [exact E|exact O|exact T|by rewrite V|exact M|]. unfold event. destruct (metadata rel) eqn:Hm; simpl;
      [exists []; by rewrite app_nil_r|]. destruct (wd_seen w1 rel); simpl; [|exists []; by rewrite app_nil_r].
    unfold queued_events. rewrite watch_set_waiting. destruct (watch w1 a vol) as [wt|]; simpl.
    - exists [rel]. split; [done|]. by constructor.
    - by exists []. }
  split; [etrans; [exact H0|]; apply (foldl_pres stirs); intros; apply Hev|].
  intros rel. transitivity (entry w0 a vol rel); [|apply entry_set_tree]. generalize w0. clear.
  induction rels as [|r l IH]; intros w1; [done|]. simpl. rewrite IH. by apply requeued_entry, event_requeued.
Qed.
Lemma tree_moves (f : Tree -> Tree) (rels : list string) w :
  (forall t rel, f t !! rel = Some EDir -> t !! rel = Some EDir) ->
  moves w (foldl (fun w rel => event a vol rel w) (set_tree a vol f w) rels).
Proof using.
  intros Hf. destruct (tree_stirs f rels w) as [Hs He]. split; [exact Hs|]. intros rel. rewrite He. unfold entry.
  destruct (volume w a vol) as [t|]; [|done]. simpl. apply Hf.
Qed.

Lemma guestWrite_moves rel d w : moves w (guestWrite a vol rel d w).
Proof using.
  unfold guestWrite. case_match; [done|]. apply (tree_moves _ [rel]). intros t r.
  destruct (decide (r = rel)) as [->|Hne]; [by rewrite lookup_insert_eq|]. by rewrite lookup_insert_ne.
Qed.
Lemma guestMkdir_stirs rel w :
  stirs w (guestMkdir a vol rel w) /\
  forall r, entry (guestMkdir a vol rel w) a vol r = Some EDir -> here w r = None.
Proof using.
  unfold guestMkdir. destruct (entry w a vol rel) as [e|] eqn:Hr.
  { split; [done|]. intros r He. unfold here. by rewrite He. }
  destruct (tree_stirs <[rel := EDir]> [rel] w) as [Hs He]. split; [exact Hs|]. intros r Hd.
  rewrite He in Hd. unfold here. destruct (decide (r = rel)) as [->|Hne]; [by rewrite Hr|].
  unfold entry. destruct (volume w a vol) as [t|]; [|done]. simpl in *. rewrite lookup_insert_ne in Hd by done. by rewrite Hd.
Qed.

Lemma atomicWrite_moves cl rel d w : moves w (atomicWrite cl a vol rel d w).
Proof using.
  unfold atomicWrite. destruct (is_EDir (entry w a vol (tmpPath rel))); [done|].
  destruct (is_EDir (entry w a vol rel)).
  - apply (tree_moves _ [tmpPath rel]). intros t r. destruct (decide (r = tmpPath rel)) as [->|Hne], cl;
      rewrite ?lookup_delete_eq, ?lookup_insert_eq, ?lookup_delete_ne, ?lookup_insert_ne by done; done.
  - apply (tree_moves (fun t => <[rel := EFile (wd_now w) d]> (delete (tmpPath rel) t)) [tmpPath rel; rel]).
    intros t r. destruct (decide (r = rel)) as [->|Hne]; [by rewrite lookup_insert_eq|].
    rewrite lookup_insert_ne by done. intros Hl. by apply lookup_delete_Some in Hl as [_ ?].
Qed.
Lemma removeFile_moves rel w : moves w (removeFile a vol rel w).
Proof using.
  assert (moves w (event a vol rel (set_tree a vol (delete rel) w))) as Hd.
  { apply (tree_moves _ [rel]). intros t r Hl. by apply lookup_delete_Some in Hl as [_ ?]. }
  unfold removeFile. by repeat case_match.
Qed.

Lemma ensure_volume_moves w : is_Some (volume w a vol) -> moves w (ensure_volume a vol w).
Proof using.
  intros Hv. assert (volume (ensure_volume a vol w) a vol = volume w a vol) as HV.
  { unfold volume, ensure_volume in *. rewrite workers_set_worker, decide_True by done.
    destruct (wd_workers w !! a) as [[h vs wa ta re]|]; [|done]. simpl in *. rewrite lookup_partial_alter_eq.
    by destruct Hv as [t ->]. }
  assert (watch (ensure_volume a vol w) a vol = watch w a vol /\ targets (ensure_volume a vol w) a vol = targets w a vol)
    as [HW HT].
  { unfold watch, targets, ensure_volume. rewrite workers_set_worker, decide_True by done.
    by destruct (wd_workers w !! a) as [[h vs wa ta re]|]. }
  pose proof (ensure_volume_local_to a vol w) as [E O _]. split; [|intros rel; unfold entry; by rewrite HV].
  split; [exact E|exact (O vol)|exact HT|by rewrite HV|by rewrite HW|].
  exists []. unfold queued_events. by rewrite HW, app_nil_r.
Qed.

Lemma foldl_moves {B} (f : SyncWorld -> B -> SyncWorld) (l : list B) w :
  (forall w x, moves w (f w x)) -> moves w (foldl f w l).
Proof using. intros Hf. apply (foldl_pres moves). intros w' x _. apply Hf. Qed.

Lemma syncFromRemote_moves w : is_Some (volume w a vol) -> moves w (syncFromRemote hash a vol w).
Proof using.
  intros Hv. unfold syncFromRemote. case_match; [|done]. pose proof (ensure_volume_moves w Hv) as He.
  destruct (fetchRemoteManifest _ _) as [remote|]; [|done]. destruct (volume (ensure_volume a vol w) a vol) as [t|]; [|done].
  etrans; [exact He|]. apply foldl_moves. intros w' [rel fe]. case_match; [done|].
  unfold downloadFile. repeat case_match; try done. apply atomicWrite_moves.
Qed.
Lemma pullFromPrimary_moves primary w : moves w (pullFromPrimary hash a vol primary w).
Proof using.
  unfold pullFromPrimary. repeat case_match; try done. 
  match goal with |- moves _ (foldl _ ?w1 _) => transitivity w1 end; apply foldl_moves.
  - intros w' [rel fe]. case_match; [done|]. unfold pullFile. case_match; [apply atomicWrite_moves|done].
  - intros w' rel. apply removeFile_moves.
Qed.

(** *** Steps of others, and of other volumes *)

Lemma mirrored_ext D w w' :
  (forall b, hasStore w' b = hasStore w b) -> same_objs vol w w' -> volume w' a vol = volume w a vol -> watch w' a vol = watch w a vol ->
  a ∉ targets w' a vol -> mirrored D w -> mirrored D w'.
Proof using.
  intros S O V W T [[Hst Hpe Hv Hw] Hd Hm Hp Hs].
  assert (forall rel, local_sha w' rel = local_sha w rel) as Hls by (intros rel; unfold local_sha; by rewrite W).
  assert (forall rel, at_key w' rel = at_key w rel) as Hk by (intros rel; apply O).
  assert (forall rel, remote_sha w' rel = remote_sha w rel) as Hrs.
  { intros rel. unfold remote_sha, remote_manifest. by rewrite Hk. }
  assert (forall rel, entry w' a vol rel = entry w a vol rel) as He by (intros rel; unfold entry; by rewrite V).
  assert (queued_events w' = queued_events w) as HP by (unfold queued_events; by rewrite W).
  assert (forall rel, exact w' rel <-> exact w rel) as Hu.
  { intros rel. unfold exact, uploaded, here. by rewrite Hk, Hls, Hrs, He. }
  split.
  - split; rewrite ?S, ?V, ?W; done.
  - intros rel Hmr HD Hed. rewrite He in Hed. by apply Hu, Hd.
  - intros rel Hmr. rewrite Hls, Hrs. by apply Hm.
  - by rewrite HP.
  - intros rel Hmr HD. rewrite HP, Hu. by apply Hs.
Qed.

Lemma view_mirrored D w w' :
  same_env w w' -> same_objs vol w w' -> same_local a vol w w' -> mirrored D w -> mirrored D w'.
Proof using.
  intros E O [V W T] Hm. apply (mirrored_ext D w); [apply E|done..| |done]. rewrite T. apply (mr_up _ _ Hm).
Qed.

(** Only volume [v] is concerned. *)
Record elsewhere (v : string) (w w' : SyncWorld) : Prop := {
  ew_env : same_env w w';
  ew_objs : v <> vol -> same_objs vol w w';
  ew_local : v <> vol -> same_local a vol w w'
}.
#[local] Instance elsewhere_preorder v : PreOrder (elsewhere v).
Proof.
  split; [intros w; by split|]. intros w1 w2 w3 [E O L] [E' O' L'].
  split; [exact (transitivity E E')|intros Hv; exact (transitivity (O Hv) (O' Hv))|].
  intros Hv. exact (transitivity (L Hv) (L' Hv)).
Qed.
Lemma local_to_elsewhere b v w w' : local_to b v w w' -> elsewhere v w w'.
Proof using. intros [E O L]. split; [done|intros _; apply O|]. intros Hv. apply L. right. congruence. Qed.
Lemma peers_elsewhere v peers w w' : peers_only v peers w w' -> elsewhere v w w'.
Proof using. intros [E O L]. split; [done|intros _; apply O|]. intros Hv. apply L. right. congruence. Qed.

Lemma set_store_elsewhere v rel f w :
  str_mem slash v = false -> (forall k, k <> objKey v rel -> f (wd_store w) !! k = wd_store w !! k) ->
  elsewhere v w (set_store f w).
Proof using Hvol.
  intros Hv Hf. destruct w as [s up seen net now ws]. split; [by split| |by split].
  intros Hne rel'. apply Hf. intros Heq. apply objKey_inj in Heq as [? _]; congruence.
Qed.

Lemma uploadFile_elsewhere b v rel w : str_mem slash v = false -> elsewhere v w (uploadFile hash b v rel w).1.
Proof using Hvol.
  intros Hv. unfold uploadFile. destruct (entry w b v rel) as [[m d|]|]; [|done|done].
  destruct (storeFails w b _); [done|]. simpl.
  etrans; [|apply local_to_elsewhere with b, set_manifest_local_to].
  etrans; [|eapply peers_elsewhere, peers_fold; intros; apply push_local_to].
  destruct (hasStore w b); [|done]. apply set_store_elsewhere with rel; [done|]. intros k Hk. by rewrite lookup_insert_ne.
Qed.
Lemma delete_elsewhere b v rel w :
  str_mem slash v = false -> elsewhere v w (set_manifest b v (delete rel) (deleteRemoteFile b v rel w)).
Proof using Hvol.
  intros Hv. unfold deleteRemoteFile. etrans; [|apply local_to_elsewhere with b, set_manifest_local_to].
  etrans; [|eapply peers_elsewhere, peers_fold; intros; apply unpush_local_to].
  destruct (_ && _); [|done]. apply set_store_elsewhere with rel; [done|]. intros k Hk. by rewrite lookup_delete_ne.
Qed.
Lemma saveManifest_elsewhere b v w : str_mem slash v = false -> elsewhere v w (saveManifest b v w).
Proof using Hvol.
  intros Hv. unfold saveManifest. destruct (watch w b v); [|done]. destruct (_ && _); [|done].
  apply set_store_elsewhere with manifestKey; [done|]. intros k Hk. by rewrite lookup_insert_ne.
Qed.
Lemma foldl_elsewhere {B} v (f : SyncWorld -> B -> SyncWorld) (l : list B) w :
  (forall w x, elsewhere v w (f w x)) -> elsewhere v w (foldl f w l).
Proof using. intros Hf. apply (foldl_pres (elsewhere v)). intros w' x _. apply Hf. Qed.

Lemma uploads_elsewhere b v c w :
  str_mem slash v = false -> c ∈ [Flush; Reconcile; SyncTo] -> elsewhere v w (step hash b v c w).
Proof using Hvol.
  intros Hv Hc. rewrite !elem_of_cons, elem_of_nil in Hc. destruct Hc as [->|[->|[->|[]]]]; simpl.
  - unfold flush. destruct (watch w b v) as [wt|]; [|done]. destruct (w_pending wt); [done|].
    etrans; [|by apply saveManifest_elsewhere].
    etrans; [|apply local_to_elsewhere with b, set_worker_local_to, about_watches; intros m k Hk; by rewrite lookup_alter_ne].
    apply foldl_elsewhere. intros w' rel. unfold syncPath.
    destruct (entry w' b v rel); [by apply uploadFile_elsewhere|by apply delete_elsewhere].
  - unfold reconcileVolume. destruct (hasStore w b); [|done]. destruct (watch w b v); [|done].
    destruct (volume w b v) as [t|]; [|done].
    set (w1 := foldl (reconcileFile hash b v) w (files t)). transitivity w1.
    + apply foldl_elsewhere. intros w' [rel [m d]]. unfold reconcileFile. case_match; [done|]. by apply uploadFile_elsewhere.
    + destruct (watch _ b v) as [wt|]; [|done].
      assert (forall gone w', elsewhere v w' (foldl (fun w rel => set_manifest b v (delete rel) (deleteRemoteFile b v rel w)) w' gone)) as Hg.
      { intros gone w'. apply foldl_elsewhere. intros w2 rel. by apply delete_elsewhere. }
      case_bool_decide; [apply Hg|]. etrans; [apply Hg|by apply saveManifest_elsewhere].
  - unfold syncToRemote. destruct (volume w b v) as [t|]; [|done]. etrans; [|by apply saveManifest_elsewhere].
    apply foldl_elsewhere. intros w' f. by apply uploadFile_elsewhere.
Qed.

Lemma foldl_local_to {B} b v (f : SyncWorld -> B -> SyncWorld) (l : list B) w :
  (forall w x, local_to b v w (f w x)) -> local_to b v w (foldl f w l).
Proof using. intros Hf. apply (foldl_pres (local_to b v)). intros w' x _. apply Hf. Qed.

Lemma watchVolume_local_to b v w : local_to b v w (watchVolume b v w).
Proof using.
  unfold watchVolume. destruct (watch w b v); [done|]. destruct (volume w b v); [|done].
  etrans; [apply set_worker_local_to, about_watches; intros m k Hk; by rewrite lookup_insert_ne|].
  unfold loadManifest. repeat case_match; try done. apply set_manifest_local_to.
Qed.

Lemma locals_local_to b v c w :
  c ∉ [Flush; Reconcile; SyncTo] -> local_to b v w (step hash b v c w).
Proof using.
  intros Hc. destruct c; simpl; try (clear -Hc; destruct Hc; set_solver).
  - unfold guestWrite. case_match; [done|]. etrans; [|apply event_local_to]. apply set_tree_local_to.
  - unfold guestMkdir. case_match; [done|]. etrans; [|apply event_local_to]. apply set_tree_local_to.
  - apply removeFile_local_to.
  - apply watchVolume_local_to.
  - apply set_worker_local_to, about_watches. intros m k Hk. by rewrite lookup_delete_ne.
  - unfold syncFromRemote. destruct (hasStore w b); [|done].
    destruct (fetchRemoteManifest _ _); [|apply ensure_volume_local_to].
    destruct (volume _ b v); [|apply ensure_volume_local_to].
    etrans; [apply ensure_volume_local_to|]. apply foldl_local_to. intros w' [rel fe]. case_match; [done|].
    unfold downloadFile. repeat case_match; try done. apply atomicWrite_local_to.
  - unfold servePrimary. etrans; [|apply set_worker_local_to, about_repl]. etrans; [|apply watchVolume_local_to].
    etrans; [apply ensure_volume_local_to|]. apply set_worker_local_to, about_targets.
    intros m k Hk. by rewrite lookup_insert_ne.
  - unfold serveReplica. etrans; [apply ensure_volume_local_to|]. apply set_worker_local_to, about_repl.
  - unfold stopVolume. destruct (_ ≫= _); [|done]. etrans; [|apply set_worker_local_to, about_repl].
    etrans; [apply set_worker_local_to, about_targets; intros m k Hk; by rewrite lookup_delete_ne|].
    apply set_worker_local_to, about_watches. intros m k Hk. by rewrite lookup_delete_ne.
  - unfold pullFromPrimary. destruct (peerReachable w primary); [|done].
    destruct (getManifest _ _ _ _); [|done]. destruct (volume w b v); [|done].
    match goal with |- local_to _ _ _ (foldl _ ?w1 _) => transitivity w1 end; apply foldl_local_to.
    + intros w' [rel fe]. case_match; [done|]. unfold pullFile. case_match; [apply atomicWrite_local_to|done].
    + intros w' rel. apply removeFile_local_to.
Qed.

(** *** Runs with one uploader *)

(** What may happen while [a] is the only worker that uploads the volume:
    anything on other volumes, anything but uploads on other workers, and on
    [a] anything that keeps it watching and does not make it a peer of its own. *)
Definition may_step (b v : string) (c : Call) : Prop :=
  if decide (v = vol) then
    if decide (b = a) then
      match c with
      | Unwatch | StopVolume => False
      | ServePrimary peers => a ∉ peers
      | _ => True
      end
    else c ∉ [Flush; Reconcile; SyncTo]
  else str_mem slash v = false.

(** A world and the paths in doubt.  Between the calls the store, the network
    and the watcher may start to fail or to work for anything. *)
Inductive sync_step : SyncWorld * (string -> Prop) -> SyncWorld * (string -> Prop) -> Prop :=
  | vs_call b v c w D : may_step b v c ->
      sync_step (w, D) (step hash b v c w, if decide (b = a /\ v = vol) then doubt c w (step hash b v c w) D else D)
  | vs_world s up seen net now up' seen' net' now' ws D :
      sync_step (mkWorld s up seen net now ws, D) (mkWorld s up' seen' net' now' ws, D).

Lemma ensured_mirrored D w : mirrored D w -> mirrored D (ensure_volume a vol w).
Proof using.
  intros Hm. destruct (up_vol _ (mr_up _ _ Hm)) as [t Hv].
  pose proof (ensure_volume_local_to a vol w) as [E O _].
  assert (volume (ensure_volume a vol w) a vol = volume w a vol /\ watch (ensure_volume a vol w) a vol = watch w a vol
          /\ targets (ensure_volume a vol w) a vol = targets w a vol) as (HV & HW & HT).
  { unfold volume, watch, targets, ensure_volume in *. rewrite workers_set_worker, decide_True by done.
    destruct (wd_workers w !! a) as [[h vs wa ta re]|]; [|done]. simpl in *. by rewrite lookup_partial_alter_eq, Hv. }
  apply (mirrored_ext D w); [apply E|apply O|done|done| |done]. rewrite HT. apply Hm.
Qed.

Lemma servePrimary_mirrored D peers w : a ∉ peers -> mirrored D w -> mirrored D (servePrimary a vol peers w).
Proof using.
  intros Hp Hm. unfold servePrimary. pose proof (mr_up _ _ Hm) as [_ _ [t Hv] [wt Hw]].
  pose proof (ensured_mirrored D w Hm) as Hm1.
  set (w1 := ensure_volume a vol w) in *. set (w2 := set_worker a (on_targets <[vol:=peers]>) w1).
  assert (volume w2 a vol = volume w1 a vol /\ watch w2 a vol = watch w1 a vol) as [HV HW].
  { unfold w2, volume, watch. rewrite workers_set_worker, decide_True by done.
    by destruct (wd_workers w1 !! a) as [[h vs wa ta re]|]. }
  assert (a ∉ targets w2 a vol) as HT.
  { unfold w2, targets. rewrite workers_set_worker, decide_True by done.
    destruct (wd_workers w1 !! a) as [[h vs wa ta re]|]; simpl; [by rewrite lookup_insert_eq|apply not_elem_of_nil]. }
  assert (mirrored D w2) as Hm2.
  { apply (mirrored_ext D w1); [|apply set_worker_objs|done..].
    apply (set_worker_env a vol), about_targets. intros m k Hk. by rewrite lookup_insert_ne. }
  assert (watchVolume a vol w2 = w2) as ->.
  { unfold watchVolume. destruct (mr_up _ _ Hm2) as [_ _ _ [wt2 ->]]. done. }
  apply (mirrored_ext D w2); [by apply (set_worker_env a vol), about_repl|apply set_worker_objs|..|done].
  - unfold volume. rewrite workers_set_worker, decide_True by done. by destruct (wd_workers w2 !! a) as [[h vs wa ta re]|].
  - unfold watch. rewrite workers_set_worker, decide_True by done. by destruct (wd_workers w2 !! a) as [[h vs wa ta re]|].
  - unfold targets. rewrite workers_set_worker, decide_True by done.
    unfold targets in HT. by destruct (wd_workers w2 !! a) as [[h vs wa ta re]|].
Qed.

Lemma serveReplica_mirrored D primary w : mirrored D w -> mirrored D (serveReplica a vol primary w).
Proof using.
  intros Hm. unfold serveReplica. pose proof (ensured_mirrored D w Hm) as Hm1.
  set (w1 := ensure_volume a vol w) in *.
  apply (mirrored_ext D w1); [by apply (set_worker_env a vol), about_repl|apply set_worker_objs|..|done].
  - unfold volume. rewrite workers_set_worker, decide_True by done. by destruct (wd_workers w1 !! a) as [[h vs wa ta re]|].
  - unfold watch. rewrite workers_set_worker, decide_True by done. by destruct (wd_workers w1 !! a) as [[h vs wa ta re]|].
  - pose proof (up_peers _ (mr_up _ _ Hm1)) as HT. unfold targets in *. rewrite workers_set_worker, decide_True by done.
    by destruct (wd_workers w1 !! a) as [[h vs wa ta re]|].
Qed.

Lemma doubt_keeps c w w' (D : string -> Prop) : c <> Flush -> forall rel, D rel -> doubt c w w' D rel.
Proof using. intros Hc rel HD. unfold doubt. rewrite bool_decide_false by naive_solver. by left. Qed.

Lemma own_step_mirrored c w D :
  may_step a vol c -> mirrored D w -> mirrored (doubt c w (step hash a vol c w) D) (step hash a vol c w).
Proof using Hvol.
  unfold may_step. rewrite !decide_True by done. intros Hmay Hm.
  assert (mirrored D (step hash a vol c w) -> c <> Flush ->
    mirrored (doubt c w (step hash a vol c w) D) (step hash a vol c w)) as Hkeep.
  { intros Hk Hc. eapply mirrored_weaken; [|exact Hk]. by apply doubt_keeps. }
  destruct c; simpl in *; try done.
  - by apply moves_mirrored; [apply guestWrite_moves|..].
  - destruct (guestMkdir_stirs rel w). by apply stirs_mirrored.
  - by apply moves_mirrored; [apply removeFile_moves|..].
  - by apply flush_mirrored.
  - apply Hkeep; [by apply reconcile_mirrored|done].
  - apply Hkeep; [|done]. unfold watchVolume. by destruct (mr_up _ _ Hm) as [_ _ _ [wt ->]].
  - apply Hkeep; [by apply syncToRemote_mirrored|done].
  - by apply moves_mirrored; [apply syncFromRemote_moves, Hm|..].
  - apply Hkeep; [by apply servePrimary_mirrored|done].
  - apply Hkeep; [by apply serveReplica_mirrored|done].
  - by apply moves_mirrored; [apply pullFromPrimary_moves|..].
Qed.

Lemma step_mirrored s s' : sync_step s s' -> mirrored s.2 s.1 -> mirrored s'.2 s'.1.
Proof using Hvol.
  intros [b v c w1 D Hmay|st up seen net now up' seen' net' now' ws D] Hm; simpl in *.
  2:{ by apply (mirrored_ext D (mkWorld st up seen net now ws)); [..|apply (mr_up _ _ Hm)|]. }
  case_decide as Hab; [destruct Hab as [-> ->]; by apply own_step_mirrored|].
  unfold may_step in Hmay. destruct (decide (v = vol)) as [->|Hv].
  - rewrite decide_False in Hmay by naive_solver.
    destruct (locals_local_to b vol c w1 Hmay) as [E O L].
    apply (view_mirrored D w1); [done|apply O|apply L; left; naive_solver|done].
  - assert (elsewhere v w1 (step hash b v c w1)) as [E O L].
    { destruct (decide (c ∈ [Flush; Reconcile; SyncTo])); [by apply uploads_elsewhere|].
      by eapply local_to_elsewhere, locals_local_to. }
    apply (view_mirrored D w1); auto.
Qed.

Lemma run_mirrored s s' : rtc sync_step s s' -> mirrored s.2 s.1 -> mirrored s'.2 s'.1.
Proof using Hvol. induction 1; [done|]. intros Hm. by apply IHrtc, step_mirrored with x. Qed.

(** A volume nobody has written yet, on a worker with a store. *)
Record unused (w : SyncWorld) : Prop := {
  un_store : hasStore w a = true;
  un_targets : targets w a vol = [];
  un_volume : volume w a vol = None;
  un_watch : watch w a vol = None;
  un_objs : forall rel, at_key w rel = None
}.
Definition mounted (w : SyncWorld) : SyncWorld := watchVolume a vol (ensure_volume a vol w).

Lemma mounted_mirrored w : unused w -> mirrored (fun _ => False) (mounted w).
Proof using.
  intros [S T V W O]. unfold mounted. set (w1 := ensure_volume a vol w).
  pose proof (ensure_volume_local_to a vol w) as [E1 O1 _].
  assert (volume w1 a vol = Some ∅ /\ watch w1 a vol = None /\ targets w1 a vol = []) as (HV1 & HW1 & HT1).
  { unfold hasStore, volume, watch, targets, w1, ensure_volume in *. rewrite workers_set_worker, decide_True by done.
    destruct (wd_workers w !! a) as [[h vs wa ta re]|]; [|done]. simpl in *.
    by rewrite lookup_partial_alter_eq, V. }
  unfold watchVolume. rewrite HW1, HV1. set (w2 := set_worker a _ w1).
  assert (same_env w1 w2 /\ same_objs vol w1 w2) as [E2 O2].
  { split; [|apply set_worker_objs]. apply set_worker_env with vol, about_watches. intros m k Hk. by rewrite lookup_insert_ne. }
  assert (volume w2 a vol = Some ∅ /\ watch w2 a vol = Some (mkWatch ∅ []) /\ targets w2 a vol = []) as (HV2 & HW2 & HT2).
  { pose proof (se_store _ _ E1 a) as S1. rewrite S in S1. unfold hasStore in S1. fold w1 in S1.
    unfold volume, watch, targets, w2 in *. rewrite workers_set_worker, decide_True by done.
    destruct (wd_workers w1 !! a) as [[h vs wa ta re]|]; [|done]. simpl in *. by rewrite lookup_insert_eq. }
  assert (forall rel, at_key w2 rel = None) as Hk by (intros rel; unfold at_key; rewrite O2; unfold w1; rewrite O1; apply O).
  assert (loadManifest a vol w2 = w2) as ->.
  { unfold loadManifest, fetchRemoteManifest. pose proof (Hk manifestKey) as Hkm. unfold at_key in Hkm.
    rewrite Hkm. destruct (hasStore w2 a); [|done]. by destruct (wd_up w2 (objKey vol manifestKey)). }
  assert (forall rel, here w2 rel = None) as Hh.
  { intros rel. unfold here, entry. rewrite HV2. simpl. by rewrite lookup_empty. }
  assert (forall rel, local_sha w2 rel = None) as Hl.
  { intros rel. unfold local_sha. rewrite HW2. simpl. by rewrite lookup_empty. }
  assert (forall rel, remote_sha w2 rel = None) as Hr.
  { intros rel. unfold remote_sha, remote_manifest. rewrite Hk. by rewrite lookup_empty. }
  assert (forall rel, exact w2 rel) as Hu by (intros rel; unfold exact, uploaded; by rewrite Hk, Hl, Hr, Hh).
  split.
  - split.
    + rewrite (se_store _ _ E2). unfold w1. by rewrite (se_store _ _ E1).
    + rewrite HT2. apply not_elem_of_nil.
    + by rewrite HV2.
    + by rewrite HW2.
  - intros rel _ _ _. apply Hu.
  - intros rel _. by rewrite Hl, Hr.
  - unfold queued_events. rewrite HW2. constructor.
  - intros rel _ _ _. apply Hu.
Qed.

(** *** Starting over *)

(** The directory stays, and the worker goes on watching it; [rel] keeps its
    entry in the watch's manifest. *)
Record steady (rel : string) (w w' : SyncWorld) : Prop := {
  st_env : same_env w w';
  st_vol : volume w' a vol = volume w a vol;
  st_uploader : uploader w -> uploader w';
  st_sha : uploader w -> local_sha w' rel = local_sha w rel
}.
#[local] Instance steady_preorder rel : PreOrder (steady rel).
Proof.
  split; [done|]. intros w1 w2 w3 [E V U S] [E' V' U' S'].
  split; [exact (transitivity E E')|congruence|auto|]. intros Hu. rewrite S' by auto. auto.
Qed.
Lemma touches_steady rel rel' w w' : touches rel' w w' -> rel' <> rel -> steady rel w w'.
Proof. intros Ht Hne. split; [apply Ht|apply Ht|by apply touches_uploader with rel'|intros _; by apply (to_sha _ _ _ Ht)]. Qed.

Lemma forget_fold rel l w :
  uploader w ->
  let w' := foldl forget w l in
  same_env w w' /\ volume w' a vol = volume w a vol /\ uploader w' /\
  local_sha w' rel = if decide (rel ∈ l) then None else local_sha w rel.
Proof using hash Hvol.
  revert w. induction l as [|x l IH]; intros w Hu; simpl.
  { by split_and!. }
  destruct (delete_uploads w x Hu) as (Ht & Hl & _). fold (forget w x) in Ht, Hl.
  pose proof (touches_uploader _ _ _ Ht Hu) as Hu1. destruct (IH (forget w x) Hu1) as (E & V & U & S).
  split_and!; [exact (transitivity (to_env _ _ _ Ht) E)|rewrite V; apply Ht|done|].
  rewrite S. destruct (decide (rel = x)) as [->|Hne].
  - rewrite (decide_True (P := x ∈ x :: l)) by by left. rewrite Hl. by case_decide.
  - rewrite (to_sha _ _ _ Ht) by done. rewrite (decide_ext (rel ∈ x :: l) (rel ∈ l)); [done|].
    rewrite elem_of_cons. naive_solver.
Qed.

Lemma uploadFile_steady rel x w : uploader w -> x <> rel -> steady rel w (uploadFile hash a vol x w).1.
Proof using Hvol.
  intros Hu Hne. destruct (entry w a vol x) as [[m d|]|] eqn:He.
  2,3: unfold uploadFile; by rewrite He.
  destruct (decide (answers w x)) as [Ha|Ha]; [|by rewrite (uploadFile_fails w x m d)].
  apply touches_steady with x; [|done]. by apply (uploadFile_uploads w x m d).
Qed.

Lemma uploads_steady {B} rel (l : list (string * B)) w :
  uploader w -> (forall f, f ∈ l -> f.1 <> rel) ->
  steady rel w (foldl (fun w f => (uploadFile hash a vol f.1 w).1) w l).
Proof using Hvol.
  revert w. induction l as [|f l IH]; intros w Hu Hne; [done|]. simpl.
  pose proof (uploadFile_steady rel f.1 w Hu ltac:(apply Hne; by left)) as Hs.
  etrans; [exact Hs|]. apply IH; [by apply (st_uploader _ _ _ Hs)|]. intros g Hg. apply Hne. by right.
Qed.

(** After a reconciliation the watch's manifest lists no path without a file. *)
Lemma reconcile_lists w t :
  uploader w -> volume w a vol = Some t ->
  let w' := reconcileVolume hash a vol w in
  same_env w w' /\ volume w' a vol = Some t /\ uploader w' /\
  forall rel, is_Some (local_sha w' rel) -> rel ∈ (files t).*1.
Proof using Hvol.
  intros Hu Ht. pose proof Hu as [Hst _ _ [wt Hwt]]. unfold reconcileVolume. rewrite Hst, Hwt, Ht.
  set (w1 := foldl (reconcileFile hash a vol) w (files t)).
  pose proof (reconcile_round w t Hu Ht) as Hr1. fold w1 in Hr1. pose proof (round_uploader _ _ Hr1 Hu) as Hu1.
  destruct (up_watch _ Hu1) as [wt1 Hwt1]. rewrite Hwt1.
  set (gone := filter (fun rel => rel ∉ (files t).*1) (map_to_list (w_manifest wt1)).*1).
  assert (forall rel, is_Some (local_sha (foldl forget w1 gone) rel) -> rel ∈ (files t).*1) as Hl.
  { intros rel. destruct (forget_fold rel gone w1 Hu1) as (_ & _ & _ & ->). case_decide as Hg; [by intros [? ?]|].
    unfold local_sha. rewrite Hwt1. simpl. rewrite fmap_is_Some. intros [fe Hfe].
    destruct (decide (rel ∈ (files t).*1)) as [|Hn]; [done|]. destruct Hg. apply list_elem_of_filter. split; [done|].
    apply list_elem_of_fmap. exists (rel, fe). split; [done|]. by apply elem_of_map_to_list. }
  destruct (forget_fold "" gone w1 Hu1) as (E & V & U & _).
  assert (same_env w (foldl forget w1 gone) /\ volume (foldl forget w1 gone) a vol = Some t) as [E2 V2].
  { split; [exact (transitivity (ro_env _ _ Hr1) E)|]. by rewrite V, (ro_vol _ _ Hr1). }
  change (fun w rel => set_manifest a vol (delete rel) (deleteRemoteFile a vol rel w)) with forget.
  case_bool_decide; [done|]. destruct (save_exact _ U) as (Hts & Hls & _). cbv zeta.
  split_and!; [exact (transitivity E2 (to_env _ _ _ Hts))|by rewrite (to_vol _ _ _ Hts)|by eapply touches_uploader|].
  intros rel. rewrite Hls. apply Hl.
Qed.

(** Whatever was missed before: with a store that works, reconciling and
    synchronising to it puts every file there and lists exactly the files. *)
Lemma starts_over w :
  uploader w -> (forall key, wd_up w key = true) ->
  let w' := syncToRemote hash a vol (reconcileVolume hash a vol w) in
  same_env w w' /\ volume w' a vol = volume w a vol /\
  forall rel, remote_sha w' rel = (if metadata rel then None else hash <$> here w rel) /\
    (metadata rel = false -> is_Some (here w rel) -> at_key w' rel = OFile <$> here w rel).
Proof using Hvol.
  intros Hu Hup. destruct (up_vol _ Hu) as [t Ht]. destruct (reconcile_lists w t Hu Ht) as (E1 & V1 & U1 & L1).
  cbv zeta. set (w1 := reconcileVolume hash a vol w) in *. unfold syncToRemote. rewrite V1.
  destruct (syncTo_round w1 t U1 V1) as [Hr2 Hup2]. set (w2 := foldl _ w1 (files t)) in *.
  pose proof (round_uploader _ _ Hr2 U1) as U2. destruct (save_exact w2 U2) as (Ht3 & _ & Hs3).
  set (w3 := saveManifest a vol w2) in *.
  assert (forall w' key, same_env w w' -> wd_up w' key = true) as Hall by (intros w' key E; by rewrite (se_up _ _ E)).
  pose proof (transitivity E1 (ro_env _ _ Hr2)) as E2. destruct Hs3 as [Hs3 _]; [by apply Hall|].
  assert (forall rel, here w2 rel = here w rel) as Hh.
  { intros rel. unfold here, entry. by rewrite (ro_vol _ _ Hr2), V1, Ht. }
  assert (forall rel, rel ∈ (files t).*1 -> uploaded w2 rel) as Hupl by (intros rel Hrel; apply Hup2; [done|by apply Hall]).
  assert (forall rel, rel ∉ (files t).*1 -> local_sha w2 rel = None) as Hno.
  { intros rel Hrel. assert (steady rel w1 w2) as Hst.
    { apply uploads_steady; [done|]. intros f Hf <-. apply Hrel. by apply list_elem_of_fmap_2. }
    rewrite (st_sha _ _ _ Hst U1). apply eq_None_not_Some. intros Hso. by apply Hrel, L1. }
  split_and!; [exact (transitivity E2 (to_env _ _ _ Ht3))|by rewrite (to_vol _ _ _ Ht3), (ro_vol _ _ Hr2), V1|].
  intros rel. rewrite Hs3. destruct (decide (rel ∈ (files t).*1)) as [Hin|Hnin].
  - destruct (Hupl rel Hin) as [H1 H2]. pose proof (proj1 (files_fst t rel) Hin) as [_ Hm]. rewrite H2, Hm, Hh.
    split; [done|]. intros _ _. rewrite (to_objs _ _ _ Ht3) by (intros ->; by vm_compute in Hm). by rewrite H1, Hh.
  - rewrite (Hno rel Hnin). rewrite files_fst in Hnin. unfold here, entry. rewrite Ht. simpl.
    destruct (metadata rel) eqn:Hm; [by split|]. destruct (content (t !! rel)) as [d|]; [destruct Hnin; eauto|].
    split; [done|]. by intros _ [? ?].
Qed.
End Mirror.

(** ** Receiving files *)

Lemma foldl_eq {A B} (R : A -> Prop) (f g : A -> B -> A) (l : list B) (w : A) :
  R w -> (forall w x, x ∈ l -> R w -> f w x = g w x /\ R (g w x)) -> foldl f w l = foldl g w l.
Proof.
  revert w. induction l as [|x l IH]; intros w Hw Hf; [done|]. simpl.
  destruct (Hf w x) as [-> Hr]; [by left|done|]. apply IH; [done|]. intros w' y Hy. apply Hf. by right.
Qed.

Lemma foldl_keys {A K V} (g : A -> K -> A) (l : list (K * V)) (w : A) :
  foldl (fun w e => g w e.1) w l = foldl g w l.*1.
Proof. revert w. induction l as [|e l IH]; intros w; [done|]. simpl. apply IH. Qed.

Lemma tmpPath_ne rel : tmpPath rel <> rel.
Proof.
  unfold tmpPath. intros Heq. apply (f_equal String.length) in Heq. rewrite str_length_app in Heq. simpl in Heq. lia.
Qed.

Section Receive.
Context (b vol : string).

Definition held (w : SyncWorld) (rel : string) : option string := content (entry w b vol rel).
Definition no_dirs (w : SyncWorld) : Prop := forall rel, entry w b vol rel <> Some EDir.

Lemma atomicWrite_entry cl rel d w r :
  is_Some (volume w b vol) -> no_dirs w ->
  entry (atomicWrite cl b vol rel d w) b vol r
  = if decide (r = rel) then Some (EFile (wd_now w) d)
    else if decide (r = tmpPath rel) then None else entry w b vol r.
Proof.
  intros [t Ht] Hnd. unfold atomicWrite.
  assert (forall e, entry w b vol e <> Some EDir -> is_EDir (entry w b vol e) = false) as Hed.
  { intros e He. destruct (entry w b vol e) as [[]|]; [done|done|done]. }
  rewrite !Hed by apply Hnd.
  rewrite (requeued_entry b vol _ _ r (event_requeued b vol rel _)).
  rewrite (requeued_entry b vol _ _ r (event_requeued b vol (tmpPath rel) _)).
  rewrite entry_set_tree, Ht. simpl. case_decide as Hr; [subst; by rewrite lookup_insert_eq|].
  rewrite lookup_insert_ne by done. case_decide as Hr2; [subst; by rewrite lookup_delete_eq|].
  rewrite lookup_delete_ne by done. unfold entry. by rewrite Ht.
Qed.
Lemma atomicWrite_volume cl rel d w :
  is_Some (volume w b vol) -> is_Some (volume (atomicWrite cl b vol rel d w) b vol).
Proof. destruct (atomicWrite_moves b vol cl rel d w) as [Hs _]. apply (mv_vol _ _ _ _ Hs). Qed.

(** One download, from a source that does not change. *)
Definition recv (skip : string -> bool) (src : string -> option string) (w : SyncWorld) (rel : string) : SyncWorld :=
  if skip rel then w
  else match src rel with Some d => atomicWrite false b vol rel d w | None => w end.

Lemma recv_local_to skip src w rel : local_to b vol w (recv skip src w rel).
Proof. unfold recv. case_match; [done|]. case_match; [apply atomicWrite_local_to|done]. Qed.

Definition received (skip : string -> bool) (src : string -> option string) (w : SyncWorld) (rel : string) : option string :=
  if skip rel then held w rel else match src rel with Some d => Some d | None => held w rel end.

Lemma recv_step skip src w rel :
  is_Some (volume w b vol) -> no_dirs w ->
  is_Some (volume (recv skip src w rel) b vol) /\ no_dirs (recv skip src w rel) /\
  forall r, held (recv skip src w rel) r
    = if decide (r = rel) then received skip src w rel
      else if decide (r = tmpPath rel) then (if skip rel then held w r else match src rel with Some _ => None | None => held w r end)
      else held w r.
Proof.
  intros Hv Hnd. unfold recv, received. destruct (skip rel); [|destruct (src rel) as [d|]].
  - split_and!; [done|done|]. intros r. repeat case_decide; by subst.
  - split_and!; [by apply atomicWrite_volume|..].
    + intros r. rewrite atomicWrite_entry by done. by repeat case_decide.
    + intros r. unfold held. rewrite atomicWrite_entry by done. by repeat case_decide.
  - split_and!; [done|done|]. intros r. repeat case_decide; by subst.
Qed.

Lemma recv_fold skip src l w :
  is_Some (volume w b vol) -> no_dirs w -> (forall x, x ∈ l -> tmpPath x ∉ l) ->
  let w' := foldl (recv skip src) w l in
  is_Some (volume w' b vol) /\ no_dirs w' /\
  (forall r, r ∈ l -> held w' r = received skip src w r) /\
  (forall r, r ∉ l -> held w' r = held w r \/ held w' r = None /\ exists x, x ∈ l /\ r = tmpPath x).
Proof.
  revert w. induction l as [|x l IH]; intros w Hv Hnd Htmp; simpl.
  { split_and!; [done|done| |by left]. intros r Hr. by apply elem_of_nil in Hr. }
  destruct (recv_step skip src w x Hv Hnd) as (Hv1 & Hnd1 & Hh1). set (w1 := recv skip src w x) in *.
  destruct (IH w1 Hv1 Hnd1) as (Hv2 & Hnd2 & Hin2 & Hout2).
  { intros y Hy Hty. apply (Htmp y); by right. }
  assert (forall r, r <> x -> r <> tmpPath x -> held w1 r = held w r) as Hsame.
  { intros r H1 H2. rewrite Hh1. by rewrite !decide_False. }
  split_and!; [done|done| |].
  - intros r Hr. destruct (decide (r ∈ l)) as [Hl|Hl].
    + rewrite Hin2 by done. unfold received. destruct (decide (r = x)) as [->|Hne].
      * rewrite Hh1, decide_True by done. unfold received. by destruct (skip x), (src x).
      * rewrite Hsame; [done..|]. intros ->. apply (Htmp x); [by left|by right].
    + apply elem_of_cons in Hr as [->|]; [|done]. destruct (Hout2 x Hl) as [->|(_ & y & Hy & Hxy)].
      * by rewrite Hh1, decide_True.
      * destruct (Htmp y); [by right|]. rewrite <-Hxy. by left.
  - intros r Hr. apply not_elem_of_cons in Hr as [Hne Hl]. destruct (Hout2 r Hl) as [->|(-> & y & Hy & ->)].
    + destruct (decide (r = tmpPath x)) as [->|Hnt]; [|left; by apply Hsame].
      rewrite Hh1, decide_False, decide_True by done.
      destruct (skip x); [by left|]. destruct (src x); [|by left].
      right. split; [done|]. exists x. split; [by left|done].
    + right. split; [done|]. exists y. split; [by right|done].
Qed.

Lemma removeFile_held w rel r :
  no_dirs w -> held (removeFile b vol rel w) r = if decide (r = rel) then None else held w r.
Proof.
  intros Hnd. unfold removeFile. destruct (volume w b vol) as [t|] eqn:Ht.
  2:{ unfold held, entry. rewrite Ht. by case_decide. }
  destruct (t !! rel) as [[m d|]|] eqn:Hr.
  - unfold held. rewrite (requeued_entry b vol _ _ r (event_requeued b vol rel _)), entry_set_tree, Ht. simpl.
    case_decide; [subst; by rewrite lookup_delete_eq|]. rewrite lookup_delete_ne by done. unfold entry. by rewrite Ht.
  - destruct (Hnd rel). unfold entry. by rewrite Ht.
  - case_decide; [|done]. subst. unfold held, entry. rewrite Ht. simpl. by rewrite Hr.
Qed.
Lemma removeFile_no_dirs w rel : no_dirs w -> no_dirs (removeFile b vol rel w).
Proof.
  intros Hnd r. unfold removeFile. destruct (volume w b vol) as [t|] eqn:Ht; [|apply Hnd].
  destruct (t !! rel) as [[m d|]|] eqn:Hr; [|destruct (Hnd rel); unfold entry; by rewrite Ht|apply Hnd].
  rewrite (requeued_entry b vol _ _ r (event_requeued b vol rel _)), entry_set_tree, Ht. simpl.
  intros [_ Hl]%lookup_delete_Some. apply (Hnd r). unfold entry. by rewrite Ht.
Qed.
Lemma remove_fold l w r :
  no_dirs w -> held (foldl (fun w rel => removeFile b vol rel w) w l) r = if decide (r ∈ l) then None else held w r.
Proof.
  revert w. induction l as [|x l IH]; intros w Hnd; [done|]. simpl.
  rewrite IH by by apply removeFile_no_dirs. rewrite removeFile_held by done.
  rewrite (decide_ext (r ∈ x :: l) (r = x \/ r ∈ l)) by apply elem_of_cons.
  repeat case_decide; naive_solver.
Qed.
End Receive.

(** ** Handing a volume over *)

Lemma prefix_of_app p s t :
  HasPrefix (s +:+ t) p = true -> HasPrefix s p = true \/ exists p', p = s +:+ p' /\ HasPrefix t p' = true.
Proof.
  revert p. induction s as [|c s IH]; intros p; [rewrite str_app_nil_l; intros Hp; right; exists p; by rewrite str_app_nil_l|].
  destruct p as [|d p]; [by left|]. rewrite str_app_cons. unfold HasPrefix in *. simpl.
  destruct (ascii_dec d c) as [->|]; [|done]. intros [Hp|(p' & -> & Hp)]%IH; [by left|right].
  exists p'. by rewrite str_app_cons.
Qed.

Lemma metadata_tmp rel : metadata rel = false -> metadata (tmpPath rel) = false.
Proof.
  unfold metadata, tmpPath. intros Hm. apply not_true_iff_false. intros Hp.
  destruct (prefix_of_app _ _ _ Hp) as [?|(p & Heq & Hpt)]; [congruence|]. clear Hp.
  do 8 (destruct rel as [|? rel]; [rewrite str_app_nil_l in Heq; subst p; discriminate Hpt|
        rewrite str_app_cons in Heq; injection Heq as <- Heq]).
  unfold HasPrefix in Hm. simpl in Hm. by destruct rel.
Qed.

(** No file has the name another one is downloaded under. *)
Definition no_tmp (files : string -> option string) : Prop :=
  forall rel, is_Some (files rel) -> files (tmpPath rel) = None.

Lemma ensure_volume_new b vol w :
  is_Some (wd_workers w !! b) -> volume w b vol = None -> volume (ensure_volume b vol w) b vol = Some ∅.
Proof.
  unfold volume, ensure_volume. rewrite workers_set_worker, decide_True by done.
  intros [[h vs wa ta re] ->]. simpl. intros Hv. rewrite lookup_partial_alter_eq. by rewrite Hv.
Qed.

Section Handover.
Context (hash : string -> string).

Lemma syncFromRemote_held (b vol : string) (w : SyncWorld) (m : Manifest) (t : Tree) :
  hasStore w b = true -> (forall key, wd_up w key = true) -> volume (ensure_volume b vol w) b vol = Some t ->
  at_key vol w manifestKey = Some (OManifest m) -> no_dirs b vol (ensure_volume b vol w) ->
  (forall rel, is_Some (m !! rel) -> m !! tmpPath rel = None) ->
  let skip rel := match m !! rel with Some fe => sameHash (buildLocalManifest hash t) rel fe | None => false end in
  let src rel := match at_key vol w rel with Some (OFile d) => Some d | _ => None end in
  let w' := syncFromRemote hash b vol w in
  (forall r, is_Some (m !! r) -> held b vol w' r = received b vol skip src (ensure_volume b vol w) r) /\
  (forall r, m !! r = None -> held b vol w' r = held b vol (ensure_volume b vol w) r \/ held b vol w' r = None).
Proof.
  intros Hst Hup Ht Hm Hnd Htmp. cbv zeta.
  pose proof (ensure_volume_local_to b vol w) as [E O _]. set (w1 := ensure_volume b vol w) in *.
  assert (fetchRemoteManifest vol w1 = Some m) as Hf.
  { unfold fetchRemoteManifest. rewrite (se_up _ _ E), Hup. unfold at_key in Hm. by rewrite (O vol), Hm. }
  unfold syncFromRemote. rewrite Hst. fold w1. rewrite Hf, Ht.
  set (skip := fun rel => match m !! rel with Some fe => sameHash (buildLocalManifest hash t) rel fe | None => false end).
  set (src := fun rel => match at_key vol w rel with Some (OFile d) => Some d | _ => None end).
  assert (foldl (fun w '(rel, fe) => if sameHash (buildLocalManifest hash t) rel fe then w else downloadFile b vol w rel)
            w1 (map_to_list m) = foldl (recv b vol skip src) w1 (map_to_list m).*1) as ->.
  { rewrite <-foldl_keys. apply (foldl_eq (local_to b vol w1)); [done|].
    intros w2 [rel fe] Hin Hl. apply elem_of_map_to_list in Hin. simpl. split.
    - unfold recv, skip. rewrite Hin. case_match; [done|]. unfold downloadFile, src, at_key.
      rewrite (se_up _ _ (lt_env _ _ _ _ Hl)), (se_up _ _ E), Hup, (lt_objs _ _ _ _ Hl vol), (O vol).
      destruct (wd_store w !! objKey vol rel) as [[]|]; done.
    - etrans; [exact Hl|apply recv_local_to]. }
  destruct (recv_fold b vol skip src (map_to_list m).*1 w1) as (_ & _ & Hin & Hout); [by rewrite Ht|done| |].
  { intros x Hx Hy. apply list_elem_of_fmap in Hx as ([x' f] & -> & Hx), Hy as ([y f'] & Hy & Hin).
    apply elem_of_map_to_list in Hx, Hin. simpl in *. subst y. rewrite Htmp in Hin; [done|by eexists]. }
  split.
  - intros r [fe Hr]. apply Hin. apply list_elem_of_fmap. exists (r, fe). by rewrite elem_of_map_to_list.
  - intros r Hr. destruct (Hout r) as [->|[-> _]]; [|by left|by right].
    intros (e & -> & He)%list_elem_of_fmap. destruct e as [r f]. apply elem_of_map_to_list in He. simpl in Hr. congruence.
Qed.

(** A worker without the volume's directory that synchronises from a store
    which answers, and lists exactly the files [h], gets exactly them. *)
Lemma download_exact (b vol : string) (w : SyncWorld) (h : string -> option string) :
  hasStore w b = true -> (forall key, wd_up w key = true) -> volume w b vol = None -> no_tmp h ->
  (forall rel, remote_sha vol w rel = if metadata rel then None else hash <$> h rel) ->
  (forall rel, metadata rel = false -> is_Some (h rel) -> at_key vol w rel = OFile <$> h rel) ->
  forall rel, metadata rel = false -> content (entry (syncFromRemote hash b vol w) b vol rel) = h rel.
Proof.
  intros Hst Hup Hvb Htmp Hlist Hobj rel Hr. fold (held b vol (syncFromRemote hash b vol w) rel).
  assert (volume (ensure_volume b vol w) b vol = Some ∅) as Hempty.
  { apply ensure_volume_new; [|done]. unfold hasStore in Hst. by destruct (wd_workers w !! b). }
  assert (forall r, entry (ensure_volume b vol w) b vol r = None) as Hno.
  { intros r. unfold entry. rewrite Hempty. simpl. by rewrite lookup_empty. }
  destruct (at_key vol w manifestKey) as [[d|m]|] eqn:Hman.
  2:{ assert (forall r, is_Some (m !! r) <-> metadata r = false /\ is_Some (h r)) as Hkeys.
      { intros r. specialize (Hlist r). unfold remote_sha, remote_manifest in Hlist. rewrite Hman in Hlist.
        destruct (m !! r), (metadata r), (h r); naive_solver. }
      destruct (syncFromRemote_held b vol w m ∅ Hst Hup Hempty Hman) as [Hin Hout].
      - intros r. by rewrite Hno.
      - intros r Hmr. apply Hkeys in Hmr as [Hmr Hsome]. apply eq_None_not_Some. rewrite Hkeys.
        rewrite (Htmp r Hsome). by intros [_ [? ?]].
      - destruct (h rel) as [d|] eqn:Hd.
        + destruct (proj2 (Hkeys rel)) as [fe Hfe]; [rewrite Hd; eauto|]. rewrite Hin by by eexists.
          unfold received. rewrite Hfe. unfold sameHash. rewrite buildLocalManifest_lookup, lookup_empty.
          by rewrite Hobj, Hd by (done || rewrite Hd; eauto).
        + assert (m !! rel = None) as Hnone.
          { apply eq_None_not_Some. rewrite Hkeys, Hd. by intros [_ [? ?]]. }
          destruct (Hout rel Hnone) as [->| ->]; [|done]. unfold held. by rewrite Hno. }
  all: assert (syncFromRemote hash b vol w = ensure_volume b vol w) as ->
    by (unfold syncFromRemote, fetchRemoteManifest; rewrite Hst;
        pose proof (ensure_volume_local_to b vol w) as [E O _]; rewrite (se_up _ _ E), Hup, (O vol);
        unfold at_key in Hman; by rewrite Hman).
  all: specialize (Hlist rel); rewrite Hr in Hlist; unfold remote_sha, remote_manifest in Hlist;
       rewrite Hman, lookup_empty in Hlist.
  all: unfold held; rewrite Hno; by destruct (h rel).
Qed.

(** Any worker without the volume's directory that synchronises from the store
    gets exactly the files of [a]; none of them may be named like the temporary
    file of another. *)
Definition hands_over (a vol : string) (w : SyncWorld) : Prop :=
  forall b, hasStore w b = true -> volume w b vol = None -> no_tmp (here a vol w) ->
  forall rel, metadata rel = false -> content (entry (syncFromRemote hash b vol w) b vol rel) = here a vol w rel.

(** C32 A volume can be handed over.  Take any run in which a worker with a
    store mounts an unused volume, watches it throughout, is no peer of its own
    and is the only one to upload it, whatever its guest, its peers, other
    workers and other volumes do, for whatever paths the events of changes are
    lost, and for whatever keys the store fails in between.  A path that does
    not wait for its event is exact - its object is its file, or there is
    neither, and the saved manifest lists it with its hash, or not - unless it
    is in doubt ([doubt]: since it was last handled well, a change to it had its
    event lost, or it was handled while the store refused it or the manifest,
    or a directory was made where a removal waited).  Handling the events
    changes no file and leaves no path waiting; with a store that works it puts
    no path in doubt and settles those it handles that are no directories.
    When no path is in doubt after that, and the store works, a worker without
    the volume's directory that synchronises from the store gets exactly the
    files, if none is named like the temporary file of another.  And whatever
    is in doubt: a reconciliation and a synchronisation to a store that works
    change no file, put every file there, list exactly the files, and hand the
    volume over. *)
Theorem volume_handover (a vol : string) (w0 w : SyncWorld) (D : string -> Prop) :
  str_mem slash vol = false -> unused a vol w0 ->
  rtc (sync_step hash a vol) (mounted a vol w0, fun _ => False) (w, D) ->
  let w1 := flush hash a vol w in
  let D1 := doubt a vol Flush w w1 D in
  let w2 := syncToRemote hash a vol (reconcileVolume hash a vol w) in
  (forall rel, metadata rel = false -> ~ D rel -> rel ∉ queued_events a vol w -> exact hash a vol w rel) /\
  (forall rel, metadata rel = false -> ~ D1 rel -> exact hash a vol w1 rel) /\
  queued_events a vol w1 = [] /\ volume w1 a vol = volume w a vol /\
  ((forall key, wd_up w key = true) ->
     (forall rel, D1 rel -> D rel /\ (rel ∈ queued_events a vol w -> entry w a vol rel = Some EDir)) /\
     ((forall rel, metadata rel = false -> ~ D1 rel) -> hands_over a vol w1) /\
     volume w2 a vol = volume w a vol /\
     (forall rel, metadata rel = false -> remote_sha vol w2 rel = hash <$> here a vol w rel /\
        (is_Some (here a vol w rel) -> at_key vol w2 rel = OFile <$> here a vol w rel)) /\
     hands_over a vol w2).
Proof.
  intros Hvol Hun Hrun w1 D1 w2.
  assert (mirrored hash a vol D w) as Hm.
  { apply (run_mirrored hash a vol Hvol _ _ Hrun). simpl. by apply mounted_mirrored. }
  destruct (flush_mirrored hash a vol Hvol D w Hm) as (Hm1 & Hp1 & Hv1 & E1). fold w1 in Hm1, Hp1, Hv1, E1. fold D1 in Hm1.
  assert (forall rel, metadata rel = false -> ~ D1 rel -> exact hash a vol w1 rel) as Hex1.
  { intros rel Hr HD. apply (mr_sync _ _ _ _ _ Hm1); [done|done|]. rewrite Hp1. by intros ?%elem_of_nil. }
  split; [apply Hm|]. split; [exact Hex1|]. split; [exact Hp1|]. split; [exact Hv1|]. intros Hup.
  pose proof (mr_up _ _ _ _ _ Hm) as Hu.
  destruct (starts_over hash a vol Hvol w Hu Hup) as (E2 & V2 & H2). fold w2 in E2, V2, H2.
  assert (forall rel, here a vol w2 rel = here a vol w rel) as Hh2 by (intros rel; unfold here, entry; by rewrite V2).
  split; [|split; [|split; [exact V2|split]]].
  - intros rel. unfold D1, doubt, answers. case_bool_decide as Hb.
    + rewrite !Hup. intros [Hn|[Hn|[HD He]]]; [by destruct Hn..|]. by split.
    + intros [HD|[Hc _]]; [|destruct Hc; unfold entry; by rewrite Hv1]. split; [done|]. intros Hin. by destruct Hb.
  - intros HD b Hst Hvb Htmp rel Hr. apply download_exact; [done| |done|done|..|done].
    + intros key. by rewrite (se_up _ _ E1).
    + intros r. destruct (metadata r) eqn:Hmr; [by apply Hm1|]. by apply Hex1, HD.
    + intros r Hmr _. by apply Hex1, HD.
  - intros rel Hr. destruct (H2 rel) as [H3 H4]. rewrite Hr in H3. split; [done|]. by apply H4.
  - intros b Hst Hvb Htmp rel Hr. apply download_exact; [done|by rewrite (se_up _ _ E2)|done|done|..|done].
    + intros r. rewrite Hh2. apply H2.
    + intros r. rewrite Hh2. apply H2.
Qed.

(** A replica that pulls from a primary it reaches has the primary's files
    afterwards, each with its content, and none else; the primary is as
    before.  The names must pass the handlers' check, none may be another's
    temporary name, and the hashes must tell the contents apart. *)
Theorem replica_exact (p b vol : string) (w : SyncWorld) (tp tb : Tree) :
  peerReachable w p = true -> p <> b -> volume w p vol = Some tp -> volume w b vol = Some tb ->
  no_dirs b vol w ->
  (forall rel, is_Some (content (tp !! rel)) -> metadata rel = false -> checkedPath rel = Some rel) ->
  no_tmp (fun rel => if metadata rel then None else content (tp !! rel)) ->
  (forall rel d d', content (tp !! rel) = Some d -> content (tb !! rel) = Some d' -> hash d = hash d' -> d = d') ->
  let w' := pullFromPrimary hash b vol p w in
  volume w' p vol = Some tp /\
  forall rel, metadata rel = false -> content (entry w' b vol rel) = content (tp !! rel).
Proof.
  intros Hre Hpb Htp Htb Hnd Hpath Htmp Hhash w'.
  assert (local_to b vol w w') as [_ _ L] by (apply (locals_local_to hash b vol (Pull p)); set_solver).
  split; [rewrite (sl_vol _ _ _ _ (L p vol (or_introl Hpb))); done|].
  intros r Hr. fold (held b vol w' r). unfold w', pullFromPrimary, getManifest. rewrite Hre, Htp, Htb. simpl.
  set (remote := buildLocalManifest hash tp). set (local := buildLocalManifest hash tb).
  set (skip := fun rel => match remote !! rel with Some fe => sameHash local rel fe | None => false end).
  set (src := fun rel => content (tp !! rel)).
  assert (forall rel, is_Some (remote !! rel) <-> metadata rel = false /\ is_Some (src rel)) as Hkeys.
  { intros rel. unfold remote, src. rewrite buildLocalManifest_lookup.
    destruct (tp !! rel) as [[m d|]|]; simpl; [destruct (metadata rel)|..]; naive_solver. }
  assert (foldl (fun w '(rel, fe) => if sameHash local rel fe then w else pullFile b vol p w rel) w (map_to_list remote)
          = foldl (recv b vol skip src) w (map_to_list remote).*1) as ->.
  { rewrite <-foldl_keys. apply (foldl_eq (local_to b vol w)); [done|].
    intros w2 [rel fe] Hin Hl. apply elem_of_map_to_list in Hin. simpl. split.
    - unfold recv, skip. rewrite Hin. case_match; [done|]. unfold pullFile, getFile.
      destruct (proj1 (Hkeys rel)) as [Hm Hs]; [by eexists|]. rewrite (Hpath rel Hs Hm). simpl.
      unfold entry. rewrite (sl_vol _ _ _ _ (lt_local _ _ _ _ Hl p vol (or_introl Hpb))), Htp. simpl.
      unfold src. by destruct (tp !! rel) as [[]|].
    - etrans; [exact Hl|apply recv_local_to]. }
  assert (forall rel, rel ∈ (map_to_list remote).*1 <-> is_Some (remote !! rel)) as Helem.
  { intros rel. rewrite list_elem_of_fmap. split.
    - intros ([x fe] & -> & Hin). apply elem_of_map_to_list in Hin. by eexists.
    - intros [fe Hfe]. exists (rel, fe). by rewrite elem_of_map_to_list. }
  destruct (recv_fold b vol skip src (map_to_list remote).*1 w) as (_ & Hnd1 & Hin & Hout); [by rewrite Htb|done| |].
  { intros x. rewrite !Helem, !Hkeys. intros [Hm Hs] [Hm' Hs']. pose proof (Htmp x) as Hx. cbv beta in Hx.
    rewrite Hm, (metadata_tmp x Hm) in Hx. unfold src in *. rewrite (Hx Hs) in Hs'. by destruct Hs'. }
  rewrite remove_fold by done. destruct (content (tp !! r)) as [d|] eqn:Hd.
  - assert (is_Some (remote !! r)) as Hkr by (apply Hkeys; unfold src; rewrite Hd; eauto).
    rewrite decide_False.
    2:{ rewrite list_elem_of_filter. intros [Hno _]. rewrite Hno in Hkr. by destruct Hkr. }
    rewrite Hin by by apply Helem. unfold received. destruct (skip r) eqn:Hskip; [|unfold src; by rewrite Hd].
    unfold held, entry. rewrite Htb. simpl. destruct Hkr as [fe Hfe]. unfold skip in Hskip. rewrite Hfe in Hskip.
    unfold sameHash in Hskip. pose proof (buildLocalManifest_sha hash tp r Hr) as Hs1.
    pose proof (buildLocalManifest_sha hash tb r Hr) as Hs2. fold remote in Hs1. fold local in Hs2.
    rewrite Hfe, Hd in Hs1. destruct (local !! r) as [l|]; [|done]. bool_props.
    destruct (content (tb !! r)) as [d'|] eqn:Hd'; [|done]. simplify_eq/=.
    f_equal. symmetry. apply (Hhash r); congruence.
  - assert (~ is_Some (remote !! r)) as Hkr.
    { rewrite Hkeys. unfold src. rewrite Hd. by intros [_ [? ?]]. }
    case_decide as Hg; [done|].
    destruct (Hout r) as [->|[-> _]]; [by rewrite Helem| |done].
    unfold held, entry. rewrite Htb. simpl. destruct (content (tb !! r)) as [d'|] eqn:Hd'; [|done]. destruct Hg.
    apply list_elem_of_filter. split; [by apply eq_None_not_Some|].
    apply list_elem_of_fmap. destruct (tb !! r) as [[m dd|]|] eqn:Ht; simplify_eq/=.
    exists (r, file_entry hash m d'). split; [done|]. apply elem_of_map_to_list.
    unfold local. by rewrite buildLocalManifest_lookup, Ht, Hr.
Qed.
End Handover.

(** ** Witnesses *)

Definition plain_hash (d : string) : string := d.
Definition demo_worker : SyncWorker := mkWorker true ∅ ∅ ∅ ∅.
Definition demo_world : SyncWorld :=
  mkWorld ∅ (fun _ => true) (fun _ => true) ["a"; "b"; "c"] 7000000000 {["a" := demo_worker; "b" := demo_worker; "c" := demo_worker]}.
(** A run of steps. *)
Definition playCalls (w : SyncWorld) (l : list (string * Call)) : SyncWorld :=
  foldl (fun w '(b, c) => step plain_hash b "v" c w) w l.
(** The file [rel] of volume [v] on a worker. *)
Definition file_of (w : SyncWorld) (b rel : string) : option string := content (entry w b "v" rel).

Lemma demo_unused : unused "a" "v" demo_world.
Proof. split; try (by vm_compute). Qed.

(** A store that answers for no key, and a watcher that learns of nothing. *)
Definition failing (w : SyncWorld) : SyncWorld :=
  let '(mkWorld s _ _ net now ws) := w in mkWorld s (fun _ => false) (fun _ => false) net now ws.
Definition working (w : SyncWorld) : SyncWorld :=
  let '(mkWorld s _ _ net now ws) := w in mkWorld s (fun _ => true) (fun _ => true) net now ws.
Definition demo_mounted : SyncWorld := mounted "a" "v" demo_world.
Definition demo_written : SyncWorld := playCalls demo_mounted [("a", GuestWrite "x" "one")].
(** The upload of [x] fails and the event of [y] is lost. *)
Definition demo_missed : SyncWorld :=
  working (playCalls (failing demo_written) [("a", Flush); ("a", GuestWrite "y" "two")]).

Lemma no_tmp_single (h : string -> option string) (x y : string) :
  (forall rel, is_Some (h rel) -> rel = x \/ rel = y) -> h (tmpPath x) = None -> h (tmpPath y) = None -> no_tmp h.
Proof. intros Hh Hx Hy rel Hrel. by destruct (Hh rel Hrel) as [->| ->]. Qed.

Lemma demo_step b c w D :
  may_step "a" "v" b "v" c ->
  sync_step plain_hash "a" "v" (w, D)
    (step plain_hash b "v" c w,
     if decide (b = "a" /\ "v" = "v") then doubt "a" "v" c w (step plain_hash b "v" c w) D else D).
Proof. apply (vs_call plain_hash "a" "v" b "v" c). Qed.

(** Once without failures, and once from what a failing store and a lost event left. *)
Lemma volume_handover_witness :
  (exists D, rtc (sync_step plain_hash "a" "v") (demo_mounted, fun _ => False) (demo_written, D) /\
     file_of (syncFromRemote plain_hash "b" "v" (flush plain_hash "a" "v" demo_written)) "b" "x" = Some "one") /\
  (exists D, rtc (sync_step plain_hash "a" "v") (demo_mounted, fun _ => False) (demo_missed, D) /\
     let w2 := syncToRemote plain_hash "a" "v" (reconcileVolume plain_hash "a" "v" demo_missed) in
     file_of (syncFromRemote plain_hash "b" "v" w2) "b" "x" = Some "one" /\
     file_of (syncFromRemote plain_hash "b" "v" w2) "b" "y" = Some "two").
Proof.
  assert (exists D, rtc (sync_step plain_hash "a" "v") (demo_mounted, fun _ => False) (demo_written, D) /\
            (forall rel, ~ doubt "a" "v" Flush demo_written (flush plain_hash "a" "v" demo_written) D rel))
    as (D & Hrun & HD).
  { eexists. split; [eapply rtc_l; [by apply (demo_step "a" (GuestWrite "x" "one"))|apply rtc_refl]|].
    assert (queued_events "a" "v" demo_written = ["x"]) as Hq by (by vm_compute).
    assert (volume (flush plain_hash "a" "v" demo_written) "a" "v" = volume demo_written "a" "v") as Hv by (by vm_compute).
    assert (volume demo_written "a" "v" = Some {["x" := EFile 7000000000 "one"]}) as Hv1 by (by vm_compute).
    assert (volume demo_mounted "a" "v" = Some ∅) as Hv0 by (by vm_compute).
    intros rel. unfold doubt at 1. rewrite Hq. case_bool_decide as Hb.
    - destruct Hb as [_ ->%list_elem_of_singleton]. intros [Hn|[Hn|[_ Hn]]]; [by apply Hn; vm_compute..|by vm_compute in Hn].
    - intros [Hd|[Hc _]]; [|by destruct Hc; unfold entry; rewrite Hv].
      rewrite decide_True in Hd by done. destruct Hd as [[]|[Hc _]].
      assert (rel <> "x") as Hne by (intros ->; apply Hb; split; [done|by left]).
      apply Hc. unfold entry. change (volume (step _ _ _ _ _) "a" "v") with (volume demo_written "a" "v").
      rewrite Hv1, Hv0. simpl. by rewrite lookup_singleton_ne, lookup_empty by done. }
  split; [exists D; split; [exact Hrun|]|].
  - destruct (volume_handover plain_hash "a" "v" demo_world _ _ eq_refl demo_unused Hrun) as (_ & _ & _ & Hv1 & H).
    destruct H as (_ & H & _); [done|]. unfold file_of. rewrite H; [by vm_compute|auto|by vm_compute..| |by vm_compute].
    apply no_tmp_single with "x" "x"; [|by vm_compute..]. intros rel. unfold here, entry. rewrite Hv1.
    assert (volume demo_written "a" "v" = Some {["x" := EFile 7000000000 "one"]}) as -> by (by vm_compute). simpl.
    destruct (decide (rel = "x")) as [->|Hne]; [by left|]. rewrite lookup_singleton_ne by done. by intros [? ?].
  - assert (exists D', rtc (sync_step plain_hash "a" "v") (demo_mounted, fun _ => False) (demo_missed, D')) as (D' & Hrun').
    { eexists. etrans; [exact Hrun|]. eapply rtc_l; [apply (vs_world _ _ _ _ _ _ _ _ (fun _ => false) (fun _ => false))|].
      eapply rtc_l; [by apply (demo_step "a" Flush)|]. eapply rtc_l; [by apply (demo_step "a" (GuestWrite "y" "two"))|].
      eapply rtc_l; [apply (vs_world _ _ _ _ _ _ _ _ (fun _ => true) (fun _ => true))|apply rtc_refl]. }
    exists D'. split; [exact Hrun'|].
    destruct (volume_handover plain_hash "a" "v" demo_world _ _ eq_refl demo_unused Hrun') as (_ & _ & _ & _ & H).
    destruct H as (_ & _ & Hv2 & _ & H); [done|]. cbv zeta. set (w2 := syncToRemote _ _ _ _) in *.
    assert (no_tmp (here "a" "v" w2)) as Htmp.
    { apply no_tmp_single with "x" "y"; [|by vm_compute..]. intros rel. unfold here, entry. rewrite Hv2.
      assert (volume demo_missed "a" "v" = Some {["x" := EFile 7000000000 "one"; "y" := EFile 7000000000 "two"]}) as ->
        by (by vm_compute). simpl.
      destruct (decide (rel = "x")) as [->|Hne]; [by left|]. rewrite lookup_insert_ne by done.
      destruct (decide (rel = "y")) as [->|Hne']; [by right|]. rewrite lookup_singleton_ne by done. by intros [? ?]. }
    unfold file_of. split; (rewrite H; [by vm_compute|by vm_compute|by vm_compute|exact Htmp|by vm_compute]).
Defined.

Definition demo_pair : SyncWorld :=
  playCalls demo_world [("a", ServePrimary ["b"]); ("b", ServeReplica "a"); ("b", GuestWrite "old" "stale");
                   ("a", GuestWrite "x" "one"); ("a", GuestWrite "y" "two")].

Lemma replica_exact_witness :
  file_of (pullFromPrimary plain_hash "b" "v" "a" demo_pair) "b" "x" = Some "one" /\
  file_of (pullFromPrimary plain_hash "b" "v" "a" demo_pair) "b" "old" = None.
Proof.
  assert (volume demo_pair "a" "v" = Some {["x" := EFile 7000000000 "one"; "y" := EFile 7000000000 "two"]}) as Hp
    by (by vm_compute).
  assert (volume demo_pair "b" "v" = Some {["old" := EFile 7000000000 "stale"]}) as Hb by (by vm_compute).
  assert (forall rel, content (({["x" := EFile 7000000000 "one"; "y" := EFile 7000000000 "two"]} : Tree) !! rel)
            = if decide (rel = "x") then Some "one" else if decide (rel = "y") then Some "two" else None) as Hc.
  { intros rel. case_decide as H1; [by subst|]. rewrite lookup_insert_ne by done.
    case_decide as H2; [by subst|]. by rewrite lookup_singleton_ne. }
  destruct (replica_exact plain_hash "a" "b" "v" demo_pair _ _ eq_refl ltac:(done) Hp Hb) as (_ & H).
  - intros rel He. unfold entry in He. rewrite Hb in He. simpl in He.
    destruct (decide (rel = "old")) as [->|Hne]; [by rewrite lookup_singleton_eq in He|].
    by rewrite lookup_singleton_ne in He.
  - intros rel. rewrite Hc. case_decide as H1; [by subst; vm_compute|]. case_decide as H2; [by subst; vm_compute|].
    by intros [? ?].
  - intros rel. cbv beta. rewrite !Hc. destruct (decide (rel = "x")) as [->|H1]; [by vm_compute|].
    destruct (decide (rel = "y")) as [->|H2]; [by vm_compute|]. by destruct (metadata rel); intros [? ?].
  - intros rel d d' _ _ Hh. exact Hh.
  - unfold file_of. split; rewrite H by (by vm_compute); rewrite Hc; by vm_compute.
Defined.

(** ** What the program does not do *)

(** Two workers that watch the same volume save each other's files away: the
    file [a] wrote is in the store, and a third worker does not get it. *)
Lemma last_manifest_wins :
  let w := playCalls (mounted "b" "v" (mounted "a" "v" demo_world))
             [("a", GuestWrite "x" "one"); ("a", Flush); ("b", GuestWrite "y" "two"); ("b", Flush); ("c", SyncFrom)] in
  file_of w "c" "y" = Some "two" /\ file_of w "c" "x" = None /\ at_key "v" w "x" = Some (OFile "one").
Proof. vm_compute. split_and!; reflexivity. Qed.

(** Synchronising from the store never deletes: a file removed on [a] stays on
    [b], and comes back everywhere when [b] watches and reconciles. *)
Lemma removed_file_returns :
  let w := playCalls (mounted "a" "v" demo_world)
             [("a", GuestWrite "x" "one"); ("a", Flush); ("b", SyncFrom); ("a", GuestRemove "x"); ("a", Flush); ("b", SyncFrom)] in
  file_of w "b" "x" = Some "one" /\ at_key "v" w "x" = None /\
  at_key "v" (playCalls w [("b", Watch); ("b", Reconcile)]) "x" = Some (OFile "one").
Proof. vm_compute. split_and!; reflexivity. Qed.

(** The reconciliation that makes up for a lost event uploads the file and does
    not save the manifest: no other worker sees the file. *)
Lemma reconciled_file_unlisted :
  let w := mounted "a" "v" demo_world in
  let w := set_tree "a" "v" <["x" := EFile 0 "one"]> w in
  let w := playCalls w [("a", Reconcile); ("b", SyncFrom)] in
  at_key "v" w "x" = Some (OFile "one") /\ file_of w "b" "x" = None.
Proof. vm_compute. split; reflexivity. Qed.

(** A lost event for an edit of the same length in the same second is lost for
    good. *)
Lemma quick_edit_unnoticed :
  let w := playCalls (mounted "a" "v" demo_world) [("a", GuestWrite "x" "one"); ("a", Flush)] in
  let w := set_tree "a" "v" <["x" := EFile 7900000000 "two"]> w in
  at_key "v" (playCalls w [("a", Reconcile)]) "x" = Some (OFile "one").
Proof. vm_compute. reflexivity. Qed.

(** A download goes through a name that may be a file of the volume. *)
Lemma tmp_file_clobbered :
  let w := playCalls (mounted "a" "v" demo_world) [("a", GuestWrite "x" "one"); ("a", Flush)] in
  let w := playCalls (ensure_volume "b" "v" w) [("b", GuestWrite "x.tmp" "mine")] in
  file_of w "b" "x.tmp" = Some "mine" /\
  file_of (playCalls w [("b", SyncFrom)]) "b" "x.tmp" = None /\ file_of (playCalls w [("b", SyncFrom)]) "b" "x" = Some "one".
Proof. vm_compute. split_and!; reflexivity. Qed.

(** A directory in the place of a removed file: the file stays in the store. *)
Lemma directory_over_file_ignored :
  let w := playCalls (mounted "a" "v" demo_world)
             [("a", GuestWrite "x" "one"); ("a", Flush); ("a", GuestRemove "x"); ("a", GuestMkdir "x"); ("a", Flush); ("b", SyncFrom)] in
  file_of w "a" "x" = None /\ file_of w "b" "x" = Some "one".
Proof. vm_compute. split; reflexivity. Qed.

(** A deletion the store refuses is never repeated. *)
Lemma failed_delete_forgotten :
  let w := playCalls (mounted "a" "v" demo_world) [("a", GuestWrite "x" "one"); ("a", Flush); ("a", GuestRemove "x")] in
  let w := playCalls (working (playCalls (failing w) [("a", Flush)])) [("a", Reconcile); ("a", SyncTo); ("a", Flush)] in
  at_key "v" w "x" = Some (OFile "one").
Proof. vm_compute. reflexivity. Qed.

(** The peers refuse every name with two dots in it. *)
Lemma dotted_name_refused : checkedPath "notes..txt" = None.
Proof. vm_compute. reflexivity. Qed.

(** Files that are there when the watch starts are not uploaded. *)
Lemma watch_uploads_nothing :
  let w := ensure_volume "a" "v" demo_world in
  let w := set_tree "a" "v" <["x" := EFile 0 "one"]> w in
  at_key "v" (playCalls w [("a", Watch); ("a", Flush)]) "x" = None.
Proof. vm_compute. reflexivity. Qed.
