(* ===== verification/Services.v ===== *)
(** * Services and managed databases ([src/internal/loka])

    The service record ([service.go]), the database configuration with the texts made
    from it ([database.go]), dependencies ([service_acl.go]) and the SQLite
    repository of services ([src/internal/store/sqlite/services.go]). The fields a
    service shares with the options of its deployment are one record. *)

From stdpp Require Import sorting pretty options.
From Stdlib Require Import Ascii.
From S2P Require Import Prelude GoStrings Float64 Policy Entities Store.
Open Scope nat_scope.

(** ** Databases *)

Record BackupConfig := mkBackup {
  bk_Enabled : bool;
  bk_Schedule : string;
  bk_Retention : Z;
  bk_WAL : bool;
  bk_IntervalSeconds : Z
}.

Record DatabaseConfig := mkDatabase {
  db_Engine : string;
  db_Version : string;
  db_DBName : string;
  db_Role : string;
  db_PrimaryID : string;
  db_Backup : option BackupConfig;
  db_GroupRole : string;
  db_OwnerRole : string;
  db_LoginRole : string;
  db_Password : string;
  db_PreviousLoginRole : string;
  db_GraceDeadline : Z;
  db_PreviousVersion : string;
  db_UpgradeVolume : string
}.

Definition is_digit (c : ascii) : bool := in_range 48 57 (byte_of c).
Definition is_upper (c : ascii) : bool := in_range 65 90 (byte_of c).
Definition is_lower (c : ascii) : bool := in_range 97 122 (byte_of c).
Definition is_alnum (c : ascii) : bool := is_digit c || is_upper c || is_lower c.

Inductive NameError :=
  | NameEmpty | NameTooLong | NameInvalid (name : string) | NameTraversal (name : string).

(** [^[a-zA-Z0-9][a-zA-Z0-9_-]*$] *)
Definition dbNameRe (name : string) : bool :=
  match String.list_ascii_of_string name with
  | [] => false
  | c :: cs => is_alnum c
      && forallb (fun c => is_alnum c || (c =? "_")%char || (c =? "-")%char) cs
  end.

Definition ValidateDBName (name : string) : result NameError unit :=
  if String.eqb name "" then Err NameEmpty
  else if 63 <? String.length name then Err NameTooLong
  else if negb (dbNameRe name) then Err (NameInvalid name)
  else if Contains name ".." then Err (NameTraversal name)
  else Ok tt.

(** Names are ASCII here: a rune of the loop is a byte, and bytes of other runes are
    dropped either way. *)
Definition identifier_char (c : ascii) : bool := is_alnum c || (c =? "_")%char.
Definition SanitizeIdentifier (s : string) : string :=
  String.string_of_list_ascii (List.filter identifier_char (String.list_ascii_of_string s)).
Definition SanitizePassword (s : string) : string := ReplaceByte s "'"%char "''".

Record EngineDefaults := mkDefaults {
  ed_Image : string;
  ed_Port : Z;
  ed_DataDir : string;
  ed_BackupCmd : string;
  ed_RestoreCmd : string
}.

Definition DefaultVersions (engine : string) : string :=
  if String.eqb engine "postgres" then "16"
  else if String.eqb engine "mysql" then "8.0"
  else if String.eqb engine "redis" then "7" else "".

Definition GetEngineDefaults (engine version : string) : result string EngineDefaults :=
  let version := if String.eqb version "" then DefaultVersions engine else version in
  if String.eqb engine "postgres" then
    Ok (mkDefaults ("postgres:" +:+ version) 5432 "/var/lib/postgresql/data" "pg_basebackup" "pg_restore")
  else if String.eqb engine "mysql" then
    Ok (mkDefaults ("mysql:" +:+ version) 3306 "/var/lib/mysql" "mysqldump --single-transaction" "mysql")
  else if String.eqb engine "redis" then
    Ok (mkDefaults ("redis:" +:+ version) 6379 "/data" "redis-cli BGSAVE" "redis-cli")
  else Err engine.

Definition DatabaseEnv (cfg : DatabaseConfig) : gmap string string :=
  if String.eqb (db_Engine cfg) "postgres" then
    let env := list_to_map [("POSTGRES_USER", db_LoginRole cfg); ("POSTGRES_PASSWORD", db_Password cfg);
                            ("POSTGRES_DB", db_DBName cfg)] in
    if String.eqb (db_Role cfg) "primary" then <["POSTGRES_INITDB_ARGS" := "--data-checksums"]> env
    else env
  else if String.eqb (db_Engine cfg) "mysql" then
    list_to_map [("MYSQL_ROOT_PASSWORD", db_Password cfg); ("MYSQL_USER", db_LoginRole cfg);
                 ("MYSQL_PASSWORD", db_Password cfg); ("MYSQL_DATABASE", db_DBName cfg)]
  else ∅.

Definition ConnectionString (engine login password host dbName : string) : string :=
  if String.eqb engine "postgres" then
    "postgres://" +:+ login +:+ ":" +:+ password +:+ "@" +:+ host +:+ ":5432/" +:+ dbName
  else if String.eqb engine "mysql" then
    "mysql://" +:+ login +:+ ":" +:+ password +:+ "@" +:+ host +:+ ":3306/" +:+ dbName
  else if String.eqb engine "redis" then
    if negb (String.eqb password "")
    then "redis://" +:+ login +:+ ":" +:+ password +:+ "@" +:+ host +:+ ":6379"
    else "redis://" +:+ host +:+ ":6379"
  else "".

(** The statement that creates a login role on the running instance, and the shell line
    that executes it; [%q] is left out of the model for the engines that use it. *)
Definition CreateLoginRoleSQL (cfg : DatabaseConfig) (newLogin newPassword : string) : string :=
  let login := SanitizeIdentifier newLogin in
  let pw := SanitizePassword newPassword in
  let group := SanitizeIdentifier (db_GroupRole cfg) in
  let db := SanitizeIdentifier (db_DBName cfg) in
  if String.eqb (db_Engine cfg) "postgres" then
    "CREATE ROLE " +:+ login +:+ " WITH LOGIN PASSWORD '" +:+ pw +:+ "'; GRANT " +:+ group
      +:+ " TO " +:+ login +:+ ";"
  else if String.eqb (db_Engine cfg) "mysql" then
    "CREATE USER '" +:+ login +:+ "'@'%' IDENTIFIED BY '" +:+ pw +:+ "'; GRANT ALL PRIVILEGES ON "
      +:+ db +:+ ".* TO '" +:+ login +:+ "'@'%'; FLUSH PRIVILEGES;"
  else if String.eqb (db_Engine cfg) "redis" then
    "ACL SETUSER " +:+ login +:+ " on >" +:+ pw +:+ " ~* +@all"
  else "".

Definition RevokeLoginRoleSQL (cfg : DatabaseConfig) (oldLogin : string) : string :=
  let login := SanitizeIdentifier oldLogin in
  if String.eqb (db_Engine cfg) "postgres" then
    "ALTER ROLE " +:+ login +:+ " NOLOGIN; DROP ROLE IF EXISTS " +:+ login +:+ ";"
  else if String.eqb (db_Engine cfg) "mysql" then "DROP USER IF EXISTS '" +:+ login +:+ "'@'%';"
  else if String.eqb (db_Engine cfg) "redis" then "ACL DELUSER " +:+ login
  else "".

(** The line [sh -c] gets for Redis. *)
Definition redisLoginLine (cfg : DatabaseConfig) (newLogin newPassword : string) : string :=
  "redis-cli " +:+ CreateLoginRoleSQL cfg newLogin newPassword.

(** ** Dependencies *)

Record ResolvedDependency := mkDependency {
  rd_Alias : string;
  rd_TargetName : string;
  rd_TargetID : string;
  rd_Port : Z;
  rd_WorkerIP : string;
  rd_IsDatabase : bool;
  rd_Engine : string;
  rd_LoginRole : string;
  rd_Password : string;
  rd_DBName : string
}.

Definition envPrefix (alias : string) : string := ToUpper (ReplaceByte alias "-"%char "_").

Definition DependencyEnvVars (dep : ResolvedDependency) : gmap string string :=
  let prefix := envPrefix (rd_Alias dep) in
  let env := list_to_map [(prefix +:+ "_HOST", rd_WorkerIP dep); (prefix +:+ "_PORT", pretty (rd_Port dep))] in
  if rd_IsDatabase dep then
    <[prefix +:+ "_URL" := ConnectionString (rd_Engine dep) (rd_LoginRole dep) (rd_Password dep)
                             (rd_WorkerIP dep) (rd_DBName dep)]>
      (<[prefix +:+ "_DBNAME" := rd_DBName dep]>
        (<[prefix +:+ "_PASSWORD" := rd_Password dep]>
          (<[prefix +:+ "_USER" := rd_LoginRole dep]> env)))
  else env.

Definition CanAccess (uses : gmap string string) (targetName : string) : bool :=
  existsb (fun kv => String.eqb kv.2 targetName) (map_to_list uses).

(** ** Services *)

Record ServiceRoute := mkRoute {
  rt_Domain : string;
  rt_CustomDomain : string;
  rt_Port : Z;
  rt_Protocol : string
}.

Record AutoscaleConfig := mkAutoscale {
  as_Min : Z;
  as_Max : Z;
  as_TargetConcurrency : Z;
  as_ScaleUpThreshold : float64;
  as_ScaleDownThreshold : float64;
  as_Cooldown : Z
}.

Record DeployOpts := mkDeploy {
  do_Name : string;
  do_ImageRef : string;
  do_RecipeName : string;
  do_Command : string;
  do_Args : list string;
  do_Env : gmap string string;
  do_Workdir : string;
  do_Port : Z;
  do_VCPUs : Z;
  do_MemoryMB : Z;
  do_Routes : list ServiceRoute;
  do_BundleKey : string;
  do_IdleTimeout : Z;
  do_HealthPath : string;
  do_HealthInterval : Z;
  do_HealthTimeout : Z;
  do_HealthRetries : Z;
  do_Labels : gmap string string;
  do_Mounts : list Volume;
  do_Autoscale : option AutoscaleConfig;
  do_DatabaseConfig : option DatabaseConfig;
  do_Uses : gmap string string;
  do_Replicas : Z;
  do_RelationType : string;
  do_ParentServiceID : string
}.

(** [Components] is never set. *)
Record Service := mkService {
  sv_ID : string;
  sv_Opts : DeployOpts;
  sv_Status : ServiceStatus;
  sv_WorkerID : string;
  sv_ImageID : string;
  sv_SnapshotID : string;
  sv_AppSnapshotMem : string;
  sv_AppSnapshotState : string;
  sv_ForwardPort : Z;
  sv_GuestIP : string;
  sv_Ready : bool;
  sv_StatusMessage : string;
  sv_LastActivity : Z;
  sv_CreatedAt : Z;
  sv_UpdatedAt : Z
}.
Definition sv_Name (s : Service) : string := do_Name (sv_Opts s).

(** Field assignments. *)
Definition sv_mark (st : ServiceStatus) (ready : bool) (msg : string) (s : Service) : Service :=
  mkService (sv_ID s) (sv_Opts s) st (sv_WorkerID s) (sv_ImageID s) (sv_SnapshotID s)
    (sv_AppSnapshotMem s) (sv_AppSnapshotState s) (sv_ForwardPort s) (sv_GuestIP s) ready msg
    (sv_LastActivity s) (sv_CreatedAt s) (sv_UpdatedAt s).
Definition sv_with_worker (w : string) (s : Service) : Service :=
  mkService (sv_ID s) (sv_Opts s) (sv_Status s) w (sv_ImageID s) (sv_SnapshotID s)
    (sv_AppSnapshotMem s) (sv_AppSnapshotState s) (sv_ForwardPort s) (sv_GuestIP s) (sv_Ready s)
    (sv_StatusMessage s) (sv_LastActivity s) (sv_CreatedAt s) (sv_UpdatedAt s).
Definition sv_with_image (i : string) (s : Service) : Service :=
  mkService (sv_ID s) (sv_Opts s) (sv_Status s) (sv_WorkerID s) i (sv_SnapshotID s)
    (sv_AppSnapshotMem s) (sv_AppSnapshotState s) (sv_ForwardPort s) (sv_GuestIP s) (sv_Ready s)
    (sv_StatusMessage s) (sv_LastActivity s) (sv_CreatedAt s) (sv_UpdatedAt s).
Definition sv_with_opts (o : DeployOpts) (s : Service) : Service :=
  mkService (sv_ID s) o (sv_Status s) (sv_WorkerID s) (sv_ImageID s) (sv_SnapshotID s)
    (sv_AppSnapshotMem s) (sv_AppSnapshotState s) (sv_ForwardPort s) (sv_GuestIP s) (sv_Ready s)
    (sv_StatusMessage s) (sv_LastActivity s) (sv_CreatedAt s) (sv_UpdatedAt s).
Definition sv_with_times (active created updated : Z) (s : Service) : Service :=
  mkService (sv_ID s) (sv_Opts s) (sv_Status s) (sv_WorkerID s) (sv_ImageID s) (sv_SnapshotID s)
    (sv_AppSnapshotMem s) (sv_AppSnapshotState s) (sv_ForwardPort s) (sv_GuestIP s) (sv_Ready s)
    (sv_StatusMessage s) active created updated.
Definition sv_with_guest (g : string) (s : Service) : Service :=
  mkService (sv_ID s) (sv_Opts s) (sv_Status s) (sv_WorkerID s) (sv_ImageID s) (sv_SnapshotID s)
    (sv_AppSnapshotMem s) (sv_AppSnapshotState s) (sv_ForwardPort s) g (sv_Ready s)
    (sv_StatusMessage s) (sv_LastActivity s) (sv_CreatedAt s) (sv_UpdatedAt s).

Definition opts_with_replicas (n : Z) (o : DeployOpts) : DeployOpts :=
  mkDeploy (do_Name o) (do_ImageRef o) (do_RecipeName o) (do_Command o) (do_Args o) (do_Env o)
    (do_Workdir o) (do_Port o) (do_VCPUs o) (do_MemoryMB o) (do_Routes o) (do_BundleKey o)
    (do_IdleTimeout o) (do_HealthPath o) (do_HealthInterval o) (do_HealthTimeout o)
    (do_HealthRetries o) (do_Labels o) (do_Mounts o) (do_Autoscale o) (do_DatabaseConfig o)
    (do_Uses o) n (do_RelationType o) (do_ParentServiceID o).
Definition opts_with_env (env : gmap string string) (o : DeployOpts) : DeployOpts :=
  mkDeploy (do_Name o) (do_ImageRef o) (do_RecipeName o) (do_Command o) (do_Args o) env
    (do_Workdir o) (do_Port o) (do_VCPUs o) (do_MemoryMB o) (do_Routes o) (do_BundleKey o)
    (do_IdleTimeout o) (do_HealthPath o) (do_HealthInterval o) (do_HealthTimeout o)
    (do_HealthRetries o) (do_Labels o) (do_Mounts o) (do_Autoscale o) (do_DatabaseConfig o)
    (do_Uses o) (do_Replicas o) (do_RelationType o) (do_ParentServiceID o).

(** ** The repository *)

(** There is no column for the guest's address. The unique index on the names is not
    created, since a plain index of its name exists. *)
Definition savedService (s : Service) : Service :=
  sv_with_guest "" (sv_with_times (parse_rfc3339 (rfc3339 (sv_LastActivity s)))
    (parse_rfc3339 (rfc3339 (sv_CreatedAt s))) (parse_rfc3339 (rfc3339 (sv_UpdatedAt s))) s).

#[global] Program Instance Service_entity : Entity Service := {
    ent_id := sv_ID;
    ent_unique _ := None;
    ent_core s := sv_with_guest "" (sv_with_times 0 0 0 s);
    ent_fixed _ := ""
}.
  Solve Obligations with done.

(** Passwords are encrypted in the column and decrypted on the way back. *)
#[global] Instance Service_columns : Columns Service := {
  col_save := savedService;
  col_assign now s old :=
    sv_with_times (parse_rfc3339 (rfc3339 (sv_LastActivity s))) (sv_CreatedAt old)
      (parse_rfc3339 (rfc3339 now))
      (mkService (sv_ID old) (sv_Opts s) (sv_Status s) (sv_WorkerID s) (sv_ImageID s) (sv_SnapshotID s)
         (sv_AppSnapshotMem s) (sv_AppSnapshotState s) (sv_ForwardPort s) "" (sv_Ready s)
         (sv_StatusMessage s) 0 0 0)
}.
#[global] Program Instance Service_columns_laws : ColumnsLaws Service.
Next Obligation. done. Qed.
Next Obligation. intros now s old Hid Hf. simpl in *. by unfold sv_with_times, sv_with_guest; simpl; rewrite Hid. Qed.

Record ServiceFilter := mkServiceFilter {
  vf_Status : option ServiceStatus;
  vf_WorkerID : option string;
  vf_Name : option string;
  vf_IsDatabase : option bool;
  vf_PrimaryID : option string;
  vf_ParentServiceID : option string;
  vf_Limit : Z;
  vf_Offset : Z
}.
Definition noServiceFilter : ServiceFilter := mkServiceFilter None None None None None None 0 0.

Definition isDatabase (s : Service) : bool := bool_decide (is_Some (do_DatabaseConfig (sv_Opts s))).

(** The pattern on the JSON column finds the field of the configuration: identifiers
    are UUIDs, and an absent configuration has an empty column. *)
Definition serviceWhere (f : ServiceFilter) (s : Service) : bool :=
  from_option (fun st => bool_decide (sv_Status s = st)) true (vf_Status f)
  && whereEq (vf_WorkerID f) (sv_WorkerID s) && whereEq (vf_Name f) (sv_Name s)
  && from_option (fun b => Bool.eqb (isDatabase s) b) true (vf_IsDatabase f)
  && whereEq (vf_ParentServiceID f) (do_ParentServiceID (sv_Opts s))
  && match vf_PrimaryID f, do_DatabaseConfig (sv_Opts s) with
     | None, _ => true
     | Some id, Some cfg => String.eqb (db_PrimaryID cfg) id && negb (String.eqb (db_PrimaryID cfg) "")
     | Some _, None => false
     end.

Definition newerService (a b : Service) : Prop := (sv_CreatedAt b <= sv_CreatedAt a)%Z.
#[global] Instance newerService_dec a b : Decision (newerService a b).
Proof. unfold newerService. apply _. Defined.

Section queries.
#[local] Set Default Proof Using "Type*".
Context {T : Type} `{!SqlTable Service T}.

Definition listServices (f : ServiceFilter) (t : T) : result StoreError (list Service) :=
  let rows := merge_sort newerService (filter (fun s => serviceWhere f s = true) (sql_select t)) in
  if (0 <? vf_Limit f)%Z then
  Ok (take (Z.to_nat (vf_Limit f))
        (if (0 <? vf_Offset f)%Z then drop (Z.to_nat (vf_Offset f)) rows else rows))
  else if (0 <? vf_Offset f)%Z then Err ErrConstraint
  else Ok rows.
End queries.

(** ** Facts *)

Lemma SanitizeIdentifier_safe s :
  Forall (fun c => identifier_char c = true) (String.list_ascii_of_string (SanitizeIdentifier s)).
Proof.
  unfold SanitizeIdentifier. rewrite String.list_ascii_of_string_of_list_ascii. apply Forall_forall.
  intros c Hc. apply list_elem_of_In, filter_In in Hc. by destruct Hc.
Qed.

(** A quote of a sanitised password is always doubled: removing the pairs leaves none. *)
Fixpoint quotes_paired (l : list ascii) : bool :=
  match l with
  | [] => true
  | c :: l' => if (c =? "'")%char
      then match l' with d :: l'' => (d =? "'")%char && quotes_paired l'' | [] => false end
      else quotes_paired l'
  end.

Lemma SanitizePassword_paired s :
  quotes_paired (String.list_ascii_of_string (SanitizePassword s)) = true.
Proof.
  unfold SanitizePassword. induction s as [|c s IH]; [done|].
  cbn [ReplaceByte]. case_decide as Hc; [exact IH|]. simpl.
  destruct (Ascii.eqb_spec c "'"%char); [done|]. exact IH.
Qed.

(** In the line for Redis the password follows an unquoted [>]: the shell takes it for
    the file its output goes to. The words of a line without quotes, with redirections
    apart: *)
Fixpoint shell_words (l : list ascii) (word : list ascii) : list (list ascii) :=
  match l with
  | [] => [rev word]
  | c :: l => if (c =? " ")%char then rev word :: shell_words l [] else shell_words l (c :: word)
  end.
Definition redirects (line : string) : list string :=
  omap (fun w => match w with
                 | c :: f => if (c =? ">")%char then Some (String.string_of_list_ascii f) else None
                 | [] => None
                 end) (shell_words (String.list_ascii_of_string line) []).

Definition redis_config : DatabaseConfig :=
  mkDatabase "redis" "7" "cache" "primary" "" None "g" "o" "app" "old" "" 0 "" "".
Lemma redis_password_redirected :
  redirects (redisLoginLine redis_config "app2" "s3cret") = ["s3cret"].
Proof. by vm_compute. Qed.
