(* ===== verification/Replicated.v ===== *)
(** * Replication of the control plane's state

    The replicated store ([src/internal/store/replicated/replicated.go]): writes become
    commands of a log, every node applies the log to its own database
    ([lokaFSM] in [src/internal/controlplane/ha/raft.go]). The consensus library is not
    part of the model: it hands every node a prefix of one log, and each node applies
    an entry when its own clock shows some time. Databases are the SQLite tables of
    [Store.v] and [Services.v] as finite maps, here with the foreign keys
    of executions and checkpoints; tokens are from [sqlite/tokens.go]. *)

From stdpp Require Import options.
From S2P Require Import Prelude Effects GoStrings Float64 Words Filesystem Network Policy Entities.
From S2P Require Import Store Services.
Open Scope nat_scope.

(** ** Worker tokens *)

Record WorkerToken := mkToken {
  tk_ID : string;
  tk_Name : string;
  tk_Token : string;
  tk_ExpiresAt : Z;
  tk_Used : bool;
  tk_WorkerID : string;
  tk_CreatedAt : Z
}.

Definition IsExpired (now : Z) (t : WorkerToken) : bool :=
  negb (tk_ExpiresAt t =? 0)%Z && (tk_ExpiresAt t <? now)%Z.
Definition IsValid (now : Z) (t : WorkerToken) : bool := negb (tk_Used t) && negb (IsExpired now t).

(** A time as the database returns it. *)
Definition stored_time (t : Z) : Z := parse_rfc3339 (rfc3339 t).

Definition savedToken (t : WorkerToken) : WorkerToken :=
  mkToken (tk_ID t) (tk_Name t) (tk_Token t) (stored_time (tk_ExpiresAt t)) (tk_Used t) (tk_WorkerID t)
    (stored_time (tk_CreatedAt t)).

(** The secret is unique. *)
#[global] Program Instance WorkerToken_entity : Entity WorkerToken := {
    ent_id := tk_ID;
    ent_unique t := Some (tk_Token t);
    ent_core := savedToken;
    ent_fixed _ := ""
}.
  Solve Obligations with done.

(** ** Commands *)

Inductive SessionAction :=
  | SesCreate (s : Session) | SesUpdate (s : Session) | SesDelete (id : string)
  | SesDeleteTerminatedBefore (before : Z).
Inductive ExecutionAction :=
  | ExeCreate (e : Execution) | ExeUpdate (e : Execution) | ExeDeleteCompletedBefore (before : Z).
Inductive CheckpointAction :=
  | CkpCreate (c : Checkpoint) | CkpUpdate (c : Checkpoint) | CkpDelete (id : string)
  | CkpDeleteSubtree (id : string).
Inductive WorkerAction :=
  | WrkCreate (w : Worker) | WrkUpdate (w : Worker) | WrkDelete (id : string)
  | WrkUpdateHeartbeat (id : string) (hb : Heartbeat).
Inductive TokenAction :=
  | TokCreate (t : WorkerToken) | TokDelete (id : string) | TokMarkUsed (id workerID : string)
  | TokDeleteExpiredBefore (before : Z).
Inductive ServiceAction :=
  | SvcCreate (s : Service) | SvcUpdate (s : Service) | SvcDelete (id : string).

(** The payloads are JSON of the values, which is read back unchanged. *)
Inductive storeCmd :=
  | CmdSession (a : SessionAction)
  | CmdExecution (a : ExecutionAction)
  | CmdCheckpoint (a : CheckpointAction)
  | CmdWorker (a : WorkerAction)
  | CmdToken (a : TokenAction)
  | CmdService (a : ServiceAction)
  | CmdUnknown (entity action : string).

(** ** The database of a node *)

Record Db := mkDb {
  nd_sessions : gmap string Session;
  nd_executions : gmap string Execution;
  nd_checkpoints : gmap string Checkpoint;
  nd_workers : gmap string Worker;
  nd_tokens : gmap string WorkerToken;
  nd_services : gmap string Service
}.
Definition emptyDb : Db := mkDb ∅ ∅ ∅ ∅ ∅ ∅.

Definition nd_with_sessions x d := mkDb x (nd_executions d) (nd_checkpoints d) (nd_workers d) (nd_tokens d) (nd_services d).
Definition nd_with_executions x d := mkDb (nd_sessions d) x (nd_checkpoints d) (nd_workers d) (nd_tokens d) (nd_services d).
Definition nd_with_checkpoints x d := mkDb (nd_sessions d) (nd_executions d) x (nd_workers d) (nd_tokens d) (nd_services d).
Definition nd_with_workers x d := mkDb (nd_sessions d) (nd_executions d) (nd_checkpoints d) x (nd_tokens d) (nd_services d).
Definition nd_with_tokens x d := mkDb (nd_sessions d) (nd_executions d) (nd_checkpoints d) (nd_workers d) x (nd_services d).
Definition nd_with_services x d := mkDb (nd_sessions d) (nd_executions d) (nd_checkpoints d) (nd_workers d) (nd_tokens d) x.

Inductive ApplyError := AEStore (e : StoreError) | AEUnknown (entity action : string).
#[local] Abbreviation DM := (StateM Db ApplyError unit).

(** One statement on a table. *)
Definition onTable {A} (get : Db -> gmap string A) (set : gmap string A -> Db -> Db)
  (f : gmap string A -> result StoreError (gmap string A)) : DM := fun d =>
  match f (get d) with
  | Ok t => (set t d, Ret tt)
  | Err e => (d, Fail (AEStore e))
  end.
Definition onSessions := onTable nd_sessions nd_with_sessions.
Definition onExecutions := onTable nd_executions nd_with_executions.
Definition onCheckpoints := onTable nd_checkpoints nd_with_checkpoints.
Definition onWorkers := onTable nd_workers nd_with_workers.
Definition onTokens := onTable nd_tokens nd_with_tokens.
Definition onServices := onTable nd_services nd_with_services.

(** [DELETE FROM t WHERE ..] *)
Definition deleteWhere {A} (P : A -> bool) (t : gmap string A) : gmap string A :=
  filter (fun kv => P kv.2 = false) t.

(** [UPDATE t SET .. WHERE id = ?] *)
Definition updateWhere {A} `{Entity A} (id : string) (f : A -> A) (t : gmap string A)
    : result StoreError (gmap string A) :=
  match sql_update id f t with Some t => Ok t | None => Err ErrConstraint end.

(** The session a row refers to. *)
Definition has_session (d : Db) (sid : string) : bool := bool_decide (is_Some (map_rows (nd_sessions d) !! sid)).

(** Deleting sessions deletes the rows that refer to them. *)
Definition deleteSessions (P : Session -> bool) (d : Db) : Db :=
  let gone sid := match map_rows (nd_sessions d) !! sid with Some s => P s | None => false end in
  nd_with_sessions (deleteWhere P (nd_sessions d))
    (nd_with_executions (deleteWhere (fun e => gone (e_SessionID e)) (nd_executions d))
      (nd_with_checkpoints (deleteWhere (fun c => gone (cp_SessionID c)) (nd_checkpoints d)) d)).

Definition applySession (now : Z) (a : SessionAction) : DM :=
  match a with
  | SesCreate s => onSessions (repo_Create s)
  | SesUpdate s => onSessions (repo_Update now s)
  | SesDelete id => modify (deleteSessions (fun s => String.eqb (s_ID s) id))
  | SesDeleteTerminatedBefore before =>
      modify (deleteSessions (fun s => bool_decide (s_Status s = SessionStatusTerminated)
          && (s_UpdatedAt s <? stored_time before)%Z))
  end.

Definition applyExecution (now : Z) (a : ExecutionAction) : DM :=
  match a with
  | ExeCreate e => fun d => if has_session d (e_SessionID e) then onExecutions (repo_Create e) d
      else (d, Fail (AEStore ErrConstraint))
  | ExeUpdate e => onExecutions (repo_Update now e)
  | ExeDeleteCompletedBefore before =>
      onExecutions (fun t => Ok (deleteWhere (fun e => bool_decide (e_Status e ∈ [ExecStatusSuccess; ExecStatusFailed; ExecStatusCanceled])
            && (e_UpdatedAt e <? stored_time before)%Z) t))
  end.

(** The rows the recursive query finds, level by level; on a cycle of parents it does
    not end. *)
Definition childIDs (t : gmap string Checkpoint) (ids : gset string) : gset string :=
  dom (filter (fun kv => cp_ParentID kv.2 ∈ ids) (map_rows t)).
Fixpoint descendants (fuel : nat) (t : gmap string Checkpoint) (ids : gset string) : option (gset string) :=
  if decide (ids = ∅) then Some ∅
  else match fuel with
       | O => None
       | S fuel => rest ← descendants fuel t (childIDs t ids); Some (ids ∪ rest)
       end.

(** Longer than every path without a cycle. *)
Definition subtree (id : string) (t : gmap string Checkpoint) : option (gset string) :=
  descendants (S (size (map_rows t))) t (if bool_decide (is_Some (map_rows t !! id)) then {[id]} else ∅).

Definition applyCheckpoint (now : Z) (a : CheckpointAction) : DM :=
  match a with
  | CkpCreate c => fun d => if has_session d (cp_SessionID c) then onCheckpoints (repo_Create c) d
                            else (d, Fail (AEStore ErrConstraint))
  | CkpUpdate c => fun d =>
      if has_session d (cp_SessionID c) || negb (bool_decide (is_Some (map_rows (nd_checkpoints d) !! cp_ID c)))
      then onCheckpoints (repo_Update now c) d else (d, Fail (AEStore ErrConstraint))
  | CkpDelete id => onCheckpoints (repo_Delete id)
  | CkpDeleteSubtree id => fun d =>
      match subtree id (nd_checkpoints d) with
      | Some ids => onCheckpoints (fun t => Ok (deleteWhere (fun c => bool_decide (cp_ID c ∈ ids)) t)) d
      | None => (d, Stuck)
      end
  end.

(** [UpdateHeartbeat] of [sqlite/workers.go]: three columns. *)
Definition beat (now : Z) (hb : Heartbeat) (w : Worker) : Worker :=
  mkWorker (w_ID w) (w_Hostname w) (w_IPAddress w) (w_PrivateIP w) (w_Provider w) (w_Region w) (w_Zone w)
    (hb_Status hb) (w_Labels w) (w_Capacity w) (w_AgentVersion w) (w_KVMAvailable w) (w_CreatedAt w)
    (stored_time now) (stored_time (hb_Timestamp hb)).

Definition applyWorker (now : Z) (a : WorkerAction) : DM :=
  match a with
  | WrkCreate w => onWorkers (repo_Create w)
  | WrkUpdate w => onWorkers (repo_Update now w)
  | WrkDelete id => onWorkers (repo_Delete id)
  | WrkUpdateHeartbeat id hb => onWorkers (updateWhere id (beat now hb))
  end.

Definition createToken (t : WorkerToken) (tbl : gmap string WorkerToken)
    : result StoreError (gmap string WorkerToken) :=
  match sql_insert (savedToken t) tbl with Some tbl => Ok tbl | None => Err ErrConstraint end.
Definition markUsed (workerID : string) (t : WorkerToken) : WorkerToken :=
  mkToken (tk_ID t) (tk_Name t) (tk_Token t) (tk_ExpiresAt t) true workerID (tk_CreatedAt t).

(** The zero time is a text too, and the smallest: tokens that never expire are
    deleted with the expired ones. *)
Definition applyToken (a : TokenAction) : DM :=
  match a with
  | TokCreate t => onTokens (createToken t)
  | TokDelete id => onTokens (fun t => Ok (sql_delete id t))
  | TokMarkUsed id w => onTokens (updateWhere id (markUsed w))
  | TokDeleteExpiredBefore before =>
      onTokens (fun t => Ok (deleteWhere (fun k => (tk_ExpiresAt k <? stored_time before)%Z) t))
  end.

Definition applyService (now : Z) (a : ServiceAction) : DM :=
  match a with
  | SvcCreate s => onServices (repo_Create s)
  | SvcUpdate s => onServices (repo_Update now s)
  | SvcDelete id => onServices (repo_Delete id)
  end.

Definition applyLocal (now : Z) (cmd : storeCmd) : DM :=
  match cmd with
  | CmdSession a => applySession now a
  | CmdExecution a => applyExecution now a
  | CmdCheckpoint a => applyCheckpoint now a
  | CmdWorker a => applyWorker now a
  | CmdToken a => applyToken a
  | CmdService a => applyService now a
  | CmdUnknown e a => fail (AEUnknown e a)
  end.

(** ** The nodes *)

(** A node: how much of the log it has applied, its database and the answers its
    handler gave. *)
Record Node := mkNode {
  n_applied : nat;
  n_db : Db;
  n_answers : list (Res ApplyError unit)
}.

Record Cluster := mkCluster { cl_log : list storeCmd; cl_nodes : gmap nat Node }.

(** A client's write reaches the log through the leader; a node applies its next entry,
    at its own time, unless applying it does not end; heartbeats bypass the log. *)
Inductive cstep : Cluster -> Cluster -> Prop :=
  | cs_write c cmd : cstep c (mkCluster (cl_log c ++ [cmd]) (cl_nodes c))
  | cs_apply c i n cmd now d a :
      cl_nodes c !! i = Some n -> cl_log c !! n_applied n = Some cmd ->
      applyLocal now cmd (n_db n) = (d, a) -> a <> Stuck ->
      cstep c (mkCluster (cl_log c) (<[i := mkNode (S (n_applied n)) d (n_answers n ++ [a])]> (cl_nodes c)))
  | cs_heartbeat c i n id hb now d a :
      cl_nodes c !! i = Some n -> applyWorker now (WrkUpdateHeartbeat id hb) (n_db n) = (d, a) ->
      cstep c (mkCluster (cl_log c) (<[i := mkNode (n_applied n) d (n_answers n)]> (cl_nodes c))).

(** *** The single copy the nodes stand for *)

(** The log applied to one database; [None] when an entry does not end. *)
Fixpoint runLog (now : Z) (log : list storeCmd) (d : Db) : option (Db * list (Res ApplyError unit)) :=
  match log with
  | [] => Some (d, [])
  | cmd :: log =>
      match applyLocal now cmd d with
      | (_, Stuck) => None
      | (d, a) => '(d, l) ← runLog now log d; Some (d, a :: l)
      end
  end.

(** Commands whose effect depends on columns a node's own clock fills. *)
Definition clock_free (cmd : storeCmd) : bool :=
  match cmd with
  | CmdSession (SesDeleteTerminatedBefore _) | CmdExecution (ExeDeleteCompletedBefore _) => false
  | _ => true
  end.

(** What of a row is the same on every node, whatever the clocks of the nodes. *)
Class RepCore (A : Type) `{Entity A} := {
  rep_core : A -> A;
  rep_core_id a b : rep_core a = rep_core b -> ent_id a = ent_id b;
  rep_core_unique a b : rep_core a = rep_core b -> ent_unique a = ent_unique b
}.

(** An update writes the same of it, whatever the clock. *)
Class RepColumns (A : Type) `{RepCore A, Columns A} :=
  rep_assign n1 n2 a o1 o2 :
    rep_core o1 = rep_core o2 -> ent_id a = ent_id o1 ->
    rep_core (col_assign n1 a o1) = rep_core (col_assign n2 a o2) /\
    ent_id (col_assign n1 a o1) = ent_id o1.

(** The rows of two tables, up to that. *)
Definition agree {A} `{RepCore A} (t1 t2 : gmap string A) : Prop :=
  rep_core <$> map_rows t1 = rep_core <$> map_rows t2.

Section agree.
#[local] Set Default Proof Using "Type*".
Context {A : Type} `{RepCore A}.
Implicit Types (t : gmap string A).

#[global] Instance agree_equiv : Equivalence (agree (A := A)).
Proof. unfold agree. split; [by intros t|by intros t1 t2|by intros t1 t2 t3 ->]. Qed.

Lemma agree_lookup t1 t2 k :
  agree t1 t2 -> rep_core <$> map_rows t1 !! k = rep_core <$> map_rows t2 !! k.
Proof. intros Ht. by rewrite <-!lookup_fmap, Ht. Qed.

Lemma agree_Some t1 t2 k a :
  agree t1 t2 -> map_rows t1 !! k = Some a -> exists b, map_rows t2 !! k = Some b /\ rep_core a = rep_core b.
Proof.
  intros Ht Ha. pose proof (agree_lookup t1 t2 k Ht) as Hk. rewrite Ha in Hk.
  destruct (map_rows t2 !! k) as [b|]; [|done]. exists b. by injection Hk.
Qed.

Lemma agree_None t1 t2 k : agree t1 t2 -> map_rows t1 !! k = None -> map_rows t2 !! k = None.
Proof.
  intros Ht Ha. pose proof (agree_lookup t1 t2 k Ht) as Hk. rewrite Ha in Hk. by destruct (map_rows t2 !! k).
Qed.

Lemma agree_is_Some t1 t2 k : agree t1 t2 -> is_Some (map_rows t1 !! k) <-> is_Some (map_rows t2 !! k).
Proof.
  intros Ht. pose proof (agree_lookup t1 t2 k Ht) as Hk.
  by destruct (map_rows t1 !! k), (map_rows t2 !! k).
Qed.

Lemma agree_insert t1 t2 k a b :
  agree t1 t2 -> rep_core a = rep_core b -> ent_id a = k -> agree (<[k := a]> t1) (<[k := b]> t2).
Proof.
  intros Ht Hab Hk. unfold agree in *. rewrite !map_rows_insert by (pose proof (rep_core_id _ _ Hab); congruence).
  by rewrite !fmap_insert, Ht, Hab.
Qed.

Lemma agree_delete t1 t2 k : agree t1 t2 -> agree (delete k t1) (delete k t2).
Proof. intros Ht. unfold agree, map_rows in *. by rewrite !map_filter_delete, !fmap_delete, Ht. Qed.

(** No row of the table conflicts with [a]. *)
Lemma agree_no_conflict t1 t2 (a b : A) :
  agree t1 t2 -> ent_unique a = ent_unique b ->
  map_Forall (fun _ c => ~ conflicts a c) (map_rows t1) -> map_Forall (fun _ c => ~ conflicts b c) (map_rows t2).
Proof.
  intros Ht Hu Hf k c Hc [Hc1 Hc2]. destruct (agree_Some t2 t1 k c) as (c' & Hc' & Hcore); [done..|].
  apply (Hf k c' Hc'). apply rep_core_unique in Hcore. split; congruence.
Qed.

Lemma agree_insert_row t1 t2 a :
  agree t1 t2 ->
  match sql_insert a t1, sql_insert a t2 with
  | Some t1', Some t2' => agree t1' t2'
  | None, None => True
  | _, _ => False
  end.
Proof.
  intros Ht. simpl. destruct (decide (map_rows t1 !! ent_id a = None /\ _)) as [[Hn1 Hn2]|Hn].
  - rewrite decide_True; [by apply agree_insert|]. split; [by eapply agree_None|]. by eapply agree_no_conflict.
  - rewrite decide_False; [done|]. intros [Hn1 Hn2]. apply Hn. symmetry in Ht. split; [by eapply agree_None|].
  by eapply agree_no_conflict.
Qed.

(** An assignment whose effect on the fixed part does not depend on the node. *)
Lemma agree_update_row t1 t2 k (f g : A -> A) :
  agree t1 t2 ->
  (forall a b, rep_core a = rep_core b -> rep_core (f a) = rep_core (g b) /\ ent_id (f a) = ent_id a /\
   ent_unique (f a) = ent_unique (g b)) ->
  match sql_update k f t1, sql_update k g t2 with
  | Some t1', Some t2' => agree t1' t2'
  | None, None => True
  | _, _ => False
  end.
Proof.
  intros Ht Hf. simpl. destruct (map_rows t1 !! k) as [a|] eqn:Ha.
  2:{ by rewrite (agree_None t1 t2 k Ht Ha). }
  destruct (agree_Some t1 t2 k a Ht Ha) as (b & Hb & Hab). rewrite Hb.
  destruct (Hf a b Hab) as (Hc & Hid & Hu). pose proof (map_rows_id _ _ _ Ha) as Hk.
  assert (bool_decide (map_Forall (fun _ c => ~ conflicts (f a) c) (delete k (map_rows t1))) =
        bool_decide (map_Forall (fun _ c => ~ conflicts (g b) c) (delete k (map_rows t2)))) as ->.
  { pose proof (agree_delete t1 t2 k Ht) as Hd. unfold map_rows in *. rewrite <-!map_filter_delete.
  apply bool_decide_ext. split; apply agree_no_conflict; done. }
  rewrite (bool_decide_ext (ent_unique (f a) = ent_unique a) (ent_unique (g b) = ent_unique b)).
  2:{ pose proof (rep_core_unique _ _ Hab). rewrite Hu. naive_solver congruence. }
  destruct (_ || _); [|done]. apply agree_insert; [done..|congruence].
Qed.

Lemma agree_filter t1 t2 (P Q : A -> bool) :
  agree t1 t2 -> (forall a b, rep_core a = rep_core b -> P a = Q b) ->
  agree (deleteWhere P t1) (deleteWhere Q t2).
Proof.
  intros Ht HPQ. unfold agree. apply map_eq. intros k. rewrite !lookup_fmap.
  unfold map_rows, deleteWhere. pose proof (agree_lookup t1 t2 k Ht) as Hk. unfold map_rows in Hk.
  rewrite (map_filter_comm _ _ t1), (map_filter_comm _ _ t2).
  rewrite !(map_lookup_filter _ (filter keyed _)).
  destruct (filter keyed t1 !! k) as [a|], (filter keyed t2 !! k) as [b|]; try done. simpl in *.
  injection Hk as Hk. rewrite (HPQ a b Hk). case_guard; [simpl; by rewrite Hk|done].
Qed.
End agree.

Section agree_repository.
#[local] Set Default Proof Using "Type*".
Context {A : Type} `{RepColumns A, !ColumnsLaws A}.
Implicit Types (t : gmap string A).

(** Results of a statement on two tables. *)
Definition agree_result (r1 r2 : result StoreError (gmap string A)) : Prop :=
  match r1, r2 with
  | Ok t1, Ok t2 => agree t1 t2
  | Err e1, Err e2 => e1 = e2
  | _, _ => False
  end.

Lemma agree_create a t1 t2 : agree t1 t2 -> agree_result (repo_Create a t1) (repo_Create a t2).
Proof.
  intros Ht. simpl. unfold sqliteCreate. pose proof (agree_insert_row t1 t2 (col_save a) Ht) as Hi.
  by destruct (sql_insert _ t1), (sql_insert _ t2).
Qed.

Lemma agree_update n1 n2 a t1 t2 :
  agree t1 t2 -> agree_result (repo_Update n1 a t1) (repo_Update n2 a t2).
Proof.
  intros Ht. simpl. unfold sqliteUpdate.
  set (f := fun o => if bool_decide (ent_id a = ent_id o) then col_assign n1 a o else o).
  set (g := fun o => if bool_decide (ent_id a = ent_id o) then col_assign n2 a o else o).
  assert (sql_update (ent_id a) (col_assign n1 a) t1 = sql_update (ent_id a) f t1) as ->.
  { simpl. destruct (map_rows t1 !! ent_id a) as [o|] eqn:Ho; [|done]. pose proof (map_rows_id _ _ _ Ho).
  assert (f o = col_assign n1 a o) as -> by (unfold f; by rewrite bool_decide_eq_true_2). done. }
  assert (sql_update (ent_id a) (col_assign n2 a) t2 = sql_update (ent_id a) g t2) as ->.
  { simpl. destruct (map_rows t2 !! ent_id a) as [o|] eqn:Ho; [|done]. pose proof (map_rows_id _ _ _ Ho).
  assert (g o = col_assign n2 a o) as -> by (unfold g; by rewrite bool_decide_eq_true_2). done. }
  pose proof (agree_update_row t1 t2 (ent_id a) f g Ht) as Hu.
  cut (forall o1 o2, rep_core o1 = rep_core o2 -> rep_core (f o1) = rep_core (g o2) /\ ent_id (f o1) = ent_id o1 /\
  ent_unique (f o1) = ent_unique (g o2)).
  { intros Hfg. specialize (Hu Hfg). by destruct (sql_update _ f _), (sql_update _ g _). }
  intros o1 o2 Ho. unfold f, g. rewrite <-(rep_core_id _ _ Ho). case_bool_decide as Hid.
  - destruct (rep_assign n1 n2 a o1 o2 Ho Hid) as [Hc Hi]. split_and!; [done..|]. by apply rep_core_unique.
  - split_and!; [done..|]. by apply rep_core_unique.
Qed.

Lemma agree_delete_row k t1 t2 : agree t1 t2 -> agree_result (repo_Delete k t1) (repo_Delete k t2).
Proof. intros Ht. simpl. by apply agree_delete. Qed.
End agree_repository.

(** The entities of [Store.v] with their saved part; a worker's status and the time it
    was last seen come from heartbeats. *)
#[global] Program Instance Session_rep : RepCore Session := { rep_core := ent_core }.
Next Obligation. intros a b Hab. by rewrite <-(ent_core_id a), Hab, ent_core_id. Qed.
Next Obligation. intros a b Hab. by rewrite <-(ent_core_unique a), Hab, ent_core_unique. Qed.
#[global] Program Instance Execution_rep : RepCore Execution := { rep_core := ent_core }.
Next Obligation. intros a b Hab. by rewrite <-(ent_core_id a), Hab, ent_core_id. Qed.
Next Obligation. done. Qed.
#[global] Program Instance Checkpoint_rep : RepCore Checkpoint := { rep_core := ent_core }.
Next Obligation. intros a b Hab. by rewrite <-(ent_core_id a), Hab, ent_core_id. Qed.
Next Obligation. done. Qed.
#[global] Program Instance Service_rep : RepCore Service := { rep_core := ent_core }.
Next Obligation. intros a b Hab. by rewrite <-(ent_core_id a), Hab, ent_core_id. Qed.
Next Obligation. done. Qed.
Definition worker_core (w : Worker) : Worker := mkWorker (w_ID w) (w_Hostname w) (w_IPAddress w) "" (w_Provider w) (w_Region w) (w_Zone w)
    WorkerStatusReady (w_Labels w) (w_Capacity w) (w_AgentVersion w) (w_KVMAvailable w) 0 0 0.
#[global] Program Instance Worker_rep : RepCore Worker := { rep_core := worker_core }.
Next Obligation. intros a b Hab. by pose proof (f_equal w_ID Hab). Qed.
Next Obligation. done. Qed.
#[global] Program Instance Token_rep : RepCore WorkerToken := { rep_core t := t }.
Next Obligation. by intros a b Hab; simpl in Hab; subst. Qed.
Next Obligation. by intros a b Hab; simpl in Hab; subst. Qed.

#[global] Instance Session_repc : RepColumns Session.
Proof. intros n1 n2 a o1 o2 _ Hid. by split. Qed.
#[global] Instance Execution_repc : RepColumns Execution.
Proof.
  intros n1 n2 a o1 o2 Ho Hid. split; [|done]. pose proof (f_equal e_SessionID Ho). pose proof (f_equal e_ID Ho).
  simpl in *. congruence.
Qed.
#[global] Instance Checkpoint_repc : RepColumns Checkpoint.
Proof. intros n1 n2 a o1 o2 Ho Hid. split; [|done]. pose proof (f_equal cp_ID Ho). simpl in *. congruence. Qed.
#[global] Instance Worker_repc : RepColumns Worker.
Proof.
  intros n1 n2 a o1 o2 Ho Hid. split; [|done]. pose proof (f_equal w_ID Ho). unfold rep_core, Worker_rep, worker_core. simpl in *. congruence.
Qed.
#[global] Instance Service_repc : RepColumns Service.
Proof.
  intros n1 n2 a o1 o2 Ho Hid. split; [|done]. pose proof (f_equal sv_ID Ho). simpl in *. unfold sv_with_guest, sv_with_times. simpl. congruence.
Qed.

(** ** One command on two nodes *)

Record db_agree (d1 d2 : Db) : Prop := {
  da_sessions : agree (nd_sessions d1) (nd_sessions d2);
  da_executions : agree (nd_executions d1) (nd_executions d2);
  da_checkpoints : agree (nd_checkpoints d1) (nd_checkpoints d2);
  da_workers : agree (nd_workers d1) (nd_workers d2);
  da_tokens : agree (nd_tokens d1) (nd_tokens d2);
  da_services : agree (nd_services d1) (nd_services d2)
}.
#[global] Instance db_agree_equiv : Equivalence db_agree.
Proof.
  split.
  - intros d. by split.
  - intros d1 d2 []. by split; symmetry.
  - intros d1 d2 d3 [] []. by split; etrans.
Qed.

(** Databases that agree, and the same answer. *)
Definition agree_out (o1 o2 : Db * Res ApplyError unit) : Prop := db_agree o1.1 o2.1 /\ o1.2 = o2.2.

Lemma onTable_agree {A} `{RepCore A} (get : Db -> gmap string A) set f1 f2 d1 d2 :
  db_agree d1 d2 -> agree_result (f1 (get d1)) (f2 (get d2)) ->
  (forall t1 t2, agree t1 t2 -> db_agree (set t1 d1) (set t2 d2)) ->
  agree_out (onTable get set f1 d1) (onTable get set f2 d2).
Proof.
  intros Hd Hf Hset. unfold onTable. destruct (f1 (get d1)), (f2 (get d2)); try done.
  - split; [by apply Hset|done].
  - simpl in Hf. by subst.
Qed.

Lemma size_agree {A} `{RepCore A} (t1 t2 : gmap string A) : agree t1 t2 -> size (map_rows t1) = size (map_rows t2).
Proof. intros Ht. by rewrite <-(map_size_fmap rep_core (map_rows t1)), Ht, map_size_fmap. Qed.

Lemma agree_has_session d1 d2 sid : db_agree d1 d2 -> has_session d1 sid = has_session d2 sid.
Proof. intros Hd. apply bool_decide_ext, agree_is_Some, Hd. Qed.

Lemma agree_childIDs t1 t2 ids : agree t1 t2 -> childIDs t1 ids = childIDs t2 ids.
Proof.
  intros Ht. apply set_eq. intros k. unfold childIDs. rewrite !elem_of_dom.
  assert (forall t t', agree t t' -> is_Some (filter (fun kv => cp_ParentID kv.2 ∈ ids) (map_rows t) !! k) ->
    is_Some (filter (fun kv => cp_ParentID kv.2 ∈ ids) (map_rows t') !! k)) as Himp; [|split; by apply Himp].
  intros t t' Htt [c [Hc Hin]%map_lookup_filter_Some]. destruct (agree_Some t t' k c Htt Hc) as (c' & Hc' & Hcore).
  exists c'. apply map_lookup_filter_Some. split; [done|].
  pose proof (f_equal cp_ParentID Hcore) as Hp. simpl in *. by rewrite <-Hp.
Qed.

Lemma agree_subtree id t1 t2 : agree t1 t2 -> subtree id t1 = subtree id t2.
Proof.
  intros Ht. unfold subtree. rewrite (size_agree _ _ Ht).
  assert (bool_decide (is_Some (map_rows t1 !! id)) = bool_decide (is_Some (map_rows t2 !! id))) as ->
    by (apply bool_decide_ext; by apply agree_is_Some).
  generalize (if bool_decide (is_Some (map_rows t2 !! id)) then {[id]} else ∅ : gset string). intros ids.
  generalize (S (size (map_rows t2))). intros fuel. revert ids.
  induction fuel as [|fuel IH]; intros ids; simpl; [done|]. by rewrite (agree_childIDs _ _ _ Ht), IH.
Qed.

Lemma deleteSessions_agree (P : Session -> bool) d1 d2 :
  db_agree d1 d2 -> (forall a b, rep_core a = rep_core b -> P a = P b) ->
  db_agree (deleteSessions P d1) (deleteSessions P d2).
Proof.
  intros [] HP. assert (forall sid,
    match map_rows (nd_sessions d1) !! sid with Some s => P s | None => false end =
    match map_rows (nd_sessions d2) !! sid with Some s => P s | None => false end) as Hgone.
  { intros sid. pose proof (agree_lookup _ _ sid da_sessions0) as Hs.
    destruct (map_rows (nd_sessions d1) !! sid) as [s1|], (map_rows (nd_sessions d2) !! sid) as [s2|]; try done.
    apply HP. simpl in Hs. by apply (inj Some) in Hs. }
  split; simpl; try done.
  - by apply agree_filter.
  - apply agree_filter; [done|]. intros a b Hab. rewrite Hgone. pose proof (f_equal e_SessionID Hab) as Hs.
    simpl in Hs. by rewrite Hs.
  - apply agree_filter; [done|]. intros a b Hab. rewrite Hgone. pose proof (f_equal cp_SessionID Hab) as Hs.
    simpl in Hs. by rewrite Hs.
Qed.

(** A statement on one table. *)
Ltac on_table Hd := apply onTable_agree; [exact Hd| |by intros; destruct Hd; split].

Lemma onSessions_agree f1 f2 d1 d2 :
  db_agree d1 d2 -> agree_result (f1 (nd_sessions d1)) (f2 (nd_sessions d2)) ->
  agree_out (onSessions f1 d1) (onSessions f2 d2).
Proof. intros Hd Hf. by on_table Hd. Qed.
Lemma onExecutions_agree f1 f2 d1 d2 :
  db_agree d1 d2 -> agree_result (f1 (nd_executions d1)) (f2 (nd_executions d2)) ->
  agree_out (onExecutions f1 d1) (onExecutions f2 d2).
Proof. intros Hd Hf. by on_table Hd. Qed.
Lemma onCheckpoints_agree f1 f2 d1 d2 :
  db_agree d1 d2 -> agree_result (f1 (nd_checkpoints d1)) (f2 (nd_checkpoints d2)) ->
  agree_out (onCheckpoints f1 d1) (onCheckpoints f2 d2).
Proof. intros Hd Hf. by on_table Hd. Qed.
Lemma onWorkers_agree f1 f2 d1 d2 :
  db_agree d1 d2 -> agree_result (f1 (nd_workers d1)) (f2 (nd_workers d2)) ->
  agree_out (onWorkers f1 d1) (onWorkers f2 d2).
Proof. intros Hd Hf. by on_table Hd. Qed.
Lemma onTokens_agree f1 f2 d1 d2 :
  db_agree d1 d2 -> agree_result (f1 (nd_tokens d1)) (f2 (nd_tokens d2)) ->
  agree_out (onTokens f1 d1) (onTokens f2 d2).
Proof. intros Hd Hf. by on_table Hd. Qed.
Lemma onServices_agree f1 f2 d1 d2 :
  db_agree d1 d2 -> agree_result (f1 (nd_services d1)) (f2 (nd_services d2)) ->
  agree_out (onServices f1 d1) (onServices f2 d2).
Proof. intros Hd Hf. by on_table Hd. Qed.

Lemma applySession_agree n1 n2 a d1 d2 :
  clock_free (CmdSession a) = true -> db_agree d1 d2 -> agree_out (applySession n1 a d1) (applySession n2 a d2).
Proof.
  intros Hcf Hd. destruct a as [s|s|id|]; [| | |done].
  - apply onSessions_agree; [done|]. apply agree_create, Hd.
  - apply onSessions_agree; [done|]. apply agree_update, Hd.
  - split; [|done]. apply deleteSessions_agree; [done|]. intros s1 s2 Hs.
    pose proof (rep_core_id _ _ Hs) as Hid. simpl in Hid. by rewrite Hid.
Qed.

Lemma applyExecution_agree n1 n2 a d1 d2 :
  clock_free (CmdExecution a) = true -> db_agree d1 d2 ->
  agree_out (applyExecution n1 a d1) (applyExecution n2 a d2).
Proof.
  intros Hcf Hd. destruct a as [e|e|]; [| |done]; unfold applyExecution.
  - rewrite (agree_has_session _ _ _ Hd). destruct (has_session d2 _); [|by split].
    apply onExecutions_agree; [done|]. apply agree_create, Hd.
  - apply onExecutions_agree; [done|]. apply agree_update, Hd.
Qed.

Lemma applyCheckpoint_agree n1 n2 a d1 d2 :
  db_agree d1 d2 -> agree_out (applyCheckpoint n1 a d1) (applyCheckpoint n2 a d2).
Proof.
  intros Hd. destruct a as [c|c|id|id]; unfold applyCheckpoint.
  - rewrite (agree_has_session _ _ _ Hd). destruct (has_session d2 _); [|by split].
    apply onCheckpoints_agree; [done|]. apply agree_create, Hd.
  - assert (bool_decide (is_Some (map_rows (nd_checkpoints d1) !! cp_ID c)) =
            bool_decide (is_Some (map_rows (nd_checkpoints d2) !! cp_ID c))) as ->
      by (apply bool_decide_ext, agree_is_Some, Hd).
    rewrite (agree_has_session _ _ _ Hd). destruct (has_session d2 _ || _); [|by split].
    apply onCheckpoints_agree; [done|]. apply agree_update, Hd.
  - apply onCheckpoints_agree; [done|]. apply agree_delete_row, Hd.
  - rewrite (agree_subtree id _ _ (da_checkpoints _ _ Hd)). destruct (subtree _ _) as [ids|]; [|by split].
    apply onCheckpoints_agree; [done|]. apply agree_filter; [apply Hd|]. intros c1 c2 Hc.
    pose proof (rep_core_id _ _ Hc) as Hid. simpl in Hid. by rewrite Hid.
Qed.

Lemma updateWhere_agree {A} `{RepCore A} id (f g : A -> A) t1 t2 :
  agree t1 t2 ->
  (forall a b, rep_core a = rep_core b -> rep_core (f a) = rep_core (g b) /\ ent_id (f a) = ent_id a /\
     ent_unique (f a) = ent_unique (g b)) ->
  agree_result (updateWhere id f t1) (updateWhere id g t2).
Proof.
  intros Ht Hf. unfold updateWhere. pose proof (agree_update_row t1 t2 id f g Ht Hf) as Hu.
  by destruct (sql_update id f t1), (sql_update id g t2).
Qed.

Lemma beat_agree n1 n2 hb1 hb2 w1 w2 :
  rep_core w1 = rep_core w2 ->
  rep_core (beat n1 hb1 w1) = rep_core (beat n2 hb2 w2) /\ ent_id (beat n1 hb1 w1) = ent_id w1 /\
  ent_unique (beat n1 hb1 w1) = ent_unique (beat n2 hb2 w2).
Proof. done. Qed.

Lemma applyWorker_agree n1 n2 a d1 d2 :
  db_agree d1 d2 -> agree_out (applyWorker n1 a d1) (applyWorker n2 a d2).
Proof.
  intros Hd. destruct a as [w|w|id|id hb]; unfold applyWorker; apply onWorkers_agree; try done.
  - apply agree_create, Hd.
  - apply agree_update, Hd.
  - apply agree_delete_row, Hd.
  - apply updateWhere_agree; [apply Hd|]. intros w1 w2 Hw. by apply beat_agree.
Qed.

Lemma applyToken_agree a d1 d2 : db_agree d1 d2 -> agree_out (applyToken a d1) (applyToken a d2).
Proof.
  intros Hd. destruct a as [t|id|id w|b]; unfold applyToken; apply onTokens_agree; try done.
  - pose proof (agree_insert_row _ _ (savedToken t) (da_tokens _ _ Hd)) as Hi. unfold createToken.
    by destruct (sql_insert _ (nd_tokens d1)), (sql_insert _ (nd_tokens d2)).
  - apply agree_delete, Hd.
  - apply updateWhere_agree; [apply Hd|]. intros t1 t2 Ht. simpl in Ht. by subst.
  - apply agree_filter; [apply Hd|]. intros t1 t2 Ht. simpl in Ht. by subst.
Qed.

Lemma applyService_agree n1 n2 a d1 d2 :
  db_agree d1 d2 -> agree_out (applyService n1 a d1) (applyService n2 a d2).
Proof.
  intros Hd. destruct a as [s|s|id]; unfold applyService; apply onServices_agree; try done.
  - apply agree_create, Hd.
  - apply agree_update, Hd.
  - apply agree_delete_row, Hd.
Qed.

(** One entry on two nodes, at any two times. *)
Lemma applyLocal_agree n1 n2 cmd d1 d2 :
  clock_free cmd = true -> db_agree d1 d2 -> agree_out (applyLocal n1 cmd d1) (applyLocal n2 cmd d2).
Proof.
  intros Hcf Hd. destruct cmd as [a|a|a|a|a|a|e a]; simpl; [| | | | | |done].
  - by apply applySession_agree.
  - by apply applyExecution_agree.
  - by apply applyCheckpoint_agree.
  - by apply applyWorker_agree.
  - by apply applyToken_agree.
  - by apply applyService_agree.
Qed.

(** ** The cluster *)

(** A cluster of new nodes. *)
Definition boot (ids : gset nat) : Cluster := mkCluster [] (gset_to_gmap (mkNode 0 emptyDb []) ids).

Lemma runLog_snoc now log cmd d d' l :
  runLog now log d = Some (d', l) ->
  runLog now (log ++ [cmd]) d =
  match applyLocal now cmd d' with
  | (_, Stuck) => None
  | (d'', a) => Some (d'', l ++ [a])
  end.
Proof.
  revert d l. induction log as [|c log IH]; intros d l Hrun; simpl in *.
  - injection Hrun as <- <-. by destruct (applyLocal now cmd d) as [d'' []].
  - destruct (applyLocal now c d) as [d1 a] eqn:Ha.
    destruct a; try done; destruct (runLog now log d1) as [[d2 l2]|] eqn:Hl; try done; simpl in *;
      injection Hrun as -> <-; rewrite (IH _ _ Hl); by destruct (applyLocal now cmd d') as [d'' []].
Qed.

(** A heartbeat changes nothing the nodes have to agree on. *)
Lemma heartbeat_agree now id hb d : db_agree (applyWorker now (WrkUpdateHeartbeat id hb) d).1 d.
Proof.
  simpl. unfold onWorkers, onTable, updateWhere. simpl.
  destruct (map_rows (nd_workers d) !! id) as [w|] eqn:Hw; simpl; [|done].
  match goal with |- context [if ?b then _ else _] => destruct b end; [|done].
  split; simpl; try done.
  assert (nd_workers d = <[id := w]> (nd_workers d)) as Hsame.
  { symmetry. apply insert_id. by apply map_lookup_filter_Some in Hw as [? _]. }
  etrans; [by apply (agree_insert _ (nd_workers d) id (beat now hb w) w);
           [done|done|exact (map_rows_id _ _ _ Hw)]|].
  by rewrite <-Hsame.
Qed.

(** What the node has applied so far has no purge in it. *)
Definition unpurged (log : list storeCmd) (n : Node) : Prop :=
  Forall (fun cmd => clock_free cmd = true) (take (n_applied n) log).

(** What holds of every node: until a purge it is the single copy after the entries it
    applied. *)
Definition node_ok (log : list storeCmd) (n : Node) : Prop :=
  n_applied n <= length log /\
  (unpurged log n -> forall now, exists d l, runLog now (take (n_applied n) log) emptyDb = Some (d, l) /\
    db_agree (n_db n) d /\ n_answers n = l).

Lemma node_ok_write log cmd n : node_ok log n -> node_ok (log ++ [cmd]) n.
Proof.
  intros [Hle Hrun]. split; [rewrite length_app; lia|]. unfold unpurged. rewrite take_app_le by done. exact Hrun.
Qed.

Lemma node_ok_apply log cmd now n d a :
  node_ok log n -> log !! n_applied n = Some cmd ->
  applyLocal now cmd (n_db n) = (d, a) -> a <> Stuck ->
  node_ok log (mkNode (S (n_applied n)) d (n_answers n ++ [a])).
Proof.
  intros [Hle Hrun] Hcmd Hap Ha. split; [apply lookup_lt_Some in Hcmd; simpl; lia|]. unfold unpurged. cbn [n_applied].
  intros Hun now'. rewrite (take_S_r _ _ _ Hcmd) in Hun. apply Forall_app in Hun as [Hun [Hcf _]%Forall_cons].
  cbn [n_db n_answers]. destruct (Hrun Hun now') as (d0 & l & Hr & Hd & Hl). rewrite (take_S_r _ _ _ Hcmd), (runLog_snoc _ _ _ _ _ _ Hr).
  destruct (applyLocal_agree now now' cmd _ _ Hcf Hd) as [Hd' Ha']. rewrite Hap in Hd', Ha'.
  destruct (applyLocal now' cmd d0) as [d1 a1]. simpl in *. subst a1.
  destruct a as [v|e|]; [exists d1, (l ++ [Ret v])|exists d1, (l ++ [Fail e])|done]; split_and!; congruence.
Qed.

Lemma node_ok_heartbeat log n now id hb d a :
  node_ok log n -> applyWorker now (WrkUpdateHeartbeat id hb) (n_db n) = (d, a) ->
  node_ok log (mkNode (n_applied n) d (n_answers n)).
Proof.
  intros [Hle Hrun] Hhb. split; [done|]. intros Hun now'. destruct (Hrun Hun now') as (d0 & l & Hr & Hd & Hl).
  exists d0, l. split_and!; [done| |done]. pose proof (heartbeat_agree now id hb (n_db n)) as Ha.
  rewrite Hhb in Ha. simpl in *. by etrans.
Qed.


(** ** Examples *)

(** What can happen to a cluster. *)
Inductive ClusterEvent :=
  | EvWrite (cmd : storeCmd)
  | EvApply (i : nat) (now : Z)
  | EvHeartbeat (i : nat) (id : string) (hb : Heartbeat) (now : Z).

Definition happen (e : ClusterEvent) (c : Cluster) : option Cluster :=
  match e with
  | EvWrite cmd => Some (mkCluster (cl_log c ++ [cmd]) (cl_nodes c))
  | EvApply i now =>
      n ← cl_nodes c !! i; cmd ← cl_log c !! n_applied n;
      match applyLocal now cmd (n_db n) with
      | (_, Stuck) => None
      | (d, a) => Some (mkCluster (cl_log c) (<[i := mkNode (S (n_applied n)) d (n_answers n ++ [a])]> (cl_nodes c)))
      end
  | EvHeartbeat i id hb now =>
      n ← cl_nodes c !! i;
      Some (mkCluster (cl_log c)
        (<[i := mkNode (n_applied n) (applyWorker now (WrkUpdateHeartbeat id hb) (n_db n)).1 (n_answers n)]> (cl_nodes c)))
  end.
Definition happens (es : list ClusterEvent) (c : Cluster) : option Cluster :=
  fold_left (fun oc e => oc ≫= happen e) es (Some c).

Lemma happen_step e c c' : happen e c = Some c' -> cstep c c'.
Proof.
  destruct e as [cmd|i now|i id hb now]; simpl; intros He.
  - injection He as <-. constructor.
  - destruct (cl_nodes c !! i) as [n|] eqn:Hn; [|done]. simpl in He.
    destruct (cl_log c !! n_applied n) as [cmd|] eqn:Hc; [|done]. simpl in He.
    destruct (applyLocal now cmd (n_db n)) as [d a] eqn:Ha.
    assert (a <> Stuck) by (by intros ->). destruct a; simplify_eq; by econstructor.
  - destruct (cl_nodes c !! i) as [n|] eqn:Hn; [|done]. simpl in He. injection He as <-.
    econstructor; [done|]. apply surjective_pairing.
Qed.

Lemma happens_None es : fold_left (fun oc e => oc ≫= happen e) es None = None.
Proof. by induction es. Qed.

Lemma happens_steps es c c' : happens es c = Some c' -> rtc cstep c c'.
Proof.
  unfold happens. revert c. induction es as [|e es IH]; intros c; simpl.
  - intros [= ->]. done.
  - destruct (happen e c) as [c1|] eqn:He; [|by rewrite happens_None]. intros Hc.
    eapply rtc_l; [by eapply happen_step|by apply IH].
Qed.

Definition demoSession (id : string) (st : SessionStatus) : Session :=
  mkSession id id st ModeExecute "w" "" "" "" 1 512 ∅ [] [] DefaultExecPolicy 0 true "" 0 0 0.
Definition demoCheckpoint (id parent : string) : Checkpoint :=
  mkCheckpoint id "s" parent CheckpointLight CheckpointStatusReady "" "" "" "" 0.
Definition demoToken (id : string) (expires : Z) : WorkerToken := mkToken id id id expires false "" 0.

Definition minutes (n : Z) : Z := (n * 60 * Second)%Z.

(** Two nodes apply three entries, the second one an hour later. *)
Definition demoEvents : list ClusterEvent :=
  [EvWrite (CmdSession (SesCreate (demoSession "s" SessionStatusRunning)));
   EvWrite (CmdCheckpoint (CkpCreate (demoCheckpoint "c" "")));
   EvWrite (CmdSession (SesUpdate (demoSession "s" SessionStatusTerminated)));
   EvApply 0 (minutes 1); EvApply 0 (minutes 2); EvApply 0 (minutes 3);
   EvApply 1 (minutes 61); EvApply 1 (minutes 62); EvApply 1 (minutes 63)].
Definition demoNodes : gset nat := {[0; 1]}.
Definition demoCluster : Cluster := default (boot ∅) (happens demoEvents (boot demoNodes)).

(** What a node's database has of a session. *)
Definition nodeSession (i : nat) (id : string) (c : Cluster) : option Session :=
  n ← cl_nodes c !! i; nd_sessions (n_db n) !! id.


(** A purge compares the time the node itself wrote the row: after it one node has the
    session and its checkpoint and the other has neither. *)
Lemma purge_diverges :
  exists c, happens (demoEvents ++ [EvWrite (CmdSession (SesDeleteTerminatedBefore (minutes 30)));
                                    EvApply 0 (minutes 90); EvApply 1 (minutes 90)]) (boot demoNodes) = Some c /\
    nodeSession 0 "s" c = None /\ is_Some (nodeSession 1 "s" c) /\
    n_applied <$> cl_nodes c !! 0 = n_applied <$> cl_nodes c !! 1.
Proof. eexists. split; [reflexivity|]. split; [by vm_compute|]. split; [vm_compute; by eexists|by vm_compute]. Qed.

(** Deleting below a checkpoint that is its own ancestor does not end: the node's apply
    loop stops there. *)
Lemma subtree_cycle :
  subtree "a" (<["a" := demoCheckpoint "a" "b"]> (<["b" := demoCheckpoint "b" "a"]> ∅)) = None.
Proof. by vm_compute. Qed.

(** A token without an expiry is valid for ever, and purged as expired. *)
Lemma unexpiring_token_purged now :
  IsValid now (demoToken "t" 0) = true /\
  (applyToken (TokDeleteExpiredBefore (minutes 1)) (nd_with_tokens (<["t" := demoToken "t" 0]> ∅) emptyDb)).1
  = emptyDb.
Proof. split; [done|by vm_compute]. Qed.
