(* ===== verification/Registry.v ===== *)
(** * The control plane's state and the worker registry

    The state the managers share (the repositories and the in-memory registry of
    connected workers), the monad of their operations, and the registry itself
    ([src/internal/controlplane/worker/registry.go]): registration, command
    channels, heartbeats. Operations are atomic; a blocked send stops its goroutine. *)

From stdpp Require Import options.
From S2P Require Import Prelude Effects GoStrings Float64 Words Filesystem Network Policy Entities Store.
Open Scope nat_scope.

(** ** Commands and connections *)

Record LaunchSessionData := mkLaunch {
  ls_SessionID : string;
  ls_ImageRef : string;
  ls_Mode : ExecMode;
  ls_ExecPolicy : ExecPolicy;
  ls_VCPUs : Z;
  ls_MemoryMB : Z;
  ls_RootfsPath : string;
  ls_SnapshotMemPath : string;
  ls_SnapshotVMStatePath : string;
  ls_Mounts : list Volume
}.

Record LaunchServiceData := mkLaunchService {
  lv_ServiceID : string;
  lv_ImageRef : string;
  lv_VCPUs : Z;
  lv_MemoryMB : Z;
  lv_RootfsPath : string;
  lv_LayerPackPath : string;
  lv_Command : string;
  lv_Args : list string;
  lv_Env : gmap string string;
  lv_Workdir : string;
  lv_Port : Z;
  lv_BundleKey : string;
  lv_RestartPolicy : string;
  lv_Mounts : list Volume;
  lv_SnapshotMemPath : string;
  lv_SnapshotVMStatePath : string;
  lv_IsAppSnapshotRestore : bool;
  lv_HealthPath : string
}.

(** [ServiceRoute] of the registry: a line of the route table pushed to the workers. *)
Record RouteEntry := mkRouteEntry {
  re_ID : string;
  re_Name : string;
  re_WorkerIP : string;
  re_Port : Z;
  re_Engine : string;
  re_Role : string
}.

(** A command with its payload; its random identifier is left out.  [stop_session] is sent
    with two payloads: a map by the managers, a [StopSessionData] by the garbage collector. *)
Inductive WorkerCommand :=
  | CLaunchSession (data : LaunchSessionData)
  | CStopSession (sessionID : string)
  | CStopSessionData (sessionID : string)
  | CCleanupSession (sessionID : string)
  | CPauseSession (sessionID : string)
  | CResumeSession (sessionID : string)
  | CSetMode (sessionID : string) (mode : ExecMode)
  | CExec (sessionID execID : string) (commands : list Command) (parallel : bool)
  | CApproveGate (sessionID commandID : string) (addToWhitelist : bool)
  | CDenyGate (sessionID commandID reason : string)
  | CCancelExec (sessionID execID : string)
  | CCreateCheckpoint (sessionID checkpointID : string) (type : CheckpointType)
  | CRestoreCheckpoint (sessionID checkpointID overlayKey : string)
  | CDrain (timeoutSeconds : Z)
  | CLaunchService (data : LaunchServiceData)
  | CStopService (serviceID : string)
  | CSnapshotService (serviceID : string)
  | CServiceStatus (serviceID : string)
  | CServiceExec (serviceID : string) (commands : list Command)
  | CUpdateRoutes (version : Z) (routes : list RouteEntry).

Definition commandType (cmd : WorkerCommand) : string :=
  match cmd with
  | CLaunchSession _ => "launch_session"
  | CStopSession _ | CStopSessionData _ => "stop_session"
  | CCleanupSession _ => "cleanup_session"
  | CPauseSession _ => "pause_session"
  | CResumeSession _ => "resume_session"
  | CSetMode _ _ => "set_mode"
  | CExec _ _ _ _ => "exec"
  | CApproveGate _ _ _ => "approve_gate"
  | CDenyGate _ _ _ => "deny_gate"
  | CCancelExec _ _ => "cancel_exec"
  | CCreateCheckpoint _ _ _ => "create_checkpoint"
  | CRestoreCheckpoint _ _ _ => "restore_checkpoint"
  | CDrain _ => "drain"
  | CLaunchService _ => "launch_service"
  | CStopService _ => "stop_service"
  | CSnapshotService _ => "snapshot_service"
  | CServiceStatus _ => "service_status"
  | CServiceExec _ _ => "service_exec"
  | CUpdateRoutes _ _ => "update_routes"
  end.

Record WorkerConn := mkConn {
  wc_Worker : Worker;
  wc_CmdChan : list WorkerCommand;
  wc_SessionCount : Z;
  wc_Usage : ResourceUsage
}.

(** [make(chan WorkerCommand, 256)] *)
Definition cmdChanCap : nat := 256.

Definition with_chan_queue (q : list WorkerCommand) (c : WorkerConn) : WorkerConn :=
  mkConn (wc_Worker c) q (wc_SessionCount c) (wc_Usage c).
Definition with_worker (w : Worker) (c : WorkerConn) : WorkerConn :=
  mkConn w (wc_CmdChan c) (wc_SessionCount c) (wc_Usage c).
Definition with_status (s : WorkerStatus) (w : Worker) : Worker :=
  mkWorker (w_ID w) (w_Hostname w) (w_IPAddress w) (w_PrivateIP w) (w_Provider w) (w_Region w)
    (w_Zone w) s (w_Labels w) (w_Capacity w) (w_AgentVersion w) (w_KVMAvailable w)
    (w_CreatedAt w) (w_UpdatedAt w) (w_LastSeen w).
Definition with_last_seen (t : Z) (w : Worker) : Worker :=
  mkWorker (w_ID w) (w_Hostname w) (w_IPAddress w) (w_PrivateIP w) (w_Provider w) (w_Region w)
    (w_Zone w) (w_Status w) (w_Labels w) (w_Capacity w) (w_AgentVersion w) (w_KVMAvailable w)
    (w_CreatedAt w) (w_UpdatedAt w) t.
Definition with_updated (t : Z) (w : Worker) : Worker :=
  mkWorker (w_ID w) (w_Hostname w) (w_IPAddress w) (w_PrivateIP w) (w_Provider w) (w_Region w)
    (w_Zone w) (w_Status w) (w_Labels w) (w_Capacity w) (w_AgentVersion w) (w_KVMAvailable w)
    (w_CreatedAt w) t (w_LastSeen w).

(** ** The monad of the managers *)

Inductive MgrError :=
  | EStore (e : StoreError)
  | ENotConnected (workerID : string)
  | EChannelFull (workerID : string)
  | ENoWorkers
  | ENoMatch
  | ENoWorker
  | EStatus (s : SessionStatus)
  | EMode (from to : ExecMode)
  | EPolicy (e : PolicyError)
  | ETooManyParallel (n max : Z)
  | EDispatch (e : MgrError)
  | EExecStatus (s : ExecStatus)
  | ECheckpointStatus (s : CheckpointStatus)
  | EAlreadyOnWorker (workerID : string)
  | EMigrationFailed
  | EMigrationTimeout
  | ENotDraining (s : WorkerStatus).

(** The clock, and how many commands each worker takes from its channel while a
    sender waits ten seconds for room. *)
Record Env := mkEnv { env_now : Z; env_taken : string -> nat }.

Section control_plane.
#[local] Set Default Proof Using "Type*".
Context {TS TE TC TW : Type}.
Context `{!Repository Session TS, !Repository Execution TE, !Repository Checkpoint TC,
      !Repository Worker TW}.

(** The repositories and the registry. *)
Record ControlPlane := mkCP {
  cp_sessions : TS;
  cp_executions : TE;
  cp_checkpoints : TC;
  cp_workers : TW;
  cp_registry : gmap string WorkerConn
}.

#[local] Abbreviation M := (StateM ControlPlane MgrError).

(** Repository calls. *)
Definition lift {A} (r : result StoreError A) (set : A -> ControlPlane -> ControlPlane) : M A :=
  fun cp => match r with Ok a => (set a cp, Ret a) | Err e => (cp, Fail (EStore e)) end.

Definition set_sessions (t : TS) (cp : ControlPlane) : ControlPlane :=
  mkCP t (cp_executions cp) (cp_checkpoints cp) (cp_workers cp) (cp_registry cp).
Definition set_executions (t : TE) (cp : ControlPlane) : ControlPlane :=
  mkCP (cp_sessions cp) t (cp_checkpoints cp) (cp_workers cp) (cp_registry cp).
Definition set_checkpoints (t : TC) (cp : ControlPlane) : ControlPlane :=
  mkCP (cp_sessions cp) (cp_executions cp) t (cp_workers cp) (cp_registry cp).
Definition set_workers (t : TW) (cp : ControlPlane) : ControlPlane :=
  mkCP (cp_sessions cp) (cp_executions cp) (cp_checkpoints cp) t (cp_registry cp).
Definition set_registry (r : gmap string WorkerConn) (cp : ControlPlane) : ControlPlane :=
  mkCP (cp_sessions cp) (cp_executions cp) (cp_checkpoints cp) (cp_workers cp) r.

(** [m.store.Sessions()] and the other repositories. *)
Definition on_sessions (f : TS -> result StoreError TS) : M unit := fun cp =>
  match f (cp_sessions cp) with
  | Ok t => (set_sessions t cp, Ret tt) | Err e => (cp, Fail (EStore e)) end.
Definition on_executions (f : TE -> result StoreError TE) : M unit := fun cp =>
  match f (cp_executions cp) with
  | Ok t => (set_executions t cp, Ret tt) | Err e => (cp, Fail (EStore e)) end.
Definition on_checkpoints (f : TC -> result StoreError TC) : M unit := fun cp =>
  match f (cp_checkpoints cp) with
  | Ok t => (set_checkpoints t cp, Ret tt) | Err e => (cp, Fail (EStore e)) end.
Definition on_workers (f : TW -> result StoreError TW) : M unit := fun cp =>
  match f (cp_workers cp) with
  | Ok t => (set_workers t cp, Ret tt) | Err e => (cp, Fail (EStore e)) end.
Definition reads {A} (f : ControlPlane -> result StoreError A) : M A := fun cp =>
  match f cp with Ok a => (cp, Ret a) | Err e => (cp, Fail (EStore e)) end.

(** ** The registry *)

Definition updateConn (workerID : string) (f : WorkerConn -> WorkerConn) : M unit :=
  modify (fun cp => set_registry (alter f workerID (cp_registry cp)) cp).

(** [r.workers[workerID]] *)
Definition getConn (workerID : string) : M (option WorkerConn) :=
  gets (fun cp => cp_registry cp !! workerID).

(** [uuid]: the random identifier; the join callback runs in its own goroutine. *)
Definition Register (env : Env) (uuid hostname ipAddr provider region zone agentVersion : string)
  (capacity : ResourceCapacity) (labels : gmap string string) (kvmAvailable : bool) : M Worker :=
  let now := env_now env in
  let w := mkWorker uuid hostname ipAddr "" provider region zone WorkerStatusReady labels capacity
           agentVersion kvmAvailable now now now in
  _ ← on_workers (repo_Create w);
  _ ← modify (fun cp =>
        set_registry (<[w_ID w := mkConn w [] 0 (mkUsage fzero 0 0)]> (cp_registry cp)) cp);
  mret w.

Definition Unregister (id : string) : M unit := fun cp =>
  (set_registry (delete id (cp_registry cp)) cp, Ret tt).

Definition CleanupDead : M nat := fun cp =>
  let dead := filter (fun kv => w_Status (wc_Worker kv.2) = WorkerStatusDead) (cp_registry cp) in
  (set_registry (cp_registry cp ∖ dead) cp, Ret (size dead)).

Definition isHealthy (w : Worker) : bool :=
  bool_decide (w_Status w = WorkerStatusReady) || bool_decide (w_Status w = WorkerStatusBusy).

(** [order]: the connections in the order of the [range]. *)
Definition ListHealthy (order : list WorkerConn) : list string :=
  w_ID ∘ wc_Worker <$> filter (fun c => isHealthy (wc_Worker c) = true) order.

Definition PickWorker (order : list WorkerConn) : option WorkerConn :=
  List.find (fun c => bool_decide (w_Status (wc_Worker c) = WorkerStatusReady)) order.

Definition isCriticalCommand (cmdType : string) : bool :=
  bool_decide (cmdType ∈ ["stop_session"; "drain"; "checkpoint"]).

(** The two sends: critical commands wait for room, the others do not. *)
Definition SendCommand (env : Env) (workerID : string) (cmd : WorkerCommand) : M unit :=
  conn ← getConn workerID;
  match conn with
  | None => fail (ENotConnected workerID)
  | Some conn =>
      let q := wc_CmdChan conn in
      let q := if isCriticalCommand (commandType cmd) && (cmdChanCap <=? length q)
      then drop (env_taken env workerID) q else q in
      if length q <? cmdChanCap then updateConn workerID (with_chan_queue (q ++ [cmd]))
      else fail (EChannelFull workerID)
  end.

(** [wc.CmdChan <- cmd] for a worker that is connected. *)
Definition sendBlocking (workerID : string) (cmd : WorkerCommand) : M unit := fun cp =>
  match cp_registry cp !! workerID with
  | None => (cp, Ret tt)
  | Some conn =>
      if length (wc_CmdChan conn) <? cmdChanCap
      then updateConn workerID (with_chan_queue (wc_CmdChan conn ++ [cmd])) cp
      else (cp, Stuck)
  end.

Definition storeHeartbeat (now : Z) (id : string) (hb : Heartbeat) : M unit :=
  w ← attempt (reads (fun cp => repo_Get id (cp_workers cp)));
  match w with
  | Ok w => on_workers (repo_Update now (with_last_seen (hb_Timestamp hb) (with_status (hb_Status hb) w)))
  | Err _ => mret tt
  end.

Definition UpdateHeartbeat (env : Env) (workerID : string) (hb : Heartbeat) : M unit :=
  conn ← getConn workerID;
  match conn with
  | None => fail (ENotConnected workerID)
  | Some conn =>
      _ ← updateConn workerID (fun c =>
        mkConn (with_status (hb_Status hb) (with_last_seen (hb_Timestamp hb) (wc_Worker c)))
        (wc_CmdChan c) (hb_SessionCount hb) (hb_Usage hb));
      storeHeartbeat (env_now env) workerID hb
  end.
End control_plane.
Arguments ControlPlane : clear implicits.
Abbreviation M TS TE TC TW := (StateM (ControlPlane TS TE TC TW) MgrError).

(** ** Sending *)

(** Commands are appended to the queue of a connected worker. *)
Definition appended (wid : string) (cmds : list WorkerCommand) (r r' : gmap string WorkerConn)
  : Prop :=
  exists conn, r !! wid = Some conn /\
  r' = <[wid := with_chan_queue (wc_CmdChan conn ++ cmds) conn]> r.

Lemma appended_app wid a b r r1 r2 :
  appended wid a r r1 -> appended wid b r1 r2 -> appended wid (a ++ b) r r2.
Proof.
  intros (conn & Hc & ->) (conn' & Hc' & ->). rewrite lookup_insert_eq in Hc'. injection Hc' as <-.
  exists conn. split; [done|]. rewrite insert_insert_eq. simpl. by rewrite app_assoc.
Qed.

Lemma alter_appended wid q (r : gmap string WorkerConn) conn :
  r !! wid = Some conn ->
  alter (with_chan_queue q) wid r = <[wid := with_chan_queue q conn]> r.
Proof.
  intros Hc. apply map_eq. intros k. destruct (decide (k = wid)) as [->|Hne].
  - by rewrite lookup_insert_eq, lookup_alter_eq, Hc.
  - by rewrite lookup_insert_ne, lookup_alter_ne by done.
Qed.

Section sending.
#[local] Set Default Proof Using "Type*".
Context {TS TE TC TW : Type} (env : Env).
Implicit Types cp : ControlPlane TS TE TC TW.

Lemma set_registry_id cp : set_registry (cp_registry cp) cp = cp.
Proof. by destruct cp. Qed.

(** A command that may be dropped. *)
Lemma SendCommand_spec wid cmd cp :
  isCriticalCommand (commandType cmd) = false ->
  (exists r', SendCommand env wid cmd cp = (set_registry r' cp, Ret tt) /\
   appended wid [cmd] (cp_registry cp) r') \/
  (exists e, SendCommand env wid cmd cp = (cp, Fail e)).
Proof.
  intros Hcrit. unfold SendCommand. erewrite bind_Ret by done. rewrite Hcrit.
  destruct (cp_registry cp !! wid) as [conn|] eqn:Hc; [|right; by eexists]. cbn [andb].
  destruct (_ <? cmdChanCap); [left|right; by eexists].
  eexists. split; [done|]. exists conn. split; [done|]. by apply alter_appended.
Qed.

(** A critical one finds room or waits for the worker to take something. *)
Lemma SendCommand_frame wid cmd cp :
  exists r' res, SendCommand env wid cmd cp = (set_registry r' cp, res) /\
  (res = Ret tt \/ exists e, res = Fail e) /\
  (forall k, k <> wid -> r' !! k = cp_registry cp !! k) /\
  (res = Ret tt -> exists conn n, cp_registry cp !! wid = Some conn /\
   r' !! wid = Some (with_chan_queue (drop n (wc_CmdChan conn) ++ [cmd]) conn)) /\
  (res <> Ret tt -> r' = cp_registry cp).
Proof.
  unfold SendCommand. erewrite bind_Ret by done.
  destruct (cp_registry cp !! wid) as [conn|] eqn:Hc.
  2: { exists (cp_registry cp), (Fail (ENotConnected wid)). split_and!; [by destruct cp|right; by eexists|done..]. }
  set (q := if isCriticalCommand _ && _ then _ else _).
  destruct (_ <? cmdChanCap).
  - eexists _, _. split_and!; [done|by left| | |done].
  + intros k Hk. by rewrite lookup_alter_ne.
  + intros _. exists conn. rewrite lookup_alter_eq, Hc. simpl.
  destruct (isCriticalCommand _ && _); [by exists (env_taken env wid)|by exists 0].
  - exists (cp_registry cp), (Fail (EChannelFull wid)).
  split_and!; [by destruct cp|right; by eexists|done..].
Qed.

Lemma sendBlocking_spec wid cmd cp :
  (exists r', sendBlocking wid cmd cp = (set_registry r' cp, Ret tt) /\
   (r' = cp_registry cp /\ cp_registry cp !! wid = None \/ appended wid [cmd] (cp_registry cp) r')) \/
  sendBlocking wid cmd cp = (cp, Stuck).
Proof.
  unfold sendBlocking. destruct (cp_registry cp !! wid) as [conn|] eqn:Hc.
  - destruct (_ <? cmdChanCap); [left|by right]. eexists. split; [done|]. right.
  exists conn. split; [done|]. by apply alter_appended.
  - left. exists (cp_registry cp). split; [by destruct cp|by left].
Qed.

(** Whatever becomes of the send, an ignored one succeeds; with room the command is queued. *)
Lemma ignore_send wid cmd cp :
  exists r', ignore (SendCommand env wid cmd) cp = (set_registry r' cp, Ret tt) /\
  (forall k, k <> wid -> r' !! k = cp_registry cp !! k) /\
  (forall conn, cp_registry cp !! wid = Some conn -> length (wc_CmdChan conn) < cmdChanCap ->
   r' !! wid = Some (with_chan_queue (wc_CmdChan conn ++ [cmd]) conn)).
Proof.
  destruct (SendCommand_frame wid cmd cp) as (r' & res & Hs & Hres & Hk & _).
  exists r'. split_and!; [|done|].
  - unfold ignore, mbind, StateM_bind, attempt. rewrite Hs. by destruct Hres as [->|(e & ->)].
  - intros conn Hconn Hlen. revert Hs. unfold SendCommand. erewrite bind_Ret by done. rewrite Hconn.
  rewrite (proj2 (Nat.leb_gt _ _)), andb_false_r, (proj2 (Nat.ltb_lt _ _)) by lia.
  intros [= Hreg _]. rewrite <-Hreg, lookup_alter_eq, Hconn. done.
Qed.
End sending.
