(* ===== verification/Scheduler.v ===== *)
(** * The scheduler ([src/internal/controlplane/scheduler/scheduler.go])

    Eligibility, the score in IEEE double precision, and [Pick]. The registry lists
    its workers in no fixed order, so the theorems hold for every order. *)

From stdpp Require Import sorting options.
From Stdlib Require Import SpecFloat.
From S2P Require Import Prelude Effects GoStrings Float64 Words Entities Store Registry.
Open Scope nat_scope.

Definition StrategySpread : string := "spread".
Definition StrategyBinPack : string := "binpack".

Record Constraints := mkConstraints {
  ct_RequireLabels : gmap string string;
  ct_PreferRegion : string;
  ct_PreferProvider : string;
  ct_ExcludeWorkers : list string;
  ct_PreferWorkers : list string
}.

(** [New]: the strategy when none is given. *)
Definition newStrategy (strategy : string) : string :=
  if String.eqb strategy "" then StrategySpread else strategy.

(** [w.Labels[k]] of a missing label is the empty string. *)
Definition isEligible (w : Worker) (c : Constraints) : bool :=
  if negb (bool_decide (w_Status w = WorkerStatusReady))
     && negb (bool_decide (w_Status w = WorkerStatusBusy)) then false
  else if bool_decide (w_ID w ∈ ct_ExcludeWorkers c) then false
  else bool_decide (map_Forall (fun k v => default "" (w_Labels w !! k) = v) (ct_RequireLabels c)).

Definition score (strategy : string) (constraints : Constraints) (c : WorkerConn) : float64 :=
  let w := wc_Worker c in
  match w_Status w with
  | WorkerStatusReady | WorkerStatusBusy =>
      let score := fadd fzero (of_int (match w_Status w with WorkerStatusReady => 100 | _ => 50 end)) in
      let usedRatio := fdiv (of_int (wc_SessionCount c))
                         (of_int (Z.max (rc_CPUCores (w_Capacity w)) 1)) in
      let score :=
        if String.eqb strategy StrategySpread
        then fadd score (fmul (fsub (of_int 1) usedRatio) (of_int 50))
        else if String.eqb strategy StrategyBinPack
        then (if fltb usedRatio (of_decimal 95 2)
              then fadd score (fmul usedRatio (of_int 50)) else score)
        else score in
      let score :=
        if negb (String.eqb (ct_PreferRegion constraints) "")
           && String.eqb (w_Region w) (ct_PreferRegion constraints)
        then fadd score (of_int 20) else score in
      let score :=
        if negb (String.eqb (ct_PreferProvider constraints) "")
           && String.eqb (w_Provider w) (ct_PreferProvider constraints)
        then fadd score (of_int 10) else score in
      let score :=
        if bool_decide (w_ID w ∈ ct_PreferWorkers constraints)
        then fadd score (of_int 40) else score in
      let score := fadd score (fmul (of_int (rc_CPUCores (w_Capacity w))) (of_decimal 5 1)) in
      fadd score (fdiv (of_int (rc_MemoryMB (w_Capacity w))) (of_int 1024))
  | _ => fzero
  end.

(** [less(i, j)] of the sort is [scored[i].score > scored[j].score]. *)
Definition ranked (a b : WorkerConn * float64) : Prop := fltb a.2 b.2 = false.
#[global] Instance ranked_dec a b : Decision (ranked a b).
Proof. unfold ranked. apply _. Defined.

(** [candidates]: what [registry.List] returns. Among equal scores [sort.Slice] promises
    no order; the model keeps theirs. *)
Definition Pick (strategy : string) (constraints : Constraints) (candidates : list WorkerConn)
    : result MgrError WorkerConn :=
  match candidates with
  | [] => Err ENoWorkers
  | _ =>
      let filtered := filter (fun c => isEligible (wc_Worker c) constraints = true) candidates in
      let scored := (fun c => (c, score strategy constraints c)) <$> filtered in
      match merge_sort ranked scored with
      | [] => Err ENoMatch
      | (conn, _) :: _ => Ok conn
      end
  end.

(** ** The order of floats *)

(** A float as a triple compared lexicographically. *)
Definition float_key (f : float64) : Z * Z * Z :=
  match f with
  | S754_zero _ => (0, 0, 0)
  | S754_infinity s => ((if s then -2 else 2), 0, 0)
  | S754_finite s m e => if s then (-1, - e, Z.neg m) else (1, e, Z.pos m)
  | S754_nan => (0, 0, 0)
  end%Z.

Definition key_ltb (a b : Z * Z * Z) : bool :=
  let '(a1, a2, a3) := a in let '(b1, b2, b3) := b in
  ((a1 <? b1) || ((a1 =? b1) && ((a2 <? b2) || ((a2 =? b2) && (a3 <? b3)))))%Z.

Lemma mantissa_pos m n :
  match Pos.compare_cont Eq m n with Lt => true | _ => false end =
  (false || (true && (Z.pos m <? Z.pos n)%Z)).
Proof.
  change (Pos.compare_cont Eq m n) with (Pos.compare m n). simpl.
  destruct (Pos.compare_spec m n); symmetry; [apply Z.ltb_ge|apply Z.ltb_lt|apply Z.ltb_ge]; lia.
Qed.

Lemma mantissa_neg m n :
  match CompOpp (Pos.compare_cont Eq m n) with Lt => true | _ => false end =
  (false || (true && (Z.neg m <? Z.neg n)%Z)).
Proof.
  change (Pos.compare_cont Eq m n) with (Pos.compare m n). simpl.
  destruct (Pos.compare_spec m n); symmetry; [apply Z.ltb_ge|apply Z.ltb_ge|apply Z.ltb_lt]; lia.
Qed.

Lemma fltb_key f g :
  is_nan f = false -> is_nan g = false -> fltb f g = key_ltb (float_key f) (float_key g).
Proof.
  unfold fltb, SFltb, SFcompare.
  destruct f as [sf|sf| |sf mf ef], g as [sg|sg| |sg mg eg]; try done; intros _ _;
    try (by destruct sf; destruct sg); try (by destruct sf); try (by destruct sg).
  destruct sf, sg; simpl; try done.
  - destruct (Z.compare_spec ef eg) as [->|Hlt|Hgt].
    + rewrite Z.ltb_irrefl, Z.eqb_refl. apply mantissa_neg.
    + replace (- ef <? - eg)%Z with false by (symmetry; apply Z.ltb_ge; lia).
      replace (- ef =? - eg)%Z with false by (symmetry; apply Z.eqb_neq; lia). done.
    + by replace (- ef <? - eg)%Z with true by (symmetry; apply Z.ltb_lt; lia).
  - destruct (Z.compare_spec ef eg) as [->|Hlt|Hgt].
    + rewrite Z.ltb_irrefl, Z.eqb_refl. apply mantissa_pos.
    + by replace (ef <? eg)%Z with true by (symmetry; apply Z.ltb_lt; lia).
    + replace (ef <? eg)%Z with false by (symmetry; apply Z.ltb_ge; lia).
      replace (ef =? eg)%Z with false by (symmetry; apply Z.eqb_neq; lia). done.
Qed.

Lemma key_ltb_trans a b c : key_ltb b a = false -> key_ltb c b = false -> key_ltb c a = false.
Proof.
  destruct a as [[a1 a2] a3], b as [[b1 b2] b3], c as [[c1 c2] c3]. simpl.
  rewrite !orb_false_iff, !andb_false_iff, !orb_false_iff, !andb_false_iff,
    !Z.ltb_ge, !Z.eqb_neq. lia.
Qed.

(** No number is less than itself or than a smaller one; NaN is less than nothing. *)
Lemma fltb_asym f g : fltb f g = false \/ fltb g f = false.
Proof.
  destruct (is_nan f) eqn:Hf; [by destruct f; left; try done; destruct g|].
  destruct (is_nan g) eqn:Hg; [left; destruct g; try done; by destruct f as [| | |[]]|].
  rewrite !fltb_key by done. destruct (float_key f) as [[f1 f2] f3], (float_key g) as [[g1 g2] g3].
  simpl. rewrite !orb_false_iff, !andb_false_iff, !orb_false_iff, !andb_false_iff,
    !Z.ltb_ge, !Z.eqb_neq. lia.
Qed.

Lemma ranked_trans a b c :
  is_nan a.2 = false -> is_nan b.2 = false -> is_nan c.2 = false ->
  ranked a b -> ranked b c -> ranked a c.
Proof. unfold ranked. intros Ha Hb Hc. rewrite !fltb_key by done. intros ??. by eapply key_ltb_trans. Qed.

#[global] Instance ranked_total : Total ranked.
Proof. intros a b. unfold ranked. destruct (fltb_asym a.2 b.2); auto. Qed.

Lemma sorted_head x l :
  Sorted ranked (x :: l) -> is_nan x.2 = false -> Forall (fun y => is_nan y.2 = false) l ->
  Forall (ranked x) l.
Proof.
  revert x. induction l as [|y l IH]; intros x Hs Hx Hl; [constructor|].
  apply Forall_cons in Hl as [Hy Hl].
  apply Sorted_inv in Hs as [Hs Hr]. apply HdRel_inv in Hr.
  constructor; [done|]. specialize (IH y Hs Hy Hl).
  rewrite !Forall_forall in *. intros z Hz. eapply ranked_trans; [..|done|by apply IH]; auto.
Qed.

(** C11 [Pick] fails only when there is no worker, or none that is ready or busy, not
    excluded and carries the required labels; otherwise it returns such a worker
    with the best score: no eligible worker of the registry scores higher. *)
Theorem Pick_correct strategy constraints candidates :
  Forall (fun c => is_nan (score strategy constraints c) = false) candidates ->
  match Pick strategy constraints candidates with
  | Ok c =>
      c ∈ candidates /\
      isHealthy (wc_Worker c) = true /\ w_ID (wc_Worker c) ∉ ct_ExcludeWorkers constraints /\
      map_Forall (fun k v => default "" (w_Labels (wc_Worker c) !! k) = v)
        (ct_RequireLabels constraints) /\
      (forall c', c' ∈ candidates -> isEligible (wc_Worker c') constraints = true ->
         fltb (score strategy constraints c) (score strategy constraints c') = false)
  | Err e =>
      Forall (fun c => isEligible (wc_Worker c) constraints = false) candidates /\
      e = match candidates with [] => ENoWorkers | _ => ENoMatch end
  end.
Proof.
  intros Hnan. unfold Pick. destruct candidates as [|c0 cs]; [by split|].
  set (candidates := c0 :: cs) in *.
  set (filtered := filter _ candidates). set (scored := _ <$> filtered).
  assert (merge_sort ranked scored ≡ₚ scored) as Hperm by apply merge_sort_Permutation.
  assert (Sorted ranked (merge_sort ranked scored)) as Hsort by exact (Sorted_merge_sort ranked scored).
  assert (forall x, x ∈ scored <-> exists c, x = (c, score strategy constraints c) /\
            c ∈ candidates /\ isEligible (wc_Worker c) constraints = true) as Hin.
  { intros x. unfold scored, filtered. rewrite list_elem_of_fmap.
    split.
    - intros (c & -> & [He Hc]%list_elem_of_filter). eauto.
    - intros (c & -> & Hc & He). exists c. split; [done|]. by apply list_elem_of_filter. }
  destruct (merge_sort ranked scored) as [|[c sc] rest] eqn:Hms.
  - split; [|done]. apply Permutation_nil in Hperm. apply Forall_forall. intros c Hc.
    destruct (isEligible (wc_Worker c) constraints) eqn:He; [|done].
    assert ((c, score strategy constraints c) ∈ scored) as Hbad by (apply Hin; eauto).
    rewrite Hperm in Hbad. by apply not_elem_of_nil in Hbad.
  - assert (forall x, x ∈ (c, sc) :: rest -> is_nan x.2 = false) as Hall.
    { intros x Hx. rewrite Hperm in Hx. apply Hin in Hx as (d & -> & Hd & _).
      rewrite Forall_forall in Hnan. by apply Hnan. }
    destruct (proj1 (Hin (c, sc))) as (d & [= -> ->] & Hd & He); [rewrite <-Hperm; left|].
    assert (Forall (ranked (d, score strategy constraints d)) rest) as Hbest.
    { apply sorted_head; [done|by apply Hall; left|].
      apply Forall_forall. intros x Hx. apply Hall. by right. }
    unfold isEligible in He. destruct (negb _ && negb _) eqn:Hst; [done|].
    destruct (bool_decide (w_ID _ ∈ _)) eqn:Hex; [done|]. bool_props.
    split_and!; [done| |done|done|].
    + unfold isHealthy. by rewrite andb_false_iff, !negb_false_iff, <-orb_true_iff in Hst.
    + intros c' Hc' He'.
      assert ((c', score strategy constraints c') ∈ (d, score strategy constraints d) :: rest) as Hx
        by (rewrite Hperm; apply Hin; eauto).
      apply elem_of_cons in Hx as [[= -> _]|Hx].
      * destruct (fltb_asym (score strategy constraints d) (score strategy constraints d)); done.
      * rewrite Forall_forall in Hbest. by apply (Hbest _ Hx).
Qed.

(** ** Examples *)

Definition worker_of (id region : string) (status : WorkerStatus) (cpu mem : Z) : Worker :=
  mkWorker id id "" "" "aws" region "" status ∅ (mkCapacity cpu mem 0) "" true 0 0 0.
Definition conn_of (id region : string) (status : WorkerStatus) (cpu mem sessions : Z) : WorkerConn :=
  mkConn (worker_of id region status cpu mem) [] sessions (mkUsage fzero 0 0).

Definition three_workers : list WorkerConn :=
  [conn_of "a" "eu" WorkerStatusReady 4 8192 3; conn_of "b" "us" WorkerStatusReady 4 8192 1;
   conn_of "c" "us" WorkerStatusDraining 64 65536 0].
Definition no_constraints : Constraints := mkConstraints ∅ "" "" [] [].

Lemma Pick_correct_witness :
  exists c, Pick StrategySpread no_constraints three_workers = Ok c /\ w_ID (wc_Worker c) = "b" /\
    isHealthy (wc_Worker c) = true.
Proof.
  pose proof (Pick_correct StrategySpread no_constraints three_workers) as H.
  destruct (Pick StrategySpread no_constraints three_workers) as [c|e] eqn:Hp.
  - exists c. split; [reflexivity|].
    split; [|refine (proj1 (proj2 (H _))); repeat constructor].
    vm_compute in Hp. injection Hp as <-. reflexivity.
  - vm_compute in Hp. discriminate Hp.
Defined.

(** Spreading picks the emptier worker, packing the fuller one. *)
Lemma strategies_differ :
  (w_ID ∘ wc_Worker <$> Pick StrategySpread no_constraints three_workers,
   w_ID ∘ wc_Worker <$> Pick StrategyBinPack no_constraints three_workers) = (Ok "b", Ok "a").
Proof. by vm_compute. Qed.

(** The load is not part of eligibility: a worker with far more sessions than cores
    is still picked when a preference outweighs its score. *)
Lemma overloaded_worker_picked :
  w_ID ∘ wc_Worker <$> Pick StrategyBinPack (mkConstraints ∅ "" "" [] ["a"])
    [conn_of "a" "eu" WorkerStatusBusy 1 512 400; conn_of "b" "eu" WorkerStatusBusy 1 512 0] = Ok "a".
Proof. by vm_compute. Qed.
