(* ===== verification/SessionManager.v ===== *)
(** * The session manager ([src/internal/controlplane/session])

    The life cycle of sessions, command execution with its approvals, and
    checkpoints ([manager.go]), and migration between workers ([migration.go]),
    over the repositories and the worker registry. Metrics and logging are left
    out; identifiers from [uuid] are arguments. *)

From stdpp Require Import options.
From Stdlib Require Import Ascii.
From S2P Require Import Prelude Effects GoStrings Float64 Words Filesystem Network Policy Entities.
From S2P Require Import Store Registry Scheduler.
Open Scope nat_scope.

(** ** Field assignments *)

Definition s_with_status (st : SessionStatus) (s : Session) : Session :=
  mkSession (s_ID s) (s_Name s) st (s_Mode s) (s_WorkerID s) (s_ImageRef s) (s_ImageID s)
    (s_SnapshotID s) (s_VCPUs s) (s_MemoryMB s) (s_Labels s) (s_Mounts s) (s_Ports s)
    (s_ExecPolicy s) (s_IdleTimeout s) (s_Ready s) (s_StatusMessage s) (s_LastActivity s)
    (s_CreatedAt s) (s_UpdatedAt s).
Definition s_with_mode (m : ExecMode) (s : Session) : Session :=
  mkSession (s_ID s) (s_Name s) (s_Status s) m (s_WorkerID s) (s_ImageRef s) (s_ImageID s)
    (s_SnapshotID s) (s_VCPUs s) (s_MemoryMB s) (s_Labels s) (s_Mounts s) (s_Ports s)
    (s_ExecPolicy s) (s_IdleTimeout s) (s_Ready s) (s_StatusMessage s) (s_LastActivity s)
    (s_CreatedAt s) (s_UpdatedAt s).
Definition s_with_worker (w : string) (s : Session) : Session :=
  mkSession (s_ID s) (s_Name s) (s_Status s) (s_Mode s) w (s_ImageRef s) (s_ImageID s)
    (s_SnapshotID s) (s_VCPUs s) (s_MemoryMB s) (s_Labels s) (s_Mounts s) (s_Ports s)
    (s_ExecPolicy s) (s_IdleTimeout s) (s_Ready s) (s_StatusMessage s) (s_LastActivity s)
    (s_CreatedAt s) (s_UpdatedAt s).
Definition s_with_image (i : string) (s : Session) : Session :=
  mkSession (s_ID s) (s_Name s) (s_Status s) (s_Mode s) (s_WorkerID s) (s_ImageRef s) i
    (s_SnapshotID s) (s_VCPUs s) (s_MemoryMB s) (s_Labels s) (s_Mounts s) (s_Ports s)
    (s_ExecPolicy s) (s_IdleTimeout s) (s_Ready s) (s_StatusMessage s) (s_LastActivity s)
    (s_CreatedAt s) (s_UpdatedAt s).
Definition s_with_policy (p : ExecPolicy) (s : Session) : Session :=
  mkSession (s_ID s) (s_Name s) (s_Status s) (s_Mode s) (s_WorkerID s) (s_ImageRef s) (s_ImageID s)
    (s_SnapshotID s) (s_VCPUs s) (s_MemoryMB s) (s_Labels s) (s_Mounts s) (s_Ports s)
    p (s_IdleTimeout s) (s_Ready s) (s_StatusMessage s) (s_LastActivity s)
    (s_CreatedAt s) (s_UpdatedAt s).
Definition s_with_ready (r : bool) (s : Session) : Session :=
  mkSession (s_ID s) (s_Name s) (s_Status s) (s_Mode s) (s_WorkerID s) (s_ImageRef s) (s_ImageID s)
    (s_SnapshotID s) (s_VCPUs s) (s_MemoryMB s) (s_Labels s) (s_Mounts s) (s_Ports s)
    (s_ExecPolicy s) (s_IdleTimeout s) r (s_StatusMessage s) (s_LastActivity s)
    (s_CreatedAt s) (s_UpdatedAt s).
Definition s_with_message (m : string) (s : Session) : Session :=
  mkSession (s_ID s) (s_Name s) (s_Status s) (s_Mode s) (s_WorkerID s) (s_ImageRef s) (s_ImageID s)
    (s_SnapshotID s) (s_VCPUs s) (s_MemoryMB s) (s_Labels s) (s_Mounts s) (s_Ports s)
    (s_ExecPolicy s) (s_IdleTimeout s) (s_Ready s) m (s_LastActivity s)
    (s_CreatedAt s) (s_UpdatedAt s).
Definition s_with_activity (t : Z) (s : Session) : Session :=
  mkSession (s_ID s) (s_Name s) (s_Status s) (s_Mode s) (s_WorkerID s) (s_ImageRef s) (s_ImageID s)
    (s_SnapshotID s) (s_VCPUs s) (s_MemoryMB s) (s_Labels s) (s_Mounts s) (s_Ports s)
    (s_ExecPolicy s) (s_IdleTimeout s) (s_Ready s) (s_StatusMessage s) t
    (s_CreatedAt s) (s_UpdatedAt s).
Definition s_with_updated (t : Z) (s : Session) : Session := withTimes (s_CreatedAt s) t s.

Definition e_with_status (st : ExecStatus) (e : Execution) : Execution :=
  mkExecution (e_ID e) (e_SessionID e) st (e_Parallel e) (e_Commands e) (e_Results e)
    (e_CreatedAt e) (e_UpdatedAt e).
Definition e_with_results (rs : list CommandResult) (e : Execution) : Execution :=
  mkExecution (e_ID e) (e_SessionID e) (e_Status e) (e_Parallel e) (e_Commands e) rs
    (e_CreatedAt e) (e_UpdatedAt e).
Definition e_with_updated (t : Z) (e : Execution) : Execution :=
  mkExecution (e_ID e) (e_SessionID e) (e_Status e) (e_Parallel e) (e_Commands e) (e_Results e)
    (e_CreatedAt e) t.
Definition cp_with_status (st : CheckpointStatus) (c : Checkpoint) : Checkpoint :=
  mkCheckpoint (cp_ID c) (cp_SessionID c) (cp_ParentID c) (cp_Type c) st (cp_Label c)
    (cp_OverlayPath c) (cp_VMStatePath c) (cp_MetadataPath c) (cp_CreatedAt c).
Definition cp_with_overlay (k : string) (c : Checkpoint) : Checkpoint :=
  mkCheckpoint (cp_ID c) (cp_SessionID c) (cp_ParentID c) (cp_Type c) (cp_Status c) (cp_Label c)
    k (cp_VMStatePath c) (cp_MetadataPath c) (cp_CreatedAt c).

Section manager.
#[local] Set Default Proof Using "Type*".
Context {TS TE TC TW : Type}.
Context `{!Repository Session TS, !Repository Execution TE, !Repository Checkpoint TC,
  !Repository Worker TW}.
#[local] Abbreviation M := (M TS TE TC TW).
#[local] Abbreviation CP := (ControlPlane TS TE TC TW).
Context (env : Env).
#[local] Abbreviation now := (env_now env).

Definition getSession (id : string) : M Session := reads (fun cp => repo_Get id (cp_sessions cp)).
(** A store that fails for reasons of its own is not modelled: the errors of these calls
    are those of the rows and the constraints. *)
Definition updateSession (s : Session) : M unit := on_sessions (repo_Update now s).
Definition getExecution (id : string) : M Execution :=
  reads (fun cp => repo_Get id (cp_executions cp)).
Definition updateExecution (e : Execution) : M unit := on_executions (repo_Update now e).
Definition getCheckpoint (id : string) : M Checkpoint :=
  reads (fun cp => repo_Get id (cp_checkpoints cp)).
Definition createCheckpoint (c : Checkpoint) : M unit := on_checkpoints (repo_Create c).

(** ** Life cycle *)

Definition MarkReady (sessionID : string) : M unit :=
  s ← getSession sessionID;
  updateSession (s_with_updated now (s_with_activity now (s_with_message ""
  (s_with_status SessionStatusRunning (s_with_ready true s))))).

Definition UpdateStatusMessage (sessionID message : string) : M unit :=
  s ← getSession sessionID;
  updateSession (s_with_updated now (s_with_message message s)).

(** The errors of a failed pull are written into the session. *)
Definition markError (sessionID message : string) : M unit :=
  s ← attempt (getSession sessionID);
  match s with
  | Ok s => ignore (updateSession (s_with_message message (s_with_status SessionStatusError s)))
  | Err _ => mret tt
  end.

Definition Destroy (id : string) : M unit :=
  s ← getSession id;
  _ ← (if String.eqb (s_WorkerID s) "" then mret tt
   else ignore (SendCommand env (s_WorkerID s) (CStopSession (s_ID s))));
  updateSession (s_with_updated now (s_with_status SessionStatusTerminated s)).

Definition Pause (id : string) : M Session :=
  s ← getSession id;
  if negb (CanTransitionTo s SessionStatusPaused) then fail (EStatus (s_Status s))
  else
  let s := s_with_updated now (s_with_status SessionStatusPaused s) in
  _ ← updateSession s; mret s.

Definition Resume (id : string) : M Session :=
  s ← getSession id;
  if negb (CanTransitionTo s SessionStatusRunning) then fail (EStatus (s_Status s))
  else
  let s := s_with_updated now (s_with_status SessionStatusRunning s) in
  _ ← updateSession s; mret s.

Definition Idle (id : string) : M Session :=
  s ← getSession id;
  if negb (CanTransitionTo s SessionStatusIdle) then fail (EStatus (s_Status s))
  else
  _ ← (if String.eqb (s_WorkerID s) "" then mret tt
   else sendBlocking (s_WorkerID s) (CPauseSession id));
  let s := s_with_updated now (s_with_status SessionStatusIdle s) in
  _ ← updateSession s; mret s.

Definition Wake (id : string) : M Session :=
  s ← getSession id;
  match s_Status s with
  | SessionStatusIdle =>
      _ ← (if String.eqb (s_WorkerID s) "" then mret tt
        else sendBlocking (s_WorkerID s) (CResumeSession id));
      let s := s_with_updated now (s_with_activity now (s_with_status SessionStatusRunning s)) in
      _ ← updateSession s; mret s
  | SessionStatusRunning => mret s
  | st => fail (EStatus st)
  end.

Definition ensureRunning (s : Session) : M Session :=
  match s_Status s with
  | SessionStatusRunning => mret s
  | SessionStatusIdle => Wake (s_ID s)
  | st => fail (EStatus st)
  end.

Definition SetMode (id : string) (mode : ExecMode) : M Session :=
  s ← getSession id;
  if negb (CanTransitionModeTo (s_Mode s) mode) then fail (EMode (s_Mode s) mode)
  else
  _ ← (if String.eqb (s_WorkerID s) "" then mret tt
   else r ← attempt (SendCommand env (s_WorkerID s) (CSetMode (s_ID s) mode));
  match r with Ok _ => mret tt | Err e => fail (EDispatch e) end);
  let s := s_with_updated now (s_with_mode mode s) in
  _ ← updateSession s; mret s.

(** ** Creation *)

Record CreateOpts := mkOpts {
  co_Name : string;
  co_ImageRef : string;
  co_SnapshotID : string;
  co_Mode : ExecMode;
  co_VCPUs : Z;
  co_MemoryMB : Z;
  co_Labels : gmap string string;
  co_WorkerLabels : gmap string string;
  co_ExecPolicy : option ExecPolicy;
  co_Mounts : list Volume;
  co_Ports : list PortMapping;
  co_IdleTimeout : Z
}.

(** What [Create] asks the image manager: the image of a reference if it is cached,
    and the local paths of its root file system and of its snapshot. *)
Record Images := mkImages {
  im_GetByRef : string -> option string;
  im_ResolveRootfsPath : string -> option string;
  im_ResolveSnapshotPaths : string -> option (string * string)
}.

Definition workspaceVolume (name : string) : Volume :=
  mkVolume "/workspace" "" "volume" ("session-" +:+ name) "" "" "" "" "readwrite" "" "" "".

(** The session a request describes; [slug] is the generated name. *)
Definition newSession (uuid slug : string) (opts : CreateOpts) : Session :=
  mkSession uuid (if String.eqb (co_Name opts) "" then slug else co_Name opts)
  SessionStatusCreating (if String.eqb (co_Mode opts) "" then ModeExplore else co_Mode opts) ""
  (co_ImageRef opts) "" (co_SnapshotID opts)
  (if (co_VCPUs opts =? 0)%Z then 1 else co_VCPUs opts)
  (if (co_MemoryMB opts =? 0)%Z then 512 else co_MemoryMB opts)
  (co_Labels opts) (co_Mounts opts) (co_Ports opts) (default DefaultExecPolicy (co_ExecPolicy opts))
  (co_IdleTimeout opts) false "" 0 now now.

Definition launchData (s : Session) (mounts : list Volume) : LaunchSessionData :=
  mkLaunch (s_ID s) (s_ImageRef s) (s_Mode s) (s_ExecPolicy s) (s_VCPUs s) (s_MemoryMB s) "" "" ""
  (workspaceVolume (s_Name s) :: mounts).

(** The paths of a cached image in the launch data. *)
Definition withPaths (images : Images) (imageID : string) (ld : LaunchSessionData) : LaunchSessionData :=
  let '(mem, state) := default (ls_SnapshotMemPath ld, ls_SnapshotVMStatePath ld)
           (im_ResolveSnapshotPaths images imageID) in
  mkLaunch (ls_SessionID ld) (ls_ImageRef ld) (ls_Mode ld) (ls_ExecPolicy ld) (ls_VCPUs ld)
  (ls_MemoryMB ld) (default (ls_RootfsPath ld) (im_ResolveRootfsPath images imageID)) mem state
  (ls_Mounts ld).

(** [candidates] is what the registry lists. The second component is the launch data
    of the goroutine that pulls the image, when one is started. *)
Definition Create (images : option Images) (strategy : string) (candidates : list WorkerConn)
  (uuid slug : string) (opts : CreateOpts) : M (Session * option LaunchSessionData) :=
  let s := newSession uuid slug opts in
  _ ← on_sessions (repo_Create s);
  r ← match Pick strategy (mkConstraints (co_WorkerLabels opts) "" "" [] []) candidates with
  | Err _ => mret (s_with_ready true (s_with_status SessionStatusRunning s), None)
  | Ok wConn =>
      let wid := w_ID (wc_Worker wConn) in
      let s := s_with_worker wid s in
      let ld := launchData s (co_Mounts opts) in
      let cached := images ← images; imageID ← im_GetByRef images (s_ImageRef s);
      Some (images, imageID) in
      let s := match cached with Some (_, imageID) => s_with_image imageID s | None => s end in
      let ld := match cached with Some (im, imageID) => withPaths im imageID ld | None => ld end in
      if bool_decide (is_Some cached) || String.eqb (s_ImageRef s) ""
      || negb (bool_decide (is_Some images))
      then
      r ← attempt (SendCommand env wid (CLaunchSession ld));
      match r with
      | Ok _ => mret (s_with_ready true (s_with_status SessionStatusRunning s), None)
      | Err _ => mret (s_with_message "failed to dispatch to worker"
            (s_with_ready true (s_with_status SessionStatusError s)), None)
      end
      else mret (s_with_message "pulling image" (s_with_status SessionStatusProvisioning s), Some ld)
  end;
  let '(s, pull) := r in
  let s := s_with_updated now s in
  _ ← updateSession s;
  mret (s, pull).

(** The goroutine that pulls the image: before the pull, and after it with its outcome
    [pulled]. The texts of errors from other packages are left out of the messages. *)
Definition startPull (sessionID : string) : M unit :=
  ignore (UpdateStatusMessage sessionID "pulling image").

Definition finishPull (images : Images) (pulled : result string string) (ld : LaunchSessionData)
  (workerID : string) : M unit :=
  let sessionID := ls_SessionID ld in
  match pulled with
  | Err e =>
      _ ← ignore (UpdateStatusMessage sessionID ("image pull failed: " +:+ e));
      markError sessionID ("image pull failed: " +:+ e)
  | Ok imageID =>
      match im_ResolveRootfsPath images imageID with
      | None => markError sessionID "image resolve failed"
      | Some _ =>
          let ld := withPaths images imageID ld in
          _ ← ignore (UpdateStatusMessage sessionID "booting");
          r ← attempt (SendCommand env workerID (CLaunchSession ld));
          match r with
          | Ok _ => ignore (MarkReady sessionID)
          | Err _ => markError sessionID "failed to dispatch to worker"
          end
      end
  end.

(** [WaitForReady] looks at the session every 200 ms: [looks] are the states it
    sees; [None] when it is still waiting after the last. *)
Definition waitLook (s : Session) : option (result string Session) :=
  if s_Ready s || bool_decide (s_Status s = SessionStatusRunning) then Some (Ok s)
  else match s_Status s with
   | SessionStatusError =>
   Some (Err (if String.eqb (s_StatusMessage s) "" then "session failed" else s_StatusMessage s))
   | SessionStatusTerminated => Some (Err "session terminated before becoming ready")
   | _ => None
   end.
Fixpoint WaitForReady (looks : list (option Session)) : option (result string Session) :=
  match looks with
  | [] => None
  | None :: _ => Some (Err "session not found")
  | Some s :: looks =>
      match waitLook s with Some r => Some r | None => WaitForReady looks end
  end.

(** [Purge]: the session with its checkpoints and executions; [cps] and [execs] are
    what the two [ListBySession] queries return. *)
Definition Purge (id : string) (cps : list Checkpoint) (execs : list Execution) : M unit :=
  s ← getSession id;
  _ ← (if String.eqb (s_WorkerID s) "" then mret tt
   else ignore (SendCommand env (s_WorkerID s) (CCleanupSession (s_ID s))));
  _ ← (fix go cps := match cps with
   | [] => mret tt
   | c :: cps => _ ← ignore (on_checkpoints (repo_Delete (cp_ID c))); go cps
   end) cps;
  _ ← (fix go execs := match execs with
   | [] => mret tt
   | e :: execs => _ ← ignore (updateExecution (e_with_status ExecStatusPurged e)); go execs
   end) execs;
  on_sessions (repo_Delete id).

(** ** Executions *)

Fixpoint validateCommands (p : ExecPolicy) (mode : ExecMode) (commands : list Command)
  : result PolicyError unit :=
  match commands with
  | [] => Ok tt
  | cmd :: rest =>
      match ValidateCommand p cmd mode with
      | Ok _ => validateCommands p mode rest
      | Err e => Err e
      end
  end.

(** The outcome of [Exec]: the execution is returned with an error as well. *)
Definition Exec (uuid sessionID : string) (commands : list Command) (parallel : bool)
  : M (Execution * option MgrError) :=
  s ← getSession sessionID;
  s ← ensureRunning s;
  match validateCommands (s_ExecPolicy s) (s_Mode s) commands with
  | Err e => fail (EPolicy e)
  | Ok _ =>
      let max := ep_MaxParallel (s_ExecPolicy s) in
      if (0 <? max)%Z && parallel && (max <? Z.of_nat (length commands))%Z
      then fail (ETooManyParallel (Z.of_nat (length commands)) max)
      else
      let exec := mkExecution uuid sessionID ExecStatusPending parallel commands [] now now in
      _ ← on_executions (repo_Create exec);
      let needsApproval := RequiresApproval (s_ExecPolicy s) (s_Mode s)
      || bool_decide (s_Mode s = ModeAsk) in
      let exec := e_with_status
      (if needsApproval then ExecStatusPendingApproval else ExecStatusRunning) exec in
      _ ← ignore (updateExecution exec);
      let failed := e_with_status ExecStatusFailed exec in
      if String.eqb (s_WorkerID s) "" then
      _ ← ignore (updateExecution failed); mret (failed, Some ENoWorker)
      else
      r ← attempt (SendCommand env (s_WorkerID s) (CExec sessionID uuid commands parallel));
      match r with
      | Ok _ => mret (exec, None)
      | Err e => _ ← ignore (updateExecution failed); mret (failed, Some (EDispatch e))
      end
  end.

(** One [SendCommand] per command, stopping at the first error. *)
Fixpoint sendAll (workerID : string) (cmds : list WorkerCommand) : M unit :=
  match cmds with
  | [] => mret tt
  | cmd :: rest =>
      r ← attempt (SendCommand env workerID cmd);
      match r with Ok _ => sendAll workerID rest | Err e => fail (EDispatch e) end
  end.

(** The errors are only logged. *)
Fixpoint sendAllIgnoring (workerID : string) (cmds : list WorkerCommand) : M unit :=
  match cmds with
  | [] => mret tt
  | cmd :: rest => _ ← ignore (SendCommand env workerID cmd); sendAllIgnoring workerID rest
  end.

(** [extractBinary]: what follows the last slash. *)
Definition extractBinary (command : string) : string := List.last (Split command "/"%char) "".

Definition ApproveExecution (sessionID execID : string) (addToWhitelist : bool) : M Execution :=
  exec ← getExecution execID;
  if negb (bool_decide (e_Status exec = ExecStatusPendingApproval))
  then fail (EExecStatus (e_Status exec))
  else
  s ← getSession sessionID;
  if String.eqb (s_WorkerID s) "" then fail ENoWorker
  else
  _ ← sendAll (s_WorkerID s)
  ((fun cmd => CApproveGate sessionID (c_ID cmd) addToWhitelist) <$> e_Commands exec);
  _ ← (if addToWhitelist then
   let p := s_ExecPolicy s in
   let allowed := ep_AllowedCommands p ++ (extractBinary ∘ c_Command <$> e_Commands exec) in
   ignore (updateSession (s_with_updated now (s_with_policy (withAllowed allowed p) s)))
   else mret tt);
  let exec := e_with_updated now (e_with_status ExecStatusRunning exec) in
  _ ← ignore (updateExecution exec);
  mret exec.

Definition RejectExecution (sessionID execID reason : string) : M Execution :=
  exec ← getExecution execID;
  if negb (bool_decide (e_Status exec = ExecStatusPendingApproval))
  then fail (EExecStatus (e_Status exec))
  else
  s ← getSession sessionID;
  let reason := if String.eqb reason "" then "denied by operator" else reason in
  _ ← (if String.eqb (s_WorkerID s) "" then mret tt
   else sendAllIgnoring (s_WorkerID s)
  ((fun cmd => CDenyGate sessionID (c_ID cmd) reason) <$> e_Commands exec));
  let exec := e_with_updated now (e_with_results
  [mkResult "system" (-1) "" ("execution rejected: " +:+ reason) now now]
  (e_with_status ExecStatusRejected exec)) in
  _ ← ignore (updateExecution exec);
  mret exec.

Definition CompleteExecution (execID : string) (status : ExecStatus) (results : list CommandResult)
  : M unit :=
  exec ← getExecution execID;
  updateExecution (e_with_results results (e_with_status status exec)).

Definition CancelExecution (sessionID execID : string) : M Execution :=
  exec ← getExecution execID;
  if IsTerminal exec then mret exec
  else
  s ← getSession sessionID;
  _ ← (if String.eqb (s_WorkerID s) "" then mret tt
   else ignore (SendCommand env (s_WorkerID s) (CCancelExec sessionID execID)));
  let exec := e_with_updated now (e_with_status ExecStatusCanceled exec) in
  _ ← updateExecution exec;
  mret exec.

(** ** Checkpoints *)

Definition CreateCheckpoint (sessionID checkpointID : string) (cpType : CheckpointType)
  (parentID : string) : M (Checkpoint * option MgrError) :=
  s ← getSession sessionID;
  let cp := mkCheckpoint checkpointID sessionID parentID cpType CheckpointStatusCreating "" "" "" "" now in
  _ ← createCheckpoint cp;
  let failed := cp_with_status CheckpointStatusFailed cp in
  if String.eqb (s_WorkerID s) "" then
  _ ← ignore (createCheckpoint failed); mret (failed, Some ENoWorker)
  else
  r ← attempt (SendCommand env (s_WorkerID s) (CCreateCheckpoint sessionID checkpointID cpType));
  match r with
  | Ok _ => mret (cp, None)
  | Err e => _ ← ignore (createCheckpoint failed); mret (failed, Some (EDispatch e))
  end.

Definition CompleteCheckpoint (checkpointID : string) (success : bool) (overlayKey : string) : M unit :=
  cp ← getCheckpoint checkpointID;
  let cp := if success then cp_with_overlay overlayKey (cp_with_status CheckpointStatusReady cp)
  else cp_with_status CheckpointStatusFailed cp in
  _ ← ignore (on_checkpoints (repo_Delete checkpointID));
  createCheckpoint cp.

Definition RestoreCheckpoint (sessionID checkpointID : string) : M unit :=
  s ← getSession sessionID;
  cp ← getCheckpoint checkpointID;
  if negb (bool_decide (cp_Status cp = CheckpointStatusReady))
  then fail (ECheckpointStatus (cp_Status cp))
  else if String.eqb (s_WorkerID s) "" then mret tt
  else
  r ← attempt (SendCommand env (s_WorkerID s)
   (CRestoreCheckpoint sessionID checkpointID (cp_OverlayPath cp)));
  match r with Ok _ => mret tt | Err e => fail (EDispatch e) end.

(** ** Migration *)

(** The polling loop: [others i] is what the rest of the system does to the state
    while it sleeps after the [i]-th look. *)
Fixpoint waitCheckpoint (turns : nat) (others : nat -> CP -> CP) (i : nat) (cpID : string)
  (cp : Checkpoint) : M Checkpoint :=
  match turns with
  | O => mret cp
  | S turns =>
      updated ← attempt (getCheckpoint cpID);
      let sleep := _ ← modify (others i); waitCheckpoint turns others (S i) cpID cp in
      match updated with
      | Ok updated =>
          match cp_Status updated with
          | CheckpointStatusReady => mret updated
          | CheckpointStatusFailed => fail EMigrationFailed
          | CheckpointStatusCreating => sleep
          end
      | Err _ => sleep
      end
  end.

(** The 200 ms between the launch and the restore are not a point where others run. *)
Definition MigrateSession (others : nat -> CP -> CP) (uuid sessionID targetWorkerID : string) : M unit :=
  s ← getSession sessionID;
  if String.eqb (s_WorkerID s) targetWorkerID then fail (EAlreadyOnWorker targetWorkerID)
  else
  let sourceWorkerID := s_WorkerID s in
  r ← CreateCheckpoint sessionID uuid CheckpointFull "";
  match r with
  | (_, Some e) => fail (EDispatch e)
  | (cp, None) =>
      cp ← waitCheckpoint 100 others 0 uuid cp;
      if negb (bool_decide (cp_Status cp = CheckpointStatusReady)) then fail EMigrationTimeout
      else
      _ ← (if String.eqb sourceWorkerID "" then mret tt
        else ignore (SendCommand env sourceWorkerID (CStopSession sessionID)));
      let s := s_with_updated now (s_with_worker targetWorkerID s) in
      _ ← updateSession s;
      _ ← ignore (SendCommand env targetWorkerID
        (CLaunchSession (mkLaunch sessionID (s_ImageRef s) (s_Mode s) (s_ExecPolicy s)
            (s_VCPUs s) (s_MemoryMB s) "" "" "" [])));
      ignore (SendCommand env targetWorkerID
        (CRestoreCheckpoint sessionID uuid (cp_OverlayPath cp)))
  end.
End manager.

(** ** Lemmas on single calls *)

Section laws.
#[local] Set Default Proof Using "Type*".
Context {TS TE TC TW : Type}.
Context `{!Repository Session TS, !Repository Execution TE, !Repository Checkpoint TC,
  !Repository Worker TW}.
Context `{!RepositoryLaws Session TS, !RepositoryLaws Execution TE, !RepositoryLaws Checkpoint TC}.
Context (env : Env).
#[local] Abbreviation CP := (ControlPlane TS TE TC TW).
#[local] Abbreviation now := (env_now env).
Implicit Types (cp : CP) (s : Session).

(** The rows of the three tables. *)
Definition sess cp : gmap string Session := repo_rows (cp_sessions cp).
Definition execs cp : gmap string Execution := repo_rows (cp_executions cp).
Definition ckpts cp : gmap string Checkpoint := repo_rows (cp_checkpoints cp).

Lemma getSession_spec id cp :
  getSession id cp =
  (cp, match sess cp !! id with Some s => Ret s | None => Fail (EStore ErrNotFound) end).
Proof. unfold getSession, reads. rewrite repo_get. unfold sess. by destruct (_ !! id). Qed.

Lemma getExecution_spec id cp :
  getExecution id cp =
  (cp, match execs cp !! id with Some e => Ret e | None => Fail (EStore ErrNotFound) end).
Proof. unfold getExecution, reads. rewrite repo_get. unfold execs. by destruct (_ !! id). Qed.

Lemma getCheckpoint_spec id cp :
  getCheckpoint id cp =
  (cp, match ckpts cp !! id with Some c => Ret c | None => Fail (EStore ErrNotFound) end).
Proof. unfold getCheckpoint, reads. rewrite repo_get. unfold ckpts. by destruct (_ !! id). Qed.

Lemma sess_id cp id s : sess cp !! id = Some s -> s_ID s = id.
Proof. exact (repo_rows_id _ _ _). Qed.
Lemma execs_id cp id e : execs cp !! id = Some e -> e_ID e = id.
Proof. exact (repo_rows_id _ _ _). Qed.

(** Saved up to the columns and the clock. *)
Definition same_session s s' : Prop := ent_core s = ent_core s'.

Lemma same_session_fields row s :
  same_session row s ->
  s_ID row = s_ID s /\ s_Name row = s_Name s /\ s_Status row = s_Status s /\
  s_Mode row = s_Mode s /\ s_WorkerID row = s_WorkerID s /\ s_ExecPolicy row = s_ExecPolicy s.
Proof.
  unfold same_session. intros H.
  pose proof (f_equal s_ID H). pose proof (f_equal s_Name H). pose proof (f_equal s_Status H).
  pose proof (f_equal s_Mode H). pose proof (f_equal s_WorkerID H).
  pose proof (f_equal s_ExecPolicy H). done.
Qed.

Lemma updateSession_spec s old cp :
  sess cp !! s_ID s = Some old -> s_Name s = s_Name old ->
  exists t row, updateSession env s cp = (set_sessions t cp, Ret tt) /\ same_session row s /\
  repo_rows t = <[s_ID s := row]> (sess cp).
Proof.
  intros Hold Hname.
  destruct (repo_update now s old (cp_sessions cp)) as (t & row & Hu & Hc & Hr);
  [done|done|by simpl; rewrite Hname|].
  exists t, row. unfold updateSession, on_sessions. by rewrite Hu.
Qed.

Lemma updateExecution_spec e old cp :
  execs cp !! e_ID e = Some old -> e_SessionID e = e_SessionID old ->
  exists t row, updateExecution env e cp = (set_executions t cp, Ret tt) /\
  ent_core row = ent_core e /\ repo_rows t = <[e_ID e := row]> (execs cp).
Proof.
  intros Hold Hs. destruct (repo_update now e old (cp_executions cp)) as (t & row & Hu & Hc & Hr);
  [done|done|done|].
  exists t, row. unfold updateExecution, on_executions. by rewrite Hu.
Qed.

Lemma createExecution_spec e cp :
  execs cp !! e_ID e = None ->
  exists t row, on_executions (repo_Create e) cp = (set_executions t cp, Ret tt) /\
  ent_core row = ent_core e /\ repo_rows t = <[e_ID e := row]> (execs cp).
Proof.
  intros Hnone. destruct (repo_create e (cp_executions cp)) as (t & row & Hu & Hc & Hr); [done| |].
  { intros k b _ [_ Hu]. by apply Hu. }
  exists t, row. unfold on_executions. by rewrite Hu.
Qed.

Lemma createCheckpoint_spec c cp :
  ckpts cp !! cp_ID c = None ->
  exists t row, createCheckpoint c cp = (set_checkpoints t cp, Ret tt) /\
  ent_core row = ent_core c /\ repo_rows t = <[cp_ID c := row]> (ckpts cp).
Proof.
  intros Hnone. destruct (repo_create c (cp_checkpoints cp)) as (t & row & Hu & Hc & Hr); [done| |].
  { intros k b _ [_ Hu]. by apply Hu. }
  exists t, row. unfold createCheckpoint, on_checkpoints. by rewrite Hu.
Qed.

Lemma createCheckpoint_dup c cp :
  is_Some (ckpts cp !! cp_ID c) ->
  createCheckpoint c cp = (cp, Fail (EStore ErrConstraint)).
Proof. intros Hs. unfold createCheckpoint, on_checkpoints. by rewrite (repo_create_dup c). Qed.

(** The optional command of [Idle] and [Wake]. *)
Lemma optional_spec wid cmd cp :
  (exists r', (if String.eqb wid "" then mret tt else sendBlocking wid cmd) cp =
   (set_registry r' cp, Ret tt) /\
   (r' = cp_registry cp /\ (wid = "" \/ cp_registry cp !! wid = None) \/
  appended wid [cmd] (cp_registry cp) r')) \/
  (if String.eqb wid "" then mret tt else sendBlocking wid cmd) cp = (cp, Stuck).
Proof.
  destruct (String.eqb_spec wid "") as [->|Hne].
  - left. exists (cp_registry cp). split; [by destruct cp|]. left. by split; [|left].
  - destruct (sendBlocking_spec wid cmd cp) as [(r' & Hr & Hor)|Hs]; [left|by right].
  exists r'. split; [done|]. naive_solver.
Qed.

(** ** The life cycle *)

Inductive LifecycleOp := LPause | LResume | LIdle | LWake | LSetMode (mode : ExecMode).

Definition run_lifecycle (op : LifecycleOp) (id : string) : M TS TE TC TW Session :=
  match op with
  | LPause => Pause env id
  | LResume => Resume env id
  | LIdle => Idle env id
  | LWake => Wake env id
  | LSetMode mode => SetMode env id mode
  end.

(** What the operation asks for, and what the tables say. *)
Definition lifecycle_ok (op : LifecycleOp) (old s : Session) : Prop :=
  match op with
  | LPause => s_Status s = SessionStatusPaused /\ s_Mode s = s_Mode old
  | LResume => s_Status s = SessionStatusRunning /\ s_Mode s = s_Mode old
  | LIdle => s_Status s = SessionStatusIdle /\ s_Mode s = s_Mode old
  | LWake => s_Status s = SessionStatusRunning /\ s_Mode s = s_Mode old
  | LSetMode mode => s_Status s = s_Status old /\ s_Mode s = mode /\
      CanTransitionModeTo (s_Mode old) mode = true
  end /\
  (s_Status s = s_Status old \/ canTransition (s_Status old) (s_Status s) = true) /\
  s_ID s = s_ID old /\ s_WorkerID s = s_WorkerID old /\ s_ExecPolicy s = s_ExecPolicy old.

Lemma update_session_row s old cp r' :
  sess cp !! s_ID old = Some old -> s_ID s = s_ID old -> s_Name s = s_Name old ->
  exists cp' row, (_ ← updateSession env s; mret s) (set_registry r' cp) = (cp', Ret s) /\
  same_session row s /\ sess cp' = <[s_ID old := row]> (sess cp) /\
  execs cp' = execs cp /\ ckpts cp' = ckpts cp /\ cp_registry cp' = r'.
Proof.
  intros Hold Hid Hname.
  destruct (updateSession_spec s old (set_registry r' cp)) as (t & row & Hu & Hc & Hr);
  [by rewrite Hid|done|].
  rewrite (bind_Ret _ _ _ _ _ Hu). eexists _, row. split; [done|]. rewrite <-Hid.
  by split_and!.
Qed.

(** The three kinds of result of an operation on a session. *)
Definition lifecycle_result (op : LifecycleOp) (id : string) cp (out : CP * Res MgrError Session) : Prop :=
  let '(cp', r) := out in
  execs cp' = execs cp /\ ckpts cp' = ckpts cp /\
  match r with
  | Ret s => exists old row, sess cp !! id = Some old /\ lifecycle_ok op old s /\
      sess cp' = <[id := row]> (sess cp) /\ same_session row s
  | _ => cp' = cp
  end.

Lemma finish_update op s old id cp r' :
  sess cp !! id = Some old -> s_Name s = s_Name old -> lifecycle_ok op old s ->
  lifecycle_result op id cp ((_ ← updateSession env s; mret s) (set_registry r' cp)).
Proof.
  intros Hold Hname Hok. pose proof (sess_id _ _ _ Hold) as Hid. rewrite <-Hid in Hold.
  destruct (update_session_row s old cp r' Hold) as (cp' & row & -> & Hrow & Hs & He & Hc & _);
  [by apply Hok|done|].
  split_and!; [done..|]. exists old, row. rewrite <-Hid. done.
Qed.

Lemma finish_same op s id cp :
  sess cp !! id = Some s -> lifecycle_ok op s s -> lifecycle_result op id cp (cp, Ret s).
Proof.
  intros Hs Hok. split_and!; [done..|]. exists s, s. split_and!; [done..| |done].
  symmetry. by apply insert_id.
Qed.

(** C12 Pausing, resuming, idling, waking and changing the mode touch one session
    only, never an execution or a checkpoint; they follow the transition tables of
    sessions and modes, save exactly what they return, and when they fail or block
    they leave the whole state as it was. *)
Theorem lifecycle_follows_table op id cp :
  lifecycle_result op id cp (run_lifecycle op id cp).
Proof.
  assert (forall e, lifecycle_result op id cp (cp, Fail e)) as Hfail by done.
  assert (lifecycle_result op id cp (cp, Stuck)) as Hstuck by done.
  destruct op; cbn [run_lifecycle]; unfold Pause, Resume, Idle, Wake, SetMode;
  (destruct (sess cp !! id) as [old|] eqn:Hold;
  [erewrite bind_Ret by (rewrite getSession_spec, Hold; done)|
   unfold mbind, StateM_bind; rewrite getSession_spec, Hold; done]).
  - destruct (CanTransitionTo old SessionStatusPaused) eqn:Ht; [|done]. cbn [negb].
  rewrite <-(set_registry_id cp) at 2. eapply finish_update; [done..|].
  split_and!; try done. by right.
  - destruct (CanTransitionTo old SessionStatusRunning) eqn:Ht; [|done]. cbn [negb].
  rewrite <-(set_registry_id cp) at 2. eapply finish_update; [done..|].
  split_and!; try done. by right.
  - destruct (CanTransitionTo old SessionStatusIdle) eqn:Ht; [|done]. cbn [negb].
  destruct (optional_spec (s_WorkerID old) (CPauseSession id) cp) as [(r' & Hr & _)|Hr].
  + rewrite (bind_Ret _ _ _ _ _ Hr). eapply finish_update; [done..|].
  split_and!; try done. by right.
  + unfold mbind, StateM_bind. by rewrite Hr.
  - destruct (s_Status old) eqn:Hst; try done; [by apply finish_same; [|split_and!; auto]|].
  destruct (optional_spec (s_WorkerID old) (CResumeSession id) cp) as [(r' & Hr & _)|Hr].
  + rewrite (bind_Ret _ _ _ _ _ Hr). eapply finish_update; [done..|].
  split_and!; try done. right. by rewrite Hst.
  + unfold mbind, StateM_bind. by rewrite Hr.
  - destruct (CanTransitionModeTo (s_Mode old) mode) eqn:Ht; [|done]. cbn [negb].
  destruct (String.eqb (s_WorkerID old) "").
  + erewrite bind_Ret by done. rewrite <-(set_registry_id cp) at 2.
  eapply finish_update; [done..|]. split_and!; try done. by left.
  + destruct (SendCommand_spec env (s_WorkerID old) (CSetMode (s_ID old) mode) cp eq_refl)
  as [(r' & Hr & _)|(e & Hr)].
  * erewrite bind_Ret by (unfold mbind, StateM_bind, attempt; rewrite Hr; done).
  eapply finish_update; [done..|]. split_and!; try done. by left.
  * unfold mbind, StateM_bind, attempt. by rewrite Hr.
Qed.

(** ** Executions *)

(** What waking sends. *)
Definition wakeCommands s : list WorkerCommand :=
  match s_Status s with SessionStatusIdle => [CResumeSession (s_ID s)] | _ => [] end.

(** The worker has got the commands, or there is none to get them. *)
Definition delivered (wid : string) (cmds : list WorkerCommand) (r r' : gmap string WorkerConn)
  : Prop :=
  appended wid cmds r r' \/ r' = r /\ (cmds = [] \/ wid = "" \/ r !! wid = None).

Lemma ensureRunning_spec s cp :
  sess cp !! s_ID s = Some s ->
  let '(cp1, r) := ensureRunning env s cp in
  execs cp1 = execs cp /\ ckpts cp1 = ckpts cp /\
  match r with
  | Ret s1 =>
  s_Status s1 = SessionStatusRunning /\ s_Mode s1 = s_Mode s /\ s_WorkerID s1 = s_WorkerID s /\
  s_ExecPolicy s1 = s_ExecPolicy s /\
  (exists row, sess cp1 = <[s_ID s := row]> (sess cp) /\ same_session row s1) /\
  delivered (s_WorkerID s) (wakeCommands s) (cp_registry cp) (cp_registry cp1)
  | _ => cp1 = cp
  end.
Proof.
  intros Hs. unfold ensureRunning, wakeCommands. destruct (s_Status s) eqn:Hst; try done.
  - split_and!; [done..| |right; split; [done|by left]].
  exists s. split; [|done]. symmetry. by apply insert_id.
  - unfold Wake. erewrite bind_Ret by (rewrite getSession_spec, Hs; done). rewrite Hst.
  destruct (optional_spec (s_WorkerID s) (CResumeSession (s_ID s)) cp) as [(r' & Hr & Hd)|Hr].
  + rewrite (bind_Ret _ _ _ _ _ Hr).
  destruct (update_session_row
  (s_with_updated now (s_with_activity now (s_with_status SessionStatusRunning s))) s cp r' Hs)
  as (cp' & row & -> & Hrow & Hsess & He & Hc & Hreg); [done..|].
  split_and!; [done..|by exists row|]. rewrite Hreg.
  destruct Hd as [[-> Hor]|Hd]; [right|by left]. split; [done|by right].
  + unfold mbind, StateM_bind. by rewrite Hr.
Qed.

Lemma delivered_app wid a b r r1 r2 :
  delivered wid a r r1 -> appended wid b r1 r2 -> wid <> "" -> appended wid (a ++ b) r r2.
Proof.
  intros [Ha|[-> Ha]] Hb Hne; [by eapply appended_app|].
  destruct Ha as [->|[|Hnone]]; [done..|]. destruct Hb as (conn & Hc & _). congruence.
Qed.

Lemma validateCommands_Ok p mode commands :
  validateCommands p mode commands = Ok tt <->
  Forall (fun cmd => ValidateCommand p cmd mode = Ok tt) commands.
Proof.
  induction commands as [|cmd rest IH]; simpl; [by split; [constructor|]|].
  destruct (ValidateCommand p cmd mode) as [[]|e] eqn:Hv.
  - rewrite IH, Forall_cons. naive_solver.
  - rewrite Forall_cons. rewrite Hv. naive_solver.
Qed.

(** The status an execution is recorded with. *)
Definition startStatus s : ExecStatus :=
  if RequiresApproval (s_ExecPolicy s) (s_Mode s) || bool_decide (s_Mode s = ModeAsk)
  then ExecStatusPendingApproval else ExecStatusRunning.

(** The execution [e] is what the table holds under [uuid], next to the old ones. *)
Definition recorded_execution (e : Execution) cp cp' : Prop :=
  exists row, execs cp' = <[e_ID e := row]> (execs cp) /\ ent_core row = ent_core e.

Lemma save_execution e st cp cp1 :
  recorded_execution e cp cp1 ->
  exists cp2, ignore (updateExecution env (e_with_status st e)) cp1 = (cp2, Ret tt) /\
  recorded_execution (e_with_status st e) cp cp2 /\ sess cp2 = sess cp1 /\ ckpts cp2 = ckpts cp1 /\
  cp_registry cp2 = cp_registry cp1.
Proof.
  intros (row & Hrows & Hcore).
  destruct (updateExecution_spec (e_with_status st e) row cp1) as (t2 & row2 & Hu & Hc2 & Hr2).
  - by rewrite Hrows, lookup_insert_eq.
  - simpl in Hcore. by injection Hcore.
  - eexists. split; [unfold ignore, mbind, StateM_bind, attempt; by rewrite Hu|].
  split_and!; [|done..]. exists row2. split; [|done].
  change (repo_rows t2 = <[e_ID e := row2]> (execs cp)). rewrite Hr2.
  change (e_ID (e_with_status st e)) with (e_ID e). by rewrite Hrows, insert_insert_eq.
Qed.

Lemma create_execution e cp :
  execs cp !! e_ID e = None ->
  exists cp1, on_executions (repo_Create e) cp = (cp1, Ret tt) /\ recorded_execution e cp cp1 /\
  sess cp1 = sess cp /\ ckpts cp1 = ckpts cp /\ cp_registry cp1 = cp_registry cp.
Proof.
  intros Hnone. destruct (createExecution_spec e cp Hnone) as (t & row & Hc & Hcore & Hr).
  eexists. split; [exact Hc|]. split_and!; [|done..]. by exists row.
Qed.

(** The outcome of dispatching an admitted execution, from the state after waking. *)
Lemma dispatch_spec uuid sid commands parallel s cp :
  execs cp !! uuid = None ->
  exists cp' e err,
  (_ ← on_executions (repo_Create (mkExecution uuid sid ExecStatusPending parallel commands [] now now));
   let exec := e_with_status (startStatus s)
               (mkExecution uuid sid ExecStatusPending parallel commands [] now now) in
   _ ← ignore (updateExecution env exec);
   let failed := e_with_status ExecStatusFailed exec in
   if String.eqb (s_WorkerID s) "" then
   _ ← ignore (updateExecution env failed); mret (failed, Some ENoWorker)
   else
   r ← attempt (SendCommand env (s_WorkerID s) (CExec sid uuid commands parallel));
   match r with
   | Ok _ => mret (exec, None)
   | Err e => _ ← ignore (updateExecution env failed); mret (failed, Some (EDispatch e))
   end) cp = (cp', Ret (e, err)) /\
  sess cp' = sess cp /\ ckpts cp' = ckpts cp /\ recorded_execution e cp cp' /\
  e_ID e = uuid /\ e_SessionID e = sid /\ e_Commands e = commands /\
  match err with
  | None => e_Status e = startStatus s /\ s_WorkerID s <> "" /\
    appended (s_WorkerID s) [CExec sid uuid commands parallel] (cp_registry cp) (cp_registry cp')
  | Some _ => e_Status e = ExecStatusFailed /\ cp_registry cp' = cp_registry cp
  end.
Proof.
  intros Hnone. set (e0 := mkExecution uuid sid ExecStatusPending parallel commands [] now now).
  destruct (create_execution e0 cp Hnone) as (cp1 & Hc & Hrec1 & Hs1 & Hk1 & Hr1).
  rewrite (bind_Ret _ _ _ _ _ Hc). cbv zeta.
  destruct (save_execution e0 (startStatus s) cp cp1 Hrec1) as (cp2 & Hu & Hrec2 & Hs2 & Hk2 & Hr2).
  rewrite (bind_Ret _ _ _ _ _ Hu).
  set (e1 := e_with_status (startStatus s) e0) in *.
  destruct (String.eqb_spec (s_WorkerID s) "") as [Hw|Hw].
  - destruct (save_execution e1 ExecStatusFailed cp cp2 Hrec2) as (cp3 & Hu3 & Hrec3 & Hs3 & Hk3 & Hr3).
  rewrite (bind_Ret _ _ _ _ _ Hu3). eexists cp3, _, _. split; [done|]. split_and!; try done; congruence.
  - destruct (SendCommand_spec env (s_WorkerID s) (CExec sid uuid commands parallel) cp2 eq_refl)
  as [(r' & Hsend & Happ)|(err & Hsend)].
  + erewrite bind_Ret by (unfold attempt; rewrite Hsend; done).
  eexists _, _, _. split; [done|]. rewrite Hr2, Hr1 in Happ.
  split_and!; try done; [by transitivity (sess cp1)|by transitivity (ckpts cp1)].
  + erewrite bind_Ret by (unfold attempt; rewrite Hsend; done).
  destruct (save_execution e1 ExecStatusFailed cp cp2 Hrec2) as (cp3 & Hu3 & Hrec3 & Hs3 & Hk3 & Hr3).
  rewrite (bind_Ret _ _ _ _ _ Hu3). eexists cp3, _, _. split; [done|].
  split_and!; try done; congruence.
Qed.

(** C13 [Exec] sends a command to a worker only for a session that runs or is woken
    for it, only when the session's policy accepts every command in its mode and
    the parallel limit holds, and then exactly once, after the wake-up, recording
    the execution as running or as pending approval. If nothing could be sent the
    execution is recorded as failed; if it is refused nothing is recorded. *)
Theorem Exec_correct uuid sid commands parallel cp :
  execs cp !! uuid = None ->
  let '(cp', r) := Exec env uuid sid commands parallel cp in
  ckpts cp' = ckpts cp /\
  match r with
  | Ret (e, err) =>
  exists s row, sess cp !! sid = Some s /\
    (s_Status s = SessionStatusRunning \/ s_Status s = SessionStatusIdle) /\
    Forall (fun cmd => ValidateCommand (s_ExecPolicy s) cmd (s_Mode s) = Ok tt) commands /\
    (parallel = true -> (0 < ep_MaxParallel (s_ExecPolicy s))%Z ->
     (Z.of_nat (length commands) <= ep_MaxParallel (s_ExecPolicy s))%Z) /\
    sess cp' = <[sid := row]> (sess cp) /\ s_Status row = SessionStatusRunning /\
    e_ID e = uuid /\ e_SessionID e = sid /\ e_Commands e = commands /\
    recorded_execution e cp cp' /\
    match err with
    | None => e_Status e = startStatus s /\
        appended (s_WorkerID s) (wakeCommands s ++ [CExec sid uuid commands parallel])
          (cp_registry cp) (cp_registry cp')
    | Some _ => e_Status e = ExecStatusFailed /\
        delivered (s_WorkerID s) (wakeCommands s) (cp_registry cp) (cp_registry cp')
    end
  | Fail _ => execs cp' = execs cp /\
  (cp' = cp \/ exists s, sess cp !! sid = Some s /\
     delivered (s_WorkerID s) (wakeCommands s) (cp_registry cp) (cp_registry cp'))
  | Stuck => cp' = cp
  end.
Proof.
  intros Hnone. unfold Exec. destruct (sess cp !! sid) as [s|] eqn:Hs.
  2: { unfold mbind, StateM_bind. rewrite getSession_spec, Hs. by split_and!; try left. }
  erewrite bind_Ret by (rewrite getSession_spec, Hs; done).
  pose proof (sess_id _ _ _ Hs) as Hid. rewrite <-Hid in Hs.
  pose proof (ensureRunning_spec s cp Hs) as Hrun. unfold mbind at 1, StateM_bind at 1.
  assert (s_Status s = SessionStatusRunning \/ s_Status s = SessionStatusIdle \/
      exists e, ensureRunning env s cp = (cp, Fail e)) as Hst.
  { unfold ensureRunning. destruct (s_Status s); eauto. }
  destruct (ensureRunning env s cp) as [cp1 [s1|e|]]; destruct Hrun as (He1 & Hk1 & Hrun).
  2: { subst cp1. by split_and!; try left. }
  2: done.
  destruct Hrun as (Hst1 & Hm1 & Hw1 & Hp1 & (row & Hrow & Hsame) & Hdel).
  assert (s_Status s = SessionStatusRunning \/ s_Status s = SessionStatusIdle) as Hst'
  by naive_solver.
  destruct (validateCommands _ _ _) as [[]|e] eqn:Hval; cbv beta iota.
  2: { split_and!; [done..|]. right. exists s. by rewrite Hid in Hs. }
  apply validateCommands_Ok in Hval. rewrite Hp1, Hm1 in Hval.
  destruct ((0 <? _)%Z && parallel && (_ <? _)%Z) eqn:Hmax.
  { split_and!; [done..|]. right. exists s. by rewrite Hid in Hs. }
  change (if RequiresApproval (s_ExecPolicy s1) (s_Mode s1) || bool_decide (s_Mode s1 = ModeAsk)
      then ExecStatusPendingApproval else ExecStatusRunning) with (startStatus s1).
  destruct (dispatch_spec uuid sid commands parallel s1 cp1) as (cp' & e & err & Hd & Hs' & Hk' & Hrec & H1 & H2 & H3 & H4);
  [by rewrite He1|].
  cbv zeta in Hd |- *. rewrite Hd. split; [congruence|]. exists s, row. rewrite <-Hid.
  assert (startStatus s1 = startStatus s) as Hss by (unfold startStatus; by rewrite Hp1, Hm1).
  split_and!; try done.
  - intros -> Hpos. rewrite Hp1 in Hmax. rewrite (proj2 (Z.ltb_lt _ _) Hpos) in Hmax. simpl in Hmax.
  by apply Z.ltb_ge in Hmax.
  - congruence.
  - unfold same_session in Hsame. simpl in Hsame. injection Hsame. congruence.
  - congruence.
  - destruct Hrec as (r & Hr & Hc). exists r. by rewrite <-He1.
  - destruct err as [err|].
  + destruct H4 as [H4 ->]. done.
  + destruct H4 as (H4 & Hne & Happ). split; [congruence|]. rewrite Hw1 in Hne, Happ.
  rewrite Hid in *. by eapply delivered_app.
Qed.

(** ** Approvals *)

Lemma sendAll_spec wid cmds cp :
  Forall (fun cmd => isCriticalCommand (commandType cmd) = false) cmds ->
  (exists r', sendAll env wid cmds cp = (set_registry r' cp, Ret tt) /\
   (cmds <> [] -> appended wid cmds (cp_registry cp) r') /\ (cmds = [] -> r' = cp_registry cp)) \/
  (exists r' pre post e, sendAll env wid cmds cp = (set_registry r' cp, Fail e) /\
   cmds = pre ++ post /\ post <> [] /\
   (pre <> [] -> appended wid pre (cp_registry cp) r') /\ (pre = [] -> r' = cp_registry cp)).
Proof.
  revert cp. induction cmds as [|cmd rest IH]; intros cp Hcrit.
  { left. exists (cp_registry cp). by rewrite set_registry_id. }
  apply Forall_cons in Hcrit as [Hc Hrest]. cbn [sendAll].
  destruct (SendCommand_spec env wid cmd cp Hc) as [(r1 & Hsend & Happ)|(e & Hsend)].
  - erewrite bind_Ret by (unfold attempt; rewrite Hsend; done).
  destruct (IH (set_registry r1 cp) Hrest) as [(r' & Hr & H1 & H2)|(r' & pre & post & e & Hr & Heq & Hp & H1 & H2)].
  + left. exists r'. split; [done|]. split; [|done]. intros _. destruct rest as [|c rest].
    * by rewrite H2.
    * apply (appended_app wid [cmd] (c :: rest) _ r1); [done|]. by apply H1.
  + right. exists r', (cmd :: pre), post, e. split_and!; [done|by rewrite Heq|done| |done].
    intros _. destruct pre as [|c pre]; [by rewrite H2|].
    apply (appended_app wid [cmd] (c :: pre) _ r1); [done|]. by apply H1.
  - right. exists (cp_registry cp), [], (cmd :: rest), (EDispatch e).
  unfold mbind, StateM_bind, attempt. rewrite Hsend, set_registry_id. by split_and!.
Qed.

Lemma sendAllIgnoring_spec wid cmds cp :
  exists r', sendAllIgnoring env wid cmds cp = (set_registry r' cp, Ret tt) /\
  (forall k, k <> wid -> r' !! k = cp_registry cp !! k).
Proof.
  revert cp. induction cmds as [|cmd rest IH]; intros cp.
  { exists (cp_registry cp). by rewrite set_registry_id. }
  cbn [sendAllIgnoring].
  destruct (ignore_send env wid cmd cp) as (r1 & Hi & Hk & _).
  rewrite (bind_Ret _ _ _ _ _ Hi). destruct (IH (set_registry r1 cp)) as (r' & Hr & Hk').
  exists r'. split; [done|]. intros k Hne. rewrite Hk' by done. by apply Hk.
Qed.

(** Replacing one execution. *)
Lemma replace_execution e old cp :
  execs cp !! e_ID e = Some old -> e_SessionID e = e_SessionID old ->
  exists cp', ignore (updateExecution env e) cp = (cp', Ret tt) /\ recorded_execution e cp cp' /\
  sess cp' = sess cp /\ ckpts cp' = ckpts cp /\ cp_registry cp' = cp_registry cp.
Proof.
  intros Hold Hsid. destruct (updateExecution_spec e old cp Hold Hsid) as (t & row & Hu & Hc & Hr).
  eexists. split; [unfold ignore, mbind, StateM_bind, attempt; by rewrite Hu|].
  split_and!; [|done..]. by exists row.
Qed.

(** C14 Only an execution that is pending approval can be approved: its worker gets
    one gate approval per command, in order, the execution is recorded as running,
    and the session's white list grows by the approved binaries exactly when asked
    to. When the approval fails no execution and no session changes. *)
Theorem ApproveExecution_correct sid eid wl cp :
  let '(cp', r) := ApproveExecution env sid eid wl cp in
  ckpts cp' = ckpts cp /\
  match r with
  | Ret e => exists old s,
    execs cp !! eid = Some old /\ e_Status old = ExecStatusPendingApproval /\
    sess cp !! sid = Some s /\ s_WorkerID s <> "" /\
    e = e_with_updated now (e_with_status ExecStatusRunning old) /\ recorded_execution e cp cp' /\
    (e_Commands old <> [] ->
     appended (s_WorkerID s) ((fun cmd => CApproveGate sid (c_ID cmd) wl) <$> e_Commands old)
       (cp_registry cp) (cp_registry cp')) /\
    (wl = false -> sess cp' = sess cp) /\
    (wl = true -> exists row, sess cp' = <[sid := row]> (sess cp) /\
       s_Status row = s_Status s /\ s_Mode row = s_Mode s /\
       s_ExecPolicy row = withAllowed (ep_AllowedCommands (s_ExecPolicy s) ++
                            (extractBinary ∘ c_Command <$> e_Commands old)) (s_ExecPolicy s))
  | _ => execs cp' = execs cp /\ sess cp' = sess cp
  end.
Proof.
  unfold ApproveExecution. destruct (execs cp !! eid) as [old|] eqn:Hold.
  2: { unfold mbind, StateM_bind. by rewrite getExecution_spec, Hold. }
  erewrite bind_Ret by (rewrite getExecution_spec, Hold; done).
  case_bool_decide as Hst; [|done]. cbn [negb].
  destruct (sess cp !! sid) as [s|] eqn:Hs.
  2: { unfold mbind, StateM_bind. by rewrite getSession_spec, Hs. }
  erewrite bind_Ret by (rewrite getSession_spec, Hs; done).
  destruct (String.eqb_spec (s_WorkerID s) "") as [|Hw]; [done|].
  destruct (sendAll_spec (s_WorkerID s)
  ((fun cmd => CApproveGate sid (c_ID cmd) wl) <$> e_Commands old) cp)
  as [(r' & Hr & Happ & _)|(r' & ? & ? & ? & Hr & _)].
  { apply Forall_forall. by intros ? (? & -> & _)%list_elem_of_fmap. }
  2: { unfold mbind, StateM_bind. by rewrite Hr. }
  rewrite (bind_Ret _ _ _ _ _ Hr).
  set (e := e_with_updated now (e_with_status ExecStatusRunning old)).
  pose proof (execs_id _ _ _ Hold) as Heid. pose proof (sess_id _ _ _ Hs) as Hsid.
  assert (forall cp1 cp2, execs cp1 = execs cp -> cp_registry cp1 = r' ->
  recorded_execution e cp1 cp2 -> cp_registry cp2 = cp_registry cp1 ->
  recorded_execution e cp cp2 /\
  (e_Commands old <> [] ->
   appended (s_WorkerID s) ((fun cmd => CApproveGate sid (c_ID cmd) wl) <$> e_Commands old)
     (cp_registry cp) (cp_registry cp2))) as Hend.
  { intros cp1 cp2 He Hreg (row & Hrow & Hcore) Hreg2. split.
  - exists row. by rewrite <-He.
  - intros Hne. rewrite Hreg2, Hreg. apply Happ. by destruct (e_Commands old). }
  destruct wl.
  - set (s' := s_with_updated now _).
  destruct (updateSession_spec s' s (set_registry r' cp)) as (t & row & Hu & Hc & Hrows);
    [by simpl; rewrite Hsid|done|].
  erewrite bind_Ret by (unfold ignore, mbind, StateM_bind, attempt; rewrite Hu; done). cbv zeta.
  destruct (replace_execution e old (set_sessions t (set_registry r' cp)))
    as (cp2 & Hu2 & Hrec & Hs2 & Hk2 & Hr2); [by simpl; rewrite Heid|done|].
  rewrite (bind_Ret _ _ _ _ _ Hu2). split; [done|]. exists old, s.
  destruct (Hend (set_sessions t (set_registry r' cp)) cp2 eq_refl eq_refl Hrec Hr2) as [H1 H2].
  split_and!; try done. intros _. exists row. rewrite Hs2.
  change (sess (set_sessions t (set_registry r' cp))) with (repo_rows t). rewrite Hrows.
  apply same_session_fields in Hc as (_ & _ & Hstat & Hmode & _ & Hpol).
  split_and!; [by simpl; rewrite Hsid|by rewrite Hstat|by rewrite Hmode|by rewrite Hpol].
  - erewrite bind_Ret by done. cbv zeta.
  destruct (replace_execution e old (set_registry r' cp))
    as (cp2 & Hu2 & Hrec & Hs2 & Hk2 & Hr2); [by simpl; rewrite Heid|done|].
  rewrite (bind_Ret _ _ _ _ _ Hu2). split; [done|]. exists old, s.
  destruct (Hend (set_registry r' cp) cp2 eq_refl eq_refl Hrec Hr2) as [H1 H2]. by split_and!.
Qed.

(** ** Migration *)

Lemma CreateCheckpoint_spec sid cpid type parent cp s :
  sess cp !! sid = Some s -> ckpts cp !! cpid = None ->
  exists cp' c err, CreateCheckpoint env sid cpid type parent cp = (cp', Ret (c, err)) /\
    sess cp' = sess cp /\ execs cp' = execs cp /\
    (exists row, ckpts cp' = <[cpid := row]> (ckpts cp) /\
       cp_Status row = CheckpointStatusCreating /\ cp_SessionID row = sid /\ cp_ParentID row = parent) /\
    cp_Status c = match err with None => CheckpointStatusCreating | Some _ => CheckpointStatusFailed end /\
    match err with
    | None => s_WorkerID s <> "" /\
        appended (s_WorkerID s) [CCreateCheckpoint sid cpid type] (cp_registry cp) (cp_registry cp')
    | Some _ => cp_registry cp' = cp_registry cp
    end.
Proof.
  intros Hs Hnone. unfold CreateCheckpoint.
  erewrite bind_Ret by (rewrite getSession_spec, Hs; done).
  set (c0 := mkCheckpoint cpid sid parent type CheckpointStatusCreating "" "" "" "" now).
  destruct (createCheckpoint_spec c0 cp Hnone) as (t & row & Hc & Hcore & Hrows).
  rewrite (bind_Ret _ _ _ _ _ Hc). cbv zeta.
  set (cp1 := set_checkpoints t cp) in *.
  assert (ckpts cp1 = <[cpid := row]> (ckpts cp)) as Hk1 by done.
  assert (exists row, ckpts cp1 = <[cpid := row]> (ckpts cp) /\
    cp_Status row = CheckpointStatusCreating /\ cp_SessionID row = sid /\ cp_ParentID row = parent) as Hrow.
  { exists row. split; [done|]. pose proof (f_equal cp_Status Hcore).
    pose proof (f_equal cp_SessionID Hcore). pose proof (f_equal cp_ParentID Hcore). done. }
  assert (ignore (createCheckpoint (cp_with_status CheckpointStatusFailed c0)) cp1 = (cp1, Ret tt)) as Hdup.
  { unfold ignore, mbind, StateM_bind, attempt. rewrite createCheckpoint_dup; [done|].
    simpl. rewrite Hk1, lookup_insert_eq. by eexists. }
  destruct (String.eqb_spec (s_WorkerID s) "") as [Hw|Hw].
  - rewrite (bind_Ret _ _ _ _ _ Hdup). eexists cp1, _, _. by split_and!.
  - destruct (SendCommand_spec env (s_WorkerID s) (CCreateCheckpoint sid cpid type) cp1 eq_refl)
      as [(r' & Hsend & Happ)|(e & Hsend)].
    + erewrite bind_Ret by (unfold attempt; rewrite Hsend; done).
      eexists _, _, _. by split_and!.
    + erewrite bind_Ret by (unfold attempt; rewrite Hsend; done).
      cbv beta iota. rewrite (bind_Ret _ _ _ _ _ Hdup). eexists cp1, _, _. by split_and!.
Qed.

(** What the state is after the [i]-th to the [i+n-1]-th sleep. *)
Fixpoint afterSleeps (others : nat -> CP -> CP) (i n : nat) (cp : CP) : CP :=
  match n with O => cp | S n => afterSleeps others (S i) n (others i cp) end.

(** The rest of the system neither deletes nor renames the session. *)
Definition keeps_session (sid : string) (others : nat -> CP -> CP) : Prop :=
  forall i cp s, sess cp !! sid = Some s ->
  exists s', sess (others i cp) !! sid = Some s' /\ s_Name s' = s_Name s.

Lemma afterSleeps_session sid others i n cp s :
  keeps_session sid others -> sess cp !! sid = Some s ->
  exists s', sess (afterSleeps others i n cp) !! sid = Some s' /\ s_Name s' = s_Name s.
Proof.
  intros Hk. revert i cp s. induction n as [|n IH]; intros i cp s Hs; simpl; [by eexists|].
  destruct (Hk i cp s Hs) as (s1 & Hs1 & Hn1). destruct (IH (S i) _ _ Hs1) as (s2 & Hs2 & Hn2).
  exists s2. by rewrite Hn2.
Qed.

Lemma waitCheckpoint_spec turns others i cpid c cp :
  cp_Status c <> CheckpointStatusReady ->
  exists n r, waitCheckpoint turns others i cpid c cp = (afterSleeps others i n cp, r) /\
    n <= turns /\
    match r with
    | Ret c' => cp_Status c' = CheckpointStatusReady /\ n < turns /\
                ckpts (afterSleeps others i n cp) !! cpid = Some c' \/ c' = c
    | Fail e => e = EMigrationFailed
    | Stuck => False
    end.
Proof.
  intros Hc. revert i cp. induction turns as [|turns IH]; intros i cp.
  { exists 0, (Ret c). split_and!; [done..|by right]. }
  assert (exists n r, (_ ← modify (others i); waitCheckpoint turns others (S i) cpid c) cp =
      (afterSleeps others i n cp, r) /\ n <= S turns /\
    match r with
    | Ret c' => cp_Status c' = CheckpointStatusReady /\ n < S turns /\
                ckpts (afterSleeps others i n cp) !! cpid = Some c' \/ c' = c
    | Fail e => e = EMigrationFailed
    | Stuck => False
    end) as Hsleep.
  { erewrite bind_Ret by done. destruct (IH (S i) (others i cp)) as (n & r & Hw & Hn & Hr).
    exists (S n), r. split_and!; [done|lia|]. destruct r; [|done..].
    destruct Hr as [(H1 & H2 & H3)|Hr]; [left|by right]. split_and!; [done|lia|done]. }
  cbn [waitCheckpoint].
  assert (attempt (getCheckpoint cpid) cp = (cp, Ret match ckpts cp !! cpid with
    Some c => Ok c | None => Err (EStore ErrNotFound) end)) as Hget.
  { unfold attempt. rewrite getCheckpoint_spec. by destruct (_ !! cpid). }
  rewrite (bind_Ret _ _ _ _ _ Hget). cbv zeta.
  destruct (ckpts cp !! cpid) as [u|] eqn:Hu; [|done].
  destruct (cp_Status u) eqn:Hst; [done| |].
  - exists 0, (Ret u). split_and!; [done|lia|]. left. split_and!; [done|lia|done].
  - exists 0, (Fail EMigrationFailed). split_and!; [done|lia|done].
Qed.

(** A session without a worker cannot be migrated: the checkpoint has nobody to
    take it. *)
Lemma MigrateSession_no_worker others uuid sid target cp s :
  sess cp !! sid = Some s -> s_WorkerID s = "" ->
  exists cp' e, MigrateSession env others uuid sid target cp = (cp', Fail e) /\ sess cp' = sess cp /\
    cp_registry cp' = cp_registry cp.
Proof.
  intros Hs Hw. unfold MigrateSession.
  erewrite bind_Ret by (rewrite getSession_spec, Hs; done).
  rewrite Hw. destruct (String.eqb_spec "" target) as [Heq|_]; [by eexists _, _|]. cbv zeta.
  destruct (ckpts cp !! uuid) as [c0|] eqn:Hu.
  - unfold mbind at 1, StateM_bind at 1, CreateCheckpoint.
  erewrite bind_Ret by (rewrite getSession_spec, Hs; done). cbv zeta.
  unfold mbind at 1, StateM_bind at 1. rewrite createCheckpoint_dup by (simpl; rewrite Hu; by eexists).
  by eexists _, _.
  - destruct (CreateCheckpoint_spec sid uuid CheckpointFull "" cp s Hs Hu)
    as (cp' & c & err & Hc & Hs' & _ & _ & _ & Herr).
  rewrite (bind_Ret _ _ _ _ _ Hc). destruct err as [e|]; [|by destruct Herr].
  exists cp', (EDispatch e). done.
Qed.

(** The launch a migration sends: no mounts, no paths. *)
Definition migrateLaunch s : WorkerCommand :=
  CLaunchSession (mkLaunch (s_ID s) (s_ImageRef s) (s_Mode s) (s_ExecPolicy s) (s_VCPUs s) (s_MemoryMB s)
    "" "" "" []).

(** The last steps, from a ready checkpoint on. *)
Lemma migrate_switch uuid target key s cp now_row :
  sess cp !! s_ID s = Some now_row -> s_Name now_row = s_Name s -> s_WorkerID s <> target ->
  exists cp' row,
    (_ ← (if String.eqb (s_WorkerID s) "" then mret tt
          else ignore (SendCommand env (s_WorkerID s) (CStopSession (s_ID s))));
     let s' := s_with_updated now (s_with_worker target s) in
     _ ← updateSession env s';
     _ ← ignore (SendCommand env target (migrateLaunch s));
     ignore (SendCommand env target (CRestoreCheckpoint (s_ID s) uuid key))) cp = (cp', Ret tt) /\
    sess cp' = <[s_ID s := row]> (sess cp) /\ same_session row (s_with_worker target s) /\
    (forall conn, cp_registry cp !! target = Some conn -> S (length (wc_CmdChan conn)) < cmdChanCap ->
     cp_registry cp' !! target = Some (with_chan_queue (wc_CmdChan conn ++
       [migrateLaunch s; CRestoreCheckpoint (s_ID s) uuid key]) conn)).
Proof.
  intros Hrow Hname Hne.
  assert (exists r1, (if String.eqb (s_WorkerID s) "" then mret tt
    else ignore (SendCommand env (s_WorkerID s) (CStopSession (s_ID s)))) cp =
      (set_registry r1 cp, Ret tt) /\ r1 !! target = cp_registry cp !! target) as (r1 & H1 & Ht1).
  { destruct (String.eqb (s_WorkerID s) ""); [exists (cp_registry cp); by destruct cp|].
    destruct (ignore_send env (s_WorkerID s) (CStopSession (s_ID s)) cp) as (r1 & H1 & Hk & _).
    exists r1. split; [done|]. by apply Hk. }
  rewrite (bind_Ret _ _ _ _ _ H1). cbv zeta.
  destruct (updateSession_spec (s_with_updated now (s_with_worker target s)) now_row (set_registry r1 cp))
    as (t & row & Hup & Hc & Hrows); [done..|].
  rewrite (bind_Ret _ _ _ _ _ Hup). set (cp2 := set_sessions t (set_registry r1 cp)).
  destruct (ignore_send env target (migrateLaunch s) cp2) as (r3 & H3 & _ & Hq3).
  rewrite (bind_Ret _ _ _ _ _ H3).
  destruct (ignore_send env target (CRestoreCheckpoint (s_ID s) uuid key) (set_registry r3 cp2))
    as (r4 & H4 & _ & Hq4).
  rewrite H4. eexists _, row. split_and!; [done|exact Hrows|done|].
  intros conn Hconn Hroom. change (r4 !! target = Some (with_chan_queue (wc_CmdChan conn ++
       [migrateLaunch s; CRestoreCheckpoint (s_ID s) uuid key]) conn)).
  rewrite (Hq4 (with_chan_queue (wc_CmdChan conn ++ [migrateLaunch s]) conn)).
  - unfold with_chan_queue. simpl. by rewrite <-app_assoc.
  - apply Hq3; [|lia]. by change (cp_registry cp2) with r1; rewrite Ht1.
  - simpl. rewrite length_app. simpl. lia.
Qed.

(** C15 Migration moves a session only with a finished checkpoint. It succeeds only
    for a session of another, real worker, after that worker was asked for the
    checkpoint and the checkpoint was seen ready in at most a hundred looks; the
    target then gets the launch and the restore, and the session's row becomes what
    the session was before the wait, with the new worker, whatever the rest of the
    system wrote to it meanwhile. A migration that fails writes no session, and
    none blocks. *)
Theorem MigrateSession_correct others uuid sid target cp :
  keeps_session sid others -> ckpts cp !! uuid = None ->
  let cp1 := (CreateCheckpoint env sid uuid CheckpointFull "" cp).1 in
  let '(cp', r) := MigrateSession env others uuid sid target cp in
  match r with
  | Ret _ => exists s n c row,
      let cp2 := afterSleeps others 0 n cp1 in
      sess cp !! sid = Some s /\ s_WorkerID s <> "" /\ s_WorkerID s <> target /\
      appended (s_WorkerID s) [CCreateCheckpoint sid uuid CheckpointFull]
        (cp_registry cp) (cp_registry cp1) /\
      n < 100 /\ ckpts cp2 !! uuid = Some c /\ cp_Status c = CheckpointStatusReady /\
      sess cp' = <[sid := row]> (sess cp2) /\ same_session row (s_with_worker target s) /\
      (forall conn, cp_registry cp2 !! target = Some conn ->
       S (length (wc_CmdChan conn)) < cmdChanCap ->
       cp_registry cp' !! target = Some (with_chan_queue (wc_CmdChan conn ++
         [migrateLaunch s; CRestoreCheckpoint sid uuid (cp_OverlayPath c)]) conn))
  | Fail _ => exists n, n <= 100 /\ sess cp' = sess (afterSleeps others 0 n cp1) /\ sess cp1 = sess cp
  | Stuck => False
  end.
Proof.
  intros Hk Hu cp1. unfold MigrateSession. destruct (sess cp !! sid) as [s|] eqn:Hs.
  2: { assert (getSession sid cp = (cp, Fail (EStore ErrNotFound))) as Hg by (by rewrite getSession_spec, Hs).
       unfold cp1, CreateCheckpoint, mbind, StateM_bind. rewrite Hg. exists 0. split_and!; [lia|done..]. }
  erewrite bind_Ret by (rewrite getSession_spec, Hs; done).
  destruct (CreateCheckpoint_spec sid uuid CheckpointFull "" cp s Hs Hu)
    as (cp1' & c & err & Hc & Hs1 & _ & _ & Hcst & Herr).
  assert (cp1 = cp1') as Hcp1 by (unfold cp1; by rewrite Hc). clearbody cp1. subst cp1.
  destruct (String.eqb_spec (s_WorkerID s) target) as [|Hne]; [exists 0; split_and!; [lia|done..]|].
  cbv zeta. rewrite (bind_Ret _ _ _ _ _ Hc).
  destruct err as [e|]; [exists 0; split_and!; [lia|done..]|]. destruct Herr as [Hw Happ].
  destruct (waitCheckpoint_spec 100 others 0 uuid c cp1') as (n & r & Hwait & Hn & Hr);
    [by rewrite Hcst|].
  destruct r as [c'|e|]; [|unfold mbind, StateM_bind; rewrite Hwait; by exists n|done].
  rewrite (bind_Ret _ _ _ _ _ Hwait).
  case_bool_decide as Hready; [cbn [negb]|by exists n].
  destruct Hr as [(_ & Hn2 & Hck)|Hr]; [|by rewrite Hr, Hcst in Hready].
  pose proof (sess_id _ _ _ Hs) as Hid. rewrite <-Hid in Hs, Hk.
  destruct (afterSleeps_session (s_ID s) others 0 n cp1' s Hk) as (s2 & Hs2 & Hname2);
    [by rewrite Hs1|].
  destruct (migrate_switch uuid target (cp_OverlayPath c') s _ s2 Hs2 Hname2 Hne)
    as (cp' & row & Hrun & Hrow & Hsame & Hq).
  unfold migrateLaunch in Hrun. rewrite Hid in Hrun. cbv zeta in Hrun.
  unfold migrateLaunch in Hq. rewrite Hid in Hrow, Hq, Hs.
  match goal with |- context [(?m ≫= ?f) (afterSleeps others 0 n cp1')] =>
    assert ((m ≫= f) (afterSleeps others 0 n cp1') = (cp', Ret tt)) as -> by exact Hrun end.
  exists s, n, c', row. unfold migrateLaunch. rewrite Hid. by split_and!.
Qed.
End laws.

(** ** A control plane on SQLite tables *)

Abbreviation SQLiteCP := (ControlPlane (gmap string Session) (gmap string Execution)
  (gmap string Checkpoint) (gmap string Worker)).

Definition session_of (id worker : string) (st : SessionStatus) (mode : ExecMode) : Session :=
  mkSession id id st mode worker "ubuntu" "" "" 1 512 ∅ [] [] DefaultExecPolicy 0 true "" 0 0 0.

(** Two workers; a running session "s", an idle one "i", one still being pulled, "p". *)
Definition example_cp : SQLiteCP :=
  mkCP (<["s" := session_of "s" "a" SessionStatusRunning ModeExecute]>
       (<["i" := session_of "i" "a" SessionStatusIdle ModeExecute]>
       (<["p" := session_of "p" "a" SessionStatusProvisioning ModeExecute]> ∅)))
    ∅ ∅ ∅
    (<["a" := conn_of "a" "eu" WorkerStatusReady 4 8192 2]>
       (<["b" := conn_of "b" "eu" WorkerStatusReady 4 8192 0]> ∅)).
Definition example_env : Env := mkEnv 1000 (fun _ => 1).
Definition ls_command : Command := mkCommand "c1" "ls" ["-l"] "" ∅ 0 0.

(** The commands queued for a worker, and a session's status. *)
Definition queue (wid : string) (cp : SQLiteCP) : option (list WorkerCommand) :=
  wc_CmdChan <$> cp_registry cp !! wid.
Definition status_of (id : string) (cp : SQLiteCP) : option SessionStatus :=
  s_Status <$> sess cp !! id.

Lemma Exec_correct_witness :
  let out := Exec example_env "e1" "i" [ls_command] false example_cp in
  ckpts out.1 = ckpts example_cp /\
  queue "a" out.1 = Some [CResumeSession "i"; CExec "i" "e1" [ls_command] false] /\
  status_of "i" out.1 = Some SessionStatusRunning.
Proof.
  cbv zeta. split; [|split; vm_compute; reflexivity].
  pose proof (Exec_correct example_env "e1" "i" [ls_command] false example_cp eq_refl) as H.
  destruct (Exec example_env "e1" "i" [ls_command] false example_cp) as [cp' r]. exact (proj1 H).
Defined.

(** Somebody completes the checkpoint during the first sleep. *)
Definition completing (i : nat) (cp : SQLiteCP) : SQLiteCP :=
  (CompleteCheckpoint "m1" true "overlay/m1" cp).1.

Lemma completing_keeps i (cp : SQLiteCP) : sess (completing i cp) = sess cp.
Proof.
  unfold completing, CompleteCheckpoint, mbind, StateM_bind. rewrite getCheckpoint_spec.
  destruct (ckpts cp !! "m1"); [|done]. unfold ignore, attempt, mbind, StateM_bind, on_checkpoints. simpl.
  unfold createCheckpoint, on_checkpoints. simpl. by destruct (sqliteCreate _ _).
Qed.

Lemma MigrateSession_correct_witness :
  let out := MigrateSession example_env completing "m1" "s" "b" example_cp in
  out.2 = Ret tt /\ s_WorkerID <$> sess out.1 !! "s" = Some "b" /\
  queue "b" out.1 = Some [migrateLaunch (session_of "s" "a" SessionStatusRunning ModeExecute);
                          CRestoreCheckpoint "s" "m1" "overlay/m1"] /\
  exists s n, sess example_cp !! "s" = Some s /\ n < 100.
Proof.
  cbv zeta.
  assert ((MigrateSession example_env completing "m1" "s" "b" example_cp).2 = Ret tt) as Hr
    by (vm_compute; reflexivity).
  split; [exact Hr|]. split; [vm_compute; reflexivity|]. split; [vm_compute; reflexivity|].
  assert (keeps_session "s" completing) as Hk.
  { intros i cp s Hs. rewrite completing_keeps. exists s. split; [exact Hs|reflexivity]. }
  pose proof (MigrateSession_correct example_env completing "m1" "s" "b" example_cp Hk eq_refl) as H.
  cbv zeta in H.
  destruct (MigrateSession example_env completing "m1" "s" "b" example_cp) as [cp' r].
  cbn [snd] in Hr. subst r. destruct H as (s & n & c & row & H1 & _ & _ & _ & H2 & _).
  exists s, n. split; [exact H1|exact H2].
Defined.

(** ** What the operations leave open *)

(** [Idle] pauses the machine of a session; [Resume] accepts the idle session, records
    it as running and sends nothing: the machine stays paused. [Wake] sends the
    resume. *)
Lemma resume_leaves_machine_paused :
  let cp1 := (Resume example_env "i" example_cp).1 in
  let cp2 := (Wake example_env "i" example_cp).1 in
  status_of "i" cp1 = Some SessionStatusRunning /\ queue "a" cp1 = Some [] /\
  status_of "i" cp2 = Some SessionStatusRunning /\ queue "a" cp2 = Some [CResumeSession "i"].
Proof. by vm_compute. Qed.

(** A session destroyed while its image is pulled is launched when the pull ends, and
    is running again. *)
Lemma pull_revives_destroyed :
  let cp1 := (Destroy example_env "p" example_cp).1 in
  let images := mkImages (fun _ => None) (fun _ => Some "/rootfs") (fun _ => None) in
  let ld := launchData (session_of "p" "a" SessionStatusProvisioning ModeExecute) [] in
  let cp2 := (finishPull example_env images (Ok "img") ld "a" cp1).1 in
  status_of "p" cp1 = Some SessionStatusTerminated /\
  status_of "p" cp2 = Some SessionStatusRunning /\
  (length <$> queue "a" cp2) = Some 2.
Proof. by vm_compute. Qed.

(** A result that arrives late replaces the status of a canceled execution. *)
Lemma late_result_revives_canceled :
  let cp1 := (Exec example_env "e1" "s" [ls_command] false example_cp).1 in
  let cp2 := (CancelExecution example_env "s" "e1" cp1).1 in
  let cp3 := (CompleteExecution example_env "e1" ExecStatusSuccess [] cp2).1 in
  e_Status <$> execs cp2 !! "e1" = Some ExecStatusCanceled /\
  e_Status <$> execs cp3 !! "e1" = Some ExecStatusSuccess.
Proof. by vm_compute. Qed.

(** A checkpoint that could not be requested is returned as failed, but the second
    [INSERT] of the same key is refused: it stays recorded as being created. *)
Lemma failed_checkpoint_stays_creating :
  let cp0 := set_registry ∅ example_cp in
  let '(cp1, r) := CreateCheckpoint example_env "s" "k" CheckpointFull "" cp0 in
  match r with Ret (c, Some _) => cp_Status c = CheckpointStatusFailed | _ => False end /\
  cp_Status <$> ckpts cp1 !! "k" = Some CheckpointStatusCreating.
Proof. by vm_compute. Qed.
