(* ===== verification/Monitor.v ===== *)
(** * Worker failure and draining ([src/internal/controlplane/worker])

    The health monitor ([monitor.go]), which marks silent workers suspect or dead and
    reschedules the sessions of the dead, and the drainer ([drainer.go]). The
    callbacks of volumes and services work on other state and are left out. *)

From stdpp Require Import options.
From S2P Require Import Prelude Effects GoStrings Float64 Words Filesystem Network Policy Entities.
From S2P Require Import Store Registry Scheduler SessionManager.
Open Scope nat_scope.

Record MonitorConfig := mkMonitorConfig { mc_SuspectAfter : Z; mc_DeadAfter : Z; mc_CheckInterval : Z }.
Definition DefaultMonitorConfig : MonitorConfig :=
  mkMonitorConfig (15 * Second) (30 * Second) (5 * Second).

(** [NewMonitor] fills in the defaults for zeros. *)
Definition NewMonitor (cfg : MonitorConfig) : MonitorConfig :=
  let or x d := if (x =? 0)%Z then d else x in
  mkMonitorConfig (or (mc_SuspectAfter cfg) (15 * Second)%Z) (or (mc_DeadAfter cfg) (30 * Second)%Z)
    (or (mc_CheckInterval cfg) (5 * Second)%Z).

Section monitor.
#[local] Set Default Proof Using "Type*".
Context {TS TE TC TW : Type}.
Context `{!Repository Session TS, !Repository Execution TE, !Repository Checkpoint TC,
  !Repository Worker TW, !SessionQueries TS}.
#[local] Abbreviation M := (M TS TE TC TW).
#[local] Abbreviation CP := (ControlPlane TS TE TC TW).
Context (env : Env) (cfg : MonitorConfig).
#[local] Abbreviation now := (env_now env).

(** [migrateFunc], when it is set. *)
Context (migrateFunc : option (string -> string -> M unit)).

(** The first healthy worker of the registry's map, in the order [order] of its keys. *)
Definition pickHealthyWorker (order : list string) (excludeID : string) : M (option string) :=
  gets (fun cp => List.find (fun id =>
      match cp_registry cp !! id with
      | Some c => negb (String.eqb (w_ID (wc_Worker c)) excludeID) && isHealthy (wc_Worker c)
      | None => false
      end) order).

Definition pickAlternateWorker (order : list string) (excludeID : string) : M (option string) :=
  gets (fun cp => List.find (fun id =>
      match cp_registry cp !! id with
      | Some c => negb (String.eqb (w_ID (wc_Worker c)) excludeID)
          && bool_decide (w_Status (wc_Worker c) = WorkerStatusReady)
      | None => false
      end) order).

(** [w.Status = st; w.UpdatedAt = now; m.store.Workers().Update(ctx, w)] through the
    pointer the registry holds. *)
Definition markWorker (st : WorkerStatus) (id : string) : M unit :=
  _ ← updateConn id (fun c => with_worker (with_updated now (with_status st (wc_Worker c))) c);
  conn ← getConn id;
  match conn with
  | Some c => ignore (on_workers (repo_Update now (wc_Worker c)))
  | None => mret tt
  end.

(** The attempt to place one orphaned session; [tries] are [m.migrationTries]. *)
Definition reschedule (order : list string) (deadID : string) (sess : Session)
  (tries : gmap string nat) : M (gmap string nat) :=
  target ← pickHealthyWorker order deadID;
  match target, migrateFunc with
  | Some target, Some migrate =>
      let n := S (default 0 (tries !! s_ID sess)) in
      r ← attempt (migrate (s_ID sess) target);
      match r with
      | Ok _ => mret (delete (s_ID sess) tries)
      | Err _ =>
          if 3 <=? n then
          _ ← ignore (updateSession env (s_with_updated now (s_with_status SessionStatusError sess)));
          mret (delete (s_ID sess) tries)
          else mret (<[s_ID sess := n]> tries)
      end
  | _, _ => mret tries
  end.

Definition handleOrphan (order : list string) (deadID : string) (sess : Session)
  (tries : gmap string nat) : M (gmap string nat) :=
  if bool_decide (s_Status sess = SessionStatusTerminated) then mret tries
  else
  let sess := s_with_updated now (s_with_worker "" (s_with_status SessionStatusCreating sess)) in
  _ ← ignore (updateSession env sess);
  reschedule order deadID sess tries.

(** [orders]: the registry's order when a session is placed. *)
Fixpoint handleOrphans (orders : string -> list string) (deadID : string) (sessions : list Session)
  (tries : gmap string nat) : M (gmap string nat) :=
  match sessions with
  | [] => mret tries
  | s :: rest =>
      tries ← handleOrphan (orders (s_ID s)) deadID s tries;
      handleOrphans orders deadID rest tries
  end.

Definition handleWorkerDead (orders : string -> list string) (id : string)
  (tries : gmap string nat) : M (gmap string nat) :=
  _ ← markWorker WorkerStatusDead id;
  sessions ← attempt (reads (fun cp => ses_ListByWorker id (cp_sessions cp)));
  match sessions with
  | Ok sessions => handleOrphans orders id sessions tries
  | Err _ => mret tries
  end.

(** One worker in the loop of [check]. *)
Definition checkWorker (orders : string -> list string) (id : string) (tries : gmap string nat)
  : M (gmap string nat) :=
  conn ← getConn id;
  match conn with
  | None => mret tries
  | Some c =>
      let w := wc_Worker c in
      if bool_decide (w_Status w = WorkerStatusDraining) || bool_decide (w_Status w = WorkerStatusDead)
      then mret tries
      else
      let sinceLastSeen := (now - w_LastSeen w)%Z in
      if (mc_DeadAfter cfg <? sinceLastSeen)%Z && negb (bool_decide (w_Status w = WorkerStatusDead))
      then handleWorkerDead orders id tries
      else if (mc_SuspectAfter cfg <? sinceLastSeen)%Z
      && negb (bool_decide (w_Status w = WorkerStatusSuspect))
      then _ ← markWorker WorkerStatusSuspect id; mret tries
      else mret tries
  end.

Fixpoint check (orders : string -> list string) (order : list string) (tries : gmap string nat)
  : M (gmap string nat) :=
  match order with
  | [] => mret tries
  | id :: order => tries ← checkWorker orders id tries; check orders order tries
  end.

(** [Start]: nothing happens in the first thirty seconds. *)
Definition gracePeriod : Z := 30 * Second.
Definition tick (startedAt : Z) (orders : string -> list string) (order : list string)
  (tries : gmap string nat) : M (gmap string nat) :=
  if (now - startedAt <? gracePeriod)%Z then mret tries else check orders order tries.

(** ** Draining *)

Fixpoint drainSessions (migrate : string -> string -> M unit) (orders : string -> list string)
  (workerID : string) (sessions : list Session) : M unit :=
  match sessions with
  | [] => mret tt
  | s :: rest =>
      _ ← (if bool_decide (s_Status s = SessionStatusTerminated) then mret tt
        else target ← pickAlternateWorker (orders (s_ID s)) workerID;
        match target with
        | None => mret tt
        | Some target => ignore (migrate (s_ID s) target)
        end);
      drainSessions migrate orders workerID rest
  end.

Definition setConnStatus (st : WorkerStatus) (id : string) : M unit :=
  updateConn id (fun c => with_worker (with_status st (wc_Worker c)) c).

Definition Drain (migrate : string -> string -> M unit) (orders : string -> list string)
  (workerID : string) (timeoutSeconds : Z) : M unit :=
  w ← reads (fun cp => repo_Get workerID (cp_workers cp));
  _ ← on_workers (repo_Update now (with_updated now (with_status WorkerStatusDraining w)));
  _ ← setConnStatus WorkerStatusDraining workerID;
  _ ← ignore (SendCommand env workerID (CDrain timeoutSeconds));
  sessions ← reads (fun cp => ses_ListByWorker workerID (cp_sessions cp));
  drainSessions migrate orders workerID sessions.

Definition Undrain (workerID : string) : M unit :=
  w ← reads (fun cp => repo_Get workerID (cp_workers cp));
  if negb (bool_decide (w_Status w = WorkerStatusDraining)) then fail (ENotDraining (w_Status w))
  else
  _ ← on_workers (repo_Update now (with_updated now (with_status WorkerStatusReady w)));
  setConnStatus WorkerStatusReady workerID.
End monitor.

(** ** The monitor at work *)

(** What one look at a worker makes of its status. *)
Definition classify (cfg : MonitorConfig) (now : Z) (w : Worker) : WorkerStatus :=
  match w_Status w with
  | WorkerStatusDraining => WorkerStatusDraining
  | WorkerStatusDead => WorkerStatusDead
  | st => if (mc_DeadAfter cfg <? now - w_LastSeen w)%Z then WorkerStatusDead
      else if (mc_SuspectAfter cfg <? now - w_LastSeen w)%Z then WorkerStatusSuspect
      else st
  end.

(** It dies at this look. *)
Definition dies (cfg : MonitorConfig) (now : Z) (w : Worker) : bool :=
  negb (bool_decide (w_Status w = WorkerStatusDraining))
  && negb (bool_decide (w_Status w = WorkerStatusDead))
  && (mc_DeadAfter cfg <? now - w_LastSeen w)%Z.

(** A session without a worker, waiting to be placed or given up. *)
Definition detached (s : Session) : Prop :=
  s_WorkerID s = "" /\ (s_Status s = SessionStatusCreating \/ s_Status s = SessionStatusError).

Section monitor_laws.
#[local] Set Default Proof Using "Type*".
Context {TS TE TC TW : Type}.
Context `{!Repository Session TS, !Repository Execution TE, !Repository Checkpoint TC,
  !Repository Worker TW}.
Context `{!RepositoryLaws Session TS, !RepositoryLaws Execution TE, !RepositoryLaws Checkpoint TC}.
Context `{!SessionQueries TS, !SessionQueriesLaws TS}.
Context (env : Env) (cfg : MonitorConfig).
#[local] Abbreviation CP := (ControlPlane TS TE TC TW).
#[local] Abbreviation now := (env_now env).
Implicit Types (cp : CP) (s : Session).

(** The callback the program installs: [MigrateSession] with fresh identifiers, the
    rest of the system doing anything while it waits. *)
Context (others : nat -> CP -> CP) (uuids : string -> string).
#[local] Abbreviation migrate :=
  (Some (fun sid target => MigrateSession env others (uuids sid) sid target)).

Lemma ignore_workers_frame (f : TW -> result StoreError TW) cp :
  exists t, ignore (on_workers f) cp = (set_workers t cp, Ret tt).
Proof.
  unfold ignore, mbind, StateM_bind, attempt, on_workers.
  destruct (f (cp_workers cp)) as [t|e]; [by exists t|]. exists (cp_workers cp). by destruct cp.
Qed.

Lemma markWorker_spec st id cp :
  exists cp', markWorker env st id cp = (cp', Ret tt) /\ sess cp' = sess cp /\
  cp_sessions cp' = cp_sessions cp /\
  cp_registry cp' =
  alter (fun c => with_worker (with_updated now (with_status st (wc_Worker c))) c) id (cp_registry cp).
Proof.
  unfold markWorker. erewrite bind_Ret by done. erewrite bind_Ret by done.
  destruct (_ !! id); [|by eexists].
  edestruct ignore_workers_frame as (t & Ht). rewrite Ht. by eexists.
Qed.

Lemma ignore_updateSession s old cp :
  sess cp !! s_ID s = Some old -> s_Name s = s_Name old ->
  exists cp' row, ignore (updateSession env s) cp = (cp', Ret tt) /\
  same_session row s /\ sess cp' = <[s_ID s := row]> (sess cp) /\
  cp_registry cp' = cp_registry cp.
Proof.
  intros Hold Hname. destruct (updateSession_spec env s old cp Hold Hname) as (t & row & Hu & Hc & Hr).
  exists (set_sessions t cp), row. split_and!; [|done..].
  unfold ignore, mbind, StateM_bind, attempt. by rewrite Hu.
Qed.

Lemma handleOrphan_spec order deadID s tries cp :
  sess cp !! s_ID s = Some s ->
  exists cp' tries', handleOrphan env migrate order deadID s tries cp = (cp', Ret tries') /\
  cp_registry cp' = cp_registry cp /\
  if bool_decide (s_Status s = SessionStatusTerminated) then sess cp' = sess cp
  else exists row, sess cp' = <[s_ID s := row]> (sess cp) /\ detached row.
Proof.
  intros Hs. unfold handleOrphan. case_bool_decide as Hterm; [by eexists _, _|]. cbv zeta.
  set (s1 := s_with_updated now _).
  destruct (ignore_updateSession s1 s cp) as (cp1 & row & Hu & Hrow & Hs1 & Hr1); [done..|].
  rewrite (bind_Ret _ _ _ _ _ Hu). unfold reschedule. erewrite bind_Ret by done.
  change (s_ID s1) with (s_ID s) in *. pose proof (same_session_fields _ _ Hrow) as Hf.
  assert (detached row) as Hdet by (split; [|left]; by apply Hf).
  destruct (List.find _ order) as [target|]; [|exists cp1, tries; split_and!; [done..|by exists row]].
  cbv zeta. destruct (MigrateSession_no_worker env others (uuids (s_ID s)) (s_ID s) target cp1 row)
  as (cp2 & e & Hm & Hs2 & Hr2).
  { by rewrite Hs1, lookup_insert_eq. } { apply Hdet. }
  erewrite bind_Ret by (unfold attempt; rewrite Hm; done). cbv beta iota.
  destruct (3 <=? _); [|exists cp2; eexists; split_and!; [done|by rewrite Hr2|exists row; by rewrite Hs2]].
  destruct (ignore_updateSession (s_with_updated now (s_with_status SessionStatusError s1)) row cp2)
  as (cp3 & row3 & Hu3 & Hrow3 & Hs3 & Hr3).
  { change (s_ID (s_with_updated now (s_with_status SessionStatusError s1))) with (s_ID s).
  by rewrite Hs2, Hs1, lookup_insert_eq. }
  { symmetry. apply Hf. }
  rewrite (bind_Ret _ _ _ _ _ Hu3). exists cp3. eexists. split_and!; [done|by rewrite Hr3, Hr2|].
  exists row3. split; [by rewrite Hs3, Hs2, Hs1; apply insert_insert_eq|].
  apply same_session_fields in Hrow3. split; [|right]; by apply Hrow3.
Qed.

Lemma handleOrphans_spec orders deadID l tries cp :
  NoDup (s_ID <$> l) -> Forall (fun s => sess cp !! s_ID s = Some s) l ->
  exists cp' tries', handleOrphans env migrate orders deadID l tries cp = (cp', Ret tries') /\
  cp_registry cp' = cp_registry cp /\
  (forall k, k ∉ (s_ID <$> l) -> sess cp' !! k = sess cp !! k) /\
  Forall (fun s => if bool_decide (s_Status s = SessionStatusTerminated)
               then sess cp' !! s_ID s = Some s
               else exists row, sess cp' !! s_ID s = Some row /\ detached row) l.
Proof.
  revert tries cp. induction l as [|s l IH]; intros tries cp Hnd Hl; [by eexists _, _|].
  apply NoDup_cons in Hnd as [Hnot Hnd]. apply Forall_cons in Hl as [Hs Hl]. cbn [handleOrphans].
  destruct (handleOrphan_spec (orders (s_ID s)) deadID s tries cp Hs) as (cp1 & tries1 & H1 & Hr1 & Hout).
  rewrite (bind_Ret _ _ _ _ _ H1).
  assert (forall k, k <> s_ID s -> sess cp1 !! k = sess cp !! k) as Hframe.
  { intros k Hk. case_bool_decide; [by rewrite Hout|]. destruct Hout as (row & -> & _).
  by apply lookup_insert_ne. }
  destruct (IH tries1 cp1 Hnd) as (cp2 & tries2 & H2 & Hr2 & Hk2 & Hl2).
  { rewrite Forall_forall in Hl |- *. intros s' Hs'. rewrite Hframe; [by apply Hl|].
  intros Heq. apply Hnot. rewrite <-Heq. by apply list_elem_of_fmap_2. }
  exists cp2, tries2. split_and!; [done|by rewrite Hr2| |].
  - intros k Hk. rewrite fmap_cons, not_elem_of_cons in Hk. destruct Hk as [Hk1 Hk].
  rewrite Hk2 by done. by apply Hframe.
  - constructor; [|done]. rewrite Hk2 by done.
  case_bool_decide; [by rewrite Hout|]. destruct Hout as (row & -> & Hd). exists row.
  by rewrite lookup_insert_eq.
Qed.

(** What the death of worker [wid] does to the session [s], if the store finds it. *)
Definition orphaned (wid : string) s (after : option Session) : Prop :=
  if bool_decide (s_WorkerID s = wid /\ ses_finds s = true /\ s_Status s <> SessionStatusTerminated)
  then exists row, after = Some row /\ detached row
  else after = Some s.

Lemma rows_NoDup (t : TS) : NoDup (s_ID <$> (map_to_list (repo_rows t)).*2).
Proof.
  rewrite <-list_fmap_compose. erewrite list_fmap_ext.
  - apply (NoDup_fst_map_to_list (repo_rows t)).
  - intros i [k s] Hi%list_elem_of_lookup_2%elem_of_map_to_list. exact (repo_rows_id _ _ _ Hi).
Qed.

Lemma handleWorkerDead_spec orders wid tries cp :
  exists cp' tries', handleWorkerDead env migrate orders wid tries cp = (cp', Ret tries') /\
  cp_registry cp' = alter (fun c => with_worker (with_updated now (with_status WorkerStatusDead (wc_Worker c))) c)
  wid (cp_registry cp) /\
  (forall k s, sess cp !! k = Some s -> orphaned wid s (sess cp' !! k)).
Proof.
  unfold handleWorkerDead.
  destruct (markWorker_spec WorkerStatusDead wid cp) as (cp1 & Hm & Hs1 & Hcs1 & Hr1).
  rewrite (bind_Ret _ _ _ _ _ Hm).
  destruct (ses_ListByWorker_spec wid (cp_sessions cp1)) as (l & Hl & Hperm).
  erewrite bind_Ret by (unfold attempt, reads; rewrite Hl; done). cbv beta iota.
  assert (forall s, s ∈ l <-> sess cp1 !! s_ID s = Some s /\ s_WorkerID s = wid /\ ses_finds s = true) as Hin.
  { intros s. rewrite Hperm, list_elem_of_filter, list_elem_of_fmap. split.
  - intros [Hw ([k s'] & -> & Hk%elem_of_map_to_list)]. split; [|done].
    simpl in *. assert (s_ID s' = k) as -> by exact (repo_rows_id _ _ _ Hk). done.
  - intros [Hk Hw]. split; [done|]. exists (s_ID s, s). split; [done|]. by apply elem_of_map_to_list. }
  destruct (handleOrphans_spec orders wid l tries cp1) as (cp2 & tries2 & H2 & Hr2 & Hk2 & Hl2).
  { rewrite Hperm. apply NoDup_fmap_filter, rows_NoDup. }
  { apply Forall_forall. intros s Hs. by apply Hin. }
  exists cp2, tries2. split_and!; [done|by rewrite Hr2|].
  intros k s Hk. pose proof (sess_id _ _ _ Hk) as Hid. rewrite <-Hid in Hk |- *.
  rewrite <-Hs1 in Hk. unfold orphaned. case_bool_decide as Hb.
  - destruct Hb as (Hw & Hf & Ht). assert (s ∈ l) as Hsl by (by apply Hin).
  rewrite Forall_forall in Hl2. specialize (Hl2 s Hsl). by rewrite bool_decide_eq_false_2 in Hl2.
  - destruct (decide (s_WorkerID s = wid /\ ses_finds s = true)) as [[Hw Hf]|Hw].
  + assert (s ∈ l) as Hsl by (by apply Hin).
    rewrite Forall_forall in Hl2. specialize (Hl2 s Hsl).
    rewrite bool_decide_eq_true_2 in Hl2; [done|].
    destruct (decide (s_Status s = SessionStatusTerminated)); naive_solver.
  + rewrite Hk2; [done|]. intros (s' & Hid' & Hs')%list_elem_of_fmap. apply Hin in Hs' as [Hk' Hw'].
    rewrite <-Hid', Hk in Hk'. injection Hk' as ->. done.
Qed.

Lemma classify_dies w :
  dies cfg now w = true -> classify cfg now w = WorkerStatusDead.
Proof. unfold dies, classify. intros Hd. bool_props.
  destruct (w_Status w); try congruence; by rewrite (proj2 (Z.ltb_lt _ _)). Qed.

(** One look at one worker. *)
Lemma checkWorker_spec orders wid c tries cp :
  cp_registry cp !! wid = Some c ->
  exists cp' tries' c', checkWorker env cfg migrate orders wid tries cp = (cp', Ret tries') /\
  cp_registry cp' = <[wid := c']> (cp_registry cp) /\
  w_Status (wc_Worker c') = classify cfg now (wc_Worker c) /\ wc_CmdChan c' = wc_CmdChan c /\
  (forall k s, sess cp !! k = Some s ->
   if dies cfg now (wc_Worker c) then orphaned wid s (sess cp' !! k) else sess cp' !! k = Some s).
Proof.
  intros Hc. unfold checkWorker. erewrite bind_Ret by done. rewrite Hc.
  assert (forall f, alter f wid (cp_registry cp) = <[wid := f c]> (cp_registry cp)) as Halter.
  { intros f. by rewrite <-(insert_id _ _ _ Hc) at 1; rewrite alter_insert_eq. }
  destruct (dies cfg now (wc_Worker c)) eqn:Hdies.
  - pose proof (classify_dies _ Hdies) as Hcl. unfold dies in Hdies. bool_props.
  rewrite !bool_decide_eq_false_2 by done. cbn [orb negb andb]. rewrite (proj2 (Z.ltb_lt _ _)) by done.
  destruct (handleWorkerDead_spec orders wid tries cp) as (cp' & tries' & Hrun & Hr & Hs).
  exists cp', tries'. eexists. rewrite Halter in Hr. split_and!; [exact Hrun|exact Hr|by rewrite Hcl|done|done].
  - unfold dies in Hdies. unfold classify. destruct (w_Status (wc_Worker c)) eqn:Hst; try done;
  try (exists cp, tries, c; rewrite insert_id by done; by split_and!);
  simpl in Hdies |- *; rewrite Hdies; cbn [andb];
  (destruct (mc_SuspectAfter cfg <? _)%Z; simpl;
   [try (destruct (markWorker_spec WorkerStatusSuspect wid cp) as (cp' & Hm & Hs & _ & Hr);
         rewrite (bind_Ret _ _ _ _ _ Hm), Halter in *; exists cp', tries; eexists;
         split_and!; [done|exact Hr|done|done|by rewrite Hs])|];
   exists cp, tries, c; rewrite insert_id by done; by split_and!).
Qed.

(** The worker [wid] is registered and dies at this look. *)
Definition dying cp (wid : string) : bool :=
  match cp_registry cp !! wid with Some c => dies cfg now (wc_Worker c) | None => false end.

(** The session loses its worker when the workers of [order] are looked at. *)
Definition loses_worker cp (order : list string) s : bool :=
  ses_finds s && negb (bool_decide (s_Status s = SessionStatusTerminated))
  && bool_decide (s_WorkerID s ∈ order) && dying cp (s_WorkerID s).

(** The status of a registered worker after the pass; its queue stays. *)
Definition looked_at cp (order : list string) (wid : string) (after : option WorkerConn) : Prop :=
  match cp_registry cp !! wid with
  | None => after = None
  | Some c => exists c', after = Some c' /\ wc_CmdChan c' = wc_CmdChan c /\
      w_Status (wc_Worker c') = if bool_decide (wid ∈ order) then classify cfg now (wc_Worker c)
      else w_Status (wc_Worker c)
  end.

Lemma bool_decide_cons_ne (k x : string) (l : list string) :
  k <> x -> bool_decide (k ∈ x :: l) = bool_decide (k ∈ l).
Proof. intros Hne. apply bool_decide_ext. rewrite elem_of_cons. by split; [intros [?|?]|right]. Qed.

Lemma loses_worker_frame cp cp1 wid order s :
  (forall k, k <> wid -> cp_registry cp1 !! k = cp_registry cp !! k) -> wid ∉ order ->
  s_WorkerID s <> wid \/ dying cp wid = false ->
  loses_worker cp (wid :: order) s = loses_worker cp1 order s.
Proof.
  intros Hk Hnot Hor. unfold loses_worker. destruct (decide (s_WorkerID s = wid)) as [Heq|Hne].
  - rewrite Heq, (bool_decide_eq_false_2 (wid ∈ order)) by done.
  destruct Hor as [|Hd]; [done|]. by rewrite Hd, !andb_false_r, andb_false_l.
  - rewrite bool_decide_cons_ne by done. unfold dying. by rewrite Hk.
Qed.

Lemma looked_at_cons cp cp1 wid order k after :
  (forall k, k <> wid -> cp_registry cp1 !! k = cp_registry cp !! k) -> wid ∉ order ->
  looked_at cp [wid] wid (cp_registry cp1 !! wid) ->
  looked_at cp1 order k after -> looked_at cp (wid :: order) k after.
Proof.
  intros Hk Hnot H1 H2. destruct (decide (k = wid)) as [->|Hne]; unfold looked_at in *.
  - destruct (cp_registry cp !! wid) as [c|]; [|by rewrite H1 in H2].
  destruct H1 as (c1 & Hc1 & Hq1 & Hst1). rewrite Hc1 in H2. destruct H2 as (c2 & -> & Hq2 & Hst2).
  rewrite (bool_decide_eq_false_2 (wid ∈ order)) in Hst2 by done.
  rewrite (bool_decide_eq_true_2 (wid ∈ [wid])) in Hst1 by (by left).
  exists c2. rewrite bool_decide_eq_true_2 by (by left). split_and!; congruence.
  - rewrite (Hk k Hne) in H2. by rewrite bool_decide_cons_ne.
Qed.

(** A session of a worker that dies now is not touched again. *)
Lemma dead_session_stays cp1 cp2 wid order s sid :
  "" ∉ order -> orphaned wid s (sess cp1 !! sid) -> s_WorkerID s = wid ->
  (forall s, sess cp1 !! sid = Some s ->
   if loses_worker cp1 order s then exists row, sess cp2 !! sid = Some row /\ detached row
   else sess cp2 !! sid = Some s) ->
  if ses_finds s && negb (bool_decide (s_Status s = SessionStatusTerminated))
  then exists row, sess cp2 !! sid = Some row /\ detached row
  else sess cp2 !! sid = Some s.
Proof.
  intros Hempty Ho Hw H2. unfold orphaned in Ho.
  destruct (ses_finds s && negb (bool_decide (s_Status s = SessionStatusTerminated))) eqn:Hb.
  2: { rewrite bool_decide_eq_false_2 in Ho; [|by intros (_ & Hf & Ht); rewrite Hf, bool_decide_eq_false_2 in Hb].
  specialize (H2 s Ho). unfold loses_worker in H2. by rewrite Hb in H2. }
  apply andb_true_iff in Hb as [Hf Hterm%negb_true_iff%bool_decide_eq_false].
  rewrite bool_decide_eq_true_2 in Ho by done.
  destruct Ho as (row & Hrow & Hdet). specialize (H2 row Hrow). unfold loses_worker in H2.
  rewrite (proj1 Hdet), (bool_decide_eq_false_2 ("" ∈ order)), andb_false_r in H2 by done. by exists row.
Qed.

End monitor_laws.

(** ** Examples *)

Definition seen_at (t : Z) (c : WorkerConn) : WorkerConn := with_worker (with_last_seen t (wc_Worker c)) c.

(** A minute later worker "a" is silent and "b" is not. *)
Definition minute : Env := mkEnv (60 * Second) (fun _ => 0).
Definition silent_cp : SQLiteCP :=
  set_registry (<["a" := conn_of "a" "eu" WorkerStatusReady 4 8192 2]>
    (<["b" := seen_at (60 * Second) (conn_of "b" "eu" WorkerStatusReady 4 8192 0)]> ∅)) example_cp.
Definition conn_status (id : string) (cp : SQLiteCP) : option WorkerStatus :=
  w_Status ∘ wc_Worker <$> cp_registry cp !! id.

Section examples.
#[local] Existing Instances postgresQueries postgresQueries_laws.

Definition one_pass (cp : SQLiteCP) : SQLiteCP :=
  (check minute DefaultMonitorConfig
    (Some (fun sid target => MigrateSession minute (fun _ cp => cp) ("m-" +:+ sid) sid target))
    (fun _ => ["b"; "a"]) ["a"; "b"] ∅ cp).1.


(** The attempt to place an orphaned session fails although worker "b" is ready: its
    worker was cleared just before, and a migration needs it for the checkpoint. The
    checkpoint stays recorded as being created. *)
Lemma orphans_are_not_placed :
  status_of "s" (one_pass silent_cp) = Some SessionStatusCreating /\
  queue "b" (one_pass silent_cp) = Some [] /\
  cp_Status <$> ckpts (one_pass silent_cp) !! "m-s" = Some CheckpointStatusCreating.
Proof. by vm_compute. Qed.

(** A worker that goes silent while it drains keeps its status and its sessions. *)
Lemma draining_never_dies :
  let cp := set_registry (<["a" := conn_of "a" "eu" WorkerStatusDraining 4 8192 2]> ∅) example_cp in
  conn_status "a" (one_pass cp) = Some WorkerStatusDraining /\
  s_WorkerID <$> sess (one_pass cp) !! "s" = Some "a".
Proof. by vm_compute. Qed.

(** A session that had failed is reset to creating when its worker dies. *)
Lemma failed_session_is_reset :
  let cp := set_sessions (<["f" := session_of "f" "a" SessionStatusError ModeExecute]> ∅) silent_cp in
  status_of "f" (one_pass cp) = Some SessionStatusCreating.
Proof. by vm_compute. Qed.
End examples.

(** With the SQLite store no session is found: all stay on the dead worker. *)
Section sqlite_examples.
#[local] Existing Instance sqliteQueries.

Lemma sqlite_orphans_stay :
  let cp := (check minute DefaultMonitorConfig
    (Some (fun sid target => MigrateSession minute (fun _ cp => cp) ("m-" +:+ sid) sid target))
    (fun _ => ["b"; "a"]) ["a"; "b"] ∅ silent_cp).1 in
  conn_status "a" cp = Some WorkerStatusDead /\ s_WorkerID <$> sess cp !! "s" = Some "a" /\
  status_of "s" cp = Some SessionStatusRunning.
Proof. by vm_compute. Qed.
End sqlite_examples.
