(* ===== verification/ServiceManager.v ===== *)
(** * The service manager ([src/internal/controlplane/service/manager.go])

    Deployment, scaling, stopping, waking and idling of services, their domain routes
    and the autoscaler, over the repository of services, the volume manager and the
    worker registry. Metrics and logging are left out; identifiers and generated
    names are drawn from two sequences. *)

From stdpp Require Import sorting pretty options.
From S2P Require Import Prelude Effects GoStrings Float64 Words Filesystem Network Policy Entities.
From S2P Require Import Store VolumeManager Services Registry Scheduler.
Open Scope nat_scope.

Inductive ServiceError :=
  | ESStore (e : StoreError)
  | ESMgr (e : MgrError)
  | ESVolume (e : VolumeError)
  | ESNameTaken (name : string)
  | ESEngine (engine : string)
  | ESReplicas
  | ESStatus (s : ServiceStatus)
  | ESNoWorker
  | ESNoLogs.

(** [t.UnixMilli()]: the Unix epoch lies 62135596800 seconds after the zero time. *)
Definition unixMilli (t : Z) : Z := ((t - 62135596800 * Second) / 1000000)%Z.

(** A domain the proxy serves ([internal/loka/mount.go]); the table has it under its domain. *)
Inductive DomainRouteType := DomainRouteUnset | DomainRouteSession | DomainRouteService.
#[global] Instance DomainRouteType_eq_dec : EqDecision DomainRouteType.
Proof. solve_decision. Defined.
Record DomainRoute := mkDomainRoute {
  dr_SessionID : string;
  dr_ServiceID : string;
  dr_RemotePort : Z;
  dr_Type : DomainRouteType
}.

(** What the manager asks the image manager: the image of a cached reference, and the
    paths of the root file system, the layer pack and the snapshot of an image. *)
Record ServiceImages := mkServiceImages {
  si_GetByRef : string -> option string;
  si_ResolveRootfsPath : string -> option string;
  si_ResolveLayerPackPath : string -> option string;
  si_ResolveSnapshotPaths : string -> option (string * string)
}.

(** The collaborators: some may be missing. [se_order] is the order in which the map of
    the registry is ranged over, [se_extract] the outcome of extracting a bundle,
    [se_download] the local path of a snapshot in the object store. *)
Record ServiceEnv := mkServiceEnv {
  se_env : Env;
  se_images : option ServiceImages;
  se_volumes : bool;
  se_objStore : bool;
  se_proxy : bool;
  se_strategy : string;
  se_order : list string;
  se_extract : string -> string -> bool;
  se_download : option (string -> option string);
  se_uuid : nat -> string;
  se_slug : nat -> string
}.

Section manager.
#[local] Set Default Proof Using "Type*".
Context {TV TL : Type} `{!SqlTable Service TV, !SqlTable VolumeRecord TL}.

(** The tables, the registry, the routes of the proxy, the number of identifiers drawn,
    and the services whose [asyncDeploy] has been started. *)
Record ServicePlane := mkServicePlane {
  sp_services : TV;
  sp_volumes : TL;
  sp_registry : gmap string WorkerConn;
  sp_routes : gmap string DomainRoute;
  sp_next : nat;
  sp_deploys : list string
}.
#[local] Abbreviation SM := (StateM ServicePlane ServiceError).

Definition sp_set_services (t : TV) (sp : ServicePlane) : ServicePlane :=
  mkServicePlane t (sp_volumes sp) (sp_registry sp) (sp_routes sp) (sp_next sp) (sp_deploys sp).
Definition sp_set_volumes (t : TL) (sp : ServicePlane) : ServicePlane :=
  mkServicePlane (sp_services sp) t (sp_registry sp) (sp_routes sp) (sp_next sp) (sp_deploys sp).
Definition sp_set_registry (r : gmap string WorkerConn) (sp : ServicePlane) : ServicePlane :=
  mkServicePlane (sp_services sp) (sp_volumes sp) r (sp_routes sp) (sp_next sp) (sp_deploys sp).
Definition sp_set_routes (r : gmap string DomainRoute) (sp : ServicePlane) : ServicePlane :=
  mkServicePlane (sp_services sp) (sp_volumes sp) (sp_registry sp) r (sp_next sp) (sp_deploys sp).
Definition sp_drawn (sp : ServicePlane) : ServicePlane :=
  mkServicePlane (sp_services sp) (sp_volumes sp) (sp_registry sp) (sp_routes sp) (S (sp_next sp))
  (sp_deploys sp).
Definition sp_start (id : string) (sp : ServicePlane) : ServicePlane :=
  mkServicePlane (sp_services sp) (sp_volumes sp) (sp_registry sp) (sp_routes sp) (sp_next sp)
  (sp_deploys sp ++ [id]).

Context (env : ServiceEnv).
#[local] Abbreviation now := (env_now (se_env env)).

(** [m.store.Services()] *)
Definition getService (id : string) : SM Service := fun sp =>
  match repo_Get id (sp_services sp) with Ok s => (sp, Ret s) | Err e => (sp, Fail (ESStore e)) end.
Definition writeServices (f : TV -> result StoreError TV) : SM unit := fun sp =>
  match f (sp_services sp) with
  | Ok t => (sp_set_services t sp, Ret tt) | Err e => (sp, Fail (ESStore e)) end.
Definition updateService (s : Service) : SM unit := writeServices (repo_Update now s).
(** [services, _, _ := List(..)] takes no services from a failed query. *)
Definition queryServices (f : ServiceFilter) : SM (list Service) := gets (fun sp =>
  match listServices f (sp_services sp) with Ok l => l | Err _ => [] end).

(** The registry, whose operations need no tables. *)
Definition onRegistry {A} (m : M unit unit unit unit A) : SM A := fun sp =>
  match m (mkCP tt tt tt tt (sp_registry sp)) with
  | (cp, Ret a) => (sp_set_registry (cp_registry cp) sp, Ret a)
  | (cp, Fail e) => (sp_set_registry (cp_registry cp) sp, Fail (ESMgr e))
  | (cp, Stuck) => (sp_set_registry (cp_registry cp) sp, Stuck)
  end.
Definition sendCommand (wid : string) (cmd : WorkerCommand) : SM unit :=
  onRegistry (SendCommand (se_env env) wid cmd).
Definition pickWorker (prefer : list string) : SM WorkerConn := fun sp =>
  let candidates := omap (fun id => sp_registry sp !! id) (se_order env) in
  match Pick (se_strategy env) (mkConstraints ∅ "" "" [] prefer) candidates with
  | Ok c => (sp, Ret c)
  | Err e => (sp, Fail (ESMgr e))
  end.

(** The volume manager lists the healthy workers of the registry. *)
Definition volumeEnv (sp : ServicePlane) : VolumeEnv :=
  mkVolumeEnv now (se_objStore env)
  (Some (ListHealthy (omap (fun id => sp_registry sp !! id) (se_order env)))).
Definition onVolumes {A} (m : VolumeEnv -> StateM TL VolumeError A) : SM A := fun sp =>
  match m (volumeEnv sp) (sp_volumes sp) with
  | (t, Ret a) => (sp_set_volumes t sp, Ret a)
  | (t, Fail e) => (sp_set_volumes t sp, Fail (ESVolume e))
  | (t, Stuck) => (sp_set_volumes t sp, Stuck)
  end.

Definition newID : SM string := fun sp => (sp_drawn sp, Ret (se_uuid env (sp_next sp))).
Definition newSlug : SM string := fun sp => (sp_drawn sp, Ret (se_slug env (sp_next sp))).

(** ** Status *)

Definition updateStatusMessage (id message : string) : SM unit :=
  ignore (s ← getService id;
  updateService (sv_mark (sv_Status s) (sv_Ready s) message s)).

Definition setError (id message : string) : SM unit :=
  ignore (s ← getService id;
  updateService (sv_mark ServiceStatusError false message s)).

(** ** Routes *)

Definition addRoutes (s : Service) : SM unit :=
  if se_proxy env then
  for_each (fun r => if String.eqb (rt_Domain r) "" then mret tt
  else modify (fun sp => sp_set_routes
  (<[rt_Domain r := mkDomainRoute "" (sv_ID s) (rt_Port r) DomainRouteService]> (sp_routes sp)) sp))
  (do_Routes (sv_Opts s))
  else mret tt.

Definition removeRoutes (s : Service) : SM unit :=
  if se_proxy env then
  for_each (fun r => if String.eqb (rt_Domain r) "" then mret tt
  else modify (fun sp => sp_set_routes (delete (rt_Domain r) (sp_routes sp)) sp))
  (do_Routes (sv_Opts s))
  else mret tt.

(** [registerExistingRoutes] and [reRegisterRoutes] differ in the limit of the query. *)
Definition registerRoutes (limit : Z) : SM unit :=
  services ← queryServices (mkServiceFilter (Some ServiceStatusRunning) None None None None None limit 0);
  for_each addRoutes services.

(** ** Deployment *)

Definition defaultZ (x d : Z) : Z := if (x =? 0)%Z then d else x.

(** The defaults of an empty request. *)
Definition withDefaults (name : string) (o : DeployOpts) : DeployOpts :=
  mkDeploy name (do_ImageRef o) (do_RecipeName o) (do_Command o) (do_Args o) (do_Env o) (do_Workdir o)
  (defaultZ (do_Port o) 8080) (defaultZ (do_VCPUs o) 1) (defaultZ (do_MemoryMB o) 512) (do_Routes o)
  (do_BundleKey o) (do_IdleTimeout o)
  (if String.eqb (do_HealthPath o) "" then "/health" else do_HealthPath o)
  (defaultZ (do_HealthInterval o) 10) (defaultZ (do_HealthTimeout o) 5)
  (defaultZ (do_HealthRetries o) 3) (do_Labels o) (do_Mounts o) (do_Autoscale o)
  (do_DatabaseConfig o) (do_Uses o) (do_Replicas o) (do_RelationType o) (do_ParentServiceID o).

(** The settings of a managed database: image, port, environment, data volume, no
    routes and a check of the port only. *)
Definition databaseOpts (cfg : DatabaseConfig) (d : EngineDefaults) (o : DeployOpts) : DeployOpts :=
  let volume := mkVolume (ed_DataDir d) "" "volume" ("db-" +:+ do_Name o) "" "" "" "" "readwrite" "" "" "" in
  mkDeploy (do_Name o) (if String.eqb (do_ImageRef o) "" then ed_Image d else do_ImageRef o)
  (do_RecipeName o) (do_Command o) (do_Args o) (do_Env o ∪ DatabaseEnv cfg) (do_Workdir o)
  (if (do_Port o =? 8080)%Z then ed_Port d else do_Port o) (do_VCPUs o) (do_MemoryMB o) []
  (do_BundleKey o) (do_IdleTimeout o) "" (do_HealthInterval o) (do_HealthTimeout o)
  (do_HealthRetries o) (do_Labels o) (do_Mounts o ++ [volume]) (do_Autoscale o)
  (do_DatabaseConfig o) (do_Uses o) (do_Replicas o) (do_RelationType o) (do_ParentServiceID o).

Definition applyDatabase (o : DeployOpts) : SM DeployOpts :=
  match do_DatabaseConfig o with
  | None => mret o
  | Some cfg =>
      match GetEngineDefaults (db_Engine cfg) (db_Version cfg) with
      | Err e => fail (ESEngine e)
      | Ok d =>
          let volName := "db-" +:+ do_Name o in
          _ ← (if se_volumes env then
            known ← attempt (onVolumes (fun _ => getVolume volName));
            match known with
            | Ok _ => mret tt
            | Err _ => _ ← onVolumes (fun ve => CreateBlock ve volName 0); mret tt
            end
            else mret tt);
          mret (databaseOpts cfg d o)
      end
  end.

(** The variables of one dependency; [range] visits the map in some order. *)
Definition dependencyOf (alias : string) (target : Service) : ResolvedDependency :=
  let forwarded := (0 <? sv_ForwardPort target)%Z in
  let '(ip, port) := if forwarded then ("127.0.0.1", sv_ForwardPort target)
  else (sv_Name target +:+ ".loka.internal", do_Port (sv_Opts target)) in
  match do_DatabaseConfig (sv_Opts target) with
  | Some cfg => mkDependency alias (sv_Name target) (sv_ID target) port ip true (db_Engine cfg)
      (db_LoginRole cfg) (db_Password cfg) (db_DBName cfg)
  | None => mkDependency alias (sv_Name target) (sv_ID target) port ip false "" "" "" ""
  end.

Definition serviceNamed (name : string) : SM (option Service) :=
  l ← queryServices (mkServiceFilter None None (Some name) None None None 1 0);
  mret (head l).

Fixpoint injectUses (uses : list (string * string)) (e : gmap string string) : SM (gmap string string) :=
  match uses with
  | [] => mret e
  | (alias, name) :: uses =>
      target ← serviceNamed name;
      injectUses uses (match target with
        | Some t => DependencyEnvVars (dependencyOf alias t) ∪ e
        | None => e
        end)
  end.

(** Block mounts with a name: the volumes that are placed. *)
Definition blockMounts (o : DeployOpts) : list string :=
  v_Name <$> filter (fun v => EffectiveType v = "block" /\ v_Name v <> "") (do_Mounts o).

Definition preferredWorkers (o : DeployOpts) : SM (list string) :=
  if se_volumes env then gets (fun sp =>
  omap (fun name => match volGet name (sp_volumes sp) with
      | Ok v => if String.eqb (vr_PrimaryWorkerID v) "" then None
                else Some (vr_PrimaryWorkerID v)
      | Err _ => None
      end) (blockMounts o))
  else mret [].

Definition placeVolumes (o : DeployOpts) (wid : string) : SM unit :=
  if se_volumes env then
  for_each (fun name =>
  _ ← ignore (onVolumes (fun ve => AssignPrimary ve name wid));
  ignore (onVolumes (fun ve => AssignReplica ve name))) (blockMounts o)
  else mret tt.

(** The record of a new service. *)
Definition newService (id : string) (o : DeployOpts) : Service :=
  mkService id o ServiceStatusDeploying "" "" "" "" "" 0 "" false "" now now now.

(** [Deploy], with the creation of the replicas of a primary left open. *)
Definition deployWith (replicate : Service -> SM unit) (o : DeployOpts) : SM Service :=
  name ← (if String.eqb (do_Name o) "" then newSlug else mret (do_Name o));
  taken ← serviceNamed name;
  match taken with
  | Some _ => fail (ESNameTaken name)
  | None =>
      o ← applyDatabase (withDefaults name o);
      e ← injectUses (map_to_list (do_Uses o)) (do_Env o);
      let o := opts_with_env e o in
      id ← newID;
      let s := newService id o in
      _ ← writeServices (repo_Create s);
      _ ← replicate s;
      prefer ← preferredWorkers o;
      w ← attempt (pickWorker prefer);
      match w with
      | Err _ =>
          let s := sv_mark (sv_Status s) (sv_Ready s) "waiting for worker" s in
          _ ← ignore (updateService s);
          mret s
      | Ok c =>
          let wid := w_ID (wc_Worker c) in
          let s := sv_with_worker wid s in
          _ ← ignore (updateService s);
          _ ← placeVolumes o wid;
          _ ← modify (sp_start id);
          mret s
      end
  end.

(** A replica has a parent, so it creates no replicas of its own. *)
Definition deployReplica : DeployOpts -> SM Service := deployWith (fun _ => mret tt).

Definition replicaName (name : string) (i : Z) : string := name +:+ "-replica-" +:+ pretty i.

(** The options of the replicas [Deploy] itself creates. *)
Definition replicaOpts (s : Service) (i : Z) : DeployOpts :=
  let o := sv_Opts s in
  mkDeploy (replicaName (sv_Name s) i) (do_ImageRef o) (do_RecipeName o) (do_Command o) (do_Args o)
  (do_Env o) (do_Workdir o) (do_Port o) (do_VCPUs o) (do_MemoryMB o) [] (do_BundleKey o)
  (do_IdleTimeout o) (do_HealthPath o) (do_HealthInterval o) (do_HealthTimeout o)
  (do_HealthRetries o) (do_Labels o) (do_Mounts o) (do_Autoscale o) (do_DatabaseConfig o)
  (do_Uses o) 0 "replica" (sv_ID s).

(** [lo], .., [hi - 1] *)
Definition range (lo hi : Z) : list Z := seqZ lo (hi - lo).

Definition Deploy (o : DeployOpts) : SM Service :=
  deployWith (fun s =>
  if (1 <? do_Replicas o)%Z && String.eqb (do_ParentServiceID o) ""
  then for_each (fun i => ignore (deployReplica (replicaOpts s i))) (range 1 (do_Replicas o))
  else mret tt) o.

(** *** The asynchronous part *)

(** The first eight bytes. *)
Definition bundleVolume (s : Service) : string :=
  "bundle-" +:+ sv_Name s +:+ "-" +:+ String.substring 0 8 (sv_ID s).

Definition workdirOf (s : Service) : string :=
  let o := sv_Opts s in
  if String.eqb (do_Workdir o) "" && negb (String.eqb (do_BundleKey o) "")
  then "/workspace" else do_Workdir o.

Definition withBundle (s : Service) : list Volume :=
  let o := sv_Opts s in
  if negb (String.eqb (do_BundleKey o) "") && se_volumes env
   && se_extract env (bundleVolume s) (do_BundleKey o)
  then mkVolume "/workspace" "" "bundle" (bundleVolume s) "" "" "" "" "readonly" "" "" "" :: do_Mounts o
  else do_Mounts o.

(** A lookup in the image manager for an image that is set. *)
Definition ofImage {A} (f : ServiceImages -> string -> option A) (imageID : string) : option A :=
  if String.eqb imageID "" then None else images ← se_images env; f images imageID.

Definition serviceLaunch (s : Service) (rootfs mem state : string) (mounts : list Volume) (app : bool)
  : LaunchServiceData :=
  let o := sv_Opts s in
  mkLaunchService (sv_ID s) (do_ImageRef o) (do_VCPUs o) (do_MemoryMB o) rootfs
  (default "" (ofImage si_ResolveLayerPackPath (sv_ImageID s))) (do_Command o) (do_Args o) (do_Env o)
  (workdirOf s) (do_Port o) (do_BundleKey o) "" mounts mem state app (do_HealthPath o).

(** Up to the launch; [pull] is what pulling an image that is not cached gives. The
    result is the worker asked to launch and the number of checks needed. *)
Definition startDeploy (pull : string -> result string string) (id : string)
  : SM (option (string * Z)) :=
  s ← attempt (getService id);
  match s with
  | Err _ => mret None
  | Ok s =>
      let ref := do_ImageRef (sv_Opts s) in
      image ← match se_images env with
      | Some images =>
          if String.eqb ref "" then mret (Ok "")
          else
          _ ← updateStatusMessage id "pulling image";
          mret (match si_GetByRef images ref with Some i => Ok i | None => pull ref end)
      | None => mret (Ok "")
      end;
      match image with
      | Err e => _ ← setError id ("image pull failed: " +:+ e); mret None
      | Ok imageID =>
          let s := if String.eqb imageID "" then s else sv_with_image imageID s in
          _ ← updateStatusMessage id "launching";
          let '(mem, state) := default ("", "") (ofImage si_ResolveSnapshotPaths (sv_ImageID s)) in
          let rootfs := default "" (ofImage si_ResolveRootfsPath imageID) in
          r ← attempt (sendCommand (sv_WorkerID s)
            (CLaunchService (serviceLaunch s rootfs mem state (withBundle s) false)));
          match r with
          | Err _ => _ ← setError id "failed to dispatch to worker"; mret None
          | Ok _ =>
              _ ← updateStatusMessage id "waiting for health check";
              let retries := do_HealthRetries (sv_Opts s) in
              mret (Some (sv_WorkerID s, if (retries <=? 0)%Z then 3%Z else retries))
          end
      end
  end.

(** One tick of the health check: [None] ends it, otherwise the number of checks passed
    so far. A check passes when the service is still deploying. *)
Definition deployTick (id wid : string) (retries ok : Z) : SM (option Z) :=
  s ← attempt (getService id);
  match s with
  | Err _ => mret (Some 0%Z)
  | Ok s =>
      if negb (bool_decide (sv_Status s = ServiceStatusDeploying)) then mret None
      else
      _ ← ignore (sendCommand wid (CServiceStatus id));
      let ok := (ok + 1)%Z in
      if (ok <? retries)%Z then mret (Some ok)
      else
      s ← attempt (getService id);
      match s with
      | Err _ => mret None
      | Ok s =>
          if negb (bool_decide (sv_Status s = ServiceStatusDeploying)) then mret None
          else
          let s := sv_with_times now (sv_CreatedAt s) now (sv_mark ServiceStatusRunning true "" s) in
          r ← attempt (updateService s);
          match r with
          | Err _ => mret None
          | Ok _ => _ ← addRoutes s; mret None
          end
      end
  end.

(** The ticks before the deadline, with what the rest of the system does between them. *)
Fixpoint deployChecks (ticks : nat) (others : nat -> ServicePlane -> ServicePlane)
  (id wid : string) (retries ok : Z) : SM unit :=
  match ticks with
  | O => setError id "health check timeout"
  | S ticks =>
      _ ← modify (others ticks);
      r ← deployTick id wid retries ok;
      match r with
      | None => mret tt
      | Some ok => deployChecks ticks others id wid retries ok
      end
  end.

(** The number of ticks before the deadline of [interval * retries + timeout]. *)
Definition healthTicks (o : DeployOpts) : nat :=
  let interval := if (do_HealthInterval o <=? 0)%Z then 5%Z else do_HealthInterval o in
  let timeout := if (do_HealthTimeout o <=? 0)%Z then 60%Z else do_HealthTimeout o in
  let retries := if (do_HealthRetries o <=? 0)%Z then 3%Z else do_HealthRetries o in
  Z.to_nat ((interval * retries + timeout) / interval).

Definition asyncDeploy (pull : string -> result string string)
  (others : nat -> ServicePlane -> ServicePlane) (id : string) : SM unit :=
  s ← attempt (getService id);
  r ← startDeploy pull id;
  match s, r with
  | Ok s, Some (wid, retries) => deployChecks (healthTicks (sv_Opts s)) others id wid retries 0
  | _, _ => mret tt
  end.

(** ** The other operations *)

Definition stopOnWorker (s : Service) : SM unit :=
  if String.eqb (sv_WorkerID s) "" then mret tt
  else ignore (sendCommand (sv_WorkerID s) (CStopService (sv_ID s))).

Definition Destroy (id : string) : SM unit :=
  s ← getService id;
  _ ← stopOnWorker s;
  _ ← removeRoutes s;
  writeServices (repo_Delete id).

Definition Stop (id : string) : SM Service :=
  s ← getService id;
  if negb (ServiceCanTransitionTo (sv_Status s) ServiceStatusStopped) then fail (ESStatus (sv_Status s))
  else
  _ ← stopOnWorker s;
  _ ← removeRoutes s;
  let s := sv_mark ServiceStatusStopped false (sv_StatusMessage s) s in
  _ ← updateService s;
  mret s.

(** A worker for a service whose worker is gone; the service keeps it when there is
    none. *)
Definition reassign (s : Service) : SM (result ServiceError Service) :=
  conn ← gets (fun sp => sp_registry sp !! sv_WorkerID s);
  if String.eqb (sv_WorkerID s) "" || bool_decide (is_Some conn) then mret (Ok s)
  else
  c ← attempt (pickWorker []);
  mret ((fun c => sv_with_worker (w_ID (wc_Worker c)) s) <$> c).

Definition Redeploy (id : string) : SM Service :=
  s ← getService id;
  _ ← (if bool_decide (sv_Status s = ServiceStatusRunning) || bool_decide (sv_Status s = ServiceStatusIdle)
   then stopOnWorker s else mret tt);
  r ← reassign s;
  let s := match r with Ok s => s | Err _ => s end in
  let s := sv_mark ServiceStatusDeploying false "redeploying" s in
  _ ← updateService s;
  _ ← modify (sp_start id);
  mret s.

Definition UpdateEnv (id : string) (e : gmap string string) : SM Service :=
  s ← getService id;
  let s := sv_with_opts (opts_with_env e (sv_Opts s)) s in
  _ ← updateService s;
  if bool_decide (sv_Status s = ServiceStatusRunning) || bool_decide (sv_Status s = ServiceStatusIdle)
  then Redeploy id else mret s.

Definition Touch (id : string) : SM unit :=
  s ← getService id;
  updateService (sv_with_times now (sv_CreatedAt s) now s).

(** The snapshot to resume from: that of the running application if it can be
    downloaded, else that of the image. *)
Definition wakeSnapshot (s : Service) : string * string * bool :=
  let app := if negb (String.eqb (sv_AppSnapshotMem s) "") && negb (String.eqb (sv_AppSnapshotState s) "")
  then download ← se_download env;
  mem ← download (sv_AppSnapshotMem s); state ← download (sv_AppSnapshotState s);
  Some (mem, state)
  else None in
  match app with
  | Some (mem, state) => (mem, state, true)
  | None => let '(mem, state) := default ("", "") (ofImage si_ResolveSnapshotPaths (sv_ImageID s)) in
      (mem, state, false)
  end.

Definition Wake (id : string) : SM Service :=
  s ← getService id;
  match sv_Status s with
  | ServiceStatusRunning => mret s
  | ServiceStatusIdle =>
      r ← reassign s;
      match r with
      | Err e => fail e
      | Ok s =>
          let s := sv_mark ServiceStatusWaking (sv_Ready s) "waking" s in
          _ ← updateService s;
          let '(mem, state, app) := wakeSnapshot s in
          let rootfs := default "" (ofImage si_ResolveRootfsPath (sv_ImageID s)) in
          _ ← (if String.eqb (sv_WorkerID s) "" then mret tt
            else ignore (sendCommand (sv_WorkerID s)
              (CLaunchService (serviceLaunch s rootfs mem state (do_Mounts (sv_Opts s)) app))));
          mret s
      end
  | st => fail (ESStatus st)
  end.

(** One tick of the goroutine [Wake] starts: [false] ends it. *)
Definition wakeTick (id wid : string) (retries : nat) : SM bool :=
  s ← attempt (getService id);
  match s with
  | Err _ => mret false
  | Ok s =>
      if negb (bool_decide (sv_Status s = ServiceStatusWaking)) then mret false
      else
      _ ← (if String.eqb wid "" then mret tt else ignore (sendCommand wid (CServiceStatus id)));
      if 1 <=? retries then
      _ ← ignore (updateService (sv_with_times now (sv_CreatedAt s) now (sv_mark ServiceStatusRunning true "" s)));
      mret false
      else mret true
  end.

Definition ExecInService (id : string) (commands : list Command) : SM unit :=
  s ← getService id;
  if String.eqb (sv_WorkerID s) "" then fail ESNoWorker
  else if negb (bool_decide (sv_Status s = ServiceStatusRunning)) then fail (ESStatus (sv_Status s))
  else ignore (sendCommand (sv_WorkerID s) (CServiceExec id commands)).

(** [WaitForReady] looks at the service every 200 ms. *)
Definition serviceLook (s : Service) : option (result string Service) :=
  if sv_Ready s || bool_decide (sv_Status s = ServiceStatusRunning) then Some (Ok s)
  else match sv_Status s with
   | ServiceStatusError =>
   Some (Err (if String.eqb (sv_StatusMessage s) "" then "service deployment failed"
        else sv_StatusMessage s))
   | ServiceStatusStopped => Some (Err "service stopped before becoming ready")
   | _ => None
   end.

(** The table of the running services, pushed to every worker. *)
Definition routeEntry (registry : gmap string WorkerConn) (s : Service) : RouteEntry :=
  let '(engine, role) := match do_DatabaseConfig (sv_Opts s) with
  | Some cfg => (db_Engine cfg, db_Role cfg)
  | None => ("", "service")
  end in
  let role := if String.eqb (do_RelationType (sv_Opts s)) "" then role else do_RelationType (sv_Opts s) in
  let addr := match registry !! sv_WorkerID s with
  | Some c => let w := wc_Worker c in
      if String.eqb (w_PrivateIP w) "" then w_IPAddress w else w_PrivateIP w
  | None => ""
  end in
  mkRouteEntry (sv_ID s) (sv_Name s) addr (sv_ForwardPort s) engine role.

Definition BroadcastRoutes : SM unit :=
  services ← queryServices (mkServiceFilter (Some ServiceStatusRunning) None None None None None 1000 0);
  registry ← gets sp_registry;
  let data := CUpdateRoutes (unixMilli now) (routeEntry registry <$> services) in
  for_each (fun id => match registry !! id with
    | Some c => ignore (sendCommand (w_ID (wc_Worker c)) data)
    | None => mret tt
    end) (se_order env).

(** ** Idling *)

Definition idleService (s : Service) : SM unit :=
  if (do_IdleTimeout (sv_Opts s) <=? 0)%Z then mret tt
  else if (do_IdleTimeout (sv_Opts s) * Second <? now - sv_LastActivity s)%Z then
  r ← attempt (updateService (sv_mark ServiceStatusIdle false (sv_StatusMessage s) s));
  match r with
  | Err _ => mret tt
  | Ok _ => if String.eqb (sv_WorkerID s) "" then mret tt
      else ignore (sendCommand (sv_WorkerID s) (CSnapshotService (sv_ID s)))
  end
  else mret tt.

Definition checkIdleServices : SM unit :=
  services ← queryServices (mkServiceFilter (Some ServiceStatusRunning) None None None None None 0 0);
  for_each idleService services.

(** ** Scaling *)

Definition scaleOpts (s : Service) (i : Z) : DeployOpts :=
  let o := sv_Opts s in
  mkDeploy (replicaName (sv_Name s) i) (do_ImageRef o) "" (do_Command o) (do_Args o) (do_Env o)
  (do_Workdir o) (do_Port o) (do_VCPUs o) (do_MemoryMB o) [] (do_BundleKey o) 0 (do_HealthPath o)
  (do_HealthInterval o) (do_HealthTimeout o) (do_HealthRetries o) (do_Labels o) (do_Mounts o) None
  None (do_Uses o) 0 "replica" (sv_ID s).

Definition isReplica (s : Service) : Prop := do_RelationType (sv_Opts s) = "replica".
#[global] Instance isReplica_dec s : Decision (isReplica s).
Proof. unfold isReplica. apply _. Defined.

(** The replicas of a service, as the query lists them. *)
Definition replicasOf (id : string) : SM (list Service) :=
  l ← queryServices (mkServiceFilter None None None None None (Some id) 0 0);
  mret (filter isReplica l).

Definition Scale (id : string) (replicas : Z) : SM unit :=
  s ← getService id;
  if (replicas <? 1)%Z then fail ESReplicas
  else
  rs ← replicasOf (sv_ID s);
  let current := Z.of_nat (length rs + 1) in
  _ ← (if (current <? replicas)%Z then
   for_each (fun i => ignore (deployReplica (scaleOpts s i))) (range current replicas)
   else if (replicas <? current)%Z then
   for_each (fun r => ignore (Destroy (sv_ID r))) (take (Z.to_nat (current - replicas)) (rev rs))
   else mret tt);
  updateService (sv_with_opts (opts_with_replicas replicas (sv_Opts s)) s).

(** What the autoscaler asks for; [conns] is the number of active connections, when
    there are metrics. *)
Definition desiredInstances (cfg : AutoscaleConfig) (conns : option Z) (current : Z) : Z :=
  let target := if (0 <? as_TargetConcurrency cfg)%Z then as_TargetConcurrency cfg else 10%Z in
  let desired := match conns with
  | Some conns =>
      if (0 <? conns)%Z then
      let load := Z.quot conns (Z.max current 1) in
      if (target <? load)%Z then (current + 1)%Z
      else if (load <? Z.quot target 2)%Z && (as_Min cfg <? current)%Z then (current - 1)%Z
      else current
      else current
  | None => current
  end in
  let desired := if (desired <? as_Min cfg)%Z then as_Min cfg else desired in
  if (as_Max cfg <? desired)%Z then as_Max cfg else desired.

(** The instances the autoscaler counts: the running replicas of the query on the
    database column, and the primary. *)
Definition countInstances (id : string) : SM Z :=
  l ← queryServices (mkServiceFilter None None None None (Some id) None 0 0);
  mret (Z.of_nat (length (filter (fun r => sv_Status r = ServiceStatusRunning /\ isReplica r) l) + 1)).

(** One service in the loop of [checkAutoscale]; [last] are the times of the last
    adjustments. *)
Definition autoscaleService (conns : string -> option Z) (s : Service) (last : gmap string Z)
  : SM (gmap string Z) :=
  match do_Autoscale (sv_Opts s) with
  | None => mret last
  | Some cfg =>
      if negb (String.eqb (do_ParentServiceID (sv_Opts s)) "") then mret last
      else if from_option (fun t => (now - t <? as_Cooldown cfg * Second)%Z) false (last !! sv_ID s)
      then mret last
      else
      current ← countInstances (sv_ID s);
      let desired := desiredInstances cfg (conns (sv_ID s)) current in
      if (desired =? current)%Z then mret last
      else
      r ← attempt (Scale (sv_ID s) desired);
      mret (match r with Ok _ => <[sv_ID s := now]> last | Err _ => last end)
  end.

Fixpoint autoscaleServices (conns : string -> option Z) (l : list Service) (last : gmap string Z)
  : SM (gmap string Z) :=
  match l with
  | [] => mret last
  | s :: l => last ← autoscaleService conns s last; autoscaleServices conns l last
  end.

Definition checkAutoscale (conns : string -> option Z) (last : gmap string Z) : SM (gmap string Z) :=
  services ← queryServices (mkServiceFilter (Some ServiceStatusRunning) None None None None None 500 0);
  autoscaleServices conns services last.

(** ** Recovery after a restart *)

Definition recoverStuckDeploys : SM unit :=
  services ← queryServices (mkServiceFilter (Some ServiceStatusDeploying) None None None None None 0 0);
  for_each (fun s => if (sv_CreatedAt s <? now - 10 * Minute)%Z
  then ignore (updateService (sv_mark ServiceStatusError (sv_Ready s) "deploy interrupted by restart" s))
  else mret tt) services.

Definition expireGrace (cfg : DatabaseConfig) : option DatabaseConfig :=
  if negb (String.eqb (db_PreviousLoginRole cfg) "") && negb (db_GraceDeadline cfg =? 0)%Z
   && (db_GraceDeadline cfg <? now)%Z
  then Some (mkDatabase (db_Engine cfg) (db_Version cfg) (db_DBName cfg) (db_Role cfg) (db_PrimaryID cfg)
   (db_Backup cfg) (db_GroupRole cfg) (db_OwnerRole cfg) (db_LoginRole cfg) (db_Password cfg)
   "" 0 (db_PreviousVersion cfg) (db_UpgradeVolume cfg))
  else None.
Definition opts_with_database (cfg : DatabaseConfig) (o : DeployOpts) : DeployOpts :=
  mkDeploy (do_Name o) (do_ImageRef o) (do_RecipeName o) (do_Command o) (do_Args o) (do_Env o)
  (do_Workdir o) (do_Port o) (do_VCPUs o) (do_MemoryMB o) (do_Routes o) (do_BundleKey o)
  (do_IdleTimeout o) (do_HealthPath o) (do_HealthInterval o) (do_HealthTimeout o)
  (do_HealthRetries o) (do_Labels o) (do_Mounts o) (do_Autoscale o) (Some cfg)
  (do_Uses o) (do_Replicas o) (do_RelationType o) (do_ParentServiceID o).

Definition recoverDatabase (s : Service) : SM unit :=
  match do_DatabaseConfig (sv_Opts s) with
  | None => mret tt
  | Some cfg =>
      let expired := expireGrace cfg in
      let s1 := match expired with Some cfg => sv_with_opts (opts_with_database cfg (sv_Opts s)) s | None => s end in
      let stuck := negb (String.eqb (db_PreviousVersion cfg) "")
      && bool_decide (sv_Status s = ServiceStatusError) in
      let s2 := if stuck then sv_mark (sv_Status s1) (sv_Ready s1)
      "upgrade interrupted by restart — use rollback to revert" s1 else s1 in
      if bool_decide (is_Some expired) || stuck then ignore (updateService s2) else mret tt
  end.

Definition recoverOrphan (s : Service) : SM unit :=
  if String.eqb (do_ParentServiceID (sv_Opts s)) "" then mret tt
  else
  p ← attempt (getService (do_ParentServiceID (sv_Opts s)));
  match p with
  | Ok _ => mret tt
  | Err _ => ignore (updateService (sv_mark ServiceStatusError (sv_Ready s)
          "orphaned: parent service no longer exists" s))
  end.

Definition recoverStuckDatabases : SM unit :=
  dbs ← queryServices (mkServiceFilter None None None (Some true) None None 500 0);
  _ ← for_each recoverDatabase dbs;
  all ← queryServices (mkServiceFilter None None None None None None 1000 0);
  for_each recoverOrphan all.

(** [NewManager], after the monitors are started. *)
Definition startManager : SM unit :=
  _ ← recoverStuckDeploys;
  _ ← recoverStuckDatabases;
  if se_proxy env then registerRoutes 1000 else mret tt.
End manager.
Arguments ServicePlane : clear implicits.

(** ** Single calls *)

Section laws.
#[local] Set Default Proof Using "Type*".
Context {TV TL : Type} `{!SqlTable Service TV, !SqlTableLaws Service TV, !SqlTable VolumeRecord TL}.
Context (env : ServiceEnv).
#[local] Abbreviation SP := (ServicePlane TV TL).
#[local] Abbreviation now := (env_now (se_env env)).
Implicit Types (sp : SP) (s : Service).

(** The rows of the table. *)
Definition svcs sp : gmap string Service := sql_rows (sp_services sp).

Lemma svcs_id sp k s : svcs sp !! k = Some s -> sv_ID s = k.
Proof. exact (sql_rows_id _ k s). Qed.

Lemma getService_spec id sp :
  getService id sp = (sp, match svcs sp !! id with Some s => Ret s | None => Fail (ESStore ErrNotFound) end).
Proof.
  unfold getService. simpl. rewrite sqliteGet_rows. unfold svcs. by destruct (_ !! id).
Qed.

(** A saved service: the row up to the columns and the clock. *)
Definition same_service (row s : Service) : Prop := ent_core row = ent_core s.

Lemma same_service_fields row s :
  same_service row s ->
  sv_ID row = sv_ID s /\ sv_Opts row = sv_Opts s /\ sv_Status row = sv_Status s /\
  sv_WorkerID row = sv_WorkerID s /\ sv_ImageID row = sv_ImageID s /\ sv_Ready row = sv_Ready s.
Proof.
  unfold same_service. intros H. pose proof (f_equal sv_ID H). pose proof (f_equal sv_Opts H).
  pose proof (f_equal sv_Status H). pose proof (f_equal sv_WorkerID H). pose proof (f_equal sv_ImageID H).
  pose proof (f_equal sv_Ready H). done.
Qed.

Lemma updateService_spec s old sp :
  svcs sp !! sv_ID s = Some old ->
  exists t row, updateService env s sp = (sp_set_services t sp, Ret tt) /\ same_service row s /\
  sql_rows t = <[sv_ID s := row]> (svcs sp).
Proof.
  intros Hold. destruct (repo_update now s old (sp_services sp)) as (t & row & Hu & Hc & Hr); [done..|].
  exists t, row. unfold updateService, writeServices. by rewrite Hu.
Qed.

Lemma updateService_none s sp :
  svcs sp !! sv_ID s = None ->
  exists t, updateService env s sp = (sp_set_services t sp, Ret tt) /\ sql_rows t = svcs sp.
Proof.
  intros Hnone. destruct (repo_update_none now s (sp_services sp)) as (t & Hu & Hr); [done|].
  exists t. unfold updateService, writeServices. by rewrite Hu.
Qed.

Lemma createService_spec s sp :
  svcs sp !! sv_ID s = None ->
  exists t row, writeServices (repo_Create s) sp = (sp_set_services t sp, Ret tt) /\
  same_service row s /\ sql_rows t = <[sv_ID s := row]> (svcs sp).
Proof.
  intros Hnone. destruct (repo_create s (sp_services sp)) as (t & row & Hu & Hc & Hr); [done| |].
  { intros k b _ [_ Hu]. by apply Hu. }
  exists t, row. unfold writeServices. by rewrite Hu.
Qed.

Lemma deleteService_spec id sp :
  exists t, writeServices (repo_Delete id) sp = (sp_set_services t sp, Ret tt) /\
  sql_rows t = delete id (svcs sp).
Proof.
  destruct (repo_delete id (sp_services sp)) as (t & Hu & Hr). exists t. unfold writeServices. by rewrite Hu.
Qed.

(** What leaves the services and the sequence of identifiers alone. *)
Definition frame sp sp' : Prop := sp_services sp' = sp_services sp /\ sp_next sp' = sp_next sp.

Lemma frame_refl sp : frame sp sp.
Proof. done. Qed.
Lemma frame_trans sp1 sp2 sp3 : frame sp1 sp2 -> frame sp2 sp3 -> frame sp1 sp3.
Proof. intros [H1 H2] [H3 H4]. split; congruence. Qed.

Lemma sendCommand_frame wid cmd sp :
  exists sp' r, sendCommand env wid cmd sp = (sp', r) /\ frame sp sp' /\ r <> Stuck /\
  sp_routes sp' = sp_routes sp.
Proof.
  unfold sendCommand, onRegistry.
  destruct (SendCommand_frame (se_env env) wid cmd (mkCP (TS := unit) (TE := unit) (TC := unit) (TW := unit) tt tt tt tt (sp_registry sp)))
  as (r & res & -> & Hres & _).
  destruct Hres as [->|(e & ->)]; eexists _, _; by split_and!.
Qed.

Lemma ignore_sendCommand wid cmd sp :
  exists sp', ignore (sendCommand env wid cmd) sp = (sp', Ret tt) /\ frame sp sp' /\
  sp_routes sp' = sp_routes sp.
Proof.
  destruct (sendCommand_frame wid cmd sp) as (sp' & r & H & Hf & Hr & Hro). exists sp'.
  split_and!; [|done..]. destruct r; [by eapply ignore_Ret|by eapply ignore_Fail|done].
Qed.

(** ** Queries *)

Lemma queryServices_spec f sp :
  (vf_Limit f <= 0)%Z -> (vf_Offset f <= 0)%Z ->
  exists l, queryServices f sp = (sp, Ret l) /\ StronglySorted newerService l /\
  NoDup (sv_ID <$> l) /\
  (forall s, s ∈ l <-> svcs sp !! sv_ID s = Some s /\ serviceWhere f s = true).
Proof.
  intros Hl Ho. unfold queryServices, gets, listServices.
  rewrite (proj2 (Z.ltb_ge _ _)), (proj2 (Z.ltb_ge _ _)) by lia.
  set (l := merge_sort newerService _).
  assert (l ≡ₚ filter (fun s => serviceWhere f s = true) (sql_select (sp_services sp))) as Hperm
  by apply merge_sort_Permutation.
  exists l. split_and!; [done| | |].
  - apply Sorted_StronglySorted; [intros a b c; unfold newerService; lia|].
  apply Sorted_merge_sort. intros a b. unfold newerService. lia.
  - rewrite Hperm. apply NoDup_fmap_filter. exact (sql_select_NoDup (sp_services sp)).
  - intros s. rewrite Hperm, list_elem_of_filter, (sql_select_in (sp_services sp) s). unfold svcs. naive_solver.
Qed.

(** Some service has the name. *)
Definition name_used sp (name : string) : Prop := map_Exists (fun _ s => sv_Name s = name) (svcs sp).
#[global] Instance name_used_dec sp name : Decision (name_used sp name).
Proof. unfold name_used. apply _. Defined.

Lemma serviceNamed_spec name sp :
  exists o, serviceNamed name sp = (sp, Ret o) /\ (is_Some o <-> name_used sp name).
Proof.
  unfold serviceNamed. unfold queryServices. erewrite bind_Ret by done. simpl.
  eexists. split; [done|].
  set (l := merge_sort newerService _).
  assert (forall s, s ∈ l <-> svcs sp !! sv_ID s = Some s /\ sv_Name s = name) as Hin.
  { intros s. unfold l. rewrite merge_sort_Permutation, list_elem_of_filter, (sql_select_in (sp_services sp) s).
  unfold serviceWhere, whereEq. simpl. rewrite !andb_true_r, String.eqb_eq. unfold svcs. naive_solver. }
  assert (is_Some (head (take 1 l)) <-> exists s, s ∈ l) as ->.
  { destruct l as [|s l]; simpl.
  - split; [by intros [? ?]|]. by intros (s & []%not_elem_of_nil).
  - split; [|by eexists]. intros _. exists s. by left. }
  unfold name_used, map_Exists. split.
  - intros (s & [Hs Hn]%Hin). by exists (sv_ID s), s.
  - intros (k & s & Hs & Hn). exists s. apply Hin. by rewrite (svcs_id _ _ _ Hs).
Qed.

Lemma injectUses_spec uses e sp : exists e', injectUses uses e sp = (sp, Ret e').
Proof.
  revert e. induction uses as [|[alias name] uses IH]; intros e; [by eexists|]. cbn [injectUses].
  destruct (serviceNamed_spec name sp) as (o & Ho & _). rewrite (bind_Ret _ _ _ _ _ Ho). apply IH.
Qed.

(** ** Volumes and routes *)

Lemma vwrite_not_stuck (f : TL -> result StoreError TL) t : (vwrite f t).2 <> Stuck.
Proof. unfold vwrite. by destruct (f t). Qed.

Lemma AssignPrimary_not_stuck ve name wid (t : TL) : (AssignPrimary ve name wid t).2 <> Stuck.
Proof.
  unfold AssignPrimary, mbind, StateM_bind, getVolume. destruct (volGet name t); [|done].
  destruct (negb _); [done|apply vwrite_not_stuck].
Qed.

Lemma AssignReplica_not_stuck ve name (t : TL) : (AssignReplica ve name t).2 <> Stuck.
Proof.
  unfold AssignReplica, mbind, StateM_bind, getVolume. destruct (volGet name t); [|done].
  destruct (negb _); [done|]. destruct (ve_healthy ve); [|done].
  destruct (pickReplica _ _); apply vwrite_not_stuck.
Qed.

Lemma ignore_onVolumes {A} (m : VolumeEnv -> StateM TL VolumeError A) sp :
  (forall ve t, (m ve t).2 <> Stuck) ->
  exists sp', ignore (onVolumes env m) sp = (sp', Ret tt) /\ frame sp sp'.
Proof.
  intros Hm. unfold onVolumes. pose proof (Hm (volumeEnv env sp) (sp_volumes sp)) as Hns.
  unfold ignore, mbind, StateM_bind, attempt.
  destruct (m (volumeEnv env sp) (sp_volumes sp)) as [t [a|e|]]; [by eexists..|done].
Qed.

Lemma placeVolumes_spec o wid sp :
  exists sp', placeVolumes env o wid sp = (sp', Ret tt) /\ frame sp sp'.
Proof.
  unfold placeVolumes. destruct (se_volumes env); [|by exists sp].
  apply (for_each_inv _ _ (frame sp)); [done|]. intros name sp1 _ H1.
  destruct (ignore_onVolumes (fun ve => AssignPrimary ve name wid) sp1) as (sp2 & Hp & H2).
  { intros ve t. apply AssignPrimary_not_stuck. }
  rewrite (bind_Ret _ _ _ _ _ Hp).
  destruct (ignore_onVolumes (fun ve => AssignReplica ve name) sp2) as (sp3 & Hr & H3).
  { intros ve t. apply AssignReplica_not_stuck. }
  exists sp3. split; [done|]. by eapply frame_trans, frame_trans.
Qed.

Lemma removeRoutes_spec s sp :
  exists sp', removeRoutes env s sp = (sp', Ret tt) /\ frame sp sp' /\ sp_registry sp' = sp_registry sp.
Proof.
  unfold removeRoutes. destruct (se_proxy env); [|by exists sp].
  apply (for_each_inv _ _ (fun sp' => frame sp sp' /\ sp_registry sp' = sp_registry sp)); [done|].
  intros r sp1 _ [H1 H2]. destruct (String.eqb (rt_Domain r) ""); [by exists sp1|]. by eexists.
Qed.

Lemma stopOnWorker_spec s sp :
  exists sp', stopOnWorker env s sp = (sp', Ret tt) /\ frame sp sp'.
Proof.
  unfold stopOnWorker. destruct (String.eqb (sv_WorkerID s) ""); [by exists sp|].
  destruct (ignore_sendCommand (sv_WorkerID s) (CStopService (sv_ID s)) sp) as (sp' & H & Hf & _).
  by exists sp'.
Qed.

Lemma frame_svcs sp sp' : frame sp sp' -> svcs sp' = svcs sp.
Proof. intros [H _]. unfold svcs. by rewrite H. Qed.

Lemma Destroy_spec id s sp :
  svcs sp !! id = Some s ->
  exists sp', Destroy env id sp = (sp', Ret tt) /\ svcs sp' = delete id (svcs sp) /\
  sp_next sp' = sp_next sp.
Proof.
  intros Hs. unfold Destroy. erewrite bind_Ret by (rewrite getService_spec, Hs; done).
  destruct (stopOnWorker_spec s sp) as (sp1 & H1 & Hf1). rewrite (bind_Ret _ _ _ _ _ H1).
  destruct (removeRoutes_spec s sp1) as (sp2 & H2 & Hf2 & _). rewrite (bind_Ret _ _ _ _ _ H2).
  destruct (deleteService_spec id sp2) as (t & H3 & Hr). eexists. split; [exact H3|].
  pose proof (frame_trans _ _ _ Hf1 Hf2) as Hf. split.
  - change (sql_rows t = delete id (svcs sp)). by rewrite Hr, (frame_svcs _ _ Hf).
  - apply Hf.
Qed.

(** ** Replicas *)

(** The identifiers still to be drawn are unused and distinct. *)
Definition fresh_ids sp : Prop :=
  (forall n, sp_next sp <= n -> svcs sp !! se_uuid env n = None) /\
  (forall n m, se_uuid env n = se_uuid env m -> n = m).

Definition children sp (id : string) : gmap string Service :=
  filter (fun kv => do_ParentServiceID (sv_Opts kv.2) = id /\ isReplica kv.2) (svcs sp).

(** The service is a replica [Scale] made of [s]. *)
Definition replica_of s (r : Service) : Prop :=
  do_ParentServiceID (sv_Opts r) = sv_ID s /\ isReplica r.

Lemma preferredWorkers_spec o sp : exists l, preferredWorkers env o sp = (sp, Ret l).
Proof. unfold preferredWorkers. destruct (se_volumes env); by eexists. Qed.

Lemma pickWorker_spec prefer sp :
  exists r, attempt (pickWorker env prefer) sp = (sp, Ret r).
Proof. unfold attempt, pickWorker. destruct (Pick _ _ _); by eexists. Qed.

Lemma name_used_insert sp sp' k row :
  svcs sp !! k = None -> svcs sp' = <[k := row]> (svcs sp) ->
  forall x, name_used sp' x <-> name_used sp x \/ x = sv_Name row.
Proof.
  intros Hk Hr x. unfold name_used. rewrite Hr. split.
  - intros (j & r & [[<- <-]|[Hne Hj]]%lookup_insert_Some & Hx); [by right|left; by exists j, r].
  - intros [(j & r & Hj & Hx)| ->].
  + exists j, r. split; [|done]. by rewrite lookup_insert_ne by congruence.
  + exists k, row. by rewrite lookup_insert_eq.
Qed.

(** A replica without a database: a taken name refuses it, otherwise one row is added. *)
Lemma deployReplica_taken o sp :
  do_Name o <> "" -> name_used sp (do_Name o) ->
  deployReplica env o sp = (sp, Fail (ESNameTaken (do_Name o))).
Proof.
  intros Hn Hu. unfold deployReplica, deployWith. rewrite (proj2 (String.eqb_neq _ _)) by done.
  erewrite bind_Ret by done. destruct (serviceNamed_spec (do_Name o) sp) as (x & Hx & Hs).
  rewrite (bind_Ret _ _ _ _ _ Hx). destruct (proj2 Hs Hu) as [s ->]. done.
Qed.

Lemma deployReplica_free o sp :
  do_Name o <> "" -> do_DatabaseConfig o = None -> ~ name_used sp (do_Name o) -> fresh_ids sp ->
  exists sp' row r, deployReplica env o sp = (sp', Ret r) /\ sp_next sp' = S (sp_next sp) /\
  svcs sp' = <[se_uuid env (sp_next sp) := row]> (svcs sp) /\ sv_ID row = se_uuid env (sp_next sp) /\
  sv_Name row = do_Name o /\ do_ParentServiceID (sv_Opts row) = do_ParentServiceID o /\
  do_RelationType (sv_Opts row) = do_RelationType o.
Proof.
  intros Hn Hdb Hu [Hfresh _]. unfold deployReplica, deployWith.
  rewrite (proj2 (String.eqb_neq _ _)) by done. erewrite bind_Ret by done.
  destruct (serviceNamed_spec (do_Name o) sp) as (x & Hx & Hs). rewrite (bind_Ret _ _ _ _ _ Hx).
  destruct x as [x|]; [exfalso; apply Hu, Hs; by eexists|].
  erewrite bind_Ret by (unfold applyDatabase; simpl; rewrite Hdb; done). cbv beta zeta.
  destruct (injectUses_spec (map_to_list (do_Uses (withDefaults (do_Name o) o)))
  (do_Env (withDefaults (do_Name o) o)) sp) as (e & He).
  rewrite (bind_Ret _ _ _ _ _ He). erewrite bind_Ret by done. cbv beta zeta.
  set (id := se_uuid env (sp_next sp)). set (o' := opts_with_env e (withDefaults (do_Name o) o)).
  destruct (createService_spec (newService env id o') (sp_drawn sp)) as (t & row & Hc & Hrow & Ht);
  [by apply Hfresh|]. rewrite (bind_Ret _ _ _ _ _ Hc). erewrite bind_Ret by done.
  set (sp1 := sp_set_services t _) in *.
  assert (svcs sp1 = <[id := row]> (svcs sp)) as Hsp1 by exact Ht.
  destruct (preferredWorkers_spec o' sp1) as (pr & Hpr). rewrite (bind_Ret _ _ _ _ _ Hpr).
  destruct (pickWorker_spec pr sp1) as (w & Hw). rewrite (bind_Ret _ _ _ _ _ Hw).
  assert (forall s2, sv_ID s2 = id -> sv_Opts s2 = o' ->
  exists sp2 row2, ignore (updateService env s2) sp1 = (sp2, Ret tt) /\
  sp_next sp2 = S (sp_next sp) /\ svcs sp2 = <[id := row2]> (svcs sp) /\ sv_ID row2 = id /\
  sv_Opts row2 = o') as Hup.
  { intros s2 Hid Ho. destruct (updateService_spec s2 row sp1) as (t2 & row2 & H2 & Hc2 & Ht2).
  { by rewrite Hsp1, Hid, lookup_insert_eq. }
  exists (sp_set_services t2 sp1), row2. apply same_service_fields in Hc2 as (Hi2 & Ho2 & _).
  split_and!; [by eapply ignore_Ret|done| |congruence..].
  change (sql_rows t2 = <[id := row2]> (svcs sp)). rewrite Ht2, Hsp1, Hid. apply insert_insert_eq. }
  destruct w as [c|err].
  - destruct (Hup (sv_with_worker (w_ID (wc_Worker c)) (newService env id o'))) as (sp2 & row2 & H2 & Hn2 & Hs2 & Hi2 & Ho2);
  [done..|]. rewrite (bind_Ret _ _ _ _ _ H2).
  destruct (placeVolumes_spec o' (w_ID (wc_Worker c)) sp2) as (sp3 & H3 & Hf3).
  rewrite (bind_Ret _ _ _ _ _ H3). erewrite bind_Ret by done. eexists _, row2, _.
  split; [done|]. unfold sv_Name. rewrite Ho2. split_and!; [|by rewrite <-Hs2; apply (frame_svcs _ _ Hf3)|done..].
  simpl. destruct Hf3 as [_ ->]. done.
  - destruct (Hup (sv_mark (sv_Status (newService env id o')) (sv_Ready (newService env id o'))
  "waiting for worker" (newService env id o'))) as (sp2 & row2 & H2 & Hn2 & Hs2 & Hi2 & Ho2); [done..|].
  rewrite (bind_Ret _ _ _ _ _ H2). eexists _, row2, _. split; [done|]. unfold sv_Name. by rewrite Ho2.
Qed.

Lemma replicaName_inj name i j : replicaName name i = replicaName name j -> i = j.
Proof. unfold replicaName. intros H. by apply (inj (String.append name)), (inj (String.append "-replica-")), (inj pretty) in H. Qed.

Lemma replicaName_nonempty name i : replicaName name i <> "".
Proof. unfold replicaName. by destruct name. Qed.

Lemma fresh_ids_next sp sp' row :
  fresh_ids sp -> sp_next sp' = S (sp_next sp) ->
  svcs sp' = <[se_uuid env (sp_next sp) := row]> (svcs sp) -> fresh_ids sp'.
Proof.
  intros [Hf Hinj] Hn Hr. split; [|done]. intros n Hle. rewrite Hr, lookup_insert_ne; [apply Hf; lia|].
  intros Heq%Hinj. lia.
Qed.

Lemma children_insert sp sp' id k row :
  svcs sp !! k = None -> svcs sp' = <[k := row]> (svcs sp) ->
  do_ParentServiceID (sv_Opts row) = id -> isReplica row ->
  children sp' id = <[k := row]> (children sp id) /\ children sp id !! k = None.
Proof.
  intros Hk Hr Hp Hrep. unfold children. rewrite Hr. split; [by apply map_filter_insert_True|].
  apply map_lookup_filter_None. by left.
Qed.

(** The loop that adds replicas: one for each number whose name is free. *)
Lemma scaleUp_spec s l sp :
  NoDup l -> fresh_ids sp ->
  exists sp', for_each (fun i => ignore (deployReplica env (scaleOpts s i))) l sp = (sp', Ret tt) /\
  svcs sp ⊆ svcs sp' /\
  (forall k r, svcs sp' !! k = Some r -> svcs sp !! k = Some r \/ replica_of s r) /\
  (forall x, name_used sp' x <-> name_used sp x \/ x ∈ (replicaName (sv_Name s) <$> l)) /\
  size (children sp' (sv_ID s)) = size (children sp (sv_ID s)) +
  length (filter (fun i => ~ name_used sp (replicaName (sv_Name s) i)) l).
Proof.
  revert sp. induction l as [|i l IH]; intros sp Hnd Hfresh.
  { exists sp. split_and!; [done|done|intros k r Hk; by left| |simpl; lia].
  intros x. rewrite fmap_nil, elem_of_nil. tauto. }
  apply NoDup_cons in Hnd as [Hi Hnd]. cbn [for_each]. rewrite filter_cons.
  pose proof (replicaName_nonempty (sv_Name s) i) as Hne.
  destruct (decide (name_used sp (replicaName (sv_Name s) i))) as [Hu|Hu].
  { erewrite bind_Ret by (eapply ignore_Fail, (deployReplica_taken (scaleOpts s i) sp Hne Hu)).
  rewrite decide_False by tauto.
  destruct (IH sp Hnd Hfresh) as (sp' & H & Hsub & Hnew & Hnames & Hsize). exists sp'.
  split_and!; [done..| |done]. intros x. rewrite Hnames, fmap_cons, elem_of_cons. naive_solver. }
  rewrite decide_True by done.
  destruct (deployReplica_free (scaleOpts s i) sp Hne eq_refl Hu Hfresh)
  as (sp1 & row & r & H1 & Hn1 & Hr1 & Hid & Hname & Hpar & Hrel).
  erewrite bind_Ret by (eapply ignore_Ret, H1).
  assert (svcs sp !! se_uuid env (sp_next sp) = None) as Hk by (by apply Hfresh).
  destruct (IH sp1 Hnd) as (sp' & H & Hsub & Hnew & Hnames & Hsize); [by eapply fresh_ids_next|].
  pose proof (name_used_insert sp sp1 _ row Hk Hr1) as Hused.
  exists sp'. split_and!; [done| | | |].
  - etrans; [|exact Hsub]. rewrite Hr1. by apply insert_subseteq.
  - intros k r' [Hk1|Hrep]%Hnew; [|by right]. rewrite Hr1 in Hk1.
  apply lookup_insert_Some in Hk1 as [[<- <-]|[_ Hk1]]; [right; split; done|by left].
  - intros x. rewrite Hnames, Hused, Hname, fmap_cons, elem_of_cons. simpl. tauto.
  - destruct (children_insert sp sp1 (sv_ID s) _ row Hk Hr1) as [Hc Hcn]; [done..|].
  rewrite Hsize, Hc, map_size_insert_None by done. simpl.
  rewrite (list_filter_iff' (fun j => ~ name_used sp1 (replicaName (sv_Name s) j))
  (fun j => ~ name_used sp (replicaName (sv_Name s) j))); [lia|].
  intros j Hj. rewrite Hused, Hname. simpl. split; [tauto|]. intros Hnu [?|Heq%replicaName_inj]; [tauto|].
  by subst.
Qed.

(** The loop that removes them. *)
Lemma scaleDown_spec l sp :
  NoDup (sv_ID <$> l) -> (forall r, r ∈ l -> svcs sp !! sv_ID r = Some r) ->
  exists sp', for_each (fun r => ignore (Destroy env (sv_ID r))) l sp = (sp', Ret tt) /\
  sp_next sp' = sp_next sp /\
  (forall k, svcs sp' !! k = if decide (k ∈ (sv_ID <$> l)) then None else svcs sp !! k).
Proof.
  revert sp. induction l as [|r l IH]; intros sp Hnd Hl.
  { exists sp. split_and!; [done..|]. intros k. rewrite decide_False; [done|]. apply not_elem_of_nil. }
  apply NoDup_cons in Hnd as [Hr Hnd]. cbn [for_each].
  destruct (Destroy_spec (sv_ID r) r sp) as (sp1 & H1 & Hr1 & Hn1); [apply Hl; by left|].
  erewrite bind_Ret by (eapply ignore_Ret, H1).
  destruct (IH sp1 Hnd) as (sp' & H & Hn & Hk).
  { intros b Hb. rewrite Hr1, lookup_delete_ne; [apply Hl; by right|].
  intros Heq. apply Hr. rewrite Heq. by apply list_elem_of_fmap_2. }
  exists sp'. split_and!; [done|congruence|]. intros k. rewrite Hk, Hr1.
  destruct (decide (k = sv_ID r)) as [->|Hne].
  - rewrite lookup_delete_eq. rewrite fmap_cons. rewrite (decide_True (P := sv_ID r ∈ sv_ID r :: _)) by by left.
  by case_decide.
  - rewrite lookup_delete_ne by done. apply decide_ext. rewrite fmap_cons, elem_of_cons. naive_solver.
Qed.

(** A list of the rows of a map has its size. *)
Lemma rows_length (m : gmap string Service) (l : list Service) :
  NoDup (sv_ID <$> l) -> (forall k r, m !! k = Some r -> sv_ID r = k) ->
  (forall r, r ∈ l <-> m !! sv_ID r = Some r) -> size m = length l.
Proof.
  intros Hnd Hid Hl. rewrite <-length_map_to_list, <-(length_fmap fst), <-(length_fmap sv_ID l).
  apply Permutation_length, NoDup_Permutation; [apply NoDup_fst_map_to_list|done|]. intros k.
  rewrite !list_elem_of_fmap. split.
  - intros ([k' r] & -> & Hr%elem_of_map_to_list). exists r. simpl. pose proof (Hid _ _ Hr) as <-.
  split; [done|]. by apply Hl.
  - intros (r & -> & Hr%Hl). exists (sv_ID r, r). split; [done|]. by apply elem_of_map_to_list.
Qed.

Lemma children_Some sp id k r :
  children sp id !! k = Some r <->
  svcs sp !! k = Some r /\ do_ParentServiceID (sv_Opts r) = id /\ isReplica r.
Proof. apply map_lookup_filter_Some. Qed.

(** The query lists the children, the newest first. *)
Lemma replicasOf_spec id sp :
  id <> "" ->
  exists l, replicasOf id sp = (sp, Ret l) /\ StronglySorted newerService l /\ NoDup (sv_ID <$> l) /\
  (forall r, r ∈ l <-> children sp id !! sv_ID r = Some r) /\ length l = size (children sp id).
Proof.
  intros Hne. destruct (queryServices_spec (mkServiceFilter None None None None None (Some id) 0 0) sp)
  as (l & Hq & Hs & Hnd & Hl); [done..|].
  exists (filter isReplica l). unfold replicasOf. rewrite (bind_Ret _ _ _ _ _ Hq).
  assert (forall r, r ∈ filter isReplica l <-> children sp id !! sv_ID r = Some r) as Hin.
  { intros r. rewrite list_elem_of_filter, Hl, children_Some. unfold serviceWhere, whereEq. simpl.
  rewrite !andb_true_r, String.eqb_eq. naive_solver. }
  assert (NoDup (sv_ID <$> filter isReplica l)) by (by apply NoDup_fmap_filter).
  split_and!; [done|by apply StronglySorted_filter'|done|done|]. symmetry. apply rows_length; [done| |done].
  intros k r [Hr _]%children_Some. by eapply svcs_id.
Qed.


Lemma elem_of_drop {A} (l : list A) n x : x ∈ drop n l -> x ∈ l.
Proof. intros Hx. rewrite <-(take_drop n l). by apply elem_of_app; right. Qed.

(** The last update of [Scale] on the row it read. *)
Lemma saveReplicas_spec id s n sp :
  svcs sp !! id = Some s -> do_ParentServiceID (sv_Opts s) <> id ->
  exists sp' row, updateService env (sv_with_opts (opts_with_replicas n (sv_Opts s)) s) sp = (sp', Ret tt) /\
  svcs sp' = <[id := row]> (svcs sp) /\
  same_service row (sv_with_opts (opts_with_replicas n (sv_Opts s)) s) /\
  children sp' id = children sp id.
Proof.
  intros Hs Hp. pose proof (svcs_id _ _ _ Hs) as Hid. subst id.
  destruct (updateService_spec (sv_with_opts (opts_with_replicas n (sv_Opts s)) s) s sp)
  as (t & row & Hu & Hc & Ht); [done|].
  exists (sp_set_services t sp), row. assert (svcs (sp_set_services t sp) = <[sv_ID s := row]> (svcs sp)) as Hr by exact Ht.
  split_and!; [done..|]. unfold children. rewrite Hr.
  assert (do_ParentServiceID (sv_Opts row) = do_ParentServiceID (sv_Opts s)) as Hrow.
  { by apply same_service_fields in Hc as (_ & -> & _). }
  rewrite map_filter_insert_False; simpl; [|rewrite Hrow; naive_solver].
  rewrite map_filter_delete, delete_id; [done|]. apply map_lookup_filter_None. right. intros x Hx.
  simpl. naive_solver.
Qed.

(** The scale-down branch: the newest replicas stay. *)
Lemma scaleDown_children id l d sp :
  StronglySorted newerService l -> NoDup (sv_ID <$> l) ->
  (forall r, r ∈ l <-> children sp id !! sv_ID r = Some r) -> d <= length l ->
  exists sp', for_each (fun r => ignore (Destroy env (sv_ID r))) (take d (rev l)) sp = (sp', Ret tt) /\
  size (children sp' id) + d = size (children sp id) /\ svcs sp' ⊆ svcs sp /\
  (forall k r, svcs sp !! k = Some r -> svcs sp' !! k = None ->
   children sp id !! k = Some r /\
   forall k' r', children sp' id !! k' = Some r' -> (sv_CreatedAt r <= sv_CreatedAt r')%Z).
Proof.
  intros Hsort Hnd Hl Hd. set (keep := take (length l - d) l). set (gone := drop (length l - d) l).
  assert (l = keep ++ gone) as Hkg by (symmetry; apply take_drop).
  assert (take d (rev l) = rev gone) as ->.
  { unfold gone. rewrite firstn_rev. done. }
  assert (forall k, k ∈ (sv_ID <$> rev gone) <-> k ∈ (sv_ID <$> gone)) as Hrev.
  { intros k. by rewrite <-(Permutation_rev gone). }
  rewrite Hkg, fmap_app in Hnd. apply NoDup_app in Hnd as (Hndk & Hdisj & Hndg).
  destruct (scaleDown_spec (rev gone) sp) as (sp' & Hrun & _ & Hlook).
  { by rewrite <-(Permutation_rev gone). }
  { intros r Hr. rewrite <-(Permutation_rev gone) in Hr. apply (children_Some _ id), Hl. rewrite Hkg. apply elem_of_app. by right. }
  assert (forall k, svcs sp' !! k = if decide (k ∈ (sv_ID <$> gone)) then None else svcs sp !! k) as Hlook'.
  { intros k. rewrite Hlook. by apply decide_ext. }
  assert (forall r, r ∈ keep <-> children sp' id !! sv_ID r = Some r) as Hkeep.
  { intros r. rewrite children_Some, Hlook'. assert (r ∈ l <-> r ∈ keep \/ r ∈ gone) as Hin by (rewrite Hkg; apply elem_of_app).
  rewrite Hl, children_Some in Hin. split.
  - intros Hr. rewrite decide_False; [apply Hin; by left|]. by apply Hdisj, list_elem_of_fmap_2.
  - case_decide as Hg; [by intros [? _]|]. intros [Hr|Hr]%Hin; [done|]. destruct Hg. by apply list_elem_of_fmap_2. }
  assert (size (children sp' id) = length keep) as Hsize.
  { apply rows_length; [done| |done]. intros k r [Hr _]%children_Some. by eapply svcs_id. }
  assert (size (children sp id) = length l) as Hsize0.
  { apply rows_length; [rewrite Hkg, fmap_app; by apply NoDup_app| |done]. intros k r [Hr _]%children_Some. by eapply svcs_id. }
  exists sp'. split_and!; [done| | |].
  - rewrite Hsize, Hsize0. unfold keep. rewrite length_take. lia.
  - apply map_subseteq_spec. intros k r. rewrite Hlook'. by case_decide.
  - intros k r Hk. rewrite Hlook', Hk. case_decide as Hg; [|done]. intros _.
  apply list_elem_of_fmap in Hg as (r0 & -> & Hr0).
  assert (children sp id !! sv_ID r0 = Some r0) as Hc0 by (apply Hl; rewrite Hkg; apply elem_of_app; by right).
  assert (r0 = r) as -> by (apply children_Some in Hc0 as [Hc0 _]; congruence). split; [done|].
  intros k' r' Hr'. pose proof (proj1 (proj1 (children_Some _ _ _ _) Hr')) as Hid%svcs_id. subst k'.
  apply Hkeep in Hr'. rewrite Hkg in Hsort.
  by eapply (StronglySorted_app_1_elem_of newerService keep gone).
Qed.

(** [Scale] with a positive count: with fewer instances than asked it adds a replica
    for each missing number whose name is free and touches nothing else; with more it
    removes exactly the surplus, none of which is newer than a replica that stays; in
    both cases the wanted count is recorded on the service, whose other settings stay. *)
Theorem Scale_correct id s n sp :
  svcs sp !! id = Some s -> id <> "" -> do_ParentServiceID (sv_Opts s) <> id -> fresh_ids sp ->
  (1 <= n)%Z ->
  let count := Z.of_nat (size (children sp id) + 1) in
  exists sp' row, Scale env id n sp = (sp', Ret tt) /\ svcs sp' !! id = Some row /\
  same_service row (sv_with_opts (opts_with_replicas n (sv_Opts s)) s) /\
  (if (count <? n)%Z
   then size (children sp' id) = size (children sp id) +
        length (filter (fun i => ~ name_used sp (replicaName (sv_Name s) i)) (range count n)) /\
      (forall k r, k <> id -> svcs sp !! k = Some r -> svcs sp' !! k = Some r) /\
      (forall k r, k <> id -> svcs sp' !! k = Some r -> svcs sp !! k = Some r \/ replica_of s r)
   else Z.of_nat (size (children sp' id) + 1) = n /\
      (forall k r, k <> id -> svcs sp' !! k = Some r -> svcs sp !! k = Some r) /\
      (forall k r, svcs sp !! k = Some r -> svcs sp' !! k = None ->
         children sp id !! k = Some r /\
         forall k' r', children sp' id !! k' = Some r' -> (sv_CreatedAt r <= sv_CreatedAt r')%Z)).
Proof.
  intros Hs Hne Hp Hfresh Hn count. pose proof (svcs_id _ _ _ Hs) as Hid.
  unfold Scale. erewrite bind_Ret by (rewrite getService_spec, Hs; done). cbv beta iota.
  rewrite (proj2 (Z.ltb_ge n 1)) by lia. rewrite Hid.
  destruct (replicasOf_spec id sp Hne) as (l & Hq & Hsort & Hnd & Hl & Hlen).
  rewrite (bind_Ret _ _ _ _ _ Hq), Hlen. fold count. cbv zeta.
  assert (forall m sp1, m sp = (sp1, Ret tt) -> svcs sp1 !! id = Some s -> exists sp' row,
  (_ ← m; updateService env (sv_with_opts (opts_with_replicas n (sv_Opts s)) s)) sp = (sp', Ret tt) /\
  svcs sp' = <[id := row]> (svcs sp1) /\
  same_service row (sv_with_opts (opts_with_replicas n (sv_Opts s)) s) /\
  children sp' id = children sp1 id) as Hfin.
  { intros m sp1 Hm Hs1. rewrite (bind_Ret _ _ _ _ _ Hm). by apply saveReplicas_spec. }
  assert (children sp id !! id = None) as Hself.
  { apply map_lookup_filter_None. right. intros x Hx. simpl. naive_solver. }
  destruct (count <? n)%Z eqn:Hup.
  - destruct (scaleUp_spec s (range count n) sp) as (sp1 & H1 & Hsub & Hnew & _ & Hsize); [apply NoDup_seqZ|done|].
  rewrite map_subseteq_spec in Hsub. rewrite Hid in Hsize.
  destruct (Hfin _ sp1 H1) as (sp' & row & Hrun & Hr & Hrow & Hch); [by apply Hsub|].
  exists sp', row. rewrite Hch, Hr. split_and!; [done|by rewrite lookup_insert_eq|done..| |].
  + intros k r Hk Hkr. rewrite lookup_insert_ne by done. by apply Hsub.
  + intros k r Hk. rewrite lookup_insert_ne by done. apply Hnew.
  - apply Z.ltb_ge in Hup.
  destruct (scaleDown_children id l (Z.to_nat (count - n)) sp) as (sp1 & H1 & Hsize & Hsub & Hgone); [done..|lia|].
  assert (svcs sp1 !! id = Some s) as Hs1.
  { destruct (svcs sp1 !! id) as [s1|] eqn:Hx; [f_equal; rewrite map_subseteq_spec in Hsub; apply Hsub in Hx; congruence|].
    destruct (Hgone id s Hs Hx). congruence. }
  rewrite map_subseteq_spec in Hsub.
  assert (exists m, (if (n <? count)%Z then for_each (fun r => ignore (Destroy env (sv_ID r))) (take (Z.to_nat (count - n)) (rev l))
    else mret tt) = m /\ m sp = (sp1, Ret tt)) as (m & -> & Hm).
  { eexists. split; [done|]. destruct (n <? count)%Z eqn:Hdown; [done|]. apply Z.ltb_ge in Hdown.
    replace (Z.to_nat (count - n)) with 0 in H1 by lia. exact H1. }
  destruct (Hfin _ sp1 Hm Hs1) as (sp' & row & Hrun & Hr & Hrow & Hch).
  exists sp', row. rewrite Hch, Hr. split_and!; [done|by rewrite lookup_insert_eq|done|lia| |].
  + intros k r Hk. rewrite lookup_insert_ne by done. apply Hsub.
  + intros k r Hk [Hx _]%lookup_insert_None. by apply Hgone.
Qed.
End laws.

(** ** Examples *)

Abbreviation SQLitePlane := (ServicePlane (gmap string Service) (gmap string VolumeRecord)).

Definition opts_of (name image relation parent : string) : DeployOpts :=
  mkDeploy name image "" "" [] ∅ "" 8080 1 512 [] "" 0 "/health" 10 5 3 ∅ [] None None ∅ 0 relation parent.
Definition service_of (id name relation parent : string) (st : ServiceStatus) (created : Z) : Service :=
  mkService id (opts_of name "img" relation parent) st "a" "" "" "" "" 0 "" true "" 0 created 0.

(** A service and its second replica; the first one has been destroyed. *)
Definition example_plane : SQLitePlane :=
  mkServicePlane (TV := gmap string Service) (TL := gmap string VolumeRecord)
    (<["s" := service_of "s" "web" "" "" ServiceStatusRunning 1]>
       (<["r" := service_of "r" "web-replica-2" "replica" "s" ServiceStatusRunning 3]> ∅))
    ∅ (<["a" := conn_of "a" "eu" WorkerStatusReady 4 8192 0]> ∅) ∅ 0 [].
Definition example_services : ServiceEnv :=
  mkServiceEnv (mkEnv 1000 (fun _ => 0))
    (Some (mkServiceImages (fun ref => if String.eqb ref "img" then Some "image1" else None)
       (fun id => Some ("/images/" +:+ id)) (fun _ => None) (fun _ => None)))
    false false true StrategySpread ["a"] (fun _ _ => false) None
    (fun n => "id-" +:+ pretty n) (fun n => "slug-" +:+ pretty n).

Lemma example_fresh : fresh_ids example_services example_plane.
Proof.
  split.
  - intros n _. apply map_lookup_filter_None. left. change (se_uuid example_services n) with ("id-" +:+ pretty n).
    change (sp_services example_plane) with
      (<["s" := service_of "s" "web" "" "" ServiceStatusRunning 1]>
         (<["r" := service_of "r" "web-replica-2" "replica" "s" ServiceStatusRunning 3]>
            (∅ : gmap string Service))).
    by rewrite !lookup_insert_ne by done.
  - intros n m H. by apply (inj (String.append "id-")), (inj pretty) in H.
Qed.

(** Asked for three instances, [Scale] adds none: the name of the third is taken. *)
Lemma Scale_correct_witness :
  exists sp', Scale example_services "s" 3 example_plane = (sp', Ret tt) /\
    size (children sp' "s") = 1.
Proof.
  assert (svcs example_plane !! "s" = Some (service_of "s" "web" "" "" ServiceStatusRunning 1)) as Hs
    by (vm_compute; reflexivity).
  destruct (Scale_correct example_services "s" _ 3 example_plane Hs)
    as (sp' & row & Hrun & _ & _ & Hif); [done|done|exact example_fresh|lia|].
  assert (size (children example_plane "s") = 1) as Hc by (vm_compute; reflexivity).
  rewrite Hc in Hif. destruct Hif as [Hsize _]. exists sp'. split; [exact Hrun|].
  rewrite Hsize.
  assert (length (filter (fun i => ~ name_used example_plane (replicaName "web" i)) (range 2 3)) = 0) as Hn
    by (vm_compute; reflexivity).
  change (1 + length (filter (fun i => ~ name_used example_plane (replicaName "web" i)) (range 2 3)) = 1).
  by rewrite Hn.
Defined.

(** The autoscaler counts replicas by the primary of a database configuration, which
    replicas of ordinary services do not have: it counts one instance, the service. *)
Lemma autoscaler_counts_one :
  (countInstances "s" example_plane).2 = Ret 1%Z /\ size (children example_plane "s") = 1.
Proof. split; vm_compute; reflexivity. Qed.

(** The image [asyncDeploy] resolves is sent to the worker and not saved. *)
Definition example_deploying : SQLitePlane :=
  mkServicePlane (TV := gmap string Service) (TL := gmap string VolumeRecord)
    (<["s" := service_of "s" "web" "" "" ServiceStatusDeploying 1]> ∅)
    ∅ (<["a" := conn_of "a" "eu" WorkerStatusReady 4 8192 0]> ∅) ∅ 0 [].
Lemma image_not_saved :
  let out := startDeploy example_services (fun _ => Err "") "s" example_deploying in
  out.2 = Ret (Some ("a", 3%Z)) /\ sv_ImageID <$> svcs out.1 !! "s" = Some "".
Proof. split; vm_compute; reflexivity. Qed.

(** Three ticks without an answer of the worker make a service running and ready. *)
Lemma healthy_without_evidence :
  let out := deployChecks example_services 4 (fun _ sp => sp) "s" "a" 3 0 example_deploying in
  sv_Status <$> svcs out.1 !! "s" = Some ServiceStatusRunning /\
  sv_Ready <$> svcs out.1 !! "s" = Some true.
Proof. split; vm_compute; reflexivity. Qed.

(** An autoscaler whose maximum is not set asks for no instances at all, which [Scale]
    refuses. *)
Lemma autoscale_without_max :
  desiredInstances (mkAutoscale 1 0 0 fzero fzero 0) None 1 = 0%Z /\
  (Scale example_services "s" 0 example_plane).2 = Fail ESReplicas.
Proof. split; vm_compute; reflexivity. Qed.
