(* ===== verification/GarbageCollector.v ===== *)
(** * Garbage collection ([src/internal/controlplane/gc/gc.go])

    A sweep deletes old rows of the store, sends cleanup commands to the workers and
    deletes old images.  It works on the database of [Replicated.v], the registry of
    [Registry.v] and the image manager of [Images.v].  The clock is read once; whether
    the context is still alive and which statements fail are arguments, as are the
    orders in which maps are iterated. *)

From stdpp Require Import options.
From Stdlib Require Import Ascii.
From S2P Require Import Prelude Effects GoStrings GoTime Float64 Entities Store Network Services Images Registry Replicated.
Open Scope nat_scope.

(** The fields a sweep reads; it does not look at [CheckpointTTL]. *)
Record RetentionConfig := mkRetention {
  rt_SessionTTL : string;
  rt_ExecutionTTL : string;
  rt_TokenTTL : string;
  rt_ImageTTL : string
}.

(** The times of the result are left out. *)
Record SweepResult := mkSweep {
  sr_SessionsPurged : nat;
  sr_ExecutionsPurged : nat;
  sr_TokensPurged : nat;
  sr_WorkersCleaned : nat;
  sr_ImagesCleaned : nat;
  sr_Errors : list string
}.
Definition no_sweep : SweepResult := mkSweep 0 0 0 0 0 [].

Record GcWorld := mkGc {
  gc_db : Db;
  gc_registry : gmap string WorkerConn;
  gc_images : ImageManager;
  gc_pending : gmap string (list string);
  gc_retries : gmap string nat;
  gc_last : option SweepResult
}.
Definition gc_with_db db (w : GcWorld) : GcWorld :=
  mkGc db (gc_registry w) (gc_images w) (gc_pending w) (gc_retries w) (gc_last w).
Definition gc_with_registry r (w : GcWorld) : GcWorld :=
  mkGc (gc_db w) r (gc_images w) (gc_pending w) (gc_retries w) (gc_last w).
Definition gc_with_images i (w : GcWorld) : GcWorld :=
  mkGc (gc_db w) (gc_registry w) i (gc_pending w) (gc_retries w) (gc_last w).
Definition gc_with_pending f (w : GcWorld) : GcWorld :=
  mkGc (gc_db w) (gc_registry w) (gc_images w) (f (gc_pending w)) (gc_retries w) (gc_last w).
Definition gc_with_retries f (w : GcWorld) : GcWorld :=
  mkGc (gc_db w) (gc_registry w) (gc_images w) (gc_pending w) (f (gc_retries w)) (gc_last w).

(** What a sweep finds: the clock and the rooms in the channels, whether the context is
    alive before a stage and before a worker, and which of the three statements fail. *)
Record GcEnv := mkGcEnv {
  ge_env : Env;
  ge_alive : nat -> bool;
  ge_alive_at : string -> bool;
  ge_fails : nat -> bool;
  ge_pending : list string;
  ge_workers : list string;
  ge_images : list string
}.

Definition parseDurationOrDefault (s : string) (def : Z) : Z :=
  match ParseDuration s with Some d => d | None => def end.

Section Collector.
Context `{queries : !SessionQueries (gmap string Session)}.
Context (dataDir : string) (retention : RetentionConfig).

(** [sendCleanup]: whether it was sent *)
Definition sendCleanup (env : Env) (workerID sessionID : string) (w : GcWorld) : bool * GcWorld :=
  match SendCommand env workerID (CStopSessionData sessionID) (mkCP tt tt tt tt (gc_registry w)) with
  | (cp, Ret _) => (true, gc_with_registry (cp_registry cp) w)
  | (cp, _) => (false, gc_with_registry (cp_registry cp) w)
  end.

Definition retryKey (workerID sid : string) : string := workerID +:+ ":" +:+ sid.
Definition add_pending (workerID sid : string) : GcWorld -> GcWorld :=
  gc_with_pending (fun p => <[workerID := default [] (p !! workerID) ++ [sid]]> p).

(** A cleanup of an earlier sweep is sent again; a failure counts, and the fourth gives
    it up. *)
Definition retryCleanup (env : Env) (workerID : string) (st : nat * GcWorld) (sid : string) : nat * GcWorld :=
  let '(cleaned, w) := st in
  let key := retryKey workerID sid in
  let '(ok, w) := sendCleanup env workerID sid w in
  if ok then (S cleaned, gc_with_retries (delete key) w)
  else
    let n := S (default 0 (gc_retries w !! key)) in
    let w := gc_with_retries <[key := n]> w in
    if n <=? 3 then (cleaned, add_pending workerID sid w)
    else (cleaned, gc_with_retries (delete key) w).

(** The sessions of a connected worker that are terminated *)
Definition cleanupSession (env : Env) (workerID : string) (st : nat * GcWorld) (s : Session) : nat * GcWorld :=
  let '(cleaned, w) := st in
  if bool_decide (s_Status s = SessionStatusTerminated) then
    let '(ok, w) := sendCleanup env workerID (s_ID s) w in
    if ok then (S cleaned, w) else (cleaned, add_pending workerID (s_ID s) w)
  else st.

Fixpoint cleanupConnected (env : GcEnv) (order : list string) (st : nat * GcWorld) : nat * GcWorld :=
  match order with
  | [] => st
  | workerID :: order =>
      if negb (ge_alive_at env workerID) then st
      else
        let st := match ses_ListByWorker workerID (nd_sessions (gc_db st.2)) with
                  | Ok sessions => foldl (cleanupSession (ge_env env) workerID) st sessions
                  | Err _ => st
                  end in
        cleanupConnected env order st
  end.

Definition cleanupWorkers (env : GcEnv) (w : GcWorld) : nat * GcWorld :=
  let pending := gc_pending w in
  let w := gc_with_pending (fun _ => ∅) w in
  let st := foldl (fun st workerID => foldl (retryCleanup (ge_env env) workerID) st (default [] (pending !! workerID)))
              (0, w) (ge_pending env) in
  cleanupConnected env (filter (fun id => is_Some (gc_registry w !! id)) (ge_workers env)) st.

(** [cleanupImages] *)
Definition cleanupImage (cutoff : Z) (st : nat * ImageManager) (id : string) : nat * ImageManager :=
  let '(cleaned, im) := st in
  match im_images im !! id with
  | None => st
  | Some img =>
      if (i_CreatedAt img <? cutoff)%Z then
        let '(ok, im) := DeleteImage dataDir id im in (if ok then S cleaned else cleaned, im)
      else st
  end.
Definition cleanupImages (cutoff : Z) (order : list string) (im : ImageManager) : nat * ImageManager :=
  foldl (cleanupImage cutoff) (0, im) order.

(** A statement that deletes rows: how many, or an error *)
Definition purge {A} (fails : bool) (table : Db -> gmap string A) (stmt : Db -> Db) (w : GcWorld)
    : option nat * GcWorld :=
  if fails then (None, w)
  else (Some (size (table (gc_db w)) - size (table (stmt (gc_db w)))), gc_with_db (stmt (gc_db w)) w).

Definition saveResult (r : SweepResult) (w : GcWorld) : SweepResult * GcWorld :=
  (r, mkGc (gc_db w) (gc_registry w) (gc_images w) (gc_pending w) (gc_retries w) (Some r)).

Definition add_error (failed : option nat) (what : string) (errors : list string) : list string :=
  match failed with Some _ => errors | None => errors ++ [what] end.

Definition sessionStmt (now : Z) (db : Db) : Db :=
  (applySession now (SesDeleteTerminatedBefore
     (now - parseDurationOrDefault (rt_SessionTTL retention) (168 * Hour))) db).1.
Definition executionStmt (now : Z) (db : Db) : Db :=
  (applyExecution now (ExeDeleteCompletedBefore
     (now - parseDurationOrDefault (rt_ExecutionTTL retention) (72 * Hour))) db).1.
Definition tokenStmt (now : Z) (db : Db) : Db :=
  (applyToken (TokDeleteExpiredBefore
     (now - parseDurationOrDefault (rt_TokenTTL retention) (24 * Hour))) db).1.
Definition imageCutoff (now : Z) : Z := (now - parseDurationOrDefault (rt_ImageTTL retention) (720 * Hour))%Z.

(** [Sweep] *)
Definition Sweep (env : GcEnv) (w : GcWorld) : SweepResult * GcWorld :=
  let now := env_now (ge_env env) in
  if negb (ge_alive env 1) then saveResult no_sweep w
  else
    let '(s, w) := purge (ge_fails env 1) nd_sessions (sessionStmt now) w in
    let errors := add_error s "sessions" [] in
    let r := mkSweep (default 0 s) 0 0 0 0 errors in
    if negb (ge_alive env 2) then saveResult r w
    else
      let '(e, w) := purge (ge_fails env 2) nd_executions (executionStmt now) w in
      let errors := add_error e "executions" errors in
      let r := mkSweep (default 0 s) (default 0 e) 0 0 0 errors in
      if negb (ge_alive env 3) then saveResult r w
      else
        let '(t, w) := purge (ge_fails env 3) nd_tokens (tokenStmt now) w in
        let errors := add_error t "tokens" errors in
        let r := mkSweep (default 0 s) (default 0 e) (default 0 t) 0 0 errors in
        if negb (ge_alive env 4) then saveResult r w
        else
          let '(c, w) := cleanupWorkers env w in
          let r := mkSweep (default 0 s) (default 0 e) (default 0 t) c 0 errors in
          if negb (ge_alive env 5) then saveResult r w
          else
            let '(i, im) := cleanupImages (imageCutoff now) (ge_images env) (gc_images w) in
            saveResult (mkSweep (default 0 s) (default 0 e) (default 0 t) c i errors) (gc_with_images im w).

(** [SweepDryRun]: what it counts *)
Definition SweepDryRun (env : GcEnv) (w : GcWorld) : SweepResult :=
  let now := env_now (ge_env env) in
  let cutoff := (now - parseDurationOrDefault (rt_SessionTTL retention) (168 * Hour))%Z in
  let sessions := match ses_List (mkFilter None None None 0 0) (nd_sessions (gc_db w)) with
                  | Ok l => length (filter (fun s => s_Status s = SessionStatusTerminated /\ (s_UpdatedAt s < cutoff)%Z) l)
                  | Err _ => 0
                  end in
  let images := size (filter (fun e => (i_CreatedAt e.2 < imageCutoff now)%Z) (im_images (gc_images w))) in
  let workers := sum_list_with (fun e => length e.2) (map_to_list (gc_pending w)) in
  mkSweep sessions 0 0 workers images [].

Definition LastResult (w : GcWorld) : option SweepResult := gc_last w.
End Collector.

(** ** What a sweep sends *)

Section Sent.
Context (P : string -> string -> Prop).

(** Of the queues nothing is new but stops of the sessions of [P]; the rest of the
    world that sending does not concern stays. *)
Record only_stops (w w' : GcWorld) : Prop := {
  os_db : gc_db w' = gc_db w;
  os_images : gc_images w' = gc_images w;
  os_dom : forall k, is_Some (gc_registry w' !! k) <-> is_Some (gc_registry w !! k);
  os_queue : forall k c', gc_registry w' !! k = Some c' ->
    exists c, gc_registry w !! k = Some c /\ wc_Worker c' = wc_Worker c /\
      forall cmd, cmd ∈ wc_CmdChan c' -> cmd ∈ wc_CmdChan c \/ exists sid, cmd = CStopSessionData sid /\ P k sid;
  os_retries : map_Forall (fun _ n => n <= 3) (gc_retries w) -> map_Forall (fun _ n => n <= 3) (gc_retries w')
}.

#[global] Instance only_stops_preorder : PreOrder only_stops.
Proof.
  split.
  - intros w. constructor; [done..| |done]. intros k c Hc. exists c. split_and!; [done..|]. intros cmd. by left.
  - intros w1 w2 w3 [D1 I1 K1 Q1 R1] [D2 I2 K2 Q2 R2]. constructor; [congruence..| | |auto].
    + intros k. by rewrite K2, K1.
    + intros k c3 H3. destruct (Q2 _ _ H3) as (c2 & H2 & W2 & C2). destruct (Q1 _ _ H2) as (c1 & H1 & W1 & C1).
      exists c1. split_and!; [done|congruence|]. intros cmd Hin. destruct (C2 _ Hin) as [Hin2|]; [by apply C1|by right].
Qed.

Lemma sendCleanup_stops env wid sid w : P wid sid -> only_stops w (sendCleanup env wid sid w).2.
Proof.
  intros HP. unfold sendCleanup.
  destruct (SendCommand_frame env wid (CStopSessionData sid) (mkCP tt tt tt tt (gc_registry w)))
    as (r' & res & -> & Hres & Hk & Hok & Hno). simpl in Hk, Hok, Hno.
  assert (only_stops w (gc_with_registry r' w)) as Hs.
  { destruct Hres as [Heq|[e Hne]].
    - destruct (Hok Heq) as (conn & n & Hc & Hr). constructor; simpl; [done|done| | |done].
      + intros k. destruct (decide (k = wid)) as [->|Hkw]; [rewrite Hr, Hc; split; by eexists|by rewrite Hk].
      + intros k c' Hc'. destruct (decide (k = wid)) as [->|Hkw].
        * rewrite Hr in Hc'. injection Hc' as <-. exists conn. split_and!; [done|done|]. simpl.
          intros cmd [Hin|Hin]%elem_of_app; [left; by apply (subseteq_drop n)|right].
          apply list_elem_of_singleton in Hin. by exists sid.
        * rewrite Hk in Hc' by done. exists c'. split_and!; [done..|]. intros cmd. by left.
    - rewrite Hno by (by rewrite Hne). by destruct w. }
  destruct res; exact Hs.
Qed.

Lemma add_pending_stops wid sid w : only_stops w (add_pending wid sid w).
Proof. constructor; [done..| |done]. intros k c Hc. exists c. split_and!; [done..|]. intros cmd. by left. Qed.

Lemma retries_stops f w :
  (map_Forall (fun _ n => n <= 3) (gc_retries w) -> map_Forall (fun _ n => n <= 3) (f (gc_retries w))) ->
  only_stops w (gc_with_retries f w).
Proof. intros Hf. constructor; [done..| |done]. intros k c Hc. exists c. split_and!; [done..|]. intros cmd. by left. Qed.

Lemma retryCleanup_stops env wid n sid w : P wid sid -> only_stops w (retryCleanup env wid (n, w) sid).2.
Proof.
  intros HP. unfold retryCleanup. pose proof (sendCleanup_stops env wid sid w HP) as Hs.
  destruct (sendCleanup env wid sid w) as [[] w1]; simpl in Hs.
  - simpl. etrans; [exact Hs|]. apply retries_stops. apply map_Forall_delete.
  - case_match eqn:Hn; simpl; (etrans; [exact Hs|]).
    + apply Nat.leb_le in Hn. etrans; [|apply add_pending_stops]. apply retries_stops. intros Hb. by apply map_Forall_insert_2.
    + constructor; [done..| |].
      * intros k c Hc. exists c. split_and!; [done..|]. intros cmd. by left.
      * simpl. intros Hb. rewrite delete_insert_eq. by apply map_Forall_delete.
Qed.

Lemma fold_stops {A} (f : nat * GcWorld -> A -> nat * GcWorld) l st :
  (forall n w a, a ∈ l -> only_stops w (f (n, w) a).2) -> only_stops st.2 (foldl f st l).2.
Proof.
  revert st. induction l as [|a l IH]; intros [n w] Hf; [done|]. cbn [foldl].
  etrans; [apply (Hf n w a); by left|]. apply IH. intros n' w' a' Ha. apply Hf. by right.
Qed.
End Sent.

(** ** Retries *)

(** How often a cleanup was retried without success. *)
Definition retried (workerID sid : string) (w : GcWorld) : nat := default 0 (gc_retries w !! retryKey workerID sid).
Definition waiting (workerID : string) (w : GcWorld) : list string := default [] (gc_pending w !! workerID).

(** What has no key in common with the cleanups of a step keeps its count, and only the
    worker of the step gets something to wait for. *)
Record elsewhere (workerID : string) (keys : list string) (w w' : GcWorld) : Prop := {
  el_waiting : forall k, k <> workerID -> waiting k w' = waiting k w;
  el_retries : forall key, key ∉ keys -> gc_retries w' !! key = gc_retries w !! key;
  el_dom : forall k, gc_registry w !! k = None -> gc_registry w' !! k = None
}.

Lemma sendCleanup_elsewhere env wid sid keys w : elsewhere wid keys w (sendCleanup env wid sid w).2.
Proof.
  unfold sendCleanup.
  destruct (SendCommand_frame env wid (CStopSessionData sid) (mkCP tt tt tt tt (gc_registry w)))
    as (r' & res & -> & Hres & Hk & Hok & Hno). simpl in Hk, Hok, Hno.
  assert (elsewhere wid keys w (gc_with_registry r' w)) as H.
  { constructor; [done..|]. intros k Hn. simpl. destruct (decide (k = wid)) as [->|Hne]; [|by rewrite Hk].
    destruct Hres as [Heq|[e Heq]]; [|by rewrite Hno by (by rewrite Heq)].
    destruct (Hok Heq) as (conn & n & Hc & _). congruence. }
  destruct res; exact H.
Qed.

(** To a worker that is not connected nothing is sent. *)
Lemma sendCleanup_unreachable env wid sid w :
  gc_registry w !! wid = None -> sendCleanup env wid sid w = (false, w).
Proof.
  intros Hn. unfold sendCleanup, SendCommand. erewrite bind_Ret by done. simpl. rewrite Hn. by destruct w.
Qed.

Lemma elsewhere_trans wid keys w1 w2 w3 : elsewhere wid keys w1 w2 -> elsewhere wid keys w2 w3 -> elsewhere wid keys w1 w3.
Proof.
  intros [A1 B1 C1] [A2 B2 C2]. constructor; [| |auto].
  - intros k Hk. by rewrite A2, A1.
  - intros key Hk. by rewrite B2, B1.
Qed.

Lemma add_pending_elsewhere wid sid keys w : elsewhere wid keys w (add_pending wid sid w).
Proof. constructor; [|done..]. intros k Hk. unfold waiting. simpl. by rewrite lookup_insert_ne. Qed.

Lemma retryCleanup_elsewhere env wid n sid keys w :
  retryKey wid sid ∈ keys -> elsewhere wid keys w (retryCleanup env wid (n, w) sid).2.
Proof.
  intros Hin. unfold retryCleanup. pose proof (sendCleanup_elsewhere env wid sid keys w) as Hs.
  assert (forall f w1, (forall key, key ∉ keys -> f (gc_retries w1) !! key = gc_retries w1 !! key) ->
    elsewhere wid keys w w1 -> elsewhere wid keys w (gc_with_retries f w1)) as Hf.
  { intros f w1 Hkeep H1. eapply elsewhere_trans; [exact H1|]. by constructor. }
  assert (forall key, key ∉ keys -> retryKey wid sid <> key) as Hne by (intros key Hk Heq; by rewrite Heq in Hin).
  destruct (sendCleanup env wid sid w) as [[] w1]; simpl in Hs.
  - apply Hf; [|done]. intros key Hk. apply lookup_delete_ne; auto.
  - case_match; simpl.
    + eapply elsewhere_trans; [|apply add_pending_elsewhere]. apply Hf; [|done]. intros key Hk.
      apply lookup_insert_ne; auto.
    + apply Hf; [|apply Hf; [|done]]; intros key Hk; [apply lookup_delete_ne|apply lookup_insert_ne]; auto.
Qed.

Lemma retries_elsewhere env wid l n keys w :
  (forall sid, sid ∈ l -> retryKey wid sid ∈ keys) ->
  elsewhere wid keys w (foldl (retryCleanup env wid) (n, w) l).2.
Proof.
  revert n w. induction l as [|sid l IH]; intros n w Hk; [done|]. cbn [foldl].
  pose proof (retryCleanup_elsewhere env wid n sid keys w) as Hs.
  destruct (retryCleanup env wid (n, w) sid) as [n' w']. eapply elsewhere_trans; [apply Hs, Hk; by left|].
  apply IH. intros s Hs'. apply Hk. by right.
Qed.

(** The counts of the cleanups of an unreachable worker after their retries. *)
Definition after_retry (c : nat) : option nat := if c <? 3 then Some (S c) else None.

Lemma retry_unreachable env wid n sid w :
  gc_registry w !! wid = None ->
  exists w', retryCleanup env wid (n, w) sid = (n, w') /\ gc_registry w' = gc_registry w /\
    waiting wid w' = waiting wid w ++ (if retried wid sid w <? 3 then [sid] else []) /\
    gc_retries w' !! retryKey wid sid = after_retry (retried wid sid w).
Proof.
  intros Hn. unfold retryCleanup. rewrite sendCleanup_unreachable by done. fold (retried wid sid w).
  change (S (retried wid sid w) <=? 3) with (retried wid sid w <? 3). unfold after_retry.
  destruct (retried wid sid w <? 3); eexists; (split; [reflexivity|]); simpl.
  - split_and!; [done| |apply lookup_insert_eq]. unfold waiting. simpl. by rewrite lookup_insert_eq.
  - split_and!; [done|by rewrite app_nil_r|apply lookup_delete_eq].
Qed.

Lemma retries_unreachable env wid l n w :
  gc_registry w !! wid = None -> NoDup (retryKey wid <$> l) ->
  exists w', foldl (retryCleanup env wid) (n, w) l = (n, w') /\ gc_registry w' = gc_registry w /\
    waiting wid w' = waiting wid w ++ filter (fun sid => retried wid sid w < 3) l /\
    (forall sid, sid ∈ l -> gc_retries w' !! retryKey wid sid = after_retry (retried wid sid w)).
Proof.
  revert w. induction l as [|sid l IH]; intros w Hn Hnd.
  { exists w. split_and!; [done|done|by rewrite app_nil_r|]. by intros sid ?%elem_of_nil. }
  csimpl in Hnd. apply NoDup_cons in Hnd as [Hni Hnd]. cbn [foldl].
  pose proof (retryCleanup_elsewhere env wid n sid [retryKey wid sid] w
    (proj2 (list_elem_of_singleton _ _) eq_refl)) as Hel.
  destruct (retry_unreachable env wid n sid w Hn) as (w1 & Hr & Hreg & Hwait & Hcount). rewrite Hr in Hel |- *.
  destruct (IH w1) as (w' & Hf & Hreg' & Hwait' & Hcount'); [by rewrite Hreg|done|].
  assert (forall s, s ∈ l -> retried wid s w1 = retried wid s w) as Hsame.
  { intros s Hs. unfold retried. rewrite (el_retries _ _ _ _ Hel); [done|].
    intros Heq%list_elem_of_singleton. apply Hni. rewrite <-Heq. by apply list_elem_of_fmap_2. }
  pose proof (retries_elsewhere env wid l n (retryKey wid <$> l) w1
    (fun s Hs => list_elem_of_fmap_2 (retryKey wid) l s Hs)) as Hel'. rewrite Hf in Hel'.
  exists w'. split_and!; [done|by rewrite Hreg'| |].
  - rewrite Hwait', Hwait, <-app_assoc. f_equal. rewrite filter_cons.
    assert (filter (fun s => retried wid s w1 < 3) l = filter (fun s => retried wid s w < 3) l) as ->.
    { apply list_filter_iff'. intros s Hs. by rewrite Hsame. }
    destruct (Nat.ltb_spec (retried wid sid w) 3); [rewrite decide_True|rewrite decide_False]; done || lia.
  - intros s [->|Hs]%elem_of_cons.
    + by rewrite (el_retries _ _ _ _ Hel').
    + rewrite Hcount', Hsame; done.
Qed.

(** Workers whose name has no colon have keys of their own. *)
Lemma retryKey_inj k k' sid sid' :
  str_mem ":"%char k = false -> str_mem ":"%char k' = false ->
  retryKey k sid = retryKey k' sid' -> k = k' /\ sid = sid'.
Proof.
  intros Hk Hk' Heq. apply (f_equal (fun s => Cut s ":"%char)) in Heq. unfold retryKey in Heq.
  change (":" +:+ sid) with (String ":"%char sid) in Heq. change (":" +:+ sid') with (String ":"%char sid') in Heq.
  rewrite !Cut_app in Heq by done. by injection Heq.
Qed.

Section Unreachable.
Context `{queries : !SessionQueries (gmap string Session)}.
Context (env : GcEnv) (pending : gmap string (list string)) (k : string).
Context (Hcolon : forall j, is_Some (pending !! j) -> str_mem ":"%char j = false) (Hk : is_Some (pending !! k)).

(** What a worker waits for, its counts and its absence are not changed. *)
Definition untouched (w w' : GcWorld) : Prop :=
  waiting k w' = waiting k w /\
  (forall sid, gc_retries w' !! retryKey k sid = gc_retries w !! retryKey k sid) /\
  (gc_registry w !! k = None -> gc_registry w' !! k = None).

#[local] Instance untouched_preorder : PreOrder untouched.
Proof. split; [by intros w|]. intros w1 w2 w3 (A1 & B1 & C1) (A2 & B2 & C2). split_and!; [congruence| |auto]. intros sid. by rewrite B2. Qed.

Lemma retry_others l n w :
  k ∉ l -> (forall j, j ∈ l -> is_Some (pending !! j)) ->
  untouched w (foldl (fun st wid => foldl (retryCleanup (ge_env env) wid) st (default [] (pending !! wid))) (n, w) l).2.
Proof using Hcolon Hk.
  revert n w. induction l as [|j l IH]; intros n w Hni Hl; [done|]. apply not_elem_of_cons in Hni as [Hne Hni].
  cbn [foldl]. set (sids := default [] (pending !! j)).
  pose proof (retries_elsewhere (ge_env env) j sids n (retryKey j <$> sids) w
    (fun s Hs => list_elem_of_fmap_2 (retryKey j) sids s Hs)) as [A B C].
  destruct (foldl (retryCleanup (ge_env env) j) (n, w) sids) as [n1 w1]. simpl in *.
  trans w1; [|apply IH; [done|intros i Hi; apply Hl; by right]]. split_and!; [by apply A| |apply C].
  intros sid. apply B. intros (s & Heq & _)%list_elem_of_fmap.
  apply retryKey_inj in Heq as [? _]; [done|by apply Hcolon|apply Hcolon, Hl; by left].
Qed.

Lemma retry_all l w :
  NoDup l -> k ∈ l -> (forall j, j ∈ l -> is_Some (pending !! j)) -> gc_registry w !! k = None ->
  NoDup (default [] (pending !! k)) ->
  let w' := (foldl (fun st wid => foldl (retryCleanup (ge_env env) wid) st (default [] (pending !! wid))) (0, w) l).2 in
  waiting k w' = waiting k w ++ filter (fun sid => retried k sid w < 3) (default [] (pending !! k)) /\
  (forall sid, sid ∈ default [] (pending !! k) -> gc_retries w' !! retryKey k sid = after_retry (retried k sid w)) /\
  gc_registry w' !! k = None.
Proof using Hcolon Hk.
  intros Hnd (l1 & l2 & ->)%list_elem_of_split Hl Hn Hsids.
  apply NoDup_app in Hnd as (_ & Hd & [H2 _]%NoDup_cons).
  assert (k ∉ l1) as H1 by (intros Hin; apply (Hd k Hin); by left).
  rewrite foldl_app. cbn [foldl]. cbv zeta.
  destruct (retry_others l1 0 w H1) as (A1 & B1 & C1); [intros j Hj; apply Hl, elem_of_app; by left|].
  destruct (foldl _ (0, w) l1) as [n1 w1]. simpl in A1, B1, C1. set (sids := default [] (pending !! k)) in *.
  destruct (retries_unreachable (ge_env env) k sids n1 w1) as (w2 & -> & Hreg & Hw2 & Hc2);
    [by apply C1| |].
  { apply NoDup_fmap_2_strong; [|done]. intros x y _ _ Heq.
    apply retryKey_inj in Heq as [_ ?]; [done|by apply Hcolon..]. }
  destruct (retry_others l2 n1 w2 H2) as (A3 & B3 & C3);
    [intros j Hj; apply Hl, elem_of_app; right; by right|].
  assert (forall sid, retried k sid w1 = retried k sid w) as Hret by (intros sid; unfold retried; by rewrite B1).
  split_and!.
  - rewrite A3, Hw2, A1. f_equal. apply list_filter_iff'. intros sid _. by rewrite Hret.
  - intros sid Hin. by rewrite B3, Hc2, Hret.
  - apply C3. rewrite Hreg. by apply C1.
Qed.

Lemma connected_others order st :
  k ∉ order -> untouched st.2 (cleanupConnected env order st).2.
Proof using Type.
  revert st. induction order as [|j order IH]; intros st Hni; [done|]. apply not_elem_of_cons in Hni as [Hne Hni].
  cbn [cleanupConnected]. destruct (negb _); [done|].
  destruct (ses_ListByWorker j (nd_sessions (gc_db st.2))) as [l|]; [|by apply IH].
  trans (foldl (cleanupSession (ge_env env) j) st l).2; [|by apply IH].
  revert st. clear IH. induction l as [|s l IH]; intros [n w]; [done|]. cbn [foldl].
  trans (cleanupSession (ge_env env) j (n, w) s).2; [|apply IH]. unfold cleanupSession.
  case_bool_decide; [|done]. destruct (sendCleanup_elsewhere (ge_env env) j (s_ID s) [] w) as [A B C].
  assert (forall sid, retryKey k sid ∉ @nil string) as Hnil by (intros sid; apply not_elem_of_nil).
  destruct (sendCleanup (ge_env env) j (s_ID s) w) as [[] w1]; simpl in *; (split_and!; [|intros sid; by apply B|apply C]).
  - by apply A.
  - unfold waiting. simpl. rewrite lookup_insert_ne by done. by apply A.
Qed.
End Unreachable.

(** The deletions change the images only. *)
Lemma drop_layers_images dataDir l im : im_images (foldl (drop_layer dataDir) im l) = im_images im.
Proof.
  revert im. induction l as [|x l IH]; intros im; [done|]. cbn [foldl]. rewrite IH. unfold drop_layer.
  by case_match.
Qed.

Lemma delete_object_images key im : im_images (delete_object key im) = im_images im.
Proof. unfold delete_object. by case_match. Qed.

Lemma DeleteImage_images dataDir id im : im_images (DeleteImage dataDir id im).2 = delete id (im_images im).
Proof.
  unfold DeleteImage. destruct (im_images im !! id) as [img|] eqn:Hi; [|by rewrite delete_id].
  simpl. rewrite !delete_object_images.
  assert (im_images (deleteImageLocked dataDir id im) = delete id (im_images im)) as Hd.
  { unfold deleteImageLocked. rewrite Hi. simpl. by rewrite drop_layers_images. }
  case_bool_decide; by rewrite ?delete_object_images.
Qed.

Lemma cleanupImages_exact dataDir cutoff order im :
  NoDup order -> (forall id, id ∈ order <-> is_Some (im_images im !! id)) ->
  let '(n, im') := cleanupImages dataDir cutoff order im in
  n + size (im_images im') = size (im_images im) /\
  (forall id img, im_images im' !! id = Some img <-> im_images im !! id = Some img /\ (cutoff <= i_CreatedAt img)%Z).
Proof.
  intros Hnd Hdom. unfold cleanupImages.
  assert (forall l n im0, NoDup l -> let '(n', im') := foldl (cleanupImage dataDir cutoff) (n, im0) l in
    n' + size (im_images im') = n + size (im_images im0) /\
    forall id img, im_images im' !! id = Some img <-> im_images im0 !! id = Some img /\ (id ∈ l -> (cutoff <= i_CreatedAt img)%Z)) as Hgen.
  { induction l as [|id l IH]; intros n im0 Hl.
    { simpl. split; [done|]. intros id img. split; [intros H; split; [done|by intros ?%elem_of_nil]|by intros [? _]]. }
    apply NoDup_cons in Hl as [Hid Hl]. cbn [foldl]. unfold cleanupImage at 2.
    destruct (im_images im0 !! id) as [i0|] eqn:Hi0.
    - destruct (Z.ltb_spec (i_CreatedAt i0) cutoff) as [Hlt|Hge].
      + assert (exists im1, DeleteImage dataDir id im0 = (true, im1) /\ im_images im1 = delete id (im_images im0)) as (im1 & -> & Him1).
        { pose proof (DeleteImage_images dataDir id im0) as H. unfold DeleteImage in *. rewrite Hi0 in *. eexists. by split. }
        specialize (IH (S n) im1 Hl). destruct (foldl _ _ l) as [n' im']. destruct IH as [Hs Hlk]. split.
        * rewrite Hs, Him1, map_size_delete_Some by (by rewrite Hi0).
          assert (size (im_images im0) <> 0) by (intros H; apply map_size_empty_inv in H; rewrite H, lookup_empty in Hi0; done). lia.
        * intros id' img. rewrite Hlk, Him1, lookup_delete_Some, elem_of_cons. split.
          { intros [[Hne H1] H2]. split; [done|]. intros [->|Hin]; [done|auto]. }
          { intros [H1 H2]. split; [split; [|done]|auto]. intros ->. rewrite Hi0 in H1. simplify_eq.
            assert (cutoff <= i_CreatedAt img)%Z by auto. lia. }
      + specialize (IH n im0 Hl). destruct (foldl _ _ l) as [n' im']. destruct IH as [Hs Hlk]. split; [done|].
        intros id' img. rewrite Hlk, elem_of_cons. split; [|naive_solver].
        intros [H1 H2]. split; [done|]. intros [->|Hin]; [|auto]. by simplify_eq.
    - specialize (IH n im0 Hl). destruct (foldl _ _ l) as [n' im']. destruct IH as [Hs Hlk]. split; [done|].
      intros id' img. rewrite Hlk, elem_of_cons. split; [|naive_solver].
      intros [H1 H2]. split; [done|]. intros [->|Hin]; [|auto]. congruence. }
  specialize (Hgen order 0 im Hnd). destruct (foldl _ _ order) as [n' im']. destruct Hgen as [Hs Hlk]. split; [done|].
  intros id img. rewrite Hlk. split; intros [H1 H2]; (split; [done|auto]). apply H2, Hdom. by eexists.
Qed.

(** ** A whole sweep *)

Section Exact.
Context `{queries : !SessionQueries (gmap string Session)}.
Context (dataDir : string) (retention : RetentionConfig).

(** The cleanups a sweep may send: those left over, and those for the sessions that the
    store lists for the worker and that are terminated. *)
Definition stop_due (pending : gmap string (list string)) (db : Db) (workerID sid : string) : Prop :=
  sid ∈ default [] (pending !! workerID) \/
  exists l s, ses_ListByWorker workerID (nd_sessions db) = Ok l /\ s ∈ l /\
    s_Status s = SessionStatusTerminated /\ s_ID s = sid.

Lemma cleanupWorkers_stops env w :
  only_stops (stop_due (gc_pending w) (gc_db w)) w (cleanupWorkers env w).2.
Proof.
  set (P := stop_due (gc_pending w) (gc_db w)). unfold cleanupWorkers.
  set (w0 := gc_with_pending (fun _ => ∅) w).
  assert (only_stops P w w0) as H0.
  { constructor; [done..| |done]. intros k c Hc. exists c. split_and!; [done..|]. intros cmd. by left. }
  set (st := foldl _ (0, w0) (ge_pending env)).
  assert (only_stops P w st.2) as H1.
  { etrans; [exact H0|]. apply (fold_stops P _ _ (0, w0)). intros n w1 wid _.
    apply (fold_stops P _ _ (n, w1)). intros n' w' sid Hin. apply retryCleanup_stops. by left. }
  clearbody st. generalize (filter (fun id => is_Some (gc_registry w0 !! id)) (ge_workers env)). intros order.
  revert st H1. induction order as [|wid order IH]; intros st Hst; [done|]. cbn [cleanupConnected].
  destruct (negb (ge_alive_at env wid)); [done|]. apply IH.
  destruct (ses_ListByWorker wid (nd_sessions (gc_db st.2))) as [l|e] eqn:Hl; [|done].
  etrans; [exact Hst|]. apply (fold_stops P _ _ st). intros n w1 s Hin. unfold cleanupSession.
  case_bool_decide as Hterm; [|done].
  assert (P wid (s_ID s)) as HP.
  { right. exists l, s. rewrite (os_db _ _ _ Hst) in Hl. done. }
  pose proof (sendCleanup_stops P (ge_env env) wid (s_ID s) w1 HP) as Hs.
  destruct (sendCleanup (ge_env env) wid (s_ID s) w1) as [[] w2]; simpl in Hs |- *; [done|].
  etrans; [exact Hs|]. apply add_pending_stops.
Qed.

(** The map of what waits, as a sweep goes through it. *)
Record pending_order (env : GcEnv) (w : GcWorld) : Prop := {
  po_once : NoDup (ge_pending env);
  po_all : forall j, j ∈ ge_pending env <-> is_Some (gc_pending w !! j);
  po_names : forall j, is_Some (gc_pending w !! j) -> str_mem ":"%char j = false
}.

Lemma cleanupWorkers_unreachable env w k :
  pending_order env w -> gc_registry w !! k = None -> NoDup (waiting k w) ->
  let w' := (cleanupWorkers env w).2 in
  waiting k w' = filter (fun sid => retried k sid w < 3) (waiting k w) /\
  (forall sid, sid ∈ waiting k w -> gc_retries w' !! retryKey k sid = after_retry (retried k sid w)).
Proof.
  intros [Hnd Hall Hcol] Hn Hsids w'. subst w'. unfold cleanupWorkers. set (w0 := gc_with_pending (fun _ => ∅) w).
  assert (k ∉ filter (fun id => is_Some (gc_registry w0 !! id)) (ge_workers env)) as Hord.
  { rewrite list_elem_of_filter. intros [Hs _]. simpl in Hs. rewrite Hn in Hs. by destruct Hs. }
  assert (waiting k w0 = []) as Hw0 by (unfold waiting; simpl; by rewrite lookup_empty).
  destruct (gc_pending w !! k) as [l|] eqn:Hl.
  - assert (is_Some (gc_pending w !! k)) as Hs by (rewrite Hl; by eexists).
    destruct (retry_all env (gc_pending w) k Hcol Hs (ge_pending env) w0 Hnd (proj2 (Hall k) Hs)
      (fun j => proj1 (Hall j)) Hn Hsids) as (A & B & C).
    set (st := foldl _ (0, w0) (ge_pending env)) in *.
    destruct (connected_others env k _ st Hord) as (A' & B' & _).
    fold (waiting k w) in A, B |- *. split; [by rewrite A', A, Hw0|]. intros sid Hin. rewrite B'. by apply B.
  - assert (waiting k w = []) as Hw by (unfold waiting; by rewrite Hl). rewrite Hw.
    split; [|by intros sid ?%elem_of_nil]. rewrite filter_nil.
    set (st := foldl _ (0, w0) (ge_pending env)).
    destruct (connected_others env k _ st Hord) as (-> & _ & _).
    assert (forall order n w1, k ∉ order -> waiting k w1 = [] ->
      waiting k (foldl (fun st wid => foldl (retryCleanup (ge_env env) wid) st (default [] (gc_pending w !! wid))) (n, w1) order).2 = []) as Hgen.
    { induction order as [|j order IH]; intros n w1 Hni H1; [done|]. apply not_elem_of_cons in Hni as [Hne Hni].
      cbn [foldl]. set (sids := default [] (gc_pending w !! j)).
      pose proof (retries_elsewhere (ge_env env) j sids n (retryKey j <$> sids) w1
        (fun s Hs => list_elem_of_fmap_2 (retryKey j) sids s Hs)) as [A _ _].
      destruct (foldl (retryCleanup (ge_env env) j) (n, w1) sids) as [n2 w2]. apply IH; [done|].
      simpl in A. by rewrite A. }
    apply Hgen; [|done]. rewrite Hall, Hl. by intros [? ?].
Qed.

Definition session_old (now : Z) (s : Session) : Prop :=
  s_Status s = SessionStatusTerminated /\
  (s_UpdatedAt s < stored_time (now - parseDurationOrDefault (rt_SessionTTL retention) (168 * Hour)))%Z.
Definition execution_old (now : Z) (e : Execution) : Prop :=
  e_Status e ∈ [ExecStatusSuccess; ExecStatusFailed; ExecStatusCanceled] /\
  (e_UpdatedAt e < stored_time (now - parseDurationOrDefault (rt_ExecutionTTL retention) (72 * Hour)))%Z.
Definition token_old (now : Z) (t : WorkerToken) : Prop :=
  (tk_ExpiresAt t < stored_time (now - parseDurationOrDefault (rt_TokenTTL retention) (24 * Hour)))%Z.
(** The rows that refer to a session the sweep deletes go with it. *)
Definition session_gone (now : Z) (db : Db) (sid : string) : Prop :=
  exists s, map_rows (nd_sessions db) !! sid = Some s /\ session_old now s.

Lemma deleteWhere_lookup {A} (P : A -> bool) (t : gmap string A) id a :
  deleteWhere P t !! id = Some a <-> t !! id = Some a /\ P a = false.
Proof. unfold deleteWhere. by rewrite map_lookup_filter_Some. Qed.

(** The database of a sweep *)
Definition swept (now : Z) (db : Db) : Db :=
  tokenStmt retention now (executionStmt retention now (sessionStmt retention now db)).

Lemma old_bool (P Q : Prop) `{Decision P} (a b : Z) :
  (P <-> Q) -> bool_decide P && (a <? b)%Z = false <-> ~ (Q /\ (a < b)%Z).
Proof.
  intros HPQ. rewrite andb_false_iff, bool_decide_eq_false, Z.ltb_ge.
  destruct (decide P); [|naive_solver]. split; [intros [?|?]; [done|intros [_ ?]; lia]|].
  intros Hn. right. destruct (Z.le_gt_cases b a); [done|]. exfalso. apply Hn. naive_solver.
Qed.

Lemma swept_exact now db :
  (forall id s, nd_sessions (swept now db) !! id = Some s <->
     nd_sessions db !! id = Some s /\ ~ session_old now s) /\
  (forall id e, nd_executions (swept now db) !! id = Some e <->
     nd_executions db !! id = Some e /\ ~ execution_old now e /\ ~ session_gone now db (e_SessionID e)) /\
  (forall id c, nd_checkpoints (swept now db) !! id = Some c <->
     nd_checkpoints db !! id = Some c /\ ~ session_gone now db (cp_SessionID c)) /\
  (forall id t, nd_tokens (swept now db) !! id = Some t <-> nd_tokens db !! id = Some t /\ ~ token_old now t) /\
  nd_workers (swept now db) = nd_workers db /\ nd_services (swept now db) = nd_services db.
Proof.
  assert (forall sid, match map_rows (nd_sessions db) !! sid with
            | Some s => bool_decide (s_Status s = SessionStatusTerminated) &&
                (s_UpdatedAt s <? stored_time (now - parseDurationOrDefault (rt_SessionTTL retention) (168 * Hour)))%Z
            | None => false end = false <-> ~ session_gone now db sid) as Hgone.
  { intros sid. unfold session_gone. destruct (map_rows (nd_sessions db) !! sid) as [s|] eqn:Hs.
    - rewrite (old_bool _ (s_Status s = SessionStatusTerminated)) by done. split.
      + intros Hn (s' & Heq & Ho). by simplify_eq.
      + intros Hn Ho. apply Hn. by exists s.
    - split; [|done]. by intros _ (s & ? & _). }
  split_and!; [..|done|done].
  - intros id s. simpl. rewrite deleteWhere_lookup.
    rewrite (old_bool _ (s_Status s = SessionStatusTerminated)) by done. done.
  - intros id e. simpl. rewrite !deleteWhere_lookup, Hgone.
    rewrite (old_bool _ (e_Status e ∈ [ExecStatusSuccess; ExecStatusFailed; ExecStatusCanceled])) by done.
    unfold execution_old. tauto.
  - intros id c. simpl. by rewrite deleteWhere_lookup, Hgone.
  - intros id t. simpl. rewrite deleteWhere_lookup. unfold token_old. by rewrite Z.ltb_ge, Z.nlt_ge.
Qed.

End Exact.

(** ** Examples and what they show *)

Section Runs.
#[local] Existing Instance postgresQueries.

Definition demoWorkerConn : WorkerConn :=
  mkConn (mkWorker "w" "" "" "" "" "" "" WorkerStatusReady ∅ (mkCapacity 1 1 1) "" true 0 0 0) [] 0 (mkUsage fzero 0 0).
Definition demoDb : Db :=
  nd_with_tokens {["t" := demoToken "t" 0]}
    (nd_with_sessions
       (<["old" := demoSession "old" SessionStatusTerminated]>
        {["run" := demoSession "run" SessionStatusRunning]}) emptyDb).
Definition demoGc : GcWorld := mkGc demoDb {["w" := demoWorkerConn]} sample_new {["w" := ["gone"]]} ∅ None.
Definition demoGcRetention : RetentionConfig := mkRetention "168h" "72h" "24h" "720h".
(** A sweep at a number of hours *)
Definition demoEnvAt (hours : Z) : GcEnv :=
  mkGcEnv (mkEnv (hours * Hour) (fun _ => 0)) (fun _ => true) (fun _ => true) (fun _ => false) ["w"] ["w"] [].
Definition demoSweep (hours : Z) : SweepResult * GcWorld := Sweep "/d" demoGcRetention (demoEnvAt hours) demoGc.
Definition queue_of (w : GcWorld) : option (list WorkerCommand) := wc_CmdChan <$> gc_registry w !! "w".

(** A terminated session that is not yet a week old gets its stop, with the one that was
    waiting; a week later its row goes first, and only the one that waited is stopped.
    Every further sweep stops it again. *)
Lemma sweep_examples :
  sr_SessionsPurged (demoSweep 100).1 = 0 /\
  queue_of (demoSweep 100).2 = Some [CStopSessionData "gone"; CStopSessionData "old"] /\
  queue_of (Sweep "/d" demoGcRetention (demoEnvAt 101) (demoSweep 100).2).2
    = Some [CStopSessionData "gone"; CStopSessionData "old"; CStopSessionData "old"].
Proof. vm_compute. by split_and!. Qed.

Lemma purged_before_cleanup :
  sr_SessionsPurged (demoSweep 200).1 = 1 /\ sr_TokensPurged (demoSweep 200).1 = 1 /\
  queue_of (demoSweep 200).2 = Some [CStopSessionData "gone"].
Proof. vm_compute. by split_and!. Qed.

(** A cleanup for a worker that is gone: it waits on after three sweeps and is given up by
    the fourth. *)
Lemma given_up_at_fourth :
  let sweep w := (Sweep "/d" demoGcRetention (demoEnvAt 100) w).2 in
  let w0 := gc_with_registry ∅ demoGc in
  waiting "w" (sweep (sweep (sweep w0))) = ["gone"] /\
  retried "w" "gone" (sweep (sweep (sweep w0))) = 3 /\
  waiting "w" (sweep (sweep (sweep (sweep w0)))) = [].
Proof. vm_compute. by split_and!. Qed.

(** [SweepDryRun] announces no token and no execution. *)
Lemma dry_run_omits hours :
  sr_TokensPurged (SweepDryRun demoGcRetention (demoEnvAt hours) demoGc) = 0 /\
  sr_ExecutionsPurged (SweepDryRun demoGcRetention (demoEnvAt hours) demoGc) = 0.
Proof. done. Qed.

(** The type assertions of [LocalWorker.handleCommand]: the payload of [stop_session] has
    to be a map of strings. *)
Definition stop_payload_ok (cmd : WorkerCommand) : bool :=
  match cmd with CStopSessionData _ => false | _ => true end.

Lemma sweep_panics_local_worker :
  exists q, queue_of (demoSweep 100).2 = Some q /\ existsb (fun cmd => negb (stop_payload_ok cmd)) q = true.
Proof. eexists. split; [vm_compute; reflexivity|by vm_compute]. Qed.
End Runs.

(** With the queries of the SQLite store no session is ever listed, and a sweep that has
    nothing waiting sends nothing. *)
Section Sqlite.
#[local] Existing Instance sqliteQueries.

Lemma sqlite_sends_nothing env w : gc_pending w = ∅ ->
  gc_registry (cleanupWorkers env w).2 = gc_registry w.
Proof.
  intros Hp. unfold cleanupWorkers. rewrite Hp.
  assert (forall l st, foldl (fun st wid => foldl (retryCleanup (ge_env env) wid) st
            (default [] ((∅ : gmap string (list string)) !! wid))) st l = st) as ->.
  { induction l as [|wid l IH]; intros st; [done|]. cbn [foldl]. by rewrite lookup_empty. }
  generalize (filter (fun id => is_Some (gc_registry (gc_with_pending (fun _ => ∅) w) !! id)) (ge_workers env)).
  intros order. set (st := (0, gc_with_pending (fun _ => ∅) w)).
  assert (cleanupConnected env order st = st) as ->; [|done].
  induction order as [|wid order IH]; [done|]. cbn [cleanupConnected].
  destruct (negb (ge_alive_at env wid)); [done|]. simpl ses_ListByWorker.
  rewrite sqliteListByWorker_empty. exact IH.
Qed.
End Sqlite.

