(* ===== verification/Tasks.v ===== *)
(** * One-time tasks ([src/internal/controlplane/task/manager.go])

    The task record ([src/internal/loka/task.go]), its rows
    ([src/internal/store/sqlite/tasks.go]) and the manager: a goroutine per task pulls the
    image, sends the launch and looks at the row until the task ends.  A step is a
    statement of the store or a command sent; goroutines, calls of the API and the workers
    interleave.  Statements do not fail but for a duplicate key.  What the image manager
    answers and the order in which the store visits rows are arguments. *)

From stdpp Require Import options sorting.
From S2P Require Import Prelude Effects GoStrings Words Entities Store Services Registry Scheduler.
Open Scope nat_scope.

(** ** The record and its rows *)

Inductive TaskStatus :=
  | TaskStatusPending | TaskStatusRunning | TaskStatusSuccess | TaskStatusFailed | TaskStatusError.
#[global] Instance TaskStatus_eq_dec : EqDecision TaskStatus.
Proof. solve_decision. Defined.

(** [RunOpts]: the fields a task shares with it are kept as this record. *)
Record RunOpts := mkRunOpts {
  ro_Name : string;
  ro_ImageRef : string;
  ro_Command : string;
  ro_Args : list string;
  ro_Env : gmap string string;
  ro_Workdir : string;
  ro_VCPUs : Z;
  ro_MemoryMB : Z;
  ro_Mounts : list Volume;
  ro_Timeout : Z
}.

Record Task := mkTask {
  ta_ID : string;
  ta_opts : RunOpts;
  ta_Status : TaskStatus;
  ta_ExitCode : Z;
  ta_WorkerID : string;
  ta_BundleKey : string;
  ta_StatusMessage : string;
  ta_StartedAt : Z;
  ta_CompletedAt : Z;
  ta_CreatedAt : Z;
  ta_UpdatedAt : Z
}.

Definition ta_mark (st : TaskStatus) (t : Task) : Task :=
  mkTask (ta_ID t) (ta_opts t) st (ta_ExitCode t) (ta_WorkerID t) (ta_BundleKey t)
    (ta_StatusMessage t) (ta_StartedAt t) (ta_CompletedAt t) (ta_CreatedAt t) (ta_UpdatedAt t).
Definition ta_exit (code : Z) (t : Task) : Task :=
  mkTask (ta_ID t) (ta_opts t) (ta_Status t) code (ta_WorkerID t) (ta_BundleKey t)
    (ta_StatusMessage t) (ta_StartedAt t) (ta_CompletedAt t) (ta_CreatedAt t) (ta_UpdatedAt t).
Definition ta_place (workerID : string) (t : Task) : Task :=
  mkTask (ta_ID t) (ta_opts t) (ta_Status t) (ta_ExitCode t) workerID (ta_BundleKey t)
    (ta_StatusMessage t) (ta_StartedAt t) (ta_CompletedAt t) (ta_CreatedAt t) (ta_UpdatedAt t).
Definition ta_say (message : string) (t : Task) : Task :=
  mkTask (ta_ID t) (ta_opts t) (ta_Status t) (ta_ExitCode t) (ta_WorkerID t) (ta_BundleKey t)
    message (ta_StartedAt t) (ta_CompletedAt t) (ta_CreatedAt t) (ta_UpdatedAt t).
Definition ta_start (now : Z) (t : Task) : Task :=
  mkTask (ta_ID t) (ta_opts t) (ta_Status t) (ta_ExitCode t) (ta_WorkerID t) (ta_BundleKey t)
    (ta_StatusMessage t) now (ta_CompletedAt t) (ta_CreatedAt t) (ta_UpdatedAt t).
Definition ta_complete (now : Z) (t : Task) : Task :=
  mkTask (ta_ID t) (ta_opts t) (ta_Status t) (ta_ExitCode t) (ta_WorkerID t) (ta_BundleKey t)
    (ta_StatusMessage t) (ta_StartedAt t) now (ta_CreatedAt t) (ta_UpdatedAt t).
Definition ta_touch (now : Z) (t : Task) : Task :=
  mkTask (ta_ID t) (ta_opts t) (ta_Status t) (ta_ExitCode t) (ta_WorkerID t) (ta_BundleKey t)
    (ta_StatusMessage t) (ta_StartedAt t) (ta_CompletedAt t) (ta_CreatedAt t) now.

(** [Duration]: zero before the start, up to now while the task has not completed. *)
Definition Duration (now : Z) (t : Task) : Z :=
  if (ta_StartedAt t =? 0)%Z then 0%Z
  else ((if (ta_CompletedAt t =? 0)%Z then now else ta_CompletedAt t) - ta_StartedAt t)%Z.

(** What is read back of a row: times lose their fraction, and a zero time is the empty
    text, which does not parse and leaves zero. *)
Definition savedTask (t : Task) : Task :=
  mkTask (ta_ID t) (ta_opts t) (ta_Status t) (ta_ExitCode t) (ta_WorkerID t) (ta_BundleKey t)
    (ta_StatusMessage t) (parse_rfc3339 (rfc3339 (ta_StartedAt t)))
    (parse_rfc3339 (rfc3339 (ta_CompletedAt t))) (parse_rfc3339 (rfc3339 (ta_CreatedAt t)))
    (parse_rfc3339 (rfc3339 (ta_UpdatedAt t))).

Abbreviation TaskTable := (gmap string Task).

Definition createTask (t : Task) (tbl : TaskTable) : result StoreError TaskTable :=
  match tbl !! ta_ID t with
  | Some _ => Err ErrConstraint
  | None => Ok (<[ta_ID t := savedTask t]> tbl)
  end.

(** [UPDATE .. WHERE id = ?] has no column for the creation. *)
Definition updateTask (t : Task) (tbl : TaskTable) : TaskTable :=
  alter (fun old => savedTask (mkTask (ta_ID t) (ta_opts t) (ta_Status t) (ta_ExitCode t)
    (ta_WorkerID t) (ta_BundleKey t) (ta_StatusMessage t) (ta_StartedAt t) (ta_CompletedAt t)
    (ta_CreatedAt old) (ta_UpdatedAt t))) (ta_ID t) tbl.

(** [WHERE id = ? OR name = ?] *)
Definition task_named (id : string) (t : Task) : bool :=
  String.eqb (ta_ID t) id || String.eqb (ro_Name (ta_opts t)) id.
Definition getTask (order : list string) (id : string) (tbl : TaskTable) : result StoreError Task :=
  match List.find (task_named id) (omap (fun k => tbl !! k) order) with
  | Some t => Ok t
  | None => Err ErrNotFound
  end.
Definition deleteTask (id : string) (tbl : TaskTable) : TaskTable :=
  filter (fun e => task_named id e.2 = false) tbl.

Record TaskFilter := mkTaskFilter {
  tf_Status : option TaskStatus;
  tf_Name : option string;
  tf_Limit : Z;
  tf_Offset : Z
}.
Definition taskWhere (f : TaskFilter) (t : Task) : bool :=
  match tf_Status f with Some s => bool_decide (ta_Status t = s) | None => true end
  && whereEq (tf_Name f) (ro_Name (ta_opts t)).
Definition newerTask (a b : Task) : Prop := (ta_CreatedAt b <= ta_CreatedAt a)%Z.
#[global] Instance newerTask_dec a b : Decision (newerTask a b).
Proof. unfold newerTask. apply _. Defined.
(** As for sessions, [OFFSET] alone is a syntax error. *)
Definition listTasks (order : list string) (f : TaskFilter) (tbl : TaskTable) : result StoreError (list Task) :=
  let rows := merge_sort newerTask (filter (fun t => taskWhere f t = true) (omap (fun k => tbl !! k) order)) in
  if (0 <? tf_Limit f)%Z then
    Ok (take (Z.to_nat (tf_Limit f))
          (if (0 <? tf_Offset f)%Z then drop (Z.to_nat (tf_Offset f)) rows else rows))
  else if (0 <? tf_Offset f)%Z then Err ErrConstraint
  else Ok rows.

(** ** The manager *)

(** Where the goroutine of a task is: about to pull, waiting for the image, about to
    record the start, about to send the launch, about to record that it was sent, looking
    at the row until a deadline, or at its end. *)
Inductive TaskPhase :=
  | TkStart
  | TkPull
  | TkLaunch (rootfsPath : string)
  | TkSend (rootfsPath : string)
  | TkSent
  | TkMonitor (deadline : Z)
  | TkDone.

(** The goroutine works on its own copy of the record. *)
Record TaskThread := mkThread { tt_task : Task; tt_phase : TaskPhase }.

(** [tw_sent] is the history of the commands that were sent. *)
Record TaskWorld := mkTaskWorld {
  tw_tasks : TaskTable;
  tw_registry : gmap string WorkerConn;
  tw_threads : gmap string TaskThread;
  tw_sent : list (string * WorkerCommand)
}.
Definition tw_with_tasks f (w : TaskWorld) : TaskWorld :=
  mkTaskWorld (f (tw_tasks w)) (tw_registry w) (tw_threads w) (tw_sent w).
Definition tw_with_registry r (w : TaskWorld) : TaskWorld :=
  mkTaskWorld (tw_tasks w) r (tw_threads w) (tw_sent w).
Definition tw_with_threads f (w : TaskWorld) : TaskWorld :=
  mkTaskWorld (tw_tasks w) (tw_registry w) (f (tw_threads w)) (tw_sent w).
Definition tw_log wid cmd (w : TaskWorld) : TaskWorld :=
  mkTaskWorld (tw_tasks w) (tw_registry w) (tw_threads w) (tw_sent w ++ [(wid, cmd)]).

Inductive TaskError :=
  | ETaskImage | ETaskCommand | ETaskCreate (e : StoreError) | ETaskSchedule (e : MgrError)
  | ETaskNotFound | ETaskAlready (st : TaskStatus) | ETaskCancel (st : TaskStatus).

(** [m.store.Tasks().Update(ctx, task)] stamps the record it is given. *)
Definition saveTask (now : Z) (t : Task) (w : TaskWorld) : Task * TaskWorld :=
  let t := ta_touch now t in (t, tw_with_tasks (updateTask t) w).

(** [m.registry.SendCommand] *)
Definition sendTask (env : Env) (wid : string) (cmd : WorkerCommand) (w : TaskWorld)
    : result MgrError unit * TaskWorld :=
  match SendCommand env wid cmd (mkCP tt tt tt tt (tw_registry w)) with
  | (cp, Ret _) => (Ok tt, tw_log wid cmd (tw_with_registry (cp_registry cp) w))
  | (cp, Fail e) => (Err e, tw_with_registry (cp_registry cp) w)
  | (cp, Stuck) => (Err ENoWorker, tw_with_registry (cp_registry cp) w)
  end.

Definition activeStatus (st : TaskStatus) : bool :=
  bool_decide (st = TaskStatusRunning) || bool_decide (st = TaskStatusPending).

(** [recoverStuckTasks], on the rows of one status *)
Definition recoverTask (now : Z) (w : TaskWorld) (t : Task) : TaskWorld :=
  if (ta_CreatedAt t <? now - 10 * Minute)%Z then
    (saveTask now (ta_complete now (ta_say "interrupted by restart" (ta_mark TaskStatusError t))) w).2
  else w.
Definition recoverStatus (now : Z) (order : list string) (w : TaskWorld) (st : TaskStatus) : TaskWorld :=
  match listTasks order (mkTaskFilter (Some st) None 0 0) (tw_tasks w) with
  | Ok tasks => foldl (recoverTask now) w tasks
  | Err _ => w
  end.
Definition recoverStuckTasks (now : Z) (order : list string) (w : TaskWorld) : TaskWorld :=
  foldl (recoverStatus now order) w [TaskStatusRunning; TaskStatusPending].

(** [NewManager]: the goroutines of the manager before it are gone. *)
Definition NewTaskManager (now : Z) (order : list string) (tbl : TaskTable)
    (registry : gmap string WorkerConn) : TaskWorld :=
  recoverStuckTasks now order (mkTaskWorld tbl registry ∅ []).

Section Manager.
Context (images : bool) (strategy : string) (errText : MgrError -> string).

(** The record of [Run] *)
Definition newTask (now : Z) (uuid : string) (opts : RunOpts) : Task :=
  mkTask uuid
    (mkRunOpts (if String.eqb (ro_Name opts) "" then "task-" +:+ take_str 8 uuid else ro_Name opts)
       (ro_ImageRef opts) (ro_Command opts) (ro_Args opts) (ro_Env opts) (ro_Workdir opts)
       (if (ro_VCPUs opts =? 0)%Z then 1 else ro_VCPUs opts)
       (if (ro_MemoryMB opts =? 0)%Z then 512 else ro_MemoryMB opts)
       (ro_Mounts opts) (ro_Timeout opts))
    TaskStatusPending 0 "" "" "" 0 0 now now.

Definition anyWorker : Constraints := mkConstraints ∅ "" "" [] [].

(** [Run]; [candidates] are the workers in the order of the registry. *)
Definition RunTask (now : Z) (uuid : string) (candidates : list WorkerConn) (opts : RunOpts) (w : TaskWorld)
    : TaskWorld * result TaskError Task :=
  if String.eqb (ro_ImageRef opts) "" then (w, Err ETaskImage)
  else if String.eqb (ro_Command opts) "" then (w, Err ETaskCommand)
  else
    let t := newTask now uuid opts in
    match createTask t (tw_tasks w) with
    | Err e => (w, Err (ETaskCreate e))
    | Ok tbl =>
        let w := tw_with_tasks (fun _ => tbl) w in
        match Pick strategy anyWorker candidates with
        | Err e =>
            let '(_, w) := saveTask now (ta_say "no workers available" (ta_mark TaskStatusError t)) w in
            (w, Err (ETaskSchedule e))
        | Ok wc =>
            let t := ta_place (w_ID (wc_Worker wc)) t in
            (tw_with_threads <[uuid := mkThread t TkStart]> w, Ok t)
        end
    end.

Definition launchDataOf (t : Task) (rootfsPath : string) : LaunchServiceData :=
  let o := ta_opts t in
  mkLaunchService (ta_ID t) (ro_ImageRef o) (ro_VCPUs o) (ro_MemoryMB o) rootfsPath "" (ro_Command o)
    (ro_Args o) (ro_Env o) (ro_Workdir o) 0 "" "never" (ro_Mounts o) "" "" false "".

(** [monitorTask]'s deadline *)
Definition taskTimeout (t : Task) : Z :=
  let timeout := s64 (ro_Timeout (ta_opts t) * Second) in
  if (timeout =? 0)%Z then Hour else timeout.

(** What a step of a goroutine may find: the clock and the rooms in the channels, what
    the image manager answers (the text of an error, or the path of the root when it was
    resolved), and the order of the rows. *)
Record TaskEnv := mkTaskEnv {
  te_env : Env;
  te_pull : string + option string;
  te_order : list string
}.

(** One step of [asyncRun] and [monitorTask]. *)
Definition threadTurn (env : TaskEnv) (th : TaskThread) (w : TaskWorld) : TaskThread * TaskWorld :=
  let now := env_now (te_env env) in
  let t := tt_task th in
  match tt_phase th with
  | TkStart =>
      if images then
        let '(t, w) := saveTask now (ta_say "pulling image" t) w in (mkThread t TkPull, w)
      else (mkThread t (TkLaunch ""), w)
  | TkPull =>
      match te_pull env with
      | inl err =>
          let '(t, w) := saveTask now (ta_say ("image pull failed: " +:+ err) (ta_mark TaskStatusError t)) w in
          (mkThread t TkDone, w)
      | inr rp => (mkThread t (TkLaunch (default "" rp)), w)
      end
  | TkLaunch rootfsPath =>
      let '(t, w) := saveTask now (ta_say "starting" (ta_start now (ta_mark TaskStatusRunning t))) w in
      (mkThread t (TkSend rootfsPath), w)
  | TkSend rootfsPath =>
      match sendTask (te_env env) (ta_WorkerID t) (CLaunchService (launchDataOf t rootfsPath)) w with
      | (Ok _, w) => (mkThread t TkSent, w)
      | (Err e, w) =>
          let '(t, w) := saveTask now (ta_say ("launch failed: " +:+ errText e) (ta_mark TaskStatusError t)) w in
          (mkThread t TkDone, w)
      end
  | TkSent =>
      let '(t, w) := saveTask now (ta_say "running" t) w in
      (mkThread t (TkMonitor (now + taskTimeout t)), w)
  | TkMonitor deadline =>
      if (deadline <? now)%Z then
        let '(t, w) := saveTask now
          (ta_complete now (ta_say "timeout" (ta_exit (-1) (ta_mark TaskStatusFailed t)))) w in
        let '(_, w) := sendTask (te_env env) (ta_WorkerID t) (CStopSession (ta_ID t)) w in
        (mkThread t TkDone, w)
      else if bool_decide (tw_registry w !! ta_WorkerID t = None) then
        let '(t, w) := saveTask now
          (ta_complete now (ta_say "worker disconnected" (ta_mark TaskStatusError t))) w in
        (mkThread t TkDone, w)
      else
        match getTask (te_order env) (ta_ID t) (tw_tasks w) with
        | Ok row => if activeStatus (ta_Status row) then (th, w) else (mkThread t TkDone, w)
        | Err _ => (th, w)
        end
  | TkDone => (th, w)
  end.

Definition runTurn (env : TaskEnv) (id : string) (w : TaskWorld) : TaskWorld :=
  match tw_threads w !! id with
  | Some th => let '(th, w) := threadTurn env th w in tw_with_threads <[id := th]> w
  | None => w
  end.

(** [Cancel] *)
Definition CancelTask (env : Env) (order : list string) (id : string) (w : TaskWorld)
    : TaskWorld * result TaskError unit :=
  match getTask order id (tw_tasks w) with
  | Err _ => (w, Err ETaskNotFound)
  | Ok t =>
      if negb (activeStatus (ta_Status t)) then (w, Err (ETaskCancel (ta_Status t)))
      else
        let w := if String.eqb (ta_WorkerID t) "" then w
                 else (sendTask env (ta_WorkerID t) (CStopSession (ta_ID t)) w).2 in
        let '(_, w) := saveTask (env_now env)
          (ta_complete (env_now env) (ta_say "cancelled" (ta_exit (-1) (ta_mark TaskStatusFailed t)))) w in
        (w, Ok tt)
  end.

(** [Delete] *)
Definition DeleteTask (env : Env) (order : list string) (id : string) (w : TaskWorld)
    : TaskWorld * result TaskError unit :=
  match getTask order id (tw_tasks w) with
  | Err _ => (w, Err ETaskNotFound)
  | Ok t =>
      let w := if bool_decide (ta_Status t = TaskStatusRunning) then (CancelTask env order id w).1 else w in
      (tw_with_tasks (deleteTask id) w, Ok tt)
  end.

(** [Restart] *)
Definition RestartTask (now : Z) (uuid : string) (candidates : list WorkerConn) (order : list string)
    (id : string) (w : TaskWorld) : TaskWorld * result TaskError Task :=
  match getTask order id (tw_tasks w) with
  | Err _ => (w, Err ETaskNotFound)
  | Ok t =>
      if activeStatus (ta_Status t) then (w, Err (ETaskAlready (ta_Status t)))
      else RunTask now uuid candidates (ta_opts t) w
  end.
End Manager.

(** ** The system: the manager's calls, its goroutines and the workers *)

(** Identifiers are fresh, and no task is given the identifier of another as its name. *)
Definition id_free (uuid name : string) (w : TaskWorld) : Prop :=
  tw_threads w !! uuid = None /\ name <> uuid /\ tw_threads w !! name = None /\
  map_Forall (fun _ t => ro_Name (ta_opts t) <> uuid) (tw_tasks w).

Definition task_order (order : list string) (w : TaskWorld) : Prop :=
  NoDup order /\ forall k, k ∈ order <-> is_Some (tw_tasks w !! k).

Section System.
Context (images : bool) (strategy : string) (errText : MgrError -> string).

Inductive task_step : TaskWorld -> TaskWorld -> Prop :=
  | ts_run now uuid candidates opts w :
      candidates ≡ₚ (map_to_list (tw_registry w)).*2 ->
      id_free uuid (ro_Name (ta_opts (newTask now uuid opts))) w ->
      task_step w (RunTask strategy now uuid candidates opts w).1
  | ts_restart now uuid candidates order id w :
      candidates ≡ₚ (map_to_list (tw_registry w)).*2 -> task_order order w ->
      (forall t, getTask order id (tw_tasks w) = Ok t ->
         id_free uuid (ro_Name (ta_opts (newTask now uuid (ta_opts t)))) w) ->
      task_step w (RestartTask strategy now uuid candidates order id w).1
  | ts_turn env id w : task_order (te_order env) w -> task_step w (runTurn images errText env id w)
  | ts_cancel env order id w : task_order order w -> task_step w (CancelTask env order id w).1
  | ts_delete env order id w : task_order order w -> task_step w (DeleteTask env order id w).1
  | ts_workers r w : task_step w (tw_with_registry r w).

(** The launches of a task that were sent *)
Definition is_launch (id : string) (e : string * WorkerCommand) : bool :=
  match e.2 with CLaunchService d => String.eqb (lv_ServiceID d) id | _ => false end.
Definition launches (id : string) (w : TaskWorld) : list (string * WorkerCommand) :=
  filter (fun e => is_launch id e = true) (tw_sent w).

(** *** What the statements do to rows *)

Definition updated (t old : Task) : Task :=
  savedTask (mkTask (ta_ID t) (ta_opts t) (ta_Status t) (ta_ExitCode t) (ta_WorkerID t) (ta_BundleKey t)
    (ta_StatusMessage t) (ta_StartedAt t) (ta_CompletedAt t) (ta_CreatedAt old) (ta_UpdatedAt t)).

Lemma updateTask_lookup t tbl k :
  updateTask t tbl !! k = if decide (k = ta_ID t) then updated t <$> tbl !! k else tbl !! k.
Proof.
  unfold updateTask. destruct (decide (k = ta_ID t)) as [->|Hk]; [by rewrite lookup_alter_eq|by rewrite lookup_alter_ne].
Qed.

Lemma sendTask_frame env wid cmd w :
  exists r b, sendTask env wid cmd w = (r, b) /\ tw_tasks b = tw_tasks w /\ tw_threads b = tw_threads w /\
    tw_sent b = tw_sent w ++ match r with Ok _ => [(wid, cmd)] | Err _ => [] end.
Proof.
  unfold sendTask. destruct (SendCommand env wid cmd _) as [cp [u|e|]]; do 2 eexists; (split; [reflexivity|]); simpl;
    by rewrite ?app_nil_r.
Qed.

Lemma omap_rows (order : list string) (tbl : TaskTable) k t :
  (forall k, k ∈ order <-> is_Some (tbl !! k)) -> tbl !! k = Some t -> t ∈ omap (fun k => tbl !! k) order.
Proof. intros Ho Hk. apply list_elem_of_omap. exists k. split; [apply Ho; by eexists|done]. Qed.

Lemma getTask_Ok order id (tbl : TaskTable) t :
  getTask order id tbl = Ok t -> task_named id t = true /\ exists k, k ∈ order /\ tbl !! k = Some t.
Proof.
  unfold getTask. destruct (List.find _ _) as [t'|] eqn:Hf; [|done]. intros [= ->].
  apply List.find_some in Hf as [Hin Hn]. split; [done|].
  apply list_elem_of_In, list_elem_of_omap in Hin as (k & Hk & Hl). by exists k.
Qed.

(** With names apart from identifiers, a task is found by its identifier. *)
Lemma getTask_id order id (tbl : TaskTable) t :
  map_Forall (fun k t => ta_ID t = k) tbl -> map_Forall (fun _ t => ro_Name (ta_opts t) <> id) tbl ->
  getTask order id tbl = Ok t -> tbl !! id = Some t.
Proof.
  intros Hk Hn (Hid & k & _ & Hl)%getTask_Ok. unfold task_named in Hid.
  apply orb_true_iff in Hid as [Heq%String.eqb_eq|Heq%String.eqb_eq].
  - rewrite <-Heq. by rewrite (Hk _ _ Hl).
  - by destruct (Hn _ _ Hl).
Qed.

(** *** The invariant *)

Definition phase_launches (p : TaskPhase) (t : Task) (l : list (string * WorkerCommand)) : Prop :=
  let sent := exists rp, l = [(ta_WorkerID t, CLaunchService (launchDataOf t rp))] in
  match p with
  | TkStart | TkPull | TkLaunch _ | TkSend _ => l = []
  | TkSent | TkMonitor _ => sent
  | TkDone => l = [] \/ sent
  end.

Record thread_ok (w : TaskWorld) (id : string) (th : TaskThread) : Prop := {
  tho_id : ta_ID (tt_task th) = id;
  tho_launch : phase_launches (tt_phase th) (tt_task th) (launches id w);
  tho_row row : tw_tasks w !! id = Some row ->
    ta_opts row = ta_opts (tt_task th) /\ (activeStatus (ta_Status row) = true -> tt_phase th <> TkDone)
}.

Record task_inv (T0 : TaskTable) (w : TaskWorld) : Prop := {
  ti_key k row : tw_tasks w !! k = Some row -> ta_ID row = k;
  ti_name k row : tw_tasks w !! k = Some row -> tw_threads w !! ro_Name (ta_opts row) = None;
  ti_thread id th : tw_threads w !! id = Some th -> thread_ok w id th;
  ti_orphan k row : tw_tasks w !! k = Some row -> tw_threads w !! k = None ->
    activeStatus (ta_Status row) = true -> exists row0, T0 !! k = Some row0 /\ activeStatus (ta_Status row0) = true;
  ti_sent id : tw_threads w !! id = None -> launches id w = []
}.

(** One turn of a goroutine, as the rest of the system sees it. *)
Lemma threadTurn_spec env th w th' w' :
  (forall row, getTask (te_order env) (ta_ID (tt_task th)) (tw_tasks w) = Ok row ->
     tw_tasks w !! ta_ID (tt_task th) = Some row) ->
  threadTurn images errText env th w = (th', w') ->
  let t := tt_task th in
  ta_ID (tt_task th') = ta_ID t /\ ta_opts (tt_task th') = ta_opts t /\ ta_WorkerID (tt_task th') = ta_WorkerID t /\
  tw_threads w' = tw_threads w /\
  (forall k, k <> ta_ID t -> tw_tasks w' !! k = tw_tasks w !! k) /\
  (forall row', tw_tasks w' !! ta_ID t = Some row' -> exists row, tw_tasks w !! ta_ID t = Some row /\
     (row' = row \/ ta_ID row' = ta_ID t /\ ta_opts row' = ta_opts t) /\
     (tt_phase th' = TkDone -> tt_phase th = TkDone /\ row' = row \/ activeStatus (ta_Status row') = false)) /\
  (forall id, id <> ta_ID t -> launches id w' = launches id w) /\
  (phase_launches (tt_phase th) t (launches (ta_ID t) w) ->
   phase_launches (tt_phase th') (tt_task th') (launches (ta_ID t) w')).
Proof.
  intros Hget Hturn t.
  assert (forall f (w0 : TaskWorld), ta_ID (f t) = ta_ID t -> ta_opts (f t) = ta_opts t ->
    let w1 := (saveTask (env_now (te_env env)) (f t) w0).2 in
    (forall k, k <> ta_ID t -> tw_tasks w1 !! k = tw_tasks w0 !! k) /\
    (forall row', tw_tasks w1 !! ta_ID t = Some row' -> exists row, tw_tasks w0 !! ta_ID t = Some row /\
       ta_ID row' = ta_ID t /\ ta_opts row' = ta_opts t /\ ta_Status row' = ta_Status (f t))) as Hsave.
  { intros f w0 Hid Ho w1. unfold w1, saveTask. simpl. split.
    - intros k Hk. rewrite updateTask_lookup. simpl. rewrite Hid. by rewrite decide_False.
    - intros row'. rewrite updateTask_lookup. simpl. rewrite Hid, decide_True by done.
      destruct (tw_tasks w0 !! ta_ID t) as [row|]; [|done]. simpl. intros [= <-]. by exists row. }
  destruct th as [t0 p]. cbn [tt_task tt_phase] in *. subst t. unfold threadTurn in Hturn. cbn [tt_task tt_phase] in Hturn.
  destruct p as [| |rp|rp| |d|].
  - destruct images; simplify_eq/=.
    + destruct (Hsave (ta_say "pulling image") w) as [H1 H2]; [done..|]. split_and!; try done.
      intros row' Hr. destruct (H2 row' Hr) as (row & ? & ? & ? & ?). exists row. split_and!; [done|by right|done].
    + split_and!; try done. intros row' Hr. exists row'. split_and!; [done|by left|done].
  - destruct (te_pull env) as [err|rp]; simplify_eq/=.
    + destruct (Hsave (fun t => ta_say ("image pull failed: " +:+ err) (ta_mark TaskStatusError t)) w) as [H1 H2]; [done..|].
      split_and!; try done.
      * intros row' Hr. destruct (H2 row' Hr) as (row & ? & ? & ? & Hst). exists row. split_and!; [done|by right|].
        intros _. right. by rewrite Hst.
      * intros Hl. by left.
    + split_and!; try done. intros row' Hr. exists row'. split_and!; [done|by left|done].
  - simplify_eq/=. destruct (Hsave (fun t => ta_say "starting" (ta_start (env_now (te_env env)) (ta_mark TaskStatusRunning t))) w)
      as [H1 H2]; [done..|]. split_and!; try done.
    intros row' Hr. destruct (H2 row' Hr) as (row & ? & ? & ? & ?). exists row. split_and!; [done|by right|done].
  - destruct (sendTask_frame (te_env env) (ta_WorkerID t0) (CLaunchService (launchDataOf t0 rp)) w)
      as (r & b & Hs & Htasks & Hthr & Hsent). rewrite Hs in Hturn. destruct r as [[]|e]; simplify_eq/=.
    + unfold launches. rewrite Htasks, Hsent. split_and!; try done.
      * intros row' Hr. exists row'. split_and!; [done|by left|done].
      * intros id Hid. rewrite filter_app, filter_cons_False; [by rewrite app_nil_r|].
        unfold is_launch. simpl. intros ?%String.eqb_eq. done.
      * intros Hl. exists rp. rewrite filter_app. rewrite Hl, filter_cons_True; [done|]. apply String.eqb_refl.
    + destruct (Hsave (fun t => ta_say ("launch failed: " +:+ errText e) (ta_mark TaskStatusError t)) b) as [H1 H2]; [done..|].
      unfold launches. simpl in H1, H2 |- *. rewrite Htasks in H1, H2 |- *. rewrite Hsent, app_nil_r. split_and!; try done.
      * intros row' Hr. destruct (H2 row' Hr) as (row & ? & ? & ? & Hst). exists row. split_and!; [done|by right|].
        intros _. right. by rewrite Hst.
      * intros Hl. by left.
  - simplify_eq/=. destruct (Hsave (ta_say "running") w) as [H1 H2]; [done..|]. split_and!; try done.
    intros row' Hr. destruct (H2 row' Hr) as (row & ? & ? & ? & ?). exists row. split_and!; [done|by right|done].
  - destruct (d <? _)%Z.
    + destruct (saveTask _ _ w) as [t1 w1] eqn:Hsv. injection Hsv as <- <-.
      destruct (sendTask_frame (te_env env) (ta_WorkerID t0) (CStopSession (ta_ID t0))
        (tw_with_tasks (updateTask (ta_touch (env_now (te_env env)) (ta_complete (env_now (te_env env))
           (ta_say "timeout" (ta_exit (-1) (ta_mark TaskStatusFailed t0)))))) w)) as (r & b & Hs & Htasks & Hthr & Hsent).
      simpl in Hturn. rewrite Hs in Hturn. simplify_eq/=.
      destruct (Hsave (fun t => ta_complete (env_now (te_env env)) (ta_say "timeout" (ta_exit (-1) (ta_mark TaskStatusFailed t)))) w)
        as [H1 H2]; [done..|]. simpl in H1, H2. rewrite <-Htasks in H1, H2.
      assert (forall id, launches id w' = launches id w) as Hl.
      { intros id. unfold launches. rewrite Hsent, filter_app. destruct r; [rewrite filter_cons_False|]; by rewrite ?app_nil_r. }
      split_and!; try done.
      * intros row' Hr. destruct (H2 row' Hr) as (row & ? & ? & ? & Hst). exists row. split_and!; [done|by right|].
        intros _. right. by rewrite Hst.
      * rewrite Hl. intros (rp & ->). right. by exists rp.
    + case_bool_decide; simplify_eq/=.
      * destruct (Hsave (fun t => ta_complete (env_now (te_env env)) (ta_say "worker disconnected" (ta_mark TaskStatusError t))) w)
          as [H1 H2]; [done..|]. split_and!; try done.
        { intros row' Hr. destruct (H2 row' Hr) as (row & ? & ? & ? & Hst). exists row. split_and!; [done|by right|].
          intros _. right. by rewrite Hst. }
        { intros (rp & Hl). right. by exists rp. }
      * destruct (getTask _ _ _) as [row|] eqn:Hrow; [destruct (activeStatus (ta_Status row)) eqn:Hact|]; simplify_eq/=.
        { split_and!; try done. intros row' Hr. exists row'. split_and!; [done|by left|done]. }
        { split_and!; try done.
          - intros row' Hr. exists row'. split_and!; [done|by left|]. intros _. right. rewrite (Hget _ eq_refl) in Hr. by simplify_eq.
          - intros (rp & Hl). right. by exists rp. }
        { split_and!; try done. intros row' Hr. exists row'. split_and!; [done|by left|done]. }
  - simplify_eq/=. split_and!; try done. intros row' Hr. exists row'. split_and!; [done|by left|]. intros _. by left.
Qed.

(** *** Every step keeps it *)

Lemma inv_turn T0 env id w :
  task_order (te_order env) w -> task_inv T0 w -> task_inv T0 (runTurn images errText env id w).
Proof.
  intros Hord [Ik In It Io Is]. unfold runTurn.
  destruct (tw_threads w !! id) as [th|] eqn:Hth; [|by constructor].
  destruct (threadTurn images errText env th w) as [th' w'] eqn:Hturn.
  destruct (It _ _ Hth) as [Hid Hl Hrow]. subst id.
  destruct (threadTurn_spec env th w th' w') as (E1 & E2 & E3 & E4 & E5 & E6 & E7 & E8); [|done|].
  { intros row Hg. apply (getTask_id (te_order env)); [| |done].
    - intros k t Ht. by apply Ik.
    - intros k t Ht Hn. pose proof (In _ _ Ht) as H. rewrite Hn in H. congruence. }
  assert (forall k row', tw_tasks w' !! k = Some row' -> exists row, tw_tasks w !! k = Some row /\
    ta_ID row' = k /\ ta_opts row' = ta_opts row) as Hrows.
  { intros k row' Hk. destruct (decide (k = ta_ID (tt_task th))) as [->|Hne].
    - destruct (E6 _ Hk) as (row & Hr & Hsame & _). exists row. split; [done|].
      destruct Hsame as [->|[H1 H2]]; [split; [by eapply Ik|done]|]. split; [done|]. rewrite H2. symmetry. by apply Hrow.
    - rewrite E5 in Hk by done. exists row'. split_and!; [done|by eapply Ik|done]. }
  constructor; simpl; rewrite ?E4.
  - intros k row' Hk. by destruct (Hrows _ _ Hk) as (row & _ & ? & _).
  - intros k row' Hk. destruct (Hrows _ _ Hk) as (row & Hr & _ & ->). rewrite lookup_insert_ne; [by eapply In|].
    intros Heq. pose proof (In _ _ Hr) as H. congruence.
  - intros k tk Hk. apply lookup_insert_Some in Hk as [[<- <-]|[Hne Hk]].
    + constructor; simpl; [congruence|by apply E8|]. intros row' Hr. destruct (E6 _ Hr) as (row & Hr0 & Hsame & Hd).
      destruct (Hrow _ Hr0) as [Ho Hact]. split; [rewrite E2; destruct Hsame as [->|[_ ->]]; done|].
      intros Ha Hdone. destruct (Hd Hdone) as [[Hph ->]|Hf]; [by apply Hact in Ha|congruence].
    + destruct (It _ _ Hk) as [J1 J2 J3]. constructor; [done| |].
      * unfold launches. simpl. fold (launches k w'). by rewrite E7 by congruence.
      * simpl. intros row. rewrite E5 by congruence. apply J3.
  - intros k row' Hk Hn Ha. apply lookup_insert_None in Hn as [Hn Hne].
    rewrite E5 in Hk by congruence. by apply (Io k row').
  - intros k Hn. apply lookup_insert_None in Hn as [Hn Hne]. unfold launches. simpl. fold (launches k w').
    rewrite E7 by congruence. by apply Is.
Qed.

Lemma inv_run T0 now uuid candidates opts w :
  id_free uuid (ro_Name (ta_opts (newTask now uuid opts))) w -> task_inv T0 w ->
  task_inv T0 (RunTask strategy now uuid candidates opts w).1.
Proof.
  intros (Hf & Hname & Hnt & Hrows) Hinv. unfold RunTask. destruct (String.eqb (ro_ImageRef opts) ""); [done|].
  destruct (String.eqb (ro_Command opts) ""); [done|]. unfold createTask.
  set (t := newTask now uuid opts) in *. change (ta_ID t) with uuid.
  destruct (tw_tasks w !! uuid) eqn:Hu; [done|]. destruct Hinv as [Ik In It Io Is].
  destruct (Pick strategy anyWorker candidates) as [wc|e].
  - simpl. constructor; simpl.
    + intros k row [[<- <-]|[? Hk]]%lookup_insert_Some; [done|by eapply Ik].
    + intros k row [[<- <-]|[? Hk]]%lookup_insert_Some.
      * apply lookup_insert_None. split; [exact Hnt|]. intros Heq. by apply Hname.
      * apply lookup_insert_None. split; [by eapply In|]. intros Heq. by eapply Hrows.
    + intros k th [[<- <-]|[Hne Hk]]%lookup_insert_Some.
      * constructor; simpl; [done|by apply Is|]. intros row. rewrite lookup_insert_eq. by intros [= <-].
      * destruct (It _ _ Hk) as [J1 J2 J3]. constructor; [done|done|]. simpl. intros row.
        rewrite lookup_insert_ne by done. apply J3.
    + intros k row Hk Hn. apply lookup_insert_None in Hn as [Hn Hne]. rewrite lookup_insert_ne in Hk by done. by apply Io.
    + intros k Hn. apply lookup_insert_None in Hn as [Hn Hne]. by apply Is.
  - set (t1 := ta_touch now (ta_say "no workers available" (ta_mark TaskStatusError t))).
    change (task_inv T0 (tw_with_tasks (fun _ => updateTask t1 (<[uuid:=savedTask t]> (tw_tasks w))) w)).
    assert (updateTask t1 (<[uuid:=savedTask t]> (tw_tasks w)) = <[uuid := updated t1 (savedTask t)]> (tw_tasks w)) as ->.
    { apply map_eq. intros k. rewrite updateTask_lookup. change (ta_ID t1) with uuid.
      destruct (decide (k = uuid)) as [->|Hk]; [by rewrite !lookup_insert_eq|by rewrite !lookup_insert_ne]. }
    constructor; simpl.
    + intros k row [[<- <-]|[? Hk]]%lookup_insert_Some; [done|by eapply Ik].
    + intros k row [[<- <-]|[? Hk]]%lookup_insert_Some; [exact Hnt|by eapply In].
    + intros k th Hk. destruct (It _ _ Hk) as [J1 J2 J3]. constructor; [done|done|]. simpl. intros row.
      rewrite lookup_insert_ne by congruence. apply J3.
    + intros k row [[<- <-]|[? Hk]]%lookup_insert_Some Hn; [done|by apply Io].
    + done.
Qed.

(** A change of rows to inactive ones, or their removal, and commands that launch nothing *)
Lemma inv_shrink T0 w w' :
  tw_threads w' = tw_threads w -> (forall id, launches id w' = launches id w) ->
  (forall k row', tw_tasks w' !! k = Some row' -> exists row, tw_tasks w !! k = Some row /\
     (row' = row \/ ta_ID row' = ta_ID row /\ ta_opts row' = ta_opts row /\ activeStatus (ta_Status row') = false)) ->
  task_inv T0 w -> task_inv T0 w'.
Proof.
  intros Ht Hl Hr [Ik In It Io Is]. constructor; rewrite ?Ht.
  - intros k row' Hk. destruct (Hr _ _ Hk) as (row & Hk0 & [->|(-> & _)]); by eapply Ik.
  - intros k row' Hk. destruct (Hr _ _ Hk) as (row & Hk0 & [->|(_ & -> & _)]); by eapply In.
  - intros id th Hth. destruct (It _ _ Hth) as [J1 J2 J3]. constructor; [done|by rewrite Hl|].
    intros row' Hk. destruct (Hr _ _ Hk) as (row & Hk0 & [->|(_ & -> & Hf)]); [by apply J3|].
    split; [by apply J3|congruence].
  - intros k row' Hk Hn Ha. destruct (Hr _ _ Hk) as (row & Hk0 & [->|(_ & _ & Hf)]); [by eapply Io|congruence].
  - intros id Hn. rewrite Hl. by apply Is.
Qed.

Lemma cancel_rows env order id w :
  (forall k row, tw_tasks w !! k = Some row -> ta_ID row = k) ->
  let w' := (CancelTask env order id w).1 in
  tw_threads w' = tw_threads w /\ (forall k, launches k w' = launches k w) /\
  (forall k row', tw_tasks w' !! k = Some row' -> exists row, tw_tasks w !! k = Some row /\
     (row' = row \/ ta_ID row' = ta_ID row /\ ta_opts row' = ta_opts row /\ activeStatus (ta_Status row') = false)).
Proof.
  intros Ik. unfold CancelTask. destruct (getTask order id (tw_tasks w)) as [t|] eqn:Hg.
  2: { simpl. split_and!; [done..|]. intros k row' Hk. exists row'. by split; [|left]. }
  destruct (negb _); [simpl; split_and!; [done..|]; intros k row' Hk; exists row'; by split; [|left]|].
  apply getTask_Ok in Hg as (_ & k0 & _ & Hk0). pose proof (Ik _ _ Hk0) as Hid.
  assert (forall b : TaskWorld, tw_tasks b = tw_tasks w -> tw_threads b = tw_threads w ->
    (forall k, launches k b = launches k w) ->
    let w' := (saveTask (env_now env) (ta_complete (env_now env) (ta_say "cancelled" (ta_exit (-1) (ta_mark TaskStatusFailed t)))) b).2 in
    tw_threads w' = tw_threads w /\ (forall k, launches k w' = launches k w) /\
    (forall k row', tw_tasks w' !! k = Some row' -> exists row, tw_tasks w !! k = Some row /\
     (row' = row \/ ta_ID row' = ta_ID row /\ ta_opts row' = ta_opts row /\ activeStatus (ta_Status row') = false))) as Hb.
  { intros b Hbt Hbth Hbl. simpl. split_and!; [done|done|]. rewrite Hbt. intros k row'. rewrite updateTask_lookup. simpl.
    destruct (decide (k = ta_ID t)) as [->|Hne].
    - rewrite Hid, Hk0. simpl. intros [= <-]. exists t. split; [done|]. right. done.
    - intros Hk. exists row'. by split; [|left]. }
  destruct (String.eqb (ta_WorkerID t) ""); [by apply (Hb w)|].
  destruct (sendTask_frame env (ta_WorkerID t) (CStopSession (ta_ID t)) w) as (r & b & -> & Htasks & Hthr & Hsent).
  apply (Hb b); [done|done|]. intros k. unfold launches. rewrite Hsent, filter_app.
  destruct r; [rewrite filter_cons_False|]; by rewrite ?app_nil_r.
Qed.

Lemma task_step_inv T0 w w' : task_step w w' -> task_inv T0 w -> task_inv T0 w'.
Proof.
  destruct 1 as [now uuid cands opts w Hc Hf|now uuid cands order id w Hc Ho Hf|env id w Ho|env order id w Ho|env order id w Ho|r w];
    intros Hinv.
  - by apply inv_run.
  - unfold RestartTask. destruct (getTask order id (tw_tasks w)) as [t|] eqn:Hg; [|done].
    destruct (activeStatus (ta_Status t)); [done|]. apply inv_run; auto.
  - by apply inv_turn.
  - destruct (cancel_rows env order id w) as (H1 & H2 & H3); [apply Hinv|]. by eapply inv_shrink.
  - unfold DeleteTask. destruct (getTask order id (tw_tasks w)) as [t|] eqn:Hg; [|done].
    assert (forall w1, task_inv T0 w1 -> task_inv T0 (tw_with_tasks (deleteTask id) w1)) as Hd.
    { intros w1 Hw1. eapply inv_shrink; [| | |exact Hw1]; [done|done|]. simpl. intros k row' Hk.
      apply map_lookup_filter_Some in Hk as [Hk _]. exists row'. by split; [|left]. }
    simpl. case_bool_decide; apply Hd; [|done].
    destruct (cancel_rows env order id w) as (H1 & H2 & H3); [apply Hinv|]. by eapply inv_shrink.
  - eapply inv_shrink; [| | |exact Hinv]; [done|done|]. simpl. intros k row' Hk. exists row'. by split; [|left].
Qed.

(** *** The start *)

(** Some rows became inactive; nothing else happened. *)
Record settles (w w' : TaskWorld) : Prop := {
  se_threads : tw_threads w' = tw_threads w;
  se_sent : tw_sent w' = tw_sent w;
  se_dom k : is_Some (tw_tasks w' !! k) <-> is_Some (tw_tasks w !! k);
  se_rows k row' : tw_tasks w' !! k = Some row' -> exists row, tw_tasks w !! k = Some row /\
    (row' = row \/ ta_ID row' = ta_ID row /\ ta_opts row' = ta_opts row /\ activeStatus (ta_Status row') = false)
}.

#[local] Instance settles_preorder : PreOrder settles.
Proof.
  split.
  - intros w. constructor; [done..|]. intros k row Hk. exists row. by split; [|left].
  - intros w1 w2 w3 [T1 S1 D1 R1] [T2 S2 D2 R2]. constructor; [congruence..| |].
    + intros k. by rewrite D2.
    + intros k row3 H3. destruct (R2 _ _ H3) as (row2 & H2 & HR2). destruct (R1 _ _ H2) as (row1 & H1 & HR1).
      exists row1. split; [done|]. destruct HR2 as [->|(E1 & E2 & E3)]; [done|]. right. rewrite E1, E2.
      destruct HR1 as [->|(-> & -> & _)]; done.
Qed.

(** A task as it was read from its row *)
Definition read_from (w : TaskWorld) (t : Task) : Prop :=
  exists row, tw_tasks w !! ta_ID t = Some row /\ ta_ID row = ta_ID t /\ ta_opts row = ta_opts t.

Lemma read_from_settles w w' t : settles w w' -> read_from w t -> read_from w' t.
Proof.
  intros [_ _ D R] (row & Hk & Hid & Ho). destruct (proj2 (D (ta_ID t))) as [row' Hk']; [by eexists|].
  exists row'. split; [done|]. destruct (R _ _ Hk') as (row0 & Hk0 & Hr). simplify_eq.
  destruct Hr as [->|(-> & -> & _)]; done.
Qed.

Lemma recoverTask_settles now w t :
  read_from w t -> settles w (recoverTask now w t) /\
  ((ta_CreatedAt t < now - 10 * Minute)%Z ->
   forall row, tw_tasks (recoverTask now w t) !! ta_ID t = Some row -> activeStatus (ta_Status row) = false).
Proof.
  intros (row & Hk & Hid & Ho). unfold recoverTask. destruct (Z.ltb_spec (ta_CreatedAt t) (now - 10 * Minute)).
  2: { split; [done|lia]. }
  simpl. split.
  - constructor; simpl; [done|done| |]; intros k; rewrite updateTask_lookup; simpl.
    + destruct (decide (k = ta_ID t)) as [->|]; [|done]. by rewrite fmap_is_Some.
    + intros row'. destruct (decide (k = ta_ID t)) as [->|].
      * rewrite Hk. simpl. intros [= <-]. exists row. split; [done|]. right. by split_and!.
      * intros Hk'. exists row'. by split; [|left].
  - intros _ row'. rewrite updateTask_lookup. simpl. rewrite decide_True by done. rewrite Hk. by intros [= <-].
Qed.

Lemma recover_fold now l w :
  Forall (read_from w) l -> let w' := foldl (recoverTask now) w l in
  settles w w' /\ forall t, t ∈ l -> (ta_CreatedAt t < now - 10 * Minute)%Z ->
    forall row, tw_tasks w' !! ta_ID t = Some row -> activeStatus (ta_Status row) = false.
Proof.
  revert w. induction l as [|t l IH]; intros w Hl; [split; [done|]; by intros t ?%elem_of_nil|].
  apply Forall_cons in Hl as [Ht Hl]. destruct (recoverTask_settles now w t Ht) as [Hs Hf].
  cbn [foldl]. destruct (IH (recoverTask now w t)) as [Hs' Hf'].
  { eapply Forall_impl; [exact Hl|]. intros t'. by apply read_from_settles. }
  split; [by etrans|]. intros t' [->|Hin]%elem_of_cons Hold row Hrow; [|by eapply Hf'].
  destruct (se_rows _ _ Hs' _ _ Hrow) as (row1 & Hr1 & [->|(_ & _ & ->)]); [|done]. by eapply Hf.
Qed.

Lemma recoverStatus_spec now order w st :
  map_Forall (fun k t => ta_ID t = k) (tw_tasks w) -> (forall k, k ∈ order <-> is_Some (tw_tasks w !! k)) ->
  let w' := recoverStatus now order w st in
  settles w w' /\ forall k row, tw_tasks w' !! k = Some row -> ta_Status row = st ->
    activeStatus st = true -> (now - 10 * Minute <= ta_CreatedAt row)%Z.
Proof.
  intros Hk Ho. unfold recoverStatus, listTasks. simpl.
  set (l := merge_sort newerTask _).
  assert (forall t, t ∈ l <-> ta_Status t = st /\ exists k, tw_tasks w !! k = Some t) as Hl.
  { intros t. unfold l. rewrite merge_sort_Permutation, list_elem_of_filter. unfold taskWhere. simpl.
    rewrite andb_true_r, bool_decide_eq_true. split; intros [Hst Hin]; (split; [done|]).
    - apply list_elem_of_omap in Hin as (k & _ & Hin). by exists k.
    - destruct Hin as (k & Hin). by eapply omap_rows. }
  destruct (recover_fold now l w) as [Hs Hf].
  { apply Forall_forall. intros t [_ (k & Hkt)]%Hl. exists t. pose proof (Hk _ _ Hkt) as Hid. simpl in Hid.
    by rewrite Hid. }
  split; [exact Hs|]. intros k row Hrow Hst Hact.
  destruct (Z.le_gt_cases (now - 10 * Minute) (ta_CreatedAt row)) as [|Hold]; [done|]. exfalso.
  destruct (se_rows _ _ Hs _ _ Hrow) as (row0 & Hr0 & [->|(_ & _ & Hin)]); [|congruence].
  pose proof (Hk _ _ Hr0) as Hid. simpl in Hid.
  assert (activeStatus (ta_Status row0) = false) by (eapply Hf; [apply Hl; eauto|lia|by rewrite Hid]). congruence.
Qed.

Lemma NewTaskManager_inv now order T reg :
  map_Forall (fun k t => ta_ID t = k) T -> NoDup order /\ (forall k, k ∈ order <-> is_Some (T !! k)) ->
  task_inv (filter (fun e => (now - 10 * Minute <= ta_CreatedAt e.2)%Z) T) (NewTaskManager now order T reg).
Proof.
  intros HT [_ Ho]. unfold NewTaskManager, recoverStuckTasks. cbn [foldl].
  set (w0 := mkTaskWorld T reg ∅ []).
  destruct (recoverStatus_spec now order w0 TaskStatusRunning HT Ho) as [S1 F1].
  set (w1 := recoverStatus now order w0 TaskStatusRunning) in *.
  destruct (recoverStatus_spec now order w1 TaskStatusPending) as [S2 F2].
  { intros k row Hk. destruct (se_rows _ _ S1 _ _ Hk) as (row0 & Hr0 & [->|(-> & _)]); by apply HT. }
  { intros k. rewrite (se_dom _ _ S1). apply Ho. }
  set (w2 := recoverStatus now order w1 TaskStatusPending) in *.
  pose proof (transitivity S1 S2) as [St Ss _ Sr]. simpl in St, Ss.
  constructor; rewrite ?St.
  - intros k row Hk. destruct (Sr _ _ Hk) as (row0 & Hr0 & [->|(-> & _)]); by apply HT.
  - intros k row _. apply lookup_empty.
  - intros id th Hth. by rewrite lookup_empty in Hth.
  - intros k row Hk _ Ha. destruct (Sr _ _ Hk) as (row0 & Hr0 & [->|(_ & _ & ?)]); [|congruence].
    exists row0. split; [|done]. apply map_lookup_filter_Some. split; [exact Hr0|]. simpl.
    destruct (ta_Status row0) eqn:Hst; try discriminate Ha.
    + by apply (F2 k row0).
    + destruct (se_rows _ _ S2 _ _ Hk) as (row1 & Hr1 & [<-|(_ & _ & Hf)]); [by apply (F1 k row0)|].
      rewrite Hst in Hf. discriminate Hf.
  - intros id _. unfold launches. by rewrite Ss.
Qed.

Lemma reachable_inv now order T reg w :
  map_Forall (fun k t => ta_ID t = k) T -> NoDup order /\ (forall k, k ∈ order <-> is_Some (T !! k)) ->
  rtc task_step (NewTaskManager now order T reg) w ->
  task_inv (filter (fun e => (now - 10 * Minute <= ta_CreatedAt e.2)%Z) T) w.
Proof.
  intros HT Ho Hr. pose proof (NewTaskManager_inv now order T reg HT Ho) as Hi.
  induction Hr as [|w w1 w2 Hs _ IH]; [done|]. apply IH. by eapply task_step_inv.
Qed.

(** A goroutine keeps the worker and the options of its task. *)
Definition same_task (id : string) (w w' : TaskWorld) : Prop :=
  forall th, tw_threads w !! id = Some th -> exists th', tw_threads w' !! id = Some th' /\
    ta_opts (tt_task th') = ta_opts (tt_task th) /\ ta_WorkerID (tt_task th') = ta_WorkerID (tt_task th).

#[local] Instance same_task_preorder id : PreOrder (same_task id).
Proof.
  split; [intros w th Hth; by exists th|]. intros w1 w2 w3 H1 H2 th Hth.
  destruct (H1 _ Hth) as (th' & Hth' & E1 & E2). destruct (H2 _ Hth') as (th2 & Hth2 & E3 & E4).
  exists th2. split_and!; congruence.
Qed.

Lemma same_threads id w w' : tw_threads w' = tw_threads w -> same_task id w w'.
Proof. intros Heq th Hth. exists th. by rewrite Heq. Qed.

Lemma run_same_task id now uuid candidates opts w :
  tw_threads w !! uuid = None -> same_task id w (RunTask strategy now uuid candidates opts w).1.
Proof.
  intros Hn. unfold RunTask. destruct (_ =? _)%string; [done|]. destruct (_ =? _)%string; [done|].
  destruct (createTask _ _); [|done]. destruct (Pick _ _ _); [|by apply same_threads].
  intros th Hth. exists th. simpl. rewrite lookup_insert_ne; [done|]. intros <-. congruence.
Qed.

Lemma cancel_threads env order id w : tw_threads (CancelTask env order id w).1 = tw_threads w.
Proof.
  unfold CancelTask. destruct (getTask _ _ _); [|done]. destruct (negb _); [done|]. simpl.
  destruct (_ =? _)%string; [done|].
  destruct (sendTask_frame env (ta_WorkerID a) (CStopSession (ta_ID a)) w) as (r & b & Hs & _ & Ht & _).
  by rewrite Hs.
Qed.

Lemma step_same_task T0 id w w' : task_inv T0 w -> task_step w w' -> same_task id w w'.
Proof.
  intros Hi. destruct 1 as [now uuid cands opts w _ Hf|now uuid cands order id' w _ _ Hf|env id' w Hord|env order id' w _|env order id' w _|r w].
  - apply run_same_task, Hf.
  - unfold RestartTask. destruct (getTask _ _ _) as [t|] eqn:Ht; [|done]. destruct (activeStatus _); [done|].
    apply run_same_task. by destruct (Hf t eq_refl).
  - unfold runTurn. destruct (tw_threads w !! id') as [th|] eqn:Hth; [|done].
    destruct (threadTurn images errText env th w) as [th' w'] eqn:Hturn.
    destruct (ti_thread _ _ Hi _ _ Hth) as [Hid _ _].
    destruct (threadTurn_spec env th w th' w') as (E1 & E2 & E3 & E4 & _); [|done|].
    { intros row Hg. apply (getTask_id (te_order env)); [by intros k t; apply Hi| |done].
      intros k t Ht Hn. pose proof (ti_name _ _ Hi _ _ Ht) as H. rewrite Hn, Hid in H. congruence. }
    intros th0 H0. simpl. rewrite E4. destruct (decide (id = id')) as [->|Hne].
    + exists th'. rewrite lookup_insert_eq. by simplify_eq.
    + exists th0. by rewrite lookup_insert_ne.
  - apply same_threads, cancel_threads.
  - apply same_threads. unfold DeleteTask. destruct (getTask _ _ _); [|done]. simpl.
    case_bool_decide; [apply cancel_threads|done].
  - by apply same_threads.
Qed.

(** What an accepted run leaves: the goroutine of a task placed on the worker picked. *)
Lemma run_sent T0 now uuid candidates opts w w1 t w2 :
  task_inv T0 w -> candidates ≡ₚ (map_to_list (tw_registry w)).*2 ->
  id_free uuid (ro_Name (ta_opts (newTask now uuid opts))) w ->
  RunTask strategy now uuid candidates opts w = (w1, Ok t) -> rtc task_step w1 w2 ->
  exists wc th, Pick strategy anyWorker candidates = Ok wc /\ tw_threads w2 !! uuid = Some th /\ task_inv T0 w2 /\
    ta_opts (tt_task th) = ta_opts (newTask now uuid opts) /\ ta_WorkerID (tt_task th) = w_ID (wc_Worker wc).
Proof.
  intros Hi Hc Hf Hrun Hw. pose proof (ts_run now uuid candidates opts w Hc Hf) as Hstep. rewrite Hrun in Hstep. simpl in Hstep.
  assert (exists wc, Pick strategy anyWorker candidates = Ok wc /\
    tw_threads w1 !! uuid = Some (mkThread (ta_place (w_ID (wc_Worker wc)) (newTask now uuid opts)) TkStart)) as (wc & Hp & Hth).
  { revert Hrun. unfold RunTask. destruct (_ =? _)%string; [done|]. destruct (_ =? _)%string; [done|].
    destruct (createTask _ _); [|done]. destruct (Pick _ _ _) as [wc|]; [|done]. intros [= <- _]. exists wc.
    split; [done|]. simpl. apply lookup_insert_eq. }
  assert (task_inv T0 w2 /\ same_task uuid w1 w2) as [Hi2 Hs].
  { assert (task_inv T0 w1) as Hi1 by (by eapply task_step_inv). clear -Hi1 Hw.
    induction Hw as [|x y z Hxy _ IH]; [done|]. destruct IH as [Hz Hs]; [by eapply task_step_inv|].
    split; [done|]. trans y; [by eapply step_same_task|done]. }
  destruct (Hs _ Hth) as (th & Hth2 & Ho & Hwid). by exists wc, th.
Qed.

(** The launch of a run with some options, whatever the path of the image's root *)
Definition launch_for (uuid : string) (opts : RunOpts) (d : LaunchServiceData) : Prop :=
  lv_ServiceID d = uuid /\ lv_ImageRef d = ro_ImageRef opts /\
  lv_VCPUs d = (if decide (ro_VCPUs opts = 0) then 1 else ro_VCPUs opts)%Z /\
  lv_MemoryMB d = (if decide (ro_MemoryMB opts = 0) then 512 else ro_MemoryMB opts)%Z /\
  lv_Command d = ro_Command opts /\ lv_Args d = ro_Args opts /\ lv_Env d = ro_Env opts /\
  lv_Workdir d = ro_Workdir opts /\ lv_Mounts d = ro_Mounts opts /\ lv_RestartPolicy d = "never".

Lemma launchDataOf_run now uuid opts rp t :
  ta_ID t = uuid -> ta_opts t = ta_opts (newTask now uuid opts) -> launch_for uuid opts (launchDataOf t rp).
Proof.
  intros Hid Ho. unfold launchDataOf, launch_for. rewrite Ho, Hid. simpl.
  destruct (Z.eqb_spec (ro_VCPUs opts) 0), (Z.eqb_spec (ro_MemoryMB opts) 0); split_and!; try done; by case_decide.
Qed.

(** C35 Whatever the goroutines, the calls and the workers do, as long as no task is named
    by the identifier of another: a task is launched at most
    once; no launch is sent for anything else; and a row that is pending or running
    has a goroutine that will end it, unless it was there when the manager started and
    younger than ten minutes.  A run that is accepted picks a worker with the scheduler
    from those connected, and whatever happens afterwards a launch of the task goes to
    that worker alone, with the image, command, arguments, environment, directory and
    mounts that were asked for, one virtual CPU and 512 MB where none were, and never to
    be restarted. *)
Theorem tasks_supervised now order T reg w :
  map_Forall (fun k t => ta_ID t = k) T -> NoDup order /\ (forall k, k ∈ order <-> is_Some (T !! k)) ->
  rtc task_step (NewTaskManager now order T reg) w ->
  (forall id th, tw_threads w !! id = Some th ->
     let sent := exists rp, launches id w = [(ta_WorkerID (tt_task th), CLaunchService (launchDataOf (tt_task th) rp))] in
     (launches id w = [] \/ sent) /\ (forall deadline, tt_phase th = TkMonitor deadline -> sent) /\
     (forall row, tw_tasks w !! id = Some row -> ta_ID row = id /\ ta_opts row = ta_opts (tt_task th))) /\
  (forall id, tw_threads w !! id = None -> launches id w = []) /\
  (forall k row, tw_tasks w !! k = Some row -> activeStatus (ta_Status row) = true ->
     (exists th, tw_threads w !! k = Some th /\ tt_phase th <> TkDone) \/
     (exists row0, T !! k = Some row0 /\ activeStatus (ta_Status row0) = true /\
        (now - 10 * Minute <= ta_CreatedAt row0)%Z)) /\
  (forall now1 uuid candidates opts w1 t w2,
     candidates ≡ₚ (map_to_list (tw_registry w)).*2 ->
     id_free uuid (ro_Name (ta_opts (newTask now1 uuid opts))) w ->
     RunTask strategy now1 uuid candidates opts w = (w1, Ok t) -> rtc task_step w1 w2 ->
     exists wc, Pick strategy anyWorker candidates = Ok wc /\
       (launches uuid w2 = [] \/
        exists d, launches uuid w2 = [(w_ID (wc_Worker wc), CLaunchService d)] /\ launch_for uuid opts d)).
Proof.
  intros HT Ho Hr. pose proof (reachable_inv _ _ _ _ _ HT Ho Hr) as Hi.
  destruct Hi as [Ik In It Io Is] eqn:Heq. clear Heq. split_and!.
  - intros id th Hth sent. destruct (It _ _ Hth) as [Hid Hl Hrow]. split_and!.
    + destruct (tt_phase th); simpl in Hl; auto.
    + intros d Hp. by rewrite Hp in Hl.
    + intros row Hk. split; [by eapply Ik|by apply Hrow].
  - exact Is.
  - intros k row Hk Ha. destruct (tw_threads w !! k) as [th|] eqn:Hth.
    + left. exists th. split; [done|]. by eapply tho_row; [apply It|..].
    + right. destruct (Io k row Hk Hth Ha) as (row0 & Hr0 & Ha0). apply map_lookup_filter_Some in Hr0 as [? ?].
      by exists row0.
  - intros now1 uuid candidates opts w1 t w2 Hc Hf Hrun Hw.
    destruct (run_sent _ now1 uuid candidates opts w w1 t w2 Hi Hc Hf Hrun Hw) as (wc & th & Hp & Hth & Hi2 & Ho2 & Hw2).
    exists wc. split; [done|]. destruct (ti_thread _ _ Hi2 _ _ Hth) as [Hid Hl _].
    assert (forall rp, launch_for uuid opts (launchDataOf (tt_task th) rp)) as Hlf
      by (intros rp; by eapply launchDataOf_run).
    destruct (tt_phase th); simpl in Hl; rewrite ?Hw2 in Hl; try (by left); try (destruct Hl as [rp Hl]; right; by eexists).
    destruct Hl as [Hl|[rp Hl]]; [by left|right; by eexists].
Qed.

(** *** Progress *)

(** A goroutine that runs alone, and what it finds at each of its turns *)
Fixpoint turns (id : string) (envs : nat -> TaskEnv) (n : nat) (w : TaskWorld) : TaskWorld :=
  match n with
  | O => w
  | S n => turns id (fun i => envs (S i)) n (runTurn images errText (envs 0) id w)
  end.

Definition rank (p : TaskPhase) : nat :=
  match p with
  | TkStart => 5 | TkPull => 4 | TkLaunch _ => 3 | TkSend _ => 2 | TkSent => 1 | TkMonitor _ | TkDone => 0
  end.

Lemma saveTask_dom now t w k : is_Some (tw_tasks (saveTask now t w).2 !! k) <-> is_Some (tw_tasks w !! k).
Proof. simpl. rewrite updateTask_lookup. case_decide; [by rewrite fmap_is_Some|done]. Qed.

Lemma threadTurn_frame env th w :
  let '(th', w') := threadTurn images errText env th w in
  tw_threads w' = tw_threads w /\ (forall k, is_Some (tw_tasks w' !! k) <-> is_Some (tw_tasks w !! k)) /\
  (forall k, k <> ta_ID (tt_task th) -> tw_tasks w' !! k = tw_tasks w !! k) /\
  (0 < rank (tt_phase th) -> rank (tt_phase th') < rank (tt_phase th)) /\
  (forall d, tt_phase th = TkMonitor d -> tt_phase th' = TkDone \/
     th' = th /\ w' = w /\ (env_now (te_env env) <= d)%Z).
Proof.
  assert (forall f t (w0 : TaskWorld), ta_ID (f t) = ta_ID t ->
    let w1 := (saveTask (env_now (te_env env)) (f t) w0).2 in
    (forall k, is_Some (tw_tasks w1 !! k) <-> is_Some (tw_tasks w0 !! k)) /\
    (forall k, k <> ta_ID t -> tw_tasks w1 !! k = tw_tasks w0 !! k)) as Hsave.
  { intros f t w0 Hid w1. split; [intros k; apply saveTask_dom|]. intros k Hk. unfold w1. simpl.
    rewrite updateTask_lookup. simpl. rewrite Hid. by rewrite decide_False. }
  destruct th as [t p]. unfold threadTurn. cbn [tt_task tt_phase].
  destruct p as [| |rp|rp| |d|].
  - destruct images; simpl; [|split_and!; [done..|lia|done]].
    destruct (Hsave (ta_say "pulling image") t w) as [H1 H2]; [done|]. split_and!; [done..|lia|done].
  - destruct (te_pull env) as [err|rp]; simpl; [|split_and!; [done..|lia|done]].
    destruct (Hsave (fun t => ta_say ("image pull failed: " +:+ err) (ta_mark TaskStatusError t)) t w) as [H1 H2]; [done|].
    split_and!; [done..|lia|done].
  - destruct (Hsave (fun t => ta_say "starting" (ta_start (env_now (te_env env)) (ta_mark TaskStatusRunning t))) t w)
      as [H1 H2]; [done|]. simpl. split_and!; [done..|lia|done].
  - destruct (sendTask_frame (te_env env) (ta_WorkerID t) (CLaunchService (launchDataOf t rp)) w)
      as (r & b & -> & Htasks & Hthr & _). destruct r as [[]|e].
    + simpl. rewrite Htasks. split_and!; [done..|lia|done].
    + destruct (Hsave (fun t => ta_say ("launch failed: " +:+ errText e) (ta_mark TaskStatusError t)) t b) as [H1 H2]; [done|].
      simpl in H1, H2 |- *. rewrite Htasks in H1, H2 |- *. split_and!; [done..|lia|done].
  - destruct (Hsave (ta_say "running") t w) as [H1 H2]; [done|]. simpl. split_and!; [done..|lia|done].
  - destruct (Z.ltb_spec d (env_now (te_env env))).
    + destruct (Hsave (fun t => ta_complete (env_now (te_env env)) (ta_say "timeout" (ta_exit (-1) (ta_mark TaskStatusFailed t)))) t w)
        as [H1 H2]; [done|].
      destruct (saveTask _ _ w) as [t1 w1] eqn:Hsv. simpl in Hsv. injection Hsv as <- Hw1.
      destruct (sendTask_frame (te_env env) (ta_WorkerID t) (CStopSession (ta_ID t)) w1) as (r & b & Hs & Htasks & Hthr & _).
      simpl. rewrite Hs. simpl in H1, H2. rewrite Htasks, Hthr.
      split_and!; [by rewrite <-Hw1|exact H1|exact H2|simpl; lia|by left].
    + case_bool_decide.
      * destruct (Hsave (fun t => ta_complete (env_now (te_env env)) (ta_say "worker disconnected" (ta_mark TaskStatusError t))) t w)
          as [H1 H2]; [done|]. simpl. split_and!; [done..|lia|by left].
      * destruct (getTask _ _ _) as [row|]; [destruct (activeStatus _)|]; simpl; (split_and!; [done..|lia|]); intros d' [= <-];
          [by right|by left|by right].
  - split_and!; done.
Qed.

(** A run of turns of one goroutine *)
Record only_turns (id : string) (w w' : TaskWorld) : Prop := {
  ot_steps : rtc task_step w w';
  ot_dom k : is_Some (tw_tasks w' !! k) <-> is_Some (tw_tasks w !! k);
  ot_other k : k <> id -> tw_tasks w' !! k = tw_tasks w !! k /\ tw_threads w' !! k = tw_threads w !! k
}.

Lemma runTurn_only T0 env id th w :
  task_inv T0 w -> tw_threads w !! id = Some th -> task_order (te_order env) w ->
  let w' := runTurn images errText env id w in
  only_turns id w w' /\ exists th', tw_threads w' !! id = Some th' /\
    (0 < rank (tt_phase th) -> rank (tt_phase th') < rank (tt_phase th)) /\
    (forall d, tt_phase th = TkMonitor d -> tt_phase th' = TkDone \/ th' = th /\ (env_now (te_env env) <= d)%Z).
Proof.
  intros Hinv Hth Ho w'. pose proof (ti_thread _ _ Hinv _ _ Hth) as [Hid _ _].
  pose proof (ts_turn env id w Ho) as Hstep. fold w' in Hstep.
  pose proof (threadTurn_frame env th w) as H. unfold w', runTurn in *. rewrite Hth in *.
  destruct (threadTurn images errText env th w) as [th' w1]. destruct H as (H1 & H2 & H3 & H4 & H5). split.
  - constructor; [by apply rtc_once|exact H2|]. intros k Hk. simpl. rewrite lookup_insert_ne, H1 by done.
    split; [apply H3; congruence|done].
  - exists th'. simpl. split_and!; [apply lookup_insert_eq|done|]. intros d Hd. destruct (H5 d Hd) as [?|(? & ? & ?)]; auto.
Qed.

Lemma only_turns_trans id w1 w2 w3 : only_turns id w1 w2 -> only_turns id w2 w3 -> only_turns id w1 w3.
Proof.
  intros [S1 D1 O1] [S2 D2 O2]. constructor; [by etrans|intros k; by rewrite D2|]. intros k Hk.
  destruct (O1 k Hk) as [<- <-]. by apply O2.
Qed.

Lemma steps_inv T0 w w' : rtc task_step w w' -> task_inv T0 w -> task_inv T0 w'.
Proof. induction 1 as [|w w1 w2 Hs _ IH]; [done|]. intros Hi. apply IH. by eapply task_step_inv. Qed.

Definition done_after (id : string) (envs : nat -> TaskEnv) (w : TaskWorld) : Prop :=
  exists n th, only_turns id w (turns id envs n w) /\
    tw_threads (turns id envs n w) !! id = Some th /\ tt_phase th = TkDone.

(** One more turn in front *)
Lemma done_after_S id envs w :
  only_turns id w (runTurn images errText (envs 0) id w) ->
  done_after id (fun i => envs (S i)) (runTurn images errText (envs 0) id w) -> done_after id envs w.
Proof. intros H (n & th & Ho & Hth & Hd). exists (S n), th. split_and!; [by eapply only_turns_trans|done|done]. Qed.

Lemma orders_next id (envs : nat -> TaskEnv) w w' :
  only_turns id w w' -> (forall i, task_order (te_order (envs i)) w) ->
  forall i, task_order (te_order (envs (S i))) w'.
Proof. intros [_ D _] Ho i. destruct (Ho (S i)) as [? Hk]. split; [done|]. intros k. by rewrite D. Qed.

Lemma monitor_ends T0 id d i envs w th :
  task_inv T0 w -> (forall i, task_order (te_order (envs i)) w) ->
  tw_threads w !! id = Some th -> tt_phase th = TkMonitor d -> (d < env_now (te_env (envs i)))%Z ->
  done_after id envs w.
Proof.
  revert envs w th. induction i as [|i IH]; intros envs w th Hinv Ho Hth Hp Hlate;
    destruct (runTurn_only T0 (envs 0) id th w Hinv Hth (Ho 0)) as (Hot & th' & Hth' & _ & Hm);
    pose proof (steps_inv T0 _ _ (ot_steps _ _ _ Hot) Hinv) as Hinv';
    (eapply done_after_S; [exact Hot|]).
  - destruct (Hm d Hp) as [Hd|[_ Hle]]; [|lia]. exists 0, th'. split_and!; [|done|done].
    constructor; [done|done|done].
  - destruct (Hm d Hp) as [Hd|[-> _]].
    + exists 0, th'. split_and!; [|done|done]. constructor; [done|done|done].
    + eapply IH; [done| |done|done|done]. by eapply orders_next.
Qed.

Lemma turns_end T0 id n envs w th :
  task_inv T0 w -> (forall i, task_order (te_order (envs i)) w) ->
  (forall t k, exists i, k <= i /\ (t < env_now (te_env (envs i)))%Z) ->
  tw_threads w !! id = Some th -> rank (tt_phase th) <= n -> done_after id envs w.
Proof.
  revert envs w th. induction n as [|n IH]; intros envs w th Hinv Ho Hclock Hth Hr.
  - destruct (tt_phase th) eqn:Hp; simpl in Hr; try lia.
    + destruct (Hclock deadline 0) as (i & _ & Hi). by eapply monitor_ends.
    + exists 0, th. split_and!; [constructor; done|done|done].
  - destruct (decide (rank (tt_phase th) <= n)) as [|Hn]; [by eapply IH|].
    destruct (runTurn_only T0 (envs 0) id th w Hinv Hth (Ho 0)) as (Hot & th' & Hth' & Hrank & _).
    eapply done_after_S; [exact Hot|]. eapply IH; [| | |exact Hth'|lia].
    + eapply steps_inv; [apply Hot|done].
    + by eapply orders_next.
    + intros t k. destruct (Hclock t (S k)) as (i & Hi & Hlt). destruct i as [|i]; [lia|]. exists i. split; [lia|done].
Qed.

End System.

(** ** No task succeeds *)

Section NoSuccess.
Context (images : bool) (strategy : string) (errText : MgrError -> string).

Definition not_success (t : Task) : Prop := ta_Status t <> TaskStatusSuccess.
Definition no_success (w : TaskWorld) : Prop :=
  map_Forall (fun _ t => not_success t) (tw_tasks w) /\ map_Forall (fun _ th => not_success (tt_task th)) (tw_threads w).

Lemma save_no_success now t w : not_success t -> no_success w -> no_success (saveTask now t w).2.
Proof.
  intros Ht [Hw Hth]. split; [|done]. intros k row. simpl. rewrite updateTask_lookup.
  case_decide; [|apply Hw]. destruct (tw_tasks w !! k); [|done]. simpl. by intros [= <-].
Qed.

Lemma send_no_success env wid cmd w : no_success w -> no_success (sendTask env wid cmd w).2.
Proof.
  intros [Hw Hth]. destruct (sendTask_frame env wid cmd w) as (r & b & -> & H1 & H2 & _).
  split; simpl; [by rewrite H1|by rewrite H2].
Qed.

Lemma turn_no_success env id w : no_success w -> no_success (runTurn images errText env id w).
Proof.
  intros Hw. unfold runTurn. destruct (tw_threads w !! id) as [th|] eqn:Hth; [|done].
  assert (not_success (tt_task th)) as Ht by by apply (proj2 Hw id th).
  assert (let '(th', w') := threadTurn images errText env th w in no_success w' /\ not_success (tt_task th')) as H.
  { destruct th as [t p]. simpl in Ht. unfold threadTurn. cbn [tt_task tt_phase]. destruct p as [| |rp|rp| |d|].
    - destruct images; simpl; [|done]. split; [by apply (save_no_success (env_now (te_env env)) (ta_say "pulling image" t))|done].
    - destruct (te_pull env) as [err|rp]; simpl; [|done]. split; [|done].
      by apply (save_no_success (env_now (te_env env)) (ta_say ("image pull failed: " +:+ err) (ta_mark TaskStatusError t))).
    - simpl. split; [|done].
      by apply (save_no_success (env_now (te_env env)) (ta_say "starting" (ta_start (env_now (te_env env)) (ta_mark TaskStatusRunning t)))).
    - pose proof (send_no_success (te_env env) (ta_WorkerID t) (CLaunchService (launchDataOf t rp)) w Hw) as Hs.
      destruct (sendTask _ _ _ w) as [[[]|e] b]; simpl in Hs |- *; [done|]. split; [|done].
      by apply (save_no_success (env_now (te_env env)) (ta_say ("launch failed: " +:+ errText e) (ta_mark TaskStatusError t))).
    - simpl. split; [|done]. by apply (save_no_success (env_now (te_env env)) (ta_say "running" t)).
    - destruct (d <? _)%Z.
      + destruct (saveTask _ _ w) as [t1 w1] eqn:Hsv. simpl in Hsv. injection Hsv as <- Hw1.
        assert (no_success w1) as Hn1.
        { rewrite <-Hw1. by apply (save_no_success (env_now (te_env env))
            (ta_complete (env_now (te_env env)) (ta_say "timeout" (ta_exit (-1) (ta_mark TaskStatusFailed t))))). }
        pose proof (send_no_success (te_env env) (ta_WorkerID t) (CStopSession (ta_ID t)) w1 Hn1) as Hs. simpl.
        by destruct (sendTask _ _ _ w1).
      + case_bool_decide; simpl.
        * split; [|done]. by apply (save_no_success (env_now (te_env env))
            (ta_complete (env_now (te_env env)) (ta_say "worker disconnected" (ta_mark TaskStatusError t)))).
        * destruct (getTask _ _ _) as [row|]; [destruct (activeStatus _)|]; done.
    - done. }
  destruct (threadTurn images errText env th w) as [th' w']. destruct H as [[H1 H2] H3]. split; [done|].
  by apply map_Forall_insert_2.
Qed.

Lemma run_no_success now uuid cands opts w : no_success w -> no_success (RunTask strategy now uuid cands opts w).1.
Proof.
  intros Hw. unfold RunTask. destruct (String.eqb (ro_ImageRef opts) ""); [done|].
  destruct (String.eqb (ro_Command opts) ""); [done|]. unfold createTask.
  set (t := newTask now uuid opts). destruct (tw_tasks w !! ta_ID t); [done|].
  assert (no_success (tw_with_tasks (fun _ => <[ta_ID t := savedTask t]> (tw_tasks w)) w)) as H1.
  { split; [by apply map_Forall_insert_2; [|apply Hw]|apply Hw]. }
  destruct (Pick strategy anyWorker cands) as [wc|e].
  - split; [apply H1|]. simpl. by apply map_Forall_insert_2; [|apply Hw].
  - by apply (save_no_success now (ta_say "no workers available" (ta_mark TaskStatusError t))).
Qed.

Lemma cancel_no_success env order id w : no_success w -> no_success (CancelTask env order id w).1.
Proof.
  intros Hw. unfold CancelTask. destruct (getTask order id (tw_tasks w)) as [t|]; [|done].
  destruct (negb _); [done|].
  assert (forall b, no_success b -> no_success (saveTask (env_now env)
    (ta_complete (env_now env) (ta_say "cancelled" (ta_exit (-1) (ta_mark TaskStatusFailed t)))) b).2) as H.
  { intros b. by apply save_no_success. }
  destruct (String.eqb (ta_WorkerID t) ""); [by apply (H w)|].
  by apply (H (sendTask env (ta_WorkerID t) (CStopSession (ta_ID t)) w).2), send_no_success.
Qed.

(** Nothing ever records the success of a task: a process that ends well leaves its task
    running until the timeout marks it failed. *)
Lemma task_never_succeeds w w' :
  rtc (task_step images strategy errText) w w' -> no_success w -> no_success w'.
Proof.
  induction 1 as [|w w1 w2 Hs _ IH]; [done|]. intros Hw. apply IH. clear IH.
  destruct Hs as [now uuid cands opts w Hc Hf|now uuid cands order id w Hc Ho Hf|env id w Ho|env order id w Ho|env order id w Ho|r w].
  - by apply run_no_success.
  - unfold RestartTask. destruct (getTask order id (tw_tasks w)) as [t|]; [|done].
    destruct (activeStatus (ta_Status t)); [done|]. by apply run_no_success.
  - by apply turn_no_success.
  - by apply cancel_no_success.
  - unfold DeleteTask. destruct (getTask order id (tw_tasks w)) as [t|]; [|done]. simpl.
    assert (forall w1, no_success w1 -> no_success (tw_with_tasks (deleteTask id) w1)) as Hd.
    { intros w1 [H1 H2]. split; [|done]. intros k row. simpl. intros [Hk _]%map_lookup_filter_Some. by apply (H1 k). }
    case_bool_decide; apply Hd; [by apply cancel_no_success|done].
  - done.
Qed.
End NoSuccess.

(** ** Examples *)

Definition demoRegistry : gmap string WorkerConn := {["a" := conn_of "a" "eu" WorkerStatusReady 4 8192 0]}.
Definition demoRun : RunOpts := mkRunOpts "job" "alpine" "make" [] ∅ "/w" 0 0 [] 60.
Definition noText (e : MgrError) : string := "".
Definition demoTaskEnv (now : Z) (order : list string) : TaskEnv :=
  mkTaskEnv (mkEnv now (fun _ => 0)) (inr (Some "/rootfs")) order.
Definition fresh_manager : TaskWorld := NewTaskManager 0 [] ∅ demoRegistry.
Definition demo_run (now : Z) (uuid : string) (w : TaskWorld) : TaskWorld :=
  (RunTask StrategySpread now uuid (map_to_list (tw_registry w)).*2 demoRun w).1.
Definition demo_turn (now : Z) (id : string) (w : TaskWorld) : TaskWorld :=
  runTurn true noText (demoTaskEnv now (map_to_list (tw_tasks w)).*1) id w.
Definition row_status (id : string) (w : TaskWorld) : option TaskStatus := ta_Status <$> tw_tasks w !! id.
Definition demo_env (now : Z) : Env := mkEnv now (fun _ => 0).

(** A run that nothing disturbs ends with the timeout. *)
Lemma task_times_out :
  let w := demo_turn 5 "u1" (demo_turn 4 "u1" (demo_turn 3 "u1" (demo_turn 2 "u1" (demo_turn 1 "u1"
             (demo_run 0 "u1" fresh_manager))))) in
  row_status "u1" w = Some TaskStatusRunning /\ length (launches "u1" w) = 1 /\
  row_status "u1" (demo_turn (61 * Second) "u1" w) = Some TaskStatusFailed.
Proof. vm_compute. by split_and!. Qed.

(** A task cancelled while its image is pulled is launched all the same, and runs. *)
Lemma cancel_overwritten :
  let w := demo_turn 1 "u1" (demo_run 0 "u1" fresh_manager) in
  let '(w, r) := CancelTask (demo_env 2) ["u1"] "u1" w in
  let w' := demo_turn 5 "u1" (demo_turn 4 "u1" (demo_turn 3 "u1" w)) in
  r = Ok tt /\ row_status "u1" w = Some TaskStatusFailed /\
  row_status "u1" w' = Some TaskStatusRunning /\ length (launches "u1" w') = 1.
Proof. vm_compute. by split_and!. Qed.

(** A pending task that is deleted is launched all the same. *)
Lemma deleted_task_launched :
  let w := demo_turn 1 "u1" (demo_run 0 "u1" fresh_manager) in
  let '(w, r) := DeleteTask (demo_env 2) ["u1"] "u1" w in
  let w' := demo_turn 5 "u1" (demo_turn 4 "u1" (demo_turn 3 "u1" w)) in
  r = Ok tt /\ row_status "u1" w' = None /\ length (launches "u1" w') = 1.
Proof. vm_compute. by split_and!. Qed.

(** Two tasks of one name, as [Restart] makes them: deleting by name looks at the first
    row the store finds and removes both, and the running one is not stopped. *)
Lemma delete_by_name_removes_all :
  let w := demo_run 0 "u1" fresh_manager in
  let w := (CancelTask (demo_env 1) ["u1"] "u1" w).1 in
  let w := (RestartTask StrategySpread 2 "u2" (map_to_list (tw_registry w)).*2 ["u1"] "u1" w).1 in
  let w := demo_turn 5 "u2" (demo_turn 4 "u2" (demo_turn 3 "u2" w)) in
  let '(w', r) := DeleteTask (demo_env 6) ["u1"; "u2"] "job" w in
  row_status "u2" w = Some TaskStatusRunning /\ r = Ok tt /\ row_status "u1" w' = None /\ row_status "u2" w' = None /\
  tw_sent w' = tw_sent w.
Proof. vm_compute. by split_and!. Qed.

(** A task that runs when the manager restarts and is younger than ten minutes keeps its
    status, and no goroutine looks after it. *)
Lemma young_task_stuck :
  let row := ta_mark TaskStatusRunning (savedTask (newTask 0 "u1" demoRun)) in
  let w := NewTaskManager (5 * Minute) ["u1"] {["u1" := row]} demoRegistry in
  row_status "u1" w = Some TaskStatusRunning /\ tw_threads w !! "u1" = None.
Proof. vm_compute. by split_and!. Qed.

(** Rows are found by identifier or name: a task that carries the identifier of another as
    its name hides it, and the goroutine of the other one ends when the first is over. *)
Lemma named_after_another :
  let w := demo_turn 5 "u1" (demo_turn 4 "u1" (demo_turn 3 "u1" (demo_turn 2 "u1" (demo_turn 1 "u1"
             (demo_run 0 "u1" fresh_manager))))) in
  let opts := mkRunOpts "u1" "alpine" "make" [] ∅ "/w" 0 0 [] 60 in
  let w := (RunTask StrategySpread 6 "u2" (map_to_list (tw_registry w)).*2 opts w).1 in
  let w := (CancelTask (demo_env 7) ["u2"; "u1"] "u2" w).1 in
  let w := runTurn true noText (demoTaskEnv 8 ["u2"; "u1"]) "u1" w in
  row_status "u1" w = Some TaskStatusRunning /\ (tt_phase <$> tw_threads w !! "u1") = Some TkDone.
Proof. vm_compute. by split_and!. Qed.

Lemma demo_reachable :
  rtc (task_step true StrategySpread noText) fresh_manager (demo_turn 1 "u1" (demo_run 0 "u1" fresh_manager)).
Proof.
  eapply rtc_l; [|eapply rtc_once].
  - apply (ts_run true StrategySpread noText 0 "u1" (map_to_list demoRegistry).*2 demoRun fresh_manager); [done|].
    split_and!; [by vm_compute|done|by vm_compute|by apply map_Forall_empty].
  - apply (ts_turn true StrategySpread noText (demoTaskEnv 1 (map_to_list (tw_tasks (demo_run 0 "u1" fresh_manager))).*1) "u1").
    assert (tw_tasks (demo_run 0 "u1" fresh_manager) = {["u1" := savedTask (newTask 0 "u1" demoRun)]}) as Heq.
    { vm_compute. reflexivity. }
    unfold demoTaskEnv, te_order, task_order. fold (demo_run 0 "u1" fresh_manager).
    change (RunTask _ _ _ _ _ _).1 with (demo_run 0 "u1" fresh_manager). rewrite Heq, map_to_list_singleton. csimpl.
    split; [apply NoDup_singleton|]. intros k. rewrite list_elem_of_singleton. split; [intros ->; by eexists|].
    intros [row Hr]. by apply lookup_singleton_Some in Hr as [<- _].
Qed.

Lemma tasks_supervised_witness :
  exists th, tw_threads (demo_turn 1 "u1" (demo_run 0 "u1" fresh_manager)) !! "u1" = Some th /\ tt_phase th <> TkDone.
Proof.
  destruct (tasks_supervised true StrategySpread noText 0 [] ∅ demoRegistry (demo_turn 1 "u1" (demo_run 0 "u1" fresh_manager)))
    as (_ & _ & H & _).
  - apply map_Forall_empty.
  - split; [constructor|]. intros k. split; [intros Hk; by apply elem_of_nil in Hk|intros [r Hr]; by rewrite lookup_empty in Hr].
  - apply demo_reachable.
  - destruct (H "u1" (updated (ta_touch 1 (ta_say "pulling image" (ta_place "a" (newTask 0 "u1" demoRun))))
                        (savedTask (newTask 0 "u1" demoRun)))) as [Hth|(row0 & Hr & _)].
    + vm_compute. reflexivity.
    + reflexivity.
    + exact Hth.
    + by rewrite lookup_empty in Hr.
Defined.

