(* ===== verification/Backups.v ===== *)
(** * Database backups ([src/internal/controlplane/database/backup.go])

    Backups of managed databases: the catalog of a database in the object store, creation
    with its roll-back, retention, verification, the scheduler's pass over the databases,
    and the backup of the control plane's own database.  The object store is a map from
    keys to objects; which of its calls work is an argument.  Backups are made one after
    another: those of one database take turns at its catalog (the code's lock), those of
    different databases share no object.  A catalog is stored as JSON
    and read back as it was written; the length of the JSON of a backup is an argument.
    Metrics and the log are left out. *)

From stdpp Require Import options pretty.
From Stdlib Require Import Ascii.
From S2P Require Import Prelude GoStrings GoPath Entities Store Services.
Open Scope nat_scope.

(** ** The catalog *)

Record BackupSegment := mkSegment { bs_Key : string; bs_Size : Z; bs_Timestamp : Z }.
Record BackupChain := mkChain {
  bc_ID : string;
  bc_Engine : string;
  bc_CreatedAt : Z;
  bc_BaseKey : string;
  bc_BaseSize : Z;
  bc_Status : string;
  bc_Segments : list BackupSegment
}.
Record BackupCatalog := mkCatalog {
  bl_Chains : list BackupChain;
  bl_LastFull : Z;
  bl_LastSegment : Z
}.
Definition no_catalog : BackupCatalog := mkCatalog [] 0 0.

(** The objects of the bucket: the record of a backup, a catalog, or a file. *)
Inductive BackupObject :=
  | MetaObject (engine command service_id status : string)
  | CatalogObject (catalog : BackupCatalog)
  | FileObject (data : string).
Abbreviation Objects := (gmap string BackupObject).

(** What a call finds: the clock, a fresh identifier, and which calls of the object store
    work, the uploads by their number. *)
Record BackupEnv := mkBackupEnv {
  be_now : Z;
  be_uuid : string;
  be_get : string -> bool;
  be_put : nat -> bool;
  be_delete : string -> bool;
  be_exists : string -> bool
}.

Definition putObject (env : BackupEnv) (n : nat) (key : string) (o : BackupObject) (objs : Objects) : option Objects :=
  if be_put env n then Some (<[key := o]> objs) else None.
Definition deleteObject (env : BackupEnv) (key : string) (objs : Objects) : Objects :=
  if be_delete env key then delete key objs else objs.

Definition catalogKey (dbName : string) : string := dbName +:+ "/meta.json".
Definition baseKeyOf (dbName chainID : string) : string := dbName +:+ "/chains/" +:+ chainID +:+ "/base.sql.gz".

(** [loadCatalog]: the record of a backup decodes to a catalog without fields. *)
Definition loadCatalog (env : BackupEnv) (dbName : string) (objs : Objects) : option BackupCatalog :=
  if be_get env (catalogKey dbName) then
    match objs !! catalogKey dbName with
    | Some (CatalogObject c) => Some c
    | Some (MetaObject _ _ _ _) => Some no_catalog
    | _ => None
    end
  else None.

(** ** Creating a backup *)

Definition dq : string := String (ascii_of 34) "".

Definition backupCommand (cfg : DatabaseConfig) : option string :=
  let login := SanitizeIdentifier (db_LoginRole cfg) in
  if String.eqb (db_Engine cfg) "postgres" then Some ("pg_dumpall -U '" +:+ login +:+ "' | gzip")
  else if String.eqb (db_Engine cfg) "mysql" then
    Some ("MYSQL_PWD=" +:+ dq +:+ "$MYSQL_ROOT_PASSWORD" +:+ dq +:+ " mysqldump -u '" +:+ login
      +:+ "' --single-transaction --all-databases | gzip")
  else if String.eqb (db_Engine cfg) "redis" then Some "redis-cli BGSAVE && sleep 2 && cat /data/dump.rdb"
  else None.

Inductive BackupError :=
  | EBNotDatabase | EBName (e : NameError) | EBEngine (engine : string) | EBStore | EBCatalog
  | EBLoad | EBNotFound | EBCheck (key : string) | EBMissing (key : string).

Definition Day : Z := 24 * Hour.

(** [enforceRetention]: the chains that stay, and the objects *)
Definition dropChain (env : BackupEnv) (c : BackupChain) (objs : Objects) : Objects :=
  foldl (fun objs s => deleteObject env (bs_Key s) objs) (deleteObject env (bc_BaseKey c) objs) (bc_Segments c).
Fixpoint retainChains (env : BackupEnv) (cutoff : Z) (chains : list BackupChain) (objs : Objects)
    : list BackupChain * Objects :=
  match chains with
  | [] => ([], objs)
  | c :: chains =>
      if (bc_CreatedAt c <? cutoff)%Z then retainChains env cutoff chains (dropChain env c objs)
      else let '(kept, objs) := retainChains env cutoff chains objs in (c :: kept, objs)
  end.
Definition enforceRetention (env : BackupEnv) (catalog : BackupCatalog) (retentionDays : Z) (objs : Objects)
    : BackupCatalog * Objects :=
  if (retentionDays <=? 0)%Z then (catalog, objs)
  else
    let '(kept, objs) := retainChains env (be_now env - retentionDays * Day) (bl_Chains catalog) objs in
    (mkCatalog kept (bl_LastFull catalog) (bl_LastSegment catalog), objs).

Definition retentionOf (cfg : DatabaseConfig) : Z :=
  match db_Backup cfg with Some b => bk_Retention b | None => 7 end.

Section Manager.
Context (jsonLen : BackupObject -> Z).

Definition CreateBackup (env : BackupEnv) (db : Service) (objs : Objects) : Objects * result BackupError string :=
  match do_DatabaseConfig (sv_Opts db) with
  | None => (objs, Err EBNotDatabase)
  | Some cfg =>
      match ValidateDBName (sv_Name db) with
      | Err e => (objs, Err (EBName e))
      | Ok _ =>
          let chainID := take_str 12 (be_uuid env) in
          let baseKey := baseKeyOf (sv_Name db) chainID in
          match backupCommand cfg with
          | None => (objs, Err (EBEngine (db_Engine cfg)))
          | Some command =>
              let meta := MetaObject (db_Engine cfg) command (sv_ID db) "complete" in
              match putObject env 0 baseKey meta objs with
              | None => (objs, Err EBStore)
              | Some objs =>
                  let catalog := default no_catalog (loadCatalog env (sv_Name db) objs) in
                  let chain := mkChain chainID (db_Engine cfg) (be_now env) baseKey (jsonLen meta) "complete" [] in
                  let catalog := mkCatalog (bl_Chains catalog ++ [chain]) (be_now env) (bl_LastSegment catalog) in
                  match putObject env 1 (catalogKey (sv_Name db)) (CatalogObject catalog) objs with
                  | None => (deleteObject env baseKey objs, Err EBCatalog)
                  | Some objs =>
                      let '(catalog, objs) := enforceRetention env catalog (retentionOf cfg) objs in
                      (default objs (putObject env 2 (catalogKey (sv_Name db)) (CatalogObject catalog) objs), Ok chainID)
                  end
              end
          end
      end
  end.

(** [GetBackup], [ListBackups], [VerifyBackup] *)
Definition GetBackup (env : BackupEnv) (dbName backupID : string) (objs : Objects) : result BackupError BackupChain :=
  match loadCatalog env dbName objs with
  | None => Err EBLoad
  | Some catalog =>
      match List.find (fun c => String.eqb (bc_ID c) backupID) (bl_Chains catalog) with
      | Some c => Ok c
      | None => Err EBNotFound
      end
  end.
Definition ListBackups (env : BackupEnv) (dbName : string) (objs : Objects) : BackupCatalog :=
  default no_catalog (loadCatalog env dbName objs).

Definition existsObject (env : BackupEnv) (objs : Objects) (key : string) : result BackupError unit :=
  if negb (be_exists env key) then Err (EBCheck key)
  else if bool_decide (is_Some (objs !! key)) then Ok tt else Err (EBMissing key).
Fixpoint existObjects (env : BackupEnv) (objs : Objects) (keys : list string) : result BackupError unit :=
  match keys with
  | [] => Ok tt
  | key :: keys => _ ← existsObject env objs key; existObjects env objs keys
  end.
Definition VerifyBackup (env : BackupEnv) (dbName backupID : string) (objs : Objects) : result BackupError unit :=
  chain ← GetBackup env dbName backupID objs;
  existObjects env objs (bc_BaseKey chain :: (bs_Key <$> bc_Segments chain)).

(** ** The scheduler *)

(** [loka.ParseScheduleInterval] *)
Definition ParseScheduleInterval (schedule : string) : Z :=
  if Contains schedule "0 0 * * *" then 86400
  else if Contains schedule "*/12" then 43200
  else if Contains schedule "*/6" then 21600
  else if Contains schedule "*/1 " then 3600
  else 21600.

Definition isBackupDue (now : Z) (catalog : option BackupCatalog) (cfg : BackupConfig) : bool :=
  match catalog with
  | None => true
  | Some catalog =>
      if (bl_LastFull catalog =? 0)%Z then true
      else
        let intervalSec := if (bk_IntervalSeconds cfg <=? 0)%Z then ParseScheduleInterval (bk_Schedule cfg)
                           else bk_IntervalSeconds cfg in
        (intervalSec * Second <? now - bl_LastFull catalog)%Z
  end.

(** One database of the pass; [envs] is what the backup of a database finds. *)
Definition backupIfDue (envs : string -> BackupEnv) (objs : Objects) (db : Service) : Objects :=
  match do_DatabaseConfig (sv_Opts db) with
  | Some cfg =>
      match db_Backup cfg with
      | Some b =>
          if bk_Enabled b && String.eqb (db_Role cfg) "primary"
             && isBackupDue (be_now (envs (sv_ID db))) (loadCatalog (envs (sv_ID db)) (sv_Name db) objs) b
          then (CreateBackup (envs (sv_ID db)) db objs).1 else objs
      | None => objs
      end
  | None => objs
  end.

Section pages.
Context {TV : Type} `{!SqlTable Service TV}.

(** [checkAndRunBackups]: pages of fifty, until one is not full *)
Fixpoint backupPages (fuel : nat) (envs : string -> BackupEnv) (offset : Z) (t : TV) (objs : Objects) : option Objects :=
  match fuel with
  | O => None
  | S fuel =>
      match listServices (mkServiceFilter None None None (Some true) None None 50 offset) t with
      | Err _ => Some objs
      | Ok dbs =>
          if bool_decide (dbs = []) then Some objs
          else
            let objs := foldl (backupIfDue envs) objs dbs in
            if (length dbs <? 50) then Some objs else backupPages fuel envs (offset + 50) t objs
      end
  end.
End pages.
End Manager.

(** ** The control plane's own database *)

(** [rotateCPBackups]; [listed] are the keys under ["controlplane/"] as the store lists
    them. *)
Definition rotateCPBackups (env : BackupEnv) (listed : list string) (objs : Objects) : Objects :=
  if length listed <=? 5 then objs
  else foldl (fun objs key => deleteObject env key objs) objs (take (length listed - 5) listed).

(** [checkCPBackup]: the time of the last backup and the objects; [key] carries the time,
    [file] is what opening the database gives. *)
Definition checkCPBackup (env : BackupEnv) (path : string) (interval : Z) (key : string) (file : option string)
    (listing : Objects -> list string) (st : Z * Objects) : Z * Objects :=
  let '(last, objs) := st in
  if String.eqb path "" then st
  else if (be_now env - last <? interval)%Z then st
  else match file with
       | None => st
       | Some data =>
           match putObject env 0 key (FileObject data) objs with
           | None => st
           | Some objs => (be_now env, rotateCPBackups env (listing objs) objs)
           end
       end.

(** ** Keys *)

Definition plain_name (n : string) : Prop := str_mem slash n = false.

Lemma key_split a b r s :
  plain_name a -> plain_name b -> a +:+ String slash r = b +:+ String slash s -> a = b /\ r = s.
Proof.
  intros Ha Hb Heq. pose proof (f_equal (fun x => Split x slash) Heq) as H. simpl in H.
  rewrite !Split_app in H by done. injection H as -> _. split; [done|]. apply (inj (String.append b)) in Heq. congruence.
Qed.

Lemma app_inv_tail_str a b s : a +:+ s = b +:+ s -> a = b.
Proof.
  intros Heq. apply (f_equal bytes_of) in Heq. rewrite !bytes_of_app in Heq. apply app_inv_tail in Heq.
  by apply (inj bytes_of).
Qed.

Lemma catalogKey_inj a b : plain_name a -> plain_name b -> catalogKey a = catalogKey b -> a = b.
Proof. intros Ha Hb Heq. by destruct (key_split a b "meta.json" "meta.json" Ha Hb Heq). Qed.

Lemma catalog_base a b id : plain_name a -> plain_name b -> catalogKey a <> baseKeyOf b id.
Proof. intros Ha Hb Heq. by destruct (key_split a b "meta.json" ("chains/" +:+ id +:+ "/base.sql.gz") Ha Hb Heq). Qed.

Lemma baseKeyOf_inj a b i j : plain_name a -> plain_name b -> baseKeyOf a i = baseKeyOf b j -> a = b /\ i = j.
Proof.
  intros Ha Hb Heq.
  destruct (key_split a b ("chains/" +:+ i +:+ "/base.sql.gz") ("chains/" +:+ j +:+ "/base.sql.gz") Ha Hb Heq) as [-> H].
  split; [done|]. apply (inj (String.append "chains/")) in H. by apply app_inv_tail_str in H.
Qed.

Lemma name_char_plain l :
  forallb (fun c => is_alnum c || (c =? "_")%char || (c =? "-")%char) l = true -> plain_name (String.string_of_list_ascii l).
Proof.
  induction l as [|c l IH]; [done|]. simpl. intros [Hc Hl]%andb_true_iff. unfold plain_name. simpl.
  rewrite (IH Hl), orb_false_r. apply bool_decide_eq_false. intros ->. by vm_compute in Hc.
Qed.

Lemma ValidateDBName_plain n : ValidateDBName n = Ok tt -> plain_name n.
Proof.
  unfold ValidateDBName. destruct (String.eqb n ""); [done|]. destruct (63 <? String.length n); [done|].
  destruct (dbNameRe n) eqn:Hre; [|done]. intros _. revert Hre. unfold dbNameRe.
  rewrite <-(String.string_of_list_ascii_of_string n) at 2.
  destruct (String.list_ascii_of_string n) as [|c l]; [done|]. intros [Hc Hl]%andb_true_iff.
  apply (name_char_plain (c :: l)). simpl. by rewrite Hc, Hl.
Qed.

(** ** What the parts do *)

Lemma deleteObject_lookup env key objs k :
  deleteObject env key objs !! k = objs !! k \/ k = key /\ deleteObject env key objs !! k = None.
Proof.
  unfold deleteObject. destruct (be_delete env key); [|by left].
  destruct (decide (k = key)) as [->|Hk]; [right; by rewrite lookup_delete_eq|left; by rewrite lookup_delete_ne].
Qed.

Lemma deleteObject_other env key objs k : k <> key -> deleteObject env key objs !! k = objs !! k.
Proof. intros Hk. destruct (deleteObject_lookup env key objs k) as [?|[? _]]; done. Qed.

(** Retention keeps the chains from the cutoff on, and removes at most the bases of the
    others. *)
Lemma retainChains_spec env cutoff chains objs :
  Forall (fun c => bc_Segments c = []) chains ->
  let '(kept, objs') := retainChains env cutoff chains objs in
  kept = filter (fun c => cutoff <= bc_CreatedAt c)%Z chains /\
  forall k, Forall (fun c => (bc_CreatedAt c < cutoff)%Z -> bc_BaseKey c <> k) chains -> objs' !! k = objs !! k.
Proof.
  revert objs. induction chains as [|c chains IH]; intros objs Hs; [done|]. cbn [retainChains].
  apply Forall_cons in Hs as [Hc Hs]. destruct (Z.ltb_spec (bc_CreatedAt c) cutoff) as [Hlt|Hge].
  - specialize (IH (dropChain env c objs) Hs). destruct (retainChains _ _ _ _) as [kept objs']. destruct IH as [-> IH].
    rewrite filter_cons_False by lia. split; [done|]. intros k [Hk Hks]%Forall_cons. rewrite IH by done.
    unfold dropChain. rewrite Hc. simpl. apply deleteObject_other. specialize (Hk Hlt). congruence.
  - specialize (IH objs Hs). destruct (retainChains _ _ _ _) as [kept objs']. destruct IH as [-> IH].
    rewrite filter_cons_True by done. split; [done|]. intros k [_ Hks]%Forall_cons. by apply IH.
Qed.

(** ** The invariant *)

Section Invariant.
Context (jsonLen : BackupObject -> Z).
(** No database keeps its backups for fewer days. *)
Context (R : Z).

Record catalog_ok (clock : Z) (objs : Objects) (name : string) (cat : BackupCatalog) : Prop := {
  ck_nodup : NoDup (bc_ID <$> bl_Chains cat);
  ck_key : Forall (fun c => bc_BaseKey c = baseKeyOf name (bc_ID c) /\ bc_Segments c = []) (bl_Chains cat);
  ck_time : Forall (fun c => bc_CreatedAt c <= clock)%Z (bl_Chains cat);
  ck_base : name <> "controlplane" ->
    Forall (fun c => (clock - R * Day <= bc_CreatedAt c)%Z -> is_Some (objs !! bc_BaseKey c)) (bl_Chains cat)
}.

(** A backup that was reported: the database, its identifier and its time. *)
Definition listed_in (objs : Objects) (r : string * string * Z) : Prop :=
  exists cat c, objs !! catalogKey r.1.1 = Some (CatalogObject cat) /\ c ∈ bl_Chains cat /\
    bc_ID c = r.1.2 /\ bc_CreatedAt c = r.2.

Record backups_ok (clock : Z) (hist : list (string * string * Z)) (objs : Objects) : Prop := {
  bo_catalogs name : plain_name name -> match objs !! catalogKey name with
    | Some (CatalogObject cat) => catalog_ok clock objs name cat
    | Some _ => False
    | None => True
    end;
  bo_hist : Forall (fun r => plain_name r.1.1 /\ (r.2 <= clock)%Z /\
    (r.1.1 <> "controlplane" -> (clock - R * Day <= r.2)%Z -> listed_in objs r)) hist
}.

(** The identifier of the call was not drawn before for the database. *)
Definition id_unused (objs : Objects) (name id : string) : Prop :=
  forall cat, objs !! catalogKey name = Some (CatalogObject cat) -> id ∉ bc_ID <$> bl_Chains cat.

Definition keeps_long (db : Service) : Prop :=
  forall cfg, do_DatabaseConfig (sv_Opts db) = Some cfg -> (retentionOf cfg <= 0)%Z \/ (R <= retentionOf cfg)%Z.

Lemma catalog_ok_frame clock clock' objs objs' name cat :
  (clock <= clock')%Z ->
  (name <> "controlplane" ->
     forall c, c ∈ bl_Chains cat -> is_Some (objs !! bc_BaseKey c) -> is_Some (objs' !! bc_BaseKey c)) ->
  catalog_ok clock objs name cat -> catalog_ok clock' objs' name cat.
Proof.
  intros Hc Hb [C1 C2 C3 C4]. constructor; [done|done| |].
  - eapply Forall_impl; [exact C3|]. simpl. lia.
  - intros Hcp. specialize (C4 Hcp). rewrite Forall_forall in *. intros c Hin Hy.
    apply Hb; [done|done|]. apply C4; [done|lia].
Qed.

(** Everything but one database's objects stays. *)
Definition only_of (name : string) (objs objs' : Objects) : Prop :=
  forall k, k <> catalogKey name -> (forall id, k <> baseKeyOf name id) -> objs' !! k = objs !! k.

Lemma backups_ok_change clock clock' hist hist' objs objs' name :
  plain_name name -> (clock <= clock')%Z -> backups_ok clock hist objs -> only_of name objs objs' ->
  match objs' !! catalogKey name with
  | Some (CatalogObject cat) => catalog_ok clock' objs' name cat
  | Some _ => False
  | None => True
  end ->
  Forall (fun r => r ∈ hist /\ (r.1.1 = name -> (clock' - R * Day <= r.2)%Z -> listed_in objs r -> listed_in objs' r) \/
                   r.1.1 = name /\ (r.2 <= clock')%Z /\ listed_in objs' r) hist' ->
  backups_ok clock' hist' objs'.
Proof.
  intros Hn Hc [B1 B2] Ho Hcat Hhist. constructor.
  - intros m Hm. destruct (decide (m = name)) as [->|Hne]; [done|]. specialize (B1 m Hm).
    assert (objs' !! catalogKey m = objs !! catalogKey m) as ->.
    { apply Ho; [by intros ?%catalogKey_inj|]. intros id. by apply catalog_base. }
    destruct (objs !! catalogKey m) as [[|cat|]|]; try done. eapply catalog_ok_frame; [exact Hc| |exact B1].
    intros _ c Hin. pose proof (ck_key _ _ _ _ B1) as Hkey. rewrite Forall_forall in Hkey. destruct (Hkey c Hin) as [-> _].
    rewrite Ho; [done| |].
    { by apply not_eq_sym, catalog_base. }
    intros id' Heq. by apply baseKeyOf_inj in Heq as [? _].
  - rewrite Forall_forall in *. intros r Hr. destruct (Hhist r Hr) as [[Hin Hl]|(Hname & Ht & Hl)].
    + destruct (B2 r Hin) as (P1 & P2 & P3). split_and!; [done|lia|]. intros Hcp Hy.
      destruct (decide (r.1.1 = name)) as [Heq|Hne]; [apply Hl; [done|done|apply P3; [done|lia]]|].
      destruct P3 as (cat & c & Hc1 & Hc2); [done|lia|]. exists cat, c. split; [|done]. rewrite Ho; [done| |].
      * intros ?%catalogKey_inj; done.
      * intros id. by apply catalog_base.
    + rewrite Hname. split_and!; [done|done|]. by intros _ _.
Qed.

Lemma backups_ok_mono clock clock' hist objs :
  (clock <= clock')%Z -> backups_ok clock hist objs -> backups_ok clock' hist objs.
Proof.
  intros Hc [B1 B2]. constructor.
  - intros name Hn. specialize (B1 name Hn). destruct (objs !! catalogKey name) as [[| |]|]; try done.
    by eapply catalog_ok_frame.
  - eapply Forall_impl; [exact B2|]. intros r (P1 & P2 & P3). split_and!; [done|lia|]. intros Hcp Hy. apply P3; [done|lia].
Qed.

(** What retention leaves of a well-formed catalog *)
Lemma enforceRetention_spec env name cat days objs :
  NoDup (bc_ID <$> bl_Chains cat) ->
  Forall (fun c => bc_BaseKey c = baseKeyOf name (bc_ID c) /\ bc_Segments c = []) (bl_Chains cat) ->
  plain_name name -> (days <= 0)%Z \/ (R <= days)%Z ->
  let '(cat', objs') := enforceRetention env cat days objs in
  NoDup (bc_ID <$> bl_Chains cat') /\ (forall c, c ∈ bl_Chains cat' -> c ∈ bl_Chains cat) /\
  (forall c, c ∈ bl_Chains cat -> (be_now env - R * Day <= bc_CreatedAt c)%Z ->
     c ∈ bl_Chains cat' /\ objs' !! bc_BaseKey c = objs !! bc_BaseKey c) /\
  (forall k, (forall id, k <> baseKeyOf name id) -> objs' !! k = objs !! k).
Proof.
  intros Hnd Hkey Hn Hdays. unfold enforceRetention. destruct (Z.leb_spec days 0); [by split_and!|].
  assert (R <= days)%Z as HR by (destruct Hdays; lia).
  pose proof (retainChains_spec env (be_now env - days * Day) (bl_Chains cat) objs) as Hr.
  destruct (retainChains _ _ _ _) as [kept objs']. destruct Hr as [-> Hobjs].
  { eapply Forall_impl; [exact Hkey|]. by intros c [_ ?]. }
  rewrite Forall_forall in Hkey. cbn [bl_Chains]. split_and!.
  - by apply NoDup_fmap_filter.
  - intros c [_ Hin]%list_elem_of_filter. done.
  - intros c Hin Hy. assert (be_now env - days * Day <= bc_CreatedAt c)%Z as Hk by (unfold Day, Hour, Minute, Second in *; lia).
    split; [by apply list_elem_of_filter|]. apply Hobjs, Forall_forall. intros c' Hin' Hold Heq.
    destruct (Hkey c Hin) as [E1 _], (Hkey c' Hin') as [E2 _]. rewrite E1, E2 in Heq.
    apply baseKeyOf_inj in Heq as [_ Hid]; [|done..].
    apply list_elem_of_lookup in Hin as [i Hi], Hin' as [j Hj].
    assert (j = i) as ->.
    { eapply NoDup_lookup; [exact Hnd|rewrite list_lookup_fmap, Hj; reflexivity|]. by rewrite list_lookup_fmap, Hi, Hid. }
    simplify_eq. lia.
  - intros k Hk. apply Hobjs, Forall_forall. intros c Hin _ Heq. destruct (Hkey c Hin) as [E _]. by apply (Hk (bc_ID c)); congruence.
Qed.

Lemma loadCatalog_ok env clock hist objs name :
  backups_ok clock hist objs -> plain_name name -> be_get env (catalogKey name) = true ->
  catalog_ok clock objs name (default no_catalog (loadCatalog env name objs)) /\
  (forall cat, objs !! catalogKey name = Some (CatalogObject cat) -> loadCatalog env name objs = Some cat) /\
  (objs !! catalogKey name = None -> loadCatalog env name objs = None).
Proof.
  intros Hb Hn Hg. unfold loadCatalog. rewrite Hg. pose proof (bo_catalogs _ _ _ Hb name Hn) as Hc.
  destruct (objs !! catalogKey name) as [[|cat|]|]; try done; simpl.
  - split_and!; [done|naive_solver|done].
  - split_and!; [|done|done]. constructor; simpl; constructor.
Qed.

(** The state after a backup that succeeded *)
Lemma create_success env clock hist hist1 objs objs' name cat0 chain catF :
  backups_ok clock hist objs -> plain_name name -> (clock <= be_now env)%Z -> (0 < R)%Z ->
  catalog_ok clock objs name cat0 ->
  (forall r, r ∈ hist1 -> r ∈ hist /\
     (r.1.1 = name -> forall cat, objs !! catalogKey name = Some (CatalogObject cat) -> cat = cat0)) ->
  bc_BaseKey chain = baseKeyOf name (bc_ID chain) -> bc_Segments chain = [] -> bc_CreatedAt chain = be_now env ->
  only_of name objs objs' -> objs' !! catalogKey name = Some (CatalogObject catF) ->
  NoDup (bc_ID <$> bl_Chains catF) ->
  (forall c, c ∈ bl_Chains catF -> c ∈ bl_Chains cat0 \/ c = chain) ->
  (forall c, c ∈ bl_Chains cat0 \/ c = chain -> (be_now env - R * Day <= bc_CreatedAt c)%Z ->
     c ∈ bl_Chains catF /\ (is_Some (objs !! bc_BaseKey c) \/ c = chain -> is_Some (objs' !! bc_BaseKey c))) ->
  backups_ok (be_now env) (hist1 ++ [(name, bc_ID chain, be_now env)]) objs' /\
  listed_in objs' (name, bc_ID chain, be_now env).
Proof.
  intros Hb Hn Hc HR [C1 C2 C3 C4] Hcat0 Hbk Hseg Hcr Ho Hcf Hnd Hsub Hkeep.
  rewrite Forall_forall in C2, C3.
  assert (listed_in objs' (name, bc_ID chain, be_now env)) as Hnew.
  { exists catF, chain. split_and!; [done| |done|done]. apply Hkeep; [by right|]. rewrite Hcr. unfold Day, Hour, Minute, Second. lia. }
  split; [|exact Hnew].
  eapply (backups_ok_change clock _ hist _ objs objs' name); [done..| |].
  - rewrite Hcf. constructor; [done| | |].
    + apply Forall_forall; intros c Hin; destruct (Hsub c Hin) as [H0| ->]; [by apply C2|done].
    + apply Forall_forall; intros c Hin; destruct (Hsub c Hin) as [H0| ->]; [specialize (C3 c H0); simpl in C3|]; lia.
    + intros Hcp. specialize (C4 Hcp). rewrite Forall_forall in C4. apply Forall_forall. intros c Hin Hy.
      destruct (Hsub c Hin) as [H0| ->].
      * apply Hkeep; [by left|done|]. left. apply C4; [done|lia].
      * apply Hkeep; [by right|done|]. by right.
  - apply Forall_app. split; [|apply Forall_singleton; right; split_and!; [done|simpl; lia|done]].
    apply Forall_forall. intros r Hin. destruct (Hcat0 r Hin) as [Hinh Hsame]. left. split; [done|].
    intros Hr Hy (cat & c & Hl & Hc1 & Hc2 & Hc3).
    rewrite Hr in Hl. rewrite (Hsame Hr _ Hl) in Hc1. exists catF, c. rewrite Hr. split_and!; [done| |done|done].
    apply Hkeep; [by left|lia].
Qed.

(** Identifiers tell the chains of a catalog apart. *)
Lemma same_chain l c c' :
  NoDup (bc_ID <$> l) -> c ∈ l -> c' ∈ l -> bc_ID c = bc_ID c' -> c = c'.
Proof.
  intros Hnd [i Hi]%list_elem_of_lookup [j Hj]%list_elem_of_lookup Hid.
  assert (i = j) as ->; [|congruence].
  eapply NoDup_lookup; [exact Hnd|rewrite list_lookup_fmap, Hi; reflexivity|]. by rewrite list_lookup_fmap, Hj, Hid.
Qed.

(** A listed backup that is young enough verifies. *)
Lemma listed_verifies env clock hist objs r :
  backups_ok clock hist objs -> plain_name r.1.1 -> r.1.1 <> "controlplane" -> listed_in objs r ->
  (clock - R * Day <= r.2)%Z ->
  (forall k, be_get env k = true) -> (forall k, be_exists env k = true) ->
  VerifyBackup env r.1.1 r.1.2 objs = Ok tt.
Proof.
  intros Hb Hn Hcp (cat & c & Hl & Hin & Hid & Ht) Hy Hget Hex.
  pose proof (bo_catalogs _ _ _ Hb _ Hn) as Hc. rewrite Hl in Hc. destruct Hc as [N1 N2 _ N4]. specialize (N4 Hcp).
  unfold VerifyBackup, GetBackup, loadCatalog. rewrite Hget, Hl.
  destruct (List.find _ _) as [c'|] eqn:Hf.
  2: { assert (In c (bl_Chains cat)) as HIn by by apply list_elem_of_In.
    pose proof (find_none _ _ Hf c HIn) as Hne. cbv beta in Hne. rewrite Hid, String.eqb_refl in Hne. discriminate Hne. }
  apply find_some in Hf as [Hin'%list_elem_of_In Hid'%String.eqb_eq].
  assert (c' = c) as -> by (eapply same_chain; [done..|congruence]).
  rewrite Forall_forall in N2, N4. destruct (N2 c Hin) as [_ Hseg]. simpl. rewrite Hseg. simpl.
  unfold existsObject. rewrite Hex. simpl. rewrite bool_decide_eq_true_2; [done|]. apply N4; [done|lia].
Qed.

(** The history of reported backups after one more call.  A backup that was made without
    reading the catalog leaves no other of its database in it. *)
Definition still_known (env : BackupEnv) (name : string) (hist : list (string * string * Z)) : list (string * string * Z) :=
  if be_get env (catalogKey name) then hist else filter (fun r => r.1.1 <> name) hist.
Definition reported (env : BackupEnv) (db : Service) (r : result BackupError string)
    (hist : list (string * string * Z)) : list (string * string * Z) :=
  match r with Ok id => still_known env (sv_Name db) hist ++ [(sv_Name db, id, be_now env)] | Err _ => hist end.

(** The roll-back when the catalog cannot be saved *)
Lemma create_rollback env clock hist objs name id meta :
  backups_ok clock hist objs -> plain_name name -> (clock <= be_now env)%Z -> id_unused objs name id ->
  backups_ok (be_now env) hist (deleteObject env (baseKeyOf name id) (<[baseKeyOf name id := meta]> objs)).
Proof.
  intros Hb Hn Hc Hid. set (base := baseKeyOf name id). set (objs' := deleteObject _ _ _).
  assert (forall k, k <> base -> objs' !! k = objs !! k) as Hsame.
  { intros k Hk. unfold objs'. rewrite deleteObject_other by done. by rewrite lookup_insert_ne. }
  assert (objs' !! catalogKey name = objs !! catalogKey name) as Hcat by (apply Hsame; by apply catalog_base).
  eapply (backups_ok_change clock _ hist _ objs objs' name); [done..| | |].
  - intros k _ Hk2. apply Hsame, Hk2.
  - rewrite Hcat. pose proof (bo_catalogs _ _ _ Hb name Hn) as H.
    destruct (objs !! catalogKey name) as [[|cat|]|] eqn:Hl; try done.
    eapply catalog_ok_frame; [exact Hc| |exact H]. intros _ c Hin Hs.
    pose proof (ck_key _ _ _ _ H) as Hkey. rewrite Forall_forall in Hkey. destruct (Hkey c Hin) as [Hk _].
    rewrite Hsame; [done|]. rewrite Hk. intros [_ Heq]%baseKeyOf_inj; [|done..].
    apply (Hid cat Hl). rewrite <-Heq. by apply list_elem_of_fmap_2.
  - apply Forall_forall. intros r Hin. left. split; [done|]. intros Hr _ (cat & c & Hl & Hrest).
    exists cat, c. split; [|done]. rewrite Hr in *. by rewrite Hcat.
Qed.

(** What a backup starts from: the catalog, or none when it cannot be read. *)
Lemma catalog_found env clock hist objs name id :
  backups_ok clock hist objs -> plain_name name -> id_unused objs name id ->
  let cat0 := default no_catalog (loadCatalog env name objs) in
  catalog_ok clock objs name cat0 /\ id ∉ bc_ID <$> bl_Chains cat0 /\
  forall r, r ∈ still_known env name hist -> r ∈ hist /\
    (r.1.1 = name -> forall cat, objs !! catalogKey name = Some (CatalogObject cat) -> cat = cat0).
Proof.
  intros Hb Hv Hid cat0. unfold still_known. destruct (be_get env (catalogKey name)) eqn:Hg.
  - destruct (loadCatalog_ok env clock hist objs name Hb Hv Hg) as (Hcat0 & Hload & Hnone). fold cat0 in Hcat0.
    assert (forall cat, objs !! catalogKey name = Some (CatalogObject cat) -> cat = cat0) as Heq0.
    { intros cat Hl. unfold cat0. by rewrite (Hload _ Hl). }
    split_and!; [done| |by intros r Hr].
    pose proof (bo_catalogs _ _ _ Hb name Hv) as H. destruct (objs !! catalogKey name) as [[|cat|]|] eqn:Hl; [done| |done|].
    + rewrite <-(Heq0 cat eq_refl). by apply Hid.
    + unfold cat0. rewrite Hnone by done. apply not_elem_of_nil.
  - assert (cat0 = no_catalog) as -> by (unfold cat0, loadCatalog; by rewrite Hg). split_and!.
    + constructor; simpl; [constructor..|]. intros _. constructor.
    + apply not_elem_of_nil.
    + intros r [Hne Hr]%list_elem_of_filter. done.
Qed.

(** Saving, retention, saving again *)
Lemma create_saved env clock hist objs name cfg id meta size :
  backups_ok clock hist objs -> plain_name name -> (clock <= be_now env)%Z -> (0 < R)%Z ->
  (retentionOf cfg <= 0)%Z \/ (R <= retentionOf cfg)%Z -> id_unused objs name id ->
  let cat0 := default no_catalog (loadCatalog env name objs) in
  let chain := mkChain id (db_Engine cfg) (be_now env) (baseKeyOf name id) size "complete" [] in
  let cat1 := mkCatalog (bl_Chains cat0 ++ [chain]) (be_now env) (bl_LastSegment cat0) in
  let objs2 := <[catalogKey name := CatalogObject cat1]> (<[baseKeyOf name id := meta]> objs) in
  let '(cat2, objs3) := enforceRetention env cat1 (retentionOf cfg) objs2 in
  let objs4 := default objs3 (putObject env 2 (catalogKey name) (CatalogObject cat2) objs3) in
  backups_ok (be_now env) (still_known env name hist ++ [(name, id, be_now env)]) objs4 /\
  listed_in objs4 (name, id, be_now env).
Proof.
  intros Hb Hv Hc HR Hdays Hid cat0 chain cat1 objs2. set (base := baseKeyOf name id) in *.
  destruct (catalog_found env clock hist objs name id Hb Hv Hid) as (Hcat0 & Hfresh & Heq0). fold cat0 in Hcat0, Hfresh, Heq0.
  assert (NoDup (bc_ID <$> bl_Chains cat1)) as Hnd1.
  { cbn [cat1 bl_Chains]. rewrite fmap_app. apply NoDup_app. split_and!; [apply Hcat0| |apply NoDup_singleton].
    intros x Hx ->%list_elem_of_singleton. done. }
  assert (Forall (fun c => bc_BaseKey c = baseKeyOf name (bc_ID c) /\ bc_Segments c = []) (bl_Chains cat1)) as Hkey1.
  { cbn [cat1 bl_Chains]. apply Forall_app. split; [apply Hcat0|]. by apply Forall_singleton. }
  pose proof (enforceRetention_spec env name cat1 (retentionOf cfg) objs2 Hnd1 Hkey1 Hv Hdays) as Hret.
  destruct (enforceRetention env cat1 (retentionOf cfg) objs2) as [cat2 objs3].
  destruct Hret as (R1 & R2 & R3 & R4). set (objs4 := default objs3 _).
  assert (exists catF, objs4 !! catalogKey name = Some (CatalogObject catF) /\ (catF = cat1 \/ catF = cat2) /\
    forall k, k <> catalogKey name -> objs4 !! k = objs3 !! k) as (catF & HF & HFc & Hoth).
  { unfold objs4, putObject. destruct (be_put env 2); simpl.
    - exists cat2. split_and!; [by rewrite lookup_insert_eq|by right|]. intros k Hk. by rewrite lookup_insert_ne.
    - exists cat1. split_and!; [|by left|done]. rewrite R4 by (intros i; by apply catalog_base). unfold objs2.
      by rewrite lookup_insert_eq. }
  eapply (create_success env clock hist (still_known env name hist) objs objs4 name cat0 chain catF); [done..| |exact HF| | |].
  - intros k Hk1 Hk2. rewrite Hoth, R4 by done. unfold objs2.
    rewrite lookup_insert_ne by (by apply not_eq_sym). by rewrite lookup_insert_ne by (apply not_eq_sym, Hk2).
  - by destruct HFc as [->| ->].
  - intros c Hin. assert (c ∈ bl_Chains cat1) as Hin1 by (destruct HFc as [->| ->]; auto).
    cbn [cat1 bl_Chains] in Hin1. apply elem_of_app in Hin1 as [?|?%list_elem_of_singleton]; auto.
  - intros c Hin Hy.
    assert (c ∈ bl_Chains cat1) as Hin1.
    { cbn [cat1 bl_Chains]. apply elem_of_app. destruct Hin as [?| ->]; [by left|right; by apply list_elem_of_singleton]. }
    destruct (R3 c Hin1 Hy) as [Hin2 Hobj]. split; [by destruct HFc as [->| ->]|].
    rewrite Forall_forall in Hkey1. destruct (Hkey1 c Hin1) as [Hkc _].
    rewrite Hoth by (rewrite Hkc; by apply not_eq_sym, catalog_base). rewrite Hobj. unfold objs2.
    rewrite lookup_insert_ne by (rewrite Hkc; by apply catalog_base).
    destruct (decide (bc_BaseKey c = base)) as [->|Hne]; [rewrite lookup_insert_eq; by eexists|].
    rewrite lookup_insert_ne by done. intros [Hs| ->]; done.
Qed.

Lemma CreateBackup_ok env db clock hist objs :
  backups_ok clock hist objs -> (clock <= be_now env)%Z -> (0 < R)%Z -> keeps_long db ->
  id_unused objs (sv_Name db) (take_str 12 (be_uuid env)) ->
  let '(objs', r) := CreateBackup jsonLen env db objs in
  backups_ok (be_now env) (reported env db r hist) objs' /\
  forall id, r = Ok id -> plain_name (sv_Name db) /\ listed_in objs' (sv_Name db, id, be_now env).
Proof.
  intros Hb Hc HR Hlong Hid. unfold CreateBackup.
  assert (backups_ok (be_now env) hist objs) as Hmono by by eapply backups_ok_mono.
  destruct (do_DatabaseConfig (sv_Opts db)) as [cfg|] eqn:Hcfg; [|done].
  destruct (ValidateDBName (sv_Name db)) as [[]|e] eqn:Hv; [|done]. apply ValidateDBName_plain in Hv.
  destruct (backupCommand cfg) as [cmd|]; [|done].
  set (meta := MetaObject _ _ _ _). unfold putObject at 1. destruct (be_put env 0); [|done].
  assert (loadCatalog env (sv_Name db) (<[baseKeyOf (sv_Name db) (take_str 12 (be_uuid env)) := meta]> objs)
          = loadCatalog env (sv_Name db) objs) as ->.
  { unfold loadCatalog. rewrite lookup_insert_ne; [done|]. by apply not_eq_sym, catalog_base. }
  unfold putObject at 1. destruct (be_put env 1).
  - pose proof (create_saved env clock hist objs (sv_Name db) cfg _ meta (jsonLen meta) Hb Hv Hc HR (Hlong _ Hcfg) Hid) as H.
    cbv zeta in H. destruct (enforceRetention _ _ _ _) as [cat2 objs3]. destruct H as [H1 H2]. split; [exact H1|].
    by intros id [= <-].
  - split; [|done]. by eapply create_rollback.
Qed.

(** *** The backups of the control plane *)

Definition cp_key (k : string) : Prop := exists rest, k = "controlplane/" +:+ rest.

Lemma cp_key_other k name :
  cp_key k -> plain_name name -> name <> "controlplane" -> catalogKey name <> k /\ forall id, baseKeyOf name id <> k.
Proof.
  intros [rest ->] Hn Hne. split; [intros Heq|intros id Heq].
  - by destruct (key_split name "controlplane" "meta.json" rest Hn eq_refl Heq).
  - by destruct (key_split name "controlplane" ("chains/" +:+ id +:+ "/base.sql.gz") rest Hn eq_refl Heq).
Qed.

(** What the rotation leaves: fewer objects, and only of the control plane's. *)
Definition cp_change (objs objs' : Objects) : Prop :=
  (forall k, ~ cp_key k -> objs' !! k = objs !! k) /\
  (objs' !! catalogKey "controlplane" = objs !! catalogKey "controlplane" \/ objs' !! catalogKey "controlplane" = None).

Lemma rotate_cp_change env listed objs :
  (forall k, k ∈ listed -> cp_key k) -> cp_change objs (rotateCPBackups env listed objs).
Proof.
  intros Hl. unfold rotateCPBackups. destruct (_ <=? 5); [by split; [|left]|].
  assert (forall k, k ∈ take (length listed - 5) listed -> cp_key k) as Ht.
  { intros k Hk. apply Hl. by eapply subseteq_take. }
  revert objs. induction (take _ listed) as [|key keys IH]; intros objs; [by split; [|left]|]. cbn [foldl].
  destruct (IH (fun k Hk => Ht k ltac:(by right)) (deleteObject env key objs)) as [H1 H2]. split.
  - intros k Hk. rewrite H1 by done. apply deleteObject_other. intros ->. apply Hk, Ht. by left.
  - destruct H2 as [->|H2]; [|by right].
    destruct (deleteObject_lookup env key objs (catalogKey "controlplane")) as [?|[_ ?]]; [by left|by right].
Qed.

Lemma cp_change_ok clock clock' hist objs objs' :
  backups_ok clock hist objs -> (clock <= clock')%Z -> cp_change objs objs' -> backups_ok clock' hist objs'.
Proof.
  intros [B1 B2] Hc [Hf Hcp].
  assert (forall name, plain_name name -> name <> "controlplane" ->
    objs' !! catalogKey name = objs !! catalogKey name /\ forall id, objs' !! baseKeyOf name id = objs !! baseKeyOf name id) as Hsame.
  { intros name Hn Hne. split; [|intros id]; apply Hf; intros Hk; destruct (cp_key_other _ name Hk Hn Hne) as [H1 H2];
      [done|by apply (H2 id)]. }
  constructor.
  - intros name Hn. specialize (B1 name Hn). destruct (decide (name = "controlplane")) as [->|Hne].
    + destruct Hcp as [->| ->]; [|done]. destruct (objs !! catalogKey "controlplane") as [[|cat|]|]; try done.
      by apply (catalog_ok_frame clock _ objs).
    + destruct (Hsame name Hn Hne) as [-> Hb]. destruct (objs !! catalogKey name) as [[|cat|]|]; try done.
      eapply catalog_ok_frame; [exact Hc| |exact B1]. intros _ c Hin.
      pose proof (ck_key _ _ _ _ B1) as Hkey. rewrite Forall_forall in Hkey. destruct (Hkey c Hin) as [-> _]. by rewrite Hb.
  - eapply Forall_impl; [exact B2|]. intros r (P1 & P2 & P3). split_and!; [done|lia|]. intros Hne Hy.
    destruct P3 as (cat & c & Hl & Hrest); [done|lia|]. exists cat, c. by rewrite (proj1 (Hsame _ P1 Hne)).
Qed.

Lemma checkCPBackup_change env path interval ts file listing last objs :
  (forall o k, k ∈ listing o -> cp_key k) ->
  cp_change objs (checkCPBackup env path interval ("controlplane/loka-" +:+ ts) file listing (last, objs)).2.
Proof.
  intros Hl. unfold checkCPBackup. destruct (_ =? _)%string; [by split; [|left]|]. destruct (_ <? interval)%Z; [by split; [|left]|].
  destruct file as [data|]; [|by split; [|left]]. unfold putObject. destruct (be_put env 0); [|by split; [|left]].
  cbn [snd]. set (key := "controlplane/loka-" +:+ ts). set (objs1 := <[key := _]> objs).
  destruct (rotate_cp_change env (listing objs1) objs1 (Hl objs1)) as [H1 H2].
  assert (cp_key key) as Hkey by (by exists ("loka-" +:+ ts)).
  split.
  - intros k Hk. rewrite H1 by done. unfold objs1. apply lookup_insert_ne. by intros <-.
  - assert (objs1 !! catalogKey "controlplane" = objs !! catalogKey "controlplane") as <-; [|done].
    unfold objs1. rewrite lookup_insert_ne; [done|]. unfold key, catalogKey. simpl. intros Heq. discriminate Heq.
Qed.

(** Backups of any databases in turn and the rotation of the control plane's own, with
    the history of those that were reported; each step may find any call of the object
    store failing. *)
Inductive backup_run : Z -> list (string * string * Z) -> Objects -> Prop :=
  | run_start clock : backup_run clock [] ∅
  | run_create clock hist objs env db objs' r :
      backup_run clock hist objs -> (clock <= be_now env)%Z ->
      keeps_long db -> id_unused objs (sv_Name db) (take_str 12 (be_uuid env)) ->
      CreateBackup jsonLen env db objs = (objs', r) ->
      backup_run (be_now env) (reported env db r hist) objs'
  | run_controlplane clock hist objs env path interval ts file listing last :
      backup_run clock hist objs -> (clock <= be_now env)%Z -> (forall o k, k ∈ listing o -> cp_key k) ->
      backup_run (be_now env) hist
        (checkCPBackup env path interval ("controlplane/loka-" +:+ ts) file listing (last, objs)).2.

(** C37 Whatever calls of the object store fail during the backups of any databases, with
    the control plane's own backups and their rotation between them: a backup that was
    reported is listed and verifies, once the store can be read again, as long as it is
    younger than the retention of every database and no later backup of its database was
    made while the catalog could not be read - such a one replaces the catalog
    ([unreadable_catalog_lost]).  The roll-back of one, the retention of another or a
    catalog that could not be saved again never take it away.  Only a database named
    "controlplane" is not safe, its backups are rotated with the control plane's
    ([rotation_takes_database]).  A catalog lists only backups of its own, each once.  The
    clock does not go back and the identifiers drawn are fresh. *)
Theorem backups_survive clock hist objs env :
  (0 < R)%Z -> backup_run clock hist objs ->
  (forall k, be_get env k = true) -> (forall k, be_exists env k = true) ->
  (forall name id t, (name, id, t) ∈ hist -> name <> "controlplane" -> (clock - R * Day <= t)%Z ->
     VerifyBackup env name id objs = Ok tt /\ exists c, c ∈ bl_Chains (ListBackups env name objs) /\ bc_ID c = id) /\
  (forall name, plain_name name -> let chains := bl_Chains (ListBackups env name objs) in
     NoDup (bc_ID <$> chains) /\ Forall (fun c => bc_BaseKey c = baseKeyOf name (bc_ID c)) chains).
Proof.
  intros HR Hrun Hget Hex.
  assert (backups_ok clock hist objs) as Hb.
  { induction Hrun as [clock|clock hist objs env' db objs' r _ IH Hc Hl Hid Hcr|clock hist objs env' ? ? ? ? ? ? _ IH Hc Hl].
    - constructor; [intros name _; by rewrite lookup_empty|constructor].
    - pose proof (CreateBackup_ok env' db clock hist objs IH Hc HR Hl Hid) as H. rewrite Hcr in H. by destruct H.
    - eapply cp_change_ok; [exact IH|done|]. by apply checkCPBackup_change. }
  split.
  - intros name id t Hin Hcp Hy. pose proof (bo_hist _ _ _ Hb) as Hh. rewrite Forall_forall in Hh.
    destruct (Hh _ Hin) as (Hn & _ & Hl). simpl in Hn, Hl. specialize (Hl Hcp Hy).
    split; [by apply (listed_verifies env clock hist objs (name, id, t))|].
    destruct Hl as (cat & c & Hl & Hc & Hci & _). exists c. split; [|done].
    unfold ListBackups, loadCatalog. simpl in Hl. by rewrite Hget, Hl.
  - intros name Hn. destruct (loadCatalog_ok env clock hist objs name Hb Hn (Hget _)) as ([C1 C2 _ _] & _).
    split; [exact C1|]. eapply Forall_impl; [exact C2|]. by intros c [? _].
Qed.
End Invariant.

(** ** The pages of the scheduler *)

Section Pages.
Context {TV : Type} `{!SqlTable Service TV}.
Context (jsonLen : BackupObject -> Z) (envs : string -> BackupEnv).

Definition databaseFilter (limit offset : Z) : ServiceFilter :=
  mkServiceFilter None None None (Some true) None None limit offset.

Lemma list_page t o rows :
  listServices (databaseFilter 0 0) t = Ok rows -> (0 <= o)%Z ->
  listServices (databaseFilter 50 o) t = Ok (take 50 (drop (Z.to_nat o) rows)).
Proof.
  unfold listServices. cbn. intros [= <-] Ho. destruct (Z.ltb_spec 0 o); [done|].
  by replace o with 0%Z by lia.
Qed.

Lemma backupPages_from fuel o t objs rows :
  listServices (databaseFilter 0 0) t = Ok rows -> (0 <= o)%Z -> length rows - Z.to_nat o < 50 * fuel ->
  backupPages jsonLen fuel envs o t objs = Some (foldl (backupIfDue jsonLen envs) objs (drop (Z.to_nat o) rows)).
Proof.
  intros Hrows. revert o objs. induction fuel as [|fuel IH]; intros o objs Ho Hl; cbn [backupPages].
  - lia.
  - fold (databaseFilter 50 o). rewrite (list_page t o rows Hrows Ho).
    set (rest := drop (Z.to_nat o) rows). assert (length rest = length rows - Z.to_nat o) as Hrest by apply length_drop.
    case_bool_decide as He.
    + destruct rest; [done|discriminate He].
    + rewrite length_take. destruct (Nat.ltb_spec (50 `min` length rest) 50).
      * by rewrite take_ge by lia.
      * rewrite IH by lia. replace (Z.to_nat (o + 50)) with (Z.to_nat o + 50) by lia.
        rewrite <-drop_drop. fold rest. rewrite <-foldl_app, take_drop. done.
Qed.

(** The pages together are all databases, each looked at once, and fifty at a time end. *)
Lemma backupPages_all t objs rows :
  listServices (databaseFilter 0 0) t = Ok rows ->
  backupPages jsonLen (S (length rows)) envs 0 t objs = Some (foldl (backupIfDue jsonLen envs) objs rows).
Proof. intros Hrows. rewrite (backupPages_from _ _ _ _ _ Hrows) by lia. done. Qed.
End Pages.

(** ** Examples *)

Definition demoBackupEnv (now : Z) (uuid : string) : BackupEnv :=
  mkBackupEnv now uuid (fun _ => true) (fun _ => true) (fun _ => true) (fun _ => true).
Definition backupDbCfg (engine : string) (retention : Z) : DatabaseConfig :=
  mkDatabase engine "16" "app" "primary" "" (Some (mkBackup true "0 */6 * * *" retention true 0)) "app_rw" "app_owner"
    "app_login" "secret" "" 0 "" "".
Definition noOpts : DeployOpts :=
  mkDeploy "" "" "" "" [] ∅ "" 0 0 0 [] "" 0 "" 0 0 0 ∅ [] None None ∅ 0 "" "".
Definition backupDb (name : string) (cfg : DatabaseConfig) : Service :=
  mkService ("id-" +:+ name)
    (mkDeploy name "postgres:16" "" "" [] ∅ "" 5432 1 512 [] "" 0 "" 0 0 0 ∅ [] None (Some cfg) ∅ 0 "" "")
    ServiceStatusRunning "w" "" "" "" "" 0 "" true "" 0 0 0.
Definition demoLen (o : BackupObject) : Z := 100.
Definition days (n : Z) : Z := n * Day.

Definition backup_at (now : Z) (uuid : string) (db : Service) (objs : Objects) : Objects :=
  (CreateBackup demoLen (demoBackupEnv now uuid) db objs).1.

(** The first backup of a week goes when the eighth day's is made. *)
Lemma retention_example :
  let db := backupDb "app" (backupDbCfg "postgres" 7) in
  let objs := backup_at (days 9) "bbbbbbbbbbbbbbbb" db (backup_at (days 1) "aaaaaaaaaaaaaaaa" db ∅) in
  (bc_ID <$> bl_Chains (ListBackups (demoBackupEnv 0 "") "app" objs)) = ["bbbbbbbbbbbb"] /\
  objs !! baseKeyOf "app" "aaaaaaaaaaaa" = None.
Proof. vm_compute. by split_and!. Qed.

(** What is stored as a backup is the text of a command that nothing runs, and its status
    is complete. *)
Lemma backup_holds_no_data :
  backup_at (days 1) "aaaaaaaaaaaaaaaa" (backupDb "app" (backupDbCfg "postgres" 7)) ∅ !! baseKeyOf "app" "aaaaaaaaaaaa"
  = Some (MetaObject "postgres" "pg_dumpall -U 'app_login' | gzip" "id-app" "complete").
Proof. by vm_compute. Qed.

(** When the catalog cannot be read, it is replaced by one with the new backup alone. *)
Lemma unreadable_catalog_lost :
  let db := backupDb "app" (backupDbCfg "postgres" 7) in
  let objs := backup_at (days 1) "aaaaaaaaaaaaaaaa" db ∅ in
  let env := mkBackupEnv (days 2) "bbbbbbbbbbbbbbbb" (fun _ => false) (fun _ => true) (fun _ => true) (fun _ => true) in
  let '(objs', r) := CreateBackup demoLen env db objs in
  r = Ok "bbbbbbbbbbbb" /\
  (bc_ID <$> bl_Chains (ListBackups (demoBackupEnv 0 "") "app" objs')) = ["bbbbbbbbbbbb"].
Proof. vm_compute. by split_and!. Qed.

(** A database named "controlplane" keeps its backups where those of the control plane
    are rotated. *)
Lemma rotation_takes_database :
  let db := backupDb "controlplane" (backupDbCfg "postgres" 7) in
  let objs := backup_at (days 1) "aaaaaaaaaaaaaaaa" db ∅ in
  let listed := [baseKeyOf "controlplane" "aaaaaaaaaaaa"; "controlplane/loka-1.db"; "controlplane/loka-2.db";
                 "controlplane/loka-3.db"; "controlplane/loka-4.db"; "controlplane/meta.json"] in
  is_ok (ValidateDBName "controlplane") = true /\
  VerifyBackup (demoBackupEnv 0 "") "controlplane" "aaaaaaaaaaaa" (rotateCPBackups (demoBackupEnv 0 "") listed objs)
  = Err (EBMissing (baseKeyOf "controlplane" "aaaaaaaaaaaa")).
Proof. vm_compute. by split_and!. Qed.

(** A schedule that is none of the known patterns is taken for every six hours. *)
Lemma weekly_is_every_six_hours : ParseScheduleInterval "0 3 * * 0" = 21600%Z.
Proof. by vm_compute. Qed.

Lemma backups_survive_witness :
  let db := backupDb "app" (backupDbCfg "postgres" 7) in
  VerifyBackup (demoBackupEnv (days 2) "") "app" "aaaaaaaaaaaa" (backup_at (days 1) "aaaaaaaaaaaaaaaa" db ∅) = Ok tt.
Proof.
  intros db.
  apply (backups_survive demoLen 7 (days 1)
    (reported (demoBackupEnv (days 1) "aaaaaaaaaaaaaaaa") db (Ok "aaaaaaaaaaaa") [])
    (backup_at (days 1) "aaaaaaaaaaaaaaaa" db ∅) (demoBackupEnv (days 2) ""))
    with (t := days 1).
  - reflexivity.
  - apply (run_create demoLen 7 (days 1) [] ∅ (demoBackupEnv (days 1) "aaaaaaaaaaaaaaaa") db).
    + apply run_start.
    + reflexivity.
    + intros cfg Hcfg. injection Hcfg as <-. right. vm_compute. discriminate.
    + intros cat Hc. rewrite lookup_empty in Hc. discriminate Hc.
    + vm_compute. reflexivity.
  - reflexivity.
  - reflexivity.
  - apply list_elem_of_singleton. reflexivity.
  - discriminate.
  - vm_compute. discriminate.
Defined.
