(* ===== verification/Databases.v ===== *)
(** * Managed databases ([src/internal/controlplane/api/databases.go])

    The handlers of the database API over the service manager ([ServiceManager.v]) and the
    backups ([Backups.v]): creation with replicas and sentinels, destruction, rotation of
    credentials with a grace period and the reaper that ends it, replicas, backups, upgrade
    and roll-back, with the commands that run inside the database ([loka/database.go]).
    A handler gets the decoded body, or nothing when it does not decode, and ends with what
    it answers or with an error and its HTTP status; it runs without interruption, except
    that creation may wait for others.  Random bytes are drawn from a sequence; the table of
    printable characters above ASCII is an argument.  The answer to [getDatabaseLogs], the
    log and the metrics are left out. *)

From stdpp Require Import sorting pretty options.
From Stdlib Require Import Ascii.
From S2P Require Import Prelude Effects GoStrings GoPath Float64 Words Filesystem Network Policy Entities.
From S2P Require Import Store VolumeManager Services Registry Scheduler ServiceManager Backups.
Open Scope nat_scope.

(** ** Texts *)

(** [strconv.Quote]; [printable] is [strconv.IsPrint] above ASCII. *)
Definition hex_digit (n : Z) : ascii := ascii_of (if n <? 10 then 48 + n else 87 + n)%Z.
Fixpoint hex_fixed (width : nat) (n : Z) : string :=
  match width with
  | O => ""
  | S width => hex_fixed width (n / 16) +:+ String (hex_digit (n mod 16)) ""
  end.

Definition escapedRune (printable : Z -> bool) (r : Z) (bytes : list Z) : string :=
  if (r =? 34)%Z || (r =? 92)%Z then String "\" (String (ascii_of r) "")
  else if (if (r <? 128)%Z then in_range 32 126 r else printable r) then string_of bytes
  else if (r =? 7)%Z then "\a" else if (r =? 8)%Z then "\b" else if (r =? 12)%Z then "\f"
  else if (r =? 10)%Z then "\n" else if (r =? 13)%Z then "\r" else if (r =? 9)%Z then "\t"
  else if (r =? 11)%Z then "\v"
  else if (r <? 32)%Z || (r =? 127)%Z then "\x" +:+ hex_fixed 2 r
  else if (r <? 65536)%Z then "\u" +:+ hex_fixed 4 r
  else "\U" +:+ hex_fixed 8 r.
Fixpoint quoteRunes (printable : Z -> bool) (fuel : nat) (l : list Z) : string :=
  match fuel, l with
  | S fuel, b :: _ =>
      let '(r, width) := DecodeRune l in
      (if (width =? 1) && (r =? RuneError)%Z then "\x" +:+ hex_fixed 2 b
       else escapedRune printable r (take width l)) +:+ quoteRunes printable fuel (drop width l)
  | _, _ => ""
  end.
Definition GoQuote (printable : Z -> bool) (s : string) : string :=
  dq +:+ quoteRunes printable (String.length s) (bytes_of s) +:+ dq.

(** [t.UTC()] of an instant: year, month, day and the seconds of the day. *)
Definition civil (t : Z) : Z * Z * Z * Z :=
  let secs := (t / Second)%Z in
  let z := (secs / 86400 + 306)%Z in
  let era := (z / 146097)%Z in
  let doe := (z mod 146097)%Z in
  let yoe := ((doe - doe / 1460 + doe / 36524 - doe / 146096) / 365)%Z in
  let doy := (doe - (365 * yoe + yoe / 4 - yoe / 100))%Z in
  let mp := ((5 * doy + 2) / 153)%Z in
  let d := (doy - (153 * mp + 2) / 5 + 1)%Z in
  let m := (if mp <? 10 then mp + 3 else mp - 9)%Z in
  let y := (yoe + era * 400 + (if m <=? 2 then 1 else 0))%Z in
  (y, m, d, (secs mod 86400)%Z).
Fixpoint pad_dec (width : nat) (n : Z) : string :=
  match width with
  | O => ""
  | S width => pad_dec width (n / 10) +:+ String (ascii_of (48 + n mod 10)) ""
  end.
Definition clockText (secs : Z) : string :=
  pad_dec 2 (secs / 3600) +:+ ":" +:+ pad_dec 2 (secs / 60 mod 60) +:+ ":" +:+ pad_dec 2 (secs mod 60).
(** The layout [2006-01-02 15:04:05+00]. *)
Definition sqlTime (t : Z) : string :=
  let '(y, m, d, secs) := civil t in
  pad_dec 4 y +:+ "-" +:+ pad_dec 2 m +:+ "-" +:+ pad_dec 2 d +:+ " " +:+ clockText secs +:+ "+00".

(** ** Commands of an engine *)

(** [^[0-9]+(\.[0-9]+)*(-[a-zA-Z0-9]+)?$] *)
Definition word_of (p : ascii -> bool) (s : string) : bool :=
  negb (String.eqb s "") && forallb p (String.list_ascii_of_string s).
Definition versionRe (v : string) : bool :=
  let '(numbers, suffix) := Cut v "-"%char in
  forallb (word_of is_digit) (Split numbers "."%char) && from_option (word_of is_alnum) true suffix.
Definition ValidateVersion (v : string) : bool := String.eqb v "" || versionRe v.

Definition hexOf (bs : list Z) : string := foldr (fun b s => hex_fixed 2 b +:+ s) "" bs.
Definition GenerateLoginRole (dbName : string) (random : list Z) : string :=
  SanitizeIdentifier dbName +:+ "_login_" +:+ hexOf (take 8 random).
Definition generatePassword (random : list Z) : string := take_str 24 (hexOf (take 16 random)).

Definition ExpireLoginRoleSQL (cfg : DatabaseConfig) (oldLogin : string) (deadline : Z) : string :=
  if String.eqb (db_Engine cfg) "postgres" then
    "ALTER ROLE " +:+ SanitizeIdentifier oldLogin +:+ " VALID UNTIL '" +:+ sqlTime deadline +:+ "';"
  else "".

Definition shell (line : string) : Command := mkCommand "" "sh" ["-c"; line] "" ∅ 0 0.
Definition clientLine (printable : Z -> bool) (cfg : DatabaseConfig) (sql : string) : option string :=
  if String.eqb (db_Engine cfg) "postgres" then
    Some ("psql -U " +:+ SanitizeIdentifier (db_LoginRole cfg) +:+ " -d " +:+ SanitizeIdentifier (db_DBName cfg)
      +:+ " -c " +:+ GoQuote printable sql)
  else if String.eqb (db_Engine cfg) "mysql" then
    Some ("mysql -u root -p" +:+ dq +:+ "$MYSQL_ROOT_PASSWORD" +:+ dq +:+ " -e " +:+ GoQuote printable sql)
  else if String.eqb (db_Engine cfg) "redis" then Some ("redis-cli " +:+ sql)
  else None.
Definition ExecCreateLoginCommand (printable : Z -> bool) (cfg : DatabaseConfig) (newLogin newPassword : string)
    : Command :=
  match clientLine printable cfg (CreateLoginRoleSQL cfg newLogin newPassword) with
  | Some line => shell line
  | None => mkCommand "" "echo" ["unsupported engine: " +:+ db_Engine cfg] "" ∅ 0 0
  end.
Definition ExecRevokeLoginCommand (printable : Z -> bool) (cfg : DatabaseConfig) (oldLogin : string) : Command :=
  match clientLine printable cfg (RevokeLoginRoleSQL cfg oldLogin) with
  | Some line => shell line
  | None => mkCommand "" "echo" ["unsupported engine"] "" ∅ 0 0
  end.

(** ** Fields of a configuration *)

Definition db_rotated (login password previous : string) (deadline : Z) (c : DatabaseConfig) : DatabaseConfig :=
  mkDatabase (db_Engine c) (db_Version c) (db_DBName c) (db_Role c) (db_PrimaryID c) (db_Backup c)
    (db_GroupRole c) (db_OwnerRole c) login password previous deadline (db_PreviousVersion c) (db_UpgradeVolume c).
Definition db_versioned (version previous volume : string) (c : DatabaseConfig) : DatabaseConfig :=
  mkDatabase (db_Engine c) version (db_DBName c) (db_Role c) (db_PrimaryID c) (db_Backup c)
    (db_GroupRole c) (db_OwnerRole c) (db_LoginRole c) (db_Password c) (db_PreviousLoginRole c)
    (db_GraceDeadline c) previous volume.
Definition opts_with_image (image : string) (o : DeployOpts) : DeployOpts :=
  mkDeploy (do_Name o) image (do_RecipeName o) (do_Command o) (do_Args o) (do_Env o)
    (do_Workdir o) (do_Port o) (do_VCPUs o) (do_MemoryMB o) (do_Routes o) (do_BundleKey o)
    (do_IdleTimeout o) (do_HealthPath o) (do_HealthInterval o) (do_HealthTimeout o)
    (do_HealthRetries o) (do_Labels o) (do_Mounts o) (do_Autoscale o) (do_DatabaseConfig o)
    (do_Uses o) (do_Replicas o) (do_RelationType o) (do_ParentServiceID o).
Definition sv_with_database (c : DatabaseConfig) (s : Service) : Service :=
  sv_with_opts (opts_with_database c (sv_Opts s)) s.
Definition sv_with_ref (image : string) (s : Service) : Service :=
  sv_with_opts (opts_with_image image (sv_Opts s)) s.

(** [redactDatabaseConfig] *)
Definition redactDatabaseConfig (cfg : option DatabaseConfig) : option DatabaseConfig :=
  (fun c => if String.eqb (db_Password c) "" then c
            else db_rotated (db_LoginRole c) "********" (db_PreviousLoginRole c) (db_GraceDeadline c) c) <$> cfg.
Definition sv_redacted (s : Service) : Service :=
  match redactDatabaseConfig (do_DatabaseConfig (sv_Opts s)) with
  | Some c => sv_with_database c s
  | None => s
  end.

(** ** The server *)

(** Why a handler answers with an error. *)
Inductive ApiReason :=
  | ABody | AEngineRequired | AEngine (engine : string) | AVersion (v : string) | AName (e : NameError)
  | AService (e : ServiceError) | ADatabase (id : string) | ANotDatabase
  | AReplicas (failed : list (string * ServiceError))
  | APasswordRequired | APasswordShort | APasswordNull | ARotation
  | ANotPrimary | ANotReplica | ANoManager | ABackup (e : BackupError) | ANoBackup
  | ATarget | AAlready (v : string) | AUpgradeReplica | ANoUpgrade | AWait (message : string).
Record ApiError := mkApiError { ae_Status : Z; ae_Reason : ApiReason }.

Section server.
#[local] Set Default Proof Using "Type*".
Context {TV TL : Type} `{!SqlTable Service TV, !SqlTable VolumeRecord TL}.
#[local] Abbreviation SP := (ServicePlane TV TL).

Record DBPlane := mkDBPlane { dp_plane : SP; dp_objects : Objects; dp_drawn : nat }.

(** The collaborators: the service manager's, the backup manager if there is one, the
    random bytes of each draw. *)
Record DBEnv := mkDBEnv {
  de_services : ServiceEnv;
  de_backups : option BackupEnv;
  de_random : nat -> list Z;
  de_printable : Z -> bool
}.

Context (jsonLen : BackupObject -> Z) (de : DBEnv).
#[local] Abbreviation DM := (StateM DBPlane ApiError).
#[local] Abbreviation SM := (StateM SP ServiceError).
#[local] Abbreviation now := (env_now (se_env (de_services de))).

Definition reject {A} (status : Z) (why : ApiReason) : DM A := fail (mkApiError status why).

Definition onServices {A} (m : SM A) : DM (result ServiceError A) := fun d =>
  match m (dp_plane d) with
  | (sp, Ret a) => (mkDBPlane sp (dp_objects d) (dp_drawn d), Ret (Ok a))
  | (sp, Fail e) => (mkDBPlane sp (dp_objects d) (dp_drawn d), Ret (Err e))
  | (sp, Stuck) => (mkDBPlane sp (dp_objects d) (dp_drawn d), Stuck)
  end.
Definition onServicesOr {A} (m : SM A) : DM A :=
  r ← onServices m;
  match r with Ok a => mret a | Err e => reject 500 (AService e) end.
Definition listed (f : ServiceFilter) : DM (list Service) :=
  gets (fun d => match listServices f (sp_services (dp_plane d)) with Ok l => l | Err _ => [] end).
Definition randomBytes : DM (list Z) := fun d =>
  (mkDBPlane (dp_plane d) (dp_objects d) (S (dp_drawn d)), Ret (de_random de (dp_drawn d))).

(** What a call of the backup manager does to the objects; 503 without one. *)
Definition backupManager : DM BackupEnv :=
  match de_backups de with Some b => mret b | None => reject 503 ANoManager end.
Definition createBackup (b : BackupEnv) (svc : Service) : DM (result BackupError string) := fun d =>
  let '(objs, r) := CreateBackup jsonLen b svc (dp_objects d) in
  (mkDBPlane (dp_plane d) objs (dp_drawn d), Ret r).

Definition ofPrimary (id : string) : ServiceFilter := mkServiceFilter None None None None (Some id) None 0 0.

Definition resolveDatabase (idOrName : string) : DM Service :=
  r ← onServices (getService idOrName);
  match r with
  | Ok svc => if isDatabase svc then mret svc else
      svcs ← listed (mkServiceFilter None None (Some idOrName) (Some true) None None 1 0);
      match svcs with s :: _ => mret s | [] => reject 404 (ADatabase idOrName) end
  | Err _ =>
      svcs ← listed (mkServiceFilter None None (Some idOrName) (Some true) None None 1 0);
      match svcs with s :: _ => mret s | [] => reject 404 (ADatabase idOrName) end
  end.

(** Its configuration; 400 when it has none. *)
Definition databaseOf (svc : Service) (why : ApiReason) : DM DatabaseConfig :=
  match do_DatabaseConfig (sv_Opts svc) with Some c => mret c | None => reject 400 why end.
Definition updateRow (svc : Service) : SM unit := updateService (de_services de) svc.

(** ** Creation *)

Record CreateReq := mkCreateReq {
  cq_Name : string; cq_Engine : string; cq_Version : string; cq_Password : string; cq_DBName : string;
  cq_VCPUs : Z; cq_MemoryMB : Z; cq_Replicas : Z;
  cq_BackupEnabled : option bool; cq_BackupSchedule : string; cq_BackupRetention : Z
}.

Definition dbDeploy (name : string) (vcpus memory : Z) (cfg : DatabaseConfig) : DeployOpts :=
  mkDeploy name "" "" "" [] ∅ "" 0 vcpus memory [] "" 0 "" 0 0 0 ∅ [] None (Some cfg) ∅ 0 "" "".

(** A read replica or a sentinel: no roles for a sentinel. *)
Definition replicaConfig (cfg : DatabaseConfig) (primaryID : string) : DatabaseConfig :=
  mkDatabase (db_Engine cfg) (db_Version cfg) (db_DBName cfg) "replica" primaryID None (db_GroupRole cfg)
    (db_OwnerRole cfg) (db_LoginRole cfg) (db_Password cfg) "" 0 "" "".
Definition sentinelConfig (cfg : DatabaseConfig) (primaryID : string) : DatabaseConfig :=
  mkDatabase (db_Engine cfg) (db_Version cfg) "" "sentinel" primaryID None "" "" "" (db_Password cfg) "" 0 "" "".

(** The configuration of a primary from a request with its defaults filled in. *)
Definition primaryConfig (req : CreateReq) (version password dbName : string) : DatabaseConfig :=
  let sanitizedName := ReplaceByte dbName "-"%char "_" in
  let redis := String.eqb (cq_Engine req) "redis" in
  mkDatabase (cq_Engine req) version dbName "primary" ""
    (Some (mkBackup (default true (cq_BackupEnabled req))
       (if String.eqb (cq_BackupSchedule req) "" then "0 */6 * * *" else cq_BackupSchedule req)
       (defaultZ (cq_BackupRetention req) 7)
       (String.eqb (cq_Engine req) "postgres" || String.eqb (cq_Engine req) "mysql") 0))
    (if redis then "" else sanitizedName +:+ "_rw") (if redis then "" else sanitizedName +:+ "_owner")
    (if redis then "default" else sanitizedName +:+ "_login") password "" 0 "" "".

(** Members deployed one after the other; the names of those that fail. *)
Fixpoint deployMembers (l : list DeployOpts) : DM (list (string * ServiceError)) :=
  match l with
  | [] => mret []
  | o :: l =>
      r ← onServices (Deploy (de_services de) o);
      failed ← deployMembers l;
      mret (match r with Ok _ => failed | Err e => (do_Name o, e) :: failed end)
  end.
Definition sentinelName (name : string) (i : Z) : string := name +:+ "-sentinel-" +:+ pretty i.
Definition memberOpts (req : CreateReq) (cfg : DatabaseConfig) (svc : Service) : list DeployOpts :=
  ((fun i => dbDeploy (replicaName (sv_Name svc) i) (cq_VCPUs req) (cq_MemoryMB req) (replicaConfig cfg (sv_ID svc)))
     <$> range 1 (cq_Replicas req + 1))
  ++ (if String.eqb (cq_Engine req) "redis" && (2 <=? cq_Replicas req)%Z
      then (fun i => dbDeploy (sentinelName (sv_Name svc) i) 1 256 (sentinelConfig cfg (sv_ID svc))) <$> range 1 4
      else []).

(** [WaitForReady]: what the others do until it returns, and its last look. *)
Definition waitForReady (others : DBPlane -> DBPlane) (id : string) : DM Service :=
  _ ← modify others;
  r ← onServices (getService id);
  match r with
  | Err e => reject 500 (AService e)
  | Ok s => match serviceLook s with
            | Some (Ok s) => mret s
            | Some (Err m) => reject 500 (AWait m)
            | None => reject 500 (AWait "context canceled")
            end
  end.

Definition checkCreate (req : CreateReq) : option ApiReason :=
  if String.eqb (cq_Engine req) "" then Some AEngineRequired
  else match GetEngineDefaults (cq_Engine req) (cq_Version req) with
       | Err e => Some (AEngine e)
       | Ok _ =>
           if negb (ValidateVersion (cq_Version req)) then Some (AVersion (cq_Version req))
           else if String.eqb (cq_Name req) "" then None
           else match ValidateDBName (cq_Name req) with Err e => Some (AName e) | Ok _ => None end
       end.

Definition createDatabase (body : option CreateReq) (wait : option (DBPlane -> DBPlane))
    : DM (Service * list (string * ServiceError)) :=
  match body with
  | None => reject 400 ABody
  | Some req =>
      match checkCreate req with
      | Some why => reject 400 why
      | None =>
          let version := if String.eqb (cq_Version req) "" then DefaultVersions (cq_Engine req) else cq_Version req in
          password ← (if String.eqb (cq_Password req) "" then (bs ← randomBytes; mret (generatePassword bs))
            else mret (cq_Password req));
          let dbName := if String.eqb (cq_DBName req) "" then
              let n := ReplaceByte (cq_Name req) "-"%char "_" in if String.eqb n "" then cq_Engine req else n
            else cq_DBName req in
          let cfg := primaryConfig req version password dbName in
          svc ← onServicesOr (Deploy (de_services de) (dbDeploy (cq_Name req) (cq_VCPUs req) (cq_MemoryMB req) cfg));
          svc ← match wait with
                | Some others => if sv_Ready svc then mret svc else waitForReady others (sv_ID svc)
                | None => mret svc
                end;
          warnings ← (if (0 <? cq_Replicas req)%Z then deployMembers (memberOpts req cfg svc) else mret []);
          mret (sv_redacted svc, warnings)
      end
  end.

(** ** Reading *)

(** [strconv.Atoi] of the two query parameters. *)
Definition listLimits (limit offset : string) : ServiceFilter :=
  let limit := match Atoi limit with Some v => if (0 <? v)%Z then v else 100%Z | None => 100%Z end in
  let offset := match Atoi offset with Some v => if (0 <=? v)%Z then v else 0%Z | None => 0%Z end in
  mkServiceFilter None None None (Some true) None None limit offset.
Definition listDatabases (limit offset : string) : DM (list Service) :=
  r ← gets (fun d => listServices (listLimits limit offset) (sp_services (dp_plane d)));
  match r with Ok l => mret (sv_redacted <$> l) | Err e => reject 500 (AService (ESStore e)) end.
Definition getDatabase (id : string) : DM Service := svc ← resolveDatabase id; mret (sv_redacted svc).

Definition hostOf (svc : Service) : string :=
  if String.eqb (sv_GuestIP svc) "" then sv_Name svc +:+ ".loka.internal" else sv_GuestIP svc.
Definition urlOf (cfg : DatabaseConfig) (host : string) : string :=
  ConnectionString (db_Engine cfg) (db_LoginRole cfg) (db_Password cfg) host (db_DBName cfg).

Record Credentials := mkCredentials {
  cr_Config : DatabaseConfig; cr_Host : string; cr_Port : Z; cr_URL : string;
  cr_Previous : option (string * Z)
}.
Definition getDatabaseCredentials (id : string) : DM Credentials :=
  svc ← resolveDatabase id;
  cfg ← databaseOf svc ANotDatabase;
  let port := match GetEngineDefaults (db_Engine cfg) (db_Version cfg) with Ok d => ed_Port d | Err _ => 0%Z end in
  mret (mkCredentials cfg (hostOf svc) port (urlOf cfg (hostOf svc))
    (if String.eqb (db_PreviousLoginRole cfg) "" then None
     else Some (db_PreviousLoginRole cfg, rfc3339 (db_GraceDeadline cfg)))).

Definition listDatabaseReplicas (id : string) : DM (list Service) :=
  svc ← resolveDatabase id; listed (ofPrimary (sv_ID svc)).

(** ** Life cycle *)

(** Destroys in turn; those that fail. *)
Fixpoint destroyEach (l : list Service) : DM (list (string * ServiceError)) :=
  match l with
  | [] => mret []
  | s :: l =>
      r ← onServices (Destroy (de_services de) (sv_ID s));
      failed ← destroyEach l;
      mret (match r with Ok _ => failed | Err e => (sv_Name s, e) :: failed end)
  end.
Definition roleIs (role : string) (svc : Service) : bool :=
  match do_DatabaseConfig (sv_Opts svc) with Some c => String.eqb (db_Role c) role | None => false end.

Definition destroyDatabase (id : string) : DM unit :=
  svc ← resolveDatabase id;
  failed ← (if roleIs "primary" svc then
      replicas ← listed (ofPrimary (sv_ID svc)); destroyEach replicas
    else mret []);
  match failed with
  | [] => onServicesOr (Destroy (de_services de) (sv_ID svc))
  | _ => reject 500 (AReplicas failed)
  end.

Definition stopDatabase (id : string) : DM unit :=
  svc ← resolveDatabase id;
  _ ← onServicesOr (ServiceManager.Stop (de_services de) (sv_ID svc));
  mret tt.
Definition startDatabase (id : string) : DM Service :=
  svc ← resolveDatabase id; onServicesOr (Redeploy (de_services de) (sv_ID svc)).

Definition forceStopDatabase (id : string) : DM string :=
  svc ← resolveDatabase id;
  let svc := sv_mark ServiceStatusStopped (sv_Ready svc) "force-stopped by operator" svc in
  let svc := match do_DatabaseConfig (sv_Opts svc) with
             | Some c => sv_with_database (db_rotated (db_LoginRole c) (db_Password c) "" 0 c) svc
             | None => svc
             end in
  _ ← onServicesOr (updateRow svc);
  _ ← (if String.eqb (sv_WorkerID svc) "" then mret tt
       else _ ← onServices (ServiceManager.Stop (de_services de) (sv_ID svc)); mret tt);
  mret (sv_Name svc).

(** ** Credentials *)

Definition defaultGracePeriod : Z := 5 * Minute.

(** The answer of a rotation: the login, the password, its URL, the old login, the
    deadline and the two statements. *)
Record Rotation := mkRotation {
  ro_Login : string; ro_Password : string; ro_URL : string; ro_Group : string;
  ro_Previous : string; ro_Deadline : Z; ro_Create : string; ro_Expire : string
}.

Definition rotateCredentials (svc : Service) (cfg : DatabaseConfig) (newPassword : string) : DM Rotation :=
  bs ← randomBytes;
  let oldLogin := db_LoginRole cfg in
  let newLogin := GenerateLoginRole (db_DBName cfg) bs in
  let deadline := (now + defaultGracePeriod)%Z in
  let createSQL := CreateLoginRoleSQL cfg newLogin newPassword in
  if String.eqb createSQL "" then reject 500 ARotation
  else
    _ ← onServices (ExecInService (de_services de) (sv_ID svc)
                      [ExecCreateLoginCommand (de_printable de) cfg newLogin newPassword]);
    let cfg' := db_rotated newLogin newPassword oldLogin deadline cfg in
    _ ← onServicesOr (updateRow (sv_with_database cfg' svc));
    mret (mkRotation newLogin newPassword (urlOf cfg' (hostOf svc)) (db_GroupRole cfg) oldLogin (rfc3339 deadline)
            createSQL (ExpireLoginRoleSQL cfg oldLogin deadline)).

Definition rotateDatabaseCredentials (id : string) : DM Rotation :=
  svc ← resolveDatabase id;
  cfg ← databaseOf svc ANotDatabase;
  bs ← randomBytes;
  rotateCredentials svc cfg (generatePassword bs).

(** A body that does not decode counts as one without a password. *)
Definition setDatabaseCredentials (id : string) (password : option string) : DM Rotation :=
  svc ← resolveDatabase id;
  cfg ← databaseOf svc ANotDatabase;
  let password := default "" password in
  if String.eqb password "" then reject 400 APasswordRequired
  else if String.length password <? 8 then reject 400 APasswordShort
  else if str_mem (ascii_of 0) password then reject 400 APasswordNull
  else rotateCredentials svc cfg password.

(** One database of the reaper's pass. *)
Definition reapOne (db : Service) : DM unit :=
  match do_DatabaseConfig (sv_Opts db) with
  | None => mret tt
  | Some cfg =>
      if String.eqb (db_PreviousLoginRole cfg) "" || (db_GraceDeadline cfg =? 0)%Z then mret tt
      else if (now <? db_GraceDeadline cfg)%Z then mret tt
      else
        _ ← onServices (ExecInService (de_services de) (sv_ID db)
                          [ExecRevokeLoginCommand (de_printable de) cfg (db_PreviousLoginRole cfg)]);
        _ ← onServices (updateRow (sv_with_database (db_rotated (db_LoginRole cfg) (db_Password cfg) "" 0 cfg) db));
        mret tt
  end.
Definition reapExpiredCredentials : DM unit :=
  dbs ← listed (mkServiceFilter None None None (Some true) None None 100 0);
  for_each reapOne dbs.

(** ** Replicas *)

(** The replicas numbered from [n] on; the first that fails ends the request. *)
Fixpoint addReplicas (svc : Service) (cfg : DatabaseConfig) (numbers : list Z) : DM (list Service) :=
  match numbers with
  | [] => mret []
  | n :: numbers =>
      r ← onServicesOr (Deploy (de_services de) (dbDeploy (replicaName (sv_Name svc) n) (do_VCPUs (sv_Opts svc))
                          (do_MemoryMB (sv_Opts svc)) (replicaConfig cfg (sv_ID svc))));
      rs ← addReplicas svc cfg numbers;
      mret (r :: rs)
  end.
Definition addDatabaseReplica (id : string) (count : option Z) : DM (list Service) :=
  svc ← resolveDatabase id;
  if negb (roleIs "primary" svc) then reject 400 ANotPrimary
  else
    cfg ← databaseOf svc ANotPrimary;
    match count with
    | None => reject 400 ABody
    | Some count =>
        let count := defaultZ count 1 in
        existing ← listed (ofPrimary (sv_ID svc));
        let n := Z.of_nat (length (List.filter (roleIs "replica") existing)) in
        addReplicas svc cfg (range (n + 1) (n + count + 1))
    end.
Definition removeDatabaseReplica (rid : string) : DM unit :=
  replica ← resolveDatabase rid;
  if negb (roleIs "replica" replica) then reject 400 ANotReplica
  else onServicesOr (Destroy (de_services de) (sv_ID replica)).

(** ** Backups *)

Definition createDatabaseBackup (id : string) : DM string :=
  svc ← resolveDatabase id;
  b ← backupManager;
  r ← createBackup b svc;
  match r with Ok chain => mret chain | Err e => reject 500 (ABackup e) end.

Definition chainSize (c : BackupChain) : Z := foldl (fun n s => n + bs_Size s)%Z (bc_BaseSize c) (bc_Segments c).
Definition listDatabaseBackups (id : string) : DM (list (string * Z * Z)) :=
  svc ← resolveDatabase id;
  b ← backupManager;
  catalog ← gets (fun d => ListBackups b (sv_Name svc) (dp_objects d));
  mret ((fun c => (bc_ID c, chainSize c, bc_CreatedAt c)) <$> bl_Chains catalog).
Definition verifyDatabaseBackup (id backupID : string) : DM (result BackupError unit) :=
  svc ← resolveDatabase id;
  b ← backupManager;
  gets (fun d => VerifyBackup b (sv_Name svc) backupID (dp_objects d)).

(** The body is the backup and the point in time asked for; the answer names the backup. *)
Definition restoreDatabase (id : string) (body : option (string * string)) : DM string :=
  svc ← resolveDatabase id;
  b ← backupManager;
  match body with
  | None => reject 400 ABody
  | Some (backupID, pointInTime) =>
      backupID ← (if negb (String.eqb backupID "") then
          r ← gets (fun d => GetBackup b (sv_Name svc) backupID (dp_objects d));
          match r with Ok _ => mret backupID | Err e => reject 404 (ABackup e) end
        else if String.eqb pointInTime "" then
          catalog ← gets (fun d => ListBackups b (sv_Name svc) (dp_objects d));
          match last (bl_Chains catalog) with Some c => mret (bc_ID c) | None => reject 400 ANoBackup end
        else mret "");
      _ ← onServices (ServiceManager.Stop (de_services de) (sv_ID svc));
      _ ← onServicesOr (Redeploy (de_services de) (sv_ID svc));
      mret backupID
  end.

(** ** Upgrade and roll-back *)

(** The row of a member with another version, and its redeployment; whether both worked. *)
Definition moveMember (version previous : string) (image : string) (r : Service) : DM bool :=
  match do_DatabaseConfig (sv_Opts r) with
  | None => mret true
  | Some c =>
      let r' := sv_with_ref image (sv_with_database (db_versioned version previous (db_UpgradeVolume c) c) r) in
      u ← onServices (updateRow r');
      match u with
      | Err _ => mret false
      | Ok _ => d ← onServices (Redeploy (de_services de) (sv_ID r)); mret (is_ok d)
      end
  end.
(** The members that did not work. *)
Fixpoint moveMembers (version previous image : string) (l : list Service) : DM (list string) :=
  match l with
  | [] => mret []
  | r :: l =>
      ok ← moveMember version previous image r;
      failed ← moveMembers version previous image l;
      mret (if (ok : bool) then failed else sv_Name r :: failed)
  end.

(** In a roll-back the redeployment follows whether the update worked or not, and nothing
    is reported. *)
Definition rollMember (target image : string) (r : Service) : DM unit :=
  match do_DatabaseConfig (sv_Opts r) with
  | None => mret tt
  | Some c =>
      _ ← onServices (updateRow (sv_with_ref image (sv_with_database (db_versioned target "" (db_UpgradeVolume c) c) r)));
      _ ← onServices (Redeploy (de_services de) (sv_ID r));
      mret tt
  end.
Definition rollMembers (target image : string) (l : list Service) : DM unit := for_each (rollMember target image) l.

(** The answer: the versions before and after, the backup, the replicas moved and the
    warnings. *)
Record Upgrade := mkUpgrade {
  up_Previous : string; up_Target : string; up_Backup : string; up_Replicas : Z; up_Warnings : list string
}.

Definition checkUpgrade (cfg : DatabaseConfig) (target : string) : result ApiReason EngineDefaults :=
  if String.eqb target "" then Err ATarget
  else if String.eqb (db_Version cfg) target then Err (AAlready target)
  else match GetEngineDefaults (db_Engine cfg) target with
       | Err e => Err (AEngine e)
       | Ok d => if String.eqb (db_Role cfg) "primary" then Ok d else Err AUpgradeReplica
       end.

Definition upgradeDatabase (id : string) (body : option string) : DM Upgrade :=
  svc ← resolveDatabase id;
  cfg ← databaseOf svc ANotDatabase;
  match body with
  | None => reject 400 ABody
  | Some target =>
      match checkUpgrade cfg target with
      | Err why => reject 400 why
      | Ok d =>
          backupID ← match de_backups de with
                     | None => mret ""
                     | Some b =>
                         r ← createBackup b svc;
                         (match r with Ok chain => mret chain | Err e => reject 500 (ABackup e) end : DM string)
                     end;
          let cfg' := db_versioned target (db_Version cfg) ("db-" +:+ sv_Name svc) cfg in
          _ ← onServicesOr (updateRow (sv_with_ref (ed_Image d) (sv_with_database cfg' svc)));
          _ ← onServicesOr (Redeploy (de_services de) (sv_ID svc));
          replicas ← listed (ofPrimary (sv_ID svc));
          warnings ← moveMembers target (db_Version cfg) (ed_Image d) replicas;
          mret (mkUpgrade (db_Version cfg) target backupID
                  (Z.of_nat (length replicas) - Z.of_nat (length warnings)) warnings)
      end
  end.

(** The version restored and the number of replicas. *)
Definition rollbackDatabaseUpgrade (id : string) : DM (string * Z) :=
  svc ← resolveDatabase id;
  cfg ← databaseOf svc ANotDatabase;
  if String.eqb (db_PreviousVersion cfg) "" then reject 400 ANoUpgrade
  else
    let target := db_PreviousVersion cfg in
    match GetEngineDefaults (db_Engine cfg) target with
    | Err e => reject 500 (AEngine e)
    | Ok d =>
        _ ← onServicesOr (updateRow (sv_with_ref (ed_Image d) (sv_with_database (db_versioned target "" "" cfg) svc)));
        _ ← onServicesOr (Redeploy (de_services de) (sv_ID svc));
        replicas ← listed (ofPrimary (sv_ID svc));
        _ ← rollMembers target (ed_Image d) replicas;
        mret (target, Z.of_nat (length replicas))
    end.
End server.
Arguments DBPlane : clear implicits.
