(* ===== verification/DatabaseRuns.v ===== *)
(** * What the database API guarantees

    The handlers of [Databases.v] call by call: how each leaves the credentials of every
    row and what it sends to the workers; runs of calls with whatever others do between
    them, and the logins that are dropped in them; upgrade and roll-back of a primary with
    its replicas; destruction.  Examples show where the handlers depart from what they mean
    to do. *)

From stdpp Require Import sorting pretty options.
From Stdlib Require Import Ascii.
From S2P Require Import Prelude Effects GoStrings GoPath Float64 Words Filesystem Network Policy Entities.
From S2P Require Import Store VolumeManager Services Registry Scheduler ServiceManager Backups Databases.
Open Scope nat_scope.

(** ** Single calls *)

Section calls.
#[local] Set Default Proof Using "Type*".
Context {TV TL : Type} `{!SqlTable Service TV, !SqlTableLaws Service TV, !SqlTable VolumeRecord TL}.
Context (env : ServiceEnv).
#[local] Abbreviation SP := (ServicePlane TV TL).
Implicit Types (sp : SP) (s : Service).

(** Commands that run inside a service. *)
Definition is_exec (cmd : WorkerCommand) : bool := match cmd with CServiceExec _ _ => true | _ => false end.
Definition queued sp (wid : string) (cmd : WorkerCommand) : Prop :=
  exists c, sp_registry sp !! wid = Some c /\ cmd ∈ wc_CmdChan c.

(** Nothing but the command may have been queued. *)
Definition sends_only (p : string -> WorkerCommand -> Prop) sp sp' : Prop :=
  forall wid cmd, queued sp' wid cmd -> queued sp wid cmd \/ p wid cmd.

Lemma sends_refl p sp sp' : sp_registry sp' = sp_registry sp -> sends_only p sp sp'.
Proof. intros H wid cmd. unfold queued. rewrite H. by left. Qed.
Lemma sends_trans p sp1 sp2 sp3 : sends_only p sp1 sp2 -> sends_only p sp2 sp3 -> sends_only p sp1 sp3.
Proof. intros H1 H2 wid cmd [H| ?]%H2; [by apply H1|by right]. Qed.
Lemma sends_weaken (p q : string -> WorkerCommand -> Prop) sp sp' :
  (forall wid cmd, p wid cmd -> q wid cmd) -> sends_only p sp sp' -> sends_only q sp sp'.
Proof. intros Hpq H wid cmd [?|?]%H; [by left|right; by apply Hpq]. Qed.

Lemma sendCommand_sends wid cmd sp :
  exists sp' r, sendCommand env wid cmd sp = (sp', r) /\ r <> Stuck /\ frame sp sp' /\
  sp_routes sp' = sp_routes sp /\ sp_deploys sp' = sp_deploys sp /\
  sends_only (fun w c => w = wid /\ c = cmd) sp sp'.
Proof.
  unfold sendCommand, onRegistry.
  destruct (SendCommand_frame (se_env env) wid cmd (mkCP (TS := unit) (TE := unit) (TC := unit) (TW := unit) tt tt tt tt (sp_registry sp)))
    as (r' & res & Hs & Hres & Hother & Hok & Herr). cbn [cp_registry] in *. rewrite Hs.
  assert (sends_only (fun w c => w = wid /\ c = cmd) sp (sp_set_registry r' sp)) as Hsends.
  { intros w c (conn & Hc & Hin). cbn in Hc. destruct (decide (w = wid)) as [->|Hne].
    - destruct Hres as [->|(e & ->)].
      + destruct (Hok eq_refl) as (conn0 & n & Hc0 & Hc1). rewrite Hc in Hc1. injection Hc1 as ->.
        cbn in Hin. apply elem_of_app in Hin as [Hin|Hin%list_elem_of_singleton]; [|by right].
        left. exists conn0. split; [done|]. by eapply elem_of_drop.
      + rewrite Herr in Hc by done. left. by exists conn.
    - rewrite Hother in Hc by done. left. by exists conn. }
  destruct Hres as [->|(e & ->)]; eexists _, _; by split_and!.
Qed.

Lemma ignore_sends wid cmd sp :
  exists sp', ignore (sendCommand env wid cmd) sp = (sp', Ret tt) /\ frame sp sp' /\
  sp_routes sp' = sp_routes sp /\ sp_deploys sp' = sp_deploys sp /\
  sends_only (fun w c => w = wid /\ c = cmd) sp sp'.
Proof.
  destruct (sendCommand_sends wid cmd sp) as (sp' & r & H & Hr & ? & ? & ? & ?). exists sp'.
  split_and!; [|done..]. destruct r; [by eapply ignore_Ret|by eapply ignore_Fail|done].
Qed.

Definition no_exec (wid : string) (cmd : WorkerCommand) : Prop := is_exec cmd = false.

Lemma stopOnWorker_sends s sp :
  exists sp', stopOnWorker env s sp = (sp', Ret tt) /\ frame sp sp' /\ sp_deploys sp' = sp_deploys sp /\
  sends_only no_exec sp sp'.
Proof.
  unfold stopOnWorker. destruct (String.eqb (sv_WorkerID s) "").
  - exists sp. split_and!; [done..|]. by apply sends_refl.
  - destruct (ignore_sends (sv_WorkerID s) (CStopService (sv_ID s)) sp) as (sp' & ? & ? & _ & ? & ?).
    exists sp'. split_and!; [done..|]. by eapply sends_weaken; [|done]; intros ? ? [_ ->].
Qed.

Lemma removeRoutes_sends s sp :
  exists sp', removeRoutes env s sp = (sp', Ret tt) /\ frame sp sp' /\ sp_deploys sp' = sp_deploys sp /\
  sp_registry sp' = sp_registry sp.
Proof.
  unfold removeRoutes. destruct (se_proxy env); [|by exists sp].
  apply (for_each_inv _ _ (fun sp' => frame sp sp' /\ sp_deploys sp' = sp_deploys sp /\ sp_registry sp' = sp_registry sp));
    [done|].
  intros r sp1 _ (H1 & H2 & H3). destruct (String.eqb (rt_Domain r) ""); [by exists sp1|]. by eexists.
Qed.

Lemma Destroy_sends id s sp :
  svcs sp !! id = Some s ->
  exists sp', Destroy env id sp = (sp', Ret tt) /\ svcs sp' = delete id (svcs sp) /\ sp_next sp' = sp_next sp /\
  sends_only no_exec sp sp'.
Proof.
  intros Hs. unfold Destroy. erewrite bind_Ret by (rewrite getService_spec, Hs; done).
  destruct (stopOnWorker_sends s sp) as (sp1 & H1 & Hf1 & _ & Hs1). rewrite (bind_Ret _ _ _ _ _ H1).
  destruct (removeRoutes_sends s sp1) as (sp2 & H2 & Hf2 & _ & Hr2). rewrite (bind_Ret _ _ _ _ _ H2).
  destruct (deleteService_spec id sp2) as (t & H3 & Hr). eexists. split; [exact H3|].
  pose proof (frame_trans _ _ _ Hf1 Hf2) as Hf. split_and!.
  - change (sql_rows t = delete id (svcs sp)). by rewrite Hr, (frame_svcs _ _ Hf).
  - apply Hf.
  - eapply sends_trans; [done|]. by apply sends_refl.
Qed.

(** [Redeploy] of a service that exists: it keeps its options and is deployed again. *)
Lemma Redeploy_spec id s sp :
  svcs sp !! id = Some s ->
  exists sp' s' row, Redeploy env id sp = (sp', Ret s') /\ svcs sp' = <[id := row]> (svcs sp) /\
  sv_Opts row = sv_Opts s /\ sv_Status row = ServiceStatusDeploying /\ sv_Opts s' = sv_Opts s /\
  sp_deploys sp' = sp_deploys sp ++ [id] /\ sp_next sp' = sp_next sp /\ sends_only no_exec sp sp'.
Proof.
  intros Hs. pose proof (svcs_id _ _ _ Hs) as Hid. unfold Redeploy.
  erewrite bind_Ret by (rewrite getService_spec, Hs; done).
  assert (exists sp1, (if bool_decide (sv_Status s = ServiceStatusRunning) || bool_decide (sv_Status s = ServiceStatusIdle)
    then stopOnWorker env s else mret tt) sp = (sp1, Ret tt) /\ frame sp sp1 /\ sp_deploys sp1 = sp_deploys sp /\
    sends_only no_exec sp sp1) as (sp1 & H1 & Hf1 & Hd1 & Hs1).
  { destruct (_ || _); [apply stopOnWorker_sends|]. exists sp. split_and!; [done..|]. by apply sends_refl. }
  rewrite (bind_Ret _ _ _ _ _ H1).
  assert (exists o, reassign env s sp1 = (sp1, Ret o) /\ forall s1, o = Ok s1 -> sv_ID s1 = sv_ID s /\ sv_Opts s1 = sv_Opts s)
    as (o & Ho & Hos).
  { unfold reassign. erewrite bind_Ret by done. cbv beta. destruct (String.eqb _ _ || _).
    - exists (Ok s). split; [done|]. by intros s1 [= <-].
    - destruct (pickWorker_spec env [] sp1) as (w & Hw). rewrite (bind_Ret _ _ _ _ _ Hw). eexists. split; [done|].
      destruct w; [|done]. by intros s1 [= <-]. }
  rewrite (bind_Ret _ _ _ _ _ Ho). cbv zeta.
  set (s1 := match o with Ok s0 => s0 | Err _ => s end).
  assert (sv_ID s1 = id /\ sv_Opts s1 = sv_Opts s) as [Hi1 Ho1].
  { unfold s1. destruct o; [|by subst id]. destruct (Hos _ eq_refl) as [-> ->]. by subst id. }
  destruct (updateService_spec env (sv_mark ServiceStatusDeploying false "redeploying" s1) s sp1)
    as (t & row & Hu & Hc & Hr).
  { cbn. rewrite Hi1. by rewrite (frame_svcs _ _ Hf1). }
  rewrite (bind_Ret _ _ _ _ _ Hu). erewrite bind_Ret by done. cbn in Hr. rewrite Hi1, (frame_svcs _ _ Hf1) in Hr.
  apply same_service_fields in Hc as (_ & Hopt & Hst & _). cbn in Hopt, Hst.
  eexists _, _, row. split_and!; [done|exact Hr|congruence|done|exact Ho1|cbn; congruence|apply Hf1|].
  eapply sends_trans; [exact Hs1|]. by apply sends_refl.
Qed.

Lemma Stop_sends id sp :
  exists sp' r, ServiceManager.Stop env id sp = (sp', r) /\ r <> Stuck /\ sends_only no_exec sp sp' /\
  sp_next sp' = sp_next sp /\
  (svcs sp' = svcs sp \/ exists s row, svcs sp !! id = Some s /\ svcs sp' = <[id := row]> (svcs sp) /\
   sv_Opts row = sv_Opts s /\ sv_Status row = ServiceStatusStopped).
Proof.
  unfold ServiceManager.Stop. destruct (svcs sp !! id) as [s|] eqn:Hs.
  2: { erewrite bind_Fail by (rewrite getService_spec, Hs; done). eexists _, _. split_and!; [done|done|by apply sends_refl|done|by left]. }
  erewrite bind_Ret by (rewrite getService_spec, Hs; done). pose proof (svcs_id _ _ _ Hs) as Hid.
  destruct (negb _). { eexists _, _. split_and!; [done|done|by apply sends_refl|done|by left]. }
  destruct (stopOnWorker_sends s sp) as (sp1 & H1 & Hf1 & _ & Hs1). rewrite (bind_Ret _ _ _ _ _ H1).
  destruct (removeRoutes_sends s sp1) as (sp2 & H2 & Hf2 & _ & Hr2). rewrite (bind_Ret _ _ _ _ _ H2). cbv zeta.
  pose proof (frame_svcs _ _ (frame_trans _ _ _ Hf1 Hf2)) as Hf.
  destruct (updateService_spec env (sv_mark ServiceStatusStopped false (sv_StatusMessage s) s) s sp2) as (t & row & Hu & Hc & Hr).
  { cbn. by rewrite Hf, Hid. }
  rewrite (bind_Ret _ _ _ _ _ Hu). eexists _, _. split_and!; [done|done| |apply (frame_trans _ _ _ Hf1 Hf2)|].
  - eapply sends_trans; [exact Hs1|]. by apply sends_refl.
  - right. exists s, row. cbn in Hr. rewrite Hid, Hf in Hr. apply same_service_fields in Hc as (_ & -> & -> & _). done.
Qed.

Lemma ExecInService_sends id cmds sp :
  exists sp' r, ExecInService env id cmds sp = (sp', r) /\ r <> Stuck /\ frame sp sp' /\
  sends_only (fun _ cmd => cmd = CServiceExec id cmds) sp sp'.
Proof.
  unfold ExecInService. destruct (svcs sp !! id) as [s|] eqn:Hs.
  2: { erewrite bind_Fail by (rewrite getService_spec, Hs; done). eexists _, _. split_and!; [done..|by apply sends_refl]. }
  erewrite bind_Ret by (rewrite getService_spec, Hs; done).
  destruct (String.eqb _ _). { eexists _, _. split_and!; [done..|by apply sends_refl]. }
  destruct (negb _). { eexists _, _. split_and!; [done..|by apply sends_refl]. }
  destruct (ignore_sends (sv_WorkerID s) (CServiceExec id cmds) sp) as (sp' & H & Hf & _ & _ & Hsend).
  eexists _, _. split_and!; [exact H|done|done|]. by eapply sends_weaken; [|done]; intros ? ? [_ ->].
Qed.

(** *** Deployment of a member *)

Lemma CreateBlock_not_stuck ve name size (t : TL) : (CreateBlock ve name size t).2 <> Stuck.
Proof.
  unfold CreateBlock, mbind, StateM_bind, checkName. destruct (String.eqb name ""); [done|].
  destruct (volGet name t); [done|].
  cbn. pose proof (vwrite_not_stuck (TL := TL) (volCreate (newBlock ve name size 0)) t) as H.
  destruct (vwrite _ t) as [t' [[]|err|]]; done.
Qed.

Lemma onVolumes_spec {A} (m : VolumeEnv -> StateM TL VolumeError A) sp :
  (forall ve t, (m ve t).2 <> Stuck) ->
  exists sp' r, onVolumes env m sp = (sp', r) /\ r <> Stuck /\ frame sp sp' /\ sp_registry sp' = sp_registry sp.
Proof.
  intros Hm. unfold onVolumes. pose proof (Hm (volumeEnv env sp) (sp_volumes sp)) as Hns.
  destruct (m (volumeEnv env sp) (sp_volumes sp)) as [t [a|e|]]; [by eexists _, _..|done].
Qed.

Lemma placeVolumes_quiet o wid sp :
  exists sp', placeVolumes env o wid sp = (sp', Ret tt) /\ frame sp sp' /\ sp_registry sp' = sp_registry sp.
Proof.
  unfold placeVolumes. destruct (se_volumes env); [|by exists sp].
  apply (for_each_inv _ _ (fun sp' => frame sp sp' /\ sp_registry sp' = sp_registry sp)); [done|].
  intros name sp1 _ [H1 Hr1].
  assert (forall A (m : VolumeEnv -> StateM TL VolumeError A) sp1, (forall ve t, (m ve t).2 <> Stuck) ->
    exists sp', ignore (onVolumes env m) sp1 = (sp', Ret tt) /\ frame sp1 sp' /\ sp_registry sp' = sp_registry sp1) as Hig.
  { intros A m sp2 Hm. destruct (onVolumes_spec m sp2 Hm) as (sp' & r & Hv & Hr & Hf & Hreg). exists sp'.
    split_and!; [|done..]. destruct r; [by eapply ignore_Ret|by eapply ignore_Fail|done]. }
  destruct (Hig _ (fun ve => AssignPrimary ve name wid) sp1) as (sp2 & Hp & H2 & Hr2).
  { intros ve t. apply AssignPrimary_not_stuck. }
  rewrite (bind_Ret _ _ _ _ _ Hp).
  destruct (Hig _ (fun ve => AssignReplica ve name) sp2) as (sp3 & Hr & H3 & Hr3).
  { intros ve t. apply AssignReplica_not_stuck. }
  exists sp3. split_and!; [done| |congruence]. by eapply frame_trans, frame_trans.
Qed.

(** With a database the volume may be missing and not be created; the options keep the
    name and the database. *)
Lemma applyDatabase_spec o sp :
  exists sp' r, applyDatabase env o sp = (sp', r) /\ r <> Stuck /\ frame sp sp' /\ sp_registry sp' = sp_registry sp /\
  forall o', r = Ret o' -> do_Name o' = do_Name o /\ do_DatabaseConfig o' = do_DatabaseConfig o /\
    do_Replicas o' = do_Replicas o /\ do_Uses o' = do_Uses o /\ do_ParentServiceID o' = do_ParentServiceID o.
Proof.
  unfold applyDatabase. destruct (do_DatabaseConfig o) as [cfg|] eqn:Hcfg.
  2: { eexists _, _. split_and!; [done..|]. by intros o' [= <-]. }
  destruct (GetEngineDefaults _ _) as [d|e]; [|eexists _, _; by split_and!].
  set (vols := if se_volumes env then _ else _).
  assert (exists sp1 r1, vols sp = (sp1, r1) /\ r1 <> Stuck /\ frame sp sp1 /\ sp_registry sp1 = sp_registry sp)
    as (sp1 & r1 & H1 & Hr1 & Hf1 & Hreg1).
  { unfold vols. destruct (se_volumes env); [|eexists _, _; by split_and!].
    destruct (onVolumes_spec (fun _ => getVolume ("db-" +:+ do_Name o)) sp) as (sp1 & r1 & H1 & Hr1 & Hf1 & Hreg1).
    { intros ve t. unfold getVolume. by destruct (volGet _ t). }
    assert (exists k, attempt (onVolumes env (fun _ => getVolume ("db-" +:+ do_Name o))) sp = (sp1, Ret k)) as [k Hk].
    { unfold attempt. rewrite H1. destruct r1; [by eexists..|done]. }
    rewrite (bind_Ret _ _ _ _ _ Hk). destruct k; [eexists _, _; by split_and!|].
    destruct (onVolumes_spec (fun ve => CreateBlock ve ("db-" +:+ do_Name o) 0) sp1) as (sp2 & r2 & H2 & Hr2 & Hf2 & Hreg2).
    { intros ve t. apply CreateBlock_not_stuck. }
    unfold mbind, StateM_bind. rewrite H2. exists sp2.
    destruct r2; [eexists|eexists|done]; split_and!; try done; try congruence; by eapply frame_trans. }
  destruct r1 as [[]|e|]; [|by rewrite (bind_Fail _ _ _ _ _ H1); eexists _, _; split_and!|done].
  rewrite (bind_Ret _ _ _ _ _ H1). eexists _, _. split_and!; [done..|]. intros o' [= <-]. by rewrite <-Hcfg.
Qed.

Lemma fresh_ids_mono sp sp' :
  fresh_ids env sp -> svcs sp' = svcs sp -> sp_next sp <= sp_next sp' -> fresh_ids env sp'.
Proof. intros [H1 H2] Hs Hn. split; [|done]. intros n Hle. rewrite Hs. apply H1. lia. Qed.

(** What [Deploy] gives the row and the answer. *)
Record deployed (o : DeployOpts) (s row : Service) : Prop := {
  dy_row : sv_ID row = sv_ID s;
  dy_opts : sv_Opts row = sv_Opts s;
  dy_config : do_DatabaseConfig (sv_Opts s) = do_DatabaseConfig o;
  dy_name : do_Name o <> "" -> sv_Name s = do_Name o;
  dy_ready : sv_Ready s = false
}.

Lemma Deploy_spec o sp :
  fresh_ids env sp -> do_Replicas o = 0%Z ->
  exists sp' r, Deploy env o sp = (sp', r) /\ r <> Stuck /\ sp_registry sp' = sp_registry sp /\ fresh_ids env sp' /\
  match r with
  | Ret s => exists row, deployed o s row /\ svcs sp !! sv_ID s = None /\ svcs sp' = <[sv_ID s := row]> (svcs sp)
  | _ => svcs sp' = svcs sp
  end.
Proof.
  intros Hfresh Hrep. unfold Deploy, deployWith.
  assert (exists sp1 name, (if String.eqb (do_Name o) "" then newSlug env else mret (do_Name o)) sp = (sp1, Ret name) /\
    svcs sp1 = svcs sp /\ sp_next sp <= sp_next sp1 /\ sp_registry sp1 = sp_registry sp /\ (do_Name o <> "" -> name = do_Name o))
    as (sp1 & name & H1 & Hs1 & Hn1 & Hr1 & Hname).
  { destruct (String.eqb_spec (do_Name o) ""); eexists _, _; split_and!; try done. cbn. lia. }
  rewrite (bind_Ret _ _ _ _ _ H1). pose proof (fresh_ids_mono _ _ Hfresh Hs1 Hn1) as Hfresh1.
  destruct (serviceNamed_spec name sp1) as (x & Hx & _). rewrite (bind_Ret _ _ _ _ _ Hx).
  destruct x as [x|]. { eexists _, _. by split_and!. }
  destruct (applyDatabase_spec (withDefaults name o) sp1) as (sp2 & r2 & H2 & Hr2 & Hf2 & Hreg2 & Ho2).
  pose proof (frame_svcs _ _ Hf2) as Hs2.
  assert (fresh_ids env sp2) as Hfresh2 by (eapply fresh_ids_mono; [done|done|]; destruct Hf2 as [_ ->]; lia).
  destruct r2 as [o2|e|]; [|rewrite (bind_Fail _ _ _ _ _ H2); eexists _, _; split_and!; [done|done|congruence|done|congruence]|done].
  rewrite (bind_Ret _ _ _ _ _ H2). destruct (Ho2 _ eq_refl) as (O1 & O2 & O3 & O4 & O5).
  cbn [do_Name do_DatabaseConfig do_Replicas withDefaults] in O1, O2, O3.
  destruct (injectUses_spec (map_to_list (do_Uses o2)) (do_Env o2) sp2) as (e & He).
  rewrite (bind_Ret _ _ _ _ _ He). erewrite bind_Ret by done. cbv beta zeta.
  set (id := se_uuid env (sp_next sp2)). set (o' := opts_with_env e o2).
  assert (svcs sp2 !! id = None) as Hnone by (by apply Hfresh2).
  destruct (createService_spec (newService env id o') (sp_drawn sp2)) as (t & row & Hc & Hrow & Ht); [done|].
  rewrite (bind_Ret _ _ _ _ _ Hc). erewrite bind_Ret by (rewrite Hrep; done). set (sp3 := sp_set_services t _) in *.
  assert (svcs sp3 = <[id := row]> (svcs sp2)) as Hsp3 by exact Ht.
  destruct (preferredWorkers_spec env o' sp3) as (pr & Hpr). rewrite (bind_Ret _ _ _ _ _ Hpr).
  destruct (pickWorker_spec env pr sp3) as (w & Hw). rewrite (bind_Ret _ _ _ _ _ Hw).
  assert (forall s2, sv_ID s2 = id -> sv_Opts s2 = o' -> sv_Ready s2 = false ->
    exists sp4 row2, ignore (updateService env s2) sp3 = (sp4, Ret tt) /\ sp_registry sp4 = sp_registry sp2 /\
    sp_next sp4 = S (sp_next sp2) /\ svcs sp4 = <[id := row2]> (svcs sp2) /\ deployed o s2 row2) as Hup.
  { intros s2 Hid Ho Hrd. destruct (updateService_spec env s2 row sp3) as (t2 & row2 & Hu2 & Hc2 & Ht2).
    { by rewrite Hsp3, Hid, lookup_insert_eq. }
    exists (sp_set_services t2 sp3), row2. apply same_service_fields in Hc2 as (Hi2 & Hop2 & _).
    split_and!; [by eapply ignore_Ret|done|done| |].
    - change (sql_rows t2 = <[id := row2]> (svcs sp2)). rewrite Ht2, Hsp3, Hid. apply insert_insert_eq.
    - constructor; [done|done| | |done]; rewrite ?Ho; unfold sv_Name; rewrite ?Ho; cbn; [done|]. intros Hne.
      rewrite O1. by apply Hname. }
  assert (forall sp5 row2, sp_next sp5 = S (sp_next sp2) -> svcs sp5 = <[id := row2]> (svcs sp2) -> fresh_ids env sp5) as Hfr.
  { intros sp5 row2 Hn5 Hs5. by eapply fresh_ids_next. }
  destruct w as [c|err].
  - destruct (Hup (sv_with_worker (w_ID (wc_Worker c)) (newService env id o'))) as (sp4 & row2 & Hu & Hg4 & Hn4 & Hs4 & Hd4);
      [done..|]. rewrite (bind_Ret _ _ _ _ _ Hu).
    destruct (placeVolumes_quiet o' (w_ID (wc_Worker c)) sp4) as (sp5 & H5 & Hf5 & Hg5).
    rewrite (bind_Ret _ _ _ _ _ H5). erewrite bind_Ret by done. pose proof (frame_svcs _ _ Hf5) as Hs5.
    eexists _, _. split_and!; [done|done|cbn; congruence| |].
    + apply (Hfr _ row2); [cbn; by destruct Hf5 as [_ ->]|change (svcs sp5 = <[id := row2]> (svcs sp2)); congruence].
    + exists row2. split_and!; [done|cbn; rewrite <-Hs1, <-Hs2; exact Hnone|].
      change (svcs sp5 = <[id := row2]> (svcs sp)). by rewrite Hs5, Hs4, Hs2, Hs1.
  - destruct (Hup (sv_mark (sv_Status (newService env id o')) (sv_Ready (newService env id o'))
      "waiting for worker" (newService env id o'))) as (sp4 & row2 & Hu & Hg4 & Hn4 & Hs4 & Hd4); [done..|].
    rewrite (bind_Ret _ _ _ _ _ Hu). eexists _, _. split_and!; [done|done|congruence|by eapply Hfr|].
    exists row2. split_and!; [done|cbn; rewrite <-Hs1, <-Hs2; exact Hnone|]. cbn. by rewrite Hs4, Hs2, Hs1.
Qed.
End calls.

(** ** How credentials change *)

(** The login, the one before and when it ends. *)
Definition credsOf (s : Service) : option (string * string * Z) :=
  (fun c => (db_LoginRole c, db_PreviousLoginRole c, db_GraceDeadline c)) <$> do_DatabaseConfig (sv_Opts s).
(** No login waits for its end. *)
Definition settled (s : Service) : Prop :=
  forall c, do_DatabaseConfig (sv_Opts s) = Some c -> db_PreviousLoginRole c = "".

Lemma settled_opts s s' : do_DatabaseConfig (sv_Opts s') = do_DatabaseConfig (sv_Opts s) -> settled s -> settled s'.
Proof. unfold settled. by intros ->. Qed.
Lemma credsOf_opts s s' : sv_Opts s' = sv_Opts s -> credsOf s' = credsOf s.
Proof. unfold credsOf. by intros ->. Qed.
Lemma same_opts row s : same_service row s -> sv_Opts row = sv_Opts s.
Proof. by intros (_ & ? & _)%same_service_fields. Qed.

Section credentials.
#[local] Set Default Proof Using "Type*".
Context {TV TL : Type} `{!SqlTable Service TV, !SqlTableLaws Service TV, !SqlTable VolumeRecord TL}.
#[local] Abbreviation SP := (ServicePlane TV TL).
#[local] Abbreviation DB := (DBPlane TV TL).
Implicit Types (sp : SP) (s : Service) (d : DB).

(** A row of [sp'] has the credentials it had in [sp] or is settled, and only commands
    with [p] are queued on the way. *)
Record evolves (p : string -> WorkerCommand -> Prop) sp sp' : Prop := {
  ev_rows k s' : svcs sp' !! k = Some s' -> (exists s, svcs sp !! k = Some s /\ credsOf s' = credsOf s) \/ settled s';
  ev_sends : sends_only p sp sp'
}.

Lemma evolves_refl p sp : evolves p sp sp.
Proof. constructor; [|by apply sends_refl]. intros k s' Hs. left. by exists s'. Qed.

Lemma settled_creds s s' : credsOf s' = credsOf s -> settled s -> settled s'.
Proof.
  unfold credsOf, settled. intros Heq Hs c Hc. rewrite Hc in Heq.
  destruct (do_DatabaseConfig (sv_Opts s)) as [c0|]; [|done]. simpl in Heq. injection Heq as _ -> _. by apply Hs.
Qed.

Lemma evolves_trans p sp1 sp2 sp3 : evolves p sp1 sp2 -> evolves p sp2 sp3 -> evolves p sp1 sp3.
Proof.
  intros [R1 S1] [R2 S2]. constructor; [|by eapply sends_trans]. intros k s3 [(s2 & H2 & E2)|?]%R2; [|by right].
  destruct (R1 _ _ H2) as [(s1 & H1 & E1)|Hs]; [left; exists s1; split; [done|congruence]|right].
  by eapply settled_creds.
Qed.

(** What a handler knows about a row it read since the state [sp0]. *)
Definition known sp0 s : Prop :=
  (exists s0, svcs sp0 !! sv_ID s = Some s0 /\ credsOf s = credsOf s0) \/ settled s.

Lemma known_opts sp0 s s' : sv_ID s' = sv_ID s -> credsOf s' = credsOf s -> known sp0 s -> known sp0 s'.
Proof.
  intros Hid Hc [(s0 & H0 & E0)|Hs]; [left; exists s0; rewrite Hid; split; [done|congruence]|right].
  by eapply settled_creds.
Qed.

Context (de : DBEnv).
#[local] Abbreviation DM := (StateM DB ApiError).
#[local] Abbreviation SM := (StateM SP ServiceError).
#[local] Abbreviation now := (env_now (se_env (de_services de))).

Definition good (p : string -> WorkerCommand -> Prop) sp0 sp : Prop :=
  evolves p sp0 sp /\ fresh_ids (de_services de) sp.

(** A call keeps to [p] from [sp0] on, and its answer satisfies [Q]. *)
Definition keeps {A} (p : string -> WorkerCommand -> Prop) sp0 (m : DM A) (Q : A -> Prop) : Prop :=
  forall d, good p sp0 (dp_plane d) -> good p sp0 (dp_plane (m d).1) /\ forall a, (m d).2 = Ret a -> Q a.

Lemma keeps_bind {A B} p sp0 (m : DM A) (f : A -> DM B) Q Q' :
  keeps p sp0 m Q -> (forall a, Q a -> keeps p sp0 (f a) Q') -> keeps p sp0 (m ≫= f) Q'.
Proof.
  intros Hm Hf d Hd. destruct (Hm d Hd) as [H1 HQ]. unfold mbind, StateM_bind.
  destruct (m d) as [d1 [a|e|]]; simpl in *; [|by split..]. by apply Hf; [apply HQ|].
Qed.
Lemma keeps_ret {A} p sp0 (a : A) (Q : A -> Prop) : Q a -> keeps p sp0 (mret a) Q.
Proof. intros HQ d Hd. split; [done|]. by intros ? [= <-]. Qed.
Lemma keeps_reject {A} p sp0 status why Q : keeps p sp0 (reject status why : DM A) Q.
Proof. intros d Hd. by split. Qed.
Lemma keeps_weaken {A} p sp0 (m : DM A) (Q Q' : A -> Prop) :
  (forall a, Q a -> Q' a) -> keeps p sp0 m Q -> keeps p sp0 m Q'.
Proof. intros HQ Hm d Hd. destruct (Hm d Hd) as [H1 H2]. split; [done|]. intros a Ha. by apply HQ, H2. Qed.
(** What reads the state only. *)
Lemma keeps_same {A} p sp0 (m : DM A) (Q : A -> Prop) :
  (forall d, dp_plane (m d).1 = dp_plane d) ->
  (forall d a, good p sp0 (dp_plane d) -> (m d).2 = Ret a -> Q a) -> keeps p sp0 m Q.
Proof. intros H1 H2 d Hd. rewrite H1. split; [done|]. intros a. by apply H2. Qed.

Lemma good_known p sp0 sp k s : good p sp0 sp -> svcs sp !! k = Some s -> known sp0 s.
Proof.
  intros [[Hr _] _] Hs. pose proof (svcs_id _ _ _ Hs) as Hid. destruct (Hr _ _ Hs) as [(s0 & H0 & E0)|?]; [left|by right].
  exists s0. by rewrite Hid.
Qed.

(** A change of one row to a known one. *)
Lemma good_insert p sp0 sp sp' s row :
  good p sp0 sp -> sends_only p sp sp' -> sp_next sp <= sp_next sp' -> svcs sp !! sv_ID s <> None ->
  svcs sp' = <[sv_ID s := row]> (svcs sp) -> credsOf row = credsOf s -> known sp0 s -> good p sp0 sp'.
Proof.
  intros [[Hr Hs] [Hf Hi]] Hsend Hn Hold Hrows Hrow Hk. split; [constructor|split].
  - intros k s'. rewrite Hrows. intros [[<- <-]|[_ H]]%lookup_insert_Some; [|by apply Hr].
    destruct Hk as [(s0 & H0 & E0)|Hk]; [left; exists s0; split; [done|congruence]|right]. by eapply settled_creds.
  - by eapply sends_trans.
  - intros n Hle. rewrite Hrows, lookup_insert_ne; [apply Hf; lia|]. intros Heq. apply Hold. rewrite Heq. apply Hf. lia.
  - done.
Qed.

Lemma good_same p sp0 sp sp' :
  good p sp0 sp -> sends_only p sp sp' -> frame sp sp' -> good p sp0 sp'.
Proof.
  intros [[Hr Hs] Hf] Hsend Hfr. pose proof (frame_svcs _ _ Hfr) as Hrows. split; [constructor|].
  - by rewrite Hrows.
  - by eapply sends_trans.
  - eapply fresh_ids_mono; [done|done|]. by destruct Hfr as [_ ->].
Qed.

(** *** The calls of the handlers *)

Lemma onServices_run {A} (m : SM A) d sp r :
  m (dp_plane d) = (sp, r) -> r <> Stuck ->
  exists res, onServices m d = (mkDBPlane sp (dp_objects d) (dp_drawn d), Ret res) /\
  match r with Ret a => res = Ok a | Fail e => res = Err e | Stuck => False end.
Proof. intros H Hr. unfold onServices. rewrite H. destruct r; [by eexists..|done]. Qed.

Lemma onServicesOr_run {A} (m : SM A) d sp r :
  m (dp_plane d) = (sp, r) -> r <> Stuck ->
  onServicesOr m d = (mkDBPlane sp (dp_objects d) (dp_drawn d),
    match r with Ret a => Ret a | Fail e => Fail (mkApiError 500 (AService e)) | Stuck => Stuck end).
Proof.
  intros H Hr. unfold onServicesOr. destruct (onServices_run m d sp r H Hr) as (res & H1 & H2).
  rewrite (bind_Ret _ _ _ _ _ H1). destruct r; [by subst res..|done].
Qed.

Lemma listed_spec f d :
  exists l, listed f d = (d, Ret l) /\ NoDup (sv_ID <$> l) /\
  forall s, s ∈ l -> svcs (dp_plane d) !! sv_ID s = Some s /\ serviceWhere f s = true.
Proof.
  unfold listed, gets, listServices. set (rows := merge_sort newerService _).
  assert (rows ≡ₚ filter (fun s => serviceWhere f s = true) (sql_select (sp_services (dp_plane d)))) as Hperm
    by apply merge_sort_Permutation.
  assert (NoDup (sv_ID <$> rows)) as Hnd.
  { rewrite Hperm. apply NoDup_fmap_filter. exact (sql_select_NoDup (sp_services (dp_plane d))). }
  assert (forall s, s ∈ rows -> svcs (dp_plane d) !! sv_ID s = Some s /\ serviceWhere f s = true) as Hin.
  { intros s. rewrite Hperm, list_elem_of_filter, (sql_select_in (sp_services (dp_plane d)) s). unfold svcs. naive_solver. }
  assert (forall l, l `sublist_of` rows -> NoDup (sv_ID <$> l) /\
    forall s, s ∈ l -> svcs (dp_plane d) !! sv_ID s = Some s /\ serviceWhere f s = true) as Hsub.
  { intros l Hl. split.
    - eapply sublist_NoDup; [exact Hnd|]. by apply fmap_sublist.
    - intros s Hs. apply Hin. by eapply elem_of_submseteq, sublist_submseteq. }
  destruct (0 <? vf_Limit f)%Z.
  - eexists. split; [done|]. apply Hsub. etrans; [apply sublist_take|].
    destruct (0 <? vf_Offset f)%Z; [apply sublist_drop|done].
  - destruct (0 <? vf_Offset f)%Z; [|by eexists; split; [done|]; apply Hsub].
    exists []. split_and!; [done|apply NoDup_nil_2|]. by intros s []%not_elem_of_nil.
Qed.

(** [resolveDatabase] answers with a row that is a database. *)
Lemma resolveDatabase_spec id d :
  (exists s, resolveDatabase id d = (d, Ret s) /\ svcs (dp_plane d) !! sv_ID s = Some s /\ isDatabase s = true) \/
  resolveDatabase id d = (d, Fail (mkApiError 404 (ADatabase id))).
Proof.
  unfold resolveDatabase.
  destruct (onServices_run (getService id) d (dp_plane d)
    match svcs (dp_plane d) !! id with Some s => Ret s | None => Fail (ESStore ErrNotFound) end) as (res & H1 & H2).
  { apply getService_spec. }
  { by destruct (_ !! id). }
  rewrite (bind_Ret _ _ _ _ _ H1). replace (mkDBPlane (dp_plane d) (dp_objects d) (dp_drawn d)) with d by by destruct d.
  assert (forall f, vf_IsDatabase f = Some true ->
    let m := svcs ← listed f; match svcs with s :: _ => mret s | [] => reject 404 (ADatabase id) end in
    (exists s, m d = (d, Ret s) /\ svcs (dp_plane d) !! sv_ID s = Some s /\ isDatabase s = true) \/
    m d = (d, Fail (mkApiError 404 (ADatabase id)))) as Hname.
  { intros f Hf m. destruct (listed_spec f d) as (l & Hl & _ & Hin). unfold m. rewrite (bind_Ret _ _ _ _ _ Hl).
    destruct l as [|s l]; [by right|]. left. exists s. destruct (Hin s) as [Hs Hw]; [by left|]. split_and!; [done..|].
    unfold serviceWhere in Hw. rewrite Hf in Hw. cbn in Hw.
    destruct (isDatabase s); [done|]. cbn in Hw. by rewrite !andb_false_r in Hw. }
  destruct (svcs (dp_plane d) !! id) as [s|] eqn:Hs; subst res; [|by apply Hname].
  destruct (isDatabase s) eqn:Hdb; [|by apply Hname]. left. exists s.
  split_and!; [done| |done]. by rewrite (svcs_id _ _ _ Hs).
Qed.

Section keep.
Context (p : string -> WorkerCommand -> Prop) (sp0 : SP) (Hp : forall w c, no_exec w c -> p w c).

Lemma keeps_resolve id : keeps p sp0 (resolveDatabase id) (known sp0).
Proof.
  apply keeps_same.
  - intros d. by destruct (resolveDatabase_spec id d) as [(s & -> & _)| ->].
  - intros d a Hg. destruct (resolveDatabase_spec id d) as [(s & -> & Hs & _)| ->]; [|done].
    intros [= <-]. by eapply good_known.
Qed.

Lemma keeps_listed f : keeps p sp0 (listed f) (Forall (known sp0)).
Proof.
  apply keeps_same; [done|]. intros d l Hg Hl. destruct (listed_spec f d) as (l' & H & _ & Hin).
  rewrite H in Hl. injection Hl as <-. apply Forall_forall. intros s [Hs _]%Hin. by eapply good_known.
Qed.

Lemma keeps_databaseOf s why : keeps p sp0 (databaseOf s why) (fun c => do_DatabaseConfig (sv_Opts s) = Some c).
Proof.
  unfold databaseOf. destruct (do_DatabaseConfig (sv_Opts s)); [by apply keeps_ret|apply keeps_reject].
Qed.

(** A call of the service manager that ends. *)
Lemma keeps_onServices {A} (m : SM A) :
  (forall sp, good p sp0 sp -> exists sp' r, m sp = (sp', r) /\ r <> Stuck /\ good p sp0 sp') ->
  keeps p sp0 (onServices m) (fun _ => True).
Proof.
  intros Hm d Hd. destruct (Hm _ Hd) as (sp' & r & H & Hr & Hg).
  destruct (onServices_run m d sp' r H Hr) as (res & -> & _). by split.
Qed.
Lemma keeps_onServicesOr {A} (m : SM A) :
  (forall sp, good p sp0 sp -> exists sp' r, m sp = (sp', r) /\ r <> Stuck /\ good p sp0 sp') ->
  keeps p sp0 (onServicesOr m) (fun _ => True).
Proof.
  intros Hm. unfold onServicesOr. eapply keeps_bind; [by apply keeps_onServices|].
  intros [a|e] _; [by apply keeps_ret|apply keeps_reject].
Qed.

Lemma update_good s sp :
  good p sp0 sp -> known sp0 s ->
  exists sp' r, updateRow de s sp = (sp', r) /\ r <> Stuck /\ good p sp0 sp'.
Proof.
  intros Hg Hk. unfold updateRow. destruct (svcs sp !! sv_ID s) as [old|] eqn:Hold.
  - destruct (updateService_spec (de_services de) s old sp Hold) as (t & row & Hu & Hc & Hr).
    eexists _, _. split_and!; [done..|]. apply (good_insert p sp0 sp _ s row); [done|by apply sends_refl|done|congruence|done| |done].
    apply credsOf_opts. by apply same_opts.
  - destruct (updateService_none (de_services de) s sp Hold) as (t & Hu & Hr). eexists _, _. split_and!; [done..|].
    destruct Hg as [[H1 H2] [H3 H4]]. split; [constructor|split].
    + intros k s'. change (svcs (sp_set_services t sp)) with (sql_rows t). rewrite Hr. apply H1.
    + eapply sends_trans; [exact H2|]. by apply sends_refl.
    + intros n Hle. change (svcs (sp_set_services t sp)) with (sql_rows t). rewrite Hr. by apply H3.
    + done.
Qed.

Lemma fails_good id sp : svcs sp !! id = None ->
  getService (TV := TV) (TL := TL) id sp = (sp, Fail (ESStore ErrNotFound)).
Proof. intros H. by rewrite getService_spec, H. Qed.

Lemma redeploy_good id sp :
  good p sp0 sp -> exists sp' r, Redeploy (de_services de) id sp = (sp', r) /\ r <> Stuck /\ good p sp0 sp'.
Proof.
  intros Hg. destruct (svcs sp !! id) as [s|] eqn:Hs.
  - destruct (Redeploy_spec (de_services de) id s sp Hs) as (sp' & s' & row & H & Hr & Ho & _ & _ & _ & Hn & Hsend).
    eexists _, _. split_and!; [done..|]. pose proof (svcs_id _ _ _ Hs) as Hid. subst id.
    apply (good_insert p sp0 sp _ s row); [done|by eapply sends_weaken|lia|congruence|done|by apply credsOf_opts|].
    by eapply good_known.
  - exists sp, (Fail (ESStore ErrNotFound)). split_and!; [|done..]. unfold Redeploy.
    by rewrite (bind_Fail _ _ _ _ _ (fails_good _ _ Hs)).
Qed.

Lemma stop_good id sp :
  good p sp0 sp -> exists sp' r, ServiceManager.Stop (de_services de) id sp = (sp', r) /\ r <> Stuck /\ good p sp0 sp'.
Proof.
  intros Hg. destruct (Stop_sends (de_services de) id sp) as (sp' & r & H & Hr & Hsend & Hn & Hrows).
  exists sp', r. split_and!; [done..|]. destruct Hrows as [Hrows|(s & row & Hs & Hrows & Ho & _)].
  - destruct Hg as [[H1 H2] [H3 H4]]. split; [constructor|split].
    + by rewrite Hrows.
    + eapply sends_trans; [exact H2|]. by eapply sends_weaken.
    + intros n Hle. rewrite Hrows. apply H3. lia.
    + done.
  - pose proof (svcs_id _ _ _ Hs) as Hid. subst id.
    apply (good_insert p sp0 sp _ s row); [done|by eapply sends_weaken|lia|congruence|done|by apply credsOf_opts|].
    by eapply good_known.
Qed.

Lemma destroy_good id sp :
  good p sp0 sp -> exists sp' r, Destroy (de_services de) id sp = (sp', r) /\ r <> Stuck /\ good p sp0 sp'.
Proof.
  intros Hg. destruct (svcs sp !! id) as [s|] eqn:Hs.
  - destruct (Destroy_sends (de_services de) id s sp Hs) as (sp' & H & Hrows & Hn & Hsend).
    eexists _, _. split_and!; [done..|]. destruct Hg as [[H1 H2] [H3 H4]]. split; [constructor|split].
    + intros k s'. rewrite Hrows. intros [_ Hk]%lookup_delete_Some. by apply H1.
    + eapply sends_trans; [exact H2|]. by eapply sends_weaken.
    + intros n Hle. rewrite Hrows. apply lookup_delete_None. right. apply H3. lia.
    + done.
  - exists sp, (Fail (ESStore ErrNotFound)). split_and!; [|done..]. unfold Destroy.
    by rewrite (bind_Fail _ _ _ _ _ (fails_good _ _ Hs)).
Qed.

Lemma deploy_good o sp :
  do_Replicas o = 0%Z -> (forall c, do_DatabaseConfig o = Some c -> db_PreviousLoginRole c = "") ->
  good p sp0 sp -> exists sp' r, Deploy (de_services de) o sp = (sp', r) /\ r <> Stuck /\ good p sp0 sp'.
Proof.
  intros Hrep Hset [[H1 H2] Hf].
  destruct (Deploy_spec (de_services de) o sp Hf Hrep) as (sp' & r & H & Hr & Hreg & Hf' & Hcase).
  exists sp', r. split_and!; [done..|]. split; [|done]. constructor; [|eapply sends_trans; [exact H2|by apply sends_refl]].
  intros k s'. destruct r as [s|e|]; [|rewrite Hcase; apply H1..].
  destruct Hcase as (row & [_ Ho Hc _ _] & _ & ->). intros [[<- <-]|[_ Hk]]%lookup_insert_Some; [|by apply H1].
  right. intros c Hcfg. apply Hset. by rewrite <-Hc, <-Ho.
Qed.

Lemma keeps_update s : known sp0 s -> keeps p sp0 (onServicesOr (updateRow de s)) (fun _ => True).
Proof. intros Hk. apply keeps_onServicesOr. intros sp Hg. by apply update_good. Qed.
Lemma keeps_update' s : known sp0 s -> keeps p sp0 (onServices (updateRow de s)) (fun _ => True).
Proof. intros Hk. apply keeps_onServices. intros sp Hg. by apply update_good. Qed.

Lemma known_versioned s c v prev vol image :
  do_DatabaseConfig (sv_Opts s) = Some c -> known sp0 s ->
  known sp0 (sv_with_ref image (sv_with_database (db_versioned v prev vol c) s)).
Proof. intros Hc. apply known_opts; [done|]. unfold credsOf. by rewrite Hc. Qed.

Lemma known_cleared s login password c :
  known sp0 (sv_with_database (db_rotated login password "" 0 c) s).
Proof. right. intros c'. by intros [= <-]. Qed.

(** The steps of a handler that keep to [p] by the lemmas above. *)
Ltac keep_call :=
  first
    [ apply keeps_reject
    | by apply keeps_ret
    | apply keeps_resolve
    | apply keeps_listed
    | apply keeps_databaseOf
    | by apply keeps_update | by apply keeps_update'
    | apply keeps_onServicesOr; intros ? ?;
      first [by apply redeploy_good | by apply stop_good | by apply destroy_good | apply deploy_good; [done|by intros ? [= <-]|done]]
    | apply keeps_onServices; intros ? ?;
      first [by apply redeploy_good | by apply stop_good | by apply destroy_good | apply deploy_good; [done|by intros ? [= <-]|done]]
    | apply (keeps_same p sp0 _ (fun _ => True)); [intros ?; cbn; first [done|by repeat case_match]|done] ].
Ltac keep := repeat first
  [ eapply keeps_bind; [keep_call|intros ? ?]
  | keep_call
  | match goal with |- keeps _ _ (match ?x with _ => _ end) _ => destruct x eqn:? end
  | match goal with |- keeps _ _ (if ?b then _ else _) _ => destruct b eqn:? end ].

Lemma keeps_members l :
  Forall (fun o => do_Replicas o = 0%Z /\ forall c, do_DatabaseConfig o = Some c -> db_PreviousLoginRole c = "") l ->
  keeps p sp0 (deployMembers de l) (fun _ => True).
Proof.
  induction 1 as [|o l [Hr Hc] Hl IH]; cbn [deployMembers]; [by apply keeps_ret|].
  eapply keeps_bind; [|intros r _; eapply keeps_bind; [exact IH|intros f _; by apply keeps_ret]].
  apply keeps_onServices. intros sp Hg. by apply deploy_good.
Qed.

Lemma members_settled req cfg s :
  Forall (fun o => do_Replicas o = 0%Z /\ forall c, do_DatabaseConfig o = Some c -> db_PreviousLoginRole c = "")
    (memberOpts req cfg s).
Proof.
  unfold memberOpts. apply Forall_app. split.
  - apply Forall_fmap, Forall_forall. intros i _. split; [done|]. by intros c [= <-].
  - destruct (_ && _); [|constructor]. apply Forall_fmap, Forall_forall. intros i _. split; [done|]. by intros c [= <-].
Qed.

Lemma keeps_createDatabase body wait :
  (forall others d, wait = Some others -> good p sp0 (dp_plane d) -> good p sp0 (dp_plane (others d))) ->
  keeps p sp0 (createDatabase de body wait) (fun _ => True).
Proof.
  intros Hw. unfold createDatabase. destruct body as [req|]; [|apply keeps_reject].
  destruct (checkCreate req); [apply keeps_reject|]. cbv zeta.
  eapply (keeps_bind p sp0 _ _ (fun _ => True)); [destruct (String.eqb _ _); keep|]. intros password _.
  eapply keeps_bind; [keep_call|]. intros svc _.
  eapply (keeps_bind p sp0 _ _ (fun _ => True)).
  - destruct wait as [others|]; [|by apply keeps_ret]. destruct (sv_Ready svc); [by apply keeps_ret|].
    unfold waitForReady. eapply (keeps_bind p sp0 _ _ (fun _ => True)).
    { intros d Hd. split; [by eapply Hw|done]. }
    intros _ _. eapply keeps_bind; [|intros r _; keep].
    apply keeps_onServices. intros sp Hg. rewrite getService_spec. eexists _, _. split_and!; [done|by destruct (_ !! _)|done].
  - intros svc' _. eapply (keeps_bind p sp0 _ _ (fun _ => True)); [|intros w _; by apply keeps_ret].
    destruct (0 <? _)%Z; [|by apply keeps_ret]. apply keeps_members, members_settled.
Qed.

Lemma keeps_destroyEach l : keeps p sp0 (destroyEach de l) (fun _ => True).
Proof. induction l as [|s l IH]; cbn [destroyEach]; [by apply keeps_ret|]. keep. eapply keeps_bind; [exact IH|intros f _]. keep. Qed.
Lemma keeps_destroyDatabase id : keeps p sp0 (destroyDatabase de id) (fun _ => True).
Proof.
  unfold destroyDatabase. keep. eapply (keeps_bind p sp0 _ _ (fun _ => True)).
  - keep. apply keeps_destroyEach.
  - intros failed _. keep.
Qed.
Lemma keeps_forceStop id : keeps p sp0 (forceStopDatabase de id) (fun _ => True).
Proof.
  unfold forceStopDatabase. eapply keeps_bind; [apply keeps_resolve|]. intros s Hs. cbv zeta.
  eapply keeps_bind.
  - apply keeps_update. destruct (do_DatabaseConfig _) as [c|] eqn:Hc; [by apply known_cleared|].
    right. intros c. by rewrite Hc.
  - intros _ _. eapply (keeps_bind p sp0 _ _ (fun _ => True)); [destruct (String.eqb _ _); keep|intros _ _; keep].
Qed.

Lemma keeps_addReplicas s c l : keeps p sp0 (addReplicas de s c l) (fun _ => True).
Proof. induction l as [|n l IH]; cbn [addReplicas]; [by apply keeps_ret|]. keep. eapply keeps_bind; [exact IH|intros f _]. keep. Qed.
Lemma keeps_addDatabaseReplica id count : keeps p sp0 (addDatabaseReplica de id count) (fun _ => True).
Proof. unfold addDatabaseReplica. keep. apply keeps_addReplicas. Qed.
Lemma keeps_removeDatabaseReplica rid : keeps p sp0 (removeDatabaseReplica de rid) (fun _ => True).
Proof. unfold removeDatabaseReplica. keep. Qed.
Lemma keeps_stopDatabase id : keeps p sp0 (stopDatabase de id) (fun _ => True).
Proof. unfold stopDatabase. keep. Qed.
Lemma keeps_startDatabase id : keeps p sp0 (startDatabase de id) (fun _ => True).
Proof. unfold startDatabase. keep. Qed.

Lemma keeps_createBackup jsonLen b s : keeps p sp0 (createBackup jsonLen b s) (fun _ => True).
Proof. apply keeps_same; [|done]. intros d. unfold createBackup. by destruct (CreateBackup _ _ _ _). Qed.
Lemma keeps_backupManager : keeps p sp0 (backupManager de) (fun _ => True).
Proof. unfold backupManager. destruct (de_backups de); [by apply keeps_ret|apply keeps_reject]. Qed.
Lemma keeps_createDatabaseBackup jsonLen id : keeps p sp0 (createDatabaseBackup jsonLen de id) (fun _ => True).
Proof.
  unfold createDatabaseBackup. keep. eapply keeps_bind; [apply keeps_backupManager|intros b _].
  eapply keeps_bind; [apply keeps_createBackup|intros r _]. keep.
Qed.
Lemma keeps_restoreDatabase id body : keeps p sp0 (restoreDatabase de id body) (fun _ => True).
Proof.
  unfold restoreDatabase. keep. eapply keeps_bind; [apply keeps_backupManager|intros b _].
  destruct body as [[x y]|]; [|apply keeps_reject].
  eapply (keeps_bind p sp0 _ _ (fun _ => True)); [|intros ? _; keep].
  destruct (negb _); [|destruct (String.eqb _ _)]; keep.
Qed.

Lemma keeps_moveMembers v prev image l :
  Forall (known sp0) l -> keeps p sp0 (moveMembers de v prev image l) (fun _ => True).
Proof.
  induction 1 as [|s l Hs Hl IH]; cbn [moveMembers]; [by apply keeps_ret|].
  eapply (keeps_bind p sp0 _ _ (fun _ => True)); [|intros ok _; eapply keeps_bind; [exact IH|intros f _; by apply keeps_ret]].
  unfold moveMember. destruct (do_DatabaseConfig (sv_Opts s)) as [c|] eqn:Hc; [|by apply keeps_ret].
  eapply keeps_bind; [apply keeps_update'; by apply known_versioned|intros u _]. keep.
Qed.
Lemma keeps_rollMembers v image l :
  Forall (known sp0) l -> keeps p sp0 (rollMembers de v image l) (fun _ => True).
Proof.
  unfold rollMembers. induction 1 as [|s l Hs Hl IH]; cbn [for_each]; [by apply keeps_ret|].
  eapply (keeps_bind p sp0 _ _ (fun _ => True)); [|intros _ _; exact IH].
  unfold rollMember. destruct (do_DatabaseConfig (sv_Opts s)) as [c|] eqn:Hc; [|by apply keeps_ret].
  eapply keeps_bind; [apply keeps_update'; by apply known_versioned|intros u _]. keep.
Qed.

Lemma keeps_upgradeDatabase jsonLen id body : keeps p sp0 (upgradeDatabase jsonLen de id body) (fun _ => True).
Proof.
  unfold upgradeDatabase. eapply keeps_bind; [apply keeps_resolve|intros s Hs].
  eapply keeps_bind; [apply keeps_databaseOf|intros c Hc].
  destruct body as [target|]; [|apply keeps_reject]. destruct (checkUpgrade c target); [|apply keeps_reject].
  eapply (keeps_bind p sp0 _ _ (fun _ => True)).
  { destruct (de_backups de); [|by apply keeps_ret]. eapply keeps_bind; [apply keeps_createBackup|intros r _]. keep. }
  intros backupID _. cbv zeta. eapply keeps_bind; [apply keeps_update; by apply known_versioned|intros _ _].
  keep. eapply keeps_bind; [by apply keeps_moveMembers|intros w _]. keep.
Qed.
Lemma keeps_rollback id : keeps p sp0 (rollbackDatabaseUpgrade de id) (fun _ => True).
Proof.
  unfold rollbackDatabaseUpgrade. eapply keeps_bind; [apply keeps_resolve|intros s Hs].
  eapply keeps_bind; [apply keeps_databaseOf|intros c Hc].
  destruct (String.eqb _ _); [apply keeps_reject|]. cbv zeta. destruct (GetEngineDefaults _ _); [|apply keeps_reject].
  eapply keeps_bind; [apply keeps_update; by apply known_versioned|intros _ _].
  keep. eapply keeps_bind; [by apply keeps_rollMembers|intros w _]. keep.
Qed.
End keep.
End credentials.

(** ** Runs *)

(** The calls that change something. *)
Inductive DBCall {TV TL} :=
  | CallCreate (body : option CreateReq) (wait : option (DBPlane TV TL -> DBPlane TV TL))
  | CallDestroy (id : string) | CallStop (id : string) | CallStart (id : string) | CallForceStop (id : string)
  | CallRotate (id : string) | CallSetCredentials (id : string) (password : option string) | CallReap
  | CallAddReplica (id : string) (count : option Z) | CallRemoveReplica (rid : string)
  | CallBackup (id : string) | CallRestore (id : string) (body : option (string * string))
  | CallUpgrade (id : string) (body : option string) | CallRollback (id : string).
Arguments DBCall : clear implicits.

Section runs.
#[local] Set Default Proof Using "Type*".
Context {TV TL : Type} `{!SqlTable Service TV, !SqlTableLaws Service TV, !SqlTable VolumeRecord TL}.
Context (jsonLen : BackupObject -> Z).
#[local] Abbreviation SP := (ServicePlane TV TL).
#[local] Abbreviation DB := (DBPlane TV TL).
Implicit Types (sp : SP) (s : Service) (d : DB) (de : DBEnv).

Definition runCall de (c : DBCall TV TL) d : DB :=
  match c with
  | CallCreate body wait => (createDatabase de body wait d).1
  | CallDestroy id => (destroyDatabase de id d).1
  | CallStop id => (stopDatabase de id d).1
  | CallStart id => (startDatabase de id d).1
  | CallForceStop id => (forceStopDatabase de id d).1
  | CallRotate id => (rotateDatabaseCredentials de id d).1
  | CallSetCredentials id password => (setDatabaseCredentials de id password d).1
  | CallReap => (reapExpiredCredentials de d).1
  | CallAddReplica id count => (addDatabaseReplica de id count d).1
  | CallRemoveReplica rid => (removeDatabaseReplica de rid d).1
  | CallBackup id => (createDatabaseBackup jsonLen de id d).1
  | CallRestore id body => (restoreDatabase de id body d).1
  | CallUpgrade id body => (upgradeDatabase jsonLen de id body d).1
  | CallRollback id => (rollbackDatabaseUpgrade de id d).1
  end.

(** The rotations that were answered, the last one of each database: the login replaced,
    the new one and the time. *)
Abbreviation Rotations := (gmap string (string * string * Z)).
Definition noteRotation de id (r : Res ApiError Rotation) d (hist : Rotations) : Rotations :=
  match (resolveDatabase id d).2, r with
  | Ret s, Ret ro => <[sv_ID s := (ro_Previous ro, ro_Login ro, env_now (se_env (de_services de)))]> hist
  | _, _ => hist
  end.
Definition noted de (c : DBCall TV TL) d (hist : Rotations) : Rotations :=
  match c with
  | CallRotate id => noteRotation de id (rotateDatabaseCredentials de id d).2 d hist
  | CallSetCredentials id password => noteRotation de id (setDatabaseCredentials de id password d).2 d hist
  | _ => hist
  end.

(** What happens while a creation waits is of others: they leave credentials alone. *)
Definition waits_well de (c : DBCall TV TL) : Prop :=
  match c with
  | CallCreate _ (Some others) => forall d,
      evolves no_exec (dp_plane d) (dp_plane (others d)) /\
      (fresh_ids (de_services de) (dp_plane d) -> fresh_ids (de_services de) (dp_plane (others d)))
  | _ => True
  end.

(** Calls in turn, each at its time and with what it finds, and the steps of others
    between them. *)
Inductive db_run : Rotations -> DB -> Prop :=
  | db_start d : map_Forall (fun _ s => settled s) (svcs (dp_plane d)) -> db_run ∅ d
  | db_others hist d d' : db_run hist d -> evolves no_exec (dp_plane d) (dp_plane d') -> db_run hist d'
  | db_call hist d de c : db_run hist d -> fresh_ids (de_services de) (dp_plane d) -> waits_well de c ->
      db_run (noted de c d hist) (runCall de c d).

(** A login that waits for its end is the one of the last rotation. *)
Definition pending_known (hist : Rotations) sp : Prop :=
  map_Forall (fun k s => forall c, do_DatabaseConfig (sv_Opts s) = Some c -> db_PreviousLoginRole c <> "" ->
    hist !! k = Some (db_PreviousLoginRole c, db_LoginRole c, (db_GraceDeadline c - defaultGracePeriod)%Z)) (svcs sp).

Lemma pending_evolves p hist sp sp' : evolves p sp sp' -> pending_known hist sp -> pending_known hist sp'.
Proof.
  intros [Hr _] Hk k s' Hs' c Hc Hne. destruct (Hr _ _ Hs') as [(s & Hs & Heq)|Hset]; [|by destruct Hne; apply Hset].
  unfold credsOf in Heq. rewrite Hc in Heq. destruct (do_DatabaseConfig (sv_Opts s)) as [c0|] eqn:Hc0; [|done].
  simpl in Heq. injection Heq as -> Hp ->. rewrite Hp. apply (Hk k s Hs c0 Hc0). by rewrite <-Hp.
Qed.

(** *** The reaper *)

Definition expired (now : Z) (c : DatabaseConfig) : bool :=
  negb (String.eqb (db_PreviousLoginRole c) "") && negb (db_GraceDeadline c =? 0)%Z && (db_GraceDeadline c <=? now)%Z.
Definition cleared (c : DatabaseConfig) : DatabaseConfig := db_rotated (db_LoginRole c) (db_Password c) "" 0 c.
(** The commands of a pass from [sp] on. *)
Definition revokes de sp (wid : string) (cmd : WorkerCommand) : Prop :=
  exists id s c, svcs sp !! id = Some s /\ do_DatabaseConfig (sv_Opts s) = Some c /\
    expired (env_now (se_env (de_services de))) c = true /\
    cmd = CServiceExec id [ExecRevokeLoginCommand (de_printable de) c (db_PreviousLoginRole c)].

(** What a pass makes of one row. *)
Definition reaped (now : Z) s s' : Prop :=
  match do_DatabaseConfig (sv_Opts s) with
  | Some c => if expired now c then same_service s' (sv_with_database (cleared c) s) else s' = s
  | None => s' = s
  end.

Lemma reapOne_spec de s d :
  svcs (dp_plane d) !! sv_ID s = Some s ->
  exists d' s', reapOne de s d = (d', Ret tt) /\ svcs (dp_plane d') = <[sv_ID s := s']> (svcs (dp_plane d)) /\
  reaped (env_now (se_env (de_services de))) s s' /\
  sends_only (revokes de (dp_plane d)) (dp_plane d) (dp_plane d') /\ sp_next (dp_plane d') = sp_next (dp_plane d).
Proof.
  intros Hs. unfold reapOne, reaped. destruct (do_DatabaseConfig (sv_Opts s)) as [c|] eqn:Hc.
  2: { exists d, s. split_and!; [done|by rewrite insert_id|done|by apply sends_refl|done]. }
  unfold expired. destruct (String.eqb (db_PreviousLoginRole c) "") eqn:Hn; cbn [orb negb andb].
  { exists d, s. split_and!; [done|by rewrite insert_id|done|by apply sends_refl|done]. }
  destruct (db_GraceDeadline c =? 0)%Z eqn:Hz; cbn [orb negb andb].
  { exists d, s. split_and!; [done|by rewrite insert_id|done|by apply sends_refl|done]. }
  rewrite Z.leb_antisym. destruct (_ <? db_GraceDeadline c)%Z eqn:Hlt; cbn [negb].
  { exists d, s. split_and!; [done|by rewrite insert_id|done|by apply sends_refl|done]. }
  set (cmd := ExecRevokeLoginCommand _ _ _).
  destruct (ExecInService_sends (de_services de) (sv_ID s) [cmd] (dp_plane d)) as (sp1 & r1 & H1 & Hr1 & Hf1 & Hs1).
  destruct (onServices_run _ d _ _ H1 Hr1) as (res1 & E1 & _). rewrite (bind_Ret _ _ _ _ _ E1).
  pose proof (frame_svcs _ _ Hf1) as Hrows.
  destruct (updateService_spec (de_services de) (sv_with_database (cleared c) s) s sp1) as (t & row & Hu & Hrow & Ht).
  { cbn. by rewrite Hrows. }
  set (d1 := mkDBPlane sp1 _ _).
  destruct (onServices_run (updateRow de (sv_with_database (cleared c) s)) d1 _ _ Hu) as (res2 & E2 & _); [done|].
  rewrite (bind_Ret _ _ _ _ _ E2). eexists _, row. split_and!; [done| |exact Hrow| |].
  - cbn. change (sql_rows t = <[sv_ID s := row]> (svcs (dp_plane d))). cbn in Ht. by rewrite Ht, Hrows.
  - eapply sends_trans; [|apply (sends_refl _ sp1); done]. eapply sends_weaken; [|exact Hs1]. intros w cm ->.
    exists (sv_ID s), s, c. split_and!; [done|done| |done]. unfold expired.
    by rewrite Hn, Hz, Z.leb_antisym, Hlt.
  - cbn. by destruct Hf1 as [_ ->].
Qed.

Lemma reaped_revokes de s s' sp sp' :
  svcs sp !! sv_ID s = Some s -> svcs sp' = <[sv_ID s := s']> (svcs sp) ->
  reaped (env_now (se_env (de_services de))) s s' ->
  forall w cmd, revokes de sp' w cmd -> revokes de sp w cmd.
Proof.
  intros Hs Hr Hreap w cmd (id & x & c & Hx & Hc & Hexp & ->). rewrite Hr in Hx.
  apply lookup_insert_Some in Hx as [[<- <-]|[_ Hx]]; [|by exists id, x, c].
  unfold reaped in Hreap. destruct (do_DatabaseConfig (sv_Opts s)) as [c0|] eqn:Hc0.
  - destruct (expired _ c0); [|subst; by exists (sv_ID s), s, c]. apply same_opts in Hreap. rewrite Hreap in Hc.
    injection Hc as <-. done.
  - subst. by exists (sv_ID s), s, c.
Qed.

Lemma reapEach_spec de (l : list Service) d :
  NoDup (sv_ID <$> l) -> (forall s, s ∈ l -> svcs (dp_plane d) !! sv_ID s = Some s) ->
  exists d', for_each (reapOne de) l d = (d', Ret tt) /\
  (forall k, k ∉ (sv_ID <$> l) -> svcs (dp_plane d') !! k = svcs (dp_plane d) !! k) /\
  (forall s, s ∈ l -> exists s', svcs (dp_plane d') !! sv_ID s = Some s' /\ reaped (env_now (se_env (de_services de))) s s') /\
  sends_only (revokes de (dp_plane d)) (dp_plane d) (dp_plane d') /\ sp_next (dp_plane d') = sp_next (dp_plane d).
Proof.
  revert d. induction l as [|s l IH]; intros d Hnd Hl.
  { exists d. split_and!; [done..| |by apply sends_refl|done]. by intros s []%not_elem_of_nil. }
  apply NoDup_cons in Hnd as [Hnot Hnd]. cbn [for_each].
  destruct (reapOne_spec de s d) as (d1 & s1 & H1 & Hr1 & HR & Hs1 & Hn1); [apply Hl; by left|].
  rewrite (bind_Ret _ _ _ _ _ H1).
  destruct (IH d1 Hnd) as (d2 & H2 & Hk2 & Hl2 & Hs2 & Hn2).
  { intros b Hb. rewrite Hr1, lookup_insert_ne; [apply Hl; by right|]. intros Heq. apply Hnot. rewrite Heq.
    by apply list_elem_of_fmap_2. }
  exists d2. split_and!; [done| | | |congruence].
  - intros k. rewrite fmap_cons, not_elem_of_cons. intros [Hk Hkl]. rewrite Hk2, Hr1 by done. by apply lookup_insert_ne.
  - intros b [->|Hb]%elem_of_cons; [|by apply Hl2]. exists s1. split; [|done].
    by rewrite Hk2, Hr1, lookup_insert_eq.
  - eapply sends_trans; [exact Hs1|]. eapply sends_weaken; [|exact Hs2].
    eapply reaped_revokes; [apply Hl; by left|done|done].
Qed.

Definition firstHundred : ServiceFilter := mkServiceFilter None None None (Some true) None None 100 0.

(** A pass reaps every one of the first hundred databases and touches nothing else. *)
Lemma reap_spec de d :
  exists d' (l : list Service), reapExpiredCredentials de d = (d', Ret tt) /\ listed firstHundred d = (d, Ret l) /\
  (forall k s, svcs (dp_plane d) !! k = Some s -> exists s', svcs (dp_plane d') !! k = Some s' /\
    if bool_decide (k ∈ (sv_ID <$> l)) then reaped (env_now (se_env (de_services de))) s s' else s' = s) /\
  (forall k, svcs (dp_plane d) !! k = None -> svcs (dp_plane d') !! k = None) /\
  sends_only (revokes de (dp_plane d)) (dp_plane d) (dp_plane d').
Proof.
  unfold reapExpiredCredentials. destruct (listed_spec firstHundred d) as (l & Hl & Hnd & Hin).
  fold firstHundred. rewrite (bind_Ret _ _ _ _ _ Hl).
  destruct (reapEach_spec de l d Hnd) as (d' & H & Hk & Hreap & Hsend & _); [by intros s [? _]%Hin|].
  exists d', l. split_and!; [done..| | |done].
  - intros k s Hs. case_bool_decide as Hsl; [|exists s; by rewrite Hk].
    apply list_elem_of_fmap in Hsl as (b & -> & Hb). destruct (Hin b Hb) as [Hb' _]. rewrite Hb' in Hs.
    injection Hs as <-. by apply Hreap.
  - intros k Hnone. rewrite Hk; [done|]. intros (b & -> & Hb)%list_elem_of_fmap. destruct (Hin b Hb). congruence.
Qed.

(** *** Rotations *)

Definition creates de sp (wid : string) (cmd : WorkerCommand) : Prop :=
  exists id s c login password, svcs sp !! id = Some s /\ do_DatabaseConfig (sv_Opts s) = Some c /\
    cmd = CServiceExec id [ExecCreateLoginCommand (de_printable de) c login password].

(** Either no row changed, or the row of the database has the new login, and the old one
    waits for its end. *)
Record rotation_outcome de id d d' (r : Res ApiError Rotation) : Prop := {
  rt_sends : sends_only (creates de (dp_plane d)) (dp_plane d) (dp_plane d');
  rt_rows : (forall ro, r <> Ret ro) /\ svcs (dp_plane d') = svcs (dp_plane d) \/
    exists s c ro row password, (resolveDatabase id d).2 = Ret s /\ r = Ret ro /\
      svcs (dp_plane d) !! sv_ID s = Some s /\ do_DatabaseConfig (sv_Opts s) = Some c /\ ro_Previous ro = db_LoginRole c /\
      svcs (dp_plane d') = <[sv_ID s := row]> (svcs (dp_plane d)) /\
      do_DatabaseConfig (sv_Opts row) = Some (db_rotated (ro_Login ro) password (db_LoginRole c)
        (env_now (se_env (de_services de)) + defaultGracePeriod) c)
}.

Lemma rotation_none de id d d' r :
  (forall ro, r <> Ret ro) -> dp_plane d' = dp_plane d -> rotation_outcome de id d d' r.
Proof. intros Hr Hd. constructor; [apply sends_refl; by rewrite Hd|left]. by rewrite Hd. Qed.

Lemma rotateCredentials_spec de id s c password d d0 :
  (resolveDatabase id d).2 = Ret s -> svcs (dp_plane d) !! sv_ID s = Some s -> do_DatabaseConfig (sv_Opts s) = Some c ->
  dp_plane d0 = dp_plane d ->
  rotation_outcome de id d (rotateCredentials de s c password d0).1 (rotateCredentials de s c password d0).2.
Proof.
  intros Hres Hs Hc Hd0. unfold rotateCredentials. erewrite bind_Ret by done. cbv zeta.
  set (login := GenerateLoginRole _ _). set (deadline := (_ + defaultGracePeriod)%Z).
  destruct (String.eqb _ _); [by apply rotation_none|]. set (d1 := mkDBPlane (dp_plane d0) _ _).
  set (cmd := ExecCreateLoginCommand _ _ _ _).
  destruct (ExecInService_sends (de_services de) (sv_ID s) [cmd] (dp_plane d1)) as (sp1 & r1 & H1 & Hr1 & Hf1 & Hs1).
  destruct (onServices_run _ d1 _ _ H1 Hr1) as (res1 & E1 & _). rewrite (bind_Ret _ _ _ _ _ E1).
  set (c' := db_rotated login password (db_LoginRole c) deadline c).
  pose proof (frame_svcs _ _ Hf1) as Hrows. cbn [dp_plane d1] in Hrows. rewrite Hd0 in Hrows.
  destruct (updateService_spec (de_services de) (sv_with_database c' s) s sp1) as (t & row & Hu & Hrow & Ht).
  { cbn. by rewrite Hrows. }
  set (d2 := mkDBPlane sp1 _ _).
  pose proof (onServicesOr_run (updateRow de (sv_with_database c' s)) d2 _ _ Hu) as E2. cbv beta iota in E2.
  rewrite (bind_Ret _ _ _ _ _ (E2 ltac:(done))). constructor.
  - eapply sends_trans; [|apply (sends_refl _ sp1); done]. cbn [dp_plane d1] in Hs1. rewrite Hd0 in Hs1.
    eapply sends_weaken; [|exact Hs1]. intros w cm ->. by exists (sv_ID s), s, c, login, password.
  - right. eexists s, c, _, row, password. split_and!; [done|done|done|done|done| |].
    + cbn. change (sql_rows t = <[sv_ID s := row]> (svcs (dp_plane d))). cbn in Ht. by rewrite Ht, Hrows.
    + rewrite (same_opts _ _ Hrow). done.
Qed.

Lemma databaseOf_run (s : Service) why d c :
  do_DatabaseConfig (sv_Opts s) = Some c -> databaseOf (TV := TV) (TL := TL) s why d = (d, Ret c).
Proof. unfold databaseOf. by intros ->. Qed.

Lemma isDatabase_config s : isDatabase s = true -> exists c, do_DatabaseConfig (sv_Opts s) = Some c.
Proof. unfold isDatabase. intros H%bool_decide_eq_true. exact H. Qed.

Lemma rotateDatabase_outcome de id d :
  rotation_outcome de id d (rotateDatabaseCredentials de id d).1 (rotateDatabaseCredentials de id d).2.
Proof.
  unfold rotateDatabaseCredentials. destruct (resolveDatabase_spec id d) as [(s & Hr & Hs & Hdb)|Hr].
  2: { rewrite (bind_Fail _ _ _ _ _ Hr). by apply rotation_none. }
  rewrite (bind_Ret _ _ _ _ _ Hr). destruct (isDatabase_config s Hdb) as [c Hc].
  rewrite (bind_Ret _ _ _ _ _ (databaseOf_run _ _ d _ Hc)). erewrite bind_Ret by done.
  apply rotateCredentials_spec; [by rewrite Hr|done..].
Qed.

Lemma setCredentials_outcome de id password d :
  rotation_outcome de id d (setDatabaseCredentials de id password d).1 (setDatabaseCredentials de id password d).2.
Proof.
  unfold setDatabaseCredentials. destruct (resolveDatabase_spec id d) as [(s & Hr & Hs & Hdb)|Hr].
  2: { rewrite (bind_Fail _ _ _ _ _ Hr). by apply rotation_none. }
  rewrite (bind_Ret _ _ _ _ _ Hr). destruct (isDatabase_config s Hdb) as [c Hc].
  rewrite (bind_Ret _ _ _ _ _ (databaseOf_run _ _ d _ Hc)). cbv zeta.
  destruct (String.eqb _ _); [by apply rotation_none|]. destruct (_ <? 8); [by apply rotation_none|].
  destruct (str_mem _ _); [by apply rotation_none|]. apply rotateCredentials_spec; [by rewrite Hr|done..].
Qed.

Lemma rotation_pending de id d d' r hist :
  rotation_outcome de id d d' r -> pending_known hist (dp_plane d) ->
  pending_known (noteRotation de id r d hist) (dp_plane d').
Proof.
  intros [_ Hrows] Hk. unfold noteRotation. destruct Hrows as [[Hr Hrows]|(s & c & ro & row & pw & Hres & -> & Hs & Hc & Hp & Hrows & Hrow)].
  - unfold pending_known. rewrite Hrows. destruct (resolveDatabase id d).2; [|done..]. destruct r; [by edestruct Hr|done..].
  - rewrite Hres. intros k s' Hs' c' Hc' Hne. rewrite Hrows in Hs'.
    apply lookup_insert_Some in Hs' as [[<- <-]|[Hk' Hs']].
    + rewrite lookup_insert_eq. rewrite Hrow in Hc'. injection Hc' as <-. cbn. repeat f_equal; [done|lia].
    + rewrite lookup_insert_ne by done. by apply (Hk k s' Hs').
Qed.

(** *** Every call *)

Definition rotates (c : DBCall TV TL) : bool := match c with CallRotate _ | CallSetCredentials _ _ => true | _ => false end.
Definition reaps (c : DBCall TV TL) : bool := match c with CallReap => true | _ => false end.

Lemma runCall_quiet de c d :
  rotates c = false -> reaps c = false -> fresh_ids (de_services de) (dp_plane d) -> waits_well de c ->
  evolves no_exec (dp_plane d) (dp_plane (runCall de c d)).
Proof.
  intros Hrot Hreap Hf Hw. set (sp0 := dp_plane d).
  assert (forall A (m : StateM DB ApiError A) Q, keeps de no_exec sp0 m Q -> evolves no_exec sp0 (dp_plane (m d).1)) as Hkeep.
  { intros A m Q Hm. apply (Hm d). split; [apply evolves_refl|done]. }
  destruct c; try done; cbn [runCall]; (eapply Hkeep; [..]).
  - apply keeps_createDatabase; [done|]. intros others d1 -> [Hev Hfr]. destruct (Hw d1) as [W1 W2].
    split; [by eapply evolves_trans|by apply W2].
  - by apply keeps_destroyDatabase.
  - by apply keeps_stopDatabase.
  - by apply keeps_startDatabase.
  - by apply keeps_forceStop.
  - by apply keeps_addDatabaseReplica.
  - by apply keeps_removeDatabaseReplica.
  - by apply keeps_createDatabaseBackup.
  - by apply keeps_restoreDatabase.
  - by apply keeps_upgradeDatabase.
  - by apply keeps_rollback.
Qed.

Lemma run_pending hist d : db_run hist d -> pending_known hist (dp_plane d).
Proof.
  induction 1 as [d Hs|hist d d' _ IH Hev|hist d de c _ IH Hf Hw].
  - intros k s Hk c Hc Hne. destruct Hne. by apply (Hs k s Hk).
  - by eapply pending_evolves.
  - destruct (rotates c) eqn:Hrot.
    + destruct c; try done; (apply rotation_pending; [|done]); [apply rotateDatabase_outcome|apply setCredentials_outcome].
    + destruct (reaps c) eqn:Hreap.
      * destruct c; try done. cbn. destruct (reap_spec de d) as (d' & l & H & _ & Hrows & Hnone & _). rewrite H.
        intros k s' Hs' c Hc Hne. destruct (svcs (dp_plane d) !! k) as [s|] eqn:Hs; [|rewrite Hnone in Hs'; done].
        destruct (Hrows k s Hs) as (s1 & Hs1 & Hcase). cbn in Hs'. rewrite Hs' in Hs1. injection Hs1 as <-.
        case_bool_decide; [|subst s'; by apply (IH k s Hs)]. unfold reaped in Hcase.
        destruct (do_DatabaseConfig (sv_Opts s)) as [c0|] eqn:Hc0; [|subst s'; congruence].
        destruct (expired _ c0); [|subst s'; by apply (IH k s Hs)].
        apply same_opts in Hcase. rewrite Hcase in Hc. injection Hc as <-. done.
      * assert (noted de c d hist = hist) as -> by by destruct c. eapply pending_evolves; [by apply runCall_quiet|done].
Qed.


(** ** Upgrade and roll-back *)

Lemma resolve_by_id id s d :
  svcs (dp_plane d) !! id = Some s -> isDatabase s = true -> resolveDatabase id d = (d, Ret s).
Proof.
  intros Hs Hdb. unfold resolveDatabase.
  destruct (onServices_run (getService id) d (dp_plane d) (Ret s)) as (res & H1 & ->); [by rewrite getService_spec, Hs|done|].
  rewrite (bind_Ret _ _ _ _ _ H1), Hdb. by destruct d.
Qed.

(** A row takes the options and is deployed again. *)
Definition redeployed (o : DeployOpts) (row : Service) : Prop := sv_Opts row = o /\ sv_Status row = ServiceStatusDeploying.

Lemma save_redeploy de s s' d :
  svcs (dp_plane d) !! sv_ID s = Some s -> sv_ID s' = sv_ID s ->
  exists sp1 sp2 u row r, updateRow de s' (dp_plane d) = (sp1, Ret u) /\
    Redeploy (de_services de) (sv_ID s) sp1 = (sp2, Ret r) /\
    svcs sp2 = <[sv_ID s := row]> (svcs (dp_plane d)) /\ redeployed (sv_Opts s') row.
Proof.
  intros Hs Hid. destruct (updateService_spec (de_services de) s' s (dp_plane d)) as (t & row1 & Hu & Hc & Ht).
  { by rewrite Hid. }
  set (sp1 := sp_set_services t (dp_plane d)).
  assert (svcs sp1 = <[sv_ID s := row1]> (svcs (dp_plane d))) as Hsp1 by (rewrite <-Hid; exact Ht).
  destruct (Redeploy_spec (de_services de) (sv_ID s) row1 sp1) as (sp2 & r & row & H2 & Hr2 & Ho & Hst & _).
  { by rewrite Hsp1, lookup_insert_eq. }
  exists sp1, sp2, tt, row, r. split_and!; [done|done| |split; [|done]].
  - by rewrite Hr2, Hsp1, insert_insert_eq.
  - by rewrite Ho, (same_opts _ _ Hc).
Qed.

(** The options of a member with another version. *)
Definition versionedOpts (v prev image : string) (o : DeployOpts) : DeployOpts :=
  match do_DatabaseConfig o with
  | Some c => opts_with_image image (opts_with_database (db_versioned v prev (db_UpgradeVolume c) c) o)
  | None => o
  end.
Definition moved (v prev image : string) (s row : Service) : Prop := redeployed (versionedOpts v prev image (sv_Opts s)) row.

Lemma moveMember_spec de v prev image s d :
  svcs (dp_plane d) !! sv_ID s = Some s -> isDatabase s = true ->
  exists d' row, moveMember de v prev image s d = (d', Ret true) /\
    svcs (dp_plane d') = <[sv_ID s := row]> (svcs (dp_plane d)) /\ moved v prev image s row.
Proof.
  intros Hs Hdb. destruct (isDatabase_config s Hdb) as [c Hc]. unfold moveMember, moved, versionedOpts. rewrite Hc.
  set (s' := sv_with_ref _ _).
  destruct (save_redeploy de s s' d Hs eq_refl) as (sp1 & sp2 & u & row & r & Hu & Hd & Hrows & Hrow).
  destruct (onServices_run _ d _ _ Hu) as (res1 & E1 & ->); [done|]. rewrite (bind_Ret _ _ _ _ _ E1).
  destruct (onServices_run (Redeploy (de_services de) (sv_ID s)) (mkDBPlane sp1 (dp_objects d) (dp_drawn d)) _ _ Hd)
    as (res2 & E2 & ->); [done|]. rewrite (bind_Ret _ _ _ _ _ E2). eexists _, row. by split_and!.
Qed.

Lemma rollMember_spec de v image s d :
  svcs (dp_plane d) !! sv_ID s = Some s -> isDatabase s = true ->
  exists d' row, rollMember de v image s d = (d', Ret tt) /\
    svcs (dp_plane d') = <[sv_ID s := row]> (svcs (dp_plane d)) /\ moved v "" image s row.
Proof.
  intros Hs Hdb. destruct (isDatabase_config s Hdb) as [c Hc]. unfold rollMember, moved, versionedOpts. rewrite Hc.
  set (s' := sv_with_ref _ _).
  destruct (save_redeploy de s s' d Hs eq_refl) as (sp1 & sp2 & u & row & r & Hu & Hd & Hrows & Hrow).
  destruct (onServices_run _ d _ _ Hu) as (res1 & E1 & ->); [done|]. rewrite (bind_Ret _ _ _ _ _ E1).
  destruct (onServices_run (Redeploy (de_services de) (sv_ID s)) (mkDBPlane sp1 (dp_objects d) (dp_drawn d)) _ _ Hd)
    as (res2 & E2 & ->); [done|]. rewrite (bind_Ret _ _ _ _ _ E2). eexists _, row. by split_and!.
Qed.

(** The members in turn: each is moved, the other rows stay. *)
Definition all_moved (v prev image : string) (l : list Service) d d' : Prop :=
  (forall k, k ∉ (sv_ID <$> l) -> svcs (dp_plane d') !! k = svcs (dp_plane d) !! k) /\
  (forall s, s ∈ l -> exists row, svcs (dp_plane d') !! sv_ID s = Some row /\ moved v prev image s row).

Lemma all_moved_cons v prev image s l d d1 d' row :
  sv_ID s ∉ (sv_ID <$> l) -> svcs (dp_plane d1) = <[sv_ID s := row]> (svcs (dp_plane d)) -> moved v prev image s row ->
  all_moved v prev image l d1 d' -> all_moved v prev image (s :: l) d d'.
Proof.
  intros Hnot Hr1 Hrow [Hk Hl]. split.
  - intros k. rewrite fmap_cons, not_elem_of_cons. intros [Hne Hkl]. rewrite Hk, Hr1 by done. by apply lookup_insert_ne.
  - intros b [->|Hb]%elem_of_cons; [|by apply Hl]. exists row. split; [|done]. by rewrite Hk, Hr1, lookup_insert_eq.
Qed.

Definition rows_of (l : list Service) d : Prop :=
  NoDup (sv_ID <$> l) /\ forall s, s ∈ l -> svcs (dp_plane d) !! sv_ID s = Some s /\ isDatabase s = true.
Lemma rows_of_cons s l d d1 row :
  rows_of (s :: l) d -> svcs (dp_plane d1) = <[sv_ID s := row]> (svcs (dp_plane d)) ->
  sv_ID s ∉ (sv_ID <$> l) /\ rows_of l d1.
Proof.
  intros [Hnd0 Hl] Hr1. rewrite fmap_cons in Hnd0. apply NoDup_cons in Hnd0 as [Hnot Hnd].
  split; [done|]. split; [done|]. intros b Hb. destruct (Hl b) as [H1 H2]; [by right|].
  split; [|done]. rewrite Hr1, lookup_insert_ne; [done|]. intros Heq. apply Hnot. rewrite Heq. by apply list_elem_of_fmap_2.
Qed.

Lemma moveMembers_spec de v prev image (l : list Service) d :
  rows_of l d -> exists d', moveMembers de v prev image l d = (d', Ret []) /\ all_moved v prev image l d d'.
Proof.
  revert d. induction l as [|s l IH]; intros d Hl.
  { exists d. split; [done|]. split; [done|]. by intros s []%not_elem_of_nil. }
  cbn [moveMembers]. destruct (proj2 Hl s) as [Hs Hdb]; [by left|].
  destruct (moveMember_spec de v prev image s d Hs Hdb) as (d1 & row & H1 & Hr1 & Hrow).
  rewrite (bind_Ret _ _ _ _ _ H1). destruct (rows_of_cons s l d d1 row Hl Hr1) as [Hnot Hl1].
  destruct (IH d1 Hl1) as (d2 & H2 & Hm). rewrite (bind_Ret _ _ _ _ _ H2). exists d2. split; [done|].
  by eapply all_moved_cons.
Qed.
Lemma rollMembers_spec de v image (l : list Service) d :
  rows_of l d -> exists d', rollMembers de v image l d = (d', Ret tt) /\ all_moved v "" image l d d'.
Proof.
  revert d. unfold rollMembers. induction l as [|s l IH]; intros d Hl.
  { exists d. split; [done|]. split; [done|]. by intros s []%not_elem_of_nil. }
  cbn [for_each]. destruct (proj2 Hl s) as [Hs Hdb]; [by left|].
  destruct (rollMember_spec de v image s d Hs Hdb) as (d1 & row & H1 & Hr1 & Hrow).
  rewrite (bind_Ret _ _ _ _ _ H1). destruct (rows_of_cons s l d d1 row Hl Hr1) as [Hnot Hl1].
  destruct (IH d1 Hl1) as (d2 & H2 & Hm). exists d2. split; [done|]. by eapply all_moved_cons.
Qed.

(** The members of a primary. *)
Definition memberOf (id : string) s : Prop :=
  exists c, do_DatabaseConfig (sv_Opts s) = Some c /\ db_PrimaryID c = id /\ id <> "".

Lemma listed_members id d :
  exists l : list Service, listed (ofPrimary id) d = (d, Ret l) /\ rows_of l d /\
    forall s, s ∈ l <-> svcs (dp_plane d) !! sv_ID s = Some s /\ memberOf id s.
Proof.
  destruct (queryServices_spec (ofPrimary id) (dp_plane d)) as (l & Hq & _ & Hnd & Hl); [done..|].
  assert (forall s, serviceWhere (ofPrimary id) s = true <-> memberOf id s) as Hw.
  { intros s. unfold serviceWhere, memberOf, whereEq. cbn. destruct (do_DatabaseConfig (sv_Opts s)) as [c|].
    - rewrite andb_true_iff, String.eqb_eq, negb_true_iff, String.eqb_neq. naive_solver.
    - naive_solver. }
  exists l. split_and!.
  - assert (match listServices (ofPrimary id) (sp_services (dp_plane d)) with Ok l => l | Err _ => [] end = l) as Heq.
    { apply (f_equal snd) in Hq. unfold queryServices, gets, snd in Hq. congruence. }
    unfold listed, gets. by rewrite Heq.
  - split; [done|]. intros s Hs. apply Hl in Hs as [Hs Hm]. split; [done|]. apply Hw in Hm as (c & Hc & _).
    unfold isDatabase. apply bool_decide_eq_true. by exists c.
  - intros s. by rewrite Hl, Hw.
Qed.

(** The primary takes the options [o], its members the version, and the rest stays. *)
Definition cluster_moved (id : string) (o : DeployOpts) (v prev image : string) d d' : Prop :=
  forall k, match svcs (dp_plane d) !! k, svcs (dp_plane d') !! k with
    | Some r, Some r' =>
        if decide (k = id) then redeployed o r'
        else (memberOf id r -> moved v prev image r r') /\ (~ memberOf id r -> r' = r)
    | None, None => True
    | _, _ => False
    end.

Lemma cluster_members id o v prev image (l : list Service) row d d1 d2 :
  is_Some (svcs (dp_plane d) !! id) -> svcs (dp_plane d1) = <[id := row]> (svcs (dp_plane d)) -> redeployed o row ->
  ~ memberOf id row -> (forall s, s ∈ l <-> svcs (dp_plane d1) !! sv_ID s = Some s /\ memberOf id s) ->
  all_moved v prev image l d1 d2 -> cluster_moved id o v prev image d d2.
Proof.
  intros [s Hs] Hr1 Hrow Hnm Hl [Hk Hm] k.
  destruct (decide (k = id)) as [->|Hne].
  - rewrite Hs. assert (svcs (dp_plane d2) !! id = Some row) as ->; [|exact Hrow].
    rewrite Hk; [by rewrite Hr1, lookup_insert_eq|]. intros (b & Hid & Hb)%list_elem_of_fmap.
    apply Hl in Hb as [Hb Hbm]. rewrite <-Hid, Hr1, lookup_insert_eq in Hb. injection Hb as <-. done.
  - destruct (svcs (dp_plane d) !! k) as [r|] eqn:Hr.
    + assert (svcs (dp_plane d1) !! k = Some r) as Hr' by by rewrite Hr1, lookup_insert_ne.
      pose proof (svcs_id _ _ _ Hr) as Hid. destruct (decide (k ∈ (sv_ID <$> l))) as [Hin|Hin].
      * apply list_elem_of_fmap in Hin as (b & Hb & Hbl). destruct (Hm b Hbl) as (row' & Hrow' & Hmv).
        apply Hl in Hbl as [Hb' Hbm]. rewrite <-Hb, Hr' in Hb'. injection Hb' as <-. rewrite Hb, Hrow'. by split.
      * rewrite (Hk k Hin), Hr'. split; [|done]. intros Hmem. destruct Hin. rewrite <-Hid. apply list_elem_of_fmap_2.
        apply Hl. by rewrite Hid.
    + rewrite Hk, Hr1, lookup_insert_ne, Hr; [done..|]. intros (b & -> & Hb)%list_elem_of_fmap.
      apply Hl in Hb as [Hb _]. by rewrite Hr1, lookup_insert_ne, Hr in Hb by done.
Qed.

Definition primaryOpts (c : DatabaseConfig) (image : string) (o : DeployOpts) : DeployOpts :=
  opts_with_image image (opts_with_database c o).

Lemma not_member id c s : do_DatabaseConfig (sv_Opts s) = Some c -> db_PrimaryID c <> id -> ~ memberOf id s.
Proof. intros Hc Hne (c' & Hc' & Heq & _). congruence. Qed.

(** Saving and redeploying the primary. *)
Lemma movePrimary_spec de s c image d :
  svcs (dp_plane d) !! sv_ID s = Some s ->
  let s' := sv_with_ref image (sv_with_database c s) in
  exists d1 d2 row r, onServicesOr (updateRow de s') d = (d1, Ret tt) /\
    onServicesOr (Redeploy (de_services de) (sv_ID s)) d1 = (d2, Ret r) /\
    svcs (dp_plane d2) = <[sv_ID s := row]> (svcs (dp_plane d)) /\ redeployed (primaryOpts c image (sv_Opts s)) row.
Proof.
  intros Hs s'. destruct (save_redeploy de s s' d Hs eq_refl) as (sp1 & sp2 & [] & row & r & Hu & Hd & Hrows & Hrow).
  exists (mkDBPlane sp1 (dp_objects d) (dp_drawn d)), (mkDBPlane sp2 (dp_objects d) (dp_drawn d)), row, r.
  split_and!; [| |done..].
  - by rewrite (onServicesOr_run _ d _ _ Hu).
  - by rewrite (onServicesOr_run _ (mkDBPlane sp1 (dp_objects d) (dp_drawn d)) _ _ Hd).
Qed.

Definition backup_works de s d : Prop :=
  match de_backups de with
  | Some b => is_ok (CreateBackup jsonLen b s (dp_objects d)).2 = true
  | None => True
  end.

Lemma upgrade_spec de s c target e d :
  svcs (dp_plane d) !! sv_ID s = Some s -> do_DatabaseConfig (sv_Opts s) = Some c -> checkUpgrade c target = Ok e ->
  db_PrimaryID c <> sv_ID s -> backup_works de s d ->
  exists d' up, upgradeDatabase jsonLen de (sv_ID s) (Some target) d = (d', Ret up) /\
    up_Previous up = db_Version c /\ up_Warnings up = [] /\
    cluster_moved (sv_ID s) (primaryOpts (db_versioned target (db_Version c) ("db-" +:+ sv_Name s) c) (ed_Image e) (sv_Opts s))
      target (db_Version c) (ed_Image e) d d'.
Proof.
  intros Hs Hc Hcheck Hself Hbk. unfold upgradeDatabase.
  assert (isDatabase s = true) as Hdb by (unfold isDatabase; apply bool_decide_eq_true; by exists c).
  rewrite (bind_Ret _ _ _ _ _ (resolve_by_id _ s d Hs Hdb)), (bind_Ret _ _ _ _ _ (databaseOf_run s _ d c Hc)), Hcheck.
  match goal with |- context [mbind _ ?m d] => set (bk := m) end.
  assert (exists d0 backupID, bk d = (d0, Ret backupID) /\ dp_plane d0 = dp_plane d) as (d0 & backupID & H0 & Hp0).
  { unfold bk, backup_works in *. destruct (de_backups de) as [b|]; [|by eexists _, _].
    unfold createBackup. destruct (CreateBackup jsonLen b s (dp_objects d)) as [objs r] eqn:Hcb.
    erewrite bind_Ret by (rewrite Hcb; done). destruct r; [by eexists _, _|done]. }
  rewrite (bind_Ret _ _ _ _ _ H0). cbv zeta. set (c' := db_versioned _ _ _ c).
  destruct (movePrimary_spec de s c' (ed_Image e) d0) as (d1 & d2 & row & r & H1 & H2 & Hr2 & Hrow); [by rewrite Hp0|].
  rewrite (bind_Ret _ _ _ _ _ H1), (bind_Ret _ _ _ _ _ H2).
  destruct (listed_members (sv_ID s) d2) as (l & Hl & Hrl & Hin). rewrite (bind_Ret _ _ _ _ _ Hl).
  destruct (moveMembers_spec de target (db_Version c) (ed_Image e) l d2 Hrl) as (d3 & H3 & Hm).
  rewrite (bind_Ret _ _ _ _ _ H3). eexists _, _. split_and!; [done..|].
  rewrite Hp0 in Hr2. eapply cluster_members; [by eexists|exact Hr2|exact Hrow| |exact Hin|exact Hm].
  apply (not_member _ c'); [|done]. destruct Hrow as [-> _]. done.
Qed.

Lemma rollback_spec de s c e d :
  svcs (dp_plane d) !! sv_ID s = Some s -> do_DatabaseConfig (sv_Opts s) = Some c -> db_PreviousVersion c <> "" ->
  GetEngineDefaults (db_Engine c) (db_PreviousVersion c) = Ok e -> db_PrimaryID c <> sv_ID s ->
  exists d' n, rollbackDatabaseUpgrade de (sv_ID s) d = (d', Ret (db_PreviousVersion c, n)) /\
    cluster_moved (sv_ID s) (primaryOpts (db_versioned (db_PreviousVersion c) "" "" c) (ed_Image e) (sv_Opts s))
      (db_PreviousVersion c) "" (ed_Image e) d d'.
Proof.
  intros Hs Hc Hprev He Hself. unfold rollbackDatabaseUpgrade.
  assert (isDatabase s = true) as Hdb by (unfold isDatabase; apply bool_decide_eq_true; by exists c).
  rewrite (bind_Ret _ _ _ _ _ (resolve_by_id _ s d Hs Hdb)), (bind_Ret _ _ _ _ _ (databaseOf_run s _ d c Hc)).
  rewrite (proj2 (String.eqb_neq _ _)) by done. cbv zeta. rewrite He. set (c' := db_versioned _ _ _ c).
  destruct (movePrimary_spec de s c' (ed_Image e) d Hs) as (d1 & d2 & row & r & H1 & H2 & Hr2 & Hrow).
  rewrite (bind_Ret _ _ _ _ _ H1), (bind_Ret _ _ _ _ _ H2).
  destruct (listed_members (sv_ID s) d2) as (l & Hl & Hrl & Hin). rewrite (bind_Ret _ _ _ _ _ Hl).
  destruct (rollMembers_spec de (db_PreviousVersion c) (ed_Image e) l d2 Hrl) as (d3 & H3 & Hm).
  rewrite (bind_Ret _ _ _ _ _ H3). eexists _, _. split; [done|].
  eapply cluster_members; [by eexists|exact Hr2|exact Hrow| |exact Hin|exact Hm].
  apply (not_member _ c'); [|done]. destruct Hrow as [-> _]. done.
Qed.

(** The options a member has after the roll-back: the version and its image, and nothing
    of an upgrade. *)
Definition rolledOpts (primary : bool) (v image : string) (o : DeployOpts) : DeployOpts :=
  match do_DatabaseConfig o with
  | Some c => opts_with_image image
      (opts_with_database (db_versioned v "" (if primary then "" else db_UpgradeVolume c) c) o)
  | None => o
  end.

Lemma versionedOpts_back v target img0 img1 o :
  versionedOpts v "" img0 (versionedOpts target v img1 o) = rolledOpts false v img0 o.
Proof. unfold versionedOpts, rolledOpts. destruct o as [], do_DatabaseConfig as [[]|]; done. Qed.
Lemma primaryOpts_back v target volume img0 img1 c o :
  do_DatabaseConfig o = Some c ->
  primaryOpts (db_versioned v "" "" (db_versioned target v volume c)) img0
    (primaryOpts (db_versioned target v volume c) img1 o) = rolledOpts true v img0 o.
Proof. unfold rolledOpts. destruct o, c. cbn. by intros [= ->]. Qed.

(** A member on a version of the engine, with its image and never upgraded. *)
Definition never_upgraded (primary : bool) (v image : string) (o : DeployOpts) : Prop :=
  exists c, do_DatabaseConfig o = Some c /\ db_Version c = v /\ db_PreviousVersion c = "" /\
    (primary = true -> db_UpgradeVolume c = "") /\ do_ImageRef o = image.
Lemma rolledOpts_settled primary v image o : never_upgraded primary v image o -> rolledOpts primary v image o = o.
Proof.
  intros (c & Hc & Hv & Hp & Hu & Hi). unfold rolledOpts. rewrite Hc. destruct o, c. cbn in *. subst.
  destruct primary; [rewrite Hu by done|]; done.
Qed.

Lemma moved_member id v prev image s s' : moved v prev image s s' -> memberOf id s' <-> memberOf id s.
Proof.
  unfold moved, redeployed, versionedOpts, memberOf. intros [-> _].
  destruct (do_DatabaseConfig (sv_Opts s)) as [c|] eqn:Hc; [|by rewrite Hc].
  split; intros (c' & [= <-] & H); eexists; by split.
Qed.

Definition upgraded (target v image : string) (r : Service) : Prop :=
  do_ImageRef (sv_Opts r) = image /\ sv_Status r = ServiceStatusDeploying /\
  exists c, do_DatabaseConfig (sv_Opts r) = Some c /\ db_Version c = target /\ db_PreviousVersion c = v.

(** C39 Once the backup before it is taken, an upgrade of a primary succeeds: the primary
    and every service that names it as its primary, replicas and sentinels, get the target
    version with its image and remember the primary's old one, they are deployed again, and
    every other service stays.  Rolling it back gives each of them the version the primary
    had, with the image of the engine for it, no version to go back to and, at the primary,
    no volume of an upgrade, and every other option as it was.  So a member that was on
    that version, with that image and not upgraded before, has exactly the options it had;
    of an earlier upgrade nothing is left to roll back ([earlier_upgrade_forgotten]).  Rows
    are stored and found throughout, the two calls follow each other. *)
Theorem upgrade_rolls_back de1 de2 s c target e0 e1 d :
  svcs (dp_plane d) !! sv_ID s = Some s -> do_DatabaseConfig (sv_Opts s) = Some c -> db_PrimaryID c <> sv_ID s ->
  db_Version c <> "" -> GetEngineDefaults (db_Engine c) (db_Version c) = Ok e0 -> checkUpgrade c target = Ok e1 ->
  backup_works de1 s d ->
  exists d1 up d2 n,
    upgradeDatabase jsonLen de1 (sv_ID s) (Some target) d = (d1, Ret up) /\
    up_Previous up = db_Version c /\ up_Warnings up = [] /\
    rollbackDatabaseUpgrade de2 (sv_ID s) d1 = (d2, Ret (db_Version c, n)) /\
    (forall k, svcs (dp_plane d) !! k = None -> svcs (dp_plane d2) !! k = None) /\
    forall k r, svcs (dp_plane d) !! k = Some r -> exists r1 r2,
      svcs (dp_plane d1) !! k = Some r1 /\ svcs (dp_plane d2) !! k = Some r2 /\
      (k = sv_ID s \/ memberOf (sv_ID s) r ->
         let primary := bool_decide (k = sv_ID s) in
         upgraded target (db_Version c) (ed_Image e1) r1 /\
         redeployed (rolledOpts primary (db_Version c) (ed_Image e0) (sv_Opts r)) r2 /\
         (never_upgraded primary (db_Version c) (ed_Image e0) (sv_Opts r) -> sv_Opts r2 = sv_Opts r)) /\
      (k <> sv_ID s -> ~ memberOf (sv_ID s) r -> r1 = r /\ r2 = r).
Proof.
  intros Hs Hc Hself Hv He0 Hcheck Hbk.
  destruct (upgrade_spec de1 s c target e1 d Hs Hc Hcheck Hself Hbk) as (d1 & up & Hup & Hprev & Hwarn & Hm1).
  pose proof (Hm1 (sv_ID s)) as Hp. rewrite Hs in Hp. set (c1 := db_versioned _ _ _ c) in *.
  destruct (svcs (dp_plane d1) !! sv_ID s) as [s1|] eqn:Hs1; [|done].
  rewrite decide_True in Hp by done. pose proof (svcs_id _ _ _ Hs1) as Hid1.
  assert (do_DatabaseConfig (sv_Opts s1) = Some c1) as Hc1 by by rewrite (proj1 Hp).
  destruct (rollback_spec de2 s1 c1 e0 d1) as (d2 & n & Hroll & Hm2); [by rewrite Hid1|done..|by rewrite Hid1|].
  rewrite Hid1 in Hroll, Hm2. exists d1, up, d2, n. split_and!; [done..| |].
  - intros k Hk. specialize (Hm1 k). specialize (Hm2 k). rewrite Hk in Hm1.
    destruct (svcs (dp_plane d1) !! k); [done|]. by destruct (svcs (dp_plane d2) !! k).
  - intros k r Hr. specialize (Hm1 k). specialize (Hm2 k). rewrite Hr in Hm1.
    destruct (svcs (dp_plane d1) !! k) as [r1|] eqn:Hr1; [|done]. destruct (svcs (dp_plane d2) !! k) as [r2|] eqn:Hr2; [|done].
    exists r1, r2. split; [done|]. split; [done|]. destruct (decide (k = sv_ID s)) as [->|Hk].
    + rewrite Hs in Hr. injection Hr as <-. rewrite Hs1 in Hr1. injection Hr1 as <-.
      split; [|done]. intros _. rewrite bool_decide_eq_true_2 by done. cbv zeta. split.
      * destruct Hm1 as [Ho Hst]. split; [by rewrite Ho|split; [done|]]. exists c1. by rewrite Ho.
      * destruct Hm2 as [Ho Hst].
        assert (sv_Opts r2 = rolledOpts true (db_Version c) (ed_Image e0) (sv_Opts s)) as Hopts
          by (rewrite Ho, (proj1 Hp); by apply primaryOpts_back).
        split; [by split|]. intros Hset. by rewrite Hopts, rolledOpts_settled.
    + destruct Hm1 as [M1 N1], Hm2 as [M2 N2]. split.
      * intros [?|Hmem]; [done|]. specialize (M1 Hmem). pose proof (moved_member (sv_ID s) _ _ _ _ _ M1) as Hiff.
        specialize (M2 (proj2 Hiff Hmem)). destruct Hmem as (cr & Hcr & Hpid).
        rewrite bool_decide_eq_false_2 by done. cbv zeta. split.
        -- destruct M1 as [Ho Hst]. unfold versionedOpts in Ho. rewrite Hcr in Ho.
           split; [by rewrite Ho|split; [done|]]. eexists. rewrite Ho. split; [done|]. split; done.
        -- destruct M2 as [Ho Hst].
           assert (sv_Opts r2 = rolledOpts false (db_Version c) (ed_Image e0) (sv_Opts r)) as Hopts
             by (rewrite Ho, (proj1 M1); apply versionedOpts_back).
           split; [by split|]. intros Hset. by rewrite Hopts, rolledOpts_settled.
      * intros _ Hn. specialize (N1 Hn). subst r1. split; [done|by apply N2].
Qed.

(** ** Destruction *)

Lemma destroyEach_spec de (l : list Service) d :
  rows_of l d -> exists d', destroyEach de l d = (d', Ret []) /\
  forall k, svcs (dp_plane d') !! k = if bool_decide (k ∈ (sv_ID <$> l)) then None else svcs (dp_plane d) !! k.
Proof.
  revert d. induction l as [|s l IH]; intros d Hl; [by exists d|].
  cbn [destroyEach]. destruct Hl as [Hnd0 Hl]. rewrite fmap_cons in Hnd0. apply NoDup_cons in Hnd0 as [Hnot Hnd].
  destruct (Hl s) as [Hs _]; [by left|].
  destruct (Destroy_sends (de_services de) (sv_ID s) s (dp_plane d) Hs) as (sp1 & H1 & Hr1 & _ & _).
  destruct (onServices_run _ d _ _ H1) as (res & E1 & ->); [done|]. rewrite (bind_Ret _ _ _ _ _ E1).
  destruct (IH (mkDBPlane sp1 (dp_objects d) (dp_drawn d))) as (d2 & H2 & Hk2).
  { split; [done|]. intros b Hb. destruct (Hl b) as [Hb1 Hb2]; [by right|]. split; [|done]. cbn.
    rewrite Hr1, lookup_delete_ne; [done|]. intros Heq. apply Hnot. rewrite Heq. by apply list_elem_of_fmap_2. }
  rewrite (bind_Ret _ _ _ _ _ H2). exists d2. split; [done|]. intros k. rewrite Hk2. cbn. rewrite Hr1.
  destruct (decide (k = sv_ID s)) as [->|Hne].
  - rewrite lookup_delete_eq, (bool_decide_eq_true_2 (sv_ID s ∈ sv_ID s :: _)) by by left. by case_bool_decide.
  - rewrite lookup_delete_ne by done.
    rewrite (bool_decide_ext (k ∈ sv_ID s :: (sv_ID <$> l)) (k ∈ (sv_ID <$> l))); [done|]. rewrite elem_of_cons. naive_solver.
Qed.

(** The destruction of a primary takes its members first, and nothing else. *)
Lemma destroyDatabase_spec de s c d :
  svcs (dp_plane d) !! sv_ID s = Some s -> do_DatabaseConfig (sv_Opts s) = Some c -> db_PrimaryID c <> sv_ID s ->
  exists d', destroyDatabase de (sv_ID s) d = (d', Ret tt) /\
  forall k, match svcs (dp_plane d) !! k, svcs (dp_plane d') !! k with
    | Some r, r' => (k = sv_ID s \/ db_Role c = "primary" /\ memberOf (sv_ID s) r -> r' = None) /\
                    (k <> sv_ID s -> ~ (db_Role c = "primary" /\ memberOf (sv_ID s) r) -> r' = Some r)
    | None, r' => r' = None
    end.
Proof.
  intros Hs Hc Hself. unfold destroyDatabase.
  assert (isDatabase s = true) as Hdb by (unfold isDatabase; apply bool_decide_eq_true; by exists c).
  rewrite (bind_Ret _ _ _ _ _ (resolve_by_id _ s d Hs Hdb)). unfold roleIs. rewrite Hc.
  destruct (listed_members (sv_ID s) d) as (l & Hl & Hrl & Hin).
  set (gone := if String.eqb (db_Role c) "primary" then sv_ID <$> l else []).
  match goal with |- context [mbind _ ?m d] => set (first := m) end.
  assert (exists d1, first d = (d1, Ret []) /\
    forall k, svcs (dp_plane d1) !! k = if bool_decide (k ∈ gone) then None else svcs (dp_plane d) !! k) as (d1 & H1 & Hk1).
  { unfold first, gone. destruct (String.eqb _ _); [|exists d; by split].
    rewrite (bind_Ret _ _ _ _ _ Hl). by apply destroyEach_spec. }
  rewrite (bind_Ret _ _ _ _ _ H1).
  assert (sv_ID s ∉ gone) as Hnot.
  { unfold gone. destruct (String.eqb _ _); [|apply not_elem_of_nil]. intros (b & Hid & Hb)%list_elem_of_fmap.
    apply Hin in Hb as [Hb Hm]. rewrite <-Hid, Hs in Hb. injection Hb as <-. by apply (not_member _ c s Hc Hself). }
  destruct (Destroy_sends (de_services de) (sv_ID s) s (dp_plane d1)) as (sp2 & H2 & Hr2 & _ & _).
  { rewrite Hk1. by rewrite bool_decide_eq_false_2. }
  rewrite (onServicesOr_run _ d1 _ _ H2) by done. eexists. split; [done|]. intros k. cbn. rewrite Hr2.
  destruct (svcs (dp_plane d) !! k) as [r|] eqn:Hr.
  - destruct (decide (k = sv_ID s)) as [->|Hne]; [rewrite lookup_delete_eq; naive_solver|].
    rewrite lookup_delete_ne, Hk1, Hr by done.
    assert (k ∈ gone <-> db_Role c = "primary" /\ memberOf (sv_ID s) r) as Hg.
    { pose proof (svcs_id _ _ _ Hr) as <-. unfold gone. destruct (String.eqb_spec (db_Role c) "primary").
      - rewrite list_elem_of_fmap. split.
        + intros (b & Hid & [Hb Hm]%Hin). rewrite <-Hid, Hr in Hb. injection Hb as <-. done.
        + intros [_ Hm]. exists r. split; [done|]. by apply Hin.
      - rewrite elem_of_nil. naive_solver. }
    case_bool_decide as Hkg; rewrite Hg in Hkg; naive_solver.
  - destruct (decide (k = sv_ID s)) as [->|Hne]; [by rewrite lookup_delete_eq|].
    rewrite lookup_delete_ne, Hk1, Hr by done. by case_bool_decide.
Qed.

(** A restore runs no command in the database: it stops and deploys it again. *)
Lemma restore_runs_nothing de id body d :
  fresh_ids (de_services de) (dp_plane d) ->
  sends_only no_exec (dp_plane d) (dp_plane (restoreDatabase de id body d).1).
Proof.
  intros Hf. destruct (keeps_restoreDatabase de no_exec (dp_plane d) (fun _ _ H => H) id body d) as [[[_ Hs] _] _]; [|done].
  split; [apply evolves_refl|done].
Qed.
End runs.

(** ** Examples *)

Abbreviation SQLiteDB := (DBPlane (gmap string Service) (gmap string VolumeRecord)).

Definition dbServices (t : Z) : ServiceEnv :=
  mkServiceEnv (mkEnv t (fun _ => 0)) None false false false StrategySpread ["a"] (fun _ _ => false) None
    (fun n => "id-" +:+ pretty n) (fun n => "slug-" +:+ pretty n).
Definition dbEnv (t : Z) : DBEnv := mkDBEnv (dbServices t) None (fun n => replicate 16 (Z.of_nat n)) (fun _ => true).
(** A database with its replicas, all running on one worker. *)
Definition memberRow (id name : string) (cfg : DatabaseConfig) (st : ServiceStatus) : Service :=
  mkService id (opts_with_image ("postgres:" +:+ db_Version cfg) (dbDeploy name 1 512 cfg)) st "a" "" "" "" "" 0 "" true "" 0 0 0.
Definition appConfig : DatabaseConfig :=
  mkDatabase "postgres" "16" "app" "primary" "" None "app_rw" "app_owner" "app_login" "secret-1" "" 0 "" "".
Definition dbPlane (l : list Service) : SQLiteDB :=
  mkDBPlane (mkServicePlane (TV := gmap string Service) (TL := gmap string VolumeRecord)
    (list_to_map ((fun s => (sv_ID s, s)) <$> l)) ∅ (<["a" := conn_of "a" "eu" WorkerStatusReady 4 8192 0]> ∅) ∅ 0 []) ∅ 0.
Definition appRow : Service := memberRow "p" "app" appConfig ServiceStatusRunning.
Definition replicaRow (i : Z) : Service :=
  memberRow ("r" +:+ pretty i) (replicaName "app" i) (replicaConfig appConfig "p") ServiceStatusRunning.
Definition appPlane : SQLiteDB := dbPlane [appRow; replicaRow 1; replicaRow 2].

Definition loginsOf (d : SQLiteDB) (id : string) : option (string * string * Z) :=
  s ← svcs (dp_plane d) !! id; credsOf s.
Definition queueOf (d : SQLiteDB) : list WorkerCommand :=
  from_option wc_CmdChan [] (sp_registry (dp_plane d) !! "a").

(** A second rotation within five minutes forgets the first login, which is never dropped:
    only the second one is. *)
Lemma second_rotation_forgets :
  let d1 := (rotateDatabaseCredentials (dbEnv (10 * Minute)) "app" appPlane).1 in
  let d2 := (rotateDatabaseCredentials (dbEnv (11 * Minute)) "app" d1).1 in
  let d3 := (reapExpiredCredentials (dbEnv (60 * Minute)) d2).1 in
  (fun x => x.1.2) <$> loginsOf d1 "p" = Some "app_login" /\
  (fun x => x.1.2) <$> loginsOf d2 "p" = Some "app_login_0101010101010101" /\
  (fun x => x.1.2) <$> loginsOf d3 "p" = Some "" /\
  filter (fun c => is_exec c = true) (drop 2 (queueOf d3)) =
    [CServiceExec "p" [shell ("psql -U app_login_0303030303030303 -d app -c " +:+ dq
      +:+ "ALTER ROLE app_login_0101010101010101 NOLOGIN; DROP ROLE IF EXISTS app_login_0101010101010101;" +:+ dq)]].
Proof. vm_compute. by split_and!. Qed.

(** The login of a database that does not run is forgotten without being dropped. *)
Lemma reaped_without_revoke :
  let row := memberRow "p" "app" (db_rotated "app_login_2" "secret-2" "app_login" (5 * Minute) appConfig) ServiceStatusStopped in
  let d := (reapExpiredCredentials (dbEnv (60 * Minute)) (dbPlane [row])).1 in
  loginsOf d "p" = Some ("app_login_2", "", 0%Z) /\ queueOf d = [].
Proof. vm_compute. by split. Qed.

(** A forced stop marks the row first, so that the stop it tries is refused and the worker
    is told nothing. *)
Lemma force_stop_leaves_running :
  let d := (forceStopDatabase (dbEnv 0) "p" appPlane).1 in
  sv_Status <$> svcs (dp_plane d) !! "p" = Some ServiceStatusStopped /\ queueOf d = [].
Proof. vm_compute. by split. Qed.

(** A start answers the password that the other calls blank out. *)
Lemma start_answers_password :
  (fun c => db_Password c) <$> match (startDatabase (dbEnv 0) "p" appPlane).2 with
    | Ret s => do_DatabaseConfig (sv_Opts s) | _ => None end = Some "secret-1" /\
  (fun c => db_Password c) <$> match (getDatabase "p" appPlane).2 with
    | Ret s => do_DatabaseConfig (sv_Opts s) | _ => None end = Some "********".
Proof. vm_compute. by split. Qed.

(** Once the first of two replicas is removed, none can be added: its number is taken. *)
Lemma replica_number_taken :
  let d := (removeDatabaseReplica (dbEnv 0) "r1" appPlane).1 in
  (addDatabaseReplica (dbEnv 0) "p" (Some 1%Z) d).2 = Fail (mkApiError 500 (AService (ESNameTaken "app-replica-2"))).
Proof. vm_compute. reflexivity. Qed.

(** The target of an upgrade is not checked the way the version of a new database is, and
    may be an older one. *)
Lemma upgrade_to_anything :
  is_ok (checkUpgrade appConfig "9 x") = true /\ ValidateVersion "9 x" = false /\ is_ok (checkUpgrade appConfig "9") = true.
Proof. vm_compute. by split_and!. Qed.

(** [%q] quotes for Go, not for the shell, which still expands what stands in the quotes. *)
Lemma password_is_expanded :
  match c_Args (ExecCreateLoginCommand (fun _ => true) appConfig "new" "x$(reboot)") with
  | [_; line] => Contains line "'x$(reboot)'" | _ => false end = true.
Proof. vm_compute. reflexivity. Qed.

(** The first login keeps characters that every later command drops. *)
Lemma first_login_not_sanitized :
  let req := mkCreateReq "app" "postgres" "" "" "my.app" 1 512 0 None "" 0 in
  let login := db_LoginRole (primaryConfig req "16" "x" "my.app") in
  checkCreate req = None /\ login = "my.app_login" /\ SanitizeIdentifier login = "myapp_login".
Proof. vm_compute. by split_and!. Qed.

(** A rotation leaves the replicas with the old login. *)
Lemma replicas_keep_login :
  let d := (rotateDatabaseCredentials (dbEnv (10 * Minute)) "app" appPlane).1 in
  (fun x => x.1.1) <$> loginsOf d "p" = Some "app_login_0101010101010101" /\
  (fun x => x.1.1) <$> loginsOf d "r1" = Some "app_login".
Proof. vm_compute. by split. Qed.

(** ** Witnesses *)

Lemma fresh_by_keys t (d : SQLiteDB) :
  bool_decide (map_Forall (fun k _ => HasPrefix k "id-" = false) (svcs (dp_plane d))) = true ->
  fresh_ids (dbServices t) (dp_plane d).
Proof.
  intros Hkeys%bool_decide_eq_true. split.
  - intros n _. change (se_uuid (dbServices t) n) with ("id-" +:+ pretty n).
    destruct (svcs (dp_plane d) !! ("id-" +:+ pretty n)) as [s|] eqn:Hs; [|done]. specialize (Hkeys _ _ Hs). cbv beta in Hkeys.
    unfold HasPrefix in Hkeys. simpl in Hkeys. by destruct (pretty n).
  - intros n m H. by apply (inj (String.append "id-")), (inj pretty) in H.
Qed.

Definition noLen (o : BackupObject) : Z := 0.


(** An upgrade from 15 and one from 16: the roll-back of the second leaves nothing of the
    first to go back to. *)
Lemma earlier_upgrade_forgotten :
  let d := dbPlane [sv_with_database (db_versioned "16" "15" "db-app" appConfig) appRow; replicaRow 1] in
  let d2 := (rollbackDatabaseUpgrade (dbEnv Hour) "p" (upgradeDatabase noLen (dbEnv 0) "p" (Some "17") d).1).1 in
  (svcs (dp_plane d2) !! "p" ≫= fun r => do_DatabaseConfig (sv_Opts r)) = Some (db_versioned "16" "" "" appConfig).
Proof. vm_compute. reflexivity. Qed.

Lemma upgrade_rolls_back_witness :
  exists d1 up d2 n,
    upgradeDatabase noLen (dbEnv 0) "p" (Some "17") appPlane = (d1, Ret up) /\
    rollbackDatabaseUpgrade (dbEnv Hour) "p" d1 = (d2, Ret ("16", n)) /\
    exists r2, svcs (dp_plane d2) !! "r1" = Some r2 /\ sv_Opts r2 = sv_Opts (replicaRow 1).
Proof.
  destruct (upgrade_rolls_back noLen (dbEnv 0) (dbEnv Hour) appRow appConfig "17"
    (mkDefaults "postgres:16" 5432 "/var/lib/postgresql/data" "pg_basebackup" "pg_restore")
    (mkDefaults "postgres:17" 5432 "/var/lib/postgresql/data" "pg_basebackup" "pg_restore") appPlane)
    as (d1 & up & d2 & n & H1 & _ & _ & H2 & _ & Hrows).
  - vm_compute. reflexivity.
  - reflexivity.
  - discriminate.
  - discriminate.
  - reflexivity.
  - vm_compute. reflexivity.
  - exact I.
  - exists d1, up, d2, n. split; [exact H1|]. split; [exact H2|].
    destruct (Hrows "r1" (replicaRow 1)) as (r1 & r2 & _ & Hr2 & Hm & _); [vm_compute; reflexivity|].
    exists r2. split; [exact Hr2|]. apply Hm.
    + right. exists (replicaConfig appConfig "p"). by split_and!.
    + exists (replicaConfig appConfig "p"). by split_and!.
Defined.
