(* ===== verification/ApiAuth.v ===== *)
(** * Authentication of the API ([src/internal/controlplane/api/middleware.go])

    The API key with its limiter of failed attempts, the worker tokens of the internal
    routes and the admin key, and how the router stacks them ([server.go], [internal.go],
    [admin.go]).  A request passes the limiter and has its key compared in two steps, and
    requests run at the same time; the remote address is what the router's [RealIP] leaves
    in the request. *)

From stdpp Require Import sorting options.
From Stdlib Require Import Ascii.
From S2P Require Import Prelude GoStrings GoPath GoNet Replicated.
Open Scope nat_scope.

(** ** The limiter *)

Definition rateLimitWindow : Z := 60 * Second.
Definition rateLimitMax : nat := 10.
Definition rateLimitBlockDuration : Z := 5 * Minute.

(** The failed attempts of each address, oldest first. *)
Abbreviation Limiter := (gmap string (list Z)).

(** What has seen nothing for the duration of a block. *)
Definition isStale (now : Z) (attempts : list Z) : bool :=
  match last attempts with None => true | Some t => (t <? now - rateLimitBlockDuration)%Z end.
(** The cleanup every minute. *)
Definition cleanLimiter (now : Z) (rl : Limiter) : Limiter := filter (fun kv => isStale now kv.2 = false) rl.

Definition attemptsOf (ip : string) (rl : Limiter) : list Z := default [] (rl !! ip).

Definition recordFailure (now : Z) (ip : string) (rl : Limiter) : Limiter :=
  let rl := <[ip := attemptsOf ip rl ++ [now]]> rl in
  if 10000 <? size rl then cleanLimiter now rl else rl.

Definition isBlocked (now : Z) (ip : string) (rl : Limiter) : Limiter * bool :=
  let attempts := attemptsOf ip rl in
  match last attempts with
  | None => (rl, false)
  | Some t =>
      if (rateLimitMax <=? length attempts) && (now - t <? rateLimitBlockDuration)%Z then (rl, true)
      else
        let recent := filter (fun t => now - rateLimitWindow < t)%Z attempts in
        (<[ip := recent]> rl, rateLimitMax <=? length recent)
  end.

(** ** Requests *)

Record AuthRequest := mkAuthRequest {
  aq_Path : string;
  aq_RemoteAddr : string;
  aq_Authorization : string;
  aq_AdminToken : string
}.
Definition clientIP (r : AuthRequest) : string := default "" (SplitHostPort (aq_RemoteAddr r)).

Inductive AuthVerdict := AuthPass | AuthRefuse (status : Z).
#[global] Instance AuthVerdict_eq_dec : EqDecision AuthVerdict.
Proof. solve_decision. Defined.

(** ** The middlewares *)

Definition isExempt (r : AuthRequest) : bool :=
  String.eqb (aq_Path r) "/api/v1/health" || String.eqb (aq_Path r) "/metrics".
Definition bearer (r : AuthRequest) : string := TrimPrefix (aq_Authorization r) "Bearer ".

(** [apiKeyAuth] up to the limiter: a verdict, or the key is compared next. *)
Definition enterKeyAuth (key : string) (now : Z) (r : AuthRequest) (rl : Limiter) : Limiter * option AuthVerdict :=
  if String.eqb key "" then (rl, Some AuthPass)
  else if isExempt r then (rl, Some AuthPass)
  else let '(rl, blocked) := isBlocked now (clientIP r) rl in
       (rl, if blocked then Some (AuthRefuse 429) else None).
Definition compareKey (key : string) (now : Z) (r : AuthRequest) (rl : Limiter) : Limiter * AuthVerdict :=
  if String.eqb (aq_Authorization r) "" then (recordFailure now (clientIP r) rl, AuthRefuse 401)
  else if String.eqb (bearer r) key then (rl, AuthPass)
  else (recordFailure now (clientIP r) rl, AuthRefuse 403).
Definition apiKeyAuth (key : string) (now : Z) (r : AuthRequest) (rl : Limiter) : Limiter * AuthVerdict :=
  match enterKeyAuth key now r rl with
  | (rl, Some v) => (rl, v)
  | (rl, None) => compareKey key now r rl
  end.

Definition workerTokenAuth (now : Z) (tokens : gmap string WorkerToken) (r : AuthRequest) : AuthVerdict :=
  if String.eqb (aq_Authorization r) "" || negb (HasPrefix (aq_Authorization r) "Bearer ") then AuthRefuse 401
  else
    match List.find (fun t => String.eqb (tk_Token t) (bearer r)) (map_to_list tokens).*2 with
    | Some t => if IsValid now t then AuthPass else AuthRefuse 401
    | None => AuthRefuse 401
    end.

Definition adminKeyAuth (adminKey : string) (r : AuthRequest) : AuthVerdict :=
  if String.eqb (aq_AdminToken r) "" then AuthRefuse 403
  else if String.eqb (aq_AdminToken r) adminKey then AuthPass else AuthRefuse 403.

(** The middlewares behind the API key, by the group of the route. *)
Inductive RouteGroup := RoutePlain | RouteAdmin | RouteInternal.
Definition routeAuth (adminKey : string) (now : Z) (tokens : gmap string WorkerToken) (g : RouteGroup)
    (r : AuthRequest) : AuthVerdict :=
  match g with
  | RoutePlain => AuthPass
  | RouteAdmin => if String.eqb adminKey "" then AuthPass else adminKeyAuth adminKey r
  | RouteInternal => workerTokenAuth now tokens r
  end.
Definition authorize (key adminKey : string) (now : Z) (tokens : gmap string WorkerToken) (g : RouteGroup)
    (r : AuthRequest) (rl : Limiter) : Limiter * AuthVerdict :=
  match apiKeyAuth key now r rl with
  | (rl, AuthPass) => (rl, routeAuth adminKey now tokens g r)
  | (rl, v) => (rl, v)
  end.

(** ** Requests at the same time *)

Inductive AuthThread :=
  | Arrived (r : AuthRequest)
  | Comparing (r : AuthRequest)
  | Decided (r : AuthRequest) (v : AuthVerdict).

(** The limiter, the requests, and all failures there were, which only the statements read. *)
Record AuthWorld := mkAuthWorld {
  aw_limiter : Limiter;
  aw_threads : gmap nat AuthThread;
  aw_failures : gmap string (list Z)
}.

Definition threadStep (key : string) (now : Z) (i : nat) (th : AuthThread) (w : AuthWorld) : AuthWorld :=
  match th with
  | Arrived r =>
      let '(rl, v) := enterKeyAuth key now r (aw_limiter w) in
      mkAuthWorld rl (<[i := match v with Some v => Decided r v | None => Comparing r end]> (aw_threads w)) (aw_failures w)
  | Comparing r =>
      let '(rl, v) := compareKey key now r (aw_limiter w) in
      mkAuthWorld rl (<[i := Decided r v]> (aw_threads w))
        (match v with
         | AuthPass => aw_failures w
         | AuthRefuse _ => <[clientIP r := attemptsOf (clientIP r) (aw_failures w) ++ [now]]> (aw_failures w)
         end)
  | Decided _ _ => w
  end.

Inductive auth_step (key : string) (now : Z) : AuthWorld -> AuthWorld -> Prop :=
  | step_arrive w i r : aw_threads w !! i = None ->
      auth_step key now w (mkAuthWorld (aw_limiter w) (<[i := Arrived r]> (aw_threads w)) (aw_failures w))
  | step_thread w i th : aw_threads w !! i = Some th -> auth_step key now w (threadStep key now i th w)
  | step_clean w : auth_step key now w (mkAuthWorld (cleanLimiter now (aw_limiter w)) (aw_threads w) (aw_failures w)).

(** The requests of an address between the limiter and the comparison. *)
Definition isAdmitted (ip : string) (th : AuthThread) : bool :=
  match th with Comparing r => String.eqb (clientIP r) ip | _ => false end.
Definition inFlight (ip : string) (w : AuthWorld) : nat :=
  count_where (isAdmitted ip) (aw_threads w).

(** Runs under a clock that does not go back; [peak] is the most requests of the address
    that were in flight at once. *)
Inductive auth_run (key ip : string) : Z -> nat -> AuthWorld -> Prop :=
  | auth_start now : auth_run key ip now 0 (mkAuthWorld ∅ ∅ ∅)
  | auth_next now now' peak w w' : auth_run key ip now peak w -> (now <= now')%Z -> auth_step key now' w w' ->
      auth_run key ip now' (peak `max` inFlight ip w') w'.

(** ** What the limiter keeps *)

Definition recentFailures (now : Z) (l : list Z) : list Z := filter (fun t => now - rateLimitWindow < t)%Z l.

Lemma recent_later now now' l : (now <= now')%Z -> recentFailures now' (recentFailures now l) = recentFailures now' l.
Proof. intros H. apply list_filter_filter_l. intros t. unfold rateLimitWindow. lia. Qed.

Lemma recent_app now l t : (0 < rateLimitWindow)%Z -> recentFailures now (l ++ [t]) =
  recentFailures now l ++ (if bool_decide (now - rateLimitWindow < t)%Z then [t] else []).
Proof. intros _. unfold recentFailures. rewrite filter_app. f_equal. case_bool_decide; by rewrite filter_cons, ?decide_True, ?decide_False by done. Qed.

(** A list of attempts in the order they were made. *)
Definition attempts_ok (now : Z) (l : list Z) : Prop := StronglySorted Z.le l /\ Forall (fun t => t <= now)%Z l.

Lemma attempts_ok_later now now' l : (now <= now')%Z -> attempts_ok now l -> attempts_ok now' l.
Proof. intros Hle [Hs Hf]. split; [done|]. eapply Forall_impl; [exact Hf|]. simpl. lia. Qed.
Lemma attempts_ok_filter now (P : Z -> Prop) `{!forall t, Decision (P t)} l :
  attempts_ok now l -> attempts_ok now (filter P l).
Proof.
  intros [Hs Hf]. split; [by apply StronglySorted_filter'|]. rewrite Forall_forall in *.
  intros t [_ Ht]%list_elem_of_filter. by apply Hf.
Qed.
Lemma attempts_ok_snoc now l : attempts_ok now l -> attempts_ok now (l ++ [now]).
Proof.
  intros [Hs Hf]. split; [|apply Forall_app; split; [done|by constructor]].
  induction Hs as [|t l Hs IH Ht]; [by repeat constructor|]. apply Forall_cons in Hf as [Hn Hf]. simpl.
  constructor; [by apply IH|]. apply Forall_app. split; [done|by constructor].
Qed.

Lemma recent_none now l : Forall (fun t => t <= now - rateLimitWindow)%Z l -> recentFailures now l = [].
Proof. unfold recentFailures. induction 1 as [|t l Ht Hl IH]; [done|]. rewrite filter_cons, decide_False; [done|lia]. Qed.

(** A stale list has nothing recent. *)
Lemma stale_recent now l : attempts_ok now l -> isStale now l = true -> recentFailures now l = [].
Proof.
  intros [Hs _] Hst. apply recent_none. unfold isStale in Hst. destruct (last l) as [t|] eqn:Hl.
  - apply Z.ltb_lt in Hst. apply last_Some in Hl as [l' ->]. apply Forall_app. split.
    + apply Forall_forall. intros x Hx. assert (x <= t)%Z.
      { eapply (StronglySorted_app_1_elem_of Z.le l' [t]); [exact Hs|done|by left]. }
      unfold rateLimitBlockDuration, rateLimitWindow, Minute, Second in *. lia.
    + constructor; [|done]. unfold rateLimitBlockDuration, rateLimitWindow, Minute, Second in *. lia.
  - apply last_None in Hl. by subst.
Qed.

Lemma attemptsOf_insert ip a l rl : attemptsOf ip (<[a := l]> rl) = if decide (a = ip) then l else attemptsOf ip rl.
Proof. unfold attemptsOf. case_decide as Ha; [subst; by rewrite lookup_insert_eq|by rewrite lookup_insert_ne]. Qed.

Lemma attemptsOf_clean now ip rl :
  attempts_ok now (attemptsOf ip rl) ->
  attempts_ok now (attemptsOf ip (cleanLimiter now rl)) /\
  recentFailures now (attemptsOf ip (cleanLimiter now rl)) = recentFailures now (attemptsOf ip rl).
Proof.
  unfold attemptsOf, cleanLimiter. intros Hok. destruct (rl !! ip) as [l|] eqn:Hl.
  - destruct (isStale now l) eqn:Hst.
    + assert (filter (fun kv => isStale now kv.2 = false) rl !! ip = None) as ->.
      { apply map_lookup_filter_None. right. intros l' Hl'. simpl. congruence. }
      simpl in *. split; [split; constructor|]. by rewrite (stale_recent now l).
    + assert (filter (fun kv => isStale now kv.2 = false) rl !! ip = Some l) as ->; [by apply map_lookup_filter_Some|done].
  - assert (filter (fun kv => isStale now kv.2 = false) rl !! ip = None) as ->; [|done].
    apply map_lookup_filter_None. by left.
Qed.

(** What the limiter knows of an address: its attempts in order, none of the last minute
    missing. *)
Record limiter_knows (now : Z) (ip : string) (w : AuthWorld) : Prop := {
  lk_order : attempts_ok now (attemptsOf ip (aw_limiter w));
  lk_recent : recentFailures now (attemptsOf ip (aw_limiter w)) = recentFailures now (attemptsOf ip (aw_failures w))
}.

Lemma limiter_later now now' ip w : (now <= now')%Z -> limiter_knows now ip w -> limiter_knows now' ip w.
Proof.
  intros Hle [H1 H2]. constructor; [by eapply attempts_ok_later|].
  rewrite <-(recent_later now now' (attemptsOf ip (aw_limiter w))), H2 by done. by apply recent_later.
Qed.

Lemma recordFailure_ok now a ip rl fl :
  attempts_ok now (attemptsOf ip rl) -> recentFailures now (attemptsOf ip rl) = recentFailures now (attemptsOf ip fl) ->
  let rl' := recordFailure now a rl in let fl' := <[a := attemptsOf a fl ++ [now]]> fl in
  attempts_ok now (attemptsOf ip rl') /\ recentFailures now (attemptsOf ip rl') = recentFailures now (attemptsOf ip fl').
Proof.
  intros Hok Hrec rl' fl'. set (rl1 := <[a := attemptsOf a rl ++ [now]]> rl).
  assert (attempts_ok now (attemptsOf ip rl1) /\ recentFailures now (attemptsOf ip rl1) = recentFailures now (attemptsOf ip fl'))
    as [H1 H2].
  { unfold rl1, fl'. rewrite !attemptsOf_insert. case_decide; [subst a|done].
    split; [by apply attempts_ok_snoc|]. by rewrite !recent_app, Hrec. }
  unfold rl', recordFailure. fold rl1. destruct (_ <? _); [|done].
  destruct (attemptsOf_clean now ip rl1 H1) as [H3 H4]. split; [done|congruence].
Qed.

Lemma isBlocked_ok now a ip rl :
  attempts_ok now (attemptsOf ip rl) ->
  attempts_ok now (attemptsOf ip (isBlocked now a rl).1) /\
  recentFailures now (attemptsOf ip (isBlocked now a rl).1) = recentFailures now (attemptsOf ip rl).
Proof.
  intros Hok. unfold isBlocked. destruct (last _); [|done]. destruct (_ && _); [done|]. cbn.
  rewrite attemptsOf_insert. case_decide; [subst a|done]. split; [by apply attempts_ok_filter|].
  by apply (recent_later now now).
Qed.

(** A request that is not blocked sees fewer than ten recent failures. *)
Lemma isBlocked_false now ip rl :
  (isBlocked now ip rl).2 = false -> length (recentFailures now (attemptsOf ip rl)) < rateLimitMax.
Proof.
  unfold isBlocked. destruct (last (attemptsOf ip rl)) as [t|] eqn:Hl.
  - destruct (_ && _); [done|]. cbn [snd]. intros H%Nat.leb_gt. exact H.
  - apply last_None in Hl. rewrite Hl. intros _. unfold rateLimitMax. simpl. lia.
Qed.

(** *** Requests in flight *)

Lemma inFlight_insert ip i th m rl fl rl' fl' :
  inFlight ip (mkAuthWorld rl' (<[i := th]> m) fl') + (if from_option (isAdmitted ip) false (m !! i) then 1 else 0) =
  inFlight ip (mkAuthWorld rl m fl) + (if isAdmitted ip th then 1 else 0).
Proof. apply (count_insert (isAdmitted ip)). Qed.

(** ** Runs *)

(** What the key asks of a request that passes. *)
Definition holds_key (key : string) (r : AuthRequest) : Prop :=
  key = "" \/ isExempt r = true \/ aq_Authorization r <> "" /\ bearer r = key.
Definition thread_sound (key : string) (th : AuthThread) : Prop :=
  match th with
  | Decided r AuthPass => holds_key key r
  | _ => True
  end.

Lemma enterKeyAuth_pass key now r rl rl' : enterKeyAuth key now r rl = (rl', Some AuthPass) -> holds_key key r.
Proof.
  unfold enterKeyAuth. destruct (String.eqb_spec key ""); [by left|]. destruct (isExempt r) eqn:He; [by right; left|].
  by destruct (isBlocked _ _ _) as [? []].
Qed.
Lemma compareKey_pass key now r rl rl' : compareKey key now r rl = (rl', AuthPass) -> holds_key key r.
Proof.
  unfold compareKey. destruct (String.eqb_spec (aq_Authorization r) ""); [done|].
  destruct (String.eqb_spec (bearer r) key); [|done]. by right; right.
Qed.

Lemma sound_step key now w w' :
  auth_step key now w w' -> map_Forall (fun _ => thread_sound key) (aw_threads w) ->
  map_Forall (fun _ => thread_sound key) (aw_threads w').
Proof.
  intros Hstep Hs. destruct Hstep as [w i r Hi|w i th Hi|w]; cbn [aw_threads]; [by apply map_Forall_insert_2| |done].
  destruct th as [r|r|r v]; cbn [threadStep]; [| |done].
  - destruct (enterKeyAuth key now r (aw_limiter w)) as [rl [v|]] eqn:He; cbn [aw_threads]; apply map_Forall_insert_2; [|done..].
    destruct v; [|done]. by eapply enterKeyAuth_pass.
  - destruct (compareKey key now r (aw_limiter w)) as [rl v] eqn:Hc. cbn [aw_threads]. apply map_Forall_insert_2; [|done].
    destruct v; [|done]. by eapply compareKey_pass.
Qed.

(** The failures of the last minute and the requests in flight. *)
Definition pressure (now : Z) (ip : string) (w : AuthWorld) : nat :=
  length (recentFailures now (attemptsOf ip (aw_failures w))) + inFlight ip w.

Record auth_ok (ip : string) (now : Z) (peak : nat) (w : AuthWorld) : Prop := {
  ak_limiter : limiter_knows now ip w;
  ak_pressure : pressure now ip w < rateLimitMax + peak
}.

Lemma recent_length_later now now' l : (now <= now')%Z -> length (recentFailures now' l) <= length (recentFailures now l).
Proof. intros Hle. rewrite <-(recent_later now now') by done. unfold recentFailures at 1. apply length_filter. Qed.

Lemma thread_ok ip key now peak w i th :
  aw_threads w !! i = Some th -> auth_ok ip now peak w ->
  auth_ok ip now (peak `max` inFlight ip (threadStep key now i th w)) (threadStep key now i th w).
Proof.
  intros Hi [[Hord Hrec] Hp]. unfold pressure in Hp. destruct th as [r|r|r v]; cbn [threadStep].
  - unfold enterKeyAuth. assert (forall v, inFlight ip (mkAuthWorld (aw_limiter w) (<[i := Decided r v]> (aw_threads w)) (aw_failures w)) = inFlight ip w) as Hsame.
    { intros v. destruct w as [rl m fl]. pose proof (inFlight_insert ip i (Decided r v) m rl fl rl fl) as H. cbn in Hi. rewrite Hi in H. cbn in H. cbn. lia. }
    assert (forall v rl', attempts_ok now (attemptsOf ip rl') -> recentFailures now (attemptsOf ip rl') = recentFailures now (attemptsOf ip (aw_limiter w)) ->
      let w' := mkAuthWorld rl' (<[i := Decided r v]> (aw_threads w)) (aw_failures w) in auth_ok ip now (peak `max` inFlight ip w') w') as Hdec.
    { intros v rl' H1 H2 w'. specialize (Hsame v). change (inFlight ip w' = inFlight ip w) in Hsame.
      constructor; [constructor; [done|cbn; congruence]|]. unfold pressure. rewrite Hsame. change (aw_failures w') with (aw_failures w). lia. }
    destruct (String.eqb key ""); [by apply Hdec|]. destruct (isExempt r); [by apply Hdec|].
    destruct (isBlocked_ok now (clientIP r) ip (aw_limiter w) Hord) as [H1 H2].
    destruct (isBlocked now (clientIP r) (aw_limiter w)) as [rl' b] eqn:Hb. cbn [fst] in H1, H2.
    destruct b; [by apply Hdec|]. set (w' := mkAuthWorld rl' _ _).
    assert (inFlight ip w' = inFlight ip w + (if String.eqb (clientIP r) ip then 1 else 0)) as Hfl.
    { destruct w as [rl m fl]. pose proof (inFlight_insert ip i (Comparing r) m rl fl rl' fl) as H. cbn in Hi. rewrite Hi in H. cbn in H.
      unfold w'. cbn. lia. }
    constructor; [constructor; [done|cbn; congruence]|]. unfold pressure. rewrite Hfl. change (aw_failures w') with (aw_failures w).
    destruct (String.eqb_spec (clientIP r) ip) as [Heq|Hne]; [|lia].
    pose proof (isBlocked_false now ip (aw_limiter w)) as Hlt. rewrite <-Heq, Hb in Hlt. specialize (Hlt eq_refl).
    rewrite Heq, Hrec in Hlt. lia.
  - destruct (compareKey key now r (aw_limiter w)) as [rl' v] eqn:Hc. set (w' := mkAuthWorld rl' _ _).
    assert (inFlight ip w' + (if String.eqb (clientIP r) ip then 1 else 0) = inFlight ip w) as Hfl.
    { destruct w as [rl m fl]. pose proof (inFlight_insert ip i (Decided r v) m rl fl rl' (aw_failures w')) as H. cbn in Hi. rewrite Hi in H. cbn in H.
      unfold w'. cbn. unfold w' in H. cbn in H. lia. }
    destruct v as [|code].
    + assert (rl' = aw_limiter w) as -> by (revert Hc; unfold compareKey; repeat case_match; congruence).
      constructor; [done|]. unfold pressure. change (aw_failures w') with (aw_failures w). destruct (String.eqb _ _); lia.
    + assert (rl' = recordFailure now (clientIP r) (aw_limiter w)) as -> by (revert Hc; unfold compareKey; repeat case_match; congruence).
      destruct (recordFailure_ok now (clientIP r) ip _ _ Hord Hrec) as [H1 H2]. constructor; [done|].
      unfold pressure. cbn [aw_failures w']. rewrite attemptsOf_insert. destruct (String.eqb_spec (clientIP r) ip) as [Heq|Hne].
      * rewrite decide_True by done. rewrite recent_app by done. rewrite length_app, Heq. case_bool_decide; cbn [length]; lia.
      * rewrite decide_False by done. lia.
  - constructor; [done|]. unfold pressure. lia.
Qed.

Lemma auth_run_ok key ip now peak w : auth_run key ip now peak w -> auth_ok ip now peak w.
Proof.
  induction 1 as [now|now now' peak w w' _ [Hlk Hp] Hle Hstep].
  - constructor; [by repeat constructor|]. unfold pressure.
    replace (inFlight ip _) with 0 by (symmetry; apply count_empty).
    unfold rateLimitMax, attemptsOf. cbn [aw_failures]. rewrite lookup_empty. cbn. lia.
  - pose proof (limiter_later _ _ _ _ Hle Hlk) as Hlk'.
    assert (pressure now' ip w < rateLimitMax + peak) as Hp'.
    { unfold pressure in *. pose proof (recent_length_later now now' (attemptsOf ip (aw_failures w)) Hle). lia. }
    destruct Hstep as [w i r Hi|w i th Hi|w]; [|by apply thread_ok|].
    + assert (inFlight ip (mkAuthWorld (aw_limiter w) (<[i := Arrived r]> (aw_threads w)) (aw_failures w)) = inFlight ip w) as Hfl.
      { destruct w as [rl m fl]. pose proof (inFlight_insert ip i (Arrived r) m rl fl rl fl) as H. cbn in Hi. rewrite Hi in H. cbn in H. cbn. lia. }
      rewrite Hfl. constructor; [by destruct Hlk'|]. unfold pressure in *. rewrite Hfl. cbn [aw_failures]. lia.
    + destruct Hlk' as [H1 H2]. destruct (attemptsOf_clean now' ip _ H1) as [H3 H4].
      constructor; [constructor; [done|cbn; congruence]|]. unfold pressure in *. cbn [aw_failures]. change (inFlight ip (mkAuthWorld _ _ _)) with (inFlight ip w). lia.
Qed.

(** C40 With requests deciding at the same time in any order, a request passes only with the
    key, on the two open paths or when no key is set; in any minute an address fails at most
    nine times more than it had requests in flight at once; and once ten failures are on
    its list every request of it is refused until five minutes after the last one. *)
Theorem auth_guesses_bounded key ip now peak w :
  auth_run key ip now peak w ->
  (forall i r, aw_threads w !! i = Some (Decided r AuthPass) -> holds_key key r) /\
  length (recentFailures now (attemptsOf ip (aw_failures w))) <= 9 + peak /\
  (forall r now' t, key <> "" -> isExempt r = false -> clientIP r = ip ->
     last (attemptsOf ip (aw_limiter w)) = Some t -> 10 <= length (attemptsOf ip (aw_limiter w)) ->
     (now' < t + 5 * Minute)%Z -> apiKeyAuth key now' r (aw_limiter w) = (aw_limiter w, AuthRefuse 429)).
Proof.
  intros Hrun. split_and!.
  - assert (map_Forall (fun _ => thread_sound key) (aw_threads w)) as Hs.
    { clear -Hrun. induction Hrun as [|now now' peak w w' _ IH _ Hstep]; [apply map_Forall_empty|]. by eapply sound_step. }
    intros i r Hi. exact (Hs i _ Hi).
  - destruct (auth_run_ok _ _ _ _ _ Hrun) as [_ Hp]. unfold pressure, rateLimitMax in Hp. lia.
  - intros r now' t Hkey Hex Hip Hl Hlen Ht. unfold apiKeyAuth, enterKeyAuth.
    rewrite (proj2 (String.eqb_neq _ _)), Hex, Hip by done. unfold isBlocked. rewrite Hl.
    rewrite (proj2 (Nat.leb_le _ _)), (proj2 (Z.ltb_lt _ _)); [done| |done].
    unfold rateLimitBlockDuration. lia.
Qed.

(** ** The stack of middlewares *)

Lemma authorize_pass key adminKey now tokens g r rl :
  (authorize key adminKey now tokens g r rl).2 = AuthPass -> holds_key key r /\ routeAuth adminKey now tokens g r = AuthPass.
Proof.
  unfold authorize, apiKeyAuth. destruct (enterKeyAuth key now r rl) as [rl1 [v|]] eqn:He.
  - destruct v; [|done]. intros H. split; [by eapply enterKeyAuth_pass|done].
  - destruct (compareKey key now r rl1) as [rl2 v] eqn:Hc. destruct v; [|done]. intros H. split; [by eapply compareKey_pass|done].
Qed.

(** With a key set, the header of an internal request has to be the key and a worker token
    at once: unless a token is the key itself, none passes. *)
Lemma internal_routes_closed key adminKey now tokens r rl :
  key <> "" -> map_Forall (fun _ t => tk_Token t <> key) tokens -> isExempt r = false ->
  (authorize key adminKey now tokens RouteInternal r rl).2 <> AuthPass.
Proof.
  intros Hkey Htok Hex Hpass. destruct (authorize_pass _ _ _ _ _ _ _ Hpass) as [[?|[?|[_ Hb]]] Hr]; [done|congruence|].
  revert Hr. unfold routeAuth, workerTokenAuth. destruct (_ || _); [done|].
  destruct (List.find _ _) as [t|] eqn:Hf; [|done]. intros _.
  apply find_some in Hf as [Hin Heq%String.eqb_eq]. apply list_elem_of_In, list_elem_of_fmap in Hin as ([k t'] & -> & Hin).
  apply elem_of_map_to_list in Hin. destruct (Htok k t' Hin). simpl in *. congruence.
Qed.

(** ** Examples *)

Definition wrongKey (addr : string) : AuthRequest := mkAuthRequest "/api/v1/sessions" addr "Bearer guess" "".
Definition runThreads (key : string) (schedule : list (Z * nat)) (w : AuthWorld) : AuthWorld :=
  foldl (fun w s => match aw_threads w !! s.2 with Some th => threadStep key s.1 s.2 th w | None => w end) w schedule.

(** Thirty guesses that are in flight together are all compared. *)
Lemma burst_is_compared :
  let start := mkAuthWorld ∅ (list_to_map ((fun i => (i, Arrived (wrongKey "198.51.100.7:40000"))) <$> seq 0 30)) ∅ in
  let w := runThreads "secret" (((fun i => (Second, i)) <$> seq 0 30) ++ ((fun i => (Second, i)) <$> seq 0 30)) start in
  length (attemptsOf "198.51.100.7" (aw_failures w)) = 30.
Proof. vm_compute. reflexivity. Qed.

(** Every six seconds and a half a guess is never refused. *)
Lemma slow_guesses_pass :
  let rl := foldl (fun rl i => (apiKeyAuth "secret" (Z.of_nat i * 6500000000) (wrongKey "198.51.100.7:40000") rl).1) ∅ (seq 1 60) in
  (apiKeyAuth "secret" (61 * 6500000000) (wrongKey "198.51.100.7:40000") rl).2 = AuthRefuse 403.
Proof. vm_compute. reflexivity. Qed.

(** An address from a proxy's header has no port, and all of them are one for the limiter:
    ten failures of one client shut out the others. *)
Lemma proxied_clients_are_one :
  let rl := foldl (fun rl _ => (apiKeyAuth "secret" Second (wrongKey "198.51.100.7") rl).1) ∅ (seq 0 10) in
  let good := mkAuthRequest "/api/v1/sessions" "203.0.113.9" "Bearer secret" "" in
  (apiKeyAuth "secret" Minute good rl).2 = AuthRefuse 429.
Proof. vm_compute. reflexivity. Qed.

(** The certificate of the authority, meant to be open, asks for the key. *)
Lemma ca_cert_needs_key :
  (authorize "secret" "" 0 ∅ RoutePlain (mkAuthRequest "/ca.crt" "198.51.100.7:40000" "" "") ∅).2 = AuthRefuse 401.
Proof. vm_compute. reflexivity. Qed.

(** Without an admin key the admin routes ask for no admin token. *)
Lemma admin_open_without_key :
  (authorize "secret" "" 0 ∅ RouteAdmin (mkAuthRequest "/api/v1/admin/gc" "198.51.100.7:40000" "Bearer secret" "") ∅).2 = AuthPass.
Proof. vm_compute. reflexivity. Qed.

Lemma auth_guesses_bounded_witness :
  exists peak w, auth_run "secret" "198.51.100.7" Second peak w /\
    attemptsOf "198.51.100.7" (aw_failures w) = [Second] /\
    length (recentFailures Second (attemptsOf "198.51.100.7" (aw_failures w))) <= 9 + peak.
Proof.
  set (r := wrongKey "198.51.100.7:40000").
  set (w1 := mkAuthWorld ∅ (<[0 := Arrived r]> ∅) ∅).
  set (w2 := threadStep "secret" Second 0 (Arrived r) w1).
  set (w3 := threadStep "secret" Second 0 (Comparing r) w2).
  assert (exists peak, auth_run "secret" "198.51.100.7" Second peak w3) as [peak Hrun].
  { eexists. eapply (auth_next _ _ Second Second _ w2); [|reflexivity|apply (step_thread _ _ w2 0 (Comparing r)); vm_compute; reflexivity].
    eapply (auth_next _ _ Second Second _ w1); [|reflexivity|apply (step_thread _ _ w1 0 (Arrived r)); vm_compute; reflexivity].
    eapply (auth_next _ _ 0 Second _ (mkAuthWorld ∅ ∅ ∅)); [apply auth_start|vm_compute; discriminate|].
    apply (step_arrive _ _ (mkAuthWorld ∅ ∅ ∅) 0 r). vm_compute. reflexivity. }
  exists peak, w3. split; [exact Hrun|]. split; [vm_compute; reflexivity|].
  apply (auth_guesses_bounded "secret" "198.51.100.7" Second peak w3 Hrun).
Defined.
